(* ===== verification/_CoqProject ===== *)
-Q . S2P
Prelude.v
Utf8.v
Bitmap.v
Io.v
Manifest.v
Postcard.v
Message.v
Frame.v
Chunker.v
RelativePath.v
State.v
Link.v
FileSystem.v
Durable.v
AtomicFile.v
Identity.v
Handshake.v
RemoteAuth.v
Rights.v
Peers.v
NetRecovery.v
NodeWire.v
Dispatch.v
Addr.v
AddrText.v
Stun.v
StunProof.v
NatMapping.v
Punch.v
RelayWire.v
Relay.v
RelayProof.v
Storage.v
StorageProof.v
StorageCalm.v
Queue.v
Activity.v
SpaceBudget.v
TaskProtocol.v
TaskProtocolProof.v
TaskSession.v
Hexadecimal.v
Rules.v
ServeIdle.v
TunnelServe.v
Supervisor.v
Forwarding.v
NodeServices.v
UnixPath.v
ShortId.v
Settings.v
Signal.v
SignalProof.v
SignalClient.v
Registration.v
TaskModel.v
TaskModelProof.v
AutoResume.v
TaskStore.v
TaskStoreProof.v
TaskRestart.v
Configuration.v
Publish.v
PublishProof.v
Calendar.v
PublishResume.v
PublishExample.v
FrameBudget.v
Transfer.v
TransferProof.v
TaskTransfer.v
TaskMachine.v
TaskSender.v
TaskReceiver.v
