(* ===== verification/Prelude.v ===== *)
(** * A peer-to-peer file transfer node, verified

    This library models the program of src/ (Rust): a node that finds other nodes
    through a signaling server, connects to them directly or over a relay, agrees with
    them on rights, and moves files and TCP streams.  The definitions are translations of
    the source, executable wherever the source is; the theorems say what each part
    promises.  Paths below are relative to src/src/.

    ** How the parts interact

    A node has an identity (identity.rs).  It learns its addresses from STUN servers
    (nat/stun.rs, nat/classify.rs), registers them with the signaling server
    (discovery/signal.rs), which numbers devices (discovery/short_id.rs) and introduces
    two of them to each other, and opens the way by sending probes (nat/punch.rs) or
    through the relay (relay/).  Over the QUIC connection both sides prove their keys
    (transport/handshake.rs), settle rights (node/core/remote_auth.rs), negotiate what
    they can do (node/core/wire.rs), and share the streams of the connection
    (node/core/dispatch.rs) among file tasks, services and speed tests.  A file is
    described by a manifest (protocol/manifest.rs, transfer/chunker.rs), moved in chunks
    by a sender and a receiver loop, one for the command line (transfer/), one for the
    desktop node (node/core/transfer.rs) behind the gate of the task protocol
    (node/core/protocol.rs), written through a resumable download (storage/), and
    published under its name (node/core/publish.rs), while the task store
    (node/core/task_store.rs) keeps the durable record.  Services and tunnels forward
    TCP (node/core/services.rs, tunnel/).  The agent changes the settings of all that
    (node/host/configuration.rs).

    ** Files

    Foundations, used by all components:
    - Prelude: results with visible panics, integers at their widths, lists, text,
      tactics and hint databases;
    - Utf8, UnixPath, Addr, AddrText: the parts of the standard library the code uses
      (strings, paths, socket addresses and their text);
    - Io, Postcard, Hexadecimal: readers and writers, the serializer and the hex codec
      as interfaces with their laws, and instances that satisfy them;
    - State: the state-and-error monad of the models and the rules of its weakest
      precondition; Link: one side of a stream of messages, with the faults of its
      reads and writes;
    - FileSystem, Durable, AtomicFile: a directory with syncs, failing calls and power
      failures; a file staged, synced and renamed (storage/atomic.rs).

    Files and their content: Bitmap (transfer/resume.rs), Manifest
    (protocol/manifest.rs), Message and Frame (protocol/message.rs, frame.rs), Chunker
    (transfer/chunker.rs), RelativePath (storage/relative_path.rs); Storage, StorageProof
    and StorageCalm (storage/mod.rs: [Storage.PartialDownload], each method a definition
    of the same name); SpaceBudget (node/core/space_budget.rs); Transfer and
    TransferProof (transfer/sender.rs, receiver.rs); Publish, PublishProof,
    PublishResume, PublishExample and Calendar (node/core/publish.rs, the journal of
    storage/secure_fs.rs).

    Tasks: TaskModel and TaskModelProof (node/core/task_model.rs); TaskStore,
    TaskStoreProof and TaskRestart (task_store.rs, task_recovery.rs, task_events.rs);
    TaskProtocol, TaskProtocolProof and TaskSession (protocol.rs: [observe] and the
    speed-test arbiter); TaskTransfer, TaskMachine, TaskSender and TaskReceiver
    (transfer.rs: the loops of the two sides); Queue, Activity, FrameBudget, AutoResume
    (files of the same names).

    Connections: Identity, Handshake (identity.rs, transport/handshake.rs); RemoteAuth
    and Rights (remote_auth.rs); Peers (network_state.rs), NetRecovery
    (session/recovery.rs), NodeWire (wire.rs), Dispatch (dispatch.rs); Stun, StunProof
    and NatMapping (nat/stun.rs, classify.rs), Punch (nat/punch.rs); RelayWire, Relay and
    RelayProof (relay/wire.rs, server.rs); ShortId, Signal, SignalProof, SignalClient and
    Registration (discovery/).

    Services: Rules, Supervisor, ServeIdle, TunnelServe (tunnel/), NodeServices
    (node/core/services.rs, authorization.rs), Forwarding (node/host/forwarding.rs);
    Settings and Configuration (node/core/settings.rs, node/host/configuration.rs, the
    commands of host/agent.rs that change settings, CommitAgentPolicy of
    core/session.rs).

    ** How code is modelled

    - A struct is a [Record], an enum an [Inductive] with the source's constructors, a
      method a [Definition] or [Fixpoint] of its name.  A panic (index, slice,
      arithmetic, [unwrap]) is the result [Panic]; that it never occurs is proved.
      Integers are [Z] with their wrapping, saturating or checked operations.
    - [&mut self] with [Result] is [st S E A], which keeps the state on errors.
      What the environment does during a call (faults of the disk, answers of sockets, the
      clock, random bytes, what other tasks do between two critical sections) is an
      argument, over which the theorems quantify.
    - Tasks that run at once (the handlers of the signaling server, of services and
      tunnels, the worker of dispatch, the threads of ServeIdle) are cut at their awaits
      or at their accesses to shared state; an event is one such piece and a run any list of
      events.  What a lock protects is one piece.  ServeIdle takes the atomics as
      sequentially consistent.
    - A power failure is the relation [crash]: directory entries and pages that
      were not synced are kept or lost in any combination.  One that comes in the middle
      of an operation is the faults list that lets every later call fail, followed by
      [crash].
    - Third-party code is a parameter: [Blake3] (declared in Manifest), [Ed25519], [Argon2], [HmacSha256], [Hex],
      [HexDecode], [Postcard] and the JSON serializers, with laws ([Ed25519Laws],
      [PostcardLaws], [JsonLaws], ..) that state what their documentation says: decoding an
      encoding gives the value back, a signature made with a key verifies under it.  No law
      says that a hash has no collisions or that a signature cannot be forged; the theorems
      name the signature or the digest that was checked.  Every witness uses a concrete
      instance.
    - Texts of errors are tags.

    ** Groups of theorems

    - What the disk keeps: checkpoints, resuming, publication (from any point of
      failure, and finished by a later attempt), the task store and node.json after a
      crash.
    - What the two ends of a transfer do: the loops of both sides keep to an automaton
      whatever the peer, the disk and the user do; together they move the file;
      the table of tasks takes exactly the steps of the protocol, never refuses sides that
      keep to it, and agrees at both ends.
    - Who may do what: the handshake, rights and grants, services, tunnels, the policy
      and its commits.
    - Meetings: the signaling server's tables, its introductions, what a registering
      device is told whatever else happens, relay bindings, punching.
    - Resources and time: quotas, queues, frame memory, the dispatch of streams, recovery
      of tasks and of the network, idleness.
    - Round trips, exact acceptance of paths, frames, manifests, bitmaps, addresses.

    ** Fuel and bounds

    Loops whose end is not structural take fuel, and running out of it is [Panic] or the
    end of the events.  It is the length of the input or more: the bytes of a STUN
    message or of a string, the reads of a reader ([Chunker]), the events a loop meets
    ([TaskTransfer], [Punch]), the messages that arrive ([Transfer]), the ten thousand suffixes of
    a backup name ([Publish]).  A lemma next to each shows that it is enough, or the
    theorems conclude that the result is not [Panic].  Counters that could wrap at 2^64
    are bounded by a hypothesis on the number of events.

    ** Not modelled

    The graphical shell, the web and command line front ends, and the local IPC hold no
    state of the protocols.  QUIC, TLS, mDNS, SQLite and the JSON and postcard
    formats are third-party code.  The session actor is modelled through its components; its
    select loop, the connecting of sockets (net/), directory tasks, the memory speed
    test, the scan and comparison of directories, the FIFO byte limit and the event journal
    of the agent are not.  The Windows variants of file operations are left out. *)
From Stdlib Require Import ZArith Lia.
From stdpp Require Import prelude gmap strings.

#[local] Open Scope Z_scope.

(** ** Results: Rust's [Result], with panics made visible *)

(** [Ok]/[Err] are Rust's; [Panic] is a thread panic (out-of-range index,
    [unwrap] of [None]), so that "does not panic" is a statement. *)
Inductive outcome (E A : Type) : Type :=
  | Ok (a : A)
  | Err (e : E)
  | Panic.
Arguments Ok {E A} a.
Arguments Err {E A} e.
Arguments Panic {E A}.

Definition obind {E A B : Type} (m : outcome E A) (f : A -> outcome E B) : outcome E B :=
  match m with
  | Ok a => f a
  | Err e => Err e
  | Panic => Panic
  end.

Definition omap {E A B : Type} (f : A -> B) (m : outcome E A) : outcome E B :=
  obind m (fun a => Ok (f a)).

Definition map_err {E F A : Type} (f : E -> F) (m : outcome E A) : outcome F A :=
  match m with
  | Ok a => Ok a
  | Err e => Err (f e)
  | Panic => Panic
  end.

Definition ok_or {E A : Type} (o : option A) (e : E) : outcome E A :=
  match o with
  | Some a => Ok a
  | None => Err e
  end.

Definition unwrap {E A : Type} (o : option A) : outcome E A :=
  match o with
  | Some a => Ok a
  | None => Panic
  end.

(** [if cond { return Err(e) }]. *)
Definition fail_if {E : Type} (cond : bool) (e : E) : outcome E unit :=
  if cond then Err e else Ok tt.

Definition is_ok {E A : Type} (m : outcome E A) : bool :=
  match m with
  | Ok _ => true
  | _ => false
  end.

Definition is_err {E A : Type} (m : outcome E A) : bool :=
  match m with
  | Err _ => true
  | _ => false
  end.

Declare Scope rust_scope.
Delimit Scope rust_scope with rust.
Open Scope rust_scope.

(** Rust's [let x = m?; k]. *)
Notation "'let?' x ':=' m 'in' k" := (obind m (fun x => k))
  (at level 10, x pattern, m at level 200, k at level 200) : rust_scope.

Section Outcome.
  Context {E A B : Type}.
  Implicit Types (m : outcome E A) (f : A -> outcome E B).

Lemma obind_Ok m f b : obind m f = Ok b <-> exists a, m = Ok a /\ f a = Ok b.
Proof. destruct m; naive_solver. Qed.

Lemma obind_Err m f e :
  obind m f = Err e <-> m = Err e \/ exists a, m = Ok a /\ f a = Err e.
Proof. destruct m; naive_solver. Qed.

Lemma obind_Panic m f :
  obind m f = Panic <-> m = Panic \/ exists a, m = Ok a /\ f a = Panic.
Proof. destruct m; naive_solver. Qed.

Lemma omap_Ok (g : A -> B) m b : omap g m = Ok b <-> exists a, m = Ok a /\ b = g a.
Proof. unfold omap. rewrite obind_Ok. naive_solver. Qed.

Lemma ok_or_Ok (o : option A) (e : E) a : ok_or o e = Ok a <-> o = Some a.
Proof. destruct o; naive_solver. Qed.

Lemma fail_if_Ok (b : bool) (e : E) u : fail_if b e = Ok u <-> b = false.
Proof. destruct b, u; naive_solver. Qed.

Lemma is_ok_spec m : is_ok m = true <-> exists a, m = Ok a.
Proof. destruct m; naive_solver. Qed.
End Outcome.

(** Filtering with a fallible predicate: the first failure stops the scan. *)
Fixpoint filter_outcome {E A : Type} (p : A -> outcome E bool) (l : list A) :
    outcome E (list A) :=
  match l with
  | [] => Ok []
  | x :: l' =>
      let? keep := p x in
      let? rest := filter_outcome p l' in
      Ok (if keep then x :: rest else rest)
  end.

Lemma filter_outcome_pure {E A : Type} (p : A -> outcome E bool) (q : A -> bool) l :
  (forall x, x ∈ l -> p x = Ok (q x)) ->
  filter_outcome p l = Ok (List.filter q l).
Proof.
  induction l as [|x l IH]; intros Hp; [done|].
  cbn. rewrite Hp by set_solver. cbn.
  rewrite IH by (intros; apply Hp; set_solver). done.
Qed.

Lemma NoDup_list_filter {A : Type} (f : A -> bool) l : NoDup l -> NoDup (List.filter f l).
Proof.
  induction 1 as [|x l Hx Hl IH]; cbn; [constructor|]. destruct (f x); [|done].
  constructor; [|done]. rewrite list_elem_of_In, filter_In, <- list_elem_of_In. naive_solver.
Qed.

Lemma length_filter_split {A : Type} (f : A -> bool) l :
  (length (List.filter (fun x => negb (f x)) l) + length (List.filter f l) = length l)%nat.
Proof. induction l as [|x l IH]; cbn; [done|]. destruct (f x); cbn; lia. Qed.

(** Left fold with a fallible step: Rust's [for x in l { acc = f(acc, x)?; }]. *)
Fixpoint fold_outcome {E A B : Type} (f : B -> A -> outcome E B) (b : B) (l : list A) :
    outcome E B :=
  match l with
  | [] => Ok b
  | x :: l' => let? b' := f b x in fold_outcome f b' l'
  end.

Lemma fold_outcome_app {E A B : Type} (f : B -> A -> outcome E B) b l1 l2 :
  fold_outcome f b (l1 ++ l2) =
  let? b' := fold_outcome f b l1 in fold_outcome f b' l2.
Proof.
  revert b. induction l1 as [|x l1 IH]; intros b; [done|].
  cbn. destruct (f b x); cbn; auto.
Qed.

(** Invariant rule for [fold_outcome]. *)
Lemma fold_outcome_inv {E A B : Type} (P : B -> Prop) (f : B -> A -> outcome E B) b l b' :
  P b ->
  (forall c x c', P c -> f c x = Ok c' -> P c') ->
  fold_outcome f b l = Ok b' -> P b'.
Proof.
  revert b. induction l as [|x l IH]; cbn; intros b Hb Hstep H.
  - by simplify_eq.
  - apply obind_Ok in H as (c & Hc & H). eauto.
Qed.

(** ** The error type of the crate (src/error.rs) *)

(** [std::io::ErrorKind], the kinds the modelled code tells apart. *)
Inductive io_kind : Type :=
  | NotFound | AlreadyExists | Interrupted | UnexpectedEof | ConnectionReset
  | ConnectionRefused | NotConnected | StorageFull | TimedOut | PermissionDenied
  | InvalidInput | InvalidData | OtherKind.

#[global] Instance io_kind_eq_dec : EqDecision io_kind.
Proof. solve_decision. Defined.

(** The payload of the text variants is a short tag for the failing check; the
    rendered message (with its interpolated numbers) is not modelled. *)
Inductive error : Type :=
  | Io (kind : io_kind)
  | Encode
  | Stun (tag : string)
  | Protocol (tag : string)
  | Identity (tag : string)
  | Discovery (tag : string)
  | Transport (tag : string)
  | Unimplemented (tag : string).

#[global] Instance error_eq_dec : EqDecision error.
Proof. solve_decision. Defined.

Abbreviation result := (outcome error).

(** ** Machine integers *)

Definition U8_MAX : Z := 255.
Definition U16_MAX : Z := 65535.
Definition U32_MAX : Z := 4294967295.
Definition U64_MAX : Z := 18446744073709551615.
(** [usize] on the 64-bit targets the project ships. *)
Definition USIZE_MAX : Z := U64_MAX.

Definition in_range (max z : Z) : Prop := 0 <= z <= max.
Abbreviation is_u8 := (in_range U8_MAX).
Abbreviation is_u16 := (in_range U16_MAX).
Abbreviation is_u32 := (in_range U32_MAX).
Abbreviation is_u64 := (in_range U64_MAX).

#[global] Instance in_range_dec max z : Decision (in_range max z).
Proof. unfold in_range. apply _. Defined.

Definition checked_add (max a b : Z) : option Z :=
  if a + b <=? max then Some (a + b) else None.
Definition checked_mul (max a b : Z) : option Z :=
  if a * b <=? max then Some (a * b) else None.
Definition checked_sub (a b : Z) : option Z :=
  if b <=? a then Some (a - b) else None.
Definition saturating_add (max a b : Z) : Z := Z.min max (a + b).
Definition saturating_sub (a b : Z) : Z := Z.max 0 (a - b).
Definition wrapping_add (max a b : Z) : Z := (a + b) mod (max + 1).
(** Rust's [a.div_ceil(b)]; the callers establish [b <> 0]. *)
Definition div_ceil (a b : Z) : Z :=
  let q := a / b in
  if a mod b >? 0 then q + 1 else q.

Lemma checked_add_Some max a b c : checked_add max a b = Some c <-> c = a + b /\ a + b <= max.
Proof. unfold checked_add. destruct (Z.leb_spec (a + b) max); naive_solver lia. Qed.

Lemma checked_mul_Some max a b c : checked_mul max a b = Some c <-> c = a * b /\ a * b <= max.
Proof. unfold checked_mul. destruct (Z.leb_spec (a * b) max); naive_solver lia. Qed.

Lemma checked_sub_Some a b c : checked_sub a b = Some c <-> c = a - b /\ b <= a.
Proof. unfold checked_sub. destruct (Z.leb_spec b a); naive_solver lia. Qed.

Lemma div_ceil_spec a b : 0 <= a -> 0 < b ->
  (div_ceil a b - 1) * b < a <= div_ceil a b * b.
Proof.
  intros Ha Hb. unfold div_ceil.
  pose proof (Z.div_mod a b ltac:(lia)). pose proof (Z.mod_pos_bound a b Hb).
  destruct (Z.gtb_spec (a mod b) 0); nia.
Qed.

Lemma div_ceil_nonneg a b : 0 <= a -> 0 < b -> 0 <= div_ceil a b.
Proof. intros Ha Hb. pose proof (div_ceil_spec a b Ha Hb). nia. Qed.

(** [div_ceil] is the only count of [b]-sized blocks that covers [a]. *)
Lemma div_ceil_unique a b n : 0 < b -> (n - 1) * b < a <= n * b -> 0 <= a -> div_ceil a b = n.
Proof. intros Hb Hn Ha. pose proof (div_ceil_spec a b Ha Hb). nia. Qed.

(** ** Bytes and little/big endian integers *)

(** A byte is a [Z] in [0, 255]; a byte string is a [list Z]. *)
Abbreviation byte_list := (list Z).
Abbreviation are_bytes := (Forall is_u8).

(** [to_le_bytes]: [n] bytes, least significant first. *)
Fixpoint le_bytes (n : nat) (z : Z) : list Z :=
  match n with
  | O => []
  | S n' => z mod 256 :: le_bytes n' (z / 256)
  end.

(** [from_le_bytes]. *)
Fixpoint le_val (bs : list Z) : Z :=
  match bs with
  | [] => 0
  | b :: bs' => b + 256 * le_val bs'
  end.

Definition be_bytes (n : nat) (z : Z) : list Z := rev (le_bytes n z).
Definition be_val (bs : list Z) : Z := le_val (rev bs).

Lemma length_le_bytes n z : length (le_bytes n z) = n.
Proof. revert z. induction n; intros; cbn; auto. Qed.

Lemma length_be_bytes n z : length (be_bytes n z) = n.
Proof. unfold be_bytes. by rewrite length_rev, length_le_bytes. Qed.

Lemma le_bytes_are_bytes n z : are_bytes (le_bytes n z).
Proof.
  revert z. induction n; intros z; cbn; constructor; auto.
  unfold in_range, U8_MAX. pose proof (Z.mod_pos_bound z 256). lia.
Qed.

Lemma be_bytes_are_bytes n z : are_bytes (be_bytes n z).
Proof. unfold be_bytes. apply Forall_rev, le_bytes_are_bytes. Qed.

Lemma le_val_le_bytes n z : 0 <= z < 256 ^ Z.of_nat n -> le_val (le_bytes n z) = z.
Proof.
  revert z. induction n as [|n IH]; intros z Hz.
  - cbn in *. lia.
  - rewrite Nat2Z.inj_succ, Z.pow_succ_r in Hz by lia.
    cbn [le_bytes le_val]. rewrite IH.
    + pose proof (Z.div_mod z 256). lia.
    + split; [apply Z.div_pos; lia | apply Z.div_lt_upper_bound; lia].
Qed.

Lemma be_val_be_bytes n z : 0 <= z < 256 ^ Z.of_nat n -> be_val (be_bytes n z) = z.
Proof. intros. unfold be_val, be_bytes. rewrite rev_involutive. by apply le_val_le_bytes. Qed.

Lemma le_val_bound bs : are_bytes bs -> 0 <= le_val bs < 256 ^ Z.of_nat (length bs).
Proof.
  induction 1 as [|b bs Hb _ IH]; cbn [length le_val]; [cbn; lia|].
  rewrite Nat2Z.inj_succ, Z.pow_succ_r by lia.
  unfold in_range, U8_MAX in Hb. lia.
Qed.

Lemma le_bytes_le_val bs : are_bytes bs -> le_bytes (length bs) (le_val bs) = bs.
Proof.
  induction 1 as [|b bs Hb _ IH]; cbn [length le_val le_bytes]; [done|].
  unfold in_range, U8_MAX in Hb.
  rewrite (Z.mul_comm 256), Z_mod_plus_full, Z.mod_small by lia.
  rewrite Z.div_add, Z.div_small, Z.add_0_l, IH by lia. done.
Qed.

(** ** Strings *)

(** A Rust [str] is the list of its Unicode scalar values; [str.len()] counts
    the bytes of its UTF-8 encoding. *)
Abbreviation str := (list Z).

(** The characters of an ASCII literal of the source. *)
Fixpoint lit (s : string) : list Z :=
  match s with
  | EmptyString => []
  | String a s' => Z.of_N (Ascii.N_of_ascii a) :: lit s'
  end.

Definition utf8_char (c : Z) : list Z :=
  if c <? 128 then [c]
  else if c <? 2048 then [192 + c / 64; 128 + c mod 64]
  else if c <? 65536 then [224 + c / 4096; 128 + (c / 64) mod 64; 128 + c mod 64]
  else [240 + c / 262144; 128 + (c / 4096) mod 64; 128 + (c / 64) mod 64; 128 + c mod 64].

(** [str::as_bytes]. *)
Definition utf8 (s : list Z) : list Z := concat (map utf8_char s).

(** [str::len]. *)
Definition str_len (s : list Z) : Z := Z.of_nat (length (utf8 s)).

(** [char::is_control]: general category Cc. *)
Definition is_control (c : Z) : bool := (c <=? 31) || ((127 <=? c) && (c <=? 159)).

(** [char::is_whitespace]: the Unicode White_Space property. *)
Definition is_whitespace (c : Z) : bool :=
  ((9 <=? c) && (c <=? 13)) || ((8192 <=? c) && (c <=? 8202)) ||
  bool_decide (c ∈ [32; 133; 160; 5760; 8232; 8233; 8239; 8287; 12288]).

Definition to_ascii_upper (c : Z) : Z := if (97 <=? c) && (c <=? 122) then c - 32 else c.

Definition is_ascii_digit (c : Z) : bool := (48 <=? c) && (c <=? 57).

(** [str::eq_ignore_ascii_case]. *)
Definition eq_ignore_ascii_case (a b : list Z) : bool :=
  bool_decide (map to_ascii_upper a = map to_ascii_upper b).

(** [str::trim_start_matches(p)] and both-sided trimming. *)
Fixpoint trim_start (p : Z -> bool) (s : list Z) : list Z :=
  match s with
  | c :: s' => if p c then trim_start p s' else s
  | [] => []
  end.
Definition trim_matches (p : Z -> bool) (s : list Z) : list Z :=
  rev (trim_start p (rev (trim_start p s))).
Definition trim (s : list Z) : list Z := trim_matches is_whitespace s.

(** [str::split(p)]: always at least one piece. *)
Fixpoint split (p : Z -> bool) (s : list Z) : list (list Z) :=
  match s with
  | [] => [[]]
  | c :: s' =>
      if p c then [] :: split p s'
      else match split p s' with
           | piece :: rest => (c :: piece) :: rest
           | [] => [[c]]
           end
  end.

(** [bytes.starts_with(prefix)]. *)
Definition starts_with (s prefix : list Z) : bool :=
  bool_decide (take (length prefix) s = prefix).

(** [hex::encode], of a third-party crate: a parameter. Nothing is assumed of it
    (file names that collide only make two downloads share a candidate). *)
Class Hex : Type := hex_encode : list Z -> list Z.

(** [u64::to_string]; a number below [2^(k+1)] has at most [k+1] digits. *)
Fixpoint decimal_digits (fuel : nat) (n : Z) : list Z :=
  match fuel with
  | O => []
  | S fuel' =>
      if n <? 10 then [48 + n] else decimal_digits fuel' (n / 10) ++ [48 + n mod 10]
  end.
Definition decimal (n : Z) : list Z := decimal_digits (S (Z.to_nat (Z.log2 n))) n.

Lemma starts_with_app prefix s : starts_with (prefix ++ s) prefix = true.
Proof. unfold starts_with. by rewrite take_app_length, bool_decide_true. Qed.

Lemma starts_with_inv s prefix :
  starts_with s prefix = true -> s = prefix ++ drop (length prefix) s.
Proof.
  unfold starts_with. rewrite bool_decide_eq_true. intros H.
  rewrite <- H at 1. by rewrite take_drop.
Qed.

Lemma trim_start_suffix p s : exists pre, s = pre ++ trim_start p s.
Proof.
  induction s as [|c s [pre IH]]; cbn; [by exists []|].
  destruct (p c); [exists (c :: pre); cbn; by f_equal | by exists []].
Qed.

Lemma trim_start_head p s c s' : trim_start p s = c :: s' -> p c = false.
Proof.
  induction s as [|d s IH]; cbn; [done|]. destruct (p d) eqn:E; naive_solver.
Qed.

(** A Unicode scalar value (surrogates included: only the bound matters here). *)
Definition is_scalar (c : Z) : Prop := 0 <= c < 1114112.

Lemma utf8_char_app_inj c d s t : is_scalar c -> is_scalar d ->
  utf8_char c ++ s = utf8_char d ++ t -> c = d /\ s = t.
Proof.
  unfold is_scalar, utf8_char. intros Hc Hd.
  destruct (Z.ltb_spec c 128), (Z.ltb_spec d 128);
  destruct (Z.ltb_spec c 2048), (Z.ltb_spec d 2048); try lia;
  destruct (Z.ltb_spec c 65536), (Z.ltb_spec d 65536); try lia;
  cbn [app]; intros E;
  repeat match goal with
  | H : _ :: _ = _ :: _ |- _ => injection H as ? H
  end; (split; [Z.to_euclidean_division_equations; lia | done]) ||
       (exfalso; Z.to_euclidean_division_equations; lia).
Qed.

(** UTF-8 is injective. *)
Lemma utf8_inj s t : Forall is_scalar s -> Forall is_scalar t -> utf8 s = utf8 t -> s = t.
Proof.
  intros Hs. revert t. induction Hs as [|c s Hc Hs IH]; intros t Ht E; unfold utf8 in *; cbn in E.
  - destruct t as [|d t]; [done|]. exfalso. cbn in E. unfold utf8_char in E.
    repeat case_match; done.
  - destruct t as [|d t]; cbn in E.
    { exfalso. unfold utf8_char in E. repeat case_match; done. }
    apply Forall_cons in Ht as [Hd Ht].
    apply utf8_char_app_inj in E as [-> E]; [|done..]. f_equal. by apply IH.
Qed.

Lemma le_bytes_inj n a b : 0 <= a < 256 ^ Z.of_nat n -> 0 <= b < 256 ^ Z.of_nat n ->
  le_bytes n a = le_bytes n b -> a = b.
Proof. intros Ha Hb E. by rewrite <- (le_val_le_bytes n a), <- (le_val_le_bytes n b), E. Qed.

(** Fixed-width pieces can be split off a concatenation. *)
Lemma app_le_inj n a b (s t : list Z) :
  0 <= a < 256 ^ Z.of_nat n -> 0 <= b < 256 ^ Z.of_nat n ->
  le_bytes n a ++ s = le_bytes n b ++ t -> a = b /\ s = t.
Proof.
  intros Ha Hb E. apply app_inj_1 in E as [E ->]; [|by rewrite !length_le_bytes].
  split; [by eapply le_bytes_inj | done].
Qed.

(** ASCII text is its own encoding. *)
Lemma utf8_ascii l : Forall (fun c => c < 128) l -> utf8 l = l.
Proof.
  induction 1 as [|c l Hc _ IH]; [done|]. unfold utf8 in *. cbn. rewrite IH. unfold utf8_char.
  by destruct (Z.ltb_spec c 128); [|lia].
Qed.

Lemma decimal_digits_nonempty fuel n : (0 < fuel)%nat -> decimal_digits fuel n <> [].
Proof.
  destruct fuel as [|fuel]; intros Hn; [lia|].
  cbn. destruct (n <? 10); [done|]. by destruct (decimal_digits fuel (n / 10)).
Qed.

(** Enough fuel makes the digits independent of it. *)
Lemma decimal_digits_fuel f g n : 0 <= n < 2 ^ Z.of_nat f -> n < 2 ^ Z.of_nat g ->
  (0 < f)%nat -> (0 < g)%nat -> decimal_digits f n = decimal_digits g n.
Proof.
  revert g n. induction f as [|f IH]; intros g n Hf Hg Hpf Hpg; [lia|].
  destruct g as [|g]; [lia|]. cbn [decimal_digits]. destruct (Z.ltb_spec n 10); [done|].
  f_equal. rewrite Nat2Z.inj_succ, Z.pow_succ_r in Hf, Hg by lia.
  destruct f as [|f]; [change (2 ^ Z.of_nat 0) with 1 in *; lia|].
  destruct g as [|g]; [change (2 ^ Z.of_nat 0) with 1 in *; lia|].
  apply IH; try lia.
  - split; [apply Z.div_pos; lia | apply Z.div_lt_upper_bound; lia].
  - apply Z.div_lt_upper_bound; lia.
Qed.

Lemma decimal_digits_inj f a b : 0 <= a < 2 ^ Z.of_nat f -> 0 <= b < 2 ^ Z.of_nat f ->
  (0 < f)%nat -> decimal_digits f a = decimal_digits f b -> a = b.
Proof.
  revert a b. induction f as [|f IH]; intros a b Ha Hb Hf E; [lia|]. cbn [decimal_digits] in E.
  rewrite Nat2Z.inj_succ, Z.pow_succ_r in Ha, Hb by lia.
  assert (forall n, 10 <= n < 2 * 2 ^ Z.of_nat f ->
    (0 < f)%nat /\ 0 <= n / 10 < 2 ^ Z.of_nat f /\ decimal_digits f (n / 10) <> []) as Hq.
  { intros n Hn. destruct f as [|f']; [change (2 ^ Z.of_nat 0) with 1 in *; lia|]. split; [lia|].
    assert (0 <= n / 10 < 2 ^ Z.of_nat (S f')) as Hb'
      by (split; [apply Z.div_pos; lia | apply Z.div_lt_upper_bound; lia]).
    split; [done|]. apply decimal_digits_nonempty. lia. }
  destruct (Z.ltb_spec a 10), (Z.ltb_spec b 10).
  - injection E as E. lia.
  - exfalso. destruct (Hq b) as (_ & _ & Hne); [lia|].
    destruct (decimal_digits f (b / 10)); [done|]. by destruct l.
  - exfalso. destruct (Hq a) as (_ & _ & Hne); [lia|].
    destruct (decimal_digits f (a / 10)); [done|]. by destruct l.
  - apply app_inj_tail in E as [E Em]. destruct (Hq a) as (Hf0 & Ha' & _); [lia|].
    destruct (Hq b) as (_ & Hb' & _); [lia|]. apply IH in E; [|done..].
    pose proof (Z.div_mod a 10). pose proof (Z.div_mod b 10). lia.
Qed.

Lemma decimal_inj a b : 0 <= a -> 0 <= b -> decimal a = decimal b -> a = b.
Proof.
  intros Ha Hb. unfold decimal.
  set (f := S (Nat.max (Z.to_nat (Z.log2 a)) (Z.to_nat (Z.log2 b)))).
  assert (forall n k, 0 <= n -> (Z.to_nat (Z.log2 n) < k)%nat -> n < 2 ^ Z.of_nat k) as Hlt.
  { intros n k Hn Hk. destruct (Z.eq_dec n 0) as [->|]; [lia|].
    pose proof (Z.log2_spec n ltac:(lia)) as Hl. pose proof (Z.log2_nonneg n).
    eapply Z.lt_le_trans; [apply Hl|]. apply Z.pow_le_mono_r; lia. }
  rewrite (decimal_digits_fuel _ f a), (decimal_digits_fuel _ f b);
    try (subst f; lia); try (split; [done|]); try (apply Hlt; subst f; lia).
  intros E. apply (decimal_digits_inj f); [split; [done|]; apply Hlt; subst f; lia..|subst f; lia|done].
Qed.

(** Concatenation of equally long blocks is injective. *)
Lemma concat_inj {A} (n : nat) (xs ys : list (list A)) :
  Forall (fun x => length x = n) xs -> Forall (fun y => length y = n) ys ->
  length xs = length ys -> concat xs = concat ys -> xs = ys.
Proof.
  intros Hx. revert ys. induction Hx as [|x xs Hx1 Hx IH]; intros [|y ys] Hy Hl E; try done.
  apply Forall_cons in Hy as [Hy1 Hy]. cbn in *.
  apply app_inj_1 in E as [-> E]; [|congruence]. f_equal. apply IH; auto.
Qed.

(** ** Counting in maps *)

(** [map.values().filter(p).count()]. *)
Definition count {K V : Type} `{Countable K} (p : K -> V -> bool) (m : gmap K V) : Z :=
  Z.of_nat (size (filter (fun kv => p kv.1 kv.2 = true) m)).

Section Count.
Context {K V : Type} `{Countable K}.
Implicit Types (m : gmap K V) (p : K -> V -> bool).

Lemma count_nonneg p m : 0 <= count p m.
Proof. unfold count. lia. Qed.

Lemma count_insert_new p m k x : m !! k = None ->
  count p (<[k := x]> m) = count p m + (if p k x then 1 else 0).
Proof.
  intros Hk. unfold count. destruct (p k x) eqn:E.
  - rewrite map_filter_insert_True by done.
    rewrite map_size_insert_None; [lia|]. apply map_lookup_filter_None. by left.
  - rewrite map_filter_insert_False by (cbn; congruence). rewrite delete_id by done. lia.
Qed.

Lemma count_insert_same p m k x y : m !! k = Some y -> p k x = p k y ->
  count p (<[k := x]> m) = count p m.
Proof.
  intros Hk E. unfold count. destruct (p k x) eqn:Ex.
  - rewrite map_filter_insert_True by done.
    rewrite map_size_insert_Some; [done|]. exists y. by apply map_lookup_filter_Some.
  - rewrite map_filter_insert_False by (cbn; congruence).
    replace (filter (fun kv => p kv.1 kv.2 = true) (delete k m)) with
      (filter (fun kv => p kv.1 kv.2 = true) m); [done|].
    apply map_filter_strong_ext. intros i z. rewrite lookup_delete_Some. naive_solver congruence.
Qed.

Lemma count_subseteq p m1 m2 : m1 ⊆ m2 -> count p m1 <= count p m2.
Proof.
  intros Hs. unfold count. apply inj_le, map_subseteq_size, map_subseteq_spec.
  intros k x. rewrite !map_lookup_filter_Some. intros [E ?]. split; [|done]. by eapply lookup_weaken.
Qed.

Lemma count_le_ext p q m : (forall k x, m !! k = Some x -> p k x = true -> q k x = true) ->
  count p m <= count q m.
Proof.
  intros Hpq. unfold count. apply inj_le, map_subseteq_size, map_subseteq_spec.
  intros k x. rewrite !map_lookup_filter_Some. naive_solver.
Qed.

Lemma count_none p m : (forall k x, m !! k = Some x -> p k x = false) -> count p m = 0.
Proof.
  intros Hp. unfold count. replace (filter (fun kv => p kv.1 kv.2 = true) m) with (∅ : gmap K V).
  - by rewrite map_size_empty.
  - symmetry. apply map_empty. intros k. apply map_lookup_filter_None. right. cbn.
    intros x E. by rewrite (Hp k x E).
Qed.

Lemma count_split p m :
  count p m + count (fun k x => negb (p k x)) m = Z.of_nat (size m).
Proof.
  induction m as [|k x m Hk IH] using map_ind.
  { by rewrite !count_none by (intros *; by rewrite lookup_empty). }
  rewrite !count_insert_new, map_size_insert_None by done. destruct (p k x); cbn; lia.
Qed.

Lemma count_delete_le p m k : count p (delete k m) <= count p m.
Proof. apply count_subseteq, delete_subseteq. Qed.

Lemma count_delete p m k x : m !! k = Some x -> count p (delete k m) = count p m - (if p k x then 1 else 0).
Proof.
  intros Hk. rewrite <- (insert_delete_id m k x Hk) at 2. rewrite count_insert_new by apply lookup_delete_eq. lia.
Qed.

Lemma count_update p m k x y : m !! k = Some y ->
  count p (<[k := x]> m) = count p m - (if p k y then 1 else 0) + (if p k x then 1 else 0).
Proof.
  intros Hk. rewrite <- insert_delete_eq, count_insert_new by apply lookup_delete_eq. by rewrite (count_delete p m k y Hk).
Qed.

Lemma count_pos p m k x : m !! k = Some x -> p k x = true -> 1 <= count p m.
Proof. intros Hk Hp. pose proof (count_delete p m k x Hk) as E. rewrite Hp in E. pose proof (count_nonneg p (delete k m)). lia. Qed.

Lemma count_some p m : 0 < count p m -> exists k x, m !! k = Some x /\ p k x = true.
Proof.
  intros Hc. unfold count in Hc. destruct (decide (filter (fun kv => p kv.1 kv.2 = true) m = ∅)) as [E|E].
  - rewrite E, map_size_empty in Hc. lia.
  - apply map_choose in E as (k & x & [Hk Hp]%map_lookup_filter_Some). by exists k, x.
Qed.
End Count.

(** ** Traces *)

(** What a machine showed, each effect with the state it was made in; [ok] judges an
    effect by what came before it. *)
Section Trace.
Context {S E : Type} (ok : list (S * E) -> S -> E -> Prop).

Definition trace_ok (tr : list (S * E)) : Prop := forall tr1 s e tr2, tr = tr1 ++ (s, e) :: tr2 -> ok tr1 s e.

Lemma trace_ok_nil : trace_ok [].
Proof. intros tr1 s e tr2 E0. by destruct tr1. Qed.

Lemma trace_ok_snoc tr s e : trace_ok tr -> ok tr s e -> trace_ok (tr ++ [(s, e)]).
Proof.
  intros Ht He tr1 s1 e1 tr2 E0. destruct tr2 as [|x l _] using rev_ind.
  - apply app_inj_2 in E0 as [-> [= -> ->]]; [done|done].
  - rewrite app_comm_cons, app_assoc in E0. apply app_inj_2 in E0 as [-> _]; [|done]. by eapply Ht.
Qed.
End Trace.

(** ** Tactics *)

(** Invert a chain of successful [let?] steps. *)
Ltac inv_ok :=
  repeat match goal with
  | H : obind _ _ = Ok _ |- _ => apply obind_Ok in H as (? & ? & H)
  | H : omap _ _ = Ok _ |- _ => apply omap_Ok in H as (? & ? & H)
  | H : ok_or _ _ = Ok _ |- _ => apply ok_or_Ok in H
  | H : fail_if _ _ = Ok _ |- _ => apply fail_if_Ok in H
  | H : Ok _ = Ok _ |- _ => injection H as H
  | H : Err _ = Ok _ |- _ => discriminate H
  | H : Panic = Ok _ |- _ => discriminate H
  | u : unit |- _ => destruct u
  end; subst.

(** Turn boolean comparisons in the context into arithmetic facts. *)
Ltac bool_hyps :=
  repeat match goal with
  | H : _ && _ = true |- _ => apply andb_true_iff in H as [? ?]
  | H : _ || _ = false |- _ => apply orb_false_iff in H as [? ?]
  | H : negb _ = true |- _ => apply negb_true_iff in H
  | H : negb _ = false |- _ => apply negb_false_iff in H
  | H : (_ <=? _) = true |- _ => apply Z.leb_le in H
  | H : (_ <=? _) = false |- _ => apply Z.leb_gt in H
  | H : (_ <? _) = true |- _ => apply Z.ltb_lt in H
  | H : (_ <? _) = false |- _ => apply Z.ltb_ge in H
  | H : (_ >? _) = true |- _ => rewrite Z.gtb_ltb in H
  | H : (_ >? _) = false |- _ => rewrite Z.gtb_ltb in H
  | H : (_ >=? _) = true |- _ => rewrite Z.geb_leb in H
  | H : (_ >=? _) = false |- _ => rewrite Z.geb_leb in H
  | H : (_ =? _) = true |- _ => apply Z.eqb_eq in H
  | H : (_ =? _) = false |- _ => apply Z.eqb_neq in H
  | H : bool_decide _ = true |- _ => apply bool_decide_eq_true in H
  | H : bool_decide _ = false |- _ => apply bool_decide_eq_false in H
  end.

Create HintDb rust.
#[export] Hint Rewrite length_le_bytes length_be_bytes : rust.
#[export] Hint Resolve le_bytes_are_bytes be_bytes_are_bytes div_ceil_nonneg : rust.

(** ** Code that does not panic *)

Section Calm.
Context {E : Type}.

Lemma calm_bind {A B} (m : outcome E A) (f : A -> outcome E B) : m <> Panic -> (forall a, m = Ok a -> f a <> Panic) -> obind m f <> Panic.
Proof. destruct m; naive_solver. Qed.

Lemma calm_fail_if (b : bool) (e : E) : fail_if b e <> Panic.
Proof. by destruct b. Qed.

Lemma calm_ok_or {A} (o : option A) (e : E) : ok_or o e <> Panic.
Proof. by destruct o. Qed.

Lemma calm_map_err {F A} (f : E -> F) (m : outcome E A) : m <> Panic -> map_err f m <> Panic.
Proof. by destruct m. Qed.

Lemma calm_fold {A B} (f : B -> A -> outcome E B) b l : (forall c x, x ∈ l -> f c x <> Panic) -> fold_outcome f b l <> Panic.
Proof.
  revert b. induction l as [|x l IH]; intros b Hf; [done|]. cbn. apply calm_bind; [apply Hf; by left|].
  intros c _. apply IH. intros. apply Hf. by right.
Qed.
End Calm.

Create HintDb calm.
#[export] Hint Resolve calm_fail_if calm_ok_or calm_map_err : calm.

(** Goes through a body; what it calls is in the database. *)
Ltac calm :=
  repeat first
    [ done | solve [auto 2 with calm] | apply calm_map_err | apply calm_fold; intros | apply calm_bind; [|intros ? _] | case_match ].
