(* ===== verification/Utf8.v ===== *)
(** * UTF-8 (the standard library's [String])

    [String::from_utf8_lossy] and [str::from_utf8], with the round trip of
    well-formed strings.  [utf8] of the prelude is [str::as_bytes]. *)
From Stdlib Require Import ZArith Lia.
From stdpp Require Import prelude.
From S2P Require Import Prelude.

#[local] Open Scope Z_scope.

Module Utf8.

(** A Unicode scalar value. *)
Definition scalar (c : Z) : Prop := (0 <= c < 55296) \/ (57344 <= c < 1114112).

Definition between (lo hi b : Z) : bool := (lo <=? b) && (b <=? hi).
Definition continuation (b : Z) : bool := between 128 191 b.

(** The second byte a lead byte of three or four allows. *)
Definition second3 (lead b : Z) : bool :=
  if lead =? 224 then between 160 191 b
  else if lead =? 237 then between 128 159 b else continuation b.
Definition second4 (lead b : Z) : bool :=
  if lead =? 240 then between 144 191 b
  else if lead =? 244 then between 128 143 b else continuation b.

(** The first character: its code and the bytes after it, or the number of bytes
    of the ill-formed part (the longest valid beginning, at least one). *)
Inductive step_result : Type :=
  | Char (c : Z) (rest : list Z)
  | Ill (rest : list Z).

Definition next_char (b : Z) (rest : list Z) : step_result :=
  if b <? 128 then Char b rest
  else if between 194 223 b then
    match rest with
    | b1 :: r1 => if continuation b1 then Char ((b - 192) * 64 + (b1 - 128)) r1 else Ill rest
    | [] => Ill rest
    end
  else if between 224 239 b then
    match rest with
    | b1 :: r1 =>
        if second3 b b1 then
          match r1 with
          | b2 :: r2 =>
              if continuation b2 then
                Char ((b - 224) * 4096 + (b1 - 128) * 64 + (b2 - 128)) r2
              else Ill r1
          | [] => Ill r1
          end
        else Ill rest
    | [] => Ill rest
    end
  else if between 240 244 b then
    match rest with
    | b1 :: r1 =>
        if second4 b b1 then
          match r1 with
          | b2 :: r2 =>
              if continuation b2 then
                match r2 with
                | b3 :: r3 =>
                    if continuation b3 then
                      Char ((b - 240) * 262144 + (b1 - 128) * 4096 + (b2 - 128) * 64 + (b3 - 128)) r3
                    else Ill r2
                | [] => Ill r2
                end
              else Ill r1
          | [] => Ill r1
          end
        else Ill rest
    | [] => Ill rest
    end
  else Ill rest.

(** [String::from_utf8_lossy]: U+FFFD for every ill-formed part; fuel is the
    number of bytes. *)
Fixpoint lossy_loop (fuel : nat) (bytes : list Z) : list Z :=
  match fuel, bytes with
  | S fuel', b :: rest =>
      match next_char b rest with
      | Char c r => c :: lossy_loop fuel' r
      | Ill r => 65533 :: lossy_loop fuel' r
      end
  | _, _ => []
  end.
Definition from_utf8_lossy (bytes : list Z) : list Z := lossy_loop (length bytes) bytes.

(** [str::from_utf8]. *)
Fixpoint strict_loop (fuel : nat) (bytes : list Z) : option (list Z) :=
  match fuel, bytes with
  | _, [] => Some []
  | S fuel', b :: rest =>
      match next_char b rest with
      | Char c r => (fun s => c :: s) <$> strict_loop fuel' r
      | Ill _ => None
      end
  | O, _ => None
  end.
Definition from_utf8 (bytes : list Z) : option (list Z) := strict_loop (length bytes) bytes.

(** ** Round trip *)

Ltac decide_bytes :=
  repeat match goal with
  | |- context [?a <? ?b] => destruct (Z.ltb_spec a b); try lia
  | |- context [?a <=? ?b] => destruct (Z.leb_spec a b); try lia
  | |- context [?a =? ?b] => destruct (Z.eqb_spec a b); try lia
  end; cbn [andb].

Lemma digit_bounds c k : 0 <= c -> 0 < k -> 0 <= (c / k) mod 64 < 64 /\ 0 <= c / k.
Proof. intros. split; [apply Z.mod_pos_bound; lia|apply Z.div_pos; lia]. Qed.

Lemma next_char_utf8 c rest : scalar c ->
  exists b r, utf8_char c ++ rest = b :: r /\ next_char b r = Char c rest.
Proof.
  intros Hc. unfold utf8_char, scalar in *.
  pose proof (Z.div_mod c 64 ltac:(lia)) as H1. pose proof (Z.mod_pos_bound c 64 ltac:(lia)).
  pose proof (Z.div_mod (c / 64) 64 ltac:(lia)) as H2. pose proof (Z.mod_pos_bound (c / 64) 64 ltac:(lia)).
  pose proof (Z.div_mod (c / 64 / 64) 64 ltac:(lia)) as H3. pose proof (Z.mod_pos_bound (c / 64 / 64) 64 ltac:(lia)).
  rewrite (Z.div_div c 64 64) in * by lia. change (64 * 64) with 4096 in *.
  rewrite (Z.div_div c 4096 64) in * by lia. change (4096 * 64) with 262144 in *.
  assert (0 <= c / 262144) by (apply Z.div_pos; lia).
  destruct (Z.ltb_spec c 128); [|destruct (Z.ltb_spec c 2048); [|destruct (Z.ltb_spec c 65536)]];
    do 2 eexists; (split; [reflexivity|]); unfold next_char, second3, second4, continuation, between;
    cbn [app].
  - decide_bytes; done.
  - decide_bytes; f_equal; lia.
  - decide_bytes; f_equal; lia.
  - decide_bytes; f_equal; lia.
Qed.

Lemma utf8_cons c s : utf8 (c :: s) = utf8_char c ++ utf8 s.
Proof. done. Qed.

Lemma utf8_char_length c : (1 <= length (utf8_char c) <= 4)%nat.
Proof. unfold utf8_char. repeat destruct (_ <? _); cbn; lia. Qed.

Lemma lossy_loop_utf8 fuel s :
  (length (utf8 s) <= fuel)%nat -> Forall scalar s -> lossy_loop fuel (utf8 s) = s.
Proof.
  revert fuel. induction s as [|c s IH]; intros fuel Hf Hs; [by destruct fuel|].
  apply Forall_cons in Hs as [Hc Hs]. rewrite utf8_cons in *. rewrite length_app in Hf.
  pose proof (utf8_char_length c). destruct (next_char_utf8 c (utf8 s) Hc) as (b & r & -> & E).
  destruct fuel as [|fuel]; [lia|]. cbn [lossy_loop]. rewrite E. f_equal. apply IH; [lia|done].
Qed.

(** Reading the bytes of a string gives it back. *)
Lemma from_utf8_lossy_utf8 s : Forall scalar s -> from_utf8_lossy (utf8 s) = s.
Proof. by apply lossy_loop_utf8. Qed.

Lemma strict_loop_utf8 fuel s :
  (length (utf8 s) <= fuel)%nat -> Forall scalar s -> strict_loop fuel (utf8 s) = Some s.
Proof.
  revert fuel. induction s as [|c s IH]; intros fuel Hf Hs; [by destruct fuel|].
  apply Forall_cons in Hs as [Hc Hs]. rewrite utf8_cons in *. rewrite length_app in Hf.
  pose proof (utf8_char_length c). destruct (next_char_utf8 c (utf8 s) Hc) as (b & r & -> & E).
  destruct fuel as [|fuel]; [lia|]. cbn [strict_loop]. rewrite E, IH; [done|lia|done].
Qed.

Lemma from_utf8_utf8 s : Forall scalar s -> from_utf8 (utf8 s) = Some s.
Proof. by apply strict_loop_utf8. Qed.

End Utf8.
