(* ===== verification/Bitmap.v ===== *)
(** * Chunk bitmaps (src/transfer/resume.rs)

    [ChunkBitmap] records which chunks of a file are verified.  The file holds
    its data, every method, the well-formedness invariant the methods keep, and
    the abstract view (a set of indices) the methods implement. *)
From Stdlib Require Import ZArith Lia Sorted.
From stdpp Require Import prelude gmap strings.
From S2P Require Import Prelude.

#[local] Open Scope Z_scope.

Module ChunkBitmap.

(** Fields of [ChunkBitmap]. *)
Record t : Type := mk {
  chunk_count : Z;
  bits : list Z;
}.

#[global] Instance t_eq_dec : EqDecision t.
Proof. solve_decision. Defined.

Definition byte_len (n : Z) : nat := Z.to_nat (div_ceil n 8).

Definition new (n : Z) : t := mk n (repeat 0 (byte_len n)).

(** [u8] mask with the single bit [index % 8]. *)
Definition mask_of (index : Z) : Z := Z.shiftl 1 (index mod 8).

(** [!mask] on [u8]. *)
Definition not_u8 (m : Z) : Z := Z.lxor 255 m.

Definition byte_index (index : Z) : nat := Z.to_nat (index / 8).

Definition is_set (bm : t) (index : Z) : result bool :=
  if chunk_count bm <=? index then Ok false
  else
    let? b := unwrap (bits bm !! byte_index index) in
    Ok (negb (Z.land b (mask_of index) =? 0)).

Definition check_index (bm : t) (index : Z) : result unit :=
  fail_if (chunk_count bm <=? index) (Protocol "chunk index out of range").

Definition set (bm : t) (index : Z) : result t :=
  let? _ := check_index bm index in
  let? b := unwrap (bits bm !! byte_index index) in
  Ok (mk (chunk_count bm) (<[byte_index index := Z.lor b (mask_of index)]> (bits bm))).

Definition clear (bm : t) (index : Z) : result t :=
  let? _ := check_index bm index in
  let? b := unwrap (bits bm !! byte_index index) in
  Ok (mk (chunk_count bm)
        (<[byte_index index := Z.land b (not_u8 (mask_of index))]> (bits bm))).

(** [u8::count_ones]. *)
Definition count_ones (b : Z) : Z :=
  foldr (fun i acc => Z.b2z (Z.testbit b i) + acc) 0 [0; 1; 2; 3; 4; 5; 6; 7].

Definition count_set (bm : t) : Z := foldr (fun b acc => count_ones b + acc) 0 (bits bm).

Definition is_complete (bm : t) : bool := count_set bm =? chunk_count bm.

Definition missing (bm : t) : result (list Z) :=
  filter_outcome (fun i => omap negb (is_set bm i)) (seqZ 0 (chunk_count bm)).

Definition present (bm : t) : result (list Z) :=
  filter_outcome (is_set bm) (seqZ 0 (chunk_count bm)).

Definition padding_bits_are_clear (bm : t) : bool :=
  let remainder := chunk_count bm mod 8 in
  match last (bits bm) with
  | None => true
  | Some b =>
      if remainder =? 0 then true
      else Z.land b (not_u8 (Z.shiftl 1 remainder - 1)) =? 0
  end.

Definition clear_padding_bits (bm : t) : t :=
  let remainder := chunk_count bm mod 8 in
  match last (bits bm) with
  | None => bm
  | Some b =>
      if remainder =? 0 then bm
      else mk (chunk_count bm)
             (<[pred (length (bits bm)) := Z.land b (Z.shiftl 1 remainder - 1)]> (bits bm))
  end.

Definition mark_all (bm : t) : t :=
  clear_padding_bits (mk (chunk_count bm) (map (fun _ => 255) (bits bm))).

Definition from_present (n : Z) (indices : list Z) : result t :=
  fold_outcome set (new n) indices.

(** [iter_mut().zip(other)]: the bytes beyond the shorter list stay. *)
Fixpoint or_zip (a b : list Z) : list Z :=
  match a, b with
  | x :: a', y :: b' => Z.lor x y :: or_zip a' b'
  | _, _ => a
  end.

Definition merge (bm other : t) : result t :=
  let? _ := fail_if (negb (chunk_count bm =? chunk_count other))
              (Protocol "bitmap chunk counts differ") in
  Ok (clear_padding_bits (mk (chunk_count bm) (or_zip (bits bm) (bits other)))).

Definition to_bytes (bm : t) : list Z := bits bm.

Definition from_bytes (n : Z) (bytes : list Z) : result t :=
  let? _ := fail_if (negb (Nat.eqb (length bytes) (byte_len n)))
              (Protocol "bitmap length mismatch") in
  let bm := mk n bytes in
  let? _ := fail_if (negb (padding_bits_are_clear bm)) (Protocol "padding bits not zero") in
  Ok (clear_padding_bits bm).

(** ** Abstract view and invariant *)

(** Bit [i] of the byte string, [false] outside it. *)
Definition testb (bs : list Z) (i : Z) : bool :=
  match bs !! byte_index i with
  | Some b => Z.testbit b (i mod 8)
  | None => false
  end.

(** The set of indices a bitmap stands for. *)
Definition view (bm : t) (i : Z) : bool := testb (bits bm) i.

Record wf (bm : t) : Prop := {
  wf_count : is_u32 (chunk_count bm);
  wf_length : length (bits bm) = byte_len (chunk_count bm);
  wf_bytes : are_bytes (bits bm);
  wf_padding : forall i, chunk_count bm <= i -> view bm i = false;
}.

(** ** Bit-level lemmas *)

Lemma u8_land_255 x : is_u8 x <-> Z.land x 255 = x.
Proof.
  change 255 with (Z.ones 8). rewrite Z.land_ones by lia.
  unfold in_range, U8_MAX. change (2 ^ 8) with 256.
  split; intros H; [rewrite Z.mod_small; lia | pose proof (Z.mod_pos_bound x 256); lia].
Qed.

Lemma u8_lor a b : is_u8 a -> is_u8 b -> is_u8 (Z.lor a b).
Proof. rewrite !u8_land_255. intros Ha Hb. by rewrite Z.land_lor_distr_l, Ha, Hb. Qed.

Lemma u8_land a b : is_u8 a -> is_u8 (Z.land a b).
Proof. rewrite !u8_land_255. intros Ha. by rewrite (Z.land_comm a), <- Z.land_assoc, Ha. Qed.

Lemma u8_testbit_ge b j : is_u8 b -> 8 <= j -> Z.testbit b j = false.
Proof.
  rewrite u8_land_255. intros <- Hj. change 255 with (Z.ones 8).
  rewrite Z.land_spec, Z.ones_spec_high, andb_false_r by lia. done.
Qed.

Lemma testbit_shiftl_1 k j : 0 <= k -> Z.testbit (Z.shiftl 1 k) j = (j =? k).
Proof.
  intros Hk. rewrite Z.shiftl_1_l.
  destruct (Z.eqb_spec j k) as [->|Hne]; [by apply Z.pow2_bits_true|].
  by apply Z.pow2_bits_false.
Qed.

Lemma land_shiftl_1 b k : 0 <= k -> negb (Z.land b (Z.shiftl 1 k) =? 0) = Z.testbit b k.
Proof.
  intros Hk. destruct (Z.eqb_spec (Z.land b (Z.shiftl 1 k)) 0) as [H|H]; cbn.
  - apply (f_equal (fun z => Z.testbit z k)) in H.
    rewrite Z.land_spec, testbit_shiftl_1, Z.eqb_refl, Z.bits_0, andb_true_r in H by lia. done.
  - destruct (Z.testbit b k) eqn:E; [done|]. exfalso. apply H, Z.bits_inj.
    intros j. rewrite Z.land_spec, testbit_shiftl_1, Z.bits_0 by lia.
    destruct (Z.eqb_spec j k) as [->|]; [by rewrite E | apply andb_false_r].
Qed.

Lemma testbit_mask i j : 0 <= i -> 0 <= j < 8 ->
  Z.testbit (mask_of i) j = (j =? i mod 8).
Proof. intros Hi Hj. apply testbit_shiftl_1. by apply Z.mod_pos_bound. Qed.

Lemma testbit_not_u8 m j : 0 <= j < 8 -> Z.testbit (not_u8 m) j = negb (Z.testbit m j).
Proof.
  intros Hj. unfold not_u8. change 255 with (Z.ones 8).
  by rewrite Z.lxor_spec, Z.ones_spec_low, xorb_true_l by lia.
Qed.

Lemma testbit_ones_below r j : 0 <= r -> 0 <= j -> Z.testbit (Z.shiftl 1 r - 1) j = (j <? r).
Proof.
  intros Hr Hj. rewrite Z.shiftl_1_l, Z.sub_1_r, <- Z.ones_equiv.
  destruct (Z.ltb_spec j r); [apply Z.ones_spec_low | apply Z.ones_spec_high]; lia.
Qed.

Lemma mask_is_u8 i : is_u8 (mask_of i).
Proof.
  unfold mask_of. rewrite Z.shiftl_1_l. unfold in_range, U8_MAX.
  pose proof (Z.mod_pos_bound i 8 ltac:(lia)).
  pose proof (Z.pow_le_mono_r 2 (i mod 8) 7 ltac:(lia) ltac:(lia)).
  pose proof (Z.pow_nonneg 2 (i mod 8)). lia.
Qed.

(** Position of a bit. *)
Lemma byte_index_split i j : 0 <= i -> 0 <= j ->
  (i =? j) = (Nat.eqb (byte_index i) (byte_index j) && (i mod 8 =? j mod 8)).
Proof.
  intros Hi Hj. unfold byte_index.
  pose proof (Z.div_mod i 8 ltac:(lia)). pose proof (Z.div_mod j 8 ltac:(lia)).
  pose proof (Z.div_pos i 8 ltac:(lia) ltac:(lia)). pose proof (Z.div_pos j 8 ltac:(lia) ltac:(lia)).
  destruct (Z.eqb_spec i j) as [->|Hne]; [by rewrite Nat.eqb_refl, Z.eqb_refl|].
  destruct (Nat.eqb_spec (Z.to_nat (i / 8)) (Z.to_nat (j / 8))); [|done].
  destruct (Z.eqb_spec (i mod 8) (j mod 8)); [|done]. lia.
Qed.

Lemma testb_insert bs i j b : 0 <= i -> 0 <= j -> (byte_index i < length bs)%nat ->
  testb (<[byte_index i := b]> bs) j =
  if Nat.eqb (byte_index j) (byte_index i) then Z.testbit b (j mod 8) else testb bs j.
Proof.
  intros Hi Hj Hlen. unfold testb.
  destruct (Nat.eqb_spec (byte_index j) (byte_index i)) as [->|Hne].
  - by rewrite list_lookup_insert_eq.
  - by rewrite list_lookup_insert_ne.
Qed.

Lemma testb_at bs q k : 0 <= k < 8 ->
  testb bs (q * 8 + k) =
  match bs !! Z.to_nat q with Some b => Z.testbit b k | None => false end.
Proof.
  intros Hk. unfold testb, byte_index.
  rewrite Z.div_add_l, Z.div_small, Z.add_0_r by lia.
  by rewrite (Z.add_comm (q * 8)), Z_mod_plus_full, (Z.mod_small k) by lia.
Qed.

(** Two byte strings of equal length with equal bits are equal. *)
Lemma testb_ext a b :
  are_bytes a -> are_bytes b -> length a = length b ->
  (forall i, 0 <= i -> testb a i = testb b i) -> a = b.
Proof.
  intros Ha Hb Hlen Hext. apply list_eq. intros k.
  destruct (a !! k) as [x|] eqn:Ex, (b !! k) as [y|] eqn:Ey; try done.
  - f_equal. apply Z.bits_inj'. intros j Hj.
    pose proof (Forall_lookup_1 _ _ _ _ Ha Ex) as Hx.
    pose proof (Forall_lookup_1 _ _ _ _ Hb Ey) as Hy.
    destruct (Z.lt_ge_cases j 8) as [Hlt|Hge].
    + specialize (Hext (Z.of_nat k * 8 + j) ltac:(lia)).
      by rewrite !testb_at, Nat2Z.id, Ex, Ey in Hext by lia.
    + by rewrite !u8_testbit_ge.
  - apply lookup_lt_Some in Ex. apply lookup_ge_None in Ey. lia.
  - apply lookup_lt_Some in Ey. apply lookup_ge_None in Ex. lia.
Qed.

Lemma byte_index_lt n i : 0 <= i < n -> (byte_index i < byte_len n)%nat.
Proof.
  intros Hi. unfold byte_index, byte_len.
  pose proof (div_ceil_spec n 8 ltac:(lia) ltac:(lia)).
  pose proof (Z.div_mod i 8 ltac:(lia)). pose proof (Z.mod_pos_bound i 8 ltac:(lia)).
  pose proof (Z.div_pos i 8 ltac:(lia) ltac:(lia)). lia.
Qed.

Lemma wf_lookup bm i : wf bm -> 0 <= i < chunk_count bm ->
  exists b, bits bm !! byte_index i = Some b /\ is_u8 b.
Proof.
  intros [Hc Hl Hb _] Hi.
  assert (byte_index i < length (bits bm))%nat as Hlt by (rewrite Hl; by apply byte_index_lt).
  destruct (lookup_lt_is_Some_2 _ _ Hlt) as [b Eb]. exists b. split; [done|].
  by eapply Forall_lookup_1.
Qed.

(** ** Behaviour of the operations on well-formed bitmaps *)

Lemma testb_repeat_0 n i : testb (repeat 0 n) i = false.
Proof.
  unfold testb. destruct (repeat 0 n !! byte_index i) as [b|] eqn:E; [|done].
  apply list_elem_of_lookup_2 in E. apply list_elem_of_In, repeat_spec in E as ->.
  apply Z.bits_0.
Qed.

Lemma are_bytes_repeat b n : is_u8 b -> are_bytes (repeat b n).
Proof. intros Hb. induction n; cbn; constructor; auto. Qed.

Lemma new_wf n : is_u32 n -> wf (new n).
Proof.
  intros Hn. split; cbn.
  - done.
  - apply repeat_length.
  - apply are_bytes_repeat. unfold in_range, U8_MAX. lia.
  - intros i _. apply testb_repeat_0.
Qed.

Lemma new_view n i : view (new n) i = false.
Proof. apply testb_repeat_0. Qed.

Lemma is_set_spec bm i : wf bm -> 0 <= i -> is_set bm i = Ok (view bm i).
Proof.
  intros Hwf Hi. unfold is_set. destruct (Z.leb_spec (chunk_count bm) i) as [Hle|Hlt].
  - by rewrite wf_padding.
  - destruct (wf_lookup bm i Hwf ltac:(lia)) as (b & Eb & Hb).
    unfold view, testb, unwrap. rewrite Eb. cbn.
    unfold mask_of. rewrite land_shiftl_1 by (apply Z.mod_pos_bound; lia). done.
Qed.

(** A byte rewrite at a valid index keeps the invariant and changes one byte. *)
Lemma wf_insert bm i b : wf bm -> 0 <= i < chunk_count bm -> is_u8 b ->
  (forall j, chunk_count bm <= j -> byte_index j = byte_index i -> Z.testbit b (j mod 8) = false) ->
  wf (mk (chunk_count bm) (<[byte_index i := b]> (bits bm))).
Proof.
  intros Hwf Hi Hb Hpad. pose proof Hwf as [Hc Hl Hbs Hp].
  assert (byte_index i < length (bits bm))%nat by (rewrite Hl; by apply byte_index_lt).
  split; cbn.
  - done.
  - by rewrite length_insert.
  - by apply Forall_insert.
  - intros j Hj. unfold view. cbn. rewrite testb_insert by lia.
    destruct (Nat.eqb_spec (byte_index j) (byte_index i)); [by apply Hpad | by apply Hp].
Qed.

Lemma set_spec bm i : wf bm -> 0 <= i < chunk_count bm ->
  exists bm', set bm i = Ok bm' /\ wf bm' /\ chunk_count bm' = chunk_count bm /\
    forall j, 0 <= j -> view bm' j = (j =? i) || view bm j.
Proof.
  intros Hwf Hi. destruct (wf_lookup bm i Hwf Hi) as (b & Eb & Hb).
  unfold set, check_index. destruct (Z.leb_spec (chunk_count bm) i); [lia|].
  cbn. rewrite Eb. cbn. eexists. split; [done|].
  pose proof (Z.mod_pos_bound i 8 ltac:(lia)).
  split; [|split; [done|]].
  - apply wf_insert; [done..| |].
    + apply u8_lor; [done | apply mask_is_u8].
    + intros j Hj Hji. pose proof (Z.mod_pos_bound j 8 ltac:(lia)).
      rewrite Z.lor_spec, testbit_mask by lia.
      pose proof (wf_padding _ Hwf j Hj) as Hv. unfold view, testb in Hv.
      rewrite Hji, Eb in Hv. rewrite Hv.
      pose proof (byte_index_split j i ltac:(lia) ltac:(lia)) as Hs.
      rewrite Hji, Nat.eqb_refl in Hs. cbn in Hs. rewrite <- Hs. cbn. lia.
  - intros j Hj. unfold view. cbn.
    rewrite testb_insert by (try (apply lookup_lt_Some in Eb); lia).
    rewrite (byte_index_split j i) by lia.
    pose proof (Z.mod_pos_bound j 8 ltac:(lia)).
    destruct (Nat.eqb_spec (byte_index j) (byte_index i)) as [E|]; [|done].
    rewrite Z.lor_spec, testbit_mask by lia. unfold testb. rewrite E, Eb. cbn.
    apply orb_comm.
Qed.

Lemma set_out_of_range bm i : chunk_count bm <= i ->
  set bm i = Err (Protocol "chunk index out of range").
Proof. intros H. unfold set, check_index. apply Z.leb_le in H. by rewrite H. Qed.

Lemma clear_spec bm i : wf bm -> 0 <= i < chunk_count bm ->
  exists bm', clear bm i = Ok bm' /\ wf bm' /\ chunk_count bm' = chunk_count bm /\
    forall j, 0 <= j -> view bm' j = negb (j =? i) && view bm j.
Proof.
  intros Hwf Hi. destruct (wf_lookup bm i Hwf Hi) as (b & Eb & Hb).
  unfold clear, check_index. destruct (Z.leb_spec (chunk_count bm) i); [lia|].
  cbn. rewrite Eb. cbn. eexists. split; [done|].
  pose proof (Z.mod_pos_bound i 8 ltac:(lia)).
  split; [|split; [done|]].
  - apply wf_insert; [done..| |].
    + by apply u8_land.
    + intros j Hj Hji. rewrite Z.land_spec.
      pose proof (wf_padding _ Hwf j Hj) as Hv. unfold view, testb in Hv.
      rewrite Hji, Eb in Hv. by rewrite Hv.
  - intros j Hj. unfold view. cbn.
    rewrite testb_insert by (try (apply lookup_lt_Some in Eb); lia).
    rewrite (byte_index_split j i) by lia.
    pose proof (Z.mod_pos_bound j 8 ltac:(lia)).
    destruct (Nat.eqb_spec (byte_index j) (byte_index i)) as [E|]; [|done].
    rewrite Z.land_spec, testbit_not_u8, testbit_mask by lia. unfold testb. rewrite E, Eb. cbn.
    apply andb_comm.
Qed.

Lemma present_spec bm : wf bm ->
  present bm = Ok (List.filter (view bm) (seqZ 0 (chunk_count bm))).
Proof.
  intros Hwf. apply filter_outcome_pure. intros i Hi%elem_of_seqZ.
  apply is_set_spec; [done | lia].
Qed.

Lemma missing_spec bm : wf bm ->
  missing bm = Ok (List.filter (fun i => negb (view bm i)) (seqZ 0 (chunk_count bm))).
Proof.
  intros Hwf. apply filter_outcome_pure. intros i Hi%elem_of_seqZ.
  rewrite is_set_spec by (done || lia). done.
Qed.

(** ** Counting *)

Lemma StronglySorted_filter {A} (R : A -> A -> Prop) (f : A -> bool) l :
  StronglySorted R l -> StronglySorted R (List.filter f l).
Proof.
  induction 1 as [|x l Hl IH Hx]; cbn; [constructor|].
  destruct (f x); [|done]. constructor; [done|].
  apply Forall_forall. intros y [Hy _]%list_elem_of_In%filter_In.
  rewrite Forall_forall in Hx. apply Hx. by apply list_elem_of_In.
Qed.

Lemma StronglySorted_seqZ m n : StronglySorted Z.lt (seqZ m n).
Proof.
  destruct (Z.le_gt_cases n 0) as [Hn|Hn]; [rewrite seqZ_nil by done; constructor|].
  rewrite <- (Z2Nat.id n) by lia. clear Hn. generalize (Z.to_nat n). clear n. intros n.
  revert m. induction n as [|n IH]; intros m; [constructor|].
  rewrite seqZ_cons by lia. replace (Z.pred (Z.of_nat (S n))) with (Z.of_nat n) by lia.
  constructor; [apply IH|]. apply Forall_seqZ. lia.
Qed.

Lemma filter_ext_in {A} (f g : A -> bool) l :
  (forall x, x ∈ l -> f x = g x) -> List.filter f l = List.filter g l.
Proof.
  induction l as [|x l IH]; intros H; [done|]. cbn.
  rewrite H by set_solver. rewrite IH by (intros; apply H; set_solver). done.
Qed.

Lemma length_filter_map {A B} (f : B -> bool) (g : A -> B) l :
  length (List.filter f (map g l)) = length (List.filter (fun x => f (g x)) l).
Proof. induction l as [|x l IH]; [done|]. cbn. destruct (f (g x)); cbn; auto. Qed.

Lemma filter_none {A} (f : A -> bool) l :
  (forall x, x ∈ l -> f x = false) -> List.filter f l = [].
Proof.
  induction l as [|x l IH]; intros H; [done|]. cbn.
  rewrite H by set_solver. apply IH. set_solver.
Qed.

Lemma count_ones_filter b :
  count_ones b = Z.of_nat (length (List.filter (Z.testbit b) (seqZ 0 8))).
Proof.
  change (seqZ 0 8) with [0; 1; 2; 3; 4; 5; 6; 7].
  unfold count_ones.
  generalize [0; 1; 2; 3; 4; 5; 6; 7]. intros l.
  induction l as [|i l IH]; [done|]. cbn [foldr List.filter].
  rewrite IH. destruct (Z.testbit b i); cbn [Z.b2z length]; lia.
Qed.

Lemma testb_cons_low b bs i : 0 <= i < 8 -> testb (b :: bs) i = Z.testbit b i.
Proof.
  intros Hi. unfold testb, byte_index. rewrite Z.div_small, Z.mod_small by lia. done.
Qed.

Lemma testb_cons_high b bs i : 0 <= i -> testb (b :: bs) (8 + i) = testb bs i.
Proof.
  intros Hi. unfold testb, byte_index.
  replace (8 + i) with (i + 1 * 8) by lia.
  rewrite Z.div_add, Z_mod_plus_full by lia.
  pose proof (Z.div_pos i 8 ltac:(lia) ltac:(lia)).
  rewrite Z2Nat.inj_add, Nat.add_comm by lia. done.
Qed.

Lemma sum_count_ones bs :
  foldr (fun b acc => count_ones b + acc) 0 bs =
  Z.of_nat (length (List.filter (testb bs) (seqZ 0 (8 * Z.of_nat (length bs))))).
Proof.
  induction bs as [|b bs IH]; [done|].
  cbn [foldr length]. rewrite IH.
  replace (8 * Z.of_nat (S (length bs))) with (8 + 8 * Z.of_nat (length bs)) by lia.
  rewrite seqZ_app, List.filter_app, length_app, Nat2Z.inj_add, count_ones_filter by lia.
  (* The first byte's bits agree by computation. *)
  do 2 f_equal.
  rewrite <- (fmap_add_seqZ 8 0).
  etrans; [|symmetry; apply (length_filter_map (testb (b :: bs)) (Z.add 8))].
  f_equal. apply filter_ext_in. intros i Hi%elem_of_seqZ. symmetry. apply testb_cons_high. lia.
Qed.

Lemma byte_len_covers n : 0 <= n -> n <= 8 * Z.of_nat (byte_len n) < n + 8.
Proof.
  intros Hn. unfold byte_len. pose proof (div_ceil_spec n 8 Hn ltac:(lia)).
  pose proof (div_ceil_nonneg n 8 Hn ltac:(lia)). lia.
Qed.

Lemma count_set_spec bm : wf bm ->
  count_set bm = Z.of_nat (length (List.filter (view bm) (seqZ 0 (chunk_count bm)))).
Proof.
  intros [Hc Hl _ Hp]. unfold count_set. rewrite sum_count_ones, Hl.
  unfold in_range in Hc. pose proof (byte_len_covers (chunk_count bm) ltac:(lia)).
  replace (8 * Z.of_nat (byte_len (chunk_count bm))) with
    (chunk_count bm + (8 * Z.of_nat (byte_len (chunk_count bm)) - chunk_count bm)) by lia.
  rewrite seqZ_app, List.filter_app, length_app by lia.
  rewrite (filter_none _ (seqZ (0 + _) _)); [by rewrite Nat.add_0_r|].
  intros i Hi%elem_of_seqZ. apply Hp. lia.
Qed.

Lemma length_filter_all {A} (f : A -> bool) l :
  length (List.filter f l) = length l <-> forall x, x ∈ l -> f x = true.
Proof.
  induction l as [|x l IH]; cbn; [set_solver|].
  pose proof (filter_length_le f l). destruct (f x) eqn:E; cbn.
  - rewrite Nat.succ_inj_wd, IH. set_solver.
  - split; [lia|]. intros H'. rewrite H' in E by set_solver. done.
Qed.

Lemma is_complete_spec bm : wf bm ->
  is_complete bm = true <-> forall i, 0 <= i < chunk_count bm -> view bm i = true.
Proof.
  intros Hwf. unfold is_complete. rewrite Z.eqb_eq, count_set_spec by done.
  pose proof (wf_count _ Hwf) as Hc. unfold in_range in Hc.
  pose proof (length_filter_all (view bm) (seqZ 0 (chunk_count bm))) as Hall.
  rewrite length_seqZ in Hall.
  split.
  - intros H i Hi. apply Hall; [lia | apply elem_of_seqZ; lia].
  - intros H. rewrite (proj2 Hall); [lia|]. intros i Hi%elem_of_seqZ. apply H. lia.
Qed.

(** ** Padding bits and the byte representation *)

Lemma last_byte bm b : length (bits bm) = byte_len (chunk_count bm) ->
  last (bits bm) = Some b -> 0 <= chunk_count bm -> chunk_count bm mod 8 <> 0 ->
  byte_index (chunk_count bm) = pred (length (bits bm)) /\
  bits bm !! byte_index (chunk_count bm) = Some b.
Proof.
  intros Hl Hlast Hc Hr. rewrite last_lookup in Hlast.
  assert (byte_index (chunk_count bm) = pred (length (bits bm))) as ->; [|done].
  rewrite Hl. unfold byte_index, byte_len, div_ceil.
  pose proof (Z.mod_pos_bound (chunk_count bm) 8 ltac:(lia)).
  pose proof (Z.div_pos (chunk_count bm) 8 ltac:(lia) ltac:(lia)).
  destruct (Z.gtb_spec (chunk_count bm mod 8) 0); lia.
Qed.

(** Beyond the last byte every bit reads [false]. *)
Lemma testb_past_end bs j : 8 * Z.of_nat (length bs) <= j -> testb bs j = false.
Proof.
  intros Hj. unfold testb. rewrite lookup_ge_None_2; [done|].
  unfold byte_index. pose proof (Z.div_le_lower_bound j 8 (Z.of_nat (length bs)) ltac:(lia) Hj). lia.
Qed.

(** A bit at or past [chunk_count] is past the end, or in the last byte at or
    above the remainder. *)
Lemma padding_position bm j :
  length (bits bm) = byte_len (chunk_count bm) -> 0 <= chunk_count bm -> chunk_count bm <= j ->
  testb (bits bm) j = false \/
  (chunk_count bm mod 8 <> 0 /\ byte_index j = byte_index (chunk_count bm) /\
   chunk_count bm mod 8 <= j mod 8).
Proof.
  intros Hl Hc Hj. destruct (Z.le_gt_cases (8 * Z.of_nat (length (bits bm))) j) as [Hge|Hlt].
  { left. by apply testb_past_end. }
  right. rewrite Hl in Hlt. unfold byte_index, byte_len, div_ceil in *.
  pose proof (Z.div_mod (chunk_count bm) 8 ltac:(lia)).
  pose proof (Z.mod_pos_bound (chunk_count bm) 8 ltac:(lia)).
  pose proof (Z.div_pos (chunk_count bm) 8 ltac:(lia) ltac:(lia)).
  pose proof (Z.div_mod j 8 ltac:(lia)). pose proof (Z.mod_pos_bound j 8 ltac:(lia)).
  destruct (Z.gtb_spec (chunk_count bm mod 8) 0); [|lia].
  assert (j / 8 = chunk_count bm / 8) as E by lia. rewrite E. lia.
Qed.

(** What a bitmap must satisfy before its padding is cleaned. *)
Record shaped (bm : t) : Prop := {
  shaped_count : is_u32 (chunk_count bm);
  shaped_length : length (bits bm) = byte_len (chunk_count bm);
  shaped_bytes : are_bytes (bits bm);
}.

Lemma wf_shaped bm : wf bm -> shaped bm.
Proof. intros []; by split. Qed.

Lemma padding_clear_spec bm : shaped bm ->
  padding_bits_are_clear bm = true <-> forall i, chunk_count bm <= i -> view bm i = false.
Proof.
  intros [Hc Hl Hb]. unfold in_range in Hc. unfold padding_bits_are_clear.
  destruct (last (bits bm)) as [b|] eqn:Elast.
  2: { split; [|done]. intros _ i _. unfold view, testb.
       apply last_None in Elast. by rewrite Elast. }
  pose proof (Z.mod_pos_bound (chunk_count bm) 8 ltac:(lia)).
  destruct (Z.eqb_spec (chunk_count bm mod 8) 0) as [Hr|Hr].
  { split; [|done]. intros _ i Hi.
    destruct (padding_position bm i Hl ltac:(lia) Hi) as [|(? & _)]; [done | lia]. }
  destruct (last_byte bm b Hl Elast ltac:(lia) Hr) as [Hidx Elook].
  rewrite Z.eqb_eq. split.
  - intros Hz i Hi. destruct (padding_position bm i Hl ltac:(lia) Hi) as [|(_ & E & Hm)]; [done|].
    unfold view, testb. rewrite E, Elook.
    apply (f_equal (fun z => Z.testbit z (i mod 8))) in Hz.
    pose proof (Z.mod_pos_bound i 8 ltac:(lia)).
    rewrite Z.land_spec, testbit_not_u8, testbit_ones_below, Z.bits_0 in Hz by lia.
    destruct (Z.ltb_spec (i mod 8) (chunk_count bm mod 8)); [lia|].
    by rewrite andb_true_r in Hz.
  - intros Hv. apply Z.bits_inj'. intros k Hk. rewrite Z.land_spec, Z.bits_0.
    pose proof (Forall_lookup_1 _ _ _ _ Hb Elook) as Hu.
    destruct (Z.lt_ge_cases k 8); [|by rewrite u8_testbit_ge].
    rewrite testbit_not_u8, testbit_ones_below by lia.
    destruct (Z.ltb_spec k (chunk_count bm mod 8)); [by rewrite andb_false_r|].
    pose proof (Z.div_mod (chunk_count bm) 8 ltac:(lia)).
    specialize (Hv (chunk_count bm - chunk_count bm mod 8 + k) ltac:(lia)).
    assert (chunk_count bm - chunk_count bm mod 8 + k = chunk_count bm / 8 * 8 + k) as E by lia.
    unfold byte_index in Elook. unfold view in Hv.
    rewrite E, testb_at, Elook in Hv by lia. by rewrite Hv.
Qed.

Lemma clear_padding_spec bm : shaped bm ->
  wf (clear_padding_bits bm) /\
  chunk_count (clear_padding_bits bm) = chunk_count bm /\
  forall i, 0 <= i -> view (clear_padding_bits bm) i = (i <? chunk_count bm) && view bm i.
Proof.
  intros [Hc Hl Hb]. unfold in_range in Hc.
  assert (chunk_count (clear_padding_bits bm) = chunk_count bm) as Hcc.
  { unfold clear_padding_bits. destruct (last _); [|done]. by destruct (_ =? _). }
  assert (length (bits (clear_padding_bits bm)) = length (bits bm)) as Hlen.
  { unfold clear_padding_bits. destruct (last _); [|done].
    destruct (_ =? _); [done|]. cbn. apply length_insert. }
  assert (forall i, 0 <= i ->
    view (clear_padding_bits bm) i = (i <? chunk_count bm) && view bm i) as Hview.
  { intros i Hi.
    assert (chunk_count bm <= i -> chunk_count bm mod 8 = 0 -> view bm i = false) as Hz.
    { intros Hge Hr. destruct (padding_position bm i Hl ltac:(lia) Hge) as [|(? & _)]; [done|lia]. }
    unfold clear_padding_bits. destruct (last (bits bm)) as [b|] eqn:Elast.
    2: { apply last_None in Elast. unfold view, testb. by rewrite Elast, andb_false_r. }
    destruct (Z.eqb_spec (chunk_count bm mod 8) 0) as [Hr|Hr].
    { destruct (Z.ltb_spec i (chunk_count bm)); [done|]. cbn. by apply Hz. }
    destruct (last_byte bm b Hl Elast ltac:(lia) Hr) as [Hidx Elook].
    unfold view at 1. cbn [bits]. rewrite <- Hidx.
    rewrite testb_insert by (try (apply lookup_lt_Some in Elook); lia).
    pose proof (Z.mod_pos_bound (chunk_count bm) 8 ltac:(lia)).
    pose proof (Z.mod_pos_bound i 8 ltac:(lia)).
    destruct (Nat.eqb_spec (byte_index i) (byte_index (chunk_count bm))) as [E|Hne].
    - rewrite Z.land_spec, testbit_ones_below by lia. unfold view, testb. rewrite E, Elook.
      rewrite andb_comm. f_equal.
      pose proof (Z.div_mod (chunk_count bm) 8 ltac:(lia)). pose proof (Z.div_mod i 8 ltac:(lia)).
      unfold byte_index in E.
      pose proof (Z.div_pos i 8 ltac:(lia) ltac:(lia)).
      pose proof (Z.div_pos (chunk_count bm) 8 ltac:(lia) ltac:(lia)).
      destruct (Z.ltb_spec i (chunk_count bm)), (Z.ltb_spec (i mod 8) (chunk_count bm mod 8)); lia.
    - destruct (Z.ltb_spec i (chunk_count bm)); [done|]. cbn.
      destruct (padding_position bm i Hl ltac:(lia) ltac:(lia)) as [|(_ & E & _)]; done. }
  split; [|done]. split.
  - rewrite Hcc. unfold in_range. lia.
  - by rewrite Hcc, Hlen.
  - unfold clear_padding_bits. destruct (last _) as [b|] eqn:Elast; [|done].
    destruct (_ =? _); [done|]. cbn. apply Forall_insert; [done|].
    apply u8_land. rewrite last_lookup in Elast. by eapply Forall_lookup_1.
  - intros i Hi. rewrite Hcc in Hi. rewrite Hview by lia.
    destruct (Z.ltb_spec i (chunk_count bm)); [lia | done].
Qed.

(** Well-formed bitmaps are determined by their view. *)
Lemma wf_ext a b : wf a -> wf b -> chunk_count a = chunk_count b ->
  (forall i, 0 <= i -> view a i = view b i) -> a = b.
Proof.
  destruct a as [ca ba], b as [cb bb]. intros [_ Hla Hba _] [_ Hlb Hbb _] Hc Hv.
  cbn in *. subst cb. f_equal. apply testb_ext; try done. by rewrite Hla, Hlb.
Qed.

Lemma clear_padding_wf_id bm : wf bm -> clear_padding_bits bm = bm.
Proof.
  intros Hwf. destruct (clear_padding_spec bm (wf_shaped _ Hwf)) as (Hw & Hc & Hv).
  apply wf_ext; try done. intros i Hi. rewrite Hv by done.
  destruct (Z.ltb_spec i (chunk_count bm)); [done|]. cbn. by rewrite wf_padding.
Qed.

Lemma from_bytes_spec n bytes bm : is_u32 n -> are_bytes bytes ->
  from_bytes n bytes = Ok bm <-> bm = mk n bytes /\ wf bm.
Proof.
  intros Hn Hb. unfold from_bytes, fail_if.
  destruct (Nat.eqb_spec (length bytes) (byte_len n)) as [Hl|Hl]; cbn.
  2: { split; [done|]. intros [-> []]. done. }
  assert (shaped (mk n bytes)) as Hs by done.
  pose proof (padding_clear_spec _ Hs) as Hp.
  destruct (padding_bits_are_clear (mk n bytes)); cbn.
  - assert (wf (mk n bytes)) as Hwf by (split; try done; by apply Hp).
    rewrite clear_padding_wf_id by done. naive_solver.
  - split; [done|]. intros [-> Hwf]. assert (false = true); [|done].
    apply Hp. apply wf_padding, Hwf.
Qed.

Lemma testb_or_zip a b i : length a = length b ->
  testb (or_zip a b) i = testb a i || testb b i.
Proof.
  unfold testb. generalize (byte_index i). intros k. revert b k.
  induction a as [|x a IH]; intros [|y b] k Hl; try done.
  destruct k as [|k]; cbn; [apply Z.lor_spec|]. apply IH. cbn in Hl. lia.
Qed.

Lemma or_zip_shape a b : length a = length b -> are_bytes a -> are_bytes b ->
  length (or_zip a b) = length a /\ are_bytes (or_zip a b).
Proof.
  intros Hl Ha. revert b Hl. induction Ha as [|x a Hx Ha IH]; intros [|y b] Hl Hb; try done.
  apply Forall_cons in Hb as [Hy Hb]. cbn in *.
  destruct (IH b) as [H1 H2]; [lia | done |]. split; [lia|].
  constructor; [by apply u8_lor | done].
Qed.

Lemma merge_spec a b : wf a -> wf b -> chunk_count a = chunk_count b ->
  exists c, merge a b = Ok c /\ wf c /\ chunk_count c = chunk_count a /\
    forall i, 0 <= i -> view c i = view a i || view b i.
Proof.
  intros Ha Hb Hc. unfold merge. rewrite Hc, Z.eqb_refl. cbn. eexists. split; [done|].
  assert (length (bits a) = length (bits b)) as Hl.
  { by rewrite (wf_length _ Ha), (wf_length _ Hb), Hc. }
  destruct (or_zip_shape (bits a) (bits b) Hl (wf_bytes _ Ha) (wf_bytes _ Hb)) as [Hol Hob].
  destruct (clear_padding_spec (mk (chunk_count b) (or_zip (bits a) (bits b))))
    as (Hw & Hcc & Hv).
  { split; cbn; [apply Hb | by rewrite Hol, Hl, (wf_length _ Hb) | done]. }
  split; [done|]. split; [by rewrite Hcc|].
  intros i Hi. rewrite Hv by done. unfold view. cbn. rewrite testb_or_zip by done.
  destruct (Z.ltb_spec i (chunk_count b)); [done|]. cbn. symmetry.
  apply orb_false_iff. split; [apply (wf_padding _ Ha) | apply (wf_padding _ Hb)]; lia.
Qed.

Lemma mark_all_spec bm : wf bm ->
  wf (mark_all bm) /\ chunk_count (mark_all bm) = chunk_count bm /\
  forall i, 0 <= i -> view (mark_all bm) i = (i <? chunk_count bm).
Proof.
  intros Hwf. pose proof (wf_count _ Hwf) as Hc. unfold in_range in Hc.
  destruct (clear_padding_spec (mk (chunk_count bm) (map (fun _ => 255) (bits bm))))
    as (Hw & Hcc & Hv).
  { split; cbn; [apply Hwf | by rewrite length_map, (wf_length _ Hwf) |].
    clear. induction (bits bm); cbn; constructor; [unfold in_range, U8_MAX; lia | done]. }
  split; [done|]. split; [done|]. intros i Hi.
  unfold mark_all. rewrite Hv by done. cbn [chunk_count].
  destruct (Z.ltb_spec i (chunk_count bm)); [|done]. cbn.
  destruct (wf_lookup bm i Hwf ltac:(lia)) as (b & Eb & _).
  unfold view, testb. cbn. rewrite list_lookup_fmap, Eb. cbn.
  change 255 with (Z.ones 8). pose proof (Z.mod_pos_bound i 8 ltac:(lia)).
  by rewrite Z.ones_spec_low by lia.
Qed.

(** Set operations on boolean membership. *)
Lemma mem_insert (s : gset Z) j i :
  (j =? i) || bool_decide (j ∈ s) = bool_decide (j ∈ ({[i]} ∪ s : gset Z)).
Proof.
  destruct (Z.eqb_spec j i) as [->|Hne]; cbn; [|apply bool_decide_ext; set_solver].
  symmetry. apply bool_decide_eq_true. set_solver.
Qed.

Lemma mem_delete (s : gset Z) j i :
  negb (j =? i) && bool_decide (j ∈ s) = bool_decide (j ∈ (s ∖ {[i]} : gset Z)).
Proof.
  destruct (Z.eqb_spec j i) as [->|Hne]; cbn; [|apply bool_decide_ext; set_solver].
  symmetry. apply bool_decide_eq_false. set_solver.
Qed.

Lemma mem_union (s1 s2 : gset Z) j :
  bool_decide (j ∈ s1) || bool_decide (j ∈ s2) = bool_decide (j ∈ s1 ∪ s2).
Proof. rewrite <- bool_decide_or. apply bool_decide_ext. set_solver. Qed.

Lemma mem_cons (l : list Z) j i :
  (j =? i) || bool_decide (j ∈ l) = bool_decide (j ∈ i :: l).
Proof.
  destruct (Z.eqb_spec j i) as [->|Hne]; cbn; [|apply bool_decide_ext; set_solver].
  symmetry. apply bool_decide_eq_true. set_solver.
Qed.

Lemma fold_set_spec bm indices : wf bm -> Forall (fun i => 0 <= i) indices ->
  match fold_outcome set bm indices with
  | Ok bm' => Forall (fun i => i < chunk_count bm) indices /\ wf bm' /\
      chunk_count bm' = chunk_count bm /\
      forall i, 0 <= i -> view bm' i = bool_decide (i ∈ indices) || view bm i
  | Err e => e = Protocol "chunk index out of range" /\
      Exists (fun i => chunk_count bm <= i) indices
  | Panic => False
  end.
Proof.
  intros Hwf Hpos. revert bm Hwf. induction Hpos as [|i l Hi Hl IH]; intros bm Hwf; cbn.
  { done. }
  destruct (Z.lt_ge_cases i (chunk_count bm)) as [Hlt|Hge].
  2: { rewrite set_out_of_range by done. cbn. split; [done|]. by constructor. }
  destruct (set_spec bm i Hwf ltac:(lia)) as (bm1 & -> & Hw1 & Hc1 & Hv1). cbn.
  specialize (IH bm1 Hw1). rewrite Hc1 in IH. destruct (fold_outcome set bm1 l); [|naive_solver|done].
  destruct IH as (H1 & H2 & H3 & H4). split; [by constructor|]. split; [done|]. split; [done|].
  intros j Hj. rewrite H4, Hv1 by done. rewrite orb_assoc. f_equal.
  rewrite <- mem_cons. rewrite (orb_comm (j =? i)). done.
Qed.

(** ** Refinement: a bitmap implements a finite set of indices *)

Definition repr (bm : t) (s : gset Z) : Prop :=
  wf bm /\ forall i, i ∈ s <-> 0 <= i < chunk_count bm /\ view bm i = true.

Lemma repr_view bm s i : repr bm s -> 0 <= i -> view bm i = bool_decide (i ∈ s).
Proof.
  intros [Hwf Hs] Hi. pose proof (Hs i) as Hsi. case_bool_decide as E.
  - by apply Hsi in E as [_ ?].
  - destruct (view bm i) eqn:Ev; [|done]. exfalso. apply E, Hsi.
    destruct (Z.lt_ge_cases i (chunk_count bm)); [done|]. by rewrite wf_padding in Ev.
Qed.

(** A bitmap of the right size whose view is membership in [s] represents [s]. *)
Lemma repr_intro bm s : wf bm -> (forall i, i ∈ s -> 0 <= i < chunk_count bm) ->
  (forall i, 0 <= i -> view bm i = bool_decide (i ∈ s)) -> repr bm s.
Proof.
  intros Hwf Hin Hv. split; [done|]. intros i. split.
  - intros Hi. specialize (Hin i Hi). rewrite Hv by lia. by rewrite bool_decide_true.
  - intros [Hi E]. rewrite Hv in E by lia. by apply bool_decide_eq_true in E.
Qed.

Lemma repr_new n : is_u32 n -> repr (new n) ∅.
Proof.
  intros Hn. apply repr_intro; [by apply new_wf | set_solver |].
  intros i Hi. rewrite new_view. by rewrite bool_decide_false by set_solver.
Qed.

(** C37: On a bitmap that represents the set [s], [is_set] decides membership
    for every [u32] index (never indexing out of bounds), [set]/[clear] insert
    and delete an in-range index and report a protocol error on any other, and
    [mark_all] represents the full index range. *)
Theorem bitmap_ops_refine_sets (bm : t) (s : gset Z) (i : Z) :
  repr bm s -> is_u32 i ->
  is_set bm i = Ok (bool_decide (i ∈ s)) /\
  (if chunk_count bm <=? i
   then is_err (set bm i) = true /\ is_err (clear bm i) = true
   else (exists bm', set bm i = Ok bm' /\ repr bm' ({[i]} ∪ s) /\
                     chunk_count bm' = chunk_count bm) /\
        (exists bm', clear bm i = Ok bm' /\ repr bm' (s ∖ {[i]}) /\
                     chunk_count bm' = chunk_count bm)) /\
  repr (mark_all bm) (list_to_set (seqZ 0 (chunk_count bm))).
Proof.
  intros Hr [Hi _]. pose proof Hr as [Hwf Hs].
  split; [rewrite is_set_spec by done; f_equal; by apply repr_view|]. split.
  - destruct (Z.leb_spec (chunk_count bm) i) as [Hge|Hlt].
    + unfold set, clear, check_index. apply Z.leb_le in Hge. by rewrite Hge.
    + destruct (set_spec bm i Hwf ltac:(lia)) as (b1 & -> & Hw1 & Hc1 & Hv1).
      destruct (clear_spec bm i Hwf ltac:(lia)) as (b2 & -> & Hw2 & Hc2 & Hv2).
      split; eexists; (split; [done|]); (split; [|done]); apply repr_intro; try done.
      * intros j. rewrite Hc1. set_unfold. intros [->|Hj]; [lia | by apply Hs].
      * intros j Hj. rewrite Hv1, (repr_view _ s) by done. apply mem_insert.
      * intros j. rewrite Hc2. set_unfold. intros [Hj _]. by apply Hs.
      * intros j Hj. rewrite Hv2, (repr_view _ s) by done. apply mem_delete.
  - destruct (mark_all_spec bm Hwf) as (Hw & Hc & Hv). apply repr_intro; [done | |].
    + intros j. rewrite Hc. set_unfold. lia.
    + intros j Hj. rewrite Hv by done.
      destruct (Z.ltb_spec j (chunk_count bm)); case_bool_decide as E; try done;
        set_unfold in E; lia.
Qed.

Lemma bitmap_ops_refine_sets_witness :
  repr (new 10) ∅ /\ is_set (new 10) 3 = Ok (bool_decide (3 ∈ (∅ : gset Z))).
Proof.
  assert (repr (new 10) ∅) as H by (apply repr_new; unfold in_range, U32_MAX; lia).
  split; [exact H|].
  apply (bitmap_ops_refine_sets (new 10) ∅ 3 H). unfold in_range, U32_MAX. lia.
Defined.

(** [from_present] on a [u32] chunk count succeeds exactly when every index
    is in range, and then represents the set of listed indices; [merge] of two
    bitmaps of the same size represents the union, and bitmaps of different
    sizes are rejected. *)
Theorem bitmap_build_and_merge (n : Z) (xs : list Z) (a b : t) (sa sb : gset Z) :
  is_u32 n -> Forall is_u32 xs -> repr a sa -> repr b sb ->
  match from_present n xs with
  | Ok bm => Forall (fun i => i < n) xs /\ repr bm (list_to_set xs) /\ chunk_count bm = n
  | Err _ => Exists (fun i => n <= i) xs
  | Panic => False
  end /\
  match merge a b with
  | Ok c => chunk_count a = chunk_count b /\ repr c (sa ∪ sb)
  | Err _ => chunk_count a <> chunk_count b
  | Panic => False
  end.
Proof.
  intros Hn Hxs Ha Hb. split.
  - unfold from_present.
    assert (Forall (fun i => 0 <= i) xs) as Hpos.
    { eapply Forall_impl; [exact Hxs|]. intros i [? _]. done. }
    pose proof (fold_set_spec (new n) xs (new_wf n Hn) Hpos) as H. cbn [chunk_count new] in H.
    destruct (fold_outcome set (new n) xs) as [bm|e|]; [|naive_solver|done].
    destruct H as (Hlt & Hw & Hc & Hv). split; [done|]. split; [|done].
    apply repr_intro; [done | |].
    + intros i. rewrite Hc. set_unfold. intros Hi.
      rewrite Forall_forall in Hlt, Hpos. split; [by apply Hpos | by apply Hlt].
    + intros i Hi. rewrite Hv, new_view, orb_false_r by done.
      apply bool_decide_ext. set_solver.
  - destruct (Z.eqb_spec (chunk_count a) (chunk_count b)) as [Hc|Hc].
    2: { unfold merge. apply Z.eqb_neq in Hc as E. by rewrite E. }
    destruct (merge_spec a b (proj1 Ha) (proj1 Hb) Hc) as (c & -> & Hw & Hcc & Hv).
    split; [done|]. apply repr_intro; [done | |].
    + intros i. rewrite Hcc. set_unfold.
      intros [Hi|Hi]; [by apply Ha in Hi as [? _] | rewrite Hc; by apply Hb in Hi as [? _]].
    + intros i Hi. rewrite Hv, (repr_view a sa), (repr_view b sb) by done.
      apply mem_union.
Qed.

Lemma bitmap_build_and_merge_witness :
  repr (new 8) ∅ /\
  match from_present 8 [0; 1; 2] with
  | Ok bm => Forall (fun i => i < 8) [0; 1; 2] /\ repr bm (list_to_set [0; 1; 2]) /\ chunk_count bm = 8
  | Err _ => Exists (fun i => 8 <= i) [0; 1; 2]
  | Panic => False
  end.
Proof.
  assert (is_u32 8) as H8 by (unfold in_range, U32_MAX; lia).
  assert (repr (new 8) ∅) as H by (apply repr_new; exact H8).
  split; [exact H|].
  apply (bitmap_build_and_merge 8 [0; 1; 2] (new 8) (new 8) ∅ ∅ H8); try exact H.
  repeat constructor; unfold in_range, U32_MAX; lia.
Defined.

(** [present] and [missing] never fail, list the set and unset indices in
    strictly ascending order, and together are a permutation of all indices;
    [count_set] is the number of present indices (padding never counted) and
    [is_complete] holds exactly when nothing is missing. *)
Theorem bitmap_counting (bm : t) :
  wf bm ->
  exists p m, present bm = Ok p /\ missing bm = Ok m /\
    p ++ m ≡ₚ seqZ 0 (chunk_count bm) /\
    StronglySorted Z.lt p /\ StronglySorted Z.lt m /\
    count_set bm = Z.of_nat (length p) /\
    (is_complete bm = true <-> m = []).
Proof.
  intros Hwf. do 2 eexists. split; [by apply present_spec|]. split; [by apply missing_spec|].
  split; [|split; [|split; [|split]]].
  - induction (seqZ 0 (chunk_count bm)) as [|i l IH]; [done|]. cbn.
    destruct (view bm i); cbn; [by rewrite IH|]. by rewrite <- Permutation_middle, IH.
  - apply StronglySorted_filter, StronglySorted_seqZ.
  - apply StronglySorted_filter, StronglySorted_seqZ.
  - by apply count_set_spec.
  - rewrite is_complete_spec by done. split.
    + intros H. apply filter_none. intros i Hi%elem_of_seqZ. rewrite H by lia. done.
    + intros H i Hi. destruct (view bm i) eqn:E; [done|]. exfalso.
      assert (i ∈ List.filter (fun i => negb (view bm i)) (seqZ 0 (chunk_count bm))) as Hin.
      { apply list_elem_of_In, filter_In. rewrite E. split; [|done].
        apply list_elem_of_In, elem_of_seqZ. lia. }
      rewrite H in Hin. set_solver.
Qed.

Lemma bitmap_counting_witness :
  wf (new 9) /\ exists p m, present (new 9) = Ok p /\ missing (new 9) = Ok m /\
    p ++ m ≡ₚ seqZ 0 9 /\ StronglySorted Z.lt p /\ StronglySorted Z.lt m /\
    count_set (new 9) = Z.of_nat (length p) /\ (is_complete (new 9) = true <-> m = []).
Proof.
  assert (wf (new 9)) as H by (apply new_wf; unfold in_range, U32_MAX; lia).
  split; [exact H | exact (bitmap_counting (new 9) H)].
Defined.

(** The byte form is canonical: [from_bytes] accepts exactly the byte
    strings [to_bytes] produces from well-formed bitmaps of that chunk count,
    returning that bitmap; every other byte string is a protocol error, so two
    bitmaps are equal iff their bytes are. *)
Theorem bitmap_bytes_roundtrip (n : Z) (bytes : list Z) (bm : t) :
  is_u32 n -> are_bytes bytes ->
  (from_bytes n bytes = Ok bm <-> wf bm /\ chunk_count bm = n /\ to_bytes bm = bytes) /\
  from_bytes n bytes <> Panic.
Proof.
  intros Hn Hb. rewrite from_bytes_spec by done. split.
  - split.
    + intros [-> Hwf]. done.
    + intros (Hwf & <- & <-). by destruct bm.
  - unfold from_bytes, fail_if. repeat (destruct (negb _); cbn; [done|]). done.
Qed.

Lemma bitmap_bytes_roundtrip_witness :
  is_u32 9 /\ are_bytes [255; 1] /\ from_bytes 9 [255; 1] = Ok (mk 9 [255; 1]) /\
  wf (mk 9 [255; 1]).
Proof.
  assert (is_u32 9) as H9 by (unfold in_range, U32_MAX; lia).
  assert (are_bytes [255; 1]) as Hb by (repeat constructor; unfold in_range, U8_MAX; lia).
  split; [exact H9|]. split; [exact Hb|]. split; [reflexivity|].
  apply (bitmap_bytes_roundtrip 9 [255; 1] (mk 9 [255; 1]) H9 Hb). reflexivity.
Defined.

End ChunkBitmap.
