(* ===== verification/Io.v ===== *)
(** * Byte readers and writers

    The standard-library I/O traits the protocol code is generic over.  A reader
    is the finite list of results its successive [read] calls give before end of
    file; a writer collects bytes until it breaks.  Asynchronous waiting is not
    visible at this level. *)
From Stdlib Require Import ZArith Lia.
From stdpp Require Import prelude gmap strings.
From S2P Require Import Prelude.

#[local] Open Scope Z_scope.

(** What the next [read] call finds: some bytes ([Data []] is a read of zero
    bytes, i.e. end of file at that moment) or an error. *)
Inductive event : Type :=
  | Data (bs : list Z)
  | Fail (kind : io_kind).

Abbreviation reader := (list event).

(** One [read] into a buffer of [n] bytes: at most [n] bytes are taken, the rest
    of a larger event stays available. *)
Definition read (n : nat) (r : reader) : outcome io_kind (list Z) * reader :=
  match r with
  | [] => (Ok [], [])
  | Fail k :: r' => (Err k, r')
  | Data bs :: r' =>
      if (length bs <=? n)%nat then (Ok bs, r')
      else (Ok (take n bs), Data (drop n bs) :: r')
  end.

(** [tokio::io::AsyncReadExt::read_exact]: every error is returned as it is, an
    early end of file is [UnexpectedEof]. *)
Fixpoint read_exact_async (n : nat) (r : reader) : outcome io_kind (list Z) * reader :=
  match n, r with
  | O, _ => (Ok [], r)
  | _, [] => (Err UnexpectedEof, [])
  | _, Fail k :: r' => (Err k, r')
  | _, Data [] :: r' => (Err UnexpectedEof, r')
  | _, Data bs :: r' =>
      if (length bs <=? n)%nat then
        let (rest, r'') := read_exact_async (n - length bs) r' in (omap (app bs) rest, r'')
      else (Ok (take n bs), Data (drop n bs) :: r')
  end.

(** Read until [n] bytes are there or end of file: the loop of
    [transfer::chunker::read_full] (and of the frame header). [Interrupted]
    is retried, any other error ends the read. *)
Fixpoint read_full (n : nat) (r : reader) : outcome io_kind (list Z) * reader :=
  match n, r with
  | O, _ => (Ok [], r)
  | _, [] => (Ok [], [])
  | _, Fail Interrupted :: r' => read_full n r'
  | _, Fail k :: r' => (Err k, r')
  | _, Data [] :: r' => (Ok [], r')
  | _, Data bs :: r' =>
      if (length bs <=? n)%nat then
        let (rest, r'') := read_full (n - length bs) r' in (omap (app bs) rest, r'')
      else (Ok (take n bs), Data (drop n bs) :: r')
  end.

(** The bytes a reader still delivers, and readers that deliver data only. *)
Fixpoint bytes_of (r : reader) : list Z :=
  match r with
  | Data bs :: r' => bs ++ bytes_of r'
  | Fail _ :: r' => bytes_of r'
  | [] => []
  end.

Definition is_data (e : event) : bool :=
  match e with
  | Data (_ :: _) => true
  | _ => false
  end.

Definition data_only (r : reader) : Prop := Forall (fun e => is_data e = true) r.

Lemma data_only_drop n bs r : data_only (Data bs :: r) -> (n < length bs)%nat ->
  data_only (Data (drop n bs) :: r).
Proof.
  intros [_ Hr]%Forall_cons Hn. apply Forall_cons. split; [|done]. cbn.
  destruct (drop n bs) eqn:E; [|done].
  apply (f_equal length) in E. rewrite length_drop in E. cbn in E. lia.
Qed.

Lemma bytes_of_data_nil r : data_only r -> bytes_of r = [] -> r = [].
Proof.
  intros Hr. destruct r as [|e r]; [done|]. apply Forall_cons in Hr as [He _].
  by destruct e as [[|]|].
Qed.

(** On data-only readers [read_full] takes what is there, whatever the
    fragmentation. *)
Lemma read_full_data n r : data_only r ->
  exists r', read_full n r = (Ok (take n (bytes_of r)), r') /\
    data_only r' /\ bytes_of r' = drop n (bytes_of r).
Proof.
  revert n. induction r as [|e r IH]; intros n Hr.
  { destruct n; cbn; by exists []. }
  pose proof Hr as [He Hr']%Forall_cons.
  destruct e as [[|b bs]|]; [done| |done]. cbn [bytes_of].
  destruct n as [|n]; [cbn; by eexists|].
  change (read_full (S n) (Data (b :: bs) :: r)) with
    (if (length (b :: bs) <=? S n)%nat then
       let (rest, r'') := read_full (S n - length (b :: bs)) r in
       (omap (app (b :: bs)) rest, r'')
     else (Ok (take (S n) (b :: bs)), Data (drop (S n) (b :: bs)) :: r)).
  generalize dependent (b :: bs). clear b bs. intros bs Hr He.
  destruct (Nat.leb_spec (length bs) (S n)) as [Hle|Hgt].
  - destruct (IH (S n - length bs)%nat Hr') as (r' & E & Hd & Hb). rewrite E.
    exists r'. rewrite take_app, (take_ge bs), Hb, drop_app, (drop_ge bs) by lia. done.
  - eexists. split; [by rewrite take_app_le by lia|].
    split; [by apply data_only_drop|]. cbn. by rewrite drop_app_le by lia.
Qed.

(** On data-only readers [read_exact] does not depend on the fragmentation. *)
Lemma read_exact_data n r : data_only r ->
  if (n <=? length (bytes_of r))%nat then
    exists r', read_exact_async n r = (Ok (take n (bytes_of r)), r') /\
      data_only r' /\ bytes_of r' = drop n (bytes_of r)
  else fst (read_exact_async n r) = Err UnexpectedEof.
Proof.
  revert n. induction r as [|e r IH]; intros n Hr.
  { destruct n; cbn; [by exists []|done]. }
  pose proof Hr as [He Hr']%Forall_cons.
  destruct e as [[|b bs]|]; [done| |done]. cbn [bytes_of].
  destruct n as [|n]; [cbn; by eexists|].
  change (read_exact_async (S n) (Data (b :: bs) :: r)) with
    (if (length (b :: bs) <=? S n)%nat then
       let (rest, r'') := read_exact_async (S n - length (b :: bs)) r in
       (omap (app (b :: bs)) rest, r'')
     else (Ok (take (S n) (b :: bs)), Data (drop (S n) (b :: bs)) :: r)).
  generalize dependent (b :: bs). clear b bs. intros bs Hr He.
  rewrite length_app.
  destruct (Nat.leb_spec (length bs) (S n)) as [Hle|Hgt].
  - specialize (IH (S n - length bs)%nat Hr').
    destruct (Nat.leb_spec (S n - length bs) (length (bytes_of r))).
    + destruct IH as (r' & E & Hd & Hb). rewrite E.
      destruct (Nat.leb_spec (S n) (length bs + length (bytes_of r))); [|lia].
      exists r'. rewrite take_app, (take_ge bs), Hb, drop_app, (drop_ge bs) by lia. done.
    + destruct (Nat.leb_spec (S n) (length bs + length (bytes_of r))); [lia|].
      destruct (read_exact_async (S n - length bs) r) as [o r']. cbn in *. by rewrite IH.
  - destruct (Nat.leb_spec (S n) (length bs + length (bytes_of r))); [|lia].
    eexists. split; [by rewrite take_app_le by lia|].
    split; [by apply data_only_drop|]. cbn. by rewrite drop_app_le by lia.
Qed.

(** ** Writers *)

(** [out] is what reached the peer; a [broken] writer fails every call. *)
Record writer : Type := mk_writer {
  out : list Z;
  broken : option io_kind;
}.

Definition write_all (w : writer) (bs : list Z) : result writer :=
  match broken w with
  | Some k => Err (Io k)
  | None => Ok (mk_writer (out w ++ bs) None)
  end.

Definition flush (w : writer) : result writer :=
  match broken w with
  | Some k => Err (Io k)
  | None => Ok w
  end.
