(* ===== verification/Manifest.v ===== *)
(** * File manifests (src/protocol/manifest.rs)

    Chunk arithmetic, the root hash, [FileManifest] with its single validation
    entry point, and the file-name sanitiser.  BLAKE3 is third-party code: it is
    the parameter [Blake3], used only through [blake3_hash]. *)
From Stdlib Require Import ZArith Lia.
From stdpp Require Import prelude gmap strings.
From S2P Require Import Prelude.

#[local] Open Scope Z_scope.

(** [blake3::hash]; the incremental [Hasher] gives the hash of the
    concatenation of its updates. *)
Class Blake3 : Type := blake3_hash : list Z -> list Z.

Module Manifest.

Definition DEFAULT_CHUNK_SIZE : Z := 256 * 1024.
Definition MIN_CHUNK_SIZE : Z := 16 * 1024.
Definition MAX_CHUNK_SIZE : Z := 16 * 1024 * 1024.
Definition CHUNK_HASH_LEN : nat := 32.
Definition ROOT_HASH_DOMAIN : list Z := lit "p2p_file/manifest/v1".

Abbreviation ChunkHash := (list Z).

Definition validate_chunk_size (chunk_size : Z) : result unit :=
  fail_if (negb ((MIN_CHUNK_SIZE <=? chunk_size) && (chunk_size <=? MAX_CHUNK_SIZE)))
    (Protocol "chunk size out of range").

(** The free function [chunk_count]. *)
Definition count_of (total_len chunk_size : Z) : Z :=
  if (total_len =? 0) || (chunk_size =? 0) then 0 else div_ceil total_len chunk_size.

Definition chunk_len_at (index total_len chunk_size : Z) : option Z :=
  let total := count_of total_len chunk_size in
  if total <=? index then None
  else
    offset ← checked_mul U64_MAX index chunk_size;
    remaining ← checked_sub total_len offset;
    Some (Z.min remaining chunk_size).

Record FileManifest : Type := mk_manifest {
  file_name : list Z;
  total_len : Z;
  chunk_size : Z;
  chunks : list (list Z);
  root_hash : list Z;
}.

#[global] Instance FileManifest_eq_dec : EqDecision FileManifest.
Proof. solve_decision. Defined.

Section WithHash.
Context `{Blake3}.

Definition hash_of (data : list Z) : list Z := blake3_hash data.

Definition hash_verify (h data : list Z) : bool := bool_decide (h = blake3_hash data).

Definition to_hex `{Hex} (h : list Z) : list Z := hex_encode h.

(** The bytes [root_hash_of] feeds to the hasher. *)
Definition root_preimage (name : list Z) (total size : Z) (hashes : list (list Z)) : list Z :=
  ROOT_HASH_DOMAIN ++ le_bytes 8 (str_len name) ++ utf8 name ++ le_bytes 8 total ++
  le_bytes 4 size ++ le_bytes 8 (Z.of_nat (length hashes)) ++ concat hashes.

Definition root_hash_of (name : list Z) (total size : Z) (hashes : list (list Z)) : list Z :=
  blake3_hash (root_preimage name total size hashes).

Definition verify_root_hash (m : FileManifest) : bool :=
  bool_decide (root_hash m =
    root_hash_of (file_name m) (total_len m) (chunk_size m) (chunks m)).

Definition validate (m : FileManifest) : result unit :=
  let? _ := validate_chunk_size (chunk_size m) in
  let? _ := fail_if (U32_MAX <? Z.of_nat (length (chunks m))) (Protocol "too many chunks") in
  let expected := count_of (total_len m) (chunk_size m) in
  let? _ := fail_if (negb (Z.of_nat (length (chunks m)) =? expected))
              (Protocol "chunk count mismatch") in
  fail_if (negb (verify_root_hash m)) (Protocol "root hash mismatch").

(** [FileManifest::new]. *)
Definition new (name : list Z) (total size : Z) (hashes : list (list Z)) : result FileManifest :=
  let? _ := validate_chunk_size size in
  let m := mk_manifest name total size hashes (root_hash_of name total size hashes) in
  let? _ := validate m in
  Ok m.

(** [self.chunks.len() as u32]. *)
Definition chunk_count (m : FileManifest) : Z :=
  Z.of_nat (length (chunks m)) mod (U32_MAX + 1).

Definition chunk_offset (m : FileManifest) (index : Z) : option Z :=
  if chunk_count m <=? index then None else checked_mul U64_MAX index (chunk_size m).

Definition chunk_len (m : FileManifest) (index : Z) : option Z :=
  chunk_len_at index (total_len m) (chunk_size m).

Definition chunk_range (m : FileManifest) (index : Z) : option (Z * Z) :=
  offset ← chunk_offset m index;
  len ← chunk_len m index;
  Some (offset, len).

(** [self.chunks[index as usize].verify(data)] panics out of range. *)
Definition verify_chunk (m : FileManifest) (index : Z) (data : list Z) : result bool :=
  match chunk_len m index with
  | None => Ok false
  | Some expected_len =>
      if negb (Z.of_nat (length data) =? expected_len) then Ok false
      else
        let? h := unwrap (chunks m !! Z.to_nat index) in
        Ok (hash_verify h data)
  end.

End WithHash.

(** [rsplit(['/', '\\']).next()]: the last component. *)
Definition is_separator (c : Z) : bool := (c =? 47) || (c =? 92).
Definition is_dot (c : Z) : bool := c =? 46.

Definition safe_file_name (name : list Z) : list Z :=
  let base := List.last (split is_separator name) name in
  let base := trim_matches is_dot (trim base) in
  let cleaned := List.filter (fun c => negb (is_control c) && negb (c =? 0)) base in
  match cleaned with
  | [] => lit "download.bin"
  | _ => cleaned
  end.

(** ** Chunk arithmetic *)

Lemma count_of_spec total size : 0 <= total -> 0 < size ->
  (count_of total size - 1) * size < total <= count_of total size * size \/
  (total = 0 /\ count_of total size = 0).
Proof.
  intros Ht Hs. unfold count_of. destruct (Z.eqb_spec total 0) as [->|]; [by right|].
  destruct (Z.eqb_spec size 0); [lia|]. cbn. left. by apply div_ceil_spec.
Qed.

Lemma count_of_nonneg total size : 0 <= total -> 0 <= size -> 0 <= count_of total size.
Proof.
  intros Ht Hs. unfold count_of. destruct (Z.eqb_spec total 0), (Z.eqb_spec size 0); cbn; try lia.
  apply div_ceil_nonneg; lia.
Qed.

(** The length of chunk [i], in closed form. *)
Lemma chunk_len_at_spec i total size : 0 <= i -> is_u64 total -> 0 < size ->
  chunk_len_at i total size =
  if i <? count_of total size then Some (Z.min (total - i * size) size) else None.
Proof.
  intros Hi [Ht Hmax] Hs. unfold chunk_len_at.
  destruct (Z.leb_spec (count_of total size) i), (Z.ltb_spec i (count_of total size)); try lia; [done|].
  destruct (count_of_spec total size) as [Hc|[? ?]]; [lia..| |lia].
  assert (i * size < total) by nia.
  unfold checked_mul. destruct (Z.leb_spec (i * size) U64_MAX); [|lia]. cbn.
  unfold checked_sub. destruct (Z.leb_spec (i * size) total); [done | lia].
Qed.

(** The [len] bytes at [offset]. *)
Definition slice (data : list Z) (range : Z * Z) : list Z :=
  take (Z.to_nat range.2) (drop (Z.to_nat range.1) data).

Section Validated.
Context `{Blake3}.

(** What [validate] establishes. *)
Record valid (m : FileManifest) : Prop := {
  valid_size : MIN_CHUNK_SIZE <= chunk_size m <= MAX_CHUNK_SIZE;
  valid_u32 : Z.of_nat (length (chunks m)) <= U32_MAX;
  valid_count : Z.of_nat (length (chunks m)) = count_of (total_len m) (chunk_size m);
  valid_root : root_hash m =
    root_hash_of (file_name m) (total_len m) (chunk_size m) (chunks m);
}.

Lemma validate_chunk_size_Ok size u :
  validate_chunk_size size = Ok u <-> MIN_CHUNK_SIZE <= size <= MAX_CHUNK_SIZE.
Proof.
  unfold validate_chunk_size. rewrite fail_if_Ok, negb_false_iff, andb_true_iff, !Z.leb_le. done.
Qed.

Lemma validate_Ok m : validate m = Ok tt <-> valid m.
Proof.
  unfold validate. split.
  - intros E. inv_ok.
    match goal with H : validate_chunk_size _ = _ |- _ => apply validate_chunk_size_Ok in H end.
    unfold verify_root_hash in *. bool_hyps. by split.
  - intros [H1 H2 H3 H4]. unfold verify_root_hash.
    rewrite (proj2 (validate_chunk_size_Ok _ tt) H1). cbn.
    destruct (Z.ltb_spec U32_MAX (Z.of_nat (length (chunks m)))); [lia|]. cbn.
    rewrite H3, Z.eqb_refl. cbn. by rewrite bool_decide_true.
Qed.

Lemma validate_total m : validate m = Ok tt \/ exists tag, validate m = Err (Protocol tag).
Proof.
  unfold validate, validate_chunk_size, fail_if.
  repeat match goal with |- context [if ?b then _ else _] => destruct b; cbn; eauto end.
Qed.

Lemma new_Ok name total size hashes m : new name total size hashes = Ok m <->
  valid m /\ file_name m = name /\ total_len m = total /\ chunk_size m = size /\ chunks m = hashes.
Proof.
  unfold new. split.
  - intros E. inv_ok. split; [by apply validate_Ok | done].
  - intros (Hv & <- & <- & <- & <-).
    rewrite (proj2 (validate_chunk_size_Ok _ tt) (valid_size m Hv)). cbn.
    rewrite <- (valid_root m Hv).
    replace (mk_manifest _ _ _ _ _) with m by (by destruct m).
    by rewrite (proj2 (validate_Ok m) Hv).
Qed.

Lemma valid_chunk_count m : valid m -> chunk_count m = Z.of_nat (length (chunks m)).
Proof. intros [_ Hu _ _]. unfold chunk_count. apply Z.mod_small. unfold U32_MAX in *. lia. Qed.

Lemma valid_size_pos m : valid m -> 0 < chunk_size m.
Proof. intros [Hs _ _ _]. unfold MIN_CHUNK_SIZE in Hs. lia. Qed.

(** Offset and length of every chunk of a validated manifest. *)
Lemma chunk_range_spec m i : valid m -> is_u64 (total_len m) -> 0 <= i ->
  chunk_range m i =
  if i <? Z.of_nat (length (chunks m))
  then Some (i * chunk_size m, Z.min (total_len m - i * chunk_size m) (chunk_size m))
  else None.
Proof.
  intros Hv Ht Hi. pose proof (valid_size_pos m Hv) as Hs. pose proof (valid_count m Hv) as Hc.
  unfold chunk_range, chunk_offset, chunk_len. rewrite valid_chunk_count by done.
  rewrite chunk_len_at_spec by done. rewrite <- Hc.
  destruct (Z.leb_spec (Z.of_nat (length (chunks m))) i),
    (Z.ltb_spec i (Z.of_nat (length (chunks m)))); try lia; [done|].
  destruct (count_of_spec (total_len m) (chunk_size m)) as [Hb|[? ?]]; [apply Ht | done | | lia].
  unfold checked_mul, in_range in *. destruct (Z.leb_spec (i * chunk_size m) U64_MAX); [done | nia].
Qed.

Lemma verify_chunk_spec m i data : valid m -> is_u64 (total_len m) -> 0 <= i ->
  exists b, verify_chunk m i data = Ok b /\
    (b = true <-> exists range, chunk_range m i = Some range /\
       Z.of_nat (length data) = range.2 /\ chunks m !! Z.to_nat i = Some (hash_of data)).
Proof.
  intros Hv Ht Hi. pose proof (chunk_range_spec m i Hv Ht Hi) as Hr.
  unfold verify_chunk, chunk_len. rewrite chunk_len_at_spec by (done || by apply valid_size_pos).
  rewrite <- (valid_count m Hv).
  destruct (Z.ltb_spec i (Z.of_nat (length (chunks m)))) as [Hlt|Hge].
  2: { eexists. split; [done|]. split; [done|]. intros (r & E & _). congruence. }
  destruct (Z.eqb_spec (Z.of_nat (length data))
    (Z.min (total_len m - i * chunk_size m) (chunk_size m))) as [Hl|Hl]; cbn.
  2: { eexists. split; [done|]. split; [done|]. intros (r & E & E2 & _).
       rewrite Hr in E. injection E as <-. done. }
  destruct (lookup_lt_is_Some_2 (chunks m) (Z.to_nat i)) as [h Eh]; [lia|].
  rewrite Eh. cbn. eexists. split; [done|]. unfold hash_verify, hash_of.
  rewrite bool_decide_eq_true. split.
  - intros ->. eexists. split; [exact Hr|]. done.
  - intros (r & _ & _ & E). by injection E as <-.
Qed.

(** ** Reassembly *)

Lemma concat_slices m data k : valid m -> is_u64 (total_len m) ->
  Z.of_nat (length data) = total_len m -> (k <= length (chunks m))%nat ->
  concat (map (fun i => slice data (i * chunk_size m,
                 Z.min (total_len m - i * chunk_size m) (chunk_size m))) (seqZ 0 (Z.of_nat k)))
  = take (Z.to_nat (Z.min (Z.of_nat k * chunk_size m) (total_len m))) data.
Proof.
  intros Hv Ht Hd. pose proof (valid_size_pos m Hv) as Hs. induction k as [|k IH]; intros Hk.
  { cbn. rewrite Z.min_l by (unfold in_range in *; lia). done. }
  rewrite seqZ_S, map_app, concat_app, IH by lia. cbn [map concat]. rewrite app_nil_r.
  unfold slice. cbn [fst snd]. rewrite Z.add_0_l.
  assert (Z.of_nat k * chunk_size m < total_len m) as Hlt.
  { pose proof (valid_count m Hv) as Hc.
    destruct (count_of_spec (total_len m) (chunk_size m)) as [Hb|[? ?]]; [apply Ht|done| |lia].
    nia. }
  rewrite (Z.min_l (Z.of_nat k * chunk_size m)) by lia.
  rewrite take_take_drop. f_equal. lia.
Qed.

Definition chunk_data (m : FileManifest) (data : list Z) (i : Z) : list Z :=
  default [] (slice data <$> chunk_range m i).

Lemma chunk_data_range m data i : valid m -> is_u64 (total_len m) ->
  0 <= i < Z.of_nat (length (chunks m)) ->
  chunk_data m data i = slice data (i * chunk_size m,
    Z.min (total_len m - i * chunk_size m) (chunk_size m)).
Proof.
  intros Hv Ht Hi. unfold chunk_data. rewrite chunk_range_spec by (done || lia).
  destruct (Z.ltb_spec i (Z.of_nat (length (chunks m)))); [done | lia].
Qed.

(** The slices put together are the file. *)
Lemma chunk_data_concat m data : valid m -> is_u64 (total_len m) ->
  Z.of_nat (length data) = total_len m ->
  concat (map (chunk_data m data) (seqZ 0 (chunk_count m))) = data.
Proof.
  intros Hv Ht Hd. pose proof (valid_size_pos m Hv) as Hs. rewrite valid_chunk_count by done.
  pose proof (valid_count m Hv) as Hc.
  destruct (count_of_spec (total_len m) (chunk_size m)) as [Hb|[Ht0 Hc0]]; [apply Ht|done|..];
    rewrite <- Hc in *.
  - erewrite (map_ext_in _ _ (seqZ _ _)).
    2: { intros j Hj%list_elem_of_In%elem_of_seqZ. by apply chunk_data_range. }
    rewrite concat_slices by done. apply take_ge. nia.
  - rewrite Hc0. cbn. destruct data; [done | cbn in Hd; lia].
Qed.

End Validated.

(** [validate] accepts exactly the manifests whose chunk size is in
    [16 KiB, 16 MiB], whose chunk list has the exact length [total_len] and
    [chunk_size] prescribe (at most [u32::MAX]) and whose root hash is the hash
    of their fields; any other manifest is a protocol error, never a panic.
    [FileManifest::new] returns exactly the validated manifest of its arguments. *)
Theorem validate_exact `{Blake3} (m : FileManifest) :
  (validate m = Ok tt <-> valid m) /\
  (validate m = Ok tt \/ exists tag, validate m = Err (Protocol tag)) /\
  (forall m', new (file_name m) (total_len m) (chunk_size m) (chunks m) = Ok m' <->
     valid m' /\ file_name m' = file_name m /\ total_len m' = total_len m /\
     chunk_size m' = chunk_size m /\ chunks m' = chunks m).
Proof.
  split; [apply validate_Ok|]. split; [apply validate_total|]. intros m'. apply new_Ok.
Qed.

(** The chunks of a validated manifest tile the file: each [chunk_range] is
    non-empty, at most [chunk_size] long, starts where the previous one ends,
    the last one ends at [total_len], indices past the last have no range, and
    concatenating the slices of any [total_len]-byte file gives the file back. *)
Theorem chunk_ranges_tile `{Blake3} (m : FileManifest) (data : list Z) (i : Z) :
  validate m = Ok tt -> is_u64 (total_len m) -> is_u32 i ->
  Z.of_nat (length data) = total_len m ->
  match chunk_range m i with
  | Some (offset, len) =>
      i < chunk_count m /\ 0 < len <= chunk_size m /\
      (i = 0 -> offset = 0) /\
      (if i + 1 <? chunk_count m
       then exists len', chunk_range m (i + 1) = Some (offset + len, len')
       else offset + len = total_len m)
  | None => chunk_count m <= i
  end /\
  concat (map (chunk_data m data) (seqZ 0 (chunk_count m))) = data.
Proof.
  intros Hv%validate_Ok Ht [Hi _] Hd. pose proof (valid_size_pos m Hv) as Hs.
  split; [|by apply chunk_data_concat].
  rewrite valid_chunk_count, !chunk_range_spec by (done || lia).
  pose proof (valid_count m Hv) as Hc.
  destruct (count_of_spec (total_len m) (chunk_size m)) as [Hb|Hb]; [apply Ht|done|..];
    rewrite <- Hc in Hb.
  - destruct (Z.ltb_spec i (Z.of_nat (length (chunks m)))); [|done].
    split; [done|]. split; [nia|]. split; [lia|].
    destruct (Z.ltb_spec (i + 1) (Z.of_nat (length (chunks m)))); [|nia].
    eexists. do 2 f_equal. nia.
  - destruct (Z.ltb_spec i (Z.of_nat (length (chunks m)))); lia.
Qed.

Lemma chunk_ranges_tile_witness :
  let hash : Blake3 := fun _ => [] in
  let m := mk_manifest (lit "a") 3 16384 [[]] [] in
  validate m = Ok tt /\
  concat (map (chunk_data m [7; 8; 9]) (seqZ 0 (chunk_count m))) = [7; 8; 9].
Proof.
  intros hash m. assert (validate m = Ok tt) as H by reflexivity.
  split; [exact H|].
  apply (chunk_ranges_tile m [7; 8; 9] 0 H); [..|reflexivity]; done.
Defined.

(** The root hash covers every field: two validated manifests (with real
    field widths and 32-byte chunk hashes) that share a root hash are equal,
    unless two different byte strings with the same BLAKE3 hash are at hand. *)
Theorem root_hash_covers_fields `{Blake3} (m1 m2 : FileManifest) :
  validate m1 = Ok tt -> validate m2 = Ok tt ->
  (forall m, m = m1 \/ m = m2 ->
     Forall is_scalar (file_name m) /\ is_u64 (str_len (file_name m)) /\
     is_u64 (total_len m) /\ Forall (fun h => length h = CHUNK_HASH_LEN) (chunks m)) ->
  root_hash m1 = root_hash m2 ->
  m1 = m2 \/ exists x y, x <> y /\ blake3_hash x = blake3_hash y.
Proof.
  intros [Hs1 Hu1 _ Hr1]%validate_Ok [Hs2 Hu2 _ Hr2]%validate_Ok Hf Hr.
  destruct (Hf m1) as (Hn1 & Hl1 & Ht1 & Hh1); [by left|].
  destruct (Hf m2) as (Hn2 & Hl2 & Ht2 & Hh2); [by right|].
  pose proof Hr as Heq. rewrite Hr1, Hr2 in Heq. unfold root_hash_of in Heq.
  destruct (decide (root_preimage (file_name m1) (total_len m1) (chunk_size m1) (chunks m1) =
    root_preimage (file_name m2) (total_len m2) (chunk_size m2) (chunks m2))) as [E|Hne].
  2: { right. do 2 eexists. split; [exact Hne | exact Heq]. }
  left. unfold root_preimage in E. apply app_inv_head in E.
  unfold in_range, U64_MAX, U32_MAX, MIN_CHUNK_SIZE, MAX_CHUNK_SIZE in *.
  apply app_le_inj in E as [El E]; [|lia..].
  apply app_inj_1 in E as [En E]; [|unfold str_len in El; lia].
  apply utf8_inj in En; [|done..].
  apply app_le_inj in E as [Et E]; [|lia..].
  apply app_le_inj in E as [Es E]; [|lia..].
  apply app_le_inj in E as [Ec E]; [|lia..].
  apply (concat_inj CHUNK_HASH_LEN) in E; [|done|done|lia].
  destruct m1, m2. cbn in *. congruence.
Qed.

Lemma root_hash_covers_fields_witness :
  let hash : Blake3 := fun x => x in
  let root := root_hash_of (lit "a") 0 16384 [] in
  let m := mk_manifest (lit "a") 0 16384 [] root in
  validate m = Ok tt /\ (m = m \/ exists x y, x <> y /\ blake3_hash x = blake3_hash y).
Proof.
  intros hash root m. assert (validate m = Ok tt) as H by reflexivity.
  split; [exact H|].
  apply (root_hash_covers_fields m m H H); [|reflexivity].
  assert (Forall is_scalar (file_name m) /\ is_u64 (str_len (file_name m)) /\
    is_u64 (total_len m) /\ Forall (fun h => length h = CHUNK_HASH_LEN) (chunks m)) as Hm.
  { split; [|split; [|split]]; [|done|done|constructor].
    constructor; [split; cbn; lia | constructor]. }
  intros m' [-> | ->]; exact Hm.
Defined.

(** On a validated manifest [verify_chunk] never panics and accepts exactly
    the data of the right length whose hash is the one recorded for that chunk;
    on a manifest that skipped [validate] it can index out of bounds and panic. *)
Theorem verify_chunk_exact :
  (forall (hash : Blake3) (m : FileManifest) (i : Z) (data : list Z),
     validate m = Ok tt -> is_u64 (total_len m) -> is_u32 i ->
     exists b, verify_chunk m i data = Ok b /\
       (b = true <-> exists offset len, chunk_range m i = Some (offset, len) /\
          Z.of_nat (length data) = len /\ chunks m !! Z.to_nat i = Some (hash_of data))) /\
  (forall (hash : Blake3),
     verify_chunk (mk_manifest [] 16385 16384 [hash_of []] []) 1 [0] = Panic).
Proof.
  split.
  - intros hash m i data Hv%validate_Ok Ht [Hi _].
    destruct (verify_chunk_spec m i data Hv Ht Hi) as (b & E & Hb). exists b. split; [done|].
    rewrite Hb. split.
    + intros ([o l] & ? & ? & ?). eauto.
    + intros (o & l & ? & ? & ?). by exists (o, l).
  - intros hash. reflexivity.
Qed.

(** ** The file-name sanitiser *)

Lemma split_pieces p s : Forall (Forall (fun c => p c = false)) (split p s).
Proof.
  induction s as [|c s IH]; cbn; [by repeat constructor|].
  destruct (p c) eqn:E; [by repeat constructor|].
  destruct (split p s) as [|piece rest]; [by repeat constructor|].
  apply Forall_cons in IH as [H1 H2]. by repeat constructor.
Qed.

Lemma split_chars p s : Forall (Forall (fun c => c ∈ s)) (split p s).
Proof.
  induction s as [|c s IH]; cbn; [by repeat constructor|].
  assert (Forall (Forall (fun d => d ∈ c :: s)) (split p s)) as IH'.
  { eapply Forall_impl; [exact IH|]. intros piece Hp. eapply Forall_impl; [exact Hp|].
    intros d. set_solver. }
  destruct (p c); [by repeat constructor|].
  assert (c ∈ c :: s) as Hc by set_solver.
  destruct (split p s) as [|piece rest]; [by repeat (apply Forall_cons; split)|].
  apply Forall_cons in IH' as [H1 H2]. by repeat (apply Forall_cons; split).
Qed.

Lemma last_split_in p s d : List.last (split p s) d ∈ split p s.
Proof.
  apply list_elem_of_In. destruct (split p s) as [|x l] eqn:E.
  - exfalso. destruct s as [|c s]; [done|]. cbn in E. destruct (p c); [done|].
    by destruct (split p s).
  - clear E. revert x. induction l as [|y l IH]; intros x; [by left|]. right. apply IH.
Qed.

Lemma elem_of_rev {A} (x : A) l : x ∈ rev l <-> x ∈ l.
Proof. rewrite !list_elem_of_In. symmetry. apply in_rev. Qed.

Lemma trim_start_sub p s c : c ∈ trim_start p s -> c ∈ s.
Proof. intros Hc. destruct (trim_start_suffix p s) as [pre ->]. set_solver. Qed.

Lemma trim_matches_sub p s c : c ∈ trim_matches p s -> c ∈ s.
Proof.
  unfold trim_matches. rewrite elem_of_rev. intros Hc%trim_start_sub.
  rewrite elem_of_rev in Hc. by apply trim_start_sub in Hc.
Qed.

Lemma filter_id {A} (f : A -> bool) l : Forall (fun x => f x = true) l -> List.filter f l = l.
Proof. induction 1 as [|x l Hx Hl IH]; [done|]. cbn. by rewrite Hx, IH. Qed.

Lemma trim_matches_ends p s c :
  (head (trim_matches p s) = Some c \/ last (trim_matches p s) = Some c) -> p c = false.
Proof.
  unfold trim_matches. set (inner := trim_start p s).
  destruct (trim_start_suffix p (rev inner)) as [pre Hpre].
  destruct (trim_start p (rev inner)) as [|d rest] eqn:E; [by intros [?|?]|].
  intros [Hh|Hl].
  - assert (head inner = Some c) as Hi.
    { rewrite <- (rev_involutive inner), Hpre, rev_app_distr. by destruct (rev (d :: rest)). }
    subst inner. destruct (trim_start p s) as [|x l] eqn:Et; [done|].
    injection Hi as ->. by apply trim_start_head in Et.
  - cbn in Hl. rewrite last_snoc in Hl. injection Hl as <-. by apply trim_start_head in E.
Qed.

Lemma safe_file_name_base name :
  exists base, safe_file_name name =
      match List.filter (fun c => negb (is_control c) && negb (c =? 0)) base with
      | [] => lit "download.bin"
      | cleaned => cleaned
      end /\
    (forall c, c ∈ base -> c ∈ name /\ is_separator c = false) /\
    (forall c, head base = Some c \/ last base = Some c -> is_dot c = false).
Proof.
  exists (trim_matches is_dot (trim (List.last (split is_separator name) name))).
  split; [unfold safe_file_name; by destruct (List.filter _ _)|].
  split; [|intros c; apply trim_matches_ends].
  intros c Hc%trim_matches_sub%trim_matches_sub.
  pose proof (last_split_in is_separator name name) as Hin.
  pose proof (split_pieces is_separator name) as Hp.
  pose proof (split_chars is_separator name) as Hs.
  rewrite Forall_forall in Hp, Hs. specialize (Hp _ Hin). specialize (Hs _ Hin).
  rewrite Forall_forall in Hp, Hs. split; [by apply Hs | by apply Hp].
Qed.

(** [safe_file_name] never returns an empty name, a path separator or a
    control character, and for a name without control characters the result
    neither starts nor ends with a dot (so it is not [.] or [..]).  With control
    characters around the dots that last guarantee fails: the dots are trimmed
    before the control characters are dropped, and the result can be [..]. *)
Theorem safe_file_name_component (name : list Z) :
  safe_file_name name <> [] /\
  Forall (fun c => c <> 47 /\ c <> 92 /\ is_control c = false) (safe_file_name name) /\
  (Forall (fun c => is_control c = false) name ->
     head (safe_file_name name) <> Some 46 /\ last (safe_file_name name) <> Some 46) /\
  safe_file_name ([1] ++ lit ".." ++ [1]) = lit "..".
Proof.
  destruct (safe_file_name_base name) as (base & -> & Hchars & Hends).
  set (keep := fun c => negb (is_control c) && negb (c =? 0)).
  split; [by destruct (List.filter keep base)|]. split; [|split; [|done]].
  - destruct (List.filter keep base) as [|x l] eqn:E; [by repeat constructor|].
    rewrite <- E. apply Forall_forall. intros c [Hc Hk]%list_elem_of_In%filter_In.
    apply list_elem_of_In in Hc. destruct (Hchars c Hc) as [_ Hsep].
    unfold keep, is_separator in *. bool_hyps. done.
  - intros Hctl. rewrite filter_id.
    2: { apply Forall_forall. intros c Hc. destruct (Hchars c Hc) as [Hn _].
         rewrite Forall_forall in Hctl. pose proof (Hctl c Hn) as E. unfold keep.
         rewrite E. unfold is_control in E. bool_hyps. apply negb_true_iff, Z.eqb_neq. lia. }
    destruct base as [|x l] eqn:E; [done|]. rewrite <- E in *. clear E x l.
    split; intros Hd; [specialize (Hends 46 (or_introl Hd)) | specialize (Hends 46 (or_intror Hd))];
      done.
Qed.

End Manifest.
