(* ===== verification/Postcard.v ===== *)
(** * The postcard serializer, as an interface

    [postcard] is a third-party crate: the wire code is generic over the encoder
    and decoder of each message type.  What it relies on is that decoding an
    encoding gives the value back and leaves the following bytes alone. *)
From Stdlib Require Import ZArith Lia.
From stdpp Require Import prelude gmap strings countable.
From S2P Require Import Prelude.

#[local] Open Scope Z_scope.

(** [postcard::to_allocvec] and [postcard::take_from_bytes] at one type. *)
Class Postcard (A : Type) : Type := {
  to_allocvec : A -> result (list Z);
  take_from_bytes : list Z -> result (A * list Z);
}.

(** [postcard::from_bytes]: trailing bytes are ignored. *)
Definition from_bytes {A} `{Postcard A} (bytes : list Z) : result A :=
  omap fst (take_from_bytes bytes).

(** The documented round trip. *)
Class PostcardLaws (A : Type) `{Postcard A} : Prop :=
  take_to_allocvec : forall (a : A) (bs rest : list Z),
    to_allocvec a = Ok bs -> take_from_bytes (bs ++ rest) = Ok (a, rest).

Lemma from_to_allocvec {A} `{PostcardLaws A} (a : A) bs :
  to_allocvec a = Ok bs -> from_bytes bs = Ok a.
Proof.
  intros E. unfold from_bytes. rewrite <- (app_nil_r bs).
  by rewrite (take_to_allocvec a bs [] E).
Qed.

(** ** A concrete serializer for any countable type

    Used to instantiate the interface: the bits of the code, least significant
    first, closed by a 2. *)
Module Concrete.

Fixpoint bits_of (p : positive) : list Z :=
  match p with
  | xH => [2]
  | xO p' => 0 :: bits_of p'
  | xI p' => 1 :: bits_of p'
  end.

Fixpoint take_bits (bs : list Z) : option (positive * list Z) :=
  match bs with
  | [] => None
  | b :: bs' =>
      if b =? 2 then Some (xH, bs')
      else match take_bits bs' with
           | None => None
           | Some (p, rest) =>
               if b =? 0 then Some (xO p, rest)
               else if b =? 1 then Some (xI p, rest) else None
           end
  end.

Lemma take_bits_of p rest : take_bits (bits_of p ++ rest) = Some (p, rest).
Proof. induction p as [p IH|p IH|]; cbn; rewrite ?IH; done. Qed.

Definition postcard (A : Type) `{Countable A} : Postcard A := {|
  to_allocvec a := Ok (bits_of (encode a));
  take_from_bytes bs :=
    match take_bits bs with
    | None => Err Encode
    | Some (p, rest) => omap (fun a => (a, rest)) (ok_or (decode p) Encode)
    end
|}.

Lemma postcard_laws (A : Type) `{Countable A} : PostcardLaws A (H := postcard A).
Proof.
  intros a bs rest [= <-]. cbn. by rewrite take_bits_of, decode_encode.
Qed.

End Concrete.
