(* ===== verification/Message.v ===== *)
(** * Control messages and the handshake payload (src/protocol/message.rs) *)
From Stdlib Require Import ZArith Lia.
From stdpp Require Import prelude gmap strings countable.
From S2P Require Import Prelude Manifest Postcard.

#[local] Open Scope Z_scope.

(** [identity::NodeId]: the 16 bytes. *)
Abbreviation NodeId := (list Z).

Module Message.

Definition PROTOCOL_VERSION : Z := 3.
Definition HANDSHAKE_DOMAIN : list Z := lit "p2p_file/handshake/v3".

Inductive SpeedTestWireDirection : Type := Upload | Download.

#[global] Instance SpeedTestWireDirection_eq_dec : EqDecision SpeedTestWireDirection.
Proof. solve_decision. Defined.

Inductive ControlMessage : Type :=
  | Hello (protocol_version : Z) (node_id public_key nonce : list Z)
  | HelloAck (protocol_version : Z) (node_id public_key nonce peer_nonce signature : list Z)
  | Auth (signature : list Z)
  | Ready
  | ManifestMsg (manifest : Manifest.FileManifest)
  | Resume (have : list Z)
  | RequestChunk (index : Z)
  | Chunk (index : Z) (data : list Z)
  | ChunkAck (index : Z)
  | Complete (root_hash : list Z)
  | TunnelOpen (target : list Z)
  | TunnelReady
  | TunnelError (reason : list Z)
  | KeepAlive
  | AbortMsg (reason : list Z)
  | Bye
  | SpeedTestOpen (direction : SpeedTestWireDirection) (duration_ms block_size : Z)
  | SpeedTestReady
  | SpeedTestResult (bytes elapsed_ms : Z).

#[global] Instance ControlMessage_eq_dec : EqDecision ControlMessage.
Proof. solve_decision. Defined.

Definition kind (m : ControlMessage) : string :=
  match m with
  | Hello _ _ _ _ => "Hello"
  | HelloAck _ _ _ _ _ _ => "HelloAck"
  | Auth _ => "Auth"
  | Ready => "Ready"
  | ManifestMsg _ => "Manifest"
  | Resume _ => "Resume"
  | RequestChunk _ => "RequestChunk"
  | Chunk _ _ => "Chunk"
  | ChunkAck _ => "ChunkAck"
  | Complete _ => "Complete"
  | TunnelOpen _ => "TunnelOpen"
  | TunnelReady => "TunnelReady"
  | TunnelError _ => "TunnelError"
  | KeepAlive => "KeepAlive"
  | AbortMsg _ => "Abort"
  | Bye => "Bye"
  | SpeedTestOpen _ _ _ => "SpeedTestOpen"
  | SpeedTestReady => "SpeedTestReady"
  | SpeedTestResult _ _ => "SpeedTestResult"
  end.

Definition encode `{Postcard ControlMessage} (m : ControlMessage) : result (list Z) :=
  to_allocvec m.

(** [FileManifest::to_bytes] and [FileManifest::from_bytes]. *)
Definition manifest_to_bytes `{Postcard Manifest.FileManifest} (m : Manifest.FileManifest) :
    result (list Z) :=
  to_allocvec m.

Definition manifest_from_bytes `{Blake3} `{Postcard Manifest.FileManifest} (bytes : list Z) :
    result Manifest.FileManifest :=
  let? m := from_bytes bytes in
  let? _ := Manifest.validate m in
  Ok m.

Definition decode `{Blake3} `{Postcard ControlMessage} (bytes : list Z) : result ControlMessage :=
  let? message := from_bytes bytes in
  let? _ := match message with
            | ManifestMsg manifest => Manifest.validate manifest
            | _ => Ok tt
            end in
  Ok message.

(** [<=] on [[u8; 32]]: lexicographic. *)
Fixpoint bytes_le (a b : list Z) : bool :=
  match a, b with
  | [], _ => true
  | _, [] => false
  | x :: a', y :: b' => if x <? y then true else if y <? x then false else bytes_le a' b'
  end.

Definition handshake_payload (public_key_a nonce_a public_key_b nonce_b binding : list Z) :
    list Z :=
  let '((k1, n1), (k2, n2)) :=
    if bytes_le public_key_a public_key_b
    then ((public_key_a, nonce_a), (public_key_b, nonce_b))
    else ((public_key_b, nonce_b), (public_key_a, nonce_a)) in
  HANDSHAKE_DOMAIN ++ k1 ++ n1 ++ k2 ++ n2 ++ binding.

(** ** Facts *)

Lemma bytes_le_total a b : bytes_le a b = false -> bytes_le b a = true.
Proof.
  revert b. induction a as [|x a IH]; intros [|y b]; cbn; try done.
  destruct (Z.ltb_spec x y), (Z.ltb_spec y x); try done. apply IH.
Qed.

Lemma bytes_le_antisym a b : bytes_le a b = true -> bytes_le b a = true -> a = b.
Proof.
  revert b. induction a as [|x a IH]; intros [|y b]; cbn; try done.
  destruct (Z.ltb_spec x y), (Z.ltb_spec y x); try done; [lia|].
  intros H1 H2. f_equal; [lia | by apply IH].
Qed.

(** The pair of (key, nonce) entries in the order they are signed. *)
Definition ordered (ka na kb nb : list Z) : (list Z * list Z) * (list Z * list Z) :=
  if bytes_le ka kb then ((ka, na), (kb, nb)) else ((kb, nb), (ka, na)).

Lemma ordered_swap ka na kb nb : ka <> kb -> ordered ka na kb nb = ordered kb nb ka na.
Proof.
  intros Hne. unfold ordered. destruct (bytes_le ka kb) eqn:E1, (bytes_le kb ka) eqn:E2; try done.
  - exfalso. by apply Hne, bytes_le_antisym.
  - by rewrite (bytes_le_total ka kb E1) in E2.
Qed.

Lemma payload_ordered ka na kb nb c :
  handshake_payload ka na kb nb c =
  HANDSHAKE_DOMAIN ++ (ordered ka na kb nb).1.1 ++ (ordered ka na kb nb).1.2 ++
  (ordered ka na kb nb).2.1 ++ (ordered ka na kb nb).2.2 ++ c.
Proof. unfold handshake_payload, ordered. by destruct (bytes_le ka kb). Qed.

Lemma payload_swap ka na kb nb c : ka <> kb ->
  handshake_payload ka na kb nb c = handshake_payload kb nb ka na c.
Proof. intros Hne. by rewrite !payload_ordered, (ordered_swap ka na kb nb Hne). Qed.

Definition len32 (bs : list Z) : Prop := length bs = 32%nat.

Lemma payload_inj ka na kb nb c ka' na' kb' nb' c' :
  len32 ka -> len32 na -> len32 kb -> len32 nb ->
  len32 ka' -> len32 na' -> len32 kb' -> len32 nb' ->
  handshake_payload ka na kb nb c = handshake_payload ka' na' kb' nb' c' ->
  ordered ka na kb nb = ordered ka' na' kb' nb' /\ c = c'.
Proof.
  intros ? ? ? ? ? ? ? ?. rewrite !payload_ordered. intros E%app_inv_head.
  assert (forall k n k' n', len32 k -> len32 n -> len32 k' -> len32 n' ->
    let o := ordered k n k' n' in
    len32 o.1.1 /\ len32 o.1.2 /\ len32 o.2.1 /\ len32 o.2.2) as Hlen.
  { intros k n k' n' ? ? ? ?. unfold ordered. by destruct (bytes_le k k'). }
  destruct (Hlen ka na kb nb) as (L1 & L2 & L3 & L4); [done..|].
  destruct (Hlen ka' na' kb' nb') as (M1 & M2 & M3 & M4); [done..|].
  destruct (ordered ka na kb nb) as [[k1 n1] [k2 n2]].
  destruct (ordered ka' na' kb' nb') as [[k1' n1'] [k2' n2']]. cbn in *.
  apply app_inj_1 in E as [-> E]; [|congruence].
  apply app_inj_1 in E as [-> E]; [|congruence].
  apply app_inj_1 in E as [-> E]; [|congruence].
  by apply app_inj_1 in E as [-> ->]; [|congruence].
Qed.

(** ** A countable code for messages (to instantiate the serializer) *)

Definition manifest_fields (m : Manifest.FileManifest) :
    list Z * Z * Z * list (list Z) * list Z :=
  (Manifest.file_name m, Manifest.total_len m, Manifest.chunk_size m,
   Manifest.chunks m, Manifest.root_hash m).

Definition manifest_of_fields (f : list Z * Z * Z * list (list Z) * list Z) :
    Manifest.FileManifest :=
  let '(n, t, s, c, r) := f in Manifest.mk_manifest n t s c r.

#[global] Instance FileManifest_countable : Countable Manifest.FileManifest.
Proof. apply (inj_countable' manifest_fields manifest_of_fields). by intros []. Defined.

(** Tag, integers, byte strings, manifest. *)
Definition message_code (m : ControlMessage) :
    nat * list Z * list (list Z) * option Manifest.FileManifest :=
  match m with
  | Hello v n k c => (0%nat, [v], [n; k; c], None)
  | HelloAck v n k c p g => (1%nat, [v], [n; k; c; p; g], None)
  | Auth g => (2%nat, [], [g], None)
  | Ready => (3%nat, [], [], None)
  | ManifestMsg f => (4%nat, [], [], Some f)
  | Resume h => (5%nat, [], [h], None)
  | RequestChunk i => (6%nat, [i], [], None)
  | Chunk i d => (7%nat, [i], [d], None)
  | ChunkAck i => (8%nat, [i], [], None)
  | Complete r => (9%nat, [], [r], None)
  | TunnelOpen t => (10%nat, [], [t], None)
  | TunnelReady => (11%nat, [], [], None)
  | TunnelError r => (12%nat, [], [r], None)
  | KeepAlive => (13%nat, [], [], None)
  | AbortMsg r => (14%nat, [], [r], None)
  | Bye => (15%nat, [], [], None)
  | SpeedTestOpen Upload d b => (16%nat, [d; b], [], None)
  | SpeedTestOpen Download d b => (17%nat, [d; b], [], None)
  | SpeedTestReady => (18%nat, [], [], None)
  | SpeedTestResult b e => (19%nat, [b; e], [], None)
  end.

Definition message_of_code (c : nat * list Z * list (list Z) * option Manifest.FileManifest) :
    ControlMessage :=
  match c with
  | (0%nat, [v], [n; k; c], None) => Hello v n k c
  | (1%nat, [v], [n; k; c; p; g], None) => HelloAck v n k c p g
  | (2%nat, [], [g], None) => Auth g
  | (4%nat, [], [], Some f) => ManifestMsg f
  | (5%nat, [], [h], None) => Resume h
  | (6%nat, [i], [], None) => RequestChunk i
  | (7%nat, [i], [d], None) => Chunk i d
  | (8%nat, [i], [], None) => ChunkAck i
  | (9%nat, [], [r], None) => Complete r
  | (10%nat, [], [t], None) => TunnelOpen t
  | (11%nat, [], [], None) => TunnelReady
  | (12%nat, [], [r], None) => TunnelError r
  | (13%nat, [], [], None) => KeepAlive
  | (14%nat, [], [r], None) => AbortMsg r
  | (15%nat, [], [], None) => Bye
  | (16%nat, [d; b], [], None) => SpeedTestOpen Upload d b
  | (17%nat, [d; b], [], None) => SpeedTestOpen Download d b
  | (18%nat, [], [], None) => SpeedTestReady
  | (19%nat, [b; e], [], None) => SpeedTestResult b e
  | _ => Ready
  end.

#[global] Instance ControlMessage_countable : Countable ControlMessage.
Proof. apply (inj_countable' message_code message_of_code). by intros [| | | | | | | | | | | | | | | | []| |]. Defined.

Definition example_postcard : Postcard ControlMessage := Concrete.postcard ControlMessage.
Definition example_laws : PostcardLaws ControlMessage (H := example_postcard) :=
  Concrete.postcard_laws ControlMessage.

(** ** Properties *)

(** Both sides of a handshake sign the same bytes whichever of them is the
    initiator (the keys being different), and the signed bytes determine both
    (key, nonce) pairs and the channel binding, so a payload made for another
    key, nonce or TLS session is a different byte string. *)
Theorem handshake_payload_binds (ka na kb nb c ka' na' kb' nb' c' : list Z) :
  Forall len32 [ka; na; kb; nb; ka'; na'; kb'; nb'] ->
  (ka <> kb -> handshake_payload ka na kb nb c = handshake_payload kb nb ka na c) /\
  (handshake_payload ka na kb nb c = handshake_payload ka' na' kb' nb' c' ->
   c = c' /\ ((ka, na) = (ka', na') /\ (kb, nb) = (kb', nb') \/
              (ka, na) = (kb', nb') /\ (kb, nb) = (ka', na'))).
Proof.
  intros Hl. split; [apply payload_swap|]. intros E.
  decompose_Forall_hyps. apply payload_inj in E as [Eo ->]; [|done..]. split; [done|].
  unfold ordered in Eo. destruct (bytes_le ka kb), (bytes_le ka' kb');
    injection Eo as -> -> -> ->; auto.
Qed.

Lemma handshake_payload_binds_witness :
  let k1 := repeat 1 32 in let k2 := repeat 2 32 in let n := repeat 9 32 in
  Forall len32 [k1; n; k2; n; k1; n; k2; n] /\
  handshake_payload k1 n k2 n [5] = handshake_payload k2 n k1 n [5].
Proof.
  intros k1 k2 n. assert (Forall len32 [k1; n; k2; n; k1; n; k2; n]) as H.
  { repeat constructor. }
  split; [exact H|]. apply (handshake_payload_binds k1 n k2 n [5] k1 n k2 n [5] H). discriminate.
Defined.

(** Decoding an encoded message gives the message back, except that a
    manifest that does not validate is rejected; so every manifest message that
    [decode] lets through, from any bytes, has been validated. *)
Theorem decode_validates_manifest `{Blake3} `{PostcardLaws ControlMessage}
    (m : ControlMessage) (bs : list Z) :
  (encode m = Ok bs ->
   decode bs = match m with
               | ManifestMsg f => omap (fun _ => m) (Manifest.validate f)
               | _ => Ok m
               end) /\
  (forall f, decode bs = Ok (ManifestMsg f) -> Manifest.valid f).
Proof.
  split.
  - intros E. unfold decode. rewrite (from_to_allocvec m bs E). cbn. by destruct m.
  - intros f. unfold decode. intros E. inv_ok. by apply Manifest.validate_Ok.
Qed.

Lemma decode_validates_manifest_witness :
  exists bs, encode (H := example_postcard) (RequestChunk 7) = Ok bs /\
    decode (H := fun x => x) (H0 := example_postcard) bs = Ok (RequestChunk 7).
Proof.
  eexists. split; [reflexivity|].
  apply (decode_validates_manifest (H := fun x => x) (H1 := example_laws) (RequestChunk 7)).
  reflexivity.
Defined.

End Message.
