(* ===== verification/Frame.v ===== *)
(** * Length-prefixed frames (src/protocol/frame.rs)

    [[u32 little-endian length][payload]] over a byte stream.  Reads return the
    result together with what is left of the reader. *)
From Stdlib Require Import ZArith Lia.
From stdpp Require Import prelude gmap strings.
From S2P Require Import Prelude Io Manifest Postcard Message.

#[local] Open Scope Z_scope.

Module Frame.

Definition MAX_FRAME_LEN : Z := 16 * 1024 * 1024 + 4096.

Definition write_raw_frame_limited (w : writer) (payload : list Z) (max_len : Z) :
    result writer :=
  let len := Z.of_nat (length payload) in
  let? _ := fail_if (max_len <? len) (Protocol "frame too large") in
  let? w := write_all w (le_bytes 4 len) in
  let? w := write_all w payload in
  flush w.

Definition write_raw_frame (w : writer) (payload : list Z) : result writer :=
  write_raw_frame_limited w payload MAX_FRAME_LEN.

Definition read_raw_frame_limited (r : reader) (max_len : Z) :
    result (option (list Z)) * reader :=
  let (header, r) := read_full 4 r in
  match header with
  | Panic => (Panic, r)
  | Err k => (Err (Io k), r)
  | Ok [] => (Ok None, r)
  | Ok len_bytes =>
      if (length len_bytes <? 4)%nat then (Err (Protocol "truncated length header"), r)
      else
        let len := le_val len_bytes in
        if max_len <? len then (Err (Protocol "frame length over the limit"), r)
        else
          let (payload, r) := read_exact_async (Z.to_nat len) r in
          match payload with
          | Ok bytes => (Ok (Some bytes), r)
          | Err UnexpectedEof => (Err (Protocol "truncated frame"), r)
          | Err k => (Err (Io k), r)
          | Panic => (Panic, r)
          end
  end.

Definition read_raw_frame (r : reader) : result (option (list Z)) * reader :=
  read_raw_frame_limited r MAX_FRAME_LEN.

Section Messages.
Context `{Blake3} `{Postcard Message.ControlMessage}.

Definition write_frame (w : writer) (message : Message.ControlMessage) : result writer :=
  let? payload := Message.encode message in
  let? _ := fail_if (MAX_FRAME_LEN <? Z.of_nat (length payload)) (Protocol "message frame too large") in
  write_raw_frame w payload.

Definition read_frame (r : reader) : result (option Message.ControlMessage) * reader :=
  let (frame, r) := read_raw_frame r in
  (let? payload := frame in
   match payload with
   | Some bytes => omap Some (Message.decode bytes)
   | None => Ok None
   end, r).

End Messages.

(** ** Behaviour on readers that deliver data *)

(** The first frame of a byte string, by cases on how much of it is there. *)
Definition parse_frame (bytes : list Z) (max_len : Z) : result (option (list Z)) :=
  let n := Z.of_nat (length bytes) in
  let len := le_val (take 4 bytes) in
  if n =? 0 then Ok None
  else if n <? 4 then Err (Protocol "truncated length header")
  else if max_len <? len then Err (Protocol "frame length over the limit")
  else if n <? 4 + len then Err (Protocol "truncated frame")
  else Ok (Some (take (Z.to_nat len) (drop 4 bytes))).

(** The reader left behind: past the frame after a success, past the header
    after an over-limit length (the payload is not touched). *)
Lemma read_raw_data r max_len : data_only r -> are_bytes (bytes_of r) ->
  exists r', read_raw_frame_limited r max_len = (parse_frame (bytes_of r) max_len, r') /\
    (forall payload, parse_frame (bytes_of r) max_len = Ok (Some payload) ->
       data_only r' /\ bytes_of r' = drop (4 + length payload) (bytes_of r)) /\
    (parse_frame (bytes_of r) max_len = Err (Protocol "frame length over the limit") ->
       bytes_of r' = drop 4 (bytes_of r)).
Proof.
  intros Hr Hb. unfold read_raw_frame_limited, parse_frame.
  destruct (read_full_data 4 r Hr) as (r1 & -> & Hr1 & Hb1).
  pose proof (length_take (bytes_of r) 4) as Hlt.
  pose proof (le_val_bound (take 4 (bytes_of r)) ltac:(by apply Forall_take)) as Hle.
  destruct (take 4 (bytes_of r)) as [|b h] eqn:Et.
  { cbn in Hlt. destruct (bytes_of r) eqn:E; [|done]. cbn. eexists. split; [done|]. done. }
  assert (1 <= length (b :: h))%nat by (cbn; lia).
  destruct (Z.eqb_spec (Z.of_nat (length (bytes_of r))) 0); [lia|].
  destruct (Nat.ltb_spec (length (b :: h)) 4) as [Hs|Hs];
    destruct (Z.ltb_spec (Z.of_nat (length (bytes_of r))) 4); try lia.
  { eexists. split; [done|]. done. }
  destruct (Z.ltb_spec max_len (le_val (b :: h))).
  { eexists. split; [done|]. split; [done|]. done. }
  pose proof (read_exact_data (Z.to_nat (le_val (b :: h))) r1 Hr1) as Hex.
  rewrite Hb1, length_drop in Hex.
  destruct (Z.ltb_spec (Z.of_nat (length (bytes_of r))) (4 + le_val (b :: h)));
    destruct (Nat.leb_spec (Z.to_nat (le_val (b :: h))) (length (bytes_of r) - 4)); try lia.
  { destruct (read_exact_async _ r1) as [o r2]. cbn in Hex. subst o. eexists. split; [done|]. done. }
  destruct Hex as (r2 & -> & Hr2 & Hb2). eexists. split; [done|]. split; [|done].
  intros payload [= <-]. split; [done|]. rewrite Hb2, drop_drop.
  change (b + 256 * le_val h) with (le_val (b :: h)).
  rewrite length_take, length_drop, Nat.min_l by lia. done.
Qed.

(** The bytes one successful write puts on the wire. *)
Definition frame_bytes (payload : list Z) : list Z :=
  le_bytes 4 (Z.of_nat (length payload)) ++ payload.

Lemma write_raw_Ok w payload max_len w' :
  write_raw_frame_limited w payload max_len = Ok w' <->
  broken w = None /\ Z.of_nat (length payload) <= max_len /\
  w' = mk_writer (out w ++ frame_bytes payload) None.
Proof.
  unfold write_raw_frame_limited, write_all, flush, frame_bytes, fail_if.
  destruct (Z.ltb_spec max_len (Z.of_nat (length payload))); cbn.
  { split; [done | lia]. }
  destruct (broken w) as [k|]; cbn; [naive_solver|]. rewrite <- app_assoc. naive_solver.
Qed.

Lemma parse_frame_bytes payload rest max_len :
  Z.of_nat (length payload) <= max_len -> max_len <= U32_MAX ->
  parse_frame (frame_bytes payload ++ rest) max_len = Ok (Some payload).
Proof.
  intros Hl Hm. unfold parse_frame, frame_bytes. rewrite <- app_assoc.
  rewrite (take_app_le _ _ 4), (drop_app_le _ _ 4), take_ge, drop_ge by (by rewrite length_le_bytes).
  rewrite le_val_le_bytes by (unfold U32_MAX in Hm; lia).
  rewrite !length_app, length_le_bytes. cbn [app].
  destruct (Z.eqb_spec (Z.of_nat (4 + (length payload + length rest))) 0); [lia|].
  destruct (Z.ltb_spec (Z.of_nat (4 + (length payload + length rest))) 4); [lia|].
  destruct (Z.ltb_spec max_len (Z.of_nat (length payload))); [lia|].
  destruct (Z.ltb_spec (Z.of_nat (4 + (length payload + length rest))) (4 + Z.of_nat (length payload))); [lia|].
  by rewrite Nat2Z.id, take_app_length.
Qed.

(** Writing and reading sequences of frames. *)
Definition write_frames (w : writer) (payloads : list (list Z)) (max_len : Z) : result writer :=
  fold_outcome (fun w p => write_raw_frame_limited w p max_len) w payloads.

Fixpoint read_frames (n : nat) (r : reader) (max_len : Z) : result (list (list Z)) * reader :=
  match n with
  | O => (Ok [], r)
  | S n' =>
      match read_raw_frame_limited r max_len with
      | (Ok (Some p), r) => let (rest, r) := read_frames n' r max_len in (omap (cons p) rest, r)
      | (Ok None, r) => (Ok [], r)
      | (Err e, r) => (Err e, r)
      | (Panic, r) => (Panic, r)
      end
  end.

Lemma write_frames_Ok w payloads max_len w' :
  write_frames w payloads max_len = Ok w' ->
  out w' = out w ++ concat (map frame_bytes payloads) /\
  Forall (fun p => Z.of_nat (length p) <= max_len) payloads.
Proof.
  revert w. induction payloads as [|p ps IH]; intros w E; cbn in E.
  - injection E as <-. cbn. by rewrite app_nil_r.
  - apply obind_Ok in E as (w1 & (Hb & Hl & ->)%write_raw_Ok & E).
    apply IH in E as [-> Hf]. cbn. rewrite <- app_assoc. auto.
Qed.

(** C38: Reading classifies the stream completely: for bytes arriving in any
    fragmentation, the result is [None] on a clean close before any header byte,
    a protocol error on a partial header, on a length over the limit (rejected
    with only the four header bytes consumed) and on a partial payload, and
    otherwise exactly the announced payload. *)
Theorem read_frame_classifies (r : reader) (max_len : Z) :
  data_only r -> are_bytes (bytes_of r) ->
  let bytes := bytes_of r in
  let len := le_val (take 4 bytes) in
  let n := Z.of_nat (length bytes) in
  exists r', read_raw_frame_limited r max_len =
    (if n =? 0 then Ok None
     else if n <? 4 then Err (Protocol "truncated length header")
     else if max_len <? len then Err (Protocol "frame length over the limit")
     else if n <? 4 + len then Err (Protocol "truncated frame")
     else Ok (Some (take (Z.to_nat len) (drop 4 bytes))), r') /\
    (4 <= n -> max_len < len -> bytes_of r' = drop 4 bytes) /\
    (4 <= n -> len <= max_len -> 4 + len <= n -> bytes_of r' = drop (4 + Z.to_nat len) bytes).
Proof.
  intros Hr Hb bytes len n. destruct (read_raw_data r max_len Hr Hb) as (r' & -> & Hok & Herr).
  pose proof (le_val_bound (take 4 bytes) ltac:(by apply Forall_take)) as Hle.
  exists r'. split; [done|]. split.
  - intros Hn Hlim. apply Herr. unfold parse_frame. fold bytes len n.
    destruct (Z.eqb_spec n 0), (Z.ltb_spec n 4), (Z.ltb_spec max_len len); done || lia.
  - intros Hn Hlim Hfull. fold len in Hle.
    destruct (Hok (take (Z.to_nat len) (drop 4 bytes))) as [_ ->].
    + unfold parse_frame. fold bytes len n.
      destruct (Z.eqb_spec n 0), (Z.ltb_spec n 4), (Z.ltb_spec max_len len), (Z.ltb_spec n (4 + len));
        done || lia.
    + f_equal. rewrite length_take, length_drop. subst n. lia.
Qed.

Lemma read_frame_classifies_witness :
  data_only [Data [100; 0]; Data [0]] /\
  fst (read_raw_frame_limited [Data [100; 0]; Data [0]] 64) =
    Err (Protocol "truncated length header").
Proof.
  assert (data_only [Data [100; 0]; Data [0]]) as H by (repeat constructor).
  assert (are_bytes (bytes_of [Data [100; 0]; Data [0]])) as Hb.
  { repeat constructor; unfold in_range, U8_MAX; lia. }
  split; [exact H|].
  destruct (read_frame_classifies [Data [100; 0]; Data [0]] 64 H Hb) as (r' & E & _).
  rewrite E. reflexivity.
Defined.

(** A sequence of payloads written as frames is read back exactly, in
    order, from any fragmentation of the written bytes, and the next read then
    reports the clean close. *)
Theorem frames_roundtrip (payloads : list (list Z)) (max_len : Z) (w : writer) (r : reader) :
  0 <= max_len <= U32_MAX -> Forall are_bytes payloads ->
  write_frames (mk_writer [] None) payloads max_len = Ok w ->
  data_only r -> bytes_of r = out w ->
  exists r', read_frames (length payloads) r max_len = (Ok payloads, r') /\
    fst (read_raw_frame_limited r' max_len) = Ok None.
Proof.
  intros Hm Hp Hw Hr Eb. apply write_frames_Ok in Hw as [Ew Hl]. cbn in Ew. rewrite Ew in Eb.
  clear w Ew. revert r Hr Eb. induction payloads as [|p ps IH]; intros r Hr Eb.
  - exists r. split; [done|]. cbn in Eb. apply bytes_of_data_nil in Eb; [|done]. by subst.
  - apply Forall_cons in Hp as [Hp Hps], Hl as [Hl Hls]. cbn [map concat] in Eb.
    destruct (read_raw_data r max_len Hr) as (r1 & E & Hok & _).
    { rewrite Eb. apply Forall_app. split.
      - unfold frame_bytes. apply Forall_app. split; [apply le_bytes_are_bytes | done].
      - clear -Hps. induction Hps as [|q qs Hq Hqs IHq]; [by constructor|].
        cbn [map concat]. unfold frame_bytes at 1. rewrite !Forall_app. split; [|done]. split; [apply le_bytes_are_bytes | done]. }
    rewrite Eb, parse_frame_bytes in E, Hok by lia.
    destruct (Hok p eq_refl) as [Hr1 Hb1].
    destruct (IH Hps Hls r1 Hr1) as (r2 & E2 & Hend).
    { rewrite Hb1. unfold frame_bytes. rewrite <- app_assoc, app_assoc, drop_app_length'; [done|].
      by rewrite length_app, length_le_bytes. }
    exists r2. cbn [length read_frames]. rewrite E, E2. done.
Qed.

Lemma frames_roundtrip_witness :
  exists w r', write_frames (mk_writer [] None) [[1; 2]; []] 64 = Ok w /\
    read_frames 2 [Data [2; 0; 0]; Data [0; 1; 2; 0]; Data [0; 0; 0]] 64 = (Ok [[1; 2]; []], r').
Proof.
  eexists. 
  destruct (frames_roundtrip [[1; 2]; []] 64 (mk_writer [2; 0; 0; 0; 1; 2; 0; 0; 0; 0] None)
    [Data [2; 0; 0]; Data [0; 1; 2; 0]; Data [0; 0; 0]]) as (r' & E & _).
  - unfold U32_MAX. lia.
  - repeat constructor; unfold in_range, U8_MAX; lia.
  - reflexivity.
  - repeat constructor.
  - reflexivity.
  - exists r'. split; [reflexivity | exact E].
Defined.

End Frame.
