(* ===== verification/Chunker.v ===== *)
(** * Building a manifest from a reader (src/transfer/chunker.rs) *)
From Stdlib Require Import ZArith Lia.
From stdpp Require Import prelude gmap strings.
From S2P Require Import Prelude Io Manifest.

#[local] Open Scope Z_scope.

Module Chunker.
Import Manifest.

Section WithHash.
Context `{Blake3}.

(** The [loop] of [manifest_from_reader]: chunk hashes so far in reverse, bytes
    so far. Out of fuel is [Panic]; [manifest_from_reader] gives enough. *)
Fixpoint read_chunks (fuel : nat) (chunk_size : Z) (hashes : list (list Z)) (total_len : Z)
    (r : reader) : outcome io_kind (list (list Z) * Z) * reader :=
  match fuel with
  | O => (Panic, r)
  | S fuel' =>
      let (filled, r) := read_full (Z.to_nat chunk_size) r in
      match filled with
      | Panic => (Panic, r)
      | Err k => (Err k, r)
      | Ok [] => (Ok (rev hashes, total_len), r)
      | Ok data =>
          let hashes := hash_of data :: hashes in
          let total_len := total_len + Z.of_nat (length data) in
          if Z.of_nat (length data) <? chunk_size then (Ok (rev hashes, total_len), r)
          else read_chunks fuel' chunk_size hashes total_len r
      end
  end.

Definition manifest_from_reader (file_name : list Z) (chunk_size : Z) (r : reader) :
    result FileManifest * reader :=
  match validate_chunk_size chunk_size with
  | Err e => (Err e, r)
  | Panic => (Panic, r)
  | Ok _ =>
      let (loop, r) := read_chunks (S (length (bytes_of r))) chunk_size [] 0 r in
      (let? (hashes, total_len) := map_err Io loop in
       new file_name total_len chunk_size hashes, r)
  end.

(** [manifest_from_path]: [path.file_name()] may be absent, [File::open] may
    fail; the [BufReader] only changes the fragmentation. *)
Definition manifest_from_path (name : option (list Z)) (open : outcome io_kind reader)
    (chunk_size : Z) : result FileManifest :=
  let file_name := default (lit "download.bin") name in
  let? r := map_err Io open in
  fst (manifest_from_reader file_name chunk_size r).

Definition manifest_from_path_default (name : option (list Z)) (open : outcome io_kind reader) :
    result FileManifest :=
  manifest_from_path name open DEFAULT_CHUNK_SIZE.

(** [read_chunk]: the file is its bytes, seeking past the end is allowed. *)
Definition read_chunk (file : list Z) (offset len : Z) : result (list Z) :=
  let? _ := fail_if (MAX_CHUNK_SIZE <? len) (Protocol "requested chunk too long") in
  let data := slice file (offset, len) in
  if Z.of_nat (length data) <? len then Err (Io UnexpectedEof) else Ok data.

(** ** The reference chunking *)

Fixpoint blocks (fuel : nat) (size : nat) (data : list Z) : list (list Z) :=
  match fuel with
  | O => []
  | S fuel' =>
      match data with
      | [] => []
      | _ => take size data :: blocks fuel' size (drop size data)
      end
  end.

(** [data] cut into [size]-byte blocks, the last one possibly shorter. *)
Definition blocks_of (size : Z) (data : list Z) : list (list Z) :=
  blocks (length data) (Z.to_nat size) data.

Lemma read_full_bytes n r bs r' :
  read_full n r = (Ok bs, r') -> bytes_of r = bs ++ bytes_of r' /\ (length bs <= n)%nat.
Proof.
  revert n bs r'. induction r as [|e r IH]; intros n bs r' E.
  { destruct n; cbn in E; injection E as <- <-; done || (split; [done | cbn; lia]). }
  destruct n as [|n]; [cbn in E; injection E as <- <-; split; [done | cbn; lia]|].
  destruct e as [[|b bs0]|k].
  - injection E as <- <-. split; [done | cbn; lia].
  - change (read_full (S n) (Data (b :: bs0) :: r)) with
      (if (length (b :: bs0) <=? S n)%nat then
         let (rest, r'') := read_full (S n - length (b :: bs0)) r in
         (omap (app (b :: bs0)) rest, r'')
       else (Ok (take (S n) (b :: bs0)), Data (drop (S n) (b :: bs0)) :: r)) in E.
    cbn [bytes_of]. generalize dependent (b :: bs0). clear b bs0. intros bs0 E.
    destruct (Nat.leb_spec (length bs0) (S n)).
    + destruct (read_full (S n - length bs0) r) as [[rest| |] r''] eqn:Er; cbn in E; try done.
      injection E as <- <-. apply IH in Er as [-> ?]. rewrite length_app, app_assoc.
      split; [done | lia].
    + injection E as <- <-. cbn [bytes_of]. rewrite app_assoc, take_drop.
      split; [done|]. rewrite length_take. lia.
  - destruct k; try done. by apply (IH (S n)).
Qed.

Lemma read_full_total n r : fst (read_full n r) <> Panic.
Proof.
  revert n. induction r as [|e r IH]; intros n; [by destruct n|].
  destruct n as [|n]; [done|]. destruct e as [[|b bs]|k]; [done| |by destruct k; try done; apply IH].
  change (read_full (S n) (Data (b :: bs) :: r)) with
    (if (length (b :: bs) <=? S n)%nat then
       let (rest, r'') := read_full (S n - length (b :: bs)) r in
       (omap (app (b :: bs)) rest, r'')
     else (Ok (take (S n) (b :: bs)), Data (drop (S n) (b :: bs)) :: r)).
  destruct (length (b :: bs) <=? S n)%nat; [|done].
  specialize (IH (S n - length (b :: bs))%nat).
  by destruct (read_full (S n - length (b :: bs)) r) as [[| |] r''].
Qed.

(** The loop never runs out of the fuel it is given, on any reader. *)
Lemma read_chunks_fuel fuel size hs total r :
  0 < size -> (length (bytes_of r) < fuel)%nat -> fst (read_chunks fuel size hs total r) <> Panic.
Proof.
  revert hs total r. induction fuel as [|fuel IH]; intros hs total r Hs Hf; [lia|].
  cbn [read_chunks].
  pose proof (read_full_total (Z.to_nat size) r) as Hnp.
  destruct (read_full (Z.to_nat size) r) as [[data|k|] r'] eqn:E; try done.
  destruct data as [|b bs]; [done|]. apply read_full_bytes in E as [Eb _].
  destruct (_ <? size); [done|]. apply IH; [done|].
  rewrite Eb, length_app in Hf. cbn in Hf. lia.
Qed.

Lemma blocks_fuel f f' size data : (0 < size)%nat -> (length data <= f)%nat ->
  (length data <= f')%nat -> blocks f size data = blocks f' size data.
Proof.
  intros Hs. revert f' data. induction f as [|f IH]; intros f' data Hf Hf'.
  { destruct data; [|cbn in Hf; lia]. by destruct f'. }
  destruct f' as [|f']; [by destruct data; [|cbn in Hf'; lia]|].
  destruct data as [|b data]; [done|]. cbn [blocks]. f_equal.
  apply IH; rewrite length_drop; cbn [length] in *; lia.
Qed.

Lemma blocks_of_cons size data : 0 < size -> data <> [] ->
  blocks_of size data = take (Z.to_nat size) data :: blocks_of size (drop (Z.to_nat size) data).
Proof.
  intros Hs Hd. unfold blocks_of. destruct data as [|b data]; [done|].
  cbn [length blocks]. f_equal. apply blocks_fuel; rewrite ?length_drop; cbn [length]; lia.
Qed.

(** On data the loop hashes exactly the blocks. *)
Lemma read_chunks_blocks fuel size hs total r :
  0 < size -> data_only r -> (length (bytes_of r) < fuel)%nat ->
  fst (read_chunks fuel size hs total r) =
  Ok (rev hs ++ map hash_of (blocks_of size (bytes_of r)),
      total + Z.of_nat (length (bytes_of r))).
Proof.
  revert hs total r. induction fuel as [|fuel IH]; intros hs total r Hs Hr Hf; [lia|].
  cbn [read_chunks]. destruct (read_full_data (Z.to_nat size) r Hr) as (r' & -> & Hr' & Eb).
  destruct (decide (bytes_of r = [])) as [E0|Hne].
  { rewrite E0, take_nil. cbn. by rewrite app_nil_r, Z.add_0_r. }
  rewrite (blocks_of_cons size (bytes_of r)) by done.
  assert (0 < length (bytes_of r))%nat as Hl by (destruct (bytes_of r); cbn; [done|lia]).
  destruct (take (Z.to_nat size) (bytes_of r)) as [|t ts] eqn:Et.
  { apply (f_equal length) in Et. rewrite length_take in Et. cbn in Et. lia. }
  rewrite <- Et. destruct (Z.ltb_spec (Z.of_nat (length (take (Z.to_nat size) (bytes_of r)))) size)
    as [Hlt|Hge]; rewrite length_take in *.
  - rewrite take_ge, drop_ge by lia. cbn [fst map rev]. do 3 f_equal; lia.
  - rewrite IH by (rewrite ?Eb, ?length_drop; done || lia). rewrite Eb, length_drop.
    cbn [rev map]. rewrite <- app_assoc. cbn [app]. do 2 f_equal. lia.
Qed.

(** Block [i] is the slice at [i * size]. *)
Lemma blocks_of_lookup size data i : 0 < size ->
  blocks_of size data !! i =
  if Z.of_nat i * size <? Z.of_nat (length data)
  then Some (take (Z.to_nat size) (drop (Z.to_nat (Z.of_nat i * size)) data)) else None.
Proof.
  intros Hs. revert data. induction i as [|i IH]; intros data.
  - destruct data as [|b data]; [done|]. rewrite blocks_of_cons by done. cbn [lookup list_lookup].
    by rewrite drop_0.
  - destruct (decide (data = [])) as [->|Hne].
    { destruct (Z.ltb_spec (Z.of_nat (S i) * size) (Z.of_nat (length (@nil Z)))); [cbn in *; lia|done]. }
    rewrite blocks_of_cons by done. cbn [lookup list_lookup]. rewrite IH, length_drop, drop_drop.
    destruct (Z.ltb_spec (Z.of_nat i * size) (Z.of_nat (length data - Z.to_nat size))),
      (Z.ltb_spec (Z.of_nat (S i) * size) (Z.of_nat (length data))); try nia; [|done].
    do 3 f_equal. nia.
Qed.

Lemma blocks_of_length size data : 0 < size ->
  Z.of_nat (length (blocks_of size data)) = count_of (Z.of_nat (length data)) size.
Proof.
  intros Hs. set (n := count_of (Z.of_nat (length data)) size).
  pose proof (count_of_spec (Z.of_nat (length data)) size ltac:(lia) Hs) as Hn.
  pose proof (count_of_nonneg (Z.of_nat (length data)) size ltac:(lia) ltac:(lia)) as Hp. fold n in Hn, Hp.
  assert (forall i, is_Some (blocks_of size data !! i) <-> Z.of_nat i < n) as Hi.
  { intros i. rewrite blocks_of_lookup by done.
    destruct (Z.ltb_spec (Z.of_nat i * size) (Z.of_nat (length data))); (split; intros Hx; [|first [by eexists | exfalso]]).
    - destruct Hn as [Hn|Hn]; nia.
    - by destruct Hx.
    - destruct Hn as [Hn|Hn]; nia. }
  pose proof (Hi (length (blocks_of size data))) as H1. rewrite lookup_lt_is_Some in H1.
  pose proof (Hi (Z.to_nat n)) as H2. rewrite lookup_lt_is_Some in H2. lia.
Qed.

(** [slice] through a chunk range is the block. *)
Lemma block_is_slice size data i : 0 < size -> Z.of_nat i * size < Z.of_nat (length data) ->
  take (Z.to_nat size) (drop (Z.to_nat (Z.of_nat i * size)) data) =
  slice data (Z.of_nat i * size, Z.min (Z.of_nat (length data) - Z.of_nat i * size) size).
Proof.
  intros Hs Hi. unfold slice. cbn [fst snd].
  destruct (Z.min_spec (Z.of_nat (length data) - Z.of_nat i * size) size) as [[? ->]|[? ->]]; [|done].
  rewrite !take_ge; [done|rewrite length_drop; lia..].
Qed.

Lemma slice_length data o n : 0 <= o -> 0 <= n -> o + n <= Z.of_nat (length data) ->
  Z.of_nat (length (slice data (o, n))) = n.
Proof. intros. unfold slice. cbn. rewrite length_take, length_drop. lia. Qed.

Lemma manifest_from_reader_blocks name size r :
  MIN_CHUNK_SIZE <= size <= MAX_CHUNK_SIZE -> data_only r ->
  fst (manifest_from_reader name size r) =
  new name (Z.of_nat (length (bytes_of r))) size (map hash_of (blocks_of size (bytes_of r))).
Proof.
  intros Hs Hr. unfold manifest_from_reader.
  rewrite (proj2 (validate_chunk_size_Ok size tt)) by done.
  pose proof (read_chunks_blocks (S (length (bytes_of r))) size [] 0 r) as E.
  destruct (read_chunks _ _ _ _ _) as [loop r']. cbn [fst] in *. rewrite E; [done| |done|lia].
  unfold MIN_CHUNK_SIZE in Hs. lia.
Qed.
End WithHash.

(** What a reader that only delivers data gives. *)
Lemma manifest_from_reader_data `{Blake3} (name : list Z) (size : Z) (r : reader) :
  MIN_CHUNK_SIZE <= size <= MAX_CHUNK_SIZE -> data_only r ->
  is_u64 (Z.of_nat (length (bytes_of r))) ->
  count_of (Z.of_nat (length (bytes_of r))) size <= U32_MAX ->
  exists m, fst (manifest_from_reader name size r) = Ok m /\ validate m = Ok tt /\
    file_name m = name /\ chunk_size m = size /\
    total_len m = Z.of_nat (length (bytes_of r)) /\
    (forall i, 0 <= i < chunk_count m -> exists range,
       chunk_range m i = Some range /\
       verify_chunk m i (slice (bytes_of r) range) = Ok true).
Proof.
  intros Hs Hr Hl Hc. rewrite manifest_from_reader_blocks by done.
  set (data := bytes_of r) in *. assert (0 < size) as Hp by (unfold MIN_CHUNK_SIZE in Hs; lia).
  pose proof (blocks_of_length size data Hp) as Hn.
  set (m := mk_manifest name (Z.of_nat (length data)) size (map hash_of (blocks_of size data))
    (root_hash_of name (Z.of_nat (length data)) size (map hash_of (blocks_of size data)))).
  assert (valid m) as Hv by (split; cbn; rewrite ?length_map; done || lia).
  exists m. split; [|split; [by apply validate_Ok|do 3 (split; [done|])]].
  { unfold new. rewrite (proj2 (validate_chunk_size_Ok size tt)) by done. cbn [obind].
    fold m. by rewrite (proj2 (validate_Ok m)). }
  intros i Hi. rewrite valid_chunk_count in Hi by done.
  pose proof (chunk_range_spec m i Hv Hl ltac:(lia)) as Hrange. cbn [chunks total_len chunk_size m] in *.
  rewrite length_map in Hi, Hrange.
  destruct (Z.ltb_spec i (Z.of_nat (length (blocks_of size data)))); [|lia].
  eexists. split; [exact Hrange|].
  assert (i * size < Z.of_nat (length data)) as Hlt
    by (destruct (count_of_spec (Z.of_nat (length data)) size); lia || nia).
  destruct (verify_chunk_spec m i (slice data (i * size, Z.min (Z.of_nat (length data) - i * size) size))
    Hv Hl ltac:(lia)) as (b & -> & Hb). f_equal. apply Hb. eexists. split; [exact Hrange|]. split.
  - cbn [snd]. rewrite slice_length; nia.
  - cbn [chunks m]. rewrite list_lookup_fmap, blocks_of_lookup, Z2Nat.id by (done || lia).
    destruct (Z.ltb_spec (i * size) (Z.of_nat (length data))); [|lia]. cbn. do 2 f_equal.
    rewrite <- (Z2Nat.id i) by lia. apply block_is_slice; lia.
Qed.

(** C40: A manifest built from a reader is the manifest of the bytes read,
    however the reader fragments them: for a valid chunk size and a file of at
    most [u32::MAX] chunks the result validates, [total_len] is the number of
    bytes, and every chunk range of it verifies on exactly those bytes. *)
Theorem manifest_from_reader_correct `{Blake3} (name : list Z) (size : Z) (r : reader) :
  MIN_CHUNK_SIZE <= size <= MAX_CHUNK_SIZE -> data_only r ->
  is_u64 (Z.of_nat (length (bytes_of r))) ->
  count_of (Z.of_nat (length (bytes_of r))) size <= U32_MAX ->
  exists m, fst (manifest_from_reader name size r) = Ok m /\ validate m = Ok tt /\
    file_name m = name /\ chunk_size m = size /\
    total_len m = Z.of_nat (length (bytes_of r)) /\
    (forall i, 0 <= i < chunk_count m -> exists range,
       chunk_range m i = Some range /\
       verify_chunk m i (slice (bytes_of r) range) = Ok true).
Proof. apply manifest_from_reader_data. Qed.

Lemma manifest_from_reader_correct_witness :
  let hash : Blake3 := fun _ => [] in
  exists m, fst (manifest_from_reader (lit "a") 16384 [Data [1; 2]; Data [3]]) = Ok m /\
    total_len m = 3.
Proof.
  intros hash.
  destruct (manifest_from_reader_correct (lit "a") 16384 [Data [1; 2]; Data [3]])
    as (m & E & _ & _ & _ & Ht & _); [done| |done|done|].
  - repeat constructor.
  - by exists m.
Defined.

(** Building a manifest returns: a validated manifest, or an error. *)
Lemma manifest_from_reader_total_aux `{Blake3} (name : list Z) (size : Z) (r : reader) :
  match manifest_from_reader name size r with
  | (Ok m, _) => validate m = Ok tt /\ chunk_size m = size /\ file_name m = name
  | (Err e, r') => MIN_CHUNK_SIZE <= size <= MAX_CHUNK_SIZE \/
                   (r' = r /\ e = Protocol "chunk size out of range")
  | (Panic, _) => False
  end.
Proof.
  unfold manifest_from_reader.
  destruct (validate_chunk_size size) as [[]|e|] eqn:Es.
  2: { right. unfold validate_chunk_size, fail_if in Es. case_match; naive_solver. }
  2: { unfold validate_chunk_size, fail_if in Es. by case_match. }
  apply validate_chunk_size_Ok in Es as Hs.
  pose proof (read_chunks_fuel (S (length (bytes_of r))) size [] 0 r) as Hf.
  destruct (read_chunks _ _ _ _ _) as [loop r']. cbn in Hf.
  destruct loop as [[hashes total]|k|]; [|by left|].
  2: { exfalso. apply Hf; unfold MIN_CHUNK_SIZE in Hs; done || lia. }
  cbn. unfold new. rewrite Es. cbn. set (m := mk_manifest _ _ _ _ _).
  destruct (validate_total m) as [E|[tag E]]; rewrite E; cbn; [done | by left].
Qed.

(** On any reader (short reads, interruptions, errors part-way) building a
    manifest returns, with a validated manifest or an error; a chunk size out of
    range is refused before anything is read, and a chunk longer than the limit
    before anything is read from the file. *)
Theorem manifest_from_reader_total `{Blake3} (name : list Z) (size : Z) (r : reader) :
  match manifest_from_reader name size r with
  | (Ok m, _) => validate m = Ok tt /\ chunk_size m = size /\ file_name m = name
  | (Err e, r') => MIN_CHUNK_SIZE <= size <= MAX_CHUNK_SIZE \/
                   (r' = r /\ e = Protocol "chunk size out of range")
  | (Panic, _) => False
  end /\
  (forall file offset len, MAX_CHUNK_SIZE < len ->
     read_chunk file offset len = Err (Protocol "requested chunk too long")).
Proof.
  split; [apply manifest_from_reader_total_aux|].
  intros file offset len Hl. unfold read_chunk. by rewrite (proj2 (Z.ltb_lt _ _) Hl).
Qed.

End Chunker.
