(* ===== verification/RelativePath.v ===== *)
(** * Portable relative paths (src/storage/relative_path.rs)

    [validate_relative_path] is the only gate a path chosen by the sender passes
    before it is joined to the receive directory. *)
From Stdlib Require Import ZArith Lia.
From stdpp Require Import prelude gmap strings.
From S2P Require Import Prelude.

#[local] Open Scope Z_scope.
#[local] Arguments lit : simpl never.

Module RelativePath.

Definition is_slash (c : Z) : bool := c =? 47.
Definition is_dot (c : Z) : bool := c =? 46.

(** [component.ends_with(['.', ' '])]. *)
Definition ends_badly (component : list Z) : bool :=
  match last component with
  | Some c => (c =? 46) || (c =? 32)
  | None => false
  end.

(** The characters of the literal in the source: backslash, colon, angle
    brackets, double quote, bar, question mark, asterisk. *)
Definition forbidden_chars : list Z := [92; 58; 60; 62; 34; 124; 63; 42].

Definition bad_char (c : Z) : bool := is_control c || bool_decide (c ∈ forbidden_chars).

(** The first group of conditions of the loop. *)
Definition illegal_component (component : list Z) : bool :=
  eq_ignore_ascii_case component (lit ".p2p-desktop")
  || bool_decide (component = [])
  || bool_decide (component = lit ".")
  || bool_decide (component = lit "..")
  || (255 <? str_len component)
  || ends_badly component
  || existsb bad_char component.

(** [split('.').next()] in upper case. *)
Definition device_stem (component : list Z) : list Z :=
  map to_ascii_upper (hd [] (split is_dot component)).

(** The suffixes 1 to 9 and the superscript digits one, two and three. *)
Definition device_suffixes : list (list Z) :=
  [[49]; [50]; [51]; [52]; [53]; [54]; [55]; [56]; [57]; [185]; [178]; [179]].

Definition strip_prefix (s prefix : list Z) : option (list Z) :=
  if starts_with s prefix then Some (drop (length prefix) s) else None.

Definition is_device (stem : list Z) : bool :=
  bool_decide (stem ∈ [lit "CON"; lit "PRN"; lit "AUX"; lit "NUL"])
  || existsb (fun prefix =>
       match strip_prefix stem prefix with
       | Some suffix => bool_decide (suffix ∈ device_suffixes)
       | None => false
       end) [lit "COM"; lit "LPT"].

Definition check_component (component : list Z) : result unit :=
  let? _ := fail_if (illegal_component component) (Protocol "illegal path component") in
  fail_if (is_device (device_stem component)) (Protocol "reserved device name").

Definition validate_relative_path (path : list Z) : result unit :=
  let? _ := fail_if (bool_decide (path = []) || (4096 <? str_len path)
              || (64 <? Z.of_nat (length (split is_slash path))))
              (Protocol "illegal path length or depth") in
  fold_outcome (fun _ component => check_component component) tt (split is_slash path).

(** ** What the gate guarantees *)

(** Resolving a path component by component below a directory, as the list of
    names from the root down; [None] when it leaves it. *)
Fixpoint resolve (below : list (list Z)) (components : list (list Z)) : option (list (list Z)) :=
  match components with
  | [] => Some below
  | c :: rest =>
      if bool_decide (c = [] \/ c = lit ".") then resolve below rest
      else if bool_decide (c = lit "..") then
        match below with
        | [] => None
        | _ => resolve (removelast below) rest
        end
      else resolve (below ++ [c]) rest
  end.

Lemma split_nonempty p s : split p s <> [].
Proof. destruct s as [|c s]; cbn; [done|]. destruct (p c); [done|]. by destruct (split p s). Qed.

Lemma fold_check_Ok (l : list (list Z)) u :
  fold_outcome (fun _ c => check_component c) u l = Ok tt <->
  Forall (fun c => check_component c = Ok tt) l.
Proof.
  revert u. induction l as [|c l IH]; intros u; cbn [fold_outcome].
  { split; [constructor|]. by destruct u. }
  rewrite Forall_cons. split.
  - intros ([] & E & H)%obind_Ok. by apply IH in H.
  - intros [-> H]. cbn. by apply IH.
Qed.

Lemma check_component_Ok c : check_component c = Ok tt <->
  illegal_component c = false /\ is_device (device_stem c) = false.
Proof.
  unfold check_component. split.
  - intros E. inv_ok. done.
  - intros [-> ->]. done.
Qed.

Lemma illegal_component_false c : illegal_component c = false <->
  eq_ignore_ascii_case c (lit ".p2p-desktop") = false /\ c <> [] /\ c <> lit "." /\ c <> lit ".." /\
  str_len c <= 255 /\ ends_badly c = false /\ existsb bad_char c = false.
Proof.
  unfold illegal_component. rewrite !orb_false_iff, !bool_decide_eq_false, Z.ltb_ge. naive_solver.
Qed.

Lemma existsb_false {A} (f : A -> bool) l : existsb f l = false <-> Forall (fun x => f x = false) l.
Proof.
  induction l as [|x l IH]; cbn; [split; [constructor|done]|].
  by rewrite Forall_cons, orb_false_iff, IH.
Qed.

Lemma resolve_plain below l :
  Forall (fun c => c <> [] /\ c <> lit "." /\ c <> lit "..") l -> resolve below l = Some (below ++ l).
Proof.
  revert below. induction l as [|c l IH]; intros below Hl; cbn; [by rewrite app_nil_r|].
  apply Forall_cons in Hl as [(H1 & H2 & H3) Hl]. rewrite !bool_decide_false by naive_solver.
  by rewrite IH, <- app_assoc.
Qed.

Lemma validate_relative_path_Ok path : validate_relative_path path = Ok tt <->
  path <> [] /\ str_len path <= 4096 /\ (length (split is_slash path) <= 64)%nat /\
  Forall (fun c => check_component c = Ok tt) (split is_slash path).
Proof.
  unfold validate_relative_path. split.
  - intros E. inv_ok. bool_hyps. split; [done|]. split; [done|]. split; [lia|]. by apply fold_check_Ok in E.
  - intros (H1 & H2 & H3 & H4). rewrite bool_decide_false by done.
    rewrite (proj2 (Z.ltb_ge _ _)), (proj2 (Z.ltb_ge _ _)) by lia. cbn. by apply fold_check_Ok.
Qed.

(** No component equals, up to ASCII case, the base name of a Windows device
    with or without an extension. *)
Definition names_device (c : list Z) : Prop :=
  exists stem ext, c = stem ++ ext /\ (ext = [] \/ exists e, ext = 46 :: e) /\
    (Forall (fun x => x <> 46) stem) /\ is_device (map to_ascii_upper stem) = true.

Lemma split_first p s : exists rest, s = hd [] (split p s) ++ rest /\
  (rest = [] \/ exists c r, rest = c :: r /\ p c = true) /\ Forall (fun c => p c = false) (hd [] (split p s)).
Proof.
  induction s as [|c s (rest & E & Hr & Hf)]; cbn [split].
  { exists []. split; [done|]. split; [by left | constructor]. }
  destruct (p c) eqn:Ec.
  - exists (c :: s). split; [done|]. split; [right; eauto | constructor].
  - pose proof (split_nonempty p s). destruct (split p s) as [|piece l]; [done|]. cbn in *.
    exists rest. split; [by f_equal|]. split; [done|]. by constructor.
Qed.

Lemma device_stem_spec c : is_device (device_stem c) = true <-> names_device c.
Proof.
  destruct (split_first is_dot c) as (rest & E & Hr & Hf). unfold device_stem, names_device.
  set (stem := hd [] (split is_dot c)) in *.
  assert (forall s, Forall (fun c => is_dot c = false) s <-> Forall (fun x => x <> 46) s) as Hdot.
  { intros s. apply Forall_iff. intros x. unfold is_dot. apply Z.eqb_neq. }
  split.
  - intros Hd. exists stem, rest. split; [done|]. split; [|split; [by apply Hdot|done]].
    destruct Hr as [->|(d & r & -> & Hd')]; [by left|]. right. exists r.
    unfold is_dot in Hd'. apply Z.eqb_eq in Hd' as ->. done.
  - intros (stem' & ext & Ec & Hext & Hnd & Hd). assert (stem' = stem) as ->; [|done].
    apply Hdot in Hf. clear Hdot Hd. clearbody stem. rewrite Ec in E. clear Ec.
    revert stem E Hf. induction stem' as [|x s IH]; intros [|y t] E Hf; cbn in *; try done.
    + destruct Hext as [->|(e & ->)]; [done|]. injection E as <- _. by apply Forall_cons in Hf as [? _].
    + destruct Hr as [->|(d & r & -> & Hd')]; [done|]. injection E as -> _.
      unfold is_dot in Hd'. apply Z.eqb_eq in Hd'. by apply Forall_cons in Hnd as [? _].
    + injection E as -> E. apply Forall_cons in Hf as [_ Hf]. apply Forall_cons in Hnd as [_ Hnd].
      f_equal. by apply IH.
Qed.

(** C36: A path [validate_relative_path] accepts stays below the directory it is
    joined to, whichever directory that is: resolving it appends exactly its
    components, at most 64, each non-empty and at most 255 bytes, without
    control characters or separators of any platform, not ending in a dot or a
    space, not the private directory of the desktop and not a Windows device
    name with or without extension.  Every other path is refused with an error:
    the check accepts exactly the paths with these properties. *)
Theorem relative_path_confined (path : list Z) :
  (validate_relative_path path = Ok tt <->
     path <> [] /\ str_len path <= 4096 /\ (length (split is_slash path) <= 64)%nat /\
     Forall (fun c => c <> [] /\ c <> lit "." /\ c <> lit ".." /\ str_len c <= 255 /\
       eq_ignore_ascii_case c (lit ".p2p-desktop") = false /\
       last c <> Some 46 /\ last c <> Some 32 /\
       Forall (fun x => is_control x = false /\ x ∉ forbidden_chars) c /\
       ~ names_device c) (split is_slash path)) /\
  (validate_relative_path path = Ok tt -> forall below,
     resolve below (split is_slash path) = Some (below ++ split is_slash path)) /\
  (validate_relative_path path = Ok tt \/ exists tag, validate_relative_path path = Err (Protocol tag)).
Proof.
  assert (forall c, check_component c = Ok tt <->
    c <> [] /\ c <> lit "." /\ c <> lit ".." /\ str_len c <= 255 /\
    eq_ignore_ascii_case c (lit ".p2p-desktop") = false /\ last c <> Some 46 /\ last c <> Some 32 /\
    Forall (fun x => is_control x = false /\ x ∉ forbidden_chars) c /\ ~ names_device c) as Hc.
  { intros c. rewrite check_component_Ok, illegal_component_false, <- device_stem_spec, existsb_false.
    rewrite not_true_iff_false.
    assert (ends_badly c = false <-> last c <> Some 46 /\ last c <> Some 32) as ->.
    { unfold ends_badly. destruct (last c) as [x|]; [|done]. rewrite orb_false_iff, !Z.eqb_neq.
      naive_solver. }
    assert (Forall (fun x => bad_char x = false) c <->
      Forall (fun x => is_control x = false /\ x ∉ forbidden_chars) c) as ->; [|tauto].
    apply Forall_iff. intros x. unfold bad_char. by rewrite orb_false_iff, bool_decide_eq_false. }
  split; [|split].
  - rewrite validate_relative_path_Ok. by rewrite (Forall_iff _ _ _ Hc).
  - intros (_ & _ & _ & Hf)%validate_relative_path_Ok below. apply resolve_plain.
    eapply Forall_impl; [exact Hf|]. intros c Hok. apply Hc in Hok. tauto.
  - unfold validate_relative_path, fail_if. destruct (_ || _); [right; by eexists|]. cbn [obind].
    generalize tt at 1 3. induction (split is_slash path) as [|c l IH]; intros u; cbn; [left; by destruct u|].
    unfold check_component, fail_if. case_match; [right; by eexists|]. cbn.
    case_match; [right; by eexists|]. cbn. apply IH.
Qed.

End RelativePath.
