(* ===== verification/State.v ===== *)
(** * Stateful, fallible code

    A method that mutates [&mut self] (or the file system, or a queue) and
    returns [Result] is a function [S -> outcome E A * S]: the state survives an
    error, as it does in Rust.  [wp] is its weakest precondition; the rules below
    are the only way the other files reason about such methods. *)
From Stdlib Require Import ZArith Lia.
From stdpp Require Import prelude gmap strings.
From S2P Require Import Prelude.

#[local] Open Scope Z_scope.

Definition st (S E A : Type) : Type := S -> outcome E A * S.

Definition ret {S E A : Type} (a : A) : st S E A := fun s => (Ok a, s).
Definition throw {S E A : Type} (e : E) : st S E A := fun s => (Err e, s).
Definition panic {S E A : Type} : st S E A := fun s => (Panic, s).

Definition sbind {S E A B : Type} (m : st S E A) (f : A -> st S E B) : st S E B :=
  fun s =>
    match m s with
    | (Ok a, s') => f a s'
    | (Err e, s') => (Err e, s')
    | (Panic, s') => (Panic, s')
    end.

Definition get {S E : Type} : st S E S := fun s => (Ok s, s).
Definition put {S E : Type} (s' : S) : st S E unit := fun _ => (Ok tt, s').
Definition modify {S E : Type} (f : S -> S) : st S E unit := fun s => (Ok tt, f s).
Definition gets {S E A : Type} (f : S -> A) : st S E A := fun s => (Ok (f s), s).

(** A pure fallible expression. *)
Definition liftr {S E A : Type} (m : outcome E A) : st S E A := fun s => (m, s).

(** [match m { Ok(a) => .., Err(e) => .. }]: both ways continue. *)
Definition attempt {S E A : Type} (m : st S E A) : st S E (outcome E A) :=
  fun s =>
    match m s with
    | (Panic, s') => (Panic, s')
    | (r, s') => (Ok r, s')
    end.

(** Run [m] on a component of the state. *)
Definition zoom {S T E A : Type} (proj : T -> S) (upd : S -> T -> T) (m : st S E A) : st T E A :=
  fun t => let (r, s') := m (proj t) in (r, upd s' t).

Notation "'let!' x ':=' m 'in' k" := (sbind m (fun x => k))
  (at level 10, x pattern, m at level 200, k at level 200) : rust_scope.

(** [for x in l { body(x)?; }]. *)
Fixpoint for_each {S E A : Type} (body : A -> st S E unit) (l : list A) : st S E unit :=
  match l with
  | [] => ret tt
  | x :: l' => let! _ := body x in for_each body l'
  end.

(** [for x in l { acc = body(acc, x)?; }]. *)
Fixpoint for_fold {S E A B : Type} (body : B -> A -> st S E B) (b : B) (l : list A) : st S E B :=
  match l with
  | [] => ret b
  | x :: l' => let! b' := body b x in for_fold body b' l'
  end.

(** A step that succeeds. *)
Lemma sbind_run {S E A B : Type} (m : st S E A) (f : A -> st S E B) s a s' :
  m s = (Ok a, s') -> sbind m f s = f a s'.
Proof. unfold sbind. by intros ->. Qed.

(** ** Weakest preconditions *)

Section Wp.
  Context {S E : Type}.

(** Started in [s], [m] does not panic, ends in [Q] when it returns and in [R]
    when it fails. *)
Definition wp {A : Type} (m : st S E A) (Q : A -> S -> Prop) (R : E -> S -> Prop) (s : S) : Prop :=
  match m s with
  | (Ok a, s') => Q a s'
  | (Err e, s') => R e s'
  | (Panic, _) => False
  end.

Lemma wp_ret {A} (a : A) Q R s : Q a s -> wp (ret a) Q R s.
Proof. done. Qed.

Lemma wp_throw {A} e (Q : A -> S -> Prop) (R : E -> S -> Prop) s : R e s -> wp (throw e) Q R s.
Proof. done. Qed.

Lemma wp_bind {A B} (m : st S E A) (f : A -> st S E B) Q R s :
  wp m (fun a s' => wp (f a) Q R s') R s -> wp (sbind m f) Q R s.
Proof. unfold wp, sbind. by destruct (m s) as [[a|e|] s']. Qed.

Lemma wp_conseq {A} (m : st S E A) (Q Q' : A -> S -> Prop) (R R' : E -> S -> Prop) s :
  wp m Q R s -> (forall a s', Q a s' -> Q' a s') -> (forall e s', R e s' -> R' e s') ->
  wp m Q' R' s.
Proof. unfold wp. destruct (m s) as [[a|e|] s']; naive_solver. Qed.

(** The two parts of a specification can be proved apart. *)
Lemma wp_and {A} (m : st S E A) (Q Q' : A -> S -> Prop) (R R' : E -> S -> Prop) s :
  wp m Q R s -> wp m Q' R' s ->
  wp m (fun a s' => Q a s' /\ Q' a s') (fun e s' => R e s' /\ R' e s') s.
Proof. unfold wp. destruct (m s) as [[a|e|] s']; naive_solver. Qed.

Lemma wp_liftr {A} (o : outcome E A) (Q : A -> S -> Prop) (R : E -> S -> Prop) s :
  match o with Ok a => Q a s | Err e => R e s | Panic => False end -> wp (liftr o) Q R s.
Proof. done. Qed.

Lemma wp_get (Q : S -> S -> Prop) (R : E -> S -> Prop) s : Q s s -> wp get Q R s.
Proof. done. Qed.

Lemma wp_gets {A} (f : S -> A) (Q : A -> S -> Prop) (R : E -> S -> Prop) s :
  Q (f s) s -> wp (gets f) Q R s.
Proof. done. Qed.

Lemma wp_modify f (Q : unit -> S -> Prop) (R : E -> S -> Prop) s :
  Q tt (f s) -> wp (modify f) Q R s.
Proof. done. Qed.

Lemma wp_attempt {A} (m : st S E A) (Q : outcome E A -> S -> Prop) (R : E -> S -> Prop) s :
  wp m (fun a s' => Q (Ok a) s') (fun e s' => Q (Err e) s') s -> wp (attempt m) Q R s.
Proof. unfold wp, attempt. by destruct (m s) as [[a|e|] s']. Qed.

Lemma wp_for_each {A} (body : A -> st S E unit) l (I : S -> Prop) (R : E -> S -> Prop) s :
  I s -> (forall x s', x ∈ l -> I s' -> wp (body x) (fun _ => I) R s') ->
  wp (for_each body l) (fun _ => I) R s.
Proof.
  revert s. induction l as [|x l IH]; intros s Hs Hb; [done|].
  cbn. apply wp_bind. eapply wp_conseq; [apply Hb; [by left|done]| |done].
  cbn. intros _ s' Hs'. apply IH; [done|]. intros y s'' Hy. apply Hb. by right.
Qed.

(** Invariant rule for accumulating loops; the invariant knows what is left. *)
Lemma wp_for_fold {A B} (body : B -> A -> st S E B) l b (I : list A -> B -> S -> Prop)
    (R : E -> S -> Prop) s :
  I l b s ->
  (forall x rest c s', I (x :: rest) c s' -> wp (body c x) (fun c' => I rest c') R s') ->
  wp (for_fold body b l) (fun c => I [] c) R s.
Proof.
  intros Hs Hb. revert b s Hs. induction l as [|x l IH]; intros b s Hs; [done|].
  cbn. apply wp_bind. eapply wp_conseq; [apply Hb, Hs| |done]. cbn. intros. by apply IH.
Qed.

(** From a specification to the run. *)
Lemma wp_run {A} (m : st S E A) Q R s : wp m Q R s ->
  exists r s', m s = (r, s') /\
    ((exists a, r = Ok a /\ Q a s') \/ (exists e, r = Err e /\ R e s')).
Proof. unfold wp. destruct (m s) as [[a|e|] s']; naive_solver. Qed.

Lemma wp_elim_Ok {A} (m : st S E A) (Q : A -> S -> Prop) R s a s' :
  wp m Q R s -> m s = (Ok a, s') -> Q a s'.
Proof. unfold wp. intros H E0. by rewrite E0 in H. Qed.

Lemma wp_elim_Err {A} (m : st S E A) (Q : A -> S -> Prop) (R : E -> S -> Prop) s e s' :
  wp m Q R s -> m s = (Err e, s') -> R e s'.
Proof. unfold wp. intros H E0. by rewrite E0 in H. Qed.
End Wp.

#[global] Arguments wp {S E A} m Q R s : simpl never.

Lemma wp_zoom {S T E A} (proj : T -> S) (upd : S -> T -> T) (m : st S E A)
    (Q : A -> T -> Prop) (R : E -> T -> Prop) t :
  wp m (fun a s' => Q a (upd s' t)) (fun e s' => R e (upd s' t)) (proj t) ->
  wp (zoom proj upd m) Q R t.
Proof. unfold wp, zoom. by destruct (m (proj t)) as [[a|e|] s']. Qed.

(** Strip the leading control structure of a [wp] goal. *)
Ltac wp_step :=
  first
    [ apply wp_bind
    | apply wp_ret
    | apply wp_throw
    | apply wp_get
    | apply wp_gets
    | apply wp_modify
    | apply wp_attempt
    | apply wp_liftr ].
Ltac wp_steps := repeat (wp_step; cbv beta).
