(* ===== verification/Link.v ===== *)
(** * One side of a message stream

    A stream of control messages, as one side sees it: the events its reads will
    find, the fate of its writes, and what was written so far.  A read that finds
    no event any more runs into its timeout.  Used by the handshake and by the
    transfer loops. *)
From Stdlib Require Import ZArith Lia.
From stdpp Require Import prelude gmap strings.
From S2P Require Import Prelude Manifest Postcard Message State.

#[local] Open Scope Z_scope.

Module Link.
Import Message.

(** What [tokio::time::timeout(.., read_frame(..))] gives, for messages of type
    [M]: the control messages of the transfer protocol, or those of the remote
    authorization. *)
Inductive incoming_of (M : Type) : Type :=
  | Got (message : M)
  | Closed
  | Broken (e : error).
Arguments Got {M} _.
Arguments Closed {M}.
Arguments Broken {M} _.

Record link_of (M : Type) : Type := mk_link {
  inbox : list (incoming_of M);
  fates : list (option error);
  sent : list M;
}.
Arguments mk_link {M} _ _ _.
Arguments inbox {M} _.
Arguments fates {M} _.
Arguments sent {M} _.

Notation incoming := (incoming_of ControlMessage).
Notation link := (link_of ControlMessage).

Section Messages.
Context {M : Type}.

(** One read: a timeout when nothing arrives, an error when the peer closed. *)
Definition recv_msg (timeout closed : string) : st (link_of M) error M :=
  fun l =>
    match inbox l with
    | [] => (Err (Protocol timeout), l)
    | ev :: rest =>
        let l := mk_link rest (fates l) (sent l) in
        match ev with
        | Got m => (Ok m, l)
        | Closed => (Err (Protocol closed), l)
        | Broken e => (Err e, l)
        end
    end.

(** One write, its own timeout included in the fate. *)
Definition send_msg (m : M) : st (link_of M) error unit :=
  fun l =>
    match fates l with
    | Some e :: rest => (Err e, mk_link (inbox l) rest (sent l))
    | fs => (Ok tt, mk_link (inbox l) (tail fs) (sent l ++ [m]))
    end.

(** ** Rules *)

Lemma wp_recv (t c : string) (Q : M -> link_of M -> Prop) (R : error -> link_of M -> Prop) l :
  (forall e rest, (inbox l = [] /\ rest = [] \/ exists ev, inbox l = ev :: rest /\ forall m, ev <> Got m) ->
     R e (mk_link rest (fates l) (sent l))) ->
  (forall m rest, inbox l = Got m :: rest -> Q m (mk_link rest (fates l) (sent l))) ->
  wp (recv_msg t c) Q R l.
Proof.
  intros HR HQ. unfold wp, recv_msg. destruct l as [[|ev rest] fs s]; cbn in *.
  - apply HR. by left.
  - destruct ev; [by apply HQ|apply HR; right; eauto..].
Qed.

Lemma wp_send m (Q : unit -> link_of M -> Prop) (R : error -> link_of M -> Prop) l :
  (forall e fs, R e (mk_link (inbox l) fs (sent l))) ->
  (forall fs, Q tt (mk_link (inbox l) fs (sent l ++ [m]))) ->
  wp (send_msg m) Q R l.
Proof. intros HR HQ. unfold wp, send_msg. destruct (fates l) as [|[e|] fs]; [apply HQ|apply HR|apply HQ]. Qed.

(** The common case: a failure leaves what was sent alone. *)
Lemma wp_recv_hs timeout closed (Q : M -> link_of M -> Prop) (R : error -> link_of M -> Prop) l :
  (forall m rest, inbox l = Got m :: rest -> Q m (mk_link rest (fates l) (sent l))) ->
  (forall e l', sent l' = sent l -> R e l') -> wp (recv_msg timeout closed) Q R l.
Proof. intros HQ HR. apply wp_recv; [|done]. intros e rest _. by apply HR. Qed.

Lemma wp_send_hs m (Q : unit -> link_of M -> Prop) (R : error -> link_of M -> Prop) l :
  (forall l', inbox l' = inbox l -> sent l' = sent l ++ [m] -> Q tt l') ->
  (forall e l', sent l' = sent l -> R e l') -> wp (send_msg m) Q R l.
Proof. intros HQ HR. apply wp_send; [intros; by apply HR|intros; by apply HQ]. Qed.

End Messages.

End Link.
