(* ===== verification/FileSystem.v ===== *)
(** * The file system below src/storage

    One directory of the host file system: the standard-library file operations
    the storage code calls.  An inode has its current content and the content of
    its last [sync]; the directory has its current entries and those of its last
    sync.  [crash] relates a disk to what a power failure may leave of it.  Every
    operation can fail at any time: the environment holds a list of faults, one
    per call. *)
From Stdlib Require Import ZArith Lia.
From stdpp Require Import prelude gmap strings.
From S2P Require Import Prelude State.

#[local] Open Scope Z_scope.

Abbreviation name := (list Z).

(** [regular] is what [symlink_metadata] shows of the entry; an entry that is
    not a regular file stands for a link and has the content it leads to. *)
Record inode : Type := mk_inode {
  cur : list Z;
  syn : list Z;
  regular : bool;
}.

Record fs : Type := mk_fs {
  inodes : gmap Z inode;
  dir : gmap name Z;
  dir_syn : gmap name Z;
  next_ino : Z;
}.

(** A failing call; a failing write may have written a prefix. *)
Record fault : Type := mk_fault {
  fault_kind : io_kind;
  fault_partial : nat;
}.

(** The kinds that report the state of the disk, not a failure of the device:
    they come from the operations themselves. *)
Definition genuine (k : io_kind) : bool := bool_decide (k ∉ [NotFound; AlreadyExists; UnexpectedEof]).
Definition failure (ft : fault) : io_kind :=
  if genuine (fault_kind ft) then fault_kind ft else OtherKind.

(** The disk and what the environment decides: the fate of each call, the
    values of the clock (milliseconds) and of the random generator. *)
Record world : Type := mk_world {
  disk : fs;
  faults : list (option fault);
  clock : list Z;
  rng : list Z;
}.

Definition next_fault (w : world) : option fault :=
  match faults w with
  | f :: _ => f
  | [] => None
  end.

(** The world after one call that leaves the disk [d]. *)
Definition step_to (d : fs) (w : world) : world :=
  mk_world d (tail (faults w)) (clock w) (rng w).

(** A call that either fails without effect or acts on the disk. *)
Definition syscall {A : Type} (f : fs -> outcome io_kind (A * fs)) : st world error A :=
  fun w =>
    match next_fault w with
    | Some ft => (Err (Io (failure ft)), step_to (disk w) w)
    | None =>
        match f (disk w) with
        | Ok (a, d) => (Ok a, step_to d w)
        | Err k => (Err (Io k), step_to (disk w) w)
        | Panic => (Panic, step_to (disk w) w)
        end
    end.

(** [Instant::now]. *)
Definition instant_now : st world error Z :=
  fun w => (Ok (hd 0 (clock w)), mk_world (disk w) (faults w) (tail (clock w)) (rng w)).

(** [rand::random::<u128>()]. *)
Definition random_u128 : st world error Z :=
  fun w => (Ok (hd 0 (rng w)), mk_world (disk w) (faults w) (clock w) (tail (rng w))).

(** ** Disk operations *)

Definition empty_inode : inode := mk_inode [] [] true.
Definition inode_of (d : fs) (i : Z) : inode := default empty_inode (inodes d !! i).
Definition content (d : fs) (i : Z) : list Z := cur (inode_of d i).

Definition set_inode (i : Z) (nd : inode) (d : fs) : fs :=
  mk_fs (<[i := nd]> (inodes d)) (dir d) (dir_syn d) (next_ino d).
Definition set_dir (m : gmap name Z) (d : fs) : fs :=
  mk_fs (inodes d) m (dir_syn d) (next_ino d).
Definition set_content (i : Z) (bs : list Z) (d : fs) : fs :=
  set_inode i (mk_inode bs (syn (inode_of d i)) (regular (inode_of d i))) d.

(** Make a new empty file under [n]. *)
Definition new_file (n : name) (d : fs) : Z * fs :=
  (next_ino d,
   mk_fs (<[next_ino d := empty_inode]> (inodes d)) (<[n := next_ino d]> (dir d)) (dir_syn d)
     (next_ino d + 1)).

(** [OpenOptions] without [create]. *)
Definition fs_open (n : name) (d : fs) : outcome io_kind (Z * fs) :=
  match dir d !! n with
  | Some i => Ok (i, d)
  | None => Err NotFound
  end.

(** [create(true).truncate(false)]. *)
Definition fs_open_create (n : name) (d : fs) : outcome io_kind (Z * fs) :=
  match dir d !! n with
  | Some i => Ok (i, d)
  | None => Ok (new_file n d)
  end.

(** [File::create]: truncates an existing file. *)
Definition fs_create (n : name) (d : fs) : outcome io_kind (Z * fs) :=
  match dir d !! n with
  | Some i => Ok (i, set_content i [] d)
  | None => Ok (new_file n d)
  end.

(** [create_new(true)]. *)
Definition fs_create_new (n : name) (d : fs) : outcome io_kind (Z * fs) :=
  match dir d !! n with
  | Some _ => Err AlreadyExists
  | None => Ok (new_file n d)
  end.

Definition fs_len (i : Z) (d : fs) : outcome io_kind (Z * fs) :=
  Ok (Z.of_nat (length (content d i)), d).

Definition resize (n : nat) (bs : list Z) : list Z := take n bs ++ repeat 0 (n - length bs).

Definition fs_set_len (i n : Z) (d : fs) : outcome io_kind (unit * fs) :=
  Ok (tt, set_content i (resize (Z.to_nat n) (content d i)) d).

(** [sync_all] and [sync_data]. *)
Definition fs_sync (i : Z) (d : fs) : outcome io_kind (unit * fs) :=
  let nd := inode_of d i in
  Ok (tt, set_inode i (mk_inode (cur nd) (cur nd) (regular nd)) d).

(** [seek(SeekFrom::Start(off))] then [read_exact] of [len] bytes. *)
Definition fs_read (i off len : Z) (d : fs) : outcome io_kind (list Z * fs) :=
  let data := take (Z.to_nat len) (drop (Z.to_nat off) (content d i)) in
  if Z.of_nat (length data) <? len then Err UnexpectedEof else Ok (data, d).

(** [file.take(limit).read_to_end]. *)
Definition fs_read_limited (i limit : Z) (d : fs) : outcome io_kind (list Z * fs) :=
  Ok (take (Z.to_nat limit) (content d i), d).

(** [fs::read]. *)
Definition fs_read_file (n : name) (d : fs) : outcome io_kind (list Z * fs) :=
  match dir d !! n with
  | Some i => Ok (content d i, d)
  | None => Err NotFound
  end.

(** Overwrite at [off]; a gap before it reads as zeros. *)
Definition splice (off : nat) (data bs : list Z) : list Z :=
  resize off bs ++ data ++ drop (off + length data) bs.

Definition write_content (i off : Z) (data : list Z) (d : fs) : fs :=
  set_content i (splice (Z.to_nat off) data (content d i)) d.

(** [seek] then [write_all]: a failure may leave a prefix written. *)
Definition sys_write (i off : Z) (data : list Z) : st world error unit :=
  fun w =>
    match next_fault w with
    | Some ft =>
        (Err (Io (failure ft)),
         step_to (write_content i off (take (fault_partial ft) data) (disk w)) w)
    | None => (Ok tt, step_to (write_content i off data (disk w)) w)
    end.

(** [fs::rename] on Unix: replaces the destination atomically. *)
Definition fs_rename (a b : name) (d : fs) : outcome io_kind (unit * fs) :=
  match dir d !! a with
  | Some i => Ok (tt, set_dir (<[b := i]> (delete a (dir d))) d)
  | None => Err NotFound
  end.

Definition fs_remove (n : name) (d : fs) : outcome io_kind (unit * fs) :=
  match dir d !! n with
  | Some _ => Ok (tt, set_dir (delete n (dir d)) d)
  | None => Err NotFound
  end.

(** [fs::hard_link]: atomic, never replaces. *)
Definition fs_link (a b : name) (d : fs) : outcome io_kind (unit * fs) :=
  match dir d !! a with
  | None => Err NotFound
  | Some i =>
      match dir d !! b with
      | Some _ => Err AlreadyExists
      | None => Ok (tt, set_dir (<[b := i]> (dir d)) d)
      end
  end.

(** [symlink_metadata]: is the entry a regular file? *)
Definition fs_stat (n : name) (d : fs) : outcome io_kind (bool * fs) :=
  match dir d !! n with
  | Some i => Ok (regular (inode_of d i), d)
  | None => Err NotFound
  end.

(** [File::open(parent)?.sync_all()]. *)
Definition fs_sync_dir (d : fs) : outcome io_kind (unit * fs) :=
  Ok (tt, mk_fs (inodes d) (dir d) (dir d) (next_ino d)).

(** ** Power failure *)

(** At every position, the byte there now or the byte of the last sync (or
    nothing, where one of them is shorter). *)
Definition torn (now synced after : list Z) : Prop :=
  forall p, after !! p = now !! p \/ after !! p = synced !! p.

(** What a crash of [d] may leave: each entry is the current or the synced one,
    each file a mixture of its current and its synced bytes. *)
Record crash (d d' : fs) : Prop := {
  crash_dir : forall n, dir d' !! n = dir d !! n \/ dir d' !! n = dir_syn d !! n;
  crash_content : forall i, torn (cur (inode_of d i)) (syn (inode_of d i)) (content d' i);
  crash_synced : dir_syn d' = dir d';
  crash_next : next_ino d' = next_ino d;
  crash_regular : forall i, regular (inode_of d' i) = regular (inode_of d i);
  crash_settled : forall i, syn (inode_of d' i) = cur (inode_of d' i);
}.

(** The orderly crash: nothing is lost. *)
Definition settle (nd : inode) : inode := mk_inode (cur nd) (cur nd) (regular nd).
Definition orderly (d : fs) : fs := mk_fs (settle <$> inodes d) (dir d) (dir d) (next_ino d).

Lemma inode_of_orderly d i : inode_of (orderly d) i = settle (inode_of d i).
Proof. unfold inode_of, orderly. cbn. rewrite lookup_fmap. by destruct (inodes d !! i). Qed.

Lemma crash_orderly d : crash d (orderly d).
Proof.
  split; [by left| |done|done|..]; intros i; unfold content; rewrite ?inode_of_orderly; try done.
  intros p. by left.
Qed.

(** ** Rules *)

Lemma failure_genuine ft : genuine (failure ft) = true.
Proof. unfold failure. by destruct (genuine (fault_kind ft)) eqn:E. Qed.

Lemma wp_syscall {A} (f : fs -> outcome io_kind (A * fs)) (Q : A -> world -> Prop)
    (R : error -> world -> Prop) w :
  (forall k w', genuine k = true -> disk w' = disk w -> R (Io k) w') ->
  match f (disk w) with
  | Ok (a, d) => forall w', disk w' = d -> Q a w'
  | Err k => forall w', disk w' = disk w -> R (Io k) w'
  | Panic => False
  end ->
  wp (syscall f) Q R w.
Proof.
  intros HR HQ. unfold wp, syscall. destruct (next_fault w) as [ft|].
  { apply HR; [apply failure_genuine | done]. }
  destruct (f (disk w)) as [[a d]|k|]; [by apply HQ | by apply HQ | done].
Qed.

Lemma wp_sys_write i off data (Q : unit -> world -> Prop) (R : error -> world -> Prop) w :
  (forall k n w', genuine k = true ->
     disk w' = write_content i off (take n data) (disk w) -> R (Io k) w') ->
  (forall w', disk w' = write_content i off data (disk w) -> Q tt w') ->
  wp (sys_write i off data) Q R w.
Proof.
  intros HR HQ. unfold wp, sys_write. destruct (next_fault w) as [ft|]; [|by apply HQ].
  eapply HR; [apply failure_genuine | done].
Qed.

Lemma wp_instant_now (Q : Z -> world -> Prop) (R : error -> world -> Prop) w :
  (forall t w', disk w' = disk w -> Q t w') -> wp instant_now Q R w.
Proof. intros HQ. by apply HQ. Qed.

Lemma wp_random_u128 (Q : Z -> world -> Prop) (R : error -> world -> Prop) w :
  (forall t w', disk w' = disk w -> Q t w') -> wp random_u128 Q R w.
Proof. intros HQ. by apply HQ. Qed.

(** ** Contents *)

Lemma inode_of_set i j nd d : inode_of (set_inode i nd d) j = if decide (i = j) then nd else inode_of d j.
Proof.
  unfold inode_of, set_inode. cbn. case_decide as E.
  - by rewrite E, lookup_insert_eq.
  - by rewrite lookup_insert_ne.
Qed.

Lemma content_set i j bs d :
  content (set_content i bs d) j = if decide (i = j) then bs else content d j.
Proof. unfold content, set_content. rewrite inode_of_set. by case_decide. Qed.

Lemma syn_set_content i j bs d : syn (inode_of (set_content i bs d) j) = syn (inode_of d j).
Proof. unfold set_content. rewrite inode_of_set. case_decide as E; [by rewrite E | done]. Qed.

Lemma length_resize n bs : length (resize n bs) = n.
Proof. unfold resize. rewrite length_app, length_take, repeat_length. lia. Qed.

Lemma resize_id n bs : length bs = n -> resize n bs = bs.
Proof. intros <-. unfold resize. by rewrite take_ge, Nat.sub_diag, app_nil_r. Qed.

Lemma resize_le n bs : (n <= length bs)%nat -> resize n bs = take n bs.
Proof. intros Hn. unfold resize. replace (n - length bs)%nat with 0%nat by lia. apply app_nil_r. Qed.

Lemma length_splice off data bs : (off + length data <= length bs)%nat ->
  length (splice off data bs) = length bs.
Proof. intros Hl. unfold splice. rewrite !length_app, length_resize, length_drop. lia. Qed.

(** The overwritten range holds the data. *)
Lemma splice_same off data bs :
  take (length data) (drop off (splice off data bs)) = data.
Proof.
  unfold splice. rewrite drop_app_length' by (by rewrite length_resize). by rewrite take_app_length.
Qed.

Lemma lookup_splice off data bs p : (off + length data <= length bs)%nat ->
  splice off data bs !! p =
  if (off <=? p)%nat && (p <? off + length data)%nat then data !! (p - off)%nat else bs !! p.
Proof.
  intros Hl. unfold splice. rewrite resize_le by lia.
  destruct (Nat.leb_spec off p), (Nat.ltb_spec p (off + length data)); cbn; try lia.
  - rewrite lookup_app_r, length_take by (rewrite length_take; lia).
    rewrite lookup_app_l by lia. f_equal. lia.
  - rewrite lookup_app_r, length_take by (rewrite length_take; lia).
    rewrite lookup_app_r by lia. rewrite lookup_drop. f_equal. lia.
  - rewrite lookup_app_l by (rewrite length_take; lia). by rewrite lookup_take_lt.
Qed.

(** A range disjoint from the write is untouched. *)
Lemma splice_other off data bs o n : (off + length data <= length bs)%nat ->
  (o + n <= off \/ off + length data <= o)%nat ->
  take n (drop o (splice off data bs)) = take n (drop o bs).
Proof.
  intros Hl Hd. apply list_eq. intros p.
  destruct (Nat.lt_ge_cases p n) as [Hp|Hp].
  - rewrite !lookup_take_lt, !lookup_drop, lookup_splice by done.
    destruct (Nat.leb_spec off (o + p)), (Nat.ltb_spec (o + p) (off + length data)); cbn; try done; lia.
  - by rewrite !lookup_take_ge.
Qed.

Lemma torn_length now synced after : length now = length synced -> torn now synced after ->
  length after = length now.
Proof.
  intros Hl Ht. apply Nat.le_antisymm.
  - destruct (Nat.le_gt_cases (length after) (length now)) as [|Hgt]; [done|].
    destruct (lookup_lt_is_Some_2 after (length now)) as [x Hx]; [lia|].
    destruct (Ht (length now)) as [E|E]; rewrite Hx, lookup_ge_None_2 in E; done || lia.
  - destruct (Nat.le_gt_cases (length now) (length after)) as [|Hgt]; [done|].
    destruct (lookup_lt_is_Some_2 now (length after)) as [x Hx]; [lia|].
    destruct (lookup_lt_is_Some_2 synced (length after)) as [y Hy]; [lia|].
    destruct (Ht (length after)) as [E|E]; rewrite lookup_ge_None_2 in E by lia; congruence.
Qed.

(** A range whose synced and current bytes agree survives. *)
Lemma torn_slice now synced after o n : torn now synced after ->
  take n (drop o now) = take n (drop o synced) -> take n (drop o after) = take n (drop o now).
Proof.
  intros Ht E. apply list_eq. intros p. apply (f_equal (fun l => l !! p)) in E.
  destruct (Nat.lt_ge_cases p n) as [Hp|Hp].
  - rewrite !lookup_take_lt, !lookup_drop in * by done. destruct (Ht (o + p)%nat); congruence.
  - by rewrite !lookup_take_ge.
Qed.
