(* ===== verification/Durable.v ===== *)
(** * Files that survive a power failure

    What can be said of one file of a directory of FileSystem.v, before and after a
    crash, and of the staged file that will replace it. Shared by the stores that
    write a temporary file, sync it and rename it. *)
From Stdlib Require Import ZArith Lia.
From stdpp Require Import prelude gmap strings.
From S2P Require Import Prelude State FileSystem.

#[local] Open Scope Z_scope.

Module Durable.

(** ** What the disk holds for sure *)

(** Every entry names an inode that was allocated. *)
Definition sane (d : fs) : Prop :=
  forall n i, dir d !! n = Some i \/ dir_syn d !! n = Some i -> i < next_ino d.

(** The file [n] is durably absent, or durably holds these bytes. *)
Definition on_disk (n : name) (o : option (list Z)) (d : fs) : Prop :=
  match o with
  | None => dir d !! n = None /\ dir_syn d !! n = None
  | Some bs => exists i, dir d !! n = Some i /\ dir_syn d !! n = Some i /\
                 inode_of d i = mk_inode bs bs true
  end.

(** Renamed to but not yet synced: the old entry or the new one. *)
Definition replaced (n : name) (o : option (list Z)) (bs : list Z) (d : fs) : Prop :=
  (exists i, dir d !! n = Some i /\ inode_of d i = mk_inode bs bs true) /\
  match o with
  | None => dir_syn d !! n = None
  | Some old => exists i, dir_syn d !! n = Some i /\ inode_of d i = mk_inode old old true
  end.

Lemma crash_inode_eq d d' i bs r : crash d d' -> inode_of d i = mk_inode bs bs r ->
  inode_of d' i = mk_inode bs bs r.
Proof.
  intros Hc Ei. pose proof (crash_content d d' Hc i) as Ht. rewrite Ei in Ht. cbn in Ht.
  assert (cur (inode_of d' i) = bs) as Ecur.
  { apply list_eq. intros p. by destruct (Ht p). }
  pose proof (crash_settled d d' Hc i) as Es. pose proof (crash_regular d d' Hc i) as Er. rewrite Ei in Er.
  destruct (inode_of d' i); cbn in *; congruence.
Qed.

Lemma on_disk_crash n o d d' : on_disk n o d -> crash d d' -> on_disk n o d'.
Proof.
  intros Ho Hc. pose proof (crash_dir d d' Hc n) as Hd. pose proof (crash_synced d d' Hc) as Hy.
  destruct o as [bs|]; cbn in *; rewrite Hy.
  - destruct Ho as (i & E1 & E2 & Ei). exists i. rewrite E1, E2 in Hd.
    pose proof (crash_inode_eq d d' i bs true Hc Ei). by destruct Hd.
  - destruct Ho as [E1 E2]. rewrite E1, E2 in Hd. by destruct Hd.
Qed.

Lemma replaced_crash n o bs d d' : replaced n o bs d -> crash d d' ->
  on_disk n o d' \/ on_disk n (Some bs) d'.
Proof.
  intros [(i & E1 & Ei) Hs] Hc. pose proof (crash_synced d d' Hc) as Hy.
  destruct (crash_dir d d' Hc n) as [E|E].
  - right. exists i. rewrite Hy, E. by rewrite (crash_inode_eq d d' i bs true Hc Ei).
  - left. destruct o as [old|]; cbn in *; rewrite Hy, E; [|by rewrite Hs].
    destruct Hs as (j & E2 & Ej). exists j. by rewrite (crash_inode_eq d d' j old true Hc Ej).
Qed.

Lemma crash_sane d d' : sane d -> crash d d' -> sane d'.
Proof.
  intros Hs Hc n i Hi. rewrite (crash_next d d' Hc). rewrite (crash_synced d d' Hc) in Hi.
  destruct (crash_dir d d' Hc n) as [E|E]; apply (Hs n); rewrite E in Hi; naive_solver.
Qed.

(** ** Staging a file *)

(** The disk [d'] keeps what [d] says of the target: it may have more inodes and
    more entries, none of them under the target's name. *)
Record keeps (n : name) (d d' : fs) : Prop := {
  keeps_dir : dir d' !! n = dir d !! n;
  keeps_syn : dir_syn d' = dir_syn d;
  keeps_inodes : forall i, i < next_ino d -> inode_of d' i = inode_of d i;
  keeps_sane : sane d';
  keeps_next : next_ino d <= next_ino d';
}.

Lemma keeps_refl n d : sane d -> keeps n d d.
Proof. by split. Qed.

Lemma keeps_trans n d1 d2 d3 : keeps n d1 d2 -> keeps n d2 d3 -> keeps n d1 d3.
Proof.
  intros [A1 A2 A3 A4 A5] [B1 B2 B3 B4 B5]. split; try congruence; try done; [|lia].
  intros i Hi. rewrite B3 by lia. by apply A3.
Qed.

Lemma keeps_on_disk n o d d' : sane d -> keeps n d d' -> on_disk n o d -> on_disk n o d'.
Proof.
  intros Hs [K1 K2 K3 K4 K5] Ho. destruct o as [bs|]; cbn in *.
  - destruct Ho as (i & E1 & E2 & Ei). exists i. rewrite K1, K2, K3; [done|]. apply (Hs n). by left.
  - rewrite K1, K2. done.
Qed.

(** The staged file. *)
Definition staged (n temp : name) (i : Z) (d d' : fs) : Prop :=
  keeps n d d' /\ temp <> n /\ dir d' !! temp = Some i /\ next_ino d <= i < next_ino d'.

Lemma keeps_create n temp d : sane d -> temp <> n -> dir d !! temp = None ->
  staged n temp (next_ino d) d (FileSystem.new_file temp d).2.
Proof.
  intros Hs Hne Hf. split; [|cbn; rewrite lookup_insert_eq; split; [done|split; [done|lia]]].
  split; cbn; [| | | |lia].
  - by rewrite lookup_insert_ne.
  - done.
  - intros i Hi. unfold inode_of. cbn. rewrite lookup_insert_ne by lia. done.
  - intros m i [Hi|Hi]; cbn in *.
    + apply lookup_insert_Some in Hi as [[_ <-]|[_ Hi]]; [lia|]. pose proof (Hs m i (or_introl Hi)). lia.
    + pose proof (Hs m i (or_intror Hi)). lia.
Qed.

(** Changing an inode that is not older than [d]. *)
Lemma keeps_set_inode n d d' i nd : keeps n d d' -> next_ino d <= i -> keeps n d (set_inode i nd d').
Proof.
  intros [K1 K2 K3 K4 K5] Hi. split; try done. intros j Hj. rewrite inode_of_set.
  destruct (decide (i = j)); [lia|]. by apply K3.
Qed.

Lemma keeps_remove n d d' temp : keeps n d d' -> temp <> n ->
  keeps n d (FileSystem.set_dir (delete temp (dir d')) d').
Proof.
  intros [K1 K2 K3 K4 K5] Hne. split; try done; cbn.
  - by rewrite lookup_delete_ne.
  - intros m i [Hi|Hi]; cbn in *; [apply lookup_delete_Some in Hi as [_ Hi]|]; apply (K4 m); auto.
Qed.

End Durable.
