(* ===== verification/AtomicFile.v ===== *)
(** * Replacing a configuration file (src/storage/atomic.rs)

    A file is replaced by writing a temporary file beside it, syncing that and renaming
    it. After the rename the new content is what everybody reads; only that it survives
    a power failure can still be in doubt, and then the caller gets a warning, not an
    error. The variants for Unix, over the file system of FileSystem.v. *)
From Stdlib Require Import ZArith Lia.
From stdpp Require Import prelude gmap strings.
From S2P Require Import Prelude State FileSystem Durable.

#[local] Open Scope Z_scope.

Module AtomicFile.
Import Durable.

(** [WriteOutcome]: the warning, when the directory could not be synced. *)
Record WriteOutcome : Type := mk_outcome { durability_warning : option error }.

Definition temporary (drawn : Z) : name := lit ".p2p-config-" ++ decimal drawn ++ lit ".tmp".

Definition check_target (path : name) : st world error unit :=
  let! metadata := attempt (syscall (fs_stat path)) in
  match metadata with
  | Ok true | Err (Io NotFound) => ret tt
  | Ok false => throw (Io OtherKind)
  | Err e => throw e
  | Panic => panic
  end.

(** [sync_directory]. *)
Definition sync_directory : st world error unit := syscall fs_sync_dir.

Definition write_bytes (path : name) (bytes : list Z) : st world error WriteOutcome :=
  let! _ := check_target path in
  let! drawn := random_u128 in
  let temp := temporary drawn in
  let! file := syscall (fs_create_new temp) in
  let! written := attempt
    (let! _ := sys_write file 0 bytes in
     let! _ := syscall (fs_sync file) in
     syscall (fs_rename temp path)) in
  match written with
  | Ok _ =>
      let! synced := attempt sync_directory in
      match synced with
      | Ok _ => ret (mk_outcome None)
      | Err e => ret (mk_outcome (Some e))
      | Panic => panic
      end
  | Err e =>
      let! _ := attempt (syscall (fs_remove temp)) in
      throw e
  | Panic => panic
  end.

(** [serde_json::to_vec_pretty], of a third-party crate, and the line end. *)
Definition write_json {A : Type} (to_vec_pretty : A -> option (list Z)) (path : name) (value : A) : st world error WriteOutcome :=
  let! bytes := liftr (ok_or (to_vec_pretty value) (Io OtherKind)) in
  write_bytes path (bytes ++ [10]).

(** ** What the disk holds *)

(** The entry of a directory leads to these synced bytes, or there is none. *)
Definition entry (m : gmap name Z) (n : name) (o : option (list Z)) (d : fs) : Prop :=
  match o with
  | Some bs => exists i, m !! n = Some i /\ inode_of d i = mk_inode bs bs true
  | None => m !! n = None
  end.

(** Readers see [now]; a power failure leaves [now] or [old]. *)
Definition holds (n : name) (now old : option (list Z)) (d : fs) : Prop :=
  entry (dir d) n now d /\ entry (dir_syn d) n old d.

Lemma entry_crash n o d d' m : crash d d' -> dir d' !! n = m !! n -> entry m n o d -> entry (dir d') n o d'.
Proof.
  intros Hc E. destruct o as [bs|]; cbn; rewrite E; [|done]. intros (i & Ei & Hi). exists i. split; [done|].
  by apply (crash_inode_eq d).
Qed.

Lemma holds_crash n now old d d' : holds n now old d -> crash d d' -> holds n now now d' \/ holds n old old d'.
Proof.
  intros [Hn Ho] Hc. unfold holds. rewrite (crash_synced d d' Hc). destruct (crash_dir d d' Hc n) as [E|E]; [left|right].
  - pose proof (entry_crash n now d d' _ Hc E Hn). done.
  - pose proof (entry_crash n old d d' _ Hc E Ho). done.
Qed.

Lemma keeps_holds n now old d d' : sane d -> keeps n d d' -> holds n now old d -> holds n now old d'.
Proof.
  intros Hs [K1 K2 K3 K4 K5] [Hn Ho]. split; unfold entry in *; rewrite ?K1, ?K2.
  - destruct now as [bs|]; [|done]. destruct Hn as (i & Ei & Hi). exists i. split; [done|]. rewrite K3; [done|]. apply (Hs n). by left.
  - destruct old as [bs|]; [|done]. destruct Ho as (i & Ei & Hi). exists i. split; [done|]. rewrite K3; [done|]. apply (Hs n). by right.
Qed.

(** ** Replacing *)

Definition written (n : name) (bs : list Z) (old : option (list Z)) (o : WriteOutcome) (d : fs) : Prop :=
  sane d /\ holds n (Some bs) (match durability_warning o with None => Some bs | Some _ => old end) d.
Definition unwritten (n : name) (now old : option (list Z)) (d : fs) : Prop := sane d /\ holds n now old d.

Lemma wp_check_target n w (Q : unit -> world -> Prop) (R : error -> world -> Prop) :
  (forall w', disk w' = disk w -> Q tt w') -> (forall e w', disk w' = disk w -> R e w') -> wp (check_target n) Q R w.
Proof.
  intros HQ HR. unfold check_target. apply wp_bind, wp_attempt, wp_syscall.
  - intros k w' Hk E. destruct k; try (by apply wp_throw, HR). done.
  - unfold fs_stat. destruct (dir (disk w) !! n) as [i|]; intros w' E; [|by apply wp_ret, HQ].
    destruct (regular _); [by apply wp_ret, HQ|by apply wp_throw, HR].
Qed.

(** The failed replacement and its clean-up. *)
Lemma wp_clean_up {A} n temp now old d e w (Q : A -> world -> Prop) : sane d -> holds n now old d -> keeps n d (disk w) -> temp <> n ->
  wp (let! _ := attempt (syscall (fs_remove temp)) in throw e) Q (fun _ w' => unwritten n now old (disk w')) w.
Proof.
  intros Hs Hh Hk Hne. assert (forall d', keeps n d d' -> unwritten n now old d') as Hd.
  { intros d' Hk'. split; [by apply (keeps_sane n d)|]. by apply (keeps_holds n now old d). }
  apply wp_bind, wp_attempt, wp_syscall.
  - intros k w' _ E. apply wp_throw, Hd. by rewrite E.
  - unfold fs_remove. destruct (dir (disk w) !! temp); intros w' E; apply wp_throw, Hd; rewrite E; [|done]. by apply keeps_remove.
Qed.

Lemma wp_write_bytes n bs now old w : (forall drawn, temporary drawn <> n) -> sane (disk w) -> holds n now old (disk w) ->
  wp (write_bytes n bs) (fun o w' => written n bs old o (disk w')) (fun _ w' => unwritten n now old (disk w')) w.
Proof.
  intros Hne Hs Hh. unfold write_bytes. apply wp_bind, wp_check_target; [|by intros e w' ->]. intros w1 E1.
  apply wp_bind, wp_random_u128. intros r w2 E2. rewrite E1 in E2. specialize (Hne r). set (temp := temporary r) in *. clearbody temp.
  apply wp_bind, wp_syscall. { intros k w3 _ E3. by rewrite E3, E2. }
  unfold fs_create_new. rewrite E2. destruct (dir (disk w) !! temp) eqn:Hf; [by intros w3 ->|]. intros w3 E3.
  pose proof (keeps_create n temp (disk w) Hs Hne Hf) as (Hk & _ & Ht & Hi). cbn [FileSystem.new_file fst snd] in *. 
  set (d1 := mk_fs _ _ _ _) in *. set (i := next_ino (disk w)) in *.
  assert (inode_of d1 i = empty_inode) as Ei by (unfold inode_of; cbn; by rewrite lookup_insert_eq).
  assert (forall nd, keeps n (disk w) (set_inode i nd d1)) as Hkeep by (intros nd; apply keeps_set_inode; [done|lia]).
  apply wp_bind, wp_attempt, wp_bind, wp_sys_write.
  { intros k m w4 _ E4. apply (wp_clean_up n temp now old (disk w)); try done. rewrite E4, E3. apply Hkeep. }
  intros w4 E4. apply wp_bind, wp_syscall.
  { intros k w5 _ E5. apply (wp_clean_up n temp now old (disk w)); try done. rewrite E5, E4, E3. apply Hkeep. }
  cbn [fs_sync]. intros w5 E5.
  assert (disk w5 = set_inode i (mk_inode bs bs true) d1) as Ew.
  { rewrite E5, E4, E3. unfold write_content, set_content, content, set_inode, inode_of in *. cbn.
    rewrite lookup_insert_eq. cbn. rewrite !insert_insert_eq. cbn. unfold splice. cbn. rewrite lookup_insert_eq. cbn. by rewrite drop_nil, app_nil_r. }
  apply wp_syscall. { intros k w6 _ E6. apply (wp_clean_up n temp now old (disk w)); try done. rewrite E6, Ew. apply Hkeep. }
  unfold fs_rename. rewrite Ew. cbn [dir set_inode]. rewrite Ht. intros w6 E6.
  destruct (Hkeep (mk_inode bs bs true)) as [K1 K2 K3 K4 K5].
  assert (sane (disk w6)) as Hs6.
  { rewrite E6. intros m j [Hj|Hj]; cbn in *; [|by apply (K4 m); right].
    apply lookup_insert_Some in Hj as [[_ <-]|[_ Hj]]; [apply (K4 temp); by left|].
    apply lookup_delete_Some in Hj as [_ Hj]. apply (K4 m). by left. }
  assert (entry (dir (disk w6)) n (Some bs) (disk w6)) as Hnow.
  { exists i. rewrite E6. cbn. rewrite lookup_insert_eq. split; [done|]. unfold inode_of. cbn. by rewrite lookup_insert_eq. }
  assert (entry (dir_syn (disk w6)) n old (disk w6)) as Hold.
  { destruct (keeps_holds n now old (disk w) _ Hs (Hkeep (mk_inode bs bs true)) Hh) as [_ Ho]. rewrite E6.
    destruct old as [o|]; [|done]. destruct Ho as (j & Ej & Hj). exists j. split; [done|]. exact Hj. }
  apply wp_bind, wp_attempt, wp_syscall.
  - intros k w7 _ E7. apply wp_ret. split; rewrite E7; [done|]. by split.
  - cbn [fs_sync_dir]. intros w7 E7. apply wp_ret. split; rewrite E7.
    + intros m j Hj. cbn in *. apply (Hs6 m). naive_solver.
    + destruct Hnow as (j & Ej & Hj). split; exists j; by split.
Qed.

(** The name of a configuration is not a temporary one. *)
Lemma config_not_temporary drawn : temporary drawn <> lit "node.json".
Proof. unfold temporary. cbn. by intros [= ?]. Qed.
End AtomicFile.
