(* ===== verification/Identity.v ===== *)
(** * Node identity (src/identity.rs)

    Keys, node identifiers, signatures, and the key file.  Ed25519
    ([ed25519_dalek]) and [hex] are third-party crates: they are the parameters
    [Ed25519] and [HexDecode].  A [SigningKey] is its seed, a [VerifyingKey] its
    compressed 32 bytes, a [Signature] its bytes.  The key file lives in one
    directory of the file system of FileSystem.v, which exists. *)
From Stdlib Require Import ZArith Lia.
From stdpp Require Import prelude gmap strings.
From S2P Require Import Prelude Manifest Postcard Message State FileSystem.

#[local] Open Scope Z_scope.

(** What the code calls of [ed25519_dalek]. *)
Class Ed25519 : Type := {
  verifying_key : list Z -> list Z;
  key_parses : list Z -> bool;
  key_is_weak : list Z -> bool;
  sign_with : list Z -> list Z -> list Z;
  signature_parses : list Z -> bool;
  verifies : list Z -> list Z -> list Z -> bool;
  verifies_strict : list Z -> list Z -> list Z -> bool;
}.

(** Documented: the key of a seed is a valid encoding of 32 bytes, a signature
    has 64 bytes and verifies, [verify_strict] accepts less than [verify]. *)
Class Ed25519Laws `{Ed25519} : Prop := {
  verifying_key_parses : forall seed, key_parses (verifying_key seed) = true;
  verifying_key_len : forall seed, length (verifying_key seed) = 32%nat;
  sign_len : forall seed msg, length (sign_with seed msg) = 64%nat;
  signature_parses_len : forall sig, signature_parses sig = true <-> length sig = 64%nat;
  sign_verifies : forall seed msg,
    verifies (verifying_key seed) msg (sign_with seed msg) = true;
  strict_verifies : forall key msg sig,
    verifies_strict key msg sig = true -> verifies key msg sig = true;
}.

(** [hex::decode]. *)
Class HexDecode : Type := hex_decode : list Z -> option (list Z).

(** Documented: decoding inverts encoding; the digits are two per byte, none of
    them a space. *)
Class HexLaws `{Hex} `{HexDecode} : Prop := {
  hex_decode_encode : forall bs, are_bytes bs -> hex_decode (hex_encode bs) = Some bs;
  hex_encode_len : forall bs, length (hex_encode bs) = (2 * length bs)%nat;
  hex_encode_plain : forall bs, Forall (fun c => is_whitespace c = false) (hex_encode bs);
}.

Module Identity.

Definition PUBLIC_KEY_LEN : nat := 32.
Definition NODE_ID_LEN : nat := 16.
Definition SECRET_KEY_LEN : nat := 32.

(** ** Node identifiers *)

Definition from_public_key `{Blake3} (public_key : list Z) : NodeId :=
  take NODE_ID_LEN (blake3_hash public_key).

Definition as_bytes (id : NodeId) : list Z := id.

Definition id_to_hex `{Hex} (id : NodeId) : list Z := hex_encode id.

(** [&text[..8]]: panics when the text is shorter. *)
Definition short `{Hex} (id : NodeId) : result (list Z) :=
  let text := id_to_hex id in
  if (length text <? 8)%nat then Panic else Ok (take 8 text).

Definition from_hex `{HexDecode} (text : list Z) : result NodeId :=
  match hex_decode text with
  | None => Err (Prelude.Identity "not hexadecimal")
  | Some raw =>
      if bool_decide (length raw = NODE_ID_LEN) then Ok raw
      else Err (Prelude.Identity "wrong length of a node id")
  end.

Definition from_str `{HexDecode} (text : list Z) : result NodeId := from_hex (trim text).

(** ** Keys and signatures *)

Record Identity : Type := mk_identity { signing_key : list Z }.

Definition from_secret_bytes (seed : list Z) : Identity := mk_identity seed.
Definition secret_bytes (i : Identity) : list Z := signing_key i.

Section Crypto.
Context `{Blake3} {ed : Ed25519}.

Definition public_key (i : Identity) : list Z := verifying_key (signing_key i).
Definition public_key_bytes (i : Identity) : list Z := public_key i.
Definition node_id (i : Identity) : NodeId := from_public_key (public_key i).
Definition sign (i : Identity) (message : list Z) : list Z := sign_with (signing_key i) message.

Definition verify_signature (key message signature : list Z) : result unit :=
  fail_if (negb (verifies key message signature)) (Prelude.Identity "signature check failed").

Definition verify (i : Identity) (message signature : list Z) : result unit :=
  verify_signature (public_key i) message signature.

Definition public_key_from_bytes (bytes : list Z) : result (list Z) :=
  if key_parses bytes then Ok bytes else Err (Prelude.Identity "bad public key").

Definition signature_from_bytes (bytes : list Z) : result (list Z) :=
  if signature_parses bytes then Ok bytes else Err (Prelude.Identity "bad signature").

End Crypto.

(** ** The key file *)

(** [rand::random::<[u8; 32]>()], drawn from the world's generator. *)
Definition random_seed : st world error (list Z) :=
  let! r := random_u128 in ret (le_bytes 32 r).

Definition generate : st world error Identity :=
  let! seed := random_seed in ret (from_secret_bytes seed).

Definition temp_key_path (path : name) (nonce : Z) : name :=
  lit "." ++ path ++ lit "." ++ decimal nonce ++ lit ".tmp".

(** The attempts of [write_key_temp]: an occupied temporary name is skipped. *)
Fixpoint write_key_temp_loop (attempts : nat) (path : name) (secret : list Z) :
    st world error name :=
  match attempts with
  | O => throw (Prelude.Identity "no unique temporary key file")
  | S attempts' =>
      let! nonce := random_u128 in
      let temp := temp_key_path path nonce in
      let! opened := attempt (syscall (fs_create_new temp)) in
      match opened with
      | Err (Io AlreadyExists) => write_key_temp_loop attempts' path secret
      | Err e => throw e
      | Panic => panic
      | Ok file =>
          let! result := attempt (let! _ := sys_write file 0 secret in syscall (fs_sync file)) in
          match result with
          | Ok _ => ret temp
          | Err e =>
              let! _ := attempt (syscall (fs_remove temp)) in
              throw e
          | Panic => panic
          end
      end
  end.

Definition write_key_temp (path : name) (secret : list Z) : st world error name :=
  write_key_temp_loop 32 path secret.

Definition publish_key_no_replace (temp target : name) : st world error bool :=
  let! linked := attempt (syscall (fs_link temp target)) in
  match linked with
  | Ok _ =>
      let! _ := syscall (fs_remove temp) in
      let! _ := syscall fs_sync_dir in
      ret true
  | Err (Io AlreadyExists) =>
      let! _ := syscall (fs_remove temp) in
      ret false
  | Err err =>
      let! meta := attempt (syscall (fs_stat target)) in
      match meta with
      | Ok _ =>
          let! _ := syscall (fs_remove temp) in
          ret false
      | Err (Io NotFound) =>
          let! _ := attempt (syscall (fs_remove temp)) in
          throw err
      | Err metadata_err =>
          let! _ := attempt (syscall (fs_remove temp)) in
          throw metadata_err
      | Panic => panic
      end
  | Panic => panic
  end.

Definition reject_unsafe_key_target (path : name) : st world error unit :=
  let! reg := syscall (fs_stat path) in
  if reg then ret tt else throw (Prelude.Identity "not a regular key file").

Definition load (path : name) : st world error Identity :=
  let! _ := reject_unsafe_key_target path in
  let! raw := syscall (fs_read_file path) in
  if bool_decide (length raw = SECRET_KEY_LEN) then ret (from_secret_bytes raw)
  else throw (Prelude.Identity "wrong length of a key file").

Definition load_or_create (path : name) : st world error Identity :=
  let! loaded := attempt (load path) in
  match loaded with
  | Ok identity => ret identity
  | Err (Io NotFound) =>
      let! identity := generate in
      let! temp := write_key_temp path (secret_bytes identity) in
      let! published := publish_key_no_replace temp path in
      if published then ret identity else load path
  | Err err => throw err
  | Panic => panic
  end.

Definition save (path : name) (identity : Identity) : st world error unit :=
  let! temp := write_key_temp path (secret_bytes identity) in
  let! published := publish_key_no_replace temp path in
  if published then ret tt else throw (Prelude.Identity "key file exists").

(** ** Facts *)

Lemma verify_own_signature `{Blake3} `{Ed25519Laws} i msg : verify i msg (sign i msg) = Ok tt.
Proof. unfold verify, verify_signature, sign, public_key. by rewrite sign_verifies. Qed.

(** The text form of an identifier parses back, also with surrounding spaces. *)
Lemma trim_start_plain s : Forall (fun c => is_whitespace c = false) s ->
  trim_start is_whitespace s = s.
Proof. intros Hs. destruct Hs as [|c s Hc]; [done|]. cbn. by rewrite Hc. Qed.

Lemma trim_plain s : Forall (fun c => is_whitespace c = false) s -> trim s = s.
Proof.
  intros Hs. unfold trim, trim_matches. rewrite (trim_start_plain s) by done.
  rewrite trim_start_plain by (by apply Forall_rev). apply rev_involutive.
Qed.

Lemma from_str_to_hex `{HexLaws} id : length id = NODE_ID_LEN -> are_bytes id ->
  from_str (id_to_hex id) = Ok id.
Proof.
  intros Hl Hb. unfold from_str, id_to_hex, from_hex.
  rewrite trim_plain by apply hex_encode_plain.
  by rewrite hex_decode_encode, bool_decide_true.
Qed.

(** *** What the key file operations do to the disk *)

(** From [k], at most one file was made, under a temporary name or under
    [path]; under [path] it is complete and synced. *)
Record keyed (path : name) (secret : list Z) (k k' : fs) : Prop := {
  keyed_inodes : k' = k \/
    exists nd, inodes k' = <[next_ino k := nd]> (inodes k) /\ next_ino k' = next_ino k + 1;
  keyed_others : forall n i, dir k !! n = Some i -> dir k' !! n = Some i;
  keyed_path : dir k' !! path = dir k !! path \/
    (dir k !! path = None /\ dir k' !! path = Some (next_ino k) /\
     inode_of k' (next_ino k) = mk_inode secret secret true);
  keyed_syn : dir_syn k' = dir_syn k \/ dir_syn k' = dir k';
}.

Definition stored (path : name) (secret : list Z) (k : fs) : Prop :=
  exists i, dir k !! path = Some i /\ inode_of k i = mk_inode secret secret true.

Lemma keyed_refl path secret k : keyed path secret k k.
Proof. split; auto. Qed.

Lemma temp_key_path_ne path r : temp_key_path path r <> path.
Proof.
  intros E. apply (f_equal length) in E. unfold temp_key_path in E.
  rewrite !length_app in E. change (length (lit ".")) with 1%nat in E. lia.
Qed.

(** A file under a temporary name, still empty, partial or complete. *)
Definition with_temp (temp : name) (nd : inode) (k : fs) : fs :=
  mk_fs (<[next_ino k := nd]> (inodes k)) (<[temp := next_ino k]> (dir k)) (dir_syn k)
    (next_ino k + 1).

Definition dir_kept (path temp : name) (k : fs) (m : gmap name Z) : Prop :=
  m = <[temp := next_ino k]> (dir k) \/ m = dir k.

Lemma keyed_temp path temp secret nd k k' : temp <> path -> dir k !! temp = None ->
  inodes k' = <[next_ino k := nd]> (inodes k) -> next_ino k' = next_ino k + 1 ->
  dir_kept path temp k (dir k') -> dir_syn k' = dir_syn k -> keyed path secret k k'.
Proof.
  intros Hne Hfree Hi Hn Hd Hs. split; [right; by exists nd| | |by left].
  - intros n i E. destruct Hd as [-> | ->]; [|done].
    rewrite lookup_insert_ne; [done|]. intros <-. congruence.
  - left. destruct Hd as [-> | ->]; [|done]. by rewrite lookup_insert_ne.
Qed.

Lemma with_temp_write temp nd off data k : exists nd',
  write_content (next_ino k) off data (with_temp temp nd k) = with_temp temp nd' k.
Proof.
  eexists. unfold write_content, set_content, set_inode, with_temp. cbn. by rewrite insert_insert_eq.
Qed.

Lemma with_temp_keyed path temp secret nd k : temp <> path -> dir k !! temp = None ->
  keyed path secret k (with_temp temp nd k).
Proof. intros Hne Hf. eapply (keyed_temp path temp); try done. by left. Qed.

Lemma with_temp_removed path temp secret nd k k' : temp <> path -> dir k !! temp = None ->
  k' = set_dir (delete temp (<[temp := next_ino k]> (dir k))) (with_temp temp nd k) ->
  keyed path secret k k'.
Proof.
  intros Hne Hf ->. eapply (keyed_temp path temp); try done. right. cbn.
  by rewrite delete_insert_id.
Qed.

Lemma wp_remove n (Q : unit -> world -> Prop) (R : error -> world -> Prop) w :
  is_Some (dir (disk w) !! n) ->
  (forall e w', disk w' = disk w -> R e w') ->
  (forall w', disk w' = set_dir (delete n (dir (disk w))) (disk w) -> Q tt w') ->
  wp (syscall (fs_remove n)) Q R w.
Proof.
  intros [i Hi] HR HQ. apply wp_syscall; [intros; by apply HR|].
  unfold fs_remove. rewrite Hi. exact HQ.
Qed.

Lemma wp_write_key_temp attempts path secret w :
  wp (write_key_temp_loop attempts path secret)
    (fun temp w' => temp <> path /\ dir (disk w) !! temp = None /\
       disk w' = with_temp temp (mk_inode secret secret true) (disk w))
    (fun e w' => e <> Io NotFound /\ keyed path secret (disk w) (disk w')) w.
Proof.
  revert w. induction attempts as [|attempts IH]; intros w; cbn [write_key_temp_loop].
  { apply wp_throw. split; [done|apply keyed_refl]. }
  apply wp_bind, wp_random_u128. intros nonce w1 E1. set (temp := temp_key_path path nonce).
  assert (temp <> path) as Hne by apply temp_key_path_ne. rewrite <- E1. clearbody temp. clear E1 w.
  apply wp_bind, wp_attempt, wp_syscall.
  { intros e w2 He E2. rewrite <- E2. destruct e; try done; apply wp_throw;
      (split; [done|rewrite E2; apply keyed_refl]). }
  unfold fs_create_new. destruct (dir (disk w1) !! temp) eqn:Hfree.
  { intros w2 E2. rewrite <- E2. apply IH. }
  intros w2 E2. change (snd (new_file temp (disk w1))) with (with_temp temp empty_inode (disk w1)) in E2.
  cbn [fst new_file]. set (k := disk w1) in *. clearbody k.
  assert (forall e w', genuine e = true -> (exists nd, disk w' = with_temp temp nd k) ->
    wp (let! _ := attempt (syscall (fs_remove temp)) in throw (Io e))
      (fun t w' => t <> path /\ dir k !! t = None /\
         disk w' = with_temp t (mk_inode secret secret true) k)
      (fun e w' => e <> Io NotFound /\ keyed path secret k (disk w')) w') as Hcleanup.
  { intros e w' He [nd Ek]. apply wp_bind, wp_attempt, wp_remove.
    - rewrite Ek. cbn. rewrite lookup_insert_eq. by eexists.
    - intros _ w'' E''. apply wp_throw. split; [by intros [= ->]|]. rewrite E'', Ek.
      by apply with_temp_keyed.
    - intros w'' E''. apply wp_throw. split; [by intros [= ->]|]. rewrite Ek in E''.
      by eapply with_temp_removed. }
  apply wp_bind, wp_attempt, wp_bind, wp_sys_write.
  { intros e n w3 He E3. apply Hcleanup; [done|]. rewrite E3, E2. apply with_temp_write. }
  intros w3 E3. apply wp_syscall.
  { intros e w4 He E4. apply Hcleanup; [done|]. rewrite E4, E3, E2. apply with_temp_write. }
  cbn. intros w4 E4. apply wp_ret. split; [done|]. split; [done|].
  rewrite E4, E3, E2. unfold write_content, set_content, set_inode, with_temp, content, inode_of. cbn.
  rewrite !insert_insert_eq, !lookup_insert_eq. cbn. unfold splice. cbn.
  by rewrite drop_nil, app_nil_r.
Qed.

(** The four disks [publish_key_no_replace] can leave, from a complete file
    staged under [temp]. *)
Lemma published_keyed path temp secret k k' : temp <> path -> dir k !! temp = None ->
  dir k !! path = None ->
  inodes k' = <[next_ino k := mk_inode secret secret true]> (inodes k) ->
  next_ino k' = next_ino k + 1 ->
  dir k' = <[path := next_ino k]> (<[temp := next_ino k]> (dir k)) \/
  dir k' = <[path := next_ino k]> (dir k) ->
  dir_syn k' = dir_syn k \/ dir_syn k' = dir k' -> keyed path secret k k'.
Proof.
  intros Hne Hf Hp Hi Hn Hd Hs. split; [right; by eexists| | |done].
  - intros n i E. assert (n <> path) by congruence. assert (n <> temp) by congruence.
    destruct Hd as [-> | ->]; by rewrite !lookup_insert_ne by done.
  - right. split; [done|]. split; [by destruct Hd as [-> | ->]; rewrite lookup_insert_eq|].
    unfold inode_of. by rewrite Hi, lookup_insert_eq.
Qed.

Definition publishes (path : name) (secret : list Z) (k k' : fs) : Prop :=
  keyed path secret k k' /\ dir k !! path = None /\ stored path secret k' /\ dir_syn k' = dir k'.

(** After the link. *)
Lemma wp_publish_linked path temp secret k w : temp <> path -> dir k !! temp = None ->
  dir k !! path = None ->
  disk w = set_dir (<[path := next_ino k]> (<[temp := next_ino k]> (dir k)))
             (with_temp temp (mk_inode secret secret true) k) ->
  wp (let! _ := syscall (fs_remove temp) in let! _ := syscall fs_sync_dir in ret true)
    (fun b w' => b = true /\ publishes path secret k (disk w'))
    (fun _ w' => keyed path secret k (disk w')) w.
Proof.
  intros Hne Hf Hp Ew.
  assert (delete temp (<[path := next_ino k]> (<[temp := next_ino k]> (dir k))) =
          <[path := next_ino k]> (dir k)) as Hdel.
  { by rewrite delete_insert_ne, delete_insert_id. }
  apply wp_bind, wp_remove.
  - rewrite Ew. cbn. rewrite lookup_insert_ne, lookup_insert_eq by done. by eexists.
  - intros e w' ->. rewrite Ew. eapply published_keyed; try done; by left.
  - rewrite Ew. cbn. rewrite Hdel. intros w1 E1. apply wp_bind, wp_syscall.
    + intros e w2 _ ->. rewrite E1. eapply published_keyed; try done; [by right|by left].
    + cbn. intros w2 E2. apply wp_ret. split; [done|]. rewrite E2, E1. cbn.
      split; [eapply published_keyed; try done; by right|]. split; [done|]. split; [|done].
      exists (next_ino k). cbn. unfold inode_of. cbn. by rewrite !lookup_insert_eq.
Qed.

(** Giving up after the link failed. *)
Lemma wp_publish_drop {A} (m : outcome error unit -> st world error A) path temp secret k w
    (Q : A -> world -> Prop) (R : error -> world -> Prop) :
  temp <> path -> dir k !! temp = None -> (forall r w', keyed path secret k (disk w') -> wp (m r) Q R w') ->
  disk w = with_temp temp (mk_inode secret secret true) k ->
  wp (let! r := attempt (syscall (fs_remove temp)) in m r) Q R w.
Proof.
  intros Hne Hf Hm Ew. apply wp_bind, wp_attempt, wp_remove.
  - rewrite Ew. cbn. rewrite lookup_insert_eq. by eexists.
  - intros e w' E. apply Hm. rewrite E, Ew. by apply with_temp_keyed.
  - intros w' E. apply Hm. rewrite Ew in E. by eapply with_temp_removed.
Qed.

Lemma wp_publish_false path temp secret k w : temp <> path -> dir k !! temp = None ->
  disk w = with_temp temp (mk_inode secret secret true) k ->
  wp (let! _ := syscall (fs_remove temp) in ret false)
    (fun b w' => b = false /\ keyed path secret k (disk w'))
    (fun _ w' => keyed path secret k (disk w')) w.
Proof.
  intros Hne Hf Ew. apply wp_bind, wp_remove.
  - rewrite Ew. cbn. rewrite lookup_insert_eq. by eexists.
  - intros e w' ->. rewrite Ew. by apply with_temp_keyed.
  - intros w' E. apply wp_ret. split; [done|]. rewrite Ew in E. by eapply with_temp_removed.
Qed.

Lemma wp_publish path temp secret k w : temp <> path -> dir k !! temp = None ->
  disk w = with_temp temp (mk_inode secret secret true) k ->
  wp (publish_key_no_replace temp path)
    (fun b w' => if b then publishes path secret k (disk w')
                 else keyed path secret k (disk w'))
    (fun _ w' => keyed path secret k (disk w')) w.
Proof.
  intros Hne Hf Ew. unfold publish_key_no_replace.
  assert (forall w', disk w' = with_temp temp (mk_inode secret secret true) k ->
    wp (let! _ := syscall (fs_remove temp) in ret false)
      (fun b w' => if b then publishes path secret k (disk w') else keyed path secret k (disk w'))
      (fun _ w' => keyed path secret k (disk w')) w') as Hfalse.
  { intros w' E. eapply wp_conseq; [by apply wp_publish_false| |done]. by intros b w'' [-> H]. }
  assert (forall (err : error) w', disk w' = with_temp temp (mk_inode secret secret true) k ->
    wp (let! _ := attempt (syscall (fs_remove temp)) in throw err)
      (fun (b : bool) w' => if b then publishes path secret k (disk w') else keyed path secret k (disk w'))
      (fun _ w' => keyed path secret k (disk w')) w') as Hthrow.
  { intros err w' E. refine (wp_publish_drop (fun _ => throw err) path temp secret k w' _ _ Hne Hf _ E).
    by intros r w'' Hk. }
  apply wp_bind, wp_attempt, wp_syscall.
  { intros e w1 He E1. rewrite Ew in E1.
    assert (e <> AlreadyExists) as Hae by (by intros ->).
    destruct e; try done; (apply wp_bind, wp_attempt, wp_syscall;
      [ intros e w2 He2 E2; rewrite E1 in E2; destruct e; try done; by apply Hthrow
      | unfold fs_stat; destruct (dir (disk w1) !! path);
        intros w2 E2; rewrite E1 in E2; [by apply Hfalse|by apply Hthrow] ]). }
  unfold fs_link. rewrite Ew. cbn [dir with_temp]. rewrite lookup_insert_eq, lookup_insert_ne by done.
  destruct (dir k !! path) as [i|] eqn:Hp.
  - intros w1 E1. by apply Hfalse.
  - intros w1 E1. eapply wp_conseq; [by apply (wp_publish_linked path temp secret k)| |done].
    by intros b w' [-> H].
Qed.

(** [load] only reads. *)
Lemma wp_load_key path w :
  wp (load path)
    (fun id w' => disk w' = disk w /\ length (signing_key id) = SECRET_KEY_LEN /\
       exists i, dir (disk w) !! path = Some i /\ content (disk w) i = signing_key id /\
         regular (inode_of (disk w) i) = true)
    (fun e w' => disk w' = disk w /\ (e = Io NotFound -> dir (disk w) !! path = None)) w.
Proof.
  unfold load, reject_unsafe_key_target. apply wp_bind, wp_bind, wp_syscall.
  { intros e w1 He ->. split; [done|]. by intros [= ->]. }
  unfold fs_stat. destruct (dir (disk w) !! path) as [i|] eqn:Hp; [|done].
  intros w1 E1. destruct (regular (inode_of (disk w) i)) eqn:Hr; [|by apply wp_throw].
  apply wp_ret, wp_bind, wp_syscall.
  { intros e w2 He E2. rewrite E2, E1. split; [done|]. by intros [= ->]. }
  unfold fs_read_file. rewrite E1, Hp. intros w2 E2.
  case_bool_decide; [|by apply wp_throw]. apply wp_ret. split; [done|]. split; [done|]. by exists i.
Qed.

(** The key at [path] is the one of [id]. *)
Definition key_at (path : name) (k : fs) (id : Identity) : Prop :=
  exists i, dir k !! path = Some i /\ content k i = signing_key id /\ regular (inode_of k i) = true.

Lemma stored_key_at path secret k : stored path secret k -> key_at path k (mk_identity secret).
Proof. intros (i & H1 & H2). exists i. unfold content. by rewrite H2. Qed.

Lemma wp_save_key path id w :
  wp (save path id)
    (fun _ w' => publishes path (signing_key id) (disk w) (disk w'))
    (fun _ w' => keyed path (signing_key id) (disk w) (disk w')) w.
Proof.
  unfold save, write_key_temp. apply wp_bind. eapply wp_conseq; [apply wp_write_key_temp| |by intros e w' [_ H]].
  cbn beta. intros temp w1 (Hne & Hf & E1). apply wp_bind.
  eapply wp_conseq; [by apply wp_publish| |done]. cbn beta. by intros [] w2 H.
Qed.

Lemma wp_load_or_create path w :
  wp (load_or_create path)
    (fun id w' => length (signing_key id) = SECRET_KEY_LEN /\ key_at path (disk w') id /\
       exists secret, keyed path secret (disk w) (disk w'))
    (fun _ w' => exists secret, keyed path secret (disk w) (disk w')) w.
Proof.
  unfold load_or_create. apply wp_bind, wp_attempt. eapply wp_conseq; [apply wp_load_key| |]; cbn beta.
  { intros id w1 (E1 & Hl & Hi). apply wp_ret. split; [done|]. unfold key_at. rewrite E1.
    split; [done|]. exists []. apply keyed_refl. }
  intros e w1 [E1 Hnf].
  assert (exists secret, keyed path secret (disk w) (disk w1)) as Hk.
  { exists []. rewrite E1. apply keyed_refl. }
  destruct e as [[]| | | | | | |]; try by apply wp_throw. clear Hk.
  apply wp_bind. unfold generate, random_seed. apply wp_bind, wp_bind, wp_random_u128.
  intros r w2 E2. apply wp_ret, wp_ret. cbn [from_secret_bytes secret_bytes signing_key].
  assert (length (le_bytes 32 r) = SECRET_KEY_LEN) as Hl by apply length_le_bytes.
  set (secret := le_bytes 32 r) in *. clearbody secret. rewrite <- E1, <- E2. clear E1 E2.
  apply wp_bind. eapply wp_conseq; [apply wp_write_key_temp| |intros e w' [_ H]; by exists secret].
  cbn beta. intros temp w3 (Hne & Hf & E3). apply wp_bind.
  eapply wp_conseq; [by apply wp_publish| |intros e w' H; by exists secret]. cbn beta.
  intros [] w4 H4.
  - apply wp_ret. destruct H4 as (H1 & H2 & H3 & _). split; [done|].
    split; [by apply stored_key_at|]. by exists secret.
  - eapply wp_conseq; [apply wp_load_key| |]; cbn beta.
    + intros id w5 (-> & Hl5 & Hi). split; [done|]. split; [done|]. by exists secret.
    + intros e w5 (-> & _). by exists secret.
Qed.

(** Existing entries stay, and only a new inode is written. *)
Definition preserves (k k' : fs) : Prop :=
  (forall n i, dir k !! n = Some i -> dir k' !! n = Some i) /\
  (forall i, i <> next_ino k -> inode_of k' i = inode_of k i).

Lemma keyed_preserves path secret k k' : keyed path secret k k' -> preserves k k'.
Proof.
  intros [[->|(nd & Hi & _)] Ho _ _]; split; try done. intros i Hne. unfold inode_of.
  by rewrite Hi, lookup_insert_ne.
Qed.

Lemma keyed_crash path secret k k' k2 : dir k !! path = None -> dir_syn k !! path = None ->
  keyed path secret k k' -> crash k' k2 ->
  dir k2 !! path = None \/ exists i, dir k2 !! path = Some i /\ content k2 i = secret.
Proof.
  intros H1 H2 [_ _ Hp Hs] [C1 C2 _ _].
  assert (dir k2 !! path = None \/ dir k2 !! path = dir k' !! path) as Hc.
  { destruct (C1 path) as [E|E]; [by right|]. destruct Hs as [Hs|Hs]; rewrite Hs in E;
      [left; congruence|by right]. }
  destruct Hc as [Hc|Hc]; [by left|]. destruct Hp as [Hp|(_ & Hp & Hi)]; [left; congruence|].
  right. exists (next_ino k). split; [congruence|]. specialize (C2 (next_ino k)). rewrite Hi in C2.
  apply list_eq. intros p. by destruct (C2 p).
Qed.

Lemma publishes_crash path secret k k' k2 : publishes path secret k k' -> crash k' k2 ->
  exists i, dir k2 !! path = Some i /\ content k2 i = secret.
Proof.
  intros (_ & _ & (i & Hd & Hi) & Hs) [C1 C2 _ _]. exists i. split.
  - destruct (C1 path) as [E|E]; [congruence|]. by rewrite E, Hs.
  - specialize (C2 i). rewrite Hi in C2. apply list_eq. intros p. by destruct (C2 p).
Qed.

(** ** Properties *)

(** The key file is published atomically and never replaced, whatever calls
    fail. [save] leaves every existing entry and its content alone and refuses when the
    path is taken; on a free path, a power failure at any point after it leaves
    no key or the complete key there, and after a success the complete key.
    [load_or_create] returns only a 32-byte key that is at the path in a regular
    file, so a restart gets the same identity. *)
Theorem key_file_atomic (path : name) (id : Identity) (w : world) :
  match save path id w with
  | (Ok _, w') =>
      dir (disk w) !! path = None /\
      forall k2, crash (disk w') k2 ->
        exists i, dir k2 !! path = Some i /\ content k2 i = signing_key id
  | (Err _, w') =>
      dir (disk w) !! path = None -> dir_syn (disk w) !! path = None ->
      forall k2, crash (disk w') k2 ->
        dir k2 !! path = None \/ exists i, dir k2 !! path = Some i /\ content k2 i = signing_key id
  | (Panic, _) => False
  end /\
  preserves (disk w) (disk (save path id w).2) /\
  match load_or_create path w with
  | (Ok id', w') => length (signing_key id') = SECRET_KEY_LEN /\ key_at path (disk w') id'
  | (Err _, _) => True
  | (Panic, _) => False
  end /\
  preserves (disk w) (disk (load_or_create path w).2).
Proof.
  pose proof (wp_save_key path id w) as Hs. pose proof (wp_load_or_create path w) as Hl.
  unfold wp in Hs, Hl.
  assert (preserves (disk w) (disk (load_or_create path w).2) /\
          match load_or_create path w with
          | (Ok id', w') => length (signing_key id') = SECRET_KEY_LEN /\ key_at path (disk w') id'
          | (Err _, _) => True
          | (Panic, _) => False
          end) as [Hp Hk].
  { destruct (load_or_create path w) as [[id'|e|] w2]; [| |done].
    - destruct Hl as (H1 & H2 & secret & H3). split; [by eapply keyed_preserves|done].
    - destruct Hl as (secret & H3). split; [by eapply keyed_preserves|done]. }
  destruct (save path id w) as [[[]|e|] w1]; [| |done].
  - split; [split; [apply Hs|intros k2; by apply (publishes_crash path _ (disk w))]|].
    split; [by apply (keyed_preserves path (signing_key id)), Hs|done].
  - split; [intros H1 H2 k2; by apply (keyed_crash path (signing_key id) (disk w))|].
    split; [by eapply keyed_preserves|done].
Qed.

(** An instance that satisfies the laws (not a secure one): a signature is the key
    and a checksum of nothing. *)
Definition example_key (seed : list Z) : list Z := take 32 (seed ++ repeat 0 32).
Definition example_ed25519 : Ed25519 := {|
  verifying_key := example_key;
  key_parses _ := true;
  key_is_weak _ := false;
  sign_with seed msg := example_key seed ++ repeat 0 32;
  signature_parses sig := bool_decide (length sig = 64%nat);
  verifies key _ sig := bool_decide (take 32 sig = key);
  verifies_strict key _ sig := bool_decide (take 32 sig = key);
|}.

Lemma length_example_key seed : length (example_key seed) = 32%nat.
Proof. unfold example_key. rewrite length_take, length_app, repeat_length. lia. Qed.

Lemma example_ed25519_laws : @Ed25519Laws example_ed25519.
Proof.
  split; intros; cbn.
  - done.
  - apply length_example_key.
  - by rewrite length_app, length_example_key.
  - apply bool_decide_eq_true.
  - apply bool_decide_eq_true. by rewrite take_app_length' by (by rewrite length_example_key).
  - done.
Qed.

Definition example_world : world := mk_world (mk_fs ∅ ∅ ∅ 0) [] [] [5].

Lemma key_file_atomic_witness :
  exists w', save (lit "k") (mk_identity [7]) example_world = (Ok tt, w') /\
    exists i, dir (orderly (disk w')) !! lit "k" = Some i /\ content (orderly (disk w')) i = [7].
Proof.
  destruct (key_file_atomic (lit "k") (mk_identity [7]) example_world) as [H _].
  assert (exists w', save (lit "k") (mk_identity [7]) example_world = (Ok tt, w')) as [w' E].
  { eexists. vm_compute. reflexivity. }
  rewrite E in H. exists w'. split; [exact E|].
  exact (proj2 H (orderly (disk w')) (crash_orderly (disk w'))).
Defined.

End Identity.
