(* ===== verification/Handshake.v ===== *)
(** * The application handshake (src/transport/handshake.rs)

    Both sides over a message stream of Link.v.  The nonces ([rand::random]) and
    the channel binding exported by the TLS session are arguments.  The prepared
    and the finishing phases are separate operations, as in the code, because a
    caller that races several paths checks the peer between them. *)
From Stdlib Require Import ZArith Lia.
From stdpp Require Import prelude gmap strings.
From S2P Require Import Prelude Manifest Postcard Message State Link FileSystem Identity.

#[local] Open Scope Z_scope.

Module Handshake.
Import Message Link.

Record HandshakeOutcome : Type := mk_outcome {
  peer_node_id : NodeId;
  peer_public_key : list Z;
}.

Record PreparedHandshake : Type := mk_prepared {
  prepared_outcome : HandshakeOutcome;
  prepared_signature : list Z;
}.

(** [VerifiedResponder] holds only the outcome. *)
Record VerifiedResponder : Type := mk_verified { verified_outcome : HandshakeOutcome }.

Definition check_version (version : Z) : result unit :=
  fail_if (negb (version =? PROTOCOL_VERSION)) (Protocol "incompatible protocol version").

Definition read_handshake_frame : st link error ControlMessage :=
  recv_msg "handshake timeout" "closed during the handshake".

Definition write_handshake_frame (m : ControlMessage) : st link error unit := send_msg m.

Section Crypto.
Context `{Blake3} {ed : Ed25519}.

Definition check_node_id (public_key : list Z) (claimed : NodeId) : result unit :=
  fail_if (negb (bool_decide (Identity.from_public_key public_key = claimed)))
    (Protocol "node id does not match the key").

Definition expect_ready : st link error unit :=
  let! message := read_handshake_frame in
  match message with
  | Ready => ret tt
  | AbortMsg _ => throw (Protocol "peer aborted")
  | _ => throw (Protocol "expected Ready")
  end.

Definition prepare_handshake_initiator (identity : Identity.Identity) (nonce binding : list Z) :
    st link error PreparedHandshake :=
  let! _ := write_handshake_frame
              (Hello PROTOCOL_VERSION (Identity.node_id identity)
                 (Identity.public_key_bytes identity) nonce) in
  let! reply := read_handshake_frame in
  let! accepted :=
    match reply with
    | HelloAck protocol_version node_id public_key peer_nonce echoed signature =>
        liftr
          (let? _ := check_version protocol_version in
           let? _ := fail_if (negb (bool_decide (echoed = nonce))) (Protocol "echoed nonce differs") in
           let? key := Identity.public_key_from_bytes public_key in
           let? _ := check_node_id key node_id in
           Ok (peer_nonce, key, node_id, signature))
    | AbortMsg _ => throw (Protocol "peer refused the handshake")
    | _ => throw (Protocol "unexpected handshake message")
    end in
  let '(peer_nonce, key, node_id, signature) := accepted in
  let payload := handshake_payload (Identity.public_key_bytes identity) nonce key peer_nonce binding in
  let! _ := liftr (let? sig := Identity.signature_from_bytes signature in
                   Identity.verify_signature key payload sig) in
  ret (mk_prepared (mk_outcome node_id key) (Identity.sign identity payload)).

(** [PreparedHandshake::finish]. *)
Definition finish_initiator (p : PreparedHandshake) : st link error HandshakeOutcome :=
  let! _ := write_handshake_frame (Auth (prepared_signature p)) in
  let! _ := expect_ready in
  ret (prepared_outcome p).

Definition handshake_initiator (identity : Identity.Identity) (nonce binding : list Z) :
    st link error HandshakeOutcome :=
  let! p := prepare_handshake_initiator identity nonce binding in
  finish_initiator p.

Definition prepare_handshake_responder (identity : Identity.Identity) (our_nonce binding : list Z) :
    st link error VerifiedResponder :=
  let! hello := read_handshake_frame in
  let! accepted :=
    match hello with
    | Hello protocol_version node_id public_key nonce =>
        liftr
          (let? _ := check_version protocol_version in
           let? key := Identity.public_key_from_bytes public_key in
           let? _ := check_node_id key node_id in
           Ok (nonce, key, node_id))
    | _ => throw (Protocol "expected Hello")
    end in
  let '(peer_nonce, key, node_id) := accepted in
  let payload := handshake_payload key peer_nonce (Identity.public_key_bytes identity) our_nonce binding in
  let! _ := write_handshake_frame
              (HelloAck PROTOCOL_VERSION (Identity.node_id identity)
                 (Identity.public_key_bytes identity) our_nonce peer_nonce
                 (Identity.sign identity payload)) in
  let! auth := read_handshake_frame in
  match auth with
  | Auth signature =>
      let! _ := liftr (let? sig := Identity.signature_from_bytes signature in
                       Identity.verify_signature key payload sig) in
      ret (mk_verified (mk_outcome node_id key))
  | _ => throw (Protocol "expected Auth")
  end.

(** [VerifiedResponder::finish]. *)
Definition finish_responder (v : VerifiedResponder) : st link error HandshakeOutcome :=
  let! _ := write_handshake_frame Ready in
  ret (verified_outcome v).

Definition handshake_responder (identity : Identity.Identity) (our_nonce binding : list Z) :
    st link error HandshakeOutcome :=
  let! v := prepare_handshake_responder identity our_nonce binding in
  finish_responder v.

(** ** Facts *)

(** The peer proved to hold [key], of which [id] is the identifier, by signing
    [payload] with [sig]. *)
Record authentic (o : HandshakeOutcome) (payload sig : list Z) : Prop := {
  authentic_key : key_parses (peer_public_key o) = true;
  authentic_id : peer_node_id o = Identity.from_public_key (peer_public_key o);
  authentic_sig : signature_parses sig = true /\ verifies (peer_public_key o) payload sig = true;
}.

Definition hello_of (i : Identity.Identity) (nonce : list Z) : ControlMessage :=
  Hello PROTOCOL_VERSION (Identity.node_id i) (Identity.public_key_bytes i) nonce.

Definition hello_ack_of (i : Identity.Identity) (our_nonce peer_nonce payload : list Z) :
    ControlMessage :=
  HelloAck PROTOCOL_VERSION (Identity.node_id i) (Identity.public_key_bytes i) our_nonce peer_nonce
    (Identity.sign i payload).

Lemma check_version_Ok v : check_version v = Ok tt <-> v = PROTOCOL_VERSION.
Proof. unfold check_version. rewrite fail_if_Ok, negb_false_iff. apply Z.eqb_eq. Qed.

Lemma check_node_id_Ok key id :
  check_node_id key id = Ok tt <-> id = Identity.from_public_key key.
Proof. unfold check_node_id. rewrite fail_if_Ok, negb_false_iff, bool_decide_eq_true. naive_solver. Qed.

Lemma public_key_from_bytes_Ok bs key :
  Identity.public_key_from_bytes bs = Ok key <-> key = bs /\ key_parses bs = true.
Proof. unfold Identity.public_key_from_bytes. destruct (key_parses bs); naive_solver. Qed.

Definition checked_signature (key payload signature : list Z) : result unit :=
  let? sig := Identity.signature_from_bytes signature in
  Identity.verify_signature key payload sig.

Lemma checked_signature_cases key payload signature :
  match checked_signature key payload signature with
  | Ok _ => signature_parses signature = true /\ verifies key payload signature = true
  | Err _ => True
  | Panic => False
  end.
Proof.
  unfold checked_signature, Identity.signature_from_bytes, Identity.verify_signature.
  destruct (signature_parses signature); cbn; [|done]. by destruct (verifies key payload signature).
Qed.

Definition checked_hello (version : Z) (id public_key : list Z) : result (list Z) :=
  let? _ := check_version version in
  let? key := Identity.public_key_from_bytes public_key in
  let? _ := check_node_id key id in
  Ok key.

Lemma checked_hello_cases v id pk :
  match checked_hello v id pk with
  | Ok key => v = PROTOCOL_VERSION /\ key = pk /\ key_parses pk = true /\
              id = Identity.from_public_key pk
  | Err _ => True
  | Panic => False
  end.
Proof.
  unfold checked_hello, check_version, check_node_id, Identity.public_key_from_bytes.
  destruct (Z.eqb_spec v PROTOCOL_VERSION); cbn; [|done]. destruct (key_parses pk) eqn:E; cbn; [|done].
  case_bool_decide; cbn; done.
Qed.

Lemma wp_prepare_initiator i nonce binding l :
  wp (prepare_handshake_initiator i nonce binding)
    (fun p l' => exists peer_nonce sig,
       let o := prepared_outcome p in
       let payload := handshake_payload (Identity.public_key_bytes i) nonce (peer_public_key o)
                        peer_nonce binding in
       inbox l = Got (HelloAck PROTOCOL_VERSION (peer_node_id o) (peer_public_key o) peer_nonce
                        nonce sig) :: inbox l' /\
       authentic o payload sig /\ prepared_signature p = Identity.sign i payload /\
       sent l' = sent l ++ [hello_of i nonce])
    (fun _ l' => sent l' = sent l \/ sent l' = sent l ++ [hello_of i nonce]) l.
Proof.
  unfold prepare_handshake_initiator. apply wp_bind, wp_send_hs; [|intros e l' ->; by left].
  intros l1 Hi Hs. apply wp_bind, wp_recv_hs; [|intros e l' ->; by right].
  intros m rest E. apply wp_bind.
  destruct m; try (apply wp_throw; right; exact Hs).
  apply wp_liftr.
  pose proof (checked_hello_cases protocol_version node_id public_key) as Hc.
  unfold checked_hello in Hc. destruct (check_version protocol_version) as [[]|e|]; cbn in *; [|by right|done].
  destruct (bool_decide_reflect (peer_nonce = nonce)) as [->|]; cbn; [|by right].
  destruct (Identity.public_key_from_bytes public_key) as [key|e|]; cbn in *; [|by right|done].
  destruct (check_node_id key node_id) as [[]|e|]; cbn in *; [|by right|done].
  destruct Hc as (-> & -> & Hp & Hid). apply wp_bind, wp_liftr.
  match goal with |- match ?c with _ => _ end => change c with
    (checked_signature public_key (handshake_payload (Identity.public_key_bytes i) nonce public_key nonce0 binding)
       signature) end.
  pose proof (checked_signature_cases public_key
    (handshake_payload (Identity.public_key_bytes i) nonce public_key nonce0 binding) signature) as Hsig.
  destruct (checked_signature _ _ _) as [[]|e|]; [|by right|done].
  apply wp_ret. exists nonce0, signature. cbn. rewrite <- Hi, E. split; [done|].
  split; [by split|done].
Qed.

Lemma wp_prepare_responder i our_nonce binding l :
  wp (prepare_handshake_responder i our_nonce binding)
    (fun v l' => exists peer_nonce sig,
       let o := verified_outcome v in
       let payload := handshake_payload (peer_public_key o) peer_nonce (Identity.public_key_bytes i)
                        our_nonce binding in
       inbox l = Got (Hello PROTOCOL_VERSION (peer_node_id o) (peer_public_key o) peer_nonce) ::
                 Got (Auth sig) :: inbox l' /\
       authentic o payload sig /\
       sent l' = sent l ++ [hello_ack_of i our_nonce peer_nonce payload])
    (fun _ l' => sent l' = sent l \/
       exists peer_nonce payload, sent l' = sent l ++ [hello_ack_of i our_nonce peer_nonce payload]) l.
Proof.
  unfold prepare_handshake_responder. apply wp_bind, wp_recv_hs; [|intros e l' ->; by left].
  intros m rest E. apply wp_bind. destruct m; try (apply wp_throw; by left).
  apply wp_liftr.
  pose proof (checked_hello_cases protocol_version node_id public_key) as Hc.
  unfold checked_hello in Hc. destruct (check_version protocol_version) as [[]|e|]; cbn in *; [|by left|done].
  destruct (Identity.public_key_from_bytes public_key) as [key|e|]; cbn in *; [|by left|done].
  destruct (check_node_id key node_id) as [[]|e|]; cbn in *; [|by left|done].
  destruct Hc as (-> & -> & Hp & Hid). apply wp_bind, wp_send_hs; [|intros e l' ->; by left].
  cbn. intros l1 Hi Hs. fold (hello_ack_of i our_nonce nonce
    (handshake_payload public_key nonce (Identity.public_key_bytes i) our_nonce binding)) in Hs.
  apply wp_bind, wp_recv_hs; [|intros e l' ->; rewrite Hs; right; by do 2 eexists].
  intros m rest' E'. destruct m; try (apply wp_throw; right; cbn; rewrite Hs; by do 2 eexists).
  apply wp_bind, wp_liftr.
  match goal with |- match ?c with _ => _ end => change c with
    (checked_signature public_key
       (handshake_payload public_key nonce (Identity.public_key_bytes i) our_nonce binding) signature) end.
  pose proof (checked_signature_cases public_key
    (handshake_payload public_key nonce (Identity.public_key_bytes i) our_nonce binding) signature) as Hsig.
  destruct (checked_signature _ _ _) as [[]|e|]; [|right; cbn; rewrite Hs; by do 2 eexists|done].
  apply wp_ret. exists nonce, signature. cbn. cbn in Hi. rewrite E, <- Hi, E'. split; [done|].
  split; [by split|done].
Qed.

(** What is signed is the message of this session only: the message of a session with
    another binding, or between other keys or with other nonces, is different. *)
Definition this_session_only (ka na kb nb c : list Z) : Prop :=
  Forall len32 [ka; na; kb; nb] -> forall ka' na' kb' nb' c', Forall len32 [ka'; na'; kb'; nb'] ->
  handshake_payload ka na kb nb c = handshake_payload ka' na' kb' nb' c' ->
  c = c' /\ ((ka, na) = (ka', na') /\ (kb, nb) = (kb', nb') \/ (ka, na) = (kb', nb') /\ (kb, nb) = (ka', na')).

Lemma payload_this_session ka na kb nb c : this_session_only ka na kb nb c.
Proof.
  intros Hl ka' na' kb' nb' c' Hl' E. decompose_Forall_hyps. apply payload_inj in E as [Eo ->]; [|done..]. split; [done|].
  unfold ordered in Eo. destruct (bytes_le ka kb), (bytes_le ka' kb'); injection Eo as -> -> -> ->; auto.
Qed.

Lemma wp_finish_initiator p l :
  wp (finish_initiator p)
    (fun o l' => o = prepared_outcome p /\ inbox l = Got Ready :: inbox l' /\
       sent l' = sent l ++ [Auth (prepared_signature p)])
    (fun _ _ => True) l.
Proof.
  unfold finish_initiator, expect_ready. apply wp_bind, wp_send_hs; [|done]. intros l1 Hi Hs.
  apply wp_bind, wp_bind, wp_recv_hs; [|done]. intros m rest E.
  destruct m; try by apply wp_throw. apply wp_ret, wp_ret. rewrite <- Hi, E. by cbn.
Qed.

End Crypto.

(** ** Properties *)

(** C10: Mutual authentication, whatever the peer sends. The initiator gets past
    its check only on a HelloAck that echoes its nonce, carries a key that
    derives the claimed identifier and a signature of that key over both keys,
    both nonces and this session's binding; until then it has sent nothing but
    Hello, so its own signature is not given out. The responder succeeds only
    after an Auth with such a signature, and sends Ready only then. What was
    signed is the message of this session alone: the message of a session with
    another binding (as when the handshake is relayed between two TLS sessions),
    between other keys or with other nonces is a different one. *)
Theorem handshake_authenticates `{Blake3} {ed : Ed25519} (i : Identity.Identity)
    (nonce binding : list Z) (l : link) :
  match prepare_handshake_initiator i nonce binding l with
  | (Ok p, l') => exists peer_nonce sig,
      let o := prepared_outcome p in
      let payload := handshake_payload (Identity.public_key_bytes i) nonce (peer_public_key o)
                       peer_nonce binding in
      inbox l = Got (HelloAck PROTOCOL_VERSION (peer_node_id o) (peer_public_key o) peer_nonce
                       nonce sig) :: inbox l' /\
      authentic o payload sig /\ prepared_signature p = Identity.sign i payload /\
      sent l' = sent l ++ [hello_of i nonce] /\
      this_session_only (Identity.public_key_bytes i) nonce (peer_public_key o) peer_nonce binding
  | (Err _, l') => sent l' = sent l \/ sent l' = sent l ++ [hello_of i nonce]
  | (Panic, _) => False
  end /\
  match handshake_responder i nonce binding l with
  | (Ok o, l') => exists peer_nonce sig,
      let payload := handshake_payload (peer_public_key o) peer_nonce (Identity.public_key_bytes i)
                       nonce binding in
      inbox l = Got (Hello PROTOCOL_VERSION (peer_node_id o) (peer_public_key o) peer_nonce) ::
                Got (Auth sig) :: inbox l' /\
      authentic o payload sig /\
      sent l' = sent l ++ [hello_ack_of i nonce peer_nonce payload; Ready] /\
      this_session_only (peer_public_key o) peer_nonce (Identity.public_key_bytes i) nonce binding
  | (Err _, l') => sent l' = sent l \/
      exists peer_nonce payload, sent l' = sent l ++ [hello_ack_of i nonce peer_nonce payload]
  | (Panic, _) => False
  end.
Proof.
  split.
  - pose proof (wp_prepare_initiator i nonce binding l) as Hw. unfold wp in Hw.
    destruct (prepare_handshake_initiator i nonce binding l) as [[p|e|] l']; [|done|done].
    destruct Hw as (pn & sig & H1 & H2 & H3 & H4). exists pn, sig. cbv zeta.
    split; [done|]. split; [done|]. split; [done|]. split; [done|].
    apply payload_this_session.
  - assert (wp (handshake_responder i nonce binding)
      (fun o l' => exists peer_nonce sig,
         let payload := handshake_payload (peer_public_key o) peer_nonce
                          (Identity.public_key_bytes i) nonce binding in
         inbox l = Got (Hello PROTOCOL_VERSION (peer_node_id o) (peer_public_key o) peer_nonce) ::
                   Got (Auth sig) :: inbox l' /\ authentic o payload sig /\
         sent l' = sent l ++ [hello_ack_of i nonce peer_nonce payload; Ready])
      (fun _ l' => sent l' = sent l \/
         exists peer_nonce payload, sent l' = sent l ++ [hello_ack_of i nonce peer_nonce payload]) l) as Hw.
    { unfold handshake_responder, finish_responder. apply wp_bind.
      eapply wp_conseq; [apply wp_prepare_responder| |done]. cbn beta.
      intros v l1 (pn & sig & H1 & H2 & H3). apply wp_bind, wp_send_hs.
      - intros l2 Hi Hs. apply wp_ret. exists pn, sig. rewrite Hi, Hs, H3, <- app_assoc. done.
      - intros e l2 ->. right. rewrite H3. by do 2 eexists. }
    unfold wp in Hw. destruct (handshake_responder i nonce binding l) as [[o|e|] l']; [|done|done].
    destruct Hw as (pn & sig & H1 & H2 & H3). exists pn, sig. cbv zeta.
    split; [done|]. split; [done|]. split; [done|].
    apply payload_this_session.
Qed.

(** Two honest sides on the same session, each reading exactly what the
    other writes, both complete, and each learns the other's key and
    identifier. *)
Theorem handshake_completes `{Blake3} `{Ed25519Laws} (a b : Identity.Identity)
    (na nb binding : list Z) :
  let payload := handshake_payload (Identity.public_key_bytes a) na (Identity.public_key_bytes b) nb
                   binding in
  let to_b := [hello_of a na; Auth (Identity.sign a payload)] in
  let to_a := [hello_ack_of b nb na payload; Ready] in
  handshake_initiator a na binding (mk_link (map Got to_a) [] []) =
    (Ok (mk_outcome (Identity.node_id b) (Identity.public_key b)), mk_link [] [] to_b) /\
  handshake_responder b nb binding (mk_link (map Got to_b) [] []) =
    (Ok (mk_outcome (Identity.node_id a) (Identity.public_key a)), mk_link [] [] to_a).
Proof.
  assert (forall i payload, checked_signature (Identity.public_key i) payload
            (Identity.sign i payload) = Ok tt) as Hsig.
  { intros i payload. unfold checked_signature, Identity.signature_from_bytes, Identity.sign.
    rewrite (proj2 (signature_parses_len _)) by apply sign_len. cbn.
    unfold Identity.verify_signature, Identity.public_key. by rewrite sign_verifies. }
  assert (forall i, Identity.public_key_from_bytes (Identity.public_key_bytes i) =
                    Ok (Identity.public_key i)) as Hkey.
  { intros i. unfold Identity.public_key_from_bytes, Identity.public_key_bytes, Identity.public_key.
    by rewrite verifying_key_parses. }
  assert (forall i, check_node_id (Identity.public_key i) (Identity.node_id i) = Ok tt) as Hid.
  { intros i. by apply check_node_id_Ok. }
  intros payload to_b to_a. split.
  - unfold handshake_initiator, prepare_handshake_initiator, sbind. cbn.
    unfold liftr. rewrite bool_decide_true by done. cbn. rewrite Hkey. cbn. rewrite Hid. cbn.
    pose proof (Hsig b payload) as E. unfold checked_signature in E. fold payload.
    change (handshake_payload (Identity.public_key_bytes a) na (Identity.public_key b) nb binding)
      with payload. by rewrite E.
  - unfold handshake_responder, prepare_handshake_responder, sbind. cbn.
    unfold liftr. rewrite Hkey. cbn. rewrite Hid. cbn.
    change (handshake_payload (Identity.public_key a) na (Identity.public_key_bytes b) nb binding)
      with payload. pose proof (Hsig a payload) as E. unfold checked_signature in E. by rewrite E.
Qed.

Lemma handshake_completes_witness :
  let H : Blake3 := fun x => x in let ed := Identity.example_ed25519 in
  let a := Identity.mk_identity [1] in let b := Identity.mk_identity [2] in
  exists to_a l', handshake_initiator a [3] [5] (mk_link (map Got to_a) [] []) =
    (Ok (mk_outcome (Identity.node_id b) (Identity.public_key b)), l').
Proof.
  intros H ed a b. do 2 eexists.
  apply (proj1 (@handshake_completes H ed Identity.example_ed25519_laws a b [3] [4] [5])).
Defined.

End Handshake.
