(* ===== verification/RemoteAuth.v ===== *)
(** * Remote authorization (src/node/core/remote_auth.rs, first half)

    After the TLS and key handshake, both sides of a connection settle who may
    ask the other for something: a password proof in each direction, and a
    signed trust grant.  The file holds the passwords, the stored verifier, the
    messages and their wire form, the MACs, and the exchange of one session.
    Argon2 and HMAC-SHA256 are third-party crates: the parameters [Argon2] and
    [HmacSha256].  Random bytes, the exported TLS binding and the fate of
    opening the stream are arguments. *)
From Stdlib Require Import ZArith Lia.
From stdpp Require Import prelude gmap strings.
From S2P Require Import Prelude Io Manifest Postcard Message Frame State Link Identity.

#[local] Open Scope Z_scope.

(** [Argon2::new(Argon2id, V0x13, Params::new(m, t, p, len)).hash_password_into]:
    memory in KiB, passes, lanes, output length, password, salt. *)
Class Argon2 : Type := argon2id : Z -> Z -> Z -> Z -> list Z -> list Z -> option (list Z).

(** [Hmac::<Sha256>], of the key and all updates one after the other. *)
Class HmacSha256 : Type := hmac_sha256 : list Z -> list Z -> list Z.

Module RemoteAuth.
Import Message Link.

Definition VERSION : Z := 1.
Definition MAGIC : list Z := lit "P2PA" ++ [1].
Definition CONTEXT : list Z := lit "p2p_file/desktop/remote-auth/v1".
Definition CONFIRM_CONTEXT : list Z := lit "p2p_file/desktop/remote-auth/accepted/v1".
Definition TRUSTED_CONTEXT : list Z := lit "p2p_file/desktop/trusted-device/v1".
Definition ALPHABET : list Z := lit "ABCDEFGHJKLMNPQRSTUVWXYZabcdefghijkmnopqrstuvwxyz23456789".

Definition invalid : error := Protocol "remote authorization failed or limited".

(** [random()]: the operating system's bytes, or its failure. *)
Definition random (drawn : option (list Z)) : result (list Z) :=
  ok_or drawn (Protocol "no secure random numbers").

(** ** Passwords: strings, as their bytes *)

Definition is_ascii_alphanumeric (b : Z) : bool :=
  ((48 <=? b) && (b <=? 57)) || ((65 <=? b) && (b <=? 90)) || ((97 <=? b) && (b <=? 122)).

Definition weak_passwords : list (list Z) :=
  map lit ["123456"; "111111"; "abcdef"; "password"; "000000"; "12345678"; "123456789"; "qwerty"]%string.

(** [SecretPassword::new]. *)
Definition new_password (value : list Z) : result (list Z) :=
  if negb ((6 <=? Z.of_nat (length value)) && (Z.of_nat (length value) <=? 12)) ||
     negb (forallb is_ascii_alphanumeric value) ||
     existsb (eq_ignore_ascii_case value) weak_passwords
  then Err (Protocol "password: 6 to 12 letters or digits, no common one") else Ok value.

Definition ceiling : Z := 256 - 256 mod Z.of_nat (length ALPHABET).

(** The letter a random byte stands for; bytes from the ceiling on are drawn
    again. *)
Definition letter_of (byte : Z) : option Z :=
  if byte <? ceiling then ALPHABET !! Z.to_nat (byte mod Z.of_nat (length ALPHABET)) else None.

(** The loop of [generate]; [drawn] lists what [random] will give. *)
Fixpoint generate_loop (value : list Z) (drawn : list (option Z)) : result (list Z) :=
  if (10 <=? length value)%nat then new_password value
  else
    match drawn with
    | [] => Err (Protocol "no secure random numbers")
    | None :: _ => Err (Protocol "no secure random numbers")
    | Some byte :: drawn' =>
        generate_loop (match letter_of byte with Some c => value ++ [c] | None => value end) drawn'
    end.
Definition generate (drawn : list (option Z)) : result (list Z) := generate_loop [] drawn.

(** ** The stored verifier and the challenge *)

Record RemoteVerifier : Type := mk_verifier { rv_version : Z; rv_salt : list Z; rv_key : list Z }.

Record Challenge : Type := mk_challenge { version : Z; salt : list Z; nonce : list Z }.
#[global] Instance Challenge_eq_dec : EqDecision Challenge.
Proof. solve_decision. Defined.

Inductive AuthMessage : Type :=
  | MChallenge (c : Challenge)
  | MProof (response : option (list Z))
  | MResult (accepted : bool) (confirmation : option (list Z))
  | MTrustedGrant (accepted : bool) (sequence : Z) (confirmation : list Z).
#[global] Instance AuthMessage_eq_dec : EqDecision AuthMessage.
Proof. solve_decision. Defined.

Definition validate (v : RemoteVerifier) : result unit :=
  if rv_version v =? VERSION then Ok tt else Err invalid.

Definition new_challenge (v : RemoteVerifier) (drawn : option (list Z)) : result Challenge :=
  let? _ := validate v in
  let? n := random drawn in
  Ok (mk_challenge VERSION (rv_salt v) n).

Definition derive `{Argon2} (password salt : list Z) : result (list Z) :=
  ok_or (argon2id (19 * 1024) 2 1 32 password salt) invalid.

(** [RemoteVerifier::create]. *)
Definition create `{Argon2} (password : list Z) (drawn : option (list Z)) : result RemoteVerifier :=
  let? s := random drawn in
  let? k := derive password s in
  Ok (mk_verifier VERSION s k).

(** ** Wire form *)

Definition write `{Postcard AuthMessage} (w : writer) (message : AuthMessage) : result writer :=
  let? body := to_allocvec message in
  Frame.write_raw_frame_limited w (MAGIC ++ body) 1024.

(** The payload of one frame. *)
Definition parse `{Postcard AuthMessage} (bytes : list Z) : result AuthMessage :=
  if negb (starts_with bytes MAGIC) then Err invalid
  else
    match take_from_bytes (drop (length MAGIC) bytes) with
    | Ok (message, trailing) => if bool_decide (trailing = []) then Ok message else Err invalid
    | Err _ => Err invalid
    | Panic => Panic
    end.

Definition read `{Postcard AuthMessage} (r : reader) : result AuthMessage * reader :=
  let (frame, r) := Frame.read_raw_frame_limited r 1024 in
  (let? frame := frame in
   let? bytes := ok_or frame invalid in
   parse bytes, r).

(** ** MACs *)

(** All that [mac] feeds, in order. *)
Definition mac_input (challenge : Challenge) (prover verifier : NodeId) (binding context : list Z) :
    list Z :=
  context ++ le_bytes 2 (version challenge) ++ salt challenge ++ nonce challenge ++
  prover ++ verifier ++ binding.

(** What [trusted_mac] feeds: the recipient is the prover. *)
Definition trusted_input (binding : list Z) (challenge : Challenge) (grantor recipient : NodeId)
    (accepted : bool) (sequence : Z) : list Z :=
  mac_input challenge recipient grantor binding TRUSTED_CONTEXT ++
  le_bytes 8 sequence ++ [Z.b2z accepted].

Section Macs.
Context `{HmacSha256}.

Definition mac (key : list Z) (challenge : Challenge) (prover verifier : NodeId)
    (binding context : list Z) : list Z :=
  hmac_sha256 key (mac_input challenge prover verifier binding context).

Definition proof (key : list Z) (challenge : Challenge) (prover verifier : NodeId)
    (binding : list Z) : list Z := mac key challenge prover verifier binding CONTEXT.

Definition verify (key : list Z) (challenge : Challenge) (prover verifier : NodeId)
    (binding response : list Z) : bool :=
  bool_decide (mac key challenge prover verifier binding CONTEXT = response).

Definition trusted_mac (binding : list Z) (challenge : Challenge) (grantor recipient : NodeId)
    (accepted : bool) (sequence : Z) : list Z :=
  hmac_sha256 binding (trusted_input binding challenge grantor recipient accepted sequence).

End Macs.

(** ** Rights *)

Record AuthorizationGrant : Type := mk_grant { password : bool; trusted_device : bool }.
#[global] Instance AuthorizationGrant_eq_dec : EqDecision AuthorizationGrant.
Proof. solve_decision. Defined.
Definition password_grant (p : bool) : AuthorizationGrant := mk_grant p false.
Definition authorized (g : AuthorizationGrant) : bool := password g || trusted_device g.

Record RemoteAuthorization : Type := mk_rights {
  inbound : AuthorizationGrant;
  outbound : AuthorizationGrant;
}.
#[global] Instance RemoteAuthorization_eq_dec : EqDecision RemoteAuthorization.
Proof. solve_decision. Defined.
Definition inbound_authorized (r : RemoteAuthorization) : bool := authorized (inbound r).
Definition outbound_authorized (r : RemoteAuthorization) : bool := authorized (outbound r).
Definition set_trusted_in (b : bool) (r : RemoteAuthorization) : RemoteAuthorization :=
  mk_rights (mk_grant (password (inbound r)) b) (outbound r).
Definition set_trusted_out (b : bool) (r : RemoteAuthorization) : RemoteAuthorization :=
  mk_rights (inbound r) (mk_grant (password (outbound r)) b).

(** [TrustedControl]: its two stream halves are the link it runs on. *)
Record TrustedControl : Type := mk_control {
  binding : list Z;
  challenge : Challenge;
  remote : Challenge;
  local : NodeId;
  peer : NodeId;
  sent_sequence : Z;
  received_sequence : Z;
}.

Record AuthorizedSession : Type := mk_session {
  authorization : RemoteAuthorization;
  control : TrustedControl;
}.

Abbreviation auth_link := (link_of AuthMessage).

Section Exchange.
Context {argon : Argon2} {hm : HmacSha256}.

Definition send_auth (m : AuthMessage) : st auth_link error unit := send_msg m.
Definition read_auth : st auth_link error AuthMessage := recv_msg "authorization timed out" "authorization stream closed".

Definition send_grant (c : TrustedControl) (accepted : bool) : st auth_link error unit :=
  send_auth (MTrustedGrant accepted (sent_sequence c)
    (trusted_mac (binding c) (challenge c) (local c) (peer c) accepted (sent_sequence c))).

(** The check of a received grant. *)
Definition grant_valid (c : TrustedControl) (accepted : bool) (sequence expected : Z)
    (confirmation : list Z) : bool :=
  (sequence =? expected) &&
  bool_decide (trusted_mac (binding c) (remote c) (peer c) (local c) accepted sequence = confirmation).

Definition receive_grant (c : TrustedControl) (expected : Z) : st auth_link error bool :=
  let! message := read_auth in
  match message with
  | MTrustedGrant accepted sequence confirmation =>
      if negb (grant_valid c accepted sequence expected confirmation) then throw invalid
      else ret accepted
  | _ => throw invalid
  end.

(** The second half of [exchange]: the proofs, the results and the grants. *)
Definition prove_and_grant (binding : list Z) (challenge remote : Challenge)
    (outgoing : option (list Z)) (local peer : NodeId) (verifier : RemoteVerifier)
    (trusted : gset NodeId) : st auth_link error (AuthorizedSession * bool) :=
  let! _ := send_auth (MProof ((fun key => proof key remote local peer binding) <$> outgoing)) in
  let! second := read_auth in
  let! incoming := match second with MProof r => ret r | _ => throw invalid end in
  let accepted := match incoming with
                  | Some response => verify (rv_key verifier) challenge peer local binding response
                  | None => false
                  end in
  let confirmation := if accepted
                      then Some (mac (rv_key verifier) challenge peer local binding CONFIRM_CONTEXT)
                      else None in
  let! _ := send_auth (MResult accepted confirmation) in
  let! third := read_auth in
  let! answer := match third with MResult a c => ret (a, c) | _ => throw invalid end in
  let confirmed := fst answer &&
    match outgoing, snd answer with
    | Some key, Some c => bool_decide (mac key remote local peer binding CONFIRM_CONTEXT = c)
    | _, _ => false
    end in
  let trusts := bool_decide (peer ∈ trusted) in
  let c := mk_control binding challenge remote local peer 0 0 in
  let! _ := send_grant c trusts in
  let! granted := receive_grant c 0 in
  let rights := mk_rights (mk_grant accepted trusts) (mk_grant confirmed granted) in
  if inbound_authorized rights || outbound_authorized rights
  then ret (mk_session rights c, bool_decide (is_Some incoming) && negb accepted)
  else throw invalid.

(** [exchange]: [binding] and [opened] are what the connection gives, [drawn]
    the fresh nonce, [trusted] the trusted devices at the time of the
    subscription. The second result says that a proof was offered and refused. *)
Definition exchange (binding : result (list Z)) (opened : bool) (drawn : option (list Z))
    (local peer : NodeId) (verifier : RemoteVerifier) (password : option (list Z))
    (trusted : gset NodeId) : st auth_link error (AuthorizedSession * bool) :=
  let! binding := liftr binding in
  let! challenge := liftr (new_challenge verifier drawn) in
  let! _ := liftr (fail_if (negb opened) invalid) in
  let! _ := send_auth (MChallenge challenge) in
  let! first := read_auth in
  let! remote := match first with MChallenge c => ret c | _ => throw invalid end in
  let! _ := liftr (fail_if (negb (version remote =? VERSION)) invalid) in
  let! outgoing := match password with
                   | Some pw => liftr (omap Some (derive pw (salt remote)))
                   | None => ret None
                   end in
  prove_and_grant binding challenge remote outgoing local peer verifier trusted.

End Exchange.

(** ** Generated passwords *)

Lemma letter_of_In byte c : letter_of byte = Some c -> c ∈ ALPHABET.
Proof.
  unfold letter_of. destruct (_ <? _); [|done]. apply list_elem_of_lookup_2.
Qed.

Lemma alphabet_alphanumeric c : c ∈ ALPHABET -> is_ascii_alphanumeric c = true.
Proof.
  intros Hc%list_elem_of_In. revert c Hc. apply forallb_forall. vm_compute. reflexivity.
Qed.

(** Ten letters of the alphabet are always an allowed password: no common one
    has ten. *)
Lemma new_password_ten value :
  length value = 10%nat -> Forall (fun c => c ∈ ALPHABET) value -> new_password value = Ok value.
Proof.
  intros Hl Hf. unfold new_password. rewrite Hl. cbn [Z.of_nat Z.leb negb andb orb].
  assert (forallb is_ascii_alphanumeric value = true) as ->.
  { apply forallb_forall. intros c Hc. rewrite Forall_forall in Hf.
    apply alphabet_alphanumeric, Hf. by apply list_elem_of_In. }
  destruct (existsb (eq_ignore_ascii_case value) weak_passwords) eqn:E; [|done].
  exfalso. apply existsb_exists in E as (w & Hw & He). unfold eq_ignore_ascii_case in He. bool_hyps.
  apply (f_equal length) in He. rewrite !length_map, Hl in He.
  repeat destruct Hw as [<-|Hw]; done.
Qed.

Lemma generate_loop_spec value drawn :
  (length value <= 10)%nat -> Forall (fun c => c ∈ ALPHABET) value ->
  match generate_loop value drawn with
  | Ok pw => length pw = 10%nat /\ Forall (fun c => c ∈ ALPHABET) pw /\ new_password pw = Ok pw
  | Err _ => None ∈ drawn \/
      (length value + length (List.filter (fun d => match d with Some b => (b <? ceiling)%Z | None => false end) drawn) < 10)%nat
  | Panic => False
  end.
Proof.
  revert value. induction drawn as [|d drawn IH]; intros value Hl Hf; cbn [generate_loop].
  all: destruct (Nat.leb_spec 10 (length value)).
  1, 3: (assert (length value = 10%nat) as Hten by lia);
    pose proof (new_password_ten value Hten Hf) as E; by rewrite E.
  - right. cbn. lia.
  - destruct d as [byte|]; [|left; by left].
    assert (letter_of byte = None <-> (byte <? ceiling) = false) as Hc.
    { unfold letter_of. destruct (byte <? ceiling); [|done]. split; [|done]. intros Hn.
      apply lookup_ge_None in Hn. change (length ALPHABET) with 57%nat in Hn.
      pose proof (Z.mod_pos_bound byte 57). change (Z.of_nat 57) with 57 in Hn. lia. }
    destruct (letter_of byte) as [c|] eqn:E.
    + assert ((byte <? ceiling) = true) as Hb.
      { destruct (byte <? ceiling); [done|]. by destruct Hc as [_ Hc]; specialize (Hc eq_refl). }
      specialize (IH (value ++ [c])). rewrite length_app in IH. cbn [length] in IH.
      specialize (IH ltac:(lia)).
      assert (Forall (fun c => c ∈ ALPHABET) (value ++ [c])) as Hf'.
      { apply Forall_app. split; [done|]. apply Forall_singleton. by eapply letter_of_In. }
      specialize (IH Hf'). destruct (generate_loop (value ++ [c]) drawn); [done| |done].
      destruct IH as [IH|IH]; [left; by right|right]. cbn [List.filter]. rewrite Hb. cbn [length]. lia.
    + specialize (IH value Hl Hf). destruct (generate_loop value drawn); [done| |done].
      destruct IH as [IH|IH]; [left; by right|right]. cbn [List.filter]. rewrite (proj1 Hc) by done. done.
Qed.

(** ** MAC inputs *)

(** Sizes the types of the source impose. *)
Definition sized (c : Challenge) : Prop :=
  0 <= version c < 65536 /\ length (salt c) = 16%nat /\ length (nonce c) = 32%nat.
Definition id_sized (n : NodeId) : Prop := length n = 16%nat.

Lemma le_bytes_inj_auth n a b :
  0 <= a < 256 ^ Z.of_nat n -> 0 <= b < 256 ^ Z.of_nat n -> le_bytes n a = le_bytes n b -> a = b.
Proof. intros Ha Hb E. rewrite <- (le_val_le_bytes n a Ha), E. by apply le_val_le_bytes. Qed.

Lemma mac_input_inj c p v b c' p' v' b' ctx rest rest' :
  sized c -> sized c' -> Forall id_sized [p; v; p'; v'] -> length b = length b' ->
  mac_input c p v b ctx ++ rest = mac_input c' p' v' b' ctx ++ rest' ->
  c = c' /\ p = p' /\ v = v' /\ b = b' /\ rest = rest'.
Proof.
  intros (Hv & Hs & Hn) (Hv' & Hs' & Hn') Hid Hb. decompose_Forall_hyps. unfold id_sized in *.
  unfold mac_input. rewrite <- !app_assoc. intros E. apply app_inv_head in E.
  apply app_inj_1 in E as [E1 E]; [|by rewrite !length_le_bytes].
  apply app_inj_1 in E as [E2 E]; [|congruence]. apply app_inj_1 in E as [E3 E]; [|congruence].
  apply app_inj_1 in E as [E4 E]; [|congruence]. apply app_inj_1 in E as [E5 E]; [|congruence].
  apply app_inj_1 in E as [E6 E]; [|done]. apply le_bytes_inj_auth in E1; [|done..].
  destruct c, c'; cbn in *; subst. done.
Qed.

(** The three uses of a MAC. *)
Inductive mac_kind : Type :=
  | Proves
  | Confirms
  | Grants (accepted : bool) (sequence : Z).

Definition kind_input (k : mac_kind) (c : Challenge) (prover verifier : NodeId) (b : list Z) : list Z :=
  match k with
  | Proves => mac_input c prover verifier b CONTEXT
  | Confirms => mac_input c prover verifier b CONFIRM_CONTEXT
  | Grants accepted sequence => trusted_input b c verifier prover accepted sequence
  end.
Definition kind_sized (k : mac_kind) : Prop :=
  match k with Grants _ s => 0 <= s < 2 ^ 64 | _ => True end.
Definition context_of (k : mac_kind) : list Z :=
  match k with Proves => CONTEXT | Confirms => CONFIRM_CONTEXT | Grants _ _ => TRUSTED_CONTEXT end.
Definition rest_of (k : mac_kind) : list Z :=
  match k with Grants a s => le_bytes 8 s ++ [Z.b2z a] | _ => [] end.

Lemma kind_input_split k c p v b :
  kind_input k c p v b = mac_input c p v b (context_of k) ++ rest_of k.
Proof. destruct k; cbn [kind_input context_of rest_of]; by rewrite ?app_nil_r. Qed.

Lemma contexts_apart k k' r r' : context_of k ++ r = context_of k' ++ r' -> context_of k = context_of k'.
Proof.
  intros E. apply (f_equal (fun l => (nth 17 l 0, nth 29 l 0))) in E.
  destruct k, k'; try done; vm_compute in E; discriminate.
Qed.

Lemma kind_determined k k' :
  kind_sized k -> kind_sized k' -> context_of k = context_of k' -> rest_of k = rest_of k' -> k = k'.
Proof.
  intros Hk Hk' Ex Er. destruct k as [| |a s], k' as [| |a' s']; try done; cbn [rest_of] in Er.
  apply app_inj_1 in Er as [Es Ea]; [|by rewrite !length_le_bytes].
  apply le_bytes_inj_auth in Es as ->; [|done..]. by destruct a, a'.
Qed.

(** ** The exchange *)

Section Facts.
Context {argon : Argon2} {hm : HmacSha256}.

(** The rights of a finished exchange, from what came in. *)
Definition outgoing_key (password : option (list Z)) (remote : Challenge) (key : list Z) : Prop :=
  exists pw, password = Some pw /\ derive pw (salt remote) = Ok key.

Record exchanged (b : list Z) (drawn : option (list Z)) (local peer : NodeId)
    (verifier : RemoteVerifier) (password : option (list Z)) (trusted : gset NodeId)
    (s : AuthorizedSession) (refused : bool) (l l' : auth_link) : Prop := {
  ex_challenge : new_challenge verifier drawn = Ok (challenge (control s));
  ex_control : control s = mk_control b (challenge (control s)) (remote (control s)) local peer 0 0;
  ex_inbox : exists incoming answer confirmation grant,
    inbox l = [Got (MChallenge (remote (control s))); Got (MProof incoming);
               Got (MResult answer confirmation);
               Got (MTrustedGrant (trusted_device (outbound (authorization s))) 0 grant)] ++ inbox l' /\
    (RemoteAuth.password (inbound (authorization s)) = true <->
       incoming = Some (proof (rv_key verifier) (challenge (control s)) peer local b)) /\
    (RemoteAuth.password (outbound (authorization s)) = true <->
       answer = true /\ exists key, outgoing_key password (remote (control s)) key /\
         confirmation = Some (mac key (remote (control s)) local peer b CONFIRM_CONTEXT)) /\
    grant = trusted_mac b (remote (control s)) peer local
              (trusted_device (outbound (authorization s))) 0 /\
    (refused = true <-> is_Some incoming /\ RemoteAuth.password (inbound (authorization s)) = false);
  ex_trusted : trusted_device (inbound (authorization s)) = bool_decide (peer ∈ trusted);
  ex_some : inbound_authorized (authorization s) || outbound_authorized (authorization s) = true;
}.

(** What the exchange may have written: these messages, in this order. A
    positive result only after a valid proof. *)
Definition conversation (b : list Z) (c : Challenge) (local peer : NodeId) (verifier : RemoteVerifier)
    (trusted : gset NodeId) (l : auth_link) (said : list AuthMessage) : Prop :=
  exists response accepted confirmation,
    said `prefix_of` [MChallenge c; MProof response; MResult accepted confirmation;
       MTrustedGrant (bool_decide (peer ∈ trusted)) 0
         (trusted_mac b c local peer (bool_decide (peer ∈ trusted)) 0)] /\
    (accepted = true ->
       Got (MProof (Some (proof (rv_key verifier) c peer local b))) ∈ inbox l).

Definition stopped (b : list Z) (drawn : option (list Z)) (local peer : NodeId)
    (verifier : RemoteVerifier) (trusted : gset NodeId) (l l' : auth_link) : Prop :=
  exists said, sent l' = sent l ++ said /\
    (said = [] \/ exists c, new_challenge verifier drawn = Ok c /\
       conversation b c local peer verifier trusted l said).

Lemma stopped_at b drawn local peer verifier trusted l l' c n response accepted confirmation :
  new_challenge verifier drawn = Ok c ->
  sent l' = sent l ++ take n [MChallenge c; MProof response; MResult accepted confirmation;
       MTrustedGrant (bool_decide (peer ∈ trusted)) 0
         (trusted_mac b c local peer (bool_decide (peer ∈ trusted)) 0)] ->
  (accepted = true -> Got (MProof (Some (proof (rv_key verifier) c peer local b))) ∈ inbox l) ->
  stopped b drawn local peer verifier trusted l l'.
Proof.
  intros Hc Hs Ha. eexists. split; [exact Hs|]. right. exists c. split; [done|].
  exists response, accepted, confirmation. split; [|done]. eexists. symmetry. apply take_drop.
Qed.

Lemma verify_Some key c prover verifier b response :
  verify key c prover verifier b response = true <-> response = proof key c prover verifier b.
Proof. unfold verify, proof. rewrite bool_decide_eq_true. naive_solver. Qed.

(** The decision on the peer's proof. *)
Definition decide_proof (key : list Z) (c : Challenge) (peer local : NodeId) (b : list Z)
    (incoming : option (list Z)) : bool :=
  match incoming with
  | Some response => verify key c peer local b response
  | None => false
  end.

Lemma decide_proof_true key c peer local b incoming :
  decide_proof key c peer local b incoming = true <-> incoming = Some (proof key c peer local b).
Proof. destruct incoming as [r|]; cbn; [|naive_solver]. rewrite verify_Some. naive_solver. Qed.

Lemma wp_receive_grant c expected (Q : bool -> auth_link -> Prop) (R : error -> auth_link -> Prop) l :
  (forall accepted rest,
     inbox l = Got (MTrustedGrant accepted expected
                 (trusted_mac (binding c) (remote c) (peer c) (local c) accepted expected)) :: rest ->
     Q accepted (mk_link rest (fates l) (sent l))) ->
  (forall e l', sent l' = sent l -> R e l') -> wp (receive_grant c expected) Q R l.
Proof.
  intros HQ HR. unfold receive_grant. apply wp_bind, wp_recv_hs; [|done]. intros m rest E.
  destruct m; try (by apply wp_throw, HR).
  destruct (grant_valid c accepted sequence expected confirmation) eqn:Hg; cbn; [|by apply wp_throw, HR].
  unfold grant_valid in Hg. bool_hyps. subst. by apply wp_ret, HQ.
Qed.

(** A step of [exchange] fails: nothing more was written than the first [n]
    messages of the conversation. *)
Ltac stop_with k said result mark :=
  eapply stopped_at with (n := k) (response := said) (accepted := result)
    (confirmation := mark); [eassumption|cbn [take sent] in *; congruence|try done].

Lemma derive_no_panic pw s : derive pw s <> Panic.
Proof. unfold derive. by destruct (argon2id _ _ _ _ pw s). Qed.

(** What the derived key has to do with the password. *)
Definition key_of (password : option (list Z)) (remote : Challenge) (outgoing : option (list Z)) : Prop :=
  match outgoing with
  | Some key => outgoing_key password remote key
  | None => password = None
  end.

(** The flag of the outbound password right. *)
Lemma confirmed_iff b c local peer password outgoing answer confirmation :
  key_of password c outgoing ->
  answer && match outgoing, confirmation with
    | Some key, Some t => bool_decide (mac key c local peer b CONFIRM_CONTEXT = t)
    | _, _ => false
    end = true <->
  answer = true /\ exists key, outgoing_key password c key /\
    confirmation = Some (mac key c local peer b CONFIRM_CONTEXT).
Proof.
  intros Ho. rewrite andb_true_iff. destruct outgoing as [key|]; cbn in Ho.
  - split.
    + intros [-> Hm]. destruct confirmation; [|done]. bool_hyps. subst. eauto.
    + intros [-> (key' & (pw' & -> & Hk) & ->)]. split; [done|].
      destruct Ho as (pw & [= <-] & Hk'). rewrite Hk in Hk'. injection Hk' as ->.
      by apply bool_decide_eq_true.
  - subst password. split; [by intros [_ ?]|]. by intros [_ (key & (pw & ? & _) & _)].
Qed.

Lemma wp_prove_and_grant b drawn c rc outgoing local peer verifier password trusted l l1 :
  new_challenge verifier drawn = Ok c -> key_of password rc outgoing ->
  inbox l = Got (MChallenge rc) :: inbox l1 -> sent l1 = sent l ++ [MChallenge c] ->
  wp (prove_and_grant b c rc outgoing local peer verifier trusted)
    (fun r l' => exchanged b drawn local peer verifier password trusted (fst r) (snd r) l l' /\
                 stopped b drawn local peer verifier trusted l l')
    (fun _ l' => stopped b drawn local peer verifier trusted l l') l1.
Proof.
  intros Hc Ho Hi1 Hs1. unfold prove_and_grant.
  set (own := (fun key => proof key rc local peer b) <$> outgoing).
  apply wp_bind, wp_send_hs; [|intros e l' Hs; stop_with 1%nat own false (@None (list Z))].
  intros l2 Hi3 Hs2. rewrite Hs1, <- app_assoc in Hs2. cbn [app] in Hs2.
  apply wp_bind, wp_recv_hs; [|intros e l' Hs; stop_with 2%nat own false (@None (list Z))].
  intros m rest2 Hi4. apply wp_bind.
  destruct m as [?|incoming|? ?|? ? ?]; try (apply wp_throw; stop_with 2%nat own false (@None (list Z))).
  apply wp_ret. fold (decide_proof (rv_key verifier) c peer local b incoming).
  pose proof (decide_proof_true (rv_key verifier) c peer local b incoming) as Ha.
  set (accepted := decide_proof _ _ _ _ _ _) in *. set (mark := if accepted then _ else None).
  assert (inbox l = Got (MChallenge rc) :: Got (MProof incoming) :: rest2) as Hin by congruence.
  assert (accepted = true ->
          Got (MProof (Some (proof (rv_key verifier) c peer local b))) ∈ inbox l) as Hproved.
  { rewrite Ha, Hin. intros ->. right. by left. }
  apply wp_bind, wp_send_hs; [|intros e l' Hs; stop_with 2%nat own false (@None (list Z))].
  intros l3 Hi5 Hs3. cbn [sent inbox] in Hi5, Hs3. rewrite Hs2, <- app_assoc in Hs3. cbn [app] in Hs3.
  apply wp_bind, wp_recv_hs; [|intros e l' Hs; stop_with 3%nat own accepted mark].
  intros m rest3 Hi6. apply wp_bind.
  destruct m as [?|?|answer confirmation|? ? ?]; try (apply wp_throw; stop_with 3%nat own accepted mark).
  apply wp_ret. cbn [fst snd].
  pose proof (confirmed_iff b rc local peer password outgoing answer confirmation Ho) as Hconf.
  set (confirmed := answer && _) in *. apply wp_bind. unfold send_grant.
  cbn [sent_sequence binding challenge RemoteAuth.local RemoteAuth.peer].
  apply wp_send_hs; [|intros e l' Hs; stop_with 3%nat own accepted mark].
  intros l4 Hi7 Hs4. cbn [sent inbox] in Hi7, Hs4. rewrite Hs3, <- app_assoc in Hs4. cbn [app] in Hs4.
  assert (forall l', sent l' = sent l4 -> stopped b drawn local peer verifier trusted l l') as Hstop.
  { intros l' Hs. stop_with 4%nat own accepted mark. }
  apply wp_bind, wp_receive_grant; [|intros e l' Hs; by apply Hstop].
  intros granted rest4 Hi8. cbn [binding remote RemoteAuth.peer RemoteAuth.local] in Hi8.
  destruct (inbound_authorized _ || outbound_authorized _) eqn:Hany;
    [apply wp_ret; split; [|by apply Hstop]|by apply wp_throw, Hstop].
  split; cbn [fst snd control challenge remote authorization inbound outbound trusted_device
    RemoteAuth.password inbox]; try done.
  exists incoming, answer, confirmation, (trusted_mac b rc peer local granted 0).
  split; [cbn; congruence|]. split; [done|]. split; [done|]. split; [done|].
  by rewrite andb_true_iff, bool_decide_eq_true, negb_true_iff.
Qed.

Lemma wp_exchange b opened drawn local peer verifier password trusted l :
  wp (exchange (Ok b) opened drawn local peer verifier password trusted)
    (fun r l' => exchanged b drawn local peer verifier password trusted (fst r) (snd r) l l' /\
                 stopped b drawn local peer verifier trusted l l')
    (fun _ l' => stopped b drawn local peer verifier trusted l l') l.
Proof.
  assert (forall l', sent l' = sent l -> stopped b drawn local peer verifier trusted l l') as H0.
  { intros l' Hs. exists []. rewrite app_nil_r. by split; [|left]. }
  unfold exchange. apply wp_bind, wp_liftr, wp_bind, wp_liftr.
  destruct (new_challenge verifier drawn) as [c|e|] eqn:Hc; [|by apply H0|].
  2: { revert Hc. unfold new_challenge, validate, random. by destruct (_ =? _), drawn. }
  apply wp_bind, wp_liftr. destruct opened; cbn [negb fail_if]; [|by apply H0].
  apply wp_bind, wp_send_hs; [|intros e l' Hs; by apply H0].
  intros l1 Hi1 Hs1.
  apply wp_bind, wp_recv_hs; [|intros e l' Hs; stop_with 1%nat (@None (list Z)) false (@None (list Z))].
  intros m rest Hi2. apply wp_bind.
  destruct m as [rc|?|? ?|? ? ?]; try (apply wp_throw; stop_with 1%nat (@None (list Z)) false (@None (list Z))).
  apply wp_ret, wp_bind, wp_liftr.
  destruct (version rc =? VERSION); cbn [negb fail_if];
    [|stop_with 1%nat (@None (list Z)) false (@None (list Z))].
  apply wp_bind.
  apply wp_conseq with (Q := fun o l' => l' = mk_link rest (fates l1) (sent l1) /\ key_of password rc o)
    (R := fun _ l' => l' = mk_link rest (fates l1) (sent l1)).
  { unfold key_of, outgoing_key. destruct password as [pw|]; [|by apply wp_ret].
    apply wp_liftr. destruct (derive pw (salt rc)) as [key|e|] eqn:Hd; cbn; [by eauto|done|].
    by apply derive_no_panic in Hd. }
  - intros o l' [-> Ho]. apply wp_prove_and_grant; [done|done|cbn; congruence|done].
  - intros e l' ->. stop_with 1%nat (@None (list Z)) false (@None (list Z)).
Qed.

(** ** Two honest sides *)

(** Whether the password [pw], entered by [prover], fits the verifier [v] that
    issued [c]. *)
Definition entered (pw : option (list Z)) (v : RemoteVerifier) (c : Challenge)
    (prover verifier : NodeId) (b : list Z) (key : option (list Z)) (right : bool) : Prop :=
  match pw with
  | None => key = None /\ right = false
  | Some p => exists k, key = Some k /\ derive p (salt c) = Ok k /\
      if right then k = rv_key v else proof k c prover verifier b <> proof (rv_key v) c prover verifier b
  end.

(** What the side that holds [v] and issued [c] says, when its own password for
    the other side derived [key] and the other's proof is [right]. *)
Definition script (v : RemoteVerifier) (c rc : Challenge) (me other : NodeId) (b : list Z)
    (key : option (list Z)) (right trusts : bool) : list AuthMessage :=
  [MChallenge c; MProof ((fun k => proof k rc me other b) <$> key);
   MResult right (if right then Some (mac (rv_key v) c other me b CONFIRM_CONTEXT) else None);
   MTrustedGrant trusts 0 (trusted_mac b c me other trusts 0)].

Lemma decide_entered pw v c prover verifier b key right :
  entered pw v c prover verifier b key right ->
  decide_proof (rv_key v) c prover verifier b ((fun k => proof k c prover verifier b) <$> key) = right.
Proof.
  unfold entered. destruct pw as [p|]; [|by intros [-> ->]].
  intros (k & -> & _ & Hr). cbn. unfold verify. fold (proof (rv_key v) c prover verifier b).
  destruct right; [subst; by apply bool_decide_true|by apply bool_decide_false].
Qed.

Lemma key_entered pw rv rc me other b key right (s : auth_link) :
  entered pw rv rc me other b key right ->
  match pw with
  | Some p => liftr (omap Some (derive p (salt rc)))
  | None => ret None
  end s = (Ok key, s).
Proof. unfold entered. destruct pw as [p|]; [intros (k & -> & -> & _)|intros [-> _]]; done. Qed.

Lemma confirmed_entered pw rv rc me other b key right :
  entered pw rv rc me other b key right ->
  right && match key, (if right then Some (mac (rv_key rv) rc me other b CONFIRM_CONTEXT) else None) with
    | Some k, Some t => bool_decide (mac k rc me other b CONFIRM_CONTEXT = t)
    | _, _ => false
    end = right.
Proof.
  unfold entered. destruct pw as [p|]; [|by intros [-> ->]]. intros (k & -> & _ & Hr).
  destruct right; [subst; by rewrite bool_decide_true|done].
Qed.

Lemma receive_own c expected accepted rest fs said :
  receive_grant c expected
    (mk_link (Got (MTrustedGrant accepted expected
       (trusted_mac (binding c) (remote c) (peer c) (local c) accepted expected)) :: rest) fs said) =
  (Ok accepted, mk_link rest fs said).
Proof.
  unfold receive_grant. erewrite sbind_run; [|reflexivity]. cbn beta iota. unfold grant_valid.
  by rewrite Z.eqb_refl, bool_decide_true.
Qed.

(** One side of the run. *)
Lemma exchange_script pw v rv drawn c rc me other b trusted key right rkey rright rtrusts rpw :
  new_challenge v drawn = Ok c -> version rc = VERSION ->
  entered pw rv rc me other b key right -> entered rpw v c other me b rkey rright ->
  let trusts := bool_decide (other ∈ trusted) in
  let rights := mk_rights (mk_grant rright trusts) (mk_grant right rtrusts) in
  exchange (Ok b) true drawn me other v pw trusted
    (mk_link (map Got (script rv rc c other me b rkey right rtrusts)) [] []) =
  ((if inbound_authorized rights || outbound_authorized rights
    then Ok (mk_session rights (mk_control b c rc me other 0 0),
             bool_decide (is_Some rkey) && negb rright)
    else Err invalid), mk_link [] [] (script v c rc me other b key rright trusts)).
Proof.
  intros Hc Hv He Hre trusts rights.
  pose proof (decide_entered rpw v c other me b rkey rright Hre) as Hd.
  unfold exchange.
  do 1 (erewrite sbind_run; [|reflexivity]).
  erewrite sbind_run; [|unfold liftr; by rewrite Hc]. do 3 (erewrite sbind_run; [|reflexivity]).
  erewrite sbind_run; [|reflexivity]. erewrite sbind_run; [|unfold liftr; by rewrite Hv].
  erewrite sbind_run; [|by eapply key_entered]. unfold prove_and_grant.
  do 3 (erewrite sbind_run; [|reflexivity]). cbv beta iota zeta.
  fold (decide_proof (rv_key v) c other me b ((fun k => proof k c other me b) <$> rkey)). rewrite Hd.
  do 3 (erewrite sbind_run; [|reflexivity]). cbv beta iota zeta. cbn [fst snd].
  rewrite (confirmed_entered pw rv rc me other b key right He).
  erewrite sbind_run; [|reflexivity].
  erewrite sbind_run; [|cbn [receive_grant]; eapply receive_own].
  cbv beta zeta. fold trusts. fold rights.
  destruct (inbound_authorized rights || outbound_authorized rights); [|done].
  unfold ret, script. do 3 f_equal. by destruct rkey.
Qed.

End Facts.

(** ** Properties *)

(** What is fed to the MACs tells everything apart. For challenges, node ids
    and bindings of the sizes of their types, two equal inputs are of the same
    kind (proof, confirmation, or trust grant with the same decision and sequence
    number) and for the same challenge, prover, verifier and TLS binding. So a
    MAC made for one session, direction or purpose is for no other; in particular
    a side's own proof is not the one it expects. *)
Theorem mac_inputs_separate (k k' : mac_kind) (c c' : Challenge) (p v p' v' : NodeId) (b b' : list Z) :
  sized c -> sized c' -> Forall id_sized [p; v; p'; v'] -> length b = 32%nat -> length b' = 32%nat ->
  kind_sized k -> kind_sized k' ->
  kind_input k c p v b = kind_input k' c' p' v' b' ->
  k = k' /\ c = c' /\ p = p' /\ v = v' /\ b = b'.
Proof.
  intros Hc Hc' Hid Hb Hb' Hk Hk' E. rewrite !kind_input_split in E.
  assert (context_of k = context_of k') as Ex.
  { unfold mac_input in E. rewrite <- !app_assoc in E. by eapply contexts_apart. }
  rewrite Ex in E. apply mac_input_inj in E as (-> & -> & -> & -> & Er); [|done..|congruence].
  split; [|done]. by apply kind_determined.
Qed.

Lemma mac_inputs_separate_witness :
  let c := mk_challenge 1 (repeat 7 16) (repeat 8 32) in
  let a := repeat 1 16 in let d := repeat 2 16 in let b := repeat 3 32 in
  kind_input (Grants true 5) c a d b = kind_input (Grants true 5) c a d b /\ b = b.
Proof.
  intros c a d b. split; [done|].
  destruct (mac_inputs_separate (Grants true 5) (Grants true 5) c c a d a d b b)
    as (_ & _ & _ & _ & H); [..|exact H].
  all: first [done | repeat split; done | repeat constructor].
Defined.

(** Generated passwords. Given random bytes, [generate] returns a password
    that [new] accepts: ten letters of the alphabet (so never one of the common
    ones). It fails only when the source fails or gives fewer than ten bytes
    below the ceiling. The letters are equally likely: each comes from exactly
    four of the 256 byte values. *)
Theorem generated_password (drawn : list (option Z)) :
  match generate drawn with
  | Ok pw => length pw = 10%nat /\ Forall (fun c => c ∈ ALPHABET) pw /\ new_password pw = Ok pw
  | Err _ => None ∈ drawn \/
      (length (List.filter (fun d => match d with Some b => (b <? ceiling)%Z | None => false end) drawn) < 10)%nat
  | Panic => False
  end /\
  Forall (fun c => length (List.filter (fun b => bool_decide (letter_of b = Some c)) (seqZ 0 256)) = 4%nat)
    ALPHABET.
Proof.
  split.
  - apply (generate_loop_spec [] drawn); [cbn; lia|constructor].
  - apply Forall_forall. intros c Hc%list_elem_of_In. apply Nat.eqb_eq. revert c Hc.
    apply (forallb_forall (fun c => Nat.eqb (length (List.filter (fun b => bool_decide (letter_of b = Some c))
      (seqZ 0 256))) 4)). vm_compute. reflexivity.
Qed.

(** Rights are exactly what was proved, whatever the peer sends. A finished
    exchange has read the peer's challenge, proof, result and grant: the peer
    may ask this side by password iff it answered this side's fresh challenge
    with the MAC under the stored key; this side may ask the peer by password
    iff the peer said so and confirmed it with the MAC under the key derived from
    the password entered (a bare positive result never counts); the peer's trust
    counts only with its MAC under the TLS binding and sequence 0. A positive
    result, and the key's confirmation, is written only after a valid proof.
    The exchange never panics. *)
Theorem exchange_rights `{Argon2} `{HmacSha256} (b : list Z) (opened : bool) (drawn : option (list Z))
    (local peer : NodeId) (verifier : RemoteVerifier) (password : option (list Z))
    (trusted : gset NodeId) (l : auth_link) :
  match exchange (Ok b) opened drawn local peer verifier password trusted l with
  | (Ok (s, refused), l') =>
      exchanged b drawn local peer verifier password trusted s refused l l' /\
      stopped b drawn local peer verifier trusted l l'
  | (Err _, l') => stopped b drawn local peer verifier trusted l l'
  | (Panic, _) => False
  end.
Proof.
  pose proof (wp_exchange b opened drawn local peer verifier password trusted l) as Hw.
  unfold wp in Hw. by destruct (exchange _ _ _ _ _ _ _ _ l) as [[[s refused]|e|] l'].
Qed.

(** Two honest sides agree. When each reads exactly what the other writes,
    both finish (or, when nobody has any right, both refuse) and the rights of
    one side are the mirror of the other's: a side may ask by password exactly
    when the password it entered is the one the other's verifier was made
    from. *)
Theorem honest_exchange `{Argon2} `{HmacSha256} (b : list Z) (id_a id_b : NodeId)
    (va vb : RemoteVerifier) (na nb : list Z) (pa pb ka kb : option (list Z)) (right_a right_b : bool)
    (ta tb : gset NodeId) :
  let ca := mk_challenge VERSION (rv_salt va) na in
  let cb := mk_challenge VERSION (rv_salt vb) nb in
  let trusts_a := bool_decide (id_b ∈ ta) in
  let trusts_b := bool_decide (id_a ∈ tb) in
  rv_version va = VERSION -> rv_version vb = VERSION ->
  entered pa vb cb id_a id_b b ka right_a -> entered pb va ca id_b id_a b kb right_b ->
  let said_a := script va ca cb id_a id_b b ka right_b trusts_a in
  let said_b := script vb cb ca id_b id_a b kb right_a trusts_b in
  let rights := mk_rights (mk_grant right_b trusts_a) (mk_grant right_a trusts_b) in
  let mirrored := mk_rights (outbound rights) (inbound rights) in
  let some := right_a || right_b || trusts_a || trusts_b in
  exchange (Ok b) true (Some na) id_a id_b va pa ta (mk_link (map Got said_b) [] []) =
    (if some then Ok (mk_session rights (mk_control b ca cb id_a id_b 0 0),
                      bool_decide (is_Some kb) && negb right_b) else Err invalid,
     mk_link [] [] said_a) /\
  exchange (Ok b) true (Some nb) id_b id_a vb pb tb (mk_link (map Got said_a) [] []) =
    (if some then Ok (mk_session mirrored (mk_control b cb ca id_b id_a 0 0),
                      bool_decide (is_Some ka) && negb right_a) else Err invalid,
     mk_link [] [] said_b).
Proof.
  intros ca cb trusts_a trusts_b Hva Hvb Ha Hb said_a said_b rights mirrored some.
  assert (forall v n, rv_version v = VERSION ->
    new_challenge v (Some n) = Ok (mk_challenge VERSION (rv_salt v) n)) as Hc.
  { intros v n E. unfold new_challenge, validate. by rewrite E. }
  split.
  - pose proof (exchange_script pa va vb (Some na) ca cb id_a id_b b ta ka right_a kb right_b trusts_b pb
      (Hc va na Hva) eq_refl Ha Hb) as E. cbv zeta in E. fold trusts_a in E. fold said_b said_a rights in E.
    rewrite E. do 2 f_equal. subst some rights. unfold inbound_authorized, outbound_authorized, authorized.
    cbn. by destruct right_a, right_b, trusts_a, trusts_b.
  - pose proof (exchange_script pb vb va (Some nb) cb ca id_b id_a b tb kb right_b ka right_a trusts_a pa
      (Hc vb nb Hvb) eq_refl Hb Ha) as E. cbv zeta in E. fold trusts_b in E. fold said_b said_a mirrored in E.
    rewrite E. do 2 f_equal. subst some mirrored rights.
    unfold inbound_authorized, outbound_authorized, authorized. cbn.
    by destruct right_a, right_b, trusts_a, trusts_b.
Qed.

(** A concrete hash and key derivation. *)
Definition example_hmac : HmacSha256 := fun key msg => key ++ msg.
Definition example_argon : Argon2 := fun _ _ _ _ pw salt => Some (pw ++ salt).

Lemma honest_exchange_witness :
  let va := mk_verifier VERSION [1] (lit "secret1" ++ [1]) in
  let vb := mk_verifier VERSION [2] (lit "secret2" ++ [2]) in
  exists l l', @exchange example_argon example_hmac (Ok [9]) true (Some [3]) [5] [6] va
      (Some (lit "secret2")) ∅ l =
    (Ok (mk_session (mk_rights (mk_grant false false) (mk_grant true false))
           (mk_control [9] (mk_challenge VERSION [1] [3]) (mk_challenge VERSION [2] [4]) [5] [6] 0 0), false), l').
Proof.
  intros va vb.
  destruct (@honest_exchange example_argon example_hmac [9] [5] [6] va vb [3] [4] (Some (lit "secret2")) None
    (Some (lit "secret2" ++ [2])) None true false ∅ ∅) as [H _].
  - done.
  - done.
  - exists (lit "secret2" ++ [2]). done.
  - done.
  - cbv zeta in H. cbn [orb negb andb] in H. rewrite !bool_decide_false in H by set_solver.
    do 2 eexists. exact H.
Defined.

End RemoteAuth.
