(* ===== verification/Rights.v ===== *)
(** * Rights over the life of a session (src/node/core/remote_auth.rs, second half)

    The table of failed attempts, the authorization of one session, the control
    stream that keeps the trust grants of both sides current, and the revocation
    epochs that running requests watch.  Instants and durations are in
    milliseconds; the readings of the clock are arguments.  The watch channel of
    trusted devices is its current value. *)
From Stdlib Require Import ZArith Lia.
From stdpp Require Import prelude gmap strings.
From S2P Require Import Prelude Io Manifest Postcard Message State Link Identity RemoteAuth.

#[local] Open Scope Z_scope.

Module Rights.
Import Link RemoteAuth.

(** ** The table of failures *)

Definition MAX_FAILURE_PEERS : Z := 256.
Definition FAILURE_TTL : Z := 900000.

Record Failures : Type := mk_failures { count : Z; seen : Z; blocked_until : Z }.
#[global] Instance Failures_eq_dec : EqDecision Failures.
Proof. solve_decision. Defined.

Abbreviation FailureTable := (gmap NodeId Failures).

(** [prune] at [now]; [Instant::elapsed] does not go below zero. *)
Definition prune (now : Z) (t : FailureTable) : FailureTable :=
  filter (fun kv => (saturating_sub now (seen kv.2) <? FAILURE_TTL) = true) t.

(** [check]: [now] is the clock while pruning, [later] the reading after it. *)
Definition check (now later : Z) (peer : NodeId) (t : FailureTable) : result unit * FailureTable :=
  let t := prune now t in
  match t !! peer with
  | Some f => if later <? blocked_until f then (Err invalid, t) else (Ok tt, t)
  | None => (Ok tt, t)
  end.

(** [min_by_key(|(_, f)| f.seen)]: the first of the smallest. *)
Fixpoint oldest (l : list (NodeId * Failures)) : option (NodeId * Failures) :=
  match l with
  | [] => None
  | x :: l' =>
      match oldest l' with
      | Some y => if seen y.2 <? seen x.2 then Some y else Some x
      | None => Some x
      end
  end.

Definition delay_of (n : Z) : Z :=
  if n <=? 3 then 0 else if n <=? 9 then 500 * Z.shiftl 1 (n - 4) else 60000.

(** [failed]: the delay and the new table. *)
Definition failed (now later : Z) (peer : NodeId) (t : FailureTable) : Z * FailureTable :=
  let t := prune now t in
  let t := if bool_decide (t !! peer = None) && (MAX_FAILURE_PEERS <=? Z.of_nat (size t)) then
             match oldest (map_to_list t) with
             | Some (o, _) => delete o t
             | None => t
             end
           else t in
  let f := default (mk_failures 0 later later) (t !! peer) in
  let n := saturating_add U32_MAX (count f) 1 in
  let delay := delay_of n in
  (delay, <[peer := mk_failures n later (later + delay)]> t).

(** ** Authorizing a session *)

Definition CAP_REMOTE_AUTH : Z := 256.
Definition CAP_TRUSTED_DEVICE_AUTH : Z := Z.shiftl 1 9.

(** What other sessions do to the shared table meanwhile. *)
Inductive table_op : Type :=
  | TCheck (now later : Z) (peer : NodeId)
  | TFailed (now later : Z) (peer : NodeId)
  | TRemove (peer : NodeId).

Definition apply_op (t : FailureTable) (o : table_op) : FailureTable :=
  match o with
  | TCheck now later p => snd (check now later p t)
  | TFailed now later p => snd (failed now later p t)
  | TRemove p => delete p t
  end.
Definition apply_ops (ops : list table_op) (t : FailureTable) : FailureTable := fold_left apply_op ops t.

(** The table, the stream, and the time slept so far. *)
Record auth_state : Type := mk_auth { table : FailureTable; stream : auth_link; slept : Z }.

Definition on_stream {A : Type} (m : st auth_link error A) : st auth_state error A :=
  zoom stream (fun l s => mk_auth (table s) l (slept s)) m.
Definition set_table (f : FailureTable -> FailureTable) : st auth_state error unit :=
  modify (fun s => mk_auth (f (table s)) (stream s) (slept s)).
Definition check_peer (now later : Z) (peer : NodeId) : st auth_state error unit :=
  fun s => let (r, t) := check now later peer (table s) in (r, mk_auth t (stream s) (slept s)).
(** [failed] and the sleep that follows it. *)
Definition fail_and_sleep (now later : Z) (peer : NodeId) : st auth_state error unit :=
  modify (fun s => let (d, t) := failed now later peer (table s) in mk_auth t (stream s) (slept s + d)).

Section Authorize.
Context {argon : Argon2} {hm : HmacSha256}.

(** [authorize_session]: [others] is what happened to the table during the
    exchange, [trusted] and [trusted_after] the trusted devices when the
    exchange subscribed and when it was over; [n0 .. n3] are clock readings. *)
Definition authorize_session (binding : result (list Z)) (opened : bool) (drawn : option (list Z))
    (local peer : NodeId) (verifier : RemoteVerifier) (password : option (list Z)) (capabilities : Z)
    (trusted trusted_after : gset NodeId) (others : list table_op) (n0 n1 n2 n3 : Z) :
    st auth_state error AuthorizedSession :=
  let required := Z.lor CAP_REMOTE_AUTH CAP_TRUSTED_DEVICE_AUTH in
  let! _ := liftr (fail_if (negb (Z.land capabilities required =? required))
                     (Protocol "peer lacks remote authorization")) in
  let! _ := check_peer n0 n1 peer in
  let! result := attempt (on_stream
    (exchange binding opened drawn local peer verifier password trusted)) in
  let! _ := set_table (apply_ops others) in
  match result with
  | Ok (session, failed_inbound) =>
      let rights := authorization session in
      let rights := set_trusted_in
        (trusted_device (inbound rights) && bool_decide (peer ∈ trusted_after)) rights in
      let session := mk_session rights (control session) in
      let! _ := liftr (fail_if (negb (inbound_authorized rights) && negb (outbound_authorized rights))
                         invalid) in
      let! _ := if RemoteAuth.password (inbound rights) then set_table (delete peer)
                else if failed_inbound then fail_and_sleep n2 n3 peer
                else ret tt in
      ret session
  | _ =>
      let! _ := fail_and_sleep n2 n3 peer in
      throw invalid
  end.

End Authorize.

(** ** The trust control stream *)

(** [AuthorizationPublisher]: the rights of the connection, the number of
    updates the watch channel has seen, and the [RevocationEpochs]. *)
Record Publisher : Type := mk_publisher {
  value : RemoteAuthorization;
  updates : Z;
  epoch_in : Z;
  epoch_out : Z;
}.

(** [AuthorizationPublisher::new]. *)
Definition new_publisher (a : RemoteAuthorization) : Publisher := mk_publisher a 0 0 0.

Definition get_epoch (is_inbound : bool) (p : Publisher) : Z := if is_inbound then epoch_in p else epoch_out p.
Definition right (is_inbound : bool) (a : RemoteAuthorization) : bool :=
  if is_inbound then inbound_authorized a else outbound_authorized a.

(** [RevocationEpochs::changed]: [fetch_add] wraps. *)
Definition epochs_changed (before after : RemoteAuthorization) (p : Publisher) : Publisher :=
  let bump (is_inbound : bool) (e : Z) :=
    if right is_inbound before && negb (right is_inbound after) then wrapping_add U64_MAX e 1 else e in
  mk_publisher (value p) (updates p) (bump true (epoch_in p)) (bump false (epoch_out p)).

Definition send_modify (update : RemoteAuthorization -> RemoteAuthorization) (p : Publisher) : Publisher :=
  let old := value p in
  epochs_changed old (update old) (mk_publisher (update old) (updates p + 1) (epoch_in p) (epoch_out p)).

Definition send_if_modified (update : RemoteAuthorization -> bool * RemoteAuthorization) (p : Publisher) :
    Publisher :=
  let old := value p in
  let '(changed, new) := update old in
  if changed then
    epochs_changed old new (mk_publisher new (updates p + 1) (epoch_in p) (epoch_out p))
  else mk_publisher new (updates p) (epoch_in p) (epoch_out p).

Definition send_replace (a : RemoteAuthorization) (p : Publisher) : Publisher :=
  send_modify (fun _ => a) p.

(** One look of [LiveAuthorization::denied] that began at [epoch]; [alive]:
    the publisher still exists. *)
Definition denied_now (is_inbound : bool) (epoch : Z) (p : Publisher) : bool :=
  negb (right is_inbound (value p)) || negb (get_epoch is_inbound p =? epoch).

Record control_state : Type := mk_cstate {
  ctl : TrustedControl;
  published : Publisher;
  wire : auth_link;
}.

Definition set_sent (n : Z) (c : TrustedControl) : TrustedControl :=
  mk_control (binding c) (challenge c) (remote c) (local c) (peer c) n (received_sequence c).
Definition set_received (n : Z) (c : TrustedControl) : TrustedControl :=
  mk_control (binding c) (challenge c) (remote c) (local c) (peer c) (sent_sequence c) n.

(** What one round of the [select!] in [run] finds: a change of the trusted
    devices (or the end of their channel), or a message of the reader task. *)
Inductive control_event : Type :=
  | TrustChanged (accepted : option bool)
  | Received (message : option (AuthMessage + error)).

(** The reader task: it forwards every message, and ends with the first failed
    read. *)
Fixpoint reader (l : list (incoming_of AuthMessage)) : list control_event :=
  match l with
  | [] => []
  | Got m :: l' => Received (Some (inl m)) :: reader l'
  | Closed :: _ => [Received (Some (inr invalid)); Received None]
  | Broken e :: _ => [Received (Some (inr e)); Received None]
  end.

Section Control.
Context {hm : HmacSha256}.

Definition on_control_event (ev : control_event) : st control_state error unit :=
  let! c := gets ctl in
  let! expected := liftr (ok_or (checked_add U64_MAX (received_sequence c) 1) invalid) in
  match ev with
  | TrustChanged changed =>
      let! accepted := liftr (ok_or changed invalid) in
      let! n := liftr (ok_or (checked_add U64_MAX (sent_sequence c) 1) invalid) in
      let! _ := modify (fun s => mk_cstate (set_sent n (ctl s)) (published s) (wire s)) in
      let! c := gets ctl in
      let! _ := zoom wire (fun l s => mk_cstate (ctl s) (published s) l) (send_grant c accepted) in
      modify (fun s => mk_cstate (ctl s) (send_modify (set_trusted_in accepted) (published s)) (wire s))
  | Received message =>
      let! m := liftr match message with
                      | Some (inl m) => Ok m
                      | Some (inr e) => Err e
                      | None => Err invalid
                      end in
      match m with
      | MTrustedGrant accepted sequence confirmation =>
          let! _ := liftr (fail_if (negb (grant_valid c accepted sequence expected confirmation)) invalid) in
          modify (fun s => mk_cstate (set_received expected (ctl s))
                             (send_modify (set_trusted_out accepted) (published s)) (wire s))
      | _ => throw invalid
      end
  end.

(** The rounds of [run] while nothing fails. *)
Definition rounds (events : list control_event) : st control_state error unit :=
  for_each on_control_event events.

(** What [run] publishes when its loop ends. *)
Definition clear_trust (s : control_state) : control_state :=
  mk_cstate (ctl s) (send_modify (fun a => set_trusted_out false (set_trusted_in false a)) (published s)) (wire s).

(** [run] on a list of rounds: still going, or over. *)
Definition run (events : list control_event) (s : control_state) : bool * control_state :=
  match rounds events s with
  | (Ok _, s') => (true, s')
  | (_, s') => (false, clear_trust s')
  end.

End Control.

(** ** Facts: the table of failures *)

Lemma prune_lookup now t p f :
  prune now t !! p = Some f <-> t !! p = Some f /\ saturating_sub now (seen f) < FAILURE_TTL.
Proof. unfold prune. rewrite map_lookup_filter_Some. cbn. rewrite Z.ltb_lt. done. Qed.

Lemma size_prune now t : (size (prune now t) <= size t)%nat.
Proof. unfold prune. apply map_subseteq_size, map_filter_subseteq. Qed.

Lemma oldest_spec l x : oldest l = Some x -> x ∈ l /\ forall y, y ∈ l -> seen x.2 <= seen y.2.
Proof.
  revert x. induction l as [|y l IH]; intros x; cbn; [done|].
  destruct (oldest l) as [z|] eqn:E.
  - destruct (IH z eq_refl) as [Hz Hm]. destruct (Z.ltb_spec (seen z.2) (seen y.2)); intros [= <-].
    + split; [by right|]. intros w [->|Hw]%elem_of_cons; [lia|by apply Hm].
    + split; [by left|]. intros w [->|Hw]%elem_of_cons; [lia|]. specialize (Hm w Hw). lia.
  - intros [= <-]. split; [by left|]. destruct l as [|w l]; [set_solver|].
    cbn in E. destruct (oldest l) as [z|]; [destruct (_ <? _)|]; done.
Qed.

Lemma oldest_None l : oldest l = None -> l = [].
Proof. destruct l as [|w l]; [done|]. cbn. destruct (oldest l) as [z|]; [destruct (_ <? _)|]; done. Qed.

Lemma delay_bounds n : 0 <= delay_of n <= 60000.
Proof.
  unfold delay_of. destruct (Z.leb_spec n 3); [lia|]. destruct (Z.leb_spec n 9); [|lia].
  rewrite Z.shiftl_mul_pow2, Z.mul_1_l by lia.
  assert (2 ^ 0 <= 2 ^ (n - 4) <= 2 ^ 5) by (split; apply Z.pow_le_mono_r; lia). lia.
Qed.

Lemma delay_mono a b : a <= b -> delay_of a <= delay_of b.
Proof.
  intros Hab. pose proof (delay_bounds a). pose proof (delay_bounds b). unfold delay_of in *.
  destruct (Z.leb_spec a 3), (Z.leb_spec b 3); try lia.
  destruct (Z.leb_spec a 9), (Z.leb_spec b 9); try lia.
  rewrite !Z.shiftl_mul_pow2, !Z.mul_1_l by lia.
  apply Z.mul_le_mono_nonneg_l; [lia|]. apply Z.pow_le_mono_r; lia.
Qed.

(** The table after making room for [p]. *)
Lemma make_room (p : NodeId) (t t1 : FailureTable) :
  t1 = (if bool_decide (t !! p = None) && (MAX_FAILURE_PEERS <=? Z.of_nat (size t)) then
          match oldest (map_to_list t) with Some (o, _) => delete o t | None => t end else t) ->
  t1 !! p = t !! p /\
  (forall q : NodeId, q <> p -> t1 !! q = t !! q \/
     t1 !! q = None /\ exists f, t !! q = Some f /\ t !! p = None /\ 256 <= Z.of_nat (size t) /\
       forall (r : NodeId) g, t !! r = Some g -> seen f <= seen g) /\
  (Z.of_nat (size t) <= 256 -> t !! p = None -> Z.of_nat (size t1) < 256).
Proof.
  intros ->. case_bool_decide as Hp; cbn [andb]; [|split; [done|split; [by left|done]]].
  change MAX_FAILURE_PEERS with 256.
  destruct (Z.leb_spec 256 (Z.of_nat (size t))) as [Hs|Hs];
    [|split; [done|split; [by left|lia]]].
  destruct (oldest (map_to_list t)) as [[o f]|] eqn:E.
  - apply oldest_spec in E as [Hin Hmin]. apply elem_of_map_to_list in Hin. cbn in Hmin.
    split; [destruct (decide (o = p)); [congruence|by apply lookup_delete_ne]|]. split.
    + intros q Hq. destruct (decide (o = q)) as [->|]; [right|left; by apply lookup_delete_ne].
      split; [apply lookup_delete_eq|]. exists f. repeat split; try done. intros r g Hr.
      apply (Hmin (r, g)). by apply elem_of_map_to_list.
    + intros Hle _. rewrite map_size_delete_Some by done. lia.
  - apply oldest_None in E. apply map_to_list_empty_iff in E as ->. rewrite map_size_empty in Hs. lia.
Qed.

Lemma failed_spec now later p t d t' :
  failed now later p t = (d, t') ->
  let old := prune now t in
  let n := saturating_add U32_MAX (match old !! p with Some f => count f | None => 0 end) 1 in
  d = delay_of n /\ t' !! p = Some (mk_failures n later (later + d)) /\
  (forall q, q <> p -> t' !! q = old !! q \/
     t' !! q = None /\ exists f, old !! q = Some f /\ old !! p = None /\ 256 <= Z.of_nat (size old) /\
       forall r g, old !! r = Some g -> seen f <= seen g) /\
  (Z.of_nat (size t) <= 256 -> Z.of_nat (size t') <= 256).
Proof.
  unfold failed. cbv zeta. set (old := prune now t).
  remember (if bool_decide (old !! p = None) && _ then _ else _) as t1 eqn:E1.
  destruct (make_room p old t1 E1) as (Hp & Hq & Hs). rewrite Hp.
  assert (count (default (mk_failures 0 later later) (old !! p)) =
          match old !! p with Some f => count f | None => 0 end) as -> by by destruct (old !! p).
  intros [= <- <-]. split; [done|]. split; [apply lookup_insert_eq|]. split.
  - intros q Hqp. rewrite lookup_insert_ne by done. by apply Hq.
  - intros Ht. pose proof (size_prune now t). fold old in H. destruct (old !! p) as [f|] eqn:Ep.
    + rewrite map_size_insert_Some by (rewrite Hp; done).
      assert (t1 = old) as ->; [|lia]. by rewrite E1, bool_decide_false.
    + rewrite map_size_insert_None by done. specialize (Hs ltac:(lia) eq_refl). lia.
Qed.

Lemma check_table now later p t : snd (check now later p t) = prune now t.
Proof. unfold check. destruct (prune now t !! p) as [f|]; [by destruct (_ <? _)|done]. Qed.

Lemma apply_ops_size ops t :
  Z.of_nat (size t) <= 256 -> Z.of_nat (size (apply_ops ops t)) <= 256.
Proof.
  unfold apply_ops. revert t. induction ops as [|o ops IH]; intros t Ht; [done|]. cbn. apply IH.
  destruct o as [now later p|now later p|p]; cbn [apply_op].
  - rewrite check_table. pose proof (size_prune now t). lia.
  - destruct (failed now later p t) as [d t'] eqn:E. apply failed_spec in E as (_ & _ & _ & H).
    by apply H.
  - pose proof (map_subseteq_size _ _ (delete_subseteq t p)). lia.
Qed.

(** ** Facts: the control stream *)

Section ControlFacts.
Context {hm : HmacSha256}.

(** A numbered list of grants, after number [n]. *)
Fixpoint grants (tag : bool -> Z -> list Z) (n : Z) (decisions : list bool) : list AuthMessage :=
  match decisions with
  | [] => []
  | a :: rest => MTrustedGrant a (n + 1) (tag a (n + 1)) :: grants tag (n + 1) rest
  end.

Definition own_tag (c : TrustedControl) (a : bool) (n : Z) : list Z :=
  trusted_mac (binding c) (challenge c) (local c) (peer c) a n.
Definition peer_tag (c : TrustedControl) (a : bool) (n : Z) : list Z :=
  trusted_mac (binding c) (remote c) (peer c) (local c) a n.

Definition local_decision (ev : control_event) : option bool :=
  match ev with TrustChanged accepted => accepted | _ => None end.
Definition message_in (ev : control_event) : option AuthMessage :=
  match ev with Received (Some (inl m)) => Some m | _ => None end.
Definition peer_decision (ev : control_event) : option bool :=
  match ev with Received (Some (inl (MTrustedGrant a _ _))) => Some a | _ => None end.

(** What a round that does not fail has done. *)
Record round_done (ev : control_event) (s s' : control_state) : Prop := {
  rd_forms : is_Some (local_decision ev) \/ is_Some (peer_decision ev);
  rd_in : option_list (message_in ev) =
    grants (peer_tag (ctl s)) (received_sequence (ctl s)) (option_list (peer_decision ev));
  rd_out : sent (wire s') = sent (wire s) ++
    grants (own_tag (ctl s)) (sent_sequence (ctl s)) (option_list (local_decision ev));
  rd_ctl : ctl s' = set_sent (sent_sequence (ctl s) + Z.of_nat (length (option_list (local_decision ev))))
    (set_received (received_sequence (ctl s) + Z.of_nat (length (option_list (peer_decision ev)))) (ctl s));
  rd_value : value (published s') = mk_rights
    (mk_grant (password (inbound (value (published s))))
       (default (trusted_device (inbound (value (published s)))) (local_decision ev)))
    (mk_grant (password (outbound (value (published s))))
       (default (trusted_device (outbound (value (published s)))) (peer_decision ev)));
}.

Lemma wp_round ev s :
  wp (on_control_event ev) (fun _ s' => round_done ev s s')
    (fun _ s' => sent (wire s') = sent (wire s) /\ value (published s') = value (published s)) s.
Proof.
  unfold on_control_event. apply wp_bind, wp_gets, wp_bind, wp_liftr.
  unfold checked_add at 1. destruct (_ <=? U64_MAX); cbn; [|done].
  destruct ev as [changed|message].
  - apply wp_bind, wp_liftr. destruct changed as [accepted|]; cbn; [|done].
    apply wp_bind, wp_liftr. unfold checked_add. destruct (_ <=? U64_MAX); cbn; [|done].
    apply wp_bind, wp_modify, wp_bind, wp_gets. cbn.
    apply wp_bind, wp_zoom, wp_send_hs; [|by intros e l' Hs]. cbn. intros l' _ Hs.
    apply wp_modify. split; cbn; try done; [by left; eauto|by rewrite Z.add_0_r; destruct (ctl s)|].
    by destruct (value (published s)) as [[] []].
  - apply wp_bind, wp_liftr. destruct message as [[m|e]|]; cbn; try done.
    destruct m as [?|?|? ?|accepted sequence confirmation]; try by apply wp_throw.
      apply wp_bind, wp_liftr. destruct (grant_valid _ _ _ _ _) eqn:Hg; cbn; [|done].
      unfold grant_valid in Hg. bool_hyps. subst. apply wp_modify.
      split; cbn; try done; [by right; eauto|by rewrite app_nil_r|by rewrite Z.add_0_r; destruct (ctl s)|].
      by destruct (value (published s)) as [[] []].
Qed.

Definition collect {A B : Type} (f : A -> option B) (l : list A) : list B :=
  concat (map (fun x => option_list (f x)) l).

Lemma grants_app tag n l1 l2 :
  grants tag n (l1 ++ l2) = grants tag n l1 ++ grants tag (n + Z.of_nat (length l1)) l2.
Proof.
  revert n. induction l1 as [|a l1 IH]; intros n; cbn; [by rewrite Z.add_0_r|].
  rewrite IH. do 3 f_equal. lia.
Qed.

(** The rounds [events], all done, took [s] to a state that publishes, and has
    sent, what [s'] does. *)
Record rounds_done (events : list control_event) (s s' : control_state) : Prop := {
  rs_forms : Forall (fun ev => is_Some (local_decision ev) \/ is_Some (peer_decision ev)) events;
  rs_in : collect message_in events =
    grants (peer_tag (ctl s)) (received_sequence (ctl s)) (collect peer_decision events);
  rs_out : sent (wire s') = sent (wire s) ++
    grants (own_tag (ctl s)) (sent_sequence (ctl s)) (collect local_decision events);
  rs_value : value (published s') = mk_rights
    (mk_grant (password (inbound (value (published s))))
       (default (trusted_device (inbound (value (published s)))) (last (collect local_decision events))))
    (mk_grant (password (outbound (value (published s))))
       (default (trusted_device (outbound (value (published s)))) (last (collect peer_decision events))));
}.

Lemma rounds_done_nil s s' :
  sent (wire s') = sent (wire s) -> value (published s') = value (published s) -> rounds_done [] s s'.
Proof.
  intros Hs Hv. split; cbn; [done|done|by rewrite app_nil_r|]. rewrite Hv.
  by destruct (value (published s)) as [[] []].
Qed.

Lemma last_cons_default {A} (d : A) (o : option A) (l : list A) :
  default (default d o) (last l) = default d (last (option_list o ++ l)).
Proof. destruct o as [x|]; [|done]. change (option_list (Some x) ++ l) with (x :: l). rewrite last_cons. by destruct (last l). Qed.

Lemma rounds_done_cons ev events s s1 s' :
  round_done ev s s1 -> rounds_done events s1 s' -> rounds_done (ev :: events) s s'.
Proof.
  intros [F1 I1 O1 C1 V1] [F2 I2 O2 V2]. rewrite C1 in I2, O2. cbn in I2, O2.
  unfold collect in *. split; unfold collect; cbn [map concat].
  - by constructor.
  - rewrite grants_app, I1, I2. done.
  - rewrite grants_app, O2, O1, <- app_assoc. done.
  - rewrite V2, V1. cbn. by rewrite !last_cons_default.
Qed.

Lemma wp_rounds events s :
  wp (rounds events) (fun _ s' => rounds_done events s s')
    (fun _ s' => exists done rest, events = done ++ rest /\ rest <> [] /\ rounds_done done s s') s.
Proof.
  unfold rounds. revert s. induction events as [|ev events IH]; intros s.
  - by apply wp_ret, rounds_done_nil.
  - cbn [for_each]. apply wp_bind. eapply wp_conseq; [apply wp_round| |].
    + cbn. intros _ s1 H1. eapply wp_conseq; [apply IH| |].
      * cbn. intros _ s' H2. by eapply rounds_done_cons.
      * cbn. intros e s' (done & rest & -> & Hr & H2). exists (ev :: done), rest.
        split; [done|]. split; [done|]. by eapply rounds_done_cons.
    + cbn. intros e s' [Hs Hv]. exists [], (ev :: events). split; [done|]. split; [done|].
      by apply rounds_done_nil.
Qed.

(** The other end's grants are all accepted. *)
Lemma rounds_accept decisions s :
  received_sequence (ctl s) + Z.of_nat (length decisions) <= U64_MAX ->
  exists s', rounds (map (fun m => Received (Some (inl m)))
               (grants (peer_tag (ctl s)) (received_sequence (ctl s)) decisions)) s = (Ok tt, s').
Proof.
  unfold rounds. revert s. induction decisions as [|a rest IH]; intros s Hn; cbn [grants map for_each].
  - by eexists.
  - cbn [length] in Hn.
    assert (exists s1, on_control_event (Received (Some (inl (MTrustedGrant a (received_sequence (ctl s) + 1)
        (peer_tag (ctl s) a (received_sequence (ctl s) + 1)))))) s = (Ok tt, s1) /\
      ctl s1 = set_received (received_sequence (ctl s) + 1) (ctl s)) as (s1 & E & Ec).
    { unfold on_control_event. erewrite sbind_run; [|reflexivity].
      erewrite sbind_run; [|unfold liftr; by rewrite (proj2 (checked_add_Some _ _ _ (received_sequence (ctl s) + 1))) by (split; [done|lia])].
      erewrite sbind_run; [|reflexivity]. cbn beta iota. unfold grant_valid.
      rewrite Z.eqb_refl, bool_decide_true by done. by eexists. }
    rewrite (sbind_run _ _ _ _ _ E).
    specialize (IH s1). rewrite Ec in IH. cbn in IH. apply IH. lia.
Qed.

End ControlFacts.

(** ** Facts: revocation epochs *)

Inductive update_op : Type :=
  | UModify (f : RemoteAuthorization -> RemoteAuthorization)
  | UIfModified (g : RemoteAuthorization -> bool * RemoteAuthorization).

Definition publish (p : Publisher) (o : update_op) : Publisher :=
  match o with UModify f => send_modify f p | UIfModified g => send_if_modified g p end.
Definition publish_all (ops : list update_op) (p : Publisher) : Publisher := fold_left publish ops p.

(** A closure of [send_if_modified] that reports no change makes none. *)
Definition honest_op (o : update_op) : Prop :=
  match o with UModify _ => True | UIfModified g => forall a, fst (g a) = false -> snd (g a) = a end.

Definition next_value (o : update_op) (a : RemoteAuthorization) : RemoteAuthorization :=
  match o with UModify f => f a | UIfModified g => snd (g a) end.
Fixpoint values (ops : list update_op) (a : RemoteAuthorization) : list RemoteAuthorization :=
  match ops with
  | [] => []
  | o :: ops' => next_value o a :: values ops' (next_value o a)
  end.

(** How often the right of a direction was taken away. *)
Fixpoint revocations (d : bool) (ops : list update_op) (a : RemoteAuthorization) : Z :=
  match ops with
  | [] => 0
  | o :: ops' => (if right d a && negb (right d (next_value o a)) then 1 else 0) +
                 revocations d ops' (next_value o a)
  end.

Lemma epochs_changed_get before after p d :
  value (epochs_changed before after p) = value p /\
  get_epoch d (epochs_changed before after p) =
  if right d before && negb (right d after) then wrapping_add U64_MAX (get_epoch d p) 1 else get_epoch d p.
Proof. by destruct d. Qed.

Lemma publish_spec o p d : honest_op o ->
  value (publish p o) = next_value o (value p) /\
  get_epoch d (publish p o) =
    if right d (value p) && negb (right d (next_value o (value p)))
    then wrapping_add U64_MAX (get_epoch d p) 1 else get_epoch d p.
Proof.
  destruct o as [f|g]; cbn [publish next_value honest_op]; intros Ho.
  - unfold send_modify. destruct (epochs_changed_get (value p) (f (value p))
      (mk_publisher (f (value p)) (updates p + 1) (epoch_in p) (epoch_out p)) d) as [-> ->].
    split; [done|]. by destruct d.
  - unfold send_if_modified. specialize (Ho (value p)). destruct (g (value p)) as [[] new]; cbn [fst snd] in *.
    + destruct (epochs_changed_get (value p) new
        (mk_publisher new (updates p + 1) (epoch_in p) (epoch_out p)) d) as [-> ->].
      split; [done|]. by destruct d.
    + split; [done|]. rewrite Ho by done. by destruct (right d (value p)), d.
Qed.

Lemma publish_all_spec ops p d : Forall honest_op ops -> is_u64 (get_epoch d p) ->
  value (publish_all ops p) = default (value p) (last (values ops (value p))) /\
  get_epoch d (publish_all ops p) =
    (get_epoch d p + revocations d ops (value p)) mod (U64_MAX + 1) /\
  0 <= revocations d ops (value p) <= Z.of_nat (length ops).
Proof.
  unfold publish_all. intros Ho. revert p. induction Ho as [|o ops H1 _ IH]; intros p Hp.
  - cbn. rewrite Z.add_0_r, Z.mod_small by (unfold in_range in Hp; lia). done.
  - destruct (publish_spec o p d H1) as [Hv He]. cbn [fold_left].
    destruct (IH (publish p o)) as (IHv & IHe & IHr).
    { rewrite He. destruct (_ && _); [|done]. unfold wrapping_add, in_range.
      pose proof (Z.mod_pos_bound (get_epoch d p + 1) (U64_MAX + 1)). unfold U64_MAX in *. lia. }
    rewrite Hv in *. cbn [values revocations length]. split.
    + rewrite IHv, last_cons. by destruct (last _).
    + split; [|destruct (_ && _); lia]. rewrite IHe, He. destruct (_ && _); [|by rewrite Z.add_0_l].
      unfold wrapping_add. rewrite Zplus_mod_idemp_l. f_equal. lia.
Qed.

Lemma no_revocation d ops a : right d a = true ->
  revocations d ops a = 0 <-> Forall (fun v => right d v = true) (values ops a).
Proof.
  revert a. induction ops as [|o ops IH]; intros a Ha; cbn; [by split; [constructor|]|].
  assert (forall b, 0 <= revocations d ops b) as Hpos.
  { clear. induction ops as [|o ops IH]; intros b; cbn; [lia|]. specialize (IH (next_value o b)).
    destruct (_ && _); lia. }
  rewrite Ha. cbn. rewrite Forall_cons. destruct (right d (next_value o a)) eqn:E; cbn.
  - rewrite (IH _ E). naive_solver.
  - split; [specialize (Hpos (next_value o a)); lia|by intros []].
Qed.

(** ** Facts: authorizing a session *)

(** The attempt was counted and slept off. *)
Definition punished (at_ : Z) (peer : NodeId) (s s' : auth_state) : Prop :=
  exists f, table s' !! peer = Some f /\ seen f = at_ /\ 1 <= count f /\
    blocked_until f = at_ + delay_of (count f) /\ slept s' = slept s + delay_of (count f).

(** Counts are never negative (they are [u32]). *)
Definition counts_ok (t : FailureTable) : Prop := map_Forall (fun _ f => 0 <= count f) t.

Lemma counts_prune now t : counts_ok t -> counts_ok (prune now t).
Proof. intros H p f E. apply prune_lookup in E as [E _]. by apply (H p). Qed.

Lemma counts_failed now later p t : counts_ok t -> counts_ok (snd (failed now later p t)).
Proof.
  intros H. destruct (failed now later p t) as [d t'] eqn:E. apply failed_spec in E as (_ & Hp & Hq & _).
  pose proof (counts_prune now t H) as Ho. cbn. intros q f Eq. destruct (decide (q = p)) as [->|Hne].
  - rewrite Hp in Eq. injection Eq as <-. cbn. unfold saturating_add, U32_MAX.
    destruct (prune now t !! p) as [f|] eqn:Ep; [|lia]. specialize (Ho _ _ Ep). cbn in Ho. lia.
  - destruct (Hq q Hne) as [E|[E _]]; rewrite E in Eq; [by apply (Ho q)|done].
Qed.

Lemma counts_apply_ops ops t : counts_ok t -> counts_ok (apply_ops ops t).
Proof.
  unfold apply_ops. revert t. induction ops as [|o ops IH]; intros t Ht; [done|]. cbn [fold_left]. apply IH.
  destruct o as [now later p|now later p|p]; cbn [apply_op].
  - rewrite check_table. by apply counts_prune.
  - by apply counts_failed.
  - by apply map_Forall_delete.
Qed.

Lemma wp_fail_and_sleep now later peer (Q : unit -> auth_state -> Prop) (R : error -> auth_state -> Prop) s :
  counts_ok (table s) ->
  (forall s', punished later peer s s' -> stream s' = stream s -> Q tt s') ->
  wp (fail_and_sleep now later peer) Q R s.
Proof.
  intros Hc HQ. unfold fail_and_sleep. apply wp_modify.
  pose proof (counts_prune now _ Hc) as Ho.
  destruct (failed now later peer (table s)) as [d t] eqn:E.
  apply failed_spec in E as (-> & Hp & _ & _). cbv zeta in *. apply HQ; [|done].
  eexists. split; [exact Hp|]. cbn. split; [done|]. split; [|done].
  unfold saturating_add, U32_MAX. destruct (prune now (table s) !! peer) as [f|] eqn:Ep; [|lia].
  specialize (Ho _ _ Ep). cbn in Ho. lia.
Qed.

Section AuthorizeFacts.
Context {argon : Argon2} {hm : HmacSha256}.

Lemma set_trusted_in_same r : set_trusted_in (trusted_device (inbound r)) r = r.
Proof. by destruct r as [[] ?]. Qed.

(** What a successful authorization is worth. *)
Record granted (b : list Z) (drawn : option (list Z)) (local peer : NodeId) (verifier : RemoteVerifier)
    (trusted trusted_after : gset NodeId) (later : Z) (s s' : auth_state) (r : RemoteAuthorization) :
    Prop := {
  gr_password : password (inbound r) = true -> exists c, new_challenge verifier drawn = Ok c /\
    Got (MProof (Some (proof (rv_key verifier) c peer local b))) ∈ inbox (stream s) /\
    table s' !! peer = None;
  gr_trusted : trusted_device (inbound r) = true -> peer ∈ trusted /\ peer ∈ trusted_after;
  gr_some : inbound_authorized r || outbound_authorized r = true;
  gr_refused : password (inbound r) = false ->
    inbox (stream s) !! 1%nat = Some (Got (MProof None)) \/ punished later peer s s';
}.

Lemma wp_authorize b opened drawn local peer verifier password trusted trusted_after others n2 n3 s :
  counts_ok (table s) ->
  wp (let! result := attempt (on_stream
        (exchange (Ok b) opened drawn local peer verifier password trusted)) in
      let! _ := set_table (apply_ops others) in
      match result with
      | Ok (session, failed_inbound) =>
          let rights := authorization session in
          let rights := set_trusted_in
            (trusted_device (inbound rights) && bool_decide (peer ∈ trusted_after)) rights in
          let session := mk_session rights (control session) in
          let! _ := liftr (fail_if (negb (inbound_authorized rights) && negb (outbound_authorized rights))
                             invalid) in
          let! _ := if RemoteAuth.password (inbound rights) then set_table (delete peer)
                    else if failed_inbound then fail_and_sleep n2 n3 peer
                    else ret tt in
          ret session
      | _ =>
          let! _ := fail_and_sleep n2 n3 peer in
          throw invalid
      end)
    (fun session s' => granted b drawn local peer verifier trusted trusted_after n3 s s' (authorization session))
    (fun _ s' => punished n3 peer s s' \/ (peer ∈ trusted /\ peer ∉ trusted_after)) s.
Proof.
  intros Hc. apply wp_bind, wp_attempt, wp_zoom. eapply wp_conseq; [apply wp_exchange| |].
  - intros [session refused] l' [Hx _]. cbn [fst snd] in Hx. apply wp_bind, wp_modify. cbv zeta.
    destruct Hx as [Hch Hctl (incoming & answer & conf & grant & Hin & Hpw & Hout & _ & Href) Htr Hsome].
    set (r0 := authorization session) in *. set (r := set_trusted_in _ r0).
    assert (r = r0 \/ peer ∈ trusted /\ peer ∉ trusted_after) as Hr.
    { subst r. destruct (bool_decide_reflect (peer ∈ trusted_after)) as [Ha|Ha].
      - left. rewrite andb_true_r. by apply set_trusted_in_same.
      - destruct (bool_decide_reflect (peer ∈ trusted)) as [Ht|Ht]; [by right|].
        left. rewrite andb_false_r, <- Htr. by apply set_trusted_in_same. }
    apply wp_bind, wp_liftr. rewrite <- negb_orb.
    destruct (inbound_authorized r || outbound_authorized r) eqn:Hany; cbn [negb fail_if].
    2: { right. destruct Hr as [->|]; [congruence|done]. }
    assert (forall s', (RemoteAuth.password (inbound r0) = true -> table s' !! peer = None) ->
      (RemoteAuth.password (inbound r0) = false ->
        inbox (stream s) !! 1%nat = Some (Got (MProof None)) \/ punished n3 peer s s') ->
      granted b drawn local peer verifier trusted trusted_after n3 s s' r) as Hg.
    { intros s' H1 H2. split; [| |done|done].
      - intros Hp. exists (challenge (control session)). split; [done|]. split; [|by apply H1].
        rewrite Hin. apply Hpw in Hp as ->. right. by left.
      - intros Ht. cbn in Ht. apply andb_true_iff in Ht as [Ht Ha]. rewrite Htr in Ht. by bool_hyps. }
    apply wp_bind. change (RemoteAuth.password (inbound r)) with (RemoteAuth.password (inbound r0)).
    destruct (RemoteAuth.password (inbound r0)) eqn:Hpr.
    + apply wp_modify, wp_ret. cbn [authorization]. apply Hg; [intros _; apply lookup_delete_eq|done].
    + destruct refused eqn:Er.
      * apply wp_fail_and_sleep; [by apply counts_apply_ops|]. intros s' Hs' _. apply wp_ret. apply Hg; [done|].
        intros _. by right.
      * apply wp_ret, wp_ret. apply Hg; [done|]. intros _. left. rewrite Hin. cbn.
        destruct incoming as [t|]; [|done]. exfalso.
        assert (false = true) as [=]. apply Href. by split; [eexists|].
  - intros e l' _. apply wp_bind, wp_modify, wp_bind. apply wp_fail_and_sleep; [by apply counts_apply_ops|].
    intros s' Hs' _. apply wp_throw. by left.
Qed.

End AuthorizeFacts.

(** ** Properties *)

(** Failed attempts are punished, in bounded memory, without locking
    everybody out. Whatever sessions do, the table holds at most 256 peers. A
    failure counts on from the failures of the last 15 minutes and blocks the
    peer for a delay that never decreases with the count, is zero up to three
    failures and at most a minute; until it is over every check of that peer is
    refused, and from then on granted. An entry of another peer is dropped only
    when it expired, or when the table is full and it is one of the entries that
    failed least recently. *)
Theorem failure_backoff (ops : list table_op) (now later : Z) (p : NodeId) (t t' : FailureTable) (d : Z) :
  t = apply_ops ops ∅ -> failed now later p t = (d, t') ->
  Z.of_nat (size t) <= 256 /\ Z.of_nat (size t') <= 256 /\
  (let old := match prune now t !! p with Some f => count f | None => 0 end in
   exists n, n = saturating_add U32_MAX old 1 /\ d = delay_of n /\ 0 <= d <= 60000 /\
     (n <= 3 -> d = 0) /\ (forall m, n <= m -> d <= delay_of m)) /\
  (forall now2 later2, now2 <= later2 ->
     fst (check now2 later2 p t') = if later2 <? later + d then Err invalid else Ok tt) /\
  (forall q f, q <> p -> t !! q = Some f -> saturating_sub now (seen f) < FAILURE_TTL ->
     t' !! q = Some f \/
     Z.of_nat (size t) = 256 /\ forall r g, prune now t !! r = Some g -> seen f <= seen g).
Proof.
  intros Ht E. pose proof (apply_ops_size ops ∅) as Hs. rewrite <- Ht in Hs.
  specialize (Hs ltac:(rewrite map_size_empty; lia)).
  apply failed_spec in E as (Hd & Hp & Hq & Hs'). cbv zeta in *. split; [done|]. split; [auto|].
  pose proof (delay_bounds (saturating_add U32_MAX
    match prune now t !! p with Some f => count f | None => 0 end 1)) as Hb. rewrite <- Hd in Hb.
  split; [|split].
  - eexists. split; [done|]. split; [done|]. split; [done|]. split.
    + intros Hn. rewrite Hd. unfold delay_of. by destruct (Z.leb_spec (saturating_add U32_MAX
        match prune now t !! p with Some f => count f | None => 0 end 1) 3); [|lia].
    + intros m Hm. rewrite Hd. by apply delay_mono.
  - intros now2 later2 Hle. unfold check.
    destruct (prune now2 t' !! p) as [f|] eqn:Ep.
    + apply prune_lookup in Ep as [Ep _]. rewrite Hp in Ep. injection Ep as <-. cbn. by destruct (_ <? _).
    + destruct (Z.ltb_spec later2 (later + d)) as [Hlt|]; [|done]. exfalso.
      assert (prune now2 t' !! p = Some (mk_failures (saturating_add U32_MAX
        match prune now t !! p with Some f => count f | None => 0 end 1) later (later + d))) as Hx;
        [|congruence].
      apply prune_lookup. split; [done|]. cbn. unfold saturating_sub, FAILURE_TTL. lia.
  - intros q f Hqp Htq Hf. assert (prune now t !! q = Some f) as Hold by by apply prune_lookup.
    destruct (Hq q Hqp) as [E|(_ & g & Hg & _ & Hsz & Hmin)]; [left; congruence|right].
    rewrite Hold in Hg. injection Hg as <-. split; [|done].
    pose proof (size_prune now t). lia.
Qed.

Lemma failure_backoff_witness :
  let t := apply_ops [TFailed 0 0 [7]; TFailed 1 1 [7]; TFailed 2 2 [7]] ∅ in
  exists t', failed 3 3 [7] t = (500, t') /\ fst (check 100 100 [7] t') = Err invalid.
Proof.
  intros t. assert (exists t', failed 3 3 [7] t = (500, t')) as [t' E].
  { eexists. vm_compute. reflexivity. }
  exists t'. split; [done|].
  destruct (failure_backoff [TFailed 0 0 [7]; TFailed 1 1 [7]; TFailed 2 2 [7]] 3 3 [7] t t' 500 eq_refl E)
    as (_ & _ & _ & H & _).
  rewrite (H 100 100) by lia. reflexivity.
Defined.

(** The trust grants of the running session follow the two sides' decisions,
    in order. Whatever events come, the rounds that succeed have read the peer's
    grants numbered one after the other, each with its MAC, and have written a
    grant for every local decision, numbered likewise; the published rights hold
    the last decision of each side. Losing the stream, a message out of order or
    a bad MAC takes away both trust grants at once, and never touches the
    password rights. The grants an honest peer writes are all accepted. *)
Theorem trusted_stream `{HmacSha256} (events : list control_event) (s s' : control_state) (going : bool) :
  run events s = (going, s') ->
  (exists done rest, events = done ++ rest /\
     (if going then rest = [] /\ rounds_done done s s'
      else rest <> [] /\ exists s1, rounds_done done s s1 /\ s' = clear_trust s1)) /\
  (let before := value (published s) in
   let after := value (published s') in
   password (inbound after) = password (inbound before) /\
   password (outbound after) = password (outbound before) /\
   (going = false -> trusted_device (inbound after) = false /\ trusted_device (outbound after) = false)) /\
  (forall decisions, received_sequence (ctl s) + Z.of_nat (length decisions) <= U64_MAX ->
     fst (run (map (fun m => Received (Some (inl m)))
            (grants (peer_tag (ctl s)) (received_sequence (ctl s)) decisions)) s) = true).
Proof.
  intros E. split; [|split].
  - unfold run in E. pose proof (wp_rounds events s) as Hw. unfold wp in Hw.
    destruct (rounds events s) as [[[]|e|] s1]; [| |done]; injection E as <- <-.
    + exists events, []. by rewrite app_nil_r.
    + destruct Hw as (done & rest & -> & Hr & Hd). exists done, rest. split; [done|]. split; [done|]. eauto.
  - cbv zeta. unfold run in E. pose proof (wp_rounds events s) as Hw. unfold wp in Hw.
    destruct (rounds events s) as [[[]|e|] s1]; [| |done]; injection E as <- <-.
    + by rewrite (rs_value _ _ _ Hw).
    + destruct Hw as (done & rest & -> & Hr & Hd). cbn. by rewrite (rs_value _ _ _ Hd).
  - intros decisions Hn. unfold run. destruct (rounds_accept decisions s Hn) as [s2 ->]. done.
Qed.

Lemma trusted_stream_witness :
  let c := mk_control [9] (mk_challenge 1 [1] [2]) (mk_challenge 1 [3] [4]) [5] [6] 0 0 in
  let both := mk_rights (mk_grant true true) (mk_grant false true) in
  let s := mk_cstate c (new_publisher both) (mk_link [] [] []) in
  let events := [TrustChanged (Some false); Received None] in
  exists s', @run example_hmac events s = (false, s') /\
    password (inbound (value (published s'))) = true /\
    trusted_device (inbound (value (published s'))) = false.
Proof.
  intros c both s events. assert (exists s', @run example_hmac events s = (false, s')) as [s' E].
  { eexists. vm_compute. reflexivity. }
  exists s'. split; [exact E|].
  destruct (@trusted_stream example_hmac events s s' false E) as (_ & (H1 & _ & H2) & _).
  split; [rewrite H1; reflexivity|by apply H2].
Defined.

(** A revocation is never missed. For a request that began while its
    direction was authorized, the check it repeats says denied exactly when the
    right was missing in some published state since then, even if it was granted
    again before anybody looked (the epoch counter has 64 bits, so up to 2^64
    updates). *)
Theorem revocation_seen (d : bool) (ops : list update_op) (p : Publisher) :
  Forall honest_op ops -> is_u64 (get_epoch d p) -> Z.of_nat (length ops) < 2 ^ 64 ->
  right d (value p) = true ->
  denied_now d (get_epoch d p) (publish_all ops p) = true <->
  Exists (fun v => right d v = false) (values ops (value p)).
Proof.
  intros Ho Hp Hn Hr. destruct (publish_all_spec ops p d Ho Hp) as (Hv & He & Hk).
  unfold denied_now. rewrite Hv, He. unfold U64_MAX, in_range in *.
  set (k := revocations d ops (value p)) in *.
  pose proof (no_revocation d ops (value p) Hr) as Hno. fold k in Hno.
  destruct (decide (k = 0)) as [E|E].
  - rewrite E, Z.add_0_r, Z.mod_small, Z.eqb_refl, orb_false_r by lia.
    apply Hno in E. split.
    + intros Hd%negb_true_iff. exfalso.
      destruct (last (values ops (value p))) as [v|] eqn:El; cbn in Hd; [|congruence].
      apply last_Some_elem_of in El. rewrite Forall_forall in E. rewrite (E v El) in Hd. done.
    + intros (v & Hin & Hf)%Exists_exists. rewrite Forall_forall in E. rewrite (E v) in Hf; done.
  - assert ((get_epoch d p + k) mod (18446744073709551615 + 1) <> get_epoch d p) as Hne.
    { intros Hx. pose proof (Z.div_mod (get_epoch d p + k) (18446744073709551615 + 1)). nia. }
    apply Z.eqb_neq in Hne. rewrite Hne, orb_true_r. split; [intros _|done].
    destruct (decide (Exists (fun v => right d v = false) (values ops (value p)))) as [|Hx]; [done|].
    exfalso. apply E, Hno. apply Forall_forall. intros v Hin. destruct (right d v) eqn:Ev; [done|].
    exfalso. apply Hx, Exists_exists. by exists v.
Qed.

Lemma revocation_seen_witness :
  let both := mk_rights (mk_grant true false) (mk_grant true false) in
  let revoke := UModify (fun a => mk_rights (mk_grant false false) (outbound a)) in
  let regrant := UModify (fun _ => both) in
  denied_now true 0 (publish_all [revoke; regrant] (new_publisher both)) = true.
Proof.
  intros both revoke regrant.
  apply (revocation_seen true [revoke; regrant] (new_publisher both)).
  - repeat constructor.
  - by split.
  - done.
  - done.
  - left. done.
Defined.

(** C11: A session is authorized only for what was proved to this side, and
    refused proofs are not free. Against any peer: a session is only made for a
    peer with both capabilities that is not blocked; its inbound password right
    means the peer sent the MAC for this session's fresh challenge, and its
    failures are forgotten; its trust right means the peer was trusted when the
    exchange looked and still is; a peer that offered a proof and gets no
    password right has been counted and delayed, like every peer whose exchange
    failed. The one failure that is not counted is the withdrawal of the trust
    during the exchange. *)
Theorem authorize_session_sound `{Argon2} `{HmacSha256} (b : list Z) (opened : bool)
    (drawn : option (list Z)) (local peer : NodeId) (verifier : RemoteVerifier)
    (password : option (list Z)) (capabilities : Z) (trusted trusted_after : gset NodeId)
    (others : list table_op) (n0 n1 n2 n3 : Z) (s : auth_state) :
  counts_ok (table s) ->
  match authorize_session (Ok b) opened drawn local peer verifier password capabilities trusted
          trusted_after others n0 n1 n2 n3 s with
  | (Ok session, s') =>
      Z.testbit capabilities 8 = true /\ Z.testbit capabilities 9 = true /\
      (forall f, prune n0 (table s) !! peer = Some f -> blocked_until f <= n1) /\
      granted b drawn local peer verifier trusted trusted_after n3 s s' (authorization session)
  | (Err _, s') =>
      stream s' = stream s /\ slept s' = slept s /\
        (table s' = table s \/ exists f, table s' !! peer = Some f /\ n1 < blocked_until f) \/
      punished n3 peer s s' \/ (peer ∈ trusted /\ peer ∉ trusted_after)
  | (Panic, _) => False
  end.
Proof.
  intros Hc. unfold authorize_session. cbv zeta.
  unfold sbind at 1. unfold liftr at 1.
  destruct (Z.land capabilities (Z.lor CAP_REMOTE_AUTH CAP_TRUSTED_DEVICE_AUTH) =?
            Z.lor CAP_REMOTE_AUTH CAP_TRUSTED_DEVICE_AUTH) eqn:Hcap; cbn [negb fail_if]; [|by left; eauto].
  unfold sbind at 1. unfold check_peer at 1, check.
  assert (forall i, Z.testbit (Z.lor CAP_REMOTE_AUTH CAP_TRUSTED_DEVICE_AUTH) i = true ->
                    Z.testbit capabilities i = true) as Hbit.
  { intros i Hi. apply Z.eqb_eq in Hcap. rewrite <- Hcap, Z.land_spec in Hi. by apply andb_true_iff in Hi as [? _]. }
  set (s1 := mk_auth (prune n0 (table s)) (stream s) (slept s)).
  assert ((exists f, prune n0 (table s) !! peer = Some f /\ n1 < blocked_until f) \/
          (forall f, prune n0 (table s) !! peer = Some f -> blocked_until f <= n1)) as [(f & Ef & Hb)|Hfree].
  { destruct (prune n0 (table s) !! peer) as [f|]; [|by right].
    destruct (Z.ltb_spec n1 (blocked_until f)); [left; eauto|right]. by intros g [= <-]. }
  - rewrite Ef. destruct (Z.ltb_spec n1 (blocked_until f)); [|lia]. left. cbn. split; [done|]. eauto.
  - match goal with |- context [let (r, t) := ?c in _] =>
      assert (c = (Ok tt, prune n0 (table s))) as -> end.
    { destruct (prune n0 (table s) !! peer) as [f|]; [|done]. specialize (Hfree f eq_refl).
      destruct (Z.ltb_spec n1 (blocked_until f)); [lia|done]. }
    cbn beta iota. fold s1.
    pose proof (wp_authorize b opened drawn local peer verifier password trusted trusted_after others n2 n3 s1
      (counts_prune n0 _ Hc)) as Hw.
    unfold wp in Hw. destruct (sbind _ _ s1) as [[session|e|] s']; [|by right|done].
    split; [by apply Hbit|]. split; [by apply Hbit|]. split; [done|]. by destruct Hw.
Qed.

Lemma authorize_session_sound_witness :
  let s := mk_auth (apply_ops [TFailed 0 0 [7]; TFailed 1 1 [7]; TFailed 2 2 [7]; TFailed 3 3 [7]] ∅)
             (mk_link [] [] []) 0 in
  exists s', @authorize_session RemoteAuth.example_argon example_hmac (Ok [9]) true (Some [3]) [5] [7]
      (mk_verifier 1 [1] [2]) None 768 ∅ ∅ [] 10 10 20 20 s = (Err invalid, s') /\
    (stream s' = stream s \/ punished 20 [7] s s').
Proof.
  intros s. assert (exists s', @authorize_session RemoteAuth.example_argon example_hmac (Ok [9]) true (Some [3])
    [5] [7] (mk_verifier 1 [1] [2]) None 768 ∅ ∅ [] 10 10 20 20 s = (Err invalid, s')) as [s' E].
  { eexists. vm_compute. reflexivity. }
  exists s'. split; [exact E|].
  assert (counts_ok (table s)) as Hc.
  { apply counts_apply_ops. apply map_Forall_empty. }
  pose proof (@authorize_session_sound RemoteAuth.example_argon example_hmac [9] true (Some [3]) [5] [7]
    (mk_verifier 1 [1] [2]) None 768 ∅ ∅ [] 10 10 20 20 s Hc) as H.
  rewrite E in H. clear E Hc. clearbody s. destruct H as [H|[H|[H _]]];
    [left; exact (proj1 H)|right; exact H|by apply not_elem_of_empty in H].
Defined.

End Rights.
