(* ===== verification/Peers.v ===== *)
(** * Attempts to reach peers (src/node/core/network_state.rs)

    The registry of the desktop session: one attempt per peer, numbered, in a bounded
    table.  What a callback of an older attempt reports is dropped.  Instants are
    nanoseconds. *)
From Stdlib Require Import ZArith Lia.
From stdpp Require Import prelude gmap strings.
From S2P Require Import Prelude Message Identity RemoteAuth.

#[local] Open Scope Z_scope.

Module Peers.
Import Identity RemoteAuth.

(** [sub2api_gateway]: the feature of the build. *)
Definition MAX_PEERS (sub2api_gateway : bool) : Z := if sub2api_gateway then 128 else 16.
Definition MAX_PENDING_PEERS : Z := 8.
Definition PEER_LOOKUP_TIMEOUT : Z := 15 * 1000000000.
Definition MAX_RECONNECT_DELAY : Z := 30 * 1000.

Inductive PeerLifecycle : Type :=
  | PeerPending
  | Punching
  | Authenticating
  | Negotiating
  | RemoteAuthPending
  | Connected (authorization : RemoteAuthorization)
  | Disconnected
  | Failed (detail : list Z).

#[global] Instance PeerLifecycle_eq_dec : EqDecision PeerLifecycle.
Proof. solve_decision. Defined.

Definition is_connected (s : PeerLifecycle) : bool := match s with Connected _ => true | _ => false end.
Definition outbound_authorized (s : PeerLifecycle) : bool :=
  match s with Connected auth => RemoteAuth.outbound_authorized auth | _ => false end.
Definition is_pending (s : PeerLifecycle) : bool :=
  match s with PeerPending | Punching | Authenticating | Negotiating | RemoteAuthPending => true | _ => false end.
Definition is_active (s : PeerLifecycle) : bool := is_pending s || is_connected s.
Definition is_terminal (s : PeerLifecycle) : bool := match s with Disconnected | Failed _ => true | _ => false end.

Inductive BeginPeerAttempt : Type :=
  | Started (generation : Z)
  | AlreadyActive (generation : Z)
  | AtCapacity.

Record PeerRecord : Type := mk_record { generation : Z; state : PeerLifecycle; started : Z }.
Record PeerRegistry : Type := mk_registry { peers : gmap NodeId PeerRecord; next_generation : Z }.

Definition default_registry : PeerRegistry := mk_registry ∅ 0.

Definition select (p : PeerLifecycle -> bool) (r : PeerRegistry) : list (NodeId * PeerRecord) :=
  List.filter (fun kr => p (state kr.2)) (map_to_list (peers r)).

(** [min_by_key]: the first of the smallest. *)
Fixpoint oldest (l : list (NodeId * PeerRecord)) : option (NodeId * PeerRecord) :=
  match l with
  | [] => None
  | x :: l => match oldest l with
              | Some y => if generation y.2 <? generation x.2 then Some y else Some x
              | None => Some x
              end
  end.

Definition active_record (peer : NodeId) (r : PeerRegistry) : option PeerRecord :=
  match peers r !! peer with
  | Some record => if is_active (state record) then Some record else None
  | None => None
  end.

(** The oldest attempt that is over makes room. *)
Definition evict (max : Z) (m : gmap NodeId PeerRecord) (r : PeerRegistry) : gmap NodeId PeerRecord :=
  if max <=? Z.of_nat (size m) then
    match oldest (select is_terminal r) with
    | Some (peer, _) => delete peer m
    | None => m
    end
  else m.

Definition begin_attempt (gateway : bool) (peer : NodeId) (now : Z) (r : PeerRegistry) : BeginPeerAttempt * PeerRegistry :=
  match active_record peer r with
  | Some record => (AlreadyActive (generation record), r)
  | None =>
      if MAX_PENDING_PEERS <=? Z.of_nat (length (select is_pending r)) then (AtCapacity, r)
      else
        let m := evict (MAX_PEERS gateway) (peers r) r in
        if MAX_PEERS gateway <=? Z.of_nat (size m) then (AtCapacity, mk_registry m (next_generation r))
        else
          let g := Z.max 1 ((next_generation r + 1) mod (U64_MAX + 1)) in
          (Started g, mk_registry (<[peer := mk_record g PeerPending now]> m) g)
  end.

Definition transition (peer : NodeId) (g : Z) (s : PeerLifecycle) (r : PeerRegistry) : bool * PeerRegistry :=
  match peers r !! peer with
  | None => (false, r)
  | Some record =>
      if negb (generation record =? g) || is_terminal (state record) then (false, r)
      else (true, mk_registry (<[peer := mk_record (generation record) s (started record)]> (peers r)) (next_generation r))
  end.

Definition ids (l : list (NodeId * PeerRecord)) : list (NodeId * Z) := map (fun kr => (kr.1, generation kr.2)) l.
Definition active_peers (r : PeerRegistry) : list (NodeId * Z) := ids (select is_active r).
Definition expired_lookups (now : Z) (r : PeerRegistry) : list (NodeId * Z) :=
  ids (List.filter (fun kr => bool_decide (state kr.2 = PeerPending) && (PEER_LOOKUP_TIMEOUT <=? Z.max 0 (now - started kr.2)))
         (map_to_list (peers r))).
Definition pending_peers (r : PeerRegistry) : list (NodeId * Z) := ids (select (fun s => bool_decide (s = PeerPending)) r).
Definition generation_of (peer : NodeId) (r : PeerRegistry) : option Z := generation <$> peers r !! peer.
Definition state_of (peer : NodeId) (r : PeerRegistry) : option PeerLifecycle := state <$> peers r !! peer.
Definition is_current (peer : NodeId) (g : Z) (r : PeerRegistry) : bool := bool_decide (generation_of peer r = Some g).

(** [local < peer]: the order of arrays. *)
Fixpoint should_initiate_quic (local peer : NodeId) : bool :=
  match local, peer with
  | [], _ :: _ => true
  | a :: local, b :: peer => (a <? b) || (a =? b) && should_initiate_quic local peer
  | _, [] => false
  end.

(** In milliseconds; [jitter] is an [i32]. *)
Definition reconnect_delay (attempt jitter_per_mille : Z) : Z :=
  let base_seconds := match Z.min attempt 5 with 0 => 1 | 1 => 2 | 2 => 4 | 3 => 8 | 4 => 16 | _ => 30 end in
  let jitter := Z.max (-200) (Z.min 200 jitter_per_mille) in
  let base_millis := base_seconds * 1000 in
  Z.max 250 (Z.min MAX_RECONNECT_DELAY (base_millis + Z.quot (base_millis * jitter) 1000)).

(** ** Histories *)

Inductive op : Type :=
  | Begin (peer : NodeId) (now : Z)
  | Transition (peer : NodeId) (g : Z) (s : PeerLifecycle).

Definition step (gateway : bool) (o : op) (r : PeerRegistry) : PeerRegistry :=
  match o with
  | Begin peer now => (begin_attempt gateway peer now r).2
  | Transition peer g s => (transition peer g s r).2
  end.
Definition run (gateway : bool) (ops : list op) (r : PeerRegistry) : PeerRegistry := fold_left (fun r o => step gateway o r) ops r.

(** The attempt [g] at [peer] is going on. *)
Definition live (peer : NodeId) (g : Z) (r : PeerRegistry) : Prop :=
  exists record, peers r !! peer = Some record /\ generation record = g /\ is_active (state record) = true.

(** ** The invariant *)

Record sound (gateway : bool) (r : PeerRegistry) : Prop := {
  so_size : Z.of_nat (size (peers r)) <= MAX_PEERS gateway;
  so_next : 0 <= next_generation r;
  so_numbered : forall p rec, peers r !! p = Some rec -> 1 <= generation rec <= next_generation r;
  so_unique : forall p q a b, peers r !! p = Some a -> peers r !! q = Some b -> generation a = generation b -> p = q;
}.

Lemma active_terminal s : is_active s = negb (is_terminal s).
Proof. by destruct s. Qed.

Lemma oldest_in l x : oldest l = Some x -> x ∈ l.
Proof.
  revert x. induction l as [|y l IH]; intros x; cbn; [done|]. rewrite elem_of_cons. destruct (oldest l) as [z|].
  - destruct (_ <? _); intros [= <-]; [right; by apply IH|by left].
  - intros [= <-]. by left.
Qed.

Lemma oldest_some l : l <> [] -> is_Some (oldest l).
Proof. destruct l as [|y l]; [done|]. intros _. cbn. destruct (oldest l); [destruct (_ <? _)|]; eauto. Qed.

Lemma elem_of_select p r k rec : (k, rec) ∈ select p r <-> peers r !! k = Some rec /\ p (state rec) = true.
Proof. unfold select. rewrite list_elem_of_In, filter_In, <- list_elem_of_In, elem_of_map_to_list. done. Qed.

(** What making room removes: nothing, or one attempt that is over. *)
Lemma evict_cases max r : let m := evict max (peers r) r in
  m = peers r \/ exists p rec, peers r !! p = Some rec /\ is_terminal (state rec) = true /\ m = delete p (peers r) /\ max <= Z.of_nat (size (peers r)).
Proof.
  unfold evict. destruct (Z.leb_spec max (Z.of_nat (size (peers r)))); [|by left].
  destruct (oldest _) as [[p rec]|] eqn:E; [|by left]. right. apply oldest_in, elem_of_select in E as [Hp Ht]. eauto 6.
Qed.

(** Refused for want of room, nothing changes: every attempt is going on. *)
Lemma evict_full gateway r : sound gateway r -> MAX_PEERS gateway <= Z.of_nat (size (evict (MAX_PEERS gateway) (peers r) r)) ->
  evict (MAX_PEERS gateway) (peers r) r = peers r /\ forall p rec, peers r !! p = Some rec -> is_active (state rec) = true.
Proof.
  intros Hs. pose proof (so_size _ _ Hs) as Hsz. unfold evict. destruct (Z.leb_spec (MAX_PEERS gateway) (Z.of_nat (size (peers r)))); [|lia].
  destruct (oldest _) as [[p rec]|] eqn:E.
  - apply oldest_in, elem_of_select in E as [Hp Ht]. rewrite map_size_delete, Hp. cbn. intros Hfull.
    assert (MAX_PEERS gateway > 0) by by destruct gateway. lia.
  - intros _. split; [done|]. intros p rec Hp. rewrite active_terminal. destruct (is_terminal (state rec)) eqn:Ht; [|done]. exfalso.
    assert ((p, rec) ∈ select is_terminal r) as Hin by by apply elem_of_select.
    destruct (oldest_some (select is_terminal r)) as [x Hx]; [|congruence].
    intros E'. rewrite E' in Hin. by apply not_elem_of_nil in Hin.
Qed.

Lemma evict_room gateway r : sound gateway r -> let m := evict (MAX_PEERS gateway) (peers r) r in
  m ⊆ peers r /\ forall p rec, peers r !! p = Some rec -> is_active (state rec) = true -> m !! p = Some rec.
Proof.
  intros Hs. cbv zeta. destruct (evict_cases (MAX_PEERS gateway) r) as [->|(q & old & Hq & Ht & -> & _)]; [done|].
  split; [apply delete_subseteq|]. intros p rec Hp Ha. rewrite lookup_delete_ne; [done|]. intros ->.
  rewrite Hq in Hp. injection Hp as ->. rewrite active_terminal, Ht in Ha. done.
Qed.

Lemma next_number r : 0 <= next_generation r < U64_MAX -> Z.max 1 ((next_generation r + 1) mod (U64_MAX + 1)) = next_generation r + 1.
Proof. intros Hn. rewrite Z.mod_small; lia. Qed.

(** What a call of [begin_attempt] does. *)
Inductive begun (gateway : bool) (peer : NodeId) (now : Z) (r : PeerRegistry) : BeginPeerAttempt -> PeerRegistry -> Prop :=
  | begun_active rec : peers r !! peer = Some rec -> is_active (state rec) = true ->
      begun gateway peer now r (AlreadyActive (generation rec)) r
  | begun_full : (forall rec, peers r !! peer = Some rec -> is_active (state rec) = false) ->
      MAX_PENDING_PEERS <= Z.of_nat (length (select is_pending r)) \/
      (forall p rec, peers r !! p = Some rec -> is_active (state rec) = true) /\ MAX_PEERS gateway <= Z.of_nat (size (peers r)) ->
      begun gateway peer now r AtCapacity r
  | begun_started m : (forall rec, peers r !! peer = Some rec -> is_active (state rec) = false) ->
      Z.of_nat (length (select is_pending r)) < MAX_PENDING_PEERS -> m ⊆ peers r -> Z.of_nat (size m) < MAX_PEERS gateway ->
      (forall p rec, peers r !! p = Some rec -> is_active (state rec) = true -> m !! p = Some rec) ->
      begun gateway peer now r (Started (next_generation r + 1))
        (mk_registry (<[peer := mk_record (next_generation r + 1) PeerPending now]> m) (next_generation r + 1)).

Lemma active_record_cases peer r : match active_record peer r with
  | Some rec => peers r !! peer = Some rec /\ is_active (state rec) = true
  | None => forall rec, peers r !! peer = Some rec -> is_active (state rec) = false
  end.
Proof. unfold active_record. destruct (peers r !! peer) as [rec|]; [|done]. destruct (is_active (state rec)) eqn:E; [done|]. by intros ? [= <-]. Qed.

Lemma begin_begun gateway peer now r : sound gateway r -> next_generation r < U64_MAX ->
  begun gateway peer now r (begin_attempt gateway peer now r).1 (begin_attempt gateway peer now r).2.
Proof.
  intros Hs Hn. unfold begin_attempt. pose proof (active_record_cases peer r) as Hi.
  destruct (active_record peer r) as [rec|]; [destruct Hi; by apply begun_active|].
  destruct (Z.leb_spec MAX_PENDING_PEERS (Z.of_nat (length (select is_pending r)))); [apply begun_full; auto|].
  destruct (Z.leb_spec (MAX_PEERS gateway) (Z.of_nat (size (evict (MAX_PEERS gateway) (peers r) r)))) as [Hfull|Hroom]; cbn [fst snd].
  - destruct (evict_full _ _ Hs Hfull) as [Em Ha]. rewrite Em in *. replace (mk_registry (peers r) (next_generation r)) with r by by destruct r.
    apply begun_full; auto.
  - rewrite next_number by (pose proof (so_next _ _ Hs); lia). destruct (evict_room _ _ Hs) as [Hsub Hkeep]. by apply begun_started.
Qed.

Lemma begun_sound gateway peer now r o r' : sound gateway r -> begun gateway peer now r o r' -> sound gateway r'.
Proof.
  intros Hs [| |m Hi Hp Hsub Hroom Hkeep]; [done..|]. destruct Hs as [Sz Sn Sg Su].
  assert (forall p rec, m !! p = Some rec -> peers r !! p = Some rec) as Hm by (intros; by eapply lookup_weaken).
  split; cbn.
  - rewrite map_size_insert. destruct (m !! peer); cbn; lia.
  - lia.
  - intros p rec. rewrite lookup_insert. destruct (decide (peer = p)); [intros [= <-]; cbn; lia|]. intros Hp'%Hm. apply Sg in Hp'. lia.
  - intros p q a b. rewrite !lookup_insert. destruct (decide (peer = p)), (decide (peer = q)); [congruence|..].
    + intros [= <-] Hb. apply Hm, Sg in Hb. cbn. lia.
    + intros Ha%Hm%Sg [= <-]. cbn. lia.
    + intros Ha%Hm Hb%Hm. by apply Su.
Qed.

Lemma transition_cases peer g s r : let (ok, r') := transition peer g s r in
  ok = true /\ live peer g r /\ (exists rec, peers r !! peer = Some rec /\
    r' = mk_registry (<[peer := mk_record g s (started rec)]> (peers r)) (next_generation r)) \/
  ok = false /\ ~ live peer g r /\ r' = r.
Proof.
  unfold transition, live. destruct (peers r !! peer) as [rec|] eqn:E; [|right; naive_solver].
  pose proof (active_terminal (state rec)) as Hat. destruct (Z.eqb_spec (generation rec) g) as [<-|]; cbn [negb orb].
  2: { right. split; [done|]. split; [|done]. intros (? & [= <-] & ? & _). done. }
  destruct (is_terminal (state rec)) eqn:Et; [right|left].
  - split; [done|]. split; [|done]. intros (? & [= <-] & _ & Ha). rewrite Hat in Ha. done.
  - split; [done|]. split; [exists rec; split; [done|]; split; [done|]; by rewrite Hat|by eauto].
Qed.

Lemma step_sound gateway o r : sound gateway r -> next_generation r < U64_MAX -> sound gateway (step gateway o r) /\
  next_generation r <= next_generation (step gateway o r) <= next_generation r + 1.
Proof.
  intros Hs Hn. destruct o as [peer now|peer g s]; cbn.
  - pose proof (begin_begun gateway peer now r Hs Hn) as Hb. split; [by eapply begun_sound|].
    pose proof (so_next _ _ Hs). destruct Hb; cbn; lia.
  - pose proof (transition_cases peer g s r) as Ht. destruct (transition peer g s r) as [ok r']. cbn.
    destruct Ht as [(_ & (rec0 & E0 & Eg & _) & rec & E & ->)|(_ & _ & ->)]; [|split; [done|lia]]. cbn. split; [|lia].
    rewrite E in E0. injection E0 as <-. destruct Hs as [Sz Sn Sg Su]. split; cbn; [|done|..].
    + rewrite map_size_insert, E. done.
    + intros p x. rewrite lookup_insert. destruct (decide (peer = p)) as [<-|]; [|apply Sg]. intros [= <-]. cbn. rewrite <- Eg. by apply (Sg peer).
    + intros p q a b. rewrite !lookup_insert. destruct (decide (peer = p)), (decide (peer = q)); [congruence|..].
      * subst p. intros [= <-] Hb. cbn. rewrite <- Eg. intros Hab. by apply (Su peer q rec b).
      * subst q. intros Ha [= <-]. cbn. rewrite <- Eg. intros Hab. by apply (Su p peer a rec).
      * by apply Su.
Qed.

Lemma live_number gateway peer g r : sound gateway r -> live peer g r -> g <= next_generation r.
Proof. intros Hs (rec & E & <- & _). apply (so_numbered _ _ Hs) in E. lia. Qed.

(** An attempt that is over, or was replaced, never comes back. *)
Lemma step_dead gateway o peer g r : sound gateway r -> next_generation r < U64_MAX -> g <= next_generation r -> ~ live peer g r ->
  ~ live peer g (step gateway o r).
Proof.
  intros Hs Hn Hg Hd. destruct o as [q now|q g' s]; cbn.
  - destruct (begin_begun gateway q now r Hs Hn) as [| |m Hi Hp Hsub Hroom Hkeep]; [done..|].
    intros (rec & E & Eg & Ha). cbn in E. rewrite lookup_insert in E. destruct (decide (q = peer)) as [->|].
    + injection E as <-. cbn in Eg. lia.
    + apply Hd. exists rec. split; [by eapply lookup_weaken|done].
  - pose proof (transition_cases q g' s r) as Ht. destruct (transition q g' s r) as [ok r']. cbn.
    destruct Ht as [(_ & Hl & rec & E & ->)|(_ & _ & ->)]; [|done]. intros (x & Ex & Eg & Ha). cbn in Ex. rewrite lookup_insert in Ex.
    destruct (decide (q = peer)) as [->|]; [|apply Hd; by exists x]. injection Ex as <-. cbn in Eg. subst g'. done.
Qed.

Lemma run_sound gateway ops r : sound gateway r -> next_generation r + Z.of_nat (length ops) <= U64_MAX -> sound gateway (run gateway ops r) /\
  next_generation r <= next_generation (run gateway ops r) <= next_generation r + Z.of_nat (length ops) /\
  (forall peer g, g <= next_generation r -> ~ live peer g r -> ~ live peer g (run gateway ops r)).
Proof.
  revert r. induction ops as [|o ops IH]; intros r Hs Hn; [cbn; split; [done|]; split; [lia|auto]|]. cbn [length] in Hn.
  destruct (step_sound gateway o r Hs ltac:(lia)) as [Hs' Hn']. destruct (IH (step gateway o r) Hs' ltac:(lia)) as (Hr & Hb & Hd).
  cbn [run fold_left length] in *. split; [exact Hr|]. split; [unfold run in Hb; lia|].
  intros peer g Hg Hl. apply Hd; [lia|]. apply step_dead; (done || lia).
Qed.

Lemma default_sound gateway : sound gateway default_registry.
Proof. split; cbn; [rewrite map_size_empty; by destruct gateway|lia|..]; intros p; intros; by rewrite lookup_empty in *. Qed.

(** After any history the table is within its limit and no two peers have the same
    number.  A peer with an attempt going on is not tried again; a new attempt has a
    number that was never used, is only begun below the limit of pending attempts, and
    touches no other attempt that is going on; refused, nothing changes.  A report
    is taken exactly when its attempt is going on, and changes that attempt only; once an
    attempt is over or replaced no later report of it is taken, whatever happens. *)
Theorem peer_attempts_fenced (gateway : bool) (ops : list op) : let r := run gateway ops default_registry in
  Z.of_nat (length ops) < U64_MAX ->
  (Z.of_nat (size (peers r)) <= MAX_PEERS gateway /\
   forall p q a b, peers r !! p = Some a -> peers r !! q = Some b -> generation a = generation b -> p = q) /\
  (forall peer now, begun gateway peer now r (begin_attempt gateway peer now r).1 (begin_attempt gateway peer now r).2) /\
  (forall peer g, live peer g r -> g <= next_generation r) /\
  (forall peer g s, (transition peer g s r).1 = true <-> live peer g r) /\
  (forall peer g s, (transition peer g s r).1 = false -> (transition peer g s r).2 = r) /\
  (forall peer g s q, q <> peer -> peers (transition peer g s r).2 !! q = peers r !! q) /\
  (forall peer g later s, g <= next_generation r -> ~ live peer g r -> Z.of_nat (length (ops ++ later)) <= U64_MAX ->
     (transition peer g s (run gateway later r)).1 = false).
Proof.
  intros r Hlen. destruct (run_sound gateway ops default_registry (default_sound gateway) ltac:(cbn; lia)) as (Hs & Hn & _). fold r in Hs, Hn.
  cbn in Hn. split; [by split; apply Hs|]. split; [intros; apply begin_begun; [done|lia]|]. split; [intros; by eapply live_number|].
  split; [|split; [|split]].
  - intros peer g s. pose proof (transition_cases peer g s r) as Ht. destruct (transition peer g s r) as [ok r']. cbn.
    destruct Ht as [(-> & Hl & _)|(-> & Hl & _)]; by split.
  - intros peer g s. pose proof (transition_cases peer g s r) as Ht. destruct (transition peer g s r) as [ok r']. cbn.
    destruct Ht as [(-> & _)|(_ & _ & ->)]; done.
  - intros peer g s q Hq. pose proof (transition_cases peer g s r) as Ht. destruct (transition peer g s r) as [ok r']. cbn.
    destruct Ht as [(_ & _ & rec & _ & ->)|(_ & _ & ->)]; [|done]. cbn. by rewrite lookup_insert_ne.
  - intros peer g later s Hg Hd Hl. rewrite length_app in Hl.
    destruct (run_sound gateway later r Hs ltac:(lia)) as (_ & _ & Hdead). specialize (Hdead peer g Hg Hd).
    pose proof (transition_cases peer g s (run gateway later r)) as Ht. destruct (transition peer g s (run gateway later r)) as [ok r']. cbn.
    destruct Ht as [(_ & Hl' & _)|(-> & _)]; done.
Qed.

(** Of two peers exactly one opens the connection. *)
Lemma one_dialer local peer : length local = length peer -> local <> peer ->
  should_initiate_quic local peer = negb (should_initiate_quic peer local).
Proof.
  revert peer. induction local as [|a local IH]; intros [|b peer] Hl Hne; try done. cbn in *. destruct (Z.lt_trichotomy a b) as [|[->|]].
  - destruct (Z.ltb_spec a b), (Z.ltb_spec b a), (Z.eqb_spec b a); (lia || done).
  - rewrite Z.ltb_irrefl, Z.eqb_refl. cbn. apply IH; [lia|]. congruence.
  - destruct (Z.ltb_spec a b), (Z.ltb_spec b a), (Z.eqb_spec a b); (lia || done).
Qed.

(** The delay is within a fifth of the exponential one, and within its limits. *)
Lemma reconnect_delay_bounds attempt jitter : 0 <= attempt ->
  let base := if attempt <=? 4 then 1000 * 2 ^ attempt else 30000 in
  800 <= reconnect_delay attempt jitter <= MAX_RECONNECT_DELAY /\
  base * 8 <= 10 * reconnect_delay attempt jitter <= base * 12 /\ reconnect_delay attempt 0 = base.
Proof.
  intros Ha. unfold reconnect_delay. set (j := Z.max (-200) (Z.min 200 jitter)). assert (-200 <= j <= 200) as Hj by lia. clearbody j.
  cbv zeta. unfold MAX_RECONNECT_DELAY.
  assert (forall k, Z.quot (k * 1000 * j) 1000 = k * j) as Hq.
  { intros k. replace (k * 1000 * j) with (k * j * 1000) by ring. by apply Z.quot_mul. }
  assert (forall k, Z.quot (k * 1000 * Z.max (-200) (Z.min 200 0)) 1000 = 0) as Hz by (intros k; cbn [Z.max Z.min]; by rewrite Z.mul_0_r).
  rewrite Hq, Hz. destruct (Z.leb_spec attempt 4) as [H4|H4].
  - assert (attempt = 0 \/ attempt = 1 \/ attempt = 2 \/ attempt = 3 \/ attempt = 4) as [->|[->|[->|[->| ->]]]] by lia;
      match goal with |- context [Z.min ?a 5] => let v := eval vm_compute in (Z.min a 5) in change (Z.min a 5) with v end;
      match goal with |- context [2 ^ ?a] => let v := eval vm_compute in (2 ^ a) in change (2 ^ a) with v end; cbv iota; lia.
  - rewrite (Z.min_r attempt 5) by lia. cbv iota. lia.
Qed.

(** Two peers, the second of which replaces a failed first attempt. *)
Lemma peer_attempts_fenced_witness :
  let r := run false [Begin [1] 0; Transition [1] 1 (Failed []); Begin [1] 5] default_registry in
  generation_of [1] r = Some 2 /\ (transition [1] 1 (Connected (mk_rights (password_grant true) (password_grant true))) r).1 = false.
Proof.
  cbv zeta. split; [vm_compute; reflexivity|].
  destruct (peer_attempts_fenced false [Begin [1] 0; Transition [1] 1 (Failed []); Begin [1] 5]) as (_ & _ & _ & _ & _ & _ & Hstale); [vm_compute; reflexivity|].
  apply (Hstale [1] 1 []); [vm_compute; discriminate| |vm_compute; discriminate].
  intros (rec & E & Eg & _). vm_compute in E. injection E as <-. discriminate.
Defined.
End Peers.
