(* ===== verification/NetRecovery.v ===== *)
(** * Recovering the network of a session (src/node/core/session/recovery.rs)

    When the session refreshes its sockets and candidates, and when it tries a lost
    device again: what the maintenance tick asks.  Instants are nanoseconds since the
    start; the wall clock and the interfaces that a tick finds are its arguments. *)
From Stdlib Require Import ZArith Lia Sorted.
From stdpp Require Import prelude gmap strings.
From S2P Require Import Prelude Message RemoteAuth Peers.

#[local] Open Scope Z_scope.

Module NetRecovery.
Import Peers.

Definition second : Z := 1000000000.
Definition SAMPLE : Z := 5 * second.
Definition REFRESH_COOLDOWN : Z := 60 * second.

Record Attempt : Type := mk_attempt {
  generation : Z;
  terminal : bool;
  transport_attempted : bool;
  transport_ok : bool;
  auth_failed : bool;
  connected_before : bool;
  failures : Z;
  retry_at : Z;
}.
Definition default_attempt : Attempt := mk_attempt 0 false false false false false 0 0.

Inductive RefreshReason : Type := Wake | Interfaces | Retry | ThreeFailures.
#[global] Instance RefreshReason_eq_dec : EqDecision RefreshReason.
Proof. solve_decision. Defined.

Definition can_refresh (healthy : bool) (r : RefreshReason) : bool :=
  match r with Interfaces => negb healthy | _ => true end.

(** [now] is [started.elapsed()]; the wall clock enters with its readings. *)
Record Recovery : Type := mk_recovery {
  now : Z;
  last_tick : Z;
  interfaces : option (gset (list Z));
  candidate : option (gset (list Z));
  pending_change : option RefreshReason;
  last_refresh : Z;
  recent_failures : list Z;
  attempts : gmap NodeId Attempt;
}.

Definition default_recovery (ifs : option (gset (list Z))) : Recovery := mk_recovery 0 0 ifs None None 0 [] ∅.

Definition with_attempts (m : gmap NodeId Attempt) (s : Recovery) : Recovery :=
  mk_recovery (now s) (last_tick s) (interfaces s) (candidate s) (pending_change s) (last_refresh s) (recent_failures s) m.
Definition with_failures (l : list Z) (s : Recovery) : Recovery :=
  mk_recovery (now s) (last_tick s) (interfaces s) (candidate s) (pending_change s) (last_refresh s) l (attempts s).

Section Gateway.
Context (gateway : bool).

(** Room for a device, made where the table is full; [None] when there is none. *)
Definition make_room (p : NodeId) (m : gmap NodeId Attempt) : bool * gmap NodeId Attempt :=
  if negb (bool_decide (is_Some (m !! p))) && (MAX_PEERS gateway <=? Z.of_nat (size m)) then
    let m := filter (fun kv => connected_before kv.2 = true) m in
    (Z.of_nat (size m) <? MAX_PEERS gateway, m)
  else (true, m).

(** The first event of a generation starts it anew. *)
Definition renew (g : Z) (a : Attempt) : Attempt :=
  if generation a =? g then a else mk_attempt g false false false false (connected_before a) (failures a) (retry_at a).

(** [reconnect_delay] in milliseconds. *)
Definition delay (n : Z) : Z := reconnect_delay n 0 * 1000000.

(** What one state of an attempt changes; [t] is the time. *)
Definition observe (st : PeerLifecycle) (t : Z) (a : Attempt) (fs : list Z) : Attempt * list Z :=
  match st with
  | Punching | Authenticating =>
      (mk_attempt (generation a) (terminal a) true (transport_ok a) (auth_failed a) (connected_before a) (failures a) (retry_at a), fs)
  | Negotiating | RemoteAuthPending =>
      (mk_attempt (generation a) (terminal a) (transport_attempted a) true (auth_failed a) (connected_before a) (failures a) (retry_at a), fs)
  | Connected _ =>
      (mk_attempt (generation a) (terminal a) (transport_attempted a) true false true 0 (retry_at a), [])
  | Failed _ =>
      let n := saturating_add U32_MAX (failures a) 1 in
      (mk_attempt (generation a) true (transport_attempted a) (transport_ok a) (transport_ok a) (connected_before a) n (t + delay n),
       if transport_attempted a && negb (transport_ok a)
       then (if (length fs =? 3)%nat then tail fs else fs) ++ [t] else fs)
  | Disconnected =>
      (mk_attempt (generation a) true (transport_attempted a) (transport_ok a) (auth_failed a) (connected_before a) (failures a) (t + SAMPLE), fs)
  | PeerPending => (a, fs)
  end.

Definition event (p : NodeId) (g : Z) (st : PeerLifecycle) (s : Recovery) : Recovery :=
  let (room, m) := make_room p (attempts s) in
  if negb room then with_attempts m s
  else
    let a := default default_attempt (m !! p) in
    if g <? generation a then with_attempts (<[p := a]> m) s
    else
      let a := renew g a in
      if terminal a then with_attempts (<[p := a]> m) s
      else
        let (a, fs) := observe st (now s) a (recent_failures s) in
        with_failures fs (with_attempts (<[p := a]> m) s).

Definition retry_due (p : NodeId) (s : Recovery) : bool * Recovery :=
  if negb (bool_decide (is_Some (attempts s !! p))) && (MAX_PEERS gateway <=? Z.of_nat (size (attempts s))) then (false, s)
  else
    let a := default default_attempt (attempts s !! p) in
    if auth_failed a || (now s <? retry_at a) then (false, with_attempts (<[p := a]> (attempts s)) s)
    else
      (true, with_attempts (<[p := mk_attempt (generation a) (terminal a) (transport_attempted a) (transport_ok a) (auth_failed a)
                                      (connected_before a) (failures a) (now s + 30 * second)]> (attempts s)) s).

Definition set_pending (r : option RefreshReason) (s : Recovery) : Recovery :=
  mk_recovery (now s) (last_tick s) (interfaces s) (candidate s) r (last_refresh s) (recent_failures s) (attempts s).
Definition retry_refresh (s : Recovery) : Recovery := set_pending (Some Retry) s.

(** A change of the interfaces counts when two ticks in a row see it. *)
Definition see_interfaces (current : option (gset (list Z))) (s : Recovery) : Recovery :=
  let with_seen i c r := mk_recovery (now s) (last_tick s) i c r (last_refresh s) (recent_failures s) (attempts s) in
  match current with
  | Some x =>
      if match interfaces s with None => true | Some old => bool_decide (old = x) end then with_seen (Some x) None (pending_change s)
      else if bool_decide (candidate s = Some x) then
        with_seen (Some x) None (match pending_change s with Some r => Some r | None => Some Interfaces end)
      else with_seen (interfaces s) (Some x) (pending_change s)
  | None => with_seen (interfaces s) None (pending_change s)
  end.

Definition sample (gap : Z) (current : option (gset (list Z))) (healthy : bool) (s : Recovery) : option RefreshReason * Recovery :=
  let s := if 30 * second <=? gap then set_pending (Some Wake) s else s in
  let s := see_interfaces current s in
  let s := with_failures (List.filter (fun t => now s - t <=? 90 * second) (recent_failures s)) s in
  let reason :=
    match pending_change s with
    | Some r => if can_refresh healthy r then Some r
                else if negb healthy && (3 <=? length (recent_failures s))%nat then Some ThreeFailures else None
    | None => if negb healthy && (3 <=? length (recent_failures s))%nat then Some ThreeFailures else None
    end in
  if bool_decide (is_Some reason) && ((last_refresh s =? 0) || (REFRESH_COOLDOWN <=? now s - last_refresh s)) then
    (reason, mk_recovery (now s) (last_tick s) (interfaces s) (candidate s) None (Z.max (now s) 1) [] (attempts s))
  else (None, s).

(** [wall]: what the wall clock moved since the last tick, zero when it went back. *)
Definition poll (wall : Z) (current : option (gset (list Z))) (healthy : bool) (s : Recovery) : option RefreshReason * Recovery :=
  if now s - last_tick s <? SAMPLE then (None, s)
  else
    let gap := Z.max wall (now s - last_tick s) in
    sample gap current healthy
      (mk_recovery (now s) (now s) (interfaces s) (candidate s) (pending_change s) (last_refresh s) (recent_failures s) (attempts s)).

(** ** A session's life *)

Inductive op : Type :=
  | Pass (d : Z)
  | Event (p : NodeId) (g : Z) (st : PeerLifecycle)
  | RetryDue (p : NodeId)
  | RetryRefresh
  | Tick (wall : Z) (current : option (gset (list Z))) (healthy : bool).

(** What the session is told to do. *)
Inductive order : Type :=
  | Refresh (at_ : Z) (r : RefreshReason) (healthy : bool)
  | Reconnect (at_ : Z) (p : NodeId).

Definition step (o : op) (s : Recovery) : list order * Recovery :=
  match o with
  | Pass d => ([], mk_recovery (now s + Z.max 0 d) (last_tick s) (interfaces s) (candidate s) (pending_change s) (last_refresh s)
                     (recent_failures s) (attempts s))
  | Event p g st => ([], event p g st s)
  | RetryDue p => let (b, s') := retry_due p s in ((if b then [Reconnect (now s) p] else []), s')
  | RetryRefresh => ([], retry_refresh s)
  | Tick wall current healthy =>
      let (r, s') := poll wall current healthy s in
      (match r with Some r => [Refresh (now s) r healthy] | None => [] end, s')
  end.

Fixpoint run (ops : list op) (s : Recovery) : list order * Recovery :=
  match ops with
  | [] => ([], s)
  | o :: ops => let (l, s') := step o s in let (l', s'') := run ops s' in (l ++ l', s'')
  end.

(** ** Facts *)

Record sound (s : Recovery) : Prop := mk_sound {
  so_now : 0 <= now s;
  so_last : 0 <= last_refresh s <= Z.max (now s) 1;
  so_attempts : Z.of_nat (size (attempts s)) <= MAX_PEERS gateway;
  so_failures : (length (recent_failures s) <= 3)%nat;
  so_refused : forall p a, attempts s !! p = Some a -> auth_failed a = true -> terminal a = true;
}.

Lemma max_peers_pos : 0 < MAX_PEERS gateway.
Proof. unfold MAX_PEERS. by destruct gateway. Qed.

Lemma sound_default ifs : sound (default_recovery ifs).
Proof.
  pose proof max_peers_pos. split; cbn; try lia; [rewrite map_size_empty; lia|]. intros p a. by rewrite lookup_empty.
Qed.

(** The attempts of a table, within the limit, each refused one over. *)
Definition table_ok (m : gmap NodeId Attempt) : Prop :=
  Z.of_nat (size m) <= MAX_PEERS gateway /\ forall p a, m !! p = Some a -> auth_failed a = true -> terminal a = true.

Lemma table_insert m p a : table_ok m -> (auth_failed a = true -> terminal a = true) ->
  (is_Some (m !! p) \/ Z.of_nat (size m) < MAX_PEERS gateway) -> table_ok (<[p := a]> m).
Proof.
  intros [Hs Ht] Ha Hr. split.
  - rewrite map_size_insert. destruct (m !! p); [done|]. destruct Hr as [[x Hx]|Hr]; [done|lia].
  - intros q b. rewrite lookup_insert. case_decide; [by intros [= <-]|apply Ht].
Qed.

Lemma make_room_ok p m : table_ok m ->
  table_ok (make_room p m).2 /\ ((make_room p m).1 = true -> is_Some ((make_room p m).2 !! p) \/ Z.of_nat (size (make_room p m).2) < MAX_PEERS gateway).
Proof.
  intros [Hs Ht]. unfold make_room. case_bool_decide as Hp; cbn [negb andb fst snd]; [split; [by split|by left]|].
  destruct (Z.leb_spec (MAX_PEERS gateway) (Z.of_nat (size m))); cbn [fst snd].
  - split; [|intros Hl%Z.ltb_lt; by right]. split; [|intros q a [Hq _]%map_lookup_filter_Some; by apply (Ht q)].
    etrans; [|exact Hs]. apply inj_le, map_subseteq_size, map_filter_subseteq.
  - split; [by split|by right].
Qed.

Lemma observe_ok st t a fs : (length fs <= 3)%nat -> terminal a = false -> (auth_failed a = true -> terminal a = true) ->
  (auth_failed (observe st t a fs).1 = true -> terminal (observe st t a fs).1 = true) /\ (length (observe st t a fs).2 <= 3)%nat.
Proof.
  intros Hl Ht Ha. destruct st; cbn; try done; try (by split); try (split; [done|cbn; lia]).
  split; [done|]. destruct (transport_attempted a && negb (transport_ok a)); [|done]. rewrite length_app. cbn.
  destruct (Nat.eqb_spec (length fs) 3) as [E|E]; [|lia]. destruct fs; [done|]. cbn in *. lia.
Qed.

Lemma renew_ok g a : (auth_failed a = true -> terminal a = true) -> auth_failed (renew g a) = true -> terminal (renew g a) = true.
Proof. intros Ha. unfold renew. by destruct (generation a =? g). Qed.

Lemma sound_table s m : sound s -> table_ok m -> sound (with_attempts m s).
Proof. intros [S1 S2 S3 S4 S5] [T1 T2]. by split. Qed.

Lemma default_ok m p : table_ok m -> auth_failed (default default_attempt (m !! p)) = true -> terminal (default default_attempt (m !! p)) = true.
Proof. intros [_ Ht]. destruct (m !! p) eqn:E; cbn; [by apply (Ht p)|done]. Qed.

Lemma sound_event p g st s : sound s -> sound (event p g st s).
Proof.
  intros Hs. assert (table_ok (attempts s)) as Ht by (split; apply Hs). unfold event.
  destruct (make_room_ok p _ Ht) as [Hm Hroom]. destruct (make_room p (attempts s)) as [room m]. cbn [fst snd] in *.
  destruct room; cbn [negb]; [|by apply sound_table]. specialize (Hroom eq_refl).
  pose proof (default_ok m p Hm) as Ha. set (a := default default_attempt (m !! p)) in *.
  destruct (g <? generation a); [by apply sound_table; [|apply table_insert]|].
  pose proof (renew_ok g a Ha) as Hb. destruct (terminal (renew g a)) eqn:Et; [by apply sound_table; [|apply table_insert]|].
  pose proof (observe_ok st (now s) (renew g a) (recent_failures s) (so_failures _ Hs) Et) as Ho. rewrite Et in Ho. specialize (Ho Hb) as [Ho Hl].
  destruct (observe _ _ _ _) as [b fs]. cbn [fst snd] in *.
  assert (sound (with_attempts (<[p := b]> m) s)) as [S1 S2 S3 S4 S5] by (apply sound_table; [done|by apply table_insert]). by split.
Qed.

Lemma sound_retry p s : sound s -> sound (retry_due p s).2.
Proof.
  intros Hs. assert (table_ok (attempts s)) as Ht by (split; apply Hs). unfold retry_due.
  case_bool_decide as Hp; cbn [negb andb].
  - pose proof (default_ok _ p Ht) as Ha. destruct (auth_failed _ || _); cbn [snd]; (apply sound_table; [done|apply table_insert; [done|done|by left]]).
  - destruct (Z.leb_spec (MAX_PEERS gateway) (Z.of_nat (size (attempts s)))); [done|].
    pose proof (default_ok _ p Ht) as Ha. destruct (auth_failed _ || _); cbn [snd]; (apply sound_table; [done|apply table_insert; [done|done|by right]]).
Qed.

(** What a tick does to the rest. *)
Lemma see_interfaces_same x s : let s' := see_interfaces x s in
  now s' = now s /\ last_refresh s' = last_refresh s /\ attempts s' = attempts s /\ recent_failures s' = recent_failures s /\
  (pending_change s' = pending_change s \/ pending_change s = None /\ pending_change s' = Some Interfaces).
Proof.
  unfold see_interfaces. destruct x as [x|]; [|cbn; auto 8].
  destruct (match interfaces s with None => true | Some old => bool_decide (old = x) end); [cbn; auto 8|].
  case_bool_decide; cbn; [|auto 8]. destruct (pending_change s); auto 8.
Qed.

(** The reason a tick sees. *)
Definition reason_of (healthy : bool) (pending : option RefreshReason) (fs : list Z) : option RefreshReason :=
  match pending with
  | Some r => if can_refresh healthy r then Some r else if negb healthy && (3 <=? length fs)%nat then Some ThreeFailures else None
  | None => if negb healthy && (3 <=? length fs)%nat then Some ThreeFailures else None
  end.
Definition cooled (s : Recovery) : Prop := last_refresh s = 0 \/ last_refresh s + REFRESH_COOLDOWN <= now s.

Lemma sample_spec gap x healthy s : exists pending fs,
  (pending = (if 30 * second <=? gap then Some Wake else pending_change s) \/
   30 * second > gap /\ pending_change s = None /\ pending = Some Interfaces) /\
  fs = List.filter (fun t => now s - t <=? 90 * second) (recent_failures s) /\
  let '(r, s') := sample gap x healthy s in
  now s' = now s /\ attempts s' = attempts s /\ last_tick s' = last_tick s /\
  ((exists why, r = Some why /\ reason_of healthy pending fs = Some why /\ cooled s /\
      last_refresh s' = Z.max (now s) 1 /\ pending_change s' = None /\ recent_failures s' = []) \/
   (r = None /\ (reason_of healthy pending fs = None \/ ~ cooled s) /\
      last_refresh s' = last_refresh s /\ pending_change s' = pending /\ recent_failures s' = fs)).
Proof.
  unfold sample. set (s1 := if 30 * second <=? gap then set_pending (Some Wake) s else s).
  assert (now s1 = now s /\ last_refresh s1 = last_refresh s /\ attempts s1 = attempts s /\ recent_failures s1 = recent_failures s /\ last_tick s1 = last_tick s /\
    pending_change s1 = (if 30 * second <=? gap then Some Wake else pending_change s)) as (E1 & E2 & E3 & E4 & E0 & E5) by (unfold s1; by destruct (30 * second <=? gap)).
  assert (last_tick (see_interfaces x s1) = last_tick s1) as E6.
  { unfold see_interfaces. destruct x; [|done]. repeat case_match; done. }
  destruct (see_interfaces_same x s1) as (F1 & F2 & F3 & F4 & F5). set (s2 := see_interfaces x s1) in *.
  exists (pending_change s2), (List.filter (fun t => now s - t <=? 90 * second) (recent_failures s)). split; [|split; [done|]].
  { rewrite E5 in F5. destruct (Z.leb_spec (30 * second) gap); [left; destruct F5 as [F5|[F5 _]]; done|].
    destruct F5 as [F5|[F5 F6]]; [by left|right]. split; [lia|done]. }
  cbv zeta. set (s3 := with_failures _ s2).
  assert (recent_failures s3 = List.filter (fun t => now s - t <=? 90 * second) (recent_failures s)) as E7 by (unfold s3; cbn; by rewrite F4, E4, F1, E1).
  change (pending_change s3) with (pending_change s2). rewrite E7. fold (reason_of healthy (pending_change s2) (List.filter (fun t => now s - t <=? 90 * second) (recent_failures s))).
  assert (bool_decide (cooled s) = ((last_refresh s3 =? 0) || (REFRESH_COOLDOWN <=? now s3 - last_refresh s3))) as Ecool.
  { change (last_refresh s3) with (last_refresh s2). change (now s3) with (now s2). rewrite F1, F2, E1, E2.
    apply eq_iff_eq_true. rewrite bool_decide_eq_true, orb_true_iff, Z.eqb_eq, Z.leb_le. unfold cooled. intuition lia. }
  rewrite <- Ecool. change (now s3) with (now s2). change (attempts s3) with (attempts s2).
  assert (now s3 = now s /\ attempts s3 = attempts s /\ last_tick s3 = last_tick s /\ last_refresh s3 = last_refresh s /\ pending_change s3 = pending_change s2)
    as (G1 & G2 & G3 & G4 & G5) by (unfold s3; cbn; repeat split; congruence).
  destruct (reason_of healthy (pending_change s2) _) as [why|] eqn:Er.
  - case_bool_decide as Hcool; cbn [andb].
    + cbn. split; [congruence|]. split; [congruence|]. split; [congruence|]. left. exists why. split; [done|]. split; [done|]. split; [done|]. split; [congruence|done].
    + split; [done|]. split; [done|]. split; [done|]. right. split; [done|]. split; [by right|done].
  - cbn [andb]. split; [done|]. split; [done|]. split; [done|]. right. split; [done|]. split; [by left|done].
Qed.

(** ** Histories *)

Definition apart (x y : order) : Prop :=
  match x, y with Refresh t1 _ _, Refresh t2 _ _ => t1 + REFRESH_COOLDOWN <= t2 | _, _ => True end.
(** A refresh that has happened. *)
Definition past (s : Recovery) (o : order) : Prop :=
  match o with
  | Refresh t r healthy => t <= last_refresh s /\ last_refresh s <> 0 /\ (healthy = true -> r = Wake \/ r = Retry)
  | Reconnect t _ => t <= now s
  end.
Record disciplined (l : list order) (s : Recovery) : Prop := mk_disciplined {
  di_sound : sound s;
  di_apart : StronglySorted apart l;
  di_past : Forall (past s) l;
}.

Lemma sorted_snoc l x : StronglySorted apart l -> Forall (fun y => apart y x) l -> StronglySorted apart (l ++ [x]).
Proof.
  induction 1 as [|y l Hl IH Hy]; intros Hx; cbn; [by repeat constructor|]. apply Forall_cons in Hx as [Hyx Hx].
  constructor; [by apply IH|]. apply Forall_app. split; [done|by repeat constructor].
Qed.

Lemma disciplined_same l s s' : disciplined l s -> sound s' -> last_refresh s' = last_refresh s -> now s <= now s' -> disciplined l s'.
Proof.
  intros [D1 D2 D3] Hs El En. split; [done|done|]. eapply Forall_impl; [exact D3|]. intros [t r h|t p]; cbn; rewrite ?El; [done|lia].
Qed.

Lemma event_same p g st s : now (event p g st s) = now s /\ last_refresh (event p g st s) = last_refresh s /\
  last_tick (event p g st s) = last_tick s /\ pending_change (event p g st s) = pending_change s.
Proof.
  unfold event. destruct (make_room p (attempts s)) as [[|] m]; cbn [negb]; [|done].
  destruct (g <? _); [done|]. destruct (terminal _); [done|]. by destruct (observe _ _ _ _).
Qed.

Lemma retry_same p s : let s' := (retry_due p s).2 in
  now s' = now s /\ last_refresh s' = last_refresh s /\ last_tick s' = last_tick s /\ pending_change s' = pending_change s.
Proof. unfold retry_due. destruct (_ && _); [done|]. by destruct (auth_failed _ || _). Qed.

Lemma failures_filtered s (f : Z -> bool) : sound s -> (length (List.filter f (recent_failures s)) <= 3)%nat.
Proof. intros Hs. etrans; [apply List.filter_length_le|apply Hs]. Qed.

Lemma reason_healthy healthy pending fs why : reason_of healthy pending fs = Some why -> healthy = true -> why <> Interfaces /\ why <> ThreeFailures \/ pending = Some ThreeFailures.
Proof. intros E ->. unfold reason_of in E. destruct pending as [[| | |]|]; cbn in E; simplify_eq; auto. Qed.

(** Three failures are never pending. *)
Definition pending_ok (s : Recovery) : Prop := pending_change s <> Some ThreeFailures.

Lemma disciplined_step l s o : disciplined l s -> pending_ok s ->
  disciplined (l ++ (step o s).1) (step o s).2 /\ pending_ok (step o s).2.
Proof.
  intros [D1 D2 D3] Hp. destruct o as [d|p g st|p| |wall x healthy]; cbn [step fst snd]; rewrite ?app_nil_r.
  - split; [|done]. apply (disciplined_same l s); [by split| |done|cbn; lia]. destruct D1 as [S1 S2 S3 S4 S5]. split; cbn; try done; lia.
  - destruct (event_same p g st s) as (E1 & E2 & _ & E3). split; [|unfold pending_ok; by rewrite E3].
    apply (disciplined_same l s); [by split|by apply sound_event|done|lia].
  - pose proof (retry_same p s) as (E1 & E2 & _ & E3). pose proof (sound_retry p s D1) as Hs. destruct (retry_due p s) as [b s'].
    cbn [fst snd] in *. split; [|unfold pending_ok; by rewrite E3].
    assert (disciplined l s') as [T1 T2 T3] by (apply (disciplined_same l s); [by split|done|done|lia]).
    destruct b; [|by rewrite app_nil_r]. split; [done| |].
    + apply sorted_snoc; [done|]. apply Forall_forall. by intros [] _.
    + apply Forall_app. split; [done|]. repeat constructor. cbn. lia.
  - split; [|done]. apply (disciplined_same l s); [by split| |done|cbn; lia]. by destruct D1.
  - unfold poll. destruct (now s - last_tick s <? SAMPLE); [cbn; by rewrite app_nil_r|].
    set (s0 := mk_recovery _ _ _ _ _ _ _ _). set (gap := Z.max wall _).
    destruct (sample_spec gap x healthy s0) as (pending & fs & Hpe & -> & Hsp). destruct (sample gap x healthy s0) as [r s'].
    destruct Hsp as (E1 & E2 & _ & Hsp). change (now s0) with (now s) in *. change (attempts s0) with (attempts s) in *.
    change (last_refresh s0) with (last_refresh s) in *. change (recent_failures s0) with (recent_failures s) in *. change (pending_change s0) with (pending_change s) in *.
    pose proof D1 as [S1 S2 S3 S4 S5].
    assert (pending <> Some ThreeFailures) as Hpt by (destruct Hpe as [->|(_ & _ & ->)]; [by destruct (30 * second <=? gap)|done]).
    destruct Hsp as [(why & -> & Hwhy & Hcool & El & Ep & Ef)|(-> & _ & El & Ep & Ef)]; cbn [fst snd].
    + split; [|unfold pending_ok; by rewrite Ep]. unfold cooled in Hcool. change (last_refresh s0) with (last_refresh s) in Hcool. change (now s0) with (now s) in Hcool.
      split.
      * split; rewrite ?E1, ?E2, ?El, ?Ef; try done; [lia|cbn; lia].
      * apply sorted_snoc; [done|]. eapply Forall_impl; [exact D3|]. intros [t r h|t q]; cbn; [|done]. intros (Ht & Hn & _). unfold REFRESH_COOLDOWN in *. lia.
      * apply Forall_app. split.
        -- eapply Forall_impl; [exact D3|]. intros [t r h|t q]; cbn; rewrite ?El, ?E1; [|lia]. intros (Ht & Hn & Hh). split; [lia|]. split; [lia|done].
        -- apply Forall_singleton. split; [rewrite El; lia|]. split; [rewrite El; lia|]. intros Hh. destruct (reason_healthy _ _ _ _ Hwhy Hh) as [[H1 H2]|]; [|done]. destruct why; auto; done.
    + rewrite app_nil_r. split; [|unfold pending_ok; by rewrite Ep]. apply (disciplined_same l s); [by split| |done|lia].
      split; rewrite ?E1, ?E2, ?El, ?Ef; try done. by apply failures_filtered.
Qed.

Lemma recovery_run_cons o ops s : run (o :: ops) s = ((step o s).1 ++ (run ops (step o s).2).1, (run ops (step o s).2).2).
Proof. cbn [run]. destruct (step o s) as [l s']. cbn. by destruct (run ops s'). Qed.

Lemma disciplined_run ops l s : disciplined l s -> pending_ok s -> disciplined (l ++ (run ops s).1) (run ops s).2 /\ pending_ok (run ops s).2.
Proof.
  revert l s. induction ops as [|o ops IH]; intros l s Hd Hp; [cbn; by rewrite app_nil_r|].
  rewrite recovery_run_cons. cbn [fst snd]. rewrite app_assoc. destruct (disciplined_step l s o Hd Hp) as [Hd' Hp']. by apply IH.
Qed.

Lemma disciplined_initial ifs : disciplined [] (default_recovery ifs).
Proof. split; [apply sound_default|constructor|constructor]. Qed.

(** A pending wake or retry stays until a tick refreshes. *)
Definition urgent (s : Recovery) : Prop := pending_change s = Some Wake \/ pending_change s = Some Retry.
Definition is_refresh (o : order) : bool := match o with Refresh _ _ _ => true | _ => false end.

Lemma urgent_step s o : urgent s -> existsb is_refresh (step o s).1 = false -> urgent (step o s).2.
Proof.
  intros Hu. destruct o as [d|p g st|p| |wall x healthy]; cbn [step fst snd].
  - done.
  - intros _. destruct (event_same p g st s) as (_ & _ & _ & E3). unfold urgent. by rewrite E3.
  - intros _. pose proof (retry_same p s) as (_ & _ & _ & E3). destruct (retry_due p s) as [b s']. cbn [fst snd] in *. unfold urgent. by rewrite E3.
  - intros _. by right.
  - unfold poll. destruct (now s - last_tick s <? SAMPLE); [done|]. set (s0 := mk_recovery _ _ _ _ _ _ _ _). set (gap := Z.max wall _).
    destruct (sample_spec gap x healthy s0) as (pending & fs & Hpe & -> & Hsp). destruct (sample gap x healthy s0) as [r s'].
    destruct Hsp as (_ & _ & _ & [(why & -> & _)|(-> & _ & _ & Ep & _)]); cbn; [done|]. intros _. unfold urgent. rewrite Ep.
    destruct Hpe as [->|(_ & Hn & _)]; [destruct (30 * second <=? gap); [by left|done]|]. cbn in Hn. unfold urgent in Hu. rewrite Hn in Hu. by destruct Hu.
Qed.

Lemma urgent_run ops s : urgent s -> existsb is_refresh (run ops s).1 = false -> urgent (run ops s).2.
Proof.
  revert s. induction ops as [|o ops IH]; intros s Hu; [done|]. rewrite recovery_run_cons. cbn [fst snd]. rewrite existsb_app, orb_false_iff.
  intros [Ho Hr]. by apply IH; [apply urgent_step|].
Qed.

(** A tick refreshes when there is a wake or a retry, once the last refresh is old. *)
Lemma tick_refreshes wall x healthy s : urgent s \/ 30 * second <= wall -> SAMPLE <= now s - last_tick s -> cooled s ->
  exists r, (step (Tick wall x healthy) s).1 = [Refresh (now s) r healthy].
Proof.
  intros Hu Ht Hc. cbn [step]. unfold poll. rewrite (proj2 (Z.ltb_ge _ _) Ht). set (s0 := mk_recovery _ _ _ _ _ _ _ _). set (gap := Z.max wall _).
  destruct (sample_spec gap x healthy s0) as (pending & fs & Hpe & -> & Hsp). destruct (sample gap x healthy s0) as [r s'].
  destruct Hsp as (_ & _ & _ & [(why & -> & _)|(_ & Hno & _)]); [by exists why|]. exfalso.
  destruct Hno as [Hno|Hno]; [|by apply Hno]. change (pending_change s0) with (pending_change s) in Hpe.
  assert (pending = Some Wake \/ pending = Some Retry) as Hp.
  { destruct (Z.leb_spec (30 * second) gap) as [Hg|Hg]; [destruct Hpe as [->|[? _]]; [by left|lia]|].
    destruct Hu as [Hu|Hu]; [|unfold gap in Hg; lia]. destruct Hpe as [->|(_ & Hn & _)]; [done|]. unfold urgent in Hu. rewrite Hn in Hu. by destruct Hu. }
  unfold reason_of in Hno. by destruct Hp as [-> | ->].
Qed.

(** ** Trying a device again *)

(** The attempt of a device that was connected before, which no other device pushes out. *)
Definition remembers (p : NodeId) (P : Attempt -> Prop) (s : Recovery) : Prop :=
  exists a, attempts s !! p = Some a /\ connected_before a = true /\ P a.

Lemma make_room_keeps p q P m : (exists a, m !! p = Some a /\ connected_before a = true /\ P a) ->
  exists a, (make_room q m).2 !! p = Some a /\ connected_before a = true /\ P a.
Proof.
  intros (a & Ha & Hc & HP). exists a. split; [|done]. unfold make_room. destruct (_ && _); cbn [snd]; [|done]. by apply map_lookup_filter_Some.
Qed.

Lemma event_other p q g st P s : p <> q -> remembers p P s -> remembers p P (event q g st s).
Proof.
  intros Hpq Hr. destruct (make_room_keeps p q P _ Hr) as (a & Ha & Hc & HP). exists a. split; [|done].
  unfold event. destruct (make_room q (attempts s)) as [[|] m]; cbn [negb snd] in *; [|done].
  destruct (g <? _); [cbn; by rewrite lookup_insert_ne|]. destruct (terminal _); [cbn; by rewrite lookup_insert_ne|].
  destruct (observe _ _ _ _). cbn. by rewrite lookup_insert_ne.
Qed.

Lemma retry_other p q P s : p <> q -> remembers p P s -> remembers p P (retry_due q s).2.
Proof.
  intros Hpq (a & Ha & Hc & HP). exists a. split; [|done]. unfold retry_due. destruct (_ && _); [done|].
  destruct (auth_failed _ || _); cbn; by rewrite lookup_insert_ne.
Qed.

Lemma poll_attempts wall x healthy s : attempts (poll wall x healthy s).2 = attempts s /\ now (poll wall x healthy s).2 = now s.
Proof.
  unfold poll. destruct (_ <? SAMPLE); [done|]. match goal with |- context [sample ?g ?x ?h ?t] => destruct (sample_spec g x h t) as (pe & fs & _ & _ & Hsp); destruct (sample g x h t) end.
  by destruct Hsp as (E1 & E2 & _).
Qed.

(** A device that is not to be tried now, and what leaves it so. *)
Definition tried (p : NodeId) (l : list order) : Prop := exists t, Reconnect t p ∈ l.

Definition refused_as (g : Z) (a : Attempt) : Prop := generation a = g /\ auth_failed a = true /\ terminal a = true.
Definition older (p : NodeId) (g : Z) (o : op) : Prop := match o with Event q g' _ => q = p -> g' <= g | _ => True end.

Lemma refused_step p g o s : older p g o -> remembers p (refused_as g) s -> ~ tried p (step o s).1 /\ remembers p (refused_as g) (step o s).2.
Proof.
  intros Ho Hr. destruct o as [d|q g' st|q| |wall x healthy]; cbn [step fst snd].
  - split; [by intros (t & Ht%not_elem_of_nil)|exact Hr].
  - split; [by intros (t & Ht%not_elem_of_nil)|]. destruct (decide (p = q)) as [<-|Hpq]; [|by apply event_other].
    destruct Hr as (a & Ha & Hc & Hg & Hau & Ht). exists a. split; [|done]. cbn in Ho. specialize (Ho eq_refl).
    unfold event, make_room. rewrite Ha. rewrite bool_decide_eq_true_2 by (by eexists). cbn [negb andb]. rewrite Ha. change (default default_attempt (Some a)) with a.
    destruct (g' <? generation a) eqn:El; [cbn; apply lookup_insert_eq|]. apply Z.ltb_ge in El. assert (generation a = g') as Eg by lia.
    unfold renew. rewrite (proj2 (Z.eqb_eq _ _) Eg), Ht. cbn. apply lookup_insert_eq.
  - destruct (decide (p = q)) as [<-|Hpq].
    + destruct Hr as (a & Ha & Hc & Hg & Hau & Ht). unfold retry_due. rewrite Ha, bool_decide_eq_true_2 by (by eexists). cbn [negb andb]. change (default default_attempt (Some a)) with a. rewrite Hau. cbn.
      split; [by intros (t & Ht'%not_elem_of_nil)|]. exists a. cbn. split; [apply lookup_insert_eq|done].
    + pose proof (retry_other p q _ s Hpq Hr) as Hr'. destruct (retry_due q s) as [b s']. cbn in *. split; [|done].
      intros (t & Ht). destruct b; [|by apply not_elem_of_nil in Ht]. apply list_elem_of_singleton in Ht. congruence.
  - split; [by intros (t & Ht%not_elem_of_nil)|exact Hr].
  - destruct (poll_attempts wall x healthy s) as [E _]. destruct (poll wall x healthy s) as [[r|] s']; cbn in *; split; try (unfold remembers; by rewrite E);
      intros (t & Ht); [by apply list_elem_of_singleton in Ht|by apply not_elem_of_nil in Ht].
Qed.

Lemma refused_run p g ops s : Forall (older p g) ops -> remembers p (refused_as g) s -> ~ tried p (run ops s).1.
Proof.
  intros Ho. revert s. induction Ho as [|o ops Ho _ IH]; intros s Hr; [by intros (t & Ht%not_elem_of_nil)|].
  rewrite recovery_run_cons. cbn [fst]. destruct (refused_step p g o s Ho Hr) as [Hn Hr']. intros (t & [Ht|Ht]%elem_of_app); [by apply Hn; exists t|].
  apply (IH _ Hr'). by exists t.
Qed.

Definition silent_about (p : NodeId) (o : op) : Prop := match o with Event q _ _ => q <> p | _ => True end.
Definition early (p : NodeId) (u : Z) (l : list order) : Prop := exists t, Reconnect t p ∈ l /\ t < u.

Lemma resting_step p u o s : silent_about p o -> remembers p (fun a => u <= retry_at a) s ->
  ~ early p u (step o s).1 /\ (now s < u -> remembers p (fun a => u <= retry_at a) (step o s).2) /\ now s <= now (step o s).2.
Proof.
  intros Ho Hr. assert (~ early p u []) as He by (by intros (t & Ht%not_elem_of_nil & _)).
  destruct o as [d|q g' st|q| |wall x healthy]; cbn [step fst snd].
  - split; [done|]. split; [done|]. cbn. lia.
  - split; [done|]. split; [intros _; by apply event_other|]. destruct (event_same q g' st s) as (-> & _). lia.
  - pose proof (retry_same q s) as (En & _). destruct (decide (p = q)) as [<-|Hpq].
    + destruct Hr as (a & Ha & Hc & Hu). unfold retry_due. rewrite Ha, bool_decide_eq_true_2 by (by eexists). cbn [negb andb]. change (default default_attempt (Some a)) with a.
      destruct (auth_failed a); cbn [orb].
      { cbn. split; [done|]. split; [|lia]. intros _. exists a. split; [apply lookup_insert_eq|done]. }
      destruct (Z.ltb_spec (now s) (retry_at a)); cbn.
      { split; [done|]. split; [|lia]. intros _. exists a. split; [apply lookup_insert_eq|done]. }
      split; [|split; [lia|lia]]. intros (t & Ht & Hlt). apply list_elem_of_singleton in Ht. injection Ht as Ht. lia.
    + pose proof (retry_other p q _ s Hpq Hr) as Hr'. destruct (retry_due q s) as [b s']. cbn in *. split; [|split; [done|lia]].
      intros (t & Ht & _). destruct b; [|by apply not_elem_of_nil in Ht]. apply list_elem_of_singleton in Ht. congruence.
  - split; [done|]. split; [done|]. cbn. lia.
  - destruct (poll_attempts wall x healthy s) as [E En]. destruct (poll wall x healthy s) as [r s']; cbn in *. split; [|split; [intros _; unfold remembers; by rewrite E|lia]].
    intros (t & Ht & _). destruct r; [by apply list_elem_of_singleton in Ht|by apply not_elem_of_nil in Ht].
Qed.

Lemma now_step o s : now s <= now (step o s).2 /\ Forall (fun x => match x with Reconnect t _ | Refresh t _ _ => t = now s end) (step o s).1.
Proof.
  destruct o as [d|q g' st|q| |wall x healthy]; cbn [step fst snd].
  - split; [cbn; lia|constructor].
  - destruct (event_same q g' st s) as (-> & _). split; [lia|constructor].
  - pose proof (retry_same q s) as (En & _). destruct (retry_due q s) as [b s']. cbn in *. split; [lia|]. destruct b; by repeat constructor.
  - split; [cbn; lia|constructor].
  - destruct (poll_attempts wall x healthy s) as [_ En]. destruct (poll wall x healthy s) as [r s']; cbn in *. split; [lia|]. destruct r; by repeat constructor.
Qed.

Lemma run_later ops s t p : Reconnect t p ∈ (run ops s).1 -> now s <= t.
Proof.
  revert s. induction ops as [|o ops IH]; intros s; [by intros Ht%not_elem_of_nil|]. rewrite recovery_run_cons. cbn [fst].
  destruct (now_step o s) as [Hn Hf]. intros [Ht|Ht]%elem_of_app; [|specialize (IH _ Ht); lia]. rewrite Forall_forall in Hf. specialize (Hf _ Ht). cbn in Hf. lia.
Qed.

Lemma resting_run p u ops s : Forall (silent_about p) ops -> remembers p (fun a => u <= retry_at a) s -> ~ early p u (run ops s).1.
Proof.
  intros Ho. revert s. induction Ho as [|o ops Ho _ IH]; intros s Hr; [by intros (t & Ht%not_elem_of_nil & _)|].
  rewrite recovery_run_cons. cbn [fst]. destruct (resting_step p u o s Ho Hr) as (Hn & Hr' & Hle). intros (t & [Ht|Ht]%elem_of_app & Hlt); [by apply Hn; exists t|].
  destruct (Z.lt_ge_cases (now s) u) as [Hs|Hs]; [by apply (IH _ (Hr' Hs)); exists t|]. apply run_later in Ht. lia.
Qed.

Lemma retry_rests p s : remembers p (fun _ => True) s -> (step (RetryDue p) s).1 = [Reconnect (now s) p] ->
  remembers p (fun a => now s + 30 * second <= retry_at a) (step (RetryDue p) s).2.
Proof.
  intros (a & Ha & Hc & _). cbn [step]. unfold retry_due. rewrite Ha, bool_decide_eq_true_2 by (by eexists). cbn [negb andb]. change (default default_attempt (Some a)) with a.
  destruct (auth_failed a || (now s <? retry_at a)); cbn; [done|]. intros _. eexists. cbn. split; [apply lookup_insert_eq|]. cbn. split; [done|lia].
Qed.
End Gateway.

(** C30: Refreshing the network is rare, founded and certain. Over any history of events,
    retries and maintenance ticks the table stays within its limit, refreshes are at
    least 60 seconds apart, and while a connection is alive the network is refreshed
    only after waking or after a failed refresh. Waking, or a refresh that failed, is
    not forgotten: it stays until a tick refreshes, and the first tick does that comes
    5 seconds after the last and 60 seconds after the last refresh, healthy or not. *)
Theorem refreshes_disciplined (gateway : bool) (ifs : option (gset (list Z))) (before : list op) :
  let (l, s) := run gateway before (default_recovery ifs) in
  StronglySorted apart l /\ Forall (past s) l /\ Z.of_nat (size (attempts s)) <= MAX_PEERS gateway /\
  (forall after, urgent s -> existsb is_refresh (run gateway after s).1 = false -> urgent (run gateway after s).2) /\
  (forall wall x healthy, urgent s \/ 30 * second <= wall -> SAMPLE <= now s - last_tick s -> cooled s ->
     exists r, (step gateway (Tick wall x healthy) s).1 = [Refresh (now s) r healthy]).
Proof.
  destruct (disciplined_run gateway before [] (default_recovery ifs) (disciplined_initial gateway ifs) ltac:(done)) as [[D1 D2 D3] _].
  destruct (run gateway before (default_recovery ifs)) as [l s]. cbn in *. split; [done|]. split; [done|]. split; [apply D1|].
  split; [intros after; apply urgent_run|intros wall x healthy; apply (tick_refreshes gateway)].
Qed.

(** A device is not pestered. After any history, a device that was connected before
    and then refused this one is not tried again, whatever else happens, until an
    attempt with a newer number reports; and two tries of a device are at least 30
    seconds apart unless its own attempt reports in between. *)
Theorem retries_disciplined (gateway : bool) (ifs : option (gset (list Z))) (before : list op) (p : NodeId) (a : Attempt) :
  let s := (run gateway before (default_recovery ifs)).2 in
  attempts s !! p = Some a -> connected_before a = true ->
  (auth_failed a = true -> forall after t, Forall (older p (generation a)) after -> Reconnect t p ∉ (run gateway after s).1) /\
  ((step gateway (RetryDue p) s).1 = [Reconnect (now s) p] -> forall after t, Forall (silent_about p) after ->
     Reconnect t p ∈ (run gateway after (step gateway (RetryDue p) s).2).1 -> now s + 30 * second <= t).
Proof.
  intros s Ha Hc. destruct (disciplined_run gateway before [] (default_recovery ifs) (disciplined_initial gateway ifs) ltac:(done)) as [[D1 _ _] _].
  fold s in D1. split.
  - intros Hau after t Ho Ht. apply (refused_run gateway p (generation a) after s Ho); [|by exists t]. exists a. do 2 (split; [done|]).
    split; [done|]. split; [done|]. by apply (so_refused _ _ D1 p a).
  - intros Hst after t Ho Ht. destruct (Z.lt_ge_cases t (now s + 30 * second)) as [Hlt|Hge]; [|done]. exfalso.
    apply (resting_run gateway p (now s + 30 * second) after (step gateway (RetryDue p) s).2 Ho); [|by exists t].
    apply retry_rests; [|done]. exists a. by repeat split.
Qed.

(** A device that was connected, and then refuses. *)
Definition trusting : RemoteAuth.RemoteAuthorization := RemoteAuth.mk_rights (RemoteAuth.mk_grant true false) (RemoteAuth.mk_grant true false).

Lemma retries_disciplined_witness :
  let history := [Event [1] 1 (Connected trusting); Event [1] 1 Disconnected; Event [1] 2 Negotiating; Event [1] 2 (Failed [])] in
  let later := [Pass 90000000000; RetryDue [1]; Event [1] 1 Punching; RetryDue [1]] in
  let lost := [Event [1] 1 (Connected trusting); Event [1] 1 Disconnected; Pass 5000000000] in
  (forall t, Reconnect t [1] ∉ (run true later (run true history (default_recovery None)).2).1) /\
  (run true (lost ++ [RetryDue [1]]) (default_recovery None)).1 = [Reconnect 5000000000 [1]].
Proof.
  intros history later lost. split; [|vm_compute; reflexivity].
  pose proof (retries_disciplined true None history [1]) as H.
  destruct (attempts (run true history (default_recovery None)).2 !! [1]) as [a|] eqn:E; [|by vm_compute in E].
  specialize (H a E). assert (a = mk_attempt 2 true false true true true 1 2000000000) as ->.
  { apply (f_equal (fun x => default default_attempt x)) in E. change (default default_attempt (Some a)) with a in E. rewrite <- E. vm_compute. reflexivity. }
  destruct (H eq_refl) as [Hr _]. intros t. apply Hr; [done|]. by repeat constructor.
Defined.
End NetRecovery.
