(* ===== verification/NodeWire.v ===== *)
(** * Node frames and negotiation (src/node/core/wire.rs)

    The service control protocol: frames under a magic prefix, and the exchange in
    which two ends agree on what both can do.  The serializer is the interface of
    Postcard.v at the type of frames; the visitor that bounds a received directory is
    part of it.  QUIC streams and the timeout around the exchange are not modelled. *)
From Stdlib Require Import ZArith Lia.
From stdpp Require Import prelude gmap strings.
From S2P Require Import Prelude Io Manifest Postcard Message State Frame RelativePath RemoteAuth Rights.

#[local] Open Scope Z_scope.

Module NodeWire.

Definition MAGIC : list Z := lit "P2PN" ++ [1].
Definition VERSION : Z := 2.
Definition MAX_FRAME_BYTES : Z := 64 * 1024.
Definition MAX_SERVICES : Z := 128.
Definition CAP_NODE_BASE : Z := Z.shiftl 1 16.
Definition CAP_SERVICE_DIRECTORY : Z := Z.shiftl 1 17.
Definition CAP_RESOURCE_AUTHORIZATION : Z := Z.shiftl 1 18.
Definition REQUIRED : Z :=
  Z.lor (Z.lor (Z.lor CAP_NODE_BASE CAP_RESOURCE_AUTHORIZATION) Rights.CAP_REMOTE_AUTH) Rights.CAP_TRUSTED_DEVICE_AUTH.

(** src/node/core/protocol.rs. *)
Definition CAP_TASK_PROTOCOL : Z := 1.
Definition CAP_RELATIVE_ENTRIES : Z := 2.
Definition CAP_PAUSE_RESUME : Z := 4.
Definition CAP_SPEED_OWNERSHIP : Z := 8.
Definition CAP_FILE_TRANSFER : Z := 16.
Definition CAP_DIRECTORY_TRANSFER : Z := 32.
Definition CAP_SPEED_EXECUTION : Z := 64.
Definition CAP_TCP_TUNNEL : Z := 128.
Definition CAP_FILE_FLOW : Z := Z.shiftl 1 10.
Definition CAP_AUTO_RESUME : Z := Z.shiftl 1 11.
Definition CAP_INCREMENTAL_DIRECTORY : Z := Z.shiftl 1 12.

Inductive StreamKind : Type := SFile | SService | SSpeed.
Definition stream_code (k : StreamKind) : Z := match k with SFile => 1 | SService => 2 | SSpeed => 3 end.

Inductive NodeErrorCode : Type :=
  | UnsupportedVersion | UnsupportedCapability | Unauthorized | UnknownService
  | Busy | InvalidRequest | TargetUnavailable | Internal.
#[global] Instance NodeErrorCode_eq_dec : EqDecision NodeErrorCode.
Proof. solve_decision. Defined.

Definition invalid (message : string) : error := Protocol message.

Definition try_from (value : Z) : result StreamKind :=
  if value =? 1 then Ok SFile else if value =? 2 then Ok SService else if value =? 3 then Ok SSpeed
  else Err (invalid "unknown stream kind").

Record ServiceDescriptor : Type := mk_service { id : list Z; name : list Z }.
#[global] Instance ServiceDescriptor_eq_dec : EqDecision ServiceDescriptor.
Proof. solve_decision. Defined.

Inductive NodeMessage : Type :=
  | Hello (capabilities : Z)
  | Ready
  | Services
  | ServiceList (services : list ServiceDescriptor)
  | OpenTcp (service_id : list Z)
  | TcpReady
  | ErrorMsg (code : NodeErrorCode).
#[global] Instance NodeMessage_eq_dec : EqDecision NodeMessage.
Proof. solve_decision. Defined.

Record NodeFrame : Type := mk_frame { version : Z; request_id : Z; message : NodeMessage }.
#[global] Instance NodeFrame_eq_dec : EqDecision NodeFrame.
Proof. solve_decision. Defined.

Definition new (request_id : Z) (m : NodeMessage) : NodeFrame := mk_frame VERSION request_id m.

(** A byte of an identifier. *)
Definition id_byte (b : Z) : bool := RemoteAuth.is_ascii_alphanumeric b || (b =? 45) || (b =? 95) || (b =? 46).
Definition plain_id (text : list Z) : bool :=
  negb (bool_decide (text = [])) && (str_len text <=? 64) && forallb id_byte (utf8 text).

Definition validate_service_id (text : list Z) : result unit := fail_if (negb (plain_id text)) (invalid "service id").

(** One entry of a directory; [ids] are those before it. *)
Definition check_service (ids : gset (list Z)) (entry : ServiceDescriptor) : result (gset (list Z)) :=
  let? _ := validate_service_id (id entry) in
  let? _ := fail_if
    (bool_decide (id entry ∈ ids) || bool_decide (trim (name entry) = []) || (128 <? Z.of_nat (length (name entry))) ||
     existsb is_control (name entry)) (invalid "repeated or invalid service") in
  Ok ({[id entry]} ∪ ids).

Definition is_negotiation (m : NodeMessage) : bool := match m with Hello _ | Ready => true | _ => false end.

Definition validate (f : NodeFrame) : result unit :=
  let? _ := fail_if (negb (version f =? VERSION)) (invalid "version") in
  let? _ := fail_if (negb (Bool.eqb (is_negotiation (message f)) (request_id f =? 0))) (invalid "request number") in
  match message f with
  | OpenTcp service_id => validate_service_id service_id
  | ServiceList services =>
      let? _ := fail_if (MAX_SERVICES <? Z.of_nat (length services)) (invalid "directory over the limit") in
      let? _ := fold_outcome check_service ∅ services in
      Ok tt
  | _ => Ok tt
  end.

Section Wire.
Context `{Postcard NodeFrame}.

Definition encode (f : NodeFrame) : result (list Z) :=
  let? _ := validate f in
  let? payload := to_allocvec f in
  let bytes := MAGIC ++ payload in
  let? _ := fail_if (MAX_FRAME_BYTES <? Z.of_nat (length bytes)) (invalid "frame over the limit") in
  Ok bytes.

Definition decode (bytes : list Z) : result NodeFrame :=
  let? _ := fail_if (MAX_FRAME_BYTES <? Z.of_nat (length bytes)) (invalid "frame over the limit") in
  let? payload := ok_or (RelativePath.strip_prefix bytes MAGIC) (invalid "not a node frame") in
  let? (frame, trailing) := take_from_bytes payload in
  let? _ := fail_if (negb (bool_decide (trailing = []))) (invalid "trailing bytes") in
  let? _ := validate frame in
  Ok frame.

(** The two directions of the negotiation stream. *)
Record stream : Type := mk_stream { incoming : reader; outgoing : writer }.

Definition read : st stream error NodeFrame :=
  fun s => let (raw, r) := Frame.read_raw_frame_limited (incoming s) MAX_FRAME_BYTES in
           (let? o := raw in
            let? bytes := ok_or o (invalid "stream closed") in
            decode bytes, mk_stream r (outgoing s)).

Definition write (f : NodeFrame) : st stream error unit :=
  fun s => match (let? bytes := encode f in Frame.write_raw_frame_limited (outgoing s) bytes MAX_FRAME_BYTES) with
           | Ok w => (Ok tt, mk_stream (incoming s) w)
           | Err e => (Err e, s)
           | Panic => (Panic, s)
           end.

Definition has_required (capabilities : Z) : bool := Z.land capabilities REQUIRED =? REQUIRED.

Definition exchange (local : Z) : st stream error Z :=
  let! _ := liftr (fail_if (negb (has_required local)) (invalid "required capability missing here")) in
  let! _ := write (new 0 (Hello local)) in
  let! answer := read in
  let! remote := liftr match message answer with
                       | Hello capabilities => if has_required capabilities then Ok capabilities
                                               else Err (invalid "required capability missing there")
                       | _ => Err (invalid "required capability missing there")
                       end in
  let! _ := write (new 0 Ready) in
  let! confirmation := read in
  let! _ := liftr (fail_if (negb (bool_decide (message confirmation = Ready))) (invalid "confirmation out of order")) in
  ret (Z.land local remote).

End Wire.

Definition all_of (l : list Z) : Z := foldr Z.lor 0 l.

Definition capabilities (files speed tcp : bool) : Z :=
  let result := REQUIRED in
  let result := if files then Z.lor result (all_of [CAP_TASK_PROTOCOL; CAP_RELATIVE_ENTRIES; CAP_PAUSE_RESUME; CAP_FILE_TRANSFER;
                  CAP_DIRECTORY_TRANSFER; CAP_FILE_FLOW; CAP_AUTO_RESUME; CAP_INCREMENTAL_DIRECTORY]) else result in
  let result := if speed then Z.lor result (Z.lor CAP_SPEED_OWNERSHIP CAP_SPEED_EXECUTION) else result in
  if tcp then Z.lor result (Z.lor CAP_TCP_TUNNEL CAP_SERVICE_DIRECTORY) else result.

(** ** Frames *)

Section Proofs.
Context `{PostcardLaws NodeFrame}.

Lemma node_encode_Ok f bytes : encode f = Ok bytes <->
  validate f = Ok tt /\ Z.of_nat (length bytes) <= MAX_FRAME_BYTES /\ exists payload, to_allocvec f = Ok payload /\ bytes = MAGIC ++ payload.
Proof.
  unfold encode. split.
  - intros E. apply obind_Ok in E as ([] & Hv & E). apply obind_Ok in E as (payload & Hp & E).
    apply obind_Ok in E as (u & Hl & [= <-]). apply fail_if_Ok, Z.ltb_ge in Hl. eauto.
  - intros (-> & Hl & payload & -> & ->). cbn [obind]. by rewrite (proj2 (Z.ltb_ge _ _) Hl).
Qed.

Lemma node_decode_encode f bytes : encode f = Ok bytes -> decode bytes = Ok f.
Proof.
  intros (Hv & Hl & payload & Hp & ->)%node_encode_Ok. unfold decode. rewrite (proj2 (Z.ltb_ge _ _) Hl). cbn [fail_if obind].
  unfold RelativePath.strip_prefix. rewrite starts_with_app, drop_app_length. cbn [ok_or obind].
  pose proof (take_to_allocvec f payload [] Hp) as Ht. rewrite app_nil_r in Ht. rewrite Ht. cbn [obind].
  rewrite bool_decide_eq_true_2 by done. cbn. by rewrite Hv.
Qed.

Lemma decode_valid bytes f : decode bytes = Ok f -> validate f = Ok tt.
Proof.
  intros E. unfold decode in E. apply obind_Ok in E as (u & _ & E). apply obind_Ok in E as (p & _ & E).
  apply obind_Ok in E as ([g rest] & _ & E). apply obind_Ok in E as (u' & _ & E). apply obind_Ok in E as ([] & Hv & [= <-]). done.
Qed.

(** Reading what was written. *)
Lemma read_written s f bytes rest : encode f = Ok bytes -> data_only (incoming s) -> are_bytes (bytes_of (incoming s)) ->
  bytes_of (incoming s) = Frame.frame_bytes bytes ++ rest ->
  exists r', read s = (Ok f, mk_stream r' (outgoing s)) /\ data_only r' /\ bytes_of r' = rest.
Proof.
  intros He Hd Hb Eb. pose proof He as (_ & Hl & _)%node_encode_Ok. unfold read.
  destruct (Frame.read_raw_data (incoming s) MAX_FRAME_BYTES Hd Hb) as (r' & E & Hok & _).
  assert (Frame.parse_frame (bytes_of (incoming s)) MAX_FRAME_BYTES = Ok (Some bytes)) as Hp.
  { rewrite Eb. apply Frame.parse_frame_bytes; [done|]. unfold MAX_FRAME_BYTES, U32_MAX. lia. }
  destruct (Hok _ Hp) as [Hd' Eb']. rewrite E, Hp. cbn [obind ok_or]. exists r'. rewrite (node_decode_encode f bytes He).
  split; [done|]. split; [done|]. rewrite Eb', Eb.
  replace (4 + length bytes)%nat with (length (Frame.frame_bytes bytes)) by (unfold Frame.frame_bytes; by rewrite length_app, length_le_bytes).
  apply drop_app_length.
Qed.

Lemma write_frame_ok s f bytes : encode f = Ok bytes -> broken (outgoing s) = None ->
  write f s = (Ok tt, mk_stream (incoming s) (mk_writer (out (outgoing s) ++ Frame.frame_bytes bytes) None)).
Proof.
  intros He Hb. pose proof He as (_ & Hl & _)%node_encode_Ok. unfold write. rewrite He. cbn [obind].
  by rewrite (proj2 (Frame.write_raw_Ok _ _ _ _) (conj Hb (conj Hl eq_refl))).
Qed.

(** ** Directories *)

Definition service_ok (entry : ServiceDescriptor) : Prop :=
  plain_id (id entry) = true /\ trim (name entry) <> [] /\ Z.of_nat (length (name entry)) <= 128 /\
  Forall (fun c => is_control c = false) (name entry).

Definition directory_ok (services : list ServiceDescriptor) : Prop :=
  Z.of_nat (length services) <= MAX_SERVICES /\ NoDup (map id services) /\ Forall service_ok services.

Lemma check_service_Ok ids entry ids' : check_service ids entry = Ok ids' <->
  service_ok entry /\ id entry ∉ ids /\ ids' = {[id entry]} ∪ ids.
Proof.
  unfold check_service, validate_service_id, service_ok. split.
  - intros E. apply obind_Ok in E as (u & Hp%fail_if_Ok & E). apply negb_false_iff in Hp.
    apply obind_Ok in E as (u' & Hc%fail_if_Ok & [= <-]). rewrite !orb_false_iff, !bool_decide_eq_false, Z.ltb_ge, RelativePath.existsb_false in Hc.
    naive_solver.
  - intros ((Hp & Ht & Hl & Hc) & Hi & ->). rewrite Hp. cbn [negb fail_if obind].
    rewrite (bool_decide_eq_false_2 _ Hi), (bool_decide_eq_false_2 _ Ht), (proj2 (Z.ltb_ge _ _) Hl), (proj2 (RelativePath.existsb_false _ _) Hc). done.
Qed.

Lemma fold_services_Ok ids services : (exists ids', fold_outcome check_service ids services = Ok ids') <->
  NoDup (map id services) /\ Forall service_ok services /\ Forall (fun e => id e ∉ ids) services.
Proof.
  revert ids. induction services as [|e l IH]; intros ids; cbn [fold_outcome map].
  { split; [intros _; repeat split; constructor|eauto]. }
  split.
  - intros (ids' & E). apply obind_Ok in E as (ids1 & (Hs & Hi & ->)%check_service_Ok & E).
    destruct (proj1 (IH _) (ex_intro _ _ E)) as (Hn & Hf & Hd). split; [|split; [by constructor|]].
    + constructor; [|done]. intros (x & Ex & Hx)%list_elem_of_fmap. rewrite Forall_forall in Hd. apply (Hd x Hx). rewrite <- Ex. set_solver.
    + constructor; [done|]. eapply Forall_impl; [exact Hd|]. cbn. set_solver.
  - intros (Hn & Hf & Hd). apply NoDup_cons in Hn as [Hx Hn]. apply Forall_cons in Hf as [Hs Hf]. apply Forall_cons in Hd as [Hi Hd].
    rewrite (proj2 (check_service_Ok _ _ _) (conj Hs (conj Hi eq_refl))). cbn [obind]. apply IH. split; [done|]. split; [done|].
    rewrite Forall_forall in *. intros x Hin. specialize (Hd x Hin). assert (id x <> id e); [|set_solver]. intros E. apply Hx.
    rewrite <- E. apply list_elem_of_fmap. by exists x.
Qed.

(** What a frame that is read or written satisfies. *)
Definition frame_ok (f : NodeFrame) : Prop :=
  version f = VERSION /\ (is_negotiation (message f) = true <-> request_id f = 0) /\
  match message f with
  | OpenTcp service_id => plain_id service_id = true
  | ServiceList services => directory_ok services
  | _ => True
  end.

Lemma validate_exact_frame f : validate f = Ok tt <-> frame_ok f.
Proof.
  assert (forall b, Bool.eqb b (request_id f =? 0) = true <-> (b = true <-> request_id f = 0)) as Hb.
  { intros b. rewrite Bool.eqb_true_iff. destruct b, (Z.eqb_spec (request_id f) 0); naive_solver. }
  unfold validate, frame_ok. rewrite <- Hb. destruct (Z.eqb_spec (version f) VERSION) as [Ev|]; cbn [negb fail_if obind]; [|by split; [|intros [? _]]].
  destruct (Bool.eqb _ _); cbn [negb fail_if obind]; [|by split; [|intros (_ & ? & _)]].
  assert (forall (P : Prop) (o : result unit), (o = Ok tt <-> P) -> (o = Ok tt <-> version f = VERSION /\ true = true /\ P)) as Hand.
  { intros P o Ho. rewrite Ho. split; [by intros|by intros (_ & _ & ?)]. }
  destruct (message f) as [| | |services|sid| |]; apply Hand; try done.
  - unfold directory_ok. destruct (Z.ltb_spec MAX_SERVICES (Z.of_nat (length services))); cbn [fail_if obind]; [split; [done|lia]|].
    pose proof (fold_services_Ok ∅ services) as Hf. assert (Forall (fun e : ServiceDescriptor => id e ∉ (∅ : gset (list Z))) services) as He.
    { apply Forall_forall. intros x _. apply not_elem_of_empty. }
    destruct (fold_outcome check_service ∅ services) as [ids|e|]; cbn [obind]; split; try done.
    + intros _. split; [done|]. destruct (proj1 Hf) as (? & ? & _); [eauto|done].
    + intros (_ & Hn & Hs). by destruct (proj2 Hf (conj Hn (conj Hs He))).
    + intros (_ & Hn & Hs). by destruct (proj2 Hf (conj Hn (conj Hs He))).
  - unfold validate_service_id. by destruct (plain_id sid).
Qed.

(** What is encoded decodes to itself, a byte more is refused, and whatever is read or
    written is well formed: its version, the request number that only negotiation
    leaves at zero, identifiers, and directories of at most 128 services with different
    identifiers. *)
Theorem node_frame_roundtrip (f : NodeFrame) (bytes : list Z) :
  (encode f = Ok bytes -> decode bytes = Ok f) /\
  (forall x, encode f = Ok bytes -> decode (bytes ++ [x]) <> Ok f /\ forall g, decode (bytes ++ [x]) <> Ok g) /\
  (decode bytes = Ok f -> frame_ok f) /\
  (encode f = Ok bytes -> frame_ok f /\ Z.of_nat (length bytes) <= MAX_FRAME_BYTES) /\
  (~ frame_ok f -> encode f <> Ok bytes).
Proof.
  split; [apply node_decode_encode|]. assert (forall x g, encode f = Ok bytes -> decode (bytes ++ [x]) <> Ok g) as Htr.
  { intros x g (Hv & Hl & payload & Hp & ->)%node_encode_Ok. unfold decode. destruct (_ <? _); cbn [fail_if obind]; [done|].
    unfold RelativePath.strip_prefix. rewrite <- app_assoc, starts_with_app, drop_app_length. cbn [ok_or obind].
    rewrite (take_to_allocvec f payload [x] Hp). cbn. done. }
  split; [auto|]. split; [intros E%decode_valid; by apply validate_exact_frame|]. split.
  - intros (Hv & Hl & _)%node_encode_Ok. split; [by apply validate_exact_frame|done].
  - intros Hn (Hv & _)%node_encode_Ok. by apply Hn, validate_exact_frame.
Qed.

(** ** Negotiation *)

Lemma required_land a b : has_required a = true -> has_required b = true -> has_required (Z.land a b) = true.
Proof.
  unfold has_required. intros Ha%Z.eqb_eq Hb%Z.eqb_eq. apply Z.eqb_eq. by rewrite <- Z.land_assoc, Hb.
Qed.

Lemma sbind_inv {A B} (m : st stream error A) (f : A -> st stream error B) s b s' : sbind m f s = (Ok b, s') ->
  exists a s1, m s = (Ok a, s1) /\ f a s1 = (Ok b, s').
Proof. unfold sbind. destruct (m s) as [[a|e|] s1]; [eauto|done..]. Qed.
(** Whatever the other end sends: what is agreed on is what both announced, with
    everything that is required; it was announced first and confirmed second. *)
Theorem negotiation_sound (local c : Z) (s s' : stream) : exchange local s = (Ok c, s') ->
  exists remote s1 s2, read s1 = (Ok (new 0 (Hello remote)), s2) /\ incoming s1 = incoming s /\
    c = Z.land local remote /\ has_required local = true /\ has_required remote = true /\ has_required c = true /\
    forall bit, Z.testbit c bit = true <-> Z.testbit local bit = true /\ Z.testbit remote bit = true.
Proof.
  intros E. unfold exchange in E. apply sbind_inv in E as ([] & s0 & E0 & E). unfold liftr in E0. injection E0 as E0%fail_if_Ok <-.
  apply negb_false_iff in E0. apply sbind_inv in E as ([] & s1 & E1 & E). apply sbind_inv in E as (answer & s2 & E2 & E).
  apply sbind_inv in E as (remote & s3 & E3 & E). unfold liftr in E3. injection E3 as E3 <-.
  destruct (message answer) as [r| | | | | |] eqn:Em; try discriminate. destruct (has_required r) eqn:Hr; [|discriminate]. injection E3 as ->.
  apply sbind_inv in E as ([] & s4 & E4 & E). apply sbind_inv in E as (confirmation & s5 & E5 & E). apply sbind_inv in E as ([] & s6 & E6 & E).
  injection E as <- <-. exists remote, s1, s2. split.
  - rewrite E2. do 2 f_equal. assert (frame_ok answer) as (Ev & Hn & _).
    { apply validate_exact_frame. unfold read in E2. destruct (Frame.read_raw_frame_limited _ _) as [raw r']. injection E2 as E2 _.
      apply obind_Ok in E2 as (o & _ & E2). apply obind_Ok in E2 as (bytes & _ & E2). by eapply decode_valid. }
    destruct answer as [v rid m]. cbn in *. subst v m. unfold new. f_equal. by apply Hn.
  - split; [|split; [done|split; [done|split; [done|split; [by apply required_land|]]]]].
    + unfold write in E1. destruct (obind _ _); by simplify_eq.
    + intros bit. by rewrite Z.land_spec, andb_true_iff.
Qed.

(** Two ends that announce what is required agree: each reads what the other wrote, in
    any fragmentation, and both end with the capabilities that both have. *)
Theorem negotiation_agrees (a b : Z) (ha hb ready rest_a rest_b : list Z) (sa sb : stream) :
  has_required a = true -> has_required b = true ->
  encode (new 0 (Hello a)) = Ok ha -> encode (new 0 (Hello b)) = Ok hb -> encode (new 0 Ready) = Ok ready ->
  Forall (fun s => data_only (incoming s) /\ are_bytes (bytes_of (incoming s)) /\ broken (outgoing s) = None) [sa; sb] ->
  bytes_of (incoming sa) = Frame.frame_bytes hb ++ Frame.frame_bytes ready ++ rest_a ->
  bytes_of (incoming sb) = Frame.frame_bytes ha ++ Frame.frame_bytes ready ++ rest_b ->
  exists c sa' sb', exchange a sa = (Ok c, sa') /\ exchange b sb = (Ok c, sb') /\ has_required c = true /\ c = Z.land a b /\
    out (outgoing sa') = out (outgoing sa) ++ Frame.frame_bytes ha ++ Frame.frame_bytes ready /\
    out (outgoing sb') = out (outgoing sb) ++ Frame.frame_bytes hb ++ Frame.frame_bytes ready /\
    bytes_of (incoming sa') = rest_a /\ bytes_of (incoming sb') = rest_b.
Proof.
  intros Ha Hb Ea Eb Er Hf Hia Hib.
  assert (forall x y hx hy rest s, has_required x = true -> has_required y = true -> encode (new 0 (Hello x)) = Ok hx ->
    encode (new 0 (Hello y)) = Ok hy -> data_only (incoming s) -> are_bytes (bytes_of (incoming s)) -> broken (outgoing s) = None ->
    bytes_of (incoming s) = Frame.frame_bytes hy ++ Frame.frame_bytes ready ++ rest ->
    exists s', exchange x s = (Ok (Z.land x y), s') /\ out (outgoing s') = out (outgoing s) ++ Frame.frame_bytes hx ++ Frame.frame_bytes ready /\
      bytes_of (incoming s') = rest) as Hone.
  { intros x y hx hy rest s Hx Hy Ex Ey Hd Hby Hbr Ein. unfold exchange. rewrite Hx.
    rewrite (sbind_run _ _ _ tt s) by done. rewrite (sbind_run _ _ _ _ _ (write_frame_ok _ _ _ Ex Hbr)).
    destruct (read_written (mk_stream (incoming s) (mk_writer (out (outgoing s) ++ Frame.frame_bytes hx) None)) _ _ _ Ey Hd Hby Ein)
      as (r1 & E1 & Hd1 & Eb1). rewrite (sbind_run _ _ _ _ _ E1). cbn [message new outgoing]. rewrite Hy.
    rewrite (sbind_run _ _ _ y (mk_stream r1 (mk_writer (out (outgoing s) ++ Frame.frame_bytes hx) None))) by done.
    rewrite (sbind_run _ _ _ _ _ (write_frame_ok (mk_stream r1 (mk_writer (out (outgoing s) ++ Frame.frame_bytes hx) None)) _ _ Er eq_refl)).
    cbn [incoming outgoing out]. edestruct (read_written (mk_stream r1 (mk_writer ((out (outgoing s) ++ Frame.frame_bytes hx) ++ Frame.frame_bytes ready) None)))
      as (r2 & E2 & Hd2 & Eb2); [exact Er|exact Hd1| |exact Eb1|].
    { cbn [incoming]. rewrite Eb1. rewrite Ein in Hby. by apply Forall_app in Hby as [_ ?]. }
    rewrite (sbind_run _ _ _ _ _ E2). cbn [message new outgoing]. eexists. split; [reflexivity|]. split; [cbn; by rewrite <- app_assoc|done]. }
  apply Forall_cons in Hf as [(? & ? & ?) Hf]. apply Forall_cons in Hf as [(? & ? & ?) _].
  destruct (Hone a b ha hb rest_a sa) as (sa' & Xa & Oa & Ra); [done..|]. destruct (Hone b a hb ha rest_b sb) as (sb' & Xb & Ob & Rb); [done..|].
  exists (Z.land a b), sa', sb'. rewrite (Z.land_comm b a) in Xb. split; [done|]. split; [done|]. split; [by apply required_land|done].
Qed.
End Proofs.
(** ** Example *)

Definition service_code (s : ServiceDescriptor) : list Z * list Z := (id s, name s).
Definition error_code (c : NodeErrorCode) : Z :=
  match c with UnsupportedVersion => 0 | UnsupportedCapability => 1 | Unauthorized => 2 | UnknownService => 3
             | Busy => 4 | InvalidRequest => 5 | TargetUnavailable => 6 | Internal => 7 end.
Definition code_error (c : Z) : NodeErrorCode :=
  match c with 0 => UnsupportedVersion | 1 => UnsupportedCapability | 2 => Unauthorized | 3 => UnknownService
             | 4 => Busy | 5 => InvalidRequest | 6 => TargetUnavailable | _ => Internal end.
Definition message_code (m : NodeMessage) : Z + Z + list (list Z * list Z) + list Z :=
  match m with
  | Hello c => inl (inl (inl c))
  | Ready => inl (inl (inr 8)) | Services => inl (inl (inr 9)) | TcpReady => inl (inl (inr 10))
  | ErrorMsg c => inl (inl (inr (error_code c)))
  | ServiceList l => inl (inr (map service_code l))
  | OpenTcp s => inr s
  end.
Definition code_message (c : Z + Z + list (list Z * list Z) + list Z) : NodeMessage :=
  match c with
  | inl (inl (inl c)) => Hello c
  | inl (inl (inr 8)) => Ready | inl (inl (inr 9)) => Services | inl (inl (inr 10)) => TcpReady
  | inl (inl (inr c)) => ErrorMsg (code_error c)
  | inl (inr l) => ServiceList (map (fun p => mk_service p.1 p.2) l)
  | inr s => OpenTcp s
  end.
#[local] Instance frame_countable : Countable NodeFrame.
Proof.
  apply (inj_countable' (fun f => (version f, request_id f, message_code (message f)))
    (fun p => mk_frame p.1.1 p.1.2 (code_message p.2))). intros [v i m]. cbn. f_equal. destruct m as [| | |l| | |c]; try done.
  - cbn. f_equal. rewrite map_map. induction l as [|[] l IH]; cbn; [done|by f_equal].
  - by destruct c.
Defined.
#[local] Instance example_postcard : Postcard NodeFrame := Concrete.postcard NodeFrame.
#[local] Instance example_laws : PostcardLaws NodeFrame := Concrete.postcard_laws NodeFrame.

Definition echo : NodeFrame := new 7 (ServiceList [mk_service (lit "echo") (lit "Echo")]).

Lemma node_frame_roundtrip_witness : exists bytes, encode echo = Ok bytes /\ decode bytes = Ok echo /\ frame_ok echo.
Proof.
  eexists. split; [vm_compute; reflexivity|]. match goal with |- decode ?b = _ /\ _ => pose proof (node_frame_roundtrip echo b) as (Hd & _ & Hok & _) end.
  split; [apply Hd; vm_compute; reflexivity|apply Hok, Hd; vm_compute; reflexivity].
Defined.

Definition bytes_of_frame (f : NodeFrame) : list Z := match encode f with Ok b => b | _ => [] end.
Definition example_stream (f : NodeFrame) : stream :=
  let bytes := Frame.frame_bytes (bytes_of_frame f) ++ Frame.frame_bytes (bytes_of_frame (new 0 Ready)) in
  mk_stream [Data (take 3 bytes); Data (drop 3 bytes)] (mk_writer [] None).

Lemma negotiation_agrees_witness : let a := capabilities true true true in let b := capabilities false false true in
  exists c sa' sb', exchange a (example_stream (new 0 (Hello b))) = (Ok c, sa') /\ exchange b (example_stream (new 0 (Hello a))) = (Ok c, sb') /\ c = b.
Proof.
  intros a b. destruct (negotiation_agrees a b (bytes_of_frame (new 0 (Hello a))) (bytes_of_frame (new 0 (Hello b))) (bytes_of_frame (new 0 Ready)) [] []
    (example_stream (new 0 (Hello b))) (example_stream (new 0 (Hello a)))) as (c & sa' & sb' & Ea & Eb & _ & Ec & _).
  - vm_compute. reflexivity.
  - vm_compute. reflexivity.
  - vm_compute. reflexivity.
  - vm_compute. reflexivity.
  - vm_compute. reflexivity.
  - apply Forall_cons. split; [|apply Forall_cons; split; [|by apply Forall_nil]]; (split; [by repeat constructor|split; [|reflexivity]]);
      apply (bool_decide_unpack _); vm_compute; exact I.
  - vm_compute. reflexivity.
  - vm_compute. reflexivity.
  - exists c, sa', sb'. split; [exact Ea|]. split; [exact Eb|]. rewrite Ec. vm_compute. reflexivity.
Defined.

Lemma negotiation_sound_witness : let a := capabilities true true true in let b := capabilities false false true in
  exists c s', exchange a (example_stream (new 0 (Hello b))) = (Ok c, s') /\ has_required c = true.
Proof.
  intros a b. assert (exists s', exchange a (example_stream (new 0 (Hello b))) = (Ok b, s')) as [s' E] by (eexists; vm_compute; reflexivity).
  exists b, s'. split; [exact E|]. destruct (negotiation_sound a b _ _ E) as (? & ? & ? & _ & _ & _ & _ & _ & Hc & _). exact Hc.
Defined.
End NodeWire.
