(* ===== verification/Dispatch.v ===== *)
(** * The owner of a connection's inbound streams (src/node/core/dispatch.rs)

    The worker that accepts bidirectional streams, reads their one-byte header in a
    bounded set of tasks and hands them to three bounded queues.  Its [select!] is a
    sequence of events in any order; a stream is a number. *)
From Stdlib Require Import ZArith Lia.
From stdpp Require Import prelude gmap list.
From S2P Require Import Prelude NodeWire.

#[local] Open Scope Z_scope.

Module Dispatch.
Import NodeWire.

Definition QUEUE_CAPACITY : nat := 32.
Definition MAX_PENDING_HEADERS : nat := 64.
Definition RESET_BUSY : Z := 257.
Definition RESET_UNSUPPORTED : Z := 258.
Definition RESET_INVALID : Z := 259.
Definition RESET_UNAUTHORIZED : Z := 261.

#[global] Instance StreamKind_eq_dec : EqDecision StreamKind.
Proof. solve_decision. Defined.

(** A header task: reading, or done with its result. *)
Inductive header : Type := Reading | Done (kind : option StreamKind).
#[global] Instance header_eq_dec : EqDecision header.
Proof. solve_decision. Defined.

(** An [mpsc] queue; [open] while its receiver is there. *)
Record queue : Type := mk_queue { items : list nat; open : bool }.

(** What has become of the streams is written down: taken by a consumer, reset with a
    code, or dropped with the worker or a receiver. *)
Record worker : Type := mk_worker {
  headers : list (nat * header);
  files : queue;
  services : queue;
  speed : queue;
  running : bool;
  taken : list (StreamKind * nat);
  resets : list (nat * Z);
  dropped : list nat;
}.

Definition start : worker := mk_worker [] (mk_queue [] true) (mk_queue [] true) (mk_queue [] true) true [] [] [].

Definition queue_of (k : StreamKind) (w : worker) : queue :=
  match k with SFile => files w | SService => services w | SSpeed => speed w end.

Definition set_queue (k : StreamKind) (q : queue) (w : worker) : worker :=
  let '(mk_worker h f sv sp r t re d) := w in
  match k with
  | SFile => mk_worker h q sv sp r t re d
  | SService => mk_worker h f q sp r t re d
  | SSpeed => mk_worker h f sv q r t re d
  end.

Definition set_headers (h : list (nat * header)) (w : worker) : worker :=
  mk_worker h (files w) (services w) (speed w) (running w) (taken w) (resets w) (dropped w).

Definition reject (s : nat) (code : Z) (w : worker) : worker :=
  mk_worker (headers w) (files w) (services w) (speed w) (running w) (taken w) (resets w ++ [(s, code)]) (dropped w).

(** [capabilities & CAP != 0]. *)
Definition has (capabilities cap : Z) : bool := negb (Z.land capabilities cap =? 0).

Definition enabled (capabilities : Z) (k : StreamKind) : bool :=
  match k with
  | SFile => has capabilities CAP_FILE_TRANSFER
  | SService => has capabilities CAP_TCP_TUNNEL
  | SSpeed => has capabilities CAP_SPEED_EXECUTION
  end.

Inductive try_send_error : Type := Full | Closed.

(** [Sender::try_send]: a queue without a receiver is closed whatever it holds. *)
Definition try_send (s : nat) (q : queue) : queue + try_send_error :=
  if negb (open q) then inr Closed
  else if (QUEUE_CAPACITY <=? length (items q))%nat then inr Full
  else inl (mk_queue (items q ++ [s]) true).

(** The streams of header tasks: a refused one is no longer there. *)
Definition holding (w : worker) : list nat :=
  map fst (List.filter (fun h => negb (bool_decide (h.2 = Done None))) (headers w)).

Definition on_accept (accepted : option nat) (w : worker) : worker :=
  match accepted with
  | None =>
      (* the loop ends; the header tasks are dropped with what they hold *)
      mk_worker [] (files w) (services w) (speed w) false (taken w) (resets w) (dropped w ++ holding w)
  | Some s =>
      if (MAX_PENDING_HEADERS <=? length (headers w))%nat then reject s RESET_BUSY w
      else set_headers (headers w ++ [(s, Reading)]) w
  end.

(** What [read_exact] under its timeout gives. *)
Definition on_header (s : nat) (byte : option Z) (w : worker) : worker :=
  let finish kind := set_headers (map (fun h => if (h.1 =? s)%nat then (s, Done kind) else h) (headers w)) w in
  if negb (existsb (fun h => (h.1 =? s)%nat && bool_decide (h.2 = Reading)) (headers w)) then w
  else match byte with
       | Some b => match try_from b with
                   | Ok kind => finish (Some kind)
                   | _ => reject s RESET_INVALID (finish None)
                   end
       | None => reject s RESET_INVALID (finish None)
       end.

Definition dispatch (capabilities : Z) (kind : StreamKind) (s : nat) (w : worker) : worker :=
  if negb (enabled capabilities kind) then reject s RESET_UNSUPPORTED w
  else match try_send s (queue_of kind w) with
       | inl q => set_queue kind q w
       | inr Full => reject s RESET_BUSY w
       | inr Closed => reject s RESET_UNSUPPORTED w
       end.

(** [join_next] gives some finished task. *)
Definition on_join (capabilities : Z) (s : nat) (w : worker) : worker :=
  match List.find (fun h => (h.1 =? s)%nat) (headers w) with
  | Some (_, Done result) =>
      let w := set_headers (List.filter (fun h => negb (h.1 =? s)%nat) (headers w)) w in
      match result with
      | Some kind => dispatch capabilities kind s w
      | None => w
      end
  | _ => w
  end.

(** A consumer. *)
Definition on_recv (k : StreamKind) (w : worker) : worker :=
  match items (queue_of k w) with
  | [] => w
  | s :: rest =>
      let w := set_queue k (mk_queue rest (open (queue_of k w))) w in
      mk_worker (headers w) (files w) (services w) (speed w) (running w) (taken w ++ [(k, s)]) (resets w) (dropped w)
  end.

Definition on_close (k : StreamKind) (w : worker) : worker :=
  let lost := items (queue_of k w) in
  let w := set_queue k (mk_queue [] false) w in
  mk_worker (headers w) (files w) (services w) (speed w) (running w) (taken w) (resets w) (dropped w ++ lost).

Inductive event : Type :=
  | Accepted (stream : option nat)
  | HeaderRead (stream : nat) (byte : option Z)
  | Joined (stream : nat)
  | Received (kind : StreamKind)
  | ReceiverDropped (kind : StreamKind).

Definition step (capabilities : Z) (e : event) (w : worker) : worker :=
  match e with
  | Accepted s => if running w then on_accept s w else w
  | HeaderRead s b => if running w then on_header s b w else w
  | Joined s => if running w then on_join capabilities s w else w
  | Received k => on_recv k w
  | ReceiverDropped k => on_close k w
  end.

Definition run (capabilities : Z) (events : list event) : worker :=
  fold_left (fun w e => step capabilities e w) events start.

(** ** What the worker guarantees *)

(** The streams accepted before accepting fails. *)
Fixpoint accepted (events : list event) : list nat :=
  match events with
  | Accepted (Some s) :: events => s :: accepted events
  | Accepted None :: _ => []
  | _ :: events => accepted events
  | [] => []
  end.

Definition kinds : list StreamKind := [SFile; SService; SSpeed].

(** Where every accepted stream is. *)
Definition places (w : worker) : list nat :=
  holding w ++ (items (files w) ++ items (services w) ++ items (speed w)) ++ map snd (taken w) ++ map fst (resets w) ++ dropped w.

(** The stream's header named the kind. *)
Definition announced (events : list event) (s : nat) (k : StreamKind) : Prop :=
  exists b, HeaderRead s (Some b) ∈ events /\ try_from b = Ok k.

Definition reaches (capabilities : Z) (events : list event) (s : nat) (k : StreamKind) : Prop :=
  announced events s k /\ enabled capabilities k = true.

Record sound (capabilities : Z) (events : list event) (w : worker) : Prop := mk_sound {
  so_headers : (length (headers w) <= MAX_PENDING_HEADERS)%nat;
  so_queues : forall k, (length (items (queue_of k w)) <= QUEUE_CAPACITY)%nat;
  so_places : accepted events ≡ₚ places w;
  so_nodup : NoDup (map fst (headers w));
  so_known : forall h, h ∈ headers w -> h.1 ∈ accepted events;
  so_read : forall s k, (s, Done (Some k)) ∈ headers w -> announced events s k;
  so_queued : forall k s, s ∈ items (queue_of k w) -> reaches capabilities events s k;
  so_taken : forall k s, (k, s) ∈ taken w -> reaches capabilities events s k;
  so_codes : forall s c, (s, c) ∈ resets w -> c = RESET_BUSY \/ c = RESET_UNSUPPORTED \/ c = RESET_INVALID;
  so_running : running w = negb (existsb (fun e => match e with Accepted None => true | _ => false end) events);
}.

Lemma accepted_app l e : accepted (l ++ [e]) =
  accepted l ++ (if existsb (fun e => match e with Accepted None => true | _ => false end) l then [] else match e with Accepted (Some s) => [s] | _ => [] end).
Proof.
  induction l as [|x l IH]; cbn; [by destruct e as [[]| | | |]|].
  destruct x as [[s|]|s b|s|k|k]; cbn; rewrite ?IH; done.
Qed.

Lemma announced_mono l e s k : announced l s k -> announced (l ++ [e]) s k.
Proof. intros (b & Hb & E). exists b. split; [|done]. rewrite elem_of_app. by left. Qed.

Lemma reaches_mono c l e s k : reaches c l s k -> reaches c (l ++ [e]) s k.
Proof. intros [Ha He]. split; [by apply announced_mono|done]. Qed.

Definition neutral (e : event) : bool := match e with Accepted _ => false | _ => true end.
Definition over (l : list event) : bool := existsb (fun e => match e with Accepted None => true | _ => false end) l.

Lemma neutral_accepted l e : neutral e = true -> accepted (l ++ [e]) = accepted l.
Proof. intros He. rewrite accepted_app. case_match; [by rewrite app_nil_r|]. destruct e; [done|by rewrite app_nil_r..]. Qed.

Lemma neutral_over l e : neutral e = true -> over (l ++ [e]) = over l.
Proof. intros He. unfold over. rewrite existsb_app. by destruct e; cbn; rewrite ?orb_false_r. Qed.

(** A step that changes nothing. *)
Lemma sound_same c l e w : sound c l w -> neutral e = true -> sound c (l ++ [e]) w.
Proof.
  intros [H1 H2 H3 H4 H5 H6 H7 H8 H9 H10] He. constructor; fold (over (l ++ [e])); rewrite ?(neutral_accepted l e He), ?(neutral_over l e He); try done; intros.
  - by apply announced_mono, H6.
  - by apply reaches_mono, H7.
  - by apply reaches_mono, H8.
Qed.

Lemma queue_of_set k k' q w : queue_of k' (set_queue k q w) = if decide (k = k') then q else queue_of k' w.
Proof. destruct w, k, k'; reflexivity. Qed.

Lemma queued_perm k q w : items (files (set_queue k q w)) ++ items (services (set_queue k q w)) ++ items (speed (set_queue k q w)) ≡ₚ
  items q ++ concat (map (fun k' => if decide (k = k') then [] else items (queue_of k' w)) kinds).
Proof. destruct w, k; cbn; rewrite ?app_nil_r; solve_Permutation. Qed.

Lemma queued_perm_0 k w : items (files w) ++ items (services w) ++ items (speed w) ≡ₚ
  items (queue_of k w) ++ concat (map (fun k' => if decide (k = k') then [] else items (queue_of k' w)) kinds).
Proof. destruct w, k; cbn; rewrite ?app_nil_r; solve_Permutation. Qed.

Lemma sound_accept c l s w : sound c l w -> running w = true -> s ∉ accepted l -> sound c (l ++ [Accepted (Some s)]) (on_accept (Some s) w).
Proof.
  intros [H1 H2 H3 H4 H5 H6 H7 H8 H9 H10] Hr Hs. rewrite Hr in H10. symmetry in H10. apply negb_true_iff in H10.
  assert (accepted (l ++ [Accepted (Some s)]) = accepted l ++ [s]) as Ea by (by rewrite accepted_app, H10).
  cbn [on_accept]. destruct (Nat.leb_spec MAX_PENDING_HEADERS (length (headers w))); constructor; cbn; rewrite ?Ea, ?existsb_app, ?H10; try done.
  - rewrite H3. unfold places. cbn. rewrite map_app. cbn. unfold holding. cbn. solve_Permutation.
  - intros h Hh. rewrite elem_of_app. left. by apply H5.
  - intros. by apply announced_mono, H6.
  - intros. by apply reaches_mono, H7.
  - intros. by apply reaches_mono, H8.
  - intros s' c' [Hin|[= -> ->]%list_elem_of_singleton]%elem_of_app; [by eapply H9|by left].
  - rewrite length_app. cbn. lia.
  - rewrite H3. unfold places, holding. cbn. rewrite List.filter_app, map_app. cbn. solve_Permutation.
  - rewrite map_app. cbn. apply NoDup_app. split; [done|]. split; [|apply NoDup_singleton].
    intros x (h & -> & Hh)%list_elem_of_fmap Hx%list_elem_of_singleton. apply Hs. rewrite <- Hx. by apply H5.
  - intros h [Hh| ->%list_elem_of_singleton]%elem_of_app; rewrite elem_of_app; [left; by apply H5|right; by left].
  - intros s' k [Hin|Hin%list_elem_of_singleton]%elem_of_app; [by apply announced_mono, H6|done].
  - intros k s' Hin. apply reaches_mono, H7. by destruct k.
  - intros. by apply reaches_mono, H8.
Qed.

Lemma sound_end c l w : sound c l w -> running w = true -> sound c (l ++ [Accepted None]) (on_accept None w).
Proof.
  intros [H1 H2 H3 H4 H5 H6 H7 H8 H9 H10] Hr. rewrite Hr in H10. symmetry in H10. apply negb_true_iff in H10.
  assert (accepted (l ++ [Accepted None]) = accepted l) as Ea by (by rewrite accepted_app, H10, app_nil_r).
  constructor; cbn; rewrite ?Ea, ?existsb_app; try done.
  - lia.
  - rewrite H3. unfold places. cbn. unfold holding at 2. cbn. solve_Permutation.
  - constructor.
  - intros h Hh%not_elem_of_nil. done.
  - intros s k Hh%not_elem_of_nil. done.
  - intros k s' Hin. apply reaches_mono, H7. by destruct k.
  - intros. by apply reaches_mono, H8.
  - by rewrite orb_true_r.
Qed.

(** Replacing the result of one reading task. *)
Definition finished (s : nat) (r : option StreamKind) (hs : list (nat * header)) : list (nat * header) :=
  map (fun h => if (h.1 =? s)%nat then (s, Done r) else h) hs.

Lemma finished_fst s r hs : map fst (finished s r hs) = map fst hs.
Proof. unfold finished. rewrite map_map. apply map_ext. intros [x y]. cbn. by destruct (Nat.eqb_spec x s) as [->|]. Qed.

Lemma in_finished s r hs h : h ∈ finished s r hs -> h = (s, Done r) /\ s ∈ map fst hs \/ h ∈ hs /\ h.1 <> s.
Proof.
  unfold finished. intros (h' & -> & Hin)%list_elem_of_fmap. destruct (Nat.eqb_spec h'.1 s) as [E|E].
  - left. split; [done|]. rewrite <- E. by apply list_elem_of_fmap_2.
  - by right.
Qed.

Definition live (hs : list (nat * header)) : list nat := map fst (List.filter (fun h => negb (bool_decide (h.2 = Done None))) hs).

Lemma live_finished s r hs : NoDup (map fst hs) -> (s, Reading) ∈ hs ->
  live hs ≡ₚ live (finished s r hs) ++ (if r then [] else [s]).
Proof.
  induction hs as [|[x y] hs IH]; cbn; intros Hn Hin; [by apply not_elem_of_nil in Hin|]. apply NoDup_cons in Hn as [Hx Hn].
  apply elem_of_cons in Hin as [[= <- <-]|Hin].
  - rewrite Nat.eqb_refl. assert (finished s r hs = hs) as E.
    { clear IH Hn. unfold finished. induction hs as [|[a b] hs IH]; [done|]. cbn in Hx |- *. apply not_elem_of_cons in Hx as [Ha Hx].
      destruct (Nat.eqb_spec a s) as [->|]; [done|]. f_equal. by apply IH. }
    unfold live in *. fold (finished s r hs). rewrite E. cbn. destruct r; cbn; solve_Permutation.
  - assert (x <> s) as Hxs by (intros ->; apply Hx; by apply (list_elem_of_fmap_2 fst) in Hin).
    rewrite (proj2 (Nat.eqb_neq _ _) Hxs). specialize (IH Hn Hin). unfold live in *. fold (finished s r hs). cbn.
    destruct (negb (bool_decide (y = Done None))); cbn; [|done]. by rewrite IH.
Qed.

Lemma finished_length s r hs : length (finished s r hs) = length hs.
Proof. apply length_map. Qed.

Lemma sound_done c l e s k w : sound c l w -> neutral e = true -> (s, Reading) ∈ headers w -> announced (l ++ [e]) s k ->
  sound c (l ++ [e]) (set_headers (finished s (Some k) (headers w)) w).
Proof.
  intros Hs He Hin Hk. destruct (sound_same c l e w Hs He) as [H1 H2 H3 H4 H5 H6 H7 H8 H9 H10].
  constructor; cbn [headers set_headers taken resets running]; try done.
  - by rewrite finished_length.
  - rewrite H3. unfold places. change (holding w) with (live (headers w)). rewrite (live_finished s (Some k) _ H4 Hin). by rewrite app_nil_r.
  - by rewrite finished_fst.
  - intros h [[-> Hf]|[Hh _]]%in_finished; [|by apply H5]. apply list_elem_of_fmap in Hf as (h' & -> & Hh). exact (H5 h' Hh).
  - intros s' k' [[[= -> ->] _]|[Hh _]]%in_finished; [done|by apply H6].
Qed.

Lemma sound_bad c l e s w : sound c l w -> neutral e = true -> (s, Reading) ∈ headers w ->
  sound c (l ++ [e]) (reject s RESET_INVALID (set_headers (finished s None (headers w)) w)).
Proof.
  intros Hs He Hin. destruct (sound_same c l e w Hs He) as [H1 H2 H3 H4 H5 H6 H7 H8 H9 H10].
  constructor; cbn [headers reject set_headers taken resets running]; try done.
  - by rewrite finished_length.
  - rewrite H3. unfold places. change (holding w) with (live (headers w)). rewrite (live_finished s None _ H4 Hin). cbn.
    change (holding _) with (live (finished s None (headers w))). rewrite map_app. cbn. solve_Permutation.
  - by rewrite finished_fst.
  - intros h [[-> Hf]|[Hh _]]%in_finished; [|by apply H5]. apply list_elem_of_fmap in Hf as (h' & -> & Hh). exact (H5 h' Hh).
  - intros s' k' [[? _]|[Hh _]]%in_finished; [done|by apply H6].
  - intros s' c' [Hc|[= -> ->]%list_elem_of_singleton]%elem_of_app; [by eapply H9|by right; right].
Qed.

Lemma sound_header c l s b w : sound c l w -> sound c (l ++ [HeaderRead s b]) (on_header s b w).
Proof.
  intros Hs. unfold on_header. destruct (existsb _ (headers w)) eqn:Ex; cbn [negb]; [|by apply sound_same].
  apply existsb_exists in Ex as ([x y] & Hin & [Hx%Nat.eqb_eq Hy%bool_decide_eq_true]%andb_true_iff). apply list_elem_of_In in Hin. cbn in Hin, Hx, Hy. subst x y. rename s into x.
  destruct b as [b|]; [|by apply (sound_bad c l (HeaderRead x None))]. destruct (try_from b) as [k|e|] eqn:E.
  - apply (sound_done c l (HeaderRead x (Some b))); [done|done|done|]. exists b. split; [|done]. rewrite elem_of_app. right. by left.
  - by apply (sound_bad c l (HeaderRead x (Some b))).
  - by apply (sound_bad c l (HeaderRead x (Some b))).
Qed.

(** A task is joined: its stream leaves the headers. *)
Definition without (s : nat) (hs : list (nat * header)) : list (nat * header) := List.filter (fun h => negb (h.1 =? s)%nat) hs.

Lemma in_without s hs h : h ∈ without s hs <-> h ∈ hs /\ h.1 <> s.
Proof. unfold without. rewrite !list_elem_of_In, filter_In, negb_true_iff, Nat.eqb_neq. done. Qed.

Lemma without_none s hs : s ∉ map fst hs -> without s hs = hs.
Proof.
  unfold without. induction hs as [|[x y] hs IH]; cbn; [done|]. intros [Hx Hs]%not_elem_of_cons.
  destruct (Nat.eqb_spec x s) as [->|]; [done|]. cbn. f_equal. by apply IH.
Qed.

Lemma live_without s r hs : NoDup (map fst hs) -> (s, Done r) ∈ hs ->
  live hs ≡ₚ live (without s hs) ++ (if r then [s] else []).
Proof.
  induction hs as [|[x y] hs IH]; cbn; intros Hn Hin; [by apply not_elem_of_nil in Hin|]. apply NoDup_cons in Hn as [Hx Hn].
  apply elem_of_cons in Hin as [[= <- <-]|Hin].
  - rewrite Nat.eqb_refl. cbn. fold (without s hs). rewrite (without_none s hs Hx). unfold live. cbn. destruct r; cbn; solve_Permutation.
  - assert (x <> s) as Hxs by (intros ->; apply Hx; by apply (list_elem_of_fmap_2 fst) in Hin).
    rewrite (proj2 (Nat.eqb_neq _ _) Hxs). cbn. fold (without s hs). specialize (IH Hn Hin). unfold live in *. cbn.
    destruct (negb (bool_decide (y = Done None))); cbn; [|done]. by rewrite IH.
Qed.

Lemma without_NoDup s hs : NoDup (map fst hs) -> NoDup (map fst (without s hs)).
Proof.
  induction hs as [|[x y] hs IH]; cbn; [done|]. intros [Hx Hn]%NoDup_cons. destruct (x =? s)%nat; cbn; [by apply IH|].
  constructor; [|by apply IH]. intros (h & E & Hh%in_without)%list_elem_of_fmap. apply Hx. cbn in E. rewrite E. exact (list_elem_of_fmap_2 fst _ _ (proj1 Hh)).
Qed.

Lemma without_length s hs : (length (without s hs) <= length hs)%nat.
Proof. unfold without. induction hs as [|h hs IH]; cbn; [lia|]. destruct (negb _); cbn; lia. Qed.

Lemma found_in s (hs : list (nat * header)) s' h : List.find (fun h => (h.1 =? s)%nat) hs = Some (s', h) -> s' = s /\ (s, h) ∈ hs.
Proof. intros [Hin E%Nat.eqb_eq]%find_some. cbn in E. subst s'. by rewrite list_elem_of_In. Qed.

(** What a dispatched stream may become. *)
Lemma sound_dispatch c l e s k w : sound c l w -> neutral e = true -> (s, Done (Some k)) ∈ headers w ->
  sound c (l ++ [e]) (dispatch c k s (set_headers (without s (headers w)) w)).
Proof.
  intros Hs He Hin. destruct (sound_same c l e w Hs He) as [H1 H2 H3 H4 H5 H6 H7 H8 H9 H10].
  pose proof (live_without s (Some k) _ H4 Hin) as Hlive. cbn in Hlive.
  assert (forall w', headers w' = without s (headers w) -> taken w' = taken w -> running w' = running w ->
    (forall s' c', (s', c') ∈ resets w' -> (s', c') ∈ resets w \/ c' = RESET_BUSY \/ c' = RESET_UNSUPPORTED \/ c' = RESET_INVALID) ->
    (forall k', (length (items (queue_of k' w')) <= QUEUE_CAPACITY)%nat) ->
    (forall k' s', s' ∈ items (queue_of k' w') -> reaches c (l ++ [e]) s' k') ->
    places w ≡ₚ places w' -> sound c (l ++ [e]) w') as Hgen.
  { intros w' Eh Et Er Hre Hq Hr Hp. constructor; rewrite ?Eh, ?Et, ?Er; try done.
    - pose proof (without_length s (headers w)). lia.
    - by rewrite H3.
    - by apply without_NoDup.
    - intros h [Hh _]%in_without. by apply H5.
    - intros s' k' [Hh _]%in_without. by apply H6.
    - intros s' c' [Hc|Hc]%Hre; [by eapply H9|done]. }
  unfold dispatch. destruct (enabled c k) eqn:Ee; cbn [negb].
  2: { apply Hgen; try done.
    - intros s' c' [Hc|[= -> ->]%list_elem_of_singleton]%elem_of_app; [by left|right; right; by left].
    - unfold places. change (holding w) with (live (headers w)). rewrite Hlive. cbn. change (holding _) with (live (without s (headers w))).
      rewrite map_app. cbn. solve_Permutation. }
  unfold try_send. change (queue_of k (set_headers _ w)) with (queue_of k w). destruct (open (queue_of k w)); cbn [negb].
  2: { apply Hgen; try done.
    - intros s' c' [Hc|[= -> ->]%list_elem_of_singleton]%elem_of_app; [by left|right; right; by left].
    - unfold places. change (holding w) with (live (headers w)). rewrite Hlive. cbn. change (holding _) with (live (without s (headers w))).
      rewrite map_app. cbn. solve_Permutation. }
  destruct (Nat.leb_spec QUEUE_CAPACITY (length (items (queue_of k w)))) as [Hf|Hf].
  { apply Hgen; try done.
    - intros s' c' [Hc|[= -> ->]%list_elem_of_singleton]%elem_of_app; [by left|right; by left].
    - unfold places. change (holding w) with (live (headers w)). rewrite Hlive. cbn. change (holding _) with (live (without s (headers w))).
      rewrite map_app. cbn. solve_Permutation. }
  apply Hgen; try (by destruct w, k).
  - intros s' c' Hc. left. by destruct w, k.
  - intros k'. rewrite queue_of_set. destruct (decide (k = k')) as [->|]; [cbn [items]; rewrite length_app; cbn [length]; lia|apply H2].
  - intros k' s'. rewrite queue_of_set. destruct (decide (k = k')) as [->|]; [|apply H7].
    intros [Hin'| ->%list_elem_of_singleton]%elem_of_app; [by apply H7|]. split; [by apply H6|done].
  - unfold places. rewrite queued_perm, (queued_perm_0 k). change (holding w) with (live (headers w)). rewrite Hlive.
    destruct w, k; cbn; change (holding _) with (live (without s headers0)); solve_Permutation.
Qed.

Lemma sound_join c l s w : sound c l w -> sound c (l ++ [Joined s]) (on_join c s w).
Proof.
  intros Hs. unfold on_join. destruct (List.find _ (headers w)) as [[s' [|r]]|] eqn:E; try by apply sound_same.
  apply found_in in E as [-> Hin]. destruct r as [k|]; [by apply sound_dispatch|].
  destruct (sound_same c l (Joined s) w Hs eq_refl) as [H1 H2 H3 H4 H5 H6 H7 H8 H9 H10].
  fold (without s (headers w)). constructor; cbn [headers set_headers taken resets running]; try done.
  - pose proof (without_length s (headers w)). lia.
  - rewrite H3. unfold places. change (holding w) with (live (headers w)). rewrite (live_without s None _ H4 Hin). by rewrite app_nil_r.
  - by apply without_NoDup.
  - intros h [Hh _]%in_without. by apply H5.
  - intros s' k' [Hh _]%in_without. by apply H6.
Qed.

Lemma sound_recv c l k w : sound c l w -> sound c (l ++ [Received k]) (on_recv k w).
Proof.
  intros Hs. unfold on_recv. destruct (items (queue_of k w)) as [|s rest] eqn:E; [by apply sound_same|].
  destruct (sound_same c l (Received k) w Hs eq_refl) as [H1 H2 H3 H4 H5 H6 H7 H8 H9 H10].
  pose proof (queued_perm k (mk_queue rest (open (queue_of k w))) w) as Hp. pose proof (queued_perm_0 k w) as Hp0. rewrite E in Hp0.
  assert (forall k', queue_of k' (set_queue k (mk_queue rest (open (queue_of k w))) w) = if decide (k = k') then mk_queue rest (open (queue_of k w)) else queue_of k' w) as Hq
    by (intros; apply queue_of_set).
  set (w1 := set_queue k _ w) in *. assert (headers w1 = headers w /\ taken w1 = taken w /\ resets w1 = resets w /\ dropped w1 = dropped w /\ running w1 = running w) as (Eh & Et & Er & Ed & Eg)
    by (subst w1; clear; by destruct w, k).
  constructor; cbn [headers taken resets running]; rewrite ?Eh, ?Et, ?Er, ?Eg; try done.
  - intros k'. change (queue_of k' _) with (queue_of k' w1). rewrite Hq. destruct (decide _); [|apply H2]. cbn. specialize (H2 k). rewrite E in H2. cbn in H2. lia.
  - rewrite H3. unfold places. cbn [files services speed taken resets dropped]. rewrite Hp, Hp0, ?Et, ?Er, ?Ed, map_app. cbn.
    change (holding w) with (live (headers w)). try change (holding _) with (live (headers w1)); rewrite ?Eh; solve_Permutation.
  - intros k' s'. change (queue_of k' _) with (queue_of k' w1). rewrite Hq. destruct (decide _) as [<-|]; [|apply H7]. cbn. intros Hin.
    apply H7. rewrite E. by right.
  - intros k' s' [Hin|[= -> ->]%list_elem_of_singleton]%elem_of_app; [by apply H8|]. apply H7. rewrite E. by left.
Qed.

Lemma sound_close c l k w : sound c l w -> sound c (l ++ [ReceiverDropped k]) (on_close k w).
Proof.
  intros Hs. unfold on_close. destruct (sound_same c l (ReceiverDropped k) w Hs eq_refl) as [H1 H2 H3 H4 H5 H6 H7 H8 H9 H10].
  pose proof (queued_perm k (mk_queue [] false) w) as Hp. pose proof (queued_perm_0 k w) as Hp0.
  assert (forall k', queue_of k' (set_queue k (mk_queue [] false) w) = if decide (k = k') then mk_queue [] false else queue_of k' w) as Hq
    by (intros; apply queue_of_set).
  set (w1 := set_queue k _ w) in *. assert (headers w1 = headers w /\ taken w1 = taken w /\ resets w1 = resets w /\ dropped w1 = dropped w /\ running w1 = running w) as (Eh & Et & Er & Ed & Eg)
    by (subst w1; clear; by destruct w, k).
  constructor; cbn [headers taken resets running]; rewrite ?Eh, ?Et, ?Er, ?Eg; try done.
  - intros k'. change (queue_of k' _) with (queue_of k' w1). rewrite Hq. destruct (decide _); [cbn; lia|apply H2].
  - rewrite H3. unfold places. cbn [files services speed taken resets dropped]. rewrite Hp, Hp0, ?Et, ?Er, ?Ed. cbn [items].
    change (holding w) with (live (headers w)). try change (holding _) with (live (headers w1)); rewrite ?Eh; solve_Permutation.
  - intros k' s'. change (queue_of k' _) with (queue_of k' w1). rewrite Hq. destruct (decide _); [|apply H7]. cbn. by intros ?%not_elem_of_nil.
Qed.

Lemma stopped_same c l e w : sound c l w -> running w = false -> accepted (l ++ [e]) = accepted l -> sound c (l ++ [e]) w.
Proof.
  intros Hs Hr Ea. destruct Hs as [H1 H2 H3 H4 H5 H6 H7 H8 H9 H10]. rewrite Hr in H10. symmetry in H10. apply negb_false_iff in H10.
  constructor; rewrite ?Ea; try done; intros.
  - by apply announced_mono, H6.
  - by apply reaches_mono, H7.
  - by apply reaches_mono, H8.
  - by rewrite existsb_app, H10, Hr.
Qed.

Lemma accepted_prefix l e : exists r, accepted (l ++ [e]) = accepted l ++ r.
Proof. rewrite accepted_app. eauto. Qed.

(** C29: The dispatcher loses no stream and mixes none up. When every stream is
    accepted once, whatever the order of events: at most 64 headers are read at a time
    and at most 32 streams of a kind wait; every accepted stream is in exactly one
    place, read, queued, taken by a consumer, reset or dropped with its owner; a
    consumer only gets streams whose header named its kind, and only of kinds the
    connection negotiated; and the resets carry the three documented codes. *)
Theorem dispatch_sound (capabilities : Z) (events : list event) : NoDup (accepted events) ->
  let w := run capabilities events in
  (length (headers w) <= 64)%nat /\ (forall k, (length (items (queue_of k w)) <= 32)%nat) /\
  accepted events ≡ₚ places w /\ NoDup (places w) /\
  (forall k s, s ∈ items (queue_of k w) \/ (k, s) ∈ taken w ->
     enabled capabilities k = true /\ exists b, HeaderRead s (Some b) ∈ events /\ b = stream_code k) /\
  (forall s code, (s, code) ∈ resets w -> code = RESET_BUSY \/ code = RESET_UNSUPPORTED \/ code = RESET_INVALID).
Proof.
  intros Hn. cbv zeta. assert (sound capabilities events (run capabilities events)) as [H1 H2 H3 H4 H5 H6 H7 H8 H9 H10].
  { induction events as [|e l IH] using rev_ind.
    { constructor; [apply Nat.le_0_l|intros []; apply Nat.le_0_l|done|constructor|intros h Hh|intros s k Hh|intros [] s Hh|intros k s Hh|intros s k Hh|done];
        by apply not_elem_of_nil in Hh. }
    destruct (accepted_prefix l e) as [r Er]. rewrite Er in Hn. apply NoDup_app in Hn as (Hn & Hd & _). specialize (IH Hn).
    unfold run. rewrite fold_left_app. cbn [fold_left]. fold (run capabilities l). destruct e as [s|s b|s|k|k]; cbn [step].
    - destruct (running (run capabilities l)) eqn:Erun.
      + destruct s as [s|]; [|by apply sound_end]. apply sound_accept; [done|done|]. intros Hin. apply (Hd s Hin).
        rewrite accepted_app in Er. apply app_inv_head in Er as <-. pose proof (so_running _ _ _ IH) as Ho. rewrite Erun in Ho.
        symmetry in Ho. apply negb_true_iff in Ho. rewrite Ho. by left.
      + apply stopped_same; [done|done|]. rewrite accepted_app. pose proof (so_running _ _ _ IH) as Ho. rewrite Erun in Ho.
        symmetry in Ho. apply negb_false_iff in Ho. by rewrite Ho, app_nil_r.
    - destruct (running _); [by apply sound_header|by apply sound_same].
    - destruct (running _); [by apply sound_join|by apply sound_same].
    - by apply sound_recv.
    - by apply sound_close. }
  split; [exact H1|]. split; [exact H2|]. split; [exact H3|]. split; [by rewrite <- H3|]. split; [|exact H9].
  assert (forall k s, reaches capabilities events s k -> enabled capabilities k = true /\ exists b, HeaderRead s (Some b) ∈ events /\ b = stream_code k) as Hr.
  { intros k s [(b & Hb & E) He]. split; [done|]. exists b. split; [done|]. unfold try_from in E.
    destruct (Z.eqb_spec b 1) as [->|]; [by injection E as <-|]. destruct (Z.eqb_spec b 2) as [->|]; [by injection E as <-|].
    destruct (Z.eqb_spec b 3) as [->|]; [by injection E as <-|done]. }
  intros k s [Hin|Hin]; apply Hr; [by apply H7|by apply H8].
Qed.

(** A stream whose header was read is queued last when its kind is negotiated and its
    queue has room: other kinds cannot stand in its way. *)
Lemma dispatch_delivers (capabilities : Z) (s : nat) (k : StreamKind) (w : worker) : running w = true ->
  List.find (fun h => (h.1 =? s)%nat) (headers w) = Some (s, Done (Some k)) -> enabled capabilities k = true ->
  open (queue_of k w) = true -> (length (items (queue_of k w)) < QUEUE_CAPACITY)%nat ->
  queue_of k (step capabilities (Joined s) w) = mk_queue (items (queue_of k w) ++ [s]) true /\
  forall k', k' <> k -> queue_of k' (step capabilities (Joined s) w) = queue_of k' w.
Proof.
  intros Hr Hf He Ho Hl. cbn [step]. rewrite Hr. unfold on_join, dispatch, try_send. rewrite Hf, He. cbn [negb].
  change (queue_of k (set_headers _ w)) with (queue_of k w). rewrite Ho. cbn [negb]. rewrite (proj2 (Nat.leb_gt _ _) Hl).
  split; [by rewrite queue_of_set, decide_True|]. intros k' Hk. by rewrite queue_of_set, decide_False.
Qed.

(** ** Three streams *)

Definition morning : list event :=
  [Accepted (Some 1%nat); Accepted (Some 2%nat); Accepted (Some 3%nat); HeaderRead 2 (Some 1); HeaderRead 1 (Some 9);
   Joined 2; HeaderRead 3 (Some 2); Joined 3; Joined 1; Received SFile].

Lemma dispatch_sound_witness : let w := run CAP_FILE_TRANSFER morning in
  taken w = [(SFile, 2%nat)] /\ resets w = [(1%nat, RESET_INVALID); (3%nat, RESET_UNSUPPORTED)] /\ accepted morning ≡ₚ places w.
Proof.
  assert (NoDup (accepted morning)) as Hn by (apply (bool_decide_unpack _); vm_compute; exact I).
  destruct (dispatch_sound CAP_FILE_TRANSFER morning Hn) as (_ & _ & Hp & _).
  split; [vm_compute; reflexivity|]. split; [vm_compute; reflexivity|exact Hp].
Defined.
End Dispatch.
