(* ===== verification/Addr.v ===== *)
(** * Socket addresses and native address families (src/net/family.rs)

    [std::net] addresses with the classifications the code asks for; an IPv4
    address is its 32-bit value, an IPv6 address its 128-bit value. *)
From Stdlib Require Import ZArith Lia.
From stdpp Require Import prelude gmap strings countable.
From S2P Require Import Prelude.

#[local] Open Scope Z_scope.

Module Addr.

Inductive IpAddr : Type :=
  | IpV4 (bits : Z)
  | IpV6 (bits : Z).

Inductive SocketAddr : Type :=
  | V4 (bits port : Z)
  | V6 (bits port flowinfo scope_id : Z).

#[global] Instance IpAddr_eq_dec : EqDecision IpAddr.
Proof. solve_decision. Defined.
#[global] Instance SocketAddr_eq_dec : EqDecision SocketAddr.
Proof. solve_decision. Defined.

Definition addr_code (a : SocketAddr) : Z * Z + Z * Z * Z * Z :=
  match a with
  | V4 b p => inl (b, p)
  | V6 b p f s => inr (b, p, f, s)
  end.
Definition addr_of_code (c : Z * Z + Z * Z * Z * Z) : SocketAddr :=
  match c with
  | inl (b, p) => V4 b p
  | inr (b, p, f, s) => V6 b p f s
  end.
#[global] Instance SocketAddr_countable : Countable SocketAddr.
Proof. apply (inj_countable' addr_code addr_of_code). by intros []. Defined.

(** ** [std::net] *)

Definition ip (a : SocketAddr) : IpAddr :=
  match a with
  | V4 b _ => IpV4 b
  | V6 b _ _ _ => IpV6 b
  end.
Definition port (a : SocketAddr) : Z :=
  match a with
  | V4 _ p | V6 _ p _ _ => p
  end.
Definition is_ipv4 (a : SocketAddr) : bool :=
  match a with
  | V4 _ _ => true
  | V6 _ _ _ _ => false
  end.

Definition is_unspecified (a : IpAddr) : bool :=
  match a with
  | IpV4 b | IpV6 b => b =? 0
  end.
(** 224.0.0.0/4 and ff00::/8. *)
Definition is_multicast (a : IpAddr) : bool :=
  match a with
  | IpV4 b => Z.shiftr b 28 =? 14
  | IpV6 b => Z.shiftr b 120 =? 255
  end.
(** 127.0.0.0/8 and ::1. *)
Definition is_loopback (a : IpAddr) : bool :=
  match a with
  | IpV4 b => Z.shiftr b 24 =? 127
  | IpV6 b => b =? 1
  end.
Definition is_broadcast (v4 : Z) : bool := v4 =? 4294967295.
(** fe80::/10. *)
Definition is_unicast_link_local (v6 : Z) : bool := Z.shiftr v6 118 =? 1018.
(** ::ffff:a.b.c.d. *)
Definition to_ipv4_mapped (v6 : Z) : option Z :=
  if Z.shiftr v6 32 =? 65535 then Some (v6 mod 4294967296) else None.

(** ** AddressFamily *)

Inductive AddressFamily : Type := Ipv6 | Ipv4.
#[global] Instance AddressFamily_eq_dec : EqDecision AddressFamily.
Proof. solve_decision. Defined.

Definition family_of (a : SocketAddr) : AddressFamily := if is_ipv4 a then Ipv4 else Ipv6.

Definition wildcard (f : AddressFamily) (port : Z) : SocketAddr :=
  match f with
  | Ipv4 => V4 0 port
  | Ipv6 => V6 0 port 0 0
  end.

Definition loopback (f : AddressFamily) (port : Z) : SocketAddr :=
  match f with
  | Ipv4 => V4 (127 * 16777216 + 1) port
  | Ipv6 => V6 1 port 0 0
  end.

Definition usable_address (a : SocketAddr) : bool :=
  if (port a =? 0) || is_unspecified (ip a) || is_multicast (ip a) then false
  else
    match a with
    | V4 b _ => negb (is_broadcast b)
    | V6 b _ flowinfo scope_id =>
        (scope_id =? 0) && (flowinfo =? 0) && negb (is_unicast_link_local b) &&
        bool_decide (to_ipv4_mapped b = None)
    end.

Definition accepts (f : AddressFamily) (a : SocketAddr) : bool :=
  bool_decide (family_of a = f) && usable_address a.

Inductive NetworkFamilies : Type := DualStack | Ipv4Only | Ipv6Only.
#[global] Instance NetworkFamilies_eq_dec : EqDecision NetworkFamilies.
Proof. solve_decision. Defined.

Definition enabled (n : NetworkFamilies) (f : AddressFamily) : bool :=
  bool_decide (n = DualStack) ||
  match n, f with
  | Ipv4Only, Ipv4 | Ipv6Only, Ipv6 => true
  | _, _ => false
  end.

(** An IPv6 socket address that is accepted is never an IPv4 one in disguise. *)
Lemma accepts_family f a : accepts f a = true -> family_of a = f /\ usable_address a = true.
Proof. unfold accepts. intros [H1 H2]%andb_true_iff. by apply bool_decide_eq_true in H1. Qed.

Lemma loopback_usable f p : 0 < p -> accepts f (loopback f p) = true.
Proof.
  intros Hp. unfold accepts, usable_address. destruct f; cbn; destruct (Z.eqb_spec p 0); (lia || done).
Qed.

End Addr.
