(* ===== verification/AddrText.v ===== *)
(** * Addresses as text ([std::net])

    What [str::parse::<SocketAddr>] accepts and what [Display] writes: the parser of the
    standard library over code points. *)
From Stdlib Require Import ZArith Lia.
From stdpp Require Import prelude gmap strings.
From S2P Require Import Prelude Addr.

#[local] Open Scope Z_scope.

Module AddrText.
Import Addr.

Definition digit_value (radix c : Z) : option Z :=
  let v := if (48 <=? c) && (c <=? 57) then Some (c - 48)
           else if (97 <=? c) && (c <=? 102) then Some (c - 87)
           else if (65 <=? c) && (c <=? 70) then Some (c - 55) else None in
  match v with Some d => if d <? radix then Some d else None | None => None end.

Fixpoint read_digits (radix : Z) (text : list Z) : list Z * list Z :=
  match text with
  | c :: rest =>
      match digit_value radix c with
      | Some d => let (ds, rest') := read_digits radix rest in (d :: ds, rest')
      | None => ([], text)
      end
  | [] => ([], [])
  end.

(** [read_number]: at most [max_digits], up to [limit]; a leading zero where allowed. *)
Definition read_number (radix : Z) (max_digits : option nat) (zero_prefix : bool) (limit : Z) (text : list Z) : option (Z * list Z) :=
  let (ds, rest) := read_digits radix text in
  let value := fold_left (fun acc d => acc * radix + d) ds 0 in
  if bool_decide (ds = []) then None
  else if match max_digits with Some m => (m <? length ds)%nat | None => false end then None
  else if limit <? value then None
  else if negb zero_prefix && bool_decide (head ds = Some 0) && (1 <? length ds)%nat then None
  else Some (value, rest).

Definition read_given (c : Z) (text : list Z) : option (list Z) :=
  match text with x :: rest => if x =? c then Some rest else None | [] => None end.

Definition read_octet : list Z -> option (Z * list Z) := read_number 10 (Some 3%nat) false 255.

Definition read_ipv4 (text : list Z) : option (Z * list Z) :=
  '(a, r) ← read_octet text; r ← read_given 46 r;
  '(b, r) ← read_octet r; r ← read_given 46 r;
  '(c, r) ← read_octet r; r ← read_given 46 r;
  '(d, r) ← read_octet r;
  Some (((a * 256 + b) * 256 + c) * 256 + d, r).

(** [read_groups]: [n] slots are left; an IPv4 address fills the last two. *)
Fixpoint read_groups (n : nat) (first : bool) (text : list Z) : list Z * bool * list Z :=
  match n with
  | O => ([], false, text)
  | S n' =>
      let at_group := if first then Some text else read_given 58 text in
      match (if (0 <? n')%nat then at_group ≫= read_ipv4 else None) with
      | Some (v4, rest) => ([v4 / 65536; v4 mod 65536], true, rest)
      | None =>
          match at_group ≫= read_number 16 (Some 4%nat) true 65535 with
          | Some (g, rest) => let '(gs, v4, rest') := read_groups n' false rest in (g :: gs, v4, rest')
          | None => ([], false, text)
          end
      end
  end.

Definition of_groups (gs : list Z) : Z := fold_left (fun acc g => acc * 65536 + g) gs 0.

Definition read_ipv6 (text : list Z) : option (Z * list Z) :=
  let '(front, v4, rest) := read_groups 8 true text in
  if (length front =? 8)%nat then Some (of_groups front, rest)
  else if v4 then None
  else
    rest ← read_given 58 rest; rest ← read_given 58 rest;
    let '(back, _, rest) := read_groups (8 - (length front + 1)) true rest in
    Some (of_groups (front ++ List.repeat 0 (8 - length front - length back) ++ back), rest).

Definition read_port (text : list Z) : option (Z * list Z) := rest ← read_given 58 text; read_number 10 None true U16_MAX rest.

Definition read_socket_v4 (text : list Z) : option (SocketAddr * list Z) :=
  '(bits, r) ← read_ipv4 text; '(port, r) ← read_port r; Some (V4 bits port, r).

Definition read_scope_id (text : list Z) : option (Z * list Z) := rest ← read_given 37 text; read_number 10 None true U32_MAX rest.

Definition read_socket_v6 (text : list Z) : option (SocketAddr * list Z) :=
  r ← read_given 91 text;
  '(bits, r) ← read_ipv6 r;
  let (scope, r) := match read_scope_id r with Some (scope, r') => (scope, r') | None => (0, r) end in
  r ← read_given 93 r;
  '(port, r) ← read_port r;
  Some (V6 bits port 0 scope, r).

(** [str::parse::<SocketAddr>]. *)
Definition parse_addr (text : list Z) : option SocketAddr :=
  match match read_socket_v4 text with Some x => Some x | None => read_socket_v6 text end with
  | Some (a, []) => Some a
  | _ => None
  end.

(** Decimal digits; ten are enough for 32 bits. *)
Fixpoint decimal_of (fuel : nat) (n : Z) : list Z :=
  match fuel with
  | O => []
  | S fuel => if n <? 10 then [48 + n] else decimal_of fuel (n / 10) ++ [48 + n mod 10]
  end.
Definition decimal (n : Z) : list Z := decimal_of 10 n.

Definition show_ipv4 (bits : Z) : list Z :=
  decimal (bits / 16777216) ++ [46] ++ decimal (bits / 65536 mod 256) ++ [46] ++ decimal (bits / 256 mod 256) ++ [46] ++ decimal (bits mod 256).

(** [Display for SocketAddrV4]. *)
Definition show_v4 (bits port : Z) : list Z := show_ipv4 bits ++ [58] ++ decimal port.

(** Hexadecimal digits; four are enough for a group. *)
Fixpoint hex_digits (fuel : nat) (n : Z) : list Z :=
  match fuel with
  | O => []
  | S fuel => if n <? 16 then [n] else hex_digits fuel (n / 16) ++ [n mod 16]
  end.
Definition hex_char (d : Z) : Z := if d <? 10 then 48 + d else 87 + d.
Definition show_group (g : Z) : list Z := map hex_char (hex_digits 4 g).

Fixpoint groups (n : nat) (bits : Z) : list Z :=
  match n with
  | O => []
  | S n => groups n (bits / 65536) ++ [bits mod 65536]
  end.

(** Start and length of the longest run of zeros, the first of the longest. *)
Definition scan (acc : nat * (nat * nat) * (nat * nat)) (g : Z) : nat * (nat * nat) * (nat * nat) :=
  let '(i, (start, len), longest) := acc in
  if g =? 0 then
    let current := if (len =? 0)%nat then (i, 1%nat) else (start, S len) in
    (S i, current, if (longest.2 <? current.2)%nat then current else longest)
  else (S i, (0, 0)%nat, longest).
Definition zeros (gs : list Z) : nat * nat := (fold_left scan gs (0, (0, 0), (0, 0))%nat).2.

(** [fmt_subslice]. *)
Definition show_rest (gs : list Z) : list Z := flat_map (fun g => 58 :: show_group g) gs.
Definition show_groups (gs : list Z) : list Z := match gs with [] => [] | g :: gs => show_group g ++ show_rest gs end.

(** [Display for Ipv6Addr]. *)
Definition show_ipv6 (bits : Z) : list Z :=
  match to_ipv4_mapped bits with
  | Some v4 => lit "::ffff:" ++ show_ipv4 v4
  | None =>
      let gs := groups 8 bits in
      let (start, len) := zeros gs in
      if (1 <? len)%nat then show_groups (take start gs) ++ [58; 58] ++ show_groups (drop (start + len) gs) else show_groups gs
  end.

(** [Display for SocketAddr]; the flow information is not shown. *)
Definition show_addr (a : SocketAddr) : list Z :=
  match a with
  | V4 bits port => show_v4 bits port
  | V6 bits port _ scope =>
      [91] ++ show_ipv6 bits ++ (if scope =? 0 then [] else [37] ++ decimal scope) ++ [93; 58] ++ decimal port
  end.

(** An address as [std] has it. *)
Definition addr_ok (a : SocketAddr) : Prop :=
  match a with
  | V4 bits port => 0 <= bits < 2 ^ 32 /\ 0 <= port <= U16_MAX
  | V6 bits port flow scope => 0 <= bits < 2 ^ 128 /\ 0 <= port <= U16_MAX /\ flow = 0 /\ 0 <= scope <= U32_MAX
  end.

(** ** Printing and parsing IPv4 *)

Definition value_of (ds : list Z) : Z := fold_left (fun acc d => acc * 10 + d) ds 0.

Lemma value_snoc ds d : value_of (ds ++ [d]) = value_of ds * 10 + d.
Proof. unfold value_of. by rewrite fold_left_app. Qed.

(** The digits of a number: no leading zero, no more than needed. *)
Lemma decimal_spec fuel n : 0 <= n < 10 ^ Z.of_nat fuel -> (0 < fuel)%nat ->
  exists ds, decimal_of fuel n = map (fun d => 48 + d) ds /\ Forall (fun d => 0 <= d < 10) ds /\ value_of ds = n /\ ds <> [] /\
    (length ds = 1%nat \/ head ds <> Some 0 /\ 10 ^ (Z.of_nat (length ds) - 1) <= n).
Proof.
  revert n. induction fuel as [|fuel IH]; intros n Hn Hf; [lia|]. cbn [decimal_of].
  destruct (Z.ltb_spec n 10) as [Hs|Hs].
  { exists [n]. split; [done|]. split; [repeat constructor; lia|]. split; [cbn; lia|]. split; [done|by left]. }
  assert (0 < fuel)%nat as Hf'. { destruct fuel; [|lia]. cbn in Hn. lia. }
  rewrite Nat2Z.inj_succ, Z.pow_succ_r in Hn by lia.
  destruct (IH (n / 10)) as (ds & E & Hd & Hv & Hne & Hl); [split; [apply Z.div_pos; lia|apply Z.div_lt_upper_bound; lia]|done|].
  pose proof (Z.mod_pos_bound n 10 ltac:(lia)). pose proof (Z.div_mod n 10 ltac:(lia)).
  exists (ds ++ [n mod 10]). split; [by rewrite map_app, E|]. split; [apply Forall_app; split; [done|by apply Forall_singleton]|].
  split; [rewrite value_snoc, Hv; lia|]. split; [by destruct ds|]. right. destruct ds as [|d ds]; [done|]. cbn [head app]. split.
  - destruct Hl as [Hl|[Hl _]]; [|done]. destruct ds; [|done]. unfold value_of in Hv. cbn in Hv. assert (1 <= n / 10) by (apply Z.div_le_lower_bound; lia). intros [= E0]. lia.
  - cbn [length]. rewrite length_app. cbn [length]. replace (Z.of_nat (S (length ds + 1)) - 1) with (Z.succ (Z.of_nat (S (length ds)) - 1)) by lia.
    rewrite Z.pow_succ_r by lia. destruct Hl as [Hl|[_ Hl]]; [|cbn [length] in Hl; lia].
    destruct ds; [|done]. cbn. lia.
Qed.

Definition stops (rest : list Z) : Prop := match rest with c :: _ => digit_value 10 c = None | [] => True end.

Lemma read_digits_back ds rest : Forall (fun d => 0 <= d < 10) ds -> stops rest ->
  read_digits 10 (map (fun d => 48 + d) ds ++ rest) = (ds, rest).
Proof.
  intros Hd Hr. induction Hd as [|d ds Hd _ IH]; cbn.
  - destruct rest as [|c rest]; [done|]. cbn in *. by rewrite Hr.
  - assert (digit_value 10 (48 + d) = Some d) as ->; [|by rewrite IH].
    unfold digit_value. rewrite (proj2 (Z.leb_le 48 (48 + d))), (proj2 (Z.leb_le (48 + d) 57)) by lia. cbn [andb].
    replace (48 + d - 48) with d by lia. by rewrite (proj2 (Z.ltb_lt d 10)) by lia.
Qed.

Lemma read_decimal m zero limit n rest : 0 <= n <= limit -> limit < 10 ^ 10 -> stops rest ->
  match m with Some k => (0 < k)%nat /\ limit < 10 ^ Z.of_nat k | None => True end ->
  read_number 10 m zero limit (decimal n ++ rest) = Some (n, rest).
Proof.
  intros Hn Hlim Hr Hm. destruct (decimal_spec 10 n) as (ds & E & Hd & Hv & Hne & Hl); [change (Z.of_nat 10) with 10; lia|lia|].
  unfold read_number, decimal. rewrite E, read_digits_back by done. fold (value_of ds). rewrite Hv, bool_decide_eq_false_2 by done.
  assert (match m with Some k => (k <? length ds)%nat | None => false end = false) as ->.
  { destruct m as [k|]; [|done]. apply Nat.ltb_ge. destruct Hl as [Hl|[_ Hl]].
    - lia.
    - assert (10 ^ (Z.of_nat (length ds) - 1) < 10 ^ Z.of_nat k) as Hp by lia. apply Z.pow_lt_mono_r_iff in Hp; lia. }
  rewrite (proj2 (Z.ltb_ge _ _)) by lia.
  assert (negb zero && bool_decide (head ds = Some 0) && (1 <? length ds)%nat = false) as ->; [|done].
  destruct Hl as [Hl|[Hl _]]; [by rewrite Hl, andb_false_r|by rewrite bool_decide_eq_false_2, andb_false_r].
Qed.

Lemma ipv4_back (bits : Z) rest : 0 <= bits < 2 ^ 32 -> stops rest -> read_ipv4 (show_ipv4 bits ++ rest) = Some (bits, rest).
Proof.
  intros Hb Hr.
  assert (forall n rest, 0 <= n <= 255 -> stops rest -> read_octet (decimal n ++ rest) = Some (n, rest)) as Ho.
  { intros n r Hn Hc. apply read_decimal; [done|done|done|split; [lia|done]]. }
  assert (forall n, 0 <= n mod 256 <= 255) as Hm by (intros n; pose proof (Z.mod_pos_bound n 256 ltac:(lia)); lia).
  unfold show_ipv4, read_ipv4. rewrite <- !app_assoc. cbn [app].
  rewrite Ho by (done || (split; [apply Z.div_pos; lia|apply Z.lt_succ_r, Z.div_lt_upper_bound; lia])). cbn [mbind option_bind read_given Z.eqb Pos.eqb].
  rewrite Ho by done. cbn [mbind option_bind read_given Z.eqb Pos.eqb].
  rewrite Ho by done. cbn [mbind option_bind read_given Z.eqb Pos.eqb].
  rewrite Ho by done. cbn [mbind option_bind]. do 2 f_equal.
  pose proof (Z.div_mod bits 256 ltac:(lia)). pose proof (Z.div_mod (bits / 256) 256 ltac:(lia)). pose proof (Z.div_mod (bits / 256 / 256) 256 ltac:(lia)).
  rewrite !Z.div_div in * by lia. change (256 * 256) with 65536 in *. change (65536 * 256) with 16777216 in *. lia.
Qed.

Lemma port_back port : 0 <= port <= U16_MAX -> read_port (58 :: decimal port) = Some (port, []).
Proof. intros Hp. unfold read_port. cbn [read_given Z.eqb Pos.eqb mbind option_bind]. rewrite <- (app_nil_r (decimal port)). by rewrite read_decimal. Qed.

Lemma socket_v4_back (bits port : Z) : 0 <= bits < 2 ^ 32 -> 0 <= port <= U16_MAX -> parse_addr (show_v4 bits port) = Some (V4 bits port).
Proof.
  intros Hb Hp. assert (read_socket_v4 (show_v4 bits port) = Some (V4 bits port, [])) as E; [|unfold parse_addr; by rewrite E].
  unfold read_socket_v4, show_v4. rewrite ipv4_back by done. cbn [mbind option_bind app]. by rewrite port_back.
Qed.

(** ** Printing and parsing IPv6 *)

Definition hex_value (ds : list Z) : Z := fold_left (fun acc d => acc * 16 + d) ds 0.

Lemma hex_spec fuel n : 0 <= n < 16 ^ Z.of_nat fuel -> (0 < fuel)%nat ->
  Forall (fun d => 0 <= d < 16) (hex_digits fuel n) /\ hex_value (hex_digits fuel n) = n /\ hex_digits fuel n <> [] /\
  (length (hex_digits fuel n) <= fuel)%nat.
Proof.
  revert n. induction fuel as [|fuel IH]; intros n Hn Hf; [lia|]. cbn [hex_digits].
  destruct (Z.ltb_spec n 16) as [Hs|Hs]; [split; [repeat constructor; lia|]; split; [cbn; lia|]; split; [done|cbn; lia]|].
  assert (0 < fuel)%nat as Hf'. { destruct fuel; [|lia]. cbn in Hn. lia. }
  rewrite Nat2Z.inj_succ, Z.pow_succ_r in Hn by lia.
  destruct (IH (n / 16)) as (Hd & Hv & Hne & Hl); [split; [apply Z.div_pos; lia|apply Z.div_lt_upper_bound; lia]|done|].
  pose proof (Z.mod_pos_bound n 16 ltac:(lia)). pose proof (Z.div_mod n 16 ltac:(lia)).
  split; [apply Forall_app; split; [done|by apply Forall_singleton]|].
  split; [unfold hex_value in *; rewrite fold_left_app, Hv; cbn; lia|]. split; [by destruct (hex_digits fuel (n / 16))|].
  rewrite length_app. cbn. lia.
Qed.

Lemma hex_char_value d : 0 <= d < 16 -> digit_value 16 (hex_char d) = Some d /\ (hex_char d =? 46) = false /\ (d < 10 \/ digit_value 10 (hex_char d) = None).
Proof.
  intros Hd. assert (d = 0 \/ d = 1 \/ d = 2 \/ d = 3 \/ d = 4 \/ d = 5 \/ d = 6 \/ d = 7 \/ d = 8 \/ d = 9 \/ d = 10 \/ d = 11 \/ d = 12 \/
    d = 13 \/ d = 14 \/ d = 15) as Hc by lia.
  repeat destruct Hc as [->|Hc]; [..|subst d]; (split; [reflexivity|]); (split; [reflexivity|]); first [left; lia|right; reflexivity].
Qed.

(** Nothing that continues a group. *)
Definition ends (rest : list Z) : Prop := match rest with c :: _ => digit_value 16 c = None /\ (c =? 46) = false | [] => True end.

Lemma stops_ends rest : ends rest -> stops rest.
Proof.
  destruct rest as [|c rest]; [done|]. cbn. intros [Hc _]. unfold digit_value in *. cbv zeta in *.
  repeat match goal with
         | |- context [if ?b then _ else _] => destruct b eqn:?
         | H : context [if ?b then _ else _] |- _ => destruct b eqn:?
         end; try done; lia.
Qed.

Lemma read_hex_digits ds rest : Forall (fun d => 0 <= d < 16) ds -> ends rest -> read_digits 16 (map hex_char ds ++ rest) = (ds, rest).
Proof.
  intros Hd Hr. induction Hd as [|d ds Hd _ IH]; cbn.
  - destruct rest as [|c rest]; [done|]. cbn in *. destruct Hr as [Hr _]. by rewrite Hr.
  - destruct (hex_char_value d Hd) as [-> _]. by rewrite IH.
Qed.

Lemma group_back g rest : 0 <= g < 65536 -> ends rest -> read_number 16 (Some 4%nat) true 65535 (show_group g ++ rest) = Some (g, rest).
Proof.
  intros Hg Hr. destruct (hex_spec 4 g Hg ltac:(lia)) as (Hd & Hv & Hne & Hl). unfold read_number, show_group.
  rewrite read_hex_digits by done. fold (hex_value (hex_digits 4 g)). rewrite Hv, bool_decide_eq_false_2 by done.
  rewrite (proj2 (Nat.ltb_ge _ _)) by lia. by rewrite (proj2 (Z.ltb_ge _ _)) by lia.
Qed.

(** A group is no octet that a dot follows. *)
Lemma group_no_ipv4 g rest : 0 <= g < 65536 -> ends rest -> read_ipv4 (show_group g ++ rest) = None.
Proof.
  intros Hg Hr. destruct (hex_spec 4 g Hg ltac:(lia)) as (Hd & _). unfold show_group. generalize dependent (hex_digits 4 g). intros ds Hd.
  assert (read_given 46 (read_digits 10 (map hex_char ds ++ rest)).2 = None) as E.
  { induction Hd as [|d ds Hd _ IH]; cbn [map app read_digits].
    - pose proof (stops_ends _ Hr) as Hs. destruct rest as [|c rest]; [done|]. cbn in *. rewrite Hs. cbn. destruct Hr as [_ Hr]. by rewrite Hr.
    - destruct (hex_char_value d Hd) as (_ & Hdot & _). destruct (digit_value 10 (hex_char d)).
      + by destruct (read_digits 10 _).
      + cbn. by rewrite Hdot. }
  unfold read_ipv4, read_octet, read_number. destruct (read_digits 10 _) as [xs r]. cbn [snd] in E.
  destruct (bool_decide _); [done|]. destruct (_ <? _)%nat; [done|]. destruct (_ <? _); [done|]. destruct (_ && _); [done|].
  cbn [mbind option_bind]. by rewrite E.
Qed.

(** What may follow groups: no digit, no dot, and no colon with a group. *)
Definition closed (rest : list Z) : Prop := ends rest /\ match rest with c :: r => if c =? 58 then ends r else True | [] => True end.

Lemma ends_none rest : ends rest -> read_ipv4 rest = None /\ read_number 16 (Some 4%nat) true 65535 rest = None.
Proof.
  intros Hr. pose proof (stops_ends _ Hr) as Hs. unfold read_ipv4, read_octet, read_number. destruct rest as [|c rest]; [done|].
  cbn in *. destruct Hr as [Hr _]. by rewrite Hs, Hr.
Qed.

Lemma groups_end n first rest : closed rest -> read_groups n first rest = ([], false, rest).
Proof.
  intros [He Hc]. destruct n as [|n]; [done|]. cbn [read_groups].
  assert (forall text, ends text -> (if (0 <? n)%nat then Some text ≫= read_ipv4 else None) = None /\
    Some text ≫= read_number 16 (Some 4%nat) true 65535 = None) as Hn.
  { intros text [E1 E2]%ends_none. cbn [mbind option_bind]. rewrite E1, E2. by destruct (0 <? n)%nat. }
  destruct first.
  - by destruct (Hn rest He) as [-> ->].
  - destruct rest as [|c r]; cbn [read_given]; [by destruct (0 <? n)%nat|]. destruct (c =? 58); [|by destruct (0 <? n)%nat].
    by destruct (Hn r Hc) as [-> ->].
Qed.

Lemma show_rest_ends gs rest : closed rest -> ends (show_rest gs ++ rest).
Proof. intros [He _]. by destruct gs. Qed.

Lemma groups_back n first gs rest : (length gs <= n)%nat -> Forall (fun g => 0 <= g < 65536) gs -> closed rest ->
  read_groups n first ((if first then show_groups gs else show_rest gs) ++ rest) = (gs, false, rest).
Proof.
  intros Hl Hg Hr. revert n first Hl. induction Hg as [|g gs Hg _ IH]; intros n first Hl.
  - assert ((if first then show_groups [] else show_rest []) ++ rest = rest) as -> by (by destruct first). by apply groups_end.
  - destruct n as [|n]; [cbn in Hl; lia|]. cbn [read_groups].
    assert ((if first then Some ((if first then show_groups (g :: gs) else show_rest (g :: gs)) ++ rest) else
      read_given 58 ((if first then show_groups (g :: gs) else show_rest (g :: gs)) ++ rest)) = Some (show_group g ++ show_rest gs ++ rest)) as ->.
    { destruct first; cbn [show_groups show_rest flat_map app]; [by rewrite <- app_assoc|]. cbn [read_given]. by rewrite <- app_assoc. }
    pose proof (show_rest_ends gs rest Hr) as He. cbn [mbind option_bind].
    rewrite (group_no_ipv4 g _ Hg He), (group_back g _ Hg He).
    assert ((if (0 <? n)%nat then None else None) = @None (Z * list Z)) as -> by (by destruct (0 <? n)%nat).
    specialize (IH n false ltac:(cbn in Hl; lia)). cbn iota in IH. by rewrite IH.
Qed.


(** The longest run of zeros is one. *)
Lemma scan_runs gs : let '(i, (start, len), longest) := fold_left scan gs (0, (0, 0), (0, 0))%nat in
  i = length gs /\ ((0 < len)%nat -> exists p, gs = p ++ List.repeat 0 len /\ start = length p) /\
  exists p q, gs = p ++ List.repeat 0 longest.2 ++ q /\ longest.1 = length p.
Proof.
  induction gs as [|g gs IH] using rev_ind.
  { cbn. split; [done|]. split; [lia|]. by exists [], []. }
  rewrite fold_left_app. cbn [fold_left]. destruct (fold_left scan gs _) as [[i [start len]] longest]. destruct IH as (Hi & Hc & p & q & Hp & Hs).
  unfold scan. rewrite length_app. cbn [length].
  assert (exists p0 q0, gs ++ [g] = p0 ++ List.repeat 0 longest.2 ++ q0 /\ longest.1 = length p0) as Hl.
  { exists p, (q ++ [g]). by rewrite Hp, <- !app_assoc. }
  destruct (Z.eqb_spec g 0) as [->|Hg]; [|split; [lia|]; split; [lia|done]]. cbv zeta.
  assert (exists p, gs ++ [0] = p ++ List.repeat 0 (if (len =? 0)%nat then (i, 1%nat) else (start, S len)).2 /\
    (if (len =? 0)%nat then (i, 1%nat) else (start, S len)).1 = length p) as (p0 & Hp0 & Hs0).
  { destruct (Nat.eqb_spec len 0) as [->|Hne]; [by exists gs|]. destruct Hc as (p0 & -> & ->); [lia|]. exists p0.
    split; [|done]. rewrite <- app_assoc. f_equal. cbn [snd]. symmetry. apply repeat_cons. }
  destruct (if (len =? 0)%nat then _ else _) as [start' len']. cbn [fst snd] in *. split; [lia|]. split; [by intros _; exists p0|].
  destruct (_ <? _)%nat; [|done]. exists p0, []. by rewrite app_nil_r.
Qed.

Lemma zeros_run gs : exists p q, gs = p ++ List.repeat 0 (zeros gs).2 ++ q /\ (zeros gs).1 = length p.
Proof. unfold zeros. pose proof (scan_runs gs) as Hs. destruct (fold_left scan gs _) as [[i [start len]] longest]. apply Hs. Qed.

Lemma length_groups n bits : length (groups n bits) = n.
Proof. revert bits. induction n as [|n IH]; intros bits; [done|]. cbn. rewrite length_app, IH. cbn. lia. Qed.

Lemma groups_range n bits : Forall (fun g => 0 <= g < 65536) (groups n bits).
Proof.
  revert bits. induction n as [|n IH]; intros bits; [constructor|]. cbn. apply Forall_app. split; [done|]. apply Forall_singleton.
  apply Z.mod_pos_bound. lia.
Qed.

Lemma of_groups_back n bits : 0 <= bits < 65536 ^ Z.of_nat n -> of_groups (groups n bits) = bits.
Proof.
  revert bits. induction n as [|n IH]; intros bits Hb; [cbn in *; lia|]. rewrite Nat2Z.inj_succ, Z.pow_succ_r in Hb by lia.
  cbn [groups]. unfold of_groups in *. rewrite fold_left_app. cbn [fold_left].
  rewrite IH; [pose proof (Z.div_mod bits 65536 ltac:(lia)); lia|]. split; [apply Z.div_pos; lia|apply Z.div_lt_upper_bound; lia].
Qed.

(** What an IPv6 address is followed by. *)
Definition bracket (rest : list Z) : Prop := match rest with c :: _ => c = 93 \/ c = 37 | [] => False end.

Lemma bracket_closed rest : bracket rest -> closed rest.
Proof. destruct rest as [|c rest]; [done|]. by intros [->| ->]. Qed.

Lemma ipv6_plain gs rest : length gs = 8%nat -> Forall (fun g => 0 <= g < 65536) gs -> bracket rest ->
  read_ipv6 (show_groups gs ++ rest) = Some (of_groups gs, rest).
Proof.
  intros Hl Hg Hr. unfold read_ipv6. pose proof (groups_back 8 true gs rest ltac:(lia) Hg (bracket_closed _ Hr)) as E. cbn iota in E.
  by rewrite E, Hl.
Qed.

Lemma ipv6_short p q len rest : (length p + len + length q = 8)%nat -> (1 < len)%nat -> Forall (fun g => 0 <= g < 65536) p ->
  Forall (fun g => 0 <= g < 65536) q -> bracket rest ->
  read_ipv6 ((show_groups p ++ [58; 58] ++ show_groups q) ++ rest) = Some (of_groups (p ++ List.repeat 0 len ++ q), rest).
Proof.
  intros Hl Hlen Hp Hq Hr. unfold read_ipv6. rewrite <- !app_assoc.
  pose proof (groups_back 8 true p ([58; 58] ++ show_groups q ++ rest) ltac:(lia) Hp) as E1. cbn iota in E1.
  rewrite E1 by (split; [done|]; done). clear E1. rewrite (proj2 (Nat.eqb_neq _ _)) by lia. cbn [app read_given Z.eqb Pos.eqb mbind option_bind].
  pose proof (groups_back (8 - (length p + 1)) true q rest ltac:(lia) Hq (bracket_closed _ Hr)) as E2. cbn iota in E2. rewrite E2.
  by replace (8 - length p - length q)%nat with len by lia.
Qed.

Lemma ipv6_mapped v rest : 0 <= v < 2 ^ 32 -> bracket rest ->
  read_ipv6 ((lit "::ffff:" ++ show_ipv4 v) ++ rest) = Some (65535 * 4294967296 + v, rest).
Proof.
  intros Hv Hr. assert ((lit "::ffff:" ++ show_ipv4 v) ++ rest = [58; 58] ++ show_group 65535 ++ 58 :: show_ipv4 v ++ rest) as ->.
  { rewrite <- app_assoc. reflexivity. }
  unfold read_ipv6. rewrite groups_end by done. cbn [length Nat.eqb app read_given Z.eqb Pos.eqb mbind option_bind].
  change (8 - (0 + 1))%nat with 7%nat. cbn [read_groups]. change (0 <? 6)%nat with true. change (0 <? 5)%nat with true. cbn iota. cbn [mbind option_bind].
  rewrite group_no_ipv4, group_back by done. cbn [read_given Z.eqb Pos.eqb mbind option_bind].
  rewrite ipv4_back by (done || apply stops_ends, bracket_closed, Hr). cbn [length Nat.sub List.repeat app]. unfold of_groups. cbn [fold_left].
  pose proof (Z.div_mod v 65536 ltac:(lia)). do 2 f_equal. lia.
Qed.

Lemma ipv6_back bits rest : 0 <= bits < 2 ^ 128 -> bracket rest -> read_ipv6 (show_ipv6 bits ++ rest) = Some (bits, rest).
Proof.
  intros Hb Hr. unfold show_ipv6, to_ipv4_mapped. rewrite Z.shiftr_div_pow2 by lia. change (2 ^ 32) with 4294967296.
  destruct (Z.eqb_spec (bits / 4294967296) 65535) as [E|_].
  { rewrite ipv6_mapped by (done || apply Z.mod_pos_bound; lia). pose proof (Z.div_mod bits 4294967296 ltac:(lia)). do 2 f_equal. lia. }
  assert (of_groups (groups 8 bits) = bits) as Eb by (apply of_groups_back; lia).
  pose proof (length_groups 8 bits) as Hl. pose proof (groups_range 8 bits) as Hg. destruct (zeros_run (groups 8 bits)) as (p & q & E & Es).
  destruct (zeros (groups 8 bits)) as [start len]. cbn [fst snd] in *. destruct (Nat.ltb_spec 1 len) as [Hlen|_].
  - rewrite E in Eb, Hl, Hg. rewrite E. subst start. rewrite take_app_length, drop_app_add', drop_app_length' by (by rewrite ?repeat_length).
    rewrite !length_app, repeat_length in Hl. apply Forall_app in Hg as [Hp [_ Hq]%Forall_app].
    rewrite (ipv6_short p q len) by (done || lia). by rewrite Eb.
  - by rewrite ipv6_plain, Eb.
Qed.

(** The text of a socket address is read back as the address. *)
Lemma addr_text_back (a : SocketAddr) : addr_ok a -> parse_addr (show_addr a) = Some a.
Proof.
  destruct a as [bits port|bits port flow scope]; cbn [addr_ok show_addr]; [by intros []; apply socket_v4_back|].
  intros (Hb & Hp & -> & Hs). unfold parse_addr.
  set (scoped := if scope =? 0 then [] else [37] ++ decimal scope).
  assert (bracket (scoped ++ [93; 58] ++ decimal port)) as Hr by (unfold scoped; destruct (scope =? 0); cbn; auto).
  assert (read_socket_v4 ([91] ++ show_ipv6 bits ++ scoped ++ [93; 58] ++ decimal port) = None) as -> by done.
  unfold read_socket_v6. cbn [app read_given Z.eqb Pos.eqb mbind option_bind]. rewrite ipv6_back by done. cbn [mbind option_bind].
  assert (match read_scope_id (scoped ++ 93 :: 58 :: decimal port) with Some (scope, r') => (scope, r') | None => (0, scoped ++ 93 :: 58 :: decimal port) end =
    (scope, 93 :: 58 :: decimal port)) as ->.
  { unfold scoped. destruct (Z.eqb_spec scope 0) as [->|Hne]; [done|]. unfold read_scope_id. cbn [app read_given Z.eqb Pos.eqb mbind option_bind].
    by rewrite read_decimal. }
  cbn [app read_given Z.eqb Pos.eqb mbind option_bind]. by rewrite port_back.
Qed.

Lemma show_examples :
  map show_addr [V6 1 22 0 0; V6 (65152 * 2 ^ 112 + 1) 22 0 3; V6 (65535 * 2 ^ 32 + 16909060) 80 0 0; V6 5192455318486707404433266433261576 9 0 0; V6 0 0 0 0;
    V6 (2 ^ 112 + 2 ^ 48) 9 0 0; V4 2130706433 8080] =
  map lit ["[::1]:22"; "[fe80::1%3]:22"; "[::ffff:1.2.3.4]:80"; "[1:2:3:4:5:6:7:8]:9"; "[::]:0"; "[1::1:0:0:0]:9"; "127.0.0.1:8080"]%string.
Proof. vm_compute. done. Qed.

Lemma parse_examples :
  map (fun s => parse_addr (lit s)) ["127.0.0.1:8080"; "127.0.0.01:80"; "1.2.3:4"; "1.2.3.4:65536"; "1.2.3.4:00080"; "1.2.3.4:80 "]%string =
    [Some (V4 2130706433 8080); None; None; None; Some (V4 16909060 80); None] /\
  map (fun s => parse_addr (lit s)) ["[::1]:22"; "[fe80::1%3]:22"; "[::ffff:1.2.3.4]:80"; "[1:2:3:4:5:6:7:8]:9"; "[1::2::3]:9"; "::1:22"; "[12345::]:1"; "[::]:0"]%string =
    [Some (V6 1 22 0 0) ; Some (V6 (65152 * 2 ^ 112 + 1) 22 0 3); Some (V6 (65535 * 2 ^ 32 + 16909060) 80 0 0);
     Some (V6 5192455318486707404433266433261576 9 0 0); None; None; None; Some (V6 0 0 0 0)].
Proof. vm_compute. done. Qed.
End AddrText.
