(* ===== verification/Stun.v ===== *)
(** * STUN messages and queries (src/nat/stun.rs)

    The hand-written RFC 5389 encoder and decoder with the attributes of RFC
    5780, the FINGERPRINT check, and the loop that waits for the answer to one
    Binding request.  Indexing and slicing panic out of range, as they do in the
    source; the theorems of StunProof.v show that they never do.  Sockets, the
    clock and the resolver are the arguments of the query. *)
From Stdlib Require Import ZArith Lia.
From stdpp Require Import prelude gmap strings.
From S2P Require Import Prelude Utf8 Addr.

#[local] Open Scope Z_scope.

Module Stun.
Import Addr.

Definition MAGIC_COOKIE : Z := 0x2112A442.
Definition HEADER_LEN : Z := 20.
Definition TRANSACTION_ID_LEN : Z := 12.
Definition METHOD_BINDING : Z := 1.
Definition ATTR_MAPPED_ADDRESS : Z := 0x0001.
Definition ATTR_CHANGE_REQUEST : Z := 0x0003.
Definition ATTR_XOR_MAPPED_ADDRESS : Z := 0x0020.
Definition ATTR_SOFTWARE : Z := 0x8022.
Definition ATTR_FINGERPRINT : Z := 0x8028.
Definition ATTR_RESPONSE_ORIGIN : Z := 0x802b.
Definition ATTR_OTHER_ADDRESS : Z := 0x802c.
Definition FINGERPRINT_XOR : Z := 0x5354554E.
Definition FINGERPRINT_LEN : Z := 8.
Definition FAMILY_IPV4 : Z := 1.
Definition FAMILY_IPV6 : Z := 2.

Inductive MessageClass : Type := Request | Indication | SuccessResponse | ErrorResponse.
#[global] Instance MessageClass_eq_dec : EqDecision MessageClass.
Proof. solve_decision. Defined.

Definition code (c : MessageClass) : Z :=
  match c with Request => 0 | Indication => 1 | SuccessResponse => 2 | ErrorResponse => 3 end.
Definition from_code (code : Z) : MessageClass :=
  let c := Z.land code 3 in
  if c =? 0 then Request else if c =? 1 then Indication
  else if c =? 2 then SuccessResponse else ErrorResponse.

Inductive Method : Type := Binding.

(** Software is a string: the list of its characters. *)
Inductive Attribute : Type :=
  | MappedAddress (addr : SocketAddr)
  | ChangeRequest (change_ip change_port : bool)
  | XorMappedAddress (addr : SocketAddr)
  | ResponseOrigin (addr : SocketAddr)
  | OtherAddress (addr : SocketAddr)
  | Software (text : list Z)
  | Unknown (kind : Z) (value : list Z).
#[global] Instance Attribute_eq_dec : EqDecision Attribute.
Proof. solve_decision. Defined.

Record Message : Type := mk_message {
  method : Method;
  class : MessageClass;
  transaction_id : list Z;
  attributes : list Attribute;
}.

Definition binding_request_with_change (transaction_id : list Z) (change_ip change_port : bool) : Message :=
  mk_message Binding Request transaction_id
    (if change_ip || change_port then [ChangeRequest change_ip change_port] else []).
Definition binding_request (transaction_id : list Z) : Message :=
  binding_request_with_change transaction_id false false.

(** [iter().find_map(f)]. *)
Fixpoint find_map {A B : Type} (f : A -> option B) (l : list A) : option B :=
  match l with
  | [] => None
  | x :: l' => match f x with Some y => Some y | None => find_map f l' end
  end.

Definition mapped_address (m : Message) : option SocketAddr :=
  match find_map (fun a => match a with XorMappedAddress addr => Some addr | _ => None end) (attributes m) with
  | Some addr => Some addr
  | None => find_map (fun a => match a with MappedAddress addr => Some addr | _ => None end) (attributes m)
  end.
Definition response_origin (m : Message) : option SocketAddr :=
  find_map (fun a => match a with ResponseOrigin addr => Some addr | _ => None end) (attributes m).
Definition other_address (m : Message) : option SocketAddr :=
  find_map (fun a => match a with OtherAddress addr => Some addr | _ => None end) (attributes m).
Definition software (m : Message) : option (list Z) :=
  find_map (fun a => match a with Software text => Some text | _ => None end) (attributes m).

(** ** CRC-32 *)

(** One bit: [mask] is [(crc & 1).wrapping_neg()], all ones or zero. *)
Definition crc_bit (crc : Z) : Z :=
  let mask := if Z.land crc 1 =? 1 then 0xFFFFFFFF else 0 in
  Z.lxor (Z.shiftr crc 1) (Z.land 0xEDB88320 mask).
Definition crc_byte (crc byte : Z) : Z := Nat.iter 8 crc_bit (Z.lxor crc byte).
(** [!crc] on [u32]. *)
Definition crc32 (data : list Z) : Z := Z.lxor 0xFFFFFFFF (fold_left crc_byte data 0xFFFFFFFF).

(** ** Encoding *)

Definition push_padding (len : Z) : list Z := repeat 0 (Z.to_nat ((4 - len mod 4) mod 4)).

(** [len as u16]. *)
Definition as_u16 (n : Z) : Z := n mod 65536.

Definition tlv (kind : Z) (value : list Z) : list Z :=
  be_bytes 2 kind ++ be_bytes 2 (as_u16 (Z.of_nat (length value))) ++ value ++
  push_padding (Z.of_nat (length value)).

Definition octets (a : IpAddr) : list Z :=
  match a with IpV4 bits => be_bytes 4 bits | IpV6 bits => be_bytes 16 bits end.

Definition address_mask (a : IpAddr) (transaction_id : list Z) : list Z :=
  be_bytes 4 MAGIC_COOKIE ++
  match a with IpV4 _ => repeat 0 12 | IpV6 _ => transaction_id end.

Definition encode_address_attribute (kind : Z) (addr : SocketAddr) (xor : bool) (transaction_id : list Z) :
    list Z :=
  let family := match ip addr with IpV4 _ => FAMILY_IPV4 | IpV6 _ => FAMILY_IPV6 end in
  let raw := octets (ip addr) in
  let port := if xor then Z.lxor (port addr) (Z.shiftr MAGIC_COOKIE 16) else port addr in
  tlv kind ([0; family] ++ be_bytes 2 port ++
    if xor then zip_with Z.lxor raw (address_mask (ip addr) transaction_id) else raw).

Definition encode_attribute (attribute : Attribute) (transaction_id : list Z) : list Z :=
  match attribute with
  | MappedAddress addr => encode_address_attribute ATTR_MAPPED_ADDRESS addr false transaction_id
  | ChangeRequest change_ip change_port =>
      let flags := if change_ip then Z.lor 0 4 else 0 in
      let flags := if change_port then Z.lor flags 2 else flags in
      be_bytes 2 ATTR_CHANGE_REQUEST ++ be_bytes 2 4 ++ be_bytes 4 flags
  | XorMappedAddress addr => encode_address_attribute ATTR_XOR_MAPPED_ADDRESS addr true transaction_id
  | ResponseOrigin addr => encode_address_attribute ATTR_RESPONSE_ORIGIN addr false transaction_id
  | OtherAddress addr => encode_address_attribute ATTR_OTHER_ADDRESS addr false transaction_id
  | Software text => tlv ATTR_SOFTWARE (utf8 text)
  | Unknown kind value => if kind =? ATTR_FINGERPRINT then [] else tlv kind value
  end.

Definition message_type (m : Message) : Z :=
  let method_code := match method m with Binding => METHOD_BINDING end in
  let class_code := code (class m) in
  Z.lor (Z.lor (Z.lor (Z.lor (Z.land method_code 0x000F)
    (Z.shiftl (Z.land method_code 0x0070) 1)) (Z.shiftl (Z.land method_code 0x0F80) 2))
    (Z.shiftl (Z.land class_code 0x0002) 7)) (Z.shiftl (Z.land class_code 0x0001) 4).

Definition encode (m : Message) : list Z :=
  let attrs := concat (map (fun a => encode_attribute a (transaction_id m)) (attributes m)) in
  let body_len := Z.of_nat (length attrs) + FINGERPRINT_LEN in
  let out := be_bytes 2 (message_type m) ++ be_bytes 2 (as_u16 body_len) ++ be_bytes 4 MAGIC_COOKIE ++
             transaction_id m ++ attrs in
  let fingerprint := Z.lxor (crc32 out) FINGERPRINT_XOR in
  out ++ be_bytes 2 ATTR_FINGERPRINT ++ be_bytes 2 4 ++ be_bytes 4 fingerprint.

(** ** Decoding *)

(** [&bytes[from..to]]. *)
Definition slice (bytes : list Z) (from to : Z) : result (list Z) :=
  if (0 <=? from) && (from <=? to) && (to <=? Z.of_nat (length bytes))
  then Ok (take (Z.to_nat (to - from)) (drop (Z.to_nat from) bytes)) else Panic.

(** Big-endian integers of single indexed bytes. *)
Definition u16_at (bytes : list Z) (i : Z) : result Z := omap be_val (slice bytes i (i + 2)).
Definition u32_at (bytes : list Z) (i : Z) : result Z := omap be_val (slice bytes i (i + 4)).

Definition padded (len : Z) : Z := len + (4 - len mod 4) mod 4.

(** [verify_fingerprint]; every round moves at least four bytes on. *)
Fixpoint verify_loop (fuel : nat) (bytes : list Z) (end_ cursor : Z) : result unit :=
  match fuel with
  | O => Panic
  | S fuel' =>
      if negb (cursor + 4 <=? end_) then Ok tt
      else
        let? kind := u16_at bytes cursor in
        let? len := u16_at bytes (cursor + 2) in
        if kind =? ATTR_FINGERPRINT then
          let? _ := fail_if (negb (len =? 4)) (Stun "FINGERPRINT length") in
          let? _ := fail_if (negb (cursor + FINGERPRINT_LEN =? end_)) (Stun "FINGERPRINT not last") in
          let? value := u32_at bytes (cursor + 4) in
          let? covered := slice bytes 0 cursor in
          fail_if (negb (value =? Z.lxor (crc32 covered) FINGERPRINT_XOR)) (Stun "FINGERPRINT mismatch")
        else verify_loop fuel' bytes end_ (cursor + (4 + padded len))
  end.
Definition verify_fingerprint (bytes : list Z) (body_len : Z) : result unit :=
  verify_loop (S (length bytes)) bytes (HEADER_LEN + body_len) HEADER_LEN.

Definition decode_address (value : list Z) (xor : bool) (transaction_id : list Z) : result SocketAddr :=
  let? _ := fail_if (Z.of_nat (length value) <? 4) (Stun "address attribute too short") in
  let? family := unwrap (value !! 1%nat) in
  let? raw_port := u16_at value 2 in
  let port := if xor then Z.lxor raw_port (Z.shiftr MAGIC_COOKIE 16) else raw_port in
  let? body := slice value 4 (Z.of_nat (length value)) in
  if family =? FAMILY_IPV4 then
    let? _ := fail_if (Z.of_nat (length body) <? 4) (Stun "IPv4 address too short") in
    let octets := take 4 body in
    let octets := if xor then zip_with Z.lxor octets (be_bytes 4 MAGIC_COOKIE) else octets in
    Ok (V4 (be_val octets) port)
  else if family =? FAMILY_IPV6 then
    let? _ := fail_if (Z.of_nat (length body) <? 16) (Stun "IPv6 address too short") in
    let octets := take 16 body in
    let octets := if xor then zip_with Z.lxor octets (be_bytes 4 MAGIC_COOKIE ++ transaction_id) else octets in
    Ok (V6 (be_val octets) port 0 0)
  else Err (Stun "unknown address family").

Definition decode_attribute (kind : Z) (value transaction_id : list Z) : result Attribute :=
  if kind =? ATTR_MAPPED_ADDRESS then omap MappedAddress (decode_address value false transaction_id)
  else if kind =? ATTR_XOR_MAPPED_ADDRESS then omap XorMappedAddress (decode_address value true transaction_id)
  else if kind =? ATTR_RESPONSE_ORIGIN then omap ResponseOrigin (decode_address value false transaction_id)
  else if kind =? ATTR_OTHER_ADDRESS then omap OtherAddress (decode_address value false transaction_id)
  else if kind =? ATTR_SOFTWARE then Ok (Software (Utf8.from_utf8_lossy value))
  else if kind =? ATTR_CHANGE_REQUEST then
    let? _ := fail_if (negb (Z.of_nat (length value) =? 4)) (Stun "CHANGE-REQUEST length") in
    let flags := be_val value in
    Ok (ChangeRequest (negb (Z.land flags 4 =? 0)) (negb (Z.land flags 2 =? 0)))
  else Ok (Unknown kind value).

Fixpoint decode_attributes_loop (fuel : nat) (body transaction_id : list Z) (cursor : Z) :
    result (list Attribute) :=
  match fuel with
  | O => Panic
  | S fuel' =>
      if negb (cursor <? Z.of_nat (length body)) then Ok []
      else
        let? _ := fail_if (Z.of_nat (length body) <? cursor + 4) (Stun "attribute header truncated") in
        let? kind := u16_at body cursor in
        let? len := u16_at body (cursor + 2) in
        let cursor := cursor + 4 in
        let? _ := fail_if (Z.of_nat (length body) <? cursor + padded len) (Stun "attribute too long") in
        let? value := slice body cursor (cursor + len) in
        let cursor := cursor + padded len in
        if kind =? ATTR_FINGERPRINT then decode_attributes_loop fuel' body transaction_id cursor
        else
          let? attribute := decode_attribute kind value transaction_id in
          let? rest := decode_attributes_loop fuel' body transaction_id cursor in
          Ok (attribute :: rest)
  end.
Definition decode_attributes (body transaction_id : list Z) : result (list Attribute) :=
  decode_attributes_loop (S (length body)) body transaction_id 0.

Definition decode (bytes : list Z) : result Message :=
  let? _ := fail_if (Z.of_nat (length bytes) <? HEADER_LEN) (Stun "shorter than the header") in
  let? message_type := u16_at bytes 0 in
  let? _ := fail_if (negb (Z.land message_type 0xC000 =? 0)) (Stun "first two bits not zero") in
  let? length_ := u16_at bytes 2 in
  let? _ := fail_if (negb (length_ mod 4 =? 0)) (Stun "attribute length not a multiple of 4") in
  let? _ := fail_if (Z.of_nat (length bytes) <? HEADER_LEN + length_) (Stun "attributes truncated") in
  let? cookie := u32_at bytes 4 in
  let? _ := fail_if (negb (cookie =? MAGIC_COOKIE)) (Stun "wrong magic cookie") in
  let? _ := verify_fingerprint bytes length_ in
  let? transaction_id := slice bytes 8 20 in
  let method_code := Z.lor (Z.lor (Z.land message_type 0x000F)
    (Z.shiftr (Z.land message_type 0x00E0) 1)) (Z.shiftr (Z.land message_type 0x3E00) 2) in
  let class_code := Z.lor (Z.land (Z.shiftr message_type 7) 2) (Z.land (Z.shiftr message_type 4) 1) in
  let? method := if method_code =? METHOD_BINDING then Ok Binding else Err (Stun "unsupported method") in
  let? body := slice bytes HEADER_LEN (HEADER_LEN + length_) in
  let? attributes := decode_attributes body transaction_id in
  Ok (mk_message method (from_code class_code) transaction_id attributes).

(** ** Queries *)

Record StunResult : Type := mk_result {
  mapped_addr : SocketAddr;
  result_origin : option SocketAddr;
  result_other : option SocketAddr;
  result_software : option (list Z);
}.

(** What [recv_from] gives before the deadline. *)
Inductive datagram : Type :=
  | Datagram (bytes : list Z) (from : SocketAddr)
  | RecvFailed (e : error).

(** The loop: the end of the list is the deadline. *)
Fixpoint await_answer (family : AddressFamily) (transaction : list Z) (arriving : list datagram) :
    result StunResult :=
  match arriving with
  | [] => Err (Stun "timeout")
  | RecvFailed e :: _ => Err e
  | Datagram bytes from :: rest =>
      match decode bytes with
      | Err _ => await_answer family transaction rest
      | Panic => Panic
      | Ok message =>
          if negb (bool_decide (transaction_id message = transaction)) then
            await_answer family transaction rest
          else if negb (bool_decide (family_of from = family)) then await_answer family transaction rest
          else if bool_decide (class message = ErrorResponse) then Err (Stun "error response")
          else
            let? mapped_addr := ok_or (mapped_address message) (Stun "no mapped address") in
            if negb (bool_decide (class message = SuccessResponse)) || negb (accepts family mapped_addr) ||
               match response_origin message with Some a => negb (accepts family a) | None => false end ||
               match other_address message with Some a => negb (accepts family a) | None => false end
            then Err (Stun "address family mismatch")
            else
              Ok (mk_result mapped_addr
                    (match response_origin message with Some a => Some a | None => Some from end)
                    (other_address message) (software message))
      end
  end.

(** [query_binding_with_change]: [local] is the socket's address, [transaction]
    the random identifier, [send] the fate of the request. The second result is
    the datagram sent. *)
Definition query_binding_with_change (local server : SocketAddr) (transaction : list Z)
    (change_ip change_port : bool) (send : result unit) (arriving : list datagram) :
    result StunResult * option (list Z * SocketAddr) :=
  let family := family_of local in
  if negb (accepts family server) then (Err (Stun "socket cannot query this server"), None)
  else
    let request := encode (binding_request_with_change transaction change_ip change_port) in
    (let? _ := send in await_answer family transaction arriving, Some (request, server)).

Definition query_binding_with (local server : SocketAddr) (transaction : list Z) (send : result unit)
    (arriving : list datagram) : result StunResult * option (list Z * SocketAddr) :=
  query_binding_with_change local server transaction false false send arriving.

(** RFC 1952's check value, and a request on the wire. *)
Example crc32_check : crc32 (lit "123456789") = 0xCBF43926.
Proof. reflexivity. Qed.

Example request_decodes :
  decode (encode (binding_request (repeat 7 12))) = Ok (binding_request (repeat 7 12)).
Proof. vm_compute. reflexivity. Qed.

End Stun.
