(* ===== verification/StunProof.v ===== *)
(** * STUN: what the encoder, the decoder and the query guarantee

    Theorems about the definitions of Stun.v. *)
From Stdlib Require Import ZArith Lia.
From stdpp Require Import prelude gmap strings.
From S2P Require Import Prelude Utf8 Addr Stun.

#[local] Open Scope Z_scope.

Module StunProof.
Import Addr Stun.

(** ** Bits *)

Lemma lxor_range n a b : 0 <= n -> 0 <= a < 2 ^ n -> 0 <= b < 2 ^ n -> 0 <= Z.lxor a b < 2 ^ n.
Proof.
  intros Hn Ha Hb. assert (0 <= Z.lxor a b) as H0 by (apply Z.lxor_nonneg; lia). split; [done|].
  destruct (Z.eq_dec (Z.lxor a b) 0) as [->|Hz]; [by apply Z.pow_pos_nonneg|].
  apply Z.log2_lt_pow2; [lia|]. pose proof (Z.log2_lxor a b ltac:(lia) ltac:(lia)) as Hl.
  assert (forall x, 0 <= x < 2 ^ n -> Z.log2 x < n \/ x = 0) as Hx.
  { intros x Hx. destruct (Z.eq_dec x 0); [by right|left]. apply Z.log2_lt_pow2; lia. }
  destruct (Hx a Ha) as [?| ->], (Hx b Hb) as [?| ->]; try lia; cbn in *.
  - rewrite Z.lxor_0_r in *. lia.
  - rewrite Z.lxor_0_l in *. lia.
  - done.
Qed.

Lemma lxor_cancel a m : Z.lxor (Z.lxor a m) m = a.
Proof. by rewrite Z.lxor_assoc, Z.lxor_nilpotent, Z.lxor_0_r. Qed.

Lemma lxor_inj_l a b c : Z.lxor a c = Z.lxor b c -> a = b.
Proof. intros E. by rewrite <- (lxor_cancel a c), E, lxor_cancel. Qed.

(** ** CRC-32 *)

Definition u32 (x : Z) : Prop := 0 <= x < 2 ^ 32.

Lemma crc_bit_u32 c : u32 c -> u32 (crc_bit c).
Proof.
  unfold u32, crc_bit. intros Hc. apply lxor_range; [lia| |].
  - rewrite Z.shiftr_div_pow2 by lia. change (2 ^ 1) with 2.
    pose proof (Z.div_mod c 2 ltac:(lia)). pose proof (Z.mod_pos_bound c 2 ltac:(lia)). lia.
  - destruct (_ =? 1); vm_compute; split; congruence.
Qed.

Lemma crc_bit_inj a b : u32 a -> u32 b -> crc_bit a = crc_bit b -> a = b.
Proof.
  unfold u32. intros Ha Hb E.
  assert (forall c, 0 <= c < 2 ^ 32 -> Z.testbit (crc_bit c) 31 = Z.testbit c 0) as Htop.
  { intros c Hc. unfold crc_bit. rewrite Z.lxor_spec, Z.shiftr_spec by lia. change (31 + 1) with 32.
    assert (Z.testbit c 32 = false) as ->.
    { rewrite Z.bits_above_log2; [done|lia|]. destruct (Z.eq_dec c 0) as [->|]; [done|].
      apply Z.log2_lt_pow2; lia. }
    change (Z.land c 1) with (Z.land c (Z.ones 1)). rewrite Z.land_ones by lia. change (2 ^ 1) with 2.
    rewrite Z.bit0_odd, Zmod_odd. by destruct (Z.odd c). }
  assert (Z.testbit a 0 = Z.testbit b 0) as H0 by (rewrite <- (Htop a Ha), <- (Htop b Hb); congruence).
  rewrite !Z.bit0_odd in H0. unfold crc_bit in E.
  assert ((Z.land a 1 =? 1) = (Z.land b 1 =? 1)) as Hm.
  { change 1 with (Z.ones 1) at 1 3. rewrite !Z.land_ones by lia. change (2 ^ 1) with 2.
    rewrite !Zmod_odd. by rewrite H0. }
  rewrite Hm in E. apply lxor_inj_l in E.
  rewrite !Z.shiftr_div_pow2 in E by lia. change (2 ^ 1) with 2 in E.
  rewrite (Z.div_mod a 2), (Z.div_mod b 2), E, !Zmod_odd, H0 by lia. done.
Qed.

Lemma crc_iter_u32 n c : u32 c -> u32 (Nat.iter n crc_bit c).
Proof. intros H. induction n; [done|]. by apply crc_bit_u32. Qed.

Lemma crc_iter_inj n a b : u32 a -> u32 b -> Nat.iter n crc_bit a = Nat.iter n crc_bit b -> a = b.
Proof.
  intros Ha Hb. induction n as [|n IH]; [done|]. intros E. apply IH.
  apply crc_bit_inj in E; [done|by apply crc_iter_u32..].
Qed.

(** Equations, so that conversion never unfolds the rounds. *)
Lemma crc_byte_eq c b : crc_byte c b = Nat.iter 8 crc_bit (Z.lxor c b).
Proof. reflexivity. Qed.
Lemma crc32_eq data : crc32 data = Z.lxor 0xFFFFFFFF (fold_left crc_byte data 0xFFFFFFFF).
Proof. reflexivity. Qed.

Lemma lxor_byte_u32 c b : u32 c -> is_u8 b -> u32 (Z.lxor c b).
Proof.
  intros Hc Hb. unfold in_range, U8_MAX in Hb. unfold u32 in *. apply lxor_range; lia.
Qed.

Lemma crc_byte_u32 c b : u32 c -> is_u8 b -> u32 (crc_byte c b).
Proof. intros Hc Hb. rewrite crc_byte_eq. by apply crc_iter_u32, lxor_byte_u32. Qed.

Lemma crc_byte_inj a b x : u32 a -> u32 b -> is_u8 x -> crc_byte a x = crc_byte b x -> a = b.
Proof.
  intros Ha Hb Hx E. rewrite !crc_byte_eq in E.
  apply crc_iter_inj in E; [by apply lxor_inj_l in E|by apply lxor_byte_u32..].
Qed.

Lemma crc_byte_inj_byte c x y : u32 c -> is_u8 x -> is_u8 y -> crc_byte c x = crc_byte c y -> x = y.
Proof.
  intros Hc Hx Hy E. rewrite !crc_byte_eq in E.
  apply crc_iter_inj in E; [|by apply lxor_byte_u32..].
  rewrite !(Z.lxor_comm c) in E. by apply lxor_inj_l in E.
Qed.

(** Folding an injective step. *)
Section Fold.
Variable step : Z -> Z -> Z.
Hypothesis step_u32 : forall c b, u32 c -> is_u8 b -> u32 (step c b).
Hypothesis step_inj : forall a b x, u32 a -> u32 b -> is_u8 x -> step a x = step b x -> a = b.

Lemma fold_u32 bs c : u32 c -> are_bytes bs -> u32 (fold_left step bs c).
Proof.
  revert c. induction bs as [|b bs IH]; intros c Hc Hb; [done|]. apply Forall_cons in Hb as [Hb Hbs].
  cbn [fold_left]. auto.
Qed.

Lemma fold_inj bs a b : are_bytes bs -> u32 a -> u32 b -> fold_left step bs a = fold_left step bs b -> a = b.
Proof.
  revert a b. induction bs as [|x bs IH]; intros a b Hbs Ha Hb; [done|].
  apply Forall_cons in Hbs as [Hx Hbs]. cbn [fold_left]. intros E. apply IH in E; eauto.
Qed.

Hypothesis step_inj_byte : forall c x y, u32 c -> is_u8 x -> is_u8 y -> step c x = step c y -> x = y.

Lemma fold_middle pre b b' post c : u32 c -> are_bytes pre -> are_bytes post -> is_u8 b -> is_u8 b' ->
  fold_left step (pre ++ b :: post) c = fold_left step (pre ++ b' :: post) c -> b = b'.
Proof.
  intros Hc Hpre Hpost Hb Hb' E. rewrite !fold_left_app in E. cbn [fold_left] in E.
  pose proof (fold_u32 pre c Hc Hpre) as Hc'. apply fold_inj in E; eauto.
Qed.
End Fold.

Lemma crc_fold_u32 bs c : u32 c -> are_bytes bs -> u32 (fold_left crc_byte bs c).
Proof. apply fold_u32, crc_byte_u32. Qed.

Lemma crc_fold_inj bs a b : are_bytes bs -> u32 a -> u32 b ->
  fold_left crc_byte bs a = fold_left crc_byte bs b -> a = b.
Proof. apply fold_inj; [apply crc_byte_u32|apply crc_byte_inj]. Qed.

(** A single wrong byte changes the checksum. *)
Lemma crc32_single_byte pre b b' post :
  are_bytes pre -> are_bytes post -> is_u8 b -> is_u8 b' ->
  crc32 (pre ++ b :: post) = crc32 (pre ++ b' :: post) -> b = b'.
Proof.
  intros Hpre Hpost Hb Hb' E. rewrite !crc32_eq, !(Z.lxor_comm 0xFFFFFFFF) in E.
  apply lxor_inj_l in E.
  apply (fold_middle crc_byte crc_byte_u32 crc_byte_inj crc_byte_inj_byte) in E; try done.
Qed.

Lemma crc32_u32 bs : are_bytes bs -> u32 (crc32 bs).
Proof.
  intros H. rewrite crc32_eq. unfold u32. apply lxor_range; [lia|lia|]. apply crc_fold_u32; [|done].
  unfold u32. lia.
Qed.

(** ** Slices *)

Lemma slice_at pre x post from to :
  from = Z.of_nat (length pre) -> to = from + Z.of_nat (length x) ->
  slice (pre ++ x ++ post) from to = Ok x.
Proof.
  intros -> ->. unfold slice. rewrite !length_app.
  destruct (Z.leb_spec 0 (Z.of_nat (length pre))); [|lia].
  destruct (Z.leb_spec (Z.of_nat (length pre)) (Z.of_nat (length pre) + Z.of_nat (length x))); [|lia].
  destruct (Z.leb_spec (Z.of_nat (length pre) + Z.of_nat (length x))
    (Z.of_nat (length pre + (length x + length post)))); [|lia]. cbn.
  rewrite Nat2Z.id, drop_app_length. f_equal.
  replace (Z.to_nat _) with (length x) by lia. by rewrite take_app_length.
Qed.

Lemma slice_inside bytes from to : 0 <= from <= to -> to <= Z.of_nat (length bytes) ->
  exists x, slice bytes from to = Ok x /\ Z.of_nat (length x) = to - from.
Proof.
  intros H1 H2. unfold slice.
  destruct (Z.leb_spec 0 from), (Z.leb_spec from to), (Z.leb_spec to (Z.of_nat (length bytes))); try lia.
  eexists. split; [done|]. rewrite length_take, length_drop. lia.
Qed.

Lemma u16_at_field pre k post i : i = Z.of_nat (length pre) -> is_u16 k ->
  u16_at (pre ++ be_bytes 2 k ++ post) i = Ok k.
Proof.
  intros Hi Hk. unfold u16_at. rewrite (slice_at pre (be_bytes 2 k) post); [|done|by rewrite length_be_bytes].
  cbn [omap obind]. rewrite be_val_be_bytes; [done|]. unfold in_range, U16_MAX in Hk. lia.
Qed.

Lemma u32_at_field pre k post i : i = Z.of_nat (length pre) -> u32 k ->
  u32_at (pre ++ be_bytes 4 k ++ post) i = Ok k.
Proof.
  intros Hi Hk. unfold u32_at. rewrite (slice_at pre (be_bytes 4 k) post); [|done|by rewrite length_be_bytes].
  cbn [omap obind]. rewrite be_val_be_bytes; [done|]. unfold u32 in Hk. lia.
Qed.

Lemma u16_at_inside bytes i : 0 <= i -> i + 2 <= Z.of_nat (length bytes) -> exists k, u16_at bytes i = Ok k.
Proof.
  intros H1 H2. unfold u16_at. destruct (slice_inside bytes i (i + 2)) as (x & -> & _); [lia..|]. by eexists.
Qed.
Lemma u32_at_inside bytes i : 0 <= i -> i + 4 <= Z.of_nat (length bytes) -> exists k, u32_at bytes i = Ok k.
Proof.
  intros H1 H2. unfold u32_at. destruct (slice_inside bytes i (i + 4)) as (x & -> & _); [lia..|]. by eexists.
Qed.

(** ** No panic *)

Lemma safe_bind {A B} (m : result A) (f : A -> result B) :
  m <> Panic -> (forall a, m = Ok a -> f a <> Panic) -> obind m f <> Panic.
Proof. destruct m; cbn; auto. Qed.

Lemma safe_fail_if b e : fail_if b e <> Panic (E := error).
Proof. by destruct b. Qed.

Lemma safe_fail_bind {B} b e (f : unit -> result B) :
  (b = false -> f tt <> Panic) -> obind (fail_if b e) f <> Panic.
Proof. destruct b; cbn; auto. Qed.

Lemma slice_bytes bytes from to x : are_bytes bytes -> slice bytes from to = Ok x -> are_bytes x.
Proof. unfold slice. intros Hb. destruct (_ && _); [|done]. intros [= <-]. by apply Forall_take, Forall_drop. Qed.

Lemma stun_slice_length bytes from to x : slice bytes from to = Ok x ->
  0 <= from <= to /\ to <= Z.of_nat (length bytes) /\ Z.of_nat (length x) = to - from.
Proof.
  unfold slice. destruct (_ && _) eqn:E; [|done]. bool_hyps. intros [= <-].
  rewrite length_take, length_drop. lia.
Qed.

Lemma u16_at_range bytes i k : are_bytes bytes -> u16_at bytes i = Ok k -> 0 <= k < 65536.
Proof.
  unfold u16_at. intros Hb E. apply omap_Ok in E as (x & E & ->).
  pose proof (slice_bytes _ _ _ _ Hb E) as Hx. pose proof (stun_slice_length _ _ _ _ E) as (_ & _ & Hl).
  unfold be_val. pose proof (le_val_bound (rev x) ltac:(by apply Forall_rev)) as Hv.
  rewrite length_rev, Hl in Hv. replace (i + 2 - i) with 2 in Hv by lia. lia.
Qed.

Lemma safe_slice bytes from to : 0 <= from <= to -> to <= Z.of_nat (length bytes) -> slice bytes from to <> Panic.
Proof. intros H1 H2. by destruct (slice_inside bytes from to H1 H2) as (x & -> & _). Qed.
Lemma safe_u16 bytes i : 0 <= i -> i + 2 <= Z.of_nat (length bytes) -> u16_at bytes i <> Panic.
Proof. intros H1 H2. by destruct (u16_at_inside bytes i H1 H2) as (x & ->). Qed.
Lemma safe_u32 bytes i : 0 <= i -> i + 4 <= Z.of_nat (length bytes) -> u32_at bytes i <> Panic.
Proof. intros H1 H2. by destruct (u32_at_inside bytes i H1 H2) as (x & ->). Qed.

Lemma padded_bounds len : 0 <= len -> len <= padded len < len + 4.
Proof. intros H. unfold padded. pose proof (Z.mod_pos_bound (4 - len mod 4) 4). lia. Qed.

(** Enough fuel: every round takes at least four bytes. *)
Lemma verify_loop_safe fuel bytes end_ cursor :
  are_bytes bytes -> 0 <= cursor -> end_ <= Z.of_nat (length bytes) -> (0 < fuel)%nat ->
  end_ < cursor + 4 * Z.of_nat fuel -> verify_loop fuel bytes end_ cursor <> Panic.
Proof.
  revert cursor. induction fuel as [|fuel IH]; intros cursor Hb Hc He H0 Hf; [lia|]. cbn [verify_loop].
  destruct (Z.leb_spec (cursor + 4) end_) as [Hle|]; cbn [negb]; [|done].
  apply safe_bind; [apply safe_u16; lia|]. intros kind _.
  apply safe_bind; [apply safe_u16; lia|]. intros len Hlen%u16_at_range; [|done].
  destruct (kind =? ATTR_FINGERPRINT).
  - apply safe_fail_bind. intros _. apply safe_fail_bind. intros E. bool_hyps. unfold FINGERPRINT_LEN in E.
    apply safe_bind; [apply safe_u32; lia|]. intros value _.
    apply safe_bind; [apply safe_slice; lia|]. intros covered _. apply safe_fail_if.
  - pose proof (padded_bounds len). apply IH; lia || done.
Qed.

Lemma decode_address_safe value xor tid : are_bytes value -> decode_address value xor tid <> Panic.
Proof.
  intros Hb. unfold decode_address. apply safe_fail_bind. intros Hl. bool_hyps.
  apply safe_bind.
  { destruct (lookup_lt_is_Some_2 value 1) as [b ->]; [lia|done]. }
  intros family _. apply safe_bind; [apply safe_u16; lia|]. intros port _. cbv zeta.
  apply safe_bind; [apply safe_slice; lia|]. intros body _.
  destruct (family =? FAMILY_IPV4); [by apply safe_fail_bind|].
  destruct (family =? FAMILY_IPV6); [by apply safe_fail_bind|done].
Qed.

Lemma safe_omap {A B} (f : A -> B) (m : result A) : m <> Panic -> omap f m <> Panic.
Proof. by destruct m. Qed.

Lemma decode_attribute_safe kind value tid : are_bytes value -> decode_attribute kind value tid <> Panic.
Proof.
  intros Hb. unfold decode_attribute.
  repeat match goal with |- (if ?c then _ else _) <> _ => destruct c end;
    first [by apply safe_omap, decode_address_safe|by apply safe_fail_bind|done].
Qed.

Lemma decode_loop_safe fuel body tid cursor :
  are_bytes body -> 0 <= cursor -> (0 < fuel)%nat ->
  Z.of_nat (length body) < cursor + 4 * Z.of_nat fuel ->
  decode_attributes_loop fuel body tid cursor <> Panic.
Proof.
  revert cursor. induction fuel as [|fuel IH]; intros cursor Hb Hc H0 Hf; [lia|]. cbn [decode_attributes_loop].
  destruct (Z.ltb_spec cursor (Z.of_nat (length body))) as [Hlt|]; cbn [negb]; [|done].
  apply safe_fail_bind. intros E. bool_hyps.
  apply safe_bind; [apply safe_u16; lia|]. intros kind _.
  apply safe_bind; [apply safe_u16; lia|]. intros len Hlen%u16_at_range; [|done]. cbv zeta.
  pose proof (padded_bounds len). apply safe_fail_bind. intros E'. bool_hyps.
  apply safe_bind; [apply safe_slice; lia|]. intros value Hv.
  assert (decode_attributes_loop fuel body tid (cursor + 4 + padded len) <> Panic) as Hr by (apply IH; lia || done).
  destruct (kind =? ATTR_FINGERPRINT); [done|].
  apply safe_bind; [apply decode_attribute_safe; by eapply slice_bytes|]. intros attribute _.
  by apply safe_bind.
Qed.

Lemma decode_safe bytes : are_bytes bytes -> decode bytes <> Panic.
Proof.
  intros Hb. unfold decode, HEADER_LEN. apply safe_fail_bind. intros Hl. bool_hyps.
  apply safe_bind; [apply safe_u16; lia|]. intros ty _. apply safe_fail_bind. intros _.
  apply safe_bind; [apply safe_u16; lia|]. intros len Hlen%u16_at_range; [|done].
  apply safe_fail_bind. intros _. apply safe_fail_bind. intros Hle. bool_hyps.
  apply safe_bind; [apply safe_u32; lia|]. intros cookie _. apply safe_fail_bind. intros _.
  apply safe_bind; [apply verify_loop_safe; unfold HEADER_LEN; lia || done|]. intros _ _.
  apply safe_bind; [apply safe_slice; lia|]. intros tid _. cbv zeta.
  apply safe_bind; [by destruct (_ =? _)|]. intros m _.
  apply safe_bind; [apply safe_slice; lia|]. intros body Hbody.
  apply safe_bind; [|done].
  apply decode_loop_safe; [by eapply slice_bytes|lia|lia|lia].
Qed.

(** ** Round trip *)

(** Addresses as the wire carries them: an IPv6 address without flow information
    and scope. *)
Definition wire_addr (a : SocketAddr) : Prop :=
  match a with
  | V4 bits port => 0 <= bits < 2 ^ 32 /\ is_u16 port
  | V6 bits port flowinfo scope_id => 0 <= bits < 2 ^ 128 /\ is_u16 port /\ flowinfo = 0 /\ scope_id = 0
  end.

Definition known_kinds : list Z :=
  [ATTR_MAPPED_ADDRESS; ATTR_CHANGE_REQUEST; ATTR_XOR_MAPPED_ADDRESS; ATTR_SOFTWARE; ATTR_FINGERPRINT;
   ATTR_RESPONSE_ORIGIN; ATTR_OTHER_ADDRESS].

Definition wire_attribute (a : Attribute) : Prop :=
  match a with
  | MappedAddress addr | XorMappedAddress addr | ResponseOrigin addr | OtherAddress addr => wire_addr addr
  | ChangeRequest _ _ => True
  | Software text => Forall Utf8.scalar text /\ str_len text < 65536
  | Unknown kind value => is_u16 kind /\ kind ∉ known_kinds /\ are_bytes value /\
                          Z.of_nat (length value) < 65536
  end.

Lemma zip_lxor_cancel (raw mask mask' : list Z) :
  (length raw <= length mask)%nat -> mask' `prefix_of` mask \/ mask = mask' -> (length raw <= length mask')%nat ->
  zip_with Z.lxor (zip_with Z.lxor raw mask) mask' = raw.
Proof.
  intros Hl Hp Hl'. assert (forall i, (i < length raw)%nat -> mask !! i = mask' !! i) as Hm.
  { intros i Hi. destruct Hp as [[k ->]| ->]; [|done]. rewrite lookup_app_l; [done|lia]. }
  apply list_eq. intros i. rewrite !lookup_zip_with.
  destruct (raw !! i) as [r|] eqn:Er; cbn; [|done].
  apply lookup_lt_Some in Er as Hi. rewrite (Hm i Hi).
  destruct (lookup_lt_is_Some_2 mask' i) as [x ->]; [lia|]. cbn. f_equal. apply lxor_cancel.
Qed.

Lemma xor_port p : is_u16 p ->
  is_u16 (Z.lxor p (Z.shiftr MAGIC_COOKIE 16)) /\
  Z.lxor (Z.lxor p (Z.shiftr MAGIC_COOKIE 16)) (Z.shiftr MAGIC_COOKIE 16) = p.
Proof.
  intros Hp. split; [|apply lxor_cancel]. unfold in_range, U16_MAX in *.
  pose proof (lxor_range 16 p (Z.shiftr MAGIC_COOKIE 16)) as H. change (2 ^ 16) with 65536 in H.
  change (Z.shiftr MAGIC_COOKIE 16) with 8466 in *. lia.
Qed.

Definition wire_port (xor : bool) (addr : SocketAddr) : Z :=
  if xor then Z.lxor (port addr) (Z.shiftr MAGIC_COOKIE 16) else port addr.
Definition wire_raw (xor : bool) (addr : SocketAddr) (tid : list Z) : list Z :=
  if xor then zip_with Z.lxor (octets (ip addr)) (address_mask (ip addr) tid) else octets (ip addr).
Definition wire_family (addr : SocketAddr) : Z :=
  match ip addr with IpV4 _ => FAMILY_IPV4 | IpV6 _ => FAMILY_IPV6 end.
Definition wire_value (xor : bool) (addr : SocketAddr) (tid : list Z) : list Z :=
  [0; wire_family addr] ++ be_bytes 2 (wire_port xor addr) ++ wire_raw xor addr tid.

Lemma wire_raw_length xor addr tid : length tid = 12%nat ->
  length (wire_raw xor addr tid) = match addr with V4 _ _ => 4%nat | V6 _ _ _ _ => 16%nat end.
Proof.
  intros Ht. unfold wire_raw, octets, address_mask. destruct addr; cbn [ip]; destruct xor;
    rewrite ?length_zip_with, ?length_app, ?length_be_bytes, ?repeat_length, ?Ht; reflexivity.
Qed.

Lemma wire_raw_back (xor : bool) addr tid : length tid = 12%nat ->
  let mask := match addr with
              | V4 _ _ => be_bytes 4 MAGIC_COOKIE
              | V6 _ _ _ _ => be_bytes 4 MAGIC_COOKIE ++ tid
              end in
  (if xor then zip_with Z.lxor (wire_raw xor addr tid) mask else wire_raw xor addr tid) = octets (ip addr).
Proof.
  intros Ht mask. unfold wire_raw. destruct xor; [|done]. unfold octets, address_mask, mask.
  destruct addr; cbn [ip]; apply zip_lxor_cancel;
    rewrite ?length_app, ?length_be_bytes, ?repeat_length, ?Ht; try (cbn; lia); [left; by eexists|by right].
Qed.

Lemma decode_wire_value xor addr tid : wire_addr addr -> length tid = 12%nat ->
  decode_address (wire_value xor addr tid) xor tid = Ok addr.
Proof.
  intros Hw Ht. pose proof (wire_raw_length xor addr tid Ht) as Hl.
  pose proof (wire_raw_back xor addr tid Ht) as Hback. cbv zeta in Hback.
  assert (is_u16 (port addr)) as Hp by (destruct addr; cbn in Hw |- *; tauto).
  assert (is_u16 (wire_port xor addr)) as Hp'.
  { unfold wire_port. destruct xor; [by apply xor_port|done]. }
  assert ((if xor then Z.lxor (wire_port xor addr) (Z.shiftr MAGIC_COOKIE 16) else wire_port xor addr) =
          port addr) as Hport.
  { unfold wire_port. destruct xor; [by apply xor_port|done]. }
  unfold decode_address.
  assert (Z.of_nat (length (wire_value xor addr tid)) = 4 + Z.of_nat (length (wire_raw xor addr tid))) as Hlen.
  { unfold wire_value. rewrite !length_app, length_be_bytes. cbn [length]. lia. }
  rewrite Hlen. destruct (Z.ltb_spec (4 + Z.of_nat (length (wire_raw xor addr tid))) 4); [lia|].
  cbn [fail_if obind].
  change (wire_value xor addr tid !! 1%nat) with (Some (wire_family addr)). cbn [unwrap obind].
  unfold wire_value at 1. rewrite u16_at_field by done. cbn [obind]. rewrite Hport.
  assert (slice (wire_value xor addr tid) 4 (4 + Z.of_nat (length (wire_raw xor addr tid))) =
          Ok (wire_raw xor addr tid)) as ->.
  { unfold wire_value. rewrite app_assoc. rewrite <- (app_nil_r (wire_raw xor addr tid)) at 1.
    apply slice_at; [|done]. rewrite length_app, length_be_bytes. done. }
  cbn [obind]. destruct addr as [bits p|bits p f sc]; cbn [ip wire_family] in *.
  - change (FAMILY_IPV4 =? FAMILY_IPV4) with true. rewrite Hl, take_ge, Hback by lia.
    change (Z.of_nat 4 <? 4) with false. cbn [fail_if obind octets port].
    rewrite be_val_be_bytes; [done|]. cbn in Hw. lia.
  - change (FAMILY_IPV6 =? FAMILY_IPV4) with false. change (FAMILY_IPV6 =? FAMILY_IPV6) with true.
    rewrite Hl, take_ge, Hback by lia. change (Z.of_nat 16 <? 16) with false. cbn [fail_if obind octets port].
    destruct Hw as (Hbits & _ & -> & ->). rewrite be_val_be_bytes; [done|]. cbn in Hbits |- *. lia.
Qed.

(** The kind and the value of an encoded attribute. *)
Definition attribute_tlv (a : Attribute) (tid : list Z) : Z * list Z :=
  match a with
  | MappedAddress addr => (ATTR_MAPPED_ADDRESS, wire_value false addr tid)
  | XorMappedAddress addr => (ATTR_XOR_MAPPED_ADDRESS, wire_value true addr tid)
  | ResponseOrigin addr => (ATTR_RESPONSE_ORIGIN, wire_value false addr tid)
  | OtherAddress addr => (ATTR_OTHER_ADDRESS, wire_value false addr tid)
  | ChangeRequest i p => (ATTR_CHANGE_REQUEST, be_bytes 4 (Z.lor (if i then 4 else 0) (if p then 2 else 0)))
  | Software text => (ATTR_SOFTWARE, utf8 text)
  | Unknown kind value => (kind, value)
  end.

Lemma encode_attribute_tlv a tid : wire_attribute a ->
  encode_attribute a tid = tlv (attribute_tlv a tid).1 (attribute_tlv a tid).2.
Proof.
  intros Ha. destruct a as [addr|[] []|addr|addr|addr|text|kind value]; try done.
  cbn [encode_attribute attribute_tlv fst snd]. destruct Ha as (_ & Hk & _ & _).
  destruct (Z.eqb_spec kind ATTR_FINGERPRINT) as [->|]; [|done]. exfalso. apply Hk. set_solver.
Qed.

Lemma attribute_tlv_kind a tid : wire_attribute a ->
  is_u16 (attribute_tlv a tid).1 /\ (attribute_tlv a tid).1 =? ATTR_FINGERPRINT = false.
Proof.
  intros Ha. destruct a; try (split; [vm_compute; split; congruence|done]).
  destruct Ha as (Hu & Hk & _ & _). split; [done|]. apply Z.eqb_neq. cbn. intros ->. apply Hk. set_solver.
Qed.

Lemma attribute_tlv_len a tid : wire_attribute a -> length tid = 12%nat ->
  Z.of_nat (length (attribute_tlv a tid).2) < 65536.
Proof.
  intros Ha Ht. destruct a as [addr|i p|addr|addr|addr|text|kind value]; cbn [attribute_tlv fst snd];
    try (unfold wire_value; rewrite !length_app, length_be_bytes, (wire_raw_length _ _ _ Ht);
         destruct addr; cbn; lia).
  - rewrite length_be_bytes. lia.
  - by destruct Ha.
  - by destruct Ha as (_ & _ & _ & ?).
Qed.

Ltac compare_kinds :=
  repeat match goal with |- context [?a =? ?b] =>
    is_const a; is_const b; let v := eval vm_compute in (a =? b) in
    match v with
    | true => change (a =? b) with true
    | false => change (a =? b) with false
    end
  end; cbv iota.

Lemma decode_attribute_tlv a tid : wire_attribute a -> length tid = 12%nat ->
  decode_attribute (attribute_tlv a tid).1 (attribute_tlv a tid).2 tid = Ok a.
Proof.
  intros Ha Ht. destruct a as [addr|i p|addr|addr|addr|text|kind value]; unfold decode_attribute;
    cbn [attribute_tlv fst snd].
  - compare_kinds. by rewrite decode_wire_value.
  - by destruct i, p.
  - compare_kinds. by rewrite decode_wire_value.
  - compare_kinds. by rewrite decode_wire_value.
  - compare_kinds. by rewrite decode_wire_value.
  - destruct Ha as [Hs _]. set (back := Utf8.from_utf8_lossy (utf8 text)). compare_kinds.
    subst back. rewrite Utf8.from_utf8_lossy_utf8 by exact Hs. reflexivity.
  - destruct Ha as (_ & Hk & _ & _).
    repeat match goal with |- context [kind =? ?k] =>
      destruct (Z.eqb_spec kind k) as [->|]; [exfalso; apply Hk; set_solver|] end.
    done.
Qed.

Lemma tlv_length kind value : Z.of_nat (length (tlv kind value)) = 4 + padded (Z.of_nat (length value)).
Proof.
  unfold tlv, push_padding, padded. rewrite !length_app, !length_be_bytes, repeat_length.
  pose proof (Z.mod_pos_bound (4 - Z.of_nat (length value) mod 4) 4). lia.
Qed.

(** The fields of one TLV in the middle of a message. *)
Lemma tlv_fields pre kind value post :
  is_u16 kind -> Z.of_nat (length value) < 65536 ->
  let bytes := pre ++ tlv kind value ++ post in
  let c := Z.of_nat (length pre) in
  let len := Z.of_nat (length value) in
  u16_at bytes c = Ok kind /\ u16_at bytes (c + 2) = Ok len /\ slice bytes (c + 4) (c + 4 + len) = Ok value.
Proof.
  intros Hk Hl bytes c len. subst bytes. unfold tlv, as_u16. rewrite Z.mod_small by lia. rewrite <- !app_assoc.
  split; [by apply u16_at_field|]. split.
  - rewrite app_assoc. apply u16_at_field; [rewrite length_app, length_be_bytes; lia|].
    unfold in_range, U16_MAX. lia.
  - rewrite (app_assoc pre), (app_assoc (pre ++ be_bytes 2 kind)).
    apply slice_at; [rewrite !length_app, !length_be_bytes; lia|lia].
Qed.

Definition encode_all (attrs : list Attribute) (tid : list Z) : list Z :=
  concat (map (fun a => encode_attribute a tid) attrs).

Lemma decode_loop_encoded fuel pre attrs tail tid :
  Forall wire_attribute attrs -> length tid = 12%nat -> (length attrs < fuel)%nat ->
  decode_attributes_loop fuel (pre ++ encode_all attrs tid ++ tail) tid (Z.of_nat (length pre)) =
  omap (app attrs) (decode_attributes_loop (fuel - length attrs) (pre ++ encode_all attrs tid ++ tail) tid
                      (Z.of_nat (length (pre ++ encode_all attrs tid)))).
Proof.
  intros Ha Ht. revert pre fuel. induction Ha as [|a attrs H1 _ IH]; intros pre fuel Hf.
  - unfold encode_all. cbn [map concat length app]. rewrite app_nil_r, Nat.sub_0_r.
    by destruct (decode_attributes_loop _ _ _ _).
  - cbn [length] in Hf. destruct fuel as [|fuel]; [lia|].
    assert (encode_all (a :: attrs) tid = tlv (attribute_tlv a tid).1 (attribute_tlv a tid).2 ++ encode_all attrs tid) as E.
    { unfold encode_all. cbn [map concat]. by rewrite encode_attribute_tlv. }
    destruct (attribute_tlv_kind a tid H1) as [Hk Hfp]. pose proof (attribute_tlv_len a tid H1 Ht) as Hlen.
    rewrite E. set (kind := (attribute_tlv a tid).1) in *. set (value := (attribute_tlv a tid).2) in *.
    rewrite <- (app_assoc (tlv kind value)).
    destruct (tlv_fields pre kind value (encode_all attrs tid ++ tail) Hk Hlen) as (F1 & F2 & F3).
    set (body := pre ++ tlv kind value ++ encode_all attrs tid ++ tail) in *.
    pose proof (padded_bounds (Z.of_nat (length value))) as Hpad. pose proof (tlv_length kind value) as Htl.
    assert (Z.of_nat (length body) = Z.of_nat (length pre) + Z.of_nat (length (tlv kind value)) +
              Z.of_nat (length (encode_all attrs tid ++ tail))) as Hbl.
    { subst body. rewrite !length_app. lia. }
    cbn [decode_attributes_loop].
    destruct (Z.ltb_spec (Z.of_nat (length pre)) (Z.of_nat (length body))); [|lia]. cbn [negb].
    destruct (Z.ltb_spec (Z.of_nat (length body)) (Z.of_nat (length pre) + 4)); [lia|]. cbn [fail_if obind].
    rewrite F1, F2. cbn [obind]. cbv zeta.
    destruct (Z.ltb_spec (Z.of_nat (length body))
      (Z.of_nat (length pre) + 4 + padded (Z.of_nat (length value)))); [lia|]. cbn [fail_if obind].
    rewrite F3. cbn [obind]. rewrite Hfp. subst kind value. rewrite decode_attribute_tlv by done. cbn [obind].
    set (kind := (attribute_tlv a tid).1) in *. set (value := (attribute_tlv a tid).2) in *.
    replace (Z.of_nat (length pre) + 4 + padded (Z.of_nat (length value)))
      with (Z.of_nat (length (pre ++ tlv kind value))) by (rewrite length_app; lia).
    assert (body = (pre ++ tlv kind value) ++ encode_all attrs tid ++ tail) as -> by by subst body; rewrite app_assoc.
    rewrite IH by lia. rewrite <- !app_assoc. cbn [length Nat.sub].
    by destruct (decode_attributes_loop _ _ _ _).
Qed.

(** ** The fingerprint of an encoded message *)

Lemma encode_all_cons a attrs tid : wire_attribute a ->
  encode_all (a :: attrs) tid = tlv (attribute_tlv a tid).1 (attribute_tlv a tid).2 ++ encode_all attrs tid.
Proof. intros Ha. unfold encode_all. cbn [map concat]. by rewrite encode_attribute_tlv. Qed.

Lemma verify_loop_encoded fuel pre attrs tail tid end_ :
  Forall wire_attribute attrs -> length tid = 12%nat -> (length attrs < fuel)%nat ->
  Z.of_nat (length (pre ++ encode_all attrs tid)) <= end_ ->
  verify_loop fuel (pre ++ encode_all attrs tid ++ tail) end_ (Z.of_nat (length pre)) =
  verify_loop (fuel - length attrs) (pre ++ encode_all attrs tid ++ tail) end_
    (Z.of_nat (length (pre ++ encode_all attrs tid))).
Proof.
  intros Ha Ht. revert pre fuel. induction Ha as [|a attrs H1 _ IH]; intros pre fuel Hf He.
  - unfold encode_all. cbn [map concat length app]. by rewrite app_nil_r, Nat.sub_0_r.
  - cbn [length] in Hf. destruct fuel as [|fuel]; [lia|]. rewrite encode_all_cons in He |- * by done.
    destruct (attribute_tlv_kind a tid H1) as [Hk Hfp]. pose proof (attribute_tlv_len a tid H1 Ht) as Hlen.
    set (kind := (attribute_tlv a tid).1) in *. set (value := (attribute_tlv a tid).2) in *.
    rewrite <- (app_assoc (tlv kind value)).
    destruct (tlv_fields pre kind value (encode_all attrs tid ++ tail) Hk Hlen) as (F1 & F2 & _).
    pose proof (padded_bounds (Z.of_nat (length value))) as Hpad. pose proof (tlv_length kind value) as Htl.
    assert (length (pre ++ tlv kind value ++ encode_all attrs tid) =
            length (pre ++ tlv kind value) + length (encode_all attrs tid))%nat as Hl.
    { rewrite !length_app. lia. }
    rewrite Hl in He. rewrite length_app in He.
    cbn [verify_loop]. destruct (Z.leb_spec (Z.of_nat (length pre) + 4) end_); [|lia].
    cbn [negb]. rewrite F1, F2. cbn [obind]. rewrite Hfp.
    replace (Z.of_nat (length pre) + (4 + padded (Z.of_nat (length value))))
      with (Z.of_nat (length (pre ++ tlv kind value))) by (rewrite length_app; lia).
    rewrite (app_assoc pre). rewrite IH by (lia || (rewrite !length_app; lia)).
    rewrite <- !app_assoc. cbn [length Nat.sub]. done.
Qed.

Lemma repeat_u8 n : are_bytes (repeat 0 n).
Proof. induction n; constructor; [unfold in_range, U8_MAX; lia|done]. Qed.

Lemma tlv_bytes kind value : are_bytes value -> are_bytes (tlv kind value).
Proof.
  intros Hv. unfold tlv, push_padding. do 2 (apply Forall_app_2; [apply be_bytes_are_bytes|]).
  apply Forall_app_2; [done|]. apply repeat_u8.
Qed.

Lemma utf8_bytes s : Forall Utf8.scalar s -> are_bytes (utf8 s).
Proof.
  induction 1 as [|c s Hc _ IH]; [constructor|]. rewrite Utf8.utf8_cons. apply Forall_app_2; [|done].
  unfold utf8_char, Utf8.scalar in *. assert (0 <= c) by lia.
  pose proof (Z.mod_pos_bound c 64 ltac:(lia)). pose proof (Z.mod_pos_bound (c / 64) 64 ltac:(lia)).
  pose proof (Z.mod_pos_bound (c / 4096) 64 ltac:(lia)).
  pose proof (Z.div_mod c 64 ltac:(lia)). pose proof (Z.div_mod c 4096 ltac:(lia)).
  pose proof (Z.mod_pos_bound c 4096 ltac:(lia)).
  pose proof (Z.div_mod c 262144 ltac:(lia)). pose proof (Z.mod_pos_bound c 262144 ltac:(lia)).
  destruct (Z.ltb_spec c 128); [|destruct (Z.ltb_spec c 2048); [|destruct (Z.ltb_spec c 65536)]];
    repeat constructor; unfold in_range, U8_MAX; lia.
Qed.

Lemma lxor_bytes a b : are_bytes a -> are_bytes b -> are_bytes (zip_with Z.lxor a b).
Proof.
  intros Ha. revert b. induction Ha as [|x a Hx _ IH]; intros b Hb; [by destruct b|].
  destruct Hb as [|y b Hy Hb]; [done|]. cbn. constructor; [|by apply IH].
  unfold in_range, U8_MAX in *. pose proof (lxor_range 8 x y). change (2 ^ 8) with 256 in *. lia.
Qed.

Lemma attribute_value_bytes a tid : wire_attribute a -> are_bytes tid -> are_bytes (attribute_tlv a tid).2.
Proof.
  intros Ha Ht.
  assert (forall xor addr, are_bytes (wire_value xor addr tid)) as Hw.
  { intros xor addr. unfold wire_value, wire_raw, wire_family, octets, address_mask.
    apply Forall_app_2.
    { destruct addr; repeat (apply Forall_cons; split); try done;
        unfold in_range, U8_MAX, FAMILY_IPV4, FAMILY_IPV6; cbn; lia. }
    apply Forall_app_2; [apply be_bytes_are_bytes|].
    destruct addr; cbn [ip]; destruct xor; try apply be_bytes_are_bytes; apply lxor_bytes;
      try apply be_bytes_are_bytes; apply Forall_app_2; try apply be_bytes_are_bytes; [|done].
    apply repeat_u8. }
  destruct a as [addr|i p|addr|addr|addr|text|kind value]; cbn [attribute_tlv snd]; try apply Hw.
  - apply be_bytes_are_bytes.
  - apply utf8_bytes. by destruct Ha.
  - by destruct Ha as (_ & _ & ? & _).
Qed.

Lemma encode_all_bytes attrs tid : Forall wire_attribute attrs -> are_bytes tid -> are_bytes (encode_all attrs tid).
Proof.
  intros Ha Ht. induction Ha as [|a attrs H1 _ IH]; [constructor|]. rewrite encode_all_cons by done.
  apply Forall_app_2; [|done]. by apply tlv_bytes, attribute_value_bytes.
Qed.

Lemma encode_all_aligned attrs tid : Forall wire_attribute attrs -> Z.of_nat (length (encode_all attrs tid)) mod 4 = 0.
Proof.
  induction 1 as [|a attrs H1 _ IH]; [done|]. rewrite encode_all_cons by done.
  rewrite length_app, Nat2Z.inj_add, tlv_length. unfold padded.
  set (n := Z.of_nat (length (attribute_tlv a tid).2)).
  pose proof (Z.div_mod n 4 ltac:(lia)). pose proof (Z.mod_pos_bound n 4 ltac:(lia)).
  apply Z.mod_divide in IH as [q Hq]; [|lia]. rewrite Hq. apply Z.mod_divide; [lia|].
  destruct (Z.eq_dec (n mod 4) 0) as [E|E].
  - rewrite E. change ((4 - 0) mod 4) with 0. exists (1 + n / 4 + q). lia.
  - rewrite (Z.mod_small (4 - n mod 4) 4) by lia. exists (2 + n / 4 + q). lia.
Qed.

(** The bytes the fingerprint covers, and the fingerprint. *)
Definition covered (ty : Z) (tid : list Z) (attrs : list Attribute) : list Z :=
  (be_bytes 2 ty ++ be_bytes 2 (as_u16 (Z.of_nat (length (encode_all attrs tid)) + FINGERPRINT_LEN)) ++
   be_bytes 4 MAGIC_COOKIE ++ tid) ++ encode_all attrs tid.
Definition fingerprint_of (bytes : list Z) : list Z :=
  be_bytes 2 ATTR_FINGERPRINT ++ be_bytes 2 4 ++ be_bytes 4 (Z.lxor (crc32 bytes) FINGERPRINT_XOR).

Record wire_parts (ty : Z) (tid : list Z) (attrs : list Attribute) : Prop := {
  wp_type : is_u16 ty;
  wp_tid : length tid = 12%nat;
  wp_tid_bytes : are_bytes tid;
  wp_attrs : Forall wire_attribute attrs;
  wp_fits : Z.of_nat (length (encode_all attrs tid)) + FINGERPRINT_LEN < 65536;
}.

Lemma encode_covered m :
  encode m = covered (message_type m) (transaction_id m) (attributes m) ++
             fingerprint_of (covered (message_type m) (transaction_id m) (attributes m)).
Proof. unfold encode, covered, fingerprint_of, encode_all. by rewrite <- !app_assoc. Qed.

Lemma covered_bytes ty tid attrs : wire_parts ty tid attrs -> are_bytes (covered ty tid attrs).
Proof.
  intros []. unfold covered. repeat (apply Forall_app_2; [|by apply encode_all_bytes] ||
    (apply Forall_app_2; [apply be_bytes_are_bytes|])). done.
Qed.

Lemma fingerprint_length bytes : length (fingerprint_of bytes) = 8%nat.
Proof. unfold fingerprint_of. by rewrite !length_app, !length_be_bytes. Qed.

Lemma covered_length ty tid attrs : length tid = 12%nat ->
  length (covered ty tid attrs) = (20 + length (encode_all attrs tid))%nat.
Proof. intros Ht. unfold covered. rewrite !length_app, !length_be_bytes, Ht. lia. Qed.

Lemma encode_all_length attrs tid : Forall wire_attribute attrs ->
  (length attrs <= length (encode_all attrs tid))%nat.
Proof.
  induction 1 as [|a attrs H1 _ IH]; [done|]. rewrite encode_all_cons by done. rewrite length_app. cbn [length].
  pose proof (tlv_length (attribute_tlv a tid).1 (attribute_tlv a tid).2) as H.
  pose proof (padded_bounds (Z.of_nat (length (attribute_tlv a tid).2))). lia.
Qed.

Lemma crc_xor_u32 bytes : are_bytes bytes -> u32 (Z.lxor (crc32 bytes) FINGERPRINT_XOR).
Proof.
  intros Hb. pose proof (crc32_u32 bytes Hb). unfold u32 in *. apply lxor_range; [lia|done|].
  unfold FINGERPRINT_XOR. lia.
Qed.

(** The scan of a message with these parts ends at its last attribute, the
    fingerprint, whatever value that carries. *)
Lemma verify_covered ty tid attrs bytes junk : wire_parts ty tid attrs -> are_bytes bytes ->
  verify_fingerprint (covered ty tid attrs ++ fingerprint_of bytes ++ junk)
    (Z.of_nat (length (encode_all attrs tid)) + FINGERPRINT_LEN) =
  fail_if (negb (Z.lxor (crc32 bytes) FINGERPRINT_XOR =? Z.lxor (crc32 (covered ty tid attrs)) FINGERPRINT_XOR))
    (Stun "FINGERPRINT mismatch").
Proof.
  intros [Hty Ht Htb Ha Hfit] Hb.
  unfold verify_fingerprint. pose proof (covered_length ty tid attrs Ht) as Hl.
  pose proof (encode_all_length attrs tid Ha) as Hn.
  assert (exists h, covered ty tid attrs = h ++ encode_all attrs tid /\ length h = 20%nat) as (h & Ec & Hh).
  { eexists. split; [reflexivity|]. by rewrite !length_app, !length_be_bytes, Ht. }
  set (bs := covered ty tid attrs ++ fingerprint_of bytes ++ junk).
  assert (bs = h ++ encode_all attrs tid ++ fingerprint_of bytes ++ junk) as Eb.
  { subst bs. by rewrite Ec, <- app_assoc. }
  set (end_ := HEADER_LEN + _). assert (end_ = Z.of_nat (length (covered ty tid attrs)) + 8) as He.
  { subst end_. unfold HEADER_LEN, FINGERPRINT_LEN. lia. }
  assert (Z.of_nat (length bs) = Z.of_nat (length (covered ty tid attrs)) + 8 + Z.of_nat (length junk)) as Hbs.
  { subst bs. rewrite !length_app, fingerprint_length. lia. }
  rewrite Eb at 2. unfold HEADER_LEN. replace 20 with (Z.of_nat (length h)) by lia.
  rewrite verify_loop_encoded; [|done|done|lia|rewrite <- Ec; lia]. rewrite <- Eb, <- Ec.
  destruct (S (length bs) - length attrs)%nat as [|fuel] eqn:Ef; [lia|]. cbn [verify_loop].
  destruct (Z.leb_spec (Z.of_nat (length (covered ty tid attrs)) + 4) end_); [|lia]. cbn [negb].
  set (c := Z.of_nat (length (covered ty tid attrs))) in *.
  assert (u16_at bs c = Ok ATTR_FINGERPRINT) as ->.
  { subst bs. unfold fingerprint_of. rewrite <- !app_assoc. by apply u16_at_field. }
  assert (u16_at bs (c + 2) = Ok 4) as ->.
  { subst bs. unfold fingerprint_of. rewrite <- !app_assoc, app_assoc.
    apply u16_at_field; [rewrite length_app, length_be_bytes; lia|done]. }
  assert (u32_at bs (c + 4) = Ok (Z.lxor (crc32 bytes) FINGERPRINT_XOR)) as ->.
  { subst bs. unfold fingerprint_of.
    rewrite <- !app_assoc, (app_assoc (covered ty tid attrs)), (app_assoc (covered ty tid attrs ++ _)).
    apply u32_at_field; [rewrite !length_app, !length_be_bytes; lia|by apply crc_xor_u32]. }
  assert (slice bs 0 c = Ok (covered ty tid attrs)) as ->.
  { subst bs. by apply (slice_at [] (covered ty tid attrs)). }
  cbn [obind]. change (ATTR_FINGERPRINT =? ATTR_FINGERPRINT) with true. change (4 =? 4) with true.
  cbn [negb fail_if obind].
  destruct (Z.eqb_spec (c + FINGERPRINT_LEN) end_); [done|unfold FINGERPRINT_LEN in *; lia].
Qed.

(** ** Decoding an encoded message *)

Lemma decode_fingerprint fuel pre bytes tid : are_bytes bytes -> (2 <= fuel)%nat ->
  decode_attributes_loop fuel (pre ++ fingerprint_of bytes) tid (Z.of_nat (length pre)) = Ok [].
Proof.
  intros Hb Hf. destruct fuel as [|[|fuel]]; [lia..|]. cbn [decode_attributes_loop].
  set (bs := pre ++ fingerprint_of bytes).
  assert (Z.of_nat (length bs) = Z.of_nat (length pre) + 8) as Hl.
  { subst bs. rewrite length_app, fingerprint_length. lia. }
  assert (u16_at bs (Z.of_nat (length pre)) = Ok ATTR_FINGERPRINT) as ->.
  { subst bs. unfold fingerprint_of. by apply u16_at_field. }
  assert (u16_at bs (Z.of_nat (length pre) + 2) = Ok 4) as ->.
  { subst bs. unfold fingerprint_of. rewrite app_assoc. apply u16_at_field; [rewrite length_app, length_be_bytes; lia|done]. }
  cbn [obind]. change (padded 4) with 4.
  destruct (Z.ltb_spec (Z.of_nat (length pre)) (Z.of_nat (length bs))); [|lia]. cbn [negb].
  destruct (Z.ltb_spec (Z.of_nat (length bs)) (Z.of_nat (length pre) + 4)); [lia|]. cbn [fail_if obind].
  destruct (Z.ltb_spec (Z.of_nat (length bs)) (Z.of_nat (length pre) + 4 + 4)); [lia|]. cbn [fail_if obind].
  destruct (slice_inside bs (Z.of_nat (length pre) + 4) (Z.of_nat (length pre) + 4 + 4)) as (v & -> & _); [lia..|].
  cbn [obind]. change (ATTR_FINGERPRINT =? ATTR_FINGERPRINT) with true. cbn iota.
  destruct (Z.ltb_spec (Z.of_nat (length pre) + 4 + 4) (Z.of_nat (length bs))); [lia|done].
Qed.

Lemma decode_covered ty tid attrs bytes junk : wire_parts ty tid attrs -> are_bytes bytes ->
  decode (covered ty tid attrs ++ fingerprint_of bytes ++ junk) =
  let? _ := fail_if (negb (Z.land ty 0xC000 =? 0)) (Stun "first two bits not zero") in
  let? _ := fail_if (negb (Z.lxor (crc32 bytes) FINGERPRINT_XOR =? Z.lxor (crc32 (covered ty tid attrs)) FINGERPRINT_XOR))
    (Stun "FINGERPRINT mismatch") in
  let method_code := Z.lor (Z.lor (Z.land ty 0x000F) (Z.shiftr (Z.land ty 0x00E0) 1))
                       (Z.shiftr (Z.land ty 0x3E00) 2) in
  let class_code := Z.lor (Z.land (Z.shiftr ty 7) 2) (Z.land (Z.shiftr ty 4) 1) in
  let? method := if method_code =? METHOD_BINDING then Ok Binding else Err (Stun "unsupported method") in
  Ok (mk_message method (from_code class_code) tid attrs).
Proof.
  intros Hw Hb. pose proof (verify_covered ty tid attrs bytes junk Hw Hb) as Hv.
  destruct Hw as [Hty Ht Htb Ha Hfit]. pose proof (covered_length ty tid attrs Ht) as Hl.
  set (n := Z.of_nat (length (encode_all attrs tid)) + FINGERPRINT_LEN) in *.
  set (bs := covered ty tid attrs ++ fingerprint_of bytes ++ junk) in *.
  assert (Z.of_nat (length bs) = 20 + n + Z.of_nat (length junk)) as Hbs.
  { subst bs n. rewrite !length_app, fingerprint_length. unfold FINGERPRINT_LEN. lia. }
  assert (0 <= n) by (subst n; unfold FINGERPRINT_LEN; lia).
  assert (n mod 4 = 0) as Hal.
  { subst n. unfold FINGERPRINT_LEN. rewrite Z.add_mod, (encode_all_aligned attrs tid Ha) by lia. done. }
  assert (bs = be_bytes 2 ty ++ be_bytes 2 n ++ be_bytes 4 MAGIC_COOKIE ++ tid ++
                 encode_all attrs tid ++ fingerprint_of bytes ++ junk) as Eb.
  { subst bs. unfold covered, as_u16. fold n. rewrite Z.mod_small by lia. by rewrite <- !app_assoc. }
  unfold decode, HEADER_LEN. destruct (Z.ltb_spec (Z.of_nat (length bs)) 20); [lia|]. cbn [fail_if obind].
  assert (u16_at bs 0 = Ok ty) as ->.
  { rewrite Eb, <- (app_nil_l (be_bytes 2 ty ++ _)). by apply u16_at_field. }
  cbn [obind]. destruct (negb (Z.land ty 49152 =? 0)); [done|]. cbn [fail_if obind].
  assert (u16_at bs 2 = Ok n) as ->.
  { rewrite Eb. apply u16_at_field; [by rewrite length_be_bytes|]. unfold in_range, U16_MAX. lia. }
  cbn [obind]. rewrite Hal. cbn [Z.eqb negb fail_if obind].
  destruct (Z.ltb_spec (Z.of_nat (length bs)) (20 + n)); [lia|]. cbn [fail_if obind].
  assert (u32_at bs 4 = Ok MAGIC_COOKIE) as ->.
  { rewrite Eb, app_assoc. apply u32_at_field; [by rewrite length_app, !length_be_bytes|done]. }
  cbn [obind]. rewrite Z.eqb_refl. cbn [negb fail_if obind]. rewrite Hv.
  destruct (fail_if _ _); cbn [obind]; try done.
  assert (slice bs 8 20 = Ok tid) as ->.
  { assert (bs = (be_bytes 2 ty ++ be_bytes 2 n ++ be_bytes 4 MAGIC_COOKIE) ++ tid ++
        encode_all attrs tid ++ fingerprint_of bytes ++ junk) as -> by by rewrite Eb, <- !app_assoc.
    apply slice_at; [rewrite !length_app, !length_be_bytes; lia|lia]. }
  cbn [obind]. cbv zeta. destruct (_ =? METHOD_BINDING); [|done]. cbn [obind].
  set (head := be_bytes 2 ty ++ be_bytes 2 n ++ be_bytes 4 MAGIC_COOKIE ++ tid).
  assert (slice bs 20 (20 + n) = Ok (encode_all attrs tid ++ fingerprint_of bytes)) as ->.
  { assert (bs = head ++ (encode_all attrs tid ++ fingerprint_of bytes) ++ junk) as ->.
    { subst head. by rewrite Eb, <- !app_assoc. }
    apply slice_at; [subst head; rewrite !length_app, !length_be_bytes; lia|].
    rewrite length_app, fingerprint_length. subst n. unfold FINGERPRINT_LEN. lia. }
  cbn [obind]. unfold decode_attributes.
  pose proof (encode_all_length attrs tid Ha) as Hn.
  pose proof (decode_loop_encoded (S (length (encode_all attrs tid ++ fingerprint_of bytes))) [] attrs
    (fingerprint_of bytes) tid Ha Ht ltac:(rewrite length_app; lia)) as Hd. cbn [app length] in Hd. change (Z.of_nat 0) with 0 in Hd.
  rewrite Hd. rewrite (decode_fingerprint _ (encode_all attrs tid) bytes) by (rewrite ?length_app, ?fingerprint_length; lia || done).
  cbn [omap obind]. by rewrite app_nil_r.
Qed.

Lemma message_type_decodes c :
  let ty := message_type (mk_message Binding c [] []) in
  Z.land ty 0xC000 = 0 /\
  Z.lor (Z.lor (Z.land ty 0x000F) (Z.shiftr (Z.land ty 0x00E0) 1)) (Z.shiftr (Z.land ty 0x3E00) 2) = METHOD_BINDING /\
  from_code (Z.lor (Z.land (Z.shiftr ty 7) 2) (Z.land (Z.shiftr ty 4) 1)) = c /\ is_u16 ty.
Proof. destruct c; vm_compute; (repeat split); congruence. Qed.

Definition wire_message (m : Message) : Prop := wire_parts (message_type m) (transaction_id m) (attributes m).

Lemma stun_decode_encode m junk : wire_message m -> decode (encode m ++ junk) = Ok m.
Proof.
  intros Hw. rewrite encode_covered, <- app_assoc.
  rewrite decode_covered; [|done|by apply covered_bytes]. destruct m as [[] c tid attrs]. cbn [transaction_id attributes] in *.
  destruct (message_type_decodes c) as (H1 & H2 & H3 & _).
  change (message_type (mk_message Binding c tid attrs)) with (message_type (mk_message Binding c [] [])).
  rewrite H1, H2, H3, !Z.eqb_refl. done.
Qed.

(** ** The query *)

(** A datagram the loop passes over. *)
Definition ignored (family : AddressFamily) (transaction : list Z) (d : datagram) : Prop :=
  match d with
  | Datagram bytes from =>
      match decode bytes with
      | Ok m => transaction_id m <> transaction \/ family_of from <> family
      | Err _ => True
      | Panic => False
      end
  | RecvFailed _ => False
  end.

(** A success response of this transaction, of the right family throughout. *)
Record answers (family : AddressFamily) (transaction : list Z) (m : Message) (from : SocketAddr)
    (r : StunResult) : Prop := {
  an_transaction : transaction_id m = transaction;
  an_class : class m = SuccessResponse;
  an_from : family_of from = family;
  an_mapped : mapped_address m = Some (mapped_addr r);
  an_family : accepts family (mapped_addr r) = true;
  an_origin : result_origin r = Some (default from (response_origin m));
  an_origin_family : forall a, response_origin m = Some a -> accepts family a = true;
  an_other : result_other r = other_address m;
  an_other_family : forall a, other_address m = Some a -> accepts family a = true;
  an_software : result_software r = software m;
}.

Lemma await_ignored family transaction skipped rest : Forall (ignored family transaction) skipped ->
  await_answer family transaction (skipped ++ rest) = await_answer family transaction rest.
Proof.
  induction 1 as [|d skipped Hd _ IH]; [done|]. destruct d as [bytes from|e]; [|done].
  cbn [app await_answer]. cbn [ignored] in Hd. destruct (decode bytes) as [m|e|]; [|done|done].
  case_bool_decide; cbn [negb]; [|done]. case_bool_decide; cbn [negb]; [|done]. by destruct Hd.
Qed.

Lemma await_inv family transaction arriving r : await_answer family transaction arriving = Ok r ->
  exists skipped bytes from rest m, arriving = skipped ++ Datagram bytes from :: rest /\
    Forall (ignored family transaction) skipped /\ decode bytes = Ok m /\ answers family transaction m from r.
Proof.
  induction arriving as [|d arriving IH]; [done|]. destruct d as [bytes from|e]; [|done].
  cbn [await_answer]. intros E.
  assert (ignored family transaction (Datagram bytes from) -> await_answer family transaction arriving = Ok r ->
    exists skipped bytes0 from0 rest m, Datagram bytes from :: arriving = skipped ++ Datagram bytes0 from0 :: rest /\
    Forall (ignored family transaction) skipped /\ decode bytes0 = Ok m /\ answers family transaction m from0 r) as Hskip.
  { intros Hd Ha. destruct (IH Ha) as (sk & b & f & rest & m & -> & Hs & H1 & H2).
    exists (Datagram bytes from :: sk), b, f, rest, m. split; [done|]. split; [by constructor|done]. }
  cbn [ignored] in Hskip. destruct (decode bytes) as [m|e|] eqn:Em; [|by apply Hskip|done].
  case_bool_decide as Ht; cbn [negb] in E; [|by apply Hskip; [left|]].
  case_bool_decide as Hf; cbn [negb] in E; [|by apply Hskip; [right|]]. clear Hskip.
  case_bool_decide; [done|]. destruct (mapped_address m) as [mapped|] eqn:Emap; [|done]. cbn [ok_or obind] in E.
  destruct (_ || _) eqn:Eb; [done|]. injection E as <-. apply orb_false_iff in Eb as [Eb E4].
  apply orb_false_iff in Eb as [Eb E3]. apply orb_false_iff in Eb as [E1 E2].
  apply negb_false_iff in E1, E2. bool_hyps.
  exists [], bytes, from, arriving, m. split; [done|]. split; [constructor|]. split; [done|].
  split; try done; cbn [mapped_addr result_origin].
  - by destruct (response_origin m).
  - intros a Ea. rewrite Ea in E3. by apply negb_false_iff in E3.
  - intros a Ea. rewrite Ea in E4. by apply negb_false_iff in E4.
Qed.

(** ** Properties *)

(** What is encoded is decoded, whatever follows it in the buffer. For every
    message whose attributes the wire can carry (addresses of both families,
    XORed or not, change requests, software names, unknown attributes of any
    kind), with any class and transaction. *)
Theorem stun_roundtrip (m : Message) (junk : list Z) :
  wire_message m -> decode (encode m ++ junk) = Ok m.
Proof. apply stun_decode_encode. Qed.

Lemma stun_roundtrip_witness :
  let m := mk_message Binding SuccessResponse (repeat 7 12)
             [XorMappedAddress (V6 (2 ^ 127 + 5) 9 0 0); MappedAddress (V4 3 65535); Software [233; 8364];
              Unknown 0x7777 [1; 2; 3]; ChangeRequest true false] in
  wire_message m /\ decode (encode m ++ [1; 2]) = Ok m.
Proof.
  intros m. assert (wire_message m) as H.
  { split.
    - apply (bool_decide_unpack _). vm_compute. exact I.
    - reflexivity.
    - apply (bool_decide_unpack _). vm_compute. exact I.
    - repeat apply Forall_cons_2; [..|apply Forall_nil_2]; cbn [wire_attribute wire_addr].
      + split; [lia|]. split; [apply (bool_decide_unpack _); vm_compute; exact I|done].
      + split; [lia|]. apply (bool_decide_unpack _). vm_compute. exact I.
      + split; [repeat constructor; unfold Utf8.scalar; lia|done].
      + repeat split; try (apply (bool_decide_unpack _); vm_compute; exact I); done.
      + done.
    - vm_compute. reflexivity. }
  split; [exact H|]. apply (stun_roundtrip m [1; 2] H).
Defined.

(** No datagram makes the decoder panic (index out of range, or run on for
    ever), and a message with a fingerprint is refused as soon as one byte of
    the type, the transaction or the attributes is wrong, however it still
    parses. *)
Theorem stun_decode_robust (bytes : list Z) :
  are_bytes bytes ->
  decode bytes <> Panic /\
  forall ty tid attrs ty' tid' attrs' pre b b' post,
    wire_parts ty tid attrs -> wire_parts ty' tid' attrs' ->
    covered ty tid attrs = pre ++ b :: post -> covered ty' tid' attrs' = pre ++ b' :: post -> b <> b' ->
    bytes = covered ty' tid' attrs' ++ fingerprint_of (covered ty tid attrs) ->
    exists e, decode bytes = Err e.
Proof.
  intros Hb. split; [by apply decode_safe|].
  intros ty tid attrs ty' tid' attrs' pre b b' post Hw Hw' E E' Hne ->.
  pose proof (covered_bytes _ _ _ Hw) as Hc. pose proof (covered_bytes _ _ _ Hw') as Hc'.
  pose proof (decode_covered ty' tid' attrs' (covered ty tid attrs) [] Hw' Hc) as Hd. rewrite app_nil_r in Hd.
  rewrite Hd. destruct (negb (Z.land ty' 0xC000 =? 0)); cbn [fail_if obind]; [by eexists|].
  destruct (Z.eqb_spec (Z.lxor (crc32 (covered ty tid attrs)) FINGERPRINT_XOR)
              (Z.lxor (crc32 (covered ty' tid' attrs')) FINGERPRINT_XOR)) as [Heq|]; cbn [negb fail_if obind];
    [|by eexists].
  exfalso. apply lxor_inj_l in Heq. rewrite E in Hc, Heq. rewrite E' in Hc', Heq.
  apply Forall_app in Hc as [Hp Hc]. apply Forall_cons in Hc as [Hx Hpost].
  apply Forall_app in Hc' as [_ Hc']. apply Forall_cons in Hc' as [Hx' _].
  by apply crc32_single_byte in Heq.
Qed.

Lemma stun_decode_robust_witness : decode (repeat 255 100) <> Panic.
Proof.
  apply (stun_decode_robust (repeat 255 100)).
  apply list.Forall_forall. intros x Hx%list_elem_of_In%repeat_spec. subst. by vm_compute.
Defined.

(** A query believes only its own answer. Whatever arrives at the socket, a
    result comes from the first datagram that decodes, carries the transaction
    of this request and comes from the family of the socket; that is a success
    response whose addresses all belong to this family, and they are what is
    returned. Everything else is passed over, so such an answer in time is
    found. *)
Theorem stun_answer_authentic (local server : SocketAddr) (transaction : list Z)
    (change_ip change_port : bool) (arriving : list datagram) (r : StunResult) :
  accepts (family_of local) server = true ->
  fst (query_binding_with_change local server transaction change_ip change_port (Ok tt) arriving) = Ok r <->
  exists skipped bytes from rest m, arriving = skipped ++ Datagram bytes from :: rest /\
    Forall (ignored (family_of local) transaction) skipped /\ decode bytes = Ok m /\
    answers (family_of local) transaction m from r.
Proof.
  intros Hs. unfold query_binding_with_change. rewrite Hs. cbn [negb fst obind].
  split; [apply await_inv|]. intros (skipped & bytes & from & rest & m & -> & Hsk & Hm & Ha).
  rewrite await_ignored by done. cbn [await_answer]. rewrite Hm. destruct Ha as [Ht Hc Hf Hmap Hfam Ho Hof Hx Hxf Hsw].
  rewrite bool_decide_true by done. cbn [negb]. rewrite (bool_decide_true (family_of from = _)) by done. cbn [negb].
  rewrite Hc. rewrite bool_decide_false by done. rewrite Hmap. cbn [ok_or obind]. rewrite bool_decide_true by done.
  cbn [negb orb]. rewrite Hfam. cbn [negb orb]. destruct r as [mapped origin other soft]. cbn in *. subst other soft.
  destruct (response_origin m) as [a|] eqn:Er; [rewrite (Hof a eq_refl)|]; cbn [negb orb];
    (destruct (other_address m) as [x|] eqn:Ex; [rewrite (Hxf x eq_refl)|]); cbn [negb]; by subst origin.
Qed.

Lemma stun_answer_authentic_witness :
  let m := mk_message Binding SuccessResponse (repeat 7 12) [XorMappedAddress (V4 5 9)] in
  fst (query_binding_with_change (V4 1 2) (V4 3 4) (repeat 7 12) false false (Ok tt)
         [Datagram [1] (V4 3 4); Datagram (encode m) (V4 3 4)]) =
  Ok (mk_result (V4 5 9) (Some (V4 3 4)) None None).
Proof.
  intros m. apply (stun_answer_authentic (V4 1 2) (V4 3 4) (repeat 7 12) false false); [done|].
  exists [Datagram [1] (V4 3 4)], (encode m), (V4 3 4), [], m. split; [done|]. split; [by repeat constructor|].
  split; [vm_compute; reflexivity|]. by split.
Defined.

End StunProof.
