(* ===== verification/NatMapping.v ===== *)
(** * NAT mapping behaviour (src/nat/classify.rs)

    What the answers of STUN servers say about the NAT in front of this host:
    the classification of a set of observations, and the RFC 5780 probe that
    decides with at most three queries.  A query is a stateful operation given
    as an argument, like the closure of [probe_rfc5780_with]. *)
From Stdlib Require Import ZArith Lia.
From stdpp Require Import prelude gmap strings.
From S2P Require Import Prelude State Addr Stun.

#[local] Open Scope Z_scope.

Module NatMapping.
Import Addr.

Inductive MappingEvidence : Type := Rfc5780 | InsufficientEvidence.
Inductive FilteringBehavior : Type := NotMeasured.

Inductive MappingBehavior : Type :=
  | EndpointIndependent
  | AddressDependent
  | AddressAndPortDependent
  | Unknown.
#[global] Instance MappingBehavior_eq_dec : EqDecision MappingBehavior.
Proof. solve_decision. Defined.

Record StunObservation : Type := mk_observation { server : SocketAddr; mapped_addr : SocketAddr }.
#[global] Instance StunObservation_eq_dec : EqDecision StunObservation.
Proof. solve_decision. Defined.

Definition from_result (server : SocketAddr) (r : Stun.StunResult) : StunObservation :=
  mk_observation server (Stun.mapped_addr r).

Record MappingProbe : Type := mk_probe {
  observations : list StunObservation;
  other_address : option SocketAddr;
  mapping : MappingBehavior;
  evidence : MappingEvidence;
  filtering : FilteringBehavior;
}.

Definition punchable (m : MappingBehavior) : bool :=
  match m with EndpointIndependent => true | _ => false end.

(** The two loops of [classify_mapping]: [None] is the early return. *)
Fixpoint compare_with (a : StunObservation) (seen : bool) (bs : list StunObservation) : option bool :=
  match bs with
  | [] => Some seen
  | b :: rest =>
      if bool_decide (ip (server a) = ip (server b)) &&
         negb (bool_decide (port (server a) = port (server b)))
      then
        if negb (bool_decide (mapped_addr a = mapped_addr b)) then None
        else compare_with a true rest
      else compare_with a seen rest
  end.
Fixpoint compare_pairs (seen : bool) (l : list StunObservation) : option bool :=
  match l with
  | [] => Some seen
  | a :: rest =>
      match compare_with a seen rest with
      | Some seen => compare_pairs seen rest
      | None => None
      end
  end.

Definition distinct_ips (l : list StunObservation) : nat :=
  length (remove_dups (map (fun o => ip (server o)) l)).

Definition classify_mapping (l : list StunObservation) : MappingBehavior :=
  match l with
  | [] => Unknown
  | o :: _ =>
      if (length l <? 2)%nat ||
         existsb (fun o => negb (is_ipv4 (server o)) || negb (is_ipv4 (mapped_addr o))) l
      then Unknown
      else
        let first := mapped_addr o in
        if (2 <=? distinct_ips l)%nat && forallb (fun o => bool_decide (mapped_addr o = first)) l
        then EndpointIndependent
        else
          match compare_pairs false l with
          | None => AddressAndPortDependent
          | Some same_ip_different_port =>
              if negb same_ip_different_port || (distinct_ips l <? 2)%nat then Unknown
              else if existsb (fun o => negb (bool_decide (mapped_addr o = first))) l
              then AddressDependent else Unknown
          end
  end.

Definition valid_other_address (primary other : SocketAddr) : bool :=
  negb (is_unspecified (ip other)) && negb (port other =? 0) &&
  Bool.eqb (is_ipv4 primary) (is_ipv4 other) && negb (bool_decide (ip other = ip primary)) &&
  negb (port other =? port primary).

(** [SocketAddr::new]. *)
Definition socket_addr (a : IpAddr) (port : Z) : SocketAddr :=
  match a with IpV4 bits => V4 bits port | IpV6 bits => V6 bits port 0 0 end.

(** [probe_rfc5780_with]. *)
Definition probe_rfc5780_with {S : Type} (local primary : SocketAddr)
    (query : SocketAddr -> st S error Stun.StunResult) : st S error MappingProbe :=
  if negb (is_ipv4 local) || negb (is_ipv4 primary) then throw (Stun "mapping classification requires IPv4")
  else
    let! first := query primary in
    let other_address := Stun.result_other first in
    let observations := [from_result primary first] in
    if bool_decide (Stun.mapped_addr first = local) then
      ret (mk_probe observations other_address EndpointIndependent Rfc5780 NotMeasured)
    else
      match other_address with
      | None => ret (mk_probe observations other_address Unknown InsufficientEvidence NotMeasured)
      | Some other =>
          if negb (valid_other_address primary other) then
            ret (mk_probe observations other_address Unknown InsufficientEvidence NotMeasured)
          else
            let alternate := socket_addr (ip other) (port primary) in
            let! second := attempt (query alternate) in
            match second with
            | Ok second =>
                let observations := observations ++ [from_result alternate second] in
                if bool_decide (Stun.mapped_addr second = Stun.mapped_addr first) then
                  ret (mk_probe observations other_address EndpointIndependent Rfc5780 NotMeasured)
                else
                  let! third := attempt (query other) in
                  match third with
                  | Ok third =>
                      let observations := observations ++ [from_result other third] in
                      ret (mk_probe observations other_address
                             (if bool_decide (Stun.mapped_addr third = Stun.mapped_addr second)
                              then AddressDependent else AddressAndPortDependent) Rfc5780 NotMeasured)
                  | _ => ret (mk_probe observations other_address Unknown InsufficientEvidence NotMeasured)
                  end
            | _ => ret (mk_probe observations other_address Unknown InsufficientEvidence NotMeasured)
            end
      end.

(** [observe]: servers that fail are skipped. *)
Fixpoint observe {S : Type} (query : SocketAddr -> st S error Stun.StunResult) (servers : list SocketAddr) :
    st S error (list StunObservation) :=
  match servers with
  | [] => ret []
  | server :: rest =>
      let! r := attempt (query server) in
      let! others := observe query rest in
      match r with
      | Ok result => ret (from_result server result :: others)
      | _ => ret others
      end
  end.

(** ** Facts about the pairs *)

Definition differ_in_port (a b : StunObservation) : Prop :=
  ip (server a) = ip (server b) /\ port (server a) <> port (server b).

Lemma compare_with_spec a seen bs :
  match compare_with a seen bs with
  | None => exists b, b ∈ bs /\ differ_in_port a b /\ mapped_addr a <> mapped_addr b
  | Some flag =>
      (forall b, b ∈ bs -> differ_in_port a b -> mapped_addr a = mapped_addr b) /\
      (flag = true <-> seen = true \/ exists b, b ∈ bs /\ differ_in_port a b)
  end.
Proof.
  unfold differ_in_port. revert seen. induction bs as [|b rest IH]; intros seen; cbn [compare_with].
  - split; [set_solver|]. split; [by left|]. intros [|(r & ? & _)]; [done|set_solver].
  - destruct (bool_decide_reflect (ip (server a) = ip (server b))) as [Hi|Hi]; cbn [andb].
    1: destruct (bool_decide_reflect (port (server a) = port (server b))) as [Hp|Hp]; cbn [negb].
    2: destruct (bool_decide_reflect (mapped_addr a = mapped_addr b)) as [Hm|Hm]; cbn [negb].
    + specialize (IH seen). destruct (compare_with a seen rest); [|set_solver].
      destruct IH as [H1 H2]. split; [set_solver|]. rewrite H2. set_solver.
    + specialize (IH true). destruct (compare_with a true rest); [|set_solver].
      destruct IH as [H1 H2]. split; [set_solver|]. rewrite H2. set_solver.
    + exists b. set_solver.
    + specialize (IH seen). destruct (compare_with a seen rest); [|set_solver].
      destruct IH as [H1 H2]. split; [set_solver|]. rewrite H2. set_solver.
Qed.

Lemma differ_sym a b : differ_in_port a b -> differ_in_port b a.
Proof. unfold differ_in_port. naive_solver. Qed.
Lemma differ_irrefl a : ~ differ_in_port a a.
Proof. unfold differ_in_port. naive_solver. Qed.

Lemma compare_pairs_spec seen l :
  match compare_pairs seen l with
  | None => exists a b, a ∈ l /\ b ∈ l /\ differ_in_port a b /\ mapped_addr a <> mapped_addr b
  | Some flag =>
      (forall a b, a ∈ l -> b ∈ l -> differ_in_port a b -> mapped_addr a = mapped_addr b) /\
      (flag = true <-> seen = true \/ exists a b, a ∈ l /\ b ∈ l /\ differ_in_port a b)
  end.
Proof.
  revert seen. induction l as [|x l IH]; intros seen; cbn [compare_pairs].
  - split; [by intros a b Ha%elem_of_nil|]. split; [by left|].
    intros [|(a & b & Ha & _)]; [done|by apply elem_of_nil in Ha].
  - pose proof (compare_with_spec x seen l) as Hx. destruct (compare_with x seen l) as [seen'|].
    + destruct Hx as [Hx1 Hx2]. specialize (IH seen'). destruct (compare_pairs seen' l) as [flag|].
      * destruct IH as [H1 H2]. split.
        -- intros a b [->|Ha]%elem_of_cons [->|Hb]%elem_of_cons Hd; [done|by apply Hx1| |by apply H1].
           symmetry. by apply Hx1, differ_sym.
        -- rewrite H2, Hx2. split.
           ++ intros [[Hs|(b & Hb & Hd)]|(a & b & Ha & Hb & Hd)]; [by left|right..].
              ** exists x, b. split; [by left|]. by split; [right|].
              ** exists a, b. by split; [right|split; [right|]].
           ++ intros [Hs|(a & b & [->|Ha]%elem_of_cons & [->|Hb]%elem_of_cons & Hd)]; [by left; left|..].
              ** by apply differ_irrefl in Hd.
              ** left. right. eauto.
              ** left. right. apply differ_sym in Hd. eauto.
              ** right. eauto.
      * destruct IH as (a & b & Ha & Hb & H). exists a, b. by split; [right|split; [right|]].
    + destruct Hx as (b & Hb & H). exists x, b. split; [by left|]. by split; [right|].
Qed.

Lemma distinct_ips_two l :
  (2 <= distinct_ips l)%nat <-> exists a b, a ∈ l /\ b ∈ l /\ ip (server a) <> ip (server b).
Proof.
  unfold distinct_ips. set (f := fun o => ip (server o)).
  assert (forall i, i ∈ remove_dups (map f l) <-> exists a, a ∈ l /\ i = f a) as Hin.
  { intros i. rewrite elem_of_remove_dups. rewrite list_elem_of_fmap. naive_solver. }
  pose proof (NoDup_remove_dups (map f l)) as Hnd. split.
  - intros Hl. destruct (remove_dups (map f l)) as [|i [|j r]] eqn:E; cbn in Hl; [lia..|].
    destruct (proj1 (Hin i)) as (a & Ha & Ei); [by left|].
    destruct (proj1 (Hin j)) as (b & Hb & Ej); [by right; left|].
    exists a, b. split; [done|]. split; [done|]. fold (f a) (f b). rewrite <- Ei, <- Ej. intros ->.
    apply NoDup_cons in Hnd as [Hn _]. apply Hn. by left.
  - intros (a & b & Ha & Hb & Hne).
    destruct (remove_dups (map f l)) as [|i [|j r]] eqn:E; cbn; [| |lia]; exfalso.
    + assert (f a ∈ @nil IpAddr) as Hx%elem_of_nil by (apply Hin; eauto). done.
    + assert (f a ∈ [i]) as Hx%list_elem_of_singleton by (apply Hin; eauto).
      assert (f b ∈ [i]) as Hy%list_elem_of_singleton by (apply Hin; eauto). apply Hne. change (f a = f b). congruence.
Qed.

(** At least two observations, all of them IPv4. *)
Definition usable (l : list StunObservation) : Prop :=
  (2 <= length l)%nat /\ Forall (fun o => is_ipv4 (server o) = true /\ is_ipv4 (mapped_addr o) = true) l.
Definition two_ips (l : list StunObservation) : Prop :=
  exists a b, a ∈ l /\ b ∈ l /\ ip (server a) <> ip (server b).
Definition all_same (l : list StunObservation) : Prop :=
  forall a b, a ∈ l -> b ∈ l -> mapped_addr a = mapped_addr b.
Definition port_pair (l : list StunObservation) : Prop :=
  exists a b, a ∈ l /\ b ∈ l /\ differ_in_port a b.
Definition port_conflict (l : list StunObservation) : Prop :=
  exists a b, a ∈ l /\ b ∈ l /\ differ_in_port a b /\ mapped_addr a <> mapped_addr b.

Lemma all_same_first o l :
  all_same (o :: l) <-> forall x, x ∈ o :: l -> mapped_addr x = mapped_addr o.
Proof.
  unfold all_same. split; [intros H x Hx; apply H; [done|by left]|].
  intros H a b Ha Hb. rewrite (H a Ha), (H b Hb). done.
Qed.

(** The cases of the classification. *)
Lemma classify_cases l :
  (usable l /\ two_ips l /\ all_same l /\ classify_mapping l = EndpointIndependent) \/
  (usable l /\ port_conflict l /\ classify_mapping l = AddressAndPortDependent) \/
  (usable l /\ two_ips l /\ port_pair l /\ ~ port_conflict l /\ ~ all_same l /\
     classify_mapping l = AddressDependent) \/
  (classify_mapping l = Unknown /\
     (usable l -> ~ port_conflict l /\ (two_ips l -> ~ all_same l /\ ~ port_pair l))).
Proof.
  unfold classify_mapping. destruct l as [|o l].
  { right. right. right. split; [done|]. intros [Hl _]. cbn in Hl. lia. }
  destruct (Nat.ltb_spec (length (o :: l)) 2) as [Hl|Hl]; cbn [orb].
  { right. right. right. split; [done|]. intros [? _]. lia. }
  destruct (existsb _ (o :: l)) eqn:E4.
  { right. right. right. split; [done|]. intros [_ Hf]. exfalso. apply existsb_exists in E4 as (x & Hx & Hn).
    rewrite Forall_forall in Hf. destruct (Hf x) as [H1 H2]; [by apply list_elem_of_In|]. by rewrite H1, H2 in Hn. }
  assert (usable (o :: l)) as Hu.
  { split; [done|]. apply Forall_forall. intros x Hx%list_elem_of_In.
    assert (negb (is_ipv4 (server x)) || negb (is_ipv4 (mapped_addr x)) = false) as Hn.
    { destruct (negb (is_ipv4 (server x)) || _) eqn:En; [|done].
      rewrite (proj2 (existsb_exists _ _)) in E4; [done|]. by exists x. }
    apply orb_false_iff in Hn as [H1 H2]. by apply negb_false_iff in H1, H2. }
  assert (forallb (fun o0 => bool_decide (mapped_addr o0 = mapped_addr o)) (o :: l) = true <-> all_same (o :: l)) as Hs.
  { rewrite all_same_first, forallb_forall. setoid_rewrite bool_decide_eq_true.
    by setoid_rewrite list_elem_of_In. }
  assert (existsb (fun o0 => negb (bool_decide (mapped_addr o0 = mapped_addr o))) (o :: l) =
          negb (forallb (fun o0 => bool_decide (mapped_addr o0 = mapped_addr o)) (o :: l))) as ->.
  { clear. generalize (o :: l). intros k. induction k as [|x k IH]; [done|]. cbn. rewrite IH.
    by destruct (bool_decide _). }
  pose proof (distinct_ips_two (o :: l)) as Htwo. fold (two_ips (o :: l)) in Htwo.
  pose proof (compare_pairs_spec false (o :: l)) as Hp.
  destruct (forallb _ (o :: l)).
  - assert (all_same (o :: l)) as Ha by by apply Hs.
    assert (~ port_conflict (o :: l)) as Hnc.
    { intros (a & b & Hx & Hy & _ & Hne). apply Hne. by apply Ha. }
    destruct (Nat.leb_spec 2 (distinct_ips (o :: l))) as [H2|H2]; cbn [andb].
    { left. by rewrite <- Htwo. }
    destruct (compare_pairs false (o :: l)) as [flag|]; [|by destruct Hnc].
    destruct (Nat.ltb_spec (distinct_ips (o :: l)) 2); [|lia]. rewrite orb_true_r.
    right. right. right. split; [done|]. intros _. split; [done|]. intros Ht%Htwo. lia.
  - assert (~ all_same (o :: l)) as Hna by by intros Ha%Hs. rewrite andb_false_r.
    destruct (compare_pairs false (o :: l)) as [flag|]; [|by right; left].
    destruct Hp as [Hp1 Hp2].
    assert (~ port_conflict (o :: l)) as Hnc.
    { intros (a & b & Hx & Hy & Hd & Hne). apply Hne. by apply Hp1. }
    destruct flag; cbn [negb orb].
    + destruct (Nat.ltb_spec (distinct_ips (o :: l)) 2) as [H2|H2].
      * right. right. right. split; [done|]. intros _. split; [done|]. intros Ht%Htwo. lia.
      * right. right. left. rewrite <- Htwo. destruct Hp2 as [Hp2 _]. destruct (Hp2 eq_refl) as [|Hpp]; [done|]. done.
    + right. right. right. split; [done|]. intros _. split; [done|]. intros _. split; [done|].
      intros Hpp. destruct Hp2 as [_ Hp2]. by discriminate Hp2; right.
Qed.

(** ** The probe against a NAT *)

(** A NAT is the mapping it gives this host's port towards each target. *)
Definition nat_query (nat : SocketAddr -> SocketAddr) (other : option SocketAddr) (target : SocketAddr) :
    st (list SocketAddr) error Stun.StunResult :=
  fun asked => (Ok (Stun.mk_result (nat target) None other None), asked ++ [target]).

Definition endpoint_independent (nat : SocketAddr -> SocketAddr) : Prop := forall a b, nat a = nat b.
Definition address_dependent (nat : SocketAddr -> SocketAddr) : Prop :=
  forall a b, ip a = ip b -> nat a = nat b.

Lemma socket_addr_ip a p : ip (socket_addr a p) = a.
Proof. by destruct a. Qed.

Lemma conflict_facts l : port_conflict l -> port_pair l /\ ~ all_same l.
Proof.
  intros (a & b & Ha & Hb & Hd & Hne). split; [by exists a, b|]. intros Hs. apply Hne. by apply Hs.
Qed.

Lemma classify_exact l :
  (classify_mapping l = EndpointIndependent <-> usable l /\ two_ips l /\ all_same l) /\
  (classify_mapping l = AddressAndPortDependent <-> usable l /\ port_conflict l) /\
  (classify_mapping l = AddressDependent <->
     usable l /\ two_ips l /\ port_pair l /\ ~ port_conflict l /\ ~ all_same l).
Proof.
  pose proof (conflict_facts l) as Hc.
  destruct (classify_cases l) as [(H1 & H2 & H3 & ->)|[(H1 & H2 & ->)|[(H1 & H2 & H3 & H4 & H5 & ->)|(-> & H)]]];
    (split; [|split]); split; try done; naive_solver.
Qed.

Lemma cases_perm l l' : l ≡ₚ l' ->
  (usable l -> usable l') /\ (two_ips l -> two_ips l') /\ (all_same l -> all_same l') /\
  (port_pair l -> port_pair l') /\ (port_conflict l -> port_conflict l').
Proof.
  intros Hp. assert (forall x, x ∈ l' <-> x ∈ l) as Hin by (intros x; by rewrite Hp).
  unfold usable, two_ips, all_same, port_pair, port_conflict.
  split; [intros [H1 H2]; by rewrite <- Hp|]. split; [intros (a & b & H); exists a, b; by rewrite !Hin|].
  split; [intros H a b; rewrite !Hin; apply H|].
  split; intros (a & b & H); exists a, b; by rewrite !Hin.
Qed.

(** ** Properties *)

(** The classification says exactly what the observations prove. It takes at
    least two observations, all IPv4. Endpoint independent: two target addresses
    were asked, and every mapping was the same. Address and port dependent: two
    ports of one address got different mappings. Address dependent: no two ports
    of one address did, some pair of ports was compared, two addresses were
    asked, and not all mappings agree. Otherwise unknown. So the answer does not
    depend on the order of the observations. *)
Theorem classification_exact (l : list StunObservation) :
  (classify_mapping l = EndpointIndependent <-> usable l /\ two_ips l /\ all_same l) /\
  (classify_mapping l = AddressAndPortDependent <-> usable l /\ port_conflict l) /\
  (classify_mapping l = AddressDependent <->
     usable l /\ two_ips l /\ port_pair l /\ ~ port_conflict l /\ ~ all_same l) /\
  (forall l', l ≡ₚ l' -> classify_mapping l' = classify_mapping l).
Proof.
  destruct (classify_exact l) as (E1 & E2 & E3). split; [done|]. split; [done|]. split; [done|].
  intros l' Hp. destruct (classify_exact l') as (F1 & F2 & F3).
  pose proof (cases_perm l l' Hp) as P. pose proof (cases_perm l' l (symmetry Hp)) as P'.
  destruct (classify_mapping l).
  - apply F1. assert (usable l /\ two_ips l /\ all_same l) by by apply E1. naive_solver.
  - apply F3. assert (usable l /\ two_ips l /\ port_pair l /\ ~ port_conflict l /\ ~ all_same l) by by apply E3.
    naive_solver.
  - apply F2. assert (usable l /\ port_conflict l) by by apply E2. naive_solver.
  - destruct (classify_mapping l'); [|..|done]; exfalso.
    + assert (Unknown = EndpointIndependent) as [=]. apply E1.
      assert (usable l' /\ two_ips l' /\ all_same l') by by apply F1. naive_solver.
    + assert (Unknown = AddressDependent) as [=]. apply E3.
      assert (usable l' /\ two_ips l' /\ port_pair l' /\ ~ port_conflict l' /\ ~ all_same l') by by apply F3.
      naive_solver.
    + assert (Unknown = AddressAndPortDependent) as [=]. apply E2.
      assert (usable l' /\ port_conflict l') by by apply F2. naive_solver.
Qed.

(** The probe tells a NAT's behaviour with at most three queries. Against any
    NAT, and a server with a valid second address, it asks the server, then the
    second address on the same port, and the second address and port only when
    those two mappings differ; it stops at once when there is no NAT. A NAT that
    maps every target alike is called endpoint independent; one that maps by
    address is never called address and port dependent; and the verdicts address
    dependent and address and port dependent are only given to NATs that are not
    endpoint independent, or not even address dependent. *)
Theorem probe_correct (nat : SocketAddr -> SocketAddr) (local primary other : SocketAddr)
    (asked : list SocketAddr) :
  is_ipv4 local = true -> is_ipv4 primary = true -> valid_other_address primary other = true ->
  let alternate := socket_addr (ip other) (port primary) in
  exists p log, probe_rfc5780_with local primary (nat_query nat (Some other)) asked = (Ok p, asked ++ log) /\
    map server (observations p) = log /\ Forall (fun o => mapped_addr o = nat (server o)) (observations p) /\
    log `prefix_of` [primary; alternate; other] /\
    ((length log = 3)%nat <-> nat primary <> local /\ nat alternate <> nat primary) /\
    mapping p <> Unknown /\ evidence p = Rfc5780 /\
    (endpoint_independent nat -> mapping p = EndpointIndependent) /\
    (address_dependent nat -> mapping p <> AddressAndPortDependent) /\
    (mapping p = AddressDependent -> ~ endpoint_independent nat) /\
    (mapping p = AddressAndPortDependent -> ~ address_dependent nat).
Proof.
  intros Hl Hp Hv alternate. unfold probe_rfc5780_with. rewrite Hl, Hp. cbn [negb orb].
  unfold sbind, attempt, nat_query, ret. cbn [Stun.result_other Stun.mapped_addr from_result]. fold alternate.
  assert (ip alternate = ip other) as Hip by apply socket_addr_ip.
  destruct (bool_decide_reflect (nat primary = local)) as [El|El].
  { do 2 eexists. split; [reflexivity|]. cbn. split; [done|]. split; [by repeat constructor|].
    split; [by apply prefix_cons, prefix_nil|]. split; [split; [done|by intros []]|].
    repeat split; try done; by intros. }
  rewrite Hv. cbn [negb]. cbn [Stun.mapped_addr]. fold alternate.
  destruct (bool_decide_reflect (nat alternate = nat primary)) as [E2|E2].
  { exists (mk_probe [mk_observation primary (nat primary); mk_observation alternate (nat alternate)] (Some other)
             EndpointIndependent Rfc5780 NotMeasured), [primary; alternate].
    rewrite <- app_assoc. split; [reflexivity|]. cbn. split; [done|]. split; [by repeat constructor|].
    split; [by eexists [other]|]. split; [split; [done|by intros []]|].
    repeat split; try done; by intros. }
  eexists _, [primary; alternate; other]. rewrite <- !app_assoc. split; [reflexivity|]. cbn.
  split; [done|]. split; [by repeat constructor|]. split; [done|]. split; [done|].
  assert (~ endpoint_independent nat) as Hne by (intros H; by apply E2, H).
  destruct (bool_decide_reflect (nat other = nat alternate)) as [E3|E3].
  - repeat split; try done; by intros.
  - assert (~ address_dependent nat) as Hna by (intros H; apply E3, H; by rewrite Hip).
    repeat split; try done; by intros.
Qed.

Lemma probe_correct_witness :
  let nat := fun target => V4 9 (match ip target with IpV4 b => b | IpV6 b => b end) in
  let primary := V4 1 3478 in let other := V4 2 3479 in
  exists p log, probe_rfc5780_with (V4 7 7) primary (nat_query nat (Some other)) [] = (Ok p, log) /\
    mapping p = AddressDependent /\ ~ endpoint_independent nat.
Proof.
  intros nat primary other.
  destruct (probe_correct nat (V4 7 7) primary other [] eq_refl eq_refl eq_refl)
    as (p & log & E & _ & _ & _ & _ & _ & _ & _ & _ & H & _).
  exists p, ([] ++ log). split; [exact E|].
  assert (mapping p = AddressDependent) as Hm.
  { vm_compute in E. injection E as <- _. reflexivity. }
  split; [exact Hm|apply H, Hm].
Defined.

End NatMapping.
