(* ===== verification/Punch.v ===== *)
(** * UDP hole punching (src/nat/punch.rs)

    The probe packet, the loop that sends probes to every candidate and waits for one
    that carries the session's token, and the keepalive loop.  The socket and the clock
    are the sequence of events the loop meets; what it sends is written down. *)
From Stdlib Require Import ZArith Lia.
From stdpp Require Import prelude list strings.
From S2P Require Import Prelude Addr.

#[local] Open Scope Z_scope.

Module Punch.
Import Addr.

Definition PROBE_MAGIC : list Z := lit "P2PF-PUNCH/1".
Definition PROBE_TOKEN_LEN : nat := 16.

(** The bytes of a token. *)
Definition PunchToken : Type := list Z.
Definition token_ok (t : PunchToken) : Prop := length t = PROBE_TOKEN_LEN.

(** [interval] in milliseconds. *)
Record PunchConfig : Type := mk_config { interval : Z; attempts : Z }.
Definition default_config : PunchConfig := mk_config 200 30.

Definition probe_packet (token : PunchToken) (padding : list Z) : list Z := PROBE_MAGIC ++ token ++ padding.

Definition is_probe (data : list Z) : bool := starts_with data PROBE_MAGIC.

Definition is_probe_with_token (data : list Z) (token : PunchToken) : bool :=
  let expected := length PROBE_MAGIC in
  (expected + PROBE_TOKEN_LEN <=? length data)%nat && starts_with data PROBE_MAGIC &&
  bool_decide (take PROBE_TOKEN_LEN (drop expected data) = token).

(** [recv_from] gives a datagram, cut to the buffer, or fails; or the interval ends. *)
Inductive event : Type :=
  | Datagram (data : list Z) (from : SocketAddr)
  | Failure (kind : udp_error)
  | Elapsed
with udp_error : Type :=
  | ConnectionReset
  | ConnectionRefused
  | NotConnected
  | OtherError (kind : io_kind).

Definition BUFFER : nat := Z.to_nat 2048.
#[local] Opaque BUFFER.

Definition is_transient_udp_error (e : udp_error) : bool :=
  match e with
  | ConnectionReset | ConnectionRefused | NotConnected => true
  | OtherError _ => false
  end.

(** How one wait goes on. *)
Inductive verdict : Type := Found (from : SocketAddr) | Broken (kind : io_kind) | Wait | Round.

Definition receive (family : AddressFamily) (token : PunchToken) (e : event) : verdict :=
  match e with
  | Datagram bytes from =>
      let data := take BUFFER bytes in
      if negb (accepts family from) then Wait
      else if negb (is_probe data) then Wait
      else if negb (is_probe_with_token data token) then Wait
      else Found from
  | Failure kind => if is_transient_udp_error kind then Wait else match kind with OtherError k => Broken k | _ => Wait end
  | Elapsed => Round
  end.

(** The inner loop: what it returns, or the events that are left. *)
Fixpoint listen (family : AddressFamily) (token : PunchToken) (events : list event) : option (result SocketAddr + list event) :=
  match events with
  | [] => None
  | e :: events =>
      match receive family token e with
      | Found from => Some (inl (Ok from))
      | Broken k => Some (inl (Err (Io k)))
      | Wait => listen family token events
      | Round => Some (inr events)
      end
  end.

(** The outer loop; [None] when the events end while it waits. *)
Fixpoint open_rounds (n : nat) (family : AddressFamily) (candidates : list SocketAddr) (token : PunchToken) (probe : list Z)
    (events : list event) : option (result SocketAddr) * list (list Z * SocketAddr) :=
  match n with
  | O => (Some (Err (Transport "no answer with the right token")), [])
  | S n =>
      let sent := map (pair probe) candidates in
      match listen family token events with
      | None => (None, sent)
      | Some (inl r) => (Some r, sent)
      | Some (inr rest) =>
          let '(r, more) := open_rounds n family candidates token probe rest in (r, sent ++ more)
      end
  end.

Definition simultaneous_open_any (local : result SocketAddr) (candidates : list SocketAddr) (token : PunchToken)
    (config : PunchConfig) (padding : list Z) (events : list event) : option (result SocketAddr) * list (list Z * SocketAddr) :=
  if bool_decide (candidates = []) then (Some (Err (Transport "no candidate address")), [])
  else match local with
  | Err e => (Some (Err e), [])
  | Panic => (Some Panic, [])
  | Ok local =>
      let family := family_of local in
      if existsb (fun c => negb (accepts family c)) candidates then (Some (Err (Transport "candidate/socket family mismatch")), [])
      else open_rounds (Z.to_nat (attempts config)) family candidates token (probe_packet token padding) events
  end.

Definition simultaneous_open (local : result SocketAddr) (remote : SocketAddr) (token : PunchToken)
    (config : PunchConfig) (padding : list Z) (events : list event) : option (result SocketAddr) * list (list Z * SocketAddr) :=
  simultaneous_open_any local [remote] token config padding events.

(** What the keepalive loop selects: a tick, with what sending gives, or a change of
    the shutdown flag, [None] when its sender is gone. *)
Inductive signal : Type := Tick (sent : result unit) | Changed (value : option bool).

Fixpoint keepalive_loop (remote : SocketAddr) (probe : list Z) (signals : list signal) : option (result unit) * list (list Z * SocketAddr) :=
  match signals with
  | [] => (None, [])
  | Tick (Ok _) :: signals => let '(r, more) := keepalive_loop remote probe signals in (r, (probe, remote) :: more)
  | Tick (Err e) :: _ => (Some (Err e), [(probe, remote)])
  | Tick Panic :: _ => (Some Panic, [(probe, remote)])
  | Changed (Some false) :: signals => keepalive_loop remote probe signals
  | Changed _ :: _ => (Some (Ok tt), [])
  end.

(** ** The packet *)

Lemma probe_token token token' padding rest : token_ok token -> token_ok token' ->
  is_probe_with_token (take BUFFER (probe_packet token' padding ++ rest)) token = bool_decide (token' = token).
Proof.
  unfold token_ok, probe_packet. intros Ht Ht'. rewrite <- !app_assoc, take_app, (take_ge PROBE_MAGIC) by (by apply Nat.leb_le; vm_compute).
  rewrite take_app, (take_ge token') by (rewrite Ht'; by apply Nat.leb_le; vm_compute). unfold is_probe_with_token.
  rewrite starts_with_app, drop_app_length, <- Ht', take_app_length, !length_app.
  rewrite (proj2 (Nat.leb_le _ _)) by lia. done.
Qed.

Lemma token_probe data token : token_ok token -> is_probe_with_token data token = true <->
  exists rest, data = PROBE_MAGIC ++ token ++ rest.
Proof.
  unfold is_probe_with_token. intros Ht. rewrite !andb_true_iff, Nat.leb_le, bool_decide_eq_true. split.
  - intros [[Hl Hs%starts_with_inv] E]. exists (drop PROBE_TOKEN_LEN (drop (length PROBE_MAGIC) data)).
    by rewrite <- E, take_drop.
  - intros [rest ->]. rewrite starts_with_app, drop_app_length, <- Ht, take_app_length, !length_app. repeat split; unfold token_ok in Ht; lia.
Qed.

(** ** The loop against a specification *)

(** The datagram is one the loop accepts. *)
Definition genuine (family : AddressFamily) (token : PunchToken) (e : event) (from : SocketAddr) : Prop :=
  exists bytes rest, e = Datagram bytes from /\ accepts family from = true /\ take BUFFER bytes = PROBE_MAGIC ++ token ++ rest.
(** An event that ends the wait. *)
Definition decisive (family : AddressFamily) (token : PunchToken) (e : event) : Prop :=
  (exists from, genuine family token e from) \/ exists k, e = Failure (OtherError k).

Definition rounds (events : list event) : nat := length (List.filter (fun e => match e with Elapsed => true | _ => false end) events).

Lemma receive_found family token e from : token_ok token -> receive family token e = Found from <-> genuine family token e from.
Proof.
  intros Ht. unfold genuine. destruct e as [bytes a|k|]; cbn [receive].
  2: { split; [by destruct k|by intros (? & ? & ? & _)]. }
  2: { split; [done|by intros (? & ? & ? & _)]. }
  pose proof (token_probe (take BUFFER bytes) token Ht) as Hp. unfold is_probe. split.
  - destruct (accepts family a) eqn:Ea; [|done]. destruct (starts_with _ _); [|done]. destruct (is_probe_with_token _ _); [|done].
    intros [= <-]. destruct (proj1 Hp eq_refl) as [rest E]. by exists bytes, rest.
  - intros (b & rest & [= <- <-] & Ha & E). rewrite Ha. cbn [negb]. rewrite E at 1. rewrite starts_with_app. cbn [negb].
    rewrite (proj2 Hp); [done|by exists rest].
Qed.

Lemma receive_broken family token e k : receive family token e = Broken k <-> e = Failure (OtherError k).
Proof.
  destruct e as [bytes a|x|]; cbn [receive]; [|split; [destruct x; cbn; congruence|by intros [= ->]]|done].
  split; [|done]. by repeat case_match.
Qed.

Lemma receive_round family token e : receive family token e = Round <-> e = Elapsed.
Proof.
  destruct e as [bytes a|x|]; cbn [receive]; [|split; [by destruct x|done]|done]. split; [|done]. by repeat case_match.
Qed.

Lemma receive_idle family token e : token_ok token -> receive family token e = Wait \/ receive family token e = Round <-> ~ decisive family token e.
Proof.
  intros Ht. unfold decisive. split.
  - intros E [[from Hf%(receive_found _ _ _ _ Ht)]|[k Hk%(receive_broken family token)]]; rewrite ?Hf, ?Hk in E; by destruct E.
  - intros Hd. destruct (receive family token e) as [from|k| |] eqn:E; [| |by left|by right]; destruct Hd.
    + left. exists from. by apply receive_found.
    + right. exists k. by apply (receive_broken family token).
Qed.

(** What the events say: the first that matters decides, unless the rounds end first. *)
Inductive outcome_of (n : nat) (family : AddressFamily) (token : PunchToken) (events : list event) : option (result SocketAddr) -> nat -> Prop :=
  | met before e after from : events = before ++ e :: after -> Forall (fun e => ~ decisive family token e) before ->
      (rounds before < n)%nat -> genuine family token e from -> outcome_of n family token events (Some (Ok from)) (S (rounds before))
  | broke before k after : events = before ++ Failure (OtherError k) :: after -> Forall (fun e => ~ decisive family token e) before ->
      (rounds before < n)%nat -> outcome_of n family token events (Some (Err (Io k))) (S (rounds before))
  | gave_up before after : events = before ++ after -> Forall (fun e => ~ decisive family token e) before ->
      rounds before = n -> outcome_of n family token events (Some (Err (Transport "no answer with the right token"))) n
  | waits : Forall (fun e => ~ decisive family token e) events -> (rounds events < n)%nat ->
      outcome_of n family token events None (S (rounds events)).

Lemma outcome_wait n family token e events r m : ~ decisive family token e -> e <> Elapsed -> outcome_of (S n) family token events r m ->
  outcome_of (S n) family token (e :: events) r m.
Proof.
  intros He Hne Ho. assert (forall l, rounds (e :: l) = rounds l) as Hr by (intros l; unfold rounds; by destruct e).
  inversion Ho as [before e' after from -> Hb Hn Hg|before k after -> Hb Hn|before after -> Hb Hn|Hb Hn]; subst.
  - rewrite <- Hr. eapply met; [by rewrite app_comm_cons|by constructor|by rewrite Hr|done].
  - rewrite <- Hr. eapply broke; [by rewrite app_comm_cons|by constructor|by rewrite Hr].
  - eapply gave_up; [by rewrite app_comm_cons|by constructor|by rewrite Hr].
  - rewrite <- Hr. apply waits; [by constructor|by rewrite Hr].
Qed.

Lemma outcome_round n family token events r m : outcome_of n family token events r m ->
  outcome_of (S n) family token (Elapsed :: events) r (S m).
Proof.
  intros Ho. assert (~ decisive family token Elapsed) as Hd by (intros [(f & b & rest & ? & _)|[k ?]]; done).
  assert (forall l, rounds (Elapsed :: l) = S (rounds l)) as Hr by done.
  inversion Ho as [before e' after from -> Hb Hn Hg|before k after -> Hb Hn|before after -> Hb Hn|Hb Hn]; subst.
  - rewrite <- Hr. eapply met; [by rewrite app_comm_cons|by constructor|rewrite Hr; lia|done].
  - rewrite <- Hr. eapply broke; [by rewrite app_comm_cons|by constructor|rewrite Hr; lia].
  - eapply gave_up; [by rewrite app_comm_cons|by constructor|by rewrite Hr].
  - rewrite <- Hr. apply waits; [by constructor|rewrite Hr; lia].
Qed.

(** The rounds follow the specification, and each sends the probe to every candidate. *)
Lemma open_rounds_spec n family candidates token probe events : token_ok token ->
  exists m, outcome_of n family token events (open_rounds n family candidates token probe events).1 m /\
    (open_rounds n family candidates token probe events).2 = concat (List.repeat (map (pair probe) candidates) m).
Proof.
  intros Ht. revert events. induction n as [|n IH]; intros events; cbn [open_rounds].
  { exists 0%nat. split; [|done]. by apply (gave_up _ _ _ _ [] events). }
  induction events as [|e events IHe]; cbn [listen].
  { exists 1%nat. cbn. rewrite app_nil_r. split; [|done]. apply waits; [constructor|cbn; lia]. }
  destruct (receive family token e) as [from|k| |] eqn:E; cbn [fst snd].
  - apply (receive_found _ _ _ _ Ht) in E. exists 1%nat. cbn. rewrite app_nil_r. split; [|done]. by eapply (met _ _ _ _ [] e); [..|cbn; lia|].
  - apply receive_broken in E as ->. exists 1%nat. cbn. rewrite app_nil_r. split; [|done]. by eapply (broke _ _ _ _ [] k); [..|cbn; lia].
  - destruct IHe as (m & Ho & Hs). exists m. split; [|exact Hs]. apply outcome_wait; [apply (receive_idle family token e Ht); by left|by intros ->|exact Ho].
  - apply receive_round in E as ->. destruct (IH events) as (m & Ho & Hs).
    destruct (open_rounds n family candidates token probe events) as [r more]. exists (S m). cbn in *. split; [by apply outcome_round|by rewrite Hs].
Qed.

Lemma open_any_runs local candidates token config padding events : candidates <> [] ->
  Forall (fun c => accepts (family_of local) c = true) candidates ->
  simultaneous_open_any (Ok local) candidates token config padding events =
  open_rounds (Z.to_nat (attempts config)) (family_of local) candidates token (probe_packet token padding) events.
Proof.
  intros Hne Ha. unfold simultaneous_open_any. rewrite bool_decide_eq_false_2 by done.
  replace (existsb _ _) with false; [done|]. symmetry. induction Ha as [|c l Hc _ IH]; [done|]. cbn. rewrite Hc. cbn.
  destruct l; [done|]. by apply IH.
Qed.

(** ** One outcome *)

Lemma split_cases {A} (before after : list A) x l1 l2 : before ++ x :: after = l1 ++ l2 ->
  (exists rest, before = l1 ++ rest /\ l2 = rest ++ x :: after) \/ x ∈ l1.
Proof.
  revert before. induction l1 as [|a l1 IH]; intros [|b before]; cbn; intros E; [left; by exists []|left; by exists (b :: before)|..].
  - injection E as -> _. right. by left.
  - injection E as -> E. destruct (IH _ E) as [(rest & -> & ->)|Hin]; [left; by exists rest|right; by right].
Qed.

Lemma rounds_app l1 l2 : rounds (l1 ++ l2) = (rounds l1 + rounds l2)%nat.
Proof. unfold rounds. by rewrite List.filter_app, length_app. Qed.

(** Two ways to see the first event that matters are one. *)
Lemma first_decisive family token l1 e1 r1 l2 e2 r2 : l1 ++ e1 :: r1 = l2 ++ e2 :: r2 -> decisive family token e1 -> decisive family token e2 ->
  Forall (fun e => ~ decisive family token e) l1 -> Forall (fun e => ~ decisive family token e) l2 -> l1 = l2 /\ e1 = e2.
Proof.
  intros E D1 D2 F1 F2. rewrite Forall_forall in F1, F2.
  destruct (split_cases _ _ _ _ _ E) as [([|x rest] & -> & E2)|Hin]; [|..|by destruct (F2 _ Hin)].
  - injection E2 as -> _. by rewrite app_nil_r.
  - injection E2 as -> _. destruct (F1 x); [|done]. rewrite elem_of_app. right. by left.
Qed.

Lemma undecided_prefix family token l1 e r1 l2 r2 : l1 ++ e :: r1 = l2 ++ r2 -> decisive family token e ->
  Forall (fun e => ~ decisive family token e) l2 -> (rounds l2 <= rounds l1)%nat.
Proof.
  intros E D F. rewrite Forall_forall in F. destruct (split_cases _ _ _ _ _ E) as [(rest & -> & _)|Hin]; [|by destruct (F _ Hin)].
  rewrite rounds_app. lia.
Qed.

Lemma prefix_rounds (l1 r1 l2 r2 : list event) n : l1 ++ r1 = l2 ++ r2 -> rounds l1 = n -> r2 = [] -> (n <= rounds l2)%nat.
Proof. intros E <- ->. rewrite app_nil_r in E. subst l2. rewrite rounds_app. lia. Qed.

(** The specification leaves no choice. *)
Lemma outcome_unique n family token events r m r' m' : outcome_of n family token events r m -> outcome_of n family token events r' m' -> r' = r /\ m' = m.
Proof.
  assert (forall e from, genuine family token e from -> decisive family token e) as Dg by (intros e from ?; left; by exists from).
  assert (forall k, decisive family token (Failure (OtherError k))) as Dk by (intros k; right; by exists k).
  intros [b1 e1 a1 f1 E1 F1 N1 G1|b1 k1 a1 E1 F1 N1|b1 a1 E1 F1 N1|F1 N1] [b2 e2 a2 f2 E2 F2 N2 G2|b2 k2 a2 E2 F2 N2|b2 a2 E2 F2 N2|F2 N2].
  - rewrite E1 in E2. destruct (first_decisive _ _ _ _ _ _ _ _ E2 (Dg _ _ G1) (Dg _ _ G2) F1 F2) as [<- <-].
    destruct G1 as (x & rest & -> & _), G2 as (x' & rest' & [= -> ->] & _). done.
  - rewrite E1 in E2. destruct (first_decisive _ _ _ _ _ _ _ _ E2 (Dg _ _ G1) (Dk _) F1 F2) as [_ ->]. by destruct G1 as (? & ? & ? & _).
  - rewrite E1 in E2. pose proof (undecided_prefix _ _ _ _ _ _ _ E2 (Dg _ _ G1) F2). lia.
  - subst events. apply Forall_app in F2 as [_ [F2 _]%Forall_cons]. by destruct F2; eapply Dg.
  - rewrite E1 in E2. destruct (first_decisive _ _ _ _ _ _ _ _ E2 (Dk _) (Dg _ _ G2) F1 F2) as [_ <-]. by destruct G2 as (? & ? & ? & _).
  - rewrite E1 in E2. by destruct (first_decisive _ _ _ _ _ _ _ _ E2 (Dk _) (Dk _) F1 F2) as [<- [= <-]].
  - rewrite E1 in E2. pose proof (undecided_prefix _ _ _ _ _ _ _ E2 (Dk _) F2). lia.
  - subst events. apply Forall_app in F2 as [_ [F2 _]%Forall_cons]. by destruct F2.
  - rewrite E2 in E1. pose proof (undecided_prefix _ _ _ _ _ _ _ E1 (Dg _ _ G2) F1). lia.
  - rewrite E2 in E1. pose proof (undecided_prefix _ _ _ _ _ _ _ E1 (Dk _) F1). lia.
  - done.
  - subst events. rewrite rounds_app in N2. lia.
  - subst events. apply Forall_app in F1 as [_ [F1 _]%Forall_cons]. by destruct F1; eapply Dg.
  - subst events. apply Forall_app in F1 as [_ [F1 _]%Forall_cons]. by destruct F1.
  - subst events. rewrite rounds_app in N1. lia.
  - done.
Qed.

(** C34: Punching is decided by the first event that matters, in every case. Without
    candidates, without a local address, or with a candidate of the other family, it fails
    at once and sends nothing. Else it returns an address exactly when, before
    [attempts] intervals have gone by, a datagram with the token comes from an address of
    the socket's family and nothing broke earlier; it fails exactly when the socket breaks
    first or all intervals go by; it still waits only when nothing has decided it and
    fewer intervals have gone by. In every round it entered, and no other, it sent the
    probe with the token to every candidate once, in their order. *)
Theorem punch_decided (local : result SocketAddr) (candidates : list SocketAddr) (token : PunchToken) (config : PunchConfig)
    (padding : list Z) (events : list event) : token_ok token ->
  let '(r, sent) := simultaneous_open_any local candidates token config padding events in
  (candidates = [] -> r = Some (Err (Transport "no candidate address")) /\ sent = []) /\
  (candidates <> [] -> match local with
   | Err e => r = Some (Err e) /\ sent = []
   | Panic => r = Some Panic /\ sent = []
   | Ok local =>
       (~ Forall (fun c => accepts (family_of local) c = true) candidates ->
          r = Some (Err (Transport "candidate/socket family mismatch")) /\ sent = []) /\
       (Forall (fun c => accepts (family_of local) c = true) candidates -> exists m,
          (forall r' m', outcome_of (Z.to_nat (attempts config)) (family_of local) token events r' m' <-> r' = r /\ m' = m) /\
          sent = concat (List.repeat (map (pair (PROBE_MAGIC ++ token ++ padding)) candidates) m))
   end).
Proof.
  intros Ht. destruct (decide (candidates = [])) as [->|Hne]; [done|]. destruct local as [local|e|];
    [|unfold simultaneous_open_any; rewrite bool_decide_eq_false_2 by done; done..].
  destruct (decide (Forall (fun c => accepts (family_of local) c = true) candidates)) as [Ha|Ha].
  - rewrite open_any_runs by done.
    destruct (open_rounds_spec (Z.to_nat (attempts config)) (family_of local) candidates token (probe_packet token padding) events Ht) as (m & Ho & Hs).
    destruct (open_rounds _ _ _ _ _ _) as [r sent]. cbn [fst snd] in *. split; [done|]. intros _. split; [done|]. intros _. exists m.
    split; [|done]. intros r' m'. split; [by apply outcome_unique|by intros [-> ->]].
  - unfold simultaneous_open_any. rewrite bool_decide_eq_false_2 by done.
    assert (existsb (fun c => negb (accepts (family_of local) c)) candidates = true) as ->; [|done].
    apply existsb_exists. apply not_Forall_Exists in Ha; [|intros c; apply _]. apply Exists_exists in Ha as (c & Hc & E).
    exists c. split; [by apply list_elem_of_In|]. apply negb_true_iff, not_true_is_false, E.
Qed.

(** ** Two sides *)

(** What a network may show to one side: anything of strangers that do not know the
    token, and the packets the other side sent, from the address [public] its NAT gave
    them and with anything appended. *)
Definition plausible (token : PunchToken) (public : SocketAddr) (sent : list (list Z)) (e : event) : Prop :=
  match e with
  | Datagram bytes from => (from = public /\ exists packet rest, packet ∈ sent /\ bytes = packet ++ rest) \/
      is_probe_with_token (take BUFFER bytes) token = false
  | Failure kind => is_transient_udp_error kind = true
  | Elapsed => True
  end.

Lemma plausible_decisive token family public sent e : token_ok token -> plausible token public sent e ->
  decisive family token e <-> exists bytes, e = Datagram bytes public /\ accepts family public = true /\
     is_probe_with_token (take BUFFER bytes) token = true.
Proof.
  intros Ht Hp. unfold decisive, genuine. setoid_rewrite (token_probe _ _ Ht). split.
  - intros [(from & bytes & rest & -> & Ha & E)|[k ->]]; [|done]. destruct Hp as [[-> _]|Hp].
    + exists bytes. eauto.
    + exfalso. assert (is_probe_with_token (take BUFFER bytes) token = true) by (apply token_probe; eauto). congruence.
  - intros (bytes & -> & Ha & rest & E). left. exists public, bytes, rest. done.
Qed.

(** Two ends meet. Of a side that shares the token with its peer and sees only what
    strangers without the token and the peer send, every address it returns is the one
    the peer's packets come from, announced or not; it never breaks; and it returns
    that address when a packet of the peer arrives before the attempts are over. *)
Theorem punch_meets (local public : SocketAddr) (candidates : list SocketAddr) (token : PunchToken) (config : PunchConfig)
    (padding : list Z) (sent : list (list Z)) (events : list event) : token_ok token -> candidates <> [] ->
  Forall (fun c => accepts (family_of local) c = true) candidates -> accepts (family_of local) public = true ->
  Forall (plausible token public sent) events ->
  let r := (simultaneous_open_any (Ok local) candidates token config padding events).1 in
  (forall from, r = Some (Ok from) -> from = public) /\
  (forall k, r <> Some (Err (Io k))) /\
  forall before packet rest after, events = before ++ Datagram (packet ++ rest) public :: after ->
    (exists padding', packet = probe_packet token padding') -> (rounds before < Z.to_nat (attempts config))%nat -> r = Some (Ok public).
Proof.
  intros Ht Hne Ha Hpub Hp. cbv zeta. rewrite open_any_runs by done.
  destruct (open_rounds_spec (Z.to_nat (attempts config)) (family_of local) candidates token (probe_packet token padding) events Ht) as (m & Ho & _).
  assert (forall e from, e ∈ events -> genuine (family_of local) token e from -> from = public) as Hg.
  { intros e from He Hg. rewrite Forall_forall in Hp. assert (decisive (family_of local) token e) as Hd by (left; by exists from).
    apply (plausible_decisive _ _ _ _ _ Ht (Hp _ He)) in Hd as (b & -> & _). by destruct Hg as (b' & rest & [= -> ->] & _). }
  assert (forall k, Failure (OtherError k) ∉ events) as Hk.
  { intros k Hk. rewrite Forall_forall in Hp. by specialize (Hp _ Hk). }
  split; [|split].
  - intros from E. rewrite E in Ho. inversion Ho as [before e after f Ev Hb Hn Hgen| | |]; subst. apply (Hg e); [|done].
    rewrite elem_of_app. right. by left.
  - intros k E. rewrite E in Ho. inversion Ho as [|before k' after Ev Hb Hn| |]; subst. apply (Hk k). rewrite elem_of_app. right. by left.
  - intros before packet rest after Ev [padding' ->] Hn.
    assert (decisive (family_of local) token (Datagram (probe_packet token padding' ++ rest) public)) as Hd.
    { left. exists public. apply receive_found; [done|]. cbn [receive]. rewrite Hpub. cbn [negb].
      assert (is_probe_with_token (take BUFFER (probe_packet token padding' ++ rest)) token = true) as E
        by (by rewrite probe_token, bool_decide_eq_true_2).
      rewrite E. apply token_probe in E as [r ->]; [|done]. unfold is_probe. by rewrite starts_with_app. }
    assert (forall l1 l2, events = l1 ++ l2 -> Forall (fun e => ~ decisive (family_of local) token e) l1 ->
      exists mid, before = l1 ++ mid /\ l2 = mid ++ Datagram (probe_packet token padding' ++ rest) public :: after) as Hs.
    { intros l1 l2 E Hl. rewrite Ev in E. destruct (split_cases _ _ _ _ _ E) as [Hc|Hc]; [done|].
      rewrite Forall_forall in Hl. by destruct (Hl _ Hc). }
    inversion Ho as [b e a from Eb Hb Hn' Hgen Hr|b k a Eb Hb Hn' Hr|b a Eb Hb Hn' Hr|Hb Hn' Hr].
    + do 2 f_equal. apply (Hg e); [|done]. rewrite Eb, elem_of_app. right. by left.
    + exfalso. apply (Hk k). rewrite Eb, elem_of_app. right. by left.
    + exfalso. destruct (Hs _ _ Eb Hb) as (mid & -> & _). rewrite rounds_app in Hn. lia.
    + exfalso. rewrite Forall_forall in Hb. apply (Hb (Datagram (probe_packet token padding' ++ rest) public)); [|done].
      rewrite Ev, elem_of_app. right. by left.
Qed.

(** ** The keepalive loop *)

(** It sends to the peer alone, once for every tick before it stops, and stops without
    an error only when it is told to or nobody can tell it any more. *)
Lemma keepalive_stops remote probe signals r sent : keepalive_loop remote probe signals = (Some r, sent) ->
  sent = List.repeat (probe, remote) (length sent) /\
  (r = Ok tt -> exists v, v <> Some false /\ Changed v ∈ signals).
Proof.
  revert r sent. induction signals as [|x signals IH]; intros r sent; [done|]. destruct x as [[u|e|]|[[]|]]; cbn.
  - destruct (keepalive_loop remote probe signals) as [[r'|] more] eqn:E; [|done]. intros [= <- <-]. destruct (IH _ _ eq_refl) as [-> Hr].
    cbn. rewrite repeat_length. split; [done|]. intros Hok. destruct (Hr Hok) as (v & Hv & Hin). exists v. split; [done|by right].
  - intros [= <- <-]. done.
  - intros [= <- <-]. done.
  - intros [= <- <-]. split; [done|]. intros _. exists (Some true). split; [done|by left].
  - intros E. destruct (IH _ _ E) as [Hs Hr]. split; [done|]. intros Hok. destruct (Hr Hok) as (v & Hv & Hin). exists v. split; [done|by right].
  - intros [= <- <-]. split; [done|]. intros _. exists None. split; [done|by left].
Qed.

(** ** A peer behind a NAT that changes ports *)

Definition secret : PunchToken := List.repeat 66 16.
Definition here : SocketAddr := V4 3232235777 40000.
Definition announced : SocketAddr := V4 3405803777 5000.
Definition actual : SocketAddr := V4 3405803777 5001.
Definition packet : list Z := probe_packet secret (List.repeat 9 16).
(** A stranger's probe, a reset, a silent round, then the peer from another port. *)
Definition night : list event :=
  [Datagram (probe_packet (List.repeat 1 16) []) announced; Failure ConnectionReset; Elapsed; Datagram (packet ++ []) actual].

Lemma punch_decided_witness : exists m, outcome_of 30 Ipv4 secret night (Some (Ok actual)) m /\
  concat (List.repeat [(packet, announced)] 2) = concat (List.repeat [(packet, announced)] m).
Proof.
  pose proof (punch_decided (Ok here) [announced] secret default_config (List.repeat 9 16) night eq_refl) as H.
  assert (simultaneous_open_any (Ok here) [announced] secret default_config (List.repeat 9 16) night =
    (Some (Ok actual), [(packet, announced); (packet, announced)])) as E by (vm_compute; reflexivity). rewrite E in H.
  destruct H as [_ H]. destruct (H ltac:(discriminate)) as [_ Hm]. destruct (Hm ltac:(repeat constructor)) as (m & Ho & Hs).
  exists m. split; [by apply Ho|exact Hs].
Defined.

Lemma punch_meets_witness : (simultaneous_open_any (Ok here) [announced] secret default_config [] night).1 = Some (Ok actual).
Proof.
  refine (proj2 (proj2 (punch_meets here actual [announced] secret default_config [] [packet] night eq_refl _ _ eq_refl _)) _ _ _ _ _ _ _).
  - done.
  - by repeat constructor.
  - constructor; [right; vm_compute; reflexivity|]. constructor; [done|]. constructor; [done|]. constructor; [|constructor].
    left. split; [done|]. exists packet, []. split; [by left|done].
  - exact (eq_refl : night = take 3 night ++ Datagram (packet ++ []) actual :: []).
  - by exists (List.repeat 9 16).
  - apply Nat.ltb_lt. vm_compute. reflexivity.
Defined.

End Punch.
