(* ===== verification/RelayWire.v ===== *)
(** * Relay control packets (src/relay/wire.rs)

    The admission packets of the UDP relay, their envelope, and the payload a
    node signs to bind its socket. *)
From Stdlib Require Import ZArith Lia.
From stdpp Require Import prelude gmap strings.
From S2P Require Import Prelude Manifest Postcard Message State FileSystem Identity Addr.

#[local] Open Scope Z_scope.

Module RelayWire.
Import Addr.

Definition MAGIC : list Z := 0 :: lit "P2PF-RELAY/1".
Definition VERSION : Z := 1.
Definition MAX_CONTROL : Z := 512.
Definition BIND_DOMAIN : list Z := lit "p2p_file/relay-bind/v1" ++ [0].

(** [PunchToken] and nonces are byte strings. *)
Record Hello : Type := mk_hello {
  token : list Z;
  node : NodeId;
  peer : NodeId;
  public_key : list Z;
  client_nonce : list Z;
}.
#[global] Instance Hello_eq_dec : EqDecision Hello.
Proof. solve_decision. Defined.

Record Challenge : Type := mk_challenge {
  hello : Hello;
  nonce : list Z;
  source : SocketAddr;
}.
#[global] Instance Challenge_eq_dec : EqDecision Challenge.
Proof. solve_decision. Defined.

Inductive Packet : Type :=
  | PHello (h : Hello)
  | PChallenge (client_nonce nonce : list Z) (source : SocketAddr)
  | PRegister (challenge : Challenge) (signature_a signature_b : list Z)
  | PReady (token : list Z) (node : NodeId) (client_nonce : list Z).
#[global] Instance Packet_eq_dec : EqDecision Packet.
Proof. solve_decision. Defined.

Record Envelope : Type := mk_envelope { version : Z; packet : Packet }.

Definition encode `{Postcard Envelope} (p : Packet) : result (list Z) :=
  let? body := to_allocvec (mk_envelope VERSION p) in
  let bytes := MAGIC ++ body in
  if MAX_CONTROL <? Z.of_nat (length bytes) then Err (Protocol "relay control packet too large")
  else Ok bytes.

Definition decode `{Postcard Envelope} (bytes : list Z) : result Packet :=
  if (MAX_CONTROL <? Z.of_nat (length bytes)) || negb (starts_with bytes MAGIC) then
    Err (Protocol "invalid relay control envelope")
  else
    let? parsed := take_from_bytes (drop (length MAGIC) bytes) in
    let '(envelope, remaining) := parsed in
    if negb (version envelope =? VERSION) || negb (bool_decide (remaining = [])) then
      Err (Protocol "unsupported or trailing relay control data")
    else Ok (packet envelope).

Definition bind_payload `{Postcard Challenge} (challenge : Challenge) : result (list Z) :=
  let? body := to_allocvec challenge in
  Ok (BIND_DOMAIN ++ be_bytes 4 VERSION ++ body).

Definition new_hello `{Ed25519} `{Blake3} (identity : Identity.Identity) (peer : NodeId)
    (token client_nonce : list Z) : Hello :=
  mk_hello token (Identity.node_id identity) peer (Identity.public_key_bytes identity) client_nonce.

Definition register `{Ed25519} `{Postcard Challenge} (identity : Identity.Identity)
    (challenge : Challenge) : result Packet :=
  let? payload := bind_payload challenge in
  let signature := Identity.sign identity payload in
  Ok (PRegister challenge (take 32 signature) (drop 32 signature)).

(** ** Facts *)

(** Two challenges with the same payload are the same challenge. *)
Lemma bind_payload_inj `{PostcardLaws Challenge} c1 c2 p :
  bind_payload c1 = Ok p -> bind_payload c2 = Ok p -> c1 = c2.
Proof.
  unfold bind_payload. destruct (to_allocvec c1) as [b1|e|] eqn:E1, (to_allocvec c2) as [b2|e'|] eqn:E2;
    cbn; try done. intros [= <-] [= E]. apply from_to_allocvec in E1, E2. congruence.
Qed.

Lemma relay_decode_encode `{PostcardLaws Envelope} p bytes : encode p = Ok bytes -> decode bytes = Ok p.
Proof.
  unfold encode. destruct (to_allocvec (mk_envelope VERSION p)) as [body|e|] eqn:Ep; cbn [obind]; try done.
  destruct (Z.ltb_spec MAX_CONTROL (Z.of_nat (length (MAGIC ++ body)))) as [|Hl]; [done|].
  intros E. assert (bytes = MAGIC ++ body) as -> by congruence. unfold decode. rewrite starts_with_app.
  destruct (Z.ltb_spec MAX_CONTROL (Z.of_nat (length (MAGIC ++ body)))); [lia|].
  cbn [orb negb]. rewrite drop_app_length. rewrite <- (app_nil_r body).
  by rewrite (take_to_allocvec (mk_envelope VERSION p) body []).
Qed.

End RelayWire.
