(* ===== verification/Relay.v ===== *)
(** * The UDP relay (src/relay/server.rs)

    Admission (tickets, challenges, signed socket bindings) and the datagram
    forwarding decision.  The state behind the mutex is [State]; an operation is
    one critical section.  [Instant]s are milliseconds and are arguments, as are
    the random challenge nonces.  A side is a [bool]: [false] for index 0, [true]
    for index 1.  The listener loop of [run_listener] is [on_datagram]; sockets
    and the maintenance timer are not modelled. *)
From Stdlib Require Import ZArith Lia.
From stdpp Require Import prelude gmap strings.
From S2P Require Import Prelude Manifest Postcard Message State FileSystem Identity Addr RelayWire.

#[local] Open Scope Z_scope.

Module Relay.
Import Addr RelayWire.

Definition DEFAULT_TICKET_TTL : Z := 60.
Definition DEFAULT_IDLE_TIMEOUT : Z := 90.
Definition DEFAULT_MAX_SESSIONS : Z := 512.
Definition DEFAULT_PENDING_PER_IP : Z := 8.
Definition MAX_TICKETS_PER_PAIR : Z := 16.
Definition MAX_TICKETS_PER_NODE : Z := 64.
Definition MAX_SESSIONS_PER_PAIR : Z := 16.
Definition MAX_SESSIONS_PER_NODE : Z := 64.
Definition MAX_DATAGRAM : Z := 2048.
Definition CHALLENGE_TTL : Z := 5000.
Definition MAX_ARMS_PER_TICKET : Z := 4.

(** ** Configuration *)

Record RelayServerConfig : Type := mk_config {
  listen : list SocketAddr;
  ticket_ttl : Z;
  idle_timeout : Z;
  max_sessions : Z;
  max_pending_per_ip : Z;
}.

Definition default_config : RelayServerConfig :=
  mk_config [] (DEFAULT_TICKET_TTL * 1000) (DEFAULT_IDLE_TIMEOUT * 1000) DEFAULT_MAX_SESSIONS
    DEFAULT_PENDING_PER_IP.

(** The address test of [validate]. *)
Definition bad_listener (address : SocketAddr) : bool :=
  is_multicast (ip address) ||
  match address with
  | V4 b _ => is_broadcast b
  | V6 b _ flowinfo scope_id =>
      negb (scope_id =? 0) || negb (flowinfo =? 0) || is_unicast_link_local b ||
      negb (bool_decide (to_ipv4_mapped b = None))
  end.

Definition validate (c : RelayServerConfig) : result unit :=
  if existsb bad_listener (listen c) || (2 <? Z.of_nat (length (listen c))) ||
     match listen c with
     | [a; b] => bool_decide (family_of a = family_of b)
     | _ => false
     end ||
     (ticket_ttl c =? 0) || (idle_timeout c =? 0) ||
     (300 * 1000 <? ticket_ttl c) || (3600 * 1000 <? idle_timeout c) ||
     negb ((1 <=? max_sessions c) && (max_sessions c <=? 4096)) ||
     negb ((1 <=? max_pending_per_ip c) && (max_pending_per_ip c <=? 128))
  then Err (Discovery "invalid relay limits/listeners")
  else Ok tt.

(** ** State *)

Abbreviation Token := (list Z).
Abbreviation SessionKey := (list Z * Z)%type.
Abbreviation side_index := bool.

Record Ticket : Type := mk_ticket { nodes : NodeId * NodeId; expires : Z }.
Record Pending : Type := mk_pending {
  challenge : Challenge;
  issued : Z;
  p_session : SessionKey;
  side : side_index;
}.
Record Bound : Type := mk_bound { b_hello : Hello; b_source : SocketAddr }.
Record Session : Type := mk_session {
  sides : option Bound * option Bound;
  last_activity : Z;
}.

Definition side_of (s : Session) (i : side_index) : option Bound :=
  if i then (sides s).2 else (sides s).1.
Definition set_side (i : side_index) (b : Bound) (s : Session) : Session :=
  mk_session (if i then ((sides s).1, Some b) else (Some b, (sides s).2)) (last_activity s).
Definition touch (now : Z) (s : Session) : Session := mk_session (sides s) now.

(** [sides.iter().flatten()]. *)
Definition bounds (s : Session) : list Bound :=
  match sides s with
  | (Some a, Some b) => [a; b]
  | (Some a, None) => [a]
  | (None, Some b) => [b]
  | (None, None) => []
  end.

Definition ready (s : Session) : bool :=
  match sides s with
  | (Some _, Some _) => true
  | _ => false
  end.

Definition contains_node (s : Session) (n : NodeId) : bool :=
  existsb (fun b => bool_decide (node (b_hello b) = n) || bool_decide (peer (b_hello b) = n)) (bounds s).

Definition contains_pair (s : Session) (a b : NodeId) : bool :=
  existsb (fun x =>
    (bool_decide (node (b_hello x) = a) && bool_decide (peer (b_hello x) = b)) ||
    (bool_decide (node (b_hello x) = b) && bool_decide (peer (b_hello x) = a))) (bounds s).

Record State : Type := mk_state {
  config : RelayServerConfig;
  tickets : gmap Token Ticket;
  pending : gmap SocketAddr Pending;
  sessions : gmap SessionKey Session;
  sources : gmap SocketAddr (SessionKey * side_index);
}.

Definition new (c : RelayServerConfig) : result State :=
  let? _ := validate c in Ok (mk_state c ∅ ∅ ∅ ∅).

Definition ticket_has (n : NodeId) (t : Ticket) : bool :=
  bool_decide (fst (nodes t) = n) || bool_decide (snd (nodes t) = n).

(** ** Operations *)

(** [now.duration_since(then)]. *)
Definition since (now past : Z) : Z := saturating_sub now past.

Definition live_ticket (s : State) (now : Z) (token : Token) : bool :=
  match tickets s !! token with
  | Some t => now <? expires t
  | None => false
  end.

(** [State::cleanup]: the sessions are filtered against the tickets before those
    expire. *)
Definition cleanup (now : Z) (s : State) : State :=
  let kept_pending := filter (fun kv =>
    (since now (issued kv.2) <? CHALLENGE_TTL) && live_ticket s now (fst (p_session kv.2)) = true)
    (pending s) in
  let kept_sessions := filter (fun kv =>
    (since now (last_activity kv.2) <? idle_timeout (config s)) &&
    (ready kv.2 || live_ticket s now (fst kv.1)) = true) (sessions s) in
  let kept_sources := filter (fun kv => bool_decide (is_Some (kept_sessions !! kv.2.1)) = true)
    (sources s) in
  let kept_tickets := filter (fun kv => (now <? expires kv.2) = true) (tickets s) in
  mk_state (config s) kept_tickets kept_pending kept_sessions kept_sources.

(** [Admission::issue]; [now] and [later] are its two clock readings. *)
Definition issue (token : Token) (a b : NodeId) (now later : Z) (s : State) : bool * State :=
  let s := cleanup now s in
  let pair_limit := Z.min MAX_TICKETS_PER_PAIR (max_sessions (config s)) in
  let node_limit := Z.min MAX_TICKETS_PER_NODE (max_sessions (config s)) in
  if bool_decide (a = b) || bool_decide (is_Some (tickets s !! token)) ||
     (0 <? count (fun k _ => bool_decide (fst k = token)) (sessions s)) ||
     (max_sessions (config s) * 2 <=? Z.of_nat (size (tickets s))) ||
     (pair_limit <=? count (fun _ t => ticket_has a t && ticket_has b t) (tickets s)) ||
     existsb (fun n => node_limit <=? count (fun _ t => ticket_has n t) (tickets s)) [a; b]
  then (false, s)
  else
    (true, mk_state (config s) (<[token := mk_ticket (a, b) (later + ticket_ttl (config s))]> (tickets s))
             (pending s) (sessions s) (sources s)).

Section Crypto.
Context `{Blake3} {ed : Ed25519} {post : Postcard Challenge}.

(** The position of a node in its ticket. *)
Definition position (t : Ticket) (n : NodeId) : option side_index :=
  if bool_decide (fst (nodes t) = n) then Some false
  else if bool_decide (snd (nodes t) = n) then Some true
  else None.

Definition nth_node (t : Ticket) (i : side_index) : NodeId :=
  if i then snd (nodes t) else fst (nodes t).

Definition validate_hello (s : State) (h : Hello) (now : Z) : option side_index :=
  ticket ← tickets s !! token h;
  if (expires ticket <=? now) || bool_decide (node h = peer h) then None
  else if negb (key_parses (public_key h)) then None
  else if key_is_weak (public_key h) ||
          negb (bool_decide (Identity.from_public_key (public_key h) = node h)) then None
  else
    side ← position ticket (node h);
    if bool_decide (nth_node ticket (negb side) = peer h) then Some side else None.

Definition challenge_packet (c : Challenge) : Packet :=
  PChallenge (client_nonce (hello c)) (nonce c) (source c).

Definition ready_packets (s : State) (key : SessionKey) : list (SocketAddr * Packet) :=
  match sessions s !! key with
  | Some session =>
      if ready session then
        map (fun b => (b_source b, PReady (token (b_hello b)) (node (b_hello b))
                                     (client_nonce (b_hello b)))) (bounds session)
      else []
  | None => []
  end.

(** Does the arm [k] wait for the side [i] of [h]? *)
Definition waiting (h : Hello) (i : side_index) (k : SessionKey) (x : Session) : bool :=
  bool_decide (fst k = token h) && bool_decide (side_of x i = None) &&
  match side_of x (negb i) with
  | Some b => bool_decide (node (b_hello b) = peer h) && bool_decide (peer (b_hello b) = node h)
  | None => false
  end.

Fixpoint min_slot (l : list Z) : option Z :=
  match l with
  | [] => None
  | x :: l' =>
      match min_slot l' with
      | Some y => Some (Z.min x y)
      | None => Some x
      end
  end.

Definition available_arm (s : State) (h : Hello) (i : side_index) : option SessionKey :=
  match min_slot (map (fun kv => snd (fst kv))
          (map_to_list (filter (fun kv => waiting h i kv.1 kv.2 = true) (sessions s)))) with
  | Some slot => Some (token h, slot)
  | None =>
      let fair_limit := Z.max (max_sessions (config s) / 2) 1 in
      let pair_limit := Z.min MAX_SESSIONS_PER_PAIR fair_limit in
      let node_limit := Z.min MAX_SESSIONS_PER_NODE fair_limit in
      if (max_sessions (config s) <=? Z.of_nat (size (sessions s))) ||
         (pair_limit <=? count (fun _ x => contains_pair x (node h) (peer h)) (sessions s)) ||
         existsb (fun n => node_limit <=? count (fun _ x => contains_node x n) (sessions s))
           [node h; peer h]
      then None
      else List.find (fun key => bool_decide (sessions s !! key = None))
             (map (fun slot => (token h, slot)) [0; 1; 2; 3])
  end.

(** [State::hello]. *)
Definition on_hello (h : Hello) (src : SocketAddr) (family : AddressFamily) (now : Z)
    (fresh_nonce : list Z) (s : State) : list (SocketAddr * Packet) * State :=
  if negb (accepts family src) then ([], s)
  else
    match validate_hello s h now with
    | None => ([], s)
    | Some i =>
        match sources s !! src with
        | Some (bound_key, bound_side) =>
            let bound := session ← sessions s !! bound_key; side_of session bound_side in
            if bool_decide (fst bound_key = token h) && Bool.eqb bound_side i &&
               match bound with
               | Some b => bool_decide (b_hello b = h)
               | None => false
               end
            then (List.filter (fun r => bool_decide (fst r = src)) (ready_packets s bound_key), s)
            else ([], s)
        | None =>
            match pending s !! src with
            | Some p =>
                if bool_decide (fst (p_session p) = token h) && bool_decide (hello (challenge p) = h)
                then ([(src, challenge_packet (challenge p))], s)
                else ([], s)
            | None =>
                if (max_sessions (config s) * 2 <=? Z.of_nat (size (pending s))) ||
                   (max_pending_per_ip (config s) <=?
                      count (fun addr _ => bool_decide (ip addr = ip src)) (pending s)) ||
                   bool_decide (available_arm s h i = None)
                then ([], s)
                else
                  let c := mk_challenge h fresh_nonce src in
                  ([(src, challenge_packet c)],
                   mk_state (config s) (tickets s)
                     (<[src := mk_pending c now (token h, 0) i]> (pending s)) (sessions s) (sources s))
            end
        end
    end.

(** The signature check of [State::register]. *)
Definition signed (c : Challenge) (signature_a signature_b : list Z) : bool :=
  key_parses (public_key (hello c)) &&
  match bind_payload c with
  | Ok payload => verifies_strict (public_key (hello c)) payload (signature_a ++ signature_b)
  | _ => false
  end.

(** [State::register]. *)
Definition on_register (c : Challenge) (signature_a signature_b : list Z) (src : SocketAddr)
    (family : AddressFamily) (now : Z) (s : State) : list (SocketAddr * Packet) * State :=
  match pending s !! src with
  | None => ([], s)
  | Some p =>
      if negb (bool_decide (family_of src = family)) || negb (bool_decide (challenge p = c)) ||
         negb (bool_decide (source c = src)) || (CHALLENGE_TTL <=? since now (issued p)) ||
         negb (bool_decide (validate_hello s (hello c) now = Some (side p)))
      then ([], s)
      else if negb (signed c signature_a signature_b) then ([], s)
      else
        let s := mk_state (config s) (tickets s) (delete src (pending s)) (sessions s) (sources s) in
        if bool_decide (is_Some (sources s !! src)) then ([], s)
        else
          match available_arm s (hello c) (side p) with
          | None => ([], s)
          | Some arm =>
              let session := default (mk_session (None, None) now) (sessions s !! arm) in
              if bool_decide (is_Some (side_of session (side p))) then
                ([], mk_state (config s) (tickets s) (pending s) (<[arm := session]> (sessions s))
                       (sources s))
              else
                let session := touch now (set_side (side p) (mk_bound (hello c) src) session) in
                let s := mk_state (config s) (tickets s) (pending s) (<[arm := session]> (sessions s))
                           (<[src := (arm, side p)]> (sources s)) in
                (ready_packets s arm, s)
          end
  end.

(** [Admission::control]. *)
Definition control (p : Packet) (src : SocketAddr) (family : AddressFamily) (now : Z)
    (fresh_nonce : list Z) (s : State) : list (SocketAddr * Packet) * State :=
  let s := cleanup now s in
  match p with
  | PHello h => on_hello h src family now fresh_nonce s
  | PRegister c signature_a signature_b => on_register c signature_a signature_b src family now s
  | _ => ([], s)
  end.

(** [Admission::forward]. *)
Definition forward (src : SocketAddr) (family : AddressFamily) (now : Z) (s : State) :
    option SocketAddr * State :=
  match sources s !! src with
  | None => (None, s)
  | Some (key, i) =>
      if negb (bool_decide (family_of src = family)) then (None, s)
      else
        match sessions s !! key with
        | None => (None, s)
        | Some session =>
            if negb (ready session) || (idle_timeout (config s) <=? since now (last_activity session))
            then (None, s)
            else
              (b_source <$> side_of session (negb i),
               mk_state (config s) (tickets s) (pending s) (<[key := touch now session]> (sessions s))
                 (sources s))
        end
  end.

(** One datagram of [run_listener]: what is sent, to whom. A control reply that
    does not encode ends the listener. *)
Context {postenv : Postcard Envelope}.

Fixpoint control_replies (limit : Z) (senders : AddressFamily -> bool)
    (replies : list (SocketAddr * Packet)) : result (list (SocketAddr * list Z)) :=
  match replies with
  | [] => Ok []
  | (target, reply) :: rest =>
      let? bytes := encode reply in
      let? sent := control_replies limit senders rest in
      Ok (if (Z.of_nat (length bytes) <=? limit) && senders (family_of target)
          then (target, bytes) :: sent else sent)
  end.

Definition on_datagram (bytes : list Z) (src : SocketAddr) (family : AddressFamily) (now : Z)
    (fresh_nonce : list Z) (senders : AddressFamily -> bool) (s : State) :
    result (list (SocketAddr * list Z)) * State :=
  let length := Z.of_nat (length bytes) in
  if (length =? 0) || (MAX_DATAGRAM <? length) || negb (accepts family src) then (Ok [], s)
  else if starts_with bytes MAGIC then
    match decode bytes with
    | Ok p =>
        let '(replies, s) := control p src family now fresh_nonce s in
        (control_replies length senders replies, s)
    | Err _ => (Ok [], s)
    | Panic => (Panic, s)
    end
  else
    match forward src family now s with
    | (Some target, s) => (Ok (if senders (family_of target) then [(target, bytes)] else []), s)
    | (None, s) => (Ok [], s)
    end.

End Crypto.
End Relay.
