(* ===== verification/RelayProof.v ===== *)
(** * The relay: quotas, authenticated bindings, stable pairs

    The invariant of the relay state (Relay.v) and what it gives: datagrams only
    travel between two sockets whose owners signed for them and who named each
    other, and a paired arm never changes its ends. *)
From Stdlib Require Import ZArith Lia.
From stdpp Require Import prelude gmap strings fin_map_dom.
From S2P Require Import Prelude Manifest Postcard Message State FileSystem Identity Addr RelayWire Relay.

#[local] Open Scope Z_scope.

Module RelayProof.
Import Addr RelayWire Relay.

Section Crypto.
Context `{Blake3} {ed : Ed25519} {post : Postcard Challenge}.

(** ** The invariant *)

(** The owner of the key behind [node] signed for this socket. *)
Record bound_ok (key : SessionKey) (b : Bound) : Prop := {
  bound_token : token (b_hello b) = fst key;
  bound_distinct : node (b_hello b) <> peer (b_hello b);
  bound_id : Identity.from_public_key (public_key (b_hello b)) = node (b_hello b);
  bound_signed : exists nonce payload sig,
    bind_payload (mk_challenge (b_hello b) nonce (b_source b)) = Ok payload /\
    verifies_strict (public_key (b_hello b)) payload sig = true;
}.

Definition fair_limit (c : RelayServerConfig) : Z := Z.max (max_sessions c / 2) 1.

Record SessionsOk (s : State) : Prop := {
  ok_bound : forall key x i b, sessions s !! key = Some x -> side_of x i = Some b ->
    sources s !! b_source b = Some (key, i) /\ bound_ok key b;
  ok_source : forall src key i, sources s !! src = Some (key, i) ->
    exists x b, sessions s !! key = Some x /\ side_of x i = Some b /\ b_source b = src;
  ok_pair : forall key x a b, sessions s !! key = Some x ->
    side_of x false = Some a -> side_of x true = Some b ->
    node (b_hello a) = peer (b_hello b) /\ peer (b_hello a) = node (b_hello b);
  ok_slot : forall key x, sessions s !! key = Some x -> 0 <= snd key < MAX_ARMS_PER_TICKET;
}.

Record QuotasOk (s : State) : Prop := {
  ok_sessions : Z.of_nat (size (sessions s)) <= max_sessions (config s);
  ok_pair_arms : forall a b, count (fun _ x => contains_pair x a b) (sessions s) <=
    Z.min MAX_SESSIONS_PER_PAIR (fair_limit (config s));
  ok_node_arms : forall n, count (fun _ x => contains_node x n) (sessions s) <=
    Z.min MAX_SESSIONS_PER_NODE (fair_limit (config s));
}.

Record TicketsOk (s : State) : Prop := {
  ok_tickets : Z.of_nat (size (tickets s)) <= max_sessions (config s) * 2;
  ok_ticket_pair : forall a b, a <> b ->
    count (fun _ t => ticket_has a t && ticket_has b t) (tickets s) <=
    Z.min MAX_TICKETS_PER_PAIR (max_sessions (config s));
  ok_ticket_node : forall n, count (fun _ t => ticket_has n t) (tickets s) <=
    Z.min MAX_TICKETS_PER_NODE (max_sessions (config s));
}.

Record PendingOk (s : State) : Prop := {
  ok_pending_source : forall src p, pending s !! src = Some p -> source (challenge p) = src;
  ok_pending : Z.of_nat (size (pending s)) <= max_sessions (config s) * 2;
  ok_pending_ip : forall a, count (fun addr _ => bool_decide (ip addr = a)) (pending s) <=
    max_pending_per_ip (config s);
}.

Record Inv (s : State) : Prop := {
  inv_sessions : SessionsOk s;
  inv_quotas : QuotasOk s;
  inv_tickets : TicketsOk s;
  inv_pending : PendingOk s;
}.

Lemma validate_limits c : validate c = Ok tt -> 1 <= max_sessions c /\ 1 <= max_pending_per_ip c.
Proof.
  unfold validate. destruct (_ || _) eqn:E; [done|]. intros _.
  repeat (apply orb_false_iff in E as [E ?]). bool_hyps. bool_hyps. lia.
Qed.

Lemma new_inv c s : new c = Ok s -> Inv s /\ config s = c.
Proof.
  unfold new. destruct (validate c) as [[]| |] eqn:E; cbn; [|done|done]. intros [= <-].
  apply validate_limits in E as [E1 E2]. split; [|done].
  assert (1 <= fair_limit c) by (unfold fair_limit; lia).
  assert (forall (K V : Type) (E : EqDecision K) (C : Countable K) (p : K -> V -> bool), count p (∅ : gmap K V) = 0) as Hc.
  { intros. by apply count_none. }
  split; split; cbn [config sessions sources tickets pending];
    try (intros *; rewrite lookup_empty; done); intros; rewrite ?Hc;
    unfold MAX_SESSIONS_PER_PAIR, MAX_SESSIONS_PER_NODE, MAX_TICKETS_PER_PAIR, MAX_TICKETS_PER_NODE;
    try lia; rewrite ?map_size_empty; lia.
Qed.

(** ** Removal preserves the invariant *)

Record shrinks (s s' : State) : Prop := {
  shrinks_config : config s' = config s;
  shrinks_tickets : tickets s' ⊆ tickets s;
  shrinks_pending : pending s' ⊆ pending s;
  shrinks_sessions : sessions s' ⊆ sessions s;
  shrinks_sources : forall src v, sources s' !! src = Some v <->
    sources s !! src = Some v /\ is_Some (sessions s' !! v.1);
}.

Lemma size_le {K V : Type} `{Countable K} (m1 m2 : gmap K V) : m1 ⊆ m2 ->
  Z.of_nat (size m1) <= Z.of_nat (size m2).
Proof. intros Hs. by apply inj_le, map_subseteq_size. Qed.

Lemma shrinks_sessions_ok s s' : shrinks s s' -> SessionsOk s -> SessionsOk s'.
Proof.
  intros [Hc _ _ Hs Hsrc] [S1 S2 S3 S4]. split.
  - intros key x i b E1 E2. pose proof (lookup_weaken _ _ _ _ E1 Hs) as E.
    destruct (S1 key x i b E E2) as [E3 E4]. split; [|done]. apply Hsrc. split; [done|]. by eexists.
  - intros src key i [E [x Hx]]%Hsrc. destruct (S2 src key i E) as (x' & b & E1 & E2 & E3).
    exists x, b. cbn in Hx. pose proof (lookup_weaken _ _ _ _ Hx Hs). split; [done|].
    split; [congruence|done].
  - intros key x a b E1. eapply S3, lookup_weaken; eauto.
  - intros key x E1. eapply S4, lookup_weaken; eauto.
Qed.

Lemma shrinks_inv s s' : shrinks s s' -> Inv s -> Inv s'.
Proof.
  intros Hsh [HS [Q1 Q2 Q3] [T1 T2 T3] [P1 P2 P3]].
  pose proof (shrinks_sessions_ok s s' Hsh HS) as HS'. destruct Hsh as [Hc Ht Hp Hs _].
  pose proof (size_le _ _ Ht). pose proof (size_le _ _ Hp). pose proof (size_le _ _ Hs).
  split; [done|split..]; rewrite ?Hc; try lia.
  - intros a b. etrans; [apply count_subseteq, Hs|apply Q2].
  - intros n. etrans; [apply count_subseteq, Hs|apply Q3].
  - intros a b Hne. etrans; [apply count_subseteq, Ht|by apply T2].
  - intros n. etrans; [apply count_subseteq, Ht|apply T3].
  - intros src p E. eapply P1, lookup_weaken; eauto.
  - intros a. etrans; [apply count_subseteq, Hp|apply P3].
Qed.

Lemma cleanup_shrinks now s : shrinks s (cleanup now s).
Proof.
  split; cbn; try done; try apply map_filter_subseteq.
  intros src v. rewrite map_lookup_filter_Some, bool_decide_eq_true. done.
Qed.

Lemma cleanup_inv now s : Inv s -> Inv (cleanup now s).
Proof. apply shrinks_inv, cleanup_shrinks. Qed.

Lemma drop_pending_shrinks src s : SessionsOk s ->
  shrinks s (mk_state (config s) (tickets s) (delete src (pending s)) (sessions s) (sources s)).
Proof.
  intros Hs. split; cbn; try done; [apply delete_subseteq|]. intros a v. split; [|by intros []].
  intros E. split; [done|]. destruct v as [key i].
  destruct (ok_source s Hs a key i E) as (x & b & E1 & _). by eexists.
Qed.

(** ** The other operations *)

Lemma issue_inv token a b now later s : Inv s -> Inv (issue token a b now later s).2.
Proof.
  intros Hi%(cleanup_inv now). unfold issue. set (s0 := cleanup now s) in *. clearbody s0. clear s.
  destruct (_ || existsb _ _) eqn:E; [done|]. apply orb_false_iff in E as [E En].
  repeat (apply orb_false_iff in E as [E ?]). bool_hyps. cbn [existsb] in En.
  apply orb_false_iff in En as [Ea En]. apply orb_false_iff in En as [Eb _]. bool_hyps.
  assert (tickets s0 !! token = None) as Hnew by (by apply eq_None_not_Some).
  destruct Hi as [[S1 S2 S3 S4] [Q1 Q2 Q3] [T1 T2 T3] [P1 P2 P3]]. split; [done|done| |done].
  split; cbn [tickets config snd].
  - rewrite map_size_insert_None by done. lia.
  - intros x y Hxy. rewrite count_insert_new by done. specialize (T2 x y Hxy).
    destruct (ticket_has x _ && ticket_has y _) eqn:Ec; [|lia].
    unfold ticket_has in Ec. cbn in Ec. bool_hyps.
    assert ((x = a /\ y = b) \/ (x = b /\ y = a)) as [[-> ->]|[-> ->]]; [|lia|].
    { repeat match goal with H : _ || _ = true |- _ => apply orb_true_iff in H as [H|H] end; bool_hyps;
        naive_solver congruence. }
    assert (count (fun _ t => ticket_has b t && ticket_has a t) (tickets s0) =
            count (fun _ t => ticket_has a t && ticket_has b t) (tickets s0)) as ->; [|lia].
    apply Z.le_antisymm; apply count_le_ext; intros k t _; rewrite andb_comm; done.
  - intros n. rewrite count_insert_new by done. specialize (T3 n).
    destruct (ticket_has n _) eqn:Ec; [|lia]. unfold ticket_has in Ec. cbn in Ec.
    apply orb_true_iff in Ec as [Ec|Ec]; bool_hyps; subst; lia.
Qed.

Lemma on_hello_inv h src family now nonce s : Inv s -> Inv (on_hello h src family now nonce s).2.
Proof.
  intros Hi. unfold on_hello. destruct (negb (accepts family src)); [done|].
  destruct (validate_hello s h now) as [i|]; [|done].
  destruct (sources s !! src) as [[bk bs]|]; [by destruct (_ && _ && _)|].
  destruct (pending s !! src) as [p|] eqn:Ep; [by destruct (_ && _)|].
  destruct (_ || bool_decide (available_arm s h i = None)) eqn:E; [done|].
  repeat (apply orb_false_iff in E as [E ?]). bool_hyps.
  destruct Hi as [HS HQ HT [P1 P2 P3]]. cbn [snd]. split; [by destruct HS|by destruct HQ|by destruct HT|].
  split; cbn [pending config].
  - intros src' p' Hp. apply lookup_insert_Some in Hp as [[<- <-]|[_ Hp]]; [done|by apply P1].
  - rewrite map_size_insert_None by done. lia.
  - intros a. rewrite count_insert_new by done. specialize (P3 a). case_bool_decide; subst; lia.
Qed.

Lemma min_slot_In l z : min_slot l = Some z -> In z l.
Proof.
  revert z. induction l as [|x l IH]; cbn; [done|]. intros z.
  destruct (min_slot l) as [y|] eqn:E; intros [= <-]; [|by left].
  destruct (Z.min_spec x y) as [[_ ->]|[_ ->]]; [by left|right; by apply IH].
Qed.

Definition room (s : State) (h : Hello) : Prop :=
  Z.of_nat (size (sessions s)) < max_sessions (config s) /\
  count (fun _ x => contains_pair x (node h) (peer h)) (sessions s) <
    Z.min MAX_SESSIONS_PER_PAIR (fair_limit (config s)) /\
  count (fun _ x => contains_node x (node h)) (sessions s) <
    Z.min MAX_SESSIONS_PER_NODE (fair_limit (config s)) /\
  count (fun _ x => contains_node x (peer h)) (sessions s) <
    Z.min MAX_SESSIONS_PER_NODE (fair_limit (config s)).

Lemma available_arm_spec s h i arm : available_arm s h i = Some arm ->
  fst arm = token h /\
  ((exists x, sessions s !! arm = Some x /\ waiting h i arm x = true) \/
   (sessions s !! arm = None /\ 0 <= snd arm < MAX_ARMS_PER_TICKET /\ room s h)).
Proof.
  unfold available_arm. destruct (min_slot _) as [slot|] eqn:E.
  - intros [= <-]. split; [done|]. left. apply min_slot_In, in_map_iff in E as ([[t z] x] & Ez & Hin).
    cbn in Ez. subst z. apply list_elem_of_In, elem_of_map_to_list, map_lookup_filter_Some in Hin as [E Hw].
    cbn in Hw. exists x. assert (t = token h) as <-; [|done].
    unfold waiting in Hw. by bool_hyps.
  - clear E. destruct (_ || existsb _ _) eqn:E; [done|]. apply orb_false_iff in E as [E En].
    apply orb_false_iff in E as [E1 E2]. cbn [existsb] in En. apply orb_false_iff in En as [E3 E4].
    apply orb_false_iff in E4 as [E4 _]. bool_hyps.
    intros [Hin Hf]%find_some. apply in_map_iff in Hin as (slot & <- & Hslot). bool_hyps. split; [done|].
    right. split; [done|]. split; [unfold MAX_ARMS_PER_TICKET; cbn in *; lia|].
    unfold room, fair_limit. lia.
Qed.

(** *** Binding one side of an arm *)

Definition empty_session (now : Z) : Session := mk_session (None, None) now.

Lemma side_of_bind i j now b x :
  side_of (touch now (set_side i b x)) j = if Bool.eqb i j then Some b else side_of x j.
Proof. by destruct i, j. Qed.

Definition names (n : NodeId) (b : Bound) : bool :=
  bool_decide (node (b_hello b) = n) || bool_decide (peer (b_hello b) = n).
Definition pairs (a b : NodeId) (x : Bound) : bool :=
  (bool_decide (node (b_hello x) = a) && bool_decide (peer (b_hello x) = b)) ||
  (bool_decide (node (b_hello x) = b) && bool_decide (peer (b_hello x) = a)).
Definition on_side (p : Bound -> bool) (o : option Bound) : bool :=
  match o with
  | Some b => p b
  | None => false
  end.

Lemma existsb_bounds p x :
  existsb p (bounds x) = on_side p (side_of x false) || on_side p (side_of x true).
Proof.
  unfold bounds, side_of. destruct x as [[[a|] [b|]] l]; cbn; by rewrite ?orb_false_r.
Qed.

Lemma existsb_bind p i now b x : side_of x i = None ->
  existsb p (bounds (touch now (set_side i b x))) = p b || existsb p (bounds x).
Proof.
  intros Hi. rewrite !existsb_bounds, !side_of_bind. destruct i; cbn [Bool.eqb on_side]; rewrite Hi; cbn [on_side orb].
  - rewrite orb_false_r. apply orb_comm.
  - done.
Qed.

(** Joining a waiting arm adds nothing to any quota. *)
Lemma waiting_same h i k x src now p :
  (forall b, node (b_hello b) = peer h -> peer (b_hello b) = node h -> p (mk_bound h src) = p b) ->
  waiting h i k x = true ->
  existsb p (bounds (touch now (set_side i (mk_bound h src) x))) = existsb p (bounds x).
Proof.
  intros Hp Hw. unfold waiting in Hw. bool_hyps. rewrite existsb_bind by done.
  destruct (side_of x (negb i)) as [b|] eqn:Eb; [|done]. bool_hyps.
  rewrite (Hp b) by done. rewrite existsb_bounds.
  destruct i; cbn [negb] in Eb; rewrite Eb; cbn [on_side]; destruct (p b); cbn;
    by rewrite ?orb_true_r, ?orb_false_r.
Qed.

Lemma names_swap h src n b : node (b_hello b) = peer h -> peer (b_hello b) = node h ->
  names n (mk_bound h src) = names n b.
Proof. intros E1 E2. unfold names. cbn. rewrite E1, E2. apply orb_comm. Qed.

Lemma pairs_swap h src x y b : node (b_hello b) = peer h -> peer (b_hello b) = node h ->
  pairs x y (mk_bound h src) = pairs x y b.
Proof.
  intros E1 E2. unfold pairs. cbn. rewrite E1, E2, orb_comm. f_equal; apply andb_comm.
Qed.

Definition bind_side (arm : SessionKey) (i : side_index) (h : Hello) (src : SocketAddr) (now : Z)
    (s : State) : State :=
  mk_state (config s) (tickets s) (pending s)
    (<[arm := touch now (set_side i (mk_bound h src)
                (default (empty_session now) (sessions s !! arm)))]> (sessions s))
    (<[src := (arm, i)]> (sources s)).

Lemma bind_sessions_ok arm i h src now s : SessionsOk s -> sources s !! src = None ->
  bound_ok arm (mk_bound h src) -> available_arm s h i = Some arm ->
  SessionsOk (bind_side arm i h src now s).
Proof.
  intros [S1 S2 S3 S4] Hsrc Hb Ha. apply available_arm_spec in Ha as [Htok Ha].
  set (x0 := default (empty_session now) (sessions s !! arm)).
  assert (side_of x0 i = None /\
          (forall j, side_of x0 j <> None -> sessions s !! arm = Some x0) /\
          (forall b, side_of x0 (negb i) = Some b -> node (b_hello b) = peer h /\ peer (b_hello b) = node h) /\
          0 <= snd arm < MAX_ARMS_PER_TICKET) as (Hi & Hx & Hop & Hsl).
  { destruct Ha as [(x & E & Hw)|(E & Hsl & _)].
    - subst x0. rewrite E. cbn. unfold waiting in Hw. bool_hyps. split; [done|]. split; [done|].
      split; [|by apply (S4 arm x)]. intros b Eb. rewrite Eb in *. by bool_hyps.
    - subst x0. rewrite E. cbn. split; [by destruct i|]. split; [by intros []|].
      split; [by destruct i|done]. }
  assert (forall j b, side_of x0 j = Some b -> j = negb i /\ sessions s !! arm = Some x0) as Hold.
  { intros j b E. split; [|by apply (Hx j); rewrite E]. destruct i, j; try done; congruence. }
  unfold bind_side. fold x0. split; cbn [sessions sources].
  - intros key x j b E Ej. apply lookup_insert_Some in E as [[<- <-]|[Hne E]].
    + rewrite side_of_bind in Ej. destruct (Bool.eqb_spec i j) as [->|Hij].
      { injection Ej as <-. cbn. rewrite lookup_insert_eq. done. }
      destruct (Hold j b Ej) as [-> E]. destruct (S1 arm x0 (negb i) b E Ej) as [E3 E4].
      rewrite lookup_insert_ne by congruence. done.
    + destruct (S1 key x j b E Ej) as [E3 E4]. rewrite lookup_insert_ne by congruence. done.
  - intros src' key j E. apply lookup_insert_Some in E as [[<- [= <- <-]]|[Hne E]].
    { eexists _, (mk_bound h src). rewrite lookup_insert_eq. split; [done|].
      rewrite side_of_bind, Bool.eqb_reflx. done. }
    destruct (S2 src' key j E) as (x & b & E1 & E2 & E3).
    destruct (decide (key = arm)) as [->|Hk].
    + eexists _, b. rewrite lookup_insert_eq. split; [done|].
      assert (x = x0) as -> by (subst x0; by rewrite E1). destruct (Hold j b E2) as [-> _].
      rewrite side_of_bind. destruct (Bool.eqb_spec i (negb i)) as [Eb|_]; [by destruct i|done].
    + exists x, b. by rewrite lookup_insert_ne by done.
  - intros key x a b E Ea Eb. apply lookup_insert_Some in E as [[<- <-]|[Hne E]]; [|by eapply S3].
    rewrite side_of_bind in Ea, Eb. destruct i; cbn in Ea, Eb.
    + injection Eb as <-. by apply Hop in Ea.
    + injection Ea as <-. by apply Hop in Eb as [-> ->].
  - intros key x E. apply lookup_insert_Some in E as [[<- _]|[_ E]]; [done|by eapply S4].
Qed.

Lemma bind_quotas_ok arm i h src now s : QuotasOk s -> node h <> peer h ->
  available_arm s h i = Some arm -> QuotasOk (bind_side arm i h src now s).
Proof.
  intros [Q1 Q2 Q3] Hne Ha. apply available_arm_spec in Ha as [_ Ha].
  unfold bind_side. destruct Ha as [(x & E & Hw)|(E & _ & R1 & R2 & R3 & R4)]; rewrite E; cbn [default].
  - split; cbn [sessions config].
    + rewrite map_size_insert_Some by (by eexists). done.
    + intros a b. rewrite (count_insert_same _ _ _ _ x); [apply Q2|done|].
      apply (waiting_same h i arm); [|done]. intros ?. apply pairs_swap.
    + intros n. rewrite (count_insert_same _ _ _ _ x); [apply Q3|done|].
      apply (waiting_same h i arm); [|done]. intros ?. apply names_swap.
  - split; cbn [sessions config].
    + rewrite map_size_insert_None by done. lia.
    + intros a b. rewrite count_insert_new by done. specialize (Q2 a b).
      unfold contains_pair at 2. rewrite existsb_bind by (by destruct i). cbn [bounds empty_session sides existsb].
      rewrite orb_false_r. destruct (_ || _) eqn:Ec; [|lia]. cbn in Ec.
      assert (count (fun _ x => contains_pair x a b) (sessions s) =
              count (fun _ x => contains_pair x (node h) (peer h)) (sessions s)) as ->; [|lia].
      apply orb_true_iff in Ec as [Ec|Ec]; bool_hyps; subst; [done|].
      apply Z.le_antisymm; apply count_le_ext; intros k y _; unfold contains_pair; rewrite !existsb_exists;
        intros (z & Hz & Hc); exists z; (split; [done|]); by rewrite orb_comm.
    + intros n. rewrite count_insert_new by done. specialize (Q3 n).
      unfold contains_node at 2. rewrite existsb_bind by (by destruct i). cbn [bounds empty_session sides existsb].
      rewrite orb_false_r. destruct (_ || _) eqn:Ec; [|lia]. cbn in Ec.
      apply orb_true_iff in Ec as [Ec|Ec]; bool_hyps; subst; lia.
Qed.

Lemma validate_hello_spec s h now i : validate_hello s h now = Some i ->
  live_ticket s now (token h) = true /\ node h <> peer h /\ key_parses (public_key h) = true /\
  Identity.from_public_key (public_key h) = node h.
Proof.
  unfold validate_hello, live_ticket. destruct (tickets s !! token h) as [t|]; [|done]. cbn.
  destruct (_ || bool_decide (node h = peer h)) eqn:E1; [done|].
  destruct (negb (key_parses _)) eqn:E2; [done|].
  destruct (_ || negb _) eqn:E3; [done|]. intros _. bool_hyps. bool_hyps. repeat split; try done.
  by apply Z.ltb_lt.
Qed.

(** What [on_register] does: nothing, use up the challenge, or bind the socket. *)
Inductive registers (c : Challenge) (src : SocketAddr) (now : Z) (s : State) :
    list (SocketAddr * Packet) -> State -> Prop :=
  | Refused : registers c src now s [] s
  | Consumed (s1 : State) : shrinks s s1 -> sessions s1 = sessions s ->
      registers c src now s [] s1
  | Bound_ (arm : SessionKey) (i : side_index) (s1 : State) :
      shrinks s s1 -> sessions s1 = sessions s -> validate_hello s (hello c) now = Some i ->
      sources s1 !! src = None -> available_arm s1 (hello c) i = Some arm ->
      bound_ok arm (mk_bound (hello c) src) ->
      registers c src now s (ready_packets (bind_side arm i (hello c) src now s1) arm)
        (bind_side arm i (hello c) src now s1).

Lemma on_register_spec c sa sb src family now s : SessionsOk s ->
  registers c src now s (on_register c sa sb src family now s).1
    (on_register c sa sb src family now s).2.
Proof.
  intros HS. unfold on_register. destruct (pending s !! src) as [p|] eqn:Ep; [|by constructor].
  destruct (_ || negb (bool_decide (validate_hello _ _ _ = _))) eqn:E; [by constructor|].
  destruct (signed c sa sb) eqn:Es; cbn [negb]; [|by constructor].
  repeat (apply orb_false_iff in E as [E ?]). bool_hyps. bool_hyps.
  pose proof (drop_pending_shrinks src s HS) as Hd.
  set (s1 := mk_state _ _ _ _ _) in *. cbn [sources s1]. 
  destruct (bool_decide (is_Some (sources s !! src))) eqn:E1; [by constructor|]. bool_hyps.
  assert (sources s !! src = None) as Hsrc by (by apply eq_None_not_Some).
  destruct (available_arm s1 (hello c) (side p)) as [arm|] eqn:Ea; [|by constructor].
  pose proof (available_arm_spec s1 (hello c) (side p) arm Ea) as [Htok Harm].
  assert (side_of (default (mk_session (None, None) now) (sessions s1 !! arm)) (side p) = None) as Hnone.
  { destruct Harm as [(x & E2 & Hw)|(E2 & _)]; rewrite E2; cbn; [|by destruct (side p)].
    unfold waiting in Hw. by bool_hyps. }
  rewrite bool_decide_false by (rewrite Hnone; by intros []).
  match goal with H : validate_hello _ _ _ = Some _ |- _ =>
    pose proof (validate_hello_spec _ _ _ _ H) as (_ & Hne & _ & Hid) end.
  unfold signed in Es. apply andb_true_iff in Es as [_ Es].
  destruct (bind_payload c) as [payload| |] eqn:Epl; [|done|done].
  apply (Bound_ c src now s arm (side p) s1); try done. split; try done.
  destruct c as [h n s']. cbn in *. subst s'. by exists n, payload, (sa ++ sb).
Qed.

Lemma bind_inv arm i h src now s : Inv s -> sources s !! src = None -> node h <> peer h ->
  bound_ok arm (mk_bound h src) -> available_arm s h i = Some arm -> Inv (bind_side arm i h src now s).
Proof.
  intros [HS HQ [T1 T2 T3] [P1 P2 P3]] Hsrc Hne Hb Ha.
  split; [by apply bind_sessions_ok|by apply bind_quotas_ok|by split|by split].
Qed.

Lemma on_register_inv c sa sb src family now s : Inv s ->
  Inv (on_register c sa sb src family now s).2.
Proof.
  intros Hi. destruct (on_register_spec c sa sb src family now s (inv_sessions s Hi))
    as [|s1 Hs1 _|arm i s1 Hs1 _ Hv Hsrc Ha Hb]; [done|by apply (shrinks_inv s)|].
  apply validate_hello_spec in Hv as (_ & Hne & _). apply bind_inv; try done. by apply (shrinks_inv s).
Qed.

(** Touching a session changes no side. *)
Lemma touch_inv key x now s : Inv s -> sessions s !! key = Some x ->
  Inv (mk_state (config s) (tickets s) (pending s) (<[key := touch now x]> (sessions s)) (sources s)).
Proof.
  intros [[S1 S2 S3 S4] [Q1 Q2 Q3] [T1 T2 T3] [P1 P2 P3]] Hx.
  assert (forall k y, <[key := touch now x]> (sessions s) !! k = Some y ->
            exists y0, sessions s !! k = Some y0 /\ sides y = sides y0) as Hold.
  { intros k y [[<- <-]|[_ E]]%lookup_insert_Some; [by exists x|by exists y]. }
  split; [| |by split|by split]; split; cbn [sessions sources config].
  - intros k y i b E Eb. destruct (Hold k y E) as (y0 & E0 & Es). apply (S1 k y0 i b E0).
    unfold side_of in *. by rewrite <- Es.
  - intros a k i E. destruct (S2 a k i E) as (y & b & E1 & E2 & E3).
    destruct (decide (key = k)) as [<-|Hne].
    + exists (touch now x), b. rewrite lookup_insert_eq. split; [done|]. by simplify_eq.
    + exists y, b. by rewrite lookup_insert_ne by done.
  - intros k y a b E Ea Eb. destruct (Hold k y E) as (y0 & E0 & Es). apply (S3 k y0 a b E0);
      unfold side_of in *; by rewrite <- Es.
  - intros k y E. destruct (Hold k y E) as (y0 & E0 & _). by eapply S4.
  - rewrite map_size_insert_Some by (by eexists). done.
  - intros a b. by rewrite (count_insert_same _ _ _ _ x).
  - intros n. by rewrite (count_insert_same _ _ _ _ x).
Qed.

Lemma forward_inv src family now s : Inv s -> Inv (forward src family now s).2.
Proof.
  intros Hi. unfold forward. destruct (sources s !! src) as [[key i]|]; [|done].
  destruct (negb _); [done|]. destruct (sessions s !! key) as [x|] eqn:E; [|done].
  destruct (_ || _); [done|]. by apply touch_inv.
Qed.

Lemma control_inv p src family now nonce s : Inv s -> Inv (control p src family now nonce s).2.
Proof.
  intros Hi%(cleanup_inv now). unfold control.
  destruct p; [by apply on_hello_inv|done|by apply on_register_inv|done].
Qed.

(** ** Runs *)

(** One critical section, entered at time [now]. *)
Inductive step (now : Z) : State -> State -> Prop :=
  | Step_issue token a b later s : step now s (issue token a b now later s).2
  | Step_control p src family nonce s : step now s (control p src family now nonce s).2
  | Step_forward src family s : step now s (forward src family now s).2
  | Step_cleanup s : step now s (cleanup now s).

Inductive reachable (c : RelayServerConfig) : State -> Prop :=
  | Reach_new s : new c = Ok s -> reachable c s
  | Reach_step now s s' : reachable c s -> step now s s' -> reachable c s'.

Lemma step_config now s s' : step now s s' -> config s' = config s.
Proof.
  intros []; cbn; try done.
  - unfold issue. by destruct (_ || existsb _ _).
  - unfold control, on_hello, on_register. destruct p; try done; repeat case_match; done.
  - unfold forward. repeat case_match; done.
Qed.

Lemma relay_reachable_inv c s : reachable c s -> Inv s /\ config s = c.
Proof.
  induction 1 as [s E|now s s' _ [IH Hc] Hst]; [by apply new_inv|].
  split; [|by rewrite (step_config _ _ _ Hst)].
  destruct Hst; [by apply issue_inv|by apply control_inv|by apply forward_inv|by apply cleanup_inv].
Qed.

(** *** Pairings do not change *)

(** Until it idles out, a paired arm stays and keeps its two ends. *)
Definition pairing_kept (now : Z) (s s' : State) : Prop :=
  forall key x, sessions s !! key = Some x -> ready x = true ->
    since now (last_activity x) < idle_timeout (config s) ->
    exists x', sessions s' !! key = Some x' /\ sides x' = sides x.

Lemma pairing_kept_same now s s' : sessions s' = sessions s -> pairing_kept now s s'.
Proof. intros Es key x E _ _. rewrite Es. by exists x. Qed.

Lemma cleanup_keeps now s key x : sessions s !! key = Some x -> ready x = true ->
  since now (last_activity x) < idle_timeout (config s) -> sessions (cleanup now s) !! key = Some x.
Proof.
  intros E Hr Hl. cbn. apply map_lookup_filter_Some. split; [done|]. cbn.
  apply andb_true_iff. split; [by apply Z.ltb_lt|by rewrite Hr].
Qed.

Lemma pairing_kept_cleanup now s s' : pairing_kept now (cleanup now s) s' -> pairing_kept now s s'.
Proof. intros Hk key x E Hr Hl. apply (Hk key x); [by apply cleanup_keeps|done|done]. Qed.

Lemma bind_pairing_kept arm i h src now t s : available_arm s h i = Some arm ->
  pairing_kept t s (bind_side arm i h src now s).
Proof.
  intros [_ Ha]%available_arm_spec key x E Hr _. cbn.
  destruct (decide (arm = key)) as [<-|Hne]; [|rewrite lookup_insert_ne by done; by exists x].
  exfalso. destruct Ha as [(y & Ey & Hw)|(Ey & _)]; [|congruence].
  unfold waiting in Hw. bool_hyps. simplify_eq. unfold ready, side_of in *.
  destruct (sides y) as [[?|] [?|]], i; done.
Qed.

Lemma forward_pairing_kept src family now t s : pairing_kept t s (forward src family now s).2.
Proof.
  unfold forward. destruct (sources s !! src) as [[key i]|]; [|by apply pairing_kept_same].
  destruct (negb _); [by apply pairing_kept_same|].
  destruct (sessions s !! key) as [y|] eqn:Ey; [|by apply pairing_kept_same].
  destruct (_ || _); [by apply pairing_kept_same|]. intros k x E Hr _. cbn.
  destruct (decide (key = k)) as [Ek|Hne].
  - subst k. rewrite lookup_insert_eq. exists (touch now y). split; [done|]. by simplify_eq.
  - rewrite lookup_insert_ne by done. by exists x.
Qed.

Lemma control_pairing_kept p src family now nonce s : SessionsOk s ->
  pairing_kept now s (control p src family now nonce s).2.
Proof.
  intros HS. apply pairing_kept_cleanup. unfold control.
  pose proof (shrinks_sessions_ok _ _ (cleanup_shrinks now s) HS) as HS'.
  set (s0 := cleanup now s) in *. clearbody s0. destruct p; try by apply pairing_kept_same.
  - apply pairing_kept_same. unfold on_hello. repeat case_match; done.
  - destruct (on_register_spec challenge0 signature_a signature_b src family now s0 HS')
      as [|s1 _ E|arm i s1 Hs1 E _ _ Ha _]; [by apply pairing_kept_same|by apply pairing_kept_same|].
    intros key x Ek Hr Hl. apply (bind_pairing_kept arm i (hello challenge0) src now now s1 Ha key x);
      [by rewrite E|done|]. by rewrite (shrinks_config _ _ Hs1).
Qed.

Lemma step_pairing_kept now s s' : SessionsOk s -> step now s s' -> pairing_kept now s s'.
Proof.
  intros HS Hst. destruct Hst; [|by apply control_pairing_kept|by apply forward_pairing_kept|].
  - apply pairing_kept_cleanup, pairing_kept_same. unfold issue. by destruct (_ || existsb _ _).
  - by apply pairing_kept_cleanup, pairing_kept_same.
Qed.

(** A Hello is answered to its own source only, once. *)
Lemma ready_packets_to key s src : SessionsOk s ->
  (length (List.filter (fun r => bool_decide (fst r = src)) (ready_packets s key)) <= 1)%nat.
Proof.
  intros [S1 _ _ _]. unfold ready_packets. destruct (sessions s !! key) as [x|] eqn:E; [|cbn; lia].
  destruct (ready x) eqn:Hr; [|cbn; lia]. unfold ready, bounds in *.
  pose proof (S1 key x false) as Sf. pose proof (S1 key x true) as St. unfold side_of in Sf, St.
  destruct (sides x) as [[a|] [b|]]; try done. cbn in *.
  destruct (Sf a E eq_refl) as [Ha _]. destruct (St b E eq_refl) as [Hb _].
  destruct (bool_decide_reflect (b_source a = src)), (bool_decide_reflect (b_source b = src)); cbn; try lia.
  exfalso. subst. congruence.
Qed.

Lemma on_hello_replies h src family now nonce s : SessionsOk s ->
  (length (on_hello h src family now nonce s).1 <= 1)%nat /\
  Forall (fun r => fst r = src) (on_hello h src family now nonce s).1.
Proof.
  intros HS. unfold on_hello. destruct (negb _); [by split; [cbn; lia|]|].
  destruct (validate_hello s h now) as [i|]; [|by split; [cbn; lia|]].
  destruct (sources s !! src) as [[bk bs]|].
  - destruct (_ && _ && _); [|by split; [cbn; lia|]]. split; [by apply ready_packets_to|].
    apply Forall_forall. intros r [_ Hr]%list_elem_of_In%filter_In. by apply bool_decide_eq_true in Hr.
  - destruct (pending s !! src) as [p|]; [destruct (_ && _)|destruct (_ || _)];
      (split; [cbn; lia|]); by repeat apply Forall_cons.
Qed.

End Crypto.

(** ** Properties *)

(** C25: In every reachable state of the relay: each bound socket belongs to
    exactly one side of one arm and its owner signed, with the key its node id
    derives from, a challenge naming that very socket; the two ends of a paired
    arm name each other; and the session, per-pair, per-node, ticket and pending
    quotas hold, whatever the interleaving of packets, tickets and clock
    readings. *)
Theorem relay_invariant `{Blake3} {ed : Ed25519} {post : Postcard Challenge}
    (c : RelayServerConfig) (s : State) : reachable c s -> Inv s /\ config s = c.
Proof. apply relay_reachable_inv. Qed.

(** A datagram is forwarded only between the two ends of a live pair: the
    source is bound, with a signature, to one end, the destination to the other,
    their owners named each other, the packet came in on the source's own address
    family, and an answer takes the same way back. *)
Theorem relay_forwards_within_pair `{Blake3} {ed : Ed25519} {post : Postcard Challenge}
    (c : RelayServerConfig) (s s' : State) (src dst : SocketAddr) (family : AddressFamily) (now : Z) :
  reachable c s -> forward src family now s = (Some dst, s') ->
  exists key x i a b, sessions s !! key = Some x /\
    side_of x i = Some a /\ side_of x (negb i) = Some b /\ b_source a = src /\ b_source b = dst /\
    src <> dst /\ bound_ok key a /\ bound_ok key b /\
    node (b_hello a) = peer (b_hello b) /\ peer (b_hello a) = node (b_hello b) /\
    family_of src = family /\ since now (last_activity x) < idle_timeout c /\
    fst (forward dst (family_of dst) now s') = Some src.
Proof.
  intros Hr E. apply relay_reachable_inv in Hr as [[[S1 S2 S3 S4] _ _ _] Hc]. subst c. unfold forward in E.
  destruct (sources s !! src) as [[key i]|] eqn:Es; [|done].
  destruct (bool_decide_reflect (family_of src = family)) as [Hf|]; [|done]. cbn [negb] in E.
  destruct (sessions s !! key) as [x|] eqn:Ex; [|done].
  destruct (_ || _) eqn:Eg; [done|]. apply orb_false_iff in Eg as [Er Ei]. bool_hyps.
  injection E as Ed <-. destruct (S2 src key i Es) as (x' & a & Ex' & Ea & Hsrc).
  assert (x' = x) as -> by congruence. clear Ex'.
  destruct (side_of x (negb i)) as [b|] eqn:Eb; [|done]. cbn in Ed. injection Ed as Ed. subst src dst.
  destruct (S1 key x i a Ex Ea) as [Ha1 Ha2]. destruct (S1 key x (negb i) b Ex Eb) as [Hb1 Hb2].
  exists key, x, i, a, b. split_and!; try done.
  - intros Eq. rewrite Eq in Ha1. rewrite Ha1 in Hb1. by destruct i.
  - destruct i; [by destruct (S3 key x b a Ex Eb Ea)|by destruct (S3 key x a b Ex Ea Eb)].
  - destruct i; [by destruct (S3 key x b a Ex Eb Ea)|by destruct (S3 key x a b Ex Ea Eb)].
  - unfold forward. cbn [sources sessions config]. rewrite Hb1, bool_decide_true by done. cbn [negb].
    rewrite lookup_insert_eq. cbn [touch last_activity].
    assert (ready (touch now x) = true) as -> by done.
    unfold since, saturating_sub in *. destruct (Z.leb_spec (idle_timeout (config s)) (Z.max 0 (now - now))); [lia|].
    cbn [fst]. rewrite negb_involutive.
    change (side_of (touch now x) i) with (side_of x i).
    by rewrite Ea.
Qed.

(** A pair in use is stable: as long as an arm has not idled out, no packet
    from anyone, no new ticket, no expiry and no clean-up changes or removes its
    two ends. And the relay does not amplify: a Hello, which anyone can send
    unsigned, is answered by at most one packet, to its own source. *)
Theorem relay_pairing_stable `{Blake3} {ed : Ed25519} {post : Postcard Challenge}
    (c : RelayServerConfig) (s s' : State) (now : Z) :
  reachable c s -> step now s s' ->
  pairing_kept now s s' /\
  forall h src family nonce,
    (length (control (PHello h) src family now nonce s).1 <= 1)%nat /\
    Forall (fun r => fst r = src) (control (PHello h) src family now nonce s).1.
Proof.
  intros Hr Hst. apply relay_reachable_inv in Hr as [[HS _ _ _] _].
  split; [by apply step_pairing_kept|]. intros. unfold control. apply on_hello_replies.
  by apply (shrinks_sessions_ok s), HS; apply cleanup_shrinks.
Qed.

(** ** A concrete pair *)

Module Demo.

Definition hash : Blake3 := fun x => x.
Definition ed : Ed25519 := Identity.example_ed25519.
Definition post : Postcard Challenge :=
  {| to_allocvec _ := Ok []; take_from_bytes _ := Err Encode |}.
#[local] Existing Instances hash ed post.

Definition alice : Identity.Identity := Identity.mk_identity [1].
Definition bob : Identity.Identity := Identity.mk_identity [2].
Definition a_id : NodeId := Identity.node_id alice.
Definition b_id : NodeId := Identity.node_id bob.
Definition a_src : SocketAddr := V4 2130706433 9001.
Definition b_src : SocketAddr := V4 2130706433 9002.
Definition ticket : list Z := [7].

Definition a_hello : Hello := new_hello alice b_id ticket [11].
Definition b_hello : Hello := new_hello bob a_id ticket [12].

Definition signed_packet (i : Identity.Identity) (c : Challenge) : Packet :=
  match register i c with
  | Ok p => p
  | _ => PReady [] [] []
  end.

Definition start : State := mk_state default_config ∅ ∅ ∅ ∅.
Definition s1 : State := (issue ticket a_id b_id 0 0 start).2.
Definition s2 : State := (control (PHello a_hello) a_src Ipv4 1 [21] s1).2.
Definition s3 : State :=
  (control (signed_packet alice (mk_challenge a_hello [21] a_src)) a_src Ipv4 2 [] s2).2.
Definition s4 : State := (control (PHello b_hello) b_src Ipv4 3 [22] s3).2.
Definition s5 : State :=
  (control (signed_packet bob (mk_challenge b_hello [22] b_src)) b_src Ipv4 4 [] s4).2.

Lemma s5_reachable : reachable default_config s5.
Proof.
  apply (Reach_step _ 4 s4), Step_control. apply (Reach_step _ 3 s3), Step_control.
  apply (Reach_step _ 2 s2), Step_control. apply (Reach_step _ 1 s1), Step_control.
  apply (Reach_step _ 0 start), Step_issue. apply Reach_new. reflexivity.
Qed.

End Demo.

Lemma relay_invariant_witness :
  exists x, sessions Demo.s5 !! ([7], 0) = Some x /\ ready x = true /\
    @Inv Demo.hash Demo.ed Demo.post Demo.s5 /\ config Demo.s5 = default_config.
Proof.
  pose proof (@relay_invariant Demo.hash Demo.ed Demo.post default_config Demo.s5 Demo.s5_reachable) as H.
  assert (exists x, sessions Demo.s5 !! ([7], 0) = Some x /\ ready x = true) as (x & E & Hr).
  { eexists. split; vm_compute; reflexivity. }
  exists x. exact (conj E (conj Hr H)).
Defined.

Lemma relay_forwards_within_pair_witness :
  exists s', forward Demo.a_src Ipv4 5 Demo.s5 = (Some Demo.b_src, s') /\
    fst (forward Demo.b_src Ipv4 5 s') = Some Demo.a_src.
Proof.
  assert (exists s', forward Demo.a_src Ipv4 5 Demo.s5 = (Some Demo.b_src, s')) as [s' E].
  { eexists. vm_compute. reflexivity. }
  destruct (@relay_forwards_within_pair Demo.hash Demo.ed Demo.post default_config Demo.s5 s'
    Demo.a_src Demo.b_src Ipv4 5 Demo.s5_reachable E) as
    (key & x & i & a & b & _ & _ & _ & _ & _ & _ & _ & _ & _ & _ & _ & _ & H).
  exists s'. exact (conj E H).
Defined.

Lemma relay_pairing_stable_witness :
  exists x', sessions (cleanup 70000 Demo.s5) !! ([7], 0) = Some x' /\ ready x' = true.
Proof.
  destruct (@relay_pairing_stable Demo.hash Demo.ed Demo.post default_config Demo.s5
    (cleanup 70000 Demo.s5) 70000 Demo.s5_reachable (Step_cleanup 70000 Demo.s5)) as [H _].
  assert (exists x, sessions Demo.s5 !! ([7], 0) = Some x /\ ready x = true /\
    since 70000 (last_activity x) < idle_timeout (config Demo.s5)) as (x & E & Hr & Hl).
  { eexists. split; [|split]; vm_compute; reflexivity. }
  destruct (H ([7], 0) x E Hr Hl) as (x' & E' & Hs). exists x'. split; [exact E'|].
  unfold ready in *. rewrite Hs. exact Hr.
Defined.

End RelayProof.
