(* ===== verification/Storage.v ===== *)
(** * Resumable downloads (src/storage/mod.rs)

    [PartialDownload]: the [.part] file, the bitmap of verified chunks and its
    durable snapshot, over the file system of FileSystem.v.  [capability] is the
    desktop variant, which works relative to an open directory handle
    ([secure_fs]); without it the download uses ambient paths.  The Windows
    variants of the bitmap replacement and of the directory sync are not
    modelled, nor is a directory that disappears.  [tracing] output is left out. *)
From Stdlib Require Import ZArith Lia.
From stdpp Require Import prelude gmap strings.
From S2P Require Import Prelude Bitmap Manifest State FileSystem.

#[local] Open Scope Z_scope.

Module Storage.
Import Manifest.

Definition PART_SUFFIX : list Z := lit "part".
Definition BITMAP_SUFFIX : list Z := lit "bitmap".
Definition MAX_FINALIZE_SUFFIX : Z := 10000.
Definition CHECKPOINT_BYTES : Z := 64 * 1024 * 1024.
(** Milliseconds. *)
Definition CHECKPOINT_INTERVAL : Z := 1000.

Record CheckpointPolicy : Type := mk_policy {
  policy_bytes : Z;
  policy_interval : Z;
}.
Definition default_policy : CheckpointPolicy := mk_policy CHECKPOINT_BYTES CHECKPOINT_INTERVAL.

Record PartialDownload : Type := mk_download {
  manifest : FileManifest;
  capability : bool;
  target_path : name;
  temp_path : name;
  state_path : name;
  file : option Z;
  written_bitmap : ChunkBitmap.t;
  durable_bitmap : ChunkBitmap.t;
  dirty_bytes : Z;
  last_checkpoint : Z;
  checkpoint_policy : CheckpointPolicy;
}.

Definition set_file (f : option Z) (d : PartialDownload) : PartialDownload :=
  mk_download (manifest d) (capability d) (target_path d) (temp_path d) (state_path d) f
    (written_bitmap d) (durable_bitmap d) (dirty_bytes d) (last_checkpoint d) (checkpoint_policy d).
Definition set_written (b : ChunkBitmap.t) (dirty : Z) (d : PartialDownload) : PartialDownload :=
  mk_download (manifest d) (capability d) (target_path d) (temp_path d) (state_path d) (file d)
    b (durable_bitmap d) dirty (last_checkpoint d) (checkpoint_policy d).
Definition set_durable (b : ChunkBitmap.t) (now : Z) (d : PartialDownload) : PartialDownload :=
  mk_download (manifest d) (capability d) (target_path d) (temp_path d) (state_path d) (file d)
    (written_bitmap d) b 0 now (checkpoint_policy d).

(** ** Paths *)

(** [rsplit] at the last dot. *)
Fixpoint rsplit_dot (s : list Z) : option (list Z * list Z) :=
  match s with
  | [] => None
  | c :: s' =>
      match rsplit_dot s' with
      | Some (before, after) => Some (c :: before, after)
      | None => if c =? 46 then Some ([], s') else None
      end
  end.

(** [Path::file_stem] and [Path::extension]. *)
Definition file_stem (n : name) : name :=
  match rsplit_dot n with
  | Some ([], _) | None => n
  | Some (before, _) => before
  end.
Definition extension (n : name) : option name :=
  match rsplit_dot n with
  | Some ([], _) | None => None
  | Some (_, after) => Some after
  end.

Definition target_path_for (m : FileManifest) : name := safe_file_name (file_name m).

Definition temp_path_for `{Hex} (m : FileManifest) : name :=
  let tag := take 16 (to_hex (root_hash m)) in
  safe_file_name (file_name m) ++ lit "." ++ tag ++ lit "." ++ PART_SUFFIX.

Definition state_path_for `{Hex} (m : FileManifest) : name :=
  let tag := take 16 (to_hex (root_hash m)) in
  safe_file_name (file_name m) ++ lit "." ++ tag ++ lit "." ++ BITMAP_SUFFIX.

(** ** DownloadDirectory *)

(** [secure_fs::open]: an entry that is not a regular file is refused. *)
Definition secure_open (n : name) (create : bool) : st world error Z :=
  let! i := syscall (if create then fs_open_create n else fs_open n) in
  let! reg := syscall (fun d => Ok (regular (inode_of d i), d)) in
  if reg then ret i else throw (Protocol "not a regular file").

Definition open_part (cap : bool) (n : name) : st world error Z :=
  if cap then secure_open n true else syscall (fs_open_create n).

Definition open_existing_part (cap : bool) (n : name) : st world error (option Z) :=
  let! r := attempt (if cap then secure_open n false else syscall (fs_open n)) in
  match r with
  | Ok i => ret (Some i)
  | Err (Io NotFound) => ret None
  | Err e => throw e
  | Panic => panic
  end.

Definition load_bitmap (n : name) (chunk_count : Z) : st world error (ChunkBitmap.t * bool) :=
  let! r := attempt (syscall (fs_read_file n)) in
  match r with
  | Ok bytes =>
      match ChunkBitmap.from_bytes chunk_count bytes with
      | Ok bitmap => ret (bitmap, false)
      | Err _ => ret (ChunkBitmap.new chunk_count, true)
      | Panic => panic
      end
  | Err (Io NotFound) => ret (ChunkBitmap.new chunk_count, false)
  | Err e => throw e
  | Panic => panic
  end.

(** [DownloadDirectory::load]: through the capability at most one byte more than
    a bitmap can have is read. *)
Definition load (cap : bool) (n : name) (chunks : Z) : st world error (ChunkBitmap.t * bool) :=
  if cap then
    let! r := attempt (secure_open n false) in
    match r with
    | Ok i =>
        let! bytes := syscall (fs_read_limited i (div_ceil chunks 8 + 1)) in
        match ChunkBitmap.from_bytes chunks bytes with
        | Ok bitmap => ret (bitmap, false)
        | Err _ => ret (ChunkBitmap.new chunks, true)
        | Panic => panic
        end
    | Err (Io NotFound) => ret (ChunkBitmap.new chunks, false)
    | Err e => throw e
    | Panic => panic
    end
  else load_bitmap n chunks.

Definition replace_bitmap_file (tmp path : name) : st world error unit :=
  syscall (fs_rename tmp path).

Definition sync_parent_dir : st world error unit := syscall fs_sync_dir.

Definition remove_file_if_exists (n : name) : st world error unit :=
  let! r := attempt (syscall (fs_remove n)) in
  match r with
  | Ok _ => ret tt
  | Err (Io NotFound) => ret tt
  | Err e => throw e
  | Panic => panic
  end.

(** The temporary name of [save_bitmap]: [path.with_extension("bitmap.tmp")]. *)
Definition bitmap_tmp_path (n : name) : name := file_stem n ++ lit ".bitmap.tmp".

(** The temporary name of [DownloadDirectory::save]: 32 hexadecimal digits. *)
Definition bitmap_tmp_name `{Hex} (r : Z) : name :=
  lit "bitmap-" ++ hex_encode (be_bytes 16 r) ++ lit ".tmp".

Definition save_bitmap (path : name) (bitmap : ChunkBitmap.t) : st world error unit :=
  let tmp := bitmap_tmp_path path in
  let! f := syscall (fs_create tmp) in
  let! _ := sys_write f 0 (ChunkBitmap.to_bytes bitmap) in
  let! _ := syscall (fs_sync f) in
  let! _ := replace_bitmap_file tmp path in
  sync_parent_dir.

(** [DownloadDirectory::save]. *)
Definition save `{Hex} (cap : bool) (path : name) (bitmap : ChunkBitmap.t) : st world error unit :=
  if cap then
    let! r := random_u128 in
    let temp := bitmap_tmp_name r in
    let! f := syscall (fs_create_new temp) in
    let! _ := sys_write f 0 (ChunkBitmap.to_bytes bitmap) in
    let! _ := syscall (fs_sync f) in
    let! _ := syscall (fs_rename temp path) in
    syscall fs_sync_dir
  else save_bitmap path bitmap.

(** ** Starting or resuming a download *)

Section WithHash.
Context `{Blake3} {hexc : Hex}.

(** One round of the re-verification loop. *)
Definition verify_existing (m : FileManifest) (f : Z) (acc : ChunkBitmap.t * bool) (index : Z) :
    st world error (ChunkBitmap.t * bool) :=
  let '(bitmap, changed) := acc in
  let! range := liftr (ok_or (chunk_range m index) (Protocol "bitmap chunk out of range")) in
  let! r := attempt (syscall (fs_read f range.1 range.2)) in
  match r with
  | Ok data =>
      let! good := liftr (verify_chunk m index data) in
      if good then ret (bitmap, changed)
      else
        let! bitmap' := liftr (ChunkBitmap.clear bitmap index) in
        ret (bitmap', true)
  | Err (Io UnexpectedEof) =>
      let! bitmap' := liftr (ChunkBitmap.clear bitmap index) in
      ret (bitmap', true)
  | Err e => throw e
  | Panic => panic
  end.

(** The verified length: the sum over the present chunks. *)
Definition verified_len (m : FileManifest) (bitmap : ChunkBitmap.t) : result Z :=
  let? present := ChunkBitmap.present bitmap in
  fold_outcome (fun sum index =>
    let? range := ok_or (chunk_range m index) (Protocol "bitmap chunk out of range") in
    ok_or (checked_add U64_MAX sum range.2) (Protocol "progress overflow")) 0 present.

(** The staging names of a desktop download: the old name-based pair when its
    part file exists, otherwise the fixed pair. *)
Definition staging_paths `{Hex} (cap : bool) (m : FileManifest) : st world error (name * name) :=
  let temp := temp_path_for m in
  let state := state_path_for m in
  if cap then
    let! r := attempt (if str_len temp <=? 255 then syscall (fs_stat temp)
                       else throw (Io NotFound)) in
    match r with
    | Ok _ => ret (temp, state)
    | Err (Io NotFound) => ret (lit "data.part", lit "data.bitmap")
    | Err e => throw e
    | Panic => panic
    end
  else ret (temp, state).

Definition create_in_with_admission {T : Type} (cap : bool) (m : FileManifest)
    (policy : CheckpointPolicy) (admission_check : Z -> result T) : st world error (PartialDownload * T) :=
  let! _ := liftr (validate m) in
  let! paths := staging_paths cap m in
  let '(temp, state) := paths in
  let! loaded := load cap state (chunk_count m) in
  let '(bitmap0, needs_repair) := loaded in
  let! existing := open_existing_part cap temp in
  let! reset :=
    match existing with
    | Some f =>
        let! len := syscall (fs_len f) in
        ret (negb (len =? total_len m))
    | None => ret true
    end in
  let! checked :=
    match reset, existing with
    | true, _ => ret (ChunkBitmap.new (chunk_count m), needs_repair)
    | false, Some f =>
        let! present := liftr (ChunkBitmap.present bitmap0) in
        for_fold (verify_existing m f) (bitmap0, needs_repair) present
    | false, None => ret (bitmap0, needs_repair)
    end in
  let '(bitmap, changed) := checked in
  let! verified := liftr (verified_len m bitmap) in
  let! admission := liftr (admission_check (saturating_sub (total_len m) verified)) in
  let! f :=
    match existing with
    | Some f => ret f
    | None => open_part cap temp
    end in
  let! _ :=
    if reset then
      let! _ := syscall (fs_set_len f 0) in
      let! _ := syscall (fs_set_len f (total_len m)) in
      let! _ := syscall (fs_sync f) in
      save cap state bitmap
    else if changed then save cap state bitmap
    else ret tt in
  let! now := instant_now in
  ret (mk_download m cap (target_path_for m) temp state (Some f) bitmap bitmap 0 now policy,
       admission).

Definition create_in (cap : bool) (m : FileManifest) (policy : CheckpointPolicy) :
    st world error PartialDownload :=
  let! r := create_in_with_admission cap m policy (fun _ => Ok tt) in
  ret (fst r).

(** [create_with_policy]: [create_dir_all] may fail, the directory is there
    afterwards. *)
Definition create_with_policy (m : FileManifest) (policy : CheckpointPolicy) :
    st world error PartialDownload :=
  let! _ := liftr (validate m) in
  let! _ := syscall (fun d => Ok (tt, d)) in
  create_in false m policy.

Definition create (m : FileManifest) : st world error PartialDownload :=
  create_with_policy m default_policy.

(** ** Methods of a download *)

Abbreviation method := (st (PartialDownload * world) error).

Definition on_world {A : Type} (m : st world error A) : method A :=
  zoom snd (fun w s => (s.1, w)) m.
Definition self : method PartialDownload := gets fst.
Definition update (f : PartialDownload -> PartialDownload) : method unit :=
  modify (fun s => (f s.1, s.2)).

Definition missing (d : PartialDownload) : result (list Z) := ChunkBitmap.missing (written_bitmap d).
Definition is_complete (d : PartialDownload) : bool := ChunkBitmap.is_complete (written_bitmap d).

Definition checkpoint : method unit :=
  let! _ := on_world instant_now in
  let! d := self in
  let! f := liftr (ok_or (file d) (Protocol "download finished")) in
  let! _ := on_world (syscall (fs_sync f)) in
  let snapshot := written_bitmap d in
  let! _ := on_world (save (capability d) (state_path d) snapshot) in
  let! now := on_world instant_now in
  update (set_durable snapshot now).

Definition checkpoint_if_due : method unit :=
  let! d := self in
  if policy_bytes (checkpoint_policy d) <=? dirty_bytes d then checkpoint
  else
    let! now := on_world instant_now in
    if policy_interval (checkpoint_policy d) <=? saturating_sub now (last_checkpoint d)
    then checkpoint else ret tt.

Definition write_chunk (index : Z) (data : list Z) : method unit :=
  let! d := self in
  let! good := liftr (verify_chunk (manifest d) index data) in
  let! _ := liftr (fail_if (negb good) (Protocol "chunk verification failed")) in
  let! offset := liftr (ok_or (chunk_offset (manifest d) index) (Protocol "chunk out of range")) in
  let! f := liftr (ok_or (file d) (Protocol "download finished")) in
  let! _ := on_world (sys_write f offset data) in
  let! bitmap := liftr (ChunkBitmap.set (written_bitmap d) index) in
  let! _ := update (set_written bitmap
              (saturating_add U64_MAX (dirty_bytes d) (Z.of_nat (length data)))) in
  checkpoint_if_due.

(** ** Publication *)

(** [candidate_paths]: the target, then [stem (n).ext] for n = 1, 2, ... *)
Definition candidate_paths (target : name) (max_suffix : Z) : list name :=
  let stem := file_stem target in
  target ::
  map (fun counter =>
    match extension target with
    | Some ext => stem ++ lit " (" ++ decimal counter ++ lit ")." ++ ext
    | None => stem ++ lit " (" ++ decimal counter ++ lit ")"
    end) (seqZ 1 max_suffix).

(** The loop of [publish_no_replace_with]. *)
Fixpoint publish_loop (temp : name) (candidates : list name) : st world error name :=
  match candidates with
  | [] => throw (Protocol "final names exhausted")
  | candidate :: rest =>
      let! r := attempt (syscall (fs_link temp candidate)) in
      match r with
      | Ok _ =>
          let! _ := syscall (fs_remove temp) in
          ret candidate
      | Err (Io AlreadyExists) => publish_loop temp rest
      | Err e =>
          let! s := attempt (syscall (fs_stat candidate)) in
          match s with
          | Ok _ => publish_loop temp rest
          | Err (Io NotFound) => throw e
          | Err e' => throw e'
          | Panic => panic
          end
      | Panic => panic
      end
  end.

Definition publish_no_replace_with (temp target : name) (max_suffix : Z) : st world error name :=
  publish_loop temp (candidate_paths target max_suffix).

Definition publish_no_replace (temp target : name) : st world error name :=
  publish_no_replace_with temp target MAX_FINALIZE_SUFFIX.

(** The common part of [finalize] and [prepare_desktop_publication]. *)
Definition seal : method unit :=
  let! _ := checkpoint in
  let! d := self in
  let! _ := match file d with
            | Some f => on_world (syscall (fs_sync f))
            | None => ret tt
            end in
  update (set_file None).

Definition finalize : method name :=
  let! d := self in
  let! _ := liftr (fail_if (negb (is_complete d)) (Protocol "chunks missing")) in
  let! _ := seal in
  let! target := on_world (publish_no_replace (temp_path d) (target_path d)) in
  let! _ := on_world sync_parent_dir in
  let! _ := on_world (remove_file_if_exists (state_path d)) in
  let! _ := on_world sync_parent_dir in
  ret target.

Definition prepare_desktop_publication : method name :=
  let! d := self in
  let! _ := liftr (fail_if (negb (is_complete d)) (Protocol "download incomplete")) in
  let! _ := seal in
  ret (temp_path d).

(** [discard]: the removals are best effort. *)
Definition discard : method unit :=
  let! _ := update (set_file None) in
  let! d := self in
  let! _ := attempt (on_world (syscall (fs_remove (temp_path d)))) in
  let! _ := attempt (on_world (syscall (fs_remove (state_path d)))) in
  ret tt.

End WithHash.
End Storage.
