(* ===== verification/StorageProof.v ===== *)
(** * Resumable downloads: invariants and theorems (src/storage/mod.rs)

    The invariant [inv] of a download and its disk, what each operation of
    Storage.v does to the disk, and the theorems: resuming re-verifies, writing
    keeps the invariant, checkpoints survive a crash, finalizing never
    overwrites. *)
From Stdlib Require Import ZArith Lia.
From stdpp Require Import prelude gmap strings.
From S2P Require Import Prelude Bitmap Manifest State FileSystem Storage.

#[local] Open Scope Z_scope.

#[local] Arguments lit : simpl never.

Module StorageProof.
Import Manifest Storage.
Import ChunkBitmap (view, wf).

(** ** Names *)

Definition ends_with (n suffix : list Z) : Prop := exists p, n = p ++ suffix.

Lemma ends_with_differ n m a b :
  ends_with n a -> ends_with m b -> length a = length b -> a <> b -> n <> m.
Proof.
  intros [p ->] [q ->] Hl Hne E. apply Hne. by apply app_inj_2 in E as [_ ->].
Qed.

Lemma bitmap_tmp_path_ends n : ends_with (bitmap_tmp_path n) (lit ".tmp").
Proof. exists (file_stem n ++ lit ".bitmap"). unfold bitmap_tmp_path. by rewrite <- app_assoc. Qed.

Lemma bitmap_tmp_name_ends `{Hex} r : ends_with (bitmap_tmp_name r) (lit ".tmp").
Proof.
  exists (lit "bitmap-" ++ hex_encode (be_bytes 16 r)). unfold bitmap_tmp_name. by rewrite <- app_assoc.
Qed.

Lemma ends_with_tail n a b : ends_with n (a ++ b) -> ends_with n b.
Proof. intros [p ->]. exists (p ++ a). by rewrite <- app_assoc. Qed.

Lemma part_not_bitmap n m : ends_with n (lit ".part") -> ends_with m (lit ".bitmap") -> n <> m.
Proof.
  intros Hn Hm. apply (ends_with_tail _ (lit ".") (lit "part")) in Hn.
  apply (ends_with_tail _ (lit ".bi") (lit "tmap")) in Hm. by eapply ends_with_differ.
Qed.

Lemma part_not_tmp n m : ends_with n (lit ".part") -> ends_with m (lit ".tmp") -> n <> m.
Proof.
  intros Hn Hm. apply (ends_with_tail _ (lit ".") (lit "part")) in Hn. by eapply ends_with_differ.
Qed.

Lemma bitmap_not_tmp n m : ends_with n (lit ".bitmap") -> ends_with m (lit ".tmp") -> n <> m.
Proof.
  intros Hn Hm. apply (ends_with_tail _ (lit ".bi") (lit "tmap")) in Hn. by eapply ends_with_differ.
Qed.

(** ** What [save] does *)

(** A bitmap file [t] staged under [tmp]: nothing else differs from [k]. *)
Record staged (cap : bool) (tmp : name) (t : Z) (k k' : fs) : Prop := {
  staged_ino : t = next_ino k \/ (cap = false /\ dir k !! tmp = Some t);
  staged_next : next_ino k <= next_ino k' /\ t < next_ino k';
  staged_other : forall i, i <> t -> inode_of k' i = inode_of k i;
}.

(** The disk after a failed [save]: not started, staged, or renamed without the
    directory sync. *)
Definition save_failed (cap : bool) (path : name) (bits : list Z) (tmp : name) (k k' : fs) : Prop :=
  k' = k \/
  exists t, staged cap tmp t k k' /\ dir_syn k' = dir_syn k /\
    (dir k' = <[tmp := t]> (dir k) \/
     (dir k' = <[path := t]> (delete tmp (dir k)) /\
      cur (inode_of k' t) = bits /\ syn (inode_of k' t) = bits)).

Definition save_done (cap : bool) (path : name) (bits : list Z) (tmp : name) (k k' : fs) : Prop :=
  exists t, staged cap tmp t k k' /\
    dir k' = <[path := t]> (delete tmp (dir k)) /\ dir_syn k' = dir k' /\
    cur (inode_of k' t) = bits /\ syn (inode_of k' t) = bits.

(** Names in use are below the inode counter. *)
Definition fresh (k : fs) : Prop :=
  forall n i, dir k !! n = Some i \/ dir_syn k !! n = Some i -> i < next_ino k.

Lemma staged_new cap tmp k : fresh k -> staged cap tmp (next_ino k) k (snd (new_file tmp k)).
Proof.
  intros Hf. split; cbn; [by left|lia|]. intros i Hi. unfold inode_of. cbn.
  by rewrite lookup_insert_ne.
Qed.

Lemma staged_set cap tmp t k k' nd : staged cap tmp t k k' -> staged cap tmp t k (set_inode t nd k').
Proof.
  intros [H1 H2 H3]. split; [done|done|]. intros i Hi. rewrite inode_of_set.
  case_decide; [congruence|]. by apply H3.
Qed.

Lemma set_inode_dirs i nd k : dir (set_inode i nd k) = dir k /\ dir_syn (set_inode i nd k) = dir_syn k.
Proof. done. Qed.

Lemma write_content_nil i bits k : content k i = [] -> content (write_content i 0 bits k) i = bits.
Proof.
  intros E. unfold write_content. rewrite content_set, decide_True, E by done.
  unfold splice. cbn. by rewrite drop_nil, app_nil_r.
Qed.

Lemma write_content_set i off bits k : exists nd, write_content i off bits k = set_inode i nd k.
Proof. by eexists. Qed.

(** The tail shared by the two variants of [save], from the staged file on. *)
Lemma wp_save_tail cap path tmp t bits k w :
  staged cap tmp t k (disk w) -> dir_syn (disk w) = dir_syn k ->
  dir (disk w) = <[tmp := t]> (dir k) -> content (disk w) t = [] ->
  wp (let! _ := sys_write t 0 bits in
      let! _ := syscall (fs_sync t) in
      let! _ := syscall (fs_rename tmp path) in
      syscall fs_sync_dir)
    (fun _ w' => save_done cap path bits tmp k (disk w'))
    (fun _ w' => save_failed cap path bits tmp k (disk w')) w.
Proof.
  intros Hs Hsyn Hdir Hc.
  assert (forall w', (exists nd, disk w' = set_inode t nd (disk w)) ->
            save_failed cap path bits tmp k (disk w')) as Hfail.
  { intros w' [nd ->]. right. exists t. split; [by apply staged_set|]. split; [done | by left]. }
  apply wp_bind, wp_sys_write.
  { intros e n w' _ E. apply Hfail. rewrite E. apply write_content_set. }
  intros w1 E1. apply wp_bind, wp_syscall.
  { intros e w' _ E. apply Hfail. rewrite E, E1. apply write_content_set. }
  cbn. intros w2 E2. apply wp_bind, wp_syscall.
  { intros e w' _ E. apply Hfail. rewrite E, E2, E1. eexists. unfold write_content, set_content, set_inode.
    cbn. by rewrite insert_insert_eq. }
  unfold fs_rename. rewrite E2, E1. cbn. rewrite Hdir, lookup_insert_eq. intros w3 E3.
  assert (inode_of (disk w3) t = mk_inode bits bits (regular (inode_of (disk w) t))) as Et.
  { rewrite E3. unfold inode_of at 1. cbn. rewrite lookup_insert_eq. cbn.
    pose proof (write_content_nil t bits (disk w) Hc) as Ew. unfold content in Ew.
    rewrite Ew. f_equal. unfold write_content, set_content. by rewrite inode_of_set, decide_True. }
  assert (staged cap tmp t k (disk w3)) as Hs3.
  { destruct (staged_set cap tmp t k (disk w) (inode_of (disk w3) t) Hs) as [S1 S2 S3].
    split; [done|rewrite E3; apply S2|]. intros i Hi. rewrite <- S3 by done. rewrite E3.
    unfold inode_of. cbn. by rewrite !lookup_insert_ne. }
  assert (dir (disk w3) = <[path := t]> (delete tmp (dir k))) as Hd3.
  { rewrite E3. cbn. by rewrite delete_insert_eq. }
  apply wp_syscall.
  - intros e w' _ ->. right. exists t. split; [done|].
    split; [rewrite E3; done|]. right. by rewrite Et.
  - cbn. intros w4 ->. exists t. destruct Hs3. split; [by split|]. cbn.
    change (inode_of (mk_fs _ _ _ _) t) with (inode_of (disk w3) t). by rewrite Et.
Qed.

(** [save] stages, syncs, renames and syncs the directory, under a temporary
    name of its own. *)
Lemma wp_save `{Hex} cap path bm w : fresh (disk w) ->
  exists tmp, ends_with tmp (lit ".tmp") /\ (cap = false -> tmp = bitmap_tmp_path path) /\
  wp (save cap path bm)
    (fun _ w' => save_done cap path (ChunkBitmap.bits bm) tmp (disk w) (disk w'))
    (fun _ w' => save_failed cap path (ChunkBitmap.bits bm) tmp (disk w) (disk w')) w.
Proof.
  intros Hf. unfold save, save_bitmap, ChunkBitmap.to_bytes, sync_parent_dir, replace_bitmap_file.
  destruct cap.
  - exists (bitmap_tmp_name (hd 0 (rng w))). split; [apply bitmap_tmp_name_ends|]. split; [done|].
    set (tmp := bitmap_tmp_name (hd 0 (rng w))).
    apply wp_bind. unfold wp at 1, random_u128. fold tmp.
    set (w0 := mk_world _ _ _ _). assert (disk w0 = disk w) as Ew by done.
    clearbody w0 tmp. rewrite <- Ew in Hf |- *. clear Ew.
    apply wp_bind, wp_syscall.
    { intros e w' _ ->. by left. }
    unfold fs_create_new. destruct (dir (disk w0) !! tmp) eqn:E; [intros w' ->; by left|].
    intros w1 E1. apply wp_save_tail; rewrite E1; cbn; try done.
    + by apply staged_new.
    + unfold content, inode_of. cbn. by rewrite lookup_insert_eq.
  - exists (bitmap_tmp_path path). split; [apply bitmap_tmp_path_ends|]. split; [done|].
    set (tmp := bitmap_tmp_path path). apply wp_bind, wp_syscall.
    { intros e w' _ ->. by left. }
    unfold fs_create. destruct (dir (disk w) !! tmp) as [t|] eqn:E.
    + intros w1 E1. apply wp_save_tail; rewrite E1; cbn.
      * split; [by right| |]; cbn.
        -- split; [lia|]. apply (Hf tmp). by left.
        -- intros i Hi. unfold set_content. rewrite inode_of_set. by case_decide.
      * done.
      * by rewrite insert_id.
      * by rewrite content_set, decide_True.
    + intros w1 E1. apply wp_save_tail; rewrite E1; cbn; try done.
      * by apply staged_new.
      * unfold content, inode_of. cbn. by rewrite lookup_insert_eq.
Qed.

(** ** The invariant of a download *)

Section Invariant.
Context `{Blake3} {hexc : Hex}.

(** The [i]-th chunk of [bytes] is the one the manifest describes. *)
Definition chunk_ok (m : FileManifest) (bytes : list Z) (i : Z) : bool :=
  match chunk_range m i, chunks m !! Z.to_nat i with
  | Some range, Some h =>
      (Z.of_nat (length (slice bytes range)) =? range.2) && hash_verify h (slice bytes range)
  | _, _ => false
  end.

Lemma verify_chunk_slice m i bytes range : valid m -> is_u64 (total_len m) -> 0 <= i ->
  chunk_range m i = Some range ->
  verify_chunk m i (slice bytes range) = Ok (chunk_ok m bytes i).
Proof.
  intros Hv Ht Hi Hr. destruct (verify_chunk_spec m i (slice bytes range) Hv Ht Hi) as (b & E & Hb).
  rewrite E. f_equal. apply eq_true_iff_eq. rewrite Hb. unfold chunk_ok. rewrite Hr.
  destruct (chunks m !! Z.to_nat i) as [h|] eqn:Eh.
  - unfold hash_verify. rewrite andb_true_iff, Z.eqb_eq, bool_decide_eq_true. unfold hash_of. naive_solver.
  - naive_solver.
Qed.

(** The disk side: the part file is open as [f], has its full length and holds
    every chunk marked in [bm]. *)
Record holds (m : FileManifest) (bm : ChunkBitmap.t) (bytes : list Z) : Prop := {
  holds_length : Z.of_nat (length bytes) = total_len m;
  holds_chunks : forall i, 0 <= i -> view bm i = true -> chunk_ok m bytes i = true;
}.

Record names_ok (temp state : name) : Prop := {
  temp_ends : ends_with temp (lit ".part");
  state_ends : ends_with state (lit ".bitmap");
}.

(** The directory side: [f] is the entry [temp], and no temporary bitmap is
    another name of it. *)
Record layout (cap : bool) (temp state : name) (f : Z) (k : fs) : Prop := {
  layout_fresh : fresh k;
  layout_file : f < next_ino k;
  layout_temp : dir k !! temp = Some f;
  layout_tmp : cap = false ->
    dir k !! bitmap_tmp_path state <> Some f /\ dir_syn k !! bitmap_tmp_path state <> Some f;
}.

Record inv (s : PartialDownload * world) : Prop := {
  inv_valid : valid (manifest s.1);
  inv_u64 : is_u64 (total_len (manifest s.1));
  inv_written : wf (written_bitmap s.1) /\
    ChunkBitmap.chunk_count (written_bitmap s.1) = chunk_count (manifest s.1);
  inv_durable : wf (durable_bitmap s.1) /\
    ChunkBitmap.chunk_count (durable_bitmap s.1) = chunk_count (manifest s.1) /\
    (forall i, 0 <= i -> view (durable_bitmap s.1) i = true -> view (written_bitmap s.1) i = true);
  inv_names : names_ok (temp_path s.1) (state_path s.1);
  inv_file : exists f, file s.1 = Some f /\ 
    layout (capability s.1) (temp_path s.1) (state_path s.1) f (disk s.2) /\
    holds (manifest s.1) (written_bitmap s.1) (content (disk s.2) f);
}.

(** [save] leaves the part file and its entry alone, whether it fails or not. *)
Lemma staged_keeps cap temp state f tmp t k k' :
  names_ok temp state -> layout cap temp state f k -> ends_with tmp (lit ".tmp") ->
  (cap = false -> tmp = bitmap_tmp_path state) -> staged cap tmp t k k' ->
  (dir k' = <[tmp := t]> (dir k) \/ dir k' = <[state := t]> (delete tmp (dir k))) ->
  (dir_syn k' = dir_syn k \/ dir_syn k' = dir k') ->
  layout cap temp state f k' /\ inode_of k' f = inode_of k f /\ t <> f.
Proof.
  intros [Hn1 Hn2] [L1 L2 L3 L4] Htmp Hcap [S1 S2 S3] Hdir Hsyn.
  pose proof (part_not_tmp _ _ Hn1 Htmp) as Hne1. pose proof (part_not_bitmap _ _ Hn1 Hn2) as Hne2.
  pose proof (bitmap_not_tmp _ _ Hn2 Htmp) as Hne3.
  assert (t <> f) as Htf.
  { intros ->. destruct S1 as [->|[Hc E]]; [lia|]. destruct (L4 Hc) as [E' _].
    apply E'. by rewrite <- Hcap. }
  assert (forall n i, dir k' !! n = Some i -> i = t \/ dir k !! n = Some i) as Hent.
  { intros n i Hi. destruct Hdir as [Hd|Hd]; rewrite Hd in Hi;
      apply lookup_insert_Some in Hi as [[_ ?]|[_ Hi]]; auto.
    apply lookup_delete_Some in Hi as [_ Hi]. auto. }
  assert (forall n i, dir_syn k' !! n = Some i -> i = t \/ dir k !! n = Some i \/ dir_syn k !! n = Some i)
    as Hsent.
  { intros n i Hi. destruct Hsyn as [Hd|Hd]; rewrite Hd in Hi; [auto|].
    apply Hent in Hi as [?|?]; auto. }
  split; [|split; [by apply S3|done]]. split.
  - intros n i [Hi|Hi].
    + apply Hent in Hi as [->|Hi]; [lia|]. pose proof (L1 n i ltac:(by left)). lia.
    + apply Hsent in Hi as [->|Hi]; [lia|]. pose proof (L1 n i Hi). lia.
  - lia.
  - destruct Hdir as [->| ->]; rewrite lookup_insert_ne by done; [done|].
    by rewrite lookup_delete_ne.
  - intros Hc. destruct (L4 Hc) as [E1 E2]. split; intros E.
    + apply Hent in E as [E|E]; congruence.
    + apply Hsent in E as [E|[E|E]]; congruence.
Qed.

Lemma save_done_keeps cap temp state bits tmp f k k' :
  names_ok temp state -> layout cap temp state f k -> ends_with tmp (lit ".tmp") ->
  (cap = false -> tmp = bitmap_tmp_path state) -> save_done cap state bits tmp k k' ->
  layout cap temp state f k' /\ inode_of k' f = inode_of k f.
Proof.
  intros Hn Hl Ht Hc (t & Hs & Hd & Hy & _).
  destruct (staged_keeps cap temp state f tmp t k k') as (? & ? & _); auto.
Qed.

Lemma save_failed_keeps cap temp state bits tmp f k k' :
  names_ok temp state -> layout cap temp state f k -> ends_with tmp (lit ".tmp") ->
  (cap = false -> tmp = bitmap_tmp_path state) -> save_failed cap state bits tmp k k' ->
  layout cap temp state f k' /\ inode_of k' f = inode_of k f.
Proof.
  intros Hn Hl Ht Hc [->|(t & Hs & Hy & Hd)]; [done|].
  destruct (staged_keeps cap temp state f tmp t k k') as (? & ? & _); auto. naive_solver.
Qed.

Lemma chunk_count_u32 m : is_u32 (chunk_count m).
Proof.
  unfold chunk_count, in_range, U32_MAX.
  pose proof (Z.mod_pos_bound (Z.of_nat (length (chunks m))) (4294967295 + 1)). lia.
Qed.

(** ** Loading and re-verifying *)

Definition byte_disk (k : fs) : Prop := forall i, are_bytes (content k i).

(** What a bitmap file says; anything else than the bytes of a bitmap of that
    size is no progress. *)
Definition loaded (n : Z) (bytes : option (list Z)) : ChunkBitmap.t :=
  match bytes with
  | Some bs =>
      match ChunkBitmap.from_bytes n bs with
      | Ok bm => bm
      | _ => ChunkBitmap.new n
      end
  | None => ChunkBitmap.new n
  end.

Lemma loaded_wf n bytes : is_u32 n -> (forall bs, bytes = Some bs -> are_bytes bs) ->
  wf (loaded n bytes) /\ ChunkBitmap.chunk_count (loaded n bytes) = n.
Proof.
  intros Hn Hb. unfold loaded. pose proof (ChunkBitmap.new_wf n Hn).
  destruct bytes as [bs|]; [|done].
  destruct (ChunkBitmap.from_bytes n bs) as [bm| |] eqn:E; try done.
  apply ChunkBitmap.from_bytes_spec in E as [-> Hw]; auto.
Qed.

Lemma from_bytes_no_panic n bs : ChunkBitmap.from_bytes n bs <> Panic.
Proof.
  unfold ChunkBitmap.from_bytes, fail_if. by repeat (case_match; cbn in *; simplify_eq).
Qed.

Lemma genuine_not_found k : genuine k = true -> k <> NotFound /\ k <> UnexpectedEof /\ k <> AlreadyExists.
Proof. unfold genuine. rewrite bool_decide_eq_true. set_solver. Qed.

Lemma wp_secure_open n w (Q : Z -> world -> Prop) (R : error -> world -> Prop) :
  (forall e w', e <> Io NotFound -> disk w' = disk w -> R e w') ->
  (forall w', disk w' = disk w -> match dir (disk w) !! n with
     | Some i => Q i w'
     | None => R (Io NotFound) w'
     end) ->
  wp (secure_open n false) Q R w.
Proof.
  intros HR HQ. unfold secure_open. apply wp_bind, wp_syscall.
  { intros k w' Hk E. apply HR; [|done]. intros [= ->]. by apply genuine_not_found in Hk as [? _]. }
  unfold fs_open. destruct (dir (disk w) !! n) as [i|].
  2: { intros w' E. by apply HQ. }
  intros w1 E1. apply wp_bind, wp_syscall.
  { intros k w' Hk E. apply HR; [|congruence]. intros [= ->]. by apply genuine_not_found in Hk as [? _]. }
  intros w2 E2. destruct (regular _); [apply HQ | apply HR]; [congruence | done | congruence].
Qed.

(** [load] only reads. Without a capability it returns exactly what the file
    says. *)
Lemma wp_load cap n c w : is_u32 c -> byte_disk (disk w) ->
  wp (load cap n c)
    (fun r w' => disk w' = disk w /\ wf r.1 /\ ChunkBitmap.chunk_count r.1 = c /\
       (cap = false -> r.1 = loaded c (content (disk w) <$> dir (disk w) !! n)))
    (fun _ w' => disk w' = disk w) w.
Proof.
  intros Hc Hb. pose proof (ChunkBitmap.new_wf c Hc) as Hnew.
  assert (forall bs bm, are_bytes bs -> ChunkBitmap.from_bytes c bs = Ok bm ->
            wf bm /\ ChunkBitmap.chunk_count bm = c) as Hfrom.
  { intros bs bm Hbs [-> Hw]%ChunkBitmap.from_bytes_spec; done. }
  unfold load, load_bitmap. destruct cap.
  - apply wp_bind, wp_attempt, wp_secure_open.
    { intros e w' Hne E. destruct e as [[]| | | | | | |]; try done. }
    intros w1 E1. destruct (dir (disk w) !! n) as [i|]; [|done].
    apply wp_bind, wp_syscall; [congruence|]. cbn. intros w2 E2.
    pose proof (from_bytes_no_panic c (take (Z.to_nat (div_ceil c 8 + 1)) (content (disk w1) i))).
    destruct (ChunkBitmap.from_bytes _ _) as [bm| |] eqn:E; [| |done].
    + apply wp_ret. cbn. apply Hfrom in E as [? ?]; [|rewrite E1; by apply Forall_take].
      split; [congruence|done].
    + apply wp_ret. cbn. split; [congruence|done].
  - apply wp_bind, wp_attempt, wp_syscall.
    { intros k w' Hk E. apply genuine_not_found in Hk as (? & _). by destruct k. }
    unfold fs_read_file. destruct (dir (disk w) !! n) as [i|]; cbn; [|done].
    intros w1 E1. pose proof (from_bytes_no_panic c (content (disk w) i)).
    destruct (ChunkBitmap.from_bytes _ _) as [bm| |] eqn:E; [| |done].
    + apply wp_ret. cbn. destruct (Hfrom _ _ (Hb i) E). done.
    + apply wp_ret. cbn. done.
Qed.

(** Clearing the chunks that fail. *)
Lemma wp_verify_existing m f w bm0 changed0 : valid m -> is_u64 (total_len m) -> wf bm0 ->
  ChunkBitmap.chunk_count bm0 = chunk_count m ->
  wp (let! present := liftr (ChunkBitmap.present bm0) in
      for_fold (verify_existing m f) (bm0, changed0) present)
    (fun r w' => disk w' = disk w /\ wf r.1 /\ ChunkBitmap.chunk_count r.1 = chunk_count m /\
       forall i, 0 <= i -> view r.1 i = view bm0 i && chunk_ok m (content (disk w) f) i)
    (fun _ w' => disk w' = disk w) w.
Proof.
  intros Hv Ht Hw Hn. rewrite ChunkBitmap.present_spec by done. apply wp_bind, wp_liftr.
  set (l := List.filter (view bm0) (seqZ 0 (ChunkBitmap.chunk_count bm0))).
  set (ok := chunk_ok m (content (disk w) f)).
  assert (forall i, 0 <= i -> view bm0 i = bool_decide (i ∈ l)) as Hl.
  { intros i Hi. symmetry. apply eq_true_iff_eq. rewrite bool_decide_eq_true.
    unfold l. rewrite list_elem_of_In, filter_In, <- list_elem_of_In, elem_of_seqZ.
    split; [naive_solver|]. intros Hi'. split; [|done]. split; [lia|].
    destruct (Z.lt_ge_cases i (0 + ChunkBitmap.chunk_count bm0)) as [|Hge]; [done|].
    by rewrite ChunkBitmap.wf_padding in Hi' by (done || lia). }
  assert (forall i, i ∈ l -> 0 <= i < chunk_count m) as Hrange.
  { intros i. unfold l. rewrite list_elem_of_In, filter_In, <- list_elem_of_In, elem_of_seqZ. lia. }
  assert (NoDup l) as Hnd by apply NoDup_list_filter, NoDup_seqZ.
  eapply wp_conseq; [apply (wp_for_fold _ _ _ (fun rest r w' =>
    disk w' = disk w /\ wf r.1 /\ ChunkBitmap.chunk_count r.1 = chunk_count m /\ NoDup rest /\
    (forall i, i ∈ rest -> 0 <= i < chunk_count m) /\
    forall i, 0 <= i -> view r.1 i = view bm0 i && (bool_decide (i ∈ rest) || ok i))
    (fun _ w' => disk w' = disk w))| |].
  - split; [done|]. do 2 (split; [done|]). split; [done|]. split; [done|]. intros i Hi. cbn.
    rewrite Hl by done. case_bool_decide; done.
  - intros x rest [bm changed] w' (Ew & Hwb & Hcb & Hnd' & Hr & Hview).
    cbn [fst] in Hwb, Hcb, Hview.
    apply NoDup_cons in Hnd' as [Hx Hnd'].
    destruct (Hr x) as [Hx0 Hx1]; [by left|]. rewrite valid_chunk_count in Hx1 by done.
    pose proof (chunk_range_spec m x Hv Ht Hx0) as Er.
    destruct (Z.ltb_spec x (Z.of_nat (length (chunks m)))); [|lia].
    set (range := (x * chunk_size m, Z.min (total_len m - x * chunk_size m) (chunk_size m))) in Er.
    unfold verify_existing. rewrite Er. apply wp_bind, wp_liftr. cbn [ok_or].
    assert (forall b c w'', disk w'' = disk w -> ok x = b ->
      wp (if b then ret (bm, changed)
          else let! bm' := liftr (ChunkBitmap.clear bm x) in ret (bm', c))
        (fun r w' => disk w' = disk w /\ wf r.1 /\ ChunkBitmap.chunk_count r.1 = chunk_count m /\
           NoDup rest /\ (forall i, i ∈ rest -> 0 <= i < chunk_count m) /\
           forall i, 0 <= i -> view r.1 i = view bm0 i && (bool_decide (i ∈ rest) || ok i))
        (fun _ w' => disk w' = disk w) w'') as Hstep.
    { intros b c w'' Ew' Hok. destruct b.
      - apply wp_ret. cbn. do 4 (split; [done|]). split; [set_solver|].
        intros i Hi. rewrite Hview by done. f_equal.
        destruct (decide (i = x)) as [->|]; [rewrite Hok, !orb_true_r; done|].
        f_equal. apply bool_decide_ext. set_solver.
      - destruct (ChunkBitmap.clear_spec bm x Hwb) as (bm' & -> & Hw' & Hc' & Hv').
        { rewrite Hcb, valid_chunk_count by done. lia. }
        apply wp_bind, wp_liftr, wp_ret. cbn. split; [done|]. split; [done|]. split; [lia|].
        split; [done|]. split; [set_solver|]. intros i Hi. rewrite Hv', Hview by done.
        destruct (Z.eqb_spec i x) as [->|Hne]; cbn.
        + rewrite (bool_decide_false (x ∈ rest)), Hok by done. by rewrite andb_false_r.
        + do 2 f_equal. apply bool_decide_ext. set_solver. }
    apply wp_bind, wp_attempt, wp_syscall.
    { intros k w1 Hk E1. apply genuine_not_found in Hk as (_ & ? & _).
      assert (disk w1 = disk w) by congruence. by destruct k. }
    unfold fs_read. destruct (Z.ltb_spec (Z.of_nat (length (take (Z.to_nat range.2)
      (drop (Z.to_nat range.1) (content (disk w') f))))) range.2) as [Hlt|Hge].
    + intros w1 E1. apply (Hstep false); [congruence|]. unfold ok, chunk_ok. rewrite Er.
      destruct (chunks m !! Z.to_nat x); [|done]. rewrite <- Ew. unfold slice.
      rewrite (proj2 (Z.eqb_neq _ _)); [done|lia].
    + intros w1 E1. change (take _ (drop _ (content (disk w') f))) with (slice (content (disk w') f) range).
      rewrite (verify_chunk_slice m x _ range) by done. apply wp_bind, wp_liftr.
      apply Hstep; [congruence|]. by rewrite Ew.
  - cbn. intros [bm c] w' (? & ? & ? & _ & _ & Hview). do 3 (split; [done|]). done.
  - done.
Qed.

(** ** Verified length *)

Definition chunk_length (m : FileManifest) (i : Z) : Z := default 0 (snd <$> chunk_range m i).
Definition sum_lengths (m : FileManifest) (l : list Z) : Z :=
  foldr (fun i acc => chunk_length m i + acc) 0 l.

Lemma sum_lengths_app m l1 l2 : sum_lengths m (l1 ++ l2) = sum_lengths m l1 + sum_lengths m l2.
Proof. unfold sum_lengths. induction l1 as [|x l1 IH]; [done|]. cbn. rewrite IH. lia. Qed.

Lemma chunk_length_range m i : valid m -> is_u64 (total_len m) ->
  0 <= i < Z.of_nat (length (chunks m)) ->
  chunk_length m i = Z.min (total_len m - i * chunk_size m) (chunk_size m) /\ 0 <= chunk_length m i.
Proof.
  intros Hv Ht Hi. unfold chunk_length. rewrite chunk_range_spec by (done || lia).
  destruct (Z.ltb_spec i (Z.of_nat (length (chunks m)))); [|lia]. cbn. split; [done|].
  pose proof (valid_size_pos m Hv). pose proof (valid_count m Hv) as Hc.
  destruct (count_of_spec (total_len m) (chunk_size m)) as [Hb|[? ?]]; [apply Ht|done|nia|lia].
Qed.

Lemma sum_lengths_all m k : valid m -> is_u64 (total_len m) -> (k <= length (chunks m))%nat ->
  sum_lengths m (seqZ 0 (Z.of_nat k)) = Z.min (Z.of_nat k * chunk_size m) (total_len m).
Proof.
  intros Hv Ht. pose proof (valid_size_pos m Hv) as Hs. induction k as [|k IH]; intros Hk.
  { unfold in_range in Ht. rewrite Z.mul_0_l, Z.min_l by lia. done. }
  rewrite seqZ_S, sum_lengths_app, IH by lia. cbn [sum_lengths foldr]. unfold sum_lengths. cbn [foldr].
  destruct (chunk_length_range m (0 + Z.of_nat k) Hv Ht) as [-> ?]; lia.
Qed.

Lemma sum_lengths_filter m f l : valid m -> is_u64 (total_len m) ->
  (forall i, i ∈ l -> 0 <= i < Z.of_nat (length (chunks m))) ->
  0 <= sum_lengths m (List.filter f l) <= sum_lengths m l.
Proof.
  intros Hv Ht. induction l as [|x l IH]; intros Hl; [done|].
  assert (0 <= sum_lengths m (List.filter f l) <= sum_lengths m l) as IH'
    by (apply IH; intros i Hi; apply Hl; by right).
  destruct (chunk_length_range m x Hv Ht) as [_ Hx]; [apply Hl; by left|].
  cbn [List.filter]. destruct (f x); cbn [sum_lengths foldr] in *; unfold sum_lengths in *; cbn [foldr]; lia.
Qed.

Lemma verified_fold m l s : valid m -> is_u64 (total_len m) ->
  (forall i, i ∈ l -> 0 <= i < Z.of_nat (length (chunks m))) ->
  s + sum_lengths m l <= U64_MAX ->
  fold_outcome (fun sum index =>
    let? range := ok_or (chunk_range m index) (Protocol "bitmap chunk out of range") in
    ok_or (checked_add U64_MAX sum range.2) (Protocol "progress overflow")) s l
  = Ok (s + sum_lengths m l).
Proof.
  intros Hv Ht. revert s. induction l as [|x l IH]; intros s Hin Hmax; cbn [fold_outcome].
  { cbn. f_equal. lia. }
  destruct (Hin x) as [Hx0 Hx1]; [by left|].
  destruct (chunk_length_range m x Hv Ht) as [El Hx]; [done|].
  assert (forall i, i ∈ l -> 0 <= i < Z.of_nat (length (chunks m))) as Hin'
    by (intros i Hi; apply Hin; by right).
  assert (0 <= sum_lengths m l) as Hl.
  { rewrite <- (filter_id (fun _ => true) l) by (by apply Forall_true).
    by apply sum_lengths_filter. }
  unfold sum_lengths in *. cbn [foldr] in *. unfold chunk_length in *.
  rewrite chunk_range_spec in * by done.
  destruct (Z.ltb_spec x (Z.of_nat (length (chunks m)))); [|lia]. cbn in *.
  set (n := Z.min (total_len m - x * chunk_size m) (chunk_size m)) in *.
  rewrite (proj2 (checked_add_Some U64_MAX s n (s + n))) by (split; lia). cbn.
  rewrite IH; [f_equal; lia|done|lia].
Qed.

(** The demand the caller is asked to allow is the length of the chunks that
    are not verified yet. *)
Lemma verified_len_spec m bm : valid m -> is_u64 (total_len m) -> wf bm ->
  ChunkBitmap.chunk_count bm = chunk_count m ->
  let present := List.filter (view bm) (seqZ 0 (chunk_count m)) in
  verified_len m bm = Ok (sum_lengths m present) /\ 0 <= sum_lengths m present <= total_len m.
Proof.
  intros Hv Ht Hw Hn present.
  assert (0 <= sum_lengths m present <= total_len m) as Hb.
  { assert (sum_lengths m (seqZ 0 (chunk_count m)) <= total_len m) as Hall.
    { rewrite valid_chunk_count, sum_lengths_all by (done || lia). lia. }
    assert (0 <= sum_lengths m present <= sum_lengths m (seqZ 0 (chunk_count m))); [|lia].
    apply sum_lengths_filter; [done..|]. intros i Hi%elem_of_seqZ.
    rewrite valid_chunk_count in Hi by done. lia. }
  split; [|done]. unfold verified_len. rewrite ChunkBitmap.present_spec, Hn by done. cbn [obind].
  fold present. assert (forall i, i ∈ present -> 0 <= i < Z.of_nat (length (chunks m))) as Hin.
  { intros i. unfold present. rewrite list_elem_of_In, filter_In, <- list_elem_of_In, elem_of_seqZ.
    rewrite valid_chunk_count by done. lia. }
  assert (sum_lengths m present <= U64_MAX) as Hmax by (unfold in_range in Ht; lia).
  clearbody present. clear Hb. rewrite <- (Z.add_0_l (sum_lengths m present)).
  apply (verified_fold m present 0); done.
Qed.

(** ** Creating *)

Lemma wp_open_existing cap n w :
  wp (open_existing_part cap n)
    (fun r w' => disk w' = disk w /\ r = dir (disk w) !! n)
    (fun _ w' => disk w' = disk w) w.
Proof.
  unfold open_existing_part. destruct cap.
  - apply wp_bind, wp_attempt, wp_secure_open.
    + intros e w' Hne E. destruct e as [[]| | | | | | |]; done.
    + intros w' E. by destruct (dir (disk w) !! n).
  - apply wp_bind, wp_attempt, wp_syscall.
    { intros k w' Hk E. apply genuine_not_found in Hk as (? & _). by destruct k. }
    unfold fs_open. by destruct (dir (disk w) !! n).
Qed.

Lemma wp_staging cap m w :
  wp (staging_paths cap m)
    (fun r w' => disk w' = disk w /\
       ends_with r.1 (lit ".part") /\ ends_with r.2 (lit ".bitmap") /\
       (cap = false -> r = (temp_path_for m, state_path_for m)))
    (fun _ w' => disk w' = disk w) w.
Proof.
  assert (ends_with (temp_path_for m) (lit ".part")) as Hp.
  { unfold temp_path_for. exists (safe_file_name (file_name m) ++ lit "." ++
      take 16 (to_hex (root_hash m))). by rewrite <- !app_assoc. }
  assert (ends_with (state_path_for m) (lit ".bitmap")) as Hs.
  { unfold state_path_for. exists (safe_file_name (file_name m) ++ lit "." ++
      take 16 (to_hex (root_hash m))). by rewrite <- !app_assoc. }
  assert (ends_with (lit "data.part") (lit ".part")) as Hp' by (by exists (lit "data")).
  assert (ends_with (lit "data.bitmap") (lit ".bitmap")) as Hs' by (by exists (lit "data")).
  unfold staging_paths. destruct cap; [|done]. apply wp_bind, wp_attempt.
  destruct (_ <=? _); [|done]. apply wp_syscall.
  - intros k w' Hk E. by destruct k.
  - unfold fs_stat. by destruct (dir (disk w) !! temp_path_for m).
Qed.

(** The part file after opening or creating it. *)
Lemma wp_open_part cap n w : dir (disk w) !! n = None ->
  wp (open_part cap n)
    (fun f w' => f = next_ino (disk w) /\ disk w' = snd (new_file n (disk w)))
    (fun _ w' => disk w' = disk w \/ disk w' = snd (new_file n (disk w))) w.
Proof.
  intros Hn. unfold open_part, secure_open. destruct cap.
  - apply wp_bind, wp_syscall; [by left|]. unfold fs_open_create. rewrite Hn. cbn. intros w1 E1.
    apply wp_bind, wp_syscall; [intros k w' _ ->; by right|]. cbn. intros w2 E2.
    rewrite E1. unfold inode_of at 1. cbn. rewrite lookup_insert_eq. cbn.
    split; [done|congruence].
  - apply wp_syscall; [by left|]. unfold fs_open_create. rewrite Hn. cbn. done.
Qed.

Lemma new_file_content n k i : i <> next_ino k -> content (snd (new_file n k)) i = content k i.
Proof. intros Hi. unfold content, inode_of. cbn. by rewrite lookup_insert_ne. Qed.

Lemma new_file_content_new n k : content (snd (new_file n k)) (next_ino k) = [].
Proof. unfold content, inode_of. cbn. by rewrite lookup_insert_eq. Qed.

Lemma wp_save_keeps cap temp state f bm w : names_ok temp state -> layout cap temp state f (disk w) ->
  wp (save cap state bm)
    (fun _ w' => layout cap temp state f (disk w') /\ content (disk w') f = content (disk w) f)
    (fun _ w' => layout cap temp state f (disk w') /\ content (disk w') f = content (disk w) f) w.
Proof.
  intros Hn Hl. destruct (wp_save cap state bm w (layout_fresh _ _ _ _ _ Hl)) as (tmp & Ht & Hc & Hw).
  eapply wp_conseq; [exact Hw|..]; cbn; intros _ w' Hs;
    [eapply save_done_keeps in Hs as [? E] | eapply save_failed_keeps in Hs as [? E]]; try done;
    (split; [done|]); unfold content; by rewrite E.
Qed.

(** What the caller of [create] has to know of the disk: bytes are bytes, inode
    numbers are used once, and the part file has no second name that [save]
    would truncate. *)
Record usable (cap : bool) (m : FileManifest) (k : fs) : Prop := {
  usable_bytes : byte_disk k;
  usable_fresh : fresh k;
  usable_tmp : cap = false -> forall f, dir k !! temp_path_for m = Some f ->
    dir k !! bitmap_tmp_path (state_path_for m) <> Some f /\
    dir_syn k !! bitmap_tmp_path (state_path_for m) <> Some f;
}.

(** The progress a resumed download keeps. *)
Definition resumable (m : FileManifest) (k : fs) (temp state : name) (i : Z) : bool :=
  match dir k !! temp with
  | Some f =>
      (Z.of_nat (length (content k f)) =? total_len m) &&
      view (loaded (chunk_count m) (content k <$> dir k !! state)) i && chunk_ok m (content k f) i
  | None => false
  end.

(** The sum the admission sees. *)
Definition remaining (m : FileManifest) (bm : ChunkBitmap.t) : Z :=
  total_len m - sum_lengths m (List.filter (view bm) (seqZ 0 (chunk_count m))).

Record created {T : Type} (cap : bool) (m : FileManifest) (policy : CheckpointPolicy)
    (admission_check : Z -> result T) (k : fs) (d : PartialDownload) (t : T) (w' : world) : Prop := {
  created_inv : inv (d, w');
  created_manifest : manifest d = m /\ capability d = cap /\ checkpoint_policy d = policy;
  created_durable : durable_bitmap d = written_bitmap d /\ dirty_bytes d = 0;
  created_admitted : admission_check (remaining m (written_bitmap d)) = Ok t;
  created_paths : cap = false -> temp_path d = temp_path_for m /\ state_path d = state_path_for m;
  created_progress : cap = false -> forall i, 0 <= i ->
    view (written_bitmap d) i = resumable m k (temp_path d) (state_path d) i;
}.

Lemma layout_set_inode cap temp state f i nd k :
  layout cap temp state f k -> layout cap temp state f (set_inode i nd k).
Proof. intros [? ? ? ?]. by split. Qed.

(** The tail of [create]: start over, or repair the bitmap file. *)
Lemma wp_create_repair cap m temp state f bm (reset changed : bool) w :
  0 <= total_len m -> names_ok temp state -> layout cap temp state f (disk w) ->
  (reset = true -> forall i, 0 <= i -> view bm i = true -> False) ->
  (reset = false -> holds m bm (content (disk w) f)) ->
  wp (if reset then
        let! _ := syscall (fs_set_len f 0) in
        let! _ := syscall (fs_set_len f (total_len m)) in
        let! _ := syscall (fs_sync f) in
        save cap state bm
      else if changed then save cap state bm
      else ret tt)
    (fun _ w' => layout cap temp state f (disk w') /\ holds m bm (content (disk w') f))
    (fun _ _ => True) w.
Proof.
  intros Ht Hn Hl Hreset Hkeep. destruct reset.
  - apply wp_bind, wp_syscall; [done|]. cbn. intros w1 E1.
    apply wp_bind, wp_syscall; [done|]. cbn. intros w2 E2.
    apply wp_bind, wp_syscall; [done|]. cbn. intros w3 E3.
    assert (layout cap temp state f (disk w3)) as Hl3.
    { rewrite E3, E2, E1. unfold set_content. by repeat apply layout_set_inode. }
    eapply wp_conseq; [by apply wp_save_keeps| |done]. cbn. intros _ w4 [Hl4 E4].
    split; [done|]. split; [|naive_solver]. rewrite E4, E3. unfold content at 1.
    rewrite inode_of_set, decide_True by done. cbn. rewrite E2.
    change (cur (inode_of ?k f)) with (content k f). rewrite content_set, decide_True by done.
    rewrite length_resize. lia.
  - specialize (Hkeep eq_refl). destruct changed; [|done].
    eapply wp_conseq; [by apply wp_save_keeps| |done]. cbn. intros _ w4 [Hl4 E4].
    split; [done|]. by rewrite E4.
Qed.

Lemma wp_create {T} cap m policy (admission_check : Z -> result T) w :
  is_u64 (total_len m) -> usable cap m (disk w) ->
  (forall r, admission_check r <> Panic) ->
  wp (create_in_with_admission cap m policy admission_check)
    (fun r w' => created cap m policy admission_check (disk w) r.1 r.2 w')
    (fun _ w' => disk w' = disk w \/ exists bm t, admission_check (remaining m bm) = Ok t) w.
Proof.
  intros Hu [Hbytes Hfresh Htmp] Hadm. unfold create_in_with_admission.
  apply wp_bind, wp_liftr. destruct (validate_total m) as [E|[tag E]]; rewrite E; [|by left].
  apply validate_Ok in E as Hv. clear E.
  apply wp_bind. eapply wp_conseq; [apply wp_staging| |by left].
  cbn. intros [temp state] w1 (E1 & Hends1 & Hends2 & Hcap). cbn in Hends1, Hends2.
  assert (names_ok temp state) as Hnames by done.
  apply wp_bind. eapply wp_conseq; [apply wp_load; [apply chunk_count_u32|by rewrite E1]| |].
  2: { cbn. intros _ w' E. left. congruence. }
  cbn. intros [bm0 repair] w2 (E2 & Hwf0 & Hcnt0 & Hload). cbn in Hwf0, Hcnt0, Hload.
  apply wp_bind. eapply wp_conseq; [apply wp_open_existing| |].
  2: { cbn. intros _ w' E. left. congruence. }
  cbn. intros existing w3 (E3 & Hex).
  assert (disk w3 = disk w) as E3' by congruence. rewrite E2, E1 in Hex. rewrite E1 in Hload.
  clear E1 E2 E3 w1 w2.
  set (full := match existing with
               | Some f => Z.of_nat (length (content (disk w) f)) =? total_len m
               | None => false end).
  (* whether to start over *)
  apply wp_bind. apply (wp_conseq _ (fun reset w' => disk w' = disk w /\ reset = negb full) _
    (fun _ w' => disk w' = disk w)).
  { destruct existing as [f|]; [|done]. apply wp_bind, wp_syscall; [congruence|]. cbn.
    intros w4 E4. apply wp_ret. unfold full. rewrite E4, E3'. done. }
  2: { cbn. intros _ w' E. by left. }
  cbn. intros reset w4 [E4 ->].
  (* re-verification *)
  apply wp_bind. apply (wp_conseq _ (fun r w' => disk w' = disk w /\ wf r.1 /\
      ChunkBitmap.chunk_count r.1 = chunk_count m /\
      (forall i, 0 <= i -> view r.1 i = match existing with
         | Some f => full && view bm0 i && chunk_ok m (content (disk w) f) i
         | None => false end)) _ (fun _ w' => disk w' = disk w)).
  { destruct full eqn:Efull; cbn.
    - destruct existing as [f|]; [|done].
      eapply wp_conseq; [apply wp_verify_existing; done| |]; cbn.
      + intros [bm c] w' (? & ? & ? & Hview). cbn in *. rewrite E4 in *. done.
      + intros _ w' ?. congruence.
    - apply wp_ret. cbn. split; [done|]. split; [apply ChunkBitmap.new_wf, chunk_count_u32|].
      split; [done|]. intros i Hi. rewrite ChunkBitmap.new_view. by destruct existing. }
  2: { cbn. intros _ w' E. by left. }
  cbn. intros [bm changed] w5 (E5 & Hwf & Hcnt & Hview). cbn in Hwf, Hcnt, Hview.
  destruct (verified_len_spec m bm Hv Hu Hwf Hcnt) as [Evl Hvb].
  rewrite Evl. apply wp_bind, wp_liftr. apply wp_bind, wp_liftr.
  assert (saturating_sub (total_len m) (sum_lengths m (List.filter (view bm) (seqZ 0 (chunk_count m))))
          = remaining m bm) as -> by (unfold saturating_sub, remaining; lia).
  destruct (admission_check (remaining m bm)) as [t|e|] eqn:Eadm; [|by left|by apply Hadm in Eadm].
  assert (forall w' : world, disk w' = disk w \/ exists bm t, admission_check (remaining m bm) = Ok t) as Hpost
    by (intros; right; eauto).
  (* opening or creating the part file *)
  apply wp_bind. apply (wp_conseq _ (fun f w' => layout cap temp state f (disk w') /\
      (forall f', existing = Some f' -> f' = f /\ disk w' = disk w)) _
    (fun _ _ => True)); [| |by eauto].
  { destruct existing as [f|].
    - apply wp_ret. split; [|by intros ? [= ->]]. rewrite E5. split; [done| |done|].
      + apply (Hfresh temp). by left.
      + intros Hc. specialize (Hcap Hc). injection Hcap as -> ->. by apply Htmp.
    - eapply wp_conseq; [apply wp_open_part; by rewrite E5| |done]. cbn.
      intros f w6 [-> E6]. rewrite E6, E5. split; [|done].
      split; cbn.
      + intros n i [Hi|Hi]; cbn [dir dir_syn next_ino] in *.
        * apply lookup_insert_Some in Hi as [[_ <-]|[_ Hi]]; [lia|].
          pose proof (Hfresh n i ltac:(by left)). lia.
        * pose proof (Hfresh n i ltac:(by right)). lia.
      + lia.
      + by rewrite lookup_insert_eq.
      + intros _. pose proof (part_not_tmp temp (bitmap_tmp_path state) Hends1
          (bitmap_tmp_path_ends state)). rewrite lookup_insert_ne by done.
        split; intros E; [pose proof (Hfresh _ _ (or_introl E)) | pose proof (Hfresh _ _ (or_intror E))]; lia. }
  cbn. intros f w6 (Hl & Hsame).
  (* resizing and repairing *)
  apply wp_bind. apply (wp_conseq _ (fun _ w' => layout cap temp state f (disk w') /\
      holds m bm (content (disk w') f)) _ (fun _ _ => True)); [| |by eauto].
  { apply (wp_create_repair cap m temp state f bm (negb full) changed); [apply Hu|done|done|..].
    - intros Hfull%negb_true_iff. subst full. intros i Hi Hb. rewrite Hview, Hfull in Hb by done.
      by destruct existing.
    - intros Hfull%negb_false_iff. subst full. destruct existing as [f'|]; [|done].
      destruct (Hsame f' eq_refl) as [-> Ew]. rewrite Ew. apply Z.eqb_eq in Hfull as Hlen.
      split; [done|]. intros i Hi. rewrite Hview by done. rewrite Hfull, andb_true_iff. by intros [_ ?]. }
  cbn. intros _ w7 [Hl7 Hh7]. apply wp_bind, wp_instant_now. intros now w8 E8. apply wp_ret. cbn.
  split; cbn; try done.
  - split; cbn; try done. exists f. by rewrite E8.
  - intros Hc. specialize (Hcap Hc). by injection Hcap as -> ->.
  - intros Hc i Hi. rewrite Hview by done. unfold resumable. rewrite <- Hex, <- Hload by done.
    unfold full. destruct existing as [f'|]; [|done]. done.
Qed.

(** ** Writing *)

(** No other data of the same length has the hash of a chunk of [m]. *)
Definition second_preimage_free (m : FileManifest) : Prop :=
  forall x y, hash_of x ∈ chunks m -> hash_of x = hash_of y -> length x = length y -> x = y.

Lemma wp_on_world {A} (c : st world error A) (Q : A -> PartialDownload * world -> Prop)
    (R : error -> PartialDownload * world -> Prop) s :
  wp c (fun a w' => Q a (s.1, w')) (fun e w' => R e (s.1, w')) s.2 -> wp (on_world c) Q R s.
Proof. intros Hc. unfold on_world. by apply wp_zoom. Qed.

Lemma chunk_ok_range m bytes i : valid m -> is_u64 (total_len m) -> 0 <= i ->
  chunk_ok m bytes i = true ->
  exists range, chunk_range m i = Some range /\ range.1 = i * chunk_size m /\
    0 <= range.1 /\ 0 <= range.2 /\ range.1 + range.2 <= total_len m /\ range.2 <= chunk_size m /\
    Z.of_nat (length (slice bytes range)) = range.2 /\
    chunks m !! Z.to_nat i = Some (hash_of (slice bytes range)).
Proof.
  intros Hv Ht Hi. unfold chunk_ok. pose proof (chunk_range_spec m i Hv Ht Hi) as Er.
  pose proof (valid_size_pos m Hv). pose proof (valid_count m Hv) as Hc.
  destruct (count_of_spec (total_len m) (chunk_size m)) as [Hb|[? ?]]; [apply Ht|done|..];
    rewrite <- Hc in *; destruct (Z.ltb_spec i (Z.of_nat (length (chunks m)))); try lia;
    rewrite Er; try done.
  destruct (chunks m !! Z.to_nat i) as [h|] eqn:Eh; [|done].
  intros [E1 E2]%andb_true_iff. eexists. split; [done|]. cbn in *.
  apply Z.eqb_eq in E1. unfold hash_verify in E2. apply bool_decide_eq_true in E2 as ->.
  unfold hash_of. repeat split; try done; nia.
Qed.

Lemma chunk_ok_ext m a b i :
  (forall range, chunk_range m i = Some range -> slice a range = slice b range) ->
  chunk_ok m a i = chunk_ok m b i.
Proof. intros Hs. unfold chunk_ok. destruct (chunk_range m i); [|done]. by rewrite (Hs _ eq_refl). Qed.

(** Writing (a prefix of) verified data over its own chunk changes no other
    chunk, and the chunk itself only when it was not verified before. *)
Lemma write_keeps m bytes i data n j range : valid m -> is_u64 (total_len m) ->
  second_preimage_free m -> Z.of_nat (length bytes) = total_len m -> 0 <= i -> 0 <= j ->
  verify_chunk m i data = Ok true ->
  chunk_range m j = Some range -> (i <> j \/ chunk_ok m bytes i = true) ->
  slice (splice (Z.to_nat (i * chunk_size m)) (take n data) bytes) range = slice bytes range.
Proof.
  intros Hv Ht Hspf Hlen Hi Hj Hver Hrj Hor.
  destruct (verify_chunk_spec m i data Hv Ht Hi) as (b & E & Hb). rewrite Hver in E. injection E as <-.
  destruct (proj1 Hb eq_refl) as (ri & Hri & Hdl & Hh). clear Hb Hver.
  pose proof (chunk_range_spec m i Hv Ht Hi) as Ei. rewrite Hri in Ei.
  pose proof (chunk_range_spec m j Hv Ht Hj) as Ej. rewrite Hrj in Ej.
  destruct (Z.ltb_spec i (Z.of_nat (length (chunks m)))); [|done]. injection Ei as Ei.
  destruct (Z.ltb_spec j (Z.of_nat (length (chunks m)))); [|done]. injection Ej as Ej.
  pose proof (valid_size_pos m Hv) as Hs. pose proof (valid_count m Hv) as Hc.
  assert (forall q, 0 <= q < Z.of_nat (length (chunks m)) -> q * chunk_size m < total_len m) as Hlast.
  { intros q Hq. destruct (count_of_spec (total_len m) (chunk_size m)) as [Hb|[? ?]];
      [apply Ht|done| |lia]. nia. }
  pose proof (Hlast i ltac:(lia)). pose proof (Hlast j ltac:(lia)).
  assert (length (take n data) <= length data)%nat by (rewrite length_take; lia).
  subst ri range. cbn in Hdl. unfold slice at 1 2. cbn [fst snd].
  destruct (Z.eq_dec i j) as [->|Hne].
  - destruct Hor as [?|Hok]; [done|].
    destruct (chunk_ok_range m bytes j Hv Ht Hj Hok) as (r & Er & _ & _ & _ & _ & _ & Hl & Hh').
    rewrite Hri in Er. injection Er as <-. cbn in Hl.
    assert (data = slice bytes (j * chunk_size m, Z.min (total_len m - j * chunk_size m) (chunk_size m)))
      as Hd.
    { apply Hspf; [|congruence|lia]. eapply list_elem_of_lookup_2. exact Hh. }
    subst data. f_equal. f_equal. unfold slice in *. cbn [fst snd] in *.
    apply list_eq. intros p. rewrite lookup_splice by lia.
    destruct (Nat.leb_spec (Z.to_nat (j * chunk_size m)) p); [|done].
    match goal with |- context [(p <? ?x)%nat] => destruct (Nat.ltb_spec p x) end; cbn; [|done].
    rewrite !length_take, !length_drop in *. rewrite !lookup_take_lt, lookup_drop by lia.
    f_equal. lia.
  - assert (i < j -> i * chunk_size m + chunk_size m <= j * chunk_size m) as Hij by nia.
    assert (j < i -> j * chunk_size m + chunk_size m <= i * chunk_size m) as Hji by nia.
    assert (0 <= i * chunk_size m /\ 0 <= j * chunk_size m) as [Hi0 Hj0] by nia.
    apply splice_other; lia.
Qed.

Lemma write_length m bytes i data n : valid m -> is_u64 (total_len m) ->
  Z.of_nat (length bytes) = total_len m -> 0 <= i -> verify_chunk m i data = Ok true ->
  length (splice (Z.to_nat (i * chunk_size m)) (take n data) bytes) = length bytes.
Proof.
  intros Hv Ht Hlen Hi Hver. apply length_splice.
  destruct (verify_chunk_spec m i data Hv Ht Hi) as (b & E & Hb). rewrite Hver in E. injection E as <-.
  destruct (proj1 Hb eq_refl) as (ri & Hri & Hdl & Hh).
  rewrite (chunk_range_spec m i Hv Ht Hi) in Hri. case_match; [|done]. injection Hri as <-.
  cbn in Hdl. pose proof (valid_size_pos m Hv). rewrite length_take. nia.
Qed.

(** The chunk just written is the data. *)
Lemma write_fills m bytes i data : valid m -> is_u64 (total_len m) -> 0 <= i ->
  verify_chunk m i data = Ok true ->
  chunk_ok m (splice (Z.to_nat (i * chunk_size m)) data bytes) i = true.
Proof.
  intros Hv Ht Hi Hver. destruct (verify_chunk_spec m i data Hv Ht Hi) as (b & E & Hb).
  rewrite Hver in E. injection E as <-. destruct (proj1 Hb eq_refl) as (range & Hr & Hdl & Hh).
  pose proof (chunk_range_spec m i Hv Ht Hi) as Er. rewrite Hr in Er. case_match; [|done].
  injection Er as Er. assert (slice (splice (Z.to_nat (i * chunk_size m)) data bytes) range = data) as Es.
  { unfold slice. rewrite <- Hdl, Nat2Z.id, Er. cbn [fst]. apply splice_same. }
  unfold chunk_ok. rewrite Hr, Hh, Es, Hdl, Z.eqb_refl. unfold hash_verify, hash_of.
  by rewrite bool_decide_true.
Qed.

(** ** Checkpoints *)

(** What a method never changes of a download. *)
Record same_download (d d' : PartialDownload) : Prop := {
  same_manifest : manifest d' = manifest d;
  same_capability : capability d' = capability d;
  same_temp : temp_path d' = temp_path d;
  same_state : state_path d' = state_path d;
  same_target : target_path d' = target_path d;
  same_file : file d' = file d;
}.

(** Chunk [i] of the part file is the same on stable storage. *)
Definition stable (m : FileManifest) (k : fs) (f i : Z) : Prop :=
  forall range, chunk_range m i = Some range ->
    slice (syn (inode_of k f)) range = slice (content k f) range.

(** Inode [b] is a synced bitmap file between the durable snapshot and the
    chunks that are stable. *)
Definition stable_bitmap (d : PartialDownload) (k : fs) (f b : Z) : Prop :=
  b <> f /\ exists bm,
    cur (inode_of k b) = ChunkBitmap.bits bm /\ syn (inode_of k b) = ChunkBitmap.bits bm /\
    wf bm /\ ChunkBitmap.chunk_count bm = chunk_count (manifest d) /\
    (forall i, 0 <= i -> view (durable_bitmap d) i = true -> view bm i = true) /\
    (forall i, 0 <= i -> view bm i = true ->
       chunk_ok (manifest d) (content k f) i = true /\ stable (manifest d) k f i).

(** The durability invariant: whichever version of the directory a crash leaves,
    the part file is there, and so is a bitmap of stable chunks. *)
Record dur (d : PartialDownload) (f : Z) (k : fs) : Prop := {
  dur_temp : dir_syn k !! temp_path d = Some f;
  dur_len : length (syn (inode_of k f)) = length (content k f);
  dur_dir : exists b, dir k !! state_path d = Some b /\ stable_bitmap d k f b /\
    dir k !! bitmap_tmp_path (state_path d) <> Some b;
  dur_dir_syn : exists b, dir_syn k !! state_path d = Some b /\ stable_bitmap d k f b /\
    dir k !! bitmap_tmp_path (state_path d) <> Some b;
}.

Lemma stable_bitmap_ext d k k' f b : inode_of k' f = inode_of k f -> inode_of k' b = inode_of k b ->
  stable_bitmap d k f b -> stable_bitmap d k' f b.
Proof.
  intros Ef Eb (Hne & bm & H1 & H2 & H3 & H4 & H5 & H6). split; [done|]. exists bm.
  rewrite Eb. do 5 (split; [done|]). intros i Hi Hb. unfold stable, content. rewrite Ef. by apply H6.
Qed.

Lemma state_entry_lookup (state tmp : name) (t : Z) (v : gmap name Z) : state <> tmp ->
  (<[tmp := t]> v) !! state = v !! state /\ (<[state := t]> (delete tmp v)) !! state = Some t /\
  (<[state := t]> (delete tmp v)) !! tmp = None.
Proof.
  intros Hne. rewrite lookup_insert_eq, lookup_insert_ne by done. split; [done|]. split; [done|].
  rewrite lookup_insert_ne, lookup_delete_eq by done. done.
Qed.

(** [save] of a bitmap of stable chunks keeps durability, failed or not. *)
Lemma save_done_dur d f k k' :
  capability d = false -> names_ok (temp_path d) (state_path d) ->
  layout false (temp_path d) (state_path d) f k ->
  syn (inode_of k f) = content k f -> wf (written_bitmap d) ->
  ChunkBitmap.chunk_count (written_bitmap d) = chunk_count (manifest d) ->
  (forall i, 0 <= i -> view (written_bitmap d) i = true ->
     chunk_ok (manifest d) (content k f) i = true) ->
  save_done false (state_path d) (ChunkBitmap.bits (written_bitmap d))
    (bitmap_tmp_path (state_path d)) k k' ->
  forall now, dur (set_durable (written_bitmap d) now d) f k'.
Proof.
  intros Hc Hn Hl Hsyn Hw Hcnt Hok (t & Hs & Hd & Hy & Ec & Es) now.
  set (tmp := bitmap_tmp_path (state_path d)) in *.
  destruct (staged_keeps false (temp_path d) (state_path d) f tmp t k k') as (Hl' & Ef & Hne); auto.
  { apply bitmap_tmp_path_ends. }
  pose proof (bitmap_not_tmp _ _ (state_ends _ _ Hn) (bitmap_tmp_path_ends (state_path d))) as Hst.
  destruct (state_entry_lookup (state_path d) tmp t (dir k) Hst) as (_ & E1 & E2).
  assert (stable_bitmap (set_durable (written_bitmap d) now d) k' f t) as Hb.
  { split; [done|]. exists (written_bitmap d). do 5 (split; [done|]). cbn. intros i Hi Hb.
    unfold stable, content. rewrite Ef. split; [by apply Hok|]. by rewrite Hsyn. }
  destruct Hl' as [_ _ Ht _]. split; cbn.
  - by rewrite Hy.
  - unfold content. rewrite Ef. by rewrite Hsyn.
  - exists t. fold tmp. rewrite Hd, E1, E2. done.
  - exists t. fold tmp. rewrite Hy, Hd, E1, E2. done.
Qed.

Lemma save_failed_dur d f k k' :
  capability d = false -> names_ok (temp_path d) (state_path d) ->
  layout false (temp_path d) (state_path d) f k ->
  syn (inode_of k f) = content k f -> wf (written_bitmap d) ->
  ChunkBitmap.chunk_count (written_bitmap d) = chunk_count (manifest d) ->
  (forall i, 0 <= i -> view (written_bitmap d) i = true ->
     chunk_ok (manifest d) (content k f) i = true) ->
  (forall i, 0 <= i -> view (durable_bitmap d) i = true -> view (written_bitmap d) i = true) ->
  save_failed false (state_path d) (ChunkBitmap.bits (written_bitmap d))
    (bitmap_tmp_path (state_path d)) k k' ->
  dur d f k -> dur d f k'.
Proof.
  intros Hc Hn Hl Hsyn Hw Hcnt Hok Hsub [->|(t & Hs & Hy & Hd)] Hdur; [done|].
  set (tmp := bitmap_tmp_path (state_path d)) in *.
  destruct (staged_keeps false (temp_path d) (state_path d) f tmp t k k') as (Hl' & Ef & Hne); auto.
  { apply bitmap_tmp_path_ends. } { naive_solver. }
  pose proof (bitmap_not_tmp _ _ (state_ends _ _ Hn) (bitmap_tmp_path_ends (state_path d))) as Hst.
  destruct (state_entry_lookup (state_path d) tmp t (dir k) Hst) as (E0 & E1 & E2).
  destruct Hdur as [D1 D2 (b1 & D3 & D4 & D5) (b2 & D6 & D7 & D8)]. fold tmp in D5, D8.
  destruct Hl as [L1 _ _ _]. destruct Hs as [S1 S2 S3].
  assert (b1 <> t /\ b2 <> t) as [Hb1 Hb2].
  { split; intros ->; (destruct S1 as [->|[_ E]]; [|done]).
    - pose proof (L1 _ _ (or_introl D3)). lia.
    - pose proof (L1 _ _ (or_intror D6)). lia. }
  split.
  - by rewrite Hy.
  - unfold content. by rewrite Ef.
  - destruct Hd as [Hd|(Hd & Ec & Es)]; rewrite Hd.
    + exists b1. rewrite E0. split; [done|]. split; [apply (stable_bitmap_ext d k); auto|].
      fold tmp. rewrite lookup_insert_eq. congruence.
    + exists t. rewrite E1. split; [done|]. fold tmp. rewrite E2. split; [|done].
      split; [done|]. exists (written_bitmap d). do 5 (split; [done|]). intros i Hi Hb.
      unfold stable, content. rewrite Ef. split; [by apply Hok|]. by rewrite Hsyn.
  - exists b2. rewrite Hy. split; [done|]. split; [apply (stable_bitmap_ext d k); auto|]. fold tmp.
    destruct Hd as [Hd|(Hd & _)]; rewrite Hd; [rewrite lookup_insert_eq; congruence | by rewrite E2].
Qed.

Lemma same_download_refl d : same_download d d.
Proof. done. Qed.

Lemma same_download_trans a b c : same_download a b -> same_download b c -> same_download a c.
Proof. intros [] []. split; congruence. Qed.

Definition synced (f : Z) (k : fs) : fs :=
  set_inode f (mk_inode (content k f) (content k f) (regular (inode_of k f))) k.

Lemma synced_content f k : content (synced f k) f = content k f /\
  syn (inode_of (synced f k) f) = content k f.
Proof. unfold synced, content at 1 3. by rewrite !inode_of_set, !decide_True. Qed.

Lemma synced_dur d f k : dur d f k -> dur d f (synced f k).
Proof.
  intros [D1 D2 (b1 & D3 & D4 & D5) (b2 & D6 & D7 & D8)].
  destruct (synced_content f k) as [Ec Es].
  assert (forall b, stable_bitmap d k f b -> stable_bitmap d (synced f k) f b) as Hb.
  { intros b (Hne & bm & H1 & H2 & H3 & H4 & H5 & H6). split; [done|]. exists bm.
    unfold synced at 1 2. rewrite !inode_of_set, !decide_False by done.
    do 5 (split; [done|]). intros i Hi Hv. rewrite Ec. unfold stable. rewrite Ec, Es.
    split; [by apply H6 | done]. }
  split; [done| |eauto..]. by rewrite Ec, Es.
Qed.

(** [checkpoint]: on success the durable snapshot is the written bitmap; on
    failure nothing is lost. *)
Lemma wp_checkpoint f s : inv s -> file s.1 = Some f ->
  wp checkpoint
    (fun _ s' => inv s' /\ same_download s.1 s'.1 /\ written_bitmap s'.1 = written_bitmap s.1 /\
       durable_bitmap s'.1 = written_bitmap s.1 /\
       content (disk s'.2) f = content (disk s.2) f /\
       (capability s.1 = false -> dur s'.1 f (disk s'.2)))
    (fun _ s' => s'.1 = s.1 /\ inv s' /\ content (disk s'.2) f = content (disk s.2) f /\
       (capability s.1 = false -> dur s.1 f (disk s.2) -> dur s'.1 f (disk s'.2))) s.
Proof.
  intros [Hv Hu [Hw Hwc] (Hd & Hdc & Hsub) Hn (f' & Ef & Hl & Hh)] Hf.
  rewrite Hf in Ef. injection Ef as <-. destruct s as [d w]. cbn [fst snd] in *.
  assert (forall w', layout (capability d) (temp_path d) (state_path d) f (disk w') ->
            content (disk w') f = content (disk w) f -> inv (d, w')) as Hinv.
  { intros w' Hl' Ec. split; cbn; try done. exists f. by rewrite Ec. }
  unfold checkpoint. apply wp_bind, wp_on_world, wp_instant_now. intros now w1 E1. cbn [fst snd].
  apply wp_bind, wp_gets. cbn [fst]. rewrite Hf. apply wp_bind, wp_liftr. cbn [ok_or].
  apply wp_bind, wp_on_world, wp_syscall.
  { cbn [fst snd]. intros k w' _ E. rewrite E1 in E. rewrite E. split; [done|].
    split; [apply Hinv; by rewrite E|]. done. }
  cbn [fst snd]. intros w2 E2. rewrite E1 in E2.
  change (disk w2 = synced f (disk w)) in E2. destruct (synced_content f (disk w)) as [Ec Es].
  assert (layout (capability d) (temp_path d) (state_path d) f (disk w2)) as Hl2
    by (rewrite E2; by apply layout_set_inode).
  destruct (wp_save (capability d) (state_path d) (written_bitmap d) w2 (layout_fresh _ _ _ _ _ Hl2))
    as (tmp & Htmp & Hcap & Hsave).
  apply wp_bind, wp_on_world. cbn [fst snd]. eapply wp_conseq; [exact Hsave|..]; cbn [fst snd].
  - intros _ w3 Hs. apply wp_bind, wp_on_world, wp_instant_now. intros now' w4 E4. cbn [fst snd] in *.
    apply wp_modify. cbn [fst snd]. rewrite E4.
    destruct (save_done_keeps _ _ _ _ _ _ _ _ Hn Hl2 Htmp Hcap Hs) as [Hl3 Ef3].
    assert (content (disk w3) f = content (disk w) f) as Ec3
      by (unfold content at 1; rewrite Ef3, E2; exact Ec).
    split; [|split; [done|]].
    + split; cbn; try done. exists f. by rewrite E4, Ec3.
    + split; [done|]. split; [done|]. split; [done|]. intros Hc. rewrite Hc in *.
      specialize (Hcap eq_refl). subst tmp. cbn in *.
      apply (save_done_dur d f (disk w2)); try done; rewrite E2; [by rewrite Es, Ec|].
      rewrite Ec. intros i Hi Hb. by apply (holds_chunks _ _ _ Hh).
  - intros e w3 Hs. destruct (save_failed_keeps _ _ _ _ _ _ _ _ Hn Hl2 Htmp Hcap Hs) as [Hl3 Ef3].
    assert (content (disk w3) f = content (disk w) f) as Ec3
      by (unfold content at 1; rewrite Ef3, E2; exact Ec).
    split; [done|]. split; [by apply Hinv|]. split; [done|]. intros Hc Hdur. rewrite Hc in *.
    specialize (Hcap eq_refl). subst tmp. cbn in *.
    apply (save_failed_dur d f (disk w2)); try done; rewrite E2;
      [by rewrite Es, Ec| |by apply synced_dur].
    rewrite Ec. intros i Hi Hb. by apply (holds_chunks _ _ _ Hh).
Qed.

(** ** write_chunk *)

Lemma write_dur d f k i data n : valid (manifest d) -> is_u64 (total_len (manifest d)) ->
  second_preimage_free (manifest d) -> 0 <= i ->
  Z.of_nat (length (content k f)) = total_len (manifest d) ->
  verify_chunk (manifest d) i data = Ok true ->
  dur d f k -> dur d f (write_content f (i * chunk_size (manifest d)) (take n data) k).
Proof.
  intros Hv Hu Hspf Hi Hlen Hver [D1 D2 (b1 & D3 & D4 & D5) (b2 & D6 & D7 & D8)].
  set (k' := write_content f (i * chunk_size (manifest d)) (take n data) k).
  assert (content k' f = splice (Z.to_nat (i * chunk_size (manifest d))) (take n data) (content k f)) as Ec
    by (unfold k', write_content; by rewrite content_set, decide_True).
  assert (syn (inode_of k' f) = syn (inode_of k f)) as Es by apply syn_set_content.
  assert (forall b, stable_bitmap d k f b -> stable_bitmap d k' f b) as Hb.
  { intros b (Hne & bm & H1 & H2 & H3 & H4 & H5 & H6). split; [done|]. exists bm.
    unfold k', write_content, set_content. rewrite !inode_of_set, !decide_False by done.
    do 5 (split; [done|]). intros j Hj Hb. destruct (H6 j Hj Hb) as [Hok Hst].
    change (set_inode _ _ _) with k'.
    assert (forall range, chunk_range (manifest d) j = Some range ->
              slice (content k' f) range = slice (content k f) range) as Hsl.
    { intros range Hr. rewrite Ec. eapply write_keeps; try done.
      destruct (Z.eq_dec i j) as [->|]; [by right | by left]. }
    split; [by rewrite (chunk_ok_ext _ _ (content k f))|].
    intros range Hr. rewrite Es, (Hsl range Hr). by apply Hst. }
  split; [done| |eauto..]. rewrite Es, Ec, D2. symmetry. by apply write_length.
Qed.

Lemma dur_same d d' f k : same_download d d' -> durable_bitmap d' = durable_bitmap d ->
  dur d f k -> dur d' f k.
Proof.
  intros [E1 E2 E3 E4 E5 E6] E [D1 D2 (b1 & D3 & D4 & D5) (b2 & D6 & D7 & D8)].
  split; rewrite ?E3, ?E4; [done|done|exists b1|exists b2]; (split; [done|]; split; [|done]);
    unfold stable_bitmap in *; by rewrite E1, E.
Qed.

Lemma write_holds m bm bytes i data n : valid m -> is_u64 (total_len m) ->
  second_preimage_free m -> 0 <= i -> verify_chunk m i data = Ok true ->
  holds m bm bytes -> holds m bm (splice (Z.to_nat (i * chunk_size m)) (take n data) bytes).
Proof.
  intros Hv Hu Hspf Hi Hver [Hl Hc]. split; [by rewrite write_length|].
  intros j Hj Hb. rewrite (chunk_ok_ext _ _ bytes); [by apply Hc|]. intros range Hr.
  eapply write_keeps; try done. destruct (Z.eq_dec i j) as [->|]; [right; by apply Hc | by left].
Qed.

Lemma chunk_offset_spec m i : valid m -> is_u64 (total_len m) -> 0 <= i ->
  (exists range, chunk_range m i = Some range) ->
  chunk_offset m i = Some (i * chunk_size m) /\ i < chunk_count m.
Proof.
  intros Hv Hu Hi (range & Hr). pose proof (chunk_range_spec m i Hv Hu Hi) as E. rewrite Hr in E.
  destruct (Z.ltb_spec i (Z.of_nat (length (chunks m)))); [|done]. injection E as ->.
  unfold chunk_range in Hr. destruct (chunk_offset m i) as [o|] eqn:Eo; [|done]. cbn in Hr.
  destruct (chunk_len m i); [|done]. cbn in Hr. injection Hr as <- _. split; [done|].
  by rewrite valid_chunk_count.
Qed.

(** ** Other entries *)

(** The entries and files that are not the download's own: every entry but the
    part file, the bitmap and temporary bitmaps, and every file but one left
    under the temporary bitmap name. *)
Definition foreign (d : PartialDownload) (n : name) : Prop :=
  n <> temp_path d /\ n <> state_path d /\ ~ ends_with n (lit ".tmp").
Definition foreign_file (d : PartialDownload) (k : fs) (i : Z) : Prop :=
  i < next_ino k /\ (capability d = false -> dir k !! bitmap_tmp_path (state_path d) <> Some i).

(** [k'] has the foreign entries and files of [k]. *)
Record frame (d : PartialDownload) (k k' : fs) : Prop := {
  frame_dir : forall n, foreign d n -> dir k' !! n = dir k !! n;
  frame_file : forall i, foreign_file d k i -> content k' i = content k i;
}.

Lemma save_frame d tmp t k k' : staged (capability d) tmp t k k' -> ends_with tmp (lit ".tmp") ->
  (capability d = false -> tmp = bitmap_tmp_path (state_path d)) ->
  (dir k' = <[tmp := t]> (dir k) \/ dir k' = <[state_path d := t]> (delete tmp (dir k))) ->
  frame d k k'.
Proof.
  intros [S1 S2 S3] Ht Hc Hd. split.
  - intros n (_ & H2 & H3). assert (n <> tmp) by (intros ->; done).
    destruct Hd as [->| ->]; rewrite lookup_insert_ne by done; [done|]. by rewrite lookup_delete_ne.
  - intros i [Hi Htmp]. unfold content. rewrite S3; [done|]. intros ->.
    destruct S1 as [->|[Hcap E]]; [lia|]. apply (Htmp Hcap). by rewrite <- Hc.
Qed.

Lemma wp_checkpoint_frame s : fresh (disk s.2) ->
  wp checkpoint (fun _ s' => frame s.1 (disk s.2) (disk s'.2))
    (fun _ s' => frame s.1 (disk s.2) (disk s'.2)) s.
Proof.
  destruct s as [d w]. cbn [fst snd]. intros Hf.
  assert (forall w', disk w' = disk w -> frame d (disk w) (disk w')) as Heq by (intros w' ->; done).
  unfold checkpoint. apply wp_bind, wp_on_world, wp_instant_now. cbn [fst snd]. intros _ w1 E1.
  apply wp_bind, wp_gets. apply wp_bind, wp_liftr. cbn [fst].
  destruct (file d) as [f|]; cbn [ok_or]; [|by apply Heq].
  apply wp_bind, wp_on_world, wp_syscall; cbn [fst snd].
  { intros k w' _ E. apply Heq. congruence. }
  intros w2 E2. rewrite E1 in E2. change (disk w2 = synced f (disk w)) in E2.
  assert (forall k', frame d (synced f (disk w)) k' -> frame d (disk w) k') as Hsync.
  { intros k' [F1 F2]. split; [exact F1|]. intros i Hi. rewrite F2 by exact Hi.
    destruct (decide (i = f)) as [->|]; [by apply synced_content|].
    unfold content, synced. by rewrite inode_of_set, decide_False by congruence. }
  assert (fresh (disk w2)) as Hf2 by (rewrite E2; exact Hf).
  destruct (wp_save (capability d) (state_path d) (written_bitmap d) w2 Hf2)
    as (tmp & Htmp & Hcap & Hsave).
  apply wp_bind, wp_on_world. cbn [fst snd]. eapply wp_conseq; [exact Hsave|..]; cbn [fst snd].
  - intros _ w3 (t & Hs & Hd & _). apply wp_bind, wp_on_world, wp_instant_now. cbn [fst snd].
    intros now w4 E4. cbn [fst snd] in E4. apply wp_modify. cbn [fst snd].
    rewrite E4. apply Hsync. rewrite <- E2.
    eapply save_frame; eauto.
  - intros _ w3 [->|(t & Hs & _ & Hd)]; apply Hsync; rewrite <- E2; [done|].
    eapply save_frame; eauto. naive_solver.
Qed.

(** What one method call may do to a download in progress. *)
Record progress (f : Z) (s s' : PartialDownload * world) : Prop := {
  progress_inv : inv s';
  progress_same : same_download s.1 s'.1;
  progress_written : forall j, 0 <= j -> view (written_bitmap s.1) j = true ->
    view (written_bitmap s'.1) j = true;
  progress_durable : forall j, 0 <= j -> view (durable_bitmap s.1) j = true ->
    view (durable_bitmap s'.1) j = true;
  progress_dur : capability s.1 = false -> dur s.1 f (disk s.2) -> dur s'.1 f (disk s'.2);
  progress_dir : forall n, foreign s.1 n -> dir (disk s'.2) !! n = dir (disk s.2) !! n;
}.

Lemma progress_refl f s : inv s -> progress f s s.
Proof. done. Qed.

Lemma progress_trans f a b c : progress f a b -> progress f b c -> progress f a c.
Proof.
  intros [A1 A2 A3 A4 A5 A6] [B1 B2 B3 B4 B5 B6].
  split; [done|by eapply same_download_trans|auto|auto| |].
  - intros Hc Hd. apply B5; [|auto]. by rewrite (same_capability _ _ A2).
  - intros n Hn. rewrite B6, A6; [done|done|]. unfold foreign in *.
    by rewrite (same_temp _ _ A2), (same_state _ _ A2).
Qed.

Lemma wp_checkpoint_progress f s : inv s -> file s.1 = Some f ->
  wp checkpoint
    (fun _ s' => progress f s s' /\ written_bitmap s'.1 = written_bitmap s.1 /\
       durable_bitmap s'.1 = written_bitmap s.1 /\ content (disk s'.2) f = content (disk s.2) f /\
       (capability s.1 = false -> dur s'.1 f (disk s'.2)))
    (fun _ s' => progress f s s' /\ s'.1 = s.1 /\ content (disk s'.2) f = content (disk s.2) f) s.
Proof.
  intros Hinv Hf. pose proof Hinv as [_ _ _ (_ & _ & Hsub) _ (f' & _ & [Hfr _ _ _] & _)].
  eapply wp_conseq; [apply (wp_and _ _ _ _ _ _ (wp_checkpoint f s Hinv Hf) (wp_checkpoint_frame s Hfr))|..]; cbn.
  - intros _ s' [(H1 & H2 & H3 & H4 & H5 & H6) [F1 _]]. split; [|done].
    split; [done|done| | |auto|done]; intros j Hj; [by rewrite H3|]. rewrite H4. by apply Hsub.
  - intros _ s' [(H1 & H2 & H3 & H4) [F1 _]]. split; [|done]. split; rewrite ?H1; try done.
    intros Hc Hd. rewrite <- H1. by apply H4.
Qed.

Lemma wp_checkpoint_if_due f s : inv s -> file s.1 = Some f ->
  wp checkpoint_if_due
    (fun _ s' => progress f s s' /\ written_bitmap s'.1 = written_bitmap s.1 /\
       content (disk s'.2) f = content (disk s.2) f)
    (fun _ s' => progress f s s' /\ written_bitmap s'.1 = written_bitmap s.1 /\
       content (disk s'.2) f = content (disk s.2) f) s.
Proof.
  intros Hinv Hf.
  assert (forall s1, s1.1 = s.1 -> disk s1.2 = disk s.2 -> inv s1 /\ progress f s s1) as Hmove.
  { intros [d1 w1] E1 E2. cbn in *. subst d1. assert (inv (s.1, w1)) as Hi.
    { destruct Hinv as [? ? ? ? ? (f' & ? & ? & ?)]. split; cbn; try done. exists f'. by rewrite E2. }
    split; [done|]. split; cbn; try done; by rewrite E2. }
  assert (forall s1, s1.1 = s.1 -> disk s1.2 = disk s.2 ->
    wp checkpoint
      (fun _ s' => progress f s s' /\ written_bitmap s'.1 = written_bitmap s.1 /\
         content (disk s'.2) f = content (disk s.2) f)
      (fun _ s' => progress f s s' /\ written_bitmap s'.1 = written_bitmap s.1 /\
         content (disk s'.2) f = content (disk s.2) f) s1) as Hck.
  { intros s1 E1 E2. destruct (Hmove s1 E1 E2) as [Hi Hp].
    eapply wp_conseq; [apply (wp_checkpoint_progress f); [done|by rewrite E1]|..]; cbn;
      rewrite E1, E2; [intros _ s' (H1 & H2 & _ & H3 & _) | intros _ s' (H1 & H2 & H3)];
      (split; [by eapply progress_trans|]); by rewrite ?H2. }
  unfold checkpoint_if_due. apply wp_bind, wp_gets. destruct (_ <=? _); [by apply Hck|].
  apply wp_bind, wp_on_world, wp_instant_now. intros now w' E. cbn [fst snd] in *.
  destruct (_ <=? _); [by apply Hck|]. apply wp_ret. cbn. rewrite E.
  split; [by apply Hmove|done].
Qed.

(** [write_chunk]: bad data changes nothing; good data is written and marked;
    whatever fails, the invariant holds and no progress is lost. *)
Lemma wp_write_chunk f s i data : inv s -> file s.1 = Some f ->
  second_preimage_free (manifest s.1) -> 0 <= i ->
  wp (write_chunk i data)
    (fun _ s' => verify_chunk (manifest s.1) i data = Ok true /\ progress f s s' /\
       (forall j, 0 <= j -> view (written_bitmap s'.1) j = (j =? i) || view (written_bitmap s.1) j) /\
       content (disk s'.2) f =
         splice (Z.to_nat (i * chunk_size (manifest s.1))) data (content (disk s.2) f))
    (fun e s' => progress f s s' /\
       (verify_chunk (manifest s.1) i data <> Ok true ->
          s' = s /\ e = Protocol "chunk verification failed")) s.
Proof.
  intros Hinv Hf Hspf Hi. pose proof Hinv as [Hv Hu [Hw Hwc] (Hdw & Hdc & Hsub) Hn (f' & Ef & Hl & Hh)].
  rewrite Hf in Ef. injection Ef as <-. destruct s as [d w]. cbn [fst snd] in *.
  unfold write_chunk. apply wp_bind, wp_gets. cbn [fst].
  destruct (verify_chunk_spec (manifest d) i data Hv Hu Hi) as (good & Hver & Hgood).
  rewrite Hver. apply wp_bind, wp_liftr. destruct good; cbn [negb fail_if].
  2: { apply wp_bind, wp_liftr. cbn. split; [by apply progress_refl|done]. }
  apply wp_bind, wp_liftr. cbn [fail_if].
  destruct (proj1 Hgood eq_refl) as (range & Hr & _ & _).
  destruct (chunk_offset_spec (manifest d) i Hv Hu Hi) as [Eo Hic]; [eauto|]. rewrite Eo.
  apply wp_bind, wp_liftr. cbn [ok_or]. rewrite Hf. apply wp_bind, wp_liftr. cbn [ok_or].
  set (off := i * chunk_size (manifest d)) in *.
  assert (forall k n w', disk w' = write_content f off (take n data) k ->
            content (disk w') f = splice (Z.to_nat off) (take n data) (content k f)) as Hcont.
  { intros k n w' ->. unfold write_content. by rewrite content_set, decide_True. }
  assert (forall n w', disk w' = write_content f off (take n data) (disk w) ->
            inv (d, w') /\ progress f (d, w) (d, w')) as Hwrite.
  { intros n w' E. assert (inv (d, w')) as Hi'.
    { split; cbn; try done. exists f. split; [done|]. split.
      - rewrite E. unfold write_content, set_content. by apply layout_set_inode.
      - rewrite (Hcont (disk w) n) by done. by apply write_holds. }
    split; [done|]. split; cbn; try done; [|by rewrite E]. intros _ Hdur. rewrite E.
    apply write_dur; try done. by destruct Hh. }
  apply wp_bind, wp_on_world, wp_sys_write; cbn [fst snd].
  { intros k n w' _ E. split; [by eapply Hwrite | done]. }
  intros w1 E1. rewrite <- (take_ge data (length data)) in E1 by lia.
  destruct (Hwrite _ _ E1) as [Hi1 Hp1]. apply Hcont in E1 as Ec1.
  rewrite take_ge in Ec1 by lia.
  destruct (ChunkBitmap.set_spec (written_bitmap d) i Hw) as (bm & Eset & Hbw & Hbc & Hbv).
  { by rewrite Hwc. }
  rewrite Eset. apply wp_bind, wp_liftr. apply wp_bind, wp_modify. cbn [fst snd].
  set (d' := set_written bm _ d). set (s2 := (d', w1)).
  assert (inv s2) as Hi2.
  { destruct Hi1 as [_ _ _ _ _ (f'' & Ef'' & Hl1 & Hh1)]. cbn in *.
    rewrite Hf in Ef''. injection Ef'' as <-.
    split; cbn; try done.
    - split; [done|]. lia.
    - split; [done|]. split; [done|]. intros j Hj Hb. rewrite Hbv, (Hsub j) by done. apply orb_true_r.
    - exists f. split; [done|]. split; [done|]. split; [by destruct Hh1|]. intros j Hj Hb.
      rewrite Hbv in Hb by done. destruct (Z.eqb_spec j i) as [->|]; [|by apply (holds_chunks _ _ _ Hh1)].
      rewrite Ec1. by apply write_fills. }
  assert (progress f (d, w) s2) as Hp2.
  { eapply progress_trans; [exact Hp1|]. split; cbn; try done.
    - intros j Hj Hb. rewrite Hbv by done. by rewrite Hb, orb_true_r.
    - intros Hc. by apply dur_same. }
  eapply wp_conseq; [by apply (wp_checkpoint_if_due f)|..]; cbn [fst snd].
  - intros _ s3 (Hp3 & Eb3 & Ec3). split; [done|]. split; [by eapply progress_trans|].
    split; [intros j Hj; by rewrite Eb3, Hbv|]. by rewrite Ec3.
  - intros e s3 (Hp3 & _ & _). split; [by eapply progress_trans|done].
Qed.

(** ** Finalizing *)

(** The publication loop: the part file gets one new name that was free. *)
Lemma wp_publish_loop temp cands f w : dir (disk w) !! temp = Some f ->
  wp (publish_loop temp cands)
    (fun target w' => target ∈ cands /\ dir (disk w) !! target = None /\
       disk w' = set_dir (delete temp (<[target := f]> (dir (disk w)))) (disk w))
    (fun _ w' => disk w' = disk w \/ exists target, dir (disk w) !! target = None /\
       disk w' = set_dir (<[target := f]> (dir (disk w))) (disk w)) w.
Proof.
  intros Ht. revert w Ht. induction cands as [|c cands IH]; intros w Ht; cbn [publish_loop].
  { by left. }
  assert (forall w', disk w' = disk w -> wp (publish_loop temp cands)
    (fun target w' => target ∈ c :: cands /\ dir (disk w) !! target = None /\
       disk w' = set_dir (delete temp (<[target := f]> (dir (disk w)))) (disk w))
    (fun _ w' => disk w' = disk w \/ exists target, dir (disk w) !! target = None /\
       disk w' = set_dir (<[target := f]> (dir (disk w))) (disk w)) w') as Hnext.
  { intros w' E. eapply wp_conseq; [apply IH; by rewrite E|..]; rewrite E; cbn; [|done].
    intros target w'' (? & ?). split; [by right | done]. }
  assert (forall e w', e <> Io AlreadyExists -> disk w' = disk w -> wp
    (let! s := attempt (syscall (fs_stat c)) in
     match s with
     | Ok _ => publish_loop temp cands
     | Err (Io NotFound) => throw e
     | Err e' => throw e'
     | Panic => panic
     end)
    (fun target w' => target ∈ c :: cands /\ dir (disk w) !! target = None /\
       disk w' = set_dir (delete temp (<[target := f]> (dir (disk w)))) (disk w))
    (fun _ w' => disk w' = disk w \/ exists target, dir (disk w) !! target = None /\
       disk w' = set_dir (<[target := f]> (dir (disk w))) (disk w)) w') as Hstat.
  { intros e w' _ E. apply wp_bind, wp_attempt, wp_syscall.
    - intros k w'' _ E'. destruct k; left; congruence.
    - unfold fs_stat. destruct (dir (disk w') !! c).
      + intros w'' E'. apply Hnext. congruence.
      + intros w'' E'. left. congruence. }
  apply wp_bind, wp_attempt, wp_syscall.
  { intros k w' Hk E. pose proof (genuine_not_found k Hk) as (? & ? & ?).
    assert (Io k <> Io AlreadyExists) by congruence. destruct k; try done; by apply Hstat. }
  unfold fs_link. rewrite Ht. destruct (dir (disk w) !! c) as [o|] eqn:Ec; cbn.
  { intros w' E. by apply Hnext. }
  intros w1 E1. apply wp_bind, wp_syscall.
  - intros k w' _ E. right. exists c. split; [done|]. congruence.
  - unfold fs_remove. rewrite E1. cbn.
    assert (c <> temp) as Hne by congruence. rewrite lookup_insert_ne by done. rewrite Ht.
    intros w2 E2. apply wp_ret. split; [by left|]. split; [done|]. by rewrite E2.
Qed.

(** After a successful [checkpoint] there is a bitmap entry. *)
Lemma wp_checkpoint_state s : fresh (disk s.2) ->
  wp checkpoint (fun _ s' => dir (disk s'.2) !! state_path s.1 <> None) (fun _ _ => True) s.
Proof.
  destruct s as [d w]. cbn [fst snd]. intros Hf.
  unfold checkpoint. apply wp_bind, wp_on_world, wp_instant_now. cbn [fst snd]. intros _ w1 E1.
  apply wp_bind, wp_gets. apply wp_bind, wp_liftr. cbn [fst].
  destruct (file d) as [f|]; cbn [ok_or]; [|done].
  apply wp_bind, wp_on_world, wp_syscall; [done|]. cbn [fst snd fs_sync].
  intros w2 E2. assert (fresh (disk w2)) as Hf2 by (rewrite E2, E1; exact Hf).
  destruct (wp_save (capability d) (state_path d) (written_bitmap d) w2 Hf2)
    as (tmp & Htmp & Hcap & Hsave).
  apply wp_bind, wp_on_world. cbn [fst snd]. eapply wp_conseq; [exact Hsave| |done]; cbn [fst snd].
  intros _ w3 (t & Hs & Hd & _). apply wp_bind, wp_on_world, wp_instant_now. cbn [fst snd].
  intros now w4 E4. cbn [fst snd] in E4. apply wp_modify. cbn [fst snd].
  by rewrite E4, Hd, lookup_insert_eq.
Qed.

Record sealed (f : Z) (s s' : PartialDownload * world) : Prop := {
  sealed_file : file s'.1 = None;
  sealed_names : temp_path s.1 <> state_path s.1;
  sealed_temp : temp_path s'.1 = temp_path s.1;
  sealed_state : state_path s'.1 = state_path s.1;
  sealed_target : target_path s'.1 = target_path s.1;
  sealed_entry : dir (disk s'.2) !! temp_path s.1 = Some f;
  sealed_bitmap : dir (disk s'.2) !! state_path s.1 <> None;
  sealed_content : content (disk s'.2) f = content (disk s.2) f;
  sealed_frame : frame s.1 (disk s.2) (disk s'.2);
}.

Lemma wp_seal f s : inv s -> file s.1 = Some f ->
  wp seal (fun _ s' => sealed f s s')
    (fun _ s' => frame s.1 (disk s.2) (disk s'.2) /\
       content (disk s'.2) f = content (disk s.2) f) s.
Proof.
  intros Hinv Hf. pose proof Hinv as [_ _ _ _ [Hn1 Hn2] (f' & Ef & [Hfr _ _ _] & _)].
  pose proof (part_not_bitmap _ _ Hn1 Hn2) as Hts.
  unfold seal. apply wp_bind. eapply wp_conseq;
    [apply wp_and; [by apply (wp_checkpoint f)|];
     apply wp_and; [by apply wp_checkpoint_frame | by apply wp_checkpoint_state]|..]; cbn.
  2: { intros _ s' ((_ & _ & Ec & _) & Hframe & _). done. }
  intros _ s1 ((Hi1 & Hsame & _ & _ & Ec & _) & Hframe & Hst).
  apply wp_bind, wp_gets. destruct Hsame as [E1 E2 E3 E4 E5 E6]. rewrite E6, Hf.
  destruct Hi1 as [_ _ _ _ _ (f1 & Ef1 & [_ _ Htemp _] & _)].
  rewrite E6, Hf in Ef1. injection Ef1 as <-. rewrite E3 in Htemp.
  apply wp_bind, wp_on_world, wp_syscall; cbn [fst snd].
  { intros k w' _ ->. done. }
  cbn [fs_sync]. intros w2 E. change (disk w2 = synced f (disk s1.2)) in E.
  apply wp_modify. cbn [fst snd].
  destruct (synced_content f (disk s1.2)) as [Ec2 _].
  split; cbn [fst snd]; try done.
  - by rewrite E.
  - by rewrite E.
  - by rewrite E, Ec2.
  - rewrite E. destruct Hframe as [F1 F2]. split; [exact F1|]. intros i Hi.
    destruct (decide (i = f)) as [->|]; [by rewrite Ec2, Ec|].
    rewrite <- F2 by done. unfold content, synced. by rewrite inode_of_set, decide_False by congruence.
Qed.

(** ** Finalizing: the disk after the publication *)

(** [k'] is [k] with the part file renamed to [target], up to the bitmap. *)
Record published (d : PartialDownload) (f : Z) (target : name) (k k' : fs) : Prop := {
  published_inodes : inodes k' = inodes k;
  published_dir : forall n, n <> state_path d ->
    dir k' !! n = delete (temp_path d) (<[target := f]> (dir k)) !! n;
}.

(** Removing the bitmap after the publication. *)
Lemma wp_cleanup d f target k w : published d f target k (disk w) ->
  wp (let! _ := sync_parent_dir in
      let! _ := remove_file_if_exists (state_path d) in
      sync_parent_dir)
    (fun _ w' => published d f target k (disk w') /\ dir (disk w') !! state_path d = None /\
       dir_syn (disk w') = dir (disk w'))
    (fun _ w' => published d f target k (disk w')) w.
Proof.
  intros [P1 P2]. unfold sync_parent_dir, remove_file_if_exists.
  apply wp_bind, wp_syscall; [by intros e w' _ ->|]. intros w1 E1.
  assert (forall w', dir (disk w') !! state_path d = None -> published d f target k (disk w') ->
    wp (syscall fs_sync_dir)
      (fun _ w' => published d f target k (disk w') /\ dir (disk w') !! state_path d = None /\
         dir_syn (disk w') = dir (disk w'))
      (fun _ w' => published d f target k (disk w')) w') as Hsync.
  { intros w' Hnone [Q1 Q2]. apply wp_syscall; [by intros e w'' _ ->|]. by intros w'' ->. }
  apply wp_bind, wp_bind, wp_attempt, wp_syscall.
  { intros e w' He E. pose proof (genuine_not_found e He) as (? & _).
    assert (published d f target k (disk w')) by (rewrite E, E1; done). by destruct e. }
  unfold fs_remove. destruct (dir (disk w1) !! state_path d) eqn:Es.
  - intros w2 E2. apply wp_ret, Hsync; rewrite E2, E1; cbn; [by rewrite lookup_delete_eq|].
    split; [done|]. intros n Hn. cbn. rewrite lookup_delete_ne by done. by apply P2.
  - intros w2 E2. apply wp_ret, Hsync; rewrite E2; [done|]. by rewrite E1.
Qed.

(** A published download keeps what was there. *)
Lemma published_keeps d f target s s1 k' : s.1 = d -> sealed f s s1 ->
  dir (disk s1.2) !! target = None -> published d f target (disk s1.2) k' ->
  let k := disk s.2 in
  content k' f = content k f /\ dir k' !! target = Some f /\ dir k' !! temp_path d = None /\
  (foreign d target -> dir k !! target = None) /\
  (forall n, foreign d n -> n <> target -> dir k' !! n = dir k !! n) /\
  (forall i, foreign_file d k i -> content k' i = content k i).
Proof.
  intros <- [E1 Hts E2 E3 E4 Ht Hb Ec [F1 F2]] Hfree [P1 P2] k.
  assert (forall i, content k' i = content (disk s1.2) i) as Hcont
    by (intros i; unfold content, inode_of; by rewrite P1).
  assert (target <> temp_path s.1) as Hne1 by congruence.
  assert (target <> state_path s.1) as Hne2 by congruence.
  split; [by rewrite Hcont|].
  split; [by rewrite P2, lookup_delete_ne, lookup_insert_eq by done|].
  split; [|split; [intros Hn; by rewrite <- F1|split]].
  - by rewrite P2, lookup_delete_eq by done.
  - intros n Hn Hnt. pose proof Hn as (? & ? & _).
    rewrite P2, lookup_delete_ne, lookup_insert_ne by done. by apply F1.
  - intros i Hi. rewrite Hcont. by apply F2.
Qed.

(** Three calls on the disk in a row are one. *)
Lemma wp_finalize_tail {A} (c1 c2 c3 : st world error unit) (a : A) d w
    (P R : world -> Prop) (Q : A -> PartialDownload * world -> Prop)
    (R' : error -> PartialDownload * world -> Prop) :
  wp (let! _ := c1 in let! _ := c2 in c3) (fun _ w' => P w') (fun _ w' => R w') w ->
  (forall w', P w' -> Q a (d, w')) -> (forall e w', R w' -> R' e (d, w')) ->
  wp (let! _ := on_world c1 in let! _ := on_world c2 in let! _ := on_world c3 in ret a) Q R' (d, w).
Proof.
  unfold wp, sbind, on_world, zoom. cbn.
  destruct (c1 w) as [[[]|e|] w1]; [|naive_solver..]. cbn.
  destruct (c2 w1) as [[[]|e|] w2]; [|naive_solver..]. cbn.
  destruct (c3 w2) as [[[]|e|] w3]; naive_solver.
Qed.

(** What [finalize] does: publish under a free name, keep everything else. *)
Lemma wp_finalize f s : inv s -> file s.1 = Some f ->
  let d := s.1 in let k := disk s.2 in
  wp finalize
    (fun target s' => let k' := disk s'.2 in
       is_complete d = true /\ target ∈ candidate_paths (target_path d) MAX_FINALIZE_SUFFIX /\
       content k' f = content k f /\ dir k' !! target = Some f /\ dir k' !! temp_path d = None /\
       dir k' !! state_path d = None /\ dir_syn k' = dir k' /\
       (foreign d target -> dir k !! target = None) /\
       (forall n, foreign d n -> n <> target -> dir k' !! n = dir k !! n) /\
       (forall i, foreign_file d k i -> content k' i = content k i))
    (fun _ s' => let k' := disk s'.2 in
       (is_complete d = false -> s' = s) /\ content k' f = content k f /\
       (forall n i, foreign d n -> dir k !! n = Some i -> dir k' !! n = Some i) /\
       (forall i, foreign_file d k i -> content k' i = content k i)) s.
Proof.
  intros Hinv Hf d k. unfold finalize. apply wp_bind, wp_gets. fold d.
  apply wp_bind, wp_liftr. destruct (is_complete d) eqn:Ecomp; cbn [negb fail_if]; [|done].
  apply wp_bind. eapply wp_conseq; [by apply (wp_seal f)|..]; cbn [fst snd]; fold d k.
  2: { intros _ s' [[F1 F2] Ec]. split; [done|]. split; [done|]. split; [|done].
       intros n i Hn Hi. by rewrite F1. }
  intros _ s1 Hs1. pose proof Hs1 as [_ _ _ _ _ Ht _ Ec [F1 F2]]. fold d k in Ht, Ec, F1, F2.
  apply wp_bind, wp_on_world. fold d. unfold publish_no_replace, publish_no_replace_with.
  eapply wp_conseq; [by apply (wp_publish_loop (temp_path d) _ f)|..]; cbn [fst snd].
  2: { intros _ w' [->|(t & Hfree & ->)]; (split; [done|]; split; [done|]; split; [|done]);
         intros n i Hn Hi; cbn [dir set_dir].
       - by rewrite F1.
       - rewrite lookup_insert_ne; [by rewrite F1|]. intros ->. rewrite F1 in Hfree by done. congruence. }
  intros target w2 (Hin & Hfree & E2).
  pose proof (fun k' => published_keeps d f target s s1 k' eq_refl Hs1 Hfree) as Hkeeps. cbv zeta in Hkeeps.
  fold k in Hkeeps.
  assert (forall w', published d f target (disk s1.2) (disk w') ->
    (true = false -> (s1.1, w') = s) /\ content (disk w') f = content k f /\
    (forall n i, foreign d n -> dir k !! n = Some i -> dir (disk w') !! n = Some i) /\
    (forall i, foreign_file d k i -> content (disk w') i = content k i)) as Herr.
  { intros w' Hw. destruct (Hkeeps _ Hw) as (H1 & _ & _ & H2 & H3 & H4). split; [done|]. split; [done|].
    split; [|done]. intros n i Hn Hi. rewrite H3; [done|done|]. intros ->. by rewrite H2 in Hi. }
  assert (published d f target (disk s1.2) (disk w2)) as Hp2 by (rewrite E2; done).
  pose proof (wp_cleanup d f target (disk s1.2) w2 Hp2) as Hclean.
  eapply wp_finalize_tail; [exact Hclean|..].
  - intros w' (Hp & Hst & Hsy). destruct (Hkeeps _ Hp) as (H1 & H2 & H3 & H4 & H5 & H6). done.
  - intros _. exact Herr.
Qed.

(** ** Surviving a crash *)

(** The states later method calls lead to, whatever each returns. *)
Inductive calls : PartialDownload * world -> PartialDownload * world -> Prop :=
  | calls_none s : calls s s
  | calls_write s r s1 s2 i data : 0 <= i ->
      write_chunk i data s = (r, s1) -> calls s1 s2 -> calls s s2
  | calls_checkpoint s r s1 s2 : checkpoint s = (r, s1) -> calls s1 s2 -> calls s s2.

Lemma calls_progress f s s' : calls s s' -> inv s -> file s.1 = Some f ->
  second_preimage_free (manifest s.1) -> progress f s s'.
Proof.
  induction 1 as [s|s r s1 s2 i data Hi E _ IH|s r s1 s2 E _ IH]; intros Hinv Hf Hspf.
  - by apply progress_refl.
  - destruct (wp_run _ _ _ _ (wp_write_chunk f s i data Hinv Hf Hspf Hi)) as (r' & s' & E' & Hr).
    rewrite E in E'. injection E' as <- <-.
    assert (progress f s s1) as Hp by naive_solver. pose proof Hp as [Hi1 [E1 _ _ _ _ E6] _ _ _ _].
    eapply progress_trans; [exact Hp|]. apply IH; [done|congruence|by rewrite E1].
  - destruct (wp_run _ _ _ _ (wp_checkpoint_progress f s Hinv Hf)) as (r' & s' & E' & Hr).
    rewrite E in E'. injection E' as <- <-.
    assert (progress f s s1) as Hp by naive_solver. pose proof Hp as [Hi1 [E1 _ _ _ _ E6] _ _ _ _].
    eapply progress_trans; [exact Hp|]. apply IH; [done|congruence|by rewrite E1].
Qed.

Lemma torn_same bs after : torn bs bs after -> after = bs.
Proof. intros Ht. apply list_eq. intros p. by destruct (Ht p). Qed.

(** After a crash, every chunk of the durable snapshot can be resumed. *)
Lemma dur_crash d f k k' : valid (manifest d) -> is_u64 (total_len (manifest d)) ->
  ChunkBitmap.chunk_count (durable_bitmap d) = chunk_count (manifest d) ->
  dir k !! temp_path d = Some f -> Z.of_nat (length (content k f)) = total_len (manifest d) ->
  dur d f k -> crash k k' -> byte_disk k' -> forall i, 0 <= i ->
  view (durable_bitmap d) i = true ->
  resumable (manifest d) k' (temp_path d) (state_path d) i = true.
Proof.
  intros Hv Hu Hcnt Ht Hlen [D1 D2 D3 D4] [C1 C2 _ _] Hbytes i Hi Hb. unfold resumable.
  assert (dir k' !! temp_path d = Some f) as -> by (destruct (C1 (temp_path d)); congruence).
  assert (exists b, dir k' !! state_path d = Some b /\ stable_bitmap d k f b) as (b & -> & Hst).
  { destruct (C1 (state_path d)) as [E|E]; [destruct D3 as (b & ? & ? & _) | destruct D4 as (b & ? & ? & _)];
      exists b; (split; [congruence|done]). }
  destruct Hst as (_ & bm & Ec & Es & Hw & Hc & Hsub & Hok).
  pose proof (C2 b) as Htb. rewrite Ec, Es in Htb. apply torn_same in Htb.
  pose proof (C2 f) as Htf. fold (content k f) in Htf.
  rewrite (torn_length (content k f) (syn (inode_of k f))) by done.
  rewrite Hlen, Z.eqb_refl. cbn. rewrite Htb.
  assert (ChunkBitmap.from_bytes (chunk_count (manifest d)) (ChunkBitmap.bits bm) = Ok bm) as ->.
  { apply ChunkBitmap.from_bytes_spec; [apply chunk_count_u32|by destruct Hw|].
    split; [|done]. destruct bm. cbn in *. by subst. }
  destruct (Hok i Hi (Hsub i Hi Hb)) as [Hchunk Hstable]. rewrite (Hsub i Hi Hb). cbn.
  rewrite (chunk_ok_ext _ _ (content k f)); [done|]. intros range Hr.
  unfold slice. eapply torn_slice; [done|]. symmetry. by apply Hstable.
Qed.

Lemma crash_usable d f k k' : capability d = false -> temp_path d = temp_path_for (manifest d) ->
  state_path d = state_path_for (manifest d) -> names_ok (temp_path d) (state_path d) ->
  layout (capability d) (temp_path d) (state_path d) f k -> dir_syn k !! temp_path d = Some f ->
  crash k k' -> byte_disk k' -> usable false (manifest d) k'.
Proof.
  intros Hc Et Es Hn [L1 L2 L3 L4] Hd [C1 C2 C3 C4] Hb. split; [done| |].
  - intros n i Hi. rewrite C3 in Hi. assert (dir k' !! n = Some i) as Hi' by tauto.
    rewrite C4. apply (L1 n). destruct (C1 n) as [E|E]; rewrite <- E; auto.
  - intros _ f' Hf'. rewrite <- Et, <- Es in *. rewrite C3.
    assert (f' = f) as -> by (destruct (C1 (temp_path d)); congruence).
    destruct (L4 Hc). destruct (C1 (bitmap_tmp_path (state_path d))) as [E|E]; by rewrite E.
Qed.

Lemma wp_create_top m w : is_u64 (total_len m) -> usable false m (disk w) ->
  wp (create m)
    (fun d w' => created false m default_policy (fun _ => Ok tt) (disk w) d tt w')
    (fun _ _ => True) w.
Proof.
  intros Hu Hus. unfold create, create_with_policy, create_in.
  apply wp_bind, wp_liftr. destruct (validate_total m) as [E|[tag E]]; rewrite E; [|done].
  apply wp_bind, wp_syscall; [done|]. intros w1 E1. apply wp_bind.
  eapply wp_conseq; [apply (wp_create false m default_policy (fun _ => Ok tt)); rewrite ?E1; done| |done].
  intros [d []] w2 Hc. rewrite E1 in Hc. exact Hc.
Qed.

End Invariant.

(** ** Theorems *)

(** C2: Starting or resuming a download never trusts the disk.  Whatever the
    part file and the bitmap file hold, whatever calls fail, [create] does not
    panic; if it succeeds the part file has the length of the manifest, every
    chunk marked as present was read back and verified, the caller admitted
    exactly the length of the chunks still missing, and (for a path-based
    download) the progress kept is precisely the marked chunks that verify in a
    part file of the right length; if it fails, nothing on the disk has changed
    unless the admission was granted. *)
Theorem create_reverifies `{Blake3} {hexc : Hex} {T} cap m policy (admission_check : Z -> result T) w :
  is_u64 (total_len m) -> usable cap m (disk w) -> (forall r, admission_check r <> Panic) ->
  match create_in_with_admission cap m policy admission_check w with
  | (Ok (d, t), w') => created cap m policy admission_check (disk w) d t w'
  | (Err _, w') => disk w' = disk w \/ exists bm t, admission_check (remaining m bm) = Ok t
  | (Panic, _) => False
  end.
Proof.
  intros Hu Hus Ha. pose proof (wp_create cap m policy admission_check w Hu Hus Ha) as Hw. unfold wp in Hw.
  by destruct (create_in_with_admission cap m policy admission_check w) as [[[d t]|e|] w'].
Qed.

(** C3: [write_chunk] discards bad data without touching the download or the
    disk; good data ends up in its place in the part file and its chunk is
    marked; and whatever call fails on the way (a partial write included) every
    marked chunk still verifies, no marked chunk is lost, the durability
    invariant is kept and no directory entry of anyone else changes. *)
Theorem write_chunk_safe `{Blake3} {hexc : Hex} (s : PartialDownload * world) (f i : Z) (data : list Z) :
  inv s -> file s.1 = Some f -> second_preimage_free (manifest s.1) -> is_u32 i ->
  match write_chunk i data s with
  | (Ok _, s') => verify_chunk (manifest s.1) i data = Ok true /\ progress f s s' /\
      (forall j, 0 <= j -> view (written_bitmap s'.1) j = (j =? i) || view (written_bitmap s.1) j) /\
      content (disk s'.2) f =
        splice (Z.to_nat (i * chunk_size (manifest s.1))) data (content (disk s.2) f)
  | (Err e, s') => progress f s s' /\
      (verify_chunk (manifest s.1) i data <> Ok true ->
         s' = s /\ e = Protocol "chunk verification failed")
  | (Panic, _) => False
  end.
Proof.
  intros Hinv Hf Hspf [Hi _]. pose proof (wp_write_chunk f s i data Hinv Hf Hspf Hi) as Hw.
  unfold wp in Hw. by destruct (write_chunk i data s) as [[[]|e|] s'].
Qed.

(** C1: A checkpoint survives a power failure.  Once [checkpoint] has
    returned, crash at any later moment, in or between calls of [write_chunk]
    and [checkpoint], with unsynced pages and directory entries lost at random:
    the next [create], if the disk lets it succeed, resumes with every chunk
    that was written at the checkpoint. *)
Theorem checkpoint_survives_crash `{Blake3} {hexc : Hex} (s s1 s2 : PartialDownload * world) (k' : fs)
    (w w' : world) (d' : PartialDownload) :
  inv s -> capability s.1 = false -> second_preimage_free (manifest s.1) ->
  temp_path s.1 = temp_path_for (manifest s.1) -> state_path s.1 = state_path_for (manifest s.1) ->
  checkpoint s = (Ok tt, s1) -> calls s1 s2 ->
  crash (disk s2.2) k' -> byte_disk k' -> disk w = k' ->
  create (manifest s.1) w = (Ok d', w') ->
  forall i, 0 <= i -> view (written_bitmap s.1) i = true -> view (written_bitmap d') i = true.
Proof.
  intros Hinv Hc Hspf Et Es Eck Hcalls Hcrash Hbytes <- Ecr i Hi Hb.
  pose proof Hinv as [Hv Hu _ _ _ (f & Hf & _)].
  destruct (wp_elim_Ok _ _ _ _ _ _ (wp_checkpoint_progress f s Hinv Hf) Eck)
    as ([Hi1 [E1 E2 E3 E4 E5 E6] _ _ _ _] & Ew & Ed & _ & Hdur). specialize (Hdur Hc).
  destruct (calls_progress f s1 s2 Hcalls) as [Hi2 [F1 F2 F3 F4 F5 F6] _ P4 P5 _];
    [done|congruence|by rewrite E1|].
  specialize (P5 ltac:(congruence) Hdur).
  pose proof Hi2 as [_ _ _ (_ & Hdc & _) Hn (f2 & Hf2 & Hl & [Hlen _])].
  assert (f2 = f) as -> by congruence.
  assert (manifest s2.1 = manifest s.1) as Em by congruence.
  assert (usable false (manifest s2.1) (disk w)) as Hus.
  { eapply (crash_usable s2.1 f); try done; try congruence. by destruct P5. }
  rewrite Em in *. pose proof (wp_create_top (manifest s.1) w Hu Hus) as Hw.
  eapply wp_elim_Ok in Hw; [|exact Ecr]. destruct Hw as [_ (Hm' & _) _ _ Hpaths Hprog].
  destruct (Hpaths eq_refl) as [Et' Es']. rewrite Hprog by done.
  rewrite Et', Es', <- Et, <- Es.
  pose proof (dur_crash s2.1 f (disk s2.2) (disk w)) as Hres. rewrite Em, F3, F4, E3, E4 in Hres.
  apply Hres; try done.
  - destruct Hl as [_ _ Hl _]. congruence.
  - apply P4; [done|]. by rewrite Ed.
Qed.

(** [finalize] refuses an incomplete download without changing anything.
    Otherwise, if it succeeds, the part file, every chunk of which verifies, is
    reachable under a candidate name that was free, the part file and the bitmap
    are gone and this is durable.  Success or not, it never replaces or removes
    an entry of anyone else and never changes the content of another file. *)
Theorem finalize_publishes `{Blake3} {hexc : Hex} (s : PartialDownload * world) (f : Z) :
  inv s -> file s.1 = Some f ->
  let d := s.1 in let k := disk s.2 in
  match finalize s with
  | (Ok target, s') => let k' := disk s'.2 in
      target ∈ candidate_paths (target_path d) MAX_FINALIZE_SUFFIX /\
      (foreign d target -> dir k !! target = None) /\
      dir k' !! target = Some f /\
      Z.of_nat (length (content k' f)) = total_len (manifest d) /\
      (forall i, 0 <= i < chunk_count (manifest d) -> chunk_ok (manifest d) (content k' f) i = true) /\
      dir k' !! temp_path d = None /\ dir k' !! state_path d = None /\ dir_syn k' = dir k' /\
      (forall n, foreign d n -> n <> target -> dir k' !! n = dir k !! n) /\
      (forall i, foreign_file d k i -> content k' i = content k i)
  | (Err _, s') => let k' := disk s'.2 in
      (is_complete d = false -> s' = s) /\
      (forall n i, foreign d n -> dir k !! n = Some i -> dir k' !! n = Some i) /\
      (forall i, foreign_file d k i -> content k' i = content k i)
  | (Panic, _) => False
  end.
Proof.
  intros Hinv Hf d k. pose proof (wp_finalize f s Hinv Hf) as Hw. cbv zeta in Hw. fold d k in Hw.
  unfold wp in Hw. destruct (finalize s) as [[target|e|] s']; [|naive_solver|done].
  destruct Hw as (Hcomp & H1 & H2 & H3 & H4 & H5 & H6 & H7 & H8 & H9).
  destruct Hinv as [Hv Hu [Hwf Hcnt] _ _ (f' & Ef & _ & [Hlen Hok])].
  rewrite Hf in Ef. injection Ef as <-. fold d k in Hwf, Hcnt, Hlen, Hok.
  split; [done|]. split; [done|]. split; [done|]. rewrite H2. split; [done|]. split; [|done].
  intros i Hi. apply Hok; [lia|]. unfold is_complete in Hcomp.
  apply (proj1 (ChunkBitmap.is_complete_spec _ Hwf) Hcomp). lia.
Qed.
(** ** A concrete download: three bytes in one chunk *)

Module Demo.

Definition hash : Blake3 := fun x => x.
Definition hex : Hex := fun x => x.
#[local] Existing Instance hex.
Definition m : FileManifest :=
  mk_manifest (lit "a") 3 16384 [[1; 2; 3]]
    (@root_hash_of hash (lit "a") 3 16384 [[1; 2; 3]]).
Definition disk0 : fs := mk_fs ∅ ∅ ∅ 0.
Definition world0 : world := mk_world disk0 [] [] [].

Lemma m_valid : @validate hash m = Ok tt.
Proof. vm_compute. reflexivity. Qed.

Lemma m_second_preimage_free : @second_preimage_free hash m.
Proof. intros x y _ E _. exact E. Qed.

Lemma usable0 : usable false m disk0.
Proof.
  split.
  - intros i. apply Forall_nil. done.
  - intros n i [E|E]; cbn [dir dir_syn disk0] in E; by rewrite lookup_empty in E.
  - intros _ f E. cbn [dir disk0] in E. by rewrite lookup_empty in E.
Qed.

(** The state after [create], and after writing the chunk. *)
Definition run {A} (r : outcome error A * world) (d : A) : A * world :=
  (match r.1 with Ok a => a | _ => d end, r.2).
Definition dummy : PartialDownload :=
  mk_download m false [] [] [] None (ChunkBitmap.new 0) (ChunkBitmap.new 0) 0 0 default_policy.
Definition state1 : PartialDownload * world := run (@create hash hex m world0) dummy.
Definition state2 : PartialDownload * world := (@write_chunk hash hex 0 [1; 2; 3] state1).2.
Definition state3 : PartialDownload * world := (checkpoint state2).2.

Lemma create_ok : @create hash hex m world0 = (Ok state1.1, state1.2).
Proof. vm_compute. reflexivity. Qed.

Lemma state1_inv : @inv hash state1.
Proof.
  pose proof (@wp_create_top hash hex m world0 ltac:(done) usable0) as Hw.
  pose proof (created_inv _ _ _ _ _ _ _ _ (wp_elim_Ok _ _ _ _ _ _ Hw create_ok)) as Hi.
  rewrite (surjective_pairing state1). exact Hi.
Qed.

Lemma state1_file : file state1.1 = Some 0.
Proof. vm_compute. reflexivity. Qed.

Lemma write_ok : @write_chunk hash hex 0 [1; 2; 3] state1 = (Ok tt, state2).
Proof. vm_compute. reflexivity. Qed.

Lemma state2_inv : @inv hash state2.
Proof.
  pose proof (@wp_write_chunk hash hex 0 state1 0 [1; 2; 3] state1_inv state1_file
    m_second_preimage_free ltac:(done)) as Hw.
  destruct (wp_elim_Ok _ _ _ _ _ _ Hw write_ok) as (_ & Hp & _). exact (progress_inv _ _ _ Hp).
Qed.

Lemma checkpoint_ok : checkpoint state2 = (Ok tt, state3).
Proof. vm_compute. reflexivity. Qed.

(** The orderly crash: nothing is lost. *)
Definition after_crash : world := mk_world (orderly (disk state3.2)) [] [] [].
Definition resumed : PartialDownload * world := run (@create hash hex m after_crash) dummy.

Lemma resumed_ok : @create hash hex m after_crash = (Ok resumed.1, resumed.2).
Proof. vm_compute. reflexivity. Qed.

Lemma after_crash_bytes : byte_disk (disk after_crash).
Proof.
  assert (map_Forall (fun _ nd => are_bytes (cur nd)) (inodes (disk after_crash))) as Hall.
  { apply (bool_decide_unpack _). vm_compute. reflexivity. }
  intros i. unfold content, inode_of. destruct (inodes (disk after_crash) !! i) as [nd|] eqn:E.
  - exact (Hall i nd E).
  - apply Forall_nil. done.
Qed.

End Demo.

Lemma create_reverifies_witness :
  exists d w', @create_in_with_admission Demo.hash Demo.hex unit false Demo.m default_policy
    (fun _ => Ok tt) Demo.world0 = (Ok (d, tt), w') /\ @inv Demo.hash (d, w').
Proof.
  pose proof (@create_reverifies Demo.hash Demo.hex unit false Demo.m default_policy (fun _ => Ok tt)
    Demo.world0 ltac:(done) Demo.usable0 ltac:(done)) as H.
  destruct (@create_in_with_admission Demo.hash Demo.hex unit false Demo.m default_policy (fun _ => Ok tt)
    Demo.world0) as [[[d []]|e|] w'] eqn:E.
  - exists d, w'. split; [reflexivity|]. exact (created_inv _ _ _ _ _ _ _ _ H).
  - exfalso. vm_compute in E. discriminate E.
  - destruct H.
Defined.

Lemma write_chunk_safe_witness :
  @verify_chunk Demo.hash Demo.m 0 [1; 2; 3] = Ok true /\
  view (written_bitmap Demo.state2.1) 0 = true.
Proof.
  pose proof (@write_chunk_safe Demo.hash Demo.hex Demo.state1 0 0 [1; 2; 3] Demo.state1_inv
    Demo.state1_file Demo.m_second_preimage_free ltac:(done)) as H.
  rewrite Demo.write_ok in H. destruct H as (Hv & _ & Hb & _).
  split; [exact Hv|]. rewrite (Hb 0 ltac:(lia)). reflexivity.
Defined.

Lemma checkpoint_survives_crash_witness : view (written_bitmap Demo.resumed.1) 0 = true.
Proof.
  refine (@checkpoint_survives_crash Demo.hash Demo.hex Demo.state2 Demo.state3 Demo.state3
    (disk Demo.after_crash) Demo.after_crash Demo.resumed.2 Demo.resumed.1
    Demo.state2_inv _ Demo.m_second_preimage_free _ _ Demo.checkpoint_ok (calls_none _) _
    Demo.after_crash_bytes eq_refl Demo.resumed_ok 0 ltac:(lia) _).
  - vm_compute. reflexivity.
  - vm_compute. reflexivity.
  - vm_compute. reflexivity.
  - exact (crash_orderly (disk Demo.state3.2)).
  - vm_compute. reflexivity.
Defined.

Lemma finalize_publishes_witness :
  exists s', @finalize Demo.hex Demo.state2 = (Ok (lit "a"), s') /\ dir (disk s'.2) !! lit "a" = Some 0.
Proof.
  pose proof (@finalize_publishes Demo.hash Demo.hex Demo.state2 0 Demo.state2_inv) as H.
  assert (file Demo.state2.1 = Some 0) as Hf by (vm_compute; reflexivity).
  specialize (H Hf). cbv zeta in H.
  assert (exists s', @finalize Demo.hex Demo.state2 = (Ok (lit "a"), s')) as [s' E].
  { eexists. vm_compute. reflexivity. }
  exists s'. split; [exact E|]. rewrite E in H. destruct H as (_ & _ & H & _). exact H.
Defined.

End StorageProof.
