(* ===== verification/StorageCalm.v ===== *)
(** * Downloads on a device that does not fail

    The success half of Storage.v: when no system call fails, [create] on a
    directory without leftovers, [write_chunk] of good data, [checkpoint] and
    [finalize] with a free name all return [Ok]. *)
From Stdlib Require Import ZArith Lia.
From stdpp Require Import prelude gmap strings.
From S2P Require Import Prelude Bitmap Manifest State FileSystem Storage StorageProof.

#[local] Open Scope Z_scope.
#[local] Arguments lit : simpl never.

Module StorageCalm.
Import Manifest Storage StorageProof.
Import ChunkBitmap (view, wf).

Definition calm (w : world) : Prop := faults w = [].

Lemma calm_step d w : calm w -> calm (step_to d w).
Proof. unfold calm, step_to. cbn. by intros ->. Qed.

(** Success is a [wp] whose error postcondition is [False]. *)
Definition never {E S : Type} : E -> S -> Prop := fun _ _ => False.

Lemma wp_syscall_calm {A} (f : fs -> outcome io_kind (A * fs)) (Q : A -> world -> Prop) w :
  calm w ->
  match f (disk w) with
  | Ok (a, d) => forall w', disk w' = d -> calm w' -> Q a w'
  | _ => False
  end ->
  wp (syscall f) Q never w.
Proof.
  unfold wp, syscall, next_fault. intros Hc HQ. rewrite Hc.
  destruct (f (disk w)) as [[a d]|k|]; [|done..]. apply HQ; [done|by apply calm_step].
Qed.

(** An expected disk error is not a failure. *)
Lemma wp_attempt_syscall_calm {A} (f : fs -> outcome io_kind (A * fs))
    (Q : outcome error A -> world -> Prop) w :
  calm w ->
  match f (disk w) with
  | Ok (a, d) => forall w', disk w' = d -> calm w' -> Q (Ok a) w'
  | Err k => forall w', disk w' = disk w -> calm w' -> Q (Err (Io k)) w'
  | Panic => False
  end ->
  wp (attempt (syscall f)) Q never w.
Proof.
  unfold wp, attempt, syscall, next_fault. intros Hc HQ. rewrite Hc.
  destruct (f (disk w)) as [[a d]|k|]; [| |done]; (apply HQ; [done|by apply calm_step]).
Qed.

Lemma wp_sys_write_calm i off data (Q : unit -> world -> Prop) w : calm w ->
  (forall w', disk w' = write_content i off data (disk w) -> calm w' -> Q tt w') ->
  wp (sys_write i off data) Q never w.
Proof.
  unfold wp, sys_write, next_fault. intros Hc HQ. rewrite Hc.
  apply HQ; [done|by apply calm_step].
Qed.

Lemma wp_instant_now_calm (Q : Z -> world -> Prop) w : calm w ->
  (forall t w', disk w' = disk w -> calm w' -> Q t w') -> wp instant_now Q never w.
Proof. intros Hc HQ. by apply HQ. Qed.

Lemma wp_save_calm `{Hex} path bm w : calm w ->
  wp (save false path bm) (fun _ w' => calm w') never w.
Proof.
  intros Hc. unfold save, save_bitmap. set (tmp := bitmap_tmp_path path).
  apply wp_bind, wp_syscall_calm; [done|]. unfold fs_create.
  assert (exists i d, (match dir (disk w) !! tmp with
    | Some i => Ok (i, set_content i [] (disk w)) | None => Ok (new_file tmp (disk w)) end
    : outcome io_kind (Z * fs)) = Ok (i, d) /\ dir d !! tmp = Some i) as (i & d & -> & Hd).
  { destruct (dir (disk w) !! tmp) as [i|] eqn:E; [by exists i, (set_content i [] (disk w))|].
    do 2 eexists. split; [done|]. cbn. by rewrite lookup_insert_eq. }
  intros w1 E1 H1. apply wp_bind, wp_sys_write_calm; [done|]. intros w2 E2 H2.
  apply wp_bind, wp_syscall_calm; [done|]. cbn. intros w3 E3 H3.
  apply wp_bind. apply wp_syscall_calm; [done|]. unfold fs_rename. rewrite E3, E2, E1. cbn.
  rewrite Hd. intros w4 E4 H4.
  apply wp_syscall_calm; [done|]. by intros w5.
Qed.

Section WithHash.
Context `{Blake3} {hexc : Hex}.

Lemma wp_checkpoint_calm s f : calm s.2 -> capability s.1 = false -> file s.1 = Some f ->
  wp checkpoint (fun _ s' => calm s'.2) never s.
Proof.
  destruct s as [d w]. cbn [fst snd]. intros Hc Hcap Hf. unfold checkpoint.
  apply wp_bind, wp_on_world, wp_instant_now_calm; [done|]. cbn [fst snd]. intros _ w1 E1 H1.
  apply wp_bind, wp_gets. apply wp_bind, wp_liftr. cbn [fst]. rewrite Hf. cbn [ok_or].
  apply wp_bind, wp_on_world, wp_syscall_calm; [done|]. cbn [fst snd fs_sync]. intros w2 E2 H2.
  rewrite Hcap. apply wp_bind, wp_on_world.
  eapply wp_conseq; [by apply wp_save_calm| |done]. cbn [fst snd]. intros _ w3 H3.
  by apply wp_bind, wp_on_world, wp_instant_now_calm.
Qed.

Lemma wp_write_chunk_calm s f i data : calm s.2 -> inv s -> capability s.1 = false ->
  file s.1 = Some f -> 0 <= i -> verify_chunk (manifest s.1) i data = Ok true ->
  wp (write_chunk i data) (fun _ s' => calm s'.2) never s.
Proof.
  intros Hc Hinv Hcap Hf Hi Hver. pose proof Hinv as [Hv Hu [Hw Hwc] _ _ _].
  destruct s as [d w]. cbn [fst snd] in *. unfold write_chunk. apply wp_bind, wp_gets. cbn [fst].
  destruct (verify_chunk_spec (manifest d) i data Hv Hu Hi) as (good & Hver' & Hgood).
  rewrite Hver in Hver'. injection Hver' as <-. destruct (proj1 Hgood eq_refl) as (range & Hr & _).
  rewrite Hver. apply wp_bind, wp_liftr, wp_bind, wp_liftr. cbn [negb fail_if].
  destruct (chunk_offset_spec (manifest d) i Hv Hu Hi) as [-> Hic]; [eauto|].
  apply wp_bind, wp_liftr. cbn [ok_or]. rewrite Hf. apply wp_bind, wp_liftr. cbn [ok_or].
  apply wp_bind, wp_on_world, wp_sys_write_calm; [done|]. cbn [fst snd]. intros w1 E1 H1.
  destruct (ChunkBitmap.set_spec (written_bitmap d) i Hw) as (bm & -> & _); [by rewrite Hwc|].
  apply wp_bind, wp_liftr, wp_bind, wp_modify. cbn [fst snd]. set (d' := set_written _ _ d).
  unfold checkpoint_if_due. apply wp_bind, wp_gets. cbn [fst].
  destruct (_ <=? _); [by apply (wp_checkpoint_calm _ f)|].
  apply wp_bind, wp_on_world, wp_instant_now_calm; [done|]. cbn [fst snd]. intros now w2 _ H2.
  destruct (_ <=? _); [by apply (wp_checkpoint_calm _ f)|]. by apply wp_ret.
Qed.

(** The loop finds the first free candidate. *)
Lemma wp_publish_loop_calm temp cands f w : calm w -> dir (disk w) !! temp = Some f ->
  (exists c, c ∈ cands /\ dir (disk w) !! c = None) ->
  wp (publish_loop temp cands) (fun _ w' => calm w') never w.
Proof.
  revert w. induction cands as [|c cands IH]; intros w Hc Ht (c0 & Hin & Hfree).
  { by apply not_elem_of_nil in Hin. }
  cbn [publish_loop]. apply wp_bind, wp_attempt_syscall_calm; [done|]. unfold fs_link. rewrite Ht.
  destruct (dir (disk w) !! c) as [o|] eqn:Ec.
  - intros w1 E1 H1. apply IH; [done|by rewrite E1|]. rewrite E1. exists c0. split; [|done].
    apply elem_of_cons in Hin as [->|]; [congruence|done].
  - intros w1 E1 H1. apply wp_bind, wp_syscall_calm; [done|]. unfold fs_remove. rewrite E1. cbn.
    rewrite lookup_insert_ne by congruence. rewrite Ht. intros w2 _ H2. by apply wp_ret.
Qed.

Lemma wp_seal_calm s f : calm s.2 -> inv s -> capability s.1 = false -> file s.1 = Some f ->
  wp seal (fun _ s' => calm s'.2) never s.
Proof.
  intros Hc Hinv Hcap Hf. unfold seal. apply wp_bind.
  eapply wp_conseq; [apply (wp_and _ _ _ _ _ _ (wp_checkpoint f s Hinv Hf)
    (wp_checkpoint_calm s f Hc Hcap Hf))|cbn|by intros e s' [_ Hx]].
  intros _ s1 [(_ & [_ _ _ _ _ E6] & _) H1].
  apply wp_bind, wp_gets. rewrite E6, Hf.
  apply wp_bind, wp_on_world, wp_syscall_calm; [done|]. cbn [fs_sync].
  intros w2 _ H2. by apply wp_modify.
Qed.

Lemma wp_finalize_calm s f : calm s.2 -> inv s -> capability s.1 = false -> file s.1 = Some f ->
  is_complete s.1 = true ->
  (exists c, c ∈ candidate_paths (target_path s.1) MAX_FINALIZE_SUFFIX /\ foreign s.1 c /\
     dir (disk s.2) !! c = None) ->
  wp finalize (fun _ s' => calm s'.2) never s.
Proof.
  intros Hc Hinv Hcap Hf Hcomp (c & Hin & Hforeign & Hfree). unfold finalize.
  apply wp_bind, wp_gets. rewrite Hcomp. apply wp_bind, wp_liftr. cbn [negb fail_if].
  apply wp_bind. eapply wp_conseq; [apply (wp_and _ _ _ _ _ _ (wp_seal f s Hinv Hf)
    (wp_seal_calm s f Hc Hinv Hcap Hf))| |by intros e s' [_ Hx]].
  cbn beta. intros _ s1 [[E1 Hts E2 E3 E4 Ht Hb Ec [F1 F2]] H1].
  apply wp_bind, wp_on_world. unfold publish_no_replace, publish_no_replace_with.
  eapply wp_conseq; [apply (wp_publish_loop_calm _ _ f); [done|done|]| |done].
  { exists c. split; [done|]. by rewrite F1. }
  cbn [fst snd]. intros target w2 H2. apply wp_bind, wp_on_world. unfold sync_parent_dir.
  apply wp_syscall_calm; [done|]. cbn [fst snd fs_sync_dir]. intros w3 _ H3.
  apply wp_bind, wp_on_world. unfold remove_file_if_exists.
  apply wp_bind, wp_attempt_syscall_calm; [done|]. unfold fs_remove. cbn [fst snd].
  destruct (dir (disk w3) !! state_path s.1); intros w4 _ H4; apply wp_ret; cbn [fst snd];
    apply wp_bind, wp_on_world, wp_syscall_calm; try done; cbn [fst snd fs_sync_dir];
    intros w5 _ H5; by apply wp_ret.
Qed.

Lemma wp_load_calm n c w : calm w -> byte_disk (disk w) -> is_u32 c ->
  wp (load false n c) (fun _ w' => calm w') never w.
Proof.
  intros Hc Hb Hn. unfold load, load_bitmap. apply wp_bind, wp_attempt_syscall_calm; [done|].
  unfold fs_read_file. destruct (dir (disk w) !! n) as [i|]; intros w' E Hw; [|by apply wp_ret].
  pose proof (from_bytes_no_panic c (content (disk w) i)).
  destruct (ChunkBitmap.from_bytes c (content (disk w) i)); [by apply wp_ret..|done].
Qed.

(** [create] of a validated manifest in a directory without a part file. *)
Lemma wp_create_calm m w : calm w -> validate m = Ok tt -> is_u64 (total_len m) ->
  byte_disk (disk w) -> dir (disk w) !! temp_path_for m = None ->
  wp (create m) (fun _ w' => calm w') never w.
Proof.
  intros Hc Hv Hu Hb Ht. unfold create, create_with_policy. rewrite Hv.
  apply wp_bind, wp_liftr, wp_bind, wp_syscall_calm; [done|]. intros w1 E1 H1.
  unfold create_in. apply wp_bind. unfold create_in_with_admission. rewrite Hv.
  apply wp_bind, wp_liftr. unfold staging_paths. apply wp_bind, wp_ret.
  apply wp_bind. eapply wp_conseq; [apply wp_and; [apply (wp_load_calm _ (chunk_count m)); [done| |]|
    apply (wp_load false _ (chunk_count m))]| |]; try apply chunk_count_u32; try (by rewrite E1).
  2: { intros e s' [Hx _]. exact Hx. }
  cbn beta. intros [bm0 repair] w2 [H2 (E2 & _)].
  apply wp_bind. unfold open_existing_part. apply wp_bind, wp_attempt_syscall_calm; [done|].
  unfold fs_open. rewrite E2, E1, Ht. intros w3 E3 H3. apply wp_ret. apply wp_bind, wp_ret.
  apply wp_bind, wp_ret.
  destruct (verified_len_spec m (ChunkBitmap.new (chunk_count m))) as [-> _]; try done.
  { by apply validate_Ok. } { apply ChunkBitmap.new_wf, chunk_count_u32. }
  apply wp_bind, wp_liftr, wp_bind, wp_liftr.
  apply wp_bind. unfold open_part. apply wp_syscall_calm; [done|]. unfold fs_open_create.
  rewrite E3, Ht. intros w4 E4 H4. cbn [snd].
  apply wp_bind, wp_bind, wp_syscall_calm; [done|]. cbn [fs_set_len]. intros w5 _ H5.
  apply wp_bind, wp_syscall_calm; [done|]. cbn [fs_set_len]. intros w6 _ H6.
  apply wp_bind, wp_syscall_calm; [done|]. cbn [fs_sync]. intros w7 _ H7.
  eapply wp_conseq; [by apply wp_save_calm| |done]. cbn beta. intros _ w8 H8.
  by apply wp_bind, wp_instant_now_calm.
Qed.

End WithHash.
End StorageCalm.
