(* ===== verification/Queue.v ===== *)
(** * The send queue (src/node/core/queue.rs)

    FIFO scheduling of file and metadata tasks with generation-stamped slots, and
    the sampler behind the displayed rate.  The maps of the code are [gmap]s; the
    transfer rate itself is the exact quotient, not its [f64] rounding. *)
From Stdlib Require Import ZArith Lia QArith.
From stdpp Require Import prelude gmap strings.
From S2P Require Import Prelude Manifest Postcard Message.

#[local] Open Scope Z_scope.

Module Queue.

Definition MAX_QUEUED : Z := 4096.
Definition MAX_METADATA_ACTIVE : Z := 8.
Definition BYTE_QUANTUM : Z := 64 * 1024.
Definition MAX_DATA_WRITERS : Z := 3.

Abbreviation TaskId := (list Z).

Record QueueEntry : Type := mk_entry {
  id : TaskId;
  peer : NodeId;
  metadata : bool;
}.
#[global] Instance QueueEntry_eq_dec : EqDecision QueueEntry.
Proof. solve_decision. Defined.

Record QueueMetrics : Type := mk_metrics {
  m_pending : Z;
  active_files : Z;
  active_metadata : Z;
  m_limit : Z;
  converging : bool;
}.

Record TaskQueue : Type := mk_queue {
  pending : list QueueEntry;
  active : gmap TaskId QueueEntry;
  limit : Z;
  generations : gmap TaskId Z;
  next_generation : Z;
}.

Definition default_queue : TaskQueue := mk_queue [] ∅ 1 ∅ 0.

Definition set_limit (value : Z) (q : TaskQueue) : outcome string unit * TaskQueue :=
  if negb ((1 <=? value) && (value <=? 3)) then (Err "limit must be 1, 2 or 3"%string, q)
  else (Ok tt, mk_queue (pending q) (active q) value (generations q) (next_generation q)).

(** [iter().find(|e| e.id == id)]. *)
Definition find_id (i : TaskId) (l : list QueueEntry) : option QueueEntry :=
  List.find (fun e => bool_decide (id e = i)) l.

(** The batch loop of [enqueue], on the candidate. *)
Fixpoint enqueue_loop (act : gmap TaskId QueueEntry) (candidate entries : list QueueEntry) :
    outcome string (list QueueEntry) :=
  match entries with
  | [] => Ok candidate
  | entry :: rest =>
      match (match act !! id entry with
             | Some e => Some e
             | None => find_id (id entry) candidate
             end) with
      | Some existing =>
          if bool_decide (existing = entry) then enqueue_loop act candidate rest
          else Err "a queued task cannot be rebound"%string
      | None =>
          if Z.of_nat (length candidate) =? MAX_QUEUED then Err "queue full"%string
          else enqueue_loop act (candidate ++ [entry]) rest
      end
  end.

Definition enqueue (entries : list QueueEntry) (q : TaskQueue) : outcome string unit * TaskQueue :=
  match enqueue_loop (active q) (pending q) entries with
  | Ok candidate => (Ok tt, mk_queue candidate (active q) (limit q) (generations q) (next_generation q))
  | Err e => (Err e, q)
  | Panic => (Panic, q)
  end.

(** [active.values().filter(..).count()]. *)
Definition count_active (p : QueueEntry -> bool) (q : TaskQueue) : Z :=
  count (fun _ e => p e) (active q).

Definition metrics (q : TaskQueue) : QueueMetrics :=
  let files := count_active (fun e => negb (metadata e)) q in
  mk_metrics (Z.of_nat (length (pending q))) files (Z.of_nat (size (active q)) - files) (limit q)
    (limit q <? files).

(** The metadata slots of one peer. *)
Definition peer_metadata (p : NodeId) (q : TaskQueue) : Z :=
  count_active (fun a => metadata a && bool_decide (peer a = p)) q.

(** The predicate of [dispatch]. *)
Definition eligible (connected : NodeId -> bool) (q : TaskQueue) (entry : QueueEntry) : bool :=
  if negb (connected (peer entry)) then false
  else if metadata entry then
    (active_metadata (metrics q) <? MAX_METADATA_ACTIVE) && (peer_metadata (peer entry) q <? 2)
  else active_files (metrics q) <? limit q.

Definition dispatch (connected : NodeId -> bool) (q : TaskQueue) : option QueueEntry * TaskQueue :=
  match list_find (fun e => eligible connected q e = true) (pending q) with
  | None => (None, q)
  | Some (position, entry) =>
      match checked_add U64_MAX (next_generation q) 1 with
      | None => (None, q)
      | Some generation =>
          (Some entry,
           mk_queue (delete position (pending q)) (<[id entry := entry]> (active q)) (limit q)
             (<[id entry := generation]> (generations q)) generation)
      end
  end.

Definition slot_generation (i : TaskId) (q : TaskQueue) : option Z := generations q !! i.

Definition finish_if (i : TaskId) (generation : Z) (q : TaskQueue) : TaskQueue :=
  if bool_decide (slot_generation i q = Some generation) then
    mk_queue (pending q) (delete i (active q)) (limit q) (delete i (generations q)) (next_generation q)
  else q.

Definition remove_queued (i : TaskId) (q : TaskQueue) : option QueueEntry * TaskQueue :=
  match list_find (fun e => id e = i) (pending q) with
  | None => (None, q)
  | Some (position, entry) =>
      (Some entry,
       mk_queue (delete position (pending q)) (active q) (limit q) (generations q) (next_generation q))
  end.

Definition is_queued (i : TaskId) (q : TaskQueue) : bool :=
  existsb (fun e => bool_decide (id e = i)) (pending q).

Definition reserve_direct (entry : QueueEntry) (q : TaskQueue) : outcome string Z * TaskQueue :=
  if bool_decide (is_Some (active q !! id entry)) then (Err "already has a slot"%string, q)
  else
    let m := metrics q in
    if (negb (metadata entry) && (limit q <=? active_files m)) ||
       (metadata entry &&
        ((MAX_METADATA_ACTIVE <=? active_metadata m) || (2 <=? peer_metadata (peer entry) q)))
    then (Err "no slot"%string, q)
    else
      match checked_add U64_MAX (next_generation q) 1 with
      | None => (Err "generations exhausted"%string, q)
      | Some generation =>
          match find_id (id entry) (pending q) with
          | Some existing =>
              if negb (bool_decide (existing = entry)) then (Err "a queued task cannot be rebound"%string, q)
              else
                let q := snd (remove_queued (id entry) q) in
                (Ok generation,
                 mk_queue (pending q) (<[id entry := entry]> (active q)) (limit q)
                   (<[id entry := generation]> (generations q)) generation)
          | None =>
              let q := snd (remove_queued (id entry) q) in
              (Ok generation,
               mk_queue (pending q) (<[id entry := entry]> (active q)) (limit q)
                 (<[id entry := generation]> (generations q)) generation)
          end
      end.

Definition clear (q : TaskQueue) : TaskQueue :=
  mk_queue [] ∅ (limit q) ∅ (next_generation q).

(** ** RateSampler *)

Record RateSampler : Type := mk_sampler {
  points : list (Z * Z);
  latest : Z;
  last_ms : Z;
}.

Definition default_sampler : RateSampler := mk_sampler [] 0 0.

Definition reset (now_ms confirmed : Z) : RateSampler :=
  mk_sampler [(now_ms, confirmed)] confirmed now_ms.

(** [while points.len() > 2 && points[1].0 <= edge { pop_front }]. *)
Fixpoint drop_old (edge : Z) (l : list (Z * Z)) : list (Z * Z) :=
  match l with
  | _ :: (((t, _) :: _ :: _) as rest) => if t <=? edge then drop_old edge rest else l
  | _ => l
  end.

(** [while points.len() > 32 { pop_front }]. *)
Definition drop_to (n : nat) (l : list (Z * Z)) : list (Z * Z) := drop (length l - n) l.

Definition observe (now_ms confirmed : Z) (s : RateSampler) : RateSampler :=
  if bool_decide (points s = []) || (now_ms <? last_ms s) || (confirmed <? latest s) then
    reset now_ms confirmed
  else
    let kept :=
      match last (points s) with
      | Some (t, _) => if t =? now_ms then removelast (points s) else points s
      | None => points s
      end in
    let pushed := kept ++ [(now_ms, confirmed)] in
    mk_sampler (drop_to 32 (drop_old (saturating_sub now_ms 2000) pushed)) confirmed now_ms.

Definition bytes_per_second (now_ms : Z) (transferring : bool) (s : RateSampler) : Q :=
  if negb transferring || (now_ms <? last_ms s) || (2000 <=? saturating_sub now_ms (last_ms s)) then 0%Q
  else
    match points s with
    | [] => 0%Q
    | (started, bytes) :: _ =>
        let elapsed := saturating_sub now_ms started in
        if elapsed =? 0 then 0%Q
        else Qmake (saturating_sub (latest s) bytes * 1000) (Z.to_pos elapsed)
    end.

(** ** Runs *)

Inductive op : Type :=
  | SetLimit (value : Z)
  | Enqueue (entries : list QueueEntry)
  | Dispatch (connected : NodeId -> bool)
  | Finish (i : TaskId) (generation : Z)
  | Reserve (entry : QueueEntry)
  | Remove (i : TaskId)
  | Clear.

Definition step (q : TaskQueue) (o : op) : TaskQueue :=
  match o with
  | SetLimit v => snd (set_limit v q)
  | Enqueue es => snd (enqueue es q)
  | Dispatch c => snd (dispatch c q)
  | Finish i g => finish_if i g q
  | Reserve e => snd (reserve_direct e q)
  | Remove i => snd (remove_queued i q)
  | Clear => clear q
  end.

Definition run (ops : list op) (q : TaskQueue) : TaskQueue := fold_left step ops q.

(** ** The invariant *)

Record Inv (q : TaskQueue) : Prop := {
  inv_limit : 1 <= limit q <= 3;
  inv_pending : Z.of_nat (length (pending q)) <= MAX_QUEUED;
  inv_nodup : NoDup (map id (pending q));
  inv_disjoint : forall e, e ∈ pending q -> active q !! id e = None;
  inv_key : forall i e, active q !! i = Some e -> id e = i;
  inv_slots : forall i, is_Some (active q !! i) <-> is_Some (generations q !! i);
  inv_generation : forall i g, generations q !! i = Some g -> 1 <= g <= next_generation q;
  inv_unique : forall i j g, generations q !! i = Some g -> generations q !! j = Some g -> i = j;
  inv_next : 0 <= next_generation q <= U64_MAX;
  inv_files : count_active (fun e => negb (metadata e)) q <= 3;
  inv_metadata : count_active metadata q <= MAX_METADATA_ACTIVE;
  inv_peer : forall p, peer_metadata p q <= 2;
}.

Lemma metrics_metadata q : active_metadata (metrics q) = count_active metadata q.
Proof.
  unfold metrics, count_active. cbn. set (m := active q).
  pose proof (count_split (fun _ (e : QueueEntry) => metadata e) m). lia.
Qed.

(** A free slot for [e]. *)
Definition slot_free (e : QueueEntry) (q : TaskQueue) : Prop :=
  if metadata e then
    count_active metadata q < MAX_METADATA_ACTIVE /\ peer_metadata (peer e) q < 2
  else count_active (fun a => negb (metadata a)) q < limit q.

Lemma eligible_spec c q e : eligible c q e = true <-> c (peer e) = true /\ slot_free e q.
Proof.
  unfold eligible, slot_free. rewrite metrics_metadata. destruct (c (peer e)); cbn [negb]; [|naive_solver].
  destruct (metadata e).
  - rewrite andb_true_iff, !Z.ltb_lt. naive_solver.
  - rewrite Z.ltb_lt. naive_solver.
Qed.

(** Give [e] the slot [g]. *)
Definition activate (e : QueueEntry) (rest : list QueueEntry) (g : Z) (q : TaskQueue) : TaskQueue :=
  mk_queue rest (<[id e := e]> (active q)) (limit q) (<[id e := g]> (generations q)) g.

Lemma map_sublist_NoDup (l k : list QueueEntry) : sublist l k -> NoDup (map id k) -> NoDup (map id l).
Proof.
  intros Hs Hn. apply (sublist_NoDup _ (map id k)); [done|]. by apply (fmap_sublist id).
Qed.

Lemma activate_inv e rest q : Inv q -> sublist rest (pending q) -> active q !! id e = None ->
  (forall x, x ∈ rest -> id x <> id e) -> slot_free e q -> next_generation q + 1 <= U64_MAX ->
  Inv (activate e rest (next_generation q + 1) q).
Proof.
  intros [I1 I2 I3 I4 I5 I6 I7 I8 I9 I10 I11 I12] Hsub Hact Hne Hfree Hmax.
  assert (generations q !! id e = None) as Hgen.
  { apply eq_None_not_Some. intros Hg%I6. rewrite Hact in Hg. by destruct Hg. }
  unfold slot_free in Hfree. unfold activate. split; cbn [limit pending active generations next_generation].
  - done.
  - apply sublist_length in Hsub. lia.
  - by eapply map_sublist_NoDup.
  - intros x Hx. rewrite lookup_insert_ne by (by apply not_eq_sym, Hne).
    apply I4. by eapply elem_of_sublist.
  - intros i x [[<- <-]|[_ E]]%lookup_insert_Some; [done|by apply I5].
  - intros i. destruct (decide (id e = i)) as [<-|Hi].
    + rewrite !lookup_insert_eq. split; by eexists.
    + rewrite !lookup_insert_ne by done. apply I6.
  - intros i g [[_ <-]|[_ E]]%lookup_insert_Some; [lia|]. apply I7 in E. lia.
  - intros i j g [[<- <-]|[Hi E]]%lookup_insert_Some [[<- Ej]|[Hj E']]%lookup_insert_Some; try done.
    + apply I7 in E'. lia.
    + apply I7 in E. lia.
    + by eapply I8.
  - lia.
  - unfold count_active in *. cbn. rewrite count_insert_new by done.
    destruct (metadata e); cbn; lia.
  - unfold count_active in *. cbn. rewrite count_insert_new by done.
    destruct (metadata e); cbn; lia.
  - intros p. specialize (I12 p). unfold peer_metadata, count_active in *. cbn.
    rewrite count_insert_new by done. destruct (metadata e); cbn; [|lia].
    case_bool_decide; subst; lia.
Qed.

Lemma shrink_pending_inv q rest : Inv q -> sublist rest (pending q) ->
  Inv (mk_queue rest (active q) (limit q) (generations q) (next_generation q)).
Proof.
  intros [I1 I2 I3 I4 I5 I6 I7 I8 I9 I10 I11 I12] Hsub. split; try done; cbn.
  - apply sublist_length in Hsub. lia.
  - by eapply map_sublist_NoDup.
  - intros x Hx. apply I4. by eapply elem_of_sublist.
Qed.

Lemma finish_inv q i g : Inv q -> Inv (finish_if i g q).
Proof.
  intros [I1 I2 I3 I4 I5 I6 I7 I8 I9 I10 I11 I12]. unfold finish_if. case_bool_decide; [|by split].
  split; cbn; try done.
  - intros e He. rewrite lookup_delete_None. right. by apply I4.
  - intros j e [_ E]%lookup_delete_Some. by apply I5.
  - intros j. destruct (decide (i = j)) as [<-|Hj].
    + rewrite !lookup_delete_eq. done.
    + rewrite !lookup_delete_ne by done. apply I6.
  - intros j x [_ E]%lookup_delete_Some. by eapply I7.
  - intros j k x [_ E]%lookup_delete_Some [_ E']%lookup_delete_Some. by eapply I8.
  - unfold count_active in *. cbn. etrans; [apply count_delete_le|done].
  - unfold count_active in *. cbn. etrans; [apply count_delete_le|done].
  - intros p. unfold peer_metadata, count_active in *. cbn. etrans; [apply count_delete_le|apply I12].
Qed.

Lemma find_id_Some i l e : find_id i l = Some e -> e ∈ l /\ id e = i.
Proof.
  unfold find_id. intros [Hin Hp]%find_some. apply bool_decide_eq_true in Hp.
  by rewrite list_elem_of_In.
Qed.

Lemma find_id_None i l : find_id i l = None -> forall e, e ∈ l -> id e <> i.
Proof.
  unfold find_id. intros H e He%list_elem_of_In E. pose proof (find_none _ _ H e He) as Hn.
  by apply bool_decide_eq_false in Hn.
Qed.

(** What the batch loop adds. *)
Lemma enqueue_loop_spec act candidate entries result :
  enqueue_loop act candidate entries = Ok result ->
  exists added, result = candidate ++ added /\ sublist added entries /\
    (forall e, e ∈ entries -> act !! id e = Some e \/ e ∈ result) /\
    (Z.of_nat (length candidate) <= MAX_QUEUED -> Z.of_nat (length result) <= MAX_QUEUED) /\
    (NoDup (map id candidate) -> NoDup (map id result)) /\
    (forall e, e ∈ added -> act !! id e = None).
Proof.
  revert candidate. induction entries as [|entry rest IH]; intros candidate E; cbn in E.
  { injection E as <-. exists []. rewrite app_nil_r. split_and!; try done.
    - intros e He. by apply elem_of_nil in He.
    - intros e He. by apply elem_of_nil in He. }
  destruct (act !! id entry) as [e|] eqn:Ea.
  { case_bool_decide; [subst e|done]. destruct (IH _ E) as (added & H1 & H2 & H3 & H4).
    exists added. split; [done|]. split; [by constructor|]. split; [|done].
    intros e [->|He]%elem_of_cons; [by left|by apply H3]. }
  destruct (find_id (id entry) candidate) as [e|] eqn:Ef.
  { case_bool_decide; [subst e|done]. destruct (IH _ E) as (added & H1 & H2 & H3 & H4).
    exists added. split; [done|]. split; [by constructor|]. split; [|done].
    intros e [->|He]%elem_of_cons; [|by apply H3]. right. apply find_id_Some in Ef as [Hin _].
    subst result. apply elem_of_app. by left. }
  destruct (Z.eqb_spec (Z.of_nat (length candidate)) MAX_QUEUED) as [|Hne]; [done|].
  destruct (IH _ E) as (added & H1 & H2 & H3 & H4 & H5 & H6).
  exists (entry :: added). rewrite H1, <- app_assoc. split_and!; [done|by constructor| | | |].
  - intros e [->|He]%elem_of_cons.
    + right. apply elem_of_app. right. by left.
    + destruct (H3 e He) as [|Hin]; [by left|right]. by rewrite H1, <- app_assoc in Hin.
  - intros Hl. rewrite H1, <- app_assoc in H4. apply H4. rewrite length_app. cbn. lia.
  - intros Hn. rewrite H1, <- app_assoc in H5. apply H5. rewrite map_app. apply NoDup_app.
    split; [done|]. split; [|apply NoDup_singleton].
    intros x Hx ->%list_elem_of_singleton. apply list_elem_of_In, in_map_iff in Hx as (e & He & Hin).
    apply (find_id_None _ _ Ef e); [by apply list_elem_of_In|done].
  - intros e [->|He]%elem_of_cons; [done|by apply H6].
Qed.

(** *** Each operation *)

Lemma delete_position {P : QueueEntry -> Prop} `{!forall e, Decision (P e)} l i e :
  list_find P l = Some (i, e) ->
  exists l1 l2, l = l1 ++ e :: l2 /\ delete i l = l1 ++ l2 /\ Forall (fun x => ~ P x) l1 /\ P e.
Proof.
  intros (Hl & HP & Hb)%list_find_Some. exists (take i l), (drop (S i) l).
  pose proof (take_drop_middle l i e Hl) as Hm. split; [done|]. split; [apply delete_take_drop|].
  split; [|done]. apply Forall_lookup. intros j x [Hj Hlt]%lookup_take_Some. by eapply Hb.
Qed.

Lemma sublist_middle {A} (l1 l2 : list A) e : sublist (l1 ++ l2) (l1 ++ e :: l2).
Proof. apply sublist_app; [done|]. by constructor. Qed.

Lemma dispatch_cases c q :
  match dispatch c q with
  | (Some e, q') => exists l1 l2, pending q = l1 ++ e :: l2 /\
      Forall (fun x => eligible c q x = false) l1 /\ eligible c q e = true /\
      next_generation q + 1 <= U64_MAX /\ q' = activate e (l1 ++ l2) (next_generation q + 1) q
  | (None, q') => q' = q /\
      (Forall (fun x => eligible c q x = false) (pending q) \/ U64_MAX < next_generation q + 1)
  end.
Proof.
  unfold dispatch. destruct (list_find _ (pending q)) as [[i e]|] eqn:E.
  - unfold checked_add. destruct (Z.leb_spec (next_generation q + 1) U64_MAX); [|split; [done|by right]].
    apply delete_position in E as (l1 & l2 & E1 & E2 & Hf & He). exists l1, l2.
    split; [done|]. split; [|by rewrite E2]. eapply Forall_impl; [exact Hf|].
    intros x Hx. by apply not_true_is_false.
  - split; [done|]. left. apply list_find_None in E. eapply Forall_impl; [exact E|].
    intros x Hx. by apply not_true_is_false.
Qed.

Lemma remove_queued_cases i q :
  match remove_queued i q with
  | (Some e, q') => exists l1 l2, pending q = l1 ++ e :: l2 /\ id e = i /\
      q' = mk_queue (l1 ++ l2) (active q) (limit q) (generations q) (next_generation q)
  | (None, q') => q' = q /\ forall e, e ∈ pending q -> id e <> i
  end.
Proof.
  unfold remove_queued. destruct (list_find _ (pending q)) as [[j e]|] eqn:E.
  - apply delete_position in E as (l1 & l2 & E1 & E2 & _ & He). exists l1, l2. by rewrite E2.
  - split; [done|]. apply list_find_None in E. intros e He. by eapply Forall_forall in E.
Qed.

(** The entries left after taking one out have other ids. *)
Lemma other_ids l1 l2 e x : NoDup (map id (l1 ++ e :: l2)) -> x ∈ l1 ++ l2 -> id x <> id e.
Proof.
  rewrite map_app. cbn. intros (H1 & H2 & H3)%NoDup_app Hx E. apply NoDup_cons in H3 as [H3 _].
  apply elem_of_app in Hx as [Hx|Hx].
  - apply (H2 (id e)); [|by left]. rewrite <- E. apply list_elem_of_fmap. by exists x.
  - apply H3. rewrite <- E. apply list_elem_of_fmap. by exists x.
Qed.

Lemma dispatch_inv c q : Inv q -> Inv (snd (dispatch c q)).
Proof.
  intros Hi. pose proof (dispatch_cases c q) as Hc. destruct (dispatch c q) as [[e|] q']; cbn.
  - destruct Hc as (l1 & l2 & E & _ & He & Hm & ->). apply eligible_spec in He as [_ Hf].
    apply activate_inv; try done.
    + rewrite E. apply sublist_middle.
    + apply (inv_disjoint q Hi). rewrite E. apply elem_of_app. right. by left.
    + intros x Hx. eapply other_ids; [rewrite <- E; apply (inv_nodup q Hi)|done].
  - by destruct Hc as [-> _].
Qed.

(** A direct reservation either changes nothing or takes the slot. *)
Lemma reserve_cases e q : Inv q ->
  match reserve_direct e q with
  | (Ok g, q') => exists rest, sublist rest (pending q) /\ active q !! id e = None /\
      (forall x, x ∈ rest -> id x <> id e) /\ slot_free e q /\
      g = next_generation q + 1 /\ g <= U64_MAX /\ q' = activate e rest g q
  | (Err _, q') => q' = q
  | (Panic, _) => False
  end.
Proof.
  intros Hi. unfold reserve_direct. destruct (bool_decide _) eqn:Ea; [done|]. bool_hyps.
  apply eq_None_not_Some in Ea. rewrite metrics_metadata. destruct (_ || _) eqn:Es; [done|].
  unfold checked_add. destruct (Z.leb_spec (next_generation q + 1) U64_MAX) as [Hm|]; [|done].
  assert (slot_free e q) as Hf.
  { unfold slot_free. apply orb_false_iff in Es as [E1 E2]. cbn [metrics active_files] in E1.
    destruct (metadata e); cbn in *; bool_hyps; [by split|done]. }
  pose proof (remove_queued_cases (id e) q) as Hr.
  assert (exists rest, sublist rest (pending q) /\ (forall x, x ∈ rest -> id x <> id e) /\
    snd (remove_queued (id e) q) =
      mk_queue rest (active q) (limit q) (generations q) (next_generation q)) as (rest & H1 & H2 & H3).
  { destruct (remove_queued (id e) q) as [[x|] q'].
    - destruct Hr as (l1 & l2 & E & Hx & ->). exists (l1 ++ l2). rewrite E. split; [apply sublist_middle|].
      split; [|done]. intros y Hy. rewrite <- Hx. eapply other_ids; [|exact Hy].
      rewrite <- E. apply (inv_nodup q Hi).
    - destruct Hr as [-> Hr]. exists (pending q). split; [done|]. split; [done|]. by destruct q. }
  destruct (find_id (id e) (pending q)) as [x|]; [case_bool_decide; cbn [negb]; [|done]|];
    exists rest; rewrite H3; split_and!; done.
Qed.

Lemma idle_inv l n : 1 <= l <= 3 -> 0 <= n <= U64_MAX -> Inv (mk_queue [] ∅ l ∅ n).
Proof.
  intros Hl Hn.
  assert (forall p, count (fun _ e => p e) (∅ : gmap TaskId QueueEntry) = 0) as Hz.
  { intros p. apply count_none. intros *. by rewrite lookup_empty. }
  split; unfold peer_metadata, count_active; cbn [pending active limit generations next_generation].
  - done.
  - done.
  - constructor.
  - by intros e He%elem_of_nil.
  - done.
  - intros i. by rewrite !lookup_empty, !is_Some_alt.
  - done.
  - done.
  - done.
  - by rewrite Hz.
  - by rewrite Hz.
  - intros p. by rewrite Hz.
Qed.

Lemma queue_step_inv q o : Inv q -> Inv (step q o).
Proof.
  intros Hi. destruct o as [v|es|c|i g|e|i|]; cbn.
  - unfold set_limit. destruct (negb _) eqn:E; [done|]. bool_hyps. bool_hyps. destruct Hi. by split.
  - unfold enqueue. destruct (enqueue_loop _ _ _) as [r|e|] eqn:E; [|done|done]. cbn.
    apply enqueue_loop_spec in E as (added & -> & _ & _ & H4 & H5 & H6).
    destruct Hi as [I1 I2 I3 I4 I5 I6 I7 I8 I9 I10 I11 I12]. split; try done; cbn.
    + by apply H4.
    + by apply H5.
    + intros e [He|He]%elem_of_app; [by apply I4|by apply H6].
  - by apply dispatch_inv.
  - by apply finish_inv.
  - pose proof (reserve_cases e q Hi) as Hc. destruct (reserve_direct e q) as [[g|x|] q']; cbn.
    + destruct Hc as (rest & H1 & H2 & H3 & H4 & -> & H6 & ->). by apply activate_inv.
    + by subst q'.
    + done.
  - pose proof (remove_queued_cases i q) as Hc. destruct (remove_queued i q) as [[x|] q']; cbn.
    + destruct Hc as (l1 & l2 & E & _ & ->). apply shrink_pending_inv; [done|]. rewrite E. apply sublist_middle.
    + by destruct Hc as [-> _].
  - destruct Hi. by apply idle_inv.
Qed.

Lemma run_inv ops q : Inv q -> Inv (run ops q).
Proof.
  unfold run. revert q. induction ops as [|o ops IH]; intros q Hi; [done|]. cbn. by apply IH, queue_step_inv.
Qed.

Lemma default_inv : Inv default_queue.
Proof. by apply idle_inv. Qed.

(** *** Slots and generations *)

(** Every slot of [q'] is the same slot as in [q], or newer than all of [q]'s. *)
Record slots_advance (q q' : TaskQueue) : Prop := {
  advance_next : next_generation q <= next_generation q';
  advance_slot : forall i g, generations q' !! i = Some g ->
    (generations q !! i = Some g /\ active q' !! i = active q !! i) \/ next_generation q < g;
}.

Lemma slots_advance_refl q : slots_advance q q.
Proof. split; [lia|]. intros i g E. by left. Qed.

Lemma slots_advance_trans q q1 q2 : slots_advance q q1 -> slots_advance q1 q2 -> slots_advance q q2.
Proof.
  intros [A1 A2] [B1 B2]. split; [lia|]. intros i g E.
  destruct (B2 i g E) as [[E1 E2]|]; [|right; lia].
  destruct (A2 i g E1) as [[E3 E4]|]; [left; split; congruence|by right].
Qed.

Lemma slots_advance_activate q e rest : slots_advance q (activate e rest (next_generation q + 1) q).
Proof.
  split; cbn; [lia|]. intros i g [[<- <-]|[Hne E]]%lookup_insert_Some; [right; lia|left].
  by rewrite lookup_insert_ne.
Qed.

Lemma step_advance q o : Inv q -> slots_advance q (step q o).
Proof.
  intros Hi. destruct o as [v|es|c|i g|e|i|]; cbn.
  - unfold set_limit. destruct (negb _); [apply slots_advance_refl|]. split; [done|]. intros; by left.
  - unfold enqueue. destruct (enqueue_loop _ _ _); (split; [done|]); intros; by left.
  - pose proof (dispatch_cases c q) as Hc. destruct (dispatch c q) as [[e|] q']; cbn.
    + destruct Hc as (l1 & l2 & _ & _ & _ & _ & ->). apply slots_advance_activate.
    + destruct Hc as [-> _]. apply slots_advance_refl.
  - unfold finish_if. case_bool_decide; [|apply slots_advance_refl]. split; [done|]. cbn.
    intros j x [Hne E]%lookup_delete_Some. left. by rewrite lookup_delete_ne.
  - pose proof (reserve_cases e q Hi) as Hc. destruct (reserve_direct e q) as [[g|x|] q']; cbn.
    + destruct Hc as (rest & H1 & H2 & H3 & H4 & -> & H6 & ->). apply slots_advance_activate.
    + subst q'. apply slots_advance_refl.
    + done.
  - pose proof (remove_queued_cases i q) as Hc. destruct (remove_queued i q) as [[x|] q']; cbn.
    + destruct Hc as (l1 & l2 & _ & _ & ->). split; [done|]. intros; by left.
    + destruct Hc as [-> _]. apply slots_advance_refl.
  - split; [done|]. cbn. intros j x. by rewrite lookup_empty.
Qed.

Lemma run_advance ops q : Inv q -> slots_advance q (run ops q).
Proof.
  unfold run. revert q. induction ops as [|o ops IH]; intros q Hi; [apply slots_advance_refl|]. cbn.
  eapply slots_advance_trans; [by apply step_advance|]. by apply IH, queue_step_inv.
Qed.

(** ** Properties *)

(** Whatever is queued, dispatched, reserved, finished, removed or cleared,
    in any order: at most 4096 tasks wait, none twice and none that is active; at
    most 3 files, 8 metadata transfers, and 2 metadata transfers per peer are
    active; and every active task holds exactly one slot, with a generation of
    its own. *)
Theorem queue_invariant (ops : list op) : Inv (run ops default_queue).
Proof. apply run_inv, default_inv. Qed.

(** [dispatch] is FIFO among the tasks that may start: it takes the first
    waiting task whose peer is connected and for whose kind a slot is free, keeps
    the order of the others, and gives it a new generation; it returns nothing
    only when no waiting task may start (or the counter is exhausted).  In
    particular lowering the limit below the number of active files starts no
    file until enough have finished. *)
Theorem dispatch_fifo (connected : NodeId -> bool) (q : TaskQueue) :
  match dispatch connected q with
  | (Some e, q') => exists l1 l2, pending q = l1 ++ e :: l2 /\ pending q' = l1 ++ l2 /\
      connected (peer e) = true /\ slot_free e q /\
      Forall (fun x => connected (peer x) = true -> ~ slot_free x q) l1 /\
      active q' = <[id e := e]> (active q) /\
      slot_generation (id e) q' = Some (next_generation q + 1)
  | (None, q') => q' = q /\
      (Forall (fun x => connected (peer x) = true -> ~ slot_free x q) (pending q) \/
       U64_MAX <= next_generation q)
  end.
Proof.
  assert (forall l, Forall (fun x => eligible connected q x = false) l ->
            Forall (fun x => connected (peer x) = true -> ~ slot_free x q) l) as Hno.
  { intros l Hl. eapply Forall_impl; [exact Hl|]. cbn. intros x Hx Hc Hs.
    assert (eligible connected q x = true) by (by apply eligible_spec). congruence. }
  pose proof (dispatch_cases connected q) as Hc. destruct (dispatch connected q) as [[e|] q'].
  - destruct Hc as (l1 & l2 & E & Hf & He & _ & ->). apply eligible_spec in He as [Hc Hs].
    exists l1, l2. split_and!; try done; [by apply Hno|]. unfold slot_generation. cbn.
    apply lookup_insert_eq.
  - destruct Hc as [-> [Hf|Hm]]; (split; [done|]); [left; by apply Hno|right; lia].
Qed.

(** A late guard cannot release somebody else's slot. Once the slot a guard
    was given (with a generation not above the counter) is gone, releasing it
    again has no effect, after any further operations, also when the same task
    has a new slot by then. *)
Theorem stale_guard_harmless (before after : list op) (i : TaskId) (g : Z) :
  let q := run before default_queue in
  g <= next_generation q -> slot_generation i q <> Some g ->
  finish_if i g (run after q) = run after q.
Proof.
  intros q Hg Hs. assert (Inv q) as Hi by apply run_inv, default_inv.
  unfold finish_if. case_bool_decide as E; [|done]. exfalso. unfold slot_generation in *.
  destruct (advance_slot _ _ (run_advance after q Hi) i g E) as [[E1 _]|]; [done|lia].
Qed.

Lemma stale_guard_harmless_witness :
  let e := mk_entry [1] [2] false in
  let again := [Enqueue [e]; Dispatch (fun _ => true)] in
  let q := run (again ++ [Finish [1] 1]) default_queue in
  slot_generation [1] (run again q) = Some 2 /\ finish_if [1] 1 (run again q) = run again q.
Proof.
  intros e again q. split; [vm_compute; reflexivity|].
  apply (stale_guard_harmless (again ++ [Finish [1] 1]) again [1] 1).
  - vm_compute. discriminate.
  - vm_compute. discriminate.
Defined.

(** A batch is queued as a whole or not at all. After a success every entry
    of the batch is active or waiting with exactly its own binding, the new ones
    behind the old ones in their order; after an error (a binding that differs, or
    no room) nothing has changed. Queueing never touches a slot. *)
Theorem enqueue_atomic (entries : list QueueEntry) (q : TaskQueue) :
  match enqueue entries q with
  | (Ok _, q') => exists added, pending q' = pending q ++ added /\ sublist added entries /\
      (forall e, e ∈ entries -> active q !! id e = Some e \/ e ∈ pending q') /\
      active q' = active q /\ generations q' = generations q /\ limit q' = limit q
  | (Err _, q') => q' = q
  | (Panic, _) => False
  end.
Proof.
  unfold enqueue. destruct (enqueue_loop _ _ _) as [r|e|] eqn:E; [|done|].
  - apply enqueue_loop_spec in E as (added & -> & H2 & H3 & _). by exists added.
  - exfalso. revert E. generalize (pending q). induction entries as [|x rest IH]; intros l; cbn; [done|].
    repeat case_match; try done; apply IH.
Qed.

End Queue.
