(* ===== verification/Activity.v ===== *)
(** * File and speed-test activity of each peer (src/node/core/activity.rs)

    The admission boundary between file tasks and speed tests.  The state behind
    the mutex is [State]; permits release their share when they are dropped, so a
    run is a sequence of admissions and drops of permits that are held.  The
    change notification is not modelled. *)
From Stdlib Require Import ZArith Lia.
From stdpp Require Import prelude gmap strings.
From S2P Require Import Prelude Manifest Postcard Message.

#[local] Open Scope Z_scope.

Module Activity.

Abbreviation TaskId := (list Z).

Record Entry : Type := mk_entry {
  files : Z;
  speed : option TaskId;
}.
Definition default_entry : Entry := mk_entry 0 None.

(** [State]: the entry of each peer. *)
Abbreviation State := (gmap NodeId Entry).

Definition can_speed (s : State) (peer : NodeId) : bool :=
  match s !! peer with
  | None => true
  | Some e => (files e =? 0) && bool_decide (speed e = None)
  end.

Definition speed_active (s : State) (peer : NodeId) : bool :=
  match s !! peer with
  | None => false
  | Some e => bool_decide (is_Some (speed e))
  end.

(** [entry(peer).or_default()] stays behind when the rest fails. *)
Definition add_file (peer : NodeId) (s : State) : result unit * State :=
  let e := default default_entry (s !! peer) in
  let s := <[peer := e]> s in
  if bool_decide (is_Some (speed e)) then (Err (Protocol "speed test running"), s)
  else
    match checked_add USIZE_MAX (files e) 1 with
    | None => (Err (Protocol "file count exceeded"), s)
    | Some n => (Ok tt, <[peer := mk_entry n (speed e)]> s)
    end.

Definition prune (peer : NodeId) (s : State) : State :=
  match s !! peer with
  | Some e => if (files e =? 0) && bool_decide (speed e = None) then delete peer s else s
  | None => s
  end.

(** [Activity::file] and [Activity::file_permit]: the permit is the peer. *)
Definition file (peer : NodeId) (s : State) : result NodeId * State :=
  let '(r, s) := add_file peer s in
  match r with
  | Ok _ => (Ok peer, s)
  | Err e => (Err e, s)
  | Panic => (Panic, s)
  end.

(** [Activity::speed]: the permit is the peer and the task. *)
Definition start_speed (peer : NodeId) (id : TaskId) (s : State) : result (NodeId * TaskId) * State :=
  let e := default default_entry (s !! peer) in
  let s := <[peer := e]> s in
  if negb (files e =? 0) || bool_decide (is_Some (speed e)) then
    (Err (Protocol "busy"), s)
  else (Ok (peer, id), <[peer := mk_entry (files e) (Some id)]> s).

(** [FilePermit::drop]: panics when the peer has no entry, or when the count
    underflows (an arithmetic panic in debug builds). *)
Definition drop_file (peer : NodeId) (s : State) : result unit * State :=
  match s !! peer with
  | None => (Panic, s)
  | Some e =>
      if files e =? 0 then (Panic, s)
      else (Ok tt, prune peer (<[peer := mk_entry (files e - 1) (speed e)]> s))
  end.

(** [SpeedPermit::drop]. *)
Definition drop_speed (peer : NodeId) (id : TaskId) (s : State) : State :=
  let s :=
    match s !! peer with
    | Some e => if bool_decide (speed e = Some id) then <[peer := mk_entry (files e) None]> s else s
    | None => s
    end in
  prune peer s.

(** ** Runs with the permits that are out *)

Inductive permit : Type :=
  | FilePermit (peer : NodeId)
  | SpeedPermit (peer : NodeId) (id : TaskId).
#[global] Instance permit_eq_dec : EqDecision permit.
Proof. solve_decision. Defined.

Record system : Type := mk_system { state : State; held : list permit }.

(** Admissions, and drops of held permits. *)
Inductive step : system -> outcome unit system -> Prop :=
  | StartFile peer s h p s' : file peer s = (Ok p, s') ->
      step (mk_system s h) (Ok (mk_system s' (FilePermit p :: h)))
  | RefuseFile peer s h e s' : file peer s = (Err e, s') ->
      step (mk_system s h) (Ok (mk_system s' h))
  | StartSpeed peer id s h p i s' : start_speed peer id s = (Ok (p, i), s') ->
      step (mk_system s h) (Ok (mk_system s' (SpeedPermit p i :: h)))
  | RefuseSpeed peer id s h e s' : start_speed peer id s = (Err e, s') ->
      step (mk_system s h) (Ok (mk_system s' h))
  | DropFile peer s h1 h2 r s' : drop_file peer s = (r, s') ->
      step (mk_system s (h1 ++ FilePermit peer :: h2))
        (match r with Ok _ => Ok (mk_system s' (h1 ++ h2)) | _ => Panic end)
  | DropSpeed peer id s h1 h2 :
      step (mk_system s (h1 ++ SpeedPermit peer id :: h2))
        (Ok (mk_system (drop_speed peer id s) (h1 ++ h2))).

Inductive reachable : system -> Prop :=
  | Start : reachable (mk_system ∅ [])
  | Next x y : reachable x -> step x (Ok y) -> reachable y.

Definition is_file (peer : NodeId) (p : permit) : bool := bool_decide (p = FilePermit peer).

(** Number of file permits of a peer, and its speed permits. *)
Definition file_permits (peer : NodeId) (h : list permit) : Z :=
  Z.of_nat (length (List.filter (is_file peer) h)).
Definition speed_of (peer : NodeId) (p : permit) : list TaskId :=
  match p with
  | SpeedPermit q i => if bool_decide (q = peer) then [i] else []
  | FilePermit _ => []
  end.
Definition speed_permits (peer : NodeId) (h : list permit) : list TaskId :=
  concat (map (speed_of peer) h).

(** The state counts exactly the permits that are out; a peer has either file
    permits or one speed permit; idle peers have no entry. *)
Record entry_ok (o : option Entry) (n : Z) (ids : list TaskId) : Prop := {
  entry_files : n = match o with Some e => files e | None => 0 end;
  entry_speed : ids = match o with
                      | Some e => match speed e with Some i => [i] | None => [] end
                      | None => []
                      end;
  entry_exclusive : n = 0 \/ ids = [];
  entry_used : is_Some o -> n <> 0 \/ ids <> [];
}.

Definition Inv (x : system) : Prop :=
  forall peer, entry_ok (state x !! peer) (file_permits peer (held x)) (speed_permits peer (held x)).

Lemma file_permits_app peer h1 h2 :
  file_permits peer (h1 ++ h2) = file_permits peer h1 + file_permits peer h2.
Proof. unfold file_permits. rewrite List.filter_app, length_app. lia. Qed.

Lemma file_permits_cons peer p h :
  file_permits peer (p :: h) = (if is_file peer p then 1 else 0) + file_permits peer h.
Proof. unfold file_permits. cbn. destruct (is_file peer p); cbn [length]; lia. Qed.

Lemma file_permits_nonneg peer h : 0 <= file_permits peer h.
Proof. unfold file_permits. lia. Qed.

Lemma speed_permits_app peer h1 h2 :
  speed_permits peer (h1 ++ h2) = speed_permits peer h1 ++ speed_permits peer h2.
Proof. unfold speed_permits. by rewrite map_app, concat_app. Qed.

(** Only the entry of [peer] changes. *)
Lemma inv_update x peer o s' h' : Inv x -> (forall q, q <> peer -> s' !! q = state x !! q) ->
  s' !! peer = o ->
  (forall q, q <> peer -> file_permits q h' = file_permits q (held x) /\
     speed_permits q h' = speed_permits q (held x)) ->
  entry_ok o (file_permits peer h') (speed_permits peer h') -> Inv (mk_system s' h').
Proof.
  intros Hi Hs <- Hh Hp q. cbn [state held]. destruct (decide (q = peer)) as [->|Hne]; [done|].
  destruct (Hh q Hne) as [-> ->]. rewrite (Hs q Hne). apply Hi.
Qed.

Lemma refused_inv x peer s' : Inv x -> is_Some (state x !! peer) ->
  s' = <[peer := default default_entry (state x !! peer)]> (state x) -> Inv (mk_system s' (held x)).
Proof.
  intros Hi [e He] ->. rewrite He. cbn. rewrite insert_id by done. by destruct x.
Qed.

Lemma add_file_cases peer s :
  match add_file peer s with
  | (Ok _, s') => speed (default default_entry (s !! peer)) = None /\
      s' = <[peer := mk_entry (files (default default_entry (s !! peer)) + 1) None]> s
  | (Err _, s') => s' = <[peer := default default_entry (s !! peer)]> s /\
      (is_Some (speed (default default_entry (s !! peer))) \/
       USIZE_MAX < files (default default_entry (s !! peer)) + 1)
  | (Panic, _) => False
  end.
Proof.
  unfold add_file. destruct (default default_entry (s !! peer)) as [n sp]. cbn.
  case_bool_decide as E; [by split; [done|left]|]. apply eq_None_not_Some in E. subst sp.
  unfold checked_add. destruct (Z.leb_spec (n + 1) USIZE_MAX); [|by split; [done|right]].
  split; [done|]. by rewrite insert_insert_eq.
Qed.

Lemma other_file peer q p h : (match p with FilePermit a | SpeedPermit a _ => a end) = peer ->
  q <> peer -> file_permits q (p :: h) = file_permits q h /\ speed_permits q (p :: h) = speed_permits q h.
Proof.
  intros Hp Hne. rewrite file_permits_cons. unfold is_file, speed_permits. cbn.
  destruct p as [a|a i]; cbn in *; subst a; rewrite ?bool_decide_false by congruence; done.
Qed.

Lemma other_mid peer q p h1 h2 : (match p with FilePermit a | SpeedPermit a _ => a end) = peer ->
  q <> peer -> file_permits q (h1 ++ h2) = file_permits q (h1 ++ p :: h2) /\
               speed_permits q (h1 ++ h2) = speed_permits q (h1 ++ p :: h2).
Proof.
  intros Hp Hne. destruct (other_file peer q p h2 Hp Hne) as [E1 E2].
  by rewrite !file_permits_app, !speed_permits_app, E1, E2.
Qed.

Lemma prune_other peer q s : q <> peer -> prune peer s !! q = s !! q.
Proof.
  intros Hne. unfold prune. destruct (s !! peer) as [e|]; [|done].
  destruct (_ && _); [|done]. by rewrite lookup_delete_ne.
Qed.

Lemma prune_self peer s :
  prune peer s !! peer =
  match s !! peer with
  | Some e => if (files e =? 0) && bool_decide (speed e = None) then None else Some e
  | None => None
  end.
Proof.
  unfold prune. destruct (s !! peer) as [e|] eqn:E; [|done].
  destruct (_ && _); [by rewrite lookup_delete_eq|done].
Qed.

Ltac ok_entry :=
  first [ done | congruence | lia | by right | left; lia | right; congruence
        | match goal with H : is_Some None |- _ => by destruct H end ].

Lemma start_file_inv peer s h p s' : Inv (mk_system s h) -> file peer s = (Ok p, s') ->
  Inv (mk_system s' (FilePermit p :: h)).
Proof.
  intros Hi E. unfold file in E. pose proof (add_file_cases peer s) as Hc.
  destruct (add_file peer s) as [[[]| |] s1]; try done. injection E as <- <-. destruct Hc as [Hsp ->].
  eapply (inv_update _ peer); [exact Hi| |by apply lookup_insert_eq| |].
  - intros q Hne. by rewrite lookup_insert_ne.
  - intros q Hne. by apply (other_file peer).
  - destruct (Hi peer) as [H1 H2 H3 H4]. cbn [state held] in *. pose proof (file_permits_nonneg peer h).
    rewrite file_permits_cons. unfold is_file, speed_permits in *. cbn.
    rewrite bool_decide_true by done.
    destruct (s !! peer) as [[n sp]|] eqn:E; cbn in *; subst; split; cbn; intros; ok_entry.
Qed.

Lemma start_speed_inv peer id s h p i s' : Inv (mk_system s h) ->
  start_speed peer id s = (Ok (p, i), s') -> Inv (mk_system s' (SpeedPermit p i :: h)).
Proof.
  intros Hi E. unfold start_speed in E. destruct (_ || _) eqn:Eg; [done|]. injection E as <- <- <-.
  apply orb_false_iff in Eg as [E1 E2]. bool_hyps. apply eq_None_not_Some in E2.
  rewrite insert_insert_eq.
  eapply (inv_update _ peer); [exact Hi| |by apply lookup_insert_eq| |].
  - intros q Hne. by rewrite lookup_insert_ne.
  - intros q Hne. by apply (other_file peer).
  - destruct (Hi peer) as [H1 H2 H3 H4]. cbn [state held] in *.
    rewrite file_permits_cons. unfold is_file, speed_permits in *. cbn.
    rewrite bool_decide_false by done. rewrite bool_decide_true by done.
    destruct (s !! peer) as [[n sp]|] eqn:E; cbn in *; subst; split; cbn; intros; ok_entry.
Qed.

Lemma drop_file_inv peer s h1 h2 r s' : Inv (mk_system s (h1 ++ FilePermit peer :: h2)) ->
  drop_file peer s = (r, s') -> r = Ok tt /\ Inv (mk_system s' (h1 ++ h2)).
Proof.
  intros Hi E. destruct (Hi peer) as [H1 H2 H3 H4]. cbn [state held] in *.
  assert (file_permits peer (h1 ++ FilePermit peer :: h2) = 1 + file_permits peer (h1 ++ h2)) as Hn.
  { rewrite !file_permits_app, file_permits_cons. unfold is_file. rewrite bool_decide_true by done. lia. }
  assert (speed_permits peer (h1 ++ FilePermit peer :: h2) = speed_permits peer (h1 ++ h2)) as Hs.
  { by rewrite !speed_permits_app. }
  pose proof (file_permits_nonneg peer (h1 ++ h2)). unfold drop_file in E.
  destruct (s !! peer) as [[n sp]|] eqn:Es; cbn in *; [|lia].
  destruct (Z.eqb_spec n 0); [lia|]. injection E as <- <-. split; [done|].
  assert (sp = None) as ->.
  { destruct H3 as [|H3]; [lia|]. destruct sp; [congruence|done]. }
  eapply (inv_update _ peer); [exact Hi| | | |].
  - intros q Hne. rewrite prune_other by done. by rewrite lookup_insert_ne.
  - by rewrite prune_self, lookup_insert_eq.
  - intros q Hne. by apply (other_mid peer).
  - rewrite <- Hs, H2. cbn. destruct (Z.eqb_spec (n - 1) 0); cbn; split; cbn; intros; ok_entry.
Qed.

Lemma drop_speed_inv peer id s h1 h2 : Inv (mk_system s (h1 ++ SpeedPermit peer id :: h2)) ->
  Inv (mk_system (drop_speed peer id s) (h1 ++ h2)).
Proof.
  intros Hi. destruct (Hi peer) as [H1 H2 H3 H4]. cbn [state held] in *.
  assert (file_permits peer (h1 ++ SpeedPermit peer id :: h2) = file_permits peer (h1 ++ h2)) as Hn.
  { by rewrite !file_permits_app, file_permits_cons. }
  assert (speed_permits peer (h1 ++ SpeedPermit peer id :: h2) =
          speed_permits peer h1 ++ id :: speed_permits peer h2) as Hs.
  { rewrite speed_permits_app. f_equal. unfold speed_permits. cbn. by rewrite bool_decide_true. }
  rewrite Hs in H2, H3, H4. unfold drop_speed.
  destruct (s !! peer) as [[n sp]|] eqn:Es; cbn in *; [|by destruct (speed_permits peer h1)].
  destruct sp as [i|]; [|by destruct (speed_permits peer h1)].
  assert (speed_permits peer h1 = [] /\ speed_permits peer h2 = [] /\ i = id) as (E1 & E2 & ->).
  { destruct (speed_permits peer h1) as [|? [|]]; cbn in H2; try done. by injection H2 as -> ->. }
  rewrite bool_decide_true by done. destruct H3 as [H3|H3]; [|by destruct (speed_permits peer h1)].
  eapply (inv_update _ peer); [exact Hi| | | |].
  - intros q Hne. rewrite prune_other by done. by rewrite lookup_insert_ne.
  - by rewrite prune_self, lookup_insert_eq.
  - intros q Hne. by apply (other_mid peer).
  - rewrite <- Hn, speed_permits_app, E1, E2, H3. cbn. assert (n = 0) as -> by congruence.
    split; cbn; intros; ok_entry.
Qed.

Lemma activity_step_inv x r : Inv x -> step x r -> exists y, r = Ok y /\ Inv y.
Proof.
  intros Hi Hst. destruct Hst as [peer s h p s' E|peer s h e s' E|peer id s h p i s' E|peer id s h e s' E|
    peer s h1 h2 r s' E|peer id s h1 h2].
  - eexists. split; [done|]. by eapply start_file_inv.
  - eexists. split; [done|]. unfold file in E. pose proof (add_file_cases peer s) as Hc.
    destruct (add_file peer s) as [[[]|e'|] s1]; try done. injection E as _ <-. destruct Hc as [-> Hc].
    eapply (refused_inv (mk_system s h) peer); [done| |done]. cbn.
    destruct (s !! peer); [by eexists|]. cbn in Hc. destruct Hc as [[? Hc]|Hc]; [done|].
    by vm_compute in Hc.
  - eexists. split; [done|]. by eapply start_speed_inv.
  - eexists. split; [done|]. unfold start_speed in E. destruct (_ || _) eqn:Eg; [|done]. injection E as _ <-.
    eapply (refused_inv (mk_system s h) peer); [done| |done]. cbn.
    destruct (s !! peer); [by eexists|]. by vm_compute in Eg.
  - destruct (drop_file_inv _ _ _ _ _ _ Hi E) as [-> Hy]. by eexists.
  - eexists. split; [done|]. by apply drop_speed_inv.
Qed.

Lemma activity_reachable_inv x : reachable x -> Inv x.
Proof.
  induction 1 as [|x y _ IH Hst].
  - intros peer. cbn. split; cbn; try done; [by left|by intros []].
  - destruct (activity_step_inv x (Ok y) IH Hst) as (z & [= ->] & Hz). done.
Qed.

(** ** Properties *)

(** File transfers and speed tests exclude each other per peer. In every
    reachable state the recorded counts are exactly those of the permits still
    held, a peer never has file permits and a speed permit at once nor two speed
    permits, a peer without permits has no entry left, and dropping a held permit
    never panics. *)
Theorem activity_exclusive (x : system) : reachable x ->
  Inv x /\ (forall r, step x r -> exists y, r = Ok y) /\
  forall peer, (can_speed (state x) peer = true <->
                file_permits peer (held x) = 0 /\ speed_permits peer (held x) = []).
Proof.
  intros Hr%activity_reachable_inv. split; [done|]. split.
  - intros r Hst. destruct (activity_step_inv x r Hr Hst) as (y & -> & _). by exists y.
  - intros peer. destruct (Hr peer) as [H1 H2 H3 H4]. unfold can_speed.
    destruct (state x !! peer) as [[n sp]|]; cbn in *; rewrite H1, H2; [|naive_solver].
    rewrite andb_true_iff, Z.eqb_eq, bool_decide_eq_true. destruct sp; naive_solver.
Qed.

Lemma activity_exclusive_witness :
  let s := snd (file [1] ∅) in
  reachable (mk_system s [FilePermit [1]]) /\ can_speed s [1] = false.
Proof.
  intros s.
  assert (reachable (mk_system s [FilePermit [1]])) as Hr.
  { eapply Next; [apply Start|]. by apply (StartFile [1] ∅ [] [1] s). }
  split; [exact Hr|]. destruct (activity_exclusive _ Hr) as (_ & _ & H). specialize (H [1]).
  cbn [state held] in H. destruct (can_speed s [1]); [|reflexivity].
  destruct (proj1 H eq_refl) as [H1 _]. vm_compute in H1. discriminate H1.
Defined.

End Activity.
