(* ===== verification/SpaceBudget.v ===== *)
(** * Receive-space admission (src/node/core/space_budget.rs, receive_policy.rs)

    The reservation accounts and the optimistic [reserve_with_probe]: the file
    system is probed without the lock, and the result only counts when no other
    critical section ran in between.  What the other owners of the accounts do
    meanwhile is a list of account operations per round; what the probe answers is
    an argument.  The probes themselves ([fstatvfs], Windows calls) and the
    directory handles are I/O. *)
From Stdlib Require Import ZArith Lia.
From stdpp Require Import prelude gmap strings.
From S2P Require Import Prelude.

#[local] Open Scope Z_scope.

Module SpaceBudget.

Definition DEFAULT_SAFETY_MIB : Z := 64.
Definition MAX_SAFETY_MIB : Z := 4096.
Definition TASK_OVERHEAD : Z := 64 * 1024.
Definition MAX_RESERVATIONS : Z := 64.

Definition default_safety_mib : Z := DEFAULT_SAFETY_MIB.

Definition validate_safety_mib (value : Z) : outcome string unit :=
  if MAX_SAFETY_MIB <? value then Err "safety margin out of range"%string else Ok tt.

Record Filesystem : Type := mk_filesystem { volume : Z; namespace : option (list Z) }.
#[global] Instance Filesystem_eq_dec : EqDecision Filesystem.
Proof. solve_decision. Defined.

Record Probe : Type := mk_probe { filesystem : Filesystem; available : Z }.

Inductive SpaceError : Type :=
  | Insufficient (required available : Z)
  | Unavailable
  | Busy
  | CrossFilesystem
  | ProbeFailed (e : error).

Record Accounts : Type := mk_accounts {
  version : Z;
  nonce : Z;
  reservations : gmap Z (Filesystem * Z);
}.
Definition default_accounts : Accounts := mk_accounts 0 0 ∅.

(** [reservations.values().map(|(_, bytes)| bytes)], on one file system. *)
Definition amounts (fs : Filesystem) (a : Accounts) : list Z :=
  map (fun kv => snd (snd kv))
    (List.filter (fun kv => bool_decide (fst (snd kv) = fs)) (map_to_list (reservations a))).

(** [try_fold(0, checked_add)]. *)
Fixpoint checked_sum (acc : Z) (l : list Z) : option Z :=
  match l with
  | [] => Some acc
  | x :: l' => acc' ← checked_add U64_MAX acc x; checked_sum acc' l'
  end.

(** [Summary]: total reserved (saturating) and number of file systems. *)
Record Summary : Type := mk_summary { reserved : Z; filesystems : Z }.

Definition summary (a : Accounts) : Summary :=
  let l := map snd (map_to_list (reservations a)) in
  mk_summary (fold_left (fun sum r => saturating_add U64_MAX sum (snd r)) l 0)
    (Z.of_nat (length (remove_dups (map fst l)))).

(** [set_safety_mib] returns the new margin. *)
Definition set_safety_mib (value current : Z) : outcome string unit * Z :=
  match validate_safety_mib value with
  | Ok _ => (Ok tt, value)
  | Err e => (Err e, current)
  | Panic => (Panic, current)
  end.

(** ** Account operations *)

(** The commit of a reservation. *)
Definition commit (fs : Filesystem) (bytes : Z) (a : Accounts) : Accounts :=
  let n := wrapping_add U64_MAX (nonce a) 1 in
  mk_accounts (wrapping_add U64_MAX (version a) 1) n (<[n := (fs, bytes)]> (reservations a)).

(** [Reservation::written]. *)
Definition written (n bytes : Z) (a : Accounts) : Accounts :=
  match reservations a !! n with
  | Some (fs, remaining) =>
      mk_accounts (wrapping_add U64_MAX (version a) 1) (nonce a)
        (<[n := (fs, Z.max (saturating_sub remaining bytes) TASK_OVERHEAD)]> (reservations a))
  | None => a
  end.

(** [Lease::drop]. *)
Definition drop_lease (n : Z) (a : Accounts) : Accounts :=
  mk_accounts (wrapping_add U64_MAX (version a) 1) (nonce a) (delete n (reservations a)).

Inductive op : Type :=
  | OReserve (fs : Filesystem) (bytes : Z)
  | OWritten (n bytes : Z)
  | ODrop (n : Z).

Definition apply_op (a : Accounts) (o : op) : Accounts :=
  match o with
  | OReserve fs bytes => commit fs bytes a
  | OWritten n bytes => written n bytes a
  | ODrop n => drop_lease n a
  end.
Definition apply_ops (ops : list op) (a : Accounts) : Accounts := fold_left apply_op ops a.

(** The checks of one round, under the lock. *)
Definition admissible (safety_mib bytes : Z) (space : Probe) (a : Accounts) : outcome SpaceError unit :=
  if MAX_RESERVATIONS <=? Z.of_nat (size (reservations a)) then Err Busy
  else
    match checked_sum 0 (amounts (filesystem space) a) with
    | None => Err Unavailable
    | Some held =>
        match (r ← checked_add U64_MAX held bytes; checked_add U64_MAX r (safety_mib * 1024 * 1024)) with
        | None => Err Unavailable
        | Some required =>
            if available space <? required then Err (Insufficient required (available space)) else Ok tt
        end
    end.

(** One round: what the probe answers and what others do until the lock is
    taken again. *)
Record round : Type := mk_round { probed : outcome error Probe; others : list op }.

(** [reserve_with_probe]; the reservation is its nonce. *)
Fixpoint reserve_loop (attempts : nat) (safety_mib bytes : Z) (rounds : list round) (a : Accounts) :
    outcome SpaceError Z * Accounts :=
  match attempts, rounds with
  | S attempts', r :: rounds' =>
      let v := version a in
      match probed r with
      | Err e => (Err (ProbeFailed e), a)
      | Panic => (Panic, a)
      | Ok space =>
          let a := apply_ops (others r) a in
          if negb (version a =? v) then reserve_loop attempts' safety_mib bytes rounds' a
          else
            match admissible safety_mib bytes space a with
            | Ok _ => let a := commit (filesystem space) bytes a in (Ok (nonce a), a)
            | Err e => (Err e, a)
            | Panic => (Panic, a)
            end
      end
  | _, _ => (Err Busy, a)
  end.

Definition reserve_with_probe (safety_mib bytes : Z) (rounds : list round) (a : Accounts) :
    outcome SpaceError Z * Accounts :=
  reserve_loop 4 safety_mib bytes rounds a.

(** [reserve_file]: [target] is the destination, [staging] and [dest] the probes
    of both directories. *)
Definition reserve_file (target : outcome SpaceError unit) (staging dest : outcome SpaceError Probe)
    (safety_mib remaining : Z) (rounds : list round) (a : Accounts) : outcome SpaceError Z * Accounts :=
  match (let? _ := target in
         let? s := staging in
         let? d := dest in
         if negb (bool_decide (filesystem s = filesystem d)) then Err CrossFilesystem
         else ok_or (checked_add U64_MAX remaining TASK_OVERHEAD) Unavailable) with
  | Ok bytes => reserve_with_probe safety_mib bytes rounds a
  | Err e => (Err e, a)
  | Panic => (Panic, a)
  end.

Definition reserve_directory (target : outcome SpaceError unit) (safety_mib : Z) (rounds : list round)
    (a : Accounts) : outcome SpaceError Z * Accounts :=
  match target with
  | Ok _ => reserve_with_probe safety_mib TASK_OVERHEAD rounds a
  | Err e => (Err e, a)
  | Panic => (Panic, a)
  end.

(** ** Facts *)

Definition total (l : list Z) : Z := fold_right Z.add 0 l.

Lemma checked_sum_Some acc l r : Forall (fun x => 0 <= x) l -> checked_sum acc l = Some r ->
  r = acc + total l.
Proof.
  intros Hl. unfold total. revert acc. induction Hl as [|x l Hx Hl IH]; intros acc; cbn; [intros [= <-]; lia|].
  destruct (checked_add U64_MAX acc x) as [acc'|] eqn:E; cbn; [|done].
  apply checked_add_Some in E as [-> _]. intros ->%IH. lia.
Qed.

Definition nonneg (a : Accounts) : Prop :=
  map_Forall (fun _ r => 0 <= snd r) (reservations a).

Lemma amounts_nonneg fs a : nonneg a -> Forall (fun x => 0 <= x) (amounts fs a).
Proof.
  intros Hn. unfold amounts. apply Forall_forall. intros x Hx.
  apply list_elem_of_In, in_map_iff in Hx as ([k [f b]] & <- & Hin).
  apply filter_In in Hin as [Hin _]. apply list_elem_of_In, elem_of_map_to_list in Hin.
  exact (Hn k (f, b) Hin).
Qed.

Lemma total_perm l1 l2 : l1 ≡ₚ l2 -> total l1 = total l2.
Proof. unfold total. induction 1; cbn in *; lia. Qed.

Lemma amounts_insert fs fs' n b a : reservations a !! n = None ->
  total (amounts fs (mk_accounts (version a) (nonce a) (<[n := (fs', b)]> (reservations a)))) =
  (if bool_decide (fs' = fs) then b else 0) + total (amounts fs a).
Proof.
  intros Hn. unfold amounts. cbn [reservations].
  assert (forall l1 l2 : list (Z * (Filesystem * Z)), l1 ≡ₚ l2 ->
    total (map (fun kv => snd (snd kv)) (List.filter (fun kv => bool_decide (fst (snd kv) = fs)) l1)) =
    total (map (fun kv => snd (snd kv)) (List.filter (fun kv => bool_decide (fst (snd kv) = fs)) l2))) as Hp.
  { unfold total. induction 1; cbn in *; repeat case_bool_decide; cbn in *; lia. }
  rewrite (Hp _ _ (map_to_list_insert _ _ _ Hn)). unfold total. cbn. case_bool_decide; cbn; lia.
Qed.

(** A critical section leaves the accounts alone or raises the version. *)
Lemma apply_op_version a o :
  apply_op a o = a \/ version (apply_op a o) = wrapping_add U64_MAX (version a) 1.
Proof.
  destruct o as [fs b|n b|n]; cbn; [by right| |by right]. unfold written.
  destruct (reservations a !! n) as [[fs r]|]; [by right|by left].
Qed.

Lemma apply_ops_version ops a : is_u64 (version a) ->
  exists k, 0 <= k <= Z.of_nat (length ops) /\
    version (apply_ops ops a) = (version a + k) mod (U64_MAX + 1) /\ (k = 0 -> apply_ops ops a = a).
Proof.
  unfold apply_ops, in_range. revert a. induction ops as [|o ops IH]; intros a Ha.
  { exists 0. cbn. split; [lia|]. split; [|done]. rewrite Z.add_0_r, Z.mod_small; unfold U64_MAX in *; lia. }
  cbn [fold_left length].
  destruct (apply_op_version a o) as [E|E].
  - rewrite E. destruct (IH a Ha) as (k & H1 & H2 & H3). exists k. split; [lia|done].
  - assert (0 <= version (apply_op a o) <= U64_MAX) as Hb.
    { rewrite E. unfold wrapping_add. pose proof (Z.mod_pos_bound (version a + 1) (U64_MAX + 1)).
      unfold U64_MAX in *. lia. }
    destruct (IH _ Hb) as (k & H1 & H2 & H3). exists (k + 1). split; [lia|]. split; [|lia].
    rewrite H2, E. unfold wrapping_add. rewrite Zplus_mod_idemp_l. f_equal. lia.
Qed.

(** The version check works as long as fewer than 2^64 critical sections fit
    into one probe. *)
Lemma version_unchanged ops a : is_u64 (version a) -> Z.of_nat (length ops) <= U64_MAX ->
  version (apply_ops ops a) = version a -> apply_ops ops a = a.
Proof.
  intros Ha Hl E. destruct (apply_ops_version ops a Ha) as (k & H1 & H2 & H3). apply H3.
  rewrite H2 in E. unfold in_range in Ha.
  destruct (Z.lt_ge_cases (version a + k) (U64_MAX + 1)).
  - rewrite Z.mod_small in E by lia. lia.
  - assert ((version a + k) mod (U64_MAX + 1) = version a + k - (U64_MAX + 1)) as Em.
    { symmetry. apply (Z.mod_unique _ _ 1); lia. }
    lia.
Qed.

Definition fresh_nonce (a : Accounts) : Prop :=
  reservations a !! wrapping_add U64_MAX (nonce a) 1 = None.

Lemma commit_total fs fs' bytes a : fresh_nonce a ->
  total (amounts fs (commit fs' bytes a)) =
  (if bool_decide (fs' = fs) then bytes else 0) + total (amounts fs a).
Proof. intros Hf. by rewrite <- (amounts_insert fs fs' _ bytes a Hf). Qed.

Lemma admissible_spec safety bytes space a : nonneg a -> 0 <= bytes -> 0 <= safety ->
  match admissible safety bytes space a with
  | Ok _ => Z.of_nat (size (reservations a)) < MAX_RESERVATIONS /\
      total (amounts (filesystem space) a) + bytes + safety * 1024 * 1024 <= available space
  | Err _ => True
  | Panic => False
  end.
Proof.
  intros Hn Hb Hs. unfold admissible.
  destruct (Z.leb_spec MAX_RESERVATIONS (Z.of_nat (size (reservations a)))); [done|].
  destruct (checked_sum 0 _) as [held|] eqn:E; [|done].
  apply checked_sum_Some in E as ->; [|by apply amounts_nonneg].
  destruct (checked_add U64_MAX (0 + _) bytes) as [r|] eqn:E1; cbn; [|done].
  destruct (checked_add U64_MAX r _) as [required|] eqn:E2; [|done].
  apply checked_add_Some in E1 as [-> _], E2 as [-> _].
  destruct (Z.ltb_spec (available space) (0 + total (amounts (filesystem space) a) + bytes + safety * 1024 * 1024));
    [done|]. split; lia.
Qed.

(** The state between probe and commit. *)
Definition round_ok (r : round) : Prop :=
  Z.of_nat (length (others r)) <= U64_MAX /\ probed r <> Panic.

(** What other threads do keeps amounts nonnegative and versions in range. *)
Definition sane (a : Accounts) : Prop := nonneg a /\ is_u64 (version a).

Lemma wrapping_u64 x : is_u64 (wrapping_add U64_MAX x 1).
Proof.
  unfold wrapping_add, in_range. pose proof (Z.mod_pos_bound (x + 1) (U64_MAX + 1)).
  unfold U64_MAX in *. lia.
Qed.

Definition op_ok (o : op) : Prop :=
  match o with
  | OReserve _ b => 0 <= b
  | _ => True
  end.

Lemma apply_op_sane a o : sane a -> op_ok o -> sane (apply_op a o).
Proof.
  intros [Hn Hv] Ho. unfold sane, nonneg in *. destruct o as [fs b|n b|n]; cbn in *.
  - split; [by apply map_Forall_insert_2|apply wrapping_u64].
  - unfold written. destruct (reservations a !! n) as [[fs r]|]; [|done].
    split; [|apply wrapping_u64]. apply map_Forall_insert_2; [cbn; unfold TASK_OVERHEAD; lia|done].
  - split; [by apply map_Forall_delete|apply wrapping_u64].
Qed.

Lemma apply_ops_sane ops a : sane a -> Forall op_ok ops -> sane (apply_ops ops a).
Proof.
  intros Ha Ho. revert a Ha. unfold apply_ops. induction Ho as [|o ops Ho _ IH]; intros a Ha; [done|].
  cbn. apply IH. by apply apply_op_sane.
Qed.

Lemma reserve_loop_spec attempts safety bytes rounds a :
  sane a -> 0 <= bytes -> 0 <= safety ->
  Forall (fun r => round_ok r /\ Forall op_ok (others r)) rounds ->
  match reserve_loop attempts safety bytes rounds a with
  | (Ok n, a') => exists r space b, r ∈ rounds /\ probed r = Ok space /\ sane b /\
      apply_ops (others r) b = b /\
      Z.of_nat (size (reservations b)) < MAX_RESERVATIONS /\
      total (amounts (filesystem space) b) + bytes + safety * 1024 * 1024 <= available space /\
      a' = commit (filesystem space) bytes b /\ n = nonce a'
  | (Err _, a') => exists used, sublist used rounds /\ a' = apply_ops (concat (map others used)) a
  | (Panic, _) => False
  end.
Proof.
  intros Ha Hb Hs Hr. revert rounds a Ha Hr.
  induction attempts as [|attempts IH]; intros rounds a Ha Hr; cbn.
  { exists []. split; [apply sublist_nil_l|done]. }
  destruct rounds as [|r rounds]; [by exists []|]. apply Forall_cons in Hr as [[[Hl Hp] Ho] Hr].
  destruct (probed r) as [space|e|] eqn:Ep; [| |done].
  2: { exists []. split; [apply sublist_nil_l|done]. }
  pose proof (apply_ops_sane (others r) a Ha Ho) as Ha'.
  destruct (Z.eqb_spec (version (apply_ops (others r) a)) (version a)) as [Ev|Ev]; cbn [negb].
  - pose proof (version_unchanged (others r) a (proj2 Ha) Hl Ev) as Eq. rewrite Eq.
    pose proof (admissible_spec safety bytes space a (proj1 Ha) Hb Hs) as Hadm.
    destruct (admissible safety bytes space a) as [[]|e|]; [| |done].
    + destruct Hadm as [H1 H2]. exists r, space, a. split_and!; try done. by left.
    + exists []. split; [apply sublist_nil_l|done].
  - specialize (IH rounds (apply_ops (others r) a) Ha' Hr).
    destruct (reserve_loop attempts safety bytes rounds _) as [[n|e|] a'].
    + destruct IH as (r' & space' & b & Hin & H). exists r', space', b. split; [by right|done].
    + destruct IH as (used & Hu & ->). exists (r :: used). split; [by constructor|].
      cbn. unfold apply_ops. by rewrite fold_left_app.
    + done.
Qed.

(** ** Properties *)

(** Receive space is never over-committed on a stale probe. When a
    reservation succeeds, no other critical section ran between the probe it was
    checked against and its own commit, and then what was already reserved on
    that file system, the new bytes and the safety margin together fit into the
    probed free space; the accounts grow by exactly this reservation. A failure
    leaves the accounts to the others. Under any interference of fewer than 2^64
    critical sections per probe. *)
Theorem reservation_backed_by_probe (safety_mib bytes : Z) (rounds : list round) (a : Accounts) :
  sane a -> 0 <= bytes -> 0 <= safety_mib ->
  Forall (fun r => round_ok r /\ Forall op_ok (others r)) rounds ->
  match reserve_with_probe safety_mib bytes rounds a with
  | (Ok n, a') => exists r space b, r ∈ rounds /\ probed r = Ok space /\ apply_ops (others r) b = b /\
      total (amounts (filesystem space) b) + bytes + safety_mib * 1024 * 1024 <= available space /\
      reservations a' = <[n := (filesystem space, bytes)]> (reservations b) /\
      (fresh_nonce b -> forall fs, total (amounts fs a') =
         (if bool_decide (filesystem space = fs) then bytes else 0) + total (amounts fs b))
  | (Err _, a') => exists used, sublist used rounds /\ a' = apply_ops (concat (map others used)) a
  | (Panic, _) => False
  end.
Proof.
  intros Ha Hb Hs Hr. unfold reserve_with_probe.
  pose proof (reserve_loop_spec 4 safety_mib bytes rounds a Ha Hb Hs Hr) as H.
  destruct (reserve_loop _ _ _ _ _) as [[n|e|] a']; [|done|done].
  destruct H as (r & space & b & H1 & H2 & _ & H3 & _ & H4 & -> & ->). exists r, space, b.
  split_and!; try done. intros Hf fs. by apply commit_total.
Qed.

Lemma reservation_backed_by_probe_witness :
  let fs := mk_filesystem 1 None in
  let p := mk_round (Ok (mk_probe fs (65 * 1024 * 1024))) in
  let rounds := [p [OReserve fs 5; ODrop 1]; p []] in
  exists a', reserve_with_probe 64 1000 rounds default_accounts = (Ok 2, a') /\
    reservations a' !! 2 = Some (fs, 1000).
Proof.
  intros fs p rounds.
  assert (sane default_accounts) as Hs.
  { split; [apply map_Forall_empty|]. unfold in_range, U64_MAX. cbn. lia. }
  assert (Forall (fun r => round_ok r /\ Forall op_ok (others r)) rounds) as Hr.
  { repeat constructor; unfold U64_MAX; cbn; try lia; discriminate. }
  pose proof (reservation_backed_by_probe 64 1000 rounds default_accounts Hs ltac:(lia) ltac:(lia) Hr) as H.
  assert (exists a', reserve_with_probe 64 1000 rounds default_accounts = (Ok 2, a')) as [a' E].
  { eexists. vm_compute. reflexivity. }
  rewrite E in H. exists a'. split; [exact E|].
  destruct H as (r & space & b & Hin & Hp & _ & _ & Hres & _). rewrite Hres, lookup_insert_eq.
  assert (space = mk_probe fs (65 * 1024 * 1024)) as ->; [|reflexivity].
  apply list_elem_of_In in Hin. destruct Hin as [<-|[<-|[]]]; cbn in Hp; congruence.
Defined.

End SpaceBudget.
