(* ===== verification/TaskProtocol.v ===== *)
(** * Task frames of a session (src/node/core/protocol.rs)

    The messages of file tasks and speed tests with their validation and framing,
    the [TaskProtocol] state machine that every incoming and outgoing frame is
    checked against, and the [SpeedArbiter] that hands out the one speed-test
    lease of a pair of peers.  Task ids are their texts. *)
From Stdlib Require Import ZArith Lia.
From stdpp Require Import prelude gmap strings.
From S2P Require Import Prelude Io Manifest Postcard Message Frame RelativePath.

#[local] Open Scope Z_scope.

Module TaskProtocol.

Definition MAX_FRAME_BYTES : Z := 4 * 1024 * 1024.
Definition MAX_CHUNKS : Z := 65536.
Definition MAX_TASKS_PER_PEER : Z := 128.
Definition MAGIC : list Z := lit "P2PF" ++ [1].

Abbreviation TaskId := (list Z).

Definition invalid (message : string) : error := Protocol message.

(** ** Entries *)

Inductive Entry : Type :=
  | File (manifest : Manifest.FileManifest)
  | Directory.

#[global] Instance Entry_eq_dec : EqDecision Entry.
Proof. solve_decision. Defined.

(** [rsplit('/').next()]. *)
Definition last_component (path : list Z) : list Z :=
  List.last (split RelativePath.is_slash path) [].

Section Entries.
Context `{Blake3}.

Definition validate_entry (e : Entry) (relative_path : list Z) : result unit :=
  let? _ := RelativePath.validate_relative_path relative_path in
  match e with
  | File manifest =>
      let? _ := Manifest.validate manifest in
      fail_if ((MAX_CHUNKS <? Z.of_nat (length (Manifest.chunks manifest))) ||
               (Z.shiftl 1 40 <? Manifest.total_len manifest) ||
               negb (bool_decide (Manifest.file_name manifest = last_component relative_path)))
        (invalid "manifest over the limits or named differently from the path")
  | Directory => Ok tt
  end.

Definition identity (e : Entry) (path : list Z) : list Z * Z :=
  match e with
  | File manifest => (Manifest.root_hash manifest, Z.of_nat (length (Manifest.chunks manifest)))
  | Directory => (Manifest.hash_of (utf8 path), 0)
  end.

End Entries.

(** ** Messages *)

Inductive ErrorCode : Type :=
  | UnsupportedVersion | UnsupportedCapability | UnknownTask | WrongPeer | InvalidState
  | InvalidPath | InvalidManifest | Busy | SourceChanged | SourceMissing | StorageCode
  | InterruptedCode.

Inductive SpeedDirection : Type := Upload | Download.

Record SpeedLease : Type := mk_lease {
  test_id : TaskId;
  owner : NodeId;
  direction : SpeedDirection;
  seconds : Z;
  stream_token : list Z;
}.

Inductive SpeedControl : Type :=
  | SpeedRequest (id : TaskId) (direction : SpeedDirection) (secs : Z)
  | Granted (lease : SpeedLease)
  | SpeedBusy (id : TaskId)
  | Cancel (lease : SpeedLease)
  | Finished (lease : SpeedLease)
  | SpeedReady (lease : SpeedLease)
  | SpeedResult (lease : SpeedLease) (bytes elapsed_ms : Z).

Inductive Difference : Type := Added | Changed | Unchanged.

Inductive Message : Type :=
  | Offer (task_id : TaskId) (group_id : option TaskId) (relative_path : list Z) (entry : Entry)
  | Resume (task_id : TaskId) (root_hash have : list Z)
  | Pause (task_id : TaskId)
  | Paused (task_id : TaskId) (pause_request_id : Z)
  | ResumeTask (task_id : TaskId)
  | Completed (task_id : TaskId) (root_hash : list Z) (receipt_version : Z)
  | Error (task_id : TaskId) (code : ErrorCode)
  | Speed (control : SpeedControl)
  | RequestChunk (task_id : TaskId) (index : Z)
  | Chunk (task_id : TaskId) (index : Z) (data : list Z)
  | ChunkAck (task_id : TaskId) (index : Z)
  | FlowWait (task_id : TaskId)
  | AutomaticOffer (task_id : TaskId) (group_id : option TaskId) (relative_path : list Z)
      (entry : Entry)
  | AutomaticResumeTask (task_id : TaskId)
  | CompareFile (task_id : TaskId) (relative_path : list Z) (manifest : Manifest.FileManifest)
  | ComparedFile (task_id : TaskId) (root_hash : list Z) (difference : Difference)
  | IncrementalOffer (task_id group_id : TaskId) (relative_path : list Z) (entry : Entry)
      (is_automatic : bool).

#[global] Instance ErrorCode_eq_dec : EqDecision ErrorCode.
Proof. solve_decision. Defined.
#[global] Instance SpeedDirection_eq_dec : EqDecision SpeedDirection.
Proof. solve_decision. Defined.
#[global] Instance SpeedLease_eq_dec : EqDecision SpeedLease.
Proof. solve_decision. Defined.
#[global] Instance SpeedControl_eq_dec : EqDecision SpeedControl.
Proof. solve_decision. Defined.
#[global] Instance Difference_eq_dec : EqDecision Difference.
Proof. solve_decision. Defined.
#[global] Instance Message_eq_dec : EqDecision Message.
Proof. solve_decision. Defined.

Definition automatic (m : Message) : Message :=
  match m with
  | Offer task_id group_id relative_path entry =>
      AutomaticOffer task_id group_id relative_path entry
  | ResumeTask task_id => AutomaticResumeTask task_id
  | other => other
  end.

Definition manual (m : Message) : option Message :=
  match m with
  | AutomaticOffer task_id group_id relative_path entry =>
      Some (Offer task_id group_id relative_path entry)
  | AutomaticResumeTask task_id => Some (ResumeTask task_id)
  | _ => None
  end.

Definition speed_test_id (c : SpeedControl) : TaskId :=
  match c with
  | SpeedRequest id _ _ | SpeedBusy id => id
  | Granted lease | Cancel lease | Finished lease | SpeedReady lease | SpeedResult lease _ _ =>
      test_id lease
  end.

Definition message_task_id (m : Message) : option TaskId :=
  match m with
  | Speed control => Some (speed_test_id control)
  | CompareFile task_id _ _ | ComparedFile task_id _ _ | IncrementalOffer task_id _ _ _ _
  | AutomaticOffer task_id _ _ _ | AutomaticResumeTask task_id | Offer task_id _ _ _
  | Resume task_id _ _ | Pause task_id | Paused task_id _ | ResumeTask task_id
  | Completed task_id _ _ | Error task_id _ | RequestChunk task_id _ | Chunk task_id _ _
  | ChunkAck task_id _ | FlowWait task_id => Some task_id
  end.

Definition validate_speed_seconds (seconds : Z) : result unit :=
  fail_if (negb (seconds =? 30) &&
           (negb ((60 <=? seconds) && (seconds <=? 600)) || negb (seconds mod 60 =? 0)))
    (invalid "speed test duration").

Definition validate_speed (c : SpeedControl) : result unit :=
  match c with
  | SpeedRequest _ _ secs => validate_speed_seconds secs
  | Granted lease | Cancel lease | Finished lease | SpeedReady lease | SpeedResult lease _ _ =>
      validate_speed_seconds (seconds lease)
  | SpeedBusy _ => Ok tt
  end.

Section Frames.
Context `{Blake3}.

Definition validate_message (m : Message) : result unit :=
  match m with
  | Offer _ _ relative_path entry | AutomaticOffer _ _ relative_path entry =>
      validate_entry entry relative_path
  | IncrementalOffer _ _ relative_path entry _ =>
      match entry with
      | File _ => validate_entry entry relative_path
      | Directory => Err (invalid "incremental request for a directory")
      end
  | CompareFile _ relative_path manifest => validate_entry (File manifest) relative_path
  | Speed control => validate_speed control
  | Chunk _ _ data =>
      fail_if (1024 * 1024 <? Z.of_nat (length data)) (invalid "chunk over the limit")
  | Resume _ _ have =>
      fail_if (div_ceil MAX_CHUNKS 8 <? Z.of_nat (length have)) (invalid "bitmap over the limit")
  | Completed _ _ receipt_version =>
      fail_if (negb ((receipt_version =? 1) || (receipt_version =? 2)))
        (invalid "unsupported receipt version")
  | _ => Ok tt
  end.

Record Frame : Type := mk_frame { request_id : Z; message : Message }.

#[global] Instance Frame_eq_dec : EqDecision Frame.
Proof. solve_decision. Defined.

Definition validate_frame (f : Frame) : result unit :=
  let? _ := fail_if
    ((bool_decide (is_Some (message_task_id (message f))) && (request_id f =? 0)) ||
     (bool_decide (message_task_id (message f) = None) && negb (request_id f =? 0)))
    (invalid "request number") in
  validate_message (message f).

Section Wire.
Context `{Postcard Frame}.

Definition encode (f : Frame) : result (list Z) :=
  let? _ := validate_frame f in
  let? payload := to_allocvec f in
  let bytes := MAGIC ++ payload in
  let? _ := fail_if (MAX_FRAME_BYTES <? Z.of_nat (length bytes)) (invalid "frame over the limit") in
  Ok bytes.

Definition decode (bytes : list Z) : result Frame :=
  let? _ := fail_if (MAX_FRAME_BYTES <? Z.of_nat (length bytes)) (invalid "frame over the limit") in
  let? payload := ok_or (RelativePath.strip_prefix bytes MAGIC)
                    (invalid "peer does not speak the file protocol") in
  let? (frame, trailing) := take_from_bytes payload in
  let? _ := fail_if (negb (bool_decide (trailing = []))) (invalid "trailing bytes") in
  let? _ := validate_frame frame in
  Ok frame.

Definition read (r : reader) : result Frame * reader :=
  let (raw, r) := Frame.read_raw_frame_limited r MAX_FRAME_BYTES in
  (let? o := raw in
   let? bytes := ok_or o (invalid "stream closed") in
   decode bytes, r).

Definition write (w : writer) (f : Frame) : result writer :=
  let? bytes := encode f in
  Frame.write_raw_frame_limited w bytes MAX_FRAME_BYTES.

End Wire.
End Frames.

(** ** The protocol state machine *)

Inductive Actor : Type := Local | Remote.

#[global] Instance Actor_eq_dec : EqDecision Actor.
Proof. solve_decision. Defined.

Definition opposite (a : Actor) : Actor :=
  match a with Local => Remote | Remote => Local end.

(** An array [[T; 2]] indexed by [Actor::index]. *)
Abbreviation array2 A := (A * A)%type.
Definition index {A} (xs : array2 A) (a : Actor) : A :=
  match a with Local => xs.1 | Remote => xs.2 end.
Definition set_index {A} (a : Actor) (x : A) (xs : array2 A) : array2 A :=
  match a with Local => (x, xs.2) | Remote => (xs.1, x) end.

Inductive WireTaskState : Type :=
  | Offered | Transferring | Pausing | PausedState | Interrupted | ResumeRequested
  | CompletedState | Failed.

#[global] Instance WireTaskState_eq_dec : EqDecision WireTaskState.
Proof. solve_decision. Defined.

Record Binding : Type := mk_binding {
  incremental : bool;
  sender : Actor;
  root : list Z;
  chunks : Z;
  state : WireTaskState;
  sequence : array2 Z;
  pauses : array2 (option Z);
}.

#[global] Instance Binding_eq_dec : EqDecision Binding.
Proof. solve_decision. Defined.

(** The assignments to fields of the cloned binding. *)
Definition with_state (s : WireTaskState) (b : Binding) : Binding :=
  mk_binding (incremental b) (sender b) (root b) (chunks b) s (sequence b) (pauses b).
Definition with_pauses (p : array2 (option Z)) (b : Binding) : Binding :=
  mk_binding (incremental b) (sender b) (root b) (chunks b) (state b) (sequence b) p.
Definition with_sequence (s : array2 Z) (b : Binding) : Binding :=
  mk_binding (incremental b) (sender b) (root b) (chunks b) (state b) s (pauses b).

Record TaskProtocol : Type := mk_protocol {
  peer : NodeId;
  tasks : gmap TaskId Binding;
}.

Definition new (authenticated_peer : NodeId) : TaskProtocol := mk_protocol authenticated_peer ∅.

Definition state_of (p : TaskProtocol) (task : TaskId) : option WireTaskState :=
  state <$> tasks p !! task.

Definition next_request_id (p : TaskProtocol) (task : TaskId) (actor : Actor) : result Z :=
  ok_or (match tasks p !! task with
         | None => Some 1
         | Some binding => checked_add U64_MAX (index (sequence binding) actor) 1
         end)
    (invalid "request numbers exhausted").

Definition restore (task : TaskId) (sender : Actor) (root : list Z) (chunks : Z) (paused : bool)
    (p : TaskProtocol) : result unit * TaskProtocol :=
  if (MAX_TASKS_PER_PEER <=? Z.of_nat (size (tasks p))) ||
     bool_decide (is_Some (tasks p !! task)) || (MAX_CHUNKS <? chunks)
  then (Err (invalid "restored task conflicts or is over the limit"), p)
  else
    (Ok tt,
     mk_protocol (peer p)
       (<[task := mk_binding false sender root chunks
                    (if paused then PausedState else Interrupted) (0, 0) (None, None)]> (tasks p))).

Definition is_moving (s : WireTaskState) : bool :=
  match s with Transferring | Pausing => true | _ => false end.

(** The [match] of [observe] on the cloned binding. *)
Definition advance (actor : Actor) (f : Frame) (b : Binding) : result Binding :=
  match message f with
  | RequestChunk _ i | ChunkAck _ i =>
      let? _ := fail_if (bool_decide (actor = sender b) || (chunks b <=? i) ||
                         negb (is_moving (state b)))
                  (invalid "chunk request direction, index or state") in
      Ok b
  | Chunk _ i _ =>
      let? _ := fail_if (negb (bool_decide (actor = sender b)) || (chunks b <=? i) ||
                         negb (is_moving (state b)))
                  (invalid "chunk direction, index or state") in
      Ok b
  | Resume _ root_hash have =>
      let? _ := fail_if
        (bool_decide (actor = sender b) || negb (bool_decide (root_hash = root b)) ||
         negb (match state b with
               | Offered | ResumeRequested | Interrupted => true
               | _ => false
               end) ||
         negb (Z.of_nat (length have) =? div_ceil (chunks b) 8) ||
         (negb (chunks b mod 8 =? 0) &&
          match last have with
          | Some l => negb (Z.shiftr l (chunks b mod 8) =? 0)
          | None => false
          end))
        (invalid "bitmap, manifest identity or task state") in
      Ok (with_state Transferring b)
  | FlowWait _ =>
      let? _ := fail_if (bool_decide (actor = sender b) ||
                         negb (is_moving (state b)) &&
                         negb (incremental b && bool_decide (state b = Offered)))
                  (invalid "keepalive state") in
      Ok b
  | Pause _ =>
      let? _ := fail_if (negb (is_moving (state b)) ||
                         bool_decide (is_Some (index (pauses b) actor)))
                  (invalid "pause request state") in
      Ok (with_state Pausing (with_pauses (set_index actor (Some (request_id f)) (pauses b)) b))
  | Paused _ pause_request_id =>
      let? _ := fail_if
        (negb (bool_decide (state b = Pausing)) ||
         negb (bool_decide (index (pauses b) (opposite actor) = Some pause_request_id)))
        (invalid "pause confirmation of no request") in
      let b := with_pauses (set_index (opposite actor) None (pauses b)) b in
      Ok (if bool_decide (pauses b = (None, None)) then with_state PausedState b else b)
  | ResumeTask _ =>
      let? _ := fail_if (negb (match state b with PausedState | Interrupted => true | _ => false end))
                  (invalid "only a paused or interrupted task can continue") in
      Ok (with_state ResumeRequested b)
  | Completed _ root_hash receipt_version =>
      let? _ := fail_if
        ((receipt_version =? 2) && negb (incremental b) || bool_decide (actor = sender b) ||
         negb (bool_decide (root b = root_hash)) ||
         negb (match state b with Offered | Transferring | Pausing => true | _ => false end))
        (invalid "receipt identity, direction or task state") in
      Ok (with_pauses (None, None) (with_state CompletedState b))
  | Error _ _ =>
      let? _ := fail_if (match state b with CompletedState | Failed => true | _ => false end)
                  (invalid "a terminal task cannot fail") in
      Ok (with_state Failed b)
  | _ => Err (invalid "message order")
  end.

Section Observe.
Context `{Blake3}.

(** An incremental offer is checked as an offer in its group. *)
Definition normalize (f : Frame) : Frame :=
  match message f with
  | IncrementalOffer task_id group_id relative_path entry _ =>
      mk_frame (request_id f) (Offer task_id (Some group_id) relative_path entry)
  | _ => f
  end.

Definition is_incremental (m : Message) : bool :=
  match m with IncrementalOffer _ _ _ _ _ => true | _ => false end.

(** [observe] on a message that is not automatic. *)
Definition observe_manual (authenticated_peer : NodeId) (actor : Actor) (f : Frame)
    (p : TaskProtocol) : result unit * TaskProtocol :=
  if negb (bool_decide (authenticated_peer = peer p)) then (Err (invalid "wrong peer"), p)
  else
    match validate_frame f with
    | Err e => (Err e, p)
    | Panic => (Panic, p)
    | Ok _ =>
        let incremental := is_incremental (message f) in
        let f := normalize f in
        match message_task_id (message f) with
        | None => (Err (invalid "no task"), p)
        | Some task =>
            match message f with
            | Offer _ _ relative_path entry =>
                if bool_decide (is_Some (tasks p !! task)) ||
                   (MAX_TASKS_PER_PEER <=? Z.of_nat (size (tasks p))) ||
                   negb (request_id f =? 1)
                then (Err (invalid "repeated, unordered or excess offer"), p)
                else
                  let (root, chunks) := identity entry relative_path in
                  (Ok tt,
                   mk_protocol (peer p)
                     (<[task := mk_binding incremental actor root chunks Offered
                                  (set_index actor 1 (0, 0)) (None, None)]> (tasks p)))
            | _ =>
                match tasks p !! task with
                | None => (Err (invalid "unknown task"), p)
                | Some b =>
                    if negb (bool_decide (checked_add U64_MAX (index (sequence b) actor) 1 =
                                          Some (request_id f)))
                    then (Err (invalid "repeated or unordered request"), p)
                    else
                      match advance actor f b with
                      | Err e => (Err e, p)
                      | Panic => (Panic, p)
                      | Ok b' =>
                          (Ok tt,
                           mk_protocol (peer p)
                             (<[task := with_sequence (set_index actor (request_id f) (sequence b')) b']>
                                (tasks p)))
                      end
                end
            end
        end
    end.

(** The recursive call is on a message [manual] leaves alone ([manual_once]). *)
Definition observe (authenticated_peer : NodeId) (actor : Actor) (f : Frame)
    (p : TaskProtocol) : result unit * TaskProtocol :=
  match manual (message f) with
  | Some m => observe_manual authenticated_peer actor (mk_frame (request_id f) m) p
  | None => observe_manual authenticated_peer actor f p
  end.

End Observe.

(** ** The speed-test arbiter *)

Record SpeedArbiter : Type := mk_arbiter {
  local : NodeId;
  a_peer : NodeId;
  active : option SpeedLease;
  stream_claimed : bool;
}.

Definition new_arbiter (local peer : NodeId) : SpeedArbiter := mk_arbiter local peer None false.

(** [stream_token] is the value of [rand::random()]. *)
Definition request (requester : NodeId) (test_id : TaskId) (direction : SpeedDirection)
    (seconds active_files : Z) (stream_token : list Z) (a : SpeedArbiter) :
    result SpeedLease * SpeedArbiter :=
  if Message.bytes_le (a_peer a) (local a) then (Err (invalid "not the coordinator"), a)
  else if negb (bool_decide (requester = local a)) && negb (bool_decide (requester = a_peer a))
  then (Err (invalid "wrong requester"), a)
  else
    match validate_speed_seconds seconds with
    | Err e => (Err e, a)
    | Panic => (Panic, a)
    | Ok _ =>
        if negb (active_files =? 0) || bool_decide (is_Some (active a))
        then (Err (invalid "busy"), a)
        else
          let lease := mk_lease test_id requester direction seconds stream_token in
          (Ok lease, mk_arbiter (local a) (a_peer a) (Some lease) false)
    end.

Definition accept_grant (authenticated_grantor : NodeId) (lease : SpeedLease) (active_files : Z)
    (a : SpeedArbiter) : result unit * SpeedArbiter :=
  if Message.bytes_le (local a) (a_peer a) ||
     negb (bool_decide (authenticated_grantor = a_peer a)) ||
     (negb (bool_decide (owner lease = local a)) && negb (bool_decide (owner lease = a_peer a))) ||
     bool_decide (is_Some (active a)) || negb (active_files =? 0)
  then (Err (invalid "grant source, owner or state"), a)
  else
    match validate_speed_seconds (seconds lease) with
    | Err e => (Err e, a)
    | Panic => (Panic, a)
    | Ok _ => (Ok tt, mk_arbiter (local a) (a_peer a) (Some lease) false)
    end.

Definition stream_source (a : SpeedArbiter) (lease : SpeedLease) : NodeId :=
  match direction lease with
  | Upload => owner lease
  | Download => if bool_decide (owner lease = local a) then a_peer a else local a
  end.

Definition claim_stream (authenticated_sender : NodeId) (lease : SpeedLease) (a : SpeedArbiter) :
    result unit * SpeedArbiter :=
  if negb (bool_decide (active a = Some lease)) || stream_claimed a ||
     negb (bool_decide (authenticated_sender = stream_source a lease))
  then (Err (invalid "stream owner or token"), a)
  else (Ok tt, mk_arbiter (local a) (a_peer a) (active a) true).

Definition finish (authenticated_actor : NodeId) (lease : SpeedLease) (a : SpeedArbiter) :
    result unit * SpeedArbiter :=
  if (negb (bool_decide (authenticated_actor = local a)) &&
      negb (bool_decide (authenticated_actor = a_peer a))) ||
     negb (bool_decide (active a = Some lease))
  then (Err (invalid "wrong speed test"), a)
  else (Ok tt, mk_arbiter (local a) (a_peer a) None false).

Definition can_start_file (a : SpeedArbiter) : bool := bool_decide (active a = None).

End TaskProtocol.
