(* ===== verification/TaskSession.v ===== *)
(** * Task frames: whole sessions

    Sessions in which both sides follow the protocol, the agreement of the two
    ends of a connection, the wire form of frames, and the speed-test arbiter. *)
From Stdlib Require Import ZArith Lia.
From stdpp Require Import countable prelude gmap strings.
From S2P Require Import Prelude Io Bitmap Manifest Postcard Message Frame RelativePath TaskProtocol TaskProtocolProof.

#[local] Open Scope Z_scope.

Module TaskSession.
Import TaskProtocol TaskProtocolProof.

(** ** Sessions without misbehaviour *)

(** What a side does: it says [m] under its next request number, or confirms the
    pause the other side asked for. *)
Inductive act : Type :=
  | Say (a : Actor) (m : Message)
  | Confirm (a : Actor).

(** What the two sides agreed on when the task began. *)
Record terms : Type := mk_terms {
  t_incremental : bool;
  t_sender : Actor;
  t_root : list Z;
  t_chunks : Z;
}.

(** Where a task is, for someone who knows neither request numbers nor pause numbers;
    [Halting] tells which sides asked for a pause that is not confirmed. *)
Inductive phase : Type :=
  | Awaiting | Running | Halting (asked : array2 bool) | Stopped | Broken | Continuing | Delivered | GaveUp.

Definition over (ph : phase) : Prop := ph = Delivered \/ ph = GaveUp.
Definition in_progress (ph : phase) : Prop := ph = Running \/ exists asked, ph = Halting asked.

Definition wire_state (ph : phase) : WireTaskState :=
  match ph with
  | Awaiting => Offered
  | Running => Transferring
  | Halting _ => Pausing
  | Stopped => PausedState
  | Broken => Interrupted
  | Continuing => ResumeRequested
  | Delivered => CompletedState
  | GaveUp => Failed
  end.

Definition bitmap_ok (n : Z) (bm : ChunkBitmap.t) : Prop := ChunkBitmap.wf bm /\ ChunkBitmap.chunk_count bm = n.

Section Sessions.
Context `{Blake3}.
Context (task : TaskId).

Definition say (a : Actor) (m : Message) (p : TaskProtocol) : result TaskProtocol :=
  let? n := next_request_id p task a in
  match observe (peer p) a (mk_frame n m) p with
  | (Ok _, p') => Ok p'
  | (Err e, _) => Err e
  | (Panic, _) => Panic
  end.

Definition perform1 (p : TaskProtocol) (x : act) : result TaskProtocol :=
  match x with
  | Say a m => say a m p
  | Confirm a =>
      let? n := ok_or (b ← tasks p !! task; index (pauses b) (opposite a)) (invalid "no pause") in
      say a (Paused task n) p
  end.

Definition perform (p : TaskProtocol) (l : list act) : result TaskProtocol :=
  fold_outcome perform1 p l.

(** *** The rules of a session *)

(** The data of a transfer in progress. *)
Definition carries (t : terms) (a : Actor) (m : Message) : Prop :=
  match m with
  | RequestChunk i k | ChunkAck i k => i = task /\ a <> t_sender t /\ k < t_chunks t
  | Chunk i k data => i = task /\ a = t_sender t /\ k < t_chunks t /\ Z.of_nat (length data) <= 1024 * 1024
  | FlowWait i => i = task /\ a <> t_sender t
  | _ => False
  end.

(** What may be said when; either side may pause, also while the other's pause is not
    confirmed yet, each confirms the other's pause when it is ready, either continues,
    manually or automatically, the receiver resumes with the bitmap it has, and ends
    the task with a receipt; either gives up at any time. *)
Inductive goes (t : terms) : phase -> act -> phase -> Prop :=
  | GData ph a m : in_progress ph -> carries t a m -> goes t ph (Say a m) ph
  | GWait a : t_incremental t = true -> a <> t_sender t -> goes t Awaiting (Say a (FlowWait task)) Awaiting
  | GPause a : goes t Running (Say a (Pause task)) (Halting (set_index a true (false, false)))
  | GPauseToo a asked : index asked a = false -> goes t (Halting asked) (Say a (Pause task)) (Halting (set_index a true asked))
  | GConfirm a asked : index asked (opposite a) = true -> index asked a = true ->
      goes t (Halting asked) (Confirm a) (Halting (set_index (opposite a) false asked))
  | GConfirmLast a asked : index asked (opposite a) = true -> index asked a = false -> goes t (Halting asked) (Confirm a) Stopped
  | GContinue ph a m : ph = Stopped \/ ph = Broken -> m = ResumeTask task \/ m = AutomaticResumeTask task -> goes t ph (Say a m) Continuing
  | GResume ph bm : ph = Awaiting \/ ph = Continuing \/ ph = Broken -> bitmap_ok (t_chunks t) bm ->
      goes t ph (Say (opposite (t_sender t)) (Resume task (t_root t) (ChunkBitmap.to_bytes bm))) Running
  | GReceipt ph v : ph = Awaiting \/ in_progress ph -> v = 1 \/ v = 2 /\ t_incremental t = true ->
      goes t ph (Say (opposite (t_sender t)) (Completed task (t_root t) v)) Delivered
  | GGiveUp ph a code : ~ over ph -> goes t ph (Say a (Error task code)) GaveUp.

Inductive session (t : terms) : phase -> list act -> phase -> Prop :=
  | session_nil ph : session t ph [] ph
  | session_cons ph1 x ph2 l ph3 : goes t ph1 x ph2 -> session t ph2 l ph3 -> session t ph1 (x :: l) ph3.

(** The message opens a task on these terms. *)
Definition offers (a : Actor) (m : Message) (t : terms) : Prop :=
  match m with
  | Offer i _ path e | AutomaticOffer i _ path e =>
      i = task /\ t = mk_terms false a (identity e path).1 (identity e path).2
  | IncrementalOffer i _ path e _ => i = task /\ t = mk_terms true a (identity e path).1 (identity e path).2
  | _ => False
  end.

(** *** Every session is accepted *)

(** Table [p] has the task in this phase, with room for [k] more frames of each side. *)
Record tracks (t : terms) (ph : phase) (k : Z) (p : TaskProtocol) (b : Binding) : Prop := mk_tracks {
  tr_lookup : tasks p !! task = Some b;
  tr_terms : t = mk_terms (incremental b) (sender b) (root b) (chunks b);
  tr_chunks : 0 <= chunks b <= MAX_CHUNKS;
  tr_state : state b = wire_state ph;
  tr_asked : forall asked, ph = Halting asked -> forall a, is_Some (index (pauses b) a) <-> index asked a = true;
  tr_quiet : ~ over ph -> (forall asked, ph <> Halting asked) -> pauses b = (None, None);
  tr_room : forall a, 0 <= index (sequence b) a /\ index (sequence b) a + k <= U64_MAX;
}.

Lemma say_accepted a m p b b' :
  tasks p !! task = Some b -> 0 <= index (sequence b) a < U64_MAX -> message_task_id m = Some task -> validate_message m = Ok tt ->
  let f := mk_frame (index (sequence b) a + 1) m in
  wire_step a (core f) b b' -> say a m p = Ok (mk_protocol (peer p) (<[task := stamped f a b']> (tasks p))).
Proof.
  intros Eb Hs Ht Hv f Hst. unfold say, next_request_id. rewrite Eb.
  assert (checked_add U64_MAX (index (sequence b) a) 1 = Some (index (sequence b) a + 1)) as -> by (apply checked_add_Some; lia).
  cbn [ok_or obind]. fold f.
  assert (accepted (peer p) a f p (mk_protocol (peer p) (<[task := stamped f a b']> (tasks p)))) as Ha.
  { apply (Moved _ a f p task b); try done; [|cbn; lia]. unfold validate_frame. cbn [request_id message f].
    rewrite Ht, bool_decide_true, (bool_decide_false (_ = None)) by eauto. by rewrite (proj2 (Z.eqb_neq _ 0)) by lia. }
  by rewrite (observe_complete _ _ _ _ _ Ha).
Qed.

Lemma tracks_stamped t ph k p b b' ph' f a :
  tracks t ph (k + 1) p b -> 0 <= k -> wire_step a (core f) b b' -> request_id f = index (sequence b) a + 1 -> state b' = wire_state ph' ->
  (forall asked, ph' = Halting asked -> forall c, is_Some (index (pauses b') c) <-> index asked c = true) ->
  (~ over ph' -> (forall asked, ph' <> Halting asked) -> pauses b' = (None, None)) ->
  tracks t ph' k (mk_protocol (peer p) (<[task := stamped f a b']> (tasks p))) (stamped f a b').
Proof.
  intros [T1 T2 T3 T4 T5 T6 T7] Hk Hst Hid Hs Ha Hq. destruct (step_fields _ _ _ _ Hst) as (E1 & E2 & E3 & E4 & E5). split; try done.
  - cbn. by rewrite lookup_insert_eq.
  - cbn. congruence.
  - cbn. by rewrite E4.
  - intros c. cbn. rewrite index_set, E5. pose proof (T7 c). pose proof (T7 a). case_bool_decide; lia.
Qed.

Lemma bitmap_ok_resume n r bm : 0 <= n <= MAX_CHUNKS -> bitmap_ok n bm ->
  bitmap_of n (ChunkBitmap.to_bytes bm) /\ validate_message (Resume task r (ChunkBitmap.to_bytes bm)) = Ok tt.
Proof.
  intros Hc [[_ Hlen Hbytes Hpad] En]. rewrite En in *.
  unfold ChunkBitmap.to_bytes, ChunkBitmap.byte_len in *. unfold MAX_CHUNKS in Hc.
  pose proof (div_ceil_spec n 8 ltac:(lia) ltac:(lia)) as Hd.
  pose proof (div_ceil_nonneg n 8 ltac:(lia) ltac:(lia)).
  set (bits := ChunkBitmap.bits bm) in *.
  assert (Z.of_nat (length bits) = div_ceil n 8) as El by lia.
  split; [split; [done|]|].
  - intros Hm l Hlast. rewrite last_lookup in Hlast.
    pose proof (Z.div_mod n 8 ltac:(lia)). pose proof (Z.mod_pos_bound n 8 ltac:(lia)).
    assert (div_ceil n 8 - 1 = n / 8) as Eq by lia.
    assert (is_u8 l) as Hl by (exact (Forall_lookup_1 _ _ _ _ Hbytes Hlast)).
    apply Z.bits_inj'. intros j Hj. rewrite Z.bits_0, Z.shiftr_spec by lia.
    destruct (Z.ltb_spec (j + n mod 8) 8); [|by apply ChunkBitmap.u8_testbit_ge].
    pose proof (Hpad (n / 8 * 8 + (j + n mod 8)) ltac:(lia)) as Hv.
    unfold ChunkBitmap.view in Hv. rewrite ChunkBitmap.testb_at in Hv by lia. fold bits in Hv.
    replace (Z.to_nat (n / 8)) with (pred (length bits)) in Hv by lia. by rewrite Hlast in Hv.
  - cbn [validate_message]. rewrite (proj2 (Z.ltb_ge _ _)); [done|].
    change (div_ceil MAX_CHUNKS 8) with 8192. lia.
Qed.


Ltac phases := repeat match goal with
  | H : _ \/ _ |- _ => destruct H
  | H : exists _, _ |- _ => destruct H
  | H : _ /\ _ |- _ => destruct H
  end; subst.

Lemma wire_moving ph : in_progress ph -> moving (wire_state ph).
Proof. intros [->|[asked ->]]; [by left|by right]. Qed.

(** The step of the table behind a thing that is said. *)
Lemma goes_say t ph a m ph' k p b : goes t ph (Say a m) ph' -> tracks t ph k p b ->
  message_task_id m = Some task /\ validate_message m = Ok tt /\
  forall n, exists b', wire_step a (core (mk_frame n m)) b b' /\ state b' = wire_state ph' /\
    (forall asked, ph' = Halting asked -> forall c, is_Some (index (pauses b') c) <-> index asked c = true) /\
    (~ over ph' -> (forall asked, ph' <> Halting asked) -> pauses b' = (None, None)).
Proof.
  intros Hg [T1 -> T3 T4 T5 T6 T7]. inversion Hg; subst; clear Hg; cbn [t_sender t_root t_chunks t_incremental] in *.
  - assert (moving (state b)) as Hm by (rewrite T4; by apply wire_moving).
    destruct m; cbn in *; try done; phases; (split; [done|]); (split; [first [done|by rewrite (proj2 (Z.ltb_ge _ _))]|]);
      intros n; exists b; (split; [|by auto]); [eapply SRequest|eapply SChunk|eapply SAck|eapply SFlowWait]; eauto; by left.
  - split; [done|]. split; [done|]. intros n. exists b. split; [|auto]. eapply SFlowWait; [done|congruence|]. by right.
  - split; [done|]. split; [done|]. intros n. assert (pauses b = (None, None)) as Ep by (apply T6; [by intros [|]|done]).
    eexists. split; [eapply SPause; [done|by left|by rewrite Ep; destruct a]|]. split; [done|]. split; [|by intros _ Hn; destruct (Hn (set_index a true (false, false)))].
    intros asked [= <-] c. cbn. rewrite Ep, !index_set. case_bool_decide; [naive_solver|]. destruct c; cbn; naive_solver.
  - split; [done|]. split; [done|]. intros n. assert (index (pauses b) a = None) as Ep.
    { apply eq_None_not_Some. rewrite (T5 asked eq_refl). congruence. }
    eexists. split; [eapply SPause; [done|by right|done]|]. split; [done|]. split; [|by intros _ Hn; destruct (Hn (set_index a true asked))].
    intros asked' [= <-] c. cbn. rewrite !index_set. case_bool_decide; [naive_solver|]. by apply T5.
  - assert (pauses b = (None, None)) as Ep by (phases; apply T6; first [by intros [|]|done]).
    phases; (split; [done|]); (split; [done|]); intros n; exists (with_state ResumeRequested b); (split; [eapply SResumeTask; [done|]; rewrite T4; auto|]);
      (split; [done|]); by split.
  - assert (pauses b = (None, None)) as Ep by (phases; apply T6; first [by intros [|]|done]).
    destruct (bitmap_ok_resume (chunks b) (root b) bm) as [Hof Hv]; [lia|done|]. split; [done|]. split; [done|]. intros n.
    exists (with_state Transferring b). split; [|by split].
    eapply SResume; [done|apply opposite_ne| |done]. rewrite T4. phases; auto.
  - split; [done|]. split; [phases; done|]. intros n. eexists. split.
    + eapply SCompleted; [done|apply opposite_ne| |]; [intros ->; phases; congruence|]. rewrite T4.
      match goal with H : _ = Awaiting \/ _ |- _ => destruct H as [-> |Hp]; [by left|right; by apply wire_moving] end.
    + split; [done|]. split; [done|]. intros Hn. destruct Hn. by left.
  - split; [done|]. split; [done|]. intros n. exists (with_state Failed b). split.
    + eapply SError; [done|..]; rewrite T4; destruct ph; try done; intros _; match goal with H : ~ over _ |- _ => apply H end; [by left|by right].
    + split; [done|]. split; [done|]. intros Hn. destruct Hn. by right.
Qed.

Lemma goes_confirm t asked a ph' k p b : goes t (Halting asked) (Confirm a) ph' -> tracks t (Halting asked) k p b ->
  exists n b', index (pauses b) (opposite a) = Some n /\ (forall q, wire_step a (core (mk_frame q (Paused task n))) b b') /\ state b' = wire_state ph' /\
    (forall asked', ph' = Halting asked' -> forall c, is_Some (index (pauses b') c) <-> index asked' c = true) /\
    (~ over ph' -> (forall asked', ph' <> Halting asked') -> pauses b' = (None, None)).
Proof.
  intros Hg [T1 T2 T3 T4 T5 T6 T7]. assert (index asked (opposite a) = true) as Ho by (by inversion Hg).
  destruct (proj2 (T5 asked eq_refl (opposite a)) Ho) as [n En]. exists n. inversion Hg; subst; clear Hg.
  - match goal with H : index asked a = true |- _ => rewrite <- (T5 asked eq_refl a) in H; rename H into Ha end.
    eexists. split; [done|]. split; [intros q; eapply SPaused; [done|done|done|]|].
    + destruct Ha as [x Ex]. cbn. congruence.
    + split; [done|]. split; [|by intros _ Hn; destruct (Hn (set_index (opposite a) false asked))].
      intros asked' [= <-] c. cbn. rewrite !index_set. case_bool_decide; [by split; [intros [? ?]|]|]. by apply T5.
  - assert (index (pauses b) a = None) as Ea by (apply eq_None_not_Some; rewrite (T5 asked eq_refl); congruence).
    eexists. split; [done|]. split; [intros q; by eapply SLastPaused|]. by split.
Qed.

Lemma goes_performed t ph x ph' k p b : goes t ph x ph' -> tracks t ph (k + 1) p b -> 0 <= k ->
  exists p' b', perform1 p x = Ok p' /\ tracks t ph' k p' b' /\ forall i, i <> task -> tasks p' !! i = tasks p !! i.
Proof.
  intros Hg Ht Hk. pose proof Ht as [T1 _ _ _ _ _ T7]. destruct x as [a m|a].
  - destruct (goes_say t ph a m ph' _ p b Hg Ht) as (Hm & Hv & Hst). destruct (Hst (index (sequence b) a + 1)) as (b' & Hw & Es & Ea & Eq).
    eexists _, _. split; [apply (say_accepted a m p b b'); try done; pose proof (T7 a); lia|]. split; [by eapply tracks_stamped|].
    intros i Hne. cbn. by rewrite lookup_insert_ne.
  - destruct ph as [| |asked| | | | |]; try by inversion Hg.
    destruct (goes_confirm t asked a ph' _ p b Hg Ht) as (n & b' & En & Hst & Es & Ea & Eq).
    eexists _, _. split.
    { cbn [perform1]. rewrite T1. cbn. rewrite En. cbn. apply (say_accepted a (Paused task n) p b b'); try done. pose proof (T7 a); lia. }
    split; [by eapply tracks_stamped|]. intros i Hne. cbn. by rewrite lookup_insert_ne.
Qed.

Lemma session_performed t ph l ph' k p b : session t ph l ph' -> tracks t ph (Z.of_nat (length l) + k) p b -> 0 <= k ->
  exists p' b', perform p l = Ok p' /\ tracks t ph' k p' b' /\ forall i, i <> task -> tasks p' !! i = tasks p !! i.
Proof.
  intros Hs. revert p b. induction Hs as [ph|ph1 x ph2 l ph3 Hg _ IH]; intros p b Ht Hk.
  - exists p, b. by split.
  - destruct (goes_performed t ph1 x ph2 (Z.of_nat (length l) + k) p b Hg) as (p1 & b1 & E1 & Ht1 & Ho1); [|lia|].
    { replace (Z.of_nat (length l) + k + 1) with (Z.of_nat (length (x :: l)) + k) by (cbn; lia). done. }
    destruct (IH p1 b1 Ht1 Hk) as (p2 & b2 & E2 & Ht2 & Ho2). exists p2, b2. unfold perform in *. cbn. rewrite E1. cbn. rewrite E2.
    split; [done|]. split; [done|]. intros i Hne. by rewrite Ho2, Ho1.
Qed.

(** From every phase that is not over the receipt can still be reached. *)
Lemma session_app t ph1 l1 ph2 l2 ph3 : session t ph1 l1 ph2 -> session t ph2 l2 ph3 -> session t ph1 (l1 ++ l2) ph3.
Proof. induction 1; [done|]. intros Hs. cbn. econstructor; [done|auto]. Qed.

Definition receipt (t : terms) : act := Say (opposite (t_sender t)) (Completed task (t_root t) 1).
Definition catch_up (t : terms) : act := Say (opposite (t_sender t)) (Resume task (t_root t) (ChunkBitmap.to_bytes (ChunkBitmap.new (t_chunks t)))).

Definition way_out (t : terms) (ph : phase) : list act :=
  match ph with
  | Awaiting | Running | Halting _ => [receipt t]
  | Stopped => [Say (t_sender t) (ResumeTask task); catch_up t; receipt t]
  | Broken | Continuing => [catch_up t; receipt t]
  | Delivered | GaveUp => []
  end.

Lemma way_out_leads t ph : 0 <= t_chunks t <= MAX_CHUNKS -> ~ over ph -> session t ph (way_out t ph) Delivered /\ (length (way_out t ph) <= 3)%nat.
Proof.
  intros Hc Ho. assert (bitmap_ok (t_chunks t) (ChunkBitmap.new (t_chunks t))) as Hb.
  { split; [|done]. apply ChunkBitmap.new_wf. unfold in_range, U32_MAX, MAX_CHUNKS in *. lia. }
  assert (forall ph, ph = Awaiting \/ in_progress ph -> session t ph [receipt t] Delivered) as Hr.
  { intros ph' Hp. eapply session_cons; [|constructor]. by apply GReceipt; [|left]. }
  assert (session t Running [receipt t] Delivered) as Hrun by (by apply Hr; right; left).
  assert (forall ph, ph = Awaiting \/ ph = Continuing \/ ph = Broken -> session t ph [catch_up t; receipt t] Delivered) as Hcu.
  { intros ph' Hp. eapply session_cons; [by apply GResume|exact Hrun]. }
  destruct ph as [| |asked| | | | |]; cbn; (split; [|lia]).
  - apply Hr. by left.
  - done.
  - apply Hr. right. right. by exists asked.
  - eapply session_cons; [apply (GContinue t Stopped); auto|]. apply Hcu. auto.
  - apply Hcu. auto.
  - apply Hcu. auto.
  - destruct Ho. by left.
  - destruct Ho. by right.
Qed.

(** A session that goes on from a phase the table is in. *)
Lemma session_goes_on t ph l ph' p b : session t ph l ph' -> tracks t ph (Z.of_nat (length l) + 3) p b ->
  exists p', perform p l = Ok p' /\ state_of p' task = Some (wire_state ph') /\ (forall i, i <> task -> tasks p' !! i = tasks p !! i) /\
    (~ over ph' -> exists p2, perform p' (way_out t ph') = Ok p2 /\ state_of p2 task = Some CompletedState).
Proof.
  intros Hs Ht. pose proof (tr_chunks _ _ _ _ _ Ht) as Hc. pose proof (tr_terms _ _ _ _ _ Ht) as Et.
  destruct (session_performed t ph l ph' 3 p b Hs Ht) as (p' & b' & E & Ht' & Ho); [lia|]. exists p'. split; [done|].
  split; [unfold state_of; rewrite (tr_lookup _ _ _ _ _ Ht'); cbn; by rewrite (tr_state _ _ _ _ _ Ht')|]. split; [done|].
  intros Hov. destruct (way_out_leads t ph') as [Hw Hl]; [by subst t|done|].
  destruct (session_performed t ph' (way_out t ph') Delivered (3 - Z.of_nat (length (way_out t ph'))) p' b' Hw) as (p2 & b2 & E2 & Ht2 & _); [|lia|].
  { replace (Z.of_nat (length (way_out t ph')) + (3 - Z.of_nat (length (way_out t ph')))) with 3 by lia. done. }
  exists p2. split; [done|]. unfold state_of. rewrite (tr_lookup _ _ _ _ _ Ht2). cbn. by rewrite (tr_state _ _ _ _ _ Ht2).
Qed.

(** *** How a task begins *)

Lemma offer_tracked t a m p k : offers a m t -> validate_message m = Ok tt -> tasks p !! task = None ->
  Z.of_nat (size (tasks p)) < MAX_TASKS_PER_PEER -> 0 <= k < U64_MAX ->
  exists p' b, perform p [Say a m] = Ok p' /\ tracks t Awaiting k p' b /\ forall i, i <> task -> tasks p' !! i = tasks p !! i.
Proof.
  intros Ho Hv Hn Hsz Hk. set (f := mk_frame 1 m).
  assert (exists g path e, message (core f) = Offer task g path e /\ validate_entry e path = Ok tt /\
    t = mk_terms (is_incremental m) a (identity e path).1 (identity e path).2) as (g & path & e & Hm & He & Et).
  { destruct m; cbn in Ho; try done; destruct Ho as [-> ->]; cbn in Hv |- *; try by eexists _, _, _. destruct entry; [|done]. by eexists _, _, _. }
  assert (accepted (peer p) a f p (mk_protocol (peer p) (<[task := opened f a e path]> (tasks p)))) as Ha.
  { apply (Opened _ a f p task g path e); try done. unfold validate_frame. cbn [request_id message f]. 
    assert (message_task_id m = Some task) as -> by (destruct m; cbn in Ho; naive_solver).
    by rewrite bool_decide_true, (bool_decide_false (_ = None)) by eauto. }
  eexists _, (opened f a e path). split.
  { unfold perform. cbn [fold_outcome perform1]. unfold say, next_request_id. rewrite Hn. cbn [ok_or obind]. fold f. by rewrite (observe_complete _ _ _ _ _ Ha). }
  split; [|intros i Hne; cbn; by rewrite lookup_insert_ne]. pose proof (entry_chunks _ _ He). subst t. split; cbn; try done.
  - by rewrite lookup_insert_eq.
  - unfold U64_MAX in *. intros []; destruct a; cbn; lia.
Qed.

Lemma restore_tracked s r n paused p p' k : 0 <= n -> restore task s r n paused p = (Ok tt, p') -> 0 <= k <= U64_MAX ->
  exists b, tracks (mk_terms false s r n) (if paused then Stopped else Broken) k p' b /\ forall i, i <> task -> tasks p' !! i = tasks p !! i.
Proof.
  unfold restore. destruct (Z.leb_spec MAX_TASKS_PER_PEER (Z.of_nat (size (tasks p)))); cbn [orb]; [done|].
  case_bool_decide; cbn [orb]; [done|]. destruct (Z.ltb_spec MAX_CHUNKS n); [done|]. intros Hn [= <-] Hk.
  exists (mk_binding false s r n (if paused then PausedState else Interrupted) (0, 0) (None, None)).
  split; [|intros i Hne; cbn; by rewrite lookup_insert_ne]. split; cbn; try done.
  - by rewrite lookup_insert_eq.
  - by destruct paused.
  - intros asked E. by destruct paused.
  - intros []; cbn; lia.
Qed.

End Sessions.

(** ** Both ends *)

Definition flip_pair {A} (x : array2 A) : array2 A := (x.2, x.1).

(** The binding as the other end of the connection sees it. *)
Definition mirror (b : Binding) : Binding :=
  mk_binding (incremental b) (opposite (sender b)) (root b) (chunks b) (state b)
    (flip_pair (sequence b)) (flip_pair (pauses b)).

Definition mirror_of (here there : NodeId) (p : TaskProtocol) : TaskProtocol :=
  mk_protocol here (mirror <$> tasks p).

Lemma index_flip {A} (x : array2 A) a : index (flip_pair x) (opposite a) = index x a.
Proof. by destruct a. Qed.

Lemma set_index_flip {A} (x : array2 A) a y :
  set_index (opposite a) y (flip_pair x) = flip_pair (set_index a y x).
Proof. by destruct a. Qed.

Lemma opposite_eq a c : bool_decide (opposite a = opposite c) = bool_decide (a = c).
Proof. by destruct a, c. Qed.

Lemma advance_mirror a f b : advance (opposite a) f (mirror b) = omap mirror (advance a f b).
Proof.
  destruct b as [inc s r n st sq [pl pr]]. unfold advance. destruct (message f); try done;
    cbn [mirror incremental sender root chunks state sequence pauses]; rewrite ?opposite_eq, ?index_flip;
    try (match goal with |- context [fail_if ?c _] => by destruct c end).
  - destruct a; cbn; (match goal with |- context [fail_if ?c _] => by destruct c end).
  - destruct a; cbn; (match goal with |- context [fail_if ?c _] => destruct c end); try done; cbn;
      do 2 case_bool_decide; simplify_eq; done.
Qed.

Section Ends.
Context `{Blake3}.

Definition mirror_result (here there : NodeId) (r : result unit * TaskProtocol) :
    result unit * TaskProtocol :=
  (r.1, mirror_of here there r.2).

Lemma observe_manual_mirror here there a f p : peer p = there ->
  observe_manual here (opposite a) f (mirror_of here there p) =
  mirror_result here there (observe_manual there a f p).
Proof.
  intros <-. unfold observe_manual. cbn [mirror_of peer tasks].
  rewrite !bool_decide_true by done. cbn [negb].
  destruct (validate_frame f) as [u|e|]; [|done|done].
  destruct (message_task_id (message (normalize f))) as [t|]; [|done].
  cbn [tasks]. rewrite lookup_fmap, map_size_fmap.
  set (g := normalize f).
  assert (forall b, tasks p !! t = Some b ->
    (if negb (bool_decide (checked_add U64_MAX (index (sequence (mirror b)) (opposite a)) 1 = Some (request_id g)))
     then (Err (invalid "repeated or unordered request"), mirror_of here (peer p) p)
     else match advance (opposite a) g (mirror b) with
          | Ok b' => (Ok tt, mk_protocol here
              (<[t := with_sequence (set_index (opposite a) (request_id g) (sequence b')) b']> (mirror <$> tasks p)))
          | Err e => (Err e, mirror_of here (peer p) p)
          | Panic => (Panic, mirror_of here (peer p) p)
          end) =
    mirror_result here (peer p)
      (if negb (bool_decide (checked_add U64_MAX (index (sequence b) a) 1 = Some (request_id g)))
       then (Err (invalid "repeated or unordered request"), p)
       else match advance a g b with
            | Ok b' => (Ok tt, mk_protocol (peer p)
                (<[t := with_sequence (set_index a (request_id g) (sequence b')) b']> (tasks p)))
            | Err e => (Err e, p)
            | Panic => (Panic, p)
            end)) as Hstep.
  { intros b Eb. change (sequence (mirror b)) with (flip_pair (sequence b)).
    rewrite index_flip, advance_mirror. case_bool_decide; [|done]. cbn [negb].
    destruct (advance a g b) as [b'|e|]; [|done|done]. cbn [omap obind].
    unfold mirror_result, mirror_of. cbn [fst snd tasks]. rewrite fmap_insert. do 3 f_equal.
    unfold with_sequence, mirror. cbn. by rewrite set_index_flip. }
  destruct (message g) as [t' gr pa e| | | | | | | | | | | | | | | |];
    try (destruct (tasks p !! t) as [b|] eqn:Eb; cbn [fmap option_fmap option_map]; [by apply Hstep|done]).
  rewrite (bool_decide_ext (is_Some (mirror <$> tasks p !! t)) (is_Some (tasks p !! t)))
    by apply fmap_is_Some.
  match goal with |- context [if ?c then _ else _] => destruct c end; [done|].
  destruct (identity e pa) as [r n]. unfold mirror_result, mirror_of. cbn [fst snd tasks].
  rewrite fmap_insert. do 3 f_equal. unfold mirror. cbn. by destruct a.
Qed.

Lemma observe_mirror here there a f p : peer p = there ->
  observe here (opposite a) f (mirror_of here there p) = mirror_result here there (observe there a f p).
Proof. intros Hp. unfold observe. destruct (manual (message f)); by apply observe_manual_mirror. Qed.

Lemma restore_mirror here there t s r n b p :
  restore t (opposite s) r n b (mirror_of here there p) =
  mirror_result here there (restore t s r n b p).
Proof.
  unfold restore, mirror_of. cbn [tasks peer]. rewrite map_size_fmap, lookup_fmap.
  rewrite (bool_decide_ext (is_Some (mirror <$> tasks p !! t)) (is_Some (tasks p !! t)))
    by apply fmap_is_Some.
  match goal with |- context [if ?c then _ else _] => destruct c end; [done|].
  unfold mirror_result, mirror_of. cbn [fst snd tasks]. by rewrite fmap_insert.
Qed.

(** The same event at the other end. *)
Definition mirror_event (here : NodeId) (e : event) : event :=
  match e with
  | Restoring t s r n b => Restoring t (opposite s) r n b
  | Observing _ a f => Observing here (opposite a) f
  end.

Definition from (there : NodeId) (e : event) : Prop :=
  match e with Observing q _ _ => q = there | _ => True end.

Definition mirror_log : log -> log := map (fun x => (opposite x.1, x.2)).

Lemma observe_peer q a f p : peer (observe q a f p).2 = peer p.
Proof. by destruct (observe_cases q a f p) as [[tag ->]|(p' & -> & [])]. Qed.

Lemma handle_mirror here there s e : from there e -> peer s.2 = there ->
  handle (mirror_log s.1, mirror_of here there s.2) (mirror_event here e) =
    (mirror_log (handle s e).1, mirror_of here there (handle s e).2) /\
  peer (handle s e).2 = there.
Proof.
  intros He Hp. destruct s as [l p], e as [t sd r n b|q a f]; cbn [handle mirror_event fst snd] in *.
  - rewrite restore_mirror. split; [done|]. unfold restore.
    by match goal with |- context [if ?c then _ else _] => destruct c end.
  - cbn in He. subst q. rewrite (observe_mirror here there a f p Hp).
    pose proof (observe_peer there a f p) as Hq.
    destruct (observe there a f p) as [[u|e|] p']; cbn in *; (split; [|congruence]); try done.
    unfold mirror_log. by rewrite map_app.
Qed.

Lemma run_mirror here there es : Forall (from there) es ->
  peer (run there es).2 = there /\
  run here (map (mirror_event here) es) =
    (mirror_log (run there es).1, mirror_of here there (run there es).2).
Proof.
  induction es as [|e es IH] using rev_ind; intros Hf.
  - split; [done|]. unfold run, mirror_of, new. cbn. by rewrite fmap_empty.
  - apply Forall_app in Hf as [Hf [He _]%Forall_cons]. destruct (IH Hf) as (Hp & E).
    rewrite map_app. cbn [map]. rewrite !run_snoc, E.
    destruct (handle_mirror here there (run there es) e He Hp) as [-> ->]. done.
Qed.

End Ends.

(** ** The speed-test arbiter *)

Inductive speed_op : Type :=
  | ORequest (requester : NodeId) (test_id : TaskId) (direction : SpeedDirection)
      (seconds active_files : Z) (token : list Z)
  | OAccept (grantor : NodeId) (lease : SpeedLease) (active_files : Z)
  | OClaim (sender : NodeId) (lease : SpeedLease)
  | OFinish (actor : NodeId) (lease : SpeedLease).

(** What succeeded. *)
Inductive speed_event : Type :=
  | Activated (lease : SpeedLease)
  | Claimed (lease : SpeedLease)
  | Ended (lease : SpeedLease).

Definition success {A} (r : result A) (e : A -> speed_event) : list speed_event :=
  match r with Ok x => [e x] | _ => [] end.

Definition speed_step (s : list speed_event * SpeedArbiter) (o : speed_op) :
    list speed_event * SpeedArbiter :=
  match o with
  | ORequest q t d n files tok => let (r, a) := request q t d n files tok s.2 in (s.1 ++ success r Activated, a)
  | OAccept g lease files =>
      let (r, a) := accept_grant g lease files s.2 in (s.1 ++ success r (fun _ => Activated lease), a)
  | OClaim q lease => let (r, a) := claim_stream q lease s.2 in (s.1 ++ success r (fun _ => Claimed lease), a)
  | OFinish q lease => let (r, a) := finish q lease s.2 in (s.1 ++ success r (fun _ => Ended lease), a)
  end.

Definition speed_run (local peer : NodeId) (os : list speed_op) : list speed_event * SpeedArbiter :=
  foldl speed_step ([], new_arbiter local peer) os.

(** One test at a time: a lease is activated when there is none, its stream is
    claimed at most once, and the same lease ends. *)
Definition one_at_a_time (c : option (option (SpeedLease * bool))) (e : speed_event) :
    option (option (SpeedLease * bool)) :=
  match c, e with
  | Some None, Activated l => Some (Some (l, false))
  | Some (Some (l, false)), Claimed l' => if bool_decide (l = l') then Some (Some (l, true)) else None
  | Some (Some (l, _)), Ended l' => if bool_decide (l = l') then Some None else None
  | _, _ => None
  end.

Definition current (a : SpeedArbiter) : option (SpeedLease * bool) :=
  match active a with Some l => Some (l, stream_claimed a) | None => None end.

Record speed_inv (x y : NodeId) (s : list speed_event * SpeedArbiter) : Prop := {
  speed_local : local s.2 = x;
  speed_peer : a_peer s.2 = y;
  speed_phases : foldl one_at_a_time (Some None) s.1 = Some (current s.2);
  speed_idle : active s.2 = None -> stream_claimed s.2 = false;
  speed_lease : forall l, active s.2 = Some l ->
    (owner l = x \/ owner l = y) /\ validate_speed_seconds (seconds l) = Ok tt;
}.

Lemma validate_seconds_cases n :
  validate_speed_seconds n = Ok tt \/ exists tag, validate_speed_seconds n = Err (Protocol tag).
Proof. unfold validate_speed_seconds. destruct (_ && _); cbn; eauto. Qed.

(** Each operation of the arbiter refuses and changes nothing, or succeeds so. *)
Lemma request_cases q t d n files tok a :
  (exists tag, request q t d n files tok a = (Err (Protocol tag), a)) \/
  (let l := mk_lease t q d n tok in
   request q t d n files tok a = (Ok l, mk_arbiter (local a) (a_peer a) (Some l) false) /\
   Message.bytes_le (a_peer a) (local a) = false /\ (q = local a \/ q = a_peer a) /\
   validate_speed_seconds n = Ok tt /\ files = 0 /\ active a = None).
Proof.
  unfold request, invalid. destruct (Message.bytes_le _ _); [left; eauto|].
  destruct (bool_decide (q = local a)) eqn:E1, (bool_decide (q = a_peer a)) eqn:E2; cbn [negb andb];
    try (left; by eauto).
  all: destruct (validate_seconds_cases n) as [->|[tag ->]]; [|left; by eauto].
  all: destruct (Z.eqb_spec files 0), (active a) as [l|] eqn:Ea;
    rewrite ?bool_decide_true, ?bool_decide_false by (first [by eauto | by intros [? [=]]]); cbn; try (left; by eauto).
  all: right; bool_hyps; repeat split; auto.
Qed.

Lemma accept_cases g l files a :
  (exists tag, accept_grant g l files a = (Err (Protocol tag), a)) \/
  (accept_grant g l files a = (Ok tt, mk_arbiter (local a) (a_peer a) (Some l) false) /\
   Message.bytes_le (local a) (a_peer a) = false /\ g = a_peer a /\
   (owner l = local a \/ owner l = a_peer a) /\
   validate_speed_seconds (seconds l) = Ok tt /\ files = 0 /\ active a = None).
Proof.
  unfold accept_grant, invalid. destruct (Message.bytes_le _ _); [left; eauto|]. cbn [orb].
  destruct (validate_seconds_cases (seconds l)) as [->|[tag ->]];
    [|left; match goal with |- context [if ?c then _ else _] => destruct c end; by eauto].
  destruct (bool_decide (g = a_peer a)) eqn:E0; cbn [negb orb]; [|left; by eauto].
  destruct (bool_decide (owner l = local a)) eqn:E1, (bool_decide (owner l = a_peer a)) eqn:E2;
    cbn [negb andb orb]; try (left; by eauto).
  all: destruct (Z.eqb_spec files 0), (active a) as [l'|] eqn:Ea;
    rewrite ?bool_decide_true, ?bool_decide_false by (first [by eauto | by intros [? [=]]]); cbn; try (left; by eauto).
  all: right; bool_hyps; repeat split; auto.
Qed.

Lemma claim_cases q l a :
  (exists tag, claim_stream q l a = (Err (Protocol tag), a)) \/
  (claim_stream q l a = (Ok tt, mk_arbiter (local a) (a_peer a) (Some l) true) /\
   active a = Some l /\ stream_claimed a = false /\ q = stream_source a l).
Proof.
  unfold claim_stream, invalid. case_bool_decide as E1; cbn [negb orb]; [|left; by eauto].
  destruct (stream_claimed a); cbn [orb]; [left; by eauto|].
  case_bool_decide as E2; cbn [negb]; [|left; by eauto]. right. by rewrite E1.
Qed.

Lemma finish_cases q l a :
  (exists tag, finish q l a = (Err (Protocol tag), a)) \/
  (finish q l a = (Ok tt, mk_arbiter (local a) (a_peer a) None false) /\
   active a = Some l /\ (q = local a \/ q = a_peer a)).
Proof.
  unfold finish, invalid. case_bool_decide as E1; case_bool_decide as E2; cbn [negb andb orb];
    try (left; by eauto); case_bool_decide as E3; cbn [negb]; try (left; by eauto); right; auto.
Qed.

Lemma speed_inv_step x y s o : speed_inv x y s -> speed_inv x y (speed_step s o).
Proof.
  intros [Hl Hp Hph Hidle Hlease]. destruct s as [l a]; cbn [fst snd] in *. unfold current in Hph.
  assert (speed_inv x y (l ++ [], a)) as Hsame by (rewrite app_nil_r; by split).
  destruct o as [q t d n files tok|g lease files|q lease|q lease]; cbn [speed_step fst snd].
  - destruct (request_cases q t d n files tok a) as [[tag ->]|(-> & _ & Hq & Hn & _ & Ea)]; [done|].
    split; cbn; try done; [|by intros ? [= <-]; subst].
    rewrite foldl_snoc, Hph, Ea. done.
  - destruct (accept_cases g lease files a) as [[tag ->]|(-> & _ & _ & Hq & Hn & _ & Ea)]; [done|].
    split; cbn; try done; [|by intros ? [= <-]; subst].
    rewrite foldl_snoc, Hph, Ea. done.
  - destruct (claim_cases q lease a) as [[tag ->]|(-> & Ea & Ec & _)]; [done|].
    split; cbn; try done; [|intros ? [= <-]; by apply Hlease].
    rewrite foldl_snoc, Hph, Ea, Ec. cbn. by rewrite bool_decide_true.
  - destruct (finish_cases q lease a) as [[tag ->]|(-> & Ea & _)]; [done|].
    split; cbn; try done. rewrite foldl_snoc, Hph, Ea. cbn. rewrite bool_decide_true by done.
    by destruct (stream_claimed a).
Qed.

Lemma speed_run_inv x y os : speed_inv x y (speed_run x y os).
Proof.
  unfold speed_run. induction os as [|o os IH] using rev_ind; [by split|].
  rewrite foldl_snoc. by apply speed_inv_step.
Qed.

(** ** The wire form *)

Section Wire.
Context `{Blake3} `{PostcardLaws Frame}.

Lemma encode_Ok f bytes : encode f = Ok bytes <->
  validate_frame f = Ok tt /\ Z.of_nat (length bytes) <= MAX_FRAME_BYTES /\
  exists payload, to_allocvec f = Ok payload /\ bytes = MAGIC ++ payload.
Proof.
  unfold encode. split.
  - intros E. apply obind_Ok in E as ([] & Hv & E). apply obind_Ok in E as (payload & Hp & E).
    apply obind_Ok in E as (u & Hl & [= <-]). apply fail_if_Ok, Z.ltb_ge in Hl. by eauto.
  - intros (-> & Hl & payload & -> & ->). cbn [obind]. by rewrite (proj2 (Z.ltb_ge _ _) Hl).
Qed.

Lemma decode_encoded f payload rest : validate_frame f = Ok tt -> to_allocvec f = Ok payload ->
  Z.of_nat (length (MAGIC ++ payload ++ rest)) <= MAX_FRAME_BYTES ->
  decode (MAGIC ++ payload ++ rest) =
    (if bool_decide (rest = []) then Ok f else Err (invalid "trailing bytes")).
Proof.
  intros Hv Hp Hl. unfold decode. rewrite (proj2 (Z.ltb_ge _ _) Hl). cbn [fail_if obind].
  unfold RelativePath.strip_prefix. rewrite starts_with_app, drop_app_length. cbn [ok_or obind].
  rewrite (take_to_allocvec f payload rest Hp). cbn [obind].
  case_bool_decide; cbn [negb fail_if obind]; [|done]. by rewrite Hv.
Qed.

End Wire.

(** ** Properties *)

(** C17: Two sides that keep to the rules of a session ([goes]) are never refused. A task
    begins with an offer of any kind that is valid while there is room, or is restored
    as paused or interrupted; then either side may do whatever the rules allow, in any
    order a table sees it: data, keepalives, pauses of either side or of both at once,
    confirmed in either order, continued manually or automatically by either, the
    receiver's bitmap, a receipt, or giving up. All of it is accepted under the next
    request numbers, leads to the state of the phase and touches no other task; and
    from every phase that is not over the task can still be completed. *)
Theorem honest_session_accepted `{Blake3} (task : TaskId) (p : TaskProtocol) (t : terms) (l : list act) (ph : phase) :
  Z.of_nat (length l) + 3 < U64_MAX ->
  (forall a m, offers task a m t -> validate_message m = Ok tt -> tasks p !! task = None -> Z.of_nat (size (tasks p)) < MAX_TASKS_PER_PEER ->
     session task t Awaiting l ph ->
     exists p', perform task p (Say a m :: l) = Ok p' /\ state_of p' task = Some (wire_state ph) /\
       (forall i, i <> task -> tasks p' !! i = tasks p !! i) /\
       (~ over ph -> exists p2, perform task p' (way_out task t ph) = Ok p2 /\ state_of p2 task = Some CompletedState)) /\
  (forall paused p1, 0 <= t_chunks t -> t_incremental t = false -> restore task (t_sender t) (t_root t) (t_chunks t) paused p = (Ok tt, p1) ->
     session task t (if paused then Stopped else Broken) l ph ->
     exists p', perform task p1 l = Ok p' /\ state_of p' task = Some (wire_state ph) /\
       (forall i, i <> task -> tasks p' !! i = tasks p !! i) /\
       (~ over ph -> exists p2, perform task p' (way_out task t ph) = Ok p2 /\ state_of p2 task = Some CompletedState)).
Proof.
  intros Hlen. split.
  - intros a m Ho Hv Hn Hsz Hs. destruct (offer_tracked task t a m p (Z.of_nat (length l) + 3) Ho Hv Hn Hsz) as (p1 & b & E1 & Ht & Ho1); [lia|].
    destruct (session_goes_on task t Awaiting l ph p1 b Hs Ht) as (p' & E & Es & Ho2 & Hw). exists p'. split.
    { change (Say a m :: l) with ([Say a m] ++ l). unfold perform in *. rewrite fold_outcome_app, E1. exact E. }
    split; [done|]. split; [|done]. intros i Hne. by rewrite Ho2, Ho1.
  - intros paused p1 Hc Hi Hr Hs. destruct t as [inc s r n]. cbn in *. subst inc.
    destruct (restore_tracked task s r n paused p p1 (Z.of_nat (length l) + 3) Hc Hr) as (b & Ht & Ho1); [lia|].
    destruct (session_goes_on task _ _ l ph p1 b Hs Ht) as (p' & E & Es & Ho2 & Hw). exists p'. split; [done|]. split; [done|]. split; [|done].
    intros i Hne. by rewrite Ho2, Ho1.
Qed.

(** C18: The two ends of a connection agree: when both observe the same frames in
    the same order (each as sent on its own side), they accept the same ones and
    their tables are mirror images: the same tasks with the same state, identity
    and outstanding pauses, and the two sides exchanged. *)
Theorem two_ends_agree `{Blake3} (here there : NodeId) (es : list event) :
  Forall (from there) es ->
  let mine := run here (map (mirror_event here) es) in
  let theirs := run there es in
  mine.1 = mirror_log theirs.1 /\ tasks mine.2 = mirror <$> tasks theirs.2.
Proof. intros Hf mine theirs. subst mine. by destruct (run_mirror here there es Hf) as [_ ->]. Qed.

(** C39: What a side writes is what the other reads: an encoded frame decodes to
    itself, and a written frame is read back from any fragmentation of its bytes;
    a frame is written only when it is valid and within four mebibytes, and a
    trailing byte is refused. *)
Theorem task_frame_roundtrip `{Blake3} `{PostcardLaws Frame} (f : Frame) (w w' : writer) (r : reader) :
  write w f = Ok w' -> data_only r -> bytes_of r = drop (length (out w)) (out w') ->
  Forall (fun b => 0 <= b <= 255) (bytes_of r) ->
  validate_frame f = Ok tt /\
  fst (read r) = Ok f /\
  forall bytes x, encode f = Ok bytes -> Z.of_nat (length bytes) < MAX_FRAME_BYTES ->
    decode bytes = Ok f /\ decode (bytes ++ [x]) = Err (invalid "trailing bytes").
Proof.
  intros Hw Hr Eb Hbytes. apply obind_Ok in Hw as (bytes & He & (Hbr & Hl & ->)%Frame.write_raw_Ok).
  cbn [out] in Eb. rewrite drop_app_length in Eb.
  pose proof He as (Hv & _ & payload & Hp & Ebytes)%encode_Ok.
  assert (forall rest, Z.of_nat (length (MAGIC ++ payload ++ rest)) <= MAX_FRAME_BYTES -> decode (bytes ++ rest) =
    (if bool_decide (rest = []) then Ok f else Err (invalid "trailing bytes"))) as Hd.
  { intros rest Hrest. rewrite Ebytes, <- app_assoc. by apply decode_encoded. }
  assert (Z.of_nat (length (MAGIC ++ payload ++ [])) <= MAX_FRAME_BYTES) as Hl0
    by (rewrite app_nil_r, <- Ebytes; done).
  split; [done|]. split.
  - unfold read. destruct (Frame.read_raw_data r MAX_FRAME_BYTES Hr Hbytes) as (r' & -> & _).
    rewrite Eb, <- (app_nil_r (Frame.frame_bytes bytes)), Frame.parse_frame_bytes by done.
    cbn [fst obind ok_or]. rewrite <- (app_nil_r bytes). by rewrite (Hd [] Hl0).
  - intros bytes' x He' Hlt. rewrite He in He'. injection He' as <-. split.
    + rewrite <- (app_nil_r bytes). by rewrite (Hd [] Hl0).
    + rewrite Hd; [done|]. rewrite app_assoc, <- Ebytes, length_app. cbn. lia.
Qed.

(** A speed test is exclusive: at one end, the leases activated, streams
    claimed and tests ended follow each other strictly one test at a time, with
    one stream per lease, for valid durations and owned by one of the two peers;
    while a lease is held no file may start; of two ends with different ids
    exactly one can grant and the other accept, and they agree which of them
    sends the data. *)
Theorem speed_test_exclusive (x y : NodeId) (os : list speed_op) :
  x <> y ->
  let '(log, a) := speed_run x y os in
  foldl one_at_a_time (Some None) log = Some (current a) /\
  (can_start_file a = true <-> active a = None) /\
  (forall l, active a = Some l -> (owner l = x \/ owner l = y) /\ validate_speed_seconds (seconds l) = Ok tt) /\
  (forall q t d n files tok g l files',
     ~ ((exists l', (request q t d n files tok a).1 = Ok l') /\ (accept_grant g l files' a).1 = Ok tt)) /\
  (forall os' l, owner l = x \/ owner l = y ->
     let b := (speed_run y x os').2 in
     stream_source a l = stream_source b l /\ (stream_source a l = x \/ stream_source a l = y)).
Proof.
  intros Hne. pose proof (speed_run_inv x y os) as [Hl Hp Hph _ Hlease].
  destruct (speed_run x y os) as [log a]; cbn [fst snd] in *.
  split; [done|]. split; [unfold can_start_file; by rewrite bool_decide_eq_true|]. split; [done|]. split.
  - intros q t d n files tok g l files' [[l' E1] E2].
    destruct (request_cases q t d n files tok a) as [[tag E]|(_ & Hlt & _)]; [by rewrite E in E1|].
    destruct (accept_cases g l files' a) as [[tag E]|(_ & Hlt' & _)]; [by rewrite E in E2|].
    apply Message.bytes_le_total in Hlt. congruence.
  - intros os' l Hown. pose proof (speed_run_inv y x os') as [Hl' Hp' _ _ _].
    unfold stream_source. rewrite Hl, Hp, Hl', Hp'.
    destruct (direction l); [done|]. repeat case_bool_decide; try naive_solver congruence.
Qed.

(** ** A countable code for frames (to instantiate the serializer) *)

Definition error_codes : list ErrorCode :=
  [UnsupportedVersion; UnsupportedCapability; UnknownTask; WrongPeer; InvalidState; InvalidPath;
   InvalidManifest; Busy; SourceChanged; SourceMissing; StorageCode; InterruptedCode].
Definition differences : list Difference := [Added; Changed; Unchanged].

#[global] Instance ErrorCode_countable : Countable ErrorCode.
Proof.
  refine (inj_countable (fun c => fst <$> list_find (fun d => d = c) error_codes)
    (fun o => i ← o; error_codes !! i) _). by intros [].
Defined.

#[global] Instance Difference_countable : Countable Difference.
Proof.
  refine (inj_countable (fun c => fst <$> list_find (fun d => d = c) differences)
    (fun o => i ← o; differences !! i) _). by intros [].
Defined.

#[global] Instance SpeedDirection_countable : Countable SpeedDirection.
Proof.
  apply (inj_countable' (fun d => match d with Upload => true | Download => false end)
    (fun b => if b then Upload else Download)). by intros [].
Defined.

#[global] Instance SpeedLease_countable : Countable SpeedLease.
Proof.
  apply (inj_countable' (fun l => (test_id l, owner l, direction l, seconds l, stream_token l))
    (fun '(i, o, d, s, t) => mk_lease i o d s t)). by intros [].
Defined.

Definition speed_code (c : SpeedControl) :
    (TaskId * SpeedDirection * Z) + (nat * SpeedLease) + TaskId + (SpeedLease * Z * Z) :=
  match c with
  | SpeedRequest t d n => inl (inl (inl (t, d, n)))
  | Granted l => inl (inl (inr (0%nat, l)))
  | Cancel l => inl (inl (inr (1%nat, l)))
  | Finished l => inl (inl (inr (2%nat, l)))
  | SpeedReady l => inl (inl (inr (3%nat, l)))
  | SpeedBusy t => inl (inr t)
  | SpeedResult l b e => inr (l, b, e)
  end.

Definition speed_of_code
    (c : (TaskId * SpeedDirection * Z) + (nat * SpeedLease) + TaskId + (SpeedLease * Z * Z)) : SpeedControl :=
  match c with
  | inl (inl (inl (t, d, n))) => SpeedRequest t d n
  | inl (inl (inr (0%nat, l))) => Granted l
  | inl (inl (inr (1%nat, l))) => Cancel l
  | inl (inl (inr (2%nat, l))) => Finished l
  | inl (inl (inr (_, l))) => SpeedReady l
  | inl (inr t) => SpeedBusy t
  | inr (l, b, e) => SpeedResult l b e
  end.

#[global] Instance SpeedControl_countable : Countable SpeedControl.
Proof. apply (inj_countable' speed_code speed_of_code). by intros []. Defined.

(** Tag, byte strings, integers, manifest; and the small types. *)
Abbreviation frame_code := (nat * list (list Z) * list Z * option Manifest.FileManifest *
  option (ErrorCode + Difference + SpeedControl))%type.

Definition entry_manifest (e : Entry) : option Manifest.FileManifest :=
  match e with File m => Some m | Directory => None end.
Definition entry_of (o : option Manifest.FileManifest) : Entry :=
  match o with Some m => File m | None => Directory end.
Definition group_list (g : option TaskId) : list (list Z) :=
  match g with Some t => [t] | None => [] end.

Definition code_of (m : Message) : frame_code :=
  match m with
  | Offer t g p e => (0%nat, t :: p :: group_list g, [], entry_manifest e, None)
  | Resume t r h => (1%nat, [t; r; h], [], None, None)
  | Pause t => (2%nat, [t], [], None, None)
  | Paused t n => (3%nat, [t], [n], None, None)
  | ResumeTask t => (4%nat, [t], [], None, None)
  | Completed t r v => (5%nat, [t; r], [v], None, None)
  | Error t c => (6%nat, [t], [], None, Some (inl (inl c)))
  | Speed c => (7%nat, [], [], None, Some (inr c))
  | RequestChunk t i => (8%nat, [t], [i], None, None)
  | Chunk t i d => (9%nat, [t; d], [i], None, None)
  | ChunkAck t i => (10%nat, [t], [i], None, None)
  | FlowWait t => (11%nat, [t], [], None, None)
  | AutomaticOffer t g p e => (12%nat, t :: p :: group_list g, [], entry_manifest e, None)
  | AutomaticResumeTask t => (13%nat, [t], [], None, None)
  | CompareFile t p m => (14%nat, [t; p], [], Some m, None)
  | ComparedFile t r d => (15%nat, [t; r], [], None, Some (inl (inr d)))
  | IncrementalOffer t g p e a => (16%nat, [t; g; p], [Z.b2z a], entry_manifest e, None)
  end.

Definition message_of (c : frame_code) : Message :=
  match c with
  | (0%nat, t :: p :: g, _, e, _) => Offer t (head g) p (entry_of e)
  | (1%nat, [t; r; h], _, _, _) => Resume t r h
  | (2%nat, [t], _, _, _) => Pause t
  | (3%nat, [t], [n], _, _) => Paused t n
  | (4%nat, [t], _, _, _) => ResumeTask t
  | (5%nat, [t; r], [v], _, _) => Completed t r v
  | (6%nat, [t], _, _, Some (inl (inl c))) => Error t c
  | (7%nat, _, _, _, Some (inr c)) => Speed c
  | (8%nat, [t], [i], _, _) => RequestChunk t i
  | (9%nat, [t; d], [i], _, _) => Chunk t i d
  | (10%nat, [t], [i], _, _) => ChunkAck t i
  | (12%nat, t :: p :: g, _, e, _) => AutomaticOffer t (head g) p (entry_of e)
  | (13%nat, [t], _, _, _) => AutomaticResumeTask t
  | (14%nat, [t; p], _, Some m, _) => CompareFile t p m
  | (15%nat, [t; r], _, _, Some (inl (inr d))) => ComparedFile t r d
  | (16%nat, [t; g; p], [a], e, _) => IncrementalOffer t g p (entry_of e) (a =? 1)
  | (_, t :: _, _, _, _) => FlowWait t
  | _ => FlowWait []
  end.

#[global] Instance Frame_countable : Countable Frame.
Proof.
  apply (inj_countable' (fun f => (request_id f, code_of (message f)))
    (fun '(n, c) => mk_frame n (message_of c))).
  intros [n []]; cbn; try done; repeat (match goal with
    | g : option TaskId |- _ => destruct g
    | e : Entry |- _ => destruct e
    | b : bool |- _ => destruct b
    end; cbn); done.
Defined.

Definition example_postcard : Postcard Frame := Concrete.postcard Frame.
Definition example_laws : PostcardLaws Frame (H := example_postcard) := Concrete.postcard_laws Frame.

(** ** Witnesses *)

#[local] Instance example_blake3 : Blake3 := fun bs => take 32 (bs ++ repeat 0 32).

Definition example_manifest : Manifest.FileManifest :=
  Manifest.mk_manifest [97] 20000 16384 [repeat 1 32; repeat 2 32]
    (Manifest.root_hash_of [97] 20000 16384 [repeat 1 32; repeat 2 32]).

Definition example_bitmap : ChunkBitmap.t := ChunkBitmap.new 2.

Definition example_task : TaskId := repeat 48 32.

(** An automatic offer, chunk 0, both sides pause at once, chunk 1 in flight, both
    confirm, the receiver continues automatically, chunk 1 again, the receipt. *)
Definition example_terms : terms := mk_terms false Local (Manifest.root_hash example_manifest) 2.
Definition example_acts : list act :=
  [Say Remote (Resume example_task (t_root example_terms) (ChunkBitmap.to_bytes example_bitmap));
   Say Remote (RequestChunk example_task 0); Say Local (Chunk example_task 0 [7]); Say Remote (ChunkAck example_task 0);
   Say Local (Pause example_task); Say Remote (RequestChunk example_task 1); Say Remote (Pause example_task);
   Confirm Remote; Say Local (Chunk example_task 1 [8]); Confirm Local;
   Say Remote (AutomaticResumeTask example_task); Say Remote (Resume example_task (t_root example_terms) (ChunkBitmap.to_bytes example_bitmap));
   Say Remote (RequestChunk example_task 1); Say Local (Chunk example_task 1 [8])].

Lemma example_bitmap_ok : bitmap_ok 2 example_bitmap.
Proof. split; [|done]. apply ChunkBitmap.new_wf. unfold in_range, U32_MAX. lia. Qed.

Lemma example_session : session example_task example_terms Awaiting example_acts Running.
Proof.
  pose proof example_bitmap_ok. unfold example_acts.
  eapply session_cons; [apply (GResume example_task example_terms Awaiting); auto|].
  do 3 (eapply session_cons; [apply GData; [by left|done]|]). eapply session_cons; [apply GPause|]. 
  eapply session_cons; [apply GData; [by right; eexists|done]|]. eapply session_cons; [by apply GPauseToo|].
  eapply session_cons; [by apply GConfirm|]. eapply session_cons; [apply GData; [by right; eexists|done]|].
  eapply session_cons; [by apply GConfirmLast|]. eapply session_cons; [apply (GContinue example_task example_terms Stopped); auto|].
  eapply session_cons; [apply (GResume example_task example_terms Continuing); auto|].
  do 2 (eapply session_cons; [apply GData; [by left|done]|]). constructor.
Qed.

Lemma honest_session_accepted_witness :
  (exists p', perform example_task (new [5]) (Say Local (AutomaticOffer example_task None [97] (File example_manifest)) :: example_acts) = Ok p' /\
    state_of p' example_task = Some Transferring) /\
  exists p', perform example_task (restore example_task Local [9] 2 false (new [5])).2 [Say Remote (ResumeTask example_task)] = Ok p' /\
    exists p2, perform example_task p' (way_out example_task (mk_terms false Local [9] 2) Continuing) = Ok p2 /\ state_of p2 example_task = Some CompletedState.
Proof.
  split.
  - destruct (proj1 (honest_session_accepted example_task (new [5]) example_terms example_acts Running ltac:(vm_compute; reflexivity)) Local
      (AutomaticOffer example_task None [97] (File example_manifest))) as (p' & E & Es & _).
    + split; [reflexivity|]. vm_compute. reflexivity.
    + vm_compute. reflexivity.
    + reflexivity.
    + vm_compute. reflexivity.
    + exact example_session.
    + exists p'. split; [exact E|exact Es].
  - destruct (proj2 (honest_session_accepted example_task (new [5]) (mk_terms false Local [9] 2) [Say Remote (ResumeTask example_task)] Continuing
      ltac:(vm_compute; reflexivity)) false (restore example_task Local [9] 2 false (new [5])).2) as (p' & E & _ & _ & Hw).
    + cbn. lia.
    + reflexivity.
    + vm_compute. reflexivity.
    + eapply session_cons; [apply (GContinue example_task _ Broken); auto|constructor].
    + exists p'. split; [exact E|]. apply Hw. by intros [|].
Defined.

Lemma two_ends_agree_witness :
  let es := [Restoring example_task Local [9] 2 true;
             Observing [5] Remote (mk_frame 1 (ResumeTask example_task));
             Observing [5] Local (mk_frame 1 (Error example_task Busy))] in
  Forall (from [5]) es /\
  tasks (run [6] (map (mirror_event [6]) es)).2 = mirror <$> tasks (run [5] es).2 /\
  state_of (run [5] es).2 example_task = Some Failed.
Proof.
  intros es. assert (Forall (from [5]) es) as Hf by (repeat constructor).
  split; [exact Hf|]. split; [|reflexivity]. exact (proj2 (two_ends_agree [6] [5] es Hf)).
Defined.

Definition example_frame : Frame := mk_frame 3 (RequestChunk [48; 49] 1).

Lemma task_frame_roundtrip_witness :
  exists w', @write _ example_postcard (mk_writer [] None) example_frame = Ok w' /\
    fst (@read _ example_postcard [Data (take 3 (out w')); Data (drop 3 (out w'))]) = Ok example_frame.
Proof.
  eexists. split; [vm_compute; reflexivity|].
  refine (proj1 (proj2 (@task_frame_roundtrip example_blake3 example_postcard example_laws example_frame
    (mk_writer [] None) _ _ _ _ _ _))).
  - vm_compute. reflexivity.
  - repeat constructor.
  - vm_compute. reflexivity.
  - apply Forall_forall. intros b Hb. revert b Hb. apply Forall_forall. apply (bool_decide_unpack _). vm_compute. exact I.
Defined.

Lemma speed_test_exclusive_witness :
  let l := mk_lease example_task [1] Upload 30 (repeat 4 16) in
  let '(log, a) := speed_run [1] [2] [ORequest [1] example_task Upload 30 0 (repeat 4 16);
                                      ORequest [2] example_task Upload 60 0 (repeat 4 16);
                                      OClaim [1] l; OClaim [1] l; OFinish [2] l] in
  log = [Activated l; Claimed l; Ended l] /\ foldl one_at_a_time (Some None) log = Some (current a).
Proof.
  cbv zeta. match goal with |- context [speed_run [1] [2] ?o] => set (os := o) end.
  pose proof (speed_test_exclusive [1] [2] os ltac:(by intros [=])) as Hs.
  assert (exists a, speed_run [1] [2] os =
    ([Activated (mk_lease example_task [1] Upload 30 (repeat 4 16));
      Claimed (mk_lease example_task [1] Upload 30 (repeat 4 16));
      Ended (mk_lease example_task [1] Upload 30 (repeat 4 16))], a)) as [a Ea] by (eexists; vm_compute; reflexivity).
  rewrite Ea in *. split; [reflexivity|]. exact (proj1 Hs).
Defined.

End TaskSession.
