(* ===== verification/Hexadecimal.v ===== *)
(** * A concrete hexadecimal codec

    The [hex] crate is third-party code: [Hex], [HexDecode] and their documented
    laws are parameters of the model.  Here is one codec that satisfies them. *)
From Stdlib Require Import ZArith Lia.
From stdpp Require Import prelude gmap strings.
From S2P Require Import Prelude Identity.

#[local] Open Scope Z_scope.

(** [0-9a-f]. *)
Definition is_lower_hex (b : Z) : bool := is_ascii_digit b || ((97 <=? b) && (b <=? 102)).

(** Documented: [hex::encode] writes lower-case digits. *)
Class HexLower `{Hex} : Prop :=
  hex_encode_lower : forall bs, Forall (fun c => is_lower_hex c = true) (hex_encode bs).

Module Hexadecimal.

Definition digit (n : Z) : Z := let m := n mod 16 in if m <? 10 then 48 + m else 87 + m.

Definition value (c : Z) : option Z :=
  if (48 <=? c) && (c <=? 57) then Some (c - 48)
  else if (97 <=? c) && (c <=? 102) then Some (c - 87)
  else if (65 <=? c) && (c <=? 70) then Some (c - 55)
  else None.

Definition encode (bs : list Z) : list Z := concat (map (fun b => [digit (b / 16); digit b]) bs).

Fixpoint decode (text : list Z) : option (list Z) :=
  match text with
  | [] => Some []
  | c :: d :: rest => hi ← value c; lo ← value d; bs ← decode rest; Some (hi * 16 + lo :: bs)
  | _ => None
  end.

Lemma digit_cases n : exists m, 0 <= m < 16 /\ n mod 16 = m /\ digit n = if m <? 10 then 48 + m else 87 + m.
Proof. exists (n mod 16). split; [by apply Z.mod_pos_bound|done]. Qed.

Lemma value_digit n : value (digit n) = Some (n mod 16).
Proof.
  destruct (digit_cases n) as (m & Hm & -> & ->). unfold value.
  destruct (Z.ltb_spec m 10);
    repeat match goal with |- context [(?a <=? ?b)] => destruct (Z.leb_spec a b) end; cbn; try lia; f_equal; lia.
Qed.

Lemma digit_lower n : is_lower_hex (digit n) = true.
Proof.
  destruct (digit_cases n) as (m & Hm & _ & ->). unfold is_lower_hex, is_ascii_digit.
  destruct (Z.ltb_spec m 10);
    repeat match goal with |- context [(?a <=? ?b)] => destruct (Z.leb_spec a b) end; cbn; try lia; done.
Qed.

Lemma lower_not_space c : is_lower_hex c = true -> is_whitespace c = false.
Proof.
  unfold is_lower_hex, is_ascii_digit. intros [Hc|Hc]%orb_true_iff;
    apply andb_true_iff in Hc as [H1%Z.leb_le H2%Z.leb_le]; unfold is_whitespace;
    repeat match goal with
    | |- context [(?a <=? ?b)] => destruct (Z.leb_spec a b); try lia
    | |- context [(?a =? ?b)] => destruct (Z.eqb_spec a b); try lia
    end; cbn; try done; by rewrite ?bool_decide_false by (set_unfold; lia).
Qed.

Lemma encode_lower bs : Forall (fun c => is_lower_hex c = true) (encode bs).
Proof.
  induction bs as [|b bs IH]; [by constructor|]. unfold encode in *. cbn. by repeat constructor; try apply digit_lower.
Qed.

Lemma hexadecimal_roundtrip bs : are_bytes bs -> decode (encode bs) = Some bs.
Proof.
  induction 1 as [|b bs Hb _ IH]; [done|]. unfold encode in *. cbn. rewrite !value_digit. cbn. rewrite IH. cbn.
  unfold in_range, U8_MAX in Hb. do 2 f_equal.
  rewrite (Z.mod_small (b / 16)) by (split; [apply Z.div_pos|apply Z.div_lt_upper_bound]; lia).
  pose proof (Z.div_mod b 16). lia.
Qed.

#[export] Instance hex : Hex := encode.
#[export] Instance hex_decoder : HexDecode := decode.

#[export] Instance laws : HexLaws.
Proof.
  split.
  - exact hexadecimal_roundtrip.
  - intros bs. unfold hex_encode, hex, encode. induction bs as [|b bs IH]; [done|]. cbn in *. lia.
  - intros bs. eapply Forall_impl; [apply encode_lower|]. apply lower_not_space.
Qed.

#[export] Instance lower : HexLower := encode_lower.

End Hexadecimal.
