(* ===== verification/Rules.v ===== *)
(** * Forwarding rules (src/tunnel/rules.rs)

    The rule files of the tunnel and the policy a service runs under.  Reading the JSON
    text is serde's; a [HashSet] is a set and its order the one of [elements]. *)
From Stdlib Require Import ZArith Lia.
From stdpp Require Import prelude gmap strings.
From S2P Require Import Prelude Message RelativePath Identity Addr NodeWire Hexadecimal.

#[local] Open Scope Z_scope.

Module Rules.
Import Addr.

Definition RULES_SCHEMA_VERSION : Z := 1.

Record AllowedForwardTarget : Type := mk_target {
  allowed_peers : list (list Z);
  a_id : list Z;
  a_name : list Z;
  a_target : SocketAddr;
  a_enabled : bool;
}.

Record TunnelRule : Type := mk_rule {
  t_id : list Z;
  t_name : list Z;
  peer_node_id : list Z;
  listen : SocketAddr;
  t_target : SocketAddr;
  t_enabled : bool;
  auto_start : bool;
}.

Record ServiceConfig : Type := mk_service { s_version : Z; forward_targets : list AllowedForwardTarget }.
Record ClientConfig : Type := mk_client { c_version : Z; rules : list TunnelRule }.

Definition default_service : ServiceConfig := mk_service RULES_SCHEMA_VERSION [].
Definition default_client : ClientConfig := mk_client RULES_SCHEMA_VERSION [].

Definition validate_rule_id (text : list Z) : result unit := fail_if (negb (NodeWire.plain_id text)) (Protocol "rule id").

Definition validate_rule_name (text : list Z) : result unit :=
  let? _ := fail_if (bool_decide (trim text = []) || (128 <? Z.of_nat (length text))) (Protocol "rule name length") in
  fail_if (existsb is_control text) (Protocol "rule name characters").

Definition validate_target (target : SocketAddr) : result unit :=
  fail_if ((port target =? 0) || is_unspecified (ip target) || is_multicast (ip target)) (Protocol "target address").

(** [ids.insert(x)] must find something new. *)
Definition insert_new {A : Type} `{Countable A} (x : A) (s : gset A) (e : error) : result (gset A) :=
  if bool_decide (x ∈ s) then Err e else Ok ({[x]} ∪ s).

Section WithHex.
Context `{HexDecode}.

Definition check_peer (seen : gset NodeId) (text : list Z) : result (gset NodeId) :=
  match Identity.from_hex text with
  | Ok peer => insert_new peer seen (Protocol "repeated device")
  | Err _ => Err (Protocol "invalid device id")
  | Panic => Panic
  end.

Definition check_forward (seen : gset (list Z) * gset SocketAddr) (entry : AllowedForwardTarget) :
    result (gset (list Z) * gset SocketAddr) :=
  let '(ids, enabled_targets) := seen in
  let? _ := validate_rule_id (a_id entry) in
  let? _ := validate_rule_name (a_name entry) in
  let? _ := validate_target (a_target entry) in
  let? _ := fold_outcome check_peer ∅ (allowed_peers entry) in
  let? ids := insert_new (a_id entry) ids (Protocol "repeated rule id") in
  if a_enabled entry then
    let? enabled_targets := insert_new (a_target entry) enabled_targets (Protocol "repeated target") in
    Ok (ids, enabled_targets)
  else Ok (ids, enabled_targets).

Definition validate_forward_targets (targets : list AllowedForwardTarget) : result unit :=
  let? _ := fold_outcome check_forward (∅, ∅) targets in Ok tt.

Definition check_rule (seen : gset (list Z) * gset SocketAddr) (rule : TunnelRule) : result (gset (list Z) * gset SocketAddr) :=
  let '(ids, listens) := seen in
  let? _ := validate_rule_id (t_id rule) in
  let? _ := validate_rule_name (t_name rule) in
  let? _ := match Identity.from_hex (peer_node_id rule) with
            | Ok _ => Ok tt | Err _ => Err (Protocol "invalid node id") | Panic => Panic end in
  let? _ := fail_if (negb (is_loopback (ip (listen rule))) || (port (listen rule) =? 0)) (Protocol "listen address") in
  let? _ := validate_target (t_target rule) in
  let? ids := insert_new (t_id rule) ids (Protocol "repeated rule id") in
  if t_enabled rule then
    let? listens := insert_new (listen rule) listens (Protocol "repeated listen address") in
    Ok (ids, listens)
  else Ok (ids, listens).

Definition validate_client_rules (l : list TunnelRule) : result unit :=
  let? _ := fold_outcome check_rule (∅, ∅) l in Ok tt.

Definition validate_service (c : ServiceConfig) : result unit :=
  let? _ := fail_if (negb (s_version c =? RULES_SCHEMA_VERSION)) (Protocol "version of the service file") in
  validate_forward_targets (forward_targets c).

Definition validate_client (c : ClientConfig) : result unit :=
  let? _ := fail_if (negb (c_version c =? RULES_SCHEMA_VERSION)) (Protocol "version of the client file") in
  validate_client_rules (rules c).

(** The node ids among texts, each at its first place. *)
Definition push_peer (peers : list NodeId) (text : list Z) : list NodeId :=
  match Identity.from_hex text with
  | Ok peer => if bool_decide (peer ∈ peers) then peers else peers ++ [peer]
  | _ => peers
  end.

Definition service_peers (c : ServiceConfig) : list NodeId :=
  fold_left (fun peers entry => fold_left push_peer (allowed_peers entry) peers)
    (List.filter a_enabled (forward_targets c)) [].

Definition service_single_peer (c : ServiceConfig) : result NodeId :=
  match service_peers c with
  | [peer] => Ok peer
  | [] => Err (Protocol "no enabled target")
  | _ => Err (Protocol "more than one device")
  end.

Definition client_peers (c : ClientConfig) : list NodeId :=
  fold_left (fun peers rule => push_peer peers (peer_node_id rule)) (List.filter t_enabled (rules c)) [].

Definition client_single_peer (c : ClientConfig) : result NodeId :=
  let? _ := validate_client c in
  match client_peers c with
  | [peer] => Ok peer
  | [] => Err (Protocol "no enabled rule")
  | _ => Err (Protocol "more than one device")
  end.

Definition enabled_rules (c : ClientConfig) : list TunnelRule := List.filter t_enabled (rules c).

(** ** The policy of a service *)

Record CompiledTarget : Type := mk_compiled { c_target : SocketAddr; c_peers : gset NodeId }.
Record CompiledPolicy : Type := mk_policy { targets : list CompiledTarget; peers : list NodeId }.

Definition compile_target (entry : AllowedForwardTarget) : CompiledTarget :=
  mk_compiled (a_target entry)
    (list_to_set (flat_map (fun text => match Identity.from_hex text with Ok peer => [peer] | _ => [] end) (allowed_peers entry))).

Definition add_peers (known : list NodeId) (t : CompiledTarget) : list NodeId :=
  fold_left (fun known peer => if bool_decide (peer ∈ known) then known else known ++ [peer]) (elements (c_peers t)) known.

Definition compile (c : ServiceConfig) : CompiledPolicy :=
  let ts := map compile_target (List.filter a_enabled (forward_targets c)) in
  mk_policy ts (fold_left add_peers ts []).

(** The lock: [None] when a holder panicked. *)
Definition ServePolicy : Type := option CompiledPolicy.

Definition new_policy (c : ServiceConfig) : result ServePolicy :=
  let? _ := validate_service c in Ok (Some (compile c)).

(** [prepare_replace] and [commit]. *)
Definition replace (c : ServiceConfig) (p : ServePolicy) : result unit * ServePolicy :=
  match validate_service c with
  | Ok _ => match p with
            | Some _ => (Ok tt, Some (compile c))
            | None => (Err (Protocol "policy lock damaged"), p)
            end
  | Err e => (Err e, p)
  | Panic => (Panic, p)
  end.

Definition peer_allowed (peer : NodeId) (p : ServePolicy) : bool :=
  match p with Some p => bool_decide (peer ∈ peers p) | None => false end.
Definition target_allowed (peer : NodeId) (target : SocketAddr) (p : ServePolicy) : bool :=
  match p with
  | Some p => existsb (fun t => bool_decide (c_target t = target) && bool_decide (peer ∈ c_peers t)) (targets p)
  | None => false
  end.
Definition targets_for (peer : NodeId) (p : ServePolicy) : list SocketAddr :=
  match p with
  | Some p => map c_target (List.filter (fun t => bool_decide (peer ∈ c_peers t)) (targets p))
  | None => []
  end.
Definition policy_peers (p : ServePolicy) : list NodeId := match p with Some p => peers p | None => [] end.

(** ** What validation accepts *)

Lemma insert_new_Ok {A} `{Countable A} (x : A) s (e : error) s' : insert_new x s e = Ok s' <-> x ∉ s /\ s' = {[x]} ∪ s.
Proof. unfold insert_new. case_bool_decide; naive_solver. Qed.

Definition name_ok (text : list Z) : Prop :=
  trim text <> [] /\ Z.of_nat (length text) <= 128 /\ Forall (fun c => is_control c = false) text.
Definition target_ok (a : SocketAddr) : Prop := port a <> 0 /\ is_unspecified (ip a) = false /\ is_multicast (ip a) = false.
(** The texts are those of different devices. *)
Definition devices_ok (texts : list (list Z)) : Prop :=
  exists peers, Forall2 (fun text peer => Identity.from_hex text = Ok peer) texts peers /\ NoDup peers.

Definition entry_ok (e : AllowedForwardTarget) : Prop :=
  NodeWire.plain_id (a_id e) = true /\ name_ok (a_name e) /\ target_ok (a_target e) /\ devices_ok (allowed_peers e).
Definition service_ok (c : ServiceConfig) : Prop :=
  s_version c = RULES_SCHEMA_VERSION /\ Forall entry_ok (forward_targets c) /\ NoDup (map a_id (forward_targets c)) /\
  NoDup (map a_target (List.filter a_enabled (forward_targets c))).

Definition rule_ok (r : TunnelRule) : Prop :=
  NodeWire.plain_id (t_id r) = true /\ name_ok (t_name r) /\ is_ok (Identity.from_hex (peer_node_id r)) = true /\
  is_loopback (ip (listen r)) = true /\ port (listen r) <> 0 /\ target_ok (t_target r).
Definition client_ok (c : ClientConfig) : Prop :=
  c_version c = RULES_SCHEMA_VERSION /\ Forall rule_ok (rules c) /\ NoDup (map t_id (rules c)) /\
  NoDup (map listen (List.filter t_enabled (rules c))).

Lemma validate_rule_id_Ok text u : validate_rule_id text = Ok u <-> NodeWire.plain_id text = true.
Proof. unfold validate_rule_id. rewrite fail_if_Ok, negb_false_iff. done. Qed.

Lemma validate_rule_name_Ok text u : validate_rule_name text = Ok u <-> name_ok text.
Proof.
  unfold validate_rule_name, name_ok. split.
  - intros (u' & Ha%fail_if_Ok & Hb%fail_if_Ok)%obind_Ok. rewrite orb_false_iff, bool_decide_eq_false, Z.ltb_ge in Ha.
    apply RelativePath.existsb_false in Hb. naive_solver.
  - intros (Ha & Hb & Hc). rewrite (bool_decide_eq_false_2 _ Ha), (proj2 (Z.ltb_ge _ _) Hb), (proj2 (RelativePath.existsb_false _ _) Hc). by destruct u.
Qed.

Lemma validate_target_Ok a u : validate_target a = Ok u <-> target_ok a.
Proof. unfold validate_target, target_ok. rewrite fail_if_Ok, !orb_false_iff, Z.eqb_neq. tauto. Qed.

Lemma from_hex_cases text : (exists p, Identity.from_hex text = Ok p) \/ exists e, Identity.from_hex text = Err e.
Proof. unfold Identity.from_hex. destruct (hex_decode text); [|eauto]. case_bool_decide; eauto. Qed.

Lemma fold_check_peers seen texts : (exists s, fold_outcome check_peer seen texts = Ok s) <->
  exists ps, Forall2 (fun text peer => Identity.from_hex text = Ok peer) texts ps /\ NoDup ps /\ Forall (fun p => p ∉ seen) ps.
Proof.
  revert seen. induction texts as [|text texts IH]; intros seen; cbn [fold_outcome].
  { split; [intros _; exists []; repeat constructor|eauto]. }
  unfold check_peer at 1. destruct (from_hex_cases text) as [[p E]|[e E]]; rewrite E; cbn [obind].
  2: { split; [by intros [s ?]|]. intros (ps & Hf & _). inversion Hf. congruence. }
  split.
  - intros [s Hs]. apply obind_Ok in Hs as (s1 & (Hp & ->)%insert_new_Ok & Hs). destruct (proj1 (IH _) (ex_intro _ _ Hs)) as (ps & Hf & Hn & Hd).
    exists (p :: ps). split; [by constructor|]. split.
    + constructor; [|done]. intros Hin. rewrite Forall_forall in Hd. specialize (Hd p Hin). set_solver.
    + constructor; [done|]. eapply Forall_impl; [exact Hd|]. cbn. set_solver.
  - intros (ps & Hf & Hn & Hd). apply Forall2_cons_inv_l in Hf as (p' & ps' & Ep & Hf & ->). assert (p' = p) as -> by congruence.
    apply NoDup_cons in Hn as [Hp Hn]. apply Forall_cons in Hd as [Hs Hd].
    rewrite (proj2 (insert_new_Ok p seen (Protocol "repeated device") _) (conj Hs eq_refl)). cbn [obind]. apply IH. exists ps'. split; [done|]. split; [done|].
    rewrite Forall_forall in *. intros x Hx. specialize (Hd x Hx). assert (x <> p) by congruence. set_solver.
Qed.

Lemma devices_fold texts : (exists s, fold_outcome check_peer ∅ texts = Ok s) <-> devices_ok texts.
Proof.
  rewrite fold_check_peers. unfold devices_ok. split; [naive_solver|]. intros (ps & Hf & Hn). exists ps. split; [done|]. split; [done|].
  apply Forall_forall. intros x _. apply not_elem_of_empty.
Qed.

(** A loop that collects identifiers, and addresses of what is enabled. *)
Section Loop.
Context {E : Type} (ident : E -> list Z) (addr : E -> SocketAddr) (on : E -> bool) (ok : E -> Prop).
Context (check : gset (list Z) * gset SocketAddr -> E -> result (gset (list Z) * gset SocketAddr)).
Context (check_Ok : forall ids addrs e s, check (ids, addrs) e = Ok s <->
  ok e /\ ident e ∉ ids /\ (on e = true -> addr e ∉ addrs) /\ s = ({[ident e]} ∪ ids, if on e then {[addr e]} ∪ addrs else addrs)).

Lemma loop_Ok ids addrs l : (exists s, fold_outcome check (ids, addrs) l = Ok s) <->
  Forall ok l /\ NoDup (map ident l) /\ NoDup (map addr (List.filter on l)) /\
  Forall (fun e => ident e ∉ ids) l /\ Forall (fun e => addr e ∉ addrs) (List.filter on l).
Proof.
  revert ids addrs. induction l as [|e l IH]; intros ids addrs; cbn [fold_outcome map List.filter].
  { split; [intros _; repeat split; constructor|eauto]. }
  split.
  - intros [s Hs]. apply obind_Ok in Hs as (s1 & (Hok & Hi & Ha & ->)%check_Ok & Hs).
    destruct (proj1 (IH _ _) (ex_intro _ _ Hs)) as (H1 & H2 & H3 & H4 & H5). split; [by constructor|]. split; [|split; [|split]].
    + constructor; [|done]. intros (x & Ex & Hx)%list_elem_of_fmap. rewrite Forall_forall in H4. apply (H4 x Hx). rewrite <- Ex. set_solver.
    + destruct (on e); [|done]. cbn. constructor; [|done]. intros (x & Ex & Hx)%list_elem_of_fmap. rewrite Forall_forall in H5.
      apply (H5 x Hx). rewrite <- Ex. set_solver.
    + constructor; [done|]. eapply Forall_impl; [exact H4|]. cbn. set_solver.
    + destruct (on e); [|done]. constructor; [by apply Ha|]. eapply Forall_impl; [exact H5|]. cbn. set_solver.
  - intros (H1 & H2 & H3 & H4 & H5). apply Forall_cons in H1 as [Hok H1]. apply NoDup_cons in H2 as [Hn H2]. apply Forall_cons in H4 as [Hi H4].
    assert (on e = true -> addr e ∉ addrs) as Ha by (intros Hon; rewrite Hon in H5; by apply Forall_cons in H5 as [? _]).
    rewrite (proj2 (check_Ok ids addrs e _) (conj Hok (conj Hi (conj Ha eq_refl)))). cbn [obind]. apply IH.
    split; [done|]. split; [done|]. split; [|split].
    + destruct (on e); [|done]. cbn in H3. by apply NoDup_cons in H3 as [_ ?].
    + rewrite Forall_forall in *. intros x Hx. specialize (H4 x Hx). assert (ident x <> ident e); [|set_solver]. intros Ex. apply Hn.
      rewrite <- Ex. apply list_elem_of_fmap. by exists x.
    + destruct (on e); [|done]. apply Forall_cons in H5 as [_ H5]. cbn in H3. apply NoDup_cons in H3 as [Hn' _].
      rewrite Forall_forall in *. intros x Hx. specialize (H5 x Hx). assert (addr x <> addr e); [|set_solver]. intros Ex. apply Hn'.
      rewrite <- Ex. apply list_elem_of_fmap. by exists x.
Qed.

Lemma loop_unit l : (let? _ := fold_outcome check (∅, ∅) l in Ok tt) = Ok tt <->
  Forall ok l /\ NoDup (map ident l) /\ NoDup (map addr (List.filter on l)).
Proof.
  pose proof (loop_Ok ∅ ∅ l) as Hl. split.
  - intros (s & Hs & _)%obind_Ok. destruct (proj1 Hl (ex_intro _ s Hs)) as (? & ? & ? & _). done.
  - intros (H1 & H2 & H3). destruct (proj2 Hl) as [s ->]; [|done]. split; [done|]. split; [done|]. split; [done|].
    split; apply Forall_forall; intros x _; apply not_elem_of_empty.
Qed.
End Loop.

Lemma check_forward_Ok ids addrs e s : check_forward (ids, addrs) e = Ok s <->
  entry_ok e /\ a_id e ∉ ids /\ (a_enabled e = true -> a_target e ∉ addrs) /\
  s = ({[a_id e]} ∪ ids, if a_enabled e then {[a_target e]} ∪ addrs else addrs).
Proof.
  unfold check_forward, entry_ok. rewrite <- devices_fold, <- (validate_rule_id_Ok _ tt), <- (validate_rule_name_Ok _ tt), <- (validate_target_Ok _ tt).
  destruct (validate_rule_id (a_id e)) as [[]|x|]; cbn [obind]; [|naive_solver..].
  destruct (validate_rule_name (a_name e)) as [[]|x|]; cbn [obind]; [|naive_solver..].
  destruct (validate_target (a_target e)) as [[]|x|]; cbn [obind]; [|naive_solver..].
  destruct (fold_outcome check_peer ∅ (allowed_peers e)) as [ps|x|]; cbn [obind]; [|naive_solver..].
  unfold insert_new. case_bool_decide; cbn [obind]; [naive_solver|]. destruct (a_enabled e); [case_bool_decide; cbn [obind]|]; naive_solver.
Qed.

Lemma check_rule_Ok ids addrs r s : check_rule (ids, addrs) r = Ok s <->
  rule_ok r /\ t_id r ∉ ids /\ (t_enabled r = true -> listen r ∉ addrs) /\
  s = ({[t_id r]} ∪ ids, if t_enabled r then {[listen r]} ∪ addrs else addrs).
Proof.
  unfold check_rule, rule_ok. rewrite <- (validate_rule_id_Ok _ tt), <- (validate_rule_name_Ok _ tt), <- (validate_target_Ok _ tt).
  destruct (validate_rule_id (t_id r)) as [[]|x|]; cbn [obind]; [|naive_solver..].
  destruct (validate_rule_name (t_name r)) as [[]|x|]; cbn [obind]; [|naive_solver..].
  destruct (Identity.from_hex (peer_node_id r)) as [p|x|]; cbn [obind is_ok]; [|naive_solver..].
  destruct (is_loopback (ip (listen r))); cbn [negb orb fail_if obind]; [|naive_solver].
  destruct (Z.eqb_spec (port (listen r)) 0); cbn [fail_if obind]; [naive_solver|].
  destruct (validate_target (t_target r)) as [[]|x|]; cbn [obind]; [|naive_solver..].
  unfold insert_new. case_bool_decide; cbn [obind]; [naive_solver|]. destruct (t_enabled r); [case_bool_decide; cbn [obind]|]; naive_solver.
Qed.

(** A file is accepted exactly when it is well formed. *)
Theorem rules_validate_exact (s : ServiceConfig) (c : ClientConfig) :
  (validate_service s = Ok tt <-> service_ok s) /\ (validate_client c = Ok tt <-> client_ok c).
Proof.
  unfold validate_service, validate_client, service_ok, client_ok. split.
  - destruct (Z.eqb_spec (s_version s) RULES_SCHEMA_VERSION); cbn [negb fail_if obind]; [|naive_solver].
    unfold validate_forward_targets. rewrite (loop_unit a_id a_target a_enabled entry_ok check_forward check_forward_Ok). tauto.
  - destruct (Z.eqb_spec (c_version c) RULES_SCHEMA_VERSION); cbn [negb fail_if obind]; [|naive_solver].
    unfold validate_client_rules. rewrite (loop_unit t_id listen t_enabled rule_ok check_rule check_rule_Ok). tauto.
Qed.

(** ** What a policy grants *)

(** An enabled entry names the target and the device. *)
Definition granted (c : ServiceConfig) (peer : NodeId) (target : SocketAddr) : Prop :=
  exists entry text, entry ∈ forward_targets c /\ a_enabled entry = true /\ a_target entry = target /\
    text ∈ allowed_peers entry /\ Identity.from_hex text = Ok peer.

Lemma elem_of_compiled entry peer : peer ∈ c_peers (compile_target entry) <->
  exists text, text ∈ allowed_peers entry /\ Identity.from_hex text = Ok peer.
Proof.
  cbn. rewrite elem_of_list_to_set, list_elem_of_In, in_flat_map. split.
  - intros (text & Hin & Hp). exists text. rewrite list_elem_of_In. split; [done|]. destruct (Identity.from_hex text); cbn in Hp; naive_solver.
  - intros (text & Hin & E). exists text. rewrite <- list_elem_of_In, E. split; [done|by left].
Qed.

Lemma elem_of_targets c t : t ∈ targets (compile c) <-> exists entry, entry ∈ forward_targets c /\ a_enabled entry = true /\ t = compile_target entry.
Proof.
  cbn. rewrite list_elem_of_fmap. setoid_rewrite list_elem_of_In at 1. setoid_rewrite filter_In. setoid_rewrite <- list_elem_of_In. naive_solver.
Qed.

Lemma elem_of_add_peers known t peer : peer ∈ add_peers known t <-> peer ∈ known \/ peer ∈ c_peers t.
Proof.
  unfold add_peers. rewrite <- (elem_of_elements (c_peers t)). generalize (elements (c_peers t)). intros l. revert known.
  induction l as [|x l IH]; intros known; cbn; [set_solver|]. rewrite IH. case_bool_decide; set_solver.
Qed.

Lemma elem_of_policy_peers c peer : peer ∈ peers (compile c) <-> exists target, granted c peer target.
Proof.
  assert (forall ts known, peer ∈ fold_left add_peers ts known <-> peer ∈ known \/ exists t, t ∈ ts /\ peer ∈ c_peers t) as Hf.
  { induction ts as [|t ts IH]; intros known; cbn; [set_solver|]. rewrite IH, elem_of_add_peers. set_solver. }
  unfold compile. cbn [peers]. rewrite Hf. split.
  - intros [Hn|(t & Ht & Hp)]; [by apply not_elem_of_nil in Hn|]. change (t ∈ targets (compile c)) in Ht.
    apply elem_of_targets in Ht as (e & He & Hon & ->). apply elem_of_compiled in Hp as (text & Hin & E). exists (a_target e), e, text. done.
  - intros (target & e & text & He & Hon & _ & Hin & E). right. exists (compile_target e). split; [|apply elem_of_compiled; by exists text].
    change (compile_target e ∈ targets (compile c)). apply elem_of_targets. by exists e.
Qed.

Lemma target_allowed_granted c peer target : target_allowed peer target (Some (compile c)) = true <-> granted c peer target.
Proof.
  unfold target_allowed. rewrite existsb_exists. split.
  - intros (t & Ht & [E Hp]%andb_true_iff). apply list_elem_of_In, elem_of_targets in Ht as (e & He & Hon & ->).
    apply bool_decide_eq_true in E, Hp. apply elem_of_compiled in Hp as (text & Hin & Eh). exists e, text. done.
  - intros (e & text & He & Hon & Et & Hin & E). exists (compile_target e). rewrite <- list_elem_of_In. split; [apply elem_of_targets; by exists e|].
    apply andb_true_iff. split; apply bool_decide_eq_true; [done|apply elem_of_compiled; by exists text].
Qed.

Lemma targets_for_granted c peer target : target ∈ targets_for peer (Some (compile c)) <-> granted c peer target.
Proof.
  rewrite <- target_allowed_granted. unfold targets_for, target_allowed. rewrite existsb_exists, list_elem_of_fmap.
  setoid_rewrite list_elem_of_In. setoid_rewrite filter_In. split.
  - intros (t & -> & Ht & Hp). exists t. split; [done|]. rewrite Hp, bool_decide_eq_true_2 by done. done.
  - intros (t & Ht & [E Hp]%andb_true_iff). apply bool_decide_eq_true in E as <-. by exists t.
Qed.

Lemma targets_for_NoDup c peer : service_ok c -> NoDup (targets_for peer (Some (compile c))).
Proof.
  intros (_ & _ & _ & Hn). unfold targets_for. cbn [targets compile]. induction (List.filter a_enabled (forward_targets c)) as [|e l IH]; cbn; [constructor|].
  cbn in Hn. apply NoDup_cons in Hn as [Hx Hn]. destruct (bool_decide _); cbn; [|by apply IH]. constructor; [|by apply IH].
  intros (t & Et & Ht)%list_elem_of_fmap. rewrite list_elem_of_In, filter_In, in_map_iff in Ht. destruct Ht as ((e' & <- & Hin) & _).
  apply Hx. cbn in Et. rewrite Et. apply list_elem_of_fmap. exists e'. by rewrite list_elem_of_In.
Qed.

(** Files that are read again, one after the other. *)
Definition reload (p : ServePolicy) (cs : list ServiceConfig) : ServePolicy := fold_left (fun p c => (replace c p).2) cs p.

Lemma reload_last c0 cs : exists before c after, c0 :: cs = before ++ c :: after /\ (before = [] \/ service_ok c) /\
  Forall (fun c => ~ service_ok c) after /\ reload (Some (compile c0)) cs = Some (compile c).
Proof.
  induction cs as [|c cs (before & last & after & E & Hb & Ha & Hr)] using rev_ind; [exists [], c0, []; repeat split; [by left|constructor]|].
  unfold reload in *. rewrite fold_left_app. cbn [fold_left]. rewrite Hr. unfold replace.
  pose proof (proj1 (rules_validate_exact c default_client)) as Hv.
  destruct (validate_service c) as [[]|e|]; cbn [snd].
  - exists (c0 :: cs), c, []. split; [done|]. split; [right; by apply Hv|]. split; [constructor|done].
  - exists before, last, (after ++ [c]). split; [rewrite app_comm_cons, E, <- app_assoc; done|]. split; [done|]. split; [|done].
    apply Forall_app. split; [done|]. constructor; [|constructor]. intros Hok. by apply Hv in Hok.
  - exists before, last, (after ++ [c]). split; [rewrite app_comm_cons, E, <- app_assoc; done|]. split; [done|]. split; [|done].
    apply Forall_app. split; [done|]. constructor; [|constructor]. intros Hok. by apply Hv in Hok.
Qed.

(** A service that starts with a valid file and reads files again always runs under
    the last valid one: a device reaches a target exactly when an enabled entry of that
    file names both, and the lists that are shown say the same. *)
Theorem policy_of_last_valid (c0 : ServiceConfig) (cs : list ServiceConfig) (p : ServePolicy) : new_policy c0 = Ok p ->
  exists before c after, c0 :: cs = before ++ c :: after /\ service_ok c /\ Forall (fun c => ~ service_ok c) after /\
  let p' := reload p cs in
  (forall peer target, target_allowed peer target p' = true <-> granted c peer target) /\
  (forall peer target, target ∈ targets_for peer p' <-> granted c peer target) /\
  (forall peer, NoDup (targets_for peer p')) /\
  (forall peer, peer_allowed peer p' = true <-> exists target, granted c peer target) /\
  (forall peer, peer ∈ policy_peers p' <-> peer_allowed peer p' = true).
Proof.
  unfold new_policy. intros ([] & Hv%(proj1 (rules_validate_exact c0 default_client)) & [= <-])%obind_Ok.
  destruct (reload_last c0 cs) as (before & c & after & E & Hb & Ha & Hr). exists before, c, after. split; [done|].
  assert (service_ok c) as Hok by (destruct Hb as [->|]; [cbn in E; by injection E as <- _|done]).
  split; [done|]. split; [done|]. cbv zeta. rewrite Hr. split; [intros; apply target_allowed_granted|].
  split; [intros; apply targets_for_granted|]. split; [intros; by apply targets_for_NoDup|].
  unfold peer_allowed, policy_peers. setoid_rewrite bool_decide_eq_true. split; [intros; apply elem_of_policy_peers|done].
Qed.

(** ** The device of a client *)

Lemma elem_of_push peers text p : p ∈ push_peer peers text <-> p ∈ peers \/ Identity.from_hex text = Ok p.
Proof.
  unfold push_peer. destruct (Identity.from_hex text) as [q| |]; [|naive_solver..]. case_bool_decide; [naive_solver|].
  rewrite elem_of_app, list_elem_of_singleton. naive_solver.
Qed.

Lemma push_NoDup peers text : NoDup peers -> NoDup (push_peer peers text).
Proof.
  intros Hn. unfold push_peer. destruct (Identity.from_hex text) as [q| |]; [|done..]. case_bool_decide as Hq; [done|].
  apply NoDup_app. split; [done|]. split; [set_solver|]. apply NoDup_singleton.
Qed.

Lemma client_peers_spec c : NoDup (client_peers c) /\ forall p, p ∈ client_peers c <-> exists rule, rule ∈ enabled_rules c /\ Identity.from_hex (peer_node_id rule) = Ok p.
Proof.
  unfold client_peers, enabled_rules. generalize (List.filter t_enabled (rules c)). intros l.
  assert (forall ps, NoDup ps -> NoDup (fold_left (fun peers rule => push_peer peers (peer_node_id rule)) l ps) /\
    forall p, p ∈ fold_left (fun peers rule => push_peer peers (peer_node_id rule)) l ps <->
      p ∈ ps \/ exists rule, rule ∈ l /\ Identity.from_hex (peer_node_id rule) = Ok p) as Hl.
  { induction l as [|r l IH]; intros ps Hn; cbn; [split; [done|set_solver]|]. destruct (IH (push_peer ps (peer_node_id r)) (push_NoDup _ _ Hn)) as [H1 H2].
    split; [done|]. intros p. rewrite H2, elem_of_push. set_solver. }
  destruct (Hl [] ltac:(constructor)) as [H1 H2]. split; [done|]. intros p. rewrite H2. set_solver.
Qed.

Lemma singleton_list {A} (l : list A) x : NoDup l -> (l = [x] <-> (forall y, y ∈ l <-> y = x)).
Proof.
  intros Hn. split; [intros ->; set_solver|]. intros Hl. destruct l as [|a [|b l]].
  - by pose proof (proj2 (Hl x) eq_refl) as Hx%not_elem_of_nil.
  - f_equal. apply Hl. by left.
  - assert (a = x) as -> by (apply Hl; by left). assert (b = x) as -> by (apply Hl; right; by left).
    apply NoDup_cons in Hn as [Hx _]. exfalso. apply Hx. by left.
Qed.

(** A client file names the device of its session exactly when it is well formed and
    its enabled rules, of which there are some, all name that device. *)
Theorem client_device_exact (c : ClientConfig) (peer : NodeId) : client_single_peer c = Ok peer <->
  client_ok c /\ enabled_rules c <> [] /\ Forall (fun rule => Identity.from_hex (peer_node_id rule) = Ok peer) (enabled_rules c).
Proof.
  destruct (client_peers_spec c) as [Hn Hp]. pose proof (proj2 (rules_validate_exact default_service c)) as Hv.
  assert (client_single_peer c = Ok peer <-> validate_client c = Ok tt /\ client_peers c = [peer]) as ->.
  { unfold client_single_peer. destruct (validate_client c) as [[]|e|]; cbn [obind]; [|naive_solver..].
    destruct (client_peers c) as [|a [|b l]]; naive_solver. }
  rewrite Hv, (singleton_list _ _ Hn). split.
  - intros [Hok Hall]. split; [done|]. assert (peer ∈ client_peers c) as Hin by by apply Hall. apply Hp in Hin as (r & Hr & Er).
    split; [intros E; rewrite E in Hr; by apply not_elem_of_nil in Hr|]. apply Forall_forall. intros rule Hrule.
    destruct Hok as (_ & Hok & _). rewrite Forall_forall in Hok.
    assert (rule_ok rule) as (_ & _ & Hhex & _).
    { apply Hok. unfold enabled_rules in Hrule. rewrite list_elem_of_In, filter_In, <- list_elem_of_In in Hrule. by destruct Hrule. }
    destruct (Identity.from_hex (peer_node_id rule)) as [q| |] eqn:E; try done. f_equal. apply Hall, Hp. by exists rule.
  - intros (Hok & Hne & Hall). split; [done|]. intros y. rewrite Hp. rewrite Forall_forall in Hall. split.
    + intros (rule & Hr & E). specialize (Hall rule Hr). congruence.
    + intros ->. destruct (enabled_rules c) as [|r l]; [done|]. exists r. split; [by left|]. apply Hall. by left.
Qed.
End WithHex.

(** ** A file, and one that is refused *)

Import Hexadecimal.

Definition laptop : NodeId := List.repeat 7 16.
Definition entry (n port : Z) : AllowedForwardTarget :=
  mk_target [Hexadecimal.encode laptop] [n] [n] (Addr.V4 2130706433 port) true.
(** The second file names a target twice. *)
Definition home : ServiceConfig := mk_service RULES_SCHEMA_VERSION [entry 97 22; entry 98 80].
Definition twice : ServiceConfig := mk_service RULES_SCHEMA_VERSION [entry 97 22; entry 98 22].

Lemma policy_of_last_valid_witness : let p := reload (Some (compile home)) [twice] in
  exists c, (c = home \/ c = twice) /\ service_ok c /\
  (forall peer target, target_allowed peer target p = true <-> granted c peer target) /\
  target_allowed laptop (Addr.V4 2130706433 80) p = true.
Proof.
  assert (new_policy home = Ok (Some (compile home))) as H0.
  { unfold new_policy. assert (validate_service home = Ok tt) as -> by (vm_compute; reflexivity). reflexivity. }
  destruct (policy_of_last_valid home [twice] (Some (compile home)) H0) as (before & c & after & E & Hok & _ & Hg & _).
  exists c. split; [|split; [exact Hok|split; [exact Hg|vm_compute; reflexivity]]].
  assert (c ∈ [home; twice]) as Hc by (rewrite E; apply elem_of_app; right; left).
  apply elem_of_cons in Hc as [->|Hc]; [by left|]. apply list_elem_of_singleton in Hc as ->. by right.
Defined.
End Rules.
