(* ===== verification/ServeIdle.v ===== *)
(** * When a serve session is idle (ActiveState and ActiveSession of src/tunnel/mod.rs)

    [serve_session] punches again after nobody was served for a while.  The sessions are
    counted by an atomic and the start of idleness is under a lock, so the threads of
    sessions that begin and end interleave with the timer of the loop: a step below is
    one access to what they share.  The accesses are sequentially consistent. *)
From Stdlib Require Import ZArith Lia.
From stdpp Require Import prelude gmap.
From S2P Require Import Prelude.

#[local] Open Scope Z_scope.

Module ServeIdle.

(** Where the thread of a session is: [Entering] counted itself as the first and has
    still to clear the lock; the last one to leave reads the clock, stores it, takes the
    next generation and notifies. *)
Inductive thread : Type :=
  | Entering
  | Active
  | Left
  | Reading (t : Z)
  | Stored
  | Notifying (g : Z).
#[global] Instance thread_eq_dec : EqDecision thread.
Proof. solve_decision. Defined.

(** The branch of the loop in which the timer fired; it remembers when a session was
    last active as it found none. *)
Inductive loop : Type :=
  | Waiting
  | Idle (busy : Z)
  | Refreshed (busy until_ : Z)
  | Broken (busy : Z).

(** [last_busy] and [overlapped] only watch: the last moment at which a session was
    counted, and whether a session ever began while another one was leaving. *)
Record ActiveState : Type := mk_active {
  count : Z;
  idle_since : option Z;
  idle_generation : Z;
  notified : bool;
  threads : gmap Z thread;
  deadline : Z;
  at_loop : loop;
  clock : Z;
  last_busy : Z;
  overlapped : bool;
}.

Section Grace.
Context (grace : Z).

(** [ActiveState::new], and the loop before its first turn. *)
Definition new (now : Z) : ActiveState := mk_active 0 (Some now) 0 false ∅ (now + grace) Waiting now now false.

Definition with_thread (k : Z) (t : thread) (s : ActiveState) : ActiveState :=
  mk_active (count s) (idle_since s) (idle_generation s) (notified s) (<[k := t]> (threads s)) (deadline s) (at_loop s)
    (clock s) (last_busy s) (overlapped s).
Definition without_thread (k : Z) (s : ActiveState) : ActiveState :=
  mk_active (count s) (idle_since s) (idle_generation s) (notified s) (delete k (threads s)) (deadline s) (at_loop s)
    (clock s) (last_busy s) (overlapped s).
Definition with_since (x : option Z) (s : ActiveState) : ActiveState :=
  mk_active (count s) x (idle_generation s) (notified s) (threads s) (deadline s) (at_loop s) (clock s) (last_busy s) (overlapped s).
Definition with_loop (l : loop) (d : Z) (s : ActiveState) : ActiveState :=
  mk_active (count s) (idle_since s) (idle_generation s) (notified s) (threads s) d l (clock s) (last_busy s) (overlapped s).

Definition leaving (t : thread) : bool := match t with Left | Reading _ => true | _ => false end.
Definition counted (t : thread) : bool := match t with Entering | Active => true | _ => false end.

Definition idle_deadline (s : ActiveState) : Z := match idle_since s with Some since => since + grace | None => clock s + grace end.

Inductive op : Type :=
  | Pass (d : Z)
  | FetchAdd (k : Z)
  | Clear (k : Z)
  | FetchSub (k : Z)
  | Now (k : Z)
  | Store (k : Z)
  | NextGeneration (k : Z)
  | Send (k : Z)
  | Timer
  | ReadSince
  | Decide
  | Changed.

(** An access, where it can happen. *)
Definition step (o : op) (s : ActiveState) : option ActiveState :=
  match o with
  | Pass d =>
      if 0 <=? d then
        Some (mk_active (count s) (idle_since s) (idle_generation s) (notified s) (threads s) (deadline s) (at_loop s) (clock s + d)
                (if 0 <? count s then clock s + d else last_busy s) (overlapped s))
      else None
  | FetchAdd k =>
      match threads s !! k with
      | None =>
          Some (mk_active (count s + 1) (idle_since s) (idle_generation s) (notified s)
                  (<[k := if count s =? 0 then Entering else Active]> (threads s)) (deadline s) (at_loop s) (clock s) (clock s)
                  (overlapped s || existsb (fun kv => leaving kv.2) (map_to_list (threads s))))
      | Some _ => None
      end
  | Clear k => if bool_decide (threads s !! k = Some Entering) then Some (with_since None (with_thread k Active s)) else None
  | FetchSub k =>
      if bool_decide (threads s !! k = Some Active) then
        let s' := if count s =? 1 then with_thread k Left s else without_thread k s in
        Some (mk_active (count s - 1) (idle_since s') (idle_generation s') (notified s') (threads s') (deadline s') (at_loop s')
                (clock s') (clock s') (overlapped s'))
      else None
  | Now k => if bool_decide (threads s !! k = Some Left) then Some (with_thread k (Reading (clock s)) s) else None
  | Store k =>
      match threads s !! k with
      | Some (Reading t) => Some (with_since (Some t) (with_thread k Stored s))
      | _ => None
      end
  | NextGeneration k =>
      if bool_decide (threads s !! k = Some Stored) then
        let s' := with_thread k (Notifying (idle_generation s + 1)) s in
        Some (mk_active (count s') (idle_since s') (idle_generation s + 1) (notified s') (threads s') (deadline s') (at_loop s')
                (clock s') (last_busy s') (overlapped s'))
      else None
  | Send k =>
      match threads s !! k with
      | Some (Notifying _) =>
          let s' := without_thread k s in
          Some (mk_active (count s') (idle_since s') (idle_generation s') true (threads s') (deadline s') (at_loop s')
                  (clock s') (last_busy s') (overlapped s'))
      | _ => None
      end
  | Timer =>
      match at_loop s with
      | Waiting =>
          if deadline s <=? clock s then
            Some (if count s =? 0 then with_loop (Idle (last_busy s)) (deadline s) s
                  else with_loop Waiting (clock s + grace) s)
          else None
      | _ => None
      end
  | ReadSince => match at_loop s with Idle b => Some (with_loop (Refreshed b (idle_deadline s)) (deadline s) s) | _ => None end
  | Decide =>
      match at_loop s with
      | Refreshed b u => Some (if clock s <? u then with_loop Waiting u s else with_loop (Broken b) (deadline s) s)
      | _ => None
      end
  | Changed =>
      match at_loop s with
      | Waiting =>
          if notified s then
            let s' := with_loop Waiting (idle_deadline s) s in
            Some (mk_active (count s') (idle_since s') (idle_generation s') false (threads s') (deadline s') (at_loop s')
                    (clock s') (last_busy s') (overlapped s'))
          else None
      | _ => None
      end
  end.

Fixpoint run (ops : list op) (s : ActiveState) : option ActiveState :=
  match ops with [] => Some s | o :: ops => s' ← step o s; run ops s' end.

(** Any interleaving. *)
Inductive reachable (start : Z) : ActiveState -> Prop :=
  | reach_new : reachable start (new start)
  | reach_step s o s' : reachable start s -> step o s = Some s' -> reachable start s'.

(** ** Invariants *)

Definition tally (p : thread -> bool) (m : gmap Z thread) : Z := Prelude.count (fun _ => p) m.

Record sound (s : ActiveState) : Prop := mk_sound {
  so_count : count s = tally counted (threads s);
  so_since : forall t, idle_since s = Some t -> t <= clock s;
  so_reading : forall k t, threads s !! k = Some (Reading t) -> t <= clock s;
  so_none : idle_since s = None -> exists k t, threads s !! k = Some t /\ (counted t || leaving t) = true;
  so_deadline : deadline s <= clock s + grace;
  so_busy : last_busy s <= clock s;
  so_refreshed : forall b u, at_loop s = Refreshed b u -> u <= clock s + grace;
}.

Lemma tally_update p (m : gmap Z thread) k t t' : m !! k = Some t ->
  tally p (<[k := t']> m) = tally p m - (if p t then 1 else 0) + (if p t' then 1 else 0).
Proof. intros Hk. unfold tally. by rewrite (count_update _ _ _ _ t). Qed.

Lemma tally_new p (m : gmap Z thread) k t : m !! k = None -> tally p (<[k := t]> m) = tally p m + (if p t then 1 else 0).
Proof. intros Hk. unfold tally. by rewrite count_insert_new. Qed.

Lemma tally_delete p (m : gmap Z thread) k t : m !! k = Some t -> tally p (delete k m) = tally p m - (if p t then 1 else 0).
Proof. intros Hk. unfold tally. by rewrite (count_delete _ _ _ t). Qed.

(** A thread that has still to write, or is counted. *)
Definition bound (m : gmap Z thread) : Prop := exists k t, m !! k = Some t /\ (counted t || leaving t) = true.

Lemma bound_insert (m : gmap Z thread) k t t' : m !! k = t' -> match t' with Some u => (counted u || leaving u) = true -> (counted t || leaving t) = true | None => True end ->
  bound m -> bound (<[k := t]> m).
Proof.
  intros Hk Ht (j & u & Hj & Hu). destruct (decide (j = k)) as [->|Hjk].
  - exists k, t. rewrite lookup_insert_eq. split; [done|]. subst t'. rewrite Hj in Ht. by apply Ht.
  - exists j, u. by rewrite lookup_insert_ne.
Qed.

Lemma bound_delete (m : gmap Z thread) k t : m !! k = Some t -> (counted t || leaving t) = false -> bound m -> bound (delete k m).
Proof.
  intros Hk Ht (j & u & Hj & Hu). exists j, u. split; [|done]. rewrite lookup_delete_ne; [done|]. intros ->. congruence.
Qed.

Lemma bound_counted (m : gmap Z thread) : 0 < tally counted m -> bound m.
Proof. intros (k & t & Hk & Ht)%count_some. exists k, t. split; [done|]. by rewrite Ht. Qed.

Lemma idle_deadline_bound s : sound s -> 0 <= grace -> idle_deadline s <= clock s + grace.
Proof. intros [_ S2 _ _ _ _ _] Hg. unfold idle_deadline. destruct (idle_since s) as [t|] eqn:E; [specialize (S2 t eq_refl)|]; lia. Qed.

(** The thread [k] of [m] moves on. *)
Lemma reading_insert (m : gmap Z thread) k t' (P : Z -> Prop) : (forall j t, m !! j = Some (Reading t) -> P t) -> (forall t, t' = Reading t -> P t) ->
  forall j t, <[k := t']> m !! j = Some (Reading t) -> P t.
Proof. intros Hm Ht j t. rewrite lookup_insert. case_decide; [intros [= E]; by apply Ht|apply Hm]. Qed.

Lemma reading_delete (m : gmap Z thread) k (P : Z -> Prop) : (forall j t, m !! j = Some (Reading t) -> P t) ->
  forall j t, delete k m !! j = Some (Reading t) -> P t.
Proof. intros Hm j t [_ Hj]%lookup_delete_Some. by eapply Hm. Qed.

Lemma sound_step s o s' : 0 <= grace -> sound s -> step o s = Some s' -> sound s'.
Proof.
  intros Hg Hs. pose proof (idle_deadline_bound s Hs Hg) as Hid. destruct Hs as [S1 S2 S3 S4 S5 S6 S7].
  destruct o as [d|k|k|k|k|k|k|k| | | |]; cbn [step].
  - destruct (Z.leb_spec 0 d); [|done]. intros [= <-]. split; cbn; try done; try lia.
    + intros t Ht%S2. lia.
    + intros j t Ht%S3. lia.
    + destruct (0 <? count s); lia.
    + intros b u Hu%S7. lia.
  - destruct (threads s !! k) eqn:Hk; [done|]. intros [= <-]. split; cbn; try done; try lia.
    + rewrite tally_new by done. destruct (count s =? 0); cbn; lia.
    + apply reading_insert; [done|]. intros t. by destruct (count s =? 0).
    + intros _. exists k, (if count s =? 0 then Entering else Active). rewrite lookup_insert_eq. split; [done|]. by destruct (count s =? 0).
  - case_bool_decide as Hk; [|done]. intros [= <-]. split; cbn; try done; try lia.
    + rewrite (tally_update _ _ _ _ _ Hk). cbn. lia.
    + by apply reading_insert.
    + intros _. exists k, Active. by rewrite lookup_insert_eq.
  - case_bool_decide as Hk; [|done]. intros [= <-]. destruct (Z.eqb_spec (count s) 1) as [E|E]; split; cbn; try done; try lia.
    + rewrite (tally_update _ _ _ _ _ Hk). cbn. lia.
    + by apply reading_insert.
    + intros _. exists k, Left. by rewrite lookup_insert_eq.
    + rewrite (tally_delete _ _ _ _ Hk). cbn. lia.
    + by apply reading_delete.
    + intros _. apply bound_counted. rewrite (tally_delete _ _ _ _ Hk). cbn.
      assert (1 <= tally counted (threads s)) by (by eapply count_pos). lia.
  - case_bool_decide as Hk; [|done]. intros [= <-]. split; cbn; try done; try lia.
    + rewrite (tally_update _ _ _ _ _ Hk). cbn. lia.
    + apply reading_insert; [done|]. intros t [= <-]. lia.
    + intros E. by apply (bound_insert _ _ _ _ Hk); [|apply S4].
  - destruct (threads s !! k) as [[| | |t| |]|] eqn:Hk; try done. intros [= <-]. split; cbn; try done; try lia.
    + rewrite (tally_update _ _ _ _ _ Hk). cbn. lia.
    + intros u [= <-]. by apply (S3 k).
    + by apply reading_insert.
  - case_bool_decide as Hk; [|done]. intros [= <-]. split; cbn; try done; try lia.
    + rewrite (tally_update _ _ _ _ _ Hk). cbn. lia.
    + by apply reading_insert.
    + intros E. by apply (bound_insert _ _ _ _ Hk); [|apply S4].
  - destruct (threads s !! k) as [[| | |t| |g]|] eqn:Hk; try done. intros [= <-]. split; cbn; try done; try lia.
    + rewrite (tally_delete _ _ _ _ Hk). cbn. lia.
    + by apply reading_delete.
    + intros E. by apply (bound_delete _ _ _ Hk); [|apply S4].
  - destruct (at_loop s) eqn:El; try done. destruct (deadline s <=? clock s); [|done]. intros [= <-].
    destruct (count s =? 0); split; cbn; try done; try lia.
  - destruct (at_loop s) eqn:El; try done. intros [= <-]. split; cbn; try done; try lia. by intros b u [= _ <-].
  - destruct (at_loop s) as [| |b u|] eqn:El; try done. intros [= <-]. specialize (S7 b u eq_refl).
    destruct (Z.ltb_spec (clock s) u); split; cbn; try done; lia.
  - destruct (at_loop s) eqn:El; try done. destruct (notified s); [|done]. intros [= <-]. split; cbn; try done; try lia.
Qed.

Lemma sound_reachable start s : 0 <= grace -> reachable start s -> sound s.
Proof.
  intros Hg. induction 1 as [|s o s' _ IH E]; [|by eapply sound_step].
  split; cbn; try done; try lia; intros; simplify_eq; lia.
Qed.

(** Without overlaps the lock always tells when the last session ended. *)
Record calm (s : ActiveState) : Prop := mk_calm {
  ca_leaving : forall k t, threads s !! k = Some t -> leaving t = true -> count s = 0;
  ca_reading : forall k t, threads s !! k = Some (Reading t) -> last_busy s <= t;
  ca_active : 0 < count s -> (exists k, threads s !! k = Some Entering) \/ idle_since s = None;
  ca_since : forall t, count s = 0 -> idle_since s = Some t -> last_busy s <= t;
  ca_idle : forall b, at_loop s = Idle b -> b <= last_busy s /\ forall t, idle_since s = Some t -> b <= t;
  ca_refreshed : forall b u, at_loop s = Refreshed b u -> b + grace <= u;
  ca_broken : forall b, at_loop s = Broken b -> b + grace <= clock s;
}.

Lemma overlapped_step s o s' : step o s = Some s' -> overlapped s' = false -> overlapped s = false.
Proof.
  destruct o; cbn; intros E; repeat (case_match; simplify_eq/=); try done. by intros [? _]%orb_false_iff.
Qed.

Lemma entering_insert (m : gmap Z thread) k t : m !! k <> Some Entering -> (exists j, m !! j = Some Entering) -> exists j, <[k := t]> m !! j = Some Entering.
Proof. intros Hk [j Hj]. exists j. rewrite lookup_insert_ne; [done|]. by intros ->. Qed.

Lemma leaving_insert (m : gmap Z thread) k t' (P : Prop) : (forall j t, m !! j = Some t -> leaving t = true -> P) -> (leaving t' = true -> P) ->
  forall j t, <[k := t']> m !! j = Some t -> leaving t = true -> P.
Proof. intros Hm Ht j t. rewrite lookup_insert. case_decide; [intros [= <-]; done|apply Hm]. Qed.

Lemma no_leaving (s : ActiveState) : existsb (fun kv => leaving kv.2) (map_to_list (threads s)) = false ->
  forall k t, threads s !! k = Some t -> leaving t = false.
Proof.
  intros He k t Hk. destruct (leaving t) eqn:E; [|done]. exfalso. apply not_true_iff_false in He. apply He, existsb_exists.
  exists (k, t). split; [|done]. by apply list_elem_of_In, elem_of_map_to_list.
Qed.

Lemma idle_calm_step s o s' : 0 <= grace -> sound s -> calm s -> step o s = Some s' -> overlapped s' = false -> calm s'.
Proof.
  intros Hg Hs [C1 C2 C3 C4 C5 C6 C7]. pose proof Hs as [S1 S2 S3 S4 S5 S6 S7].
  assert (forall k t, threads s !! k = Some t -> counted t = true -> 1 <= count s) as Hone by (intros k t Hk Ht; rewrite S1; by eapply count_pos).
  assert (0 <= count s) as Hnn by (rewrite S1; apply count_nonneg).
  destruct o as [d|k|k|k|k|k|k|k| | | |]; cbn [step].
  - destruct (Z.leb_spec 0 d); [|done]. intros [= <-] _. destruct (Z.ltb_spec 0 (count s)) as [Hc|Hc]; split; cbn; try done.
    + intros j t Ht. pose proof (C1 j _ Ht eq_refl). lia.
    + intros t E. lia.
    + intros b Eb. destruct (C5 b Eb). split; [lia|done].
    + intros b Eb. specialize (C7 b Eb). lia.
    + intros b Eb. specialize (C7 b Eb). lia.
  - destruct (threads s !! k) eqn:Hk; [done|]. intros [= <-] [_ Hl]%orb_false_iff. cbn. pose proof (no_leaving s Hl) as Hnl. split; cbn; try done.
    + apply leaving_insert; [intros j t Hj Ht; by rewrite (Hnl j t Hj) in Ht|]. by destruct (count s =? 0).
    + apply reading_insert; [intros j t Hj; by specialize (Hnl _ _ Hj)|]. intros t. by destruct (count s =? 0).
    + intros _. destruct (Z.eqb_spec (count s) 0) as [E|E]; [left; exists k; by rewrite lookup_insert_eq|].
      destruct (C3 ltac:(lia)) as [[j Hj]|Hn]; [left|by right]. exists j. rewrite lookup_insert_ne; [done|]. intros ->. congruence.
    + lia.
    + intros b Eb. destruct (C5 b Eb). split; [lia|done].
  - case_bool_decide as Hk; [|done]. intros [= <-] _. pose proof (Hone _ _ Hk eq_refl). split; cbn; try done.
    + by apply leaving_insert.
    + by apply reading_insert.
    + by right.
    + intros b Eb. by destruct (C5 b Eb).
  - case_bool_decide as Hk; [|done]. intros [= <-] _. pose proof (Hone _ _ Hk eq_refl) as Hc1.
    assert (forall j t, threads s !! j = Some t -> leaving t = true -> False) as Hnl by (intros j t Hj Ht; specialize (C1 j t Hj Ht); lia).
    destruct (Z.eqb_spec (count s) 1) as [E|E]; split; cbn; try done.
    + intros j t _ _. lia.
    + apply reading_insert; [intros j t Hj; by destruct (Hnl j _ Hj)|done].
    + lia.
    + intros t _ Et. exfalso. destruct (C3 ltac:(lia)) as [[j Hj]|Hn]; [|congruence].
      assert (2 <= tally counted (threads s)); [|lia]. unfold tally. pose proof (count_delete (fun _ => counted) (threads s) k Active Hk) as Ed. cbn in Ed.
      assert (1 <= Prelude.count (fun _ : Z => counted) (delete k (threads s))) by (eapply (count_pos _ _ j Entering); [|done]; rewrite lookup_delete_ne; [done|]; intros ->; congruence). lia.
    + intros b Eb. destruct (C5 b Eb). split; [lia|done].
    + intros j t [_ Hj]%lookup_delete_Some Ht. by destruct (Hnl j t Hj Ht).
    + apply reading_delete. intros j t Hj. by destruct (Hnl j _ Hj).
    + intros Hc. destruct (C3 ltac:(lia)) as [[j Hj]|Hn]; [left|by right]. exists j. rewrite lookup_delete_ne; [done|]. intros ->. congruence.
    + lia.
    + intros b Eb. destruct (C5 b Eb). split; [lia|done].
  - case_bool_decide as Hk; [|done]. intros [= <-] _. pose proof (C1 k _ Hk eq_refl) as Hc. split; cbn; try done.
    + apply reading_insert; [done|]. by intros t [= <-].
    + lia.
  - destruct (threads s !! k) as [[| | |t| |]|] eqn:Hk; try done. intros [= <-] _. pose proof (C1 k _ Hk eq_refl) as Hc. pose proof (C2 k t Hk) as Ht. split; cbn; try done.
    + by apply reading_insert.
    + lia.
    + by intros u _ [= <-].
    + intros b Eb. destruct (C5 b Eb) as [Hb _]. split; [done|]. intros u [= <-]. lia.
  - case_bool_decide as Hk; [|done]. intros [= <-] _. split; cbn; try done.
    + by apply leaving_insert.
    + by apply reading_insert.
    + intros Hc. destruct (C3 Hc) as [He|Hn]; [left|by right]. apply entering_insert; [congruence|done].
  - destruct (threads s !! k) as [[| | |t| |g]|] eqn:Hk; try done. intros [= <-] _. split; cbn; try done.
    + intros j t [_ Hj]%lookup_delete_Some. by apply (C1 j).
    + by apply reading_delete.
    + intros Hc. destruct (C3 Hc) as [[j Hj]|Hn]; [left|by right]. exists j. rewrite lookup_delete_ne; [done|]. intros ->. congruence.
  - destruct (at_loop s) eqn:El; try done. destruct (deadline s <=? clock s); [|done]. intros [= <-] _.
    destruct (Z.eqb_spec (count s) 0); split; cbn; try done. intros b [= <-]. split; [done|]. intros t Et. by apply C4.
  - destruct (at_loop s) as [|b| |] eqn:El; try done. intros [= <-] _. destruct (C5 b eq_refl) as [Hb Ht]. split; cbn; try done.
    intros b' u [= <- <-]. unfold idle_deadline. destruct (idle_since s) as [t|]; [specialize (Ht t eq_refl); lia|lia].
  - destruct (at_loop s) as [| |b u|] eqn:El; try done. intros [= <-] _. specialize (C6 b u eq_refl).
    destruct (Z.ltb_spec (clock s) u); split; cbn; try done. intros b' [= <-]. lia.
  - destruct (at_loop s) eqn:El; try done. destruct (notified s); [|done]. intros [= <-] _. by split.
Qed.

Lemma idle_calm_reachable start s : 0 <= grace -> reachable start s -> overlapped s = false -> calm s.
Proof.
  intros Hg Hr. induction Hr as [|s o s' Hr IH E].
  - intros _. split; cbn; try done; try lia; intros; simplify_eq; lia.
  - intros Ho. eapply idle_calm_step; [done|by eapply sound_reachable|apply IH; by eapply overlapped_step|done|done].
Qed.
End Grace.

(** C33: A serve session that is idle ends, and one that is not goes on. In every
    interleaving of the sessions' threads with the loop: when all sessions are gone and
    nothing begins for the grace period, the timer fires and the loop ends at once, so
    the start of idleness is never lost; the next timer is never further away than the
    grace period; and as long as no session begins while another is leaving, the loop
    ends only when it found no session active and none had been for the whole grace
    period. *)
Theorem idle_exact (grace start d : Z) (s : ActiveState) : 0 <= grace -> reachable grace start s ->
  deadline s <= clock s + grace /\
  (at_loop s = Waiting -> threads s = ∅ -> grace <= d ->
     exists s', run grace [Pass d; Timer; ReadSince; Decide] s = Some s' /\ exists busy, at_loop s' = Broken busy) /\
  (overlapped s = false -> forall busy, at_loop s = Broken busy -> busy + grace <= clock s).
Proof.
  intros Hg Hr. pose proof (sound_reachable grace start s Hg Hr) as [S1 S2 S3 S4 S5 S6 S7]. split; [done|]. split.
  - intros El Et Hd. assert (count s = 0) as Hc by (rewrite S1, Et; done).
    destruct (idle_since s) as [t|] eqn:Ei; [|destruct (S4 eq_refl) as (k & x & Hk & _); by rewrite Et in Hk].
    specialize (S2 t eq_refl). cbn [run step]. rewrite (proj2 (Z.leb_le 0 d)) by lia. cbn [mbind option_bind at_loop deadline clock count].
    rewrite El, (proj2 (Z.leb_le _ _)) by lia. cbn [mbind option_bind]. rewrite Hc. cbn.
    unfold idle_deadline. cbn. rewrite Ei, (proj2 (Z.ltb_ge _ _)) by lia. cbn. eauto.
  - intros Ho. by apply (idle_calm_reachable grace start s Hg Hr Ho).
Qed.

(** With overlaps it can end early: session 2 begins between the last count of session 1
    and its store, is active for four minutes, and the timer fires between its own last
    count and its store. *)
Definition overlapping : list op :=
  [FetchAdd 1; Clear 1; FetchSub 1; Now 1; FetchAdd 2; Clear 2; Store 1; NextGeneration 1; Send 1;
   Pass 120; Timer; Pass 120; FetchSub 2; Timer; ReadSince; Decide].

Lemma run_reachable grace start ops s s' : reachable grace start s -> run grace ops s = Some s' -> reachable grace start s'.
Proof.
  revert s. induction ops as [|o ops IH]; intros s Hr; cbn; [by intros [= <-]|].
  destruct (step grace o s) as [s1|] eqn:E; cbn; [|done]. apply IH. by apply (reach_step grace start s o).
Qed.

Lemma idle_ends_early : exists s, reachable 120 0 s /\ at_loop s = Broken (clock s).
Proof.
  destruct (run 120 overlapping (new 120 0)) as [s|] eqn:E; [|by vm_compute in E].
  exists s. split; [by apply (run_reachable 120 0 overlapping (new 120 0)); [constructor|]|].
  assert (Some s = run 120 overlapping (new 120 0)) as E' by done. vm_compute in E'. by injection E' as ->.
Qed.

Lemma idle_exact_witness : let ops := [FetchAdd 1; Clear 1; Pass 7; FetchSub 1; Now 1; Store 1; NextGeneration 1; Send 1; Changed] in
  exists s, run 120 ops (new 120 0) = Some s /\ deadline s = 127 /\
    exists s', run 120 [Pass 120; Timer; ReadSince; Decide] s = Some s' /\ exists busy, at_loop s' = Broken busy.
Proof.
  intros ops. destruct (run 120 ops (new 120 0)) as [s|] eqn:E; [|by vm_compute in E]. exists s. split; [done|].
  assert (reachable 120 0 s) as Hr by (apply (run_reachable 120 0 ops (new 120 0)); [constructor|done]).
  assert (Some s = run 120 ops (new 120 0)) as E' by done.
  destruct (idle_exact 120 0 120 s ltac:(lia) Hr) as (_ & Hl & _). vm_compute in E'. injection E' as ->. split; [done|]. by apply Hl.
Defined.
End ServeIdle.
