(* ===== verification/TunnelServe.v ===== *)
(** * Serving tunnels, files and speed tests (src/tunnel/mod.rs)

    The standing service: connections that wait for their handshake, the streams of an
    admitted connection, and what a tunnel stream may reach, under a policy that can be
    reloaded.  The tasks are cut at their awaits and the events of the session are those
    cuts in any order; sockets and the handshake (Handshake.v) give the events' data.
    The caller's side of a tunnel is at the end. *)
From Stdlib Require Import ZArith Lia.
From stdpp Require Import prelude gmap strings.
From S2P Require Import Prelude Io Manifest Postcard Message Addr AddrText Frame Identity Rules.

#[local] Open Scope Z_scope.

Module TunnelServe.
Import Addr AddrText.

Definition DEFAULT_MAX_PENDING_HANDSHAKES : Z := 64.
Definition DEFAULT_MAX_BUSINESS_STREAMS : Z := 16.
Definition DEFAULT_MAX_FILE_RECEIVES : Z := 4.

(** The live policy is shared: it is its value at the moment. *)
Record ServeConfig : Type := mk_config {
  allowed_peers : list NodeId;
  forwards : list SocketAddr;
  recv_dir : option (list Z);
  max_pending_handshakes : Z;
  max_business_streams : Z;
  max_file_receives : Z;
  policy : option Rules.ServePolicy;
}.

(** [ServeConfig::new]. *)
Definition new_config : ServeConfig :=
  mk_config [] [] None DEFAULT_MAX_PENDING_HANDSHAKES DEFAULT_MAX_BUSINESS_STREAMS DEFAULT_MAX_FILE_RECEIVES None.

Definition peer_allowed (c : ServeConfig) (peer : NodeId) : bool :=
  if negb (bool_decide (allowed_peers c = [])) then bool_decide (peer ∈ allowed_peers c)
  else match policy c with Some p => Rules.peer_allowed peer p | None => true end.

Definition target_allowed (c : ServeConfig) (peer : NodeId) (target : SocketAddr) : bool :=
  bool_decide (target ∈ forwards c) || match policy c with Some p => Rules.target_allowed peer target p | None => false end.

Definition targets_for (c : ServeConfig) (peer : NodeId) : list SocketAddr :=
  match policy c with
  | Some p => fold_left (fun ts t => if bool_decide (t ∈ ts) then ts else ts ++ [t]) (Rules.targets_for peer p) (forwards c)
  | None => forwards c
  end.

Definition has_peer_authorization (c : ServeConfig) : bool := negb (bool_decide (allowed_peers c = [])) || bool_decide (is_Some (policy c)).
Definition has_target_authorization (c : ServeConfig) : bool := negb (bool_decide (forwards c = [])) || bool_decide (is_Some (policy c)).

(** A connection holds a pending permit until its peer is admitted. *)
Inductive connection : Type := Handshaking | Serving (peer : NodeId).
#[global] Instance connection_eq_dec : EqDecision connection.
Proof. solve_decision. Defined.

(** [after_error]: the answer is a refusal. *)
Inductive phase : Type :=
  | First
  | Dialing (target : SocketAddr)
  | Answering (ready : option SocketAddr)
  | Flowing (target : SocketAddr)
  | ReceivingFile (m : Manifest.FileManifest)
  | Testing.

Record stream : Type := mk_stream { s_conn : Z; s_phase : phase }.

Record session : Type := mk_session {
  config : ServeConfig;
  conns : gmap Z connection;
  next_conn : Z;
  streams : gmap Z stream;
  next_stream : Z;
}.

Definition start (c : ServeConfig) : session := mk_session c ∅ 0 ∅ 0.

Definition with_conns (m : gmap Z connection) (s : session) : session := mk_session (config s) m (next_conn s) (streams s) (next_stream s).
Definition with_streams (m : gmap Z stream) (s : session) : session := mk_session (config s) (conns s) (next_conn s) m (next_stream s).

Definition pending (s : session) : Z := count (fun _ x => bool_decide (x = Handshaking)) (conns s).
Definition business (c : Z) (s : session) : Z := count (fun _ t => bool_decide (s_conn t = c)) (streams s).
Definition is_receiving (t : stream) : bool := match s_phase t with ReceivingFile _ => true | _ => false end.
Definition receives (s : session) : Z := count (fun _ => is_receiving) (streams s).

(** What can be seen of the service. *)
Inductive effect : Type :=
  | Refuse
  | CloseConn (c : Z)
  | Admit (c : Z) (peer : NodeId)
  | Say (i : Z) (m : Message.ControlMessage)
  | Dial (i : Z) (target : SocketAddr)
  | Flow (i : Z) (target : SocketAddr)
  | Receive (i : Z) (m : Manifest.FileManifest) (dir : list Z)
  | Speed (i : Z)
  | Ended (i : Z).

Definition refusal (reason : string) : Message.ControlMessage := Message.AbortMsg (lit reason).

Definition set_phase (i : Z) (t : stream) (p : phase) (s : session) : session := with_streams (<[i := mk_stream (s_conn t) p]> (streams s)) s.
Definition ended (i : Z) (s : session) : list effect * session := ([Ended i], with_streams (delete i (streams s)) s).

(** [handle_tunnel_request] up to connecting. *)
Definition on_open (i : Z) (t : stream) (peer : NodeId) (target : list Z) (s : session) : list effect * session :=
  match parse_addr target with
  | None => ([Say i (Message.TunnelError (lit "not an address"))], set_phase i t (Answering None) s)
  | Some addr =>
      if target_allowed (config s) peer addr then ([Dial i addr], set_phase i t (Dialing addr) s)
      else ([Say i (Message.TunnelError (lit "target not allowed"))], set_phase i t (Answering None) s)
  end.

Section Manifests.
Context `{Blake3} `{HexDecode}.

(** The first message of a stream. *)
Definition on_first (i : Z) (t : stream) (peer : NodeId) (first : result (option Message.ControlMessage)) (s : session) : list effect * session :=
  match first with
  | Ok (Some (Message.TunnelOpen target)) => on_open i t peer target s
  | Ok (Some (Message.ManifestMsg m)) =>
      match Manifest.validate m with
      | Ok _ =>
          match recv_dir (config s) with
          | None => ended i s
          | Some dir =>
              if receives s <? max_file_receives (config s) then ([Receive i m dir], set_phase i t (ReceivingFile m) s)
              else ([Say i (refusal "too many files")], set_phase i t (Answering None) s)
          end
      | _ => ([Say i (refusal "invalid manifest")], set_phase i t (Answering None) s)
      end
  | Ok (Some (Message.SpeedTestOpen _ _ _)) => ([Speed i], set_phase i t Testing s)
  | _ => ended i s
  end.

Inductive event : Type :=
  | FirstMessage (r : result (option Message.ControlMessage))
  | Dialled (r : result unit)
  | Answered (r : result unit)
  | Finished.

Definition on_event (i : Z) (t : stream) (peer : NodeId) (e : event) (s : session) : list effect * session :=
  match s_phase t, e with
  | First, FirstMessage r => on_first i t peer r s
  | Dialing target, Dialled (Ok _) => ([Say i Message.TunnelReady], set_phase i t (Answering (Some target)) s)
  | Dialing _, Dialled _ => ([Say i (Message.TunnelError (lit "connecting failed"))], set_phase i t (Answering None) s)
  | Answering (Some target), Answered (Ok _) => ([Flow i target], set_phase i t (Flowing target) s)
  | Answering _, Answered _ => ended i s
  | (Flowing _ | ReceivingFile _ | Testing), Finished => ended i s
  | _, _ => ([], s)
  end.

(** [serve_connection] once the handshake said who the peer is; a relayed connection
    arrives here the same way. *)
Definition on_authenticated (c : Z) (peer : NodeId) (s : session) : list effect * session :=
  if bool_decide (conns s !! c = Some Handshaking) then
    if peer_allowed (config s) peer then ([Admit c peer], with_conns (<[c := Serving peer]> (conns s)) s)
    else ([CloseConn c], with_conns (delete c (conns s)) s)
  else ([], s).

Definition on_stream (c : Z) (s : session) : list effect * session :=
  match conns s !! c with
  | Some (Serving _) =>
      let i := next_stream s in
      let s' := mk_session (config s) (conns s) (next_conn s) (streams s) (i + 1) in
      if business c s <? max_business_streams (config s) then ([], with_streams (<[i := mk_stream c First]> (streams s)) s')
      else ([Say i (refusal "too many streams")], s')
  | _ => ([], s)
  end.

Inductive op : Type :=
  | Incoming
  | HandshakeFailed (c : Z)
  | Authenticated (c : Z) (peer : NodeId)
  | StreamArrives (c : Z)
  | Run (i : Z) (e : event)
  | ConnectionEnds (c : Z)
  | Reload (rules : Rules.ServiceConfig).

Definition with_policy (p : option Rules.ServePolicy) (c : ServeConfig) : ServeConfig :=
  mk_config (allowed_peers c) (forwards c) (recv_dir c) (max_pending_handshakes c) (max_business_streams c) (max_file_receives c) p.

Definition step (o : op) (s : session) : list effect * session :=
  match o with
  | Incoming =>
      if pending s <? max_pending_handshakes (config s) then
        ([], mk_session (config s) (<[next_conn s := Handshaking]> (conns s)) (next_conn s + 1) (streams s) (next_stream s))
      else ([Refuse], s)
  | HandshakeFailed c => ([], if bool_decide (conns s !! c = Some Handshaking) then with_conns (delete c (conns s)) s else s)
  | Authenticated c peer => on_authenticated c peer s
  | StreamArrives c => on_stream c s
  | Run i e =>
      match streams s !! i with
      | Some t => match conns s !! s_conn t with Some (Serving peer) => on_event i t peer e s | _ => ([], s) end
      | None => ([], s)
      end
  | ConnectionEnds c => ([], with_conns (delete c (conns s)) (with_streams (filter (fun kv => s_conn kv.2 <> c) (streams s)) s))
  | Reload rules =>
      ([], mk_session (with_policy (option_map (fun p => (Rules.replace rules p).2) (policy (config s))) (config s))
             (conns s) (next_conn s) (streams s) (next_stream s))
  end.

Fixpoint run (ops : list op) (s : session) : list (session * effect) * session :=
  match ops with
  | [] => ([], s)
  | o :: ops => let (l, s') := step o s in let (tr, s'') := run ops s' in (map (pair s) l ++ tr, s'')
  end.
End Manifests.

(** ** What the service may do *)

Section Guarded.
Context `{Blake3} `{HexDecode}.

Definition history : Type := list (session * effect).

(** The stream is one of a peer that was admitted when it was allowed. *)
Definition served (tr : history) (s : session) (i : Z) (peer : NodeId) : Prop :=
  exists t, streams s !! i = Some t /\ conns s !! s_conn t = Some (Serving peer) /\ exists s1, (s1, Admit (s_conn t) peer) ∈ tr.

Definition effect_ok (tr : history) (s : session) (e : effect) : Prop :=
  match e with
  | Admit c peer => peer_allowed (config s) peer = true /\ conns s !! c = Some Handshaking
  | Dial i target => exists peer, served tr s i peer /\ target_allowed (config s) peer target = true
  | Say i Message.TunnelReady => exists target s1, (s1, Dial i target) ∈ tr
  | Say _ (Message.TunnelError _) | Say _ (Message.AbortMsg _) => True
  | Say _ _ => False
  | Flow i target => (exists s1, (s1, Dial i target) ∈ tr) /\ exists s2, (s2, Say i Message.TunnelReady) ∈ tr
  | Receive i m dir =>
      (exists peer, served tr s i peer) /\ Manifest.validate m = Ok tt /\ recv_dir (config s) = Some dir /\
      receives s < max_file_receives (config s)
  | Speed i => exists peer, served tr s i peer
  | Refuse => max_pending_handshakes (config s) <= pending s
  | CloseConn _ | Ended _ => True
  end.

Definition phase_ok (tr : history) (i : Z) (p : phase) : Prop :=
  match p with
  | Dialing target => exists s1, (s1, Dial i target) ∈ tr
  | Answering (Some target) => (exists s1, (s1, Dial i target) ∈ tr) /\ exists s2, (s2, Say i Message.TunnelReady) ∈ tr
  | _ => True
  end.

(** [limits] are those of the configuration that the session started with. *)
Record sound (limits : ServeConfig) (tr : history) (s : session) : Prop := mk_sound {
  so_trace : trace_ok effect_ok tr;
  so_phase : forall i t, streams s !! i = Some t -> phase_ok tr i (s_phase t);
  so_admitted : forall c peer, conns s !! c = Some (Serving peer) -> exists s1, (s1, Admit c peer) ∈ tr;
  so_stream : forall i, is_Some (streams s !! i) -> i < next_stream s;
  so_conn : forall c, is_Some (conns s !! c) -> c < next_conn s;
  so_pending : pending s <= Z.max 0 (max_pending_handshakes limits);
  so_business : forall c, business c s <= Z.max 0 (max_business_streams limits);
  so_receives : receives s <= Z.max 0 (max_file_receives limits);
  so_limits : max_pending_handshakes (config s) = max_pending_handshakes limits /\ max_business_streams (config s) = max_business_streams limits /\
    max_file_receives (config s) = max_file_receives limits;
}.

Lemma tunnel_phase_ok_app tr l i p : phase_ok tr i p -> phase_ok (tr ++ l) i p.
Proof.
  destruct p as [|tg|[tg|]|tg|m|]; cbn; try done.
  - intros [s Hs]. exists s. set_solver.
  - intros [[s Hs] [s2 Hs2]]. split; [exists s|exists s2]; set_solver.
Qed.

Section Step.
Context (limits : ServeConfig).

Definition goes (tr : history) (s : session) (r : list effect * session) : Prop := sound limits (tr ++ map (pair s) r.1) r.2.

Lemma tunnel_goes_nothing tr s : sound limits tr s -> goes tr s ([], s).
Proof. intros Hs. unfold goes. cbn. by rewrite app_nil_r. Qed.

(** A longer history of the same state. *)
Lemma sound_longer tr s e : sound limits tr s -> effect_ok tr s e -> sound limits (tr ++ [(s, e)]) s.
Proof.
  intros [S1 S2 S3 S4 S5 S6 S7 S8 S9] He. split; try done.
  - by apply trace_ok_snoc.
  - intros i t Ht. by apply tunnel_phase_ok_app, S2.
  - intros c peer Hc. destruct (S3 c peer Hc) as [s1 Hs1]. exists s1. set_solver.
Qed.

(** One stream moves on. *)
Lemma sound_move tr s i t p : sound limits tr s -> streams s !! i = Some t -> phase_ok tr i p ->
  (is_receiving (mk_stream (s_conn t) p) = true -> is_receiving t = true \/ receives s < max_file_receives (config s)) -> sound limits tr (set_phase i t p s).
Proof.
  intros [S1 S2 S3 S4 S5 S6 S7 S8 S9] Ht Hp Hr. split; cbn; try done.
  - intros j u. rewrite lookup_insert. case_decide as Hj; [intros [= <-]; by subst|apply S2].
  - intros j. rewrite lookup_insert. case_decide as Hj; [intros _; subst; apply S4; by eexists|apply S4].
  - intros c. unfold business. cbn. erewrite count_insert_same; [apply S7|exact Ht|done].
  - unfold receives in *. cbn. rewrite (count_update _ _ _ _ t) by done. destruct S9 as (_ & _ & E9). rewrite E9 in Hr.
    destruct (is_receiving t) eqn:Er; destruct (is_receiving (mk_stream (s_conn t) p)); lia.
Qed.

Lemma goes_move tr s i t p e : sound limits tr s -> streams s !! i = Some t -> effect_ok tr s e -> phase_ok (tr ++ [(s, e)]) i p ->
  (is_receiving (mk_stream (s_conn t) p) = true -> is_receiving t = true \/ receives s < max_file_receives (config s)) -> goes tr s ([e], set_phase i t p s).
Proof. intros Hs Ht He Hp Hr. unfold goes. cbn [fst snd map]. apply sound_move; [by apply sound_longer|done|done|done]. Qed.

Lemma tunnel_sound_fewer tr s m m' : sound limits tr s -> m ⊆ streams s -> m' ⊆ conns s -> sound limits tr (with_conns m' (with_streams m s)).
Proof.
  intros [S1 S2 S3 S4 S5 S6 S7 S8 S9] Hm Hm'. split; cbn; try done.
  - intros i t Ht. apply S2. by eapply lookup_weaken.
  - intros c peer Hc. apply S3. by eapply lookup_weaken.
  - intros i [t Ht]. apply S4. exists t. by eapply lookup_weaken.
  - intros c [x Hx]. apply S5. exists x. by eapply lookup_weaken.
  - etrans; [by apply count_subseteq|apply S6].
  - intros c. etrans; [by apply count_subseteq|apply S7].
  - etrans; [by apply count_subseteq|apply S8].
Qed.

Lemma tunnel_goes_ended tr s i : sound limits tr s -> goes tr s (ended i s).
Proof.
  intros Hs. pose proof (tunnel_sound_fewer (tr ++ [(s, Ended i)]) s (delete i (streams s)) (conns s)) as Hf.
  apply Hf; [by apply sound_longer|apply delete_subseteq|done].
Qed.

Lemma goes_first tr s i t peer r : sound limits tr s -> streams s !! i = Some t -> conns s !! s_conn t = Some (Serving peer) ->
  goes tr s (on_first i t peer r s).
Proof.
  intros Hs Ht Hc. assert (served tr s i peer) as Hserved by (exists t; split; [done|]; split; [done|by apply (so_admitted _ _ _ Hs)]).
  assert (forall e p, effect_ok tr s e -> (forall tg, p <> Dialing tg) -> (forall tg, p <> Answering (Some tg)) -> (forall m, p <> ReceivingFile m) -> goes tr s ([e], set_phase i t p s)) as Hplain.
  { intros e p He Ha Hb Hm. apply goes_move; [done|done|done|..]; destruct p as [|tg|[tg|]|tg|m|]; try done; exfalso; first [by eapply Ha|by eapply Hb|by eapply Hm]. }
  unfold on_first. destruct r as [[m|]|e|]; try by apply tunnel_goes_ended. destruct m; try by apply tunnel_goes_ended.
  - destruct (Manifest.validate manifest) as [[]|e|] eqn:Ev; [|by apply Hplain|by apply Hplain].
    destruct (recv_dir (config s)) as [dir|] eqn:Ed; [|by apply tunnel_goes_ended].
    destruct (Z.ltb_spec (receives s) (max_file_receives (config s))) as [Hl|Hl]; [|by apply Hplain].
    apply goes_move; try done; [|by right]. split; [by exists peer|done].
  - unfold on_open. destruct (parse_addr target) as [addr|]; [|by apply Hplain].
    destruct (target_allowed (config s) peer addr) eqn:Ea; [|by apply Hplain].
    apply goes_move; try done; [by exists peer|]. exists s. set_solver.
  - apply Hplain; try done. by exists peer.
Qed.

Lemma tunnel_goes_event tr s i t peer e : sound limits tr s -> streams s !! i = Some t -> conns s !! s_conn t = Some (Serving peer) ->
  goes tr s (on_event i t peer e s).
Proof.
  intros Hs Ht Hc. pose proof (so_phase _ _ _ Hs i t Ht) as Hp. unfold on_event.
  destruct (s_phase t) as [|tg|[tg|]|tg|m|] eqn:Eph; destruct e as [r|r|r|]; try (by apply tunnel_goes_nothing); try (by apply tunnel_goes_ended).
  - by eapply goes_first.
  - cbn in Hp. destruct r as [u|e|]; (apply goes_move; [done|done| | |done]); try done; [by exists tg|].
    destruct Hp as [s1 Hs1]. split; [exists s1; set_solver|exists s; set_solver].
  - cbn in Hp. destruct r as [u|e|]; [|by apply tunnel_goes_ended|by apply tunnel_goes_ended]. by apply goes_move.
Qed.

Lemma tunnel_goes_step tr s o : sound limits tr s -> goes tr s (step o s).
Proof.
  intros Hs. destruct o as [|c|c peer|c|i e|c|rules]; cbn [step].
  - pose proof Hs as [S1 S2 S3 S4 S5 S6 S7 S8 S9]. destruct S9 as (E1 & E2 & E3).
    destruct (Z.ltb_spec (pending s) (max_pending_handshakes (config s))) as [Hl|Hl].
    2: { unfold goes. cbn [fst snd map]. by apply sound_longer. }
    assert (conns s !! next_conn s = None) as Hn.
    { destruct (conns s !! next_conn s) eqn:E; [|done]. pose proof (S5 _ (mk_is_Some _ _ E)). lia. }
    unfold goes. cbn [fst snd map]. rewrite app_nil_r. split; cbn; try done.
    + intros c peer. rewrite lookup_insert. case_decide; [done|apply S3].
    + intros c. rewrite lookup_insert. case_decide; [lia|]. intros Hc%S5. lia.
    + unfold pending in *. cbn. rewrite count_insert_new by done. rewrite bool_decide_eq_true_2 by done. lia.
  - case_bool_decide; [|by apply tunnel_goes_nothing]. unfold goes. cbn [fst snd map]. rewrite app_nil_r.
    pose proof (tunnel_sound_fewer tr s (streams s) (delete c (conns s))) as Hf. apply Hf; [done|done|apply delete_subseteq].
  - unfold on_authenticated. case_bool_decide as Hc; [|by apply tunnel_goes_nothing]. destruct (peer_allowed (config s) peer) eqn:Ea.
    + unfold goes. cbn [fst snd map]. assert (sound limits (tr ++ [(s, Admit c peer)]) s) as [S1 S2 S3 S4 S5 S6 S7 S8 S9] by (by apply sound_longer).
      split; cbn; try done.
      * intros d q. rewrite lookup_insert. case_decide; [intros [= <-]; subst; exists s; set_solver|apply S3].
      * intros d. rewrite lookup_insert. case_decide; [subst; intros _; apply S5; by eexists|apply S5].
      * unfold pending in *. cbn. rewrite (count_update _ _ _ _ _ Hc). rewrite bool_decide_eq_true_2, bool_decide_eq_false_2 by done. lia.
    + pose proof (tunnel_sound_fewer (tr ++ [(s, CloseConn c)]) s (streams s) (delete c (conns s))) as Hf. apply Hf; [by apply sound_longer|done|apply delete_subseteq].
  - unfold on_stream. destruct (conns s !! c) as [[|peer]|] eqn:Hc; try by apply tunnel_goes_nothing.
    assert (streams s !! next_stream s = None) as Hn.
    { destruct (streams s !! next_stream s) eqn:E; [|done]. pose proof (so_stream _ _ _ Hs _ (mk_is_Some _ _ E)). lia. }
    destruct (Z.ltb_spec (business c s) (max_business_streams (config s))) as [Hl|Hl]; unfold goes; cbn [fst snd map].
    + rewrite app_nil_r. destruct Hs as [S1 S2 S3 S4 S5 S6 S7 S8 S9]. split; cbn; try done.
      * intros i t. rewrite lookup_insert. case_decide; [by intros [= <-]|apply S2].
      * intros i. rewrite lookup_insert. case_decide; [lia|]. intros Hi%S4. lia.
      * intros d. unfold business in *. cbn. rewrite count_insert_new by done. cbn. specialize (S7 d). case_bool_decide; [|cbn in S7; lia]. subst d. destruct S9 as (_ & E2 & _). lia.
      * unfold receives in *. cbn. rewrite count_insert_new by done. cbn. lia.
    + assert (sound limits (tr ++ [(s, Say (next_stream s) (refusal "too many streams"))]) s) as [S1 S2 S3 S4 S5 S6 S7 S8 S9] by (by apply sound_longer).
      split; cbn; try done. intros i Hi%S4. lia.
  - destruct (streams s !! i) as [t|] eqn:Ht; [|by apply tunnel_goes_nothing]. destruct (conns s !! s_conn t) as [[|peer]|] eqn:Hc; try by apply tunnel_goes_nothing.
    by apply tunnel_goes_event.
  - unfold goes. cbn [fst snd map]. rewrite app_nil_r. apply tunnel_sound_fewer; [done|apply map_filter_subseteq|apply delete_subseteq].
  - unfold goes. cbn [fst snd map]. rewrite app_nil_r. by destruct Hs.
Qed.
End Step.

Lemma tunnel_run_sound limits ops tr s : sound limits tr s -> sound limits (tr ++ (run ops s).1) (run ops s).2.
Proof.
  revert tr s. induction ops as [|o ops IH]; intros tr s Hs; [cbn; by rewrite app_nil_r|].
  change (run (o :: ops) s) with (let (l, s') := step o s in let (tr, s'') := run ops s' in (map (pair s) l ++ tr, s'')).
  pose proof (tunnel_goes_step limits tr s o Hs) as Hg. unfold goes in Hg. destruct (step o s) as [l s']. specialize (IH _ _ Hg). cbn [fst snd] in IH.
  destruct (run ops s') as [tr' s'']. cbn [fst snd] in *. by rewrite app_assoc.
Qed.

Lemma tunnel_start_sound c : sound c [] (start c).
Proof.
  assert (forall i, streams (start c) !! i = None) as He by (intros i; apply lookup_empty).
  assert (forall i, conns (start c) !! i = None) as Hc by (intros i; apply lookup_empty).
  split.
  - apply trace_ok_nil.
  - intros i t. by rewrite He.
  - intros i p. by rewrite Hc.
  - intros i [x Hx]. by rewrite He in Hx.
  - intros i [x Hx]. by rewrite Hc in Hx.
  - unfold pending. rewrite count_none; [lia|]. intros k x. by rewrite Hc.
  - intros d. unfold business. rewrite count_none; [lia|]. intros k x. by rewrite He.
  - unfold receives. rewrite count_none; [lia|]. intros k x. by rewrite He.
  - done.
Qed.
End Guarded.

(** C15: Tunnels, files and speed tests only for those who may. Whatever arrives on however
    many connections and streams, while handshakes fail, streams stall and the policy is
    reloaded: a target is dialled only for a peer that was allowed when its connection
    was admitted, and only when the target is allowed for it at that moment; a tunnel is
    announced and carries bytes only after its target was dialled; a file is received
    only with a valid manifest into the configured directory. Connections are refused
    only when all pending places are taken; pending handshakes, streams of a connection
    and files being received are within their limits. *)
Theorem tunnels_guarded `{Blake3} `{HexDecode} (c : ServeConfig) (ops : list op) : let (tr, s) := run ops (start c) in
  trace_ok effect_ok tr /\ pending s <= Z.max 0 (max_pending_handshakes c) /\
  (forall k, business k s <= Z.max 0 (max_business_streams c)) /\ receives s <= Z.max 0 (max_file_receives c).
Proof.
  pose proof (tunnel_run_sound c ops [] (start c) (tunnel_start_sound c)) as Hs. destruct (run ops (start c)) as [tr s]. cbn [fst snd app] in Hs.
  destruct Hs. done.
Qed.

(** ** The caller *)

Section Caller.
Context `{Blake3} `{Postcard Message.ControlMessage}.

Definition await_answer (answer : result (option Message.ControlMessage)) : result unit :=
  match answer with
  | Ok (Some Message.TunnelReady) => Ok tt
  | Ok (Some (Message.TunnelError _)) => Err (Transport "the other side refused")
  | Ok (Some _) => Err (Protocol "not an answer")
  | Ok None => Err (Protocol "closed without an answer")
  | Err e => Err e
  | Panic => Panic
  end.

(** [open_tunnel] up to copying; [opened]: the connection gave a stream in time. *)
Definition open_tunnel (opened : bool) (target : list Z) (r : reader) (w : writer) : result unit * reader * writer :=
  if opened then
    match Frame.write_frame w (Message.TunnelOpen target) with
    | Ok w => let (answer, r) := Frame.read_frame r in (await_answer answer, r, w)
    | Err e => (Err e, r, w)
    | Panic => (Panic, r, w)
    end
  else (Err (Transport "opening a stream failed"), r, w).
End Caller.

(** ** One request, while everything else goes on *)

(** Something that happens neither on stream [i] nor to its connection's end. *)
Definition aside (i c : Z) (o : op) : Prop :=
  match o with
  | Run j _ => j <> i
  | ConnectionEnds d => d <> c
  | _ => True
  end.

(** What the service does for one tunnel request; other operations come between. A
    refused request ignores the connecting. *)
Definition serving (i : Z) (target : list Z) (tcp : result unit) (o1 o2 o3 : list op) : list op :=
  Run i (FirstMessage (Ok (Some (Message.TunnelOpen target)))) :: o1 ++ Run i (Dialled tcp) :: o2 ++ Run i (Answered (Ok tt)) :: o3.

(** What is seen of stream [i]. *)
Definition mine (i : Z) (e : effect) : bool :=
  match e with
  | Say j _ | Dial j _ | Flow j _ | Receive j _ _ | Speed j => j =? i
  | _ => false
  end.
Definition seen (i : Z) (tr : list (session * effect)) : list effect := List.filter (mine i) (map snd tr).

(** Whether the request is to be served: the text is an address, it is allowed for
    the peer at this moment, and connecting works. *)
Definition grants (s : session) (peer : NodeId) (target : list Z) (tcp : result unit) : bool :=
  match parse_addr target with Some addr => target_allowed (config s) peer addr && is_ok tcp | None => false end.

Section Call.
Context `{Blake3} `{HexDecode}.

Lemma seen_cons i o ops s : seen i (run (o :: ops) s).1 = List.filter (mine i) (step o s).1 ++ seen i (run ops (step o s).2).1.
Proof.
  cbn [run]. destruct (step o s) as [l s']. cbn. destruct (run ops s') as [tr s'']. unfold seen. cbn. rewrite map_app, List.filter_app. f_equal.
  by rewrite map_map, map_id.
Qed.

(** The stream is where it was, and so is its connection. *)
Record kept (i c : Z) (t : stream) (peer : NodeId) (s : session) : Prop := {
  kp_stream : streams s !! i = Some t;
  kp_of : s_conn t = c;
  kp_conn : conns s !! c = Some (Serving peer);
  kp_numbers : i < next_stream s /\ c < next_conn s;
}.

Lemma first_effects i j t peer r s : j <> i -> List.filter (mine i) (on_first j t peer r s).1 = [] /\
  conns (on_first j t peer r s).2 = conns s /\ next_conn (on_first j t peer r s).2 = next_conn s /\
  next_stream (on_first j t peer r s).2 = next_stream s /\ streams (on_first j t peer r s).2 !! i = streams s !! i.
Proof.
  intros Hne. unfold on_first, on_open, ended, set_phase. repeat case_match; cbn; rewrite ?(proj2 (Z.eqb_neq j i) Hne);
    repeat split; rewrite ?lookup_insert_ne, ?lookup_delete_ne by done; done.
Qed.

Lemma event_effects i j t peer e s : j <> i -> List.filter (mine i) (on_event j t peer e s).1 = [] /\
  conns (on_event j t peer e s).2 = conns s /\ next_conn (on_event j t peer e s).2 = next_conn s /\
  next_stream (on_event j t peer e s).2 = next_stream s /\ streams (on_event j t peer e s).2 !! i = streams s !! i.
Proof.
  intros Hne. unfold on_event. destruct (s_phase t) as [|tg|[tg|]|tg|m|], e as [r|[]|[]|]; try (by apply first_effects);
    cbn; rewrite ?(proj2 (Z.eqb_neq j i) Hne); repeat split; rewrite ?lookup_insert_ne, ?lookup_delete_ne by done; done.
Qed.

(** Nothing of the stream is seen in what happens elsewhere, and it stays. *)
Lemma aside_step i c o s : aside i c o -> i < next_stream s -> List.filter (mine i) (step o s).1 = [] /\ i < next_stream (step o s).2 /\
  forall t peer, kept i c t peer s -> kept i c t peer (step o s).2.
Proof.
  intros Ha Hi. destruct o as [|d|d q|d|j e|d|rules]; cbn [step] in *.
  - destruct (_ <? _); (split; [done|]); (split; [done|]); intros t peer [K1 K2 K3 K4]; split; cbn; try done; [rewrite lookup_insert_ne; [done|]|]; lia.
  - split; [done|]. split; [by destruct (bool_decide _)|]. intros t peer [K1 K2 K3 K4]. case_bool_decide as E; [|done]. split; cbn; try done.
    rewrite lookup_delete_ne; congruence.
  - unfold on_authenticated. case_bool_decide as E; [|done]. destruct (peer_allowed _ _); (split; [done|]); (split; [done|]);
      intros t peer [K1 K2 K3 K4]; split; cbn; try done; [rewrite lookup_insert_ne|rewrite lookup_delete_ne]; congruence.
  - unfold on_stream. destruct (conns s !! d) as [[|q]|] eqn:E; try done. destruct (_ <? _); cbn.
    + split; [done|]. split; [lia|]. intros t peer [K1 K2 K3 K4]. split; cbn; try done; [rewrite lookup_insert_ne; [done|]|]; lia.
    + rewrite (proj2 (Z.eqb_neq _ _)) by lia. split; [done|]. split; [lia|]. intros t peer [K1 K2 K3 K4]. split; cbn; try done. lia.
  - destruct (streams s !! j) as [t|] eqn:Et; [|done]. destruct (conns s !! s_conn t) as [[|q]|]; try done.
    destruct (event_effects i j t q e s Ha) as (E1 & E2 & E3 & E4 & E5). split; [done|]. rewrite E4. split; [done|].
    intros t0 peer [K1 K2 K3 K4]. split; rewrite ?E2, ?E3, ?E4, ?E5; done.
  - split; [done|]. split; [done|]. intros t peer [K1 K2 K3 K4]. split; cbn; try done; [|by rewrite lookup_delete_ne].
    apply map_lookup_filter_Some. split; [done|]. cbn. congruence.
  - split; [done|]. split; [done|]. intros t peer []. by split.
Qed.

Lemma seen_aside i c ops rest s : Forall (aside i c) ops -> i < next_stream s -> exists s', seen i (run (ops ++ rest) s).1 = seen i (run rest s').1 /\
  i < next_stream s' /\ forall t peer, kept i c t peer s -> kept i c t peer s'.
Proof.
  intros Ha. revert s. induction Ha as [|o ops Ho _ IH]; intros s Hi; [by exists s|]. cbn [app]. rewrite seen_cons.
  destruct (aside_step i c o s Ho Hi) as (-> & Hi' & Hk). destruct (IH _ Hi') as (s' & E & Hs' & Hk'). exists s'. split; [done|]. split; [done|]. auto.
Qed.

Lemma seen_nothing i c ops s : Forall (aside i c) ops -> i < next_stream s -> seen i (run ops s).1 = [].
Proof. intros Ha Hi. rewrite <- (app_nil_r ops). by destruct (seen_aside i c ops [] s Ha Hi) as (s' & -> & _). Qed.

Lemma kept_run i c t peer e s : kept i c t peer s -> step (Run i e) s = on_event i t peer e s.
Proof. intros [K1 K2 K3 _]. cbn [step]. by rewrite K1, K2, K3. Qed.
Lemma kept_phase i c t peer p s : kept i c t peer s -> kept i c (mk_stream (s_conn t) p) peer (set_phase i t p s).
Proof. intros [K1 K2 K3 K4]. split; try done. apply lookup_insert_eq. Qed.

(** Nothing is seen of a stream any more after its refusal. *)
Lemma refused_seen i c t tcp peer o1 o2 o3 s : Forall (aside i c) o1 -> Forall (aside i c) o2 -> Forall (aside i c) o3 ->
  kept i c t peer s -> s_phase t = Answering None -> seen i (run (o1 ++ Run i (Dialled tcp) :: o2 ++ Run i (Answered (Ok tt)) :: o3) s).1 = [] /\
  seen i (run (o2 ++ Run i (Answered (Ok tt)) :: o3) s).1 = [].
Proof.
  intros H1 H2 H3 Hk Hp.
  assert (forall s, kept i c t peer s -> seen i (run (o2 ++ Run i (Answered (Ok tt)) :: o3) s).1 = []) as Hlate.
  { intros s2 K2. destruct (seen_aside i c o2 (Run i (Answered (Ok tt)) :: o3) s2 H2 (proj1 (kp_numbers _ _ _ _ _ K2))) as (s3 & -> & _ & K3).
    specialize (K3 _ _ K2). rewrite seen_cons, (kept_run _ _ _ _ _ _ K3). unfold on_event. rewrite Hp. cbn [fst snd ended List.filter mine app].
    apply (seen_nothing i c o3 _ H3), K3. }
  split; [|by apply Hlate]. destruct (seen_aside i c o1 (Run i (Dialled tcp) :: o2 ++ Run i (Answered (Ok tt)) :: o3) s H1 (proj1 (kp_numbers _ _ _ _ _ Hk))) as (s1 & -> & _ & K1).
  specialize (K1 _ _ Hk). rewrite seen_cons, (kept_run _ _ _ _ _ _ K1). unfold on_event. rewrite Hp. destruct tcp; by apply Hlate.
Qed.

(** All that is seen of a request. *)
Lemma tunnel_serving_seen i c t peer target tcp o1 o2 o3 s : Forall (aside i c) o1 -> Forall (aside i c) o2 -> Forall (aside i c) o3 ->
  kept i c t peer s -> s_phase t = First -> exists reason,
  seen i (run (serving i target tcp o1 o2 o3) s).1 =
    match parse_addr target with
    | Some addr =>
        if target_allowed (config s) peer addr then
          Dial i addr :: if is_ok tcp then [Say i Message.TunnelReady; Flow i addr] else [Say i (Message.TunnelError reason)]
        else [Say i (Message.TunnelError reason)]
    | None => [Say i (Message.TunnelError reason)]
    end.
Proof.
  intros H1 H2 H3 Hk Hp. unfold serving. rewrite seen_cons, (kept_run _ _ _ _ _ _ Hk). unfold on_event. rewrite Hp. cbn [on_first]. unfold on_open.
  assert (forall p, kept i c (mk_stream (s_conn t) p) peer (set_phase i t p s)) as K1 by (intros p; by apply kept_phase).
  destruct (parse_addr target) as [addr|]; [destruct (target_allowed (config s) peer addr)|];
    cbn [fst snd List.filter mine app]; rewrite ?Z.eqb_refl; cbn [app];
    [|by eexists; f_equal; apply (refused_seen i c _ tcp peer o1 o2 o3 _ H1 H2 H3 (K1 _))..].
  destruct (seen_aside i c o1 (Run i (Dialled tcp) :: o2 ++ Run i (Answered (Ok tt)) :: o3) _ H1 (proj1 (kp_numbers _ _ _ _ _ (K1 (Dialing addr))))) as (s1 & -> & _ & K2).
  specialize (K2 _ _ (K1 _)). rewrite seen_cons, (kept_run _ _ _ _ _ _ K2). cbn [on_event s_phase].
  destruct tcp as [u|e|]; cbn [is_ok fst snd List.filter mine app]; rewrite Z.eqb_refl; cbn [app];
    [|by eexists; do 2 f_equal; apply (refused_seen i c _ (Ok tt) peer o1 o2 o3 _ H1 H2 H3 (kept_phase _ _ _ _ _ _ K2))..].
  exists []. do 2 f_equal. pose proof (kept_phase i c _ peer (Answering (Some addr)) s1 K2) as K3. cbn [s_conn] in K3.
  destruct (seen_aside i c o2 (Run i (Answered (Ok tt)) :: o3) _ H2 (proj1 (kp_numbers _ _ _ _ _ K3))) as (s2 & -> & _ & K4).
  specialize (K4 _ _ K3). rewrite seen_cons, (kept_run _ _ _ _ _ _ K4). cbn [on_event s_phase fst snd List.filter mine app]. rewrite Z.eqb_refl. cbn [app]. f_equal.
  apply (seen_nothing i c o3 _ H3), K4.
Qed.
End Call.

Section Answer.
Context `{Blake3} `{PostcardLaws Message.ControlMessage}.

(** A request that is written, and its answer read from the frames that arrive. *)
Lemma tunnel_answered target q m bytes rest r w : Message.encode (Message.TunnelOpen target) = Ok q -> Z.of_nat (length q) <= Frame.MAX_FRAME_LEN ->
  Message.encode m = Ok bytes -> Z.of_nat (length bytes) <= Frame.MAX_FRAME_LEN ->
  (forall f, m <> Message.ManifestMsg f) -> data_only r -> are_bytes (bytes_of r) -> broken w = None ->
  bytes_of r = Frame.frame_bytes bytes ++ rest ->
  exists r', open_tunnel true target r w = (await_answer (Ok (Some m)), r', mk_writer (out w ++ Frame.frame_bytes q) None).
Proof.
  intros Eq Hq Em Hm Hn Hd Hb Hw Er. unfold open_tunnel.
  assert (Frame.write_frame w (Message.TunnelOpen target) = Ok (mk_writer (out w ++ Frame.frame_bytes q) None)) as ->.
  { unfold Frame.write_frame. rewrite Eq. cbn [obind]. rewrite (proj2 (Z.ltb_ge _ _) Hq). cbn [fail_if obind]. by apply Frame.write_raw_Ok. }
  unfold Frame.read_frame, Frame.read_raw_frame. destruct (Frame.read_raw_data r Frame.MAX_FRAME_LEN Hd Hb) as (r' & -> & _ & _).
  rewrite Er, Frame.parse_frame_bytes by (done || by vm_compute). cbn [obind].
  assert (Message.decode bytes = Ok m) as ->; [|by exists r'].
  unfold Message.decode. rewrite (from_to_allocvec m bytes Em). cbn [obind]. destruct m; try done. by destruct (Hn manifest).
Qed.
End Answer.

(** An effect is in a short list exactly when .. *)
#[local] Ltac effects_in :=
  split; [intros Hx; repeat destruct Hx as [Hx|Hx]; try done; injection Hx as ->; auto
         |try intros [[= <-] ?]; try intros ->; auto; congruence].

Lemma tunnel_reachable `{Blake3} `{HexDecode} cfg before i t peer : let s := (run before (start cfg)).2 in
  streams s !! i = Some t -> conns s !! s_conn t = Some (Serving peer) -> kept i (s_conn t) t peer s.
Proof.
  intros s Ht Hc. pose proof (tunnel_run_sound cfg before [] (start cfg) (tunnel_start_sound cfg)) as Hs. fold s in Hs.
  split; try done. split; [by apply (so_stream _ _ _ Hs)|by apply (so_conn _ _ _ Hs); eexists].
Qed.

(** C28: Both ends agree on a tunnel. A caller asks a service, in any state it can be in, over
    a new stream for a target, any text; the service reads the request, connects and
    answers, and meanwhile serves others and reloads its policy. Then an address is
    dialled only when the text is that address and it is allowed for the caller at the
    moment of the request; the service carries bytes exactly when connecting succeeded
    as well, and to that address; it sends one answer, and the caller that reads it may
    copy bytes if and only if the service does. Else the caller gets an error. The text
    of any address, IPv4 or IPv6, is that address. *)
Theorem tunnel_call_served `{Blake3} `{PostcardLaws Message.ControlMessage} `{HexDecode} (cfg : ServeConfig) (before o1 o2 o3 : list op)
    (i : Z) (t : stream) (peer : NodeId) (target : list Z) (tcp : result unit) :
  let s := (run before (start cfg)).2 in
  let shown := seen i (run (serving i target tcp o1 o2 o3) s).1 in
  let served := grants s peer target tcp in
  streams s !! i = Some t -> s_phase t = First -> conns s !! s_conn t = Some (Serving peer) -> Forall (aside i (s_conn t)) (o1 ++ o2 ++ o3) ->
  (forall a, addr_ok a -> target = show_addr a -> served = target_allowed (config s) peer a && is_ok tcp) /\
  (forall a, Dial i a ∈ shown <-> parse_addr target = Some a /\ target_allowed (config s) peer a = true) /\
  (forall a, Flow i a ∈ shown <-> parse_addr target = Some a /\ served = true) /\
  exists m, (forall x, Say i x ∈ shown <-> x = m) /\
    forall q bytes rest r w, Message.encode (Message.TunnelOpen target) = Ok q -> Z.of_nat (length q) <= Frame.MAX_FRAME_LEN ->
      Message.encode m = Ok bytes -> Z.of_nat (length bytes) <= Frame.MAX_FRAME_LEN ->
      data_only r -> are_bytes (bytes_of r) -> broken w = None -> bytes_of r = Frame.frame_bytes bytes ++ rest ->
      exists answer r', open_tunnel true target r w = (answer, r', mk_writer (out w ++ Frame.frame_bytes q) None) /\
        answer <> Panic /\ (answer = Ok tt <-> served = true).
Proof.
  intros s shown served Ht Hp Hc Ha. apply Forall_app in Ha as [H1' [H2' H3']%Forall_app].
  pose proof (tunnel_reachable cfg before i t peer Ht Hc) as Hk. fold s in Hk.
  destruct (tunnel_serving_seen i _ t peer target tcp o1 o2 o3 s H1' H2' H3' Hk Hp) as [reason E]. fold shown in E. clearbody shown. unfold served, grants. clear served. clearbody s.
  split; [by intros a Ha ->; rewrite addr_text_back|].
  assert (forall m : Message.ControlMessage, (forall f, m <> Message.ManifestMsg f) -> forall q bytes rest r w,
      Message.encode (Message.TunnelOpen target) = Ok q -> Z.of_nat (length q) <= Frame.MAX_FRAME_LEN ->
      Message.encode m = Ok bytes -> Z.of_nat (length bytes) <= Frame.MAX_FRAME_LEN ->
      data_only r -> are_bytes (bytes_of r) -> broken w = None -> bytes_of r = Frame.frame_bytes bytes ++ rest ->
      exists answer r', open_tunnel true target r w = (answer, r', mk_writer (out w ++ Frame.frame_bytes q) None) /\ answer = await_answer (Ok (Some m)))
    as Hans.
  { intros m Hm q bytes rest r w Eq Hq Em Hb Hd Hby Hw Er. destruct (tunnel_answered target q m bytes rest r w) as [r' ->]; eauto. }
  assert (forall m reason, m = Message.TunnelError reason \/ m = Message.TunnelReady -> forall f, m <> Message.ManifestMsg f) as Hm
    by (by intros m x [->| ->] f).
  destruct (parse_addr target) as [addr|]; [destruct (target_allowed (config s) peer addr) eqn:Eal; [destruct tcp as [[]|e|]|]|];
    cbn [is_ok andb] in E |- *; (split; [intros a; rewrite E, !elem_of_cons, ?elem_of_nil; first [clear -Eal|clear]; effects_in|]);
    (split; [intros a; rewrite E, !elem_of_cons, ?elem_of_nil; clear; effects_in|]);
    [exists Message.TunnelReady|exists (Message.TunnelError reason)..]; (split; [intros x; rewrite E, !elem_of_cons, ?elem_of_nil; clear; effects_in|]);
    intros q bytes rest r w Eq Hq Em Hb Hd Hby Hw Er;
    (match type of Em with Message.encode ?x = _ => destruct (Hans x (Hm x reason ltac:(auto)) q bytes rest r w Eq Hq Em Hb Hd Hby Hw Er) as (answer & r' & Eo & ->) end);
    (eexists _, r'; split; [exact Eo|]; by repeat split).
Qed.

(** ** A service of one target *)

#[local] Instance example_postcard : Postcard Message.ControlMessage := Message.example_postcard.
#[local] Instance example_laws : PostcardLaws Message.ControlMessage := Message.example_laws.
#[local] Instance example_blake3 : Blake3 := fun x => x.
#[local] Instance example_hex_decode : HexDecode := fun x => Some x.

Definition ssh_only : ServeConfig := mk_config [[7]] [V4 2130706433 22] None 64 16 4 None.
Definition admitted_session : session := (run [Incoming; Authenticated 0 [7]; StreamArrives 0] (start ssh_only)).2.
Definition bytes_for (m : Message.ControlMessage) : list Z := match Message.encode m with Ok b => b | _ => [] end.

(** Someone else asks for a forbidden target, and the policy is reloaded, meanwhile. *)
Definition meanwhile : list op := [Incoming; Authenticated 1 [7]; StreamArrives 1; Run 1 (FirstMessage (Ok (Some (Message.TunnelOpen (lit "10.0.0.1:1"))))); Reload (Rules.default_service)].
Definition asked : list op := [Incoming; Authenticated 0 [7]; StreamArrives 0].

Lemma tunnel_call_served_witness :
  (exists r', open_tunnel true (lit "127.0.0.1:22") [Data (Frame.frame_bytes (bytes_for Message.TunnelReady))] (mk_writer [] None) =
     (Ok tt, r', mk_writer (Frame.frame_bytes (bytes_for (Message.TunnelOpen (lit "127.0.0.1:22")))) None)) /\
  Flow 0 (V4 2130706433 22) ∈ seen 0 (run (serving 0 (lit "127.0.0.1:22") (Ok tt) meanwhile [] meanwhile) (run asked (start ssh_only)).2).1 /\
  Flow 0 (V6 1 22 0 0) ∉ seen 0 (run (serving 0 (lit "[::1]:22") (Ok tt) meanwhile [] []) (run asked (start ssh_only)).2).1.
Proof.
  destruct (tunnel_call_served ssh_only asked meanwhile [] meanwhile 0 (mk_stream 0 First) [7] (lit "127.0.0.1:22") (Ok tt))
    as (_ & _ & Hf & m & Hm & Ho); try (vm_compute; reflexivity).
  { repeat constructor; discriminate. }
  destruct (tunnel_call_served ssh_only asked meanwhile [] [] 0 (mk_stream 0 First) [7] (lit "[::1]:22") (Ok tt))
    as (_ & _ & Hf6 & _); try (vm_compute; reflexivity).
  { repeat constructor; discriminate. }
  split; [|split; [apply Hf; split; vm_compute; reflexivity|intros [_ Hs]%Hf6; vm_compute in Hs; discriminate Hs]].
  assert (Message.TunnelReady = m) as <-.
  { apply Hm. vm_compute. right. left. }
  destruct (Ho (bytes_for (Message.TunnelOpen (lit "127.0.0.1:22"))) (bytes_for Message.TunnelReady) []
    [Data (Frame.frame_bytes (bytes_for Message.TunnelReady))] (mk_writer [] None)) as (answer & r' & E & _ & Hok);
    try (vm_compute; reflexivity); try (by vm_compute).
  - by repeat constructor.
  - apply (bool_decide_unpack _). vm_compute. exact I.
  - assert (answer = Ok tt) as -> by (apply Hok; vm_compute; reflexivity). by exists r'.
Defined.
End TunnelServe.
