(* ===== verification/Supervisor.v ===== *)
(** * Listeners of forwarding rules (src/tunnel/supervisor.rs)

    The supervisor that owns one listener task per enabled rule and applies a changed
    rule file.  The tasks and the channels they share with their handles are a table;
    what binding a listener gives is the operating system's answer at that moment. *)
From Stdlib Require Import ZArith Lia.
From stdpp Require Import prelude gmap strings.
From S2P Require Import Prelude Message Addr State Rules.

#[local] Open Scope Z_scope.

Module Supervisor.
Import Addr Rules.

(** [TcpListener::bind] and [local_addr] at a moment: the address that was bound. *)
Class Tcp : Type := bind : Z -> SocketAddr -> option SocketAddr.

(** A listener task, with the values of its two channels. *)
Record task : Type := mk_task {
  listener : SocketAddr;
  stopping : bool;
  route : SocketAddr;
}.

(** [task_id] names the task and the channels the handle shares with it. *)
Record RuleHandle : Type := mk_handle { rule : TunnelRule; bound : SocketAddr; task_id : Z }.

Record PreparedListener : Type := mk_listener { p_rule : TunnelRule; p_bound : SocketAddr }.
Record PreparedRules : Type := mk_prepared {
  desired : gmap (list Z) TunnelRule;
  additions : gmap (list Z) PreparedListener;
}.

(** [running] are the tasks that have not ended: their listeners are open. *)
Record RuleSupervisor : Type := mk_supervisor {
  rules : gmap (list Z) RuleHandle;
  running : gmap Z task;
  next_task : Z;
  moment : Z;
}.

Definition idle : RuleSupervisor := mk_supervisor ∅ ∅ 0 0.

Definition with_rules (m : gmap (list Z) RuleHandle) (s : RuleSupervisor) : RuleSupervisor :=
  mk_supervisor m (running s) (next_task s) (moment s).
Definition with_running (m : gmap Z task) (s : RuleSupervisor) : RuleSupervisor :=
  mk_supervisor (rules s) m (next_task s) (moment s).

Definition stop_task (k : Z) (m : gmap Z task) : gmap Z task :=
  alter (fun t => mk_task (listener t) true (route t)) k m.
Definition set_route (k : Z) (a : SocketAddr) (m : gmap Z task) : gmap Z task :=
  alter (fun t => mk_task (listener t) (stopping t) a) k m.

(** A task that was told to stop, or whose handle is gone, ends and closes its
    listener: what awaiting it waits for. *)
Definition await (k : Z) (s : RuleSupervisor) : RuleSupervisor := with_running (delete k (running s)) s.

Section WithTcp.
Context `{Tcp}.

Definition prepare_listener (r : TunnelRule) : st RuleSupervisor error PreparedListener :=
  fun s =>
    let s' := mk_supervisor (rules s) (running s) (next_task s) (moment s + 1) in
    match bind (moment s) (listen r) with
    | Some b => (Ok (mk_listener r b), s')
    | None => (Err (Transport "listening failed"), s')
    end.

Definition activate (c : PreparedListener) (s : RuleSupervisor) : RuleHandle * RuleSupervisor :=
  let k := next_task s in
  (mk_handle (p_rule c) (p_bound c) k,
   mk_supervisor (rules s) (<[k := mk_task (p_bound c) false (t_target (p_rule c))]> (running s)) (k + 1) (moment s)).

(** [rules.insert]: a handle that was there is dropped. *)
Definition add_rule (i : list Z) (c : PreparedListener) (s : RuleSupervisor) : RuleSupervisor :=
  let (h, s) := activate c s in
  let s := match rules s !! i with Some old => await (task_id old) s | None => s end in
  with_rules (<[i := h]> (rules s)) s.

Definition shutdown (s : RuleSupervisor) : RuleSupervisor :=
  let handles := map_to_list (rules s) in
  fold_left (fun s kv => await (task_id kv.2) (with_running (stop_task (task_id kv.2) (running s)) s)) handles (with_rules ∅ s).

Fixpoint start_rules (l : list TunnelRule) : st RuleSupervisor error unit :=
  match l with
  | [] => ret tt
  | r :: l =>
      let! c := attempt (prepare_listener r) in
      match c with
      | Ok c => let! _ := modify (add_rule (t_id r) c) in start_rules l
      | Err e => let! _ := modify shutdown in throw e
      | Panic => panic
      end
  end.

Definition start (l : list TunnelRule) : st RuleSupervisor error unit := start_rules (List.filter t_enabled l).

Definition keeps_listener (s : RuleSupervisor) (r : TunnelRule) : bool :=
  match rules s !! t_id r with Some old => bool_decide (listen (rule old) = listen r) | None => false end.

Definition occupied (s : RuleSupervisor) (r : TunnelRule) : bool :=
  negb (port (listen r) =? 0) && existsb (fun kv => bool_decide (bound kv.2 = listen r)) (map_to_list (rules s)).

Definition prepare_rule (p : PreparedRules) (r : TunnelRule) : st RuleSupervisor error PreparedRules :=
  let! s := get in
  if bool_decide (is_Some (desired p !! t_id r)) then throw (Protocol "repeated rule id")
  else
    let d := <[t_id r := r]> (desired p) in
    if keeps_listener s r then ret (mk_prepared d (additions p))
    else if occupied s r then throw (Protocol "address still used by a rule")
    else
      let! c := prepare_listener r in
      ret (mk_prepared d (<[t_id r := c]> (additions p))).

Definition prepare (l : list TunnelRule) : st RuleSupervisor error PreparedRules :=
  for_fold prepare_rule (mk_prepared ∅ ∅) (List.filter t_enabled l).

Definition leaves (p : PreparedRules) (i : list Z) : bool :=
  negb (bool_decide (is_Some (desired p !! i))) || bool_decide (is_Some (additions p !! i)).

(** Remove a rule: its task is told to stop. *)
Definition retire (s : RuleSupervisor) (kv : list Z * RuleHandle) : RuleSupervisor :=
  with_rules (delete kv.1 (rules s)) (with_running (stop_task (task_id kv.2) (running s)) s).

Definition retarget (s : RuleSupervisor) (kv : list Z * TunnelRule) : RuleSupervisor :=
  match rules s !! kv.1 with
  | Some h => with_rules (<[kv.1 := mk_handle kv.2 (bound h) (task_id h)]> (rules s))
                (with_running (set_route (task_id h) (t_target kv.2) (running s)) s)
  | None => s
  end.

(** The tasks to await, and the new state. *)
Definition commit (p : PreparedRules) (s : RuleSupervisor) : list Z * RuleSupervisor :=
  let removed := List.filter (fun kv => leaves p kv.1) (map_to_list (rules s)) in
  let s := fold_left retire removed s in
  let s := fold_left retarget (map_to_list (desired p)) s in
  let s := fold_left (fun s kv => add_rule kv.1 kv.2 s) (map_to_list (additions p)) s in
  (map (fun kv => task_id kv.2) removed, s).

(** What failed; nothing else changes then. *)
Definition apply (l : list TunnelRule) : st RuleSupervisor error (list error) :=
  let! p := attempt (prepare l) in
  match p with
  | Ok p =>
      let! stopped := (fun s => let (k, s) := commit p s in (Ok k, s)) in
      let! _ := modify (fun s => fold_left (fun s k => await k s) stopped s) in
      ret []
  | Err e => ret [e]
  | Panic => panic
  end.

(** What an accepted connection is forwarded to. *)
Definition forwards_to (k : Z) (s : RuleSupervisor) : option SocketAddr :=
  match running s !! k with
  | Some t => if stopping t then None else Some (route t)
  | None => None
  end.

(** ** Invariants *)

(** While rules change, the tasks in [gone] are stopping and await their end. *)
Record mid (gone : list Z) (s : RuleSupervisor) : Prop := mk_mid {
  mi_rule : forall i h, rules s !! i = Some h -> t_id (rule h) = i /\ t_enabled (rule h) = true /\
    running s !! task_id h = Some (mk_task (bound h) false (t_target (rule h))) /\
    task_id h < next_task s /\ exists n, bind n (listen (rule h)) = Some (bound h);
  mi_task : forall k t, running s !! k = Some t -> k < next_task s /\ (k ∈ gone \/ exists i h, rules s !! i = Some h /\ task_id h = k);
  mi_inj : forall i j a b, rules s !! i = Some a -> rules s !! j = Some b -> task_id a = task_id b -> i = j;
  mi_gone : forall k, k ∈ gone -> k < next_task s /\ forall i h, rules s !! i = Some h -> task_id h <> k;
}.

Abbreviation sound := (mid []).

Lemma mid_retire gone s i h : mid gone s -> rules s !! i = Some h -> mid (task_id h :: gone) (retire s (i, h)).
Proof.
  intros [M1 M2 M3 M4] Hi. unfold retire. cbn. split; cbn.
  - intros j a [Hj Ha]%lookup_delete_Some. destruct (M1 j a Ha) as (E1 & E2 & E3 & E4 & E5). split; [done|]. split; [done|].
    split; [|done]. unfold stop_task. rewrite lookup_alter_ne; [done|]. intros E. by destruct Hj; apply (M3 i j h a).
  - intros k t Hk. destruct (decide (k = task_id h)) as [->|Hne].
    + split; [|left; by left]. by destruct (M1 i h Hi) as (_ & _ & _ & ? & _).
    + unfold stop_task in Hk. rewrite lookup_alter_ne in Hk by done. destruct (M2 k t Hk) as (Hlt & [?|(j & a & Ha & E)]); (split; [done|]); [left; by right|right].
      exists j, a. split; [|done]. rewrite lookup_delete_ne; [done|]. intros <-. rewrite Hi in Ha. injection Ha as <-. by subst.
  - intros j1 j2 a b [_ Ha]%lookup_delete_Some [_ Hb]%lookup_delete_Some. by apply M3.
  - intros k [->|Hk]%elem_of_cons.
    + destruct (M1 i h Hi) as (_ & _ & _ & ? & _). split; [done|]. intros j a [Hj Ha]%lookup_delete_Some E. by destruct Hj; apply (M3 i j h a).
    + destruct (M4 k Hk) as [? Hg]. split; [done|]. intros j a [_ Ha]%lookup_delete_Some. by eapply Hg.
Qed.

Lemma mid_retarget gone s i h r : mid gone s -> rules s !! i = Some h -> t_id r = i -> t_enabled r = true -> listen (rule h) = listen r ->
  mid gone (retarget s (i, r)).
Proof.
  intros [M1 M2 M3 M4] Hi Hr He Hl. unfold retarget. cbn. rewrite Hi. destruct (M1 i h Hi) as (E1 & E2 & E3 & E4 & n & E5). split; cbn.
  - intros j a Ha. destruct (decide (j = i)) as [->|Hne].
    + rewrite lookup_insert_eq in Ha. injection Ha as <-. cbn. unfold set_route. rewrite lookup_alter_eq, E3. cbn.
      repeat split; [done|done|done|]. exists n. by rewrite <- Hl.
    + rewrite lookup_insert_ne in Ha by done. destruct (M1 j a Ha) as (F1 & F2 & F3 & F4 & F5). unfold set_route.
      rewrite lookup_alter_ne; [done|]. intros E. by apply Hne, (M3 j i a h).
  - intros k t Hk. assert (exists t, running s !! k = Some t) as [t' Ht'].
    { unfold set_route in Hk. destruct (decide (k = task_id h)) as [->|]; [by eexists|]. rewrite lookup_alter_ne in Hk by done. by eexists. }
    destruct (M2 k t' Ht') as (Hlt & [?|(j & a & Ha & E)]); (split; [done|]); [by left|right].
    destruct (decide (j = i)) as [->|]; [|by exists j, a; rewrite lookup_insert_ne].
    rewrite Hi in Ha. injection Ha as <-. eexists i, _. by rewrite lookup_insert_eq.
  - assert (forall j a, <[i:=mk_handle r (bound h) (task_id h)]> (rules s) !! j = Some a -> exists a', rules s !! j = Some a' /\ task_id a' = task_id a) as Ho.
    { intros j a Ha. destruct (decide (j = i)) as [->|]; [rewrite lookup_insert_eq in Ha; injection Ha as <-; by exists h|].
      rewrite lookup_insert_ne in Ha by done. by exists a. }
    intros j1 j2 a b (a' & Ha & Ea)%Ho (b' & Hb & Eb)%Ho E. apply (M3 j1 j2 a' b'); congruence.
  - intros k Hk. destruct (M4 k Hk) as [? Hg]. split; [done|]. intros j a Ha. destruct (decide (j = i)) as [->|].
    + rewrite lookup_insert_eq in Ha. injection Ha as <-. cbn. by eapply Hg.
    + rewrite lookup_insert_ne in Ha by done. by eapply Hg.
Qed.

Lemma mid_add gone s i c : mid gone s -> rules s !! i = None -> t_id (p_rule c) = i -> t_enabled (p_rule c) = true ->
  (exists n, bind n (listen (p_rule c)) = Some (p_bound c)) -> mid gone (add_rule i c s).
Proof.
  intros [M1 M2 M3 M4] Hi Hr He Hb. unfold add_rule, activate. cbn. rewrite Hi. split; cbn.
  - intros j a Ha. destruct (decide (j = i)) as [->|Hne].
    + rewrite lookup_insert_eq in Ha. injection Ha as <-. cbn. rewrite lookup_insert_eq. repeat split; [done|done|lia|done].
    + rewrite lookup_insert_ne in Ha by done. destruct (M1 j a Ha) as (F1 & F2 & F3 & F4 & F5).
      rewrite lookup_insert_ne by lia. repeat split; [done|done|done|lia|done].
  - intros k t Hk. destruct (decide (k = next_task s)) as [->|Hne].
    + split; [lia|]. right. eexists i, _. by rewrite lookup_insert_eq.
    + rewrite lookup_insert_ne in Hk by done. destruct (M2 k t Hk) as (Hlt & [?|(j & a & Ha & E)]); (split; [lia|]); [by left|right].
      exists j, a. split; [|done]. rewrite lookup_insert_ne; [done|]. intros <-. by rewrite Hi in Ha.
  - assert (forall j a, rules s !! j = Some a -> task_id a < next_task s) as Hlt by (intros j a Ha; by destruct (M1 j a Ha) as (_ & _ & _ & ? & _)).
    intros j1 j2 a b. rewrite !lookup_insert. repeat case_decide; subst; try done.
    + intros [= <-] Hb' E. cbn in E. apply Hlt in Hb'. lia.
    + intros Ha [= <-] E. cbn in E. apply Hlt in Ha. lia.
    + intros Ha Hb'. by apply M3.
  - intros k Hk. destruct (M4 k Hk) as [? Hg]. split; [lia|]. intros j a Ha. destruct (decide (j = i)) as [->|].
    + rewrite lookup_insert_eq in Ha. injection Ha as <-. cbn. lia.
    + rewrite lookup_insert_ne in Ha by done. by eapply Hg.
Qed.

Lemma mid_await gone k s : mid (k :: gone) s -> mid gone (await k s).
Proof.
  intros [M1 M2 M3 M4]. split; cbn.
  - intros i h Hi. destruct (M1 i h Hi) as (E1 & E2 & E3 & E4 & E5). rewrite lookup_delete_ne; [done|].
    intros E. destruct (M4 k ltac:(by left)) as [_ Hg]. by apply (Hg i h).
  - intros j t [Hj Ht]%lookup_delete_Some. destruct (M2 j t Ht) as (Hlt & [[->|?]%elem_of_cons|?]); (split; [done|]); [done|by left|by right].
  - done.
  - intros j Hj. apply M4. by right.
Qed.

Lemma mid_await_all gone s : mid gone s -> sound (fold_left (fun s k => await k s) gone s).
Proof. revert s. induction gone as [|k gone IH]; intros s Hm; [done|]. cbn. by apply IH, mid_await. Qed.

Lemma mid_ext gone gone' s : (forall k, k ∈ gone <-> k ∈ gone') -> mid gone s -> mid gone' s.
Proof.
  intros E [M1 M2 M3 M4]. split; [done| |done|].
  - intros k t Hk. destruct (M2 k t Hk) as (Hlt & Hc). split; [done|]. destruct Hc as [Hc|Hc]; [left; by apply E|by right].
  - intros k Hk. by apply M4, E.
Qed.

(** ** The three loops of [commit] *)

Lemma retire_all l gone s : NoDup l.*1 -> (forall kv, kv ∈ l -> rules s !! kv.1 = Some kv.2) -> mid gone s ->
  let s' := fold_left retire l s in
  mid (map (fun kv => task_id kv.2) l ++ gone) s' /\ next_task s' = next_task s /\
  forall i, rules s' !! i = if bool_decide (i ∈ l.*1) then None else rules s !! i.
Proof.
  revert gone s. induction l as [|[i h] l IH]; intros gone s Hn Hl Hm; cbn.
  { split; [done|]. split; [done|]. intros i. by rewrite bool_decide_eq_false_2 by apply not_elem_of_nil. }
  apply NoDup_cons in Hn as [Hi Hn]. pose proof (Hl (i, h) ltac:(by left)) as Hih. cbn in Hih.
  destruct (IH (task_id h :: gone) (retire s (i, h)) Hn) as (H1 & H2 & H3).
  - intros [j a] Hj. cbn. rewrite lookup_delete_ne; [by apply (Hl (j, a)); right|]. intros ->. apply Hi. apply list_elem_of_fmap. by exists (j, a).
  - by apply mid_retire.
  - split; [|split; [done|]].
    + eapply mid_ext; [|exact H1]. intros k. set_solver.
    + intros j. rewrite H3. cbn. destruct (decide (j = i)) as [->|Hne].
      * rewrite lookup_delete_eq. rewrite (bool_decide_eq_true_2 (i ∈ i :: _)) by (by left). by destruct (bool_decide _).
      * rewrite lookup_delete_ne by done. erewrite bool_decide_ext; [done|]. rewrite elem_of_cons. tauto.
Qed.

Lemma retarget_all l gone s : NoDup l.*1 ->
  (forall i r, (i, r) ∈ l -> t_id r = i /\ t_enabled r = true /\ forall h, rules s !! i = Some h -> listen (rule h) = listen r) -> mid gone s ->
  let s' := fold_left retarget l s in
  mid gone s' /\ next_task s' = next_task s /\
  forall i, rules s' !! i = match rules s !! i, (list_to_map l : gmap (list Z) TunnelRule) !! i with
                            | Some h, Some r => Some (mk_handle r (bound h) (task_id h))
                            | x, _ => x
                            end.
Proof.
  revert s. induction l as [|[i r] l IH]; intros s Hn Hl Hm; cbn.
  { split; [done|]. split; [done|]. intros i. rewrite lookup_empty. by destruct (rules s !! i). }
  apply NoDup_cons in Hn as [Hi Hn]. destruct (Hl i r ltac:(by left)) as (Hr & He & Hh).
  assert (mid gone (retarget s (i, r)) /\ next_task (retarget s (i, r)) = next_task s /\
    forall j, rules (retarget s (i, r)) !! j = match rules s !! j with Some h => if bool_decide (j = i) then Some (mk_handle r (bound h) (task_id h)) else Some h | None => None end)
    as (H1 & H2 & H3).
  { destruct (rules s !! i) as [h|] eqn:Ei.
    - split; [by apply mid_retarget with h; [..|by apply Hh]|]. unfold retarget. cbn. rewrite Ei. split; [done|]. intros j. cbn.
      rewrite lookup_insert. case_decide as Hd.
      + subst j. by rewrite Ei, bool_decide_true.
      + rewrite bool_decide_false by congruence. by destruct (rules s !! j).
    - unfold retarget. cbn. rewrite Ei. split; [done|]. split; [done|]. intros j. destruct (rules s !! j) eqn:Ej; [|done].
      by rewrite bool_decide_false by congruence. }
  destruct (IH (retarget s (i, r)) Hn) as (G1 & G2 & G3); [|done|].
  - intros j q Hj. destruct (Hl j q ltac:(by right)) as (? & ? & Hq). split; [done|]. split; [done|]. intros h. rewrite H3.
    destruct (rules s !! j) as [h'|] eqn:Ej; [|done]. rewrite bool_decide_false; [intros [= <-]; by apply Hq|].
    intros ->. apply Hi, list_elem_of_fmap. by exists (i, q).
  - split; [done|]. split; [congruence|]. intros j. rewrite G3, H3. rewrite lookup_insert. destruct (rules s !! j) as [h|] eqn:Ej; [|done].
    case_decide as Hd.
    + subst j. rewrite bool_decide_true by done. rewrite not_elem_of_list_to_map_1 by done. done.
    + by rewrite bool_decide_false by congruence.
Qed.

Lemma add_all l gone s : NoDup l.*1 ->
  (forall i c, (i, c) ∈ l -> rules s !! i = None /\ t_id (p_rule c) = i /\ t_enabled (p_rule c) = true /\ exists n, bind n (listen (p_rule c)) = Some (p_bound c)) -> mid gone s ->
  let s' := fold_left (fun s kv => add_rule kv.1 kv.2 s) l s in
  mid gone s' /\ next_task s <= next_task s' /\
  forall i, match (list_to_map l : gmap (list Z) PreparedListener) !! i with
            | Some c => exists k, rules s' !! i = Some (mk_handle (p_rule c) (p_bound c) k) /\ next_task s <= k
            | None => rules s' !! i = rules s !! i
            end.
Proof.
  revert s. induction l as [|[i c] l IH]; intros s Hn Hl Hm; cbn -[add_rule].
  { split; [done|]. split; [lia|]. intros i. by rewrite lookup_empty. }
  apply NoDup_cons in Hn as [Hi Hn]. destruct (Hl i c ltac:(by left)) as (Hn1 & Hr & He & Hb).
  assert (rules (add_rule i c s) = <[i := mk_handle (p_rule c) (p_bound c) (next_task s)]> (rules s) /\ next_task (add_rule i c s) = next_task s + 1)
    as [Er Et] by (unfold add_rule; cbn; by rewrite Hn1).
  destruct (IH (add_rule i c s) Hn) as (H1 & H2 & H3); [|by apply mid_add|].
  - intros j a Hj. rewrite Er. destruct (Hl j a ltac:(by right)) as (? & ?). rewrite lookup_insert_ne; [done|].
    intros <-. apply Hi, list_elem_of_fmap. by exists (i, a).
  - rewrite Et in H2, H3. split; [done|]. split; [lia|]. intros j. specialize (H3 j). rewrite lookup_insert. case_decide as Hd.
    + subst j. rewrite not_elem_of_list_to_map_1 in H3 by done. exists (next_task s). split; [|lia]. by rewrite H3, Er, lookup_insert_eq.
    + destruct (list_to_map l !! j) as [b|]; [destruct H3 as (k & E & Hk); exists k; split; [done|lia]|].
      by rewrite H3, Er, lookup_insert_ne.
Qed.

(** ** Preparing *)

Record prepared (s : RuleSupervisor) (p : PreparedRules) (l : list TunnelRule) : Prop := mk_plan {
  pr_ids : NoDup (map t_id l);
  pr_desired : forall i r, desired p !! i = Some r <-> r ∈ l /\ t_id r = i;
  pr_add : forall i c, additions p !! i = Some c -> desired p !! i = Some (p_rule c) /\ exists n, bind n (listen (p_rule c)) = Some (p_bound c);
  pr_new : forall i r, desired p !! i = Some r -> additions p !! i = None <-> keeps_listener s r = true;
}.

(** Everything but the moment. *)
Definition unchanged (s s' : RuleSupervisor) : Prop := rules s' = rules s /\ running s' = running s /\ next_task s' = next_task s.

(** What may go wrong. *)
Definition refused (s : RuleSupervisor) (l : list TunnelRule) : Prop :=
  ~ NoDup (map t_id l) \/ exists r, r ∈ l /\ keeps_listener s r = false /\ (occupied s r = true \/ exists n, bind n (listen r) = None).

Lemma prepared_add s p l r (o : option PreparedListener) : prepared s p l -> desired p !! t_id r = None ->
  match o with
  | Some c => p_rule c = r /\ keeps_listener s r = false /\ exists n, bind n (listen r) = Some (p_bound c)
  | None => keeps_listener s r = true
  end ->
  prepared s (mk_prepared (<[t_id r := r]> (desired p)) (match o with Some c => <[t_id r := c]> (additions p) | None => additions p end)) (l ++ [r]).
Proof.
  intros [P1 P2 P3 P4] Hn Ho. assert (additions p !! t_id r = None) as Hna.
  { destruct (additions p !! t_id r) eqn:E; [|done]. apply P3 in E as [E _]. congruence. }
  split; cbn.
  - rewrite map_app. apply NoDup_app. split; [done|]. split; [|apply NoDup_singleton]. intros i Hi ->%list_elem_of_singleton.
    apply list_elem_of_fmap in Hi as (r' & E & Hr'). assert (desired p !! t_id r = Some r') as E' by (by apply P2). congruence.
  - intros i q. rewrite elem_of_app, list_elem_of_singleton. destruct (decide (i = t_id r)) as [->|Hne].
    + rewrite lookup_insert_eq. split; [intros [= <-]; auto|]. intros [[Hq| ->] E]; [|done].
      assert (desired p !! t_id r = Some q) as E' by (by apply P2). congruence.
    + rewrite lookup_insert_ne by done. rewrite P2. split; [tauto|]. intros [[Hq| ->] E]; [done|congruence].
  - intros i c Hc. destruct (decide (i = t_id r)) as [->|Hne].
    + rewrite lookup_insert_eq. destruct o as [c'|]; [|congruence]. rewrite lookup_insert_eq in Hc. injection Hc as <-.
      destruct Ho as (E & _ & Hb). rewrite E. by split.
    + rewrite lookup_insert_ne by done. apply P3. destruct o; [|done]. by rewrite lookup_insert_ne in Hc.
  - intros i q. destruct (decide (i = t_id r)) as [->|Hne].
    + rewrite lookup_insert_eq. intros [= <-]. destruct o as [c'|]; [|by rewrite Hna]. rewrite lookup_insert_eq.
      destruct Ho as (_ & Hk & _). rewrite Hk. split; congruence.
    + rewrite lookup_insert_ne by done. intros Hq. rewrite <- (P4 i q Hq). destruct o; [|done]. by rewrite lookup_insert_ne.
Qed.

Lemma wp_prepare_rules l s :
  wp (prepare l) (fun p s' => unchanged s s' /\ prepared s p (List.filter t_enabled l))
    (fun _ s' => unchanged s s' /\ refused s (List.filter t_enabled l)) s.
Proof.
  unfold prepare. set (f := List.filter t_enabled l).
  eapply wp_conseq; [apply (wp_for_fold _ _ _ (fun rest p s' => unchanged s s' /\ exists l0, f = l0 ++ rest /\ prepared s p l0) (fun _ s' => unchanged s s' /\ refused s f))|..].
  - split; [done|]. exists []. split; [done|]. split; cbn; [constructor| | |].
    + intros i r. rewrite lookup_empty. split; [done|]. intros [Hr _]. by apply not_elem_of_nil in Hr.
    + intros i c. by rewrite lookup_empty.
    + intros i r. by rewrite lookup_empty.
  - intros r rest p s1 (Hu & l0 & E & Hp). unfold prepare_rule. apply wp_bind, wp_get. destruct Hu as (U1 & U2 & U3).
    assert (keeps_listener s1 r = keeps_listener s r) as Ek by (unfold keeps_listener; by rewrite U1).
    assert (occupied s1 r = occupied s r) as Eo by (unfold occupied; by rewrite U1).
    assert (r ∈ f) as Hr by (rewrite E; set_solver).
    case_bool_decide as Hd.
    { apply wp_throw. split; [done|]. left. rewrite E, map_app. intros (_ & Hn & _)%NoDup_app.
      destruct Hd as [q Hq%(pr_desired _ _ _ Hp)]. destruct Hq as [Hq Eq]. apply (Hn (t_id r)); [rewrite <- Eq; by apply list_elem_of_fmap_2|by left]. }
    assert (desired p !! t_id r = None) as Hn by (destruct (desired p !! t_id r); [destruct Hd; by eexists|done]).
    rewrite Ek, Eo. destruct (keeps_listener s r) eqn:Kr.
    { apply wp_ret. split; [done|]. exists (l0 ++ [r]). split; [by rewrite <- app_assoc|]. by apply (prepared_add s p l0 r None). }
    destruct (occupied s r) eqn:Or; [apply wp_throw; split; [done|]; right; exists r; auto|].
    apply wp_bind. unfold wp, prepare_listener. destruct (bind (moment s1) (listen r)) as [b|] eqn:Eb.
    + cbn. split; [done|]. exists (l0 ++ [r]). split; [by rewrite <- app_assoc|].
      apply (prepared_add s p l0 r (Some (mk_listener r b))); [done|done|]. split; [done|]. split; [done|]. by exists (moment s1).
    + split; [done|]. right. exists r. split; [done|]. split; [done|]. right. by exists (moment s1).
  - intros p s' (Hu & l0 & E & Hp). rewrite app_nil_r in E. subst l0. by split.
  - done.
Qed.

(** ** Committing *)

Lemma commit_spec p s l : sound s -> prepared s p l -> Forall (fun r => t_enabled r = true) l ->
  let (stopped, s') := commit p s in
  mid stopped s' /\
  forall i, match desired p !! i with
            | None => rules s' !! i = None
            | Some r => exists h, rules s' !! i = Some h /\ rule h = r /\
                (keeps_listener s r = true -> exists old, rules s !! i = Some old /\ bound h = bound old /\ task_id h = task_id old)
            end.
Proof.
  intros Hs Hp Hl. unfold commit. set (removed := List.filter _ _).
  assert (forall i r, desired p !! i = Some r -> t_id r = i /\ t_enabled r = true) as Hd.
  { intros i r [Hr Ei]%(pr_desired _ _ _ Hp). split; [done|]. rewrite Forall_forall in Hl. by apply Hl. }
  assert (NoDup removed.*1) as Hn.
  { unfold removed. assert (forall f (m : list (list Z * RuleHandle)), NoDup m.*1 -> NoDup (List.filter f m).*1) as Hf.
    { clear. intros f m. induction m as [|x m IH]; cbn; [done|]. intros [Hx Hm]%NoDup_cons. destruct (f x); cbn; [|by apply IH].
      apply NoDup_cons. split; [|by apply IH]. contradict Hx. apply list_elem_of_fmap in Hx as (y & -> & Hy).
      apply list_elem_of_fmap. exists y. split; [done|]. apply list_elem_of_In, filter_In in Hy as [Hy _]. by apply list_elem_of_In. }
    apply Hf, NoDup_fst_map_to_list. }
  assert (forall i h, (i, h) ∈ removed <-> rules s !! i = Some h /\ leaves p i = true) as Hrm.
  { intros i h. unfold removed. rewrite list_elem_of_In, filter_In, <- list_elem_of_In, elem_of_map_to_list. done. }
  destruct (retire_all removed [] s Hn) as (A1 & A2 & A3); [intros [i h] Hi; by apply Hrm|done|]. rewrite app_nil_r in A1.
  set (s1 := fold_left retire removed s) in *.
  assert (forall i, rules s1 !! i = if leaves p i then None else rules s !! i) as R1.
  { intros i. rewrite A3. case_bool_decide as Hi.
    - apply list_elem_of_fmap in Hi as ([j h] & -> & Hj%Hrm). cbn. by destruct Hj as [_ ->].
    - destruct (leaves p i) eqn:El; [|done]. destruct (rules s !! i) as [h|] eqn:E; [|done].
      destruct Hi. apply list_elem_of_fmap. exists (i, h). split; [done|]. by apply Hrm. }
  destruct (retarget_all (map_to_list (desired p)) (map (fun kv => task_id kv.2) removed) s1 (NoDup_fst_map_to_list _)) as (B1 & B2 & B3); [|done|].
  { intros i r Hir%elem_of_map_to_list. destruct (Hd i r Hir) as [E1 E2]. split; [done|]. split; [done|]. intros h. rewrite R1.
    destruct (leaves p i) eqn:El; [done|]. intros Hh. unfold leaves in El. apply orb_false_iff in El as [_ El%bool_decide_eq_false].
    assert (additions p !! i = None) as Ha by (destruct (additions p !! i); [destruct El; by eexists|done]).
    apply (pr_new _ _ _ Hp i r Hir) in Ha. unfold keeps_listener in Ha. rewrite E1, Hh in Ha. by apply bool_decide_eq_true in Ha. }
  set (s2 := fold_left retarget _ s1) in *. rewrite list_to_map_to_list in B3.
  destruct (add_all (map_to_list (additions p)) (map (fun kv => task_id kv.2) removed) s2 (NoDup_fst_map_to_list _)) as (C1 & C2 & C3); [|done|].
  { intros i c Hc%elem_of_map_to_list. destruct (pr_add _ _ _ Hp i c Hc) as [Hdc Hb]. destruct (Hd i _ Hdc) as [E1 E2].
    split; [|done]. rewrite B3, R1. unfold leaves. rewrite Hc. by rewrite (bool_decide_eq_true_2 (is_Some (Some c))), orb_true_r by (by eexists). }
  set (s3 := fold_left _ _ s2) in *. rewrite list_to_map_to_list in C3. split; [exact C1|].
  intros i. specialize (C3 i). destruct (desired p !! i) as [r|] eqn:Ed.
  - destruct (additions p !! i) as [c|] eqn:Ea.
    + destruct C3 as (k & E & _). destruct (pr_add _ _ _ Hp i c Ea) as [Hdc _]. eexists. split; [exact E|]. cbn. split; [congruence|].
      intros Hk%(pr_new _ _ _ Hp i r Ed). congruence.
    + pose proof (proj1 (pr_new _ _ _ Hp i r Ed) Ea) as Hk. pose proof Hk as Hk'. unfold keeps_listener in Hk. destruct (Hd i r Ed) as [E1 _]. rewrite E1 in Hk.
      destruct (rules s !! i) as [old|] eqn:Eo; [|done]. rewrite B3, R1, Ed in C3. unfold leaves in C3. rewrite Ed, Ea in C3.
      rewrite bool_decide_eq_true_2, bool_decide_eq_false_2, Eo in C3 by (by eexists || by intros [? ?]). cbn in C3.
      eexists. split; [exact C3|]. cbn. split; [done|]. intros _. by exists old.
  - destruct (additions p !! i) as [c|] eqn:Ea; [apply (pr_add _ _ _ Hp) in Ea as [Ea _]; congruence|].
    rewrite C3, B3, R1. unfold leaves. rewrite Ed. by rewrite (bool_decide_eq_false_2 (is_Some None)) by (by intros [? ?]).
Qed.

(** ** Starting *)

Lemma add_rule_dropped s i c old : sound s -> rules s !! i = Some old -> add_rule i c s = add_rule i c (await (task_id old) (retire s (i, old))).
Proof.
  intros [M1 _ _ _] Hi. destruct (M1 i old Hi) as (_ & _ & _ & Hlt & _). unfold add_rule, activate. cbn. rewrite Hi, lookup_delete_eq.
  unfold with_rules, await, with_running. cbn. f_equal; [by rewrite insert_delete_eq|].
  apply map_eq. intros k. unfold stop_task. rewrite lookup_delete, !lookup_insert, lookup_delete, lookup_alter.
  repeat case_decide; subst; try done; lia.
Qed.

Lemma sound_add s i c : sound s -> t_id (p_rule c) = i -> t_enabled (p_rule c) = true ->
  (exists n, bind n (listen (p_rule c)) = Some (p_bound c)) -> sound (add_rule i c s).
Proof.
  intros Hs Hr He Hb. destruct (rules s !! i) as [old|] eqn:Hi; [|by apply mid_add].
  rewrite (add_rule_dropped s i c old) by done. apply mid_add; [|cbn; apply lookup_delete_eq|done|done|done].
  apply mid_await. by apply mid_retire.
Qed.

Lemma shutdown_ends s : sound s -> rules (shutdown s) = ∅ /\ running (shutdown s) = ∅.
Proof.
  intros [M1 M2 M3 M4]. unfold shutdown.
  assert (forall l s1, rules (fold_left (fun s kv => await (task_id kv.2) (with_running (stop_task (task_id kv.2) (running s)) s)) l s1) = rules s1 /\
    forall k, running (fold_left (fun (s : RuleSupervisor) (kv : list Z * RuleHandle) => await (task_id kv.2) (with_running (stop_task (task_id kv.2) (running s)) s)) l s1) !! k =
      if bool_decide (k ∈ map (fun kv => task_id kv.2) l) then None else running s1 !! k) as Hf.
  { induction l as [|[i h] l IH]; intros s1; cbn [fold_left map].
    - split; [done|]. intros k. by rewrite bool_decide_eq_false_2 by apply not_elem_of_nil.
    - destruct (IH (await (task_id h) (with_running (stop_task (task_id h) (running s1)) s1))) as [E1 E2]. split; [exact E1|]. intros k. rewrite E2. cbn.
      destruct (decide (k = task_id h)) as [->|Hne].
      + rewrite lookup_delete_eq. rewrite (bool_decide_eq_true_2 (_ ∈ task_id h :: _)) by (by left). by destruct (bool_decide _).
      + unfold stop_task. rewrite lookup_delete_ne, lookup_alter_ne by done. erewrite bool_decide_ext; [done|]. rewrite elem_of_cons. tauto. }
  destruct (Hf (map_to_list (rules s)) (with_rules ∅ s)) as [-> E]. split; [done|]. apply map_eq. intros k. rewrite E, lookup_empty. cbn.
  destruct (running s !! k) as [t|] eqn:Ek; [|by destruct (bool_decide _)]. destruct (M2 k t Ek) as [_ [Hk|(i & h & Hh & <-)]]; [by apply not_elem_of_nil in Hk|].
  rewrite bool_decide_eq_true_2; [done|]. apply (list_elem_of_fmap_2 (fun kv : list Z * RuleHandle => task_id kv.2) _ (i, h)), elem_of_map_to_list, Hh.
Qed.

Lemma wp_start_rules l s : sound s -> Forall (fun r => t_enabled r = true) l ->
  wp (start_rules l) (fun _ s' => sound s') (fun _ s' => rules s' = ∅ /\ running s' = ∅) s.
Proof.
  revert s. induction l as [|r l IH]; intros s Hs Hl; cbn [start_rules]; [by apply wp_ret|].
  apply Forall_cons in Hl as [Hr Hl]. apply wp_bind, wp_attempt. unfold wp at 1, prepare_listener.
  assert (sound (mk_supervisor (rules s) (running s) (next_task s) (moment s + 1))) as Hs' by (destruct Hs; by split).
  destruct (bind (moment s) (listen r)) as [b|] eqn:Eb.
  - apply wp_bind, wp_modify, IH; [|done]. apply sound_add; [done|done|done|]. by exists (moment s).
  - apply wp_bind, wp_modify, wp_throw. by apply shutdown_ends.
Qed.
End WithTcp.

(** ** A supervisor's life *)

Inductive life `{Tcp} : RuleSupervisor -> Prop :=
  | started l s : start l idle = (Ok tt, s) -> life s
  | applied s l errors s' : life s -> apply l s = (Ok errors, s') -> life s'.

Section Life.
Context `{Tcp}.
Abbreviation sound := (mid []).

Lemma enabled_all l : Forall (fun r => t_enabled r = true) (List.filter t_enabled l).
Proof. apply Forall_forall. intros r Hr. by apply list_elem_of_In, filter_In in Hr as [_ ?]. Qed.

Lemma sound_idle : sound idle.
Proof. split; cbn; [intros i h|intros k t|intros i j a b|intros k Hk%not_elem_of_nil]; by rewrite ?lookup_empty. Qed.

(** One application, from a sound state. *)
Lemma apply_spec l s : sound s ->
  exists errors s', apply l s = (Ok errors, s') /\ sound s' /\
    (errors <> [] /\ unchanged s s' /\ refused s (List.filter t_enabled l) \/
     errors = [] /\ exists p, prepared s p (List.filter t_enabled l) /\
       forall i, match desired p !! i with
                 | None => rules s' !! i = None
                 | Some r => exists h, rules s' !! i = Some h /\ rule h = r /\
                     (keeps_listener s r = true -> exists old, rules s !! i = Some old /\ bound h = bound old /\ task_id h = task_id old)
                 end).
Proof.
  intros Hs. assert (forall s', unchanged s s' -> sound s') as Hu.
  { intros [? ? ? ?] (E1 & E2 & E3). cbn in *. subst. destruct Hs. by split. }
  pose proof (wp_prepare_rules l s) as Hp. unfold wp in Hp. unfold apply, attempt, sbind.
  destruct (prepare l s) as [[p|e|] s1]; [| |done].
  - destruct Hp as [H1 Hp]. pose proof (Hu s1 H1) as Hs1. destruct H1 as (U1 & U2 & U3).
    assert (prepared s1 p (List.filter t_enabled l)) as Hp1.
    { destruct Hp as [P1 P2 P3 P4]. split; try done. intros i r Hr. rewrite (P4 i r Hr). unfold keeps_listener. by rewrite U1. }
    pose proof (commit_spec p s1 _ Hs1 Hp1 (enabled_all l)) as Hc. destruct (commit p s1) as [stopped s2]. destruct Hc as [Hm Hc].
    eexists _, _. split; [reflexivity|]. split; [by apply mid_await_all|]. right. split; [done|]. exists p. split; [done|]. intros i.
    assert (rules (fold_left (fun s k => await k s) stopped s2) = rules s2) as ->.
    { clear. revert s2. induction stopped as [|k l IH]; intros s2; [done|]. cbn. by rewrite IH. }
    specialize (Hc i). rewrite U1 in Hc. destruct (desired p !! i) as [r|]; [|done]. destruct Hc as (h & E1 & E2 & E3). exists h.
    split; [done|]. split; [done|]. intros Hk. apply E3. unfold keeps_listener in *. by rewrite U1.
  - destruct Hp as [H1 Hp]. eexists _, _. split; [reflexivity|]. split; [by apply Hu|]. left. by split.
Qed.

Lemma life_sound s : life s -> sound s.
Proof.
  induction 1 as [l s E|s l errors s' _ IH E].
  - pose proof (wp_start_rules _ idle sound_idle (enabled_all l)) as Hw. unfold start in E. unfold wp in Hw. by rewrite E in Hw.
  - destruct (apply_spec l s IH) as (er & s1 & E1 & Hs & _). rewrite E in E1. by injection E1 as _ <-.
Qed.
End Life.

(** C27: A changed rule file is applied wholly or not at all, and disturbs nothing else.
    A supervisor that fails to start leaves no listener behind. Later, whatever happened
    before, applying a file never panics: it reports an error, for a repeated id, an
    address another rule still holds or one that cannot be bound, and then nothing has
    changed; or there is exactly one rule per enabled entry, its listener at its address
    forwards new connections to its target, a rule whose address did not change keeps
    its listener, and no other listener is open. *)
Theorem rules_applied_whole `{Tcp} (l : list TunnelRule) :
  (forall e s, start l idle = (Err e, s) -> rules s = ∅ /\ running s = ∅) /\
  forall s, life s -> exists errors s', apply l s = (Ok errors, s') /\
    (errors <> [] -> unchanged s s' /\ refused s (List.filter t_enabled l)) /\
    (errors = [] -> NoDup (map t_id (List.filter t_enabled l)) /\
       (forall i, is_Some (rules s' !! i) <-> i ∈ map t_id (List.filter t_enabled l)) /\
       (forall r, r ∈ List.filter t_enabled l -> exists h, rules s' !! t_id r = Some h /\ rule h = r /\
          forwards_to (task_id h) s' = Some (t_target r) /\ (exists n, bind n (listen r) = Some (bound h)) /\
          forall old, rules s !! t_id r = Some old -> listen (rule old) = listen r -> task_id h = task_id old /\ bound h = bound old) /\
       (forall k, is_Some (running s' !! k) -> exists i h, rules s' !! i = Some h /\ task_id h = k)).
Proof.
  split.
  { intros e s E. pose proof (wp_start_rules _ idle sound_idle (enabled_all l)) as Hw. unfold start in E. unfold wp in Hw. by rewrite E in Hw. }
  intros s Hl%life_sound. destruct (apply_spec l s Hl) as (errors & s' & E & [M1 M2 _ _] & Hc). exists errors, s'. split; [done|].
  destruct Hc as [(He & Hu & Hr)|(-> & p & Hp & Hc)]; [by split|]. split; [done|]. intros _. split; [apply (pr_ids _ _ _ Hp)|].
  assert (forall r, r ∈ List.filter t_enabled l -> desired p !! t_id r = Some r) as Hd by (intros r Hr; by apply (pr_desired _ _ _ Hp)).
  split; [|split].
  - intros i. rewrite list_elem_of_fmap. specialize (Hc i). destruct (desired p !! i) as [r|] eqn:Ed.
    + destruct Hc as (h & -> & _). apply (pr_desired _ _ _ Hp) in Ed as [Hr Ei]. split; [by exists r|by eexists].
    + rewrite Hc. split; [by intros [? ?]|]. intros (r & -> & Hr). rewrite (Hd r Hr) in Ed. congruence.
  - intros r Hr. specialize (Hc (t_id r)). rewrite (Hd r Hr) in Hc. destruct Hc as (h & Eh & <- & Hk). exists h. split; [done|]. split; [done|].
    destruct (M1 _ _ Eh) as (_ & _ & Ht & _ & Hb). unfold forwards_to. rewrite Ht. split; [done|]. split; [done|]. intros old Eo El.
    destruct Hk as (old' & Eo' & E1 & E2); [unfold keeps_listener; rewrite Eo; by apply bool_decide_eq_true|]. split; congruence.
  - intros k [t Ht]. destruct (M2 k t Ht) as [_ [Hk|Hk]]; [by apply not_elem_of_nil in Hk|done].
Qed.

(** ** Two rules *)

(** Port 9 cannot be bound. *)
Definition home_tcp : Tcp := fun _ a => if port a =? 9 then None else Some a.
Definition local_rule (name listen target : Z) : TunnelRule :=
  mk_rule [name] [name] [] (V4 2130706433 listen) (V4 2130706433 target) true false.

Lemma rules_applied_whole_witness :
  exists s1 s2 s3, @start home_tcp [local_rule 119 8080 80] idle = (Ok tt, s1) /\
    @apply home_tcp [local_rule 119 8080 81; local_rule 115 8022 22] s1 = (Ok [], s2) /\
    forwards_to 0 s2 = Some (V4 2130706433 81) /\ forwards_to 1 s2 = Some (V4 2130706433 22) /\
    (exists e, @apply home_tcp [local_rule 119 8081 81; local_rule 120 9 1] s2 = (Ok [e], s3)) /\ unchanged s2 s3.
Proof.
  destruct (@start home_tcp [local_rule 119 8080 80] idle) as [r1 s1] eqn:E1.
  assert (r1 = Ok tt) as -> by (change r1 with (r1, s1).1; rewrite <- E1; vm_compute; reflexivity).
  pose proof (@started home_tcp _ _ E1) as L1.
  destruct (proj2 (@rules_applied_whole home_tcp [local_rule 119 8080 81; local_rule 115 8022 22]) s1 L1) as (errors & s2 & E2 & _ & _).
  assert (s1 = (@start home_tcp [local_rule 119 8080 80] idle).2) as Es1 by (by rewrite E1).
  assert (s2 = (@apply home_tcp [local_rule 119 8080 81; local_rule 115 8022 22] s1).2) as Es2 by (by rewrite E2).
  assert (errors = []) as ->.
  { assert ((@apply home_tcp [local_rule 119 8080 81; local_rule 115 8022 22] s1).1 = Ok []) as H by (rewrite Es1; vm_compute; reflexivity).
    rewrite E2 in H. by injection H. }
  pose proof (@applied home_tcp _ _ _ _ L1 E2) as L2.
  destruct (proj2 (@rules_applied_whole home_tcp [local_rule 119 8081 81; local_rule 120 9 1]) s2 L2) as (errors & s3 & E3 & Hu & _).
  assert (errors = [Transport "listening failed"]) as ->.
  { assert ((@apply home_tcp [local_rule 119 8081 81; local_rule 120 9 1] s2).1 = Ok [Transport "listening failed"]) as H
      by (rewrite Es2, Es1; vm_compute; reflexivity). rewrite E3 in H. by injection H. }
  exists s1, s2, s3. split; [reflexivity|]. split; [exact E2|].
  split; [rewrite Es2, Es1; vm_compute; reflexivity|]. split; [rewrite Es2, Es1; vm_compute; reflexivity|].
  split; [by eexists|]. by apply Hu.
Defined.
End Supervisor.
