(* ===== verification/Forwarding.v ===== *)
(** * Listeners of the agent (src/node/host/forwarding.rs, ForwardStreamOwner of
      src/tunnel/mod.rs)

    The forward manager prepares a plan from the settings, commits it without waiting,
    and remembers which rules were stopped by hand.  A task shares its route, its stop
    switch and its last error with its handle; accepted flows belong to the node. *)
From Stdlib Require Import ZArith Lia.
From stdpp Require Import prelude gmap strings.
From S2P Require Import Prelude Message Addr State Identity Hexadecimal Rules Supervisor.

#[local] Open Scope Z_scope.

Module Forwarding.
Import Addr Rules.
Import Supervisor (Tcp, bind).
Abbreviation RuleId := (list Z).

(** [NodeControl::connection_updates]: whether a device can be subscribed to. *)
Class Control : Type := connection_updates : Z -> NodeId -> bool.

(** What a plan reads of the settings. *)
Record NodeSettings : Type := mk_settings {
  forwards : list TunnelRule;
  service_ids : gmap RuleId (list Z);
}.

Record Route : Type := mk_route { r_peer : NodeId; service : list Z }.
#[global] Instance Route_eq_dec : EqDecision Route.
Proof. solve_decision. Defined.

(** A listener task. *)
Record task : Type := mk_task {
  stopping : bool;
  route : Route;
  finished : bool;
  last_error : option string;
}.

Record Running : Type := mk_running { f_listen : SocketAddr; f_task : Z }.

Record Prepared : Type := mk_prepared {
  known : gset RuleId;
  forced_start : option RuleId;
  desired : gmap RuleId (SocketAddr * Route);
  additions : gset RuleId;
}.

(** [streams] are the accepted flows, each of a listener task. *)
Record ForwardManager : Type := mk_manager {
  suppressed : gset RuleId;
  active : gmap RuleId Running;
  tasks : gmap Z task;
  next_task : Z;
  streams : gmap Z (Z * Route);
  next_stream : Z;
  closed : bool;
  moment : Z;
}.

Definition initial : ForwardManager := mk_manager ∅ ∅ ∅ 0 ∅ 0 false 0.

(** The node's flows, and those of one listener. *)
Definition OWNER_LIMIT : Z := 256.
Definition LISTENER_LIMIT : Z := 32.

Definition with_suppressed (x : gset RuleId) (s : ForwardManager) : ForwardManager :=
  mk_manager x (active s) (tasks s) (next_task s) (streams s) (next_stream s) (closed s) (moment s).
Definition with_active (x : gmap RuleId Running) (s : ForwardManager) : ForwardManager :=
  mk_manager (suppressed s) x (tasks s) (next_task s) (streams s) (next_stream s) (closed s) (moment s).
Definition with_tasks (x : gmap Z task) (s : ForwardManager) : ForwardManager :=
  mk_manager (suppressed s) (active s) x (next_task s) (streams s) (next_stream s) (closed s) (moment s).
Definition with_streams (x : gmap Z (Z * Route)) (s : ForwardManager) : ForwardManager :=
  mk_manager (suppressed s) (active s) (tasks s) (next_task s) x (next_stream s) (closed s) (moment s).
Definition tick (s : ForwardManager) : ForwardManager :=
  mk_manager (suppressed s) (active s) (tasks s) (next_task s) (streams s) (next_stream s) (closed s) (moment s + 1).

Definition set_error (e : option string) (t : task) : task := mk_task (stopping t) (route t) (finished t) e.
Definition stop_task (k : Z) (m : gmap Z task) : gmap Z task :=
  alter (fun t => mk_task true (route t) (finished t) (last_error t)) k m.

(** Awaiting a task that was told to stop. *)
Definition await (k : Z) (s : ForwardManager) : ForwardManager := with_tasks (delete k (tasks s)) s.

Section Manager.
Context `{Tcp} `{Control} `{HexDecode}.

(** The rules a plan wants to have running. *)
Definition wanted (start : option RuleId) (s : ForwardManager) (r : TunnelRule) : bool :=
  t_enabled r &&
  (bool_decide (start = Some (t_id r)) ||
   negb (bool_decide (t_id r ∈ suppressed s)) && (auto_start r || bool_decide (is_Some (active s !! t_id r)))).

(** [is_none_or]: a listener is needed unless one is there at the address and runs. *)
Definition needs_listener (s : ForwardManager) (r : TunnelRule) : bool :=
  match active s !! t_id r with
  | None => true
  | Some old =>
      negb (bool_decide (f_listen old = listen r)) ||
      match tasks s !! f_task old with Some t => finished t | None => true end
  end.

Definition prepare_rule (c : NodeSettings) (p : Prepared) (r : TunnelRule) : st ForwardManager error Prepared :=
  let! peer := liftr (Identity.from_hex (peer_node_id r)) in
  let! s := get in
  let! _ := modify tick in
  let! _ := liftr (fail_if (negb (connection_updates (moment s) peer)) (Protocol "no such peer")) in
  let! service := liftr (ok_or (service_ids c !! t_id r) (Protocol "forward without a service id")) in
  let! more :=
    (if needs_listener s r then
       let! s := get in
       let! _ := modify tick in
       let! _ := liftr (ok_or (bind (moment s) (listen r)) (Io OtherKind)) in
       ret ({[t_id r]} ∪ additions p)
     else ret (additions p)) in
  ret (mk_prepared (known p) (forced_start p) (<[t_id r := (listen r, mk_route peer service)]> (desired p)) more).

Definition prepare (c : NodeSettings) (start : option RuleId) : st ForwardManager error Prepared :=
  let! s := get in
  for_fold (prepare_rule c) (mk_prepared (list_to_set (map t_id (forwards c))) start ∅ ∅)
    (List.filter (wanted start s) (forwards c)).

Definition retire (s : ForwardManager) (kv : RuleId * Running) : ForwardManager :=
  with_active (delete kv.1 (active s)) (with_tasks (stop_task (f_task kv.2) (tasks s)) s).

Definition start_one (p : Prepared) (kv : RuleId * (SocketAddr * Route)) : st ForwardManager error unit :=
  fun s =>
    match active s !! kv.1 with
    | Some old => (Ok tt, with_tasks (alter (fun t => mk_task (stopping t) kv.2.2 (finished t) None) (f_task old) (tasks s)) s)
    | None =>
        if bool_decide (kv.1 ∈ additions p) then
          let k := next_task s in
          (Ok tt, mk_manager (suppressed s) (<[kv.1 := mk_running kv.2.1 k]> (active s))
                    (<[k := mk_task false kv.2.2 false None]> (tasks s)) (k + 1) (streams s) (next_stream s) (closed s) (moment s))
        else (Panic, s)
    end.

(** The tasks to await. *)
Definition commit (p : Prepared) : st ForwardManager error (list Z) :=
  let! s := get in
  let kept := filter (fun i => i ∈ known p) (suppressed s) in
  let! _ := put (with_suppressed (match forced_start p with Some i => kept ∖ {[i]} | None => kept end) s) in
  let removed := List.filter (fun kv => negb (bool_decide (is_Some (desired p !! kv.1))) || bool_decide (kv.1 ∈ additions p))
                   (map_to_list (active s)) in
  let! _ := modify (fun s => fold_left retire removed s) in
  let! _ := for_each (start_one p) (map_to_list (desired p)) in
  ret (map (fun kv => f_task kv.2) removed).

Definition stop (i : RuleId) (s : ForwardManager) : ForwardManager :=
  let s := with_suppressed ({[i]} ∪ suppressed s) s in
  match active s !! i with
  | Some old => await (f_task old) (with_active (delete i (active s)) (with_tasks (stop_task (f_task old) (tasks s)) s))
  | None => s
  end.

(** ** Accepted connections *)

Definition load (k : Z) (s : ForwardManager) : Z := Z.of_nat (size (filter (fun kv => kv.2.1 = k) (streams s))).

(** [ForwardStreamOwner::spawn]. *)
Definition spawn (k : Z) (r : Route) (s : ForwardManager) : bool * ForwardManager :=
  if closed s then (false, s)
  else if OWNER_LIMIT <=? Z.of_nat (size (streams s)) then (false, s)
  else (true, mk_manager (suppressed s) (active s) (tasks s) (next_task s) (<[next_stream s := (k, r)]> (streams s))
                (next_stream s + 1) (closed s) (moment s)).

(** A turn of a listener task: what accepting gives. *)
Definition on_accept (k : Z) (accepted : result unit) (s : ForwardManager) : ForwardManager :=
  match tasks s !! k with
  | Some t =>
      if stopping t || finished t then s
      else match accepted with
           | Ok _ =>
               if LISTENER_LIMIT <=? load k s then with_tasks (<[k := set_error (Some "rule full"%string) t]> (tasks s)) s
               else
                 let (ok, s) := spawn k (route t) s in
                 if ok then s else with_tasks (<[k := set_error (Some "node full"%string) t]> (tasks s)) s
           | _ => with_tasks (<[k := mk_task (stopping t) (route t) true (Some "accept failed"%string)]> (tasks s)) s
           end
  | None => s
  end.

(** A flow ends; its error is shown at its listener. *)
Definition on_end (f : Z) (r : result unit) (s : ForwardManager) : ForwardManager :=
  match streams s !! f with
  | Some (k, _) =>
      let s := with_streams (delete f (streams s)) s in
      match r with
      | Ok _ => s
      | _ => with_tasks (alter (set_error (Some "flow failed"%string)) k (tasks s)) s
      end
  | None => s
  end.

(** [ForwardStreamOwner::shutdown] after every listener ended. *)
Definition shutdown (s : ForwardManager) : ForwardManager :=
  mk_manager (suppressed s) ∅ (foldr (fun kv m => delete (f_task kv.2) m) (tasks s) (map_to_list (active s)))
    (next_task s) ∅ (next_stream s) true (moment s).

(** ** Histories *)

Inductive turn : Type :=
  | Accepted (k : Z) (accepted : result unit)
  | Ended (f : Z) (r : result unit).
Definition take_turn (s : ForwardManager) (e : turn) : ForwardManager :=
  match e with Accepted k a => on_accept k a s | Ended f r => on_end f r s end.

(** Between a plan and its commit listeners go on, but the manager is locked. *)
Inductive op : Type :=
  | Configure (c : NodeSettings) (start : option RuleId) (meanwhile : list turn)
  | Stop (i : RuleId)
  | Turn (e : turn)
  | Shutdown.

Definition step (o : op) : st ForwardManager error unit :=
  match o with
  | Configure c start meanwhile =>
      let! p := prepare c start in
      let! _ := modify (fun s => fold_left take_turn meanwhile s) in
      let! retired := commit p in
      modify (fun s => fold_left (fun s k => await k s) retired s)
  | Stop i => modify (stop i)
  | Turn e => modify (fun s => take_turn s e)
  | Shutdown => modify shutdown
  end.

Fixpoint run (ops : list op) : st ForwardManager error unit :=
  match ops with
  | [] => ret tt
  | o :: ops => let! _ := attempt (step o) in run ops
  end.

(** ** Invariants *)

(** The tasks in [gone] are stopping and await their end. *)
Record mid (gone : list Z) (s : ForwardManager) : Prop := mk_mid {
  m_active : forall i r, active s !! i = Some r -> f_task r < next_task s /\ exists t, tasks s !! f_task r = Some t /\ stopping t = false;
  m_task : forall k t, tasks s !! k = Some t -> k < next_task s /\ (k ∈ gone \/ exists i r, active s !! i = Some r /\ f_task r = k);
  m_inj : forall i j a b, active s !! i = Some a -> active s !! j = Some b -> f_task a = f_task b -> i = j;
  m_gone : forall k, k ∈ gone -> k < next_task s /\ forall i r, active s !! i = Some r -> f_task r <> k;
  m_stream : forall f, is_Some (streams s !! f) -> f < next_stream s;
  m_load : forall k, load k s <= LISTENER_LIMIT;
  m_total : Z.of_nat (size (streams s)) <= OWNER_LIMIT;
}.
Abbreviation sound := (mid []).

(** What a turn leaves alone. *)
Record turned (s s' : ForwardManager) : Prop := mk_turned {
  tu_active : active s' = active s;
  tu_suppressed : suppressed s' = suppressed s;
  tu_next : next_task s' = next_task s;
  tu_tasks : forall k, option_map (fun t => (stopping t, route t)) (tasks s' !! k) = option_map (fun t => (stopping t, route t)) (tasks s !! k);
}.

Lemma turned_refl s : turned s s.
Proof. done. Qed.

Lemma turned_trans s1 s2 s3 : turned s1 s2 -> turned s2 s3 -> turned s1 s3.
Proof. intros [A1 A2 A3 A4] [B1 B2 B3 B4]. split; [congruence|congruence|congruence|]. intros k. by rewrite B4. Qed.

(** The flows are within their limits. *)
Definition within (s : ForwardManager) : Prop :=
  (forall f, is_Some (streams s !! f) -> f < next_stream s) /\ (forall k, load k s <= LISTENER_LIMIT) /\ Z.of_nat (size (streams s)) <= OWNER_LIMIT.

Lemma mid_turned gone s s' : mid gone s -> turned s s' -> within s' -> mid gone s'.
Proof.
  intros [M1 M2 M3 M4 _ _ _] [T1 T2 T3 T4] (W1 & W2 & W3). split; try done.
  - intros i r Hr. rewrite T1 in Hr. destruct (M1 i r Hr) as (Hlt & t & Ht & Hst). split; [congruence|]. specialize (T4 (f_task r)). rewrite Ht in T4.
    destruct (tasks s' !! f_task r) as [t'|]; [|done]. injection T4 as E1 E2. exists t'. split; [done|congruence].
  - intros k t Hk. specialize (T4 k). rewrite Hk in T4. destruct (tasks s !! k) as [t'|] eqn:E; [|done]. rewrite T1, T3. by apply (M2 k t').
  - rewrite T1. exact M3.
  - rewrite T1, T3. exact M4.
Qed.

Lemma mid_within gone s : mid gone s -> within s.
Proof. by intros []. Qed.

Lemma turned_task s k t t' : tasks s !! k = Some t -> stopping t' = stopping t -> route t' = route t -> turned s (with_tasks (<[k := t']> (tasks s)) s).
Proof.
  intros Hk E1 E2. split; [done|done|done|]. intros j. cbn. destruct (decide (j = k)) as [->| ]; [|by rewrite lookup_insert_ne].
  rewrite lookup_insert_eq, Hk. cbn. by rewrite E1, E2.
Qed.

Lemma load_insert k f r s : streams s !! f = None ->
  Z.of_nat (size (filter (fun kv => kv.2.1 = k) (<[f := r]> (streams s)))) = load k s + (if bool_decide (r.1 = k) then 1 else 0).
Proof.
  intros Hf. unfold load. case_bool_decide as Hk.
  - rewrite map_filter_insert_True by done. rewrite map_size_insert_None by (apply map_lookup_filter_None; by left). lia.
  - rewrite map_filter_insert_not' by (done || (intros y Hy; congruence)). lia.
Qed.

Lemma accept_turns k a gone s : mid gone s -> turned s (on_accept k a s) /\ within (on_accept k a s).
Proof.
  intros Hm. pose proof (mid_within _ _ Hm) as Hw. unfold on_accept. destruct (tasks s !! k) as [t|] eqn:Et; [|by split].
  destruct (stopping t || finished t) eqn:Es; [by split|].
  assert (forall t', stopping t' = stopping t -> route t' = route t -> turned s (with_tasks (<[k := t']> (tasks s)) s) /\ within (with_tasks (<[k := t']> (tasks s)) s)) as Hset
    by (intros t' E1 E2; split; [by eapply turned_task|done]).
  destruct a as [u|e|]; [|by apply Hset|by apply Hset].
  destruct (Z.leb_spec LISTENER_LIMIT (load k s)) as [Hl|Hl]; [by apply Hset|].
  unfold spawn. destruct (closed s); [by apply Hset|]. destruct (Z.leb_spec OWNER_LIMIT (Z.of_nat (size (streams s)))) as [Ho|Ho]; [by apply Hset|].
  destruct Hw as (W1 & W2 & W3). assert (streams s !! next_stream s = None) as Hn.
  { destruct (streams s !! next_stream s) eqn:E; [|done]. pose proof (W1 _ (mk_is_Some _ _ E)). lia. }
  split; [done|]. split; cbn; [|split].
  - intros f. rewrite lookup_insert. case_decide; [lia|]. intros Hf%W1. lia.
  - intros j. unfold load at 1. cbn. rewrite load_insert by done. cbn. case_bool_decide as Hj; [subst j; lia|]. specialize (W2 j). lia.
  - rewrite map_size_insert_None by done. lia.
Qed.

Lemma end_turns f r gone s : mid gone s -> turned s (on_end f r s) /\ within (on_end f r s).
Proof.
  intros Hm. destruct (mid_within _ _ Hm) as (W1 & W2 & W3). unfold on_end. destruct (streams s !! f) as [[k q]|] eqn:Ef; [|by split].
  assert (within (with_streams (delete f (streams s)) s)) as Hw.
  { split; cbn; [|split].
    - intros g [x [_ Hx]%lookup_delete_Some]. by apply W1; eexists.
    - intros j. specialize (W2 j). unfold load in *. cbn. rewrite map_filter_delete.
      etrans; [|exact W2]. apply inj_le. rewrite map_size_delete. by destruct (filter _ _ !! f); [apply Nat.le_pred_l|].
    - rewrite map_size_delete, Ef. lia. }
  destruct r as [u|e|]; [by split|split; [|exact Hw]|split; [|exact Hw]]; (split; [done|done|done|]; intros j; cbn; rewrite lookup_alter;
    case_decide; [subst; by destruct (tasks s !! _)|done]).
Qed.

Lemma turn_turns e gone s : mid gone s -> turned s (take_turn s e) /\ within (take_turn s e).
Proof. destruct e; [apply accept_turns|apply end_turns]. Qed.

Lemma turns_turn l gone s : mid gone s -> turned s (fold_left take_turn l s) /\ mid gone (fold_left take_turn l s).
Proof.
  revert s. induction l as [|e l IH]; intros s Hm; cbn; [by split|]. destruct (turn_turns e gone s Hm) as [Ht Hw].
  assert (mid gone (take_turn s e)) as Hm1 by (by eapply mid_turned). destruct (IH _ Hm1) as [Ht2 Hm2]. split; [|done]. by eapply turned_trans.
Qed.

(** ** Committing *)

Lemma wp_put {S E : Type} (s' : S) (Q : unit -> S -> Prop) (R : E -> S -> Prop) s : Q tt s' -> wp (put s') Q R s.
Proof. done. Qed.

Lemma manager_mid_ext gone gone' s : (forall k, k ∈ gone <-> k ∈ gone') -> mid gone s -> mid gone' s.
Proof.
  intros E [M1 M2 M3 M4 M5 M6 M7]. split; try done.
  - intros k t Hk. destruct (M2 k t Hk) as (Hlt & Hc). split; [done|]. destruct Hc as [Hc|Hc]; [left; by apply E|by right].
  - intros k Hk. by apply M4, E.
Qed.

Lemma mid_suppressed gone s x : mid gone s -> mid gone (with_suppressed x s).
Proof. intros []. by split. Qed.

Lemma manager_mid_retire gone s i h : mid gone s -> active s !! i = Some h -> mid (f_task h :: gone) (retire s (i, h)).
Proof.
  intros [M1 M2 M3 M4 M5 M6 M7] Hi. destruct (M1 i h Hi) as (Hlt & t0 & Ht0 & _). unfold retire. cbn. split; cbn; [| | | |done|exact M6|done].
  - intros j a [Hj Ha]%lookup_delete_Some. destruct (M1 j a Ha) as (E1 & t & Ht & E2). split; [done|]. exists t.
    unfold stop_task. rewrite lookup_alter_ne; [done|]. intros E. by destruct Hj; apply (M3 i j h a).
  - intros k t Hk. destruct (decide (k = f_task h)) as [->| Hne]; [split; [done|left; by left]|].
    unfold stop_task in Hk. rewrite lookup_alter_ne in Hk by done. destruct (M2 k t Hk) as (? & [?|(j & a & Ha & E)]); (split; [done|]); [left; by right|right].
    exists j, a. split; [|done]. rewrite lookup_delete_ne; [done|]. intros <-. rewrite Hi in Ha. injection Ha as ->. congruence.
  - intros j1 j2 a b [_ Ha]%lookup_delete_Some [_ Hb]%lookup_delete_Some. by apply M3.
  - intros k [->| Hk]%elem_of_cons.
    + split; [done|]. intros j a [Hj Ha]%lookup_delete_Some E. by destruct Hj; apply (M3 i j h a).
    + destruct (M4 k Hk) as [? Hg]. split; [done|]. intros j a [_ Ha]%lookup_delete_Some. by eapply Hg.
Qed.

Lemma manager_mid_await gone k s : mid (k :: gone) s -> mid gone (await k s).
Proof.
  intros [M1 M2 M3 M4 M5 M6 M7]. split; cbn; [| |done| |done|exact M6|done].
  - intros i h Hi. destruct (M1 i h Hi) as (E1 & E2). rewrite lookup_delete_ne; [done|].
    intros E. destruct (M4 k ltac:(by left)) as [_ Hg]. by apply (Hg i h).
  - intros j t [Hj Ht]%lookup_delete_Some. destruct (M2 j t Ht) as (Hlt & [[->| ?]%elem_of_cons|?]); (split; [done|]); [done|by left|by right].
  - intros j Hj. apply M4. by right.
Qed.

Lemma await_all gone s : mid gone s -> let s' := fold_left (fun s k => await k s) gone s in
  sound s' /\ active s' = active s /\ suppressed s' = suppressed s /\ forall k, k ∉ gone -> tasks s' !! k = tasks s !! k.
Proof.
  revert s. induction gone as [|k gone IH]; intros s Hm; [done|]. cbn. destruct (IH (await k s) (manager_mid_await _ _ _ Hm)) as (A & B & C & D).
  split; [done|]. split; [done|]. split; [done|]. intros j [Hj Hg]%not_elem_of_cons. rewrite D by done. cbn. by rewrite lookup_delete_ne.
Qed.

Lemma manager_retire_all l gone s : NoDup l.*1 -> (forall kv, kv ∈ l -> active s !! kv.1 = Some kv.2) -> mid gone s ->
  let s' := fold_left retire l s in
  mid (map (fun kv => f_task kv.2) l ++ gone) s' /\ suppressed s' = suppressed s /\
  (forall i, active s' !! i = if bool_decide (i ∈ l.*1) then None else active s !! i).
Proof.
  revert gone s. induction l as [|[i h] l IH]; intros gone s Hn Hl Hm; cbn.
  { split; [done|]. split; [done|]. intros i. by rewrite bool_decide_eq_false_2 by apply not_elem_of_nil. }
  apply NoDup_cons in Hn as [Hi Hn]. pose proof (Hl (i, h) ltac:(by left)) as Hih. cbn in Hih.
  destruct (IH (f_task h :: gone) (retire s (i, h)) Hn) as (H1' & H2' & H3').
  - intros [j a] Hj. cbn. rewrite lookup_delete_ne; [by apply (Hl (j, a)); right|]. intros ->. apply Hi. apply list_elem_of_fmap. by exists (j, a).
  - by apply manager_mid_retire.
  - split; [|split; [done|]].
    + eapply manager_mid_ext; [|exact H1']. intros k. set_solver.
    + intros j. rewrite H3'. cbn. destruct (decide (j = i)) as [->| Hne].
      * rewrite lookup_delete_eq. rewrite (bool_decide_eq_true_2 (i ∈ i :: _)) by (by left). by destruct (bool_decide _).
      * rewrite lookup_delete_ne by done. erewrite bool_decide_ext; [done|]. rewrite elem_of_cons. tauto.
Qed.

(** The listener of a rule, with its route and no error. *)
Definition serves (s : ForwardManager) (i : RuleId) (rt : Route) (h : Running) : Prop :=
  active s !! i = Some h /\ exists t, tasks s !! f_task h = Some t /\ stopping t = false /\ route t = rt /\ last_error t = None.

Lemma wp_start_one p gone s kv (Q : unit -> ForwardManager -> Prop) R : mid gone s -> is_Some (active s !! kv.1) \/ kv.1 ∈ additions p ->
  (forall s', mid gone s' -> suppressed s' = suppressed s -> next_task s <= next_task s' ->
     (exists h, serves s' kv.1 kv.2.2 h /\ match active s !! kv.1 with Some old => h = old | None => f_listen h = kv.2.1 end) ->
     (forall j, j <> kv.1 -> active s' !! j = active s !! j) ->
     (forall j h rt, j <> kv.1 -> serves s j rt h -> serves s' j rt h) -> Q tt s') ->
  wp (start_one p kv) Q R s.
Proof.
  intros [M1 M2 M3 M4 M5 M6 M7] Hk HQ. unfold wp, start_one. destruct kv as [i [a rt]]. cbn in *.
  destruct (active s !! i) as [old|] eqn:Ei.
  - destruct (M1 i old Ei) as (Hlt & t0 & Ht0 & Es). apply HQ; [|done|done| |done|].
    + split; cbn; [| |done|done|done|exact M6|done].
      * intros j h Hj. destruct (M1 j h Hj) as (? & t & Ht & ?). split; [done|]. rewrite lookup_alter. case_decide as Hd; [|by exists t].
        rewrite Hd, Ht. eexists. by split.
      * intros k t. rewrite lookup_alter. case_decide as Hd; [|by apply M2]. subst k. intros _. split; [done|]. right. by exists i, old.
    + exists old. split; [|done]. split; [done|]. cbn. rewrite lookup_alter_eq, Ht0. cbn. eexists. by split.
    + intros j h rt' Hne [Hj (t & Ht & H1' & H2')]. split; [done|]. cbn. rewrite lookup_alter_ne; [by exists t|]. intros E. by apply Hne, (M3 j i h old).
  - destruct Hk as [[? ?]|Hk]; [done|]. rewrite bool_decide_eq_true_2 by done. assert (forall j h, active s !! j = Some h -> f_task h < next_task s) as Hlt
      by (intros j h Hj; by destruct (M1 j h Hj)).
    apply HQ; [|done|cbn; lia| | |].
    + split; cbn; [| | | |done|exact M6|done].
      * intros j h. rewrite lookup_insert. case_decide as Hd.
        -- intros [= <-]. cbn. split; [lia|]. rewrite lookup_insert_eq. eexists. by split.
        -- intros Hj. destruct (M1 j h Hj) as (? & t & Ht & ?). split; [lia|]. rewrite lookup_insert_ne by lia. by exists t.
      * intros k t. rewrite lookup_insert. case_decide as Hd.
        -- subst k. intros _. split; [lia|]. right. eexists i, _. by rewrite lookup_insert_eq.
        -- intros Ht. destruct (M2 k t Ht) as (? & [?|(j & h & Hj & E)]); (split; [lia|]); [by left|right]. exists j, h. split; [|done].
           rewrite lookup_insert_ne; [done|]. intros <-. congruence.
      * intros j1 j2 x y. rewrite !lookup_insert. repeat case_decide; subst; try done.
        -- intros [= <-] Hy E. cbn in E. apply Hlt in Hy. lia.
        -- intros Hx [= <-] E. cbn in E. apply Hlt in Hx. lia.
        -- intros Hx Hy. by apply M3.
      * intros k Hkg. destruct (M4 k Hkg) as [? Hg]. split; [lia|]. intros j h. rewrite lookup_insert. case_decide; [intros [= <-]; cbn; lia|by apply Hg].
    + eexists. split; [split; [cbn; by rewrite lookup_insert_eq|]|done]. cbn. rewrite lookup_insert_eq. eexists. by split.
    + intros j Hne. cbn. by rewrite lookup_insert_ne.
    + intros j h rt' Hne [Hj (t & Ht & H1' & H2')]. split; [cbn; by rewrite lookup_insert_ne|]. cbn. exists t.
      rewrite lookup_insert_ne; [done|]. apply Hlt in Hj. lia.
Qed.

Lemma wp_start_all p gone l s : NoDup l.*1 -> mid gone s -> (forall kv, kv ∈ l -> is_Some (active s !! kv.1) \/ kv.1 ∈ additions p) ->
  wp (for_each (start_one p) l)
    (fun _ s' => mid gone s' /\ suppressed s' = suppressed s /\ next_task s <= next_task s' /\
       (forall kv, kv ∈ l -> exists h, serves s' kv.1 kv.2.2 h /\ match active s !! kv.1 with Some old => h = old | None => f_listen h = kv.2.1 end) /\
       (forall i, i ∉ l.*1 -> active s' !! i = active s !! i) /\
       (forall i h rt, i ∉ l.*1 -> serves s i rt h -> serves s' i rt h))
    (fun _ _ => False) s.
Proof.
  revert s. induction l as [|kv l IH]; intros s Hn Hm Hl; cbn [for_each].
  { apply wp_ret. split; [done|]. split; [done|]. split; [lia|]. split; [|by split]. intros kv Hk. by apply not_elem_of_nil in Hk. }
  apply NoDup_cons in Hn as [Hi Hn]. apply wp_bind. eapply wp_start_one; [exact Hm|apply Hl; by left|].
  intros s1 Hm1 E1 Hnx Hs1 Ha1 Hk1. assert (forall q, q ∈ l -> q.1 <> kv.1) as Hne.
  { intros q Hq E. apply Hi. rewrite <- E. by apply list_elem_of_fmap_2. }
  eapply wp_conseq; [apply (IH s1 Hn Hm1)|..]; [| |done].
  { intros q Hq. rewrite Ha1 by (by apply Hne). apply Hl. by right. }
  intros _ s2 (Hm2 & E2 & Hnx2 & Hs2 & Ha2 & Hk2). split; [done|]. split; [congruence|]. split; [lia|]. split; [|split].
  - intros q [->| Hq]%elem_of_cons.
    + destruct Hs1 as (h & Hs & Hh). exists h. split; [|done]. by apply Hk2.
    + destruct (Hs2 q Hq) as (h & Hs & Hh). exists h. split; [done|]. by rewrite Ha1 in Hh by (by apply Hne).
  - intros i [Hi1 Hi2]%not_elem_of_cons. rewrite Ha2 by done. by apply Ha1.
  - intros i h rt [Hi1 Hi2]%not_elem_of_cons Hs. apply Hk2; [done|]. by apply Hk1.
Qed.

(** ** Planning *)

Record planned (s : ForwardManager) (c : NodeSettings) (start : option RuleId) (l : list TunnelRule) (p : Prepared) : Prop := mk_planned {
  pl_known : known p = list_to_set (map t_id (forwards c));
  pl_forced : forced_start p = start;
  pl_desired : forall i x, desired p !! i = Some x -> exists r, r ∈ l /\ t_id r = i /\ listen r = x.1 /\
    Identity.from_hex (peer_node_id r) = Ok (r_peer x.2) /\ service_ids c !! i = Some (service x.2);
  pl_all : forall r, r ∈ l -> is_Some (desired p !! t_id r);
  pl_kept : forall i x, desired p !! i = Some x -> i ∉ additions p -> exists old, active s !! i = Some old /\ f_listen old = x.1;
  pl_new : forall i, i ∈ additions p -> exists r, r ∈ l /\ t_id r = i /\ needs_listener s r = true;
}.

(** Everything but the moment. *)
Definition unchanged (s s' : ForwardManager) : Prop :=
  suppressed s' = suppressed s /\ active s' = active s /\ tasks s' = tasks s /\ next_task s' = next_task s /\
  streams s' = streams s /\ next_stream s' = next_stream s /\ closed s' = closed s.

Lemma mid_unchanged gone s s' : mid gone s -> unchanged s s' -> mid gone s'.
Proof.
  intros [M1 M2 M3 M4 M5 M6 M7] (E1 & E2 & E3 & E4 & E5 & E6 & E7). split; rewrite ?E2, ?E3, ?E4, ?E5, ?E6; try done.
  intros k. unfold load. rewrite E5. apply M6.
Qed.

Lemma wp_prepare_rule s c start l p r (Q : Prepared -> ForwardManager -> Prop) (R : error -> ForwardManager -> Prop) s1 :
  unchanged s s1 -> planned s c start l p ->
  (forall p' s', unchanged s s' -> planned s c start (l ++ [r]) p' -> Q p' s') -> (forall e s', unchanged s s' -> R e s') ->
  wp (prepare_rule c p r) Q R s1.
Proof.
  intros Hu [P1 P2 P3 P4 P5 P6] HQ HR. unfold prepare_rule. apply wp_bind, wp_liftr.
  destruct (from_hex_cases (peer_node_id r)) as [[peer Ep]|[e Ep]]; rewrite Ep; [|by apply HR].
  apply wp_bind, wp_get, wp_bind, wp_modify, wp_bind, wp_liftr. destruct (fail_if _ _) as [u|e|] eqn:Ef; [|by apply HR|by destruct (connection_updates _ _)].
  apply wp_bind, wp_liftr. destruct (service_ids c !! t_id r) as [sv|] eqn:Es; cbn [ok_or]; [|by apply HR].
  assert (needs_listener s1 r = needs_listener s r) as En
    by (destruct Hu as (_ & U2 & U3 & _); unfold needs_listener; cbn; by rewrite U2, U3).
  assert (forall more s', unchanged s s' -> (forall i, i ∈ more -> i ∈ additions p \/ i = t_id r /\ needs_listener s r = true) -> (forall i, i ∈ additions p -> i ∈ more) ->
    (t_id r ∉ more -> needs_listener s r = false) ->
    Q (mk_prepared (known p) (forced_start p) (<[t_id r := (listen r, mk_route peer sv)]> (desired p)) more) s') as Hend.
  { intros more s' Hu' Hm1 Hm2 Hm3. apply HQ; [done|]. split; cbn; [done|done| | | |].
    - intros i x. rewrite lookup_insert. case_decide as Hd.
      + intros [= <-]. cbn. exists r. subst i. split; [apply elem_of_app; right; by apply list_elem_of_singleton|done].
      + intros Hx. destruct (P3 i x Hx) as (q & Hq & ?). exists q. split; [apply elem_of_app; by left|done].
    - intros q [Hq| ->%list_elem_of_singleton]%elem_of_app; rewrite lookup_insert; case_decide; [by eexists|by apply P4|by eexists|done].
    - intros i x. rewrite lookup_insert. case_decide as Hd.
      + intros [= <-] Hi. cbn. subst i. pose proof (Hm3 Hi) as Hn. unfold needs_listener in Hn. destruct (active s !! t_id r) as [old|]; [|done].
        apply orb_false_iff in Hn as [Hn%negb_false_iff%bool_decide_eq_true _]. by exists old.
      + intros Hx Hi. apply (P5 i x Hx). intros Hi'. by apply Hi, Hm2.
    - intros i [Hi|[-> Hn]]%Hm1.
      + destruct (P6 i Hi) as (q & Hq & ?). exists q. split; [apply elem_of_app; by left|done].
      + exists r. split; [apply elem_of_app; right; by apply list_elem_of_singleton|done]. }
  apply wp_bind. rewrite En. destruct (needs_listener s r) eqn:Enr.
  - apply wp_bind, wp_get, wp_bind, wp_modify, wp_bind, wp_liftr. destruct (bind _ _); cbn [ok_or]; [|by apply HR].
    apply wp_ret, wp_ret, Hend; [done| | |].
    + intros i [->%elem_of_singleton|Hi]%elem_of_union; [by right|by left].
    + intros i Hi. apply elem_of_union. by right.
    + intros Hi. destruct Hi. apply elem_of_union. left. by apply elem_of_singleton.
  - apply wp_ret, wp_ret, Hend; [done|by left|done|done].
Qed.

Lemma wp_plan c start s :
  wp (prepare c start) (fun p s' => unchanged s s' /\ planned s c start (List.filter (wanted start s) (forwards c)) p)
    (fun _ s' => unchanged s s') s.
Proof.
  unfold prepare. apply wp_bind, wp_get. set (f := List.filter _ _).
  eapply wp_conseq; [apply (wp_for_fold _ _ _ (fun rest p s' => unchanged s s' /\ exists l0, f = l0 ++ rest /\ planned s c start l0 p) (fun _ s' => unchanged s s'))|..].
  - split; [done|]. exists []. split; [done|]. split; cbn; [done|done| | | |]; intros *; by rewrite ?lookup_empty, ?elem_of_nil, ?elem_of_empty.
  - intros r rest p s1 (Hu & l0 & E & Hp). eapply wp_prepare_rule; [exact Hu|exact Hp| |done].
    intros p' s' Hu' Hp'. split; [done|]. exists (l0 ++ [r]). split; [by rewrite <- app_assoc|done].
  - intros p s' (Hu & l0 & E & Hp). rewrite app_nil_r in E. subst l0. by split.
  - done.
Qed.

Lemma manager_wp_commit p s : sound s -> (forall i x, desired p !! i = Some x -> i ∉ additions p -> is_Some (active s !! i)) ->
  wp (commit p)
    (fun stopped s' => mid stopped s' /\
       suppressed s' = (let kept := filter (fun i => i ∈ known p) (suppressed s) in match forced_start p with Some i => kept ∖ {[i]} | None => kept end) /\
       (forall i, desired p !! i = None -> active s' !! i = None) /\
       (forall i x, desired p !! i = Some x -> exists h, serves s' i x.2 h /\
          if bool_decide (i ∈ additions p) then f_listen h = x.1 else active s !! i = Some h))
    (fun _ _ => False) s.
Proof.
  intros Hs Hp. unfold commit. apply wp_bind, wp_get, wp_bind, wp_put. set (s0 := with_suppressed _ s). set (removed := List.filter _ _).
  assert (NoDup removed.*1) as Hn.
  { unfold removed. assert (forall f (m : list (RuleId * Running)), NoDup m.*1 -> NoDup (List.filter f m).*1) as Hf.
    { clear. intros f m. induction m as [|x m IH]; cbn; [done|]. intros [Hx Hm]%NoDup_cons. destruct (f x); cbn; [|by apply IH].
      apply NoDup_cons. split; [|by apply IH]. contradict Hx. apply list_elem_of_fmap in Hx as (y & -> & Hy).
      apply list_elem_of_fmap. exists y. split; [done|]. apply list_elem_of_In, filter_In in Hy as [Hy _]. by apply list_elem_of_In. }
    apply Hf, NoDup_fst_map_to_list. }
  assert (forall i h, (i, h) ∈ removed <-> active s !! i = Some h /\ (desired p !! i = None \/ i ∈ additions p)) as Hrm.
  { intros i h. unfold removed. rewrite list_elem_of_In, filter_In, <- list_elem_of_In, elem_of_map_to_list, orb_true_iff, negb_true_iff,
      bool_decide_eq_true, bool_decide_eq_false, <- eq_None_not_Some. done. }
  destruct (manager_retire_all removed [] s0 Hn) as (A1 & A2 & A3); [intros [i h] Hi; by apply Hrm in Hi as [? _]|by apply mid_suppressed|]. rewrite app_nil_r in A1.
  apply wp_bind, wp_modify, wp_bind. set (s1 := fold_left retire removed s0) in *.
  assert (forall i, active s1 !! i = if bool_decide (desired p !! i = None \/ i ∈ additions p) then None else active s !! i) as R1.
  { intros i. rewrite A3. cbn. case_bool_decide as Hi.
    - apply list_elem_of_fmap in Hi as ([j h] & -> & Hj%Hrm). cbn. by rewrite bool_decide_eq_true_2 by apply Hj.
    - case_bool_decide as Hl; [|done]. destruct (active s !! i) as [h|] eqn:E; [|done].
      destruct Hi. apply list_elem_of_fmap. exists (i, h). split; [done|]. by apply Hrm. }
  eapply wp_conseq; [apply (wp_start_all p _ (map_to_list (desired p)) s1 (NoDup_fst_map_to_list _) A1)|..]; [| |done].
  { intros [i x] Hx%elem_of_map_to_list. cbn. destruct (decide (i ∈ additions p)) as [Ha|Ha]; [by right|left]. rewrite R1.
    rewrite bool_decide_eq_false_2; [by eapply Hp|]. intros [?|?]; congruence. }
  intros _ s2 (B1 & B2 & _ & B3 & B4 & _). apply wp_ret. split; [done|]. split; [by rewrite B2, A2|]. split.
  - intros i Hi. rewrite B4, R1.
    + rewrite bool_decide_eq_true_2; [done|by left].
    + intros ([j x] & -> & Hj%elem_of_map_to_list)%list_elem_of_fmap. cbn in Hi. congruence.
  - intros i x Hx. destruct (B3 (i, x)) as (h & Hs2 & Hh); [by apply elem_of_map_to_list|]. cbn in *. exists h. split; [done|]. rewrite R1 in Hh.
    destruct (decide (i ∈ additions p)) as [Ha|Ha].
    + rewrite bool_decide_eq_true_2 in Hh by (by right). by rewrite bool_decide_eq_true_2.
    + rewrite (bool_decide_eq_false_2 (i ∈ _)) by done. rewrite bool_decide_eq_false_2 in Hh by (intros [?|?]; congruence). destruct (Hp i x Hx Ha) as [old Ho]. rewrite Ho in Hh. by rewrite Hh.
Qed.

(** ** Steps *)

(** What a configuration that succeeds gives. *)
Record configured (c : NodeSettings) (start : option RuleId) (s s' : ForwardManager) : Prop := mk_configured {
  co_suppressed : forall i, i ∈ suppressed s' <-> i ∈ suppressed s /\ i ∈ map t_id (forwards c) /\ start <> Some i;
  co_active : forall i, is_Some (active s' !! i) <-> exists r, r ∈ forwards c /\ t_id r = i /\ wanted start s r = true;
  co_serves : forall i h, active s' !! i = Some h -> exists r rt, r ∈ forwards c /\ t_id r = i /\ wanted start s r = true /\
    f_listen h = listen r /\ Identity.from_hex (peer_node_id r) = Ok (r_peer rt) /\ service_ids c !! i = Some (service rt) /\ serves s' i rt h;
  co_kept : NoDup (map t_id (forwards c)) -> forall r old, r ∈ forwards c -> wanted start s r = true ->
    active s !! t_id r = Some old -> needs_listener s r = false -> active s' !! t_id r = Some old;
}.

Lemma wp_configure c start l s : sound s ->
  wp (step (Configure c start l)) (fun _ s' => sound s' /\ configured c start s s')
    (fun _ s' => sound s' /\ active s' = active s /\ suppressed s' = suppressed s) s.
Proof.
  intros Hs. cbn [step]. apply wp_bind. eapply wp_conseq; [apply (wp_plan c start s)|..].
  2: { intros e s' Hu. split; [by eapply mid_unchanged|]. by destruct Hu as (? & ? & _). }
  intros p s1 [Hu Hp]. pose proof (mid_unchanged _ _ _ Hs Hu) as Hs1. destruct Hu as (U1 & U2 & U3 & _). apply wp_bind, wp_modify.
  destruct (turns_turn l [] s1 Hs1) as [[T1 T2 _ _] Hs2]. set (s2 := fold_left take_turn l s1) in *. destruct Hp as [P1 P2 P3 P4 P5 P6].
  apply wp_bind. eapply wp_conseq; [apply (manager_wp_commit p s2 Hs2)|..]; [| |done].
  { intros i x Hx Hi. destruct (P5 i x Hx Hi) as (old & Ho & _). rewrite T1, U2, Ho. by eexists. }
  intros stopped s3 (Hm & Hsup & Hnone & Hsome). apply wp_modify. destruct (await_all stopped s3 Hm) as (Hs4 & Ha & Hsu & Ht).
  set (s4 := fold_left _ stopped s3) in *. split; [done|].
  assert (forall i x, desired p !! i = Some x -> exists r, r ∈ forwards c /\ wanted start s r = true /\ t_id r = i /\ listen r = x.1 /\
    Identity.from_hex (peer_node_id r) = Ok (r_peer x.2) /\ service_ids c !! i = Some (service x.2)) as Hd.
  { intros i x Hx. destruct (P3 i x Hx) as (r & Hr & Hrest). apply list_elem_of_In, filter_In in Hr as [Hr Hw]. exists r.
    split; [by apply list_elem_of_In|]. by split. }
  assert (forall r, r ∈ forwards c -> wanted start s r = true -> r ∈ List.filter (wanted start s) (forwards c)) as Hin.
  { intros r Hr Hw. apply list_elem_of_In, filter_In. split; [by apply list_elem_of_In|done]. }
  split.
  - intros i. rewrite Hsu, Hsup, P1, P2, T2, U1. cbn. assert (i ∈ filter (fun i => i ∈ (list_to_set (map t_id (forwards c)) : gset RuleId)) (suppressed s) <->
      i ∈ suppressed s /\ i ∈ map t_id (forwards c)) as E by (rewrite elem_of_filter, elem_of_list_to_set; tauto).
    destruct start as [j|]; [rewrite elem_of_difference, elem_of_singleton|]; rewrite E; naive_solver.
  - intros i. rewrite Ha. destruct (desired p !! i) as [x|] eqn:Ed.
    + destruct (Hsome i x Ed) as (h & [Hh _] & _). rewrite Hh. split; [intros _|by eexists]. destruct (Hd i x Ed) as (r & ? & ? & ? & _). by exists r.
    + rewrite (Hnone i Ed). split; [by intros [? ?]|]. intros (r & Hr & <- & Hw). destruct (P4 r (Hin r Hr Hw)) as [x Hx]. congruence.
  - intros i h Hi. rewrite Ha in Hi. destruct (desired p !! i) as [x|] eqn:Ed; [|rewrite (Hnone i Ed) in Hi; done].
    destruct (Hsome i x Ed) as (h' & [Hh (t & Htt & Hst)] & Hl). assert (h' = h) as -> by congruence. destruct (Hd i x Ed) as (r & ? & ? & ? & El & ? & ?).
    exists r, x.2. repeat (split; [done|]). split; [|split; [done|split; [done|]]].
    + rewrite El. case_bool_decide as Hadd; [done|]. destruct (P5 i x Ed Hadd) as (old & Ho & Eo). rewrite T1, U2, Ho in Hl. by injection Hl as <-.
    + split; [by rewrite Ha|]. exists t. split; [|done]. rewrite Ht; [done|]. intros Hg. destruct (m_gone _ _ Hm _ Hg) as [_ Hno]. by apply (Hno i h).
  - intros Hn r old Hr Hw Ho Hneed. destruct (P4 r (Hin r Hr Hw)) as [x Hx]. destruct (Hsome _ x Hx) as (h & [Hh _] & Hl). rewrite Ha, Hh.
    case_bool_decide as Hadd.
    + destruct (P6 _ Hadd) as (q & Hq & Eq & Enq). apply list_elem_of_In, filter_In in Hq as [Hq _]. apply list_elem_of_In in Hq.
      assert (q = r) as ->; [|congruence]. apply list_elem_of_lookup in Hr as [n1 Hr], Hq as [n2 Hq].
      assert (n1 = n2) as ->; [|congruence]. eapply NoDup_lookup; [exact Hn|apply list_lookup_fmap_Some; by exists r|apply list_lookup_fmap_Some; by exists q].
    + rewrite T1, U2 in Hl. congruence.
Qed.

Lemma mid_stop i s : sound s -> sound (stop i s) /\ active (stop i s) = delete i (active s) /\ suppressed (stop i s) = {[i]} ∪ suppressed s.
Proof.
  intros Hs. unfold stop. cbn. destruct (active s !! i) as [old|] eqn:Ei.
  - split; [|done]. pose proof (manager_mid_await _ _ _ (manager_mid_retire [] (with_suppressed ({[i]} ∪ suppressed s) s) i old (mid_suppressed _ _ _ Hs) Ei)) as Hm. exact Hm.
  - split; [by apply mid_suppressed|]. cbn. by rewrite delete_id.
Qed.

Lemma mid_shutdown s : sound s -> sound (shutdown s).
Proof.
  intros [M1 M2 M3 M4 M5 M6 M7]. unfold shutdown. assert (forall (l : list (RuleId * Running)) (m : gmap Z task) k,
    foldr (fun kv m => delete (f_task kv.2) m) m l !! k = if bool_decide (k ∈ map (fun kv => f_task kv.2) l) then None else m !! k) as Hf.
  { induction l as [|kv l IH]; intros m k; cbn; [by rewrite bool_decide_eq_false_2 by apply not_elem_of_nil|].
    rewrite lookup_delete. case_decide as Hd; [subst k; by rewrite bool_decide_eq_true_2 by (by left)|]. rewrite IH. erewrite bool_decide_ext; [done|].
    rewrite elem_of_cons. naive_solver. }
  split; cbn.
  - intros i r. by rewrite lookup_empty.
  - intros k t. rewrite Hf. case_bool_decide as Hk; [done|]. intros Ht. destruct (M2 k t Ht) as [_ [Hg|(i & h & Hi & <-)]]; [by apply not_elem_of_nil in Hg|].
    destruct Hk. apply list_elem_of_fmap. exists (i, h). split; [done|]. by apply elem_of_map_to_list.
  - intros i j a b. by rewrite lookup_empty.
  - intros k Hk. by apply not_elem_of_nil in Hk.
  - intros f [x Hx]. by rewrite lookup_empty in Hx.
  - intros k. unfold load. cbn. rewrite map_filter_empty, map_size_empty. by vm_compute.
  - rewrite map_size_empty. by vm_compute.
Qed.

Lemma wp_step o s : sound s -> wp (step o) (fun _ s' => sound s') (fun _ s' => sound s') s.
Proof.
  intros Hs. destruct o as [c start l|i|e|].
  - eapply wp_conseq; [by apply wp_configure|..]; cbn; tauto.
  - apply wp_modify. by apply mid_stop.
  - apply wp_modify. destruct (turn_turns e [] s Hs) as [? ?]. by eapply mid_turned.
  - apply wp_modify. by apply mid_shutdown.
Qed.

Lemma manager_run_sound ops s : sound s -> exists s', run ops s = (Ok tt, s') /\ sound s'.
Proof.
  revert s. induction ops as [|o ops IH]; intros s Hs; [by exists s|]. cbn [run]. pose proof (wp_step o s Hs) as Hw. unfold wp in Hw.
  unfold sbind, attempt. destruct (step o s) as [[[]|e|] s1]; [by apply IH|by apply IH|done].
Qed.

Lemma sound_initial : sound initial.
Proof.
  split; cbn.
  - intros i r. by rewrite lookup_empty.
  - intros k t. by rewrite lookup_empty.
  - intros i j a b. by rewrite lookup_empty.
  - intros k Hk. by apply not_elem_of_nil in Hk.
  - intros f [x Hx]. by rewrite lookup_empty in Hx.
  - intros k. unfold load. cbn. rewrite map_filter_empty, map_size_empty. by vm_compute.
  - rewrite map_size_empty. by vm_compute.
Qed.
End Manager.

#[local] Abbreviation sound := (mid []).

(** C26: The listeners follow the settings. After any history nothing has panicked, at
    most 256 flows are open and at most 32 of one listener, and every listener task
    belongs to a rule. Then a configuration, with listeners busy between its plan and
    its commit, never reaches the [expect] of the commit: it fails and changes no rule,
    or exactly the enabled rules that are forced, or neither stopped by hand nor idle
    without automatic start, are running, each at its address and routed to its device
    and service without an old error, on the listener it had where that still serves. *)
Theorem forwards_follow_settings `{Tcp} `{Control} `{HexDecode} (ops : list op) : exists s, run ops initial = (Ok tt, s) /\
  (Z.of_nat (size (streams s)) <= 256 /\ forall k, load k s <= 32) /\
  (forall k t, tasks s !! k = Some t -> exists i h, active s !! i = Some h /\ f_task h = k) /\
  forall c start meanwhile, let (r, s') := step (Configure c start meanwhile) s in
    r <> Panic /\
    (forall e, r = Err e -> active s' = active s /\ suppressed s' = suppressed s) /\
    (r = Ok tt -> configured c start s s').
Proof.
  destruct (manager_run_sound ops initial sound_initial) as (s & E & Hs). exists s. split; [done|]. split; [split; [apply (m_total _ _ Hs)|apply (m_load _ _ Hs)]|].
  split. { intros k t Hk. destruct (m_task _ _ Hs k t Hk) as [_ [Hg|Hg]]; [by apply not_elem_of_nil in Hg|done]. }
  intros c start l. pose proof (wp_configure c start l s Hs) as Hw. unfold wp in Hw.
  destruct (step (Configure c start l) s) as [[[]|e|] s']; [| |done].
  - split; [done|]. split; [done|]. intros _. apply Hw.
  - split; [done|]. split; [|done]. intros _ _. apply Hw.
Qed.

(** A later event that does not start the rule by hand and keeps it in the settings. *)
Definition leaves_stopped (i : RuleId) (o : op) : Prop :=
  match o with Configure c start _ => start <> Some i /\ i ∈ map t_id (forwards c) | _ => True end.

(** A rule that was stopped by hand stays stopped, through any configurations that
    keep it and do not start it by hand, whatever else happens. *)
Theorem stopped_by_hand `{Tcp} `{Control} `{HexDecode} (before after : list op) (i : RuleId) : Forall (leaves_stopped i) after ->
  exists s, run (before ++ Stop i :: after) initial = (Ok tt, s) /\ active s !! i = None.
Proof.
  intros Ha. destruct (manager_run_sound before initial sound_initial) as (s0 & E0 & Hs0).
  assert (forall l1 l2 s s', run l1 s = (Ok tt, s') -> run (l1 ++ l2) s = run l2 s') as Happ.
  { induction l1 as [|o l1 IH]; intros l2 s s'; cbn [run app]; [by intros [= ->]|]. unfold sbind. destruct (attempt (step o) s) as [[r|e|] s1]; [apply IH|done|done]. }
  rewrite (Happ before (Stop i :: after) initial s0 E0). change (run (Stop i :: after) s0) with (run after (stop i s0)).
  destruct (mid_stop i s0 Hs0) as (Hs & Ea & Es). set (s := stop i s0) in *.
  assert (active s !! i = None /\ i ∈ suppressed s) as Hi by (rewrite Ea, Es, lookup_delete_eq; set_solver). clearbody s. clear Ea Es.
  revert s Hs Hi. induction Ha as [|o l Ho _ IH]; intros s Hs [Hi Hsu]; [by exists s|]. cbn [run]. unfold sbind.
  assert (wp (step o) (fun _ s' => sound s' /\ active s' !! i = None /\ i ∈ suppressed s') (fun _ s' => sound s' /\ active s' !! i = None /\ i ∈ suppressed s') s) as Hw.
  { destruct o as [c start l0|j|e|].
    - eapply wp_conseq; [apply (wp_configure c start l0 s Hs)|..].
      + intros _ s' [Hs' [C1 C2 _ _]]. destruct Ho as [Ho Hf]. split; [done|]. split; [|by apply C1]. destruct (active s' !! i) as [h|] eqn:E; [|done].
        destruct (proj1 (C2 i)) as (r & _ & Er & Hw); [rewrite E; by eexists|]. unfold wanted in Hw. rewrite Er, Hi in Hw.
        rewrite (bool_decide_eq_false_2 (start = _)), (bool_decide_eq_true_2 (i ∈ _)) in Hw by done. by destruct (t_enabled r).
      + intros _ s' (Hs' & -> & ->). by split.
    - apply wp_modify. destruct (mid_stop j s Hs) as (? & -> & ->). split; [done|]. split; [|set_solver]. rewrite lookup_delete. by case_decide.
    - apply wp_modify. destruct (turn_turns e [] s Hs) as [Ht ?]. split; [by eapply mid_turned|]. by destruct Ht as [-> -> _ _].
    - apply wp_modify. split; [by apply mid_shutdown|]. cbn. by rewrite lookup_empty. }
  unfold wp in Hw. unfold attempt. destruct (step o s) as [[[]|e|] s1]; [destruct Hw; by apply IH|destruct Hw; by apply IH|done].
Qed.

(** Two automatic rules to one device. *)
Definition any_tcp : Tcp := fun _ a => Some a.
Definition any_device : Control := fun _ _ => true.
Definition web_rule (name port : Z) : TunnelRule :=
  mk_rule [name] [name] (List.repeat 48 32) (V4 2130706433 port) (V4 2130706433 port) true true.
Definition two_rules : NodeSettings := mk_settings [web_rule 119 8080; web_rule 115 8022] {[ [119] := [1]; [115] := [2] ]}.

Lemma stopped_by_hand_witness :
  let history := [Configure two_rules None []; Stop [119]; Configure two_rules None [Accepted 1 (Ok tt)]] in
  (exists s, @run any_tcp any_device Hexadecimal.hex_decoder history initial = (Ok tt, s) /\ active s !! [119] = None) /\
  is_Some (active (@run any_tcp any_device Hexadecimal.hex_decoder history initial).2 !! [115]) /\
  is_Some (active (@run any_tcp any_device Hexadecimal.hex_decoder [Configure two_rules None []] initial).2 !! [119]).
Proof.
  intros history. split; [|split; [vm_compute; by eexists|vm_compute; by eexists]].
  apply (@stopped_by_hand any_tcp any_device Hexadecimal.hex_decoder [Configure two_rules None []] [Configure two_rules None [Accepted 1 (Ok tt)]] [119]).
  apply Forall_singleton. split; [done|]. cbn. by left.
Defined.
End Forwarding.
