(* ===== verification/NodeServices.v ===== *)
(** * Node services (src/node/core/services.rs, authorization.rs)

    What a device offers to its peers: a directory of services and TCP flows to their
    targets.  [serve] runs many streams at once, on every connection, while settings
    and rights change; the handler of a stream is cut at its awaits, and the events of
    the node are those cuts in any order.  What the sockets do is an argument of the
    events.  The client side of a call is at the end. *)
From Stdlib Require Import ZArith Lia.
From stdpp Require Import prelude gmap strings.
From S2P Require Import Prelude Io Manifest Postcard Message Addr State Frame Identity RelativePath RemoteAuth Rights NodeWire Dispatch Hexadecimal Rules.

#[local] Open Scope Z_scope.

Module NodeServices.
Import Addr NodeWire Rules.

(** ** authorization.rs *)

Record PeerResources : Type := mk_resources { p_node : list Z; p_files : bool; p_speed : bool; p_disabled : bool }.
Definition ResourcePolicy : Type := list PeerResources.

Section Policy.
Context `{Hex} `{HexDecode}.

Definition check_entry (ids : gset NodeId) (entry : PeerResources) : result (gset NodeId) :=
  let? peer := Identity.from_hex (p_node entry) in
  if negb (bool_decide (p_node entry = Identity.id_to_hex peer)) || bool_decide (peer ∈ ids)
  then Err (Protocol "device not canonical or repeated") else Ok ({[peer]} ∪ ids).

Definition validate (p : ResourcePolicy) : result unit :=
  let? _ := fail_if (128 <? Z.of_nat (length p)) (Protocol "more than 128 devices") in
  let? _ := fold_outcome check_entry ∅ p in
  Ok tt.

Definition for_peer (p : ResourcePolicy) (peer : NodeId) : PeerResources :=
  let id := Identity.id_to_hex peer in
  match List.find (fun entry => bool_decide (p_node entry = id)) p with
  | Some entry => entry
  | None => mk_resources id false false false
  end.
End Policy.

(** ** The server *)

Definition MAX_PENDING_CONTROLS : Z := 8.
(** The node's TCP budget: [ForwardStreamOwner::new(256)] in session.rs. *)
Definition TCP_LIMIT : Z := 256.

(** A connection: its peer and the publisher of its rights, while it exists. *)
Record connection : Type := mk_conn { c_peer : NodeId; c_rights : option Rights.Publisher }.

(** What follows a written answer: the end (with or without a TCP permit held until
    then), or copying to the target. *)
Inductive after : Type := Finish (permit : bool) | Flow (target : SocketAddr).

Inductive phase : Type :=
  | Spawned
  | Reading
  | Connecting (request : Z) (service : list Z) (target : SocketAddr)
  | Writing (frame : NodeFrame) (next : after)
  | Bridging (target : SocketAddr).

(** [s_epoch]: the revocation epoch that the guard read. *)
Record served : Type := mk_served { s_conn : Z; s_epoch : Z; s_phase : phase }.

(** [others] are the TCP permits that flows of forwarding rules hold. *)
Record node : Type := mk_node {
  targets : list AllowedForwardTarget;
  resources : ResourcePolicy;
  conns : gmap Z connection;
  next_conn : Z;
  streams : gmap Z served;
  next_stream : Z;
  others : Z;
  owner_closed : bool;
}.

Definition initial : node := mk_node [] [] ∅ 0 ∅ 0 0 false.

Definition with_streams (m : gmap Z served) (s : node) : node :=
  mk_node (targets s) (resources s) (conns s) (next_conn s) m (next_stream s) (others s) (owner_closed s).
Definition with_conns (m : gmap Z connection) (s : node) : node :=
  mk_node (targets s) (resources s) m (next_conn s) (streams s) (next_stream s) (others s) (owner_closed s).

(** What can be seen of the node. *)
Inductive effect : Type :=
  | Dial (i : Z) (target : SocketAddr)
  | Say (i : Z) (f : NodeFrame)
  | Bridge (i : Z) (target : SocketAddr)
  | Reset (i : Z) (code : Z)
  | Ended (i : Z) (r : result unit).

Definition holds_control (t : served) : bool := match s_phase t with Bridging _ => false | _ => true end.
Definition holds_permit (t : served) : bool :=
  match s_phase t with
  | Connecting _ _ _ | Bridging _ | Writing _ (Flow _) => true
  | Writing _ (Finish permit) => permit
  | Spawned | Reading => false
  end.

(** The streams of a kind. *)
Definition tally (p : served -> bool) (m : gmap Z served) : Z := count (fun _ => p) m.
Definition of_conn (c : Z) (t : served) : bool := bool_decide (s_conn t = c) && holds_control t.

(** Permits of the owner in use. *)
Definition permits (s : node) : Z := tally holds_permit (streams s) + others s.

(** [ForwardStreamOwner::try_reserve]. *)
Definition try_reserve (s : node) : bool := negb (owner_closed s) && (permits s <? TCP_LIMIT).

(** [connect_allowed_target] up to the system's connect. *)
Definition connect_allowed_target (target : SocketAddr) (allowed : list SocketAddr) : result SocketAddr :=
  if bool_decide (target ∈ allowed) then Ok target else Err (Protocol "target not allowed").

Section Server.
Context `{Postcard NodeFrame} `{Hex} `{HexDecode}.

Definition visible (entry : AllowedForwardTarget) (peer : NodeId) : bool :=
  a_enabled entry &&
  existsb (fun text => match Identity.from_hex text with Ok id => bool_decide (id = peer) | _ => false end) (allowed_peers entry).

Definition target_for (l : list AllowedForwardTarget) (peer : NodeId) (service : list Z) : option SocketAddr :=
  option_map a_target (List.find (fun entry => bool_decide (a_id entry = service) && visible entry peer) l).

Definition directory (l : list AllowedForwardTarget) (peer : NodeId) : list ServiceDescriptor :=
  map (fun entry => NodeWire.mk_service (a_id entry) (a_name entry))
    (take (Z.to_nat MAX_SERVICES + 1) (List.filter (fun entry => visible entry peer) l)).

Definition ended (i : Z) (r : result unit) (s : node) : list effect * node :=
  ([Ended i r], with_streams (delete i (streams s)) s).

Definition set_phase (i : Z) (t : served) (p : phase) (s : node) : node :=
  with_streams (<[i := mk_served (s_conn t) (s_epoch t) p]> (streams s)) s.

Definition reply (i : Z) (t : served) (f : NodeFrame) (next : after) (s : node) : list effect * node :=
  match encode f with
  | Ok _ => ([Say i f], set_phase i t (Writing f next) s)
  | Err e => ended i (Err e) s
  | Panic => ended i Panic s
  end.

Definition reject (i : Z) (t : served) (id : Z) (code : NodeErrorCode) (permit : bool) (s : node) : list effect * node :=
  reply i t (new id (ErrorMsg code)) (Finish permit) s.

(** [prepare] once the request was read. *)
Definition on_request (i : Z) (t : served) (peer : NodeId) (request : result NodeFrame) (s : node) : list effect * node :=
  match request with
  | Ok f =>
      let id := request_id f in
      if id =? 0 then ended i (Err (Protocol "request number zero")) s
      else if p_disabled (for_peer (resources s) peer) then reject i t id Unauthorized false s
      else
        match message f with
        | Services =>
            let entries := directory (targets s) peer in
            if MAX_SERVICES <? Z.of_nat (length entries) then reject i t id Busy false s
            else reply i t (new id (ServiceList entries)) (Finish false) s
        | OpenTcp service =>
            match target_for (targets s) peer service with
            | None => reject i t id UnknownService false s
            | Some target =>
                if try_reserve s then
                  match connect_allowed_target target [target] with
                  | Ok target => ([Dial i target], set_phase i t (Connecting id service target) s)
                  | _ => reject i t id TargetUnavailable true s
                  end
                else reject i t id Busy false s
            end
        | _ => reject i t id InvalidRequest false s
        end
  | Err e => ended i (Err e) s
  | Panic => ended i Panic s
  end.

(** [prepare] once connecting to the target gave a result. *)
Definition on_connected (i : Z) (t : served) (peer : NodeId) (id : Z) (service : list Z) (target : SocketAddr)
    (tcp : result unit) (s : node) : list effect * node :=
  match tcp with
  | Ok _ =>
      if p_disabled (for_peer (resources s) peer) || negb (bool_decide (target_for (targets s) peer service = Some target))
      then reject i t id UnknownService true s
      else reply i t (new id TcpReady) (Flow target) s
  | _ => reject i t id TargetUnavailable true s
  end.

(** An answer was written; [handle] then releases the control permit. *)
Definition on_written (i : Z) (t : served) (next : after) (r : result unit) (s : node) : list effect * node :=
  match r, next with
  | Ok _, Flow target => ([Bridge i target], set_phase i t (Bridging target) s)
  | Ok _, Finish _ => ended i (Ok tt) s
  | _, _ => ended i r s
  end.

(** What a stream's task finds when it runs. *)
Inductive event : Type :=
  | Poll
  | Request (r : result NodeFrame)
  | Connected (r : result unit)
  | Written (r : result unit)
  | Elapsed
  | Bridged (r : result unit).

(** [handle] under its deadline. *)
Definition on_event (i : Z) (t : served) (peer : NodeId) (e : event) (s : node) : list effect * node :=
  match s_phase t, e with
  | Reading, Request r => on_request i t peer r s
  | Connecting id service target, Connected r => on_connected i t peer id service target r s
  | Writing _ next, Written r => on_written i t next r s
  | (Reading | Connecting _ _ _ | Writing _ _), Elapsed =>
      ([Reset i Dispatch.RESET_INVALID; Ended i (Err (Protocol "control phase timed out"))],
       with_streams (delete i (streams s)) s)
  | Bridging _, Bridged r => ended i r s
  | _, _ => ([], s)
  end.

(** [LiveAuthorization::guard]: the rights are looked at before the work goes on. *)
Definition run_stream (i : Z) (e : event) (s : node) : list effect * node :=
  match streams s !! i with
  | None => ([], s)
  | Some t =>
      match conns s !! s_conn t with
      | Some (mk_conn peer (Some p)) =>
          let epoch := match s_phase t with Spawned => Rights.get_epoch true p | _ => s_epoch t end in
          if Rights.denied_now true epoch p then ended i (Err (Protocol "rights revoked")) s
          else match s_phase t with
               | Spawned => ([], with_streams (<[i := mk_served (s_conn t) epoch Reading]> (streams s)) s)
               | _ => on_event i t peer e s
               end
      | _ => ended i (Err (Protocol "rights revoked")) s
      end
  end.

(** A stream of the dispatcher arrives at [serve]. *)
Definition arrive (c : Z) (s : node) : list effect * node :=
  match conns s !! c with
  | None => ([], s)
  | Some _ =>
      let i := next_stream s in
      let s := mk_node (targets s) (resources s) (conns s) (next_conn s) (streams s) (i + 1) (others s) (owner_closed s) in
      if MAX_PENDING_CONTROLS <=? tally (of_conn c) (streams s) then ([Reset i Dispatch.RESET_BUSY], s)
      else ([], with_streams (<[i := mk_served c 0 Spawned]> (streams s)) s)
  end.

Inductive op : Type :=
  | Connect (peer : NodeId) (a : RemoteAuth.RemoteAuthorization)
  | Arrive (c : Z)
  | Run (i : Z) (e : event)
  | SetTargets (l : list AllowedForwardTarget)
  | SetResources (p : ResourcePolicy)
  | Authorize (c : Z) (a : RemoteAuth.RemoteAuthorization)
  | DropRights (c : Z)
  | Close (c : Z)
  | OtherBegins
  | OtherEnds
  | CloseOwner.

Definition with_rights (c : Z) (f : Rights.Publisher -> option Rights.Publisher) (s : node) : node :=
  with_conns (alter (fun x => mk_conn (c_peer x) (c_rights x ≫= f)) c (conns s)) s.

Definition step (o : op) (s : node) : list effect * node :=
  match o with
  | Connect peer a =>
      ([], mk_node (targets s) (resources s) (<[next_conn s := mk_conn peer (Some (Rights.new_publisher a))]> (conns s))
             (next_conn s + 1) (streams s) (next_stream s) (others s) (owner_closed s))
  | Arrive c => arrive c s
  | Run i e => run_stream i e s
  | SetTargets l => ([], mk_node l (resources s) (conns s) (next_conn s) (streams s) (next_stream s) (others s) (owner_closed s))
  | SetResources p => ([], mk_node (targets s) p (conns s) (next_conn s) (streams s) (next_stream s) (others s) (owner_closed s))
  | Authorize c a => ([], with_rights c (fun p => Some (Rights.send_replace a p)) s)
  | DropRights c => ([], with_rights c (fun _ => None) s)
  | Close c => ([], with_conns (delete c (conns s)) (with_streams (filter (fun kv => s_conn kv.2 <> c) (streams s)) s))
  | OtherBegins => ([], if try_reserve s then mk_node (targets s) (resources s) (conns s) (next_conn s) (streams s) (next_stream s) (others s + 1) (owner_closed s) else s)
  | OtherEnds => ([], if 0 <? others s then mk_node (targets s) (resources s) (conns s) (next_conn s) (streams s) (next_stream s) (others s - 1) (owner_closed s) else s)
  | CloseOwner => ([], mk_node (targets s) (resources s) (conns s) (next_conn s) (streams s) (next_stream s) (others s) true)
  end.

(** Every effect with the state it was made in. *)
Fixpoint run (ops : list op) (s : node) : list (node * effect) * node :=
  match ops with
  | [] => ([], s)
  | o :: ops =>
      let (l, s') := step o s in
      let (tr, s'') := run ops s' in
      (map (pair s) l ++ tr, s'')
  end.

End Server.

(** ** Counting streams *)

Lemma tally_insert_new p (m : gmap Z served) i t : m !! i = None -> tally p (<[i := t]> m) = tally p m + Z.b2z (p t).
Proof. intros Hi. unfold tally. rewrite count_insert_new by done. by destruct (p t). Qed.

Lemma tally_insert_old p (m : gmap Z served) i t t' : m !! i = Some t ->
  tally p (<[i := t']> m) = tally p m - Z.b2z (p t) + Z.b2z (p t').
Proof. intros Hi. unfold tally. rewrite (count_update _ _ _ _ t) by done. by destruct (p t), (p t'). Qed.

(** ** What the node may do *)

Section Guarded.
Context `{Postcard NodeFrame} `{Hex} `{HexDecode}.

(** An enabled service that names the device. *)
Definition offered (l : list AllowedForwardTarget) (peer : NodeId) (entry : AllowedForwardTarget) : Prop :=
  entry ∈ l /\ a_enabled entry = true /\ exists text, text ∈ allowed_peers entry /\ Identity.from_hex text = Ok peer.

(** The stream belongs to a connection whose peer has its rights now and is offered
    this target as this service. *)
Definition granted (s : node) (i : Z) (service : list Z) (target : SocketAddr) : Prop :=
  exists t peer p, streams s !! i = Some t /\ conns s !! s_conn t = Some (mk_conn peer (Some p)) /\
    RemoteAuth.inbound_authorized (Rights.value p) = true /\ p_disabled (for_peer (resources s) peer) = false /\
    exists entry, offered (targets s) peer entry /\ a_id entry = service /\ a_target entry = target.

Definition history : Type := list (node * effect).

Definition silent (tr : history) (i : Z) : Prop := forall s f, (s, Say i f) ∉ tr.
Definition dialled (tr : history) (i : Z) (service : list Z) (target : SocketAddr) : Prop :=
  exists s, (s, Dial i target) ∈ tr /\ granted s i service target.
Definition promised (tr : history) (i : Z) (target : SocketAddr) : Prop :=
  exists s f service, (s, Say i f) ∈ tr /\ message f = TcpReady /\ granted s i service target /\ dialled tr i service target.

(** An effect after a history: a target is dialled for a granted service; an answer is
    the only one of its stream and says no more than is so; bytes flow to a promised
    target. *)
Definition effect_ok (tr : history) (s : node) (e : effect) : Prop :=
  match e with
  | Dial i target => exists service, granted s i service target
  | Say i f =>
      silent tr i /\ request_id f <> 0 /\
      match message f with
      | TcpReady => exists service target, granted s i service target /\ dialled tr i service target
      | ServiceList l =>
          exists t peer p, streams s !! i = Some t /\ conns s !! s_conn t = Some (mk_conn peer (Some p)) /\
            RemoteAuth.inbound_authorized (Rights.value p) = true /\ p_disabled (for_peer (resources s) peer) = false /\
            forall d, d ∈ l <-> exists entry, offered (targets s) peer entry /\ d = NodeWire.mk_service (a_id entry) (a_name entry)
      | ErrorMsg _ => True
      | _ => False
      end
  | Bridge i target => promised tr i target
  | Reset _ _ | Ended _ _ => True
  end.

Definition phase_ok (tr : history) (i : Z) (p : phase) : Prop :=
  match p with
  | Spawned | Reading => silent tr i
  | Connecting id service target => id <> 0 /\ silent tr i /\ dialled tr i service target
  | Writing f (Flow target) => promised tr i target
  | Writing _ (Finish _) | Bridging _ => True
  end.

Record sound (tr : history) (s : node) : Prop := mk_sound {
  so_trace : trace_ok effect_ok tr;
  so_phase : forall i t, streams s !! i = Some t -> phase_ok tr i (s_phase t);
  so_next : forall i, is_Some (streams s !! i) -> i < next_stream s;
  so_silent : forall i, next_stream s <= i -> silent tr i;
  so_controls : forall c, tally (of_conn c) (streams s) <= MAX_PENDING_CONTROLS;
  so_permits : permits s <= TCP_LIMIT;
  so_others : 0 <= others s;
}.

Definition about (i : Z) (e : effect) : Prop := match e with Say j _ => j = i | _ => True end.

Lemma silent_app tr l i : silent tr i -> silent l i -> silent (tr ++ l) i.
Proof. intros Ha Hb s f [Hx|Hx]%elem_of_app; [by eapply Ha|by eapply Hb]. Qed.

Lemma silent_other s l i j : i <> j -> Forall (about i) l -> silent (map (pair s) l) j.
Proof.
  intros Hij Hl s1 f (e & [= -> <-] & He)%list_elem_of_fmap. rewrite Forall_forall in Hl. by specialize (Hl _ He).
Qed.

Lemma dialled_app tr l i service target : dialled tr i service target -> dialled (tr ++ l) i service target.
Proof. intros (s & Hs & Hg). exists s. split; [set_solver|done]. Qed.

Lemma promised_app tr l i target : promised tr i target -> promised (tr ++ l) i target.
Proof. intros (s & f & service & Hs & Hf & Hg & Hd). exists s, f, service. split; [set_solver|]. split; [done|]. split; [done|]. by apply dialled_app. Qed.

Lemma phase_ok_app tr l i p : silent l i -> phase_ok tr i p -> phase_ok (tr ++ l) i p.
Proof.
  intros Hl. destruct p as [| |id sv tg|f [b|tg]|tg]; cbn; try done; try (intros; by apply silent_app).
  - intros (Ha & Hb & Hc). split; [done|]. split; [by apply silent_app|by apply dialled_app].
  - apply promised_app.
Qed.

Lemma silent_nil i : silent [] i.
Proof. intros s f Hx. by apply not_elem_of_nil in Hx. Qed.

(** A step that only changes one stream, at most loosening what it holds. *)
Lemma sound_set tr s i t t' l : sound tr s -> streams s !! i = Some t -> s_conn t' = s_conn t ->
  (holds_control t' = true -> holds_control t = true) -> (holds_permit t' = true -> holds_permit t = true \/ permits s < TCP_LIMIT) ->
  Forall (about i) l -> trace_ok effect_ok (tr ++ map (pair s) l) -> phase_ok (tr ++ map (pair s) l) i (s_phase t') ->
  sound (tr ++ map (pair s) l) (with_streams (<[i := t']> (streams s)) s).
Proof.
  intros [S1 S2 S3 S4 S5 S6 S7] Ht Hc Hco Hp Ha Htr Hph. assert (i < next_stream s) as Hlt by (apply S3; by eexists).
  split; cbn; [done|..].
  - intros j u. rewrite lookup_insert. case_decide as Hj; [by intros [= <-]; subst|]. intros Hu.
    apply phase_ok_app; [by eapply silent_other|by apply S2].
  - intros j. rewrite lookup_insert. case_decide; [lia|apply S3].
  - intros j Hj. apply silent_app; [by apply S4|]. apply (silent_other _ _ i); [lia|done].
  - intros c. rewrite (tally_insert_old _ _ _ _ _ Ht). specialize (S5 c). enough (Z.b2z (of_conn c t') <= Z.b2z (of_conn c t)) by lia.
    unfold of_conn. rewrite Hc. destruct (bool_decide (s_conn t = c)); cbn [andb]; [|done].
    destruct (holds_control t'); [rewrite Hco by done; done|]. by destruct (holds_control t).
  - unfold permits in *. cbn. rewrite (tally_insert_old _ _ _ _ _ Ht).
    destruct (holds_permit t'); [|destruct (holds_permit t); cbn; lia]. destruct Hp as [->|Hp]; [done|cbn; lia|]. destruct (holds_permit t); cbn; lia.
  - done.
Qed.

(** Fewer streams. *)
Lemma sound_fewer tr s m l : sound tr s -> m ⊆ streams s -> Forall (fun e => match e with Reset _ _ | Ended _ _ => True | _ => False end) l ->
  sound (tr ++ map (pair s) l) (with_streams m s).
Proof.
  intros [S1 S2 S3 S4 S5 S6 S7] Hm Hl.
  assert (forall j, silent (map (pair s) l) j) as Hs.
  { intros j s1 f (e & [= -> <-] & He)%list_elem_of_fmap. rewrite Forall_forall in Hl. by specialize (Hl _ He). }
  split; cbn.
  - revert tr S1 S2 S4. induction Hl as [|e l He _ IH]; intros tr S1 S2 S4; cbn; [by rewrite app_nil_r|].
    change (tr ++ (s, e) :: map (pair s) l) with (tr ++ [(s, e)] ++ map (pair s) l). rewrite app_assoc. 
    assert (forall j, silent [(s, e)] j) as He' by (intros j s1 f Hx; apply list_elem_of_singleton in Hx as [= -> <-]; done).
    apply IH.
    + intros j s1 f Hx. apply (Hs j s1 f). cbn. by right.
    + apply trace_ok_snoc; [done|]. by destruct e.
    + intros j t Ht. apply phase_ok_app; [done|by apply S2].
    + intros j Hj. apply silent_app; [by apply S4|done].
  - intros j t Ht. apply phase_ok_app; [done|]. apply S2. by eapply lookup_weaken.
  - intros j [t Ht]. apply S3. exists t. by eapply lookup_weaken.
  - intros j Hj. apply silent_app; [by apply S4|done].
  - intros c. etrans; [by apply count_subseteq|apply S5].
  - unfold permits in *. cbn. assert (tally holds_permit m <= tally holds_permit (streams s)) by by apply count_subseteq. lia.
  - done.
Qed.

Definition goes (tr : history) (s : node) (r : list effect * node) : Prop := sound (tr ++ map (pair s) r.1) r.2.

Lemma goes_ended tr s i r : sound tr s -> goes tr s (ended i r s).
Proof. intros Hs. apply sound_fewer; [done|apply delete_subseteq|by repeat constructor]. Qed.

Lemma goes_nothing tr s : sound tr s -> goes tr s ([], s).
Proof. intros Hs. unfold goes. cbn. by rewrite app_nil_r. Qed.

Lemma goes_reply tr s i t f next : sound tr s -> streams s !! i = Some t -> holds_control t = true ->
  effect_ok tr s (Say i f) -> (holds_permit (mk_served (s_conn t) (s_epoch t) (Writing f next)) = true -> holds_permit t = true \/ permits s < TCP_LIMIT) ->
  phase_ok (tr ++ [(s, Say i f)]) i (Writing f next) -> goes tr s (reply i t f next s).
Proof.
  intros Hs Ht Hc He Hp Hph. unfold reply. destruct (encode f); [|by apply goes_ended|by apply goes_ended].
  unfold goes. cbn [fst snd]. unfold set_phase. apply (sound_set tr s i t); try done; [by repeat constructor|].
  apply trace_ok_snoc; [apply Hs|done].
Qed.

Lemma goes_reject tr s i t id code permit : sound tr s -> streams s !! i = Some t -> holds_control t = true -> silent tr i -> id <> 0 ->
  (permit = true -> holds_permit t = true \/ permits s < TCP_LIMIT) -> goes tr s (reject i t id code permit s).
Proof. intros. by apply goes_reply. Qed.

(** ** The questions asked of the settings *)

Lemma visible_spec entry peer : visible entry peer = true <->
  a_enabled entry = true /\ exists text, text ∈ allowed_peers entry /\ Identity.from_hex text = Ok peer.
Proof.
  unfold visible. rewrite andb_true_iff, existsb_exists. apply and_iff_compat_l. split; intros (text & Hx & Ht); exists text;
    (split; [by apply list_elem_of_In|]).
  - destruct (Identity.from_hex text); try done. by apply bool_decide_eq_true in Ht as ->.
  - rewrite Ht. by rewrite bool_decide_eq_true_2.
Qed.

Lemma target_for_spec l peer service target : target_for l peer service = Some target ->
  exists entry, offered l peer entry /\ a_id entry = service /\ a_target entry = target.
Proof.
  unfold target_for. destruct (List.find _ l) as [entry|] eqn:E; cbn; [|done]. intros [= <-].
  apply find_some in E as [Hi [Ha%bool_decide_eq_true Hv%visible_spec]%andb_true_iff]. exists entry.
  split; [|done]. split; [by apply list_elem_of_In|done].
Qed.

Lemma directory_spec l peer d : Z.of_nat (length (directory l peer)) <= MAX_SERVICES ->
  d ∈ directory l peer <-> exists entry, offered l peer entry /\ d = NodeWire.mk_service (a_id entry) (a_name entry).
Proof.
  unfold directory. rewrite length_map, length_take. intros Hl. rewrite take_ge by lia. rewrite list_elem_of_fmap. split.
  - intros (entry & -> & [Hi Hv%visible_spec]%list_elem_of_In%filter_In). exists entry. split; [|done]. split; [by apply list_elem_of_In|done].
  - intros (entry & (Hi & Hv) & ->). exists entry. split; [done|]. apply list_elem_of_In, filter_In. split; [by apply list_elem_of_In|by apply visible_spec].
Qed.

(** ** Steps *)

Lemma silent_phase tr s i t : sound tr s -> streams s !! i = Some t ->
  match s_phase t with Spawned | Reading | Connecting _ _ _ => silent tr i | _ => True end.
Proof. intros Hs Ht. pose proof (so_phase _ _ Hs i t Ht) as Hp. destruct (s_phase t); try done. apply Hp. Qed.

Lemma try_reserve_room s : try_reserve s = true -> permits s < TCP_LIMIT.
Proof. unfold try_reserve. by intros [_ Hp%Z.ltb_lt]%andb_true_iff. Qed.

Lemma serves_request tr s i t peer p r : sound tr s -> streams s !! i = Some t -> s_phase t = Reading ->
  conns s !! s_conn t = Some (mk_conn peer (Some p)) -> RemoteAuth.inbound_authorized (Rights.value p) = true ->
  goes tr s (on_request i t peer r s).
Proof.
  intros Hs Ht Hph Hc Hr. pose proof (silent_phase tr s i t Hs Ht) as Hq. rewrite Hph in Hq.
  assert (holds_control t = true) as Hco by (unfold holds_control; by rewrite Hph).
  unfold on_request. destruct r as [f|e|]; [|by apply goes_ended|by apply goes_ended].
  destruct (Z.eqb_spec (request_id f) 0) as [Hz|Hid]; [by apply goes_ended|].
  destruct (p_disabled (for_peer (resources s) peer)) eqn:Hd; [by apply goes_reject|].
  destruct (message f) as [| | |l|service| |code]; try by apply goes_reject.
  - destruct (Z.ltb_spec MAX_SERVICES (Z.of_nat (length (directory (targets s) peer)))) as [Hl|Hl]; [by apply goes_reject|].
    apply goes_reply; try done. split; [done|]. split; [done|]. cbn. exists t, peer, p. do 4 (split; [done|]). intros d. by apply directory_spec.
  - destruct (target_for (targets s) peer service) as [target|] eqn:Etf; [|by apply goes_reject].
    destruct (try_reserve s) eqn:Er; [|by apply goes_reject]. apply try_reserve_room in Er.
    unfold connect_allowed_target. rewrite bool_decide_eq_true_2 by (by left).
    assert (granted s i service target) as Hg by (exists t, peer, p; do 4 (split; [done|]); by apply target_for_spec).
    unfold goes. cbn [fst snd]. unfold set_phase. apply (sound_set tr s i t); try done; [by right|by repeat constructor|..].
    + apply trace_ok_snoc; [apply Hs|]. by exists service.
    + cbn. split; [done|]. split; [apply silent_app; [done|]; intros s1 g Hx; by apply list_elem_of_singleton in Hx|]. exists s. split; [set_solver|done].
Qed.

Lemma goes_connected tr s i t peer p id service target r : sound tr s -> streams s !! i = Some t -> s_phase t = Connecting id service target ->
  conns s !! s_conn t = Some (mk_conn peer (Some p)) -> RemoteAuth.inbound_authorized (Rights.value p) = true ->
  goes tr s (on_connected i t peer id service target r s).
Proof.
  intros Hs Ht Hph Hc Hr. pose proof (so_phase _ _ Hs i t Ht) as Hq. rewrite Hph in Hq. destruct Hq as (Hid & Hq & Hdl).
  assert (holds_control t = true /\ holds_permit t = true) as [Hco Hpe] by (unfold holds_control, holds_permit; by rewrite Hph).
  assert (forall code, goes tr s (reject i t id code true s)) as Hrej by (intros code; apply goes_reject; try done; by left).
  unfold on_connected. destruct r as [u|e|]; [|apply Hrej|apply Hrej].
  destruct (p_disabled (for_peer (resources s) peer)) eqn:Hd; [apply Hrej|]. cbn [orb].
  case_bool_decide as Htf; cbn [negb]; [|apply Hrej].
  assert (granted s i service target) as Hg by (exists t, peer, p; do 4 (split; [done|]); by apply target_for_spec).
  apply goes_reply; try done.
  - split; [done|]. split; [done|]. cbn. by exists service, target.
  - by left.
  - cbn. exists s, (new id TcpReady), service. split; [set_solver|]. split; [done|]. split; [done|]. by apply dialled_app.
Qed.

Lemma goes_written tr s i t f next r : sound tr s -> streams s !! i = Some t -> s_phase t = Writing f next ->
  goes tr s (on_written i t next r s).
Proof.
  intros Hs Ht Hph. unfold on_written. destruct r as [u|e|]; [|by apply goes_ended|by apply goes_ended].
  destruct next as [b|target]; [by apply goes_ended|]. pose proof (so_phase _ _ Hs i t Ht) as Hq. rewrite Hph in Hq.
  unfold goes. cbn [fst snd]. unfold set_phase. apply (sound_set tr s i t); try done.
  - intros _. left. unfold holds_permit. by rewrite Hph.
  - by repeat constructor.
  - apply trace_ok_snoc; [apply Hs|done].
Qed.

Lemma goes_elapsed tr s i r : sound tr s ->
  goes tr s ([Reset i Dispatch.RESET_INVALID; Ended i r], with_streams (delete i (streams s)) s).
Proof. intros Hs. apply sound_fewer; [done|apply delete_subseteq|by repeat constructor]. Qed.

Lemma goes_event tr s i t peer p e : sound tr s -> streams s !! i = Some t ->
  conns s !! s_conn t = Some (mk_conn peer (Some p)) -> RemoteAuth.inbound_authorized (Rights.value p) = true ->
  goes tr s (on_event i t peer e s).
Proof.
  intros Hs Ht Hc Hr. unfold on_event.
  destruct (s_phase t) as [| |id service target|f next|target] eqn:Hph; destruct e as [|r|r|r| |r];
    try (by apply goes_nothing); try (by apply goes_ended); try (by apply goes_elapsed).
  - by eapply serves_request.
  - by eapply goes_connected.
  - by eapply goes_written.
Qed.

Lemma goes_run tr s i e : sound tr s -> goes tr s (run_stream i e s).
Proof.
  intros Hs. unfold run_stream. destruct (streams s !! i) as [t|] eqn:Ht; [|by apply goes_nothing].
  destruct (conns s !! s_conn t) as [[peer [p|]]|] eqn:Hc; [|by apply goes_ended|by apply goes_ended].
  cbv zeta. destruct (Rights.denied_now true _ p) eqn:Hd; [by apply goes_ended|].
  assert (RemoteAuth.inbound_authorized (Rights.value p) = true) as Hr.
  { unfold Rights.denied_now in Hd. apply orb_false_iff in Hd as [Hd _]. by apply negb_false_iff in Hd. }
  destruct (s_phase t) eqn:Hph; try by eapply goes_event.
  apply (sound_set tr s i t _ []); try done; cbn.
  - unfold holds_control. by rewrite Hph.
  - rewrite app_nil_r. apply Hs.
  - rewrite app_nil_r. pose proof (so_phase _ _ Hs i t Ht) as Hq. by rewrite Hph in Hq.
Qed.

(** What no stream notices. *)
Lemma serving_same tr s s' : sound tr s -> streams s' = streams s -> next_stream s <= next_stream s' ->
  0 <= others s' -> permits s' <= TCP_LIMIT -> sound tr s'.
Proof.
  intros [S1 S2 S3 S4 S5 S6 S7] Es En Eo Ep. split; try done; rewrite ?Es; try done.
  - intros i Hi%S3. lia.
  - intros i Hi. apply S4. lia.
Qed.

Lemma goes_same tr s s' : sound tr s -> streams s' = streams s -> next_stream s <= next_stream s' ->
  0 <= others s' -> permits s' <= TCP_LIMIT -> goes tr s ([], s').
Proof. intros. unfold goes. cbn. rewrite app_nil_r. by eapply serving_same. Qed.

Lemma goes_arrive tr s c : sound tr s -> goes tr s (arrive c s).
Proof.
  intros Hs. unfold arrive. destruct (conns s !! c); [|by apply goes_nothing]. set (s1 := mk_node _ _ _ _ _ _ _ _).
  assert (sound tr s1) as Hs1 by (apply (serving_same tr s); try done; [cbn; lia|apply Hs|apply Hs]).
  cbn [streams s1]. destruct (Z.leb_spec MAX_PENDING_CONTROLS (tally (of_conn c) (streams s))) as [Hl|Hl].
  - pose proof (sound_fewer tr s (streams s) [Reset (next_stream s) Dispatch.RESET_BUSY] Hs) as Hf. specialize (Hf ltac:(done) ltac:(by repeat constructor)).
    eapply serving_same; [exact Hf|done|cbn; lia|apply Hs|apply Hs].
  - assert (streams s !! next_stream s = None) as Hn.
    { destruct (streams s !! next_stream s) eqn:E; [|done]. pose proof (so_next _ _ Hs _ (mk_is_Some _ _ E)). lia. }
    unfold goes. cbn [fst snd map]. rewrite app_nil_r. destruct Hs1 as [S1 S2 S3 S4 S5 S6 S7]. split; cbn; try done.
    + intros j t. rewrite lookup_insert. case_decide as Hj; [intros [= <-]|apply S2]. apply (so_silent _ _ Hs). by subst.
    + intros j. rewrite lookup_insert. case_decide; [lia|apply S3].
    + intros c'. rewrite tally_insert_new by done. specialize (S5 c'). unfold of_conn at 2. cbn. case_bool_decide; cbn; [subst; lia|]. cbn in S5. lia.
    + unfold permits in *. cbn in *. rewrite tally_insert_new by done. cbn. lia.
Qed.

Lemma goes_step tr s o : sound tr s -> goes tr s (step o s).
Proof.
  intros Hs. destruct o as [peer a|c|i e|l|p|c a|c|c| | |]; cbn [step];
    try (apply goes_same; [done|done|cbn; lia|apply Hs|apply Hs]).
  - by apply goes_arrive.
  - by apply goes_run.
  - unfold goes. cbn [fst snd map].
    apply (serving_same _ (with_streams (filter (fun kv => s_conn kv.2 <> c) (streams s)) s)); try done.
    + apply (sound_fewer tr s _ [] Hs); [apply map_filter_subseteq|by constructor].
    + apply Hs.
    + pose proof (sound_fewer tr s (filter (fun kv => s_conn kv.2 <> c) (streams s)) [] Hs) as Hf.
      apply Hf; [apply map_filter_subseteq|by constructor].
  - destruct (try_reserve s) eqn:Er; [|by apply goes_nothing]. apply try_reserve_room in Er. pose proof (so_others _ _ Hs).
    apply goes_same; try done; unfold permits in *; cbn; lia.
  - destruct (Z.ltb_spec 0 (others s)) as [Ho|Ho]; [|by apply goes_nothing]. pose proof (so_permits _ _ Hs).
    apply goes_same; try done; unfold permits in *; cbn; lia.
Qed.

Lemma sound_run ops tr s : sound tr s -> sound (tr ++ (run ops s).1) (run ops s).2.
Proof.
  revert tr s. induction ops as [|o ops IH]; intros tr s Hs; [cbn; by rewrite app_nil_r|].
  change (run (o :: ops) s) with (let (l, s') := step o s in let (tr, s'') := run ops s' in (map (pair s) l ++ tr, s'')).
  pose proof (goes_step tr s o Hs) as Hg. unfold goes in Hg. destruct (step o s) as [l s']. specialize (IH _ _ Hg). cbn [fst snd] in IH.
  destruct (run ops s') as [tr' s'']. cbn [fst snd] in *. by rewrite app_assoc.
Qed.

Lemma serving_initial : sound [] initial.
Proof.
  assert (forall i, streams initial !! i = None) as He by (intros i; apply lookup_empty).
  split.
  - apply trace_ok_nil.
  - intros i t. by rewrite He.
  - intros i [x Hx]. by rewrite He in Hx.
  - intros i _. apply silent_nil.
  - done.
  - done.
  - done.
Qed.
End Guarded.

(** C14: Services reach only those they are offered to. Whatever peers ask on however
    many connections and streams, while settings and rights change in between, the node
    opens a connection to a target only for a request of a device that has its rights
    at that moment, is not disabled, and is named by an enabled service with this id
    and target; it announces the flow only when all of this still holds after
    connecting, to the target it dialled, and copies bytes only after announcing.
    A directory lists exactly the services offered to the device. Each stream gets at
    most one answer; on a connection at most eight streams are in their control phase,
    and at most 256 TCP flows are open on the node. *)
Theorem services_guarded `{Postcard NodeFrame} `{Hex} `{HexDecode} (ops : list op) : let (tr, s) := run ops initial in
  trace_ok effect_ok tr /\ (forall c, tally (of_conn c) (streams s) <= 8) /\ tally holds_permit (streams s) + others s <= 256.
Proof.
  pose proof (sound_run ops [] initial serving_initial) as Hs. destruct (run ops initial) as [tr s]. cbn in Hs. split; [apply Hs|]. split; apply Hs.
Qed.

(** ** The client *)

Section Client.
Context `{Postcard NodeFrame}.

(** [dispatch::open_bi]; [opened]: the connection gave a stream. *)
Definition open_bi (opened : bool) (kind : StreamKind) : st stream error unit :=
  fun s =>
    if opened then
      match write_all (outgoing s) [stream_code kind] with
      | Ok w => (Ok tt, mk_stream (incoming s) w)
      | _ => (Err (Transport "writing the stream kind failed"), s)
      end
    else (Err (Transport "opening a stream failed"), s).

(** [request] within its time; [drawn] is [rand::random]. *)
Definition request (opened : bool) (drawn : Z) (m : NodeMessage) : st stream error NodeMessage :=
  let id := Z.max drawn 1 in
  let! _ := open_bi opened SService in
  let! _ := write (new id m) in
  let! response := read in
  let! _ := liftr (fail_if (negb (request_id response =? id)) (Protocol "answer to another request")) in
  match message response with
  | ErrorMsg _ => throw (Protocol "refused")
  | m => ret m
  end.

Definition list_services (opened : bool) (drawn : Z) : st stream error (list ServiceDescriptor) :=
  let! reply := request opened drawn Services in
  match reply with
  | ServiceList services => ret services
  | _ => throw (Protocol "not a directory")
  end.

Definition open_tcp (opened : bool) (drawn : Z) (service : list Z) : st stream error unit :=
  let! _ := liftr (validate_service_id service) in
  let! reply := request opened drawn (OpenTcp service) in
  match reply with
  | TcpReady => ret tt
  | _ => throw (Protocol "not a flow")
  end.
End Client.

Section Call.
Context `{PostcardLaws NodeFrame} `{Hex} `{HexDecode}.

(** A request that was written, and its answer read. *)
Lemma request_answered drawn m q f answer rest c : encode (new (Z.max drawn 1) m) = Ok q -> encode f = Ok answer ->
  data_only (incoming c) -> are_bytes (bytes_of (incoming c)) -> broken (outgoing c) = None ->
  bytes_of (incoming c) = Frame.frame_bytes answer ++ rest ->
  exists c', out (outgoing c') = out (outgoing c) ++ [stream_code SService] ++ Frame.frame_bytes q /\ request true drawn m c =
    (if request_id f =? Z.max drawn 1 then match message f with ErrorMsg _ => Err (Protocol "refused") | m => Ok m end
     else Err (Protocol "answer to another request"), c').
Proof.
  intros Eq Ea Hd Hb Hbr Ei. unfold request.
  set (c1 := mk_stream (incoming c) (mk_writer (out (outgoing c) ++ [stream_code SService]) None)).
  assert (open_bi true SService c = (Ok tt, c1)) as E1 by (unfold open_bi, write_all; by rewrite Hbr).
  rewrite (sbind_run _ _ _ _ _ E1), (sbind_run _ _ _ _ _ (write_frame_ok c1 _ _ Eq eq_refl)).
  set (c2 := mk_stream _ _). destruct (read_written c2 _ _ rest Ea Hd Hb Ei) as (r' & E3 & _ & _).
  rewrite (sbind_run _ _ _ _ _ E3). eexists (mk_stream r' _). split.
  2: { unfold liftr, sbind. destruct (request_id f =? Z.max drawn 1); cbn; [|done]. by destruct (message f). }
  cbn. by rewrite <- app_assoc.
Qed.

Lemma run_guarded s i t peer p e : streams s !! i = Some t -> conns s !! s_conn t = Some (mk_conn peer (Some p)) ->
  s_phase t <> Spawned -> Rights.denied_now true (s_epoch t) p = false -> run_stream i e s = on_event i t peer e s.
Proof.
  intros Ht Hc Hp Hd. unfold run_stream. rewrite Ht, Hc. destruct (s_phase t); [done|..]; cbv zeta; by rewrite Hd.
Qed.

(** The events in which a node serves one request. *)
Definition serving (i : Z) (f : NodeFrame) (tcp : result unit) : list op :=
  [Run i (Request (Ok f)); Run i (Connected tcp); Run i (Written (Ok tt))].

(** What a call gets: the flow, or a refusal. *)
Definition outcome_of (s : node) (peer : NodeId) (service : list Z) (tcp : result unit) : option SocketAddr :=
  if p_disabled (for_peer (resources s) peer) then None
  else match target_for (targets s) peer service, tcp with
       | Some target, Ok _ => if try_reserve s then Some target else None
       | _, _ => None
       end.

(** A stream that is about to end says nothing more. *)
Definition closing (i : Z) (s : node) : Prop :=
  match streams s !! i with Some t => exists f permit, s_phase t = Writing f (Finish permit) | None => True end.
Definition mute (e : effect) : Prop := match e with Reset _ _ | Ended _ _ => True | _ => False end.

Lemma closing_ended i s : closing i (with_streams (delete i (streams s)) s).
Proof. unfold closing. cbn. by rewrite lookup_delete_eq. Qed.

Lemma closing_step i e s : closing i s -> Forall mute (run_stream i e s).1 /\ closing i (run_stream i e s).2.
Proof.
  intros Hcl. assert (forall r, Forall mute (ended i r s).1 /\ closing i (ended i r s).2) as He by (intros r; split; [by repeat constructor|apply closing_ended]).
  unfold run_stream. destruct (streams s !! i) as [t|] eqn:Ht; [|done].
  unfold closing in Hcl. rewrite Ht in Hcl. destruct Hcl as (f & b & Hph).
  destruct (conns s !! s_conn t) as [[peer [p|]]|]; [|apply He|apply He]. rewrite Hph. destruct (Rights.denied_now true (s_epoch t) p); [apply He|].
  unfold on_event. rewrite Hph. assert (closing i s) as Hs by (unfold closing; rewrite Ht; eauto).
  destruct e as [|r|r|r| |r]; try (by split); [destruct r; apply He|].
  split; [by repeat constructor|apply closing_ended].
Qed.

Lemma closing_run i es s : closing i s -> Forall (fun x => mute x.2) (run (map (Run i) es) s).1.
Proof.
  revert s. induction es as [|e es IH]; intros s Hs; [constructor|].
  destruct (closing_step i e s Hs) as [Hm Hs']. cbn [map run step]. destruct (run_stream i e s) as [l s']. specialize (IH s' Hs').
  cbn [fst snd] in *. destruct (run (map (Run i) es) s') as [tr s'']. cbn [fst snd] in *. apply Forall_app. split; [|done]. by apply Forall_map.
Qed.

(** A refusal, and what follows it. *)
Definition refused (i : Z) (id : Z) (tr : history) : Prop :=
  (forall s f, (s, Say i f) ∈ tr -> exists code, f = new id (ErrorMsg code)) /\ (forall s target, (s, Bridge i target) ∉ tr).

Lemma refused_mute i id tr l : Forall (fun x => mute x.2) l -> refused i id tr -> refused i id (tr ++ l).
Proof.
  rewrite Forall_forall. intros Hl [Ha Hb]. split.
  - intros s f [Hx|Hx]%elem_of_app; [by eapply Ha|]. by specialize (Hl _ Hx).
  - intros s target [Hx|Hx]%elem_of_app; [by eapply Hb|]. by specialize (Hl _ Hx).
Qed.

Lemma reject_refused s0 i t id code permit s es : 
  let (l, s') := reject i t id code permit s in refused i id (map (pair s0) l ++ (run (map (Run i) es) s').1).
Proof.
  assert (forall r, refused i id (map (pair s0) (ended i r s).1 ++ (run (map (Run i) es) (ended i r s).2).1)) as He.
  { intros r. apply refused_mute; [apply closing_run, closing_ended|]. split; intros s1 x Hx; cbn in Hx; set_solver. }
  unfold reject, reply. destruct (encode _); [|apply He|apply He]. apply refused_mute.
  - apply closing_run. unfold closing. cbn. rewrite lookup_insert_eq. cbn. eauto.
  - split; cbn; intros s1 x Hx%list_elem_of_singleton; [|done]. injection Hx as _ ->. by exists code.
Qed.

Lemma serving_run_cons o ops s : run (o :: ops) s = (let (l, s') := step o s in (map (pair s) l ++ (run ops s').1, (run ops s').2)).
Proof. cbn [run]. destruct (step o s) as [l s']. by destruct (run ops s'). Qed.

(** Serving once, as what is said and where bytes flow. *)
Lemma serving_spec s i t peer p id service tcp ready : streams s !! i = Some t -> conns s !! s_conn t = Some (mk_conn peer (Some p)) ->
  s_phase t = Reading -> Rights.denied_now true (s_epoch t) p = false -> id <> 0 -> encode (new id TcpReady) = Ok ready ->
  match outcome_of s peer service tcp with
  | Some target => exists s1 s2 s3, (run (serving i (new id (OpenTcp service)) tcp) s).1 = [(s1, Dial i target); (s2, Say i (new id TcpReady)); (s3, Bridge i target)]
  | None => refused i id (run (serving i (new id (OpenTcp service)) tcp) s).1
  end.
Proof.
  intros Ht Hc Hph Hd Hid He.
  assert (forall p' e, p' <> Spawned -> run_stream i e (set_phase i t p' s) = on_event i (mk_served (s_conn t) (s_epoch t) p') peer e (set_phase i t p' s)) as Hset.
  { intros p' e Hp'. eapply run_guarded; [apply lookup_insert_eq|done|done|done]. }
  unfold serving. change [Run i (Connected tcp); Run i (Written (Ok tt))] with (map (Run i) [Connected tcp; Written (Ok tt)]).
  rewrite serving_run_cons. cbn [step]. rewrite (run_guarded s i t peer p) by (done || by rewrite Hph). unfold on_event. rewrite Hph.
  unfold on_request, outcome_of. cbn [request_id message new]. destruct (Z.eqb_spec id 0); [done|].
  destruct (p_disabled (for_peer (resources s) peer)) eqn:Hdis.
  { pose proof (reject_refused s i t id Unauthorized false s [Connected tcp; Written (Ok tt)]) as Hr. by destruct (reject _ _ _ _ _ _). }
  destruct (target_for (targets s) peer service) as [target|] eqn:Htf.
  2: { pose proof (reject_refused s i t id UnknownService false s [Connected tcp; Written (Ok tt)]) as Hr. by destruct (reject _ _ _ _ _ _). }
  destruct (try_reserve s).
  2: { pose proof (reject_refused s i t id Busy false s [Connected tcp; Written (Ok tt)]) as Hr. destruct (reject _ _ _ _ _ _). by destruct tcp. }
  unfold connect_allowed_target. rewrite bool_decide_eq_true_2 by (by left). cbn [map]. rewrite serving_run_cons. cbn [step]. rewrite Hset by done.
  cbn [on_event s_phase]. unfold on_connected. change [Run i (Written (Ok tt))] with (map (Run i) [Written (Ok tt)]).
  set (s1 := set_phase i t (Connecting id service target) s). set (t1 := mk_served _ _ _).
  assert (refused i id [(s, Dial i target)]) as Hdial by (split; intros s0 x Hx%list_elem_of_singleton; done).
  assert (forall code, let (l, s') := reject i t1 id code true s1 in refused i id ((s, Dial i target) :: map (pair s1) l ++ (run (map (Run i) [Written (Ok tt)]) s').1)) as Hrej.
  { intros code. pose proof (reject_refused s1 i t1 id code true s1 [Written (Ok tt)]) as Hr. destruct (reject _ _ _ _ _ _) as [l s'].
    destruct Hdial as [Da Db], Hr as [Ra Rb]. split; [intros s0 f|intros s0 x]; (intros [Hx|Hx]%elem_of_cons; [done|]); [by eapply Ra|by eapply Rb]. }
  destruct tcp as [u|e|]; [|specialize (Hrej TargetUnavailable); by destruct (reject _ _ _ _ _ _)..].
  change (resources s1) with (resources s). change (targets s1) with (targets s). rewrite Hdis, Htf, bool_decide_eq_true_2 by done. cbn [orb negb].
  unfold reply. rewrite He. cbn [map]. rewrite serving_run_cons. cbn [step].
  rewrite (run_guarded _ i (mk_served (s_conn t) (s_epoch t) (Writing (new id TcpReady) (Flow target))) peer p) by (try done; apply lookup_insert_eq).
  cbn [on_event s_phase on_written run fst snd map app]. eauto.
Qed.
End Call.

(** A call opens a flow exactly when the node serves it. A device that asks over a
    new stream of its connection, where the other side reads the request, connects, and
    answers, gets its flow if and only if the other side copies bytes for it: the
    device is not disabled, is offered the service, a permit was free, and connecting
    to the target succeeded. Else it gets an error. What it wrote is the stream's kind
    and the request. *)
Theorem tcp_call_served `{PostcardLaws NodeFrame} `{Hex} `{HexDecode} (s : node) (i : Z) (t : served) (peer : NodeId) (p : Rights.Publisher)
    (drawn : Z) (service : list Z) (tcp : result unit) (q ready answer rest : list Z) (c : stream) (s1 : node) (f : NodeFrame) :
  streams s !! i = Some t -> conns s !! s_conn t = Some (mk_conn peer (Some p)) -> s_phase t = Reading ->
  Rights.denied_now true (s_epoch t) p = false ->
  encode (new (Z.max drawn 1) (OpenTcp service)) = Ok q -> encode (new (Z.max drawn 1) TcpReady) = Ok ready ->
  (s1, Say i f) ∈ (run (serving i (new (Z.max drawn 1) (OpenTcp service)) tcp) s).1 -> encode f = Ok answer ->
  data_only (incoming c) -> are_bytes (bytes_of (incoming c)) -> broken (outgoing c) = None ->
  bytes_of (incoming c) = Frame.frame_bytes answer ++ rest ->
  decode q = Ok (new (Z.max drawn 1) (OpenTcp service)) /\
  exists r c', open_tcp true drawn service c = (r, c') /\ r <> Panic /\
    out (outgoing c') = out (outgoing c) ++ [stream_code SService] ++ Frame.frame_bytes q /\
    (r = Ok tt <-> exists s2 target, (s2, Bridge i target) ∈ (run (serving i (new (Z.max drawn 1) (OpenTcp service)) tcp) s).1) /\
    (r = Ok tt <-> is_Some (outcome_of s peer service tcp)).
Proof.
  intros Ht Hc Hph Hd Eq Er Hsay Ea Hdo Hby Hbr Ein. split; [by apply node_decode_encode|].
  pose proof (serving_spec s i t peer p (Z.max drawn 1) service tcp ready Ht Hc Hph Hd ltac:(lia) Er) as Hspec.
  destruct (request_answered drawn (OpenTcp service) q f answer rest c Eq Ea Hdo Hby Hbr Ein) as (c' & Eout & Ereq).
  assert (validate_service_id service = Ok tt) as Hv.
  { apply node_encode_Ok in Eq as (Hv & _). unfold NodeWire.validate in Hv. cbn [version request_id message new is_negotiation] in Hv.
    apply obind_Ok in Hv as (u1 & _ & Hv). by apply obind_Ok in Hv as (u2 & _ & Hv). }
  assert (forall r, (if request_id f =? Z.max drawn 1 then match message f with ErrorMsg _ => Err (Protocol "refused") | m => Ok m end
     else Err (Protocol "answer to another request")) = r ->
     open_tcp true drawn service c = (match r with Ok TcpReady => Ok tt | Ok _ => Err (Protocol "not a flow") | Err e => Err e | Panic => Panic end, c')) as Hopen.
  { intros r E. unfold open_tcp. rewrite Hv, (sbind_run (liftr (Ok tt)) _ c tt c eq_refl). rewrite E in Ereq. unfold sbind. rewrite Ereq.
    destruct r as [m|e|]; [by destruct m|done|done]. }
  destruct (outcome_of s peer service tcp) as [target|].
  - destruct Hspec as (sa & sb & sc & Etr). rewrite Etr in *.
    assert (f = new (Z.max drawn 1) TcpReady) as -> by (set_unfold; naive_solver).
    cbn [request_id new message] in Hopen. rewrite Z.eqb_refl in Hopen. rewrite (Hopen _ eq_refl).
    eexists _, c'. split; [reflexivity|]. split; [done|]. split; [done|]. split; (split; [intros _|done]); [exists sc, target; set_solver|by eexists].
  - destruct Hspec as [Hs Hb]. destruct (Hs _ _ Hsay) as [code ->].
    cbn [request_id new message] in Hopen. rewrite Z.eqb_refl in Hopen. rewrite (Hopen _ eq_refl).
    eexists _, c'. split; [reflexivity|]. split; [done|]. split; [done|]. split; split; try done.
    + intros (s2 & target & Hx). by destruct (Hb _ _ Hx).
Qed.

(** ** A node with one service *)

#[local] Instance example_postcard : Postcard NodeFrame := NodeWire.example_postcard.
#[local] Instance example_laws : PostcardLaws NodeFrame := NodeWire.example_laws.
#[local] Instance example_hex : Hex := Hexadecimal.hex.
#[local] Instance example_hex_decode : HexDecode := Hexadecimal.hex_decoder.

Definition friend : NodeId := List.repeat 0 16.
Definition both_ways : RemoteAuth.RemoteAuthorization :=
  RemoteAuth.mk_rights (RemoteAuth.mk_grant true false) (RemoteAuth.mk_grant true false).
Definition web : AllowedForwardTarget :=
  Rules.mk_target [List.repeat 48 32] (lit "web") (lit "Web") (V4 2130706433 8080) true.
Definition serving_node : node :=
  (run [SetTargets [web]; Connect friend both_ways; Arrive 0; Run 0 Poll] initial).2.
Definition frame_of (f : NodeFrame) : list Z := match encode f with Ok b => b | _ => [] end.
Definition calling : stream := mk_stream [Data (Frame.frame_bytes (frame_of (new 7 TcpReady)))] (mk_writer [] None).

Lemma tcp_call_served_witness :
  exists c', open_tcp true 7 (lit "web") calling = (Ok tt, c') /\
    exists s2 target, (s2, Bridge 0 target) ∈ (run (serving 0 (new 7 (OpenTcp (lit "web"))) (Ok tt)) serving_node).1.
Proof.
  assert (exists s1, (s1, Say 0 (new 7 TcpReady)) ∈ (run (serving 0 (new 7 (OpenTcp (lit "web"))) (Ok tt)) serving_node).1) as [s1 Hs1].
  { eexists. apply list_elem_of_further, list_elem_of_here. }
  destruct (tcp_call_served serving_node 0 (mk_served 0 0 Reading) friend (Rights.new_publisher both_ways) 7 (lit "web") (Ok tt)
    (frame_of (new 7 (OpenTcp (lit "web")))) (frame_of (new 7 TcpReady)) (frame_of (new 7 TcpReady)) [] calling s1 (new 7 TcpReady))
    as (_ & r & c' & E & _ & _ & Hb & Ho); try (vm_compute; reflexivity); try exact Hs1.
  - by repeat constructor.
  - apply (bool_decide_unpack _). vm_compute. exact I.
  - assert (r = Ok tt) as -> by (apply Ho; vm_compute; by eexists). exists c'. split; [exact E|by apply Hb].
Defined.
End NodeServices.
