(* ===== verification/UnixPath.v ===== *)
(** * Paths of the standard library on Unix

    [std::path] as the task code uses it: a path is its bytes; comparison, prefix
    and file name go by components. *)
From Stdlib Require Import ZArith Lia.
From stdpp Require Import prelude gmap strings.
From S2P Require Import Prelude Utf8.

#[local] Open Scope Z_scope.

Module UnixPath.

Abbreviation path := (list Z).

Inductive component : Type :=
  | RootDir
  | CurDir
  | ParentDir
  | Normal (name : list Z).

#[global] Instance component_eq_dec : EqDecision component.
Proof. solve_decision. Defined.

Definition is_slash (b : Z) : bool := b =? 47.

Definition is_absolute (p : path) : bool :=
  match p with
  | b :: _ => is_slash b
  | [] => false
  end.

(** A piece between separators: empty and [.] pieces vanish. *)
Definition piece (s : list Z) : list component :=
  match s with
  | [] => []
  | [46] => []
  | [46; 46] => [ParentDir]
  | _ => [Normal s]
  end.

(** A leading [.] of a relative path counts. *)
Definition first_piece (s : list Z) : list component :=
  match s with
  | [46] => [CurDir]
  | _ => piece s
  end.

Definition components (p : path) : list component :=
  if is_absolute p then RootDir :: concat (map piece (split is_slash p))
  else match split is_slash p with
       | s :: rest => first_piece s ++ concat (map piece rest)
       | [] => []
       end.

(** [PartialEq] of paths. *)
Definition path_eq (p q : path) : bool := bool_decide (components p = components q).

(** [Path::starts_with]. *)
Definition starts_with_path (p prefix : path) : bool :=
  bool_decide (take (length (components prefix)) (components p) = components prefix).

Definition file_name (p : path) : option (list Z) :=
  match last (components p) with
  | Some (Normal s) => Some s
  | _ => None
  end.

Definition to_str (bytes : list Z) : option (list Z) := Utf8.from_utf8 bytes.

(** [Path::join]. *)
Definition join (p q : path) : path :=
  if is_absolute q then q
  else match last p with
       | None => q
       | Some b => if is_slash b then p ++ q else p ++ [47] ++ q
       end.

Example components_mixed :
  components (lit "/a//b/./c/..") =
    [RootDir; Normal (lit "a"); Normal (lit "b"); Normal (lit "c"); ParentDir].
Proof. reflexivity. Qed.

Example join_separator : join (lit "/a") (lit "b") = lit "/a/b" /\ join (lit "/a/") (lit "b") = lit "/a/b".
Proof. split; reflexivity. Qed.

End UnixPath.
