(* ===== verification/ShortId.v ===== *)
(** * Short device numbers (src/discovery/short_id.rs)

    The nine-digit public addresses: their text form, and the store that assigns
    them.  The store is a SQLite database; its three tables and the statements of
    the source are modelled, each of which can fail, inside a transaction that is
    lost unless it commits. *)
From Stdlib Require Import ZArith Lia.
From stdpp Require Import prelude gmap strings.
From S2P Require Import Prelude Manifest Message State Identity Hexadecimal.

#[local] Open Scope Z_scope.

Module ShortId.

Definition FIRST_SHORT_ID : Z := 100000000.
Definition LAST_SHORT_ID : Z := 999999999.
Definition ALLOCATION_WINDOW_SECONDS : Z := 60.

Record AllocationLimits : Type := mk_limits { max_mappings : Z; per_window : Z }.

Definition invalid (tag : string) : error := Discovery tag.

(** A short id is its number. *)
Definition new (value : Z) : result Z :=
  let? _ := fail_if (negb ((FIRST_SHORT_ID <=? value) && (value <=? LAST_SHORT_ID))) (invalid "nine digits") in
  Ok value.

(** [str::parse::<u32>] of a string of digits. *)
Definition parse_digits (s : list Z) : Z := fold_left (fun acc c => acc * 10 + (c - 48)) s 0.

Definition is_separator (c : Z) : bool := (c =? 32) || (c =? 45).

Definition normalize (input : list Z) : result Z :=
  let? _ := fail_if ((32 <? str_len input) ||
                     existsb (fun b => negb (is_ascii_digit b) && negb (is_separator b)) (utf8 input))
              (invalid "format") in
  let digits := List.filter (fun c => negb (is_separator c)) input in
  let? _ := fail_if (negb (str_len digits =? 9)) (invalid "nine digits") in
  let? value := (if U32_MAX <? parse_digits digits then Err (invalid "format") else Ok (parse_digits digits)) in
  new value.

Definition display (id : Z) : list Z :=
  let s := decimal id in take 3 s ++ [32] ++ take 3 (drop 3 s) ++ [32] ++ drop 6 s.

(** ** The database *)

(** A row of [device_id_mapping]; the identity is the hexadecimal text. *)
Record Row : Type := mk_row {
  device_identity : list Z;
  short_id : Z;
  created_at : Z;
  last_seen_at : Z;
}.

Record Tables : Type := mk_tables {
  device_id_mapping : list Row;
  next_id : Z;
  window_started : Z;
  allocations : Z;
}.

(** What the schema of [open] inserts. *)
Definition initial : Tables := mk_tables [] FIRST_SHORT_ID 0 0.

(** A connection: the committed tables, those of the open transaction, which
    calls fail, and the state [S] that the caller's closure works on. *)
Record Connection (S : Type) : Type := mk_connection {
  committed : Tables;
  work : Tables;
  failures : list bool;
  outer : S;
}.
#[global] Arguments mk_connection {S} committed work failures outer.
#[global] Arguments committed {S} c.
#[global] Arguments work {S} c.
#[global] Arguments failures {S} c.
#[global] Arguments outer {S} c.

Section Database.
Context {S : Type}.
Abbreviation method := (st (Connection S) error).

Definition db_error : error := Discovery "sqlite".

(** One call of the database; a failing one changes nothing. *)
Definition sql {A : Type} (f : Connection S -> result (A * Connection S)) : method A :=
  fun c =>
    let c' := mk_connection (committed c) (work c) (tail (failures c)) (outer c) in
    if hd false (failures c) then (Err db_error, c')
    else match f c' with
         | Ok (a, c'') => (Ok a, c'')
         | Err e => (Err e, c')
         | Panic => (Panic, c')
         end.

Definition begin_immediate : method unit :=
  sql (fun c => Ok (tt, mk_connection (committed c) (committed c) (failures c) (outer c))).
Definition commit : method unit :=
  sql (fun c => Ok (tt, mk_connection (work c) (work c) (failures c) (outer c))).
Definition query {A : Type} (f : Tables -> A) : method A := sql (fun c => Ok (f (work c), c)).
Definition execute (f : Tables -> option Tables) : method unit :=
  sql (fun c => match f (work c) with
                | Some t => Ok (tt, mk_connection (committed c) t (failures c) (outer c))
                | None => Err db_error
                end).

(** The closure [admit_source]. *)
Definition call_outer (m : st S error unit) : method unit :=
  fun c => let (r, s) := m (outer c) in (r, mk_connection (committed c) (work c) (failures c) s).

(** [SELECT short_id .. WHERE device_identity=?1]. *)
Definition select_short (identity : list Z) (t : Tables) : option Z :=
  short_id <$> List.find (fun r => bool_decide (device_identity r = identity)) (device_id_mapping t).

(** [SELECT device_identity .. WHERE short_id=?1]. *)
Definition select_identity (id : Z) (t : Tables) : option (list Z) :=
  device_identity <$> List.find (fun r => short_id r =? id) (device_id_mapping t).

(** [UPDATE device_id_mapping SET last_seen_at=?1 WHERE device_identity=?2]. *)
Definition update_last_seen (now : Z) (identity : list Z) (t : Tables) : option Tables :=
  Some (mk_tables (map (fun r => if bool_decide (device_identity r = identity)
                                 then mk_row (device_identity r) (short_id r) (created_at r) now else r)
                       (device_id_mapping t)) (next_id t) (window_started t) (allocations t)).

(** [UPDATE short_id_allocation_budget ..] with [CHECK(allocations>=0)]. *)
Definition update_budget (started count : Z) (t : Tables) : option Tables :=
  if count <? 0 then None else Some (mk_tables (device_id_mapping t) (next_id t) started count).

(** [INSERT INTO device_id_mapping] with its [UNIQUE] and [CHECK] constraints. *)
Definition insert_mapping (identity : list Z) (next now : Z) (t : Tables) : option Tables :=
  if existsb (fun r => bool_decide (device_identity r = identity) || (short_id r =? next)) (device_id_mapping t) ||
     negb ((100000000 <=? next) && (next <=? 999999999))
  then None
  else Some (mk_tables (device_id_mapping t ++ [mk_row identity next now now]) (next_id t) (window_started t)
               (allocations t)).

(** [UPDATE short_id_sequence ..] with its [CHECK]. *)
Definition update_sequence (next : Z) (t : Tables) : option Tables :=
  if (100000000 <=? next) && (next <=? 1000000000)
  then Some (mk_tables (device_id_mapping t) next (window_started t) (allocations t))
  else None.

Section Register.
Context `{Hex}.

(** [clock] is the time since the epoch in seconds, negative before it. *)
Definition register_with_limits (identity : NodeId) (limits : AllocationLimits) (admit_source : st S error unit)
    (clock : Z) : method Z :=
  let! _ := begin_immediate in
  let! now := liftr (if clock <? 0 then Err db_error else Ok clock) in
  let identity := Identity.id_to_hex identity in
  let! found := query (select_short identity) in
  match found with
  | Some id =>
      let! _ := execute (update_last_seen now identity) in
      let! _ := commit in
      liftr (new id)
  | None =>
      let! next := query next_id in
      let! _ := liftr (fail_if (LAST_SHORT_ID <? next) (Discovery "exhausted")) in
      let! used := (if next <? FIRST_SHORT_ID then panic else ret (next - FIRST_SHORT_ID)) in
      let! _ := liftr (fail_if (max_mappings limits <=? used) (Discovery "mapping limit")) in
      let! (started, count) := query (fun t => (window_started t, allocations t)) in
      let (started, count) := if ALLOCATION_WINDOW_SECONDS <=? now - started then (now, 0) else (started, count) in
      let! _ := liftr (fail_if (per_window limits <=? count) (Discovery "allocation limit")) in
      let! _ := call_outer admit_source in
      let! _ := execute (update_budget started (count + 1)) in
      let! id := liftr (new next) in
      let! _ := execute (insert_mapping identity next now) in
      let! _ := execute (update_sequence (next + 1)) in
      let! _ := commit in
      ret id
  end.

Definition lookup `{HexDecode} (id : Z) : method (option NodeId) :=
  let! found := sql (fun c => Ok (select_identity id (committed c), c)) in
  liftr (match found with
         | None => Ok None
         | Some text => omap Some (Identity.from_hex text)
         end).

End Register.
End Database.

(** ** The text form *)

Lemma parse_snoc s c : parse_digits (s ++ [c]) = parse_digits s * 10 + (c - 48).
Proof. unfold parse_digits. by rewrite fold_left_app. Qed.

Lemma parse_decimal_digits f n : 0 <= n < 2 ^ Z.of_nat f -> parse_digits (decimal_digits f n) = n.
Proof.
  revert n. induction f as [|f IH]; intros n Hn; [cbn in *; lia|]. cbn [decimal_digits].
  destruct (Z.ltb_spec n 10); [cbn; lia|]. rewrite Nat2Z.inj_succ, Z.pow_succ_r in Hn by lia.
  pose proof (Z.div_mod n 10). pose proof (Z.mod_pos_bound n 10).
  rewrite parse_snoc, IH; [lia|]. split; [apply Z.div_pos; lia|]. apply Z.div_lt_upper_bound; lia.
Qed.

Lemma decimal_bound n : 0 <= n -> n < 2 ^ Z.of_nat (Datatypes.S (Z.to_nat (Z.log2 n))).
Proof.
  intros Hn. rewrite Nat2Z.inj_succ, Z2Nat.id by apply Z.log2_nonneg.
  destruct (Z.eq_dec n 0) as [->|]; [done|]. apply Z.log2_spec. lia.
Qed.

Lemma digits_of_decimal f n : Forall (fun c => 48 <= c <= 57) (decimal_digits f n) \/ n < 0.
Proof.
  revert n. induction f as [|f IH]; intros n; [left; constructor|]. cbn [decimal_digits].
  destruct (Z.ltb_spec n 0); [by right|]. left. destruct (Z.ltb_spec n 10); [repeat constructor; lia|].
  pose proof (Z.mod_pos_bound n 10). pose proof (Z.div_pos n 10). apply Forall_app. split.
  - destruct (IH (n / 10)) as [Hf|]; [done|lia].
  - repeat constructor; lia.
Qed.

Lemma decimal_digits_length f k n : n < 2 ^ Z.of_nat f -> 10 ^ Z.of_nat k <= n < 10 ^ Z.of_nat (Datatypes.S k) ->
  length (decimal_digits f n) = Datatypes.S k.
Proof.
  revert k n. induction f as [|f IH]; intros k n Hf Hk.
  { pose proof (Z.pow_pos_nonneg 10 (Z.of_nat k)). cbn in Hf. lia. }
  cbn [decimal_digits]. rewrite Nat2Z.inj_succ, Z.pow_succ_r in Hk by lia.
  rewrite Nat2Z.inj_succ, Z.pow_succ_r in Hf by lia. destruct k as [|k].
  { cbn in Hk. by destruct (Z.ltb_spec n 10); [|lia]. }
  rewrite Nat2Z.inj_succ, Z.pow_succ_r in Hk by lia. pose proof (Z.pow_pos_nonneg 10 (Z.of_nat k)).
  destruct (Z.ltb_spec n 10); [lia|]. rewrite length_app, (IH k); [cbn; lia| |].
  - apply Z.div_lt_upper_bound; lia.
  - rewrite Nat2Z.inj_succ, Z.pow_succ_r by lia. split; [apply Z.div_le_lower_bound; lia|].
    apply Z.div_lt_upper_bound; lia.
Qed.

Lemma nine_digits id : FIRST_SHORT_ID <= id <= LAST_SHORT_ID ->
  length (decimal id) = 9%nat /\ Forall (fun c => 48 <= c <= 57) (decimal id) /\ parse_digits (decimal id) = id.
Proof.
  unfold FIRST_SHORT_ID, LAST_SHORT_ID. intros Hid. unfold decimal. split; [|split].
  - apply (decimal_digits_length _ 8); [apply decimal_bound; lia|cbn; lia].
  - destruct (digits_of_decimal (Datatypes.S (Z.to_nat (Z.log2 id))) id); [done|lia].
  - apply parse_decimal_digits. split; [lia|]. apply decimal_bound. lia.
Qed.

Lemma filter_digits l : Forall (fun c => 48 <= c <= 57) l ->
  List.filter (fun c => negb (is_separator c)) l = l.
Proof.
  induction 1 as [|c l Hc _ IH]; [done|]. cbn. unfold is_separator.
  destruct (Z.eqb_spec c 32), (Z.eqb_spec c 45); try lia. cbn. f_equal. exact IH.
Qed.

(** The number as it is shown, with its spaces, and the plain number read back as
    itself, for every number that can be assigned. *)
Theorem short_id_text_roundtrip (id : Z) :
  FIRST_SHORT_ID <= id <= LAST_SHORT_ID ->
  normalize (display id) = Ok id /\ normalize (decimal id) = Ok id.
Proof.
  intros Hid. destruct (nine_digits id Hid) as (Hl & Hd & Hp).
  assert (forall l, Forall (fun c => c = 32 \/ 48 <= c <= 57) l -> (length l <= 32)%nat ->
    List.filter (fun c => negb (is_separator c)) l = decimal id -> normalize l = Ok id) as Hn.
  { intros l Hc Hlen Hf. unfold normalize, str_len.
    rewrite (utf8_ascii l) by (eapply Forall_impl; [exact Hc|]; cbn; lia).
    destruct (Z.ltb_spec 32 (Z.of_nat (length l))); [lia|].
    assert (existsb (fun b => negb (is_ascii_digit b) && negb (is_separator b)) l = false) as ->.
    { clear -Hc. induction Hc as [|c l Hc _ IH]; [done|]. cbn. rewrite IH, orb_false_r.
      unfold is_ascii_digit, is_separator. destruct Hc as [->|Hc]; [done|].
      destruct (Z.leb_spec 48 c), (Z.leb_spec c 57); try lia; done. }
    cbn [orb fail_if obind]. cbv zeta. rewrite Hf, Hp, utf8_ascii, Hl by (eapply Forall_impl; [exact Hd|]; cbn; lia).
    cbn. unfold U32_MAX, new, FIRST_SHORT_ID, LAST_SHORT_ID in *.
    destruct (Z.ltb_spec 4294967295 id); [lia|]. cbn.
    destruct (Z.leb_spec 100000000 id), (Z.leb_spec id 999999999); try lia. done. }
  split.
  - set (s := decimal id) in *. unfold display. fold s.
    assert (forall k P, Forall P s -> Forall P (take k s) /\ Forall P (drop k s)) as Htd.
    { intros k P HP. rewrite <- (take_drop k s) in HP. by apply Forall_app in HP. }
    apply Hn.
    + assert (Forall (fun c => c = 32 \/ 48 <= c <= 57) s) as Hs by (eapply Forall_impl; [exact Hd|]; cbn; lia).
      repeat apply Forall_app_2; try (repeat constructor; by left); [apply Htd, Hs| |apply Htd, Hs].
      rewrite <- (take_drop 3 s) in Hs. apply Forall_app in Hs as [_ Hs].
      rewrite <- (take_drop 3 (drop 3 s)) in Hs. by apply Forall_app in Hs as [Hs _].
    + rewrite !length_app, !length_take, !length_drop, Hl. cbn. lia.
    + rewrite !List.filter_app. cbn [List.filter is_separator negb orb Z.eqb Pos.eqb app].
      assert (forall k, List.filter (fun c => negb (is_separator c)) (drop k s) = drop k s /\
        List.filter (fun c => negb (is_separator c)) (take 3 (drop k s)) = take 3 (drop k s)) as Hfd.
      { intros k. destruct (Htd k _ Hd) as [_ Hk]. split; [by apply filter_digits|]. apply filter_digits.
        rewrite <- (take_drop 3 (drop k s)) in Hk. by apply Forall_app in Hk as [Hk _]. }
      pose proof (proj2 (Hfd 0%nat)) as H0. rewrite drop_0 in H0.
      rewrite H0, (proj2 (Hfd 3%nat)), (proj1 (Hfd 6%nat)). cbn [app].
      assert (drop 6 s = drop 3 (drop 3 s)) as -> by (by rewrite drop_drop). by rewrite !take_drop.
  - apply Hn; [eapply Forall_impl; [exact Hd|]; cbn; lia|lia|by apply filter_digits].
Qed.

(** ** The assignments *)

Definition assigned (t : Tables) : list (list Z * Z) :=
  map (fun r => (device_identity r, short_id r)) (device_id_mapping t).

(** Numbers are given out in order, without gaps, each to one device. *)
Record tables_ok (t : Tables) : Prop := {
  to_unique : NoDup (assigned t).*1;
  to_shorts : (assigned t).*2 = seqZ FIRST_SHORT_ID (next_id t - FIRST_SHORT_ID);
  to_next : FIRST_SHORT_ID <= next_id t <= LAST_SHORT_ID + 1;
  to_budget : 0 <= allocations t;
}.

Lemma initial_ok : tables_ok initial.
Proof. split; cbn; [constructor|done|unfold FIRST_SHORT_ID, LAST_SHORT_ID; lia|lia]. Qed.

Lemma find_map {A B} (f : A -> B) (p : B -> bool) l :
  List.find p (map f l) = f <$> List.find (fun x => p (f x)) l.
Proof. induction l as [|x l IH]; [done|]. cbn. by destruct (p (f x)). Qed.

Lemma select_short_assigned identity t :
  select_short identity t = snd <$> List.find (fun a => bool_decide (a.1 = identity)) (assigned t).
Proof. unfold select_short, assigned. rewrite find_map. cbn. by destruct (List.find _ _). Qed.

Lemma find_key {K V} `{EqDecision K} (l : list (K * V)) k v : NoDup l.*1 ->
  snd <$> List.find (fun a => bool_decide (a.1 = k)) l = Some v <-> (k, v) ∈ l.
Proof.
  induction l as [|[k' v'] l IH]; cbn.
  { intros _. split; [done|]. intros Hin. by apply elem_of_nil in Hin. }
  intros [Hk Hn]%NoDup_cons. rewrite elem_of_cons. case_bool_decide as E; cbn.
  - subst. split; [intros [= ->]; by left|]. intros [[= <-]|Hin]; [done|]. exfalso. apply Hk.
    apply list_elem_of_fmap. by exists (k, v).
  - rewrite IH by done. split; [by right|]. intros [[= <- <-]|?]; done.
Qed.

Lemma find_none {K V} `{EqDecision K} (l : list (K * V)) k :
  snd <$> List.find (fun a => bool_decide (a.1 = k)) l = None <-> k ∉ l.*1.
Proof.
  induction l as [|[k' v'] l IH]; cbn.
  { split; [intros _ Hin; by apply elem_of_nil in Hin|done]. }
  rewrite not_elem_of_cons. case_bool_decide as E; cbn; [split; [done|intros [? _]; congruence]|].
  rewrite IH. naive_solver.
Qed.

Lemma tables_ok_same t t' : tables_ok t -> assigned t' = assigned t -> next_id t' = next_id t -> 0 <= allocations t' ->
  tables_ok t'.
Proof. intros [H1 H2 H3 H4] Ea En Hal. split; rewrite ?Ea, ?En; done. Qed.

Lemma assigned_seen now identity t t' : update_last_seen now identity t = Some t' ->
  assigned t' = assigned t /\ next_id t' = next_id t /\ window_started t' = window_started t /\
  allocations t' = allocations t.
Proof.
  intros [= <-]. cbn. split; [|done]. unfold assigned. cbn. rewrite map_map. apply map_ext. intros r.
  by case_bool_decide.
Qed.

Definition swap_pair {A B} (p : A * B) : B * A := (p.2, p.1).

Section Proofs.
Context {S : Type} `{Hex}.

Lemma wp_sql {A} (f : Connection S -> result (A * Connection S)) (Q : A -> Connection S -> Prop)
    (R : error -> Connection S -> Prop) c :
  (forall e fl, R e (mk_connection (committed c) (work c) fl (outer c))) ->
  (forall fl, match f (mk_connection (committed c) (work c) fl (outer c)) with
              | Ok (a, c') => Q a c'
              | Err _ => True
              | Panic => False
              end) ->
  wp (sql f) Q R c.
Proof.
  intros HR HQ. unfold wp, sql. destruct (hd false (failures c)); [apply HR|].
  specialize (HQ (tail (failures c))). destruct (f _) as [[a c']|e|]; [done|apply HR|done].
Qed.

Definition unchanged (c c' : Connection S) : Prop := committed c' = committed c.

(** What a successful registration did to the tables. *)
Definition registered (identity : list Z) (limits : AllocationLimits) (clock id : Z) (t t' : Tables) : Prop :=
  tables_ok t' /\ FIRST_SHORT_ID <= id <= LAST_SHORT_ID /\ (identity, id) ∈ assigned t' /\
  ((identity, id) ∈ assigned t /\ assigned t' = assigned t /\ next_id t' = next_id t /\
     window_started t' = window_started t /\ allocations t' = allocations t \/
   identity ∉ (assigned t).*1 /\ id = next_id t /\ assigned t' = assigned t ++ [(identity, id)] /\
     Z.of_nat (length (assigned t')) <= max_mappings limits /\ allocations t' <= per_window limits /\
     (window_started t' = window_started t /\ allocations t' = allocations t + 1 \/
      window_started t' = clock /\ ALLOCATION_WINDOW_SECONDS <= clock - window_started t /\ allocations t' = 1)).

Lemma new_ok id : FIRST_SHORT_ID <= id <= LAST_SHORT_ID -> new id = Ok id.
Proof.
  intros Hid. unfold new. destruct (Z.leb_spec FIRST_SHORT_ID id), (Z.leb_spec id LAST_SHORT_ID); try lia. done.
Qed.

Lemma assigned_range t a id : tables_ok t -> (a, id) ∈ assigned t -> FIRST_SHORT_ID <= id < next_id t.
Proof.
  intros Ht Hin. assert (id ∈ (assigned t).*2) as Hid by (apply list_elem_of_fmap; by exists (a, id)).
  rewrite (to_shorts t Ht) in Hid. apply elem_of_seqZ in Hid. lia.
Qed.

Lemma wp_register identity limits (admit_source : st S error unit) clock c :
  tables_ok (committed c) -> (forall s, (admit_source s).1 <> Panic) ->
  wp (register_with_limits identity limits admit_source clock)
    (fun id c' => registered (Identity.id_to_hex identity) limits clock id (committed c) (committed c'))
    (fun _ c' => committed c' = committed c) c.
Proof.
  intros Hok Hadmit. destruct c as [t wk fl o]. cbn [committed] in *. unfold register_with_limits.
  apply wp_bind. unfold begin_immediate. apply wp_sql; [done|]. intros fl1. apply wp_bind, wp_liftr.
  destruct (clock <? 0); [done|]. cbv zeta. set (name := Identity.id_to_hex identity).
  apply wp_bind. unfold query at 1. apply wp_sql; [done|]. intros fl2. cbn [work committed outer].
  destruct (select_short name t) as [id|] eqn:Ef.
  - rewrite select_short_assigned in Ef. apply find_key in Ef; [|apply Hok].
    pose proof (assigned_range t name id Hok Ef) as Hr. pose proof (to_next t Hok).
    apply wp_bind. unfold execute. apply wp_sql; [done|]. intros fl3. cbn [work committed outer].
    destruct (update_last_seen clock name t) as [t'|] eqn:Eu; [|done].
    destruct (assigned_seen _ _ _ _ Eu) as (Ea & En & Ew & Eal).
    apply wp_bind. unfold commit. apply wp_sql; [done|]. intros fl4. cbn [work committed outer].
    apply wp_liftr. rewrite new_ok by lia. cbn [committed]. split; [|split; [lia|]].
    { apply (tables_ok_same t); try done. rewrite Eal. apply Hok. }
    rewrite Ea. split; [done|]. by left.
  - rewrite select_short_assigned in Ef. apply find_none in Ef. pose proof (to_next t Hok) as Hnext.
    apply wp_bind. unfold query at 1. apply wp_sql; [done|]. intros fl3. cbn [work committed outer].
    apply wp_bind, wp_liftr. destruct (Z.ltb_spec LAST_SHORT_ID (next_id t)) as [|Hlast]; cbn [fail_if]; [done|].
    apply wp_bind. destruct (Z.ltb_spec (next_id t) FIRST_SHORT_ID); [lia|]. apply wp_ret.
    apply wp_bind, wp_liftr.
    destruct (Z.leb_spec (max_mappings limits) (next_id t - FIRST_SHORT_ID)); cbn [fail_if]; [done|].
    apply wp_bind. unfold query at 1. apply wp_sql; [done|]. intros fl4. cbn [work committed outer].
    set (window := if ALLOCATION_WINDOW_SECONDS <=? clock - window_started t then (clock, 0)
                   else (window_started t, allocations t)).
    assert (window.1 = window_started t /\ window.2 = allocations t \/
      window.1 = clock /\ ALLOCATION_WINDOW_SECONDS <= clock - window_started t /\ window.2 = 0) as Hw.
    { unfold window. destruct (Z.leb_spec ALLOCATION_WINDOW_SECONDS (clock - window_started t)); cbn; auto. }
    clearbody window. destruct window as [started count]. cbn [fst snd] in Hw.
    pose proof (to_budget t Hok) as Hb. apply wp_bind, wp_liftr.
    destruct (Z.leb_spec (per_window limits) count); cbn [fail_if]; [done|].
    apply wp_bind. unfold wp at 1, call_outer. cbn [outer]. specialize (Hadmit o).
    destruct (admit_source o) as [[[]|e|] o']; cbn [fst committed] in *; [|done|done].
    apply wp_bind. unfold execute at 1. apply wp_sql; [done|]. intros fl5. cbn [work committed outer].
    unfold update_budget. destruct (Z.ltb_spec (count + 1) 0); [lia|].
    apply wp_bind, wp_liftr. rewrite new_ok by lia.
    apply wp_bind. unfold execute at 1. apply wp_sql; [done|]. intros fl6. cbn [work committed outer].
    unfold insert_mapping. cbn [device_id_mapping next_id window_started allocations].
    destruct (existsb _ _ || _); [done|].
    apply wp_bind. unfold execute at 1. apply wp_sql; [done|]. intros fl7. cbn [work committed outer].
    unfold update_sequence. cbn [device_id_mapping next_id window_started allocations].
    destruct (_ && _); [|done].
    apply wp_bind. unfold commit. apply wp_sql; [done|]. intros fl8. cbn [work committed outer]. apply wp_ret.
    cbn [committed]. set (t' := mk_tables _ _ _ _).
    assert (assigned t' = assigned t ++ [(name, next_id t)]) as Ea by (unfold assigned; cbn; by rewrite map_app).
    assert (length (assigned t) = Z.to_nat (next_id t - FIRST_SHORT_ID)) as Hl.
    { rewrite <- (length_fmap snd (assigned t)), (to_shorts t Hok). apply length_seqZ. }
    split; [|split; [lia|]].
    + split; rewrite ?Ea; cbn [t' next_id allocations]; [| |unfold FIRST_SHORT_ID, LAST_SHORT_ID in *; lia|lia].
      * rewrite fmap_app. apply NoDup_app. split; [apply Hok|]. split; [|apply NoDup_singleton].
        intros x Hx Hy. cbn in Hy. apply list_elem_of_singleton in Hy as ->. done.
      * rewrite fmap_app, (to_shorts t Hok). cbn.
        replace (next_id t + 1 - FIRST_SHORT_ID) with ((next_id t - FIRST_SHORT_ID) + 1) by lia.
        rewrite seqZ_app by lia. f_equal. replace (FIRST_SHORT_ID + (next_id t - FIRST_SHORT_ID)) with (next_id t) by lia.
        done.
    + rewrite Ea. split; [set_solver|]. right. split; [done|]. split; [done|]. split; [done|].
      rewrite length_app, Hl. cbn [length t' allocations window_started]. split; [lia|]. split; [lia|].
      destruct Hw as [[-> ->]|(-> & ? & ->)]; auto.
Qed.

End Proofs.

Lemma select_identity_assigned t name id : tables_ok t -> (name, id) ∈ assigned t -> select_identity id t = Some name.
Proof.
  intros Ht Hin. unfold select_identity.
  assert (NoDup (map swap_pair (assigned t)).*1) as Hn.
  { replace (map swap_pair (assigned t)).*1 with (assigned t).*2.
    - rewrite (to_shorts t Ht). apply NoDup_seqZ.
    - clear. induction (assigned t) as [|[] l IH]; [done|]. cbn. f_equal. exact IH. }
  assert (device_identity <$> List.find (fun r => short_id r =? id) (device_id_mapping t) =
    snd <$> List.find (fun a => bool_decide (a.1 = id)) (map swap_pair (assigned t))) as ->.
  { unfold assigned. rewrite map_map. cbn. rewrite find_map. cbn.
    clear. induction (device_id_mapping t) as [|r l IH]; [done|]. cbn.
    replace (bool_decide (short_id r = id)) with (short_id r =? id) by
      (case_bool_decide; [by apply Z.eqb_eq|by apply Z.eqb_neq]). by destruct (_ =? _). }
  apply find_key; [done|]. apply list_elem_of_fmap. by exists (name, id).
Qed.

(** Numbers are stable: registering a device, whatever fails, either changes no
    table or answers a nine-digit number from which the device can be looked up
    again.  A device keeps its number for ever; a new one gets the next number,
    never used before, within the limit on devices and with at most [per_window]
    new numbers per window of sixty seconds, which a restart does not reset. *)
Theorem short_ids_stable `{HexLaws} {S : Type} (identity : NodeId) (limits : AllocationLimits)
    (admit_source : st S error unit) (clock : Z) (c c' : Connection S) (r : result Z) :
  tables_ok (committed c) -> (forall s, (admit_source s).1 <> Panic) ->
  are_bytes identity -> length identity = Identity.NODE_ID_LEN ->
  register_with_limits identity limits admit_source clock c = (r, c') ->
  match r with
  | Ok id => registered (Identity.id_to_hex identity) limits clock id (committed c) (committed c') /\
      (forall fl, hd false fl = false ->
         (lookup id (mk_connection (committed c') (work c') fl (outer c'))).1 = Ok (Some identity))
  | Err _ => committed c' = committed c
  | Panic => False
  end.
Proof.
  intros Hok Hadmit Hb Hl E. pose proof (wp_register identity limits admit_source clock c Hok Hadmit) as Hw.
  unfold wp in Hw. rewrite E in Hw. destruct r as [id|e|]; [|done|done]. split; [done|]. intros fl Hfl.
  destruct Hw as (Ht' & _ & Hin & _). unfold lookup, sbind, sql. cbn [failures]. rewrite Hfl. cbn [committed].
  rewrite (select_identity_assigned _ _ _ Ht' Hin). cbn. unfold Identity.id_to_hex, Identity.from_hex.
  by rewrite hex_decode_encode, bool_decide_true.
Qed.

(** ** Witnesses *)

Import Hexadecimal.

Lemma short_id_text_roundtrip_witness :
  display 123456789 = lit "123 456 789" /\ normalize (lit "123 456 789") = Ok 123456789.
Proof. split; [vm_compute; reflexivity|]. apply (short_id_text_roundtrip 123456789). vm_compute. split; discriminate. Defined.

Definition example_connection : Connection unit := mk_connection initial initial [] tt.
Definition example_run : result Z * Connection unit :=
  register_with_limits (repeat 7 16) (mk_limits 10 2) (ret tt) 1000 example_connection.

Lemma short_ids_stable_witness : (lookup 100000000 example_run.2).1 = Ok (Some (repeat 7 16)).
Proof.
  destruct (short_ids_stable (repeat 7 16) (mk_limits 10 2) (ret tt) 1000 example_connection example_run.2
    (Ok 100000000)) as [_ Hl].
  - exact initial_ok.
  - intros s. discriminate.
  - repeat constructor; unfold in_range, U8_MAX; lia.
  - reflexivity.
  - vm_compute. reflexivity.
  - exact (Hl [] eq_refl).
Defined.

End ShortId.
