(* ===== verification/Settings.v ===== *)
(** * The node's settings (src/node/core/settings.rs)

    The settings and the checks they must pass before they are used, with the parts
    that other files check: trusted devices (trusted_devices.rs), fixed addresses
    (connectivity.rs), the TLS of the signaling server (discovery/signal_tls.rs), the
    host names of the servers (config.rs, relay/client.rs) and the limits
    (bandwidth.rs, receive_policy.rs). [ConfigRecord] is what node.json holds. *)
From Stdlib Require Import ZArith Lia.
From stdpp Require Import prelude gmap strings.
From S2P Require Import Prelude Manifest Message Addr AddrText Identity UnixPath RemoteAuth NodeWire ShortId RelativePath Rules SpaceBudget NodeServices.

#[local] Open Scope Z_scope.

Module Settings.
Import Addr AddrText Rules.

(** ** The data *)

Inductive TrustSource : Type := LegacyImport | PasswordVerified | Administrator.
#[global] Instance TrustSource_eq_dec : EqDecision TrustSource.
Proof. solve_decision. Defined.

Record TrustedDevice : Type := mk_device {
  v_node : list Z;
  display_name : list Z;
  last_short_id : option (list Z);
  trusted_at : Z;
  updated_at : Z;
}.

Record SignalTlsClient : Type := mk_tls { ca_file : option (list Z); server_name_override : option (list Z) }.
#[global] Instance SignalTlsClient_eq_dec : EqDecision SignalTlsClient.
Proof. solve_decision. Defined.

Record FileLimits : Type := mk_limits { upload_kib : Z; download_kib : Z }.

(** The map of addresses, in the order of its keys. *)
Record DirectSettings : Type := mk_direct {
  direct_enabled : bool;
  lan_discovery : bool;
  listen_port : Z;
  direct_peers : list (list Z * list SocketAddr);
}.

#[global] Instance RemoteVerifier_eq_dec : EqDecision RemoteAuth.RemoteVerifier.
Proof. solve_decision. Defined.

Record NodeSettings : Type := mk_settings {
  direct : DirectSettings;
  signal_server : list Z;
  signal_tls : option SignalTlsClient;
  relay_server : option (list Z);
  receive_root : list Z;
  remote_auth : option RemoteAuth.RemoteVerifier;
  trusted_devices : list TrustedDevice;
  trust_sources : gmap (list Z) TrustSource;
  resources : NodeServices.ResourcePolicy;
  services : list AllowedForwardTarget;
  forwards : list TunnelRule;
  service_ids : gmap (list Z) (list Z);
  send_concurrency : Z;
  auto_resume : bool;
  receive_safety_mib : Z;
  file_limits : FileLimits;
  enable_files : bool;
  enable_speed : bool;
  enable_tcp : bool;
}.

Record ConfigRecord : Type := mk_config {
  schema_version : Z;
  revision : Z;
  last_request : option (list Z * list Z);
  settings : NodeSettings;
}.

Definition default_direct : DirectSettings := mk_direct true true 0 [].

Definition initial (root : list Z) : NodeSettings :=
  mk_settings default_direct [] None None root None [] ∅ [] [] [] ∅ 1 true 64 (mk_limits 0 0) true true true.

(** ** Text *)

(** [rsplit_once]. *)
Fixpoint rsplit_once (c : Z) (text : list Z) : option (list Z * list Z) :=
  match text with
  | [] => None
  | x :: rest =>
      match rsplit_once c rest with
      | Some (a, b) => Some (x :: a, b)
      | None => if x =? c then Some ([], rest) else None
      end
  end.

(** [str::parse::<u16>]. *)
Definition parse_u16 (text : list Z) : option Z :=
  let digits := match text with 43 :: rest => rest | _ => text end in
  if bool_decide (digits = []) || negb (forallb is_ascii_digit digits) then None
  else let n := ShortId.parse_digits digits in if n <=? U16_MAX then Some n else None.

(** [str::parse::<IpAddr>] succeeds. *)
Definition is_ip (text : list Z) : bool :=
  match read_ipv4 text with
  | Some (_, []) => true
  | _ => match read_ipv6 text with Some (_, []) => true | _ => false end
  end.

Definition contains (text : list Z) (c : Z) : bool := existsb (Z.eqb c) text.
Definition strip_final_dot (host : list Z) : list Z :=
  match last host with Some c => if c =? 46 then removelast host else host | None => host end.
Definition strip_brackets (host : list Z) : list Z :=
  rev (trim_start (Z.eqb 93) (rev (trim_start (Z.eqb 91) host))).

(** A label of a host name. *)
Definition label_ok (label : list Z) : bool :=
  negb (bool_decide (label = [])) && (str_len label <=? 63) &&
  match head label with Some c => RemoteAuth.is_ascii_alphanumeric c | None => false end &&
  match last label with Some c => RemoteAuth.is_ascii_alphanumeric c | None => false end &&
  forallb (fun c => RemoteAuth.is_ascii_alphanumeric c || (c =? 45)) label.
Definition numeric (host : list Z) : bool := forallb (fun c => is_ascii_digit c || (c =? 46)) host.
Definition labels (host : list Z) : list (list Z) := split (Z.eqb 46) host.

Definition validate_signal_host (host : list Z) : result unit :=
  let? _ := fail_if (bool_decide (host = []) || negb (bool_decide (trim host = host)) || existsb is_whitespace host ||
                     existsb (fun c => (c <? 32) || (c =? 127)) host ||
                     existsb (contains host) (lit "/\@?#")) (Protocol "signal host") in
  if is_ip host then Ok tt
  else
    let name := strip_final_dot host in
    let? _ := fail_if (bool_decide (name = []) || (253 <? str_len name)) (Protocol "signal host length") in
    let? _ := fail_if (numeric name) (Protocol "signal host is not an IPv4 address") in
    fail_if (negb (forallb label_ok (labels name))) (Protocol "signal host name").

(** relay/client.rs. *)
Definition validate_server_spec (spec : list Z) : result unit :=
  let? _ := fail_if ((300 <? str_len spec) || negb (bool_decide (trim spec = spec)) || existsb is_whitespace spec)
              (Discovery "relay is HOST:PORT") in
  match parse_addr spec with
  | Some address => fail_if (negb (usable_address address)) (Discovery "relay address")
  | None =>
      let? (host, port) := ok_or (rsplit_once 58 spec) (Discovery "relay is HOST:PORT") in
      let? _ := fail_if (match parse_u16 port with Some p => p =? 0 | None => true end || bool_decide (host = []) ||
                         (253 <? str_len host) || contains host 58) (Discovery "relay host or port") in
      let? _ := fail_if (negb (forallb label_ok (labels (strip_final_dot host)))) (Discovery "relay host name") in
      fail_if (numeric host) (Discovery "relay IPv4 address")
  end.

(** ** TLS of the signaling server *)

(** What the disk and rustls answer while settings are checked. *)
Record Tls : Type := mk_answers {
  pem_metadata : list Z -> option (bool * Z);
  pem_content : list Z -> option (list Z);
  pem_certificates : list Z -> option (list (list Z));
  root_added : list Z -> bool;
  name_accepted : list Z -> bool;
}.

Section Checks.
Context `{Hex} `{HexDecode}.

Definition MAX_PEM_BYTES : Z := 4 * 1024 * 1024.

Definition read_pem (t : Tls) (path : list Z) : result (list Z) :=
  let? (is_file, len) := ok_or (pem_metadata t path) (Discovery "pem file") in
  let? _ := fail_if (negb is_file || (MAX_PEM_BYTES <? len)) (Discovery "pem size") in
  let? bytes := ok_or (pem_content t path) (Discovery "pem read") in
  let bytes := take (Z.to_nat (MAX_PEM_BYTES + 1)) bytes in
  let? _ := fail_if (MAX_PEM_BYTES <? Z.of_nat (length bytes)) (Discovery "pem size") in
  Ok bytes.

Definition certificates (t : Tls) (path : list Z) : result (list (list Z)) :=
  let? bytes := read_pem t path in
  let? certificates := ok_or (pem_certificates t bytes) (Discovery "pem format") in
  let? _ := fail_if (bool_decide (certificates = [])) (Discovery "pem without certificates") in
  Ok certificates.

Definition server_name (t : Tls) (server : list Z) (override_name : option (list Z)) : result (list Z) :=
  let? name :=
    match override_name with
    | Some name => Ok name
    | None =>
        let? (host, port) := ok_or (rsplit_once 58 server) (Discovery "signal is HOST:PORT") in
        let? _ := fail_if (bool_decide (parse_u16 port = None) || bool_decide (host = [])) (Discovery "signal host or port") in
        Ok (match host with
            | 91 :: rest => match last rest with Some c => if c =? 93 then removelast rest else host | None => host end
            | _ => host
            end)
    end in
  let? _ := fail_if (bool_decide (name = []) || (253 <? str_len name) || existsb is_whitespace name) (Discovery "tls host") in
  if name_accepted t name then Ok name else Err (Discovery "tls host").

(** [prepare]; only that it succeeds matters here. *)
Definition prepare_tls (t : Tls) (c : SignalTlsClient) (server : list Z) : result unit :=
  let? _ := server_name t server (server_name_override c) in
  match ca_file c with
  | None => Ok tt
  | Some path =>
      let? l := certificates t path in
      fail_if (negb (forallb (root_added t) l)) (Discovery "tls root")
  end.

(** ** Parts of the settings *)

Definition validate_addresses (addresses : list SocketAddr) : result unit :=
  let? _ := fail_if (bool_decide (addresses = []) || (8 <? Z.of_nat (length addresses))) (Protocol "1 to 8 addresses") in
  fail_if (negb (forallb usable_address addresses)) (Protocol "unusable address").

Definition check_direct (_ : unit) (entry : list Z * list SocketAddr) : result unit :=
  let? peer := Identity.from_hex entry.1 in
  let? _ := fail_if (negb (bool_decide (Identity.id_to_hex peer = entry.1))) (Protocol "not a canonical node id") in
  validate_addresses entry.2.

Definition validate_direct (d : DirectSettings) : result unit :=
  let? _ := fail_if (128 <? Z.of_nat (length (direct_peers d))) (Protocol "too many devices") in
  fold_outcome check_direct tt (direct_peers d).

Definition check_device (seen : gset NodeId) (d : TrustedDevice) : result (gset NodeId) :=
  let? id := map_err (fun _ => Protocol "a full node id") (Identity.from_hex (v_node d)) in
  let? _ := fail_if (negb (bool_decide (v_node d = Identity.id_to_hex id)) || bool_decide (id ∈ seen)) (Protocol "repeated device") in
  let? _ := fail_if (bool_decide (trim (display_name d) = []) || (128 <? str_len (display_name d)) ||
                     existsb is_control (display_name d) || (updated_at d <? trusted_at d)) (Protocol "shown data") in
  let? _ := match last_short_id d with
            | Some short => let? _ := map_err (fun _ => Protocol "short id") (ShortId.normalize short) in Ok tt
            | None => Ok tt
            end in
  Ok ({[id]} ∪ seen).

Definition validate_devices (l : list TrustedDevice) : result unit :=
  let? _ := fail_if (128 <? Z.of_nat (length l)) (Protocol "at most 128 devices") in
  let? _ := fold_outcome check_device ∅ l in
  Ok tt.

Definition trusts (l : list TrustedDevice) (peer : NodeId) : bool :=
  existsb (fun d => bool_decide (v_node d = Identity.id_to_hex peer)) l.

Definition validate_send_concurrency (value : Z) : result unit :=
  if (1 <=? value) && (value <=? 3) then Ok tt else Err (Protocol "1, 2 or 3 files").

Definition validate_limits (l : FileLimits) : result unit :=
  fail_if ((1048576 <? upload_kib l) || (1048576 <? download_kib l)) (Protocol "0 to 1048576 KiB/s").

Definition check_signal (server : list Z) : result unit :=
  if bool_decide (server = []) then Ok tt
  else
    let? (host, port) := ok_or (rsplit_once 58 server) (Protocol "HOST:PORT") in
    let? _ := fail_if (bool_decide (host = []) || match parse_u16 port with Some p => p =? 0 | None => true end)
                (Protocol "signal address or port") in
    validate_signal_host (strip_brackets host).

(** A forwarding rule of the node. *)
Definition check_listener (ids : gmap (list Z) (list Z)) (listeners : gset SocketAddr) (rule : TunnelRule) : result (gset SocketAddr) :=
  let? _ := fail_if (negb (is_loopback (ip (listen rule)))) (Protocol "listen on loopback only") in
  let? _ := fail_if (t_enabled rule && bool_decide (listen rule ∈ listeners)) (Protocol "port used twice") in
  let listeners := if t_enabled rule then {[listen rule]} ∪ listeners else listeners in
  let? id := ok_or (ids !! t_id rule) (Protocol "forward without a service id") in
  let? _ := NodeWire.validate_service_id id in
  Ok listeners.

Definition check_service_id (_ : unit) (s : AllowedForwardTarget) : result unit := NodeWire.validate_service_id (a_id s).

(** ** The whole *)

Definition validate (t : Tls) (s : NodeSettings) : result unit :=
  let? _ := validate_direct (direct s) in
  let? _ := fail_if (negb (UnixPath.is_absolute (receive_root s)) || (4096 <? Z.of_nat (length (receive_root s)))) (Protocol "receive root") in
  let? _ := fail_if ((512 <? str_len (signal_server s)) || existsb is_control (signal_server s)) (Protocol "signal address") in
  let? _ := match signal_tls s with
            | Some tls => if bool_decide (signal_server s = []) then Ok tt else prepare_tls t tls (signal_server s)
            | None => Ok tt
            end in
  let? _ := match relay_server s with Some relay => validate_server_spec relay | None => Ok tt end in
  let? _ := match remote_auth s with Some verifier => RemoteAuth.validate verifier | None => Ok tt end in
  let? _ := validate_send_concurrency (send_concurrency s) in
  let? _ := map_err (fun _ => Protocol "safety margin") (SpaceBudget.validate_safety_mib (receive_safety_mib s)) in
  let? _ := validate_limits (file_limits s) in
  let? _ := check_signal (signal_server s) in
  let? _ := NodeServices.validate (resources s) in
  let? _ := validate_devices (trusted_devices s) in
  let? _ := fail_if ((128 <? Z.of_nat (length (services s))) || (256 <? Z.of_nat (length (forwards s)))) (Protocol "too many entries") in
  let? _ := fail_if (negb (forallb (fun d => bool_decide (is_Some (trust_sources s !! v_node d))) (trusted_devices s)))
              (Protocol "device without a source") in
  let? _ := fail_if (negb (Z.of_nat (size (trust_sources s)) =? Z.of_nat (length (trusted_devices s)))) (Protocol "source without a device") in
  let? _ := validate_service (mk_service RULES_SCHEMA_VERSION (services s)) in
  let? _ := validate_client (mk_client RULES_SCHEMA_VERSION (forwards s)) in
  let? _ := fold_outcome check_service_id tt (services s) in
  let? _ := fold_outcome (check_listener (service_ids s)) ∅ (forwards s) in
  fail_if (existsb (fun kv => negb (existsb (fun r => bool_decide (t_id r = kv.1)) (forwards s))) (map_to_list (service_ids s)))
    (Protocol "service id of no rule").
End Checks.
(** ** Checking does not panic *)

Section Proofs.
Context `{Hex} `{HexDecode}.

Lemma from_hex_calm text : Identity.from_hex text <> Panic.
Proof. unfold Identity.from_hex. calm. Qed.
Hint Resolve from_hex_calm : calm.

Lemma normalize_calm text : ShortId.normalize text <> Panic.
Proof. unfold ShortId.normalize, ShortId.new. calm. Qed.
Hint Resolve normalize_calm : calm.

Lemma check_forward_calm seen e : check_forward seen e <> Panic.
Proof.
  destruct seen as [ids addrs]. unfold check_forward, validate_rule_id, validate_rule_name, validate_target, check_peer, insert_new. calm.
  by destruct (from_hex_calm x).
Qed.
Lemma check_rule_calm seen r : check_rule seen r <> Panic.
Proof.
  destruct seen as [ids addrs]. unfold check_rule, validate_rule_id, validate_rule_name, validate_target, insert_new. calm.
  by destruct (from_hex_calm (peer_node_id r)).
Qed.
Hint Resolve check_forward_calm check_rule_calm : calm.

Lemma tls_calm t c server : prepare_tls t c server <> Panic.
Proof. unfold prepare_tls, server_name, certificates, read_pem. calm. Qed.
Lemma server_spec_calm spec : validate_server_spec spec <> Panic.
Proof. unfold validate_server_spec. calm. Qed.
Lemma signal_calm server : check_signal server <> Panic.
Proof. unfold check_signal, validate_signal_host. calm. Qed.
Hint Resolve tls_calm server_spec_calm signal_calm : calm.

Lemma validate_calm t s : validate t s <> Panic.
Proof.
  unfold validate, validate_direct, check_direct, validate_addresses, RemoteAuth.validate, validate_send_concurrency, SpaceBudget.validate_safety_mib,
    validate_limits, NodeServices.validate, NodeServices.check_entry, validate_devices, check_device, check_service_id, check_listener, NodeWire.validate_service_id.
  calm.
Qed.

(** ** What accepted settings are *)

(** Every trusted device has a source and every source a device; every rule a service
    and every service id a rule; rules are told apart by their ids, listen on loopback
    and not two at one address; services are told apart by their ids. *)
Record consistent (s : NodeSettings) : Prop := mk_consistent {
  cs_root : UnixPath.is_absolute (receive_root s) = true;
  cs_devices : NoDup (map v_node (trusted_devices s));
  cs_canonical : forall d, d ∈ trusted_devices s -> exists peer, Identity.from_hex (v_node d) = Ok peer /\ v_node d = Identity.id_to_hex peer;
  cs_sources : dom (trust_sources s) = list_to_set (map v_node (trusted_devices s));
  cs_rules : client_ok (mk_client RULES_SCHEMA_VERSION (forwards s));
  cs_ids : dom (service_ids s) = list_to_set (map t_id (forwards s));
  cs_services : service_ok (mk_service RULES_SCHEMA_VERSION (services s));
  cs_limits : Z.of_nat (length (services s)) <= 128 /\ Z.of_nat (length (forwards s)) <= 256 /\ Z.of_nat (length (trusted_devices s)) <= 128;
}.

Lemma check_device_Ok seen d seen' : check_device seen d = Ok seen' ->
  exists peer, Identity.from_hex (v_node d) = Ok peer /\ v_node d = Identity.id_to_hex peer /\ peer ∉ seen /\ seen' = {[peer]} ∪ seen.
Proof.
  unfold check_device. intros (peer & Ep & E)%obind_Ok. destruct (Identity.from_hex (v_node d)) as [p|e|] eqn:Eh; try done.
  injection Ep as ->. apply obind_Ok in E as (u & [Ec%negb_false_iff%bool_decide_eq_true Es%bool_decide_eq_false]%fail_if_Ok%orb_false_iff & E).
  apply obind_Ok in E as (_ & _ & E). apply obind_Ok in E as (_ & _ & [= <-]). by exists peer.
Qed.

Lemma fold_devices seen l seen' : fold_outcome check_device seen l = Ok seen' ->
  NoDup (map v_node l) /\ Forall (fun d => exists peer, Identity.from_hex (v_node d) = Ok peer /\ v_node d = Identity.id_to_hex peer /\ peer ∉ seen) l.
Proof.
  revert seen. induction l as [|d l IH]; intros seen; cbn; [intros _; split; constructor|].
  intros (s1 & (peer & Eh & Ec & Hs & ->)%check_device_Ok & Hl)%obind_Ok. destruct (IH _ Hl) as [Hn Hf]. split; [constructor; [|done]|constructor].
  - intros (d' & Ed & Hd)%list_elem_of_fmap. rewrite Forall_forall in Hf. destruct (Hf d' Hd) as (p & Ep & _ & Hp).
    rewrite <- Ed, Eh in Ep. injection Ep as ->. set_solver.
  - by exists peer.
  - eapply Forall_impl; [exact Hf|]. intros x (p & ? & ? & ?). exists p. set_solver.
Qed.

(** Distinct keys that all are in a map of as many entries are the keys of the map. *)
Lemma exact_keys {A} (m : gmap (list Z) A) (l : list (list Z)) : NoDup l -> Forall (fun k => is_Some (m !! k)) l -> size m = length l ->
  dom m = list_to_set l.
Proof.
  intros Hn Hl Hs. symmetry. apply set_subseteq_size_eq.
  - intros k Hk%elem_of_list_to_set. apply elem_of_dom. rewrite Forall_forall in Hl. by apply Hl.
  - rewrite size_list_to_set, size_dom by done. lia.
Qed.

Lemma fold_listeners ids acc l acc' : fold_outcome (check_listener ids) acc l = Ok acc' -> Forall (fun r => is_Some (ids !! t_id r)) l.
Proof.
  revert acc. induction l as [|r l IH]; intros acc; cbn; [constructor|]. intros (a1 & E & Hl)%obind_Ok. constructor; [|by apply (IH a1)].
  unfold check_listener in E. apply obind_Ok in E as (_ & _ & E). apply obind_Ok in E as (_ & _ & E). apply obind_Ok in E as (id & Ei%ok_or_Ok & _). by eexists.
Qed.

Lemma validate_consistent t s : validate t s = Ok tt -> consistent s.
Proof.
  unfold validate. intros Hv. do 17 (apply obind_Ok in Hv as ([] & ?Hx & Hv)). apply obind_Ok in Hv as ([] & ?Hx & Hv).
  apply obind_Ok in Hv as (acc & Hlisten & Hv).
  apply fail_if_Ok, orb_false_iff in Hx0 as [Hroot%negb_false_iff _]. apply fail_if_Ok, orb_false_iff in Hx11 as [Hservices%Z.ltb_ge Hforwards%Z.ltb_ge].
  apply fail_if_Ok, negb_false_iff in Hx12. apply fail_if_Ok, negb_false_iff, Z.eqb_eq in Hx13. apply fail_if_Ok in Hv.
  unfold validate_devices in Hx10. apply obind_Ok in Hx10 as (_ & Hdevices%fail_if_Ok%Z.ltb_ge & Hx10). apply obind_Ok in Hx10 as (seen & Hfold & _).
  destruct (fold_devices _ _ _ Hfold) as [Hn Hf]. apply rules_validate_exact in Hx15; [|exact default_service]. apply rules_validate_exact in Hx14; [|exact default_client].
  split; try done.
  - intros d Hd. rewrite Forall_forall in Hf. destruct (Hf d Hd) as (p & ? & ? & _). by exists p.
  - apply exact_keys; [done| |rewrite length_map; lia]. apply Forall_forall. intros k (d & -> & Hd)%list_elem_of_fmap.
    rewrite forallb_forall in Hx12. apply (bool_decide_eq_true _), Hx12. by apply list_elem_of_In.
  - apply fold_listeners in Hlisten. apply set_eq. intros k. rewrite elem_of_dom, elem_of_list_to_set. split.
    + intros [v Hk]. rewrite RelativePath.existsb_false in Hv. rewrite Forall_forall in Hv.
      specialize (Hv (k, v) (proj2 (elem_of_map_to_list _ _ _) Hk)). apply negb_false_iff, existsb_exists in Hv as (r & Hr & E%bool_decide_eq_true).
      apply list_elem_of_fmap. exists r. split; [by rewrite E|by apply list_elem_of_In].
    + intros (r & -> & Hr)%list_elem_of_fmap. rewrite Forall_forall in Hlisten. by apply Hlisten.
Qed.
End Proofs.
End Settings.
