(* ===== verification/Signal.v ===== *)
(** * The signaling server (src/discovery/signal.rs)

    Messages and candidates, the registry of devices that are online, and the
    server as a state machine: every connection is a handler task that takes the
    registry's lock for a while, an event is what one task does between two awaits.
    A connection's outbox and close signal are found under its connection id, which
    is what the registry's records hold in the source. *)
From Stdlib Require Import ZArith Lia.
From stdpp Require Import countable prelude gmap strings.
From S2P Require Import Prelude Postcard Manifest Message State Identity Addr Relay ShortId.

#[local] Open Scope Z_scope.

Module Signal.
Import Addr.

(** Times are in milliseconds. *)
Definition SIGNAL_PROTOCOL_VERSION : Z := 2.
Definition SHORT_ID_PROTOCOL_VERSION : Z := 3.
Definition SHORT_LOOKUP_WINDOW : Z := 10 * 1000.
Definition MAX_SHORT_LOOKUP_IPS : Z := 1024.
Definition NODE_LOOKUP_WINDOW : Z := 10 * 1000.
Definition MAX_NODE_LOOKUP_IPS : Z := 1024.
Definition CHALLENGE_LEN : nat := 32.
Definition REGISTER_DOMAIN : list Z := lit "p2p_file/signal-register/v2".

Definition MAX_CANDIDATES : Z := 32.
Definition MAX_REGISTERED_PEERS : Z := 4096.
Definition MAX_WAITER_ENTRIES : Z := 16 * 1024.
Definition MAX_PENDING_LOOKUPS : Z := 64.
Definition OUTBOX_CAPACITY : Z := 64.

(** The limits of [SignalServerConfig]; transport settings and the timeouts of the
    reads, which only produce [Lost] events, are left out. *)
Record SignalServerConfig : Type := mk_config {
  max_short_id_mappings : Z;
  short_id_allocations_per_minute : Z;
  short_id_allocations_per_ip_per_minute : Z;
  short_lookups_per_connection : Z;
  short_lookups_per_ip : Z;
  max_short_lookup_misses : Z;
  node_lookups_per_connection : Z;
  node_lookups_per_ip : Z;
  max_candidates : Z;
  max_registered_peers : Z;
  max_waiter_entries : Z;
  max_pending_lookups : Z;
  outbox_capacity : Z;
  challenge_ttl : Z;
}.

Definition default_config : SignalServerConfig :=
  mk_config 1000000 120 10 5 20 3 64 256 MAX_CANDIDATES MAX_REGISTERED_PEERS MAX_WAITER_ENTRIES
    MAX_PENDING_LOOKUPS OUTBOX_CAPACITY (10 * 1000).

(** ** Candidates *)

Inductive CandidateKind : Type := ServerReflexive | RelayKind | Predicted | Host.

#[global] Instance CandidateKind_eq_dec : EqDecision CandidateKind.
Proof. solve_decision. Defined.

Definition priority (k : CandidateKind) : Z :=
  match k with
  | ServerReflexive => 0
  | Host => 1
  | Predicted => 2
  | RelayKind => 3
  end.

Record Candidate : Type := mk_candidate { kind : CandidateKind; addr : SocketAddr }.

#[global] Instance Candidate_eq_dec : EqDecision Candidate.
Proof. solve_decision. Defined.

(** The key of [sort_candidates]: priority, then IPv6 before IPv4. *)
Definition sort_key (c : Candidate) : Z * Z := (priority (kind c), if is_ipv4 (addr c) then 1 else 0).
Definition key_le (a b : Candidate) : bool :=
  ((sort_key a).1 <? (sort_key b).1) || (((sort_key a).1 =? (sort_key b).1) && ((sort_key a).2 <=? (sort_key b).2)).

(** [sort_by_key] is stable. *)
Fixpoint insert_candidate (c : Candidate) (l : list Candidate) : list Candidate :=
  match l with
  | [] => [c]
  | d :: l' => if key_le c d then c :: d :: l' else d :: insert_candidate c l'
  end.
Definition sort_candidates (l : list Candidate) : list Candidate := foldr insert_candidate [] l.

Fixpoint dedup_from (seen l : list Candidate) : list Candidate :=
  match l with
  | [] => []
  | c :: l' => if bool_decide (c ∈ seen) then dedup_from seen l' else c :: dedup_from (c :: seen) l'
  end.
Definition dedup_candidates (l : list Candidate) : list Candidate := dedup_from [] l.

(** ** Messages *)

Inductive SignalMessage : Type :=
  | Register (node_id : NodeId) (public_key : list Z) (candidates : list Candidate) (signature : list Z)
  | Registered
  | Lookup (node_id : NodeId)
  | PeerCandidates (node_id : NodeId) (candidates : list Candidate) (token : list Z)
  | PeerPending (node_id : NodeId)
  | Ping
  | Pong
  | SError (tag : string)
  | RegisterHello (protocol_version : Z) (node_id : NodeId) (public_key : list Z)
  | RegisterChallenge (protocol_version : Z) (challenge : list Z)
  | RegisteredShort (short_id : Z)
  | LookupShort (short_id : Z)
  | ShortResolved (short_id : Z) (node_id : option NodeId).

#[global] Instance SignalMessage_eq_dec : EqDecision SignalMessage.
Proof. solve_decision. Defined.

Definition register_payload `{Blake3} `{Postcard (list Candidate)} (challenge : list Z) (node_id : NodeId)
    (public_key : list Z) (candidates : list Candidate) : result (list Z) :=
  let? encoded := to_allocvec candidates in
  Ok (REGISTER_DOMAIN ++ challenge ++ Identity.as_bytes node_id ++ public_key ++ blake3_hash encoded).

(** ** The registry *)

Record ActiveRegistration : Type := mk_active {
  a_version : Z;
  a_node : NodeId;
  a_connection : Z;
}.

Record PendingRegistration : Type := mk_pending {
  p_version : Z;
  p_node : NodeId;
  p_key : list Z;
  p_challenge : list Z;
  issued_at : Z;
}.

(** The outbox and the close signal are those of connection [connection_id]. *)
Record PeerRecord : Type := mk_peer {
  connection_id : Z;
  r_candidates : list Candidate;
}.

Record WaiterKey : Type := mk_key { requester : NodeId; w_connection : Z }.

#[global] Instance WaiterKey_eq_dec : EqDecision WaiterKey.
Proof. solve_decision. Defined.
#[global] Instance WaiterKey_countable : Countable WaiterKey.
Proof. apply (inj_countable' (fun k => (requester k, w_connection k)) (fun p => mk_key p.1 p.2)). by intros []. Defined.
#[global] Instance IpAddr_countable : Countable IpAddr.
Proof.
  apply (inj_countable' (fun a => match a with IpV4 b => inl b | IpV6 b => inr b end)
    (fun s => match s with inl b => IpV4 b | inr b => IpV6 b end)). by intros [].
Defined.

Record LookupWindow : Type := mk_window { started : Z; requests : Z; misses : Z }.

Definition new_window (now : Z) : LookupWindow := mk_window now 0 0.
(** [Instant::elapsed] saturates at zero. *)
Definition elapsed (since now : Z) : Z := Z.max 0 (now - since).
Definition expired_after (window now : Z) (w : LookupWindow) : bool := window <=? elapsed (started w) now.
Definition take_in_window (limit max_misses window now : Z) (w : LookupWindow) : bool * LookupWindow :=
  let w := if expired_after window now w then new_window now else w in
  if (limit <=? requests w) || (max_misses <=? misses w) then (false, w)
  else (true, mk_window (started w) (requests w + 1) (misses w)).
Definition take_short (limit max_misses now : Z) (w : LookupWindow) : bool * LookupWindow :=
  take_in_window limit max_misses SHORT_LOOKUP_WINDOW now w.

(** The windows of all addresses: forget the expired ones, refuse a new address
    when there are too many, and count in the address's own. *)
Definition take_address (max_ips limit window now : Z) (ip : IpAddr) (m : gmap IpAddr LookupWindow) :
    bool * gmap IpAddr LookupWindow :=
  let m := filter (fun kv => expired_after window now kv.2 = false) m in
  if bool_decide (m !! ip = None) && (max_ips <=? Z.of_nat (size m)) then (false, m)
  else
    let (ok, w) := take_in_window limit U32_MAX window now (default (new_window now) (m !! ip)) in
    (ok, <[ip := w]> m).

Record Registry : Type := mk_registry {
  relay : option Relay.State;
  short_lookup_ips : gmap IpAddr LookupWindow;
  node_lookup_ips : gmap IpAddr LookupWindow;
  peers : gmap NodeId PeerRecord;
  waiters : gmap NodeId (gset WaiterKey);
  pending_by_connection : gmap WaiterKey (gset NodeId);
}.

Definition set_peers (m : gmap NodeId PeerRecord) (r : Registry) : Registry :=
  mk_registry (relay r) (short_lookup_ips r) (node_lookup_ips r) m (waiters r) (pending_by_connection r).
Definition set_waiting (w : gmap NodeId (gset WaiterKey)) (p : gmap WaiterKey (gset NodeId)) (r : Registry) : Registry :=
  mk_registry (relay r) (short_lookup_ips r) (node_lookup_ips r) (peers r) w p.

Definition take_node_lookup (ip : IpAddr) (now : Z) (cfg : SignalServerConfig) (r : Registry) : bool * Registry :=
  let (ok, m) := take_address MAX_NODE_LOOKUP_IPS (node_lookups_per_ip cfg) NODE_LOOKUP_WINDOW now ip (node_lookup_ips r) in
  (ok, mk_registry (relay r) (short_lookup_ips r) m (peers r) (waiters r) (pending_by_connection r)).

Definition take_short_lookup (ip : IpAddr) (now : Z) (cfg : SignalServerConfig) (r : Registry) : bool * Registry :=
  let (ok, m) := take_address MAX_SHORT_LOOKUP_IPS (short_lookups_per_ip cfg) SHORT_LOOKUP_WINDOW now ip (short_lookup_ips r) in
  (ok, mk_registry (relay r) m (node_lookup_ips r) (peers r) (waiters r) (pending_by_connection r)).

Definition waiter_entries (r : Registry) : Z :=
  map_fold (fun _ s acc => Z.of_nat (size s) + acc) 0 (waiters r).

Definition pending_of (key : WaiterKey) (r : Registry) : gset NodeId := default ∅ (pending_by_connection r !! key).
Definition pending_count (key : WaiterKey) (r : Registry) : Z := Z.of_nat (size (pending_of key r)).
Definition waiters_of (target : NodeId) (r : Registry) : gset WaiterKey := default ∅ (waiters r !! target).

Definition add_waiter (key : WaiterKey) (target : NodeId) (r : Registry) : bool * Registry :=
  let inserted := negb (bool_decide (key ∈ waiters_of target r)) in
  let w := <[target := {[key]} ∪ waiters_of target r]> (waiters r) in
  let p := if inserted then <[key := {[target]} ∪ pending_of key r]> (pending_by_connection r)
           else pending_by_connection r in
  (inserted, set_waiting w p r).

(** Is [c] the connection of this node's record? *)
Definition owns (node : NodeId) (c : Z) (r : Registry) : bool :=
  match peers r !! node with
  | Some record => connection_id record =? c
  | None => false
  end.

(** Removing one target from the targets a connection waits for. *)
Definition forget_target (target : NodeId) (key : WaiterKey) (p : gmap WaiterKey (gset NodeId)) :
    gmap WaiterKey (gset NodeId) :=
  match p !! key with
  | Some targets =>
      let targets := targets ∖ {[target]} in
      if bool_decide (targets = ∅) then delete key p else <[key := targets]> p
  | None => p
  end.

(** A [HashSet] is iterated in the order of [elements]. *)
Definition take_waiters_for (target : NodeId) (r : Registry) : list NodeId * Registry :=
  match waiters r !! target with
  | None => ([], r)
  | Some keys =>
      let p := foldr (forget_target target) (pending_by_connection r) (elements keys) in
      let live := List.filter (fun k => owns (requester k) (w_connection k) r && negb (bool_decide (requester k = target)))
                    (elements keys) in
      (map requester live, set_waiting (delete target (waiters r)) p r)
  end.

Definition unregister (node : NodeId) (c : Z) (r : Registry) : Registry :=
  let r := if owns node c r then set_peers (delete node (peers r)) r else r in
  let key := mk_key node c in
  let w := match pending_by_connection r !! key with
           | Some targets =>
               set_fold (fun target w => match w !! target with
                                         | Some keys => <[target := keys ∖ {[key]}]> w
                                         | None => w
                                         end) (waiters r) targets
           | None => waiters r
           end in
  set_waiting (filter (fun kv => kv.2 <> ∅) w) (delete key (pending_by_connection r)) r.

(** ** Connections and the server *)

(** Where the handler of a connection stands: reading a frame; waiting for its
    number ([short_ids.register]); about to answer [Registered], with the replaced
    connection to close and the waiters to pair; pairing the remaining waiters;
    waiting for the database to resolve a number; gone. *)
Inductive Stage : Type :=
  | Reading
  | Allocating (pending : PendingRegistration) (candidates : list Candidate)
  | Announcing (short_id : Z) (replaced : option Z) (live : list NodeId)
  | Pairing (live : list NodeId)
  | TakingShort (short_id : Z)
  | Resolving (short_id : Z)
  | Ended.

Record Conn : Type := mk_conn {
  remote_ip : IpAddr;
  queue : list SignalMessage;
  written : list SignalMessage;
  writer : bool;
  close : bool;
  pending : option PendingRegistration;
  active : option ActiveRegistration;
  short_window : LookupWindow;
  node_window : LookupWindow;
  stage : Stage;
}.

(** [ShortIdResources]: the store, whose closure state is [allocation_ips], and
    how many of its jobs run (the taken permits of [pending]). *)
Record Server : Type := mk_server {
  config : SignalServerConfig;
  registry : Registry;
  conns : gmap Z Conn;
  next_connection_id : Z;
  short_ids : ShortId.Connection (gmap IpAddr LookupWindow);
  jobs : Z;
}.

Definition set_registry (r : Registry) (s : Server) : Server :=
  mk_server (config s) r (conns s) (next_connection_id s) (short_ids s) (jobs s).
Definition set_short_ids (d : ShortId.Connection (gmap IpAddr LookupWindow)) (n : Z) (s : Server) : Server :=
  mk_server (config s) (registry s) (conns s) (next_connection_id s) d n.

Definition with_queue (q : list SignalMessage) (k : Conn) : Conn :=
  mk_conn (remote_ip k) q (written k) (writer k) (close k) (pending k) (active k) (short_window k) (node_window k) (stage k).
Definition with_stage (st : Stage) (k : Conn) : Conn :=
  mk_conn (remote_ip k) (queue k) (written k) (writer k) (close k) (pending k) (active k) (short_window k) (node_window k) st.
Definition with_pending (p : option PendingRegistration) (k : Conn) : Conn :=
  mk_conn (remote_ip k) (queue k) (written k) (writer k) (close k) p (active k) (short_window k) (node_window k) (stage k).
Definition with_active (a : option ActiveRegistration) (k : Conn) : Conn :=
  mk_conn (remote_ip k) (queue k) (written k) (writer k) (close k) (pending k) a (short_window k) (node_window k) (stage k).
Definition with_close (k : Conn) : Conn :=
  mk_conn (remote_ip k) (queue k) (written k) (writer k) true (pending k) (active k) (short_window k) (node_window k) (stage k).
Definition with_windows (short node : LookupWindow) (k : Conn) : Conn :=
  mk_conn (remote_ip k) (queue k) (written k) (writer k) (close k) (pending k) (active k) short node (stage k).

(** Change a connection that exists. *)
Definition alter_conn (f : Conn -> Conn) (c : Z) (s : Server) : Server :=
  mk_server (config s) (registry s) (alter f c (conns s)) (next_connection_id s) (short_ids s) (jobs s).

(** Is there room in the outbox (and a writer to empty it)? *)
Definition room (cfg : SignalServerConfig) (k : Conn) : bool :=
  writer k && (Z.of_nat (length (queue k)) <? outbox_capacity cfg).
Definition has_room (c : Z) (s : Server) : bool :=
  match conns s !! c with Some k => room (config s) k | None => false end.
Definition enqueue (m : SignalMessage) (c : Z) (s : Server) : Server :=
  alter_conn (fun k => with_queue (queue k ++ [m]) k) c s.

(** [reject] gives up when the queue is full; [send_or_close] says so. *)
Definition reject (tag : string) (c : Z) (s : Server) : Server :=
  if has_room c s then enqueue (SError tag) c s else s.
Definition send_or_close (m : SignalMessage) (c : Z) (s : Server) : bool * Server :=
  if has_room c s then (true, enqueue m c s) else (false, s).

(** [close.send(true)]. *)
Definition signal_close (c : Z) (s : Server) : Server := alter_conn with_close c s.

(** After the loop: [unregister], and the outbox is dropped. *)
Definition disconnect (c : Z) (s : Server) : Server :=
  match conns s !! c with
  | None => s
  | Some k =>
      let s := match active k with
               | Some a => set_registry (unregister (a_node a) (a_connection a) (registry s)) s
               | None => s
               end in
      alter_conn (with_stage Ended) c s
  end.

Definition fail (tag : string) (c : Z) (s : Server) : Server := disconnect c (reject tag c s).

(** [send_or_close] or break, then [continue]. *)
Definition answer (m : SignalMessage) (c : Z) (s : Server) : Server :=
  let (sent, s) := send_or_close m c s in
  if sent then s else disconnect c s.

Definition issue_ticket (token : list Z) (a b : NodeId) (now later : Z) (r : Registry) : Registry :=
  match relay r with
  | None => r
  | Some admission =>
      mk_registry (Some (Relay.issue token a b now later admission).2) (short_lookup_ips r) (node_lookup_ips r)
        (peers r) (waiters r) (pending_by_connection r)
  end.

(** [token] is drawn, [now] and [later] are the clock readings of [issue]. *)
Definition try_pair (a b : NodeId) (token : list Z) (now later : Z) (s : Server) : Server :=
  match peers (registry s) !! a, peers (registry s) !! b with
  | Some record_a, Some record_b =>
      if negb (has_room (connection_id record_a) s) then signal_close (connection_id record_a) s
      else if negb (has_room (connection_id record_b) s) then signal_close (connection_id record_b) s
      else
        let s := set_registry (issue_ticket token a b now later (registry s)) s in
        let s := enqueue (PeerCandidates b (r_candidates record_b) token) (connection_id record_a) s in
        enqueue (PeerCandidates a (r_candidates record_a) token) (connection_id record_b) s
  | _, _ => s
  end.

Section Handler.
Context `{Blake3} {ed : Ed25519} `{Hex} `{HexDecode} `{Postcard (list Candidate)} `{Postcard SignalMessage}.

(** The arm [RegisterHello]; [challenge] is drawn. *)
Definition on_hello (version : Z) (node : NodeId) (public_key challenge : list Z) (now c : Z) (k : Conn) (s : Server) : Server :=
  if bool_decide (is_Some (active k)) || bool_decide (is_Some (pending k)) then fail "repeated hello" c s
  else if negb (bool_decide (version ∈ [SIGNAL_PROTOCOL_VERSION; SHORT_ID_PROTOCOL_VERSION])) then fail "version" c s
  else
    match Identity.public_key_from_bytes public_key with
    | Ok key =>
        if negb (bool_decide (Identity.from_public_key key = node)) then fail "node id" c s
        else
          let (sent, s) := send_or_close (RegisterChallenge version challenge) c s in
          if negb sent then disconnect c s
          else alter_conn (with_pending (Some (mk_pending version node public_key challenge now))) c s
    | _ => fail "public key" c s
    end.

(** What the registering client proved: the checks of [Register]. *)
Definition register_checks (cfg : SignalServerConfig) (p : PendingRegistration) (node : NodeId) (public_key : list Z)
    (candidates : list Candidate) (signature : list Z) (now : Z) : result unit :=
  let? _ := fail_if (negb (bool_decide (p_node p = node)) || negb (bool_decide (p_key p = public_key))) (Protocol "identity") in
  let? _ := fail_if (challenge_ttl cfg <? elapsed (issued_at p) now) (Protocol "challenge expired") in
  let? _ := fail_if (max_candidates cfg <? Z.of_nat (length candidates)) (Protocol "too many candidates") in
  let? key := Identity.public_key_from_bytes public_key in
  let? _ := fail_if (negb (bool_decide (Identity.from_public_key key = node))) (Protocol "node id") in
  let? payload := register_payload (p_challenge p) node public_key candidates in
  let? signature := Identity.signature_from_bytes signature in
  Identity.verify_signature key payload signature.

(** The arm [Register], up to the first await on the database: the capacity
    check under the lock, then a permit for the job. *)
Definition on_register (node : NodeId) (public_key : list Z) (candidates : list Candidate) (signature : list Z)
    (now c : Z) (k : Conn) (s : Server) : Server :=
  match pending k with
  | None => fail "no hello" c s
  | Some p =>
      let s := alter_conn (with_pending None) c s in
      if bool_decide (is_Some (active k)) then fail "already registered" c s
      else
        match register_checks (config s) p node public_key candidates signature now with
        | Ok _ =>
            if bool_decide (peers (registry s) !! node = None) &&
               (max_registered_peers (config s) <=? Z.of_nat (size (peers (registry s))))
            then fail "table full" c s
            else if max_pending_lookups (config s) <=? jobs s then fail "database busy" c s
            else alter_conn (with_stage (Allocating p candidates)) c (set_short_ids (short_ids s) (jobs s + 1) s)
        | _ => fail "rejected" c s
        end
  end.

(** The closure [admit_source] given to the store. *)
Definition admit_source (ip : IpAddr) (per_ip now : Z) : st (gmap IpAddr LookupWindow) error unit :=
  fun ips =>
    let (ok, ips) := take_address MAX_SHORT_LOOKUP_IPS per_ip (ShortId.ALLOCATION_WINDOW_SECONDS * 1000) now ip ips in
    (fail_if (negb ok) (Discovery "allocation limited"), ips).

(** The job of [ShortIdResources::register] ends; the record is inserted under the
    lock and the waiters are taken. *)
Definition on_allocated (now clock c : Z) (k : Conn) (s : Server) : Server :=
  match stage k with
  | Allocating p candidates =>
      let (r, d) := ShortId.register_with_limits (p_node p)
                      (ShortId.mk_limits (max_short_id_mappings (config s)) (short_id_allocations_per_minute (config s)))
                      (admit_source (remote_ip k) (short_id_allocations_per_ip_per_minute (config s)) now) clock (short_ids s) in
      let s := set_short_ids d (jobs s - 1) s in
      match r with
      | Ok short_id =>
          if bool_decide (peers (registry s) !! p_node p = None) &&
             (max_registered_peers (config s) <=? Z.of_nat (size (peers (registry s))))
          then fail "table full" c s
          else
            let replaced := connection_id <$> peers (registry s) !! p_node p in
            let r := set_peers (<[p_node p := mk_peer c candidates]> (peers (registry s))) (registry s) in
            let (live, r) := take_waiters_for (p_node p) r in
            let s := set_registry r s in
            alter_conn (fun k => with_stage (Announcing short_id replaced live)
                                   (with_active (Some (mk_active (p_version p) (p_node p) c)) k)) c s
      | _ => fail "allocation failed" c s
      end
  | _ => s
  end.

(** Answer [Registered] and close the replaced connection. *)
Definition on_announce (c : Z) (k : Conn) (s : Server) : Server :=
  match stage k, active k with
  | Announcing short_id replaced live, Some a =>
      let m := if a_version a =? SHORT_ID_PROTOCOL_VERSION then RegisteredShort short_id else Registered in
      let (sent, s) := send_or_close m c s in
      if negb sent then disconnect c s
      else
        let s := match replaced with Some old => signal_close old s | None => s end in
        alter_conn (with_stage (Pairing live)) c s
  | _, _ => s
  end.

(** One round of [for waiter in live_waiters], or its end. *)
Definition on_pair_next (token : list Z) (now later c : Z) (k : Conn) (s : Server) : Server :=
  match stage k, active k with
  | Pairing (waiter :: live), Some a =>
      alter_conn (with_stage (Pairing live)) c (try_pair waiter (a_node a) token now later s)
  | Pairing [], _ => alter_conn (with_stage Reading) c s
  | _, _ => s
  end.

(** The arm [LookupShort]: the owner check under the first lock. *)
Definition on_lookup_short (short_id c : Z) (k : Conn) (s : Server) : Server :=
  match active k with
  | None => fail "unavailable" c s
  | Some a =>
      if negb (owns (a_node a) c (registry s)) || negb (a_version a =? SHORT_ID_PROTOCOL_VERSION)
      then fail "unavailable" c s
      else alter_conn (with_stage (TakingShort short_id)) c s
  end.

Definition resolved (short_id : Z) (node : option NodeId) (c : Z) (k : Conn) (s : Server) : Server :=
  let w := short_window k in
  let w := if bool_decide (node = None) then mk_window (started w) (requests w) (saturating_add U32_MAX (misses w) 1) else w in
  answer (ShortResolved short_id node) c
    (alter_conn (fun k => with_stage Reading (with_windows w (node_window k) k)) c s).

(** The budgets, the second lock, and the permit of the lookup job. *)
Definition on_take_short (now c : Z) (k : Conn) (s : Server) : Server :=
  match stage k with
  | TakingShort short_id =>
      let (ok, w) := take_short (short_lookups_per_connection (config s)) (max_short_lookup_misses (config s)) now
                       (short_window k) in
      let k := with_windows w (node_window k) k in
      let s := alter_conn (with_windows w (node_window k)) c s in
      let (allowed, s) := if ok
                          then let (ok, r) := take_short_lookup (remote_ip k) now (config s) (registry s) in
                               (ok, set_registry r s)
                          else (false, s) in
      if allowed && is_ok (ShortId.new short_id) && (jobs s <? max_pending_lookups (config s))
      then alter_conn (with_stage (Resolving short_id)) c (set_short_ids (short_ids s) (jobs s + 1) s)
      else resolved short_id None c k s
  | _ => s
  end.

Definition on_resolved (c : Z) (k : Conn) (s : Server) : Server :=
  match stage k with
  | Resolving short_id =>
      let (r, d) := ShortId.lookup short_id (short_ids s) in
      let s := set_short_ids d (jobs s - 1) s in
      resolved short_id (match r with Ok node => node | _ => None end) c k s
  | _ => s
  end.

(** The arm [Lookup], under one lock. *)
Definition on_lookup (target : NodeId) (token : list Z) (now later c : Z) (k : Conn) (s : Server) : Server :=
  match active k with
  | None => fail "not registered" c s
  | Some a =>
      let me := a_node a in
      if negb (owns me (a_connection a) (registry s)) then fail "replaced" c s
      else
        let (ok, w) := take_in_window (node_lookups_per_connection (config s)) U32_MAX NODE_LOOKUP_WINDOW now (node_window k) in
        let s := alter_conn (fun k => with_windows (short_window k) w k) c s in
        let (allowed, s) := if ok
                            then let (ok, r) := take_node_lookup (remote_ip k) now (config s) (registry s) in
                                 (ok, set_registry r s)
                            else (false, s) in
        if negb allowed then answer (SError "unavailable") c s
        else if bool_decide (me = target) then answer (SError "self") c s
        else if bool_decide (is_Some (peers (registry s) !! target)) then try_pair me target token now later s
        else
          let key := mk_key me (a_connection a) in
          if bool_decide (key ∈ waiters_of target (registry s)) then answer (PeerPending target) c s
          else if max_pending_lookups (config s) <=? pending_count key (registry s) then
            answer (SError "too many pending lookups") c s
          else if max_waiter_entries (config s) <=? waiter_entries (registry s) then
            answer (SError "waiting queue full") c s
          else
            answer (PeerPending target) c (set_registry (add_waiter key target (registry s)).2 s)
  end.

Definition on_ping (c : Z) (k : Conn) (s : Server) : Server :=
  if bool_decide (active k = None) then fail "not registered" c s else answer Pong c s.

(** What a connection draws and reads from the clock while it handles a frame. *)
Record Drawn : Type := mk_drawn { now : Z; later : Z; challenge : list Z; token : list Z }.

Definition on_message (m : SignalMessage) (d : Drawn) (c : Z) (k : Conn) (s : Server) : Server :=
  match m with
  | RegisterHello version node key => on_hello version node key (challenge d) (now d) c k s
  | Register node key candidates signature => on_register node key candidates signature (now d) c k s
  | LookupShort short_id => on_lookup_short short_id c k s
  | Lookup target => on_lookup target (token d) (now d) (later d) c k s
  | Ping => on_ping c k s
  | _ => fail "wrong direction" c s
  end.

(** ** Events *)

Inductive Event : Type :=
  | Accept (ip : IpAddr) (now : Z)
  | Frame (c : Z) (payload : list Z) (d : Drawn)
  | Allocated (c now clock : Z)
  | Announce (c : Z)
  | PairNext (c : Z) (token : list Z) (now later : Z)
  | TakeShort (c now : Z)
  | Resolve (c : Z)
  | CloseSeen (c : Z)
  | Lost (c : Z)
  | WriteNext (c : Z)
  | WriterGone (c : Z).

Definition new_conn (ip : IpAddr) (now : Z) : Conn :=
  mk_conn ip [] [] true false None None (new_window now) (new_window now) Reading.

(** [next_connection_id] after one more connection. *)
Definition bump (n : Z) : Z := if wrapping_add U64_MAX n 1 =? 0 then 1 else wrapping_add U64_MAX n 1.

Definition accept (ip : IpAddr) (now : Z) (s : Server) : Server :=
  mk_server (config s) (registry s) (<[next_connection_id s := new_conn ip now]> (conns s))
    (bump (next_connection_id s)) (short_ids s) (jobs s).

(** The writer takes a message and writes it. *)
Definition write_next (k : Conn) : Conn :=
  match queue k with
  | m :: q =>
      if writer k then
        mk_conn (remote_ip k) q (written k ++ [m]) (writer k) (close k) (pending k) (active k) (short_window k)
          (node_window k) (stage k)
      else k
  | [] => k
  end.
Definition writer_gone (k : Conn) : Conn :=
  mk_conn (remote_ip k) (queue k) (written k) false (close k) (pending k) (active k) (short_window k) (node_window k) (stage k).

Definition reading (k : Conn) : bool := match stage k with Reading => true | _ => false end.

(** An event of a handler that is not at that point does nothing; the select of
    the loop prefers the close signal to a frame. *)
Definition step (e : Event) (s : Server) : Server :=
  let at_conn c (f : Conn -> Server) := match conns s !! c with Some k => f k | None => s end in
  match e with
  | Accept ip now => accept ip now s
  | Frame c payload d =>
      at_conn c (fun k =>
        if negb (reading k) || close k then s
        else match from_bytes payload with
             | Ok m => on_message m d c k s
             | _ => fail "decode" c s
             end)
  | Allocated c now clock => at_conn c (fun k => on_allocated now clock c k s)
  | Announce c => at_conn c (fun k => on_announce c k s)
  | PairNext c token now later => at_conn c (fun k => on_pair_next token now later c k s)
  | TakeShort c now => at_conn c (fun k => on_take_short now c k s)
  | Resolve c => at_conn c (fun k => on_resolved c k s)
  | CloseSeen c => at_conn c (fun k => if reading k && close k then disconnect c s else s)
  | Lost c => at_conn c (fun k => if reading k then disconnect c s else s)
  | WriteNext c => alter_conn write_next c s
  | WriterGone c => alter_conn writer_gone c s
  end.

Definition initial (cfg : SignalServerConfig) (relay : option Relay.State)
    (short_ids : ShortId.Connection (gmap IpAddr LookupWindow)) : Server :=
  mk_server cfg (mk_registry relay ∅ ∅ ∅ ∅ ∅) ∅ 1 short_ids 0.

Definition run (es : list Event) (s : Server) : Server := fold_left (fun s e => step e s) es s.

End Handler.

End Signal.
