(* ===== verification/SignalProof.v ===== *)
(** * The signaling server: the properties

    The registry stays consistent and bounded, whoever is in it proved its
    identity, and both sides of a pairing are told the same token. *)
From Stdlib Require Import ZArith Lia.
From stdpp Require Import countable prelude gmap strings.
From S2P Require Import Prelude Postcard Manifest Message State Identity Addr Relay Hexadecimal ShortId Signal.

#[local] Open Scope Z_scope.

Module SignalProof.
Import Signal.

(** ** Who waits for whom *)

(** The set under a key. *)
Definition at_ {K V} `{Countable K} `{Countable V} (m : gmap K (gset V)) (k : K) : gset V := default ∅ (m !! k).

Lemma at_insert {K V} `{Countable K} `{Countable V} (m : gmap K (gset V)) k k' x :
  at_ (<[k := x]> m) k' = if decide (k = k') then x else at_ m k'.
Proof. unfold at_. rewrite lookup_insert. by destruct (decide (k = k')). Qed.

Lemma at_delete {K V} `{Countable K} `{Countable V} (m : gmap K (gset V)) k k' :
  at_ (delete k m) k' = if decide (k = k') then ∅ else at_ m k'.
Proof. unfold at_. rewrite lookup_delete. by destruct (decide (k = k')). Qed.

(** The two indexes say the same, and hold no empty set. *)
Record waiting_ok (w : gmap NodeId (gset WaiterKey)) (p : gmap WaiterKey (gset NodeId)) : Prop := {
  wo_mirror : forall key t, key ∈ at_ w t <-> t ∈ at_ p key;
  wo_waiters : forall t, w !! t <> Some ∅;
  wo_pending : forall key, p !! key <> Some ∅;
}.

Lemma waiting_add w p key t : waiting_ok w p ->
  waiting_ok (<[t := {[key]} ∪ at_ w t]> w) (<[key := {[t]} ∪ at_ p key]> p).
Proof.
  intros [M W P]. split.
  - intros key' t'. rewrite !at_insert. specialize (M key' t').
    destruct (decide (t = t')), (decide (key = key')); subst; set_solver.
  - intros t'. rewrite lookup_insert. destruct (decide (t = t')); [|apply W].
    intros E. injection E as E. set_solver.
  - intros key'. rewrite lookup_insert. destruct (decide (key = key')); [|apply P].
    intros E. injection E as E. set_solver.
Qed.

Lemma at_forget t key p key' :
  at_ (forget_target t key p) key' = if decide (key = key') then at_ p key' ∖ {[t]} else at_ p key'.
Proof.
  unfold forget_target. destruct (p !! key) as [targets|] eqn:E.
  - cbv zeta. case_bool_decide as Ee; rewrite ?at_delete, ?at_insert; destruct (decide (key = key')); subst; try done.
    + unfold at_. rewrite E. cbn. by rewrite Ee.
    + unfold at_. by rewrite E.
  - destruct (decide (key = key')); subst; [|done]. unfold at_. rewrite E. cbn. set_solver.
Qed.

Lemma forget_nonempty t key p : (forall k, p !! k <> Some ∅) -> forall k, forget_target t key p !! k <> Some ∅.
Proof.
  intros Hp k. unfold forget_target. destruct (p !! key) as [targets|] eqn:E; [|apply Hp]. cbv zeta.
  case_bool_decide as Ee; rewrite ?lookup_delete, ?lookup_insert; destruct (decide (key = k)); try done; try apply Hp.
  intros Es. injection Es as Es. done.
Qed.

Lemma at_forget_all t keys p key' :
  at_ (foldr (forget_target t) p keys) key' = if decide (key' ∈ keys) then at_ p key' ∖ {[t]} else at_ p key'.
Proof.
  induction keys as [|key keys IH]; cbn [foldr].
  { by destruct (decide (key' ∈ [])) as [Hin|]; [apply elem_of_nil in Hin|]. }
  rewrite at_forget, IH. destruct (decide (key = key')) as [->|Hne].
  - destruct (decide (key' ∈ keys)), (decide (key' ∈ key' :: keys)) as [|Hn]; try set_solver.
  - destruct (decide (key' ∈ keys)) as [Hin|Hin], (decide (key' ∈ key :: keys)) as [Hin'|Hin']; try done; set_solver.
Qed.

Lemma waiting_take w p t keys : waiting_ok w p -> w !! t = Some keys ->
  waiting_ok (delete t w) (foldr (forget_target t) p (elements keys)).
Proof.
  intros [M W P] E. assert (at_ w t = keys) as Ek by (unfold at_; by rewrite E). split.
  - intros key t'. rewrite at_delete, at_forget_all. specialize (M key t').
    destruct (decide (t = t')) as [->|], (decide (key ∈ elements keys)) as [Hin|Hin];
      rewrite elem_of_elements in Hin; rewrite ?Ek in M; set_solver.
  - intros t'. rewrite lookup_delete. by destruct (decide (t = t')).
  - generalize (elements keys). intros l. induction l as [|k l IH]; [apply P|]. by apply forget_nonempty.
Qed.

Definition drop_key (key : WaiterKey) (targets : gset NodeId) (w : gmap NodeId (gset WaiterKey)) :
    gmap NodeId (gset WaiterKey) :=
  set_fold (fun target w => match w !! target with
                            | Some keys => <[target := keys ∖ {[key]}]> w
                            | None => w
                            end) w targets.

Lemma at_drop_key key targets w t :
  at_ (drop_key key targets w) t = if decide (t ∈ targets) then at_ w t ∖ {[key]} else at_ w t.
Proof.
  unfold drop_key.
  set (P := fun (w' : gmap NodeId (gset WaiterKey)) (X : gset NodeId) =>
    forall t, at_ w' t = if decide (t ∈ X) then at_ w t ∖ {[key]} else at_ w t).
  revert t. enough (P (drop_key key targets w) targets) as HP by exact HP. unfold drop_key.
  apply (set_fold_ind_L P); unfold P; clear P.
  - intros t. by destruct (decide (t ∈ ∅)) as [Hin|]; [set_solver|].
  - intros x X w' Hx IH t. destruct (w' !! x) as [keys|] eqn:E.
    + rewrite at_insert. destruct (decide (x = t)) as [->|Hne].
      * specialize (IH t). unfold at_ in IH at 1. rewrite E in IH. cbn in IH.
        destruct (decide (t ∈ X)); [done|]. destruct (decide (t ∈ {[t]} ∪ X)); [by rewrite IH|set_solver].
      * rewrite IH. destruct (decide (t ∈ X)), (decide (t ∈ {[x]} ∪ X)); try done; set_solver.
    + rewrite IH. destruct (decide (t ∈ X)), (decide (t ∈ {[x]} ∪ X)); try done; [set_solver|].
      assert (t = x) as -> by set_solver. specialize (IH x). destruct (decide (x ∈ X)); [done|].
      unfold at_ in IH at 1. rewrite E in IH. cbn in IH. rewrite <- IH. set_solver.
Qed.

Lemma at_no_empty (w : gmap NodeId (gset WaiterKey)) t : at_ (filter (fun kv => kv.2 <> ∅) w) t = at_ w t.
Proof.
  unfold at_. destruct (filter _ w !! t) as [s|] eqn:E.
  - apply map_lookup_filter_Some in E as [-> _]. done.
  - apply map_lookup_filter_None in E as [->|E]; [done|]. destruct (w !! t) as [s|]; [|done]. cbn.
    destruct (decide (s = ∅)) as [->|Hs]; [done|]. by destruct (E s eq_refl).
Qed.

Lemma waiting_drop w p key : waiting_ok w p ->
  waiting_ok (filter (fun kv => kv.2 <> ∅) (drop_key key (at_ p key) w)) (delete key p).
Proof.
  intros [M W P]. split.
  - intros key' t. rewrite at_no_empty, at_drop_key, at_delete. specialize (M key' t) as M'.
    pose proof (M key t) as Mk. destruct (decide (t ∈ at_ p key)), (decide (key = key')); subst; set_solver.
  - intros t E. apply map_lookup_filter_Some in E as [_ E]. done.
  - intros key'. rewrite lookup_delete. by destruct (decide (key = key')).
Qed.

(** ** Counting the waiters *)

Definition entries (w : gmap NodeId (gset WaiterKey)) : Z := map_fold (fun _ s acc => Z.of_nat (size s) + acc) 0 w.

Lemma entries_at w t : entries w = Z.of_nat (size (at_ w t)) + entries (delete t w).
Proof.
  unfold at_. destruct (w !! t) as [s|] eqn:E; cbn.
  - unfold entries. rewrite (map_fold_delete_L _ _ t s w); [done|lia|done].
  - rewrite size_empty, delete_id by done. lia.
Qed.

Lemma entries_mono w1 w2 : (forall t, (size (at_ w2 t) <= size (at_ w1 t))%nat) -> entries w2 <= entries w1.
Proof.
  revert w2. induction w1 as [|t s w1 Hn IH] using map_ind; intros w2 Hle.
  - assert (forall w, (forall t, size (at_ w t) <= 0)%nat -> entries w <= 0) as Hz.
    { clear. intros w. induction w as [|t s w Hn IH] using map_ind; [done|]. intros Hle.
      rewrite (entries_at _ t), delete_insert_id by done. pose proof (Hle t). 
      assert (entries w <= 0); [|lia]. apply IH. intros t'. specialize (Hle t'). rewrite at_insert in Hle.
      destruct (decide (t = t')) as [<-|]; [|done]. unfold at_. rewrite Hn. cbn. by rewrite size_empty. }
    apply Hz. intros t. specialize (Hle t). unfold at_ in Hle at 2. rewrite lookup_empty in Hle. cbn in Hle.
    by rewrite size_empty in Hle.
  - rewrite (entries_at w2 t), (entries_at (<[t := s]> w1) t), delete_insert_id by done.
    pose proof (Hle t). assert (entries (delete t w2) <= entries w1); [|lia]. apply IH. intros t'.
    specialize (Hle t'). rewrite at_insert in Hle. rewrite at_delete. destruct (decide (t = t')) as [<-|]; [|done].
    rewrite size_empty. lia.
Qed.

Lemma entries_add w t key : key ∉ at_ w t -> entries (<[t := {[key]} ∪ at_ w t]> w) = entries w + 1.
Proof.
  intros Hk. rewrite (entries_at _ t), (entries_at w t), at_insert, delete_insert_eq, decide_True by done.
  rewrite size_union by set_solver. rewrite size_singleton. lia.
Qed.

(** ** The registry *)

Record registry_ok (cfg : SignalServerConfig) (r : Registry) : Prop := {
  ro_waiting : waiting_ok (waiters r) (pending_by_connection r);
  ro_offline : forall t, is_Some (waiters r !! t) -> peers r !! t = None;
  ro_peers : Z.of_nat (size (peers r)) <= max_registered_peers cfg;
  ro_pending : forall key, Z.of_nat (size (at_ (pending_by_connection r) key)) <= max_pending_lookups cfg;
  ro_entries : entries (waiters r) <= max_waiter_entries cfg;
  ro_node_ips : Z.of_nat (size (node_lookup_ips r)) <= MAX_NODE_LOOKUP_IPS;
  ro_short_ips : Z.of_nat (size (short_lookup_ips r)) <= MAX_SHORT_LOOKUP_IPS;
}.

Lemma take_address_size max_ips limit window now ip m ok m' :
  Z.of_nat (size m) <= max_ips -> take_address max_ips limit window now ip m = (ok, m') -> Z.of_nat (size m') <= max_ips.
Proof.
  intros Hm. unfold take_address. set (m1 := filter _ m).
  assert (size m1 <= size m)%nat as H1 by (apply map_subseteq_size, map_filter_subseteq).
  destruct (bool_decide (m1 !! ip = None) && (max_ips <=? Z.of_nat (size m1))) eqn:E; [intros [= <- <-]; lia|].
  destruct (take_in_window _ _ _ _ _) as [ok' w]. intros [= <- <-].
  destruct (m1 !! ip) as [x|] eqn:Ei.
  - rewrite map_size_insert_Some by (by eexists). lia.
  - rewrite bool_decide_true in E by done. cbn in E. apply Z.leb_gt in E. rewrite map_size_insert_None by done. lia.
Qed.

(** The registry's answers do not depend on its address windows and tickets. *)
Record same_tables (r r' : Registry) : Prop := {
  st_peers : peers r' = peers r;
  st_waiters : waiters r' = waiters r;
  st_pending : pending_by_connection r' = pending_by_connection r;
}.

Lemma take_node_ok cfg ip now r ok r' : registry_ok cfg r -> take_node_lookup ip now cfg r = (ok, r') ->
  registry_ok cfg r' /\ same_tables r r'.
Proof.
  intros [] E. unfold take_node_lookup in E. destruct (take_address _ _ _ _ _ _) as [ok' m] eqn:Et.
  injection E as <- <-. split; [|done]. split; cbn; try done. by (eapply take_address_size; [|exact Et]).
Qed.

Lemma take_short_ok cfg ip now r ok r' : registry_ok cfg r -> take_short_lookup ip now cfg r = (ok, r') ->
  registry_ok cfg r' /\ same_tables r r'.
Proof.
  intros [] E. unfold take_short_lookup in E. destruct (take_address _ _ _ _ _ _) as [ok' m] eqn:Et.
  injection E as <- <-. split; [|done]. split; cbn; try done. by (eapply take_address_size; [|exact Et]).
Qed.

Lemma issue_ok cfg token a b now later r : registry_ok cfg r ->
  registry_ok cfg (issue_ticket token a b now later r) /\ same_tables r (issue_ticket token a b now later r).
Proof. intros []. unfold issue_ticket. destruct (relay r); split; try done. Qed.

Lemma add_waiter_ok cfg key t r : registry_ok cfg r -> key ∉ waiters_of t r -> peers r !! t = None ->
  pending_count key r < max_pending_lookups cfg -> waiter_entries r < max_waiter_entries cfg ->
  registry_ok cfg (add_waiter key t r).2.
Proof.
  intros [W O P K N I1 I2] Hk Ht Hp He. unfold add_waiter. rewrite bool_decide_false by done. cbn.
  split; cbn; try done.
  - by apply waiting_add.
  - intros t'. rewrite lookup_insert. destruct (decide (t = t')) as [<-|]; [done|apply O].
  - intros key'. unfold at_. rewrite lookup_insert. destruct (decide (key = key')) as [<-|]; [|apply K]. cbn.
    unfold pending_count, pending_of in *. rewrite size_union; [rewrite size_singleton; lia|].
    apply disjoint_singleton_l. intros Hin. by apply Hk, (wo_mirror _ _ W key t).
  - pose proof (entries_add (waiters r) t key Hk) as Ha. unfold waiters_of, at_ in *. rewrite Ha.
    unfold waiter_entries in He. fold (entries (waiters r)) in He. lia.
Qed.

(** [node] comes online with connection [c]: its waiters are taken. *)
Definition joined (node : NodeId) (record : PeerRecord) (r : Registry) : list NodeId * Registry :=
  take_waiters_for node (set_peers (<[node := record]> (peers r)) r).

Lemma size_forget_all t keys p key :
  (size (at_ (foldr (forget_target t) p keys) key) <= size (at_ p key))%nat.
Proof. rewrite at_forget_all. destruct (decide _); [apply subseteq_size; set_solver|done]. Qed.

Lemma joined_ok cfg node record r live r' : registry_ok cfg r ->
  (is_Some (peers r !! node) \/ Z.of_nat (size (peers r)) < max_registered_peers cfg) ->
  joined node record r = (live, r') ->
  registry_ok cfg r' /\ peers r' = <[node := record]> (peers r) /\
  (forall key t, key ∈ at_ (waiters r') t -> key ∈ at_ (waiters r) t).
Proof.
  intros [W O P K N I1 I2] Hsize. unfold joined, take_waiters_for. cbn [waiters set_peers pending_by_connection].
  assert (Z.of_nat (size (<[node:=record]> (peers r))) <= max_registered_peers cfg) as Hs.
  { destruct (peers r !! node) as [x|] eqn:E.
    - rewrite map_size_insert_Some by (by eexists). lia.
    - rewrite map_size_insert_None by done. destruct Hsize as [[]|]; [done|lia]. }
  destruct (waiters r !! node) as [keys|] eqn:E; intros [= <- <-]; (split; [|split]); cbn; try done.
  - split; cbn; try done.
    + by apply waiting_take.
    + intros t [s Es]. apply lookup_delete_Some in Es as [Hne Es]. rewrite lookup_insert_ne by done. by apply O.
    + intros key. pose proof (size_forget_all node (elements keys) (pending_by_connection r) key). specialize (K key). lia.
    + etransitivity; [|exact N]. apply entries_mono. intros t. rewrite at_delete.
      destruct (decide (node = t)); [rewrite size_empty; lia|done].
  - intros key t. rewrite at_delete. destruct (decide (node = t)); [set_solver|done].
  - split; cbn; try done. intros t [s Es]. rewrite lookup_insert_ne; [apply O; by eexists|]. intros <-. congruence.
Qed.

Lemma unregister_eq node c r : let r' := unregister node c r in
  peers r' = (if owns node c r then delete node (peers r) else peers r) /\
  waiters r' = filter (fun kv => kv.2 <> ∅)
    (drop_key (mk_key node c) (at_ (pending_by_connection r) (mk_key node c)) (waiters r)) /\
  pending_by_connection r' = delete (mk_key node c) (pending_by_connection r) /\
  node_lookup_ips r' = node_lookup_ips r /\ short_lookup_ips r' = short_lookup_ips r.
Proof.
  unfold unregister. cbv zeta.
  assert (forall w (o : option (gset NodeId)),
    match o with Some targets => drop_key (mk_key node c) targets w | None => w end =
    drop_key (mk_key node c) (default ∅ o) w) as Hd.
  { intros w [targets|]; [done|]. cbn. unfold drop_key. by rewrite set_fold_empty. }
  destruct (owns node c r); cbn [set_waiting set_peers peers waiters pending_by_connection node_lookup_ips short_lookup_ips];
    (split; [done|]; split; [|done]); f_equal; apply Hd.
Qed.

Lemma unregister_ok cfg node c r : registry_ok cfg r -> registry_ok cfg (unregister node c r).
Proof.
  intros [W O P K N I1 I2]. destruct (unregister_eq node c r) as (Ep & Ew & Eb & E1 & E2).
  assert (forall t, at_ (waiters (unregister node c r)) t ⊆ at_ (waiters r) t) as Hsub.
  { intros t. rewrite Ew, at_no_empty, at_drop_key. destruct (decide _); set_solver. }
  assert (forall n, peers r !! n = None -> peers (unregister node c r) !! n = None) as Hnone.
  { intros n Hn. rewrite Ep. destruct (owns node c r); [|done]. rewrite lookup_delete. by destruct (decide _). }
  split; rewrite ?E1, ?E2; try done.
  - rewrite Ew, Eb. by apply waiting_drop.
  - intros t [s Es]. apply Hnone, O. destruct (waiters r !! t) as [s'|] eqn:E; [by eexists|].
    specialize (Hsub t). unfold at_ in Hsub. rewrite Es, E in Hsub. cbn in Hsub.
    rewrite Ew in Es. apply map_lookup_filter_Some in Es as [_ Es]. cbn in Es. set_solver.
  - rewrite Ep. destruct (owns node c r); [|done]. pose proof (map_subseteq_size _ _ (delete_subseteq (peers r) node)). lia.
  - intros key. rewrite Eb, at_delete. destruct (decide _); [|apply K]. rewrite size_empty. specialize (K key). lia.
  - etransitivity; [|exact N]. apply entries_mono. intros t. by apply subseteq_size.
Qed.

(** ** Traces *)

Section Traces.
Context `{Blake3} {ed : Ed25519} `{Hex} `{HexDecode} `{Postcard (list Candidate)} `{Postcard SignalMessage}.

(** The server challenged connection [c], which claimed this identity. *)
Definition issued (es : list Event) (c : Z) (node : NodeId) (key challenge_ : list Z) : Prop :=
  exists payload d version, Frame c payload d ∈ es /\
    from_bytes payload = Ok (RegisterHello version node key) /\ challenge d = challenge_.

(** On connection [c] came a signature, under the key whose hash is [node], of
    these candidates and of the challenge drawn for this connection. *)
Definition proved (es : list Event) (c : Z) (node : NodeId) (candidates : list Candidate) : Prop :=
  exists key challenge_ payload d signature message,
    issued es c node key challenge_ /\ Frame c payload d ∈ es /\
    from_bytes payload = Ok (Register node key candidates signature) /\
    Identity.from_public_key key = node /\
    register_payload challenge_ node key candidates = Ok message /\ verifies key message signature = true.

(** The server drew this token. *)
Definition drawn (es : list Event) (tok : list Z) : Prop :=
  (exists c payload d, Frame c payload d ∈ es /\ token d = tok) \/
  (exists c now later, PairNext c tok now later ∈ es).

Record Meeting : Type := mk_meeting {
  conn_a : Z; conn_b : Z;
  node_a : NodeId; node_b : NodeId;
  cands_a : list Candidate; cands_b : list Candidate;
  tok : list Z;
}.

Definition pairing_ok (es : list Event) (p : Meeting) : Prop :=
  proved es (conn_a p) (node_a p) (cands_a p) /\ proved es (conn_b p) (node_b p) (cands_b p) /\
  node_a p <> node_b p /\ drawn es (tok p).

(** What a pairing sends to a connection. *)
Definition view (c : Z) (p : Meeting) : list SignalMessage :=
  (if decide (conn_a p = c) then [PeerCandidates (node_b p) (cands_b p) (tok p)] else []) ++
  (if decide (conn_b p = c) then [PeerCandidates (node_a p) (cands_a p) (tok p)] else []).

Definition is_offer (m : SignalMessage) : bool := match m with PeerCandidates _ _ _ => true | _ => false end.
Definition offers (l : list SignalMessage) : list SignalMessage := List.filter is_offer l.

(** Everything queued for a connection, written or not. *)
Definition log (k : Conn) : list SignalMessage := written k ++ queue k.

Lemma issued_mono es e c n k ch : issued es c n k ch -> issued (es ++ [e]) c n k ch.
Proof. intros (pl & d & v & Hin & ?). exists pl, d, v. split; [set_solver|done]. Qed.
Lemma proved_mono es e c n cs : proved es c n cs -> proved (es ++ [e]) c n cs.
Proof.
  intros (k & ch & pl & d & sg & m & Hi & Hin & ?). exists k, ch, pl, d, sg, m.
  split; [by apply issued_mono|]. split; [set_solver|done].
Qed.
Lemma pairing_mono es e p : pairing_ok es p -> pairing_ok (es ++ [e]) p.
Proof.
  intros (Ha & Hb & Hn & Hd). split; [by apply proved_mono|]. split; [by apply proved_mono|]. split; [done|].
  destruct Hd as [(c & pl & d & Hin & ?)|(c & n & l & Hin)]; [left|right].
  - exists c, pl, d. split; [set_solver|done].
  - exists c, n, l. set_solver.
Qed.

(** ** The invariant *)

Definition gone (k : Conn) : Prop := stage k = Ended.

(** Connection [c] is there, as this node. *)
Definition online (s : Server) (c : Z) (node : NodeId) : Prop :=
  exists k a, conns s !! c = Some k /\ ~ gone k /\ active k = Some a /\ a_node a = node.

Definition stage_ok (es : list Event) (c : Z) (k : Conn) : Prop :=
  match stage k with
  | Allocating p cands => active k = None /\ proved es c (p_node p) cands
  | Announcing _ _ live | Pairing live => forall a, active k = Some a -> a_node a ∉ live
  | _ => True
  end.

Record conn_ok (es : list Event) (cfg : SignalServerConfig) (c : Z) (k : Conn) : Prop := {
  co_stage : stage_ok es c k;
  co_queue : Z.of_nat (length (queue k)) <= outbox_capacity cfg;
  co_pending : forall p, pending k = Some p -> issued es c (p_node p) (p_key p) (p_challenge p);
  co_active : forall a, active k = Some a -> a_connection a = c;
}.

Record good (es : list Event) (ps : list Meeting) (s : Server) : Prop := {
  g_next : 1 <= next_connection_id s;
  g_ids : forall c k, conns s !! c = Some k -> c < next_connection_id s;
  g_conn : forall c k, conns s !! c = Some k -> conn_ok es (config s) c k;
  g_peers : forall n r, peers (registry s) !! n = Some r ->
    online s (connection_id r) n /\ proved es (connection_id r) n (r_candidates r);
  g_keys : forall t key, key ∈ at_ (waiters (registry s)) t -> online s (w_connection key) (requester key);
  g_registry : registry_ok (config s) (registry s);
  g_jobs : jobs s <= max_pending_lookups (config s);
  g_offers : forall c k, conns s !! c = Some k -> offers (log k) = concat (map (view c) ps);
  g_pairs : Forall (fun p => pairing_ok es p /\ conn_a p < next_connection_id s /\ conn_b p < next_connection_id s) ps;
}.

Lemma good_mono es e ps s : good es ps s -> good (es ++ [e]) ps s.
Proof.
  intros [G0 G1 G2 G3 G4 G5 G6 G7 G8]. split; try done.
  - intros c k Hc. destruct (G2 c k Hc) as [S Q P A]. split; try done.
    + unfold stage_ok in *. destruct (stage k); try done. destruct S. split; [done|by apply proved_mono].
    + intros p Hp. by apply issued_mono, P.
  - intros n r Hr. destruct (G3 n r Hr). split; [done|by apply proved_mono].
  - eapply Forall_impl; [exact G8|]. cbn. intros p (? & ?). split; [by apply pairing_mono|done].
Qed.

(** A change of one connection that keeps its identity and its offers. *)
Record harmless (es : list Event) (cfg : SignalServerConfig) (c : Z) (k k' : Conn) : Prop := {
  hl_ok : conn_ok es cfg c k -> conn_ok es cfg c k';
  hl_active : active k' = active k;
  hl_gone : gone k' -> gone k;
  hl_offers : offers (log k') = offers (log k);
}.

Lemma lookup_alter_conn f c s c' : conns (alter_conn f c s) !! c' =
  if decide (c = c') then f <$> conns s !! c' else conns s !! c'.
Proof. cbn. destruct (decide (c = c')) as [<-|]; [apply lookup_alter_eq|by apply lookup_alter_ne]. Qed.

Lemma online_alter f c s c' n : (forall k, conns s !! c = Some k -> active (f k) = active k /\ (gone (f k) -> gone k)) ->
  online s c' n -> online (alter_conn f c s) c' n.
Proof.
  intros Hf (k & a & Hk & Hg & Ha & Hn). destruct (decide (c = c')) as [<-|Hne].
  - destruct (Hf k Hk) as [Ea Eg]. exists (f k), a. rewrite lookup_alter_conn, decide_True, Hk by done.
    split; [done|]. split; [naive_solver|]. by rewrite Ea.
  - exists k, a. by rewrite lookup_alter_conn, decide_False.
Qed.

Lemma good_alter es ps f c s : good es ps s ->
  (forall k, conns s !! c = Some k -> harmless es (config s) c k (f k)) -> good es ps (alter_conn f c s).
Proof.
  intros [G0 G1 G2 G3 G4 G5 G6 G7 G8] Hf.
  assert (forall c' n, online s c' n -> online (alter_conn f c s) c' n) as Hon.
  { intros c' n. apply online_alter. intros k Hk. by destruct (Hf k Hk). }
  assert (forall c' k', conns (alter_conn f c s) !! c' = Some k' ->
    exists k, conns s !! c' = Some k /\ (k' = k \/ c = c' /\ harmless es (config s) c' k k')) as Hcase.
  { intros c' k'. rewrite lookup_alter_conn. destruct (decide (c = c')) as [<-|]; [|eauto].
    destruct (conns s !! c) as [k|] eqn:Ek; [|done]. cbn. intros [= <-]. exists k. auto. }
  split; try done.
  - intros c' k' Hc'. destruct (Hcase c' k' Hc') as (k & Hk & _). by apply (G1 c' k).
  - intros c' k' Hc'. destruct (Hcase c' k' Hc') as (k & Hk & [->|[_ [Hok _ _ _]]]); [by apply G2|by apply Hok, G2].
  - intros n r Hr. destruct (G3 n r Hr). split; [by apply Hon|done].
  - intros t key Hin. by apply Hon, (G4 t).
  - intros c' k' Hc'. destruct (Hcase c' k' Hc') as (k & Hk & [->|[_ [_ _ _ Ho]]]); [by apply G7|]. rewrite Ho. by apply G7.
Qed.

Lemma good_registry es ps r s : good es ps s -> registry_ok (config s) r -> same_tables (registry s) r ->
  good es ps (set_registry r s).
Proof.
  intros [G0 G1 G2 G3 G4 G5 G6 G7 G8] Hr [E1 E2 E3]. split; try done.
  - intros n x. cbn. rewrite E1. apply G3.
  - intros t key. cbn. rewrite E2. apply G4.
Qed.

Lemma good_short_ids es ps d n s : good es ps s -> n <= max_pending_lookups (config s) -> good es ps (set_short_ids d n s).
Proof. intros [] Hn. by split. Qed.

(** ** Queues *)

Lemma has_room_Some c s : has_room c s = true ->
  exists k, conns s !! c = Some k /\ Z.of_nat (length (queue k)) < outbox_capacity (config s).
Proof.
  unfold has_room, room. destruct (conns s !! c) as [k|]; [|done]. intros [_ Hl%Z.ltb_lt]%andb_true_iff. by exists k.
Qed.

Lemma good_enqueue es ps m c s : good es ps s -> has_room c s = true -> is_offer m = false ->
  good es ps (enqueue m c s).
Proof.
  intros Hg (k0 & Hk0 & Hl)%has_room_Some Hm. apply good_alter; [done|]. intros k Hk.
  assert (k = k0) as -> by congruence. split; try done.
  - intros [S Q P A]. split; try done. cbn. rewrite length_app. cbn. lia.
  - unfold log. cbn. rewrite app_assoc. unfold offers. rewrite List.filter_app. cbn. by rewrite Hm, app_nil_r.
Qed.

Lemma good_reject es ps tag c s : good es ps s -> good es ps (reject tag c s).
Proof. intros Hg. unfold reject. destruct (has_room c s) eqn:E; [by apply good_enqueue|done]. Qed.

Lemma good_close es ps c s : good es ps s -> good es ps (signal_close c s).
Proof. intros Hg. apply good_alter; [done|]. intros k Hk. split; try done. intros []. by split. Qed.

(** ** Leaving *)

Lemma good_disconnect es ps c s : good es ps s -> good es ps (disconnect c s).
Proof.
  intros Hg. unfold disconnect. destruct (conns s !! c) as [k|] eqn:Ek; [|done].
  set (r' := match active k with Some a => unregister (a_node a) (a_connection a) (registry s) | None => registry s end).
  assert (match active k with Some a => set_registry (unregister (a_node a) (a_connection a) (registry s)) s | None => s end
    = set_registry r' s) as -> by (unfold r'; destruct (active k); [done|by destruct s]).
  destruct Hg as [G0 G1 G2 G3 G4 G5 G6 G7 G8]. destruct (G2 c k Ek) as [S Q P A].
  assert (registry_ok (config s) r') as Hr by (unfold r'; destruct (active k); [by apply unregister_ok|done]).
  assert (forall n, online s c n -> active k = Some (mk_active (default 0 (a_version <$> active k)) n c)) as Hc.
  { intros n (k' & a & Ek' & _ & Ea & En). assert (k' = k) as -> by congruence. rewrite Ea. cbn.
    pose proof (A a Ea). destruct a; cbn in *. by subst. }
  assert (forall c' n, online s c' n -> c' <> c -> online (alter_conn (with_stage Ended) c (set_registry r' s)) c' n) as Hon.
  { intros c' n (k' & a & Ek' & ?) Hne. exists k', a. by rewrite lookup_alter_conn, decide_False. }
  split; try done.
  - intros c' k'. rewrite lookup_alter_conn. cbn [conns set_registry]. destruct (decide (c = c')) as [<-|]; [|apply G1].
    intros _. by apply (G1 c k).
  - intros c' k'. rewrite lookup_alter_conn. cbn [conns set_registry]. destruct (decide (c = c')) as [<-|]; [|apply G2].
    rewrite Ek. cbn. intros [= <-]. by split.
  - intros n x Hx. cbn in Hx. assert (peers (registry s) !! n = Some x /\ connection_id x <> c) as [Hx' Hne].
    { assert (peers (registry s) !! n = Some x) as Hx'.
      { unfold r' in Hx. destruct (active k) as [a|]; [|done].
        destruct (unregister_eq (a_node a) (a_connection a) (registry s)) as (Ep & _). rewrite Ep in Hx.
        destruct (owns _ _ _); [by apply lookup_delete_Some in Hx as [_ Hx]|done]. }
      split; [done|]. intros Ecx. destruct (G3 n x Hx') as [Ho _]. rewrite Ecx in Ho. apply Hc in Ho.
      unfold r' in Hx. rewrite Ho in Hx. cbn [a_node a_connection] in Hx.
      destruct (unregister_eq n c (registry s)) as (Ep & _). rewrite Ep in Hx.
      assert (owns n c (registry s) = true) as Hown by (unfold owns; rewrite Hx'; by apply Z.eqb_eq).
      rewrite Hown, lookup_delete_eq in Hx. done. }
    destruct (G3 n x Hx'). split; [by apply Hon|done].
  - intros t key Hin. cbn in Hin. assert (key ∈ at_ (waiters (registry s)) t /\ w_connection key <> c) as [Hin' Hne].
    { assert (key ∈ at_ (waiters (registry s)) t) as Hin'.
      { unfold r' in Hin. destruct (active k) as [a|]; [|done].
        destruct (unregister_eq (a_node a) (a_connection a) (registry s)) as (_ & Ew & _).
        rewrite Ew, at_no_empty, at_drop_key in Hin. destruct (decide _); set_solver. }
      split; [done|]. intros Ecx. pose proof (G4 t key Hin') as Ho. rewrite Ecx in Ho. apply Hc in Ho.
      apply (wo_mirror _ _ (ro_waiting _ _ Hr) key t) in Hin. unfold r' in Hin. rewrite Ho in Hin.
      cbn [a_node a_connection] in Hin. destruct (unregister_eq (requester key) c (registry s)) as (_ & _ & Eb & _).
      rewrite Eb, at_delete, decide_True in Hin; [set_solver|]. destruct key; cbn in *. by subst. }
    apply Hon; [by apply (G4 t)|done].
  - intros c' k'. rewrite lookup_alter_conn. cbn [conns set_registry]. destruct (decide (c = c')) as [<-|]; [|apply G7].
    rewrite Ek. cbn. intros [= <-]. by apply (G7 c k).
Qed.

Lemma good_fail es ps tag c s : good es ps s -> good es ps (fail tag c s).
Proof. intros Hg. by apply good_disconnect, good_reject. Qed.

Lemma good_answer es ps m c s : good es ps s -> is_offer m = false -> good es ps (answer m c s).
Proof.
  intros Hg Hm. unfold answer, send_or_close. destruct (has_room c s) eqn:E; [by apply good_enqueue|by apply good_disconnect].
Qed.

(** ** Pairing *)

(** Identities and stages of the connections are those of [s]. *)
Definition same_shape (s s' : Server) : Prop :=
  forall c k', conns s' !! c = Some k' -> exists k, conns s !! c = Some k /\ active k' = active k /\ stage k' = stage k.

Lemma shape_refl s : same_shape s s.
Proof. intros c k Hk. eauto. Qed.
Lemma shape_trans s1 s2 s3 : same_shape s1 s2 -> same_shape s2 s3 -> same_shape s1 s3.
Proof. intros H12 H23 c k3 (k2 & Hk2 & E1 & E2)%H23. destruct (H12 c k2 Hk2) as (k1 & ? & ? & ?). exists k1. split; [done|]. split; congruence. Qed.
Lemma shape_alter f c s : (forall k, active (f k) = active k /\ stage (f k) = stage k) -> same_shape s (alter_conn f c s).
Proof.
  intros Hf c' k'. rewrite lookup_alter_conn. destruct (decide (c = c')) as [<-|]; [|eauto].
  destruct (conns s !! c) as [k|]; [|done]. cbn. intros [= <-]. exists k. split; [done|apply Hf].
Qed.
Lemma shape_enqueue m c s : same_shape s (enqueue m c s).
Proof. by apply shape_alter. Qed.
Lemma shape_close c s : same_shape s (signal_close c s).
Proof. by apply shape_alter. Qed.
Lemma shape_pair a b tok now later s : same_shape s (try_pair a b tok now later s).
Proof.
  unfold try_pair. destruct (peers (registry s) !! a), (peers (registry s) !! b); try apply shape_refl.
  destruct (negb _); [apply shape_close|]. destruct (negb _); [apply shape_close|]. cbv zeta.
  eapply shape_trans; [|apply shape_enqueue]. eapply shape_trans; [|apply shape_enqueue].
  intros c k Hk. exists k. done.
Qed.

Lemma concat_view_app c ps p : concat (map (view c) (ps ++ [p])) = concat (map (view c) ps) ++ view c p.
Proof. rewrite map_app, concat_app. cbn. by rewrite app_nil_r. Qed.

(** One offer to one connection, as half of a meeting. *)
Lemma offers_snoc k m : is_offer m = true -> offers (log (with_queue (queue k ++ [m]) k)) = offers (log k) ++ [m].
Proof. intros Hm. unfold log, offers. cbn. rewrite app_assoc, List.filter_app. cbn. by rewrite Hm. Qed.

Lemma good_meet es ps p s r :
  good es ps s -> conn_a p <> conn_b p -> has_room (conn_a p) s = true -> has_room (conn_b p) s = true ->
  pairing_ok es p -> registry_ok (config s) r -> same_tables (registry s) r ->
  good es (ps ++ [p])
    (enqueue (PeerCandidates (node_a p) (cands_a p) (tok p)) (conn_b p)
      (enqueue (PeerCandidates (node_b p) (cands_b p) (tok p)) (conn_a p) (set_registry r s))).
Proof.
  intros Hg Hne (ka & Hka & Hla)%has_room_Some (kb & Hkb & Hlb)%has_room_Some Hp Hr Ht.
  apply (good_registry _ _ r) in Hg; [|done..]. set (s0 := set_registry r s) in *.
  set (ma := PeerCandidates (node_b p) (cands_b p) (tok p)). set (mb := PeerCandidates (node_a p) (cands_a p) (tok p)).
  assert (forall c k', conns (enqueue mb (conn_b p) (enqueue ma (conn_a p) s0)) !! c = Some k' ->
    exists k, conns s0 !! c = Some k /\ k' = with_queue (queue k ++ view c p) k /\
      (view c p <> [] -> Z.of_nat (length (queue k)) < outbox_capacity (config s)) /\ (length (view c p) <= 1)%nat) as Hcase.
  { intros c k'. unfold enqueue. rewrite !lookup_alter_conn. unfold view.
    destruct (decide (conn_b p = c)) as [Eb|Eb], (decide (conn_a p = c)) as [Ea|Ea]; try congruence.
    - rewrite <- Eb. cbn [conns s0 set_registry]. rewrite Hkb. cbn. intros [= <-]. exists kb. auto.
    - rewrite <- Ea. cbn [conns s0 set_registry]. rewrite Hka. cbn. intros [= <-]. exists ka. auto.
    - intros Hk. exists k'. split; [done|]. cbn. rewrite app_nil_r. split; [by destruct k'|]. split; [done|lia]. }
  assert (forall c n, online s0 c n -> online (enqueue mb (conn_b p) (enqueue ma (conn_a p) s0)) c n) as Hon.
  { intros c n Ho. by do 2 (apply online_alter; [by intros k _; split|]). }
  destruct Hg as [G0 G1 G2 G3 G4 G5 G6 G7 G8]. split; try done.
  - intros c k' (k & Hk & _)%Hcase. by apply (G1 c k).
  - intros c k' (k & Hk & -> & Hl & Hl1)%Hcase. destruct (G2 c k Hk) as [S Q P A]. split; try done. cbn [queue with_queue].
    rewrite length_app. destruct (view c p) as [|m [|]] eqn:Ev; cbn in *; [lia| |lia].
    assert (Z.of_nat (length (queue k)) < outbox_capacity (config s)) by (by apply Hl). cbn in *. lia.
  - intros n x Hx. destruct (G3 n x Hx). split; [by apply Hon|done].
  - intros t key Hin. by apply Hon, (G4 t).
  - intros c k' (k & Hk & -> & _)%Hcase. rewrite concat_view_app, <- (G7 c k Hk). unfold log, offers. cbn.
    rewrite app_assoc, List.filter_app. f_equal. unfold view. by destruct (decide (conn_a p = c)), (decide (conn_b p = c)).
  - apply Forall_app. split; [done|]. apply Forall_singleton. split; [done|].
    split; [by apply (G1 _ ka)|by apply (G1 _ kb)].
Qed.

Lemma good_try_pair es ps a b tok now later s : good es ps s -> a <> b -> drawn es tok ->
  exists ps', good es (ps ++ ps') (try_pair a b tok now later s).
Proof.
  intros Hg Hne Hd. unfold try_pair.
  destruct (peers (registry s) !! a) as [ra|] eqn:Ea; [|exists []; by rewrite app_nil_r].
  destruct (peers (registry s) !! b) as [rb|] eqn:Eb; [|exists []; by rewrite app_nil_r].
  destruct (has_room (connection_id ra) s) eqn:Ra; cbn [negb]; [|exists []; rewrite app_nil_r; by apply good_close].
  destruct (has_room (connection_id rb) s) eqn:Rb; cbn [negb]; [|exists []; rewrite app_nil_r; by apply good_close].
  destruct (g_peers _ _ _ Hg a ra Ea) as [Oa Pa], (g_peers _ _ _ Hg b rb Eb) as [Ob Pb].
  destruct (issue_ok (config s) tok a b now later (registry s) (g_registry _ _ _ Hg)) as [Hr Ht].
  set (p := mk_meeting (connection_id ra) (connection_id rb) a b (r_candidates ra) (r_candidates rb) tok).
  exists [p]. cbv zeta. apply (good_meet es ps p); try done.
  cbn. intros E. rewrite E in Oa. destruct Oa as (k & x & Hk & _ & Hx & <-), Ob as (k' & y & Hk' & _ & Hy & <-).
  congruence.
Qed.

(** ** The handlers *)

Lemma good_hello es ps version node key d c k s payload : good es ps s -> conns s !! c = Some k ->
  Frame c payload d ∈ es -> from_bytes payload = Ok (RegisterHello version node key) ->
  good es ps (on_hello version node key (challenge d) (now d) c k s).
Proof.
  intros Hg Hk Hin Hpl. unfold on_hello. destruct (_ || _); [by apply good_fail|].
  destruct (negb _); [by apply good_fail|]. destruct (Identity.public_key_from_bytes key); try by apply good_fail.
  destruct (negb _); [by apply good_fail|]. unfold send_or_close.
  destruct (has_room c s) eqn:E; cbn [negb]; [|by apply good_disconnect].
  apply good_alter; [by apply good_enqueue|]. intros k' Hk'. split; try done.
  intros [S Q P A]. split; try done. intros p [= <-]. cbn. by exists payload, d, version.
Qed.

Lemma verified key payload signature : Identity.verify_signature key payload signature = Ok tt -> verifies key payload signature = true.
Proof. unfold Identity.verify_signature. by destruct (verifies key payload signature). Qed.

Lemma register_checks_Ok cfg p node key cands signature now : register_checks cfg p node key cands signature now = Ok tt ->
  p_node p = node /\ p_key p = key /\ Identity.from_public_key key = node /\
  exists message, register_payload (p_challenge p) node key cands = Ok message /\ verifies key message signature = true.
Proof.
  unfold register_checks. intros E. apply obind_Ok in E as ([] & E1%fail_if_Ok & E).
  apply orb_false_iff in E1 as [E1 E2]. bool_hyps.
  apply obind_Ok in E as ([] & _ & E). apply obind_Ok in E as ([] & _ & E).
  apply obind_Ok in E as (key' & Ek & E). apply obind_Ok in E as ([] & Ei%fail_if_Ok & E). bool_hyps.
  apply obind_Ok in E as (message & Em & E). apply obind_Ok in E as (sg & Es & E).
  unfold Identity.public_key_from_bytes in Ek. destruct (key_parses key); [|done]. injection Ek as <-.
  unfold Identity.signature_from_bytes in Es. destruct (signature_parses signature); [|done]. injection Es as <-.
  split; [done|]. split; [done|]. split; [done|]. exists message. split; [done|by apply verified].
Qed.

Lemma good_register es ps node key cands signature d c k s payload : good es ps s -> conns s !! c = Some k ->
  Frame c payload d ∈ es -> from_bytes payload = Ok (Register node key cands signature) ->
  good es ps (on_register node key cands signature (now d) c k s).
Proof.
  intros Hg Hk Hin Hpl. unfold on_register. destruct (pending k) as [p|] eqn:Ep; [|by apply good_fail].
  assert (good es ps (alter_conn (with_pending None) c s)) as Hg1.
  { apply good_alter; [done|]. intros k' _. split; try done. intros [S Q P A]. by split. }
  cbv zeta. case_bool_decide as Ea; [by apply good_fail|].
  destruct (register_checks _ _ _ _ _ _ _) as [[]|e|] eqn:Er; try by apply good_fail.
  destruct (_ && _); [by apply good_fail|].
  destruct (Z.leb_spec (max_pending_lookups (config (alter_conn (with_pending None) c s))) (jobs (alter_conn (with_pending None) c s)));
    [by apply good_fail|].
  apply good_alter; [apply good_short_ids; [done|lia]|]. intros k' Hk'. cbn [conns set_short_ids] in Hk'.
  rewrite lookup_alter_conn, decide_True, Hk in Hk' by done. cbn in Hk'. injection Hk' as <-.
  apply register_checks_Ok in Er as (<- & <- & En & message & Em & Ev).
  split; try done. intros [S Q P A]. split; try done. cbn. split; [by destruct (active k); [destruct Ea|]|].
  exists (p_key p), (p_challenge p), payload, d, signature, message. split; [|done].
  by apply (co_pending _ _ _ _ (g_conn _ _ _ Hg c k Hk)).
Qed.

Lemma joined_live node record r live r' : joined node record r = (live, r') -> node ∉ live.
Proof.
  unfold joined, take_waiters_for. cbn [waiters set_peers]. destruct (waiters r !! node) as [keys|]; intros [= <- _].
  - intros (key & -> & Hin)%list_elem_of_fmap. apply list_elem_of_In, filter_In in Hin as [_ Hf]. bool_hyps. done.
  - intros Hin. by apply elem_of_nil in Hin.
Qed.

Lemma good_join es ps s c k p cands live r' short replaced :
  good es ps s -> conns s !! c = Some k -> stage k = Allocating p cands ->
  (is_Some (peers (registry s) !! p_node p) \/ Z.of_nat (size (peers (registry s))) < max_registered_peers (config s)) ->
  joined (p_node p) (mk_peer c cands) (registry s) = (live, r') ->
  good es ps (alter_conn (fun k => with_stage (Announcing short replaced live)
                                     (with_active (Some (mk_active (p_version p) (p_node p) c)) k)) c (set_registry r' s)).
Proof.
  intros Hg Hk Es Hsize Hj. destruct (joined_ok (config s) _ _ _ _ _ (g_registry _ _ _ Hg) Hsize Hj) as (Hr & Ep & Hw).
  pose proof (joined_live _ _ _ _ _ Hj) as Hlive.
  destruct Hg as [G0 G1 G2 G3 G4 G5 G6 G7 G8]. destruct (G2 c k Hk) as [S Q P A].
  unfold stage_ok in S. rewrite Es in S. destruct S as [Hact Hpr].
  set (f := fun k => with_stage _ (with_active _ k)).
  assert (forall c' n, online s c' n -> c' <> c) as Hnot.
  { intros c' n (k' & a & Hk' & _ & Ha & _) ->. congruence. }
  assert (forall c' n, online s c' n -> online (alter_conn f c (set_registry r' s)) c' n) as Hon.
  { intros c' n Ho. pose proof (Hnot c' n Ho). destruct Ho as (k' & a & Hk' & ?). exists k', a.
    by rewrite lookup_alter_conn, decide_False. }
  split; try done.
  - intros c' k'. rewrite lookup_alter_conn. cbn [conns set_registry]. destruct (decide (c = c')) as [<-|]; [|apply G1].
    intros _. by apply (G1 c k).
  - intros c' k'. rewrite lookup_alter_conn. cbn [conns set_registry]. destruct (decide (c = c')) as [<-|]; [|apply G2].
    rewrite Hk. cbn. intros [= <-]. split; try done.
    + cbn. intros a [= <-]. done.
    + cbn. intros a [= <-]. done.
  - intros n x Hx. cbn in Hx. rewrite Ep in Hx. apply lookup_insert_Some in Hx as [[<- <-]|[Hne Hx]].
    + split; [|done]. cbn. exists (f k), (mk_active (p_version p) (p_node p) c).
      by rewrite lookup_alter_conn, decide_True; cbn [conns set_registry]; [rewrite Hk|].
    + destruct (G3 n x Hx). split; [by apply Hon|done].
  - intros t key Hin. apply Hon, (G4 t), Hw, Hin.
  - intros c' k'. rewrite lookup_alter_conn. cbn [conns set_registry]. destruct (decide (c = c')) as [<-|]; [|apply G7].
    rewrite Hk. cbn. intros [= <-]. by apply (G7 c k).
Qed.

Lemma good_allocated es ps now_ clock c k s : good es ps s -> conns s !! c = Some k ->
  good es ps (on_allocated now_ clock c k s).
Proof.
  intros Hg Hk. unfold on_allocated. destruct (stage k) as [|p cands| | | | |] eqn:Es; try done.
  destruct (ShortId.register_with_limits _ _ _ _ _) as [r d].
  assert (good es ps (set_short_ids d (jobs s - 1) s)) as Hg1
    by (apply good_short_ids; [done|pose proof (g_jobs _ _ _ Hg); lia]).
  cbv zeta. destruct r as [short|e|]; try by apply good_fail.
  destruct (bool_decide _ && _) eqn:Eb; [by apply good_fail|].
  fold (joined (p_node p) (mk_peer c cands) (registry (set_short_ids d (jobs s - 1) s))).
  destruct (joined _ _ _) as [live r'] eqn:Ej. apply (good_join es ps _ c k p cands); try done.
  apply andb_false_iff in Eb as [Eb|Eb]; [left; apply bool_decide_eq_false in Eb; by apply not_eq_None_Some|right; by apply Z.leb_gt in Eb].
Qed.

Lemma good_announce es ps c k s : good es ps s -> conns s !! c = Some k -> good es ps (on_announce c k s).
Proof.
  intros Hg Hk. unfold on_announce. destruct (stage k) as [| |short replaced live| | | |] eqn:Es; try done.
  destruct (active k) as [a|] eqn:Ea; [|done]. cbv zeta. unfold send_or_close.
  set (m := if a_version a =? SHORT_ID_PROTOCOL_VERSION then RegisteredShort short else Registered). assert (is_offer m = false) as Hm by (unfold m; by destruct (_ =? _)).
  destruct (has_room c s) eqn:E; cbn [negb]; [|by apply good_disconnect].
  set (s2 := match replaced with Some old => _ | None => _ end).
  assert (good es ps s2 /\ same_shape s s2) as [Hg2 Hsh].
  { unfold s2. destruct replaced; split.
    - by apply good_close, good_enqueue.
    - eapply shape_trans; [apply shape_enqueue|apply shape_close].
    - by apply good_enqueue.
    - apply shape_enqueue. }
  apply good_alter; [done|]. intros k' Hk'. destruct (Hsh c k' Hk') as (k0 & Hk0 & E1 & E2).
  assert (k0 = k) as -> by congruence. split; try done. intros [S Q P A]. split; try done.
  unfold stage_ok in S. rewrite E2, Es in S. done.
Qed.

Lemma good_pair_next es ps tok now_ later_ c k s : good es ps s -> conns s !! c = Some k -> drawn es tok ->
  exists ps', good es (ps ++ ps') (on_pair_next tok now_ later_ c k s).
Proof.
  intros Hg Hk Hd. unfold on_pair_next. destruct (stage k) as [| | |live| | |] eqn:Es;
    try (exists []; by rewrite app_nil_r).
  pose proof (co_stage _ _ _ _ (g_conn _ _ _ Hg c k Hk)) as S. unfold stage_ok in S. rewrite Es in S.
  destruct live as [|w live].
  { exists []. rewrite app_nil_r. apply good_alter; [done|]. intros k' _. split; try done. intros []. by split. }
  destruct (active k) as [a|] eqn:Ea; [|exists []; by rewrite app_nil_r]. specialize (S a eq_refl).
  apply not_elem_of_cons in S as [Hne S].
  destruct (good_try_pair es ps w (a_node a) tok now_ later_ s Hg (not_eq_sym Hne) Hd) as [ps' Hg'].
  exists ps'. apply good_alter; [done|]. intros k' Hk'. destruct (shape_pair _ _ _ _ _ _ c k' Hk') as (k0 & Hk0 & E1 & E2).
  assert (k0 = k) as -> by congruence. split; try done. intros [S' Q P A]. split; try done. cbn.
  rewrite E1, Ea. intros x [= <-]. done.
Qed.


Lemma good_windows es ps f c s : (forall k, exists w1 w2, f k = with_windows w1 w2 k) -> good es ps s ->
  good es ps (alter_conn f c s).
Proof.
  intros Hf Hg. apply good_alter; [done|]. intros k _. destruct (Hf k) as (w1 & w2 & ->). split; try done.
  intros []. by split.
Qed.

Lemma good_resolved es ps short node c k s : good es ps s -> good es ps (resolved short node c k s).
Proof.
  intros Hg. unfold resolved. cbv zeta. apply good_answer; [|done]. apply good_alter; [done|].
  intros k' _. split; try done. intros []. by split.
Qed.

Lemma good_lookup_short es ps short c k s : good es ps s -> good es ps (on_lookup_short short c k s).
Proof.
  intros Hg. unfold on_lookup_short. destruct (active k); [|by apply good_fail]. destruct (_ || _); [by apply good_fail|].
  apply good_alter; [done|]. intros k' _. split; try done. intros []. by split.
Qed.

Lemma good_take_short es ps now_ c k s : good es ps s -> good es ps (on_take_short now_ c k s).
Proof.
  intros Hg. unfold on_take_short. destruct (stage k) as [| | | |short| |]; try done.
  destruct (take_short _ _ _ _) as [ok w]. cbv zeta.
  set (s1 := alter_conn (with_windows w _) c s).
  assert (good es ps s1) as Hg1 by (apply good_windows; [eauto|done]).
  assert (forall x, (if ok then let (ok', r) := take_short_lookup (remote_ip (with_windows w (node_window k) k)) now_ (config s1) (registry s1) in
            (ok', set_registry r s1) else (false, s1)) = x -> good es ps x.2) as Hx.
  { intros x <-. destruct ok; [|done]. destruct (take_short_lookup _ _ _ _) as [ok' r] eqn:Et.
    destruct (take_short_ok _ _ _ _ _ _ (g_registry _ _ _ Hg1) Et). by apply good_registry. }
  destruct (if ok then _ else _) as [allowed s2]. specialize (Hx _ eq_refl). cbn [snd] in Hx.
  destruct (allowed && _ && (jobs s2 <? max_pending_lookups (config s2))) eqn:E; [|by apply good_resolved].
  apply andb_true_iff in E as [_ E%Z.ltb_lt].
  apply good_alter; [apply good_short_ids; [done|lia]|]. intros k' _. split; try done. intros []. by split.
Qed.

Lemma good_on_resolved es ps c k s : good es ps s -> good es ps (on_resolved c k s).
Proof.
  intros Hg. unfold on_resolved. destruct (stage k); try done. destruct (ShortId.lookup _ _) as [r d]. cbv zeta.
  apply good_resolved, good_short_ids; [done|]. pose proof (g_jobs _ _ _ Hg). lia.
Qed.

Lemma good_add_waiter es ps key target s : good es ps s -> online s (w_connection key) (requester key) ->
  key ∉ waiters_of target (registry s) -> peers (registry s) !! target = None ->
  pending_count key (registry s) < max_pending_lookups (config s) ->
  waiter_entries (registry s) < max_waiter_entries (config s) ->
  good es ps (set_registry (add_waiter key target (registry s)).2 s).
Proof.
  intros Hg Ho Hk Ht Hp He. pose proof (add_waiter_ok (config s) key target (registry s) (g_registry _ _ _ Hg) Hk Ht Hp He) as Hr.
  destruct Hg as [G0 G1 G2 G3 G4 G5 G6 G7 G8]. split; try done.
  intros t key'. cbn. unfold at_. rewrite lookup_insert. destruct (decide (target = t)) as [<-|].
  - cbn. intros [->%elem_of_singleton|Hin]%elem_of_union; [done|]. by apply (G4 target).
  - apply G4.
Qed.

Lemma good_lookup es ps target tok now_ later_ c k s : good es ps s -> conns s !! c = Some k -> drawn es tok ->
  exists ps', good es (ps ++ ps') (on_lookup target tok now_ later_ c k s).
Proof.
  intros Hg Hk Hd. unfold on_lookup.
  assert (forall s', good es ps s' -> exists ps', good es (ps ++ ps') s') as Hq by (intros s' Hs'; exists []; by rewrite app_nil_r).
  destruct (active k) as [a|] eqn:Ea; [|by apply Hq, good_fail].
  destruct (owns (a_node a) (a_connection a) (registry s)) eqn:Eo; cbn [negb]; [|by apply Hq, good_fail].
  destruct (take_in_window _ _ _ _ _) as [ok w]. cbv zeta.
  set (s1 := alter_conn _ c s).
  assert (good es ps s1) as Hg1 by (apply good_windows; [eauto|done]).
  assert (forall x, (if ok then let (ok', r) := take_node_lookup (remote_ip k) now_ (config s1) (registry s1) in
            (ok', set_registry r s1) else (false, s1)) = x ->
    good es ps x.2 /\ same_tables (registry s) (registry x.2) /\ config x.2 = config s) as Hx.
  { intros x <-. destruct ok; [|done]. destruct (take_node_lookup _ _ _ _) as [ok' r] eqn:Et.
    destruct (take_node_ok _ _ _ _ _ _ (g_registry _ _ _ Hg1) Et) as [Hr Ht]. split; [by apply good_registry|]. by split. }
  destruct (if ok then _ else _) as [allowed s2]. specialize (Hx _ eq_refl). cbn [snd] in Hx. destruct Hx as (Hg2 & Ht & Ec).
  destruct allowed; cbn [negb]; [|by apply Hq, good_answer].
  case_bool_decide as Eself; [by apply Hq, good_answer|].
  case_bool_decide as Eon; [by apply good_try_pair|].
  case_bool_decide as Ew; [by apply Hq, good_answer|].
  destruct (Z.leb_spec (max_pending_lookups (config s2)) (pending_count (mk_key (a_node a) (a_connection a)) (registry s2)));
    [by apply Hq, good_answer|].
  destruct (Z.leb_spec (max_waiter_entries (config s2)) (waiter_entries (registry s2))); [by apply Hq, good_answer|].
  apply Hq, good_answer; [|done]. apply good_add_waiter; try done.
  - cbn. unfold owns in Eo. destruct (peers (registry s) !! a_node a) as [x|] eqn:Ex; [|done]. apply Z.eqb_eq in Eo.
    rewrite <- Eo. rewrite <- (st_peers _ _ Ht) in Ex. by apply (g_peers _ _ _ Hg2).
  - by apply eq_None_not_Some.
Qed.

Lemma good_message es ps m d c k s payload : good es ps s -> conns s !! c = Some k ->
  Frame c payload d ∈ es -> from_bytes payload = Ok m -> exists ps', good es (ps ++ ps') (on_message m d c k s).
Proof.
  intros Hg Hk Hin Hpl.
  assert (forall s', good es ps s' -> exists ps', good es (ps ++ ps') s') as Hq by (intros s' Hs'; exists []; by rewrite app_nil_r).
  destruct m; cbn [on_message]; try (by apply Hq, good_fail).
  - apply Hq. by eapply good_register.
  - apply good_lookup; [done..|]. left. by exists c, payload, d.
  - apply Hq. unfold on_ping. case_bool_decide; [by apply good_fail|by apply good_answer].
  - apply Hq. by eapply good_hello.
  - by apply Hq, good_lookup_short.
Qed.

Lemma bump_next n : 1 <= n < U64_MAX -> bump n = n + 1.
Proof.
  intros Hn. unfold bump, wrapping_add. rewrite Z.mod_small by lia. by destruct (Z.eqb_spec (n + 1) 0); [lia|].
Qed.

Lemma view_above c ps m : Forall (fun p => pairing_ok m p /\ conn_a p < c /\ conn_b p < c) ps -> concat (map (view c) ps) = [].
Proof.
  induction 1 as [|p ps (_ & Ha & Hb) _ IH]; [done|]. cbn. rewrite IH, app_nil_r. unfold view.
  by rewrite !decide_False by lia.
Qed.

Lemma good_accept es ps ip now_ s : good es ps s -> next_connection_id s < U64_MAX -> 0 <= outbox_capacity (config s) ->
  good es ps (accept ip now_ s).
Proof.
  intros [G0 G1 G2 G3 G4 G5 G6 G7 G8] Hn Hcap. unfold accept. rewrite bump_next by lia.
  assert (conns s !! next_connection_id s = None) as Hnone.
  { destruct (conns s !! next_connection_id s) as [k|] eqn:E; [|done]. apply G1 in E. lia. }
  assert (forall c n, online s c n -> c <> next_connection_id s) as Hne.
  { intros c n (k & a & Hk & _) ->. congruence. }
  assert (forall c n, online s c n -> online (mk_server (config s) (registry s) (<[next_connection_id s := new_conn ip now_]> (conns s))
    (next_connection_id s + 1) (short_ids s) (jobs s)) c n) as Hon.
  { intros c n Ho. pose proof (Hne c n Ho). destruct Ho as (k & a & Hk & ?). exists k, a.
    cbn. rewrite lookup_insert_ne by done. done. }
  split; cbn; try done.
  - lia.
  - intros c k [[<- _]|[_ Hk]]%lookup_insert_Some; [lia|]. apply G1 in Hk. lia.
  - intros c k [[<- <-]|[_ Hk]]%lookup_insert_Some; [by split|by apply G2].
  - intros n r Hr. destruct (G3 n r Hr). split; [by apply Hon|done].
  - intros t key Hin. by apply Hon, (G4 t).
  - intros c k [[<- <-]|[_ Hk]]%lookup_insert_Some; [|by apply G7]. by rewrite (view_above _ _ es).
  - eapply Forall_impl; [exact G8|]. intros p (? & ? & ?). split; [done|]. lia.
Qed.

(** One event keeps the invariant, and makes at most some new meetings. *)
Lemma good_step es ps e s : good es ps s -> next_connection_id s < U64_MAX -> 0 <= outbox_capacity (config s) ->
  exists ps', good (es ++ [e]) (ps ++ ps') (step e s).
Proof.
  intros Hg%(good_mono _ e) Hn Hcap.
  assert (e ∈ es ++ [e]) as He by set_solver. revert Hg He. generalize (es ++ [e]). intros es' Hg He.
  assert (forall s', good es' ps s' -> exists ps', good es' (ps ++ ps') s') as Hq by (intros s' Hs'; exists []; by rewrite app_nil_r).
  destruct e as [ip now_|c payload d|c now_ clock|c|c tok_ now_ later_|c now_|c|c|c|c|c]; cbn [step]; cbv zeta.
  - by apply Hq, good_accept.
  - destruct (conns s !! c) as [k|] eqn:Ek; [|by apply Hq]. destruct (_ || _); [by apply Hq|].
    destruct (from_bytes payload) as [m|err|] eqn:Ep; [|by apply Hq, good_fail..]. by eapply good_message.
  - destruct (conns s !! c) as [k|] eqn:Ek; [|by apply Hq]. by apply Hq, good_allocated.
  - destruct (conns s !! c) as [k|] eqn:Ek; [|by apply Hq]. by apply Hq, good_announce.
  - destruct (conns s !! c) as [k|] eqn:Ek; [|by apply Hq]. apply good_pair_next; try done.
    right. by exists c, now_, later_.
  - destruct (conns s !! c) as [k|] eqn:Ek; [|by apply Hq]. by apply Hq, good_take_short.
  - destruct (conns s !! c) as [k|] eqn:Ek; [|by apply Hq]. by apply Hq, good_on_resolved.
  - destruct (conns s !! c) as [k|] eqn:Ek; [|by apply Hq]. apply Hq. destruct (_ && _); [by apply good_disconnect|done].
  - destruct (conns s !! c) as [k|] eqn:Ek; [|by apply Hq]. apply Hq. destruct (reading k); [by apply good_disconnect|done].
  - apply Hq, good_alter; [done|]. intros k _. unfold write_next. destruct (queue k) as [|m q] eqn:Eq; [done|].
    destruct (writer k); [|done]. split; try done.
    + intros [S Q P A]. split; try done. cbn. rewrite Eq in Q. cbn in Q. lia.
    + unfold log. cbn. by rewrite Eq, <- app_assoc.
  - apply Hq, good_alter; [done|]. intros k _. split; try done. intros []. by split.
Qed.


(** ** Runs *)

(** What no handler changes. *)
Definition fixed (s s' : Server) : Prop := config s' = config s /\ next_connection_id s' = next_connection_id s.

Lemma fixed_disconnect c s : fixed s (disconnect c s).
Proof. unfold disconnect. destruct (conns s !! c) as [k|]; [|done]. by destruct (active k). Qed.
Lemma fixed_fail tag c s : fixed s (fail tag c s).
Proof.
  unfold fail. destruct (fixed_disconnect c (reject tag c s)) as [E1 E2]. unfold fixed. rewrite E1, E2.
  unfold reject. by destruct (has_room c s).
Qed.
Lemma fixed_answer m c s : fixed s (answer m c s).
Proof. unfold answer, send_or_close. destruct (has_room c s); [done|apply fixed_disconnect]. Qed.
Lemma fixed_pair a b tk n l s : fixed s (try_pair a b tk n l s).
Proof. unfold try_pair. repeat case_match; done. Qed.
Lemma fixed_trans s1 s2 s3 : fixed s1 s2 -> fixed s2 s3 -> fixed s1 s3.
Proof. intros [] []. split; congruence. Qed.
Lemma fixed_resolved short node c k s : fixed s (resolved short node c k s).
Proof. unfold resolved. eapply fixed_trans; [|apply fixed_answer]. done. Qed.

Ltac keeps := repeat first
  [ done | apply fixed_disconnect | apply fixed_resolved | apply fixed_pair
  | eapply fixed_trans; [|apply fixed_fail]; done | eapply fixed_trans; [|apply fixed_answer]
  | eapply fixed_trans; [|apply fixed_resolved]; done | eapply fixed_trans; [|apply fixed_pair]; done
  | eapply fixed_trans; [apply fixed_pair|]; done | case_match ].

Lemma fixed_budget (ok : bool) (p : bool * Registry) s :
  fixed s (if ok then let (ok', r) := p in (ok', set_registry r s) else (false, s)).2.
Proof. by destruct ok, p. Qed.

Lemma fixed_lookup target tk n l c k s : fixed s (on_lookup target tk n l c k s).
Proof.
  unfold on_lookup. destruct (active k) as [a|]; [|apply fixed_fail]. destruct (negb _); [apply fixed_fail|].
  destruct (take_in_window _ _ _ _ _) as [ok w]. cbv zeta. set (s1 := alter_conn _ c s).
  apply (fixed_trans _ s1); [done|].
  match goal with |- context [if ok then let (_, _) := ?p in _ else _] => pose proof (fixed_budget ok p s1) as Hb end.
  destruct (if ok then _ else _) as [allowed s2]. apply (fixed_trans _ s2); [done|]. clear Hb. keeps.
Qed.

Lemma fixed_take_short n c k s : fixed s (on_take_short n c k s).
Proof.
  unfold on_take_short. destruct (stage k); try done. destruct (take_short _ _ _ _) as [ok w]. cbv zeta.
  set (s1 := alter_conn _ c s). apply (fixed_trans _ s1); [done|].
  match goal with |- context [if ok then let (_, _) := ?p in _ else _] => pose proof (fixed_budget ok p s1) as Hb end.
  destruct (if ok then _ else _) as [allowed s2]. apply (fixed_trans _ s2); [done|]. clear Hb. keeps.
Qed.

Lemma fixed_message m d c k s : fixed s (on_message m d c k s).
Proof.
  destruct m; cbn [on_message]; try apply fixed_fail.
  - unfold on_register. cbv zeta. keeps.
  - apply fixed_lookup.
  - unfold on_ping. keeps.
  - unfold on_hello, send_or_close. destruct (has_room c s); cbv zeta; keeps.
  - unfold on_lookup_short. keeps.
Qed.

Lemma step_fixed e s : config (step e s) = config s /\
  (next_connection_id (step e s) = next_connection_id s \/ next_connection_id (step e s) = bump (next_connection_id s)).
Proof.
  assert (forall s', fixed s s' -> config s' = config s /\
    (next_connection_id s' = next_connection_id s \/ next_connection_id s' = bump (next_connection_id s))) as Hq
    by (intros s' []; auto).
  destruct e as [ip n|c payload d|c n clock|c|c tk n l|c n|c|c|c|c|c]; cbn [step]; cbv zeta;
    try (destruct (conns s !! c) as [k|]; [|by apply Hq]); try (by apply Hq).
  - split; [done|by right].
  - apply Hq. destruct (_ || _); [done|]. destruct (from_bytes payload); [apply fixed_message|apply fixed_fail..].
  - apply Hq. unfold on_allocated. destruct (stage k); try done. destruct (ShortId.register_with_limits _ _ _ _ _).
    cbv zeta. keeps.
  - apply Hq. unfold on_announce, send_or_close. destruct (stage k); try done. destruct (active k); [|done].
    destruct (has_room c s); cbn [negb]; [|apply fixed_disconnect]. by destruct replaced.
  - apply Hq. unfold on_pair_next. destruct (stage k) as [| | |[|]| | |]; try done. destruct (active k); [|done].
    eapply fixed_trans; [apply fixed_pair|]. done.
  - apply Hq, fixed_take_short.
  - apply Hq. unfold on_resolved. destruct (stage k); try done. destruct (ShortId.lookup _ _). cbv zeta.
    eapply fixed_trans; [|apply fixed_resolved]. done.
  - apply Hq. destruct (_ && _); [apply fixed_disconnect|done].
  - apply Hq. destruct (reading k); [apply fixed_disconnect|done].
Qed.

(** The limits of the configuration are not negative. *)
Record limits (cfg : SignalServerConfig) : Prop := {
  lm_peers : 0 <= max_registered_peers cfg;
  lm_waiters : 0 <= max_waiter_entries cfg;
  lm_pending : 0 <= max_pending_lookups cfg;
  lm_outbox : 0 <= outbox_capacity cfg;
}.

Lemma good_initial cfg relay ids : limits cfg -> good [] [] (initial cfg relay ids).
Proof.
  intros []. split; cbn; try done; try lia.
Qed.

Lemma run_app es e s : run (es ++ [e]) s = step e (run es s).
Proof. unfold run. by rewrite fold_left_app. Qed.

(** The invariant of the runs; connection numbers do not wrap around before
    [U64_MAX] events. *)
Lemma good_run cfg relay ids es : limits cfg -> Z.of_nat (length es) < U64_MAX ->
  let s := run es (initial cfg relay ids) in
  config s = cfg /\ next_connection_id s <= 1 + Z.of_nat (length es) /\ exists ps, good es ps s.
Proof.
  intros Hl. cbv zeta. induction es as [|e es IH] using rev_ind; intros Hlen.
  { split; [done|]. split; [done|]. exists []. by apply good_initial. }
  rewrite length_app in Hlen |- *. cbn in Hlen |- *. destruct IH as (Ec & En & ps & Hg); [lia|].
  rewrite run_app. set (s := run es _) in *. destruct (step_fixed e s) as [Ec' En'].
  pose proof (g_next _ _ _ Hg). assert (next_connection_id s < U64_MAX) as Hlt by lia.
  rewrite Ec', Ec. split; [done|]. split; [destruct En' as [->| ->]; [|rewrite bump_next]; lia|].
  destruct (good_step es ps e s Hg Hlt) as [ps' Hg']; [rewrite Ec; apply (lm_outbox _ Hl)|]. eauto.
Qed.

(** C23: Whatever arrives, in whatever order, the server's tables stay sound: the two
    waiting indexes mirror each other and hold no empty set, nobody waits for a
    device that is online, every device and every waiter belongs to a connection
    that is still there under that identity, and every table, counter and queue is
    within its configured limit. *)
Theorem registry_sound cfg relay ids es : limits cfg -> Z.of_nat (length es) < U64_MAX ->
  let s := run es (initial cfg relay ids) in
  registry_ok cfg (registry s) /\ jobs s <= max_pending_lookups cfg /\
  (forall n r, peers (registry s) !! n = Some r -> online s (connection_id r) n) /\
  (forall target key, key ∈ waiters_of target (registry s) -> online s (w_connection key) (requester key)) /\
  (forall c k, conns s !! c = Some k -> Z.of_nat (length (queue k)) <= outbox_capacity cfg).
Proof.
  intros Hl Hlen. cbv zeta. destruct (good_run cfg relay ids es Hl Hlen) as (Ec & _ & ps & []).
  rewrite Ec in *. split; [done|]. split; [done|]. split; [|split; [done|]].
  - intros n r Hr. by destruct (g_peers0 n r Hr).
  - intros c k Hk. by destruct (g_conn0 c k Hk).
Qed.

(** C22: Introductions come in pairs: there is one list of meetings such that what a
    connection is offered, sent or still queued, is exactly its side of them, in
    order.  So both devices get the same token, drawn by the server, and each
    other's candidates; each of the two sent, over its connection, candidates signed
    under the key its identity is the hash of, with the challenge the server drew for
    that connection; the same holds of every device that is online. *)
Theorem meetings_matched cfg relay ids es : limits cfg -> Z.of_nat (length es) < U64_MAX ->
  let s := run es (initial cfg relay ids) in
  (exists ps, Forall (pairing_ok es) ps /\
     forall c k, conns s !! c = Some k -> offers (log k) = concat (map (view c) ps)) /\
  (forall n r, peers (registry s) !! n = Some r -> proved es (connection_id r) n (r_candidates r)).
Proof.
  intros Hl Hlen. cbv zeta. destruct (good_run cfg relay ids es Hl Hlen) as (Ec & _ & ps & []). split.
  - exists ps. split; [|done]. eapply Forall_impl; [done|]. by intros p [].
  - intros n r Hr. by destruct (g_peers0 n r Hr).
Qed.


End Traces.

(** ** Witnesses *)

Module Demo.
Import Hexadecimal Identity.

#[local] Instance example_blake3 : Blake3 := fun bs => take 32 (bs ++ repeat 0 32).
#[local] Instance ed : Ed25519 := example_ed25519.
#[local] Instance candidates_postcard : Postcard (list Candidate) := {|
  to_allocvec l := Ok (map (fun c => match addr c with Addr.V4 bits _ | Addr.V6 bits _ _ _ => bits end) l);
  take_from_bytes bs := Ok ([], bs)
|}.

Definition key (seed : Z) : list Z := verifying_key [seed].
Definition node (seed : Z) : NodeId := from_public_key (key seed).
Definition home (seed : Z) : list Candidate := [mk_candidate Host (Addr.V4 seed 4000)].

(** A table of the messages the two devices send. *)
#[local] Instance message_postcard : Postcard SignalMessage := {|
  to_allocvec _ := Ok [];
  take_from_bytes bs :=
    match bs with
    | [0; seed] => Ok (RegisterHello 3 (node seed) (key seed), [])
    | [1; seed] => Ok (Register (node seed) (key seed) (home seed) (sign_with [seed] []), [])
    | [2; seed] => Ok (Lookup (node seed), [])
    | _ => Err Encode
    end
|}.

Definition draws : Drawn := mk_drawn 0 0 (repeat 9 32) (repeat 8 32).
Definition joins (seed : Z) : list Event :=
  [Frame seed [0; seed] draws; Frame seed [1; seed] draws; Allocated seed 0 0; Announce seed;
   PairNext seed (repeat 7 32) 0 0].
Definition events : list Event :=
  [Accept (Addr.IpV4 1) 0; Accept (Addr.IpV4 2) 0] ++ joins 1 ++ joins 2 ++ [Frame 1 [2; 2] draws].
Definition server : Server :=
  run events (initial default_config None (ShortId.mk_connection ShortId.initial ShortId.initial [] ∅)).

Lemma limits_ok : limits default_config.
Proof. split; cbn; unfold MAX_REGISTERED_PEERS, MAX_WAITER_ENTRIES, MAX_PENDING_LOOKUPS, OUTBOX_CAPACITY; lia. Qed.
Lemma short : Z.of_nat (length events) < U64_MAX.
Proof. vm_compute. reflexivity. Qed.

End Demo.

Import Hexadecimal.
#[local] Existing Instances Demo.example_blake3 Demo.ed Demo.candidates_postcard Demo.message_postcard.

Lemma registry_sound_witness : online Demo.server 1 (Demo.node 1) /\ online Demo.server 2 (Demo.node 2).
Proof.
  destruct (registry_sound default_config None (ShortId.mk_connection ShortId.initial ShortId.initial [] ∅) Demo.events
    Demo.limits_ok Demo.short) as (_ & _ & Ho & _).
  split; [apply (Ho _ (mk_peer 1 (Demo.home 1)))|apply (Ho _ (mk_peer 2 (Demo.home 2)))]; vm_compute; reflexivity.
Defined.

Lemma meetings_matched_witness : exists ps, Forall (pairing_ok Demo.events) ps /\
  concat (map (view 1) ps) = [PeerCandidates (Demo.node 2) (Demo.home 2) (repeat 8 32)] /\
  concat (map (view 2) ps) = [PeerCandidates (Demo.node 1) (Demo.home 1) (repeat 8 32)].
Proof.
  destruct (meetings_matched default_config None (ShortId.mk_connection ShortId.initial ShortId.initial [] ∅) Demo.events
    Demo.limits_ok Demo.short) as ((ps & Hps & Hv) & _).
  assert (forall c l (m : gmap Z Conn), (forall c k, m !! c = Some k -> offers (log k) = concat (map (view c) ps)) ->
    (fun k => offers (log k)) <$> m !! c = Some l -> concat (map (view c) ps) = l) as Hl.
  { intros c l m Hm. destruct (m !! c) as [k|] eqn:Ek; [|discriminate]. rewrite <- (Hm c k Ek). intros E. injection E as <-. reflexivity. }
  exists ps. split; [exact Hps|]. split; apply (Hl _ _ _ Hv); vm_compute; reflexivity.
Defined.

(** A device registers again over connection 2, whose writer ends before the
    confirmation is queued: connection 1 was replaced and is never told to close,
    and the device is in the table no more. *)
Definition replaced_events : list Event :=
  [Accept (Addr.IpV4 1) 0; Accept (Addr.IpV4 1) 0] ++ Demo.joins 1 ++
  [Frame 2 [0; 1] Demo.draws; Frame 2 [1; 1] Demo.draws; Allocated 2 0 0; WriterGone 2; Announce 2].

Example replaced_left_behind :
  let s := run replaced_events (initial default_config None (ShortId.mk_connection ShortId.initial ShortId.initial [] ∅)) in
  peers (registry s) !! Demo.node 1 = None /\
  (fun k => (stage k, close k, active k)) <$> conns s !! 1 = Some (Reading, false, Some (mk_active 3 (Demo.node 1) 1)).
Proof. split; vm_compute; reflexivity. Qed.

End SignalProof.
