(* ===== verification/SignalClient.v ===== *)
(** * The signaling client (src/discovery/signal.rs)

    Registration over one connection, the queries of the foreground, and the
    reader task that feeds it.  The last part runs an honest client against the
    server of Signal.v. *)
From Stdlib Require Import ZArith Lia Sorted.
From stdpp Require Import countable prelude gmap strings.
From S2P Require Import Prelude Postcard Manifest Message State Link Identity Addr Relay Hexadecimal ShortId Signal SignalProof.

#[local] Open Scope Z_scope.

Module SignalClient.
Import Signal SignalProof.

Definition CLIENT_EVENT_CAPACITY : nat := 256.

(** ** Registration *)

Abbreviation session := (st (Link.link_of SignalMessage) error).

Section Session.
Context `{Blake3} {ed : Ed25519} `{Postcard (list Candidate)}.

(** The timeout of the whole exchange is that of a read. *)
Definition recv (closed : string) : session SignalMessage := Link.recv_msg "registration timed out" closed.

Definition await_challenge (protocol_version : Z) (reply : SignalMessage) : result (list Z) :=
  match reply with
  | RegisterChallenge remote_version challenge =>
      if remote_version =? protocol_version then Ok challenge else Err (Discovery "version")
  | SError _ => Err (Discovery "refused")
  | _ => Err (Discovery "expected RegisterChallenge")
  end.

Definition await_registered (protocol_version : Z) (reply : SignalMessage) : result (option Z) :=
  match reply with
  | Registered => if protocol_version =? SIGNAL_PROTOCOL_VERSION then Ok None else Err (Discovery "unexpected")
  | RegisteredShort short_id =>
      if protocol_version =? SHORT_ID_PROTOCOL_VERSION then omap Some (ShortId.new short_id)
      else Err (Discovery "unexpected")
  | SError _ => Err (Discovery "refused")
  | _ => Err (Discovery "unexpected")
  end.

Definition register_session (identity : Identity.Identity) (candidates : list Candidate) (protocol_version : Z) :
    session (option Z) :=
  let node_id := Identity.node_id identity in
  let public_key := Identity.public_key_bytes identity in
  let! _ := Link.send_msg (RegisterHello protocol_version node_id public_key) in
  let! reply := recv "closed before the challenge" in
  let! challenge := liftr (await_challenge protocol_version reply) in
  let! payload := liftr (register_payload challenge node_id public_key candidates) in
  let! _ := Link.send_msg (Register node_id public_key candidates (Identity.sign identity payload)) in
  let! reply := recv "closed before the confirmation" in
  liftr (await_registered protocol_version reply).

(** [connect_with_options], from the connected stream on: too many candidates are cut off. *)
Definition connect (identity : Identity.Identity) (candidates : list Candidate) (protocol_version : Z) :
    session (option Z) :=
  register_session identity (take (Z.to_nat MAX_CANDIDATES) candidates) protocol_version.

End Session.

(** ** Queries *)

Record PeerOffer : Type := mk_offer { o_candidates : list Candidate; o_token : list Z }.
Inductive LookupOutcome : Type := Ready (offer : PeerOffer) | Pending.

(** The events are what the reader delivers until it ends. *)
Definition disconnected : error := Discovery "disconnected".

Fixpoint lookup_loop (peer : NodeId) (events : list SignalMessage) : result LookupOutcome * list SignalMessage :=
  match events with
  | [] => (Err disconnected, [])
  | message :: rest =>
      match message with
      | PeerCandidates node_id candidates token =>
          if decide (node_id = peer) then (Ok (Ready (mk_offer candidates token)), rest) else lookup_loop peer rest
      | PeerPending node_id => if decide (node_id = peer) then (Ok Pending, rest) else lookup_loop peer rest
      | SError _ => (Err (Discovery "lookup failed"), rest)
      | _ => lookup_loop peer rest
      end
  end.

(** [writer]: does the writer task still take messages? *)
Definition lookup (writer : bool) (peer : NodeId) (events : list SignalMessage) : result LookupOutcome * list SignalMessage :=
  if writer then lookup_loop peer events else (Err disconnected, events).

(** The deadline passes after [deadline] messages. *)
Fixpoint wait_for_peer (peer : NodeId) (deadline : nat) (events : list SignalMessage) :
    result (option PeerOffer) * list SignalMessage :=
  match deadline with
  | O => (Ok None, events)
  | S deadline =>
      match events with
      | [] => (Err disconnected, [])
      | message :: rest =>
          match message with
          | PeerCandidates node_id candidates token =>
              if decide (node_id = peer) then (Ok (Some (mk_offer candidates token)), rest)
              else wait_for_peer peer deadline rest
          | SError _ => (Err (Discovery "signaling error"), rest)
          | _ => wait_for_peer peer deadline rest
          end
      end
  end.

Definition resolve_peer (writer : bool) (peer : NodeId) (deadline : nat) (events : list SignalMessage) :
    result PeerOffer * list SignalMessage :=
  let (outcome, events) := lookup writer peer events in
  match outcome with
  | Ok (Ready offer) => (Ok offer, events)
  | Ok Pending =>
      let (offer, events) := wait_for_peer peer deadline events in
      (let? offer := offer in ok_or offer (Discovery "timed out"), events)
  | Err e => (Err e, events)
  | Panic => (Panic, events)
  end.

(** ** The reader task and its consumer *)

Inductive ReaderEvent : Type :=
  | FrameRead (payload : list Z)
  | StreamEnded
  | Consumed.

Record Reader : Type := mk_reader {
  running : bool;
  delivered : list SignalMessage;
  consumed : list SignalMessage;
}.

Definition new_reader : Reader := mk_reader true [] [].

Section ReaderLoop.
Context `{Postcard SignalMessage}.

Definition client_reader_step (forward_pongs : bool) (r : Reader) (e : ReaderEvent) : Reader :=
  let stop := mk_reader false (delivered r) (consumed r) in
  match e with
  | FrameRead payload =>
      if negb (running r) then r
      else match from_bytes payload with
           | Ok message =>
               if bool_decide (message = Pong) && negb forward_pongs then r
               else if (length (delivered r) <? CLIENT_EVENT_CAPACITY)%nat
               then mk_reader true (delivered r ++ [message]) (consumed r)
               else if forward_pongs then stop else r
           | _ => stop
           end
  | StreamEnded => stop
  | Consumed =>
      match delivered r with
      | [] => r
      | m :: rest => mk_reader (running r) rest (consumed r ++ [m])
      end
  end.

Definition client_reader_loop (forward_pongs : bool) (es : list ReaderEvent) : Reader :=
  fold_left (client_reader_step forward_pongs) es new_reader.

End ReaderLoop.

(** ** The queries *)

(** A message that does not decide a query for [peer]. *)
Definition quiet (peer : NodeId) (m : SignalMessage) : bool :=
  match m with
  | PeerCandidates node_id _ _ => negb (bool_decide (node_id = peer))
  | SError _ => false
  | _ => true
  end.
Definition is_pending (peer : NodeId) (m : SignalMessage) : bool := bool_decide (m = PeerPending peer).

Lemma lookup_skip peer before events :
  forallb (fun m => quiet peer m && negb (is_pending peer m)) before = true ->
  lookup_loop peer (before ++ events) = lookup_loop peer events.
Proof.
  induction before as [|m before IH]; [done|]. cbn [forallb app lookup_loop]. intros [[Hm Hp]%andb_true_iff Hb]%andb_true_iff.
  specialize (IH Hb). unfold is_pending in Hp. destruct m; cbn in Hm; try done.
  - apply negb_true_iff, bool_decide_eq_false in Hm. by rewrite decide_False.
  - apply negb_true_iff, bool_decide_eq_false in Hp. rewrite decide_False; [done|]. by intros ->.
Qed.

Lemma wait_skip peer deadline before events : forallb (quiet peer) before = true -> (length before <= deadline)%nat ->
  wait_for_peer peer deadline (before ++ events) = wait_for_peer peer (deadline - length before) events.
Proof.
  revert deadline. induction before as [|m before IH]; intros deadline; [by rewrite Nat.sub_0_r|].
  cbn [forallb app length]. intros [Hm Hb]%andb_true_iff Hl. destruct deadline as [|deadline]; [lia|].
  cbn [wait_for_peer Nat.sub]. specialize (IH deadline Hb ltac:(lia)). destruct m; cbn in Hm; try done.
  apply negb_true_iff, bool_decide_eq_false in Hm. by rewrite decide_False.
Qed.

Lemma lookup_answer peer events o rest : lookup_loop peer events = (Ok o, rest) ->
  exists before, forallb (fun m => quiet peer m && negb (is_pending peer m)) before = true /\
    events = before ++ match o with
                       | Ready offer => PeerCandidates peer (o_candidates offer) (o_token offer)
                       | Pending => PeerPending peer
                       end :: rest.
Proof.
  induction events as [|m events IH]; [done|]. cbn [lookup_loop].
  assert (quiet peer m && negb (is_pending peer m) = true -> lookup_loop peer events = (Ok o, rest) ->
    exists before, forallb (fun m => quiet peer m && negb (is_pending peer m)) before = true /\
      m :: events = before ++ match o with
                       | Ready offer => PeerCandidates peer (o_candidates offer) (o_token offer)
                       | Pending => PeerPending peer
                       end :: rest) as Hskip.
  { intros Hm (before & Hb & ->)%IH. exists (m :: before). split; [|done]. cbn [forallb]. by rewrite Hm. }
  destruct m; try (by apply Hskip); try done.
  - destruct (decide (node_id = peer)) as [->|Hne].
    + intros [= <- <-]. by exists [].
    + apply Hskip. cbn. by rewrite bool_decide_false.
  - destruct (decide (node_id = peer)) as [->|Hne].
    + intros [= <- <-]. by exists [].
    + apply Hskip. cbn. unfold is_pending. by rewrite bool_decide_false by congruence.
Qed.

Lemma wait_answer peer deadline events offer rest : wait_for_peer peer deadline events = (Ok (Some offer), rest) ->
  exists before, forallb (quiet peer) before = true /\ (length before < deadline)%nat /\
    events = before ++ PeerCandidates peer (o_candidates offer) (o_token offer) :: rest.
Proof.
  revert events. induction deadline as [|deadline IH]; [done|]. intros [|m events]; [done|]. cbn [wait_for_peer].
  assert (quiet peer m = true -> wait_for_peer peer deadline events = (Ok (Some offer), rest) ->
    exists before, forallb (quiet peer) before = true /\ (length before < S deadline)%nat /\
      m :: events = before ++ PeerCandidates peer (o_candidates offer) (o_token offer) :: rest) as Hskip.
  { intros Hm (before & Hb & Hl & ->)%IH. exists (m :: before). cbn. rewrite Hm. split; [done|]. split; [lia|done]. }
  destruct m; try (by apply Hskip); try done.
  destruct (decide (node_id = peer)) as [->|Hne].
  - intros [= <- <-]. exists []. split; [done|]. split; [cbn; lia|done].
  - apply Hskip. cbn. by rewrite bool_decide_false.
Qed.

Lemma forallb_quiet peer before :
  forallb (fun m => quiet peer m && negb (is_pending peer m)) before = true <->
  forallb (quiet peer) before = true /\ PeerPending peer ∉ before.
Proof.
  unfold is_pending. induction before as [|m before IH]; cbn [forallb].
  - split; [|done]. intros _. split; [done|]. apply not_elem_of_nil.
  - rewrite !andb_true_iff, IH, not_elem_of_cons, negb_true_iff, bool_decide_eq_false. naive_solver.
Qed.

Lemma pending_split peer before : PeerPending peer ∉ before \/
  exists b1 b2, before = b1 ++ PeerPending peer :: b2 /\ PeerPending peer ∉ b1.
Proof.
  destruct (decide (PeerPending peer ∈ before)) as [Hin|]; [right|by left].
  apply list_elem_of_split_l in Hin as (b1 & b2 & -> & Hn). eauto.
Qed.

Lemma app_pending_inj {A} (x : A) a1 a2 b1 b2 : x ∉ a1 -> x ∉ b1 ->
  a1 ++ x :: a2 = b1 ++ x :: b2 -> a1 = b1 /\ a2 = b2.
Proof.
  revert b1. induction a1 as [|y a1 IH]; intros [|z b1] Ha Hb; cbn; intros [=]; subst.
  - done.
  - set_solver.
  - set_solver.
  - destruct (IH b1) as [-> ->]; try done; set_solver.
Qed.

(** What a query for [peer] accepts: the first offer for it, with no error before
    it and, when the server said that the peer is away, fewer than [deadline]
    messages in between. *)
Definition first_offer (peer : NodeId) (deadline : nat) (offer : PeerOffer) (events rest : list SignalMessage) : Prop :=
  exists before, events = before ++ PeerCandidates peer (o_candidates offer) (o_token offer) :: rest /\
    forallb (quiet peer) before = true /\
    (forall b1 b2, before = b1 ++ PeerPending peer :: b2 -> PeerPending peer ∉ b1 -> (length b2 < deadline)%nat).

(** A query returns an offer exactly when one arrives in time: the first one for
    this peer, consuming what came before it and nothing after it. *)
Theorem resolve_peer_exact (peer : NodeId) (deadline : nat) (events rest : list SignalMessage) (offer : PeerOffer) :
  resolve_peer true peer deadline events = (Ok offer, rest) <-> first_offer peer deadline offer events rest.
Proof.
  unfold resolve_peer, lookup. split.
  - destruct (lookup_loop peer events) as [[[o|]|e|] mid] eqn:El; try done.
    + intros [= -> ->]. apply lookup_answer in El as (before & Hb & ->). exists before. split; [done|].
      apply forallb_quiet in Hb as [Hq Hp]. split; [done|]. intros b1 b2 -> _. destruct Hp. set_solver.
    + destruct (wait_for_peer peer deadline mid) as [[[o|]|e|] r] eqn:Ew; try done. intros [= -> ->].
      apply lookup_answer in El as (b1 & Hb & ->). apply wait_answer in Ew as (b2 & Hb2 & Hl & ->).
      apply forallb_quiet in Hb as [Hq Hp]. exists (b1 ++ PeerPending peer :: b2). rewrite <- app_assoc. split; [done|].
      rewrite forallb_app, Hq. cbn. split; [done|]. intros b1' b2' E Hn.
      by apply app_pending_inj in E as [_ <-].
  - intros (before & -> & Hq & Ht). destruct (pending_split peer before) as [Hp|(b1 & b2 & -> & Hp)].
    + rewrite lookup_skip by (by apply forallb_quiet). cbn. rewrite decide_True by done. by destruct offer.
    + rewrite <- app_assoc. rewrite forallb_app in Hq. apply andb_true_iff in Hq as [Hq1 Hq2]. cbn in Hq2.
      rewrite lookup_skip by (by apply forallb_quiet). cbn [lookup_loop app]. rewrite decide_True by done.
      specialize (Ht b1 b2 eq_refl Hp). rewrite wait_skip by (done || lia).
      destruct (deadline - length b2)%nat eqn:E; [lia|]. cbn [wait_for_peer]. rewrite decide_True by done. by destruct offer.
Qed.

(** ** The reader *)

Section ReaderProof.
Context `{Postcard SignalMessage}.

(** The messages of the frames up to the first that cannot be decoded. *)
Fixpoint decoded (es : list ReaderEvent) : list SignalMessage :=
  match es with
  | FrameRead payload :: es =>
      match from_bytes payload with
      | Ok m => m :: decoded es
      | _ => []
      end
  | StreamEnded :: _ => []
  | Consumed :: es => decoded es
  | [] => []
  end.

Definition not_pong (m : SignalMessage) : bool := negb (bool_decide (m = Pong)).

Definition received (r : Reader) : list SignalMessage := consumed r ++ delivered r.

(** What the reader adds for the rest of the events, from a state that still runs. *)
Lemma reader_gets forward es r : (length (delivered r) <= CLIENT_EVENT_CAPACITY)%nat ->
  let r' := fold_left (client_reader_step forward) es r in
  (length (delivered r') <= CLIENT_EVENT_CAPACITY)%nat /\
  exists new, received r' = received r ++ new /\
    (running r = false -> new = [] /\ running r' = false) /\
    (if forward then new `prefix_of` decoded es /\ (running r' = true -> new = decoded es)
     else new `sublist_of` List.filter not_pong (decoded es)).
Proof.
  revert r. induction es as [|e es IH]; intros r Hl; cbv zeta.
  { split; [done|]. exists []. rewrite app_nil_r. split; [done|]. split; [done|]. by destruct forward. }
  cbn [fold_left]. set (r1 := client_reader_step forward r e).
  assert ((length (delivered r1) <= CLIENT_EVENT_CAPACITY)%nat /\
    ((received r1 = received r /\ (running r = false -> running r1 = false) /\
       (running r1 = false \/ decoded (e :: es) = decoded es \/
        forward = false /\ exists m, decoded (e :: es) = m :: decoded es)) \/
     exists m, running r = true /\ running r1 = true /\ received r1 = received r ++ [m] /\
       decoded (e :: es) = m :: decoded es /\ (forward = false -> not_pong m = true))) as [Hl1 Hcase].
  { unfold r1, client_reader_step. destruct e as [payload| |]; cbv zeta.
    - destruct (running r) eqn:Er; cbn [negb]; [|split; [done|]; left; rewrite Er; auto].
      destruct (from_bytes payload) as [m|err|] eqn:Ep; [|split; [done|]; left; cbn; auto..].
      destruct (bool_decide (m = Pong) && negb forward) eqn:Eb.
      { apply andb_true_iff in Eb as [_ Ef%negb_true_iff]. split; [done|]. left. rewrite Er. split; [done|].
        split; [done|]. right. right. split; [done|]. exists m. cbn. by rewrite Ep. }
      destruct (Nat.ltb_spec (length (delivered r)) CLIENT_EVENT_CAPACITY) as [Hlt|Hge].
      { cbn [delivered running]. rewrite length_app. split; [cbn; lia|]. right. exists m. split; [done|]. split; [done|].
        unfold received. cbn. rewrite app_assoc, Ep. split; [done|]. split; [done|]. intros ->.
        rewrite andb_true_r in Eb. unfold not_pong. by rewrite Eb. }
      destruct forward; (split; [done|]); left; cbn; rewrite ?Er; [by auto|]. split; [done|]. split; [done|].
      right. right. split; [done|]. exists m. by rewrite Ep.
    - split; [done|]. left. cbn. auto.
    - destruct (delivered r) as [|m rest] eqn:Ed; [split; [by rewrite Ed|]; left; auto|]. cbn in Hl |- *.
      split; [lia|]. left. unfold received. cbn. rewrite Ed, <- app_assoc. auto. }
  destruct (IH r1 Hl1) as [Hl' (new & En & Hstop & Hnew)]. split; [done|].
  destruct Hcase as [(E1 & Hr & Hd)|(m & Er & Er1 & E1 & Ed & Hm)].
  - exists new. rewrite En, E1. split; [done|]. split; [auto|]. destruct Hd as [Hf|[Hd|[-> [m Hd]]]].
    + destruct (Hstop Hf) as [-> Hf']. destruct forward; [|apply sublist_nil_l]. split; [apply prefix_nil|].
      intros Ht. congruence.
    + by rewrite Hd.
    + rewrite Hd. cbn. destruct (not_pong m); [by constructor|done].
  - exists (m :: new). rewrite En, E1, <- app_assoc. split; [done|]. split; [congruence|]. rewrite Ed.
    destruct forward.
    + destruct Hnew as [Hp Hn]. split; [by apply prefix_cons|]. intros Ht. by rewrite Hn.
    + cbn. rewrite Hm by done. by constructor.
Qed.

(** Nothing is lost silently, and memory is bounded: at most 256 messages wait for
    the consumer; a desktop session receives exactly the messages of the server, in
    order, for as long as the reader runs, and a prefix of them when it stopped; a
    one-shot client receives some of those that are not heartbeat replies, in order. *)
Theorem reader_delivers (forward : bool) (es : list ReaderEvent) :
  let r := client_reader_loop forward es in
  (length (delivered r) <= CLIENT_EVENT_CAPACITY)%nat /\
  (if forward then received r `prefix_of` decoded es /\ (running r = true -> received r = decoded es)
   else received r `sublist_of` List.filter not_pong (decoded es)).
Proof.
  cbv zeta. destruct (reader_gets forward es new_reader) as [Hl (new & En & _ & Hnew)]; [cbn; lia|].
  split; [done|]. unfold client_reader_loop. by rewrite En.
Qed.

End ReaderProof.

(** ** The order of candidates *)

Definition key_lt_eq (a b : Candidate) : Prop := key_le a b = true.

Lemma key_total a b : key_le a b = false -> key_le b a = true.
Proof. unfold key_le. destruct (sort_key a) as [x y], (sort_key b) as [z w]. cbn. lia. Qed.

Lemma insert_perm c l : insert_candidate c l ≡ₚ c :: l.
Proof. induction l as [|d l IH]; [done|]. cbn. destruct (key_le c d); [done|]. rewrite IH. apply Permutation_swap. Qed.

Lemma insert_head c l d : HdRel key_lt_eq d l -> key_lt_eq d c -> HdRel key_lt_eq d (insert_candidate c l).
Proof. intros Hl Hc. destruct l as [|e l]; cbn; [by constructor|]. destruct (key_le c e); constructor; [done|]. by inversion Hl. Qed.

Lemma insert_sorted c l : Sorted key_lt_eq l -> Sorted key_lt_eq (insert_candidate c l).
Proof.
  induction 1 as [|d l Hs IH Hd]; cbn; [by repeat constructor|]. destruct (key_le c d) eqn:E.
  - constructor; [by constructor|by constructor].
  - constructor; [done|]. apply insert_head; [done|]. by apply key_total.
Qed.

(** Candidates of the same key. *)
Definition alike (c d : Candidate) : bool := bool_decide (sort_key c = sort_key d).

Lemma insert_stable c k l : List.filter (alike k) (insert_candidate c l) = List.filter (alike k) (c :: l).
Proof.
  induction l as [|d l IH]; [done|]. cbn [insert_candidate]. destruct (key_le c d) eqn:E; [done|].
  cbn [List.filter]. rewrite IH. cbn [List.filter]. destruct (alike k c) eqn:Ec, (alike k d) eqn:Ed; try done.
  apply bool_decide_eq_true in Ec, Ed. unfold key_le in E. rewrite <- Ec, <- Ed in E. lia.
Qed.

Lemma dedup_spec seen l : NoDup (dedup_from seen l) /\ dedup_from seen l `sublist_of` l /\
  (forall c, c ∈ dedup_from seen l <-> c ∈ l /\ c ∉ seen).
Proof.
  revert seen. induction l as [|d l IH]; intros seen; cbn [dedup_from].
  { split; [constructor|]. split; [done|]. set_solver. }
  case_bool_decide as E; [destruct (IH seen) as (Hn & Hs & Hi)|destruct (IH (d :: seen)) as (Hn & Hs & Hi)].
  - split; [done|]. split; [by constructor|]. intros c. rewrite Hi. set_solver.
  - split; [constructor; [rewrite Hi; set_solver|done]|]. split; [by constructor|]. intros c.
    rewrite !elem_of_cons, Hi, elem_of_cons. destruct (decide (c = d)) as [->|]; naive_solver.
Qed.

(** Candidates are tried public addresses first, then the local ones, the
    predicted and the relayed, IPv6 before IPv4, and otherwise in the order given;
    sorting loses and invents none, and removing repetitions keeps one of each. *)
Theorem candidate_order (l : list Candidate) :
  sort_candidates l ≡ₚ l /\ Sorted key_lt_eq (sort_candidates l) /\
  (forall k, List.filter (alike k) (sort_candidates l) = List.filter (alike k) l) /\
  NoDup (dedup_candidates l) /\ dedup_candidates l `sublist_of` l /\ (forall c, c ∈ dedup_candidates l <-> c ∈ l).
Proof.
  split; [|split; [|split]].
  - induction l as [|c l IH]; [done|]. cbn. by rewrite insert_perm, IH.
  - induction l as [|c l IH]; [constructor|]. by apply insert_sorted.
  - intros k. induction l as [|c l IH]; [done|]. cbn [sort_candidates foldr]. rewrite insert_stable. cbn [List.filter].
    unfold sort_candidates in IH. by rewrite IH.
  - destruct (dedup_spec [] l) as (Hn & Hs & Hi). split; [done|]. split; [done|]. intros c. unfold dedup_candidates. rewrite Hi.
    split; [by intros []|]. intros Hc. split; [done|]. apply not_elem_of_nil.
Qed.

(** ** An honest client and the server *)

Section Honest.
Context `{Blake3} `{Ed25519Laws} `{Hex} `{HexDecode} `{Postcard (list Candidate)} `{PostcardLaws SignalMessage}.

Lemma identity_proves i : Identity.public_key_from_bytes (Identity.public_key_bytes i) = Ok (Identity.public_key_bytes i) /\
  Identity.from_public_key (Identity.public_key_bytes i) = Identity.node_id i.
Proof. split; [|done]. unfold Identity.public_key_from_bytes, Identity.public_key_bytes, Identity.public_key. by rewrite verifying_key_parses. Qed.

Lemma signature_proves i message : Identity.signature_from_bytes (Identity.sign i message) = Ok (Identity.sign i message) /\
  Identity.verify_signature (Identity.public_key_bytes i) message (Identity.sign i message) = Ok tt.
Proof.
  unfold Identity.signature_from_bytes, Identity.verify_signature, Identity.sign, Identity.public_key_bytes, Identity.public_key.
  rewrite sign_verifies. split; [|done]. by rewrite (proj2 (signature_parses_len _) (sign_len _ _)).
Qed.

(** The connection can take [n] more messages. *)
Definition roomy (n : Z) (cfg : SignalServerConfig) (k : Conn) : Prop :=
  writer k = true /\ Z.of_nat (length (queue k)) + n <= outbox_capacity cfg.

Lemma roomy_has_room n c k s : 0 < n -> conns s !! c = Some k -> roomy n (config s) k -> has_room c s = true.
Proof. intros Hn Hk [Hw Hl]. unfold has_room, room. rewrite Hk, Hw. apply Z.ltb_lt. lia. Qed.

Definition welcome (version : Z) (id : Z) : SignalMessage :=
  if version =? SHORT_ID_PROTOCOL_VERSION then RegisteredShort id else Registered.
Definition number (version : Z) (id : Z) : option Z := if version =? SHORT_ID_PROTOCOL_VERSION then Some id else None.

Lemma hello_accepted i version d c k s bs : conns s !! c = Some k ->
  stage k = Reading -> close k = false -> active k = None -> pending k = None -> roomy 1 (config s) k ->
  version = SIGNAL_PROTOCOL_VERSION \/ version = SHORT_ID_PROTOCOL_VERSION ->
  to_allocvec (RegisterHello version (Identity.node_id i) (Identity.public_key_bytes i)) = Ok bs ->
  step (Frame c bs d) s =
    alter_conn (with_pending (Some (mk_pending version (Identity.node_id i) (Identity.public_key_bytes i) (challenge d) (now d)))) c
      (enqueue (RegisterChallenge version (challenge d)) c s).
Proof.
  intros Hk Hs Hc Ha Hp Hr Hv Hbs. cbn [step]. rewrite Hk. unfold reading. rewrite Hs, Hc. cbn [negb orb].
  rewrite (from_to_allocvec _ _ Hbs). cbn [on_message]. unfold on_hello. rewrite Ha, Hp.
  rewrite !bool_decide_false by (by intros []). cbn [orb]. rewrite bool_decide_true by (destruct Hv as [-> | ->]; set_solver).
  cbn [negb]. destruct (identity_proves i) as [-> E]. cbv beta iota. rewrite E, bool_decide_true by done. cbn [negb].
  unfold send_or_close. rewrite (roomy_has_room 1 c k) by (done || lia). done.
Qed.

Lemma register_accepted i cands p message d c k s bs : conns s !! c = Some k ->
  stage k = Reading -> close k = false -> active k = None -> pending k = Some p ->
  p_node p = Identity.node_id i -> p_key p = Identity.public_key_bytes i ->
  elapsed (issued_at p) (now d) <= challenge_ttl (config s) -> Z.of_nat (length cands) <= max_candidates (config s) ->
  (is_Some (peers (registry s) !! Identity.node_id i) \/ Z.of_nat (size (peers (registry s))) < max_registered_peers (config s)) ->
  jobs s < max_pending_lookups (config s) ->
  register_payload (p_challenge p) (Identity.node_id i) (Identity.public_key_bytes i) cands = Ok message ->
  to_allocvec (Register (Identity.node_id i) (Identity.public_key_bytes i) cands (Identity.sign i message)) = Ok bs ->
  step (Frame c bs d) s =
    alter_conn (with_stage (Allocating p cands)) c (set_short_ids (short_ids s) (jobs s + 1) (alter_conn (with_pending None) c s)).
Proof.
  intros Hk Hs Hc Ha Hp En Ek Ht Hl Hroom Hj Hm Hbs. cbn [step]. rewrite Hk. unfold reading. rewrite Hs, Hc. cbn [negb orb].
  rewrite (from_to_allocvec _ _ Hbs). cbn [on_message]. unfold on_register. rewrite Hp. cbv zeta. rewrite Ha.
  rewrite bool_decide_false by (by intros []). cbn [config registry jobs short_ids alter_conn].
  unfold register_checks. rewrite En, Ek, !bool_decide_true by done. cbn [negb orb fail_if obind].
  destruct (Z.ltb_spec (challenge_ttl (config s)) (elapsed (issued_at p) (now d))); [lia|].
  destruct (Z.ltb_spec (max_candidates (config s)) (Z.of_nat (length cands))); [lia|]. cbn [fail_if obind].
  destruct (identity_proves i) as [-> E]. cbn [obind]. rewrite E, bool_decide_true by done. cbn [negb fail_if obind].
  rewrite Hm. cbn [obind]. destruct (signature_proves i message) as [-> Hv]. cbn [obind]. rewrite Hv.
  assert (bool_decide (peers (registry s) !! Identity.node_id i = None) &&
    (max_registered_peers (config s) <=? Z.of_nat (size (peers (registry s)))) = false) as ->.
  { apply andb_false_iff. destruct Hroom as [[x Hx]|Hlt]; [left; rewrite Hx; by apply bool_decide_eq_false|right; apply Z.leb_gt; lia]. }
  destruct (Z.leb_spec (max_pending_lookups (config s)) (jobs s)); [lia|]. done.
Qed.

Lemma allocation_accepted p cands now_ clock c k s id d' : conns s !! c = Some k -> stage k = Allocating p cands ->
  (is_Some (peers (registry s) !! p_node p) \/ Z.of_nat (size (peers (registry s))) < max_registered_peers (config s)) ->
  ShortId.register_with_limits (p_node p)
    (ShortId.mk_limits (max_short_id_mappings (config s)) (short_id_allocations_per_minute (config s)))
    (admit_source (remote_ip k) (short_id_allocations_per_ip_per_minute (config s)) now_) clock (short_ids s) = (Ok id, d') ->
  exists live r, joined (p_node p) (mk_peer c cands) (registry s) = (live, r) /\
    step (Allocated c now_ clock) s =
      alter_conn (fun k => with_stage (Announcing id (connection_id <$> peers (registry s) !! p_node p) live)
                             (with_active (Some (mk_active (p_version p) (p_node p) c)) k)) c
        (set_registry r (set_short_ids d' (jobs s - 1) s)).
Proof.
  intros Hk Hs Hroom Hr. cbn [step]. rewrite Hk. unfold on_allocated. rewrite Hs, Hr. cbv zeta.
  cbn [registry set_short_ids config].
  assert (bool_decide (peers (registry s) !! p_node p = None) &&
    (max_registered_peers (config s) <=? Z.of_nat (size (peers (registry s)))) = false) as ->.
  { apply andb_false_iff. destruct Hroom as [[x Hx]|Hlt]; [left; rewrite Hx; by apply bool_decide_eq_false|right; apply Z.leb_gt; lia]. }
  fold (joined (p_node p) (mk_peer c cands) (registry s)). destruct (joined _ _ _) as [live r]. by exists live, r.
Qed.

Lemma registration_announced id replaced live a c k s : conns s !! c = Some k -> stage k = Announcing id replaced live ->
  active k = Some a -> roomy 1 (config s) k ->
  exists k', conns (step (Announce c) s) !! c = Some k' /\ queue k' = queue k ++ [welcome (a_version a) id] /\
    active k' = Some a /\ registry (step (Announce c) s) = registry s.
Proof.
  intros Hk Hs Ha Hr. cbn [step]. rewrite Hk. unfold on_announce. rewrite Hs, Ha. cbv zeta. unfold send_or_close.
  rewrite (roomy_has_room 1 c k) by (done || lia). cbn [negb]. fold (welcome (a_version a) id).
  set (s1 := enqueue _ c s). assert (conns s1 !! c = Some (with_queue (queue k ++ [welcome (a_version a) id]) k)) as K1.
  { unfold s1, enqueue. rewrite lookup_alter_conn, decide_True, Hk by done. done. }
  assert (exists k2, conns (match replaced with Some old => signal_close old s1 | None => s1 end) !! c = Some k2 /\
    queue k2 = queue k ++ [welcome (a_version a) id] /\ active k2 = Some a /\
    registry (match replaced with Some old => signal_close old s1 | None => s1 end) = registry s) as (k2 & K2 & Hq & Ha2 & Hreg).
  { destruct replaced as [old|]; [|by exists (with_queue (queue k ++ [welcome (a_version a) id]) k)].
    unfold signal_close. rewrite lookup_alter_conn, K1. destruct (decide (old = c)); eexists; (split; [done|]); done. }
  exists (with_stage (Pairing live) k2). rewrite lookup_alter_conn, decide_True, K2 by done. done.
Qed.

Lemma session_succeeds i cands version ch id payload : version = SIGNAL_PROTOCOL_VERSION \/ version = SHORT_ID_PROTOCOL_VERSION ->
  ShortId.new id = Ok id -> register_payload ch (Identity.node_id i) (Identity.public_key_bytes i) cands = Ok payload ->
  register_session i cands version (Link.mk_link (map Link.Got [RegisterChallenge version ch; welcome version id]) [] []) =
    (Ok (number version id), Link.mk_link [] []
       [RegisterHello version (Identity.node_id i) (Identity.public_key_bytes i);
        Register (Identity.node_id i) (Identity.public_key_bytes i) cands (Identity.sign i payload)]).
Proof.
  intros Hv Hid Hp. unfold register_session, sbind, recv, Link.recv_msg, Link.send_msg. cbn [Link.inbox Link.fates Link.sent map tail app].
  unfold await_challenge, liftr. rewrite Z.eqb_refl, Hp. cbn [Link.inbox Link.fates Link.sent map tail app].
  unfold await_registered, welcome, number. destruct Hv as [-> | ->]; cbn; [done|]. by rewrite Hid.
Qed.

(** What an honest registration needs of the server: a fresh connection, room in
    the tables and a number for the device. *)
Record can_join (node : NodeId) (cands : list Candidate) (d1 d2 : Drawn) (now_ clock id c : Z) (k : Conn) (s : Server) : Prop := {
  cj_conn : conns s !! c = Some k;
  cj_fresh : stage k = Reading /\ close k = false /\ active k = None /\ pending k = None /\ queue k = [];
  cj_roomy : roomy 2 (config s) k;
  cj_time : elapsed (now d1) (now d2) <= challenge_ttl (config s);
  cj_candidates : Z.of_nat (length cands) <= max_candidates (config s);
  cj_room : is_Some (peers (registry s) !! node) \/ Z.of_nat (size (peers (registry s))) < max_registered_peers (config s);
  cj_jobs : jobs s < max_pending_lookups (config s);
  cj_tables : ShortId.tables_ok (ShortId.committed (short_ids s));
  cj_id : (ShortId.register_with_limits node
      (ShortId.mk_limits (max_short_id_mappings (config s)) (short_id_allocations_per_minute (config s)))
      (admit_source (remote_ip k) (short_id_allocations_per_ip_per_minute (config s)) now_) clock (short_ids s)).1 = Ok id;
}.

Lemma joined_peer node record r live r' : joined node record r = (live, r') -> peers r' !! node = Some record.
Proof.
  unfold joined, take_waiters_for. cbn [waiters set_peers].
  destruct (waiters r !! node); intros [= _ <-]; cbn; apply lookup_insert_eq.
Qed.

Lemma source_no_panic ip per_ip now_ m : (admit_source ip per_ip now_ m).1 <> Panic.
Proof. unfold admit_source. destruct (take_address _ _ _ _ _ _) as [[] m']; done. Qed.

(** An honest device gets registered when nobody disturbs it (Registration.v says what a
    question of another device does): what its client sends is accepted by the server,
    what the server queues for it is exactly what the client expects, both end with the
    same number, and the server's record holds the device's candidates under this
    connection. *)
Theorem honest_registration (i : Identity.Identity) (cands : list Candidate) (version : Z) (d1 d2 : Drawn)
    (now_ clock id c : Z) (k : Conn) (s : Server) (payload hello register : list Z) :
  version = SIGNAL_PROTOCOL_VERSION \/ version = SHORT_ID_PROTOCOL_VERSION ->
  can_join (Identity.node_id i) cands d1 d2 now_ clock id c k s ->
  register_payload (challenge d1) (Identity.node_id i) (Identity.public_key_bytes i) cands = Ok payload ->
  to_allocvec (RegisterHello version (Identity.node_id i) (Identity.public_key_bytes i)) = Ok hello ->
  to_allocvec (Register (Identity.node_id i) (Identity.public_key_bytes i) cands (Identity.sign i payload)) = Ok register ->
  let s' := run [Frame c hello d1; Frame c register d2; Allocated c now_ clock; Announce c] s in
  exists k', conns s' !! c = Some k' /\
    active k' = Some (mk_active version (Identity.node_id i) c) /\
    peers (registry s') !! Identity.node_id i = Some (mk_peer c cands) /\
    register_session i cands version (Link.mk_link (map Link.Got (queue k')) [] []) =
      (Ok (number version id), Link.mk_link [] []
         [RegisterHello version (Identity.node_id i) (Identity.public_key_bytes i);
          Register (Identity.node_id i) (Identity.public_key_bytes i) cands (Identity.sign i payload)]).
Proof.
  intros Hv [Hk (Hs & Hc & Ha & Hp & Hq) [Hw Hl] Ht Hcands Hroom Hj Htab Hid] Hpl Hh Hr. cbv zeta. cbn [run fold_left].
  rewrite Hq in Hl. cbn in Hl.
  rewrite (hello_accepted i version d1 c k s hello); try done; [|split; [done|]; rewrite Hq; cbn; lia].
  set (p := mk_pending version _ _ _ _). set (s1 := alter_conn _ c (enqueue _ c s)).
  assert (conns s1 !! c = Some (with_pending (Some p) (with_queue (queue k ++ [RegisterChallenge version (challenge d1)]) k))) as K1.
  { unfold s1, enqueue. rewrite lookup_alter_conn, decide_True, lookup_alter_conn, decide_True, Hk by done. done. }
  rewrite (register_accepted i cands p payload d2 c _ s1 register K1) by done.
  set (k1 := with_pending _ _) in K1. set (s2 := alter_conn _ c (set_short_ids _ _ _)).
  assert (conns s2 !! c = Some (with_stage (Allocating p cands) (with_pending None k1))) as K2.
  { unfold s2. rewrite lookup_alter_conn, decide_True by done. cbn [conns set_short_ids].
    rewrite lookup_alter_conn, decide_True, K1 by done. done. }
  destruct (ShortId.register_with_limits (Identity.node_id i)
      (ShortId.mk_limits (max_short_id_mappings (config s)) (short_id_allocations_per_minute (config s)))
      (admit_source (remote_ip k) (short_id_allocations_per_ip_per_minute (config s)) now_) clock (short_ids s))
    as [o d'] eqn:Ed. cbn in Hid. subst o.
  pose proof (ShortId.wp_register (Identity.node_id i)
    (ShortId.mk_limits (max_short_id_mappings (config s)) (short_id_allocations_per_minute (config s))) _ clock (short_ids s) Htab
    (source_no_panic (remote_ip k) (short_id_allocations_per_ip_per_minute (config s)) now_)) as Hw'. unfold wp in Hw'.
  rewrite Ed in Hw'. destruct Hw' as (_ & Hrange & _).
  destruct (allocation_accepted p cands now_ clock c _ s2 id d' K2 eq_refl Hroom Ed) as (live & r & Ej & ->).
  set (k2 := with_stage _ _) in K2. set (s3 := alter_conn _ c (set_registry _ _)).
  assert (conns s3 !! c = Some (with_stage (Announcing id (connection_id <$> peers (registry s2) !! p_node p) live)
    (with_active (Some (mk_active (p_version p) (p_node p) c)) k2))) as K3.
  { unfold s3. rewrite lookup_alter_conn, decide_True by done. cbn [conns set_registry set_short_ids]. by rewrite K2. }
  destruct (registration_announced id _ live _ c _ s3 K3 eq_refl eq_refl) as (k' & Hk' & Hq' & Ha' & Hreg).
  { split; [done|]. cbn. rewrite Hq. cbn. lia. }
  exists k'. split; [done|]. split; [done|]. rewrite Hreg. split; [exact (joined_peer _ _ _ _ _ Ej)|].
  rewrite Hq'. cbn [queue with_stage with_active with_pending with_queue k2 k1]. rewrite Hq.
  apply session_succeeds; [done| |done]. by apply ShortId.new_ok.
Qed.

End Honest.

(** ** A concrete serializer and a witness *)

#[global] Instance SocketAddr_countable : Countable Addr.SocketAddr.
Proof.
  apply (inj_countable' (fun a => match a with Addr.V4 b p => inl (b, p) | Addr.V6 b p f s => inr (b, p, f, s) end)
    (fun x => match x with inl (b, p) => Addr.V4 b p | inr (b, p, f, s) => Addr.V6 b p f s end)). by intros [].
Defined.
#[global] Instance Candidate_countable : Countable Candidate.
Proof.
  apply (inj_countable' (fun c => (match kind c with ServerReflexive => 0 | RelayKind => 1 | Predicted => 2 | Host => 3 end, addr c))
    (fun x => mk_candidate (if x.1 =? 0 then ServerReflexive else if x.1 =? 1 then RelayKind else if x.1 =? 2 then Predicted else Host) x.2)).
  by intros [[]].
Defined.

Abbreviation row := (nat * (list Z * list Z * list Z) * Z * list Candidate * option NodeId * string)%type.
Definition to_row (m : SignalMessage) : row :=
  match m with
  | Register n k l sg => (0%nat, (n, k, sg), 0, l, None, EmptyString)
  | Registered => (1%nat, ([], [], []), 0, [], None, EmptyString)
  | Lookup n => (2%nat, (n, [], []), 0, [], None, EmptyString)
  | PeerCandidates n l t => (3%nat, (n, t, []), 0, l, None, EmptyString)
  | PeerPending n => (4%nat, (n, [], []), 0, [], None, EmptyString)
  | Ping => (5%nat, ([], [], []), 0, [], None, EmptyString)
  | Pong => (6%nat, ([], [], []), 0, [], None, EmptyString)
  | SError tag => (7%nat, ([], [], []), 0, [], None, tag)
  | RegisterHello v n k => (8%nat, (n, k, []), v, [], None, EmptyString)
  | RegisterChallenge v ch => (9%nat, (ch, [], []), v, [], None, EmptyString)
  | RegisteredShort id => (10%nat, ([], [], []), id, [], None, EmptyString)
  | LookupShort id => (11%nat, ([], [], []), id, [], None, EmptyString)
  | ShortResolved id n => (12%nat, ([], [], []), id, [], n, EmptyString)
  end.
Definition of_row (r : row) : SignalMessage :=
  let '(tag, (x, y, z), v, l, n, text) := r in
  match tag with
  | 0%nat => Register x y l z
  | 1%nat => Registered
  | 2%nat => Lookup x
  | 3%nat => PeerCandidates x l y
  | 4%nat => PeerPending x
  | 5%nat => Ping
  | 6%nat => Pong
  | 7%nat => SError text
  | 8%nat => RegisterHello v x y
  | 9%nat => RegisterChallenge v x
  | 10%nat => RegisteredShort v
  | 11%nat => LookupShort v
  | _ => ShortResolved v n
  end.
#[global] Instance SignalMessage_countable : Countable SignalMessage.
Proof. apply (inj_countable' to_row of_row). by intros []. Defined.

Import Hexadecimal.
#[local] Instance example_blake3 : Blake3 := fun bs => take 32 (bs ++ repeat 0 32).
#[local] Instance example_ed : Ed25519 := Identity.example_ed25519.
#[local] Instance example_ed_laws : Ed25519Laws := Identity.example_ed25519_laws.
#[local] Instance example_candidates : Postcard (list Candidate) := Concrete.postcard (list Candidate).
#[local] Instance example_messages : Postcard SignalMessage := Concrete.postcard SignalMessage.
#[local] Instance example_messages_laws : PostcardLaws SignalMessage := Concrete.postcard_laws SignalMessage.

Definition example_draws : Drawn := mk_drawn 0 0 (repeat 9 32) [].
Definition example_identity : Identity.Identity := Identity.mk_identity [5].
Definition example_candidate : Candidate := mk_candidate Host (Addr.V4 7 4000).
Definition example_server : Server :=
  accept (Addr.IpV4 1) 0 (initial default_config None (ShortId.mk_connection ShortId.initial ShortId.initial [] ∅)).
Definition example_payload : list Z :=
  match register_payload (repeat 9 32) (Identity.node_id example_identity) (Identity.public_key_bytes example_identity)
          [example_candidate] with Ok bs => bs | _ => [] end.

Lemma honest_registration_witness : exists s' k', conns s' !! 1 = Some k' /\
  active k' = Some (mk_active 3 (Identity.node_id example_identity) 1) /\
  (register_session example_identity [example_candidate] 3 (Link.mk_link (map Link.Got (queue k')) [] [])).1 = Ok (Some 100000000).
Proof.
  destruct (honest_registration example_identity [example_candidate] 3 example_draws example_draws 0 0 100000000 1
    (new_conn (Addr.IpV4 1) 0) example_server example_payload
    (Concrete.bits_of (countable.encode (RegisterHello 3 (Identity.node_id example_identity) (Identity.public_key_bytes example_identity))))
    (Concrete.bits_of (countable.encode (Register (Identity.node_id example_identity) (Identity.public_key_bytes example_identity)
       [example_candidate] (Identity.sign example_identity example_payload))))) as (k' & Hk & Ha & _ & Hr).
  - right. reflexivity.
  - split.
    + reflexivity.
    + repeat split.
    + split; [reflexivity|]. vm_compute. discriminate.
    + vm_compute. discriminate.
    + vm_compute. discriminate.
    + right. vm_compute. reflexivity.
    + vm_compute. reflexivity.
    + exact ShortId.initial_ok.
    + vm_compute. reflexivity.
  - vm_compute. reflexivity.
  - reflexivity.
  - reflexivity.
  - eexists. exists k'. split; [exact Hk|]. split; [exact Ha|]. exact (f_equal fst Hr).
Defined.

End SignalClient.
