(* ===== verification/Registration.v ===== *)
(** * Registration under interference (src/discovery/signal.rs)

    What one connection is told while everything else goes on, and what the client of
    SignalClient.v makes of it. *)
From Stdlib Require Import ZArith Lia.
From stdpp Require Import countable prelude gmap strings.
From S2P Require Import Prelude Postcard Manifest Message State Link Identity Addr Relay Hexadecimal ShortId Signal SignalProof SignalClient.

#[local] Open Scope Z_scope.

Module Registration.
Import Signal SignalProof SignalClient.

Section Dialogue.
Context `{Blake3} {ed : Ed25519} `{Hex} `{HexDecode} `{Postcard (list Candidate)} `{Postcard SignalMessage}.

Definition known (version : Z) : Prop := version = SIGNAL_PROTOCOL_VERSION \/ version = SHORT_ID_PROTOCOL_VERSION.

(** The challenge, then nothing but offers. *)
Definition challenged (version : Z) (ch : list Z) (early told : list SignalMessage) : Prop :=
  known version /\ Forall (fun m => is_offer m = true) early /\ told = RegisterChallenge version ch :: early.

(** What a handler that is still there has said, by the point it is at; [owned] are
    the numbers that were given out. *)
Definition dialogue (owned : list (list Z * Z)) (k : Conn) : Prop :=
  match stage k, active k with
  | Ended, _ => True
  | Reading, None => match pending k with Some p => challenged (p_version p) (p_challenge p) [] (log k) | None => log k = [] end
  | Allocating p _, None => challenged (p_version p) (p_challenge p) [] (log k)
  | _, None | Allocating _ _, _ => False
  | Announcing id _ _, Some a =>
      (Identity.id_to_hex (a_node a), id) ∈ owned /\ exists ch early, challenged (a_version a) ch early (log k)
  | _, Some a => exists ch early id later told, challenged (a_version a) ch early told /\
      (Identity.id_to_hex (a_node a), id) ∈ owned /\ log k = told ++ welcome (a_version a) id :: later
  end.

Definition owned (s : Server) : list (list Z * Z) := ShortId.assigned (ShortId.committed (short_ids s)).

Record talks (s : Server) : Prop := {
  tk_tables : ShortId.tables_ok (ShortId.committed (short_ids s));
  tk_conn : forall c k, conns s !! c = Some k -> dialogue (owned s) k;
}.

Lemma dialogue_mono l l' k : l ⊆ l' -> dialogue l k -> dialogue l' k.
Proof. unfold dialogue. intros Hl. destruct (stage k), (active k); naive_solver. Qed.

(** Connections change one by one. *)
Lemma talks_change s s' : talks s -> ShortId.tables_ok (ShortId.committed (short_ids s')) -> owned s ⊆ owned s' ->
  (forall c k', conns s' !! c = Some k' -> stage k' = Ended \/
     exists k, conns s !! c = Some k /\ (dialogue (owned s') k -> dialogue (owned s') k')) -> talks s'.
Proof.
  intros [T C] Ht Ho Hc. split; [done|]. intros c k' Hk'. destruct (Hc c k' Hk') as [He|(k & Hk & Hd)].
  - unfold dialogue. by rewrite He.
  - by eapply Hd, dialogue_mono, C.
Qed.

Lemma talks_same s s' : talks s -> ShortId.committed (short_ids s') = ShortId.committed (short_ids s) ->
  (forall c k', conns s' !! c = Some k' -> stage k' = Ended \/
     exists k, conns s !! c = Some k /\ (dialogue (owned s) k -> dialogue (owned s) k')) -> talks s'.
Proof.
  intros Ht E Hc. assert (owned s' = owned s) as Eo by (unfold owned; by rewrite E).
  apply (talks_change s); [done|rewrite E; apply Ht|by rewrite Eo|by rewrite Eo].
Qed.

Lemma talks_registry r s : talks s -> talks (set_registry r s).
Proof. intros []. by split. Qed.

Lemma talks_alter f c s : talks s -> (forall k, conns s !! c = Some k -> dialogue (owned s) k -> dialogue (owned s) (f k)) ->
  talks (alter_conn f c s).
Proof.
  intros Ht Hf. apply (talks_same s); [done..|]. intros c' k'. rewrite lookup_alter_conn.
  destruct (decide (c = c')) as [<-|]; [|by eauto]. destruct (conns s !! c) as [k|] eqn:Ek; [|done]. cbn.
  intros [= <-]. right. exists k. auto.
Qed.

(** [f] keeps what is said and where the handler is. *)
Lemma talks_alter_same f c s : talks s -> (forall k, log (f k) = log k /\ stage (f k) = stage k /\ active (f k) = active k /\ pending (f k) = pending k) ->
  talks (alter_conn f c s).
Proof. intros Ht Hf. apply talks_alter; [done|]. intros k _. destruct (Hf k) as (El & Es & Ea & Ep). unfold dialogue. by rewrite El, Es, Ea, Ep. Qed.

(** ** Leaving *)

Lemma disconnect_left c s : ShortId.committed (short_ids (disconnect c s)) = ShortId.committed (short_ids s) /\
  forall c' k', conns (disconnect c s) !! c' = Some k' -> stage k' = Ended \/ c' <> c /\ conns s !! c' = Some k'.
Proof.
  unfold disconnect. destruct (conns s !! c) as [k|] eqn:Ek.
  - split; [by destruct (active k)|]. intros c' k'. rewrite lookup_alter_conn.
    assert (conns (match active k with Some a => set_registry (unregister (a_node a) (a_connection a) (registry s)) s | None => s end) = conns s)
      as -> by (by destruct (active k)).
    destruct (decide (c = c')) as [<-|]; [|auto]. rewrite Ek. intros [= <-]. by left.
  - split; [done|]. intros c' k' Hk. right. split; [congruence|done].
Qed.

Lemma talks_disconnect c s : talks s -> talks (disconnect c s).
Proof.
  intros Ht. destruct (disconnect_left c s) as [E Hl]. apply (talks_same s); [done..|]. intros c' k' [|[_ ?]]%Hl; eauto.
Qed.

Lemma talks_fail tag c s : talks s -> talks (fail tag c s).
Proof.
  intros Ht. unfold fail. destruct (disconnect_left c (reject tag c s)) as [E Hl].
  assert (short_ids (reject tag c s) = short_ids s) as Er by (unfold reject; by destruct (has_room c s)). rewrite Er in E.
  apply (talks_same s); [done..|]. intros c' k' [|[Hne Hk]]%Hl; [by left|]. right. exists k'. split; [|done].
  revert Hk. unfold reject, enqueue. destruct (has_room c s); [|done]. by rewrite lookup_alter_conn, decide_False.
Qed.

(** ** Saying more *)

(** The handler is past its answer to the registration. *)
Definition settled (k : Conn) : Prop :=
  is_Some (active k) /\ match stage k with Reading | Pairing _ | TakingShort _ | Resolving _ | Ended => True | _ => False end.

Lemma dialogue_settled l k k' : settled k -> settled k' -> active k' = active k -> (exists more, log k' = log k ++ more) ->
  (stage k = Ended -> stage k' = Ended) -> dialogue l k -> dialogue l k'.
Proof.
  unfold settled, dialogue. intros [[a Ea] Hs] [_ Hs'] -> [more E] He. rewrite Ea.
  assert ((exists ch early id later told, challenged (a_version a) ch early told /\ (Identity.id_to_hex (a_node a), id) ∈ l /\
      log k = told ++ welcome (a_version a) id :: later) ->
    exists ch early id later told, challenged (a_version a) ch early told /\ (Identity.id_to_hex (a_node a), id) ∈ l /\
      log k' = told ++ welcome (a_version a) id :: later) as Hm.
  { intros (ch & early & id & later & told & Hc & Hi & El). exists ch, early, id, (later ++ more), told.
    split; [done|]. split; [done|]. by rewrite E, El, <- app_assoc. }
  destruct (stage k), (stage k'); naive_solver.
Qed.

Lemma talks_settled f c s : talks s -> (forall k, conns s !! c = Some k -> settled k /\ settled (f k) /\ active (f k) = active k /\
    (exists more, log (f k) = log k ++ more) /\ (stage k = Ended -> stage (f k) = Ended)) -> talks (alter_conn f c s).
Proof.
  intros Ht Hf. apply talks_alter; [done|]. intros k Hk. destruct (Hf k Hk) as (? & ? & ? & ? & ?). by apply dialogue_settled.
Qed.

Lemma log_queue k m : log (with_queue (queue k ++ [m]) k) = log k ++ [m].
Proof. unfold log. cbn. by rewrite app_assoc. Qed.

Lemma talks_answer m c s : talks s -> (forall k, conns s !! c = Some k -> settled k) -> talks (answer m c s).
Proof.
  intros Ht Hk. unfold answer, send_or_close. destruct (has_room c s); [|by apply talks_disconnect].
  apply talks_settled; [done|]. intros k Ek. specialize (Hk k Ek). rewrite log_queue. eauto 6.
Qed.

(** An offer fits wherever a registered connection is. *)
Lemma talks_offer m c s n : talks s -> online s c n -> is_offer m = true -> talks (enqueue m c s).
Proof.
  intros Ht (k0 & a & Hk0 & Hg & Ha & _) Hm. apply talks_alter; [done|]. intros k Hk.
  assert (k = k0) as -> by congruence. intros Hd. unfold dialogue in *. cbn [stage active with_queue]. rewrite log_queue.
  rewrite Ha in *. unfold gone in Hg.
  assert (forall told, (exists ch early, challenged (a_version a) ch early told) -> exists ch early, challenged (a_version a) ch early (told ++ [m])) as Hc.
  { intros told (ch & early & Hv & Hf & ->). exists ch, (early ++ [m]). split; [done|]. split; [|done].
    apply Forall_app. split; [done|by apply Forall_singleton]. }
  destruct (stage k0); try done; try (by destruct Hd as (? & ?); auto);
    destruct Hd as (ch & early & id & later & told & ? & ? & ->); exists ch, early, id, (later ++ [m]), told;
    (split; [done|]); (split; [done|]); by rewrite <- app_assoc.
Qed.

Lemma talks_pair es ps a b tok now later s : good es ps s -> talks s -> talks (try_pair a b tok now later s).
Proof.
  intros Hg Ht. unfold try_pair. destruct (peers (registry s) !! a) as [ra|] eqn:Ea; [|done].
  destruct (peers (registry s) !! b) as [rb|] eqn:Eb; [|done].
  destruct (negb _); [by apply talks_alter_same|]. destruct (negb _); [by apply talks_alter_same|]. cbv zeta.
  destruct (g_peers _ _ _ Hg a ra Ea) as [Oa _], (g_peers _ _ _ Hg b rb Eb) as [Ob _].
  apply (talks_offer _ _ _ b); [|by apply online_alter; [by intros k _; split|]|done].
  apply (talks_offer _ _ _ a); [by apply talks_registry|done|done].
Qed.
(** ** The handlers *)

Lemma talks_hello es ps version node key ch n c k s : good es ps s -> talks s -> conns s !! c = Some k -> stage k = Reading ->
  talks (on_hello version node key ch n c k s).
Proof.
  intros Hg Ht Hk Hs. unfold on_hello. destruct (_ || _) eqn:Eo; [by apply talks_fail|].
  apply orb_false_iff in Eo as [Ea Ep]. apply bool_decide_eq_false, eq_None_not_Some in Ea, Ep.
  destruct (negb _) eqn:Ev; [by apply talks_fail|]. apply negb_false_iff, bool_decide_eq_true in Ev.
  destruct (Identity.public_key_from_bytes key); try by apply talks_fail. destruct (negb _); [by apply talks_fail|].
  unfold send_or_close. destruct (has_room c s); cbn [negb]; [|by apply talks_disconnect].
  pose proof (tk_conn _ Ht c k Hk) as Hd. unfold dialogue in Hd. rewrite Hs, Ea, Ep in Hd.
  apply (talks_same s); [done..|]. intros c' k'. unfold enqueue. rewrite !lookup_alter_conn.
  destruct (decide (c = c')) as [<-|]; [|by eauto]. rewrite Hk. intros [= <-]. right. exists k. split; [done|]. intros _.
  unfold dialogue. cbn [stage active pending with_pending with_queue]. rewrite Hs, Ea. unfold challenged.
  unfold log in *. cbn. rewrite app_assoc, Hd. unfold known. set_solver.
Qed.

Lemma talks_register node key cands sg n c k s : talks s -> conns s !! c = Some k -> stage k = Reading ->
  talks (on_register node key cands sg n c k s).
Proof.
  intros Ht Hk Hs. unfold on_register. destruct (pending k) as [p|] eqn:Ep; [|by apply talks_fail]. cbv zeta.
  set (s1 := alter_conn (with_pending None) c s).
  assert (forall tag, talks (fail tag c s1)) as Hf.
  { intros tag. unfold fail. destruct (disconnect_left c (reject tag c s1)) as [E Hl].
    assert (short_ids (reject tag c s1) = short_ids s) as Er by (unfold reject; by destruct (has_room c s1)). rewrite Er in E.
    apply (talks_same s); [done..|]. intros c' k' [|[Hne Hc]]%Hl; [by left|]. right. exists k'. split; [|done].
    revert Hc. unfold reject, enqueue. destruct (has_room c s1); unfold s1; by rewrite !lookup_alter_conn, !decide_False by done. }
  case_bool_decide as Ea; [done|]. apply eq_None_not_Some in Ea.
  destruct (register_checks _ _ _ _ _ _ _) as [[]|e|]; try done. destruct (_ && _); [done|]. destruct (Z.leb_spec (max_pending_lookups (config s1)) (jobs s1)); [done|].
  apply (talks_same s); [done..|]. intros c' k'. unfold s1. rewrite !lookup_alter_conn. cbn [conns set_short_ids]. rewrite lookup_alter_conn.
  destruct (decide (c = c')) as [<-|]; [|by eauto]. rewrite Hk. intros [= <-]. right. exists k. split; [done|].
  unfold dialogue. cbn [stage active with_stage with_pending]. rewrite Hs, Ea, Ep. done.
Qed.

Lemma talks_allocated n clock c k s : talks s -> conns s !! c = Some k -> talks (on_allocated n clock c k s).
Proof.
  intros Ht Hk. unfold on_allocated. destruct (stage k) as [|p cands| | | | |] eqn:Es; try done.
  pose proof (ShortId.wp_register (p_node p)
    (ShortId.mk_limits (max_short_id_mappings (config s)) (short_id_allocations_per_minute (config s))) _ clock (short_ids s) (tk_tables _ Ht)
    (source_no_panic (remote_ip k) (short_id_allocations_per_ip_per_minute (config s)) n)) as Hw. unfold wp in Hw.
  destruct (ShortId.register_with_limits _ _ _ _ _) as [r d]. cbv zeta.
  assert (ShortId.tables_ok (ShortId.committed d) /\ owned s ⊆ ShortId.assigned (ShortId.committed d)) as [Htab Hsub].
  { destruct r as [id|e|]; [|by rewrite Hw; destruct Ht|done]. destruct Hw as (? & _ & _ & [(_ & E & _)|(_ & _ & E & _)]); split; try done;
      unfold owned; rewrite E; set_solver. }
  assert (talks (set_short_ids d (jobs s - 1) s)) as Ht1 by (apply (talks_change s); eauto).
  destruct r as [id|e|]; try by apply talks_fail. destruct (_ && _); [by apply talks_fail|].
  destruct (take_waiters_for _ _) as [live r']. destruct Hw as (_ & _ & Hin & _).
  apply (talks_change (set_short_ids d (jobs s - 1) s)); [done..|]. intros c' k'. rewrite lookup_alter_conn. cbn [conns set_registry set_short_ids].
  destruct (decide (c = c')) as [<-|]; [|by eauto]. rewrite Hk. intros [= <-]. right. exists k. split; [done|].
  unfold dialogue. cbn [stage active with_stage with_active a_node a_version]. rewrite Es. destruct (active k); [done|].
  intros Hc. split; [exact Hin|]. by exists (p_challenge p), [].
Qed.

Lemma talks_announce c k s : talks s -> conns s !! c = Some k -> talks (on_announce c k s).
Proof.
  intros Ht Hk. unfold on_announce. destruct (stage k) as [| |short replaced live| | | |] eqn:Es; try done.
  destruct (active k) as [a|] eqn:Ea; [|done]. cbv zeta. fold (welcome (a_version a) short). unfold send_or_close.
  destruct (has_room c s); cbn [negb]; [|by apply talks_disconnect].
  apply (talks_same s); [done|by destruct replaced|]. intros c' k'. rewrite lookup_alter_conn.
  assert (forall k0, conns (match replaced with Some old => signal_close old (enqueue (welcome (a_version a) short) c s) | None => enqueue (welcome (a_version a) short) c s end) !! c' = Some k0 ->
    exists k1, conns s !! c' = Some k1 /\ stage k0 = stage k1 /\ active k0 = active k1 /\ pending k0 = pending k1 /\
      log k0 = if decide (c = c') then log k1 ++ [welcome (a_version a) short] else log k1) as Hq.
  { intros k0. destruct replaced as [old|]; unfold signal_close, enqueue; rewrite ?lookup_alter_conn;
      [destruct (decide (old = c'))|]; destruct (decide (c = c')); destruct (conns s !! c') as [k1|]; try done; intros [= <-];
      exists k1; rewrite <- ?log_queue; done. }
  destruct (decide (c = c')) as [<-|].
  - intros (k0 & E0 & ->)%fmap_Some. destruct (Hq k0 E0) as (k1 & Hk1 & _ & Ea1 & _ & El).
    assert (k1 = k) as -> by congruence. right. exists k. split; [done|]. unfold dialogue. cbn [stage active with_stage].
    rewrite Es, Ea1, Ea. intros (Hin & ch & early & Hc). exists ch, early, short, [], (log k). done.
  - intros (k1 & Hk1 & Es1 & Ea1 & Ep1 & El)%Hq. right. exists k1. split; [done|]. unfold dialogue. by rewrite Es1, Ea1, Ep1, El.
Qed.

(** A handler in one of the later stages is registered. *)
Lemma settled_stage l k : dialogue l k ->
  match stage k with Pairing _ | TakingShort _ | Resolving _ => settled k | _ => True end.
Proof. unfold dialogue, settled. destruct (stage k), (active k); naive_solver. Qed.

Lemma talks_pair_next es ps tok n l c k s : good es ps s -> talks s -> conns s !! c = Some k -> talks (on_pair_next tok n l c k s).
Proof.
  intros Hg Ht Hk. unfold on_pair_next. pose proof (settled_stage _ _ (tk_conn _ Ht c k Hk)) as Hs.
  destruct (stage k) as [| | |live| | |] eqn:Es; try done. destruct live as [|w live].
  { apply talks_settled; [done|]. intros k0 Hk0. assert (k0 = k) as -> by congruence. destruct Hs as [? _].
    rewrite Es. split; [by split; [|rewrite Es]|]. split; [by split|]. split; [done|]. split; [|done]. exists []. by rewrite app_nil_r. }
  destruct (active k) as [a|] eqn:Ea; [|done]. apply talks_alter; [by eapply talks_pair|]. intros k' Hk'.
  destruct (shape_pair _ _ _ _ _ _ c k' Hk') as (k0 & Hk0 & E1 & E2). assert (k0 = k) as -> by congruence.
  unfold dialogue. cbn [stage active with_stage]. by rewrite E2, Es.
Qed.

Lemma talks_lookup_short short c k s : talks s -> conns s !! c = Some k -> stage k = Reading -> talks (on_lookup_short short c k s).
Proof.
  intros Ht Hk Hs. unfold on_lookup_short. destruct (active k) as [a|] eqn:Ea; [|by apply talks_fail]. destruct (_ || _); [by apply talks_fail|].
  apply talks_settled; [done|]. intros k0 Hk0. assert (k0 = k) as -> by congruence.
  unfold settled. cbn [stage active with_stage]. rewrite Hs, Ea. split; [by split; [by eexists|]|]. split; [by split; [by eexists|]|]. split; [done|].
  split; [|done]. exists []. by rewrite app_nil_r.
Qed.

Lemma talks_resolved short node c k s : talks s -> (forall k0, conns s !! c = Some k0 -> settled k0 /\ stage k0 <> Ended) ->
  talks (resolved short node c k s).
Proof.
  intros Ht Hs. unfold resolved. cbv zeta. set (f := fun k : Conn => with_stage Reading _).
  assert (forall k0, settled k0 -> settled (f k0)) as Hf by (by intros k0 [? _]).
  apply talks_answer.
  - apply talks_alter; [done|]. intros k0 Hk0. destruct (Hs k0 Hk0) as [Hs0 He].
    apply dialogue_settled; try done; [by apply Hf|exists []; by rewrite app_nil_r].
  - intros k0. rewrite lookup_alter_conn, decide_True by done. destruct (conns s !! c) as [k1|] eqn:E; [|done]. intros [= <-]. by apply Hf, (Hs k1).
Qed.

(** Taking from a budget touches no connection. *)
Lemma talks_budget (ok : bool) (p : bool * Registry) s : talks s ->
  let s' := (if ok then let (ok', r) := p in (ok', set_registry r s) else (false, s)).2 in talks s' /\ conns s' = conns s.
Proof. intros Ht. destruct ok, p; [split; [by apply talks_registry|done]|done..]. Qed.

Lemma talks_take_short n c k s : talks s -> conns s !! c = Some k -> talks (on_take_short n c k s).
Proof.
  intros Ht Hk. unfold on_take_short. pose proof (settled_stage _ _ (tk_conn _ Ht c k Hk)) as Hs.
  destruct (stage k) as [| | | |short| |] eqn:Es; try done. destruct (take_short _ _ _ _) as [ok w]. cbv zeta.
  set (s1 := alter_conn _ c s). assert (talks s1) as Ht1 by (by apply talks_alter_same).
  assert (forall k0, conns s1 !! c = Some k0 -> k0 = with_windows w (node_window k) k) as Hc1.
  { intros k0. unfold s1. rewrite lookup_alter_conn, decide_True, Hk by done. by intros [= <-]. }
  match goal with |- context [if ok then let (_, _) := ?p in _ else _] => pose proof (talks_budget ok p s1 Ht1) as [Ht2 Ec2] end.
  destruct (if ok then _ else _) as [allowed s2]. cbn [snd] in *.
  assert (forall k0, conns s2 !! c = Some k0 -> settled k0 /\ stage k0 = TakingShort short) as Hc2.
  { rewrite Ec2. intros k0 ->%Hc1. unfold settled in *. cbn. by rewrite Es in *. }
  destruct (_ && _ && _); [|apply talks_resolved; [done|]; intros k0 Hk0; destruct (Hc2 k0 Hk0) as [? E]; by rewrite E].
  apply talks_settled; [by apply (talks_same s2); eauto|]. intros k0 Hk0. destruct (Hc2 k0 Hk0) as [Hs0 E].
  split; [done|]. split; [by destruct Hs0|]. split; [done|]. split; [|by rewrite E]. exists []. by rewrite app_nil_r.
Qed.

Lemma talks_on_resolved c k s : talks s -> conns s !! c = Some k -> talks (on_resolved c k s).
Proof.
  intros Ht Hk. unfold on_resolved. pose proof (settled_stage _ _ (tk_conn _ Ht c k Hk)) as Hs.
  destruct (stage k) as [| | | | |short|] eqn:Es; try done.
  assert (ShortId.committed (ShortId.lookup short (short_ids s)).2 = ShortId.committed (short_ids s)) as E.
  { unfold ShortId.lookup, ShortId.sql, sbind, liftr. by destruct (hd false _). }
  destruct (ShortId.lookup _ _) as [r d]. cbv zeta. apply talks_resolved; [by apply (talks_same s); eauto|].
  intros k0 Hk0. assert (k0 = k) as -> by (cbn in Hk0; congruence). by rewrite Es.
Qed.

Lemma talks_lookup es ps target tok n l c k s : good es ps s -> talks s -> conns s !! c = Some k -> stage k = Reading ->
  talks (on_lookup target tok n l c k s).
Proof.
  intros Hg Ht Hk Hs. unfold on_lookup. destruct (active k) as [a|] eqn:Ea; [|by apply talks_fail]. destruct (negb _); [by apply talks_fail|].
  destruct (take_in_window _ _ _ _ _) as [ok w]. cbv zeta. set (s1 := alter_conn _ c s).
  assert (talks s1) as Ht1 by (by apply talks_alter_same).
  assert (good es ps s1) as Hg1 by (apply good_windows; [eauto|done]).
  assert (good es ps (if ok then let (ok', r) := take_node_lookup (remote_ip k) n (config s1) (registry s1) in (ok', set_registry r s1) else (false, s1)).2) as Hg2.
  { destruct ok; [|done]. destruct (take_node_lookup _ _ _ _) as [ok' r] eqn:Et.
    destruct (take_node_ok _ _ _ _ _ _ (g_registry _ _ _ Hg1) Et). by apply good_registry. }
  match goal with |- context [if ok then let (_, _) := ?p in _ else _] => pose proof (talks_budget ok p s1 Ht1) as [Ht2 Ec2] end.
  destruct (if ok then _ else _) as [allowed s2]. cbn [snd] in *.
  assert (forall m r, talks (answer m c (set_registry r s2))) as Hr.
  { intros m r. apply talks_answer; [by apply talks_registry|]. cbn [conns set_registry]. rewrite Ec2. unfold s1.
    rewrite lookup_alter_conn, decide_True, Hk by done. intros k0 [= <-]. unfold settled. cbn. rewrite Ea, Hs. by split; [eexists|]. }
  assert (forall m, talks (answer m c s2)) as Ha by (intros m; replace s2 with (set_registry (registry s2) s2) by (by destruct s2); apply Hr).
  destruct (negb allowed); [done|]. case_bool_decide; [done|]. case_bool_decide; [by eapply talks_pair|].
  case_bool_decide; [done|]. destruct (_ <=? _); [done|]. destruct (_ <=? _); done.
Qed.

Lemma talks_message es ps m d c k s : good es ps s -> talks s -> conns s !! c = Some k -> stage k = Reading -> talks (on_message m d c k s).
Proof.
  intros Hg Ht Hk Hs. destruct m; cbn [on_message]; try by apply talks_fail.
  - by apply talks_register.
  - by eapply talks_lookup.
  - unfold on_ping. case_bool_decide as Ea; [by apply talks_fail|]. apply talks_answer; [done|]. intros k0 Hk0.
    assert (k0 = k) as -> by congruence. unfold settled. rewrite Hs. split; [by apply not_eq_None_Some|done].
  - by eapply talks_hello.
  - by apply talks_lookup_short.
Qed.

Lemma talks_step es ps e s : good es ps s -> talks s -> talks (step e s).
Proof.
  intros Hg Ht. destruct e as [ip n|c payload d|c n clock|c|c tk n l|c n|c|c|c|c|c]; cbn [step]; cbv zeta;
    try (destruct (conns s !! c) as [k|] eqn:Ek; [|done]).
  - split; [apply Ht|]. intros c k. cbn [conns accept]. intros [[<- <-]|[_ Hk]]%lookup_insert_Some; [done|by apply (tk_conn _ Ht c)].
  - destruct (negb (reading k) || close k) eqn:E; [done|]. apply orb_false_iff in E as [E _]. apply negb_false_iff in E.
    assert (stage k = Reading) by (unfold reading in E; by destruct (stage k)).
    destruct (from_bytes payload); [by eapply talks_message|by apply talks_fail..].
  - by apply talks_allocated.
  - by apply talks_announce.
  - by eapply talks_pair_next.
  - by apply talks_take_short.
  - by apply talks_on_resolved.
  - destruct (_ && _); [by apply talks_disconnect|done].
  - destruct (reading k); [by apply talks_disconnect|done].
  - apply talks_alter_same; [done|]. intros k. unfold write_next. destruct (queue k) as [|m q] eqn:Eq; [done|].
    destruct (writer k); [|done]. split; [|done]. unfold log. cbn. by rewrite Eq, <- app_assoc.
  - by apply talks_alter_same.
Qed.

Lemma talks_run cfg relay ids es : limits cfg -> Z.of_nat (length es) < U64_MAX -> ShortId.tables_ok (ShortId.committed ids) ->
  talks (run es (initial cfg relay ids)).
Proof.
  intros Hl Hlen Hids. induction es as [|e es IH] using rev_ind; [by split|].
  rewrite length_app in Hlen. cbn in Hlen. rewrite run_app.
  destruct (good_run cfg relay ids es Hl ltac:(lia)) as (_ & _ & ps & Hg). eapply talks_step; [exact Hg|]. apply IH. lia.
Qed.

(** ** The client's side *)

(** What the device has sent when the registration is over. *)
Definition introduced (i : Identity.Identity) (cands : list Candidate) (version : Z) (payload : list Z) : list SignalMessage :=
  [RegisterHello version (Identity.node_id i) (Identity.public_key_bytes i);
   Register (Identity.node_id i) (Identity.public_key_bytes i) cands (Identity.sign i payload)].

(** What a client makes of an answer that is preceded by offers. *)
Lemma client_outcome i cands version ch early id later told payload : challenged version ch early told -> ShortId.new id = Ok id ->
  register_payload ch (Identity.node_id i) (Identity.public_key_bytes i) cands = Ok payload ->
  register_session i cands version (Link.mk_link (map Link.Got (told ++ welcome version id :: later)) [] []) =
    match early with
    | [] => (Ok (number version id), Link.mk_link (map Link.Got later) [] (introduced i cands version payload))
    | _ :: rest => (Err (Discovery "unexpected"),
        Link.mk_link (map Link.Got (rest ++ welcome version id :: later)) [] (introduced i cands version payload))
    end.
Proof.
  intros (Hv & Hf & ->) Hid Hp. unfold register_session, sbind, recv, Link.recv_msg, Link.send_msg. cbn [Link.inbox Link.fates Link.sent map tail app].
  unfold await_challenge, liftr. rewrite Z.eqb_refl, Hp. cbn [Link.inbox Link.fates Link.sent map tail app].
  destruct early as [|m rest]; cbn [Link.inbox Link.fates Link.sent map tail app].
  - unfold await_registered, welcome, number. destruct Hv as [-> | ->]; cbn; [done|]. by rewrite Hid.
  - apply Forall_cons in Hf as [Hm _]. destruct m; done.
Qed.

(** C24: What a device learns of its registration, whatever else the server does
    meanwhile. A connection that is not registered was told nothing but at most one
    challenge. A registered one was told a challenge of its protocol version, then the
    offers of those who asked for the device before it had its answer, then, once the
    answer is due, its own number in the database, and whatever came after. So a client
    that reads this succeeds with that number, having sent its two messages and leaving
    all that came after, exactly when nobody was faster than the answer; otherwise it
    gives up at the first offer. *)
Theorem registration_outcome cfg relay ids es c k : limits cfg -> Z.of_nat (length es) < U64_MAX ->
  ShortId.tables_ok (ShortId.committed ids) ->
  let s := run es (initial cfg relay ids) in
  conns s !! c = Some k -> stage k <> Ended ->
  match active k with
  | None => log k = [] \/ exists version ch, log k = [RegisterChallenge version ch]
  | Some a => exists ch early, Forall (fun m => is_offer m = true) early /\
      ((exists id replaced live, stage k = Announcing id replaced live /\ log k = RegisterChallenge (a_version a) ch :: early) \/
       exists id later, log k = RegisterChallenge (a_version a) ch :: early ++ welcome (a_version a) id :: later /\
         (Identity.id_to_hex (a_node a), id) ∈ owned s /\
         forall i cands payload, register_payload ch (Identity.node_id i) (Identity.public_key_bytes i) cands = Ok payload ->
           register_session i cands (a_version a) (Link.mk_link (map Link.Got (log k)) [] []) =
             match early with
             | [] => (Ok (number (a_version a) id), Link.mk_link (map Link.Got later) [] (introduced i cands (a_version a) payload))
             | _ :: rest => (Err (Discovery "unexpected"),
                 Link.mk_link (map Link.Got (rest ++ welcome (a_version a) id :: later)) [] (introduced i cands (a_version a) payload))
             end)
  end.
Proof.
  intros Hl Hlen Hids s Hk Hs. destruct (talks_run cfg relay ids es Hl Hlen Hids) as [Htab Hc].
  specialize (Hc c k Hk). fold s in Htab, Hc. unfold dialogue in Hc. destruct (active k) as [a|].
  - assert (forall ch early id later told, challenged (a_version a) ch early told -> (Identity.id_to_hex (a_node a), id) ∈ owned s ->
      log k = told ++ welcome (a_version a) id :: later -> Forall (fun m => is_offer m = true) early /\
      log k = RegisterChallenge (a_version a) ch :: early ++ welcome (a_version a) id :: later /\ ShortId.new id = Ok id) as Hx.
    { intros ch early id later told (Hv & Hf & ->) Hin ->. split; [done|]. split; [done|].
      apply ShortId.new_ok. pose proof (ShortId.assigned_range _ _ _ Htab Hin). pose proof (ShortId.to_next _ Htab). lia. }
    destruct (stage k) as [|p cands|id replaced live|live|short|short|] eqn:Es; try done.
    2: { destruct Hc as (_ & ch & early & _ & Hf & E). exists ch, early. split; [done|]. left. by exists id, replaced, live. }
    all: destruct Hc as (ch & early & id & later & told & Ht & Hin & E); destruct (Hx _ _ _ _ _ Ht Hin E) as (Hf & E' & Hn);
      exists ch, early; (split; [done|]); right; exists id, later; (split; [done|]); (split; [done|]);
      intros i cands payload Hp; rewrite E; by apply (client_outcome _ _ _ ch early).
  - destruct (stage k); try done.
    + destruct (pending k) as [p|]; [right; destruct Hc as (_ & _ & ->); eauto|by left].
    + right. destruct Hc as (_ & _ & ->). eauto.
Qed.
End Dialogue.

(** ** Two devices *)

Import Hexadecimal.
#[local] Existing Instances SignalClient.example_blake3 SignalClient.example_ed SignalClient.example_ed_laws
  SignalClient.example_candidates SignalClient.example_messages SignalClient.example_messages_laws.

Definition bytes_of (m : SignalMessage) : list Z := match to_allocvec m with Ok bs => bs | _ => [] end.
Definition device : Identity.Identity := Identity.mk_identity [5].
Definition asker : Identity.Identity := Identity.mk_identity [6].
Definition payload_of (i : Identity.Identity) : list Z :=
  match register_payload (challenge example_draws) (Identity.node_id i) (Identity.public_key_bytes i) [example_candidate] with Ok bs => bs | _ => [] end.

(** A registration on connection [c], in whose middle something happens. *)
Definition registers (i : Identity.Identity) (c : Z) (meanwhile : list Event) : list Event :=
  map (fun m => Frame c (bytes_of m) example_draws) (introduced i [example_candidate] SHORT_ID_PROTOCOL_VERSION (payload_of i)) ++
  [Allocated c 0 0] ++ meanwhile ++ [Announce c; PairNext c [] 0 0].
Definition scene (meanwhile : list Event) : list Event :=
  [Accept (Addr.IpV4 1) 0; Accept (Addr.IpV4 2) 0] ++ registers asker 2 [] ++ registers device 1 meanwhile.
Definition after (meanwhile : list Event) : Server :=
  run (scene meanwhile) (initial default_config None (ShortId.mk_connection ShortId.initial ShortId.initial [] ∅)).
Definition at_device (meanwhile : list Event) : Conn := default (new_conn (Addr.IpV4 0) 0) (conns (after meanwhile) !! 1).
(** What the device's client makes of what it is told. *)
Definition learned (meanwhile : list Event) : result (option Z) :=
  (register_session device [example_candidate] SHORT_ID_PROTOCOL_VERSION (Link.mk_link (map Link.Got (log (at_device meanwhile))) [] [])).1.
(** The other device asks for it. *)
Definition asked : list Event := [Frame 2 (bytes_of (Lookup (Identity.node_id device))) example_draws].

(** The race: asked for between the insertion of its record and its answer, the device
    is offered the asker first. Its client gives up, although the server has it in the
    table, as it would have had without the question. *)
Example registration_disturbed :
  learned asked = Err (Discovery "unexpected") /\ learned [] = Ok (Some 100000001) /\
  peers (registry (after asked)) !! Identity.node_id device = Some (mk_peer 1 [example_candidate]) /\ stage (at_device asked) = Reading.
Proof. split; [vm_compute; reflexivity|]. split; [vm_compute; reflexivity|]. split; vm_compute; reflexivity. Qed.

Lemma two_told {A} (x y a b : A) l : [x; y] = a :: [] ++ b :: l -> x = a /\ y = b.
Proof. by intros [= -> -> _]. Qed.

Lemma registration_outcome_witness : learned [] = Ok (Some 100000001) /\ exists m, log (at_device asked) !! 1%nat = Some m /\ is_offer m = true.
Proof.
  split.
  - pose proof (registration_outcome default_config None (ShortId.mk_connection ShortId.initial ShortId.initial [] ∅) (scene []) 1 (at_device [])
      SignalProof.Demo.limits_ok ltac:(vm_compute; reflexivity) ShortId.initial_ok ltac:(vm_compute; reflexivity) ltac:(vm_compute; discriminate)) as Ho.
    assert (active (at_device []) = Some (mk_active 3 (Identity.node_id device) 1)) as Ea by (vm_compute; reflexivity). cbv zeta in Ho. rewrite Ea in Ho.
    assert (stage (at_device []) = Reading) as Es by (vm_compute; reflexivity). rewrite Es in Ho.
    cbn beta iota in Ho. destruct Ho as (ch & early & _ & [(id & r & l & E & _)|(id & later & E & _ & Hr)]); [discriminate E|].
    destruct early as [|m early].
    + assert (log (at_device []) = [RegisterChallenge 3 (challenge example_draws); RegisteredShort 100000001]) as El by (vm_compute; reflexivity).
      destruct (two_told _ _ _ _ _ (eq_trans (eq_sym El) E)) as [Ech Eid]. injection Ech as <-. injection Eid as <-.
      assert (register_payload (challenge example_draws) (Identity.node_id device) (Identity.public_key_bytes device) [example_candidate] =
        Ok (payload_of device)) as Hp by (vm_compute; reflexivity).
      exact (f_equal fst (Hr device [example_candidate] (payload_of device) Hp)).
    + assert (length (log (at_device [])) = 2%nat) as El by (vm_compute; reflexivity).
      apply (f_equal (@length _)) in E. rewrite El in E. cbn [length app] in E. rewrite length_app in E. cbn [length] in E. lia.
  - eexists. split; vm_compute; reflexivity.
Defined.
End Registration.
