(* ===== verification/TaskModel.v ===== *)
(** * Durable task records (src/node/core/task_model.rs)

    Identifiers, the manifest identity, and the life of one task record: the
    state machine, its validation and every operation that changes it.  A method
    on [&mut self] is a [st TaskRecord TaskModelError unit]: what it changed
    before failing stays changed. *)
From Stdlib Require Import ZArith Lia.
From stdpp Require Import prelude gmap strings.
From S2P Require Import Prelude Utf8 Manifest Message RelativePath State Identity Hexadecimal TaskProtocol UnixPath.

#[local] Open Scope Z_scope.

Module TaskModel.
Import UnixPath.

Definition TASK_RECORD_SCHEMA_VERSION : Z := 1.

(** ** Errors and states *)

Inductive TaskState : Type :=
  | Scanning | Queued | Connecting | Negotiating | Transferring | Pausing | Paused
  | Finalizing | Completed | Interrupted | Failed.

#[global] Instance TaskState_eq_dec : EqDecision TaskState.
Proof. solve_decision. Defined.

Inductive TaskModelError : Type :=
  | InvalidTaskId
  | InvalidPeerId
  | InvalidManifestIdentity
  | RelativeLocalPath
  | DirectionPathMismatch
  | UnsupportedSchemaVersion (version : Z)
  | InvalidTimestamps
  | InvalidProgressHint
  | MissingFailureDiagnostic
  | NewTaskMustStartScanning
  | InvalidTransition (from to : TaskState)
  | WrongDirection
  | NotRecoverable
  | ImmutableBinding
  | ClockOutOfRange.

Definition is_terminal (s : TaskState) : bool :=
  match s with Completed | Failed => true | _ => false end.

Definition needs_startup_recovery (s : TaskState) : bool :=
  match s with
  | Scanning | Queued | Connecting | Negotiating | Transferring | Pausing | Finalizing => true
  | _ => false
  end.

Definition allows (s next : TaskState) (retryable_failure : bool) : bool :=
  match s, next with
  | Scanning, (Queued | Interrupted | Failed)
  | Queued, (Connecting | Pausing | Interrupted | Failed)
  | Connecting, (Negotiating | Pausing | Interrupted | Failed)
  | Negotiating, (Transferring | Pausing | Interrupted | Failed)
  | Transferring, (Pausing | Finalizing | Interrupted | Failed)
  | Pausing, (Paused | Finalizing | Interrupted | Failed)
  | Paused, (Queued | Interrupted | Failed)
  | Finalizing, (Completed | Interrupted | Failed)
  | Interrupted, (Queued | Failed) => true
  | Failed, Queued => retryable_failure
  | _, _ => false
  end.

(** ** Identifiers *)

Section Ids.
Context `{Hex} `{HexDecode}.

(** [hex::decode(text).map_or(true, |bytes| bytes.len() != n)]. *)
Definition not_hex_of (n : nat) (text : list Z) : bool :=
  match hex_decode text with
  | None => true
  | Some bytes => negb (length bytes =? n)%nat
  end.

(** [TaskId::generate], the random bytes given. *)
Definition generate_task_id (random : list Z) : list Z := hex_encode random.

Definition parse_task_id (value : list Z) : outcome TaskModelError (list Z) :=
  if negb (str_len value =? 32) || negb (forallb is_lower_hex (utf8 value)) || not_hex_of 16 value
  then Err InvalidTaskId
  else Ok value.

Definition from_node_id (node_id : NodeId) : list Z := Identity.id_to_hex node_id.

Definition parse_peer_id (value : list Z) : outcome TaskModelError (list Z) :=
  let? decoded := ok_or (hex_decode value) InvalidPeerId in
  if negb (length decoded =? 16)%nat || negb (str_len value =? 32) ||
     existsb (fun b => negb (is_lower_hex b)) (utf8 value)
  then Err InvalidPeerId
  else Ok value.

End Ids.

(** ** Manifest identity *)

(** [ManifestHashAlgorithm] has the one value Blake3V1. *)
Record ManifestIdentity : Type := mk_identity {
  root_hash : list Z;
  total_bytes : Z;
  chunk_size : Z;
  chunk_count : Z;
}.

#[global] Instance ManifestIdentity_eq_dec : EqDecision ManifestIdentity.
Proof. solve_decision. Defined.

Definition validate_identity `{HexDecode} (m : ManifestIdentity) : outcome TaskModelError unit :=
  fail_if (negb (str_len (root_hash m) =? 64) || negb (forallb is_lower_hex (utf8 (root_hash m))) ||
           not_hex_of 32 (root_hash m) || (chunk_size m =? 0) ||
           negb (chunk_count m =? div_ceil (total_bytes m) (chunk_size m)))
    InvalidManifestIdentity.

Definition blake3_identity `{Hex} `{HexDecode} (root : list Z) (total_bytes chunk_size : Z) :
    outcome TaskModelError ManifestIdentity :=
  let? _ := fail_if (chunk_size =? 0) InvalidManifestIdentity in
  let identity := mk_identity (hex_encode root) total_bytes chunk_size (div_ceil total_bytes chunk_size) in
  let? _ := validate_identity identity in
  Ok identity.

(** ** The record *)

Inductive TaskDirection : Type := Send | Receive.

#[global] Instance TaskDirection_eq_dec : EqDecision TaskDirection.
Proof. solve_decision. Defined.

Inductive LocalTaskPath : Type :=
  | Source (p : path)
  | ReceiveRoot (p : path).

Definition source (p : path) : outcome TaskModelError LocalTaskPath :=
  if is_absolute p then Ok (Source p) else Err RelativeLocalPath.

Definition receive_root (p : path) : outcome TaskModelError LocalTaskPath :=
  if is_absolute p then Ok (ReceiveRoot p) else Err RelativeLocalPath.

Definition path_of (l : LocalTaskPath) : path := match l with Source p | ReceiveRoot p => p end.

Definition is_sender_source (l : LocalTaskPath) : bool :=
  match l with Source _ => true | ReceiveRoot _ => false end.

(** [PartialEq] of [LocalTaskPath]. *)
Definition local_path_eq (a b : LocalTaskPath) : bool :=
  Bool.eqb (is_sender_source a) (is_sender_source b) && path_eq (path_of a) (path_of b).

Inductive TaskErrorCode : Type :=
  | SourceUnavailable | SourceChanged | PeerUnavailable | PeerBusy | PermissionDeniedCode | DiskFull
  | IntegrityMismatch | InvalidRemoteData | UnsupportedPeer | NetworkInterrupted
  | ApplicationRestarted | StorageUnavailable | UserCancelled | Other | SpaceCheckUnavailable
  | ReceiveBudgetBusy | FilesystemMismatch.

#[global] Instance TaskErrorCode_eq_dec : EqDecision TaskErrorCode.
Proof. solve_decision. Defined.

Record TaskDiagnostic : Type := mk_diagnostic { code : TaskErrorCode; retryable : bool }.

#[global] Instance TaskDiagnostic_eq_dec : EqDecision TaskDiagnostic.
Proof. solve_decision. Defined.

Record ProgressHint : Type := mk_hint { verified_bytes : Z; sampled_at : Z }.

#[global] Instance ProgressHint_eq_dec : EqDecision ProgressHint.
Proof. solve_decision. Defined.

Record FileTaskDetails : Type := mk_file {
  f_relative_path : list Z;
  manifest : Manifest.FileManifest;
  f_publish_prepared : bool;
  f_receipt_committed : bool;
  source_root : option path;
  incremental : bool;
  skipped_existing : bool;
}.

#[global] Instance FileTaskDetails_eq_dec : EqDecision FileTaskDetails.
Proof. solve_decision. Defined.

Record DirectoryTaskDetails : Type := mk_directory {
  d_relative_path : list Z;
  d_publish_prepared : bool;
  d_receipt_committed : bool;
}.

#[global] Instance DirectoryTaskDetails_eq_dec : EqDecision DirectoryTaskDetails.
Proof. solve_decision. Defined.

Record TaskRecord : Type := mk_record {
  schema_version : Z;
  task_id : list Z;
  peer_id : list Z;
  direction : TaskDirection;
  local_path : LocalTaskPath;
  manifest_identity : ManifestIdentity;
  state : TaskState;
  created_at : Z;
  updated_at : Z;
  diagnostic : option TaskDiagnostic;
  progress_hint : option ProgressHint;
  file_details : option FileTaskDetails;
  directory_details : option DirectoryTaskDetails;
  group_id : option (list Z);
}.

(** The assignments to fields. *)
Definition set_progress (s : TaskState) (d : option TaskDiagnostic) (updated : Z) (r : TaskRecord) : TaskRecord :=
  mk_record (schema_version r) (task_id r) (peer_id r) (direction r) (local_path r) (manifest_identity r)
    s (created_at r) updated d (progress_hint r) (file_details r) (directory_details r) (group_id r).
Definition set_details (f : option FileTaskDetails) (d : option DirectoryTaskDetails)
    (g : option (list Z)) (r : TaskRecord) : TaskRecord :=
  mk_record (schema_version r) (task_id r) (peer_id r) (direction r) (local_path r) (manifest_identity r)
    (state r) (created_at r) (updated_at r) (diagnostic r) (progress_hint r) f d g.
Definition set_hint (h : option ProgressHint) (r : TaskRecord) : TaskRecord :=
  mk_record (schema_version r) (task_id r) (peer_id r) (direction r) (local_path r) (manifest_identity r)
    (state r) (created_at r) (updated_at r) (diagnostic r) h (file_details r) (directory_details r) (group_id r).
Definition set_file (d : FileTaskDetails) (r : TaskRecord) : TaskRecord :=
  set_details (Some d) (directory_details r) (group_id r) r.
Definition set_directory (d : DirectoryTaskDetails) (r : TaskRecord) : TaskRecord :=
  set_details (file_details r) (Some d) (group_id r) r.

Definition file_flags (prepared committed incr skipped : bool) (d : FileTaskDetails) : FileTaskDetails :=
  mk_file (f_relative_path d) (manifest d) prepared committed (source_root d) incr skipped.
Definition with_root (root : option path) (d : FileTaskDetails) : FileTaskDetails :=
  mk_file (f_relative_path d) (manifest d) (f_publish_prepared d) (f_receipt_committed d) root
    (incremental d) (skipped_existing d).
Definition directory_flags (prepared committed : bool) (d : DirectoryTaskDetails) : DirectoryTaskDetails :=
  mk_directory (d_relative_path d) prepared committed.

Definition receipt_committed (r : TaskRecord) : bool :=
  match file_details r with Some d => f_receipt_committed d | None => false end ||
  match directory_details r with Some d => d_receipt_committed d | None => false end.

Definition relative_path (r : TaskRecord) : option (list Z) :=
  match file_details r with
  | Some d => Some (f_relative_path d)
  | None => d_relative_path <$> directory_details r
  end.

(** ** Validation *)

(** [split_once('/')]. *)
Fixpoint split_once (s : list Z) : option (list Z * list Z) :=
  match s with
  | [] => None
  | c :: s' =>
      if c =? 47 then Some ([], s')
      else match split_once s' with
           | Some (top, rest) => Some (c :: top, rest)
           | None => None
           end
  end.

Section Records.
Context `{Blake3} `{Hex} `{HexDecode}.

Definition model_error (m : result unit) : outcome TaskModelError unit :=
  map_err (fun _ => InvalidManifestIdentity) m.

Definition validate_file (r : TaskRecord) (d : FileTaskDetails) : outcome TaskModelError unit :=
  let? _ := model_error (Manifest.validate (manifest d)) in
  let? _ := model_error (RelativePath.validate_relative_path (f_relative_path d)) in
  let? _ := fail_if (negb (bool_decide (TaskProtocol.last_component (f_relative_path d) =
                                        Manifest.file_name (manifest d)))) InvalidManifestIdentity in
  let? identity := blake3_identity (Manifest.root_hash (manifest d)) (Manifest.total_len (manifest d))
                     (Manifest.chunk_size (manifest d)) in
  fail_if
    (negb (bool_decide (manifest_identity r = identity)) ||
     (TaskProtocol.MAX_CHUNKS <? Z.of_nat (length (Manifest.chunks (manifest d)))) ||
     negb (Bool.eqb (f_receipt_committed d) (bool_decide (state r = Completed))) ||
     (bool_decide (direction r = Send) && f_publish_prepared d) ||
     (bool_decide (direction r = Receive) && f_receipt_committed d && negb (f_publish_prepared d) &&
      negb (skipped_existing d)) ||
     (incremental d && bool_decide (group_id r = None)) ||
     (skipped_existing d && (negb (incremental d) || negb (f_receipt_committed d) || f_publish_prepared d)))
    InvalidManifestIdentity.

Definition validate_directory (r : TaskRecord) (d : DirectoryTaskDetails) : outcome TaskModelError unit :=
  let? _ := model_error (RelativePath.validate_relative_path (d_relative_path d)) in
  let? identity := blake3_identity (Manifest.hash_of (utf8 (d_relative_path d))) 0 1 in
  fail_if
    (negb (bool_decide (manifest_identity r = identity)) ||
     negb (Bool.eqb (d_receipt_committed d) (bool_decide (state r = Completed))) ||
     (bool_decide (direction r = Send) && d_publish_prepared d) ||
     (bool_decide (direction r = Receive) && d_receipt_committed d && negb (d_publish_prepared d)))
    InvalidManifestIdentity.

(** The two checks of a selection's [source_root]. *)
Definition validate_root (r : TaskRecord) (d : FileTaskDetails) (root : path) :
    outcome TaskModelError unit :=
  let? _ := fail_if (negb (bool_decide (direction r = Send)) || negb (is_absolute root) ||
                     negb (starts_with_path (path_of (local_path r)) root)) InvalidManifestIdentity in
  let? (top, relative) := ok_or (split_once (f_relative_path d)) InvalidManifestIdentity in
  fail_if (negb (bool_decide ((n ← file_name root; to_str n) = Some top)) ||
           negb (path_eq (join root (utf8 relative)) (path_of (local_path r))) ||
           bool_decide (to_str root = None)) InvalidManifestIdentity.

Definition validate (r : TaskRecord) : outcome TaskModelError unit :=
  let? _ := fail_if (negb (schema_version r =? TASK_RECORD_SCHEMA_VERSION))
              (UnsupportedSchemaVersion (schema_version r)) in
  let? _ := validate_identity (manifest_identity r) in
  let? _ := match file_details r with Some d => validate_file r d | None => Ok tt end in
  let? _ := fail_if (bool_decide (is_Some (file_details r)) && bool_decide (is_Some (directory_details r)))
              InvalidManifestIdentity in
  let? _ := match directory_details r with Some d => validate_directory r d | None => Ok tt end in
  let? _ := match file_details r with
            | Some d => match source_root d with Some root => validate_root r d root | None => Ok tt end
            | None => Ok tt
            end in
  let? _ := fail_if (negb (is_absolute (path_of (local_path r)))) RelativeLocalPath in
  let? _ := fail_if (negb (Bool.eqb (bool_decide (direction r = Send)) (is_sender_source (local_path r))))
              DirectionPathMismatch in
  let? _ := fail_if ((created_at r <? 0) || (updated_at r <? created_at r)) InvalidTimestamps in
  let? _ := fail_if (match progress_hint r with
                     | Some hint => (total_bytes (manifest_identity r) <? verified_bytes hint) ||
                                    (sampled_at hint <? 0)
                     | None => false
                     end) InvalidProgressHint in
  fail_if (bool_decide (state r = Failed) && bool_decide (diagnostic r = None)) MissingFailureDiagnostic.

(** ** New records *)

Definition new (task_id peer_id : list Z) (direction : TaskDirection) (local_path : LocalTaskPath)
    (identity : ManifestIdentity) (now : Z) : outcome TaskModelError TaskRecord :=
  let record := mk_record TASK_RECORD_SCHEMA_VERSION task_id peer_id direction local_path identity Scanning
                  now now None None None None None in
  let? _ := validate record in
  Ok record.

(** [system_time_unix_ms()] is the argument [clock]. *)
Definition new_sender (random peer_id : list Z) (source_path : path) (identity : ManifestIdentity)
    (clock : outcome TaskModelError Z) : outcome TaskModelError TaskRecord :=
  let? p := source source_path in
  let? now := clock in
  new (generate_task_id random) peer_id Send p identity now.

Definition new_receiver (random peer_id : list Z) (root : path) (identity : ManifestIdentity)
    (clock : outcome TaskModelError Z) : outcome TaskModelError TaskRecord :=
  let? p := receive_root root in
  let? now := clock in
  new (generate_task_id random) peer_id Receive p identity now.

Definition path_for (direction : TaskDirection) (p : path) : outcome TaskModelError LocalTaskPath :=
  match direction with Send => source p | Receive => receive_root p end.

Definition new_file (task_id peer_id : list Z) (direction : TaskDirection) (local_path : path)
    (relative_path : list Z) (manifest : Manifest.FileManifest) (clock : outcome TaskModelError Z) :
    outcome TaskModelError TaskRecord :=
  let? identity := blake3_identity (Manifest.root_hash manifest) (Manifest.total_len manifest)
                     (Manifest.chunk_size manifest) in
  let? p := path_for direction local_path in
  let? now := clock in
  let? record := new task_id peer_id direction p identity now in
  let record := set_file (mk_file relative_path manifest false false None false false) record in
  let? _ := validate record in
  Ok record.

Definition new_directory (task_id peer_id : list Z) (direction : TaskDirection) (local_path : path)
    (relative_path : list Z) (group : option (list Z)) (clock : outcome TaskModelError Z) :
    outcome TaskModelError TaskRecord :=
  let? p := path_for direction local_path in
  let? identity := blake3_identity (Manifest.hash_of (utf8 relative_path)) 0 1 in
  let? now := clock in
  let? record := new task_id peer_id direction p identity now in
  let record := set_details (file_details record) (Some (mk_directory relative_path false false)) group record in
  let? _ := validate record in
  Ok record.

(** ** Operations *)

Abbreviation method := (st TaskRecord TaskModelError unit).

Definition set_selection_binding (group : option (list Z)) (root : option path) : method :=
  let! r := get in
  let! _ := liftr (fail_if (negb (bool_decide (state r = Scanning))) ImmutableBinding) in
  let! _ := put (set_details (with_root root <$> file_details r) (directory_details r) group r) in
  let! r := get in
  liftr (validate r).

Definition prepare_publication : method :=
  let! r := get in
  let! _ := liftr (fail_if (negb (bool_decide (direction r = Receive)) ||
                            negb (bool_decide (state r = Finalizing))) NotRecoverable) in
  match file_details r, directory_details r with
  | Some d, _ =>
      put (set_file (file_flags true (f_receipt_committed d) (incremental d) (skipped_existing d) d) r)
  | None, Some d => put (set_directory (directory_flags true (d_receipt_committed d) d) r)
  | None, None => throw InvalidManifestIdentity
  end.

Definition transition_to (next : TaskState) (diag : option TaskDiagnostic) (now : Z) : method :=
  let! r := get in
  let can_retry := match diagnostic r with Some d => retryable d | None => false end in
  let! _ := liftr (fail_if (negb (allows (state r) next can_retry)) (InvalidTransition (state r) next)) in
  let! _ := liftr (fail_if (bool_decide (next = Failed) && bool_decide (diag = None))
                     MissingFailureDiagnostic) in
  let updated :=
    set_progress next
      (if bool_decide (next = Queued) then None
       else match diag with Some d => Some d | None => diagnostic r end)
      (Z.max (Z.max now (created_at r)) (updated_at r)) r in
  let! _ := liftr (validate updated) in
  put updated.

Definition commit_receipt (now : Z) : method :=
  let! r := get in
  let! (prepared, committed) :=
    match file_details r, directory_details r with
    | Some d, _ =>
        ret (f_publish_prepared d || skipped_existing d,
             set_file (file_flags (f_publish_prepared d) true (incremental d) (skipped_existing d) d) r)
    | None, Some d =>
        ret (d_publish_prepared d, set_directory (directory_flags (d_publish_prepared d) true d) r)
    | None, None => throw InvalidManifestIdentity
    end in
  let! _ := liftr (fail_if (bool_decide (direction r = Receive) && negb prepared) NotRecoverable) in
  let! _ := put committed in
  transition_to Completed None now.

Definition enable_incremental : method :=
  let! r := get in
  let! _ := liftr (fail_if (bool_decide (group_id r = None) || bool_decide (file_details r = None) ||
                            bool_decide (state r = Completed)) NotRecoverable) in
  match file_details r with
  | Some d =>
      put (set_file (file_flags (f_publish_prepared d) (f_receipt_committed d) true (skipped_existing d) d) r)
  | None => panic
  end.

Definition commit_skipped (now : Z) : method :=
  let! r := get in
  match file_details r with
  | None => throw NotRecoverable
  | Some d =>
      let! _ := liftr (fail_if (negb (incremental d) || f_publish_prepared d ||
                                negb (bool_decide (state r = Finalizing))) NotRecoverable) in
      let! _ := put (set_file (file_flags (f_publish_prepared d) (f_receipt_committed d) (incremental d) true d) r) in
      commit_receipt now
  end.

Definition cancel (now : Z) : method :=
  let! r := get in
  let! _ := liftr (fail_if
    (bool_decide (state r = Completed) ||
     match file_details r with Some d => f_publish_prepared d || f_receipt_committed d | None => false end ||
     match directory_details r with
     | Some d => d_publish_prepared d || d_receipt_committed d
     | None => false
     end) (InvalidTransition (state r) Failed)) in
  let updated := set_progress Failed (Some (mk_diagnostic UserCancelled false))
                   (Z.max (Z.max now (created_at r)) (updated_at r)) r in
  let! _ := liftr (validate updated) in
  put updated.

Definition set_progress_hint (hint : ProgressHint) : method :=
  let! r := get in
  let! _ := liftr (fail_if ((total_bytes (manifest_identity r) <? verified_bytes hint) ||
                            (sampled_at hint <? 0)) InvalidProgressHint) in
  put (set_hint (Some hint) r).

End Records.

(** [Option<PathBuf>] compares by components. *)
Definition root_eq (a b : option path) : bool :=
  match a, b with
  | Some p, Some q => path_eq p q
  | None, None => true
  | _, _ => false
  end.

Definition roots_eq (a b : option (option path)) : bool :=
  match a, b with
  | Some p, Some q => root_eq p q
  | None, None => true
  | _, _ => false
  end.

Definition validate_binding_unchanged (self current : TaskRecord) : outcome TaskModelError unit :=
  fail_if
    (negb (bool_decide (task_id self = task_id current)) ||
     negb (bool_decide (peer_id self = peer_id current)) ||
     negb (bool_decide (direction self = direction current)) ||
     negb (local_path_eq (local_path self) (local_path current)) ||
     negb (bool_decide (manifest_identity self = manifest_identity current)) ||
     negb (bool_decide (group_id self = group_id current)) ||
     negb (bool_decide ((d_relative_path <$> directory_details self) = (d_relative_path <$> directory_details current))) ||
     negb (roots_eq (source_root <$> file_details self) (source_root <$> file_details current)) ||
     negb (bool_decide (((fun d => (f_relative_path d, manifest d)) <$> file_details self) =
                        ((fun d => (f_relative_path d, manifest d)) <$> file_details current))))
    ImmutableBinding.

End TaskModel.
