(* ===== verification/TaskModelProof.v ===== *)
(** * Durable task records: the properties *)
From Stdlib Require Import ZArith Lia.
From stdpp Require Import prelude gmap strings.
From S2P Require Import Prelude Utf8 Manifest Message RelativePath State Identity Hexadecimal TaskProtocol TaskProtocolProof UnixPath TaskModel.

#[local] Open Scope Z_scope.

Module TaskModelProof.
Import UnixPath TaskModel.

(** ** Validity, as a proposition *)

Section Validity.
Context `{Blake3} `{Hex} `{HexDecode}.

Definition valid (r : TaskRecord) : Prop := validate r = Ok tt.

(** What the flags of a record's details must satisfy. *)
Record file_flags_ok (dir : TaskDirection) (s : TaskState) (g : option (list Z)) (d : FileTaskDetails) : Prop := {
  ff_receipt : f_receipt_committed d = true <-> s = Completed;
  ff_send : dir = Send -> f_publish_prepared d = false;
  ff_receive : dir = Receive -> f_receipt_committed d = true ->
    f_publish_prepared d = true \/ skipped_existing d = true;
  ff_incremental : incremental d = true -> g <> None;
  ff_skipped : skipped_existing d = true ->
    incremental d = true /\ f_receipt_committed d = true /\ f_publish_prepared d = false;
}.

Record directory_flags_ok (dir : TaskDirection) (s : TaskState) (d : DirectoryTaskDetails) : Prop := {
  df_receipt : d_receipt_committed d = true <-> s = Completed;
  df_send : dir = Send -> d_publish_prepared d = false;
  df_receive : dir = Receive -> d_receipt_committed d = true -> d_publish_prepared d = true;
}.

(** The part of a file's validity that does not mention flags. *)
Definition file_bound (r : TaskRecord) (d : FileTaskDetails) : Prop :=
  Manifest.validate (manifest d) = Ok tt /\
  RelativePath.validate_relative_path (f_relative_path d) = Ok tt /\
  TaskProtocol.last_component (f_relative_path d) = Manifest.file_name (manifest d) /\
  blake3_identity (Manifest.root_hash (manifest d)) (Manifest.total_len (manifest d))
    (Manifest.chunk_size (manifest d)) = Ok (manifest_identity r) /\
  Z.of_nat (length (Manifest.chunks (manifest d))) <= TaskProtocol.MAX_CHUNKS.

Definition directory_bound (r : TaskRecord) (d : DirectoryTaskDetails) : Prop :=
  RelativePath.validate_relative_path (d_relative_path d) = Ok tt /\
  blake3_identity (Manifest.hash_of (utf8 (d_relative_path d))) 0 1 = Ok (manifest_identity r).

Lemma model_error_Ok m : model_error m = Ok tt <-> m = Ok tt.
Proof. unfold model_error. by destruct m as [[]|e|]. Qed.

Lemma validate_file_Ok r d : validate_file r d = Ok tt <->
  file_bound r d /\ file_flags_ok (direction r) (state r) (group_id r) d.
Proof.
  unfold validate_file, file_bound. split.
  - intros E. apply obind_Ok in E as ([] & E1%model_error_Ok & E).
    apply obind_Ok in E as ([] & E2%model_error_Ok & E).
    apply obind_Ok in E as (? & E3%fail_if_Ok & E). apply obind_Ok in E as (i & E4 & E%fail_if_Ok).
    rewrite !orb_false_iff in E. destruct E as [[[[[[E5 E6] E7] E8] E9] E10] E11].
    rewrite negb_false_iff, bool_decide_eq_true in E3, E5. subst i. rewrite Z.ltb_ge in E6.
    rewrite negb_false_iff, eqb_true_iff in E7.
    split; [done|]. split.
    + rewrite E7. by rewrite bool_decide_eq_true.
    + intros Hd. rewrite Hd in E8. by destruct (f_publish_prepared d).
    + intros Hd Hr. rewrite Hd, Hr in E9. cbn in E9.
      destruct (f_publish_prepared d), (skipped_existing d); auto.
    + intros Hi. rewrite Hi in E10. cbn in E10. by apply bool_decide_eq_false in E10.
    + intros Hs. rewrite Hs in E11. cbn in E11.
      by destruct (incremental d), (f_receipt_committed d), (f_publish_prepared d).
  - intros ((-> & -> & E3 & E4 & E6) & [F1 F2 F3 F4 F5]). cbn. rewrite bool_decide_true by done. cbn.
    rewrite E4. cbn. rewrite (bool_decide_true (manifest_identity r = _)) by done.
    rewrite (proj2 (Z.ltb_ge _ _) E6). cbn.
    assert (Bool.eqb (f_receipt_committed d) (bool_decide (state r = Completed)) = true) as ->.
    { apply eqb_true_iff. destruct (f_receipt_committed d); symmetry;
        [apply bool_decide_eq_true|apply bool_decide_eq_false]; naive_solver. }
    apply fail_if_Ok. cbn [negb orb]. rewrite !orb_false_iff. repeat split.
    + case_bool_decide; [|done]. by rewrite F2.
    + case_bool_decide; [|done]. destruct (f_receipt_committed d); [|done].
      by destruct (F3 ltac:(done) eq_refl) as [-> | ->]; rewrite ?andb_false_r.
    + destruct (incremental d); [|done]. rewrite bool_decide_false; auto.
    + destruct (skipped_existing d); [|done]. by destruct (F5 eq_refl) as (-> & -> & ->).
Qed.

Lemma validate_directory_Ok r d : validate_directory r d = Ok tt <->
  directory_bound r d /\ directory_flags_ok (direction r) (state r) d.
Proof.
  unfold validate_directory, directory_bound. split.
  - intros E. apply obind_Ok in E as ([] & E1%model_error_Ok & E).
    apply obind_Ok in E as (i & E4 & E%fail_if_Ok).
    rewrite !orb_false_iff in E. destruct E as [[[E5 E7] E8] E9].
    rewrite negb_false_iff, bool_decide_eq_true in E5. subst i.
    rewrite negb_false_iff, eqb_true_iff in E7.
    split; [done|]. split.
    + rewrite E7. by rewrite bool_decide_eq_true.
    + intros Hd. rewrite Hd in E8. by destruct (d_publish_prepared d).
    + intros Hd Hr. rewrite Hd, Hr in E9. cbn in E9. by destruct (d_publish_prepared d).
  - intros ((-> & E4) & [F1 F2 F3]). cbn [model_error map_err obind]. rewrite E4. cbn [obind].
    rewrite bool_decide_true by done. cbn [negb orb].
    assert (Bool.eqb (d_receipt_committed d) (bool_decide (state r = Completed)) = true) as ->.
    { apply eqb_true_iff. destruct (d_receipt_committed d); symmetry;
        [apply bool_decide_eq_true|apply bool_decide_eq_false]; naive_solver. }
    destruct (direction r), (d_publish_prepared d), (d_receipt_committed d); cbn; try done; exfalso; naive_solver.
Qed.

(** The conditions on a whole record; flags, bindings and times apart. *)
Record well_formed (r : TaskRecord) : Prop := {
  wf_schema : schema_version r = TASK_RECORD_SCHEMA_VERSION;
  wf_identity : validate_identity (manifest_identity r) = Ok tt;
  wf_file : forall d, file_details r = Some d -> file_bound r d;
  wf_file_flags : forall d, file_details r = Some d ->
    file_flags_ok (direction r) (state r) (group_id r) d;
  wf_one : file_details r = None \/ directory_details r = None;
  wf_directory : forall d, directory_details r = Some d -> directory_bound r d;
  wf_directory_flags : forall d, directory_details r = Some d ->
    directory_flags_ok (direction r) (state r) d;
  wf_root : forall d root, file_details r = Some d -> source_root d = Some root ->
    validate_root r d root = Ok tt;
  wf_absolute : is_absolute (path_of (local_path r)) = true;
  wf_direction : direction r = Send <-> is_sender_source (local_path r) = true;
  wf_times : 0 <= created_at r <= updated_at r;
  wf_hint : forall h, progress_hint r = Some h ->
    verified_bytes h <= total_bytes (manifest_identity r) /\ 0 <= sampled_at h;
  wf_failed : state r = Failed -> diagnostic r <> None;
}.

Lemma valid_wf r : valid r <-> well_formed r.
Proof.
  unfold valid, validate. split.
  - intros E. repeat (apply obind_Ok in E as ([] & ? & E)). apply fail_if_Ok in E.
    repeat match goal with H : fail_if _ _ = Ok _ |- _ => apply fail_if_Ok in H end.
    rewrite ?negb_false_iff, ?orb_false_iff, ?andb_false_iff, ?bool_decide_eq_false in *.
    split.
    + by apply Z.eqb_eq.
    + done.
    + intros d Ed. rewrite Ed in *. by apply validate_file_Ok in H4 as [? ?].
    + intros d Ed. rewrite Ed in *. by apply validate_file_Ok in H4 as [? ?].
    + rewrite <- !eq_None_not_Some in H5. done.
    + intros d Ed. rewrite Ed in *. by apply validate_directory_Ok in H6 as [? ?].
    + intros d Ed. rewrite Ed in *. by apply validate_directory_Ok in H6 as [? ?].
    + intros d root Ed Er. rewrite Ed, Er in *. done.
    + done.
    + apply (proj1 (eqb_true_iff _ _)) in H9. rewrite <- H9. symmetry. apply bool_decide_eq_true.
    + bool_hyps. lia.
    + intros h Eh. rewrite Eh in *. rewrite orb_false_iff in *. bool_hyps. lia.
    + intros Es. destruct E; done.
  - intros [W1 W2 W3 W4 W5 W6 W7 W8 W9 W10 W11 W12 W13].
    rewrite W1, W2. cbn [negb fail_if obind Z.eqb Pos.eqb TASK_RECORD_SCHEMA_VERSION].
    assert (match file_details r with Some d => validate_file r d | None => Ok tt end = Ok tt) as ->.
    { destruct (file_details r) as [d|]; [|done]. apply validate_file_Ok. auto. }
    assert (match directory_details r with Some d => validate_directory r d | None => Ok tt end = Ok tt) as ->.
    { destruct (directory_details r) as [d|]; [|done]. apply validate_directory_Ok. auto. }
    assert (bool_decide (is_Some (file_details r)) && bool_decide (is_Some (directory_details r)) = false) as ->.
    { destruct W5 as [-> | ->]; [done|]. by rewrite andb_false_r. }
    assert (match file_details r with
            | Some d => match source_root d with Some root => validate_root r d root | None => Ok tt end
            | None => Ok tt
            end = Ok tt) as ->.
    { destruct (file_details r) as [d|]; [|done]. destruct (source_root d) eqn:Er; [|done]. by apply W8. }
    rewrite W9. cbn [negb fail_if obind].
    assert (Bool.eqb (bool_decide (direction r = Send)) (is_sender_source (local_path r)) = true) as ->.
    { apply eqb_true_iff. destruct (is_sender_source (local_path r));
        [apply bool_decide_eq_true|apply bool_decide_eq_false]; naive_solver. }
    cbn [negb fail_if obind].
    rewrite (proj2 (Z.ltb_ge (created_at r) 0)), (proj2 (Z.ltb_ge (updated_at r) (created_at r))) by lia.
    cbn [orb fail_if obind].
    assert (match progress_hint r with
            | Some hint => (total_bytes (manifest_identity r) <? verified_bytes hint) || (sampled_at hint <? 0)
            | None => false
            end = false) as ->.
    { destruct (progress_hint r) as [h|]; [|done]. destruct (W12 h eq_refl).
      by rewrite (proj2 (Z.ltb_ge _ _)), (proj2 (Z.ltb_ge (sampled_at h) 0)). }
    cbn [fail_if obind]. destruct (decide (state r = Failed)) as [Es|Es];
      [|by rewrite bool_decide_false].
    rewrite bool_decide_true, bool_decide_false; auto.
Qed.

(** Validation never panics. *)
Definition returns {E A} (m : outcome E A) : Prop := m <> Panic.

Lemma returns_bind {E A B} (m : outcome E A) (k : A -> outcome E B) :
  returns m -> (forall a, returns (k a)) -> returns (obind m k).
Proof. unfold returns. destruct m as [a|e|]; cbn; auto. Qed.

Lemma returns_fail_if {E} (c : bool) (e : E) : returns (fail_if c e).
Proof. by destruct c. Qed.

Lemma returns_ok_or {E A} (o : option A) (e : E) : returns (ok_or o e).
Proof. by destruct o. Qed.

Lemma returns_refuses {A} (m : result A) : TaskProtocolProof.refuses m -> returns m.
Proof. by destruct m. Qed.

Lemma returns_model_error m : returns m -> returns (model_error m).
Proof. by destruct m. Qed.

Lemma returns_identity a b c : returns (blake3_identity a b c).
Proof.
  apply returns_bind; [apply returns_fail_if|]. intros _. apply returns_bind; [apply returns_fail_if|done].
Qed.

Lemma returns_validate r : returns (validate r).
Proof.
  assert (forall d, returns (validate_file r d)) as Hf.
  { intros d. apply returns_bind; [apply returns_model_error, returns_refuses, TaskProtocolProof.refuses_manifest|intros _].
    apply returns_bind; [apply returns_model_error, returns_refuses, TaskProtocolProof.refuses_path|intros _].
    apply returns_bind; [apply returns_fail_if|intros _].
    apply returns_bind; [apply returns_identity|intros i; apply returns_fail_if]. }
  assert (forall d, returns (validate_directory r d)) as Hd.
  { intros d. apply returns_bind; [apply returns_model_error, returns_refuses, TaskProtocolProof.refuses_path|intros _].
    apply returns_bind; [apply returns_identity|intros i; apply returns_fail_if]. }
  assert (forall d root, returns (validate_root r d root)) as Hr.
  { intros d root. apply returns_bind; [apply returns_fail_if|intros _].
    apply returns_bind; [apply returns_ok_or|intros [t l]; apply returns_fail_if]. }
  unfold validate. repeat (apply returns_bind; [|intros _]); try apply returns_fail_if.
  all: destruct (file_details r) as [d|]; destruct (directory_details r) as [d'|]; try done; auto;
    destruct (source_root d); done || auto.
Qed.

(** ** One operation *)

Inductive op : Type :=
  | OBind (group : option (list Z)) (root : option path)
  | OPrepare
  | OTransition (next : TaskState) (diag : option TaskDiagnostic) (now : Z)
  | OReceipt (now : Z)
  | OIncremental
  | OSkip (now : Z)
  | OCancel (now : Z)
  | OHint (h : ProgressHint).

Definition apply_op (o : op) : st TaskRecord TaskModelError unit :=
  match o with
  | OBind group root => set_selection_binding group root
  | OPrepare => prepare_publication
  | OTransition next diag now => transition_to next diag now
  | OReceipt now => commit_receipt now
  | OIncremental => enable_incremental
  | OSkip now => commit_skipped now
  | OCancel now => cancel now
  | OHint h => set_progress_hint h
  end.

(** What a record stands for. *)
Definition identity_of (r : TaskRecord) :=
  (schema_version r, task_id r, peer_id r, direction r, local_path r, manifest_identity r, created_at r,
   d_relative_path <$> directory_details r,
   (fun d => (f_relative_path d, manifest d)) <$> file_details r).

Definition selection (r : TaskRecord) := (group_id r, source_root <$> file_details r).

Definition prepared (r : TaskRecord) : bool :=
  match file_details r with Some d => f_publish_prepared d | None => false end ||
  match directory_details r with Some d => d_publish_prepared d | None => false end.

Definition can_retry (r : TaskRecord) : bool :=
  match diagnostic r with Some d => retryable d | None => false end.

Record evolves (r r' : TaskRecord) : Prop := {
  ev_identity : identity_of r' = identity_of r;
  ev_selection : state r <> Scanning -> selection r' = selection r;
  ev_time : updated_at r <= updated_at r';
  ev_prepared : prepared r = true -> prepared r' = true;
  ev_committed : receipt_committed r = true -> receipt_committed r' = true;
  ev_state : state r' = state r \/ allows (state r) (state r') (can_retry r) = true \/
    (state r' = Failed /\ prepared r = false /\ receipt_committed r = false);
}.

(** The operations that change nothing when they fail. *)
Definition atomic_op (o : op) : bool :=
  match o with OBind _ _ | OReceipt _ | OSkip _ => false | _ => true end.

Definition completed_only_hint (r r' : TaskRecord) : Prop :=
  state r = Completed -> exists h, r' = set_hint h r.

Definition op_result (r r' : TaskRecord) : Prop :=
  valid r' /\ evolves r r' /\ completed_only_hint r r'.

Lemma wp_transition next diag now r (Q : unit -> TaskRecord -> Prop) (R : TaskModelError -> TaskRecord -> Prop) :
  (forall e, R e r) ->
  (forall d u, allows (state r) next (can_retry r) = true -> updated_at r <= u ->
     valid (set_progress next d u r) -> Q tt (set_progress next d u r)) ->
  wp (transition_to next diag now) Q R r.
Proof.
  intros HR HQ. unfold transition_to. apply wp_bind, wp_get, wp_bind, wp_liftr. fold (can_retry r).
  destruct (allows (state r) next (can_retry r)) eqn:Ea; cbn [negb fail_if]; [|apply HR].
  apply wp_bind, wp_liftr. destruct (bool_decide (next = Failed) && _); cbn [fail_if]; [apply HR|].
  cbv zeta. apply wp_bind, wp_liftr.
  match goal with |- context [validate ?x] => destruct (validate x) as [[]|e|] eqn:Ev end;
    [|apply HR|].
  - apply HQ; [done|lia|done].
  - by destruct (returns_validate _ Ev).
Qed.

Lemma evolves_refl r : evolves r r.
Proof. split; auto; lia. Qed.

(** Changing the flags of the details of a valid record. *)
Lemma valid_file_flags r d p c i s : valid r -> file_details r = Some d ->
  file_flags_ok (direction r) (state r) (group_id r) (file_flags p c i s d) ->
  valid (set_file (file_flags p c i s d) r).
Proof.
  intros [W1 W2 W3 W4 W5 W6 W7 W8 W9 W10 W11 W12 W13]%valid_wf Ed Hf. apply valid_wf.
  split; cbn; try done.
  - intros d' [= <-]. exact (W3 d Ed).
  - by intros d' [= <-].
  - right. destruct W5 as [W5|W5]; [congruence|done].
  - intros d' root [= <-] Er. exact (W8 d root Ed Er).
Qed.

Lemma valid_directory_flags r d p c : valid r -> file_details r = None -> directory_details r = Some d ->
  directory_flags_ok (direction r) (state r) (directory_flags p c d) ->
  valid (set_directory (directory_flags p c d) r).
Proof.
  intros [W1 W2 W3 W4 W5 W6 W7 W8 W9 W10 W11 W12 W13]%valid_wf En Ed Hf. apply valid_wf.
  split; cbn; try done.
  - by left.
  - intros d' [= <-]. exact (W6 d Ed).
  - by intros d' [= <-].
Qed.

Lemma evolves_file_flags r d p c i s : file_details r = Some d ->
  (f_publish_prepared d = true -> p = true) -> (f_receipt_committed d = true -> c = true) ->
  evolves r (set_file (file_flags p c i s d) r).
Proof.
  intros Ed Hp Hc. split; cbn; try done; try lia.
  - unfold identity_of. cbn. by rewrite Ed.
  - intros _. unfold selection. cbn. by rewrite Ed.
  - unfold prepared. cbn. rewrite Ed. destruct (f_publish_prepared d); cbn; [by rewrite Hp|].
    intros ->. apply orb_true_r.
  - unfold receipt_committed. cbn. rewrite Ed. destruct (f_receipt_committed d); cbn; [by rewrite Hc|].
    intros ->. apply orb_true_r.
  - by left.
Qed.

Lemma evolves_directory_flags r d p c : directory_details r = Some d ->
  (d_publish_prepared d = true -> p = true) -> (d_receipt_committed d = true -> c = true) ->
  evolves r (set_directory (directory_flags p c d) r).
Proof.
  intros Ed Hp Hc. split; cbn; try done; try lia.
  - unfold identity_of. cbn. by rewrite Ed.
  - unfold prepared. cbn. rewrite Ed. destruct (d_publish_prepared d); cbn; [by rewrite Hp, orb_true_r|].
    rewrite orb_false_r. by intros ->.
  - unfold receipt_committed. cbn. rewrite Ed. destruct (d_receipt_committed d); cbn; [by rewrite Hc, orb_true_r|].
    rewrite orb_false_r. by intros ->.
  - by left.
Qed.

(** A transition after a change that kept state and times. *)
Lemma evolves_progress r r1 next d u : evolves r r1 -> state r1 = state r -> updated_at r1 = updated_at r ->
  diagnostic r1 = diagnostic r -> updated_at r <= u -> allows (state r) next (can_retry r) = true ->
  evolves r (set_progress next d u r1).
Proof. intros [E1 E2 E3 E4 E5 E6] Es Eu Ed Hu Ha. split; cbn; auto. Qed.

Lemma no_retry_completed next b : allows Completed next b = false.
Proof. by destruct next. Qed.

(** The record with its receipt flag set, as [commit_receipt] leaves it. *)
Definition receipted (r r1 : TaskRecord) : Prop :=
  (exists d, file_details r = Some d /\
     r1 = set_file (file_flags (f_publish_prepared d) true (incremental d) (skipped_existing d) d) r) \/
  (exists d, directory_details r = Some d /\
     r1 = set_directory (directory_flags (d_publish_prepared d) true d) r).

Lemma receipted_facts r r1 : receipted r r1 ->
  evolves r r1 /\ state r1 = state r /\ updated_at r1 = updated_at r /\ diagnostic r1 = diagnostic r.
Proof.
  intros [(d & Ed & ->)|(d & Ed & ->)].
  - split; [by apply evolves_file_flags|done].
  - split; [by apply evolves_directory_flags|done].
Qed.

Lemma wp_commit_receipt now r (Q : unit -> TaskRecord -> Prop) (R : TaskModelError -> TaskRecord -> Prop) :
  (forall e, R e r) -> (forall e r1, receipted r r1 -> R e r1) ->
  (forall r1 d u, receipted r r1 -> allows (state r) Completed (can_retry r) = true ->
     updated_at r <= u -> valid (set_progress Completed d u r1) -> Q tt (set_progress Completed d u r1)) ->
  wp (commit_receipt now) Q R r.
Proof.
  intros HR HR1 HQ. unfold commit_receipt.
  assert (forall r1, receipted r r1 -> wp (transition_to Completed None now) Q R r1) as Ht.
  { intros r1 Hr1. destruct (receipted_facts r r1 Hr1) as (_ & Es & Eu & Ed). apply wp_transition; [auto|].
    unfold can_retry. rewrite Es, Eu, Ed. intros d u Ha Hu Hv. by apply HQ. }
  apply wp_bind, wp_get, wp_bind. unfold receipted in Ht.
  destruct (file_details r) as [d|] eqn:Ef; [|destruct (directory_details r) as [d|] eqn:Ed].
  - apply wp_ret. apply wp_bind, wp_liftr. destruct (_ && _); cbn [fail_if]; [apply HR|].
    apply wp_bind. apply Ht. left. by exists d.
  - apply wp_ret. apply wp_bind, wp_liftr. destruct (_ && _); cbn [fail_if]; [apply HR|].
    apply wp_bind. apply Ht. right. by exists d.
  - apply wp_throw, HR.
Qed.

Lemma op_result_progress r r1 next d u : evolves r r1 -> state r1 = state r ->
  updated_at r1 = updated_at r -> diagnostic r1 = diagnostic r -> updated_at r <= u ->
  allows (state r) next (can_retry r) = true -> valid (set_progress next d u r1) ->
  op_result r (set_progress next d u r1).
Proof.
  intros He Es Eu Ed Hu Ha Hv. split; [done|]. split; [by apply evolves_progress|].
  intros Ec. by rewrite Ec, no_retry_completed in Ha.
Qed.

Lemma op_result_still r r' : valid r' -> evolves r r' -> state r <> Completed -> op_result r r'.
Proof. intros Hv He Hs. split; [done|]. split; [done|]. by intros Ec. Qed.

Definition op_failed (o : op) (r r' : TaskRecord) : Prop :=
  (atomic_op o = true -> r' = r) /\ identity_of r' = identity_of r /\
  state r' = state r /\ updated_at r' = updated_at r.

Lemma op_failed_same o r : op_failed o r r.
Proof. by split. Qed.

Lemma wp_bind_op g root r : valid r ->
  wp (apply_op (OBind g root)) (fun _ => op_result r) (fun _ => op_failed (OBind g root) r) r.
Proof.
  intros Hv. cbn [apply_op]. unfold set_selection_binding. apply wp_bind, wp_get, wp_bind, wp_liftr.
  case_bool_decide as Es; cbn [negb fail_if]; [|apply op_failed_same]. apply wp_bind, wp_bind, wp_get, wp_liftr.
  set (r' := set_details _ _ _ _).
  assert (identity_of r' = identity_of r) as Ei.
  { unfold identity_of, r'. cbn. by destruct (file_details r). }
  destruct (validate r') as [[]|e|] eqn:Ev; [|by split|by destruct (returns_validate _ Ev)].
  apply op_result_still; [done| |by rewrite Es].
  split; [done|done|cbn; lia|..|by left]; unfold prepared, receipt_committed, r'; cbn;
    by destruct (file_details r).
Qed.

Lemma wp_prepare r : valid r ->
  wp (apply_op OPrepare) (fun _ => op_result r) (fun _ => op_failed OPrepare r) r.
Proof.
  intros Hv. pose proof Hv as Hw. apply valid_wf in Hw. cbn [apply_op]. unfold prepare_publication.
  apply wp_bind, wp_get, wp_bind, wp_liftr. case_bool_decide as Ed; cbn [negb orb fail_if]; [|apply op_failed_same].
  case_bool_decide as Es; cbn [negb fail_if]; [|apply op_failed_same].
  destruct (file_details r) as [d|] eqn:Ef; [|destruct (directory_details r) as [d|] eqn:Edd; [|apply op_failed_same]].
  - destruct (wf_file_flags r Hw d Ef) as [F1 F2 F3 F4 F5].
    apply op_result_still; [apply valid_file_flags|by apply evolves_file_flags|by rewrite Es]; try done.
    split; cbn; try done; [congruence|naive_solver|]. intros Hs. destruct (F5 Hs) as (_ & Hc & _).
    apply F1 in Hc. congruence.
  - destruct (wf_directory_flags r Hw d Edd) as [F1 F2 F3].
    apply op_result_still; [apply valid_directory_flags|by apply evolves_directory_flags|by rewrite Es]; try done.
    split; cbn; try done. congruence.
Qed.

Lemma wp_incremental r : valid r ->
  wp (apply_op OIncremental) (fun _ => op_result r) (fun _ => op_failed OIncremental r) r.
Proof.
  intros Hv. pose proof Hv as Hw. apply valid_wf in Hw. cbn [apply_op]. unfold enable_incremental.
  apply wp_bind, wp_get, wp_bind, wp_liftr. case_bool_decide as Eg; cbn [orb fail_if]; [apply op_failed_same|].
  case_bool_decide as Efn; cbn [orb fail_if]; [apply op_failed_same|].
  case_bool_decide as Es; cbn [fail_if]; [apply op_failed_same|].
  destruct (file_details r) as [d|] eqn:Ef; [|done].
  destruct (wf_file_flags r Hw d Ef) as [F1 F2 F3 F4 F5].
  apply op_result_still; [apply valid_file_flags|by apply evolves_file_flags|done]; try done.
  split; cbn; try done. intros Hs. destruct (F5 Hs) as (_ & Hc & _). by apply F1 in Hc.
Qed.

Lemma wp_skip now r : valid r ->
  wp (apply_op (OSkip now)) (fun _ => op_result r) (fun _ => op_failed (OSkip now) r) r.
Proof.
  intros Hv. cbn [apply_op]. unfold commit_skipped. apply wp_bind, wp_get.
  destruct (file_details r) as [d|] eqn:Ef; [|apply op_failed_same].
  apply wp_bind, wp_liftr. destruct (_ || _); cbn [fail_if]; [apply op_failed_same|]. apply wp_bind.
  set (r0 := set_file (file_flags (f_publish_prepared d) (f_receipt_committed d) (incremental d) true d) r).
  assert (evolves r r0) as He by (by apply evolves_file_flags).
  assert (forall r1, receipted r0 r1 -> evolves r r1 /\ state r1 = state r /\ updated_at r1 = updated_at r /\
    diagnostic r1 = diagnostic r) as Hr1.
  { intros r1 Hr. destruct (receipted_facts r0 r1 Hr) as ([E1 E2 E3 E4 E5 E6] & Es & Eu & Edg).
    destruct He as [A1 A2 A3 A4 A5 A6]. split; [|done]. split.
    - congruence.
    - intros Hs. rewrite E2 by done. by apply A2.
    - rewrite Eu. cbn. lia.
    - auto.
    - auto.
    - left. by rewrite Es. }
  change (wp (commit_receipt now) (fun _ => op_result r) (fun _ => op_failed (OSkip now) r) r0).
  apply wp_commit_receipt.
  - intros e. split; [done|]. split; [apply (ev_identity _ _ He)|done].
  - intros e r1 Hr. destruct (Hr1 r1 Hr) as (He1 & Es & Eu & _). split; [done|].
    split; [apply (ev_identity _ _ He1)|done].
  - intros r1 dg u Hr Ha Hu Hv'. destruct (Hr1 r1 Hr) as (He1 & Es & Eu & Edg).
    by apply op_result_progress.
Qed.

Lemma wp_cancel now r : valid r ->
  wp (apply_op (OCancel now)) (fun _ => op_result r) (fun _ => op_failed (OCancel now) r) r.
Proof.
  intros Hv. cbn [apply_op]. unfold cancel. apply wp_bind, wp_get, wp_bind, wp_liftr.
  match goal with |- context [fail_if ?c] => destruct c eqn:Ec end; cbn [fail_if]; [apply op_failed_same|].
  rewrite !orb_false_iff in Ec. destruct Ec as [[Es Ef] Ed]. apply bool_decide_eq_false in Es.
  cbv zeta. apply wp_bind, wp_liftr.
  match goal with |- context [validate ?x] => destruct (validate x) as [[]|e|] eqn:Ev end;
    [|apply op_failed_same|by destruct (returns_validate _ Ev)].
  apply op_result_still; [done| |done]. split; cbn; try done; [lia|]. right. right.
  unfold prepared, receipt_committed.
  destruct (file_details r) as [f|]; destruct (directory_details r) as [d|];
    rewrite ?orb_false_iff in *; naive_solver.
Qed.

Lemma wp_hint h r : valid r ->
  wp (apply_op (OHint h)) (fun _ => op_result r) (fun _ => op_failed (OHint h) r) r.
Proof.
  intros Hv. cbn [apply_op]. unfold set_progress_hint. apply wp_bind, wp_get, wp_bind, wp_liftr.
  destruct (_ || _) eqn:Eh; cbn [fail_if]; [apply op_failed_same|]. apply orb_false_iff in Eh as [E1 E2].
  apply Z.ltb_ge in E1, E2. split; [|split; [|by intros _; exists (Some h)]].
  - apply valid_wf in Hv as [W1 W2 W3 W4 W5 W6 W7 W8 W9 W10 W11 W12 W13]. apply valid_wf.
    split; cbn; try done. by intros h' [= <-].
  - split; cbn; auto. lia.
Qed.

Lemma wp_op o r : valid r -> wp (apply_op o) (fun _ => op_result r) (fun _ => op_failed o r) r.
Proof.
  intros Hv. destruct o as [g root| |next diag now|now| |now|now|h].
  - by apply wp_bind_op.
  - by apply wp_prepare.
  - apply wp_transition; [intros; apply op_failed_same|]. intros d u Ha Hu Hv'.
    by apply op_result_progress; [apply evolves_refl|..].
  - apply wp_commit_receipt; [intros; apply op_failed_same|..].
    + intros e r1 Hr. destruct (receipted_facts r r1 Hr) as (He & Es & Eu & _). split; [done|].
      split; [apply (ev_identity _ _ He)|done].
    + intros r1 d u Hr Ha Hu Hv'. destruct (receipted_facts r r1 Hr) as (He & Es & Eu & Ed).
      by apply op_result_progress.
  - by apply wp_incremental.
  - by apply wp_skip.
  - by apply wp_cancel.
  - by apply wp_hint.
Qed.

(** ** Histories *)

(** The owner of a record works on a copy and keeps it only after a success
    ([TaskStore]). *)
Definition keep (r : TaskRecord) (o : op) : TaskRecord :=
  match apply_op o r with
  | (Ok _, r') => r'
  | _ => r
  end.

Definition replay (r : TaskRecord) (os : list op) : TaskRecord := foldl keep r os.

Lemma keep_result r o : valid r -> keep r o = r \/ op_result r (keep r o).
Proof.
  intros Hv. pose proof (wp_op o r Hv) as Hw. unfold wp, keep in *.
  destruct (apply_op o r) as [[[]|e|] r']; auto.
Qed.

Lemma replay_valid r os : valid r -> valid (replay r os).
Proof.
  revert r. induction os as [|o os IH]; intros r Hv; [done|]. cbn. apply IH.
  by destruct (keep_result r o Hv) as [->|[? _]].
Qed.

(** Facts that only grow. *)
Record grows (r r' : TaskRecord) : Prop := {
  gr_identity : identity_of r' = identity_of r;
  gr_time : updated_at r <= updated_at r';
  gr_prepared : prepared r = true -> prepared r' = true;
  gr_committed : receipt_committed r = true -> receipt_committed r' = true;
  gr_completed : state r = Completed -> exists h, r' = set_hint h r;
}.

Lemma set_hint_same r : set_hint (progress_hint r) r = r.
Proof. by destruct r. Qed.

Lemma replay_grows r os : valid r -> grows r (replay r os).
Proof.
  revert r. induction os as [|o os IH]; intros r Hv; cbn.
  { split; auto; [lia|]. intros _. exists (progress_hint r). by rewrite set_hint_same. }
  destruct (keep_result r o Hv) as [E|(Hv' & [E1 E2 E3 E4 E5 E6] & Hc)]; [rewrite E; by apply IH|].
  destruct (IH _ Hv') as [G1 G2 G3 G4 G5]. fold (replay (keep r o) os).
  split; [exact (eq_trans G1 E1)|lia|auto..|].
  intros Es. destruct (Hc Es) as [h Eh].
  assert (state (keep r o) = Completed) as Es' by (by rewrite Eh).
  destruct (G5 Es') as [h' E']. exists h'. by rewrite E', Eh.
Qed.

(** The identity of a validated manifest counts its chunks. *)
Lemma identity_chunks r d : file_bound r d -> 0 <= Manifest.total_len (manifest d) ->
  total_bytes (manifest_identity r) = Manifest.total_len (manifest d) /\
  chunk_size (manifest_identity r) = Manifest.chunk_size (manifest d) /\
  chunk_count (manifest_identity r) = Z.of_nat (length (Manifest.chunks (manifest d))).
Proof.
  intros (Hm & _ & _ & Hi & _) Hpos. apply Manifest.validate_Ok in Hm.
  apply obind_Ok in Hi as (u & Hz & Hi). apply obind_Ok in Hi as (u' & _ & [= <-]). cbn.
  split; [done|]. split; [done|]. rewrite (Manifest.valid_count _ Hm). unfold Manifest.count_of.
  pose proof (Manifest.valid_size_pos _ Hm).
  destruct (Z.eqb_spec (Manifest.total_len (manifest d)) 0) as [->|], (Z.eqb_spec (Manifest.chunk_size (manifest d)) 0);
    try lia; cbn; [|done].
  apply div_ceil_unique; lia.
Qed.

End Validity.

(** ** Identifiers *)

Lemma utf8_lower s : Forall (fun c => is_lower_hex c = true) s -> utf8 s = s.
Proof.
  induction 1 as [|c s Hc _ IH]; [done|].
  change (utf8 (c :: s)) with (utf8_char c ++ utf8 s). rewrite IH. unfold utf8_char.
  unfold is_lower_hex, is_ascii_digit in Hc.
  destruct (Z.ltb_spec c 128); [done|]. apply orb_true_iff in Hc as [Hc|Hc]; bool_hyps; lia.
Qed.

Lemma encoded_facts `{HexLaws} `{!HexLower} bs : length bs = 16%nat -> are_bytes bs ->
  let text := hex_encode bs in
  str_len text = 32 /\ forallb is_lower_hex (utf8 text) = true /\ hex_decode text = Some bs.
Proof.
  intros Hl Hb text. pose proof (hex_encode_lower bs) as Hlow. unfold str_len, text.
  rewrite (utf8_lower _ Hlow), hex_encode_len, Hl. split; [done|]. split; [|by apply hex_decode_encode].
  apply Is_true_eq_true, forallb_True. eapply Forall_impl; [exact Hlow|]. by intros c ->.
Qed.

Lemma existsb_negb {A} (f : A -> bool) l : existsb (fun x => negb (f x)) l = negb (forallb f l).
Proof. induction l as [|x l IH]; [done|]. cbn. by rewrite IH, negb_andb. Qed.

(** ** Properties *)

(** Identifiers are canonical: a generated task id parses back to itself, the
    peer id of a node parses and decodes to that node, and whatever text parses
    as either is 32 lower-case hexadecimal digits. *)
Theorem task_ids_canonical `{HexLaws} `{!HexLower} (random id text : list Z) :
  length random = 16%nat -> are_bytes random -> length id = 16%nat -> are_bytes id ->
  parse_task_id (generate_task_id random) = Ok (generate_task_id random) /\
  parse_peer_id (from_node_id id) = Ok (from_node_id id) /\
  Identity.from_hex (from_node_id id) = Ok id /\
  (parse_task_id text = Ok text \/ parse_peer_id text = Ok text ->
   forallb is_lower_hex (utf8 text) = true /\ str_len text = 32).
Proof.
  intros Hr Hrb Hi Hib. destruct (encoded_facts random Hr Hrb) as (R1 & R2 & R3).
  destruct (encoded_facts id Hi Hib) as (I1 & I2 & I3).
  unfold parse_task_id, generate_task_id, parse_peer_id, from_node_id, Identity.id_to_hex, not_hex_of, Identity.from_hex in *.
  rewrite R1, R2, R3, I3, Hr, Hi. cbn [negb orb Z.eqb Pos.eqb Nat.eqb].
  split; [done|]. split; [|split; [done|]].
  - cbn [ok_or obind]. by rewrite Hi, I1, existsb_negb, I2.
  - intros [E|E].
    + destruct (_ || _ || _) eqn:Ec in E; [done|]. rewrite !orb_false_iff, !negb_false_iff in Ec.
      destruct Ec as [[E1%Z.eqb_eq E2] _]. done.
    + apply obind_Ok in E as (d & _ & E). destruct (_ || _ || _) eqn:Ec in E; [done|].
      rewrite !orb_false_iff, existsb_negb, !negb_false_iff in Ec.
      destruct Ec as [[_ E1%Z.eqb_eq] E2]. done.
Qed.

(** C21: Every operation keeps records valid: started on a valid record it never
    panics; when it succeeds the record is valid again, keeps its identity (ids,
    peer, direction, local path, manifest, creation time), keeps its group and
    source root once scanning is over, does not go back in time, does not lose a
    prepared publication or a committed receipt, and moves along the state
    machine, or to Failed by cancelling an unpublished task; when it fails, the
    state, times and identity are as before, and all of the record except for the
    three operations that set a flag first. *)
Theorem record_operation_sound `{Blake3} `{Hex} `{HexDecode} (o : op) (r : TaskRecord) :
  valid r ->
  match apply_op o r with
  | (Ok _, r') => valid r' /\ evolves r r'
  | (Err _, r') => (atomic_op o = true -> r' = r) /\ identity_of r' = identity_of r /\
                   state r' = state r /\ updated_at r' = updated_at r
  | (Panic, _) => False
  end.
Proof.
  intros Hv. pose proof (wp_op o r Hv) as Hw. unfold wp in Hw.
  destruct (apply_op o r) as [[u|e|] r']; [|done|done]. by destruct Hw as (? & ? & _).
Qed.

(** C20: The life of a record, whatever operations its owner tries (keeping the
    result of the successful ones): it stays valid and about the same file; a
    file's record names its manifest, with the byte and chunk counts of it; its
    receipt is committed exactly when it is completed, and a received file only
    completes after its publication was prepared, or as one skipped by an
    incremental selection; once prepared it cannot be cancelled any more; and a
    completed record stays as it is except for its progress hint. *)
Theorem record_lifecycle `{Blake3} `{Hex} `{HexDecode} (r : TaskRecord) (os : list op) :
  valid r ->
  let r' := replay r os in
  valid r' /\ identity_of r' = identity_of r /\ updated_at r <= updated_at r' /\
  (forall d, file_details r' = Some d ->
     Manifest.validate (manifest d) = Ok tt /\
     (0 <= Manifest.total_len (manifest d) ->
      total_bytes (manifest_identity r') = Manifest.total_len (manifest d) /\
      chunk_count (manifest_identity r') = Z.of_nat (length (Manifest.chunks (manifest d)))) /\
     (f_receipt_committed d = true <-> state r' = Completed) /\
     (direction r' = Receive -> state r' = Completed ->
      f_publish_prepared d = true \/ (incremental d = true /\ skipped_existing d = true))) /\
  (forall now, prepared r = true -> exists e, cancel now r' = (Err e, r')) /\
  (state r = Completed -> exists h, r' = set_hint h r).
Proof.
  intros Hv r'. pose proof (replay_valid r os Hv) as Hv'. destruct (replay_grows r os Hv) as [G1 G2 G3 _ G5].
  fold r' in Hv', G1, G2, G3, G5. split; [done|]. split; [done|]. split; [done|]. apply valid_wf in Hv' as Hw.
  split; [|split; [|done]].
  - intros d Ed. pose proof (wf_file r' Hw d Ed) as Hb. pose proof (wf_file_flags r' Hw d Ed) as [F1 F2 F3 F4 F5].
    split; [apply Hb|]. split; [|split; [done|]].
    + intros Hpos. by destruct (identity_chunks r' d Hb Hpos) as (? & _ & ?).
    + intros Hd Hs. apply F1 in Hs. destruct (F3 Hd Hs) as [?|Hk]; [by left|]. right. by destruct (F5 Hk).
  - intros now Hp%G3. exists (InvalidTransition (state r') Failed). unfold cancel, sbind, get, liftr.
    unfold prepared in Hp.
    assert (forall a b, match file_details r' with Some d => f_publish_prepared d || f_receipt_committed d | None => false end = a ->
      match directory_details r' with Some d => d_publish_prepared d || d_receipt_committed d | None => false end = b ->
      a || b = true) as Hab.
    { intros a b <- <-. apply orb_true_iff in Hp as [Hp|Hp].
      - destruct (file_details r') as [f|]; [by rewrite Hp|done].
      - destruct (directory_details r') as [d|]; [by rewrite Hp, orb_true_r|done]. }
    by rewrite <- orb_assoc, (Hab _ _ eq_refl eq_refl), orb_true_r.
Qed.

(** ** Witnesses *)

Import Hexadecimal.

#[local] Instance example_blake3 : Blake3 := fun bs => take 32 (bs ++ repeat 0 32).

Definition example_manifest : Manifest.FileManifest :=
  Manifest.mk_manifest [97] 20000 16384 [repeat 1 32; repeat 2 32]
    (Manifest.root_hash_of [97] 20000 16384 [repeat 1 32; repeat 2 32]).

Definition example_record : TaskRecord :=
  match new_file (repeat 48 32) (repeat 49 32) Receive (lit "/inbox") [97] example_manifest (Ok 5) with
  | Ok r => r
  | _ => mk_record 0 [] [] Send (Source []) (mk_identity [] 0 0 0) Failed 0 0 None None None None None
  end.

Lemma example_valid : valid example_record.
Proof. unfold valid. vm_compute. reflexivity. Qed.

Lemma task_ids_canonical_witness :
  parse_task_id (generate_task_id (repeat 255 16)) = Ok (repeat 102 32).
Proof.
  refine (eq_trans (proj1 (task_ids_canonical (repeat 255 16) (repeat 7 16) [] _ _ _ _)) _).
  - reflexivity.
  - repeat constructor; unfold in_range, U8_MAX; lia.
  - reflexivity.
  - repeat constructor; unfold in_range, U8_MAX; lia.
  - reflexivity.
Defined.

Lemma record_operation_sound_witness :
  exists r', apply_op (OTransition Queued None 9) example_record = (Ok tt, r') /\ valid r' /\
    evolves example_record r'.
Proof.
  pose proof (record_operation_sound (OTransition Queued None 9) example_record example_valid) as Ho.
  assert (exists r', apply_op (OTransition Queued None 9) example_record = (Ok tt, r')) as [r' E]
    by (eexists; vm_compute; reflexivity).
  rewrite E in Ho. exists r'. split; [exact E|exact Ho].
Defined.

Definition example_ops : list op :=
  [OTransition Queued None 6; OTransition Connecting None 7; OTransition Negotiating None 8;
   OTransition Transferring None 9; OReceipt 9; OTransition Finalizing None 10; OReceipt 10; OPrepare;
   OCancel 11; OReceipt 12].

Lemma record_lifecycle_witness :
  state (replay example_record example_ops) = Completed /\ valid (replay example_record example_ops) /\
  updated_at example_record <= updated_at (replay example_record example_ops).
Proof.
  split; [vm_compute; reflexivity|].
  destruct (record_lifecycle example_record example_ops example_valid) as (Hv & _ & Hu & _).
  split; [exact Hv|exact Hu].
Defined.

End TaskModelProof.
