(* ===== verification/AutoResume.v ===== *)
(** * Automatic resumption (src/node/core/auto_resume.rs)

    What the process intends to resume after a connection is lost.  A ticket goes to a
    worker; the flag that cancels it is shared by its clones, so the flags live in a
    store and a ticket has the number of one.  Instants are nanoseconds; the answers of
    the closures of [due] do not change during the call. *)
From Stdlib Require Import ZArith Lia.
From stdpp Require Import prelude gmap strings.
From S2P Require Import Prelude Message RemoteAuth TaskModel.

#[local] Open Scope Z_scope.

Module AutoResume.
Import TaskModel.

Definition MAX_TASKS : Z := 256.
Definition MAX_ATTEMPTS : Z := 5.
Definition SECOND : Z := 1000000000.
Definition LIFETIME : Z := 300 * SECOND.

Abbreviation TaskId := (list Z).

Record Ticket : Type := mk_ticket {
  id : TaskId;
  peer : NodeId;
  direction : TaskDirection;
  nonce : Z;
  revision : Z;
  deadline : option Z;
  flag : Z;
}.

Record Intent : Type := mk_intent {
  ticket : Ticket;
  waiting : bool;
  inflight : bool;
  network : bool;
  attempts : Z;
  expires : option Z;
  due_at : Z;
}.

(** The registry and the flags that are set; [next_flag] is the next new one. *)
Record Recovery : Type := mk_recovery {
  enabled : bool;
  counter : Z;
  tasks : gmap TaskId Intent;
  set_flags : gset Z;
  next_flag : Z;
}.

Definition initial : Recovery := mk_recovery false 0 ∅ ∅ 0.

Definition wrapping_succ (n : Z) : Z := (n + 1) mod (U64_MAX + 1).

Definition cancelled (t : Ticket) (r : Recovery) : bool := bool_decide (flag t ∈ set_flags r).

Definition with_tasks (m : gmap TaskId Intent) (r : Recovery) : Recovery :=
  mk_recovery (enabled r) (counter r) m (set_flags r) (next_flag r).
Definition with_counter (n : Z) (r : Recovery) : Recovery :=
  mk_recovery (enabled r) n (tasks r) (set_flags r) (next_flag r).
(** The flags of the intents of [m]. *)
Definition flags_of (m : gmap TaskId Intent) : gset Z := list_to_set (map (fun kv => flag (ticket kv.2)) (map_to_list m)).
Definition cancel_all (m : gmap TaskId Intent) (r : Recovery) : Recovery :=
  mk_recovery (enabled r) (counter r) (tasks r) (set_flags r ∪ flags_of m) (next_flag r).

Definition rest (i : Intent) : Intent :=
  mk_intent (ticket i) false false (network i) (attempts i) (expires i) (due_at i).

Definition enable (b : bool) (r : Recovery) : Recovery :=
  let r := mk_recovery b (counter r) (tasks r) (set_flags r) (next_flag r) in
  if b then r else with_tasks (rest <$> tasks r) (cancel_all (tasks r) r).

Definition clear (r : Recovery) : Recovery := with_tasks ∅ (cancel_all (tasks r) r).

Definition cancel (i : TaskId) (r : Recovery) : bool * Recovery :=
  match tasks r !! i with
  | None => (false, r)
  | Some x => (waiting x, with_tasks (delete i (tasks r)) (cancel_all {[i := x]} r))
  end.

Definition forget (i : TaskId) (r : Recovery) : Recovery := with_tasks (delete i (tasks r)) r.

Definition next_revision (t : Ticket) : Ticket :=
  mk_ticket (id t) (peer t) (direction t) (nonce t) (wrapping_succ (revision t)) (deadline t) (flag t).

Definition enroll (i : TaskId) (p : NodeId) (dir : TaskDirection) (now : Z) (r : Recovery) : Recovery :=
  let r := with_counter (wrapping_succ (counter r)) r in
  match tasks r !! i with
  | Some x =>
      with_tasks (<[i := rest (mk_intent (next_revision (ticket x)) (waiting x) (inflight x) (network x) (attempts x) (expires x) (due_at x))]>
                   (tasks r)) r
  | None =>
      if MAX_TASKS <=? Z.of_nat (size (tasks r)) then r
      else
        let n := wrapping_succ (counter r) in
        let t := mk_ticket i p dir n 0 None (next_flag r) in
        mk_recovery (enabled r) n (<[i := mk_intent t false false false 0 None now]> (tasks r)) (set_flags r) (next_flag r + 1)
  end.

(** One intent of a lost peer. *)
Definition lose (now : Z) (i : TaskId) (x : Intent) (r : Recovery) : Recovery :=
  let t := ticket x in
  let e := default (now + LIFETIME) (expires x) in
  let t' := mk_ticket (id t) (peer t) (direction t) (counter r) (wrapping_succ (revision t)) (Some e) (next_flag r) in
  let due := now + SECOND * (if bool_decide (direction t = Send) then 1 else 4) in
  mk_recovery (enabled r) (counter r)
    (<[i := mk_intent t' (enabled r) false true (attempts x) (Some e) due]> (tasks r))
    (set_flags r ∪ {[flag t]}) (next_flag r + 1).

Definition lost (p : NodeId) (now : Z) (r : Recovery) : Recovery :=
  let r := with_counter (wrapping_succ (counter r)) r in
  fold_left (fun r kv => if bool_decide (peer (ticket kv.2) = p) && negb (waiting kv.2) then lose now kv.1 kv.2 r else r)
    (map_to_list (tasks r)) r.

Definition unexpired (now : Z) (i : Intent) : bool := match expires i with Some t => now <? t | None => false end.

Definition valid (t : Ticket) (now : Z) (r : Recovery) : bool :=
  match tasks r !! id t with
  | Some i => (nonce (ticket i) =? nonce t) && waiting i && unexpired now i
  | None => false
  end.

Definition pending (i : TaskId) (now : Z) (r : Recovery) : bool :=
  match tasks r !! i with Some x => waiting x && unexpired now x | None => false end.

Definition network_tasks (p : NodeId) (r : Recovery) : list Ticket :=
  map (fun kv => ticket kv.2) (List.filter (fun kv => bool_decide (peer (ticket kv.2) = p) && network kv.2) (map_to_list (tasks r))).

Definition same_attempt (t : Ticket) (r : Recovery) : bool :=
  match tasks r !! id t with
  | Some i => (nonce (ticket i) =? nonce t) && (revision (ticket i) =? revision t)
  | None => false
  end.

Definition started (t : Ticket) (r : Recovery) : bool :=
  match tasks r !! id t with
  | Some i => (nonce (ticket i) =? nonce t) && negb (revision (ticket i) =? revision t)
  | None => false
  end.

Definition stop_ticket (t : Ticket) (r : Recovery) : Recovery :=
  if same_attempt t r then
    match tasks r !! id t with
    | Some i => with_tasks (<[id t := rest i]> (tasks r)) (cancel_all {[id t := i]} r)
    | None => r
    end
  else r.

Definition automatic_allowed (i : TaskId) (now : Z) (r : Recovery) : bool :=
  match tasks r !! i with Some x => network x && unexpired now x | None => false end.

(** [retain]: what does not satisfy [keep] is removed and its ticket cancelled. *)
Definition retain_cancel (keep : Intent -> bool) (r : Recovery) : Recovery :=
  with_tasks (filter (fun kv => keep kv.2 = true) (tasks r)) (cancel_all (filter (fun kv => keep kv.2 = false) (tasks r)) r).

Definition cancel_peer (p : NodeId) (r : Recovery) : bool * Recovery :=
  (existsb (fun kv => bool_decide (peer (ticket kv.2) = p) && waiting kv.2) (map_to_list (tasks r)),
   retain_cancel (fun i => negb (bool_decide (peer (ticket i) = p))) r).

Definition permitted (rights : RemoteAuth.RemoteAuthorization) (d : TaskDirection) : bool :=
  match d with
  | Send => RemoteAuth.outbound_authorized rights
  | Receive => RemoteAuth.inbound_authorized rights
  end.

Definition cancel_denied (p : NodeId) (rights : RemoteAuth.RemoteAuthorization) (r : Recovery) : Recovery :=
  retain_cancel (fun i => negb (bool_decide (peer (ticket i) = p)) || permitted rights (direction (ticket i))) r.

(** ** The maintenance tick *)

Definition kept (now : Z) (i : Intent) : bool :=
  match expires i with Some t => now <? t | None => true end &&
  (negb (waiting i) || (attempts i <? MAX_ATTEMPTS) || inflight i).

Inductive action : Type := Nothing | Job | Lookup.

Definition visit (now : Z) (ready : NodeId -> TaskDirection -> bool) (busy : NodeId -> bool) (i : Intent) : action :=
  if negb (waiting i) || inflight i || (now <? due_at i) then Nothing
  else if ready (peer (ticket i)) (direction (ticket i)) then Job
  else if negb (busy (peer (ticket i))) then Lookup
  else Nothing.

Definition backoff (now n : Z) : Z := now + SECOND * 2 ^ Z.min n 5.

Definition act (now : Z) (a : action) (i : Intent) : Intent :=
  match a with
  | Nothing => i
  | Job => mk_intent (ticket i) (waiting i) true (network i) (attempts i + 1) (expires i) (due_at i)
  | Lookup => mk_intent (ticket i) (waiting i) (inflight i) (network i) (attempts i + 1) (expires i) (backoff now (attempts i + 1))
  end.

Definition push_new (p : NodeId) (l : list NodeId) : list NodeId := if bool_decide (p ∈ l) then l else l ++ [p].

Definition due (now : Z) (ready : NodeId -> TaskDirection -> bool) (busy : NodeId -> bool) (r : Recovery) :
    list NodeId * list Ticket * Recovery :=
  let m := filter (fun kv => kept now kv.2 = true) (tasks r) in
  let step '(peers, jobs) kv :=
    match visit now ready busy kv.2 with
    | Nothing => (peers, jobs)
    | Job => (peers, jobs ++ [ticket kv.2])
    | Lookup => (push_new (peer (ticket kv.2)) peers, jobs)
    end in
  (fold_left step (map_to_list m) ([], []), with_tasks ((fun i => act now (visit now ready busy i) i) <$> m) r).

Definition admitted (i : TaskId) (r : Recovery) : Recovery :=
  match tasks r !! i with Some x => with_tasks (<[i := rest x]> (tasks r)) r | None => r end.

Definition finished (t : Ticket) (now : Z) (r : Recovery) : Recovery :=
  match tasks r !! id t with
  | Some i =>
      if nonce (ticket i) =? nonce t then
        with_tasks (<[id t := mk_intent (ticket i) (waiting i) false (network i) (attempts i) (expires i) (backoff now (attempts i))]> (tasks r)) r
      else r
  | None => r
  end.

(** ** Histories *)

Inductive op : Type :=
  | Enable (b : bool)
  | Clear
  | Cancel (i : TaskId)
  | Forget (i : TaskId)
  | Enroll (i : TaskId) (p : NodeId) (d : TaskDirection) (now : Z)
  | Lost (p : NodeId) (now : Z)
  | StopTicket (t : Ticket)
  | CancelPeer (p : NodeId)
  | CancelDenied (p : NodeId) (rights : RemoteAuth.RemoteAuthorization)
  | Due (now : Z) (ready : NodeId -> TaskDirection -> bool) (busy : NodeId -> bool)
  | TaskAdmitted (i : TaskId)
  | Finished (t : Ticket) (now : Z).

(** The tickets given to workers, and the state. *)
Definition step (o : op) (r : Recovery) : list Ticket * Recovery :=
  match o with
  | Enable b => ([], enable b r)
  | Clear => ([], clear r)
  | Cancel i => ([], (cancel i r).2)
  | Forget i => ([], forget i r)
  | Enroll i p d now => ([], enroll i p d now r)
  | Lost p now => ([], lost p now r)
  | StopTicket t => ([], stop_ticket t r)
  | CancelPeer p => ([], (cancel_peer p r).2)
  | CancelDenied p rights => ([], cancel_denied p rights r)
  | Due now ready busy => let '(_, jobs, r) := due now ready busy r in (jobs, r)
  | TaskAdmitted i => ([], admitted i r)
  | Finished t now => ([], finished t now r)
  end.

Fixpoint run (ops : list op) (r : Recovery) : list Ticket * Recovery :=
  match ops with
  | [] => ([], r)
  | o :: ops => let (jobs, r) := step o r in let (more, r) := run ops r in (jobs ++ more, r)
  end.

(** ** The invariant *)

Record good (r : Recovery) (k : TaskId) (i : Intent) : Prop := {
  go_id : id (ticket i) = k;
  go_inflight : inflight i = true -> waiting i = true;
  go_enabled : waiting i = true -> enabled r = true;
  go_expires : waiting i = true -> is_Some (expires i) /\ deadline (ticket i) = expires i;
  go_attempts : 0 <= attempts i <= MAX_ATTEMPTS;
  go_nonce : nonce (ticket i) <= counter r;
  go_flag : flag (ticket i) < next_flag r;
  go_alive : waiting i = true -> flag (ticket i) ∉ set_flags r;
}.

Record sound (r : Recovery) : Prop := {
  so_size : Z.of_nat (size (tasks r)) <= MAX_TASKS;
  so_counter : 0 <= counter r;
  so_good : forall k i, tasks r !! k = Some i -> good r k i;
  so_unique : forall k l i j, tasks r !! k = Some i -> tasks r !! l = Some j -> flag (ticket i) = flag (ticket j) -> k = l;
  so_flags : forall f, f ∈ set_flags r -> f < next_flag r;
}.

(** [t] was given out: as long as its number is current, its flag is. *)
Record issued (n : Z) (r : Recovery) (t : Ticket) : Prop := {
  is_nonce : nonce t <= n;
  is_flag : flag t < next_flag r;
  is_same : forall i, tasks r !! id t = Some i -> nonce (ticket i) = nonce t ->
    flag (ticket i) = flag t /\ peer (ticket i) = peer t /\ direction (ticket i) = direction t;
}.

(** An intent that was there, with no more claim to be resumed than before. *)
Record calmer (r' : Recovery) (i i' : Intent) : Prop := {
  ca_nonce : nonce (ticket i') = nonce (ticket i);
  ca_flag : flag (ticket i') = flag (ticket i);
  ca_id : id (ticket i') = id (ticket i);
  ca_peer : peer (ticket i') = peer (ticket i) /\ direction (ticket i') = direction (ticket i);
  ca_deadline : deadline (ticket i') = deadline (ticket i) /\ expires i' = expires i;
  ca_waiting : waiting i' = true -> waiting i = true /\ enabled r' = true /\ flag (ticket i) ∉ set_flags r';
  ca_inflight : inflight i' = true -> waiting i' = true;
  ca_attempts : attempts i <= attempts i' <= MAX_ATTEMPTS;
}.

Record evolves (r r' : Recovery) : Prop := {
  ev_size : (size (tasks r') <= size (tasks r))%nat;
  ev_counter : counter r <= counter r' <= counter r + 1;
  ev_next : next_flag r' = next_flag r;
  ev_flags : forall f, f ∈ set_flags r' -> f < next_flag r;
  ev_tasks : forall k i', tasks r' !! k = Some i' -> exists i, tasks r !! k = Some i /\ calmer r' i i';
}.

Lemma evolves_sound r r' : sound r -> evolves r r' -> sound r'.
Proof.
  intros [Sz Sc Sg Su Sf] [Ez Ec En Ef Et]. split; [lia|lia| | |by rewrite En].
  - intros k i' Hi'. destruct (Et k i' Hi') as (i & Hi & [Ca Cf Ci Cp Cd Cw Cif Cat]). destruct (Sg k i Hi) as [G1 G2 G3 G4 G5 G6 G7 G8].
    destruct Cd as [Cd1 Cd2]. split; [congruence|done|naive_solver| |lia|rewrite Ca; lia|rewrite Cf, En; lia|rewrite Cf; naive_solver].
    intros Hw. destruct (Cw Hw) as [Hw' _]. destruct (G4 Hw') as [? ?]. split; congruence.
  - intros k l i j Hi Hj. destruct (Et k i Hi) as (i0 & Hi0 & C1), (Et l j Hj) as (j0 & Hj0 & C2).
    rewrite (ca_flag _ _ _ C1), (ca_flag _ _ _ C2). by apply Su.
Qed.

Lemma evolves_issued r r' n t : evolves r r' -> issued n r t -> issued n r' t.
Proof.
  intros [Ez Ec En Ef Et] [In If Is]. split; [done|by rewrite En|]. intros i' Hi' Hn.
  destruct (Et _ _ Hi') as (i & Hi & C). destruct (ca_peer _ _ _ C) as [-> ->]. rewrite (ca_flag _ _ _ C). apply Is; [done|].
  rewrite <- (ca_nonce _ _ _ C). done.
Qed.

Lemma elem_of_flags f m : f ∈ flags_of m <-> exists k i, m !! k = Some i /\ flag (ticket i) = f.
Proof.
  unfold flags_of. rewrite elem_of_list_to_set, list_elem_of_fmap. split.
  - intros ([k i] & -> & Hin%elem_of_map_to_list). eauto.
  - intros (k & i & Hi & <-). exists (k, i). split; [done|]. by apply elem_of_map_to_list.
Qed.

Lemma calmer_refl r r' i k : sound r -> enabled r' = enabled r -> set_flags r' = set_flags r -> tasks r !! k = Some i -> calmer r' i i.
Proof. intros Hs Ee Ef Hi. destruct (so_good _ Hs k i Hi). split; try done; [|lia]. rewrite Ee, Ef. auto. Qed.
Lemma resume_evolves_refl r : sound r -> evolves r r.
Proof. intros Hs. split; [lia|lia|done|apply (so_flags _ Hs)|]. intros k i Hi. exists i. split; [done|by apply (calmer_refl r _ _ k)]. Qed.

(** Only tasks are removed, or put to rest; the flags [F] of others are set. *)
Lemma evolves_removed r m F : sound r -> (size m <= size (tasks r))%nat -> (forall f, f ∈ F -> f < next_flag r) ->
  (forall k i', m !! k = Some i' -> exists i, tasks r !! k = Some i /\ (i' = i /\ flag (ticket i) ∉ F \/ i' = rest i)) ->
  evolves r (mk_recovery (enabled r) (counter r) m (set_flags r ∪ F) (next_flag r)).
Proof.
  intros Hs Hz HF Hm. split; cbn; [done|lia|done| |].
  - intros f [Hf|Hf]%elem_of_union; [by apply (so_flags _ Hs)|by apply HF].
  - intros k i' Hi'. destruct (Hm k i' Hi') as (i & Hi & Hc). exists i. split; [done|]. destruct (so_good _ Hs k i Hi).
    destruct Hc as [[-> Hf]| ->]; (split; cbn; [done..| | |lia]); [|done..|done]. intros Hw. split; [done|]. split; [auto|]. set_solver.
Qed.

Lemma flags_below r m : sound r -> m ⊆ tasks r -> forall f, f ∈ flags_of m -> f < next_flag r.
Proof.
  intros Hs Hm f (k & i & Hi & <-)%elem_of_flags. by apply (go_flag _ _ _ (so_good _ Hs k i (lookup_weaken _ _ _ _ Hi Hm))).
Qed.

Lemma evolves_enable b r : sound r -> evolves r (enable b r).
Proof.
  intros Hs. unfold enable. destruct b; split; cbn; try lia; try done.
  - apply (so_flags _ Hs).
  - intros k i Hi. exists i. split; [done|]. destruct (so_good _ Hs k i Hi). split; cbn; try done; naive_solver.
  - by rewrite map_size_fmap.
  - intros f [Hf|Hf]%elem_of_union; [by apply (so_flags _ Hs)|by eapply flags_below].
  - intros k i'. rewrite lookup_fmap. intros (i & Hi & ->)%fmap_Some. exists i. split; [done|]. destruct (so_good _ Hs k i Hi). split; cbn; (done || lia).
Qed.
Lemma evolves_clear r : sound r -> evolves r (clear r).
Proof.
  intros Hs. apply (evolves_removed r ∅); [done|rewrite map_size_empty; lia|by apply flags_below|]. intros k i. by rewrite lookup_empty.
Qed.

Lemma other_flag r k l i j : sound r -> tasks r !! k = Some i -> tasks r !! l = Some j -> k <> l -> flag (ticket i) <> flag (ticket j).
Proof. intros Hs Hi Hj Hne E. by eapply Hne, (so_unique _ Hs). Qed.

Lemma evolves_delete F k r : sound r -> (forall f, f ∈ F -> exists x, tasks r !! k = Some x /\ f = flag (ticket x)) ->
  evolves r (mk_recovery (enabled r) (counter r) (delete k (tasks r)) (set_flags r ∪ F) (next_flag r)).
Proof.
  intros Hs HF. apply evolves_removed; [done|apply map_subseteq_size, delete_subseteq|..].
  - intros f (x & Hx & ->)%HF. apply (go_flag _ _ _ (so_good _ Hs k x Hx)).
  - intros l i [Hne Hi]%lookup_delete_Some. exists i. split; [done|]. left. split; [done|]. intros (x & Hx & E)%HF.
    by eapply (other_flag r l k).
Qed.

Lemma evolves_cancel k r : sound r -> evolves r (cancel k r).2.
Proof.
  intros Hs. unfold cancel. destruct (tasks r !! k) as [x|] eqn:E; [|by apply resume_evolves_refl]. apply (evolves_delete (flags_of {[k := x]}) k r); [done|].
  intros f (l & i & Hi & <-)%elem_of_flags. apply lookup_singleton_Some in Hi as [-> ->]. eauto.
Qed.

Lemma evolves_forget k r : sound r -> evolves r (forget k r).
Proof.
  intros Hs. replace (forget k r) with (mk_recovery (enabled r) (counter r) (delete k (tasks r)) (set_flags r ∪ ∅) (next_flag r)).
  - apply evolves_delete; [done|]. set_solver.
  - unfold forget, with_tasks. by rewrite union_empty_r_L.
Qed.

(** One intent put to rest. *)
Lemma evolves_rest k x F r : sound r -> tasks r !! k = Some x -> (forall f, f ∈ F -> f = flag (ticket x)) ->
  evolves r (mk_recovery (enabled r) (counter r) (<[k := rest x]> (tasks r)) (set_flags r ∪ F) (next_flag r)).
Proof.
  intros Hs Hx HF. apply evolves_removed; [done|by rewrite map_size_insert_Some|..].
  - intros f ->%HF. apply (go_flag _ _ _ (so_good _ Hs k x Hx)).
  - intros l i. rewrite lookup_insert. destruct (decide (k = l)) as [<-|Hne]; [intros [= <-]; eauto|].
    intros Hi. exists i. split; [done|]. left. split; [done|]. intros E%HF. by eapply (other_flag r l k).
Qed.

Lemma evolves_stop t r : sound r -> evolves r (stop_ticket t r).
Proof.
  intros Hs. unfold stop_ticket. destruct (same_attempt t r); [|by apply resume_evolves_refl].
  destruct (tasks r !! id t) as [x|] eqn:E; [|by apply resume_evolves_refl]. apply (evolves_rest (id t) x (flags_of {[id t := x]}) r); [done|done|].
  intros f (l & i & Hi & <-)%elem_of_flags. by apply lookup_singleton_Some in Hi as [_ ->].
Qed.

Lemma evolves_admitted k r : sound r -> evolves r (admitted k r).
Proof.
  intros Hs. unfold admitted. destruct (tasks r !! k) as [x|] eqn:E; [|by apply resume_evolves_refl].
  unfold with_tasks. rewrite <- (union_empty_r_L (set_flags r)). apply evolves_rest; [done|done|set_solver].
Qed.

Lemma evolves_retain keep r : sound r -> evolves r (retain_cancel keep r).
Proof.
  intros Hs. apply (evolves_removed r (filter (fun kv => keep kv.2 = true) (tasks r)) (flags_of (filter (fun kv => keep kv.2 = false) (tasks r)))); [done|apply map_subseteq_size, map_filter_subseteq|apply flags_below; [done|apply map_filter_subseteq]|].
  intros k i [Hi Hk]%map_lookup_filter_Some. exists i. split; [done|]. left. split; [done|].
  intros (l & j & [Hj Hl]%map_lookup_filter_Some & E)%elem_of_flags. cbn in *.
  assert (k = l) as -> by (by eapply (so_unique _ Hs)). congruence.
Qed.

Lemma evolves_finished t now r : sound r -> evolves r (finished t now r).
Proof.
  intros Hs. unfold finished. destruct (tasks r !! id t) as [x|] eqn:E; [|by apply resume_evolves_refl].
  destruct (nonce (ticket x) =? nonce t); [|by apply resume_evolves_refl]. pose proof (so_good _ Hs _ _ E) as [G1 G2 G3 G4 G5 G6 G7 G8].
  split; cbn; [by rewrite map_size_insert_Some|lia|done|apply (so_flags _ Hs)|]. intros l i. rewrite lookup_insert.
  destruct (decide (id t = l)) as [<-|Hne]; [intros [= <-]; exists x; split; [done|]|intros Hi; exists i; split; [done|by apply (calmer_refl r _ _ l)]].
  split; cbn; try done; try lia. intros Hw. auto.
Qed.

(** ** The maintenance tick *)

Lemma due_tasks now ready busy r : (due now ready busy r).2 =
  with_tasks ((fun i => act now (visit now ready busy i) i) <$> filter (fun kv => kept now kv.2 = true) (tasks r)) r.
Proof. done. Qed.

Lemma visit_waiting now ready busy i : visit now ready busy i <> Nothing -> waiting i = true /\ inflight i = false.
Proof. unfold visit. destruct (waiting i), (inflight i); try done; by destruct (_ <? _). Qed.

Lemma kept_attempts now ready busy i : kept now i = true -> visit now ready busy i <> Nothing -> attempts i < MAX_ATTEMPTS.
Proof.
  intros [_ Hk]%andb_true_iff Hv%visit_waiting. destruct Hv as [Hw Hf]. rewrite Hw, Hf in Hk. cbn in Hk. lia.
Qed.

Lemma evolves_due now ready busy r : sound r -> evolves r (due now ready busy r).2.
Proof.
  intros Hs. rewrite due_tasks. split; cbn; [|lia|done|apply (so_flags _ Hs)|].
  - rewrite map_size_fmap. apply map_subseteq_size, map_filter_subseteq.
  - intros k i'. rewrite lookup_fmap. intros (i & Hi & ->)%fmap_Some. apply map_lookup_filter_Some in Hi as [Hi Hk]. cbn in Hk.
    exists i. split; [done|]. pose proof (so_good _ Hs k i Hi) as [G1 G2 G3 G4 G5 G6 G7 G8].
    pose proof (visit_waiting now ready busy i) as Hv. pose proof (kept_attempts now ready busy i Hk) as Ha.
    destruct (visit now ready busy i); cbn; [by apply (calmer_refl r _ _ k)|..]; destruct Hv as [Hw Hf]; try done; specialize (Ha ltac:(done));
      split; cbn; try done; try lia; auto.
Qed.
(** ** New numbers and flags *)

Lemma succ_small n : 0 <= n < U64_MAX -> wrapping_succ n = n + 1.
Proof. intros Hn. unfold wrapping_succ. rewrite Z.mod_small; lia. Qed.

(** What an operation keeps of a state and of the tickets given out. *)
Record keeps (r r' : Recovery) : Prop := {
  ke_sound : sound r';
  ke_counter : counter r <= counter r' <= counter r + 2;
  ke_issued : forall t, issued (counter r) r t -> issued (counter r') r' t;
}.

Lemma evolves_keeps r r' : sound r -> evolves r r' -> keeps r r'.
Proof.
  intros Hs He. split; [by eapply evolves_sound|destruct (ev_counter _ _ He); lia|]. intros t Ht.
  destruct (evolves_issued _ _ _ _ He Ht) as [? ? ?]. destruct (ev_counter _ _ He). split; [lia|done|done].
Qed.

Lemma evolves_counter r : sound r -> counter r < U64_MAX -> evolves r (with_counter (wrapping_succ (counter r)) r).
Proof.
  intros Hs Hc. pose proof (so_counter _ Hs). rewrite succ_small by lia.
  split; cbn; [done|lia|done|apply (so_flags _ Hs)|]. intros k i Hi. exists i. split; [done|by apply (calmer_refl r _ _ k)].
Qed.

Lemma keeps_enroll i p d now r : sound r -> counter r + 2 <= U64_MAX -> keeps r (enroll i p d now r).
Proof.
  intros Hs Hc. pose proof (so_counter _ Hs) as Hpos. pose proof (evolves_counter r Hs ltac:(lia)) as He. unfold enroll. cbn [tasks with_counter].
  destruct (tasks r !! i) as [x|] eqn:E.
  - apply evolves_keeps; [done|]. pose proof (so_good _ Hs i x E) as [G1 G2 G3 G4 G5 G6 G7 G8]. rewrite succ_small by lia.
    split; cbn; [by rewrite map_size_insert_Some|lia|done|apply (so_flags _ Hs)|]. intros l y. rewrite lookup_insert.
    destruct (decide (i = l)) as [<-|Hne]; [intros [= <-]; exists x; split; [done|split; cbn; (done || lia)]|].
    intros Hi. exists y. split; [done|by apply (calmer_refl r _ _ l)].
  - destruct (Z.leb_spec MAX_TASKS (Z.of_nat (size (tasks r)))); [by apply evolves_keeps|]. cbn [counter with_counter]. rewrite !succ_small by (rewrite ?succ_small; lia).
    split; cbn; [split; cbn|lia|].
    + rewrite map_size_insert_None by done. lia.
    + lia.
    + intros k y. rewrite lookup_insert. destruct (decide (i = k)) as [<-|]; [intros [= <-]; split; cbn; (done || lia)|].
      intros Hy. destruct (so_good _ Hs k y Hy). split; cbn; (done || lia).
    + intros k l a b. rewrite !lookup_insert. destruct (decide (i = k)), (decide (i = l)); [congruence|..|by apply (so_unique _ Hs)].
      * intros [= <-] Hb. pose proof (go_flag _ _ _ (so_good _ Hs l b Hb)). cbn. lia.
      * intros Ha [= <-]. pose proof (go_flag _ _ _ (so_good _ Hs k a Ha)). cbn. lia.
    + intros f Hf. apply (so_flags _ Hs) in Hf. lia.
    + intros t [In If Is]. split; cbn; [lia|lia|]. intros y. rewrite lookup_insert.
      destruct (decide (i = id t)) as [_|]; [intros [= <-]; cbn; lia|by apply Is].
Qed.

(** A lost connection gives a new number and a new flag. *)
Lemma lose_sound now k x r : sound r -> tasks r !! k = Some x -> waiting x = false -> sound (lose now k x r).
Proof.
  intros Hs Hx Hw. unfold lose. pose proof (so_good _ Hs k x Hx) as [G1 G2 G3 G4 G5 G6 G7 G8]. split; cbn.
  - rewrite map_size_insert_Some by eauto. apply (so_size _ Hs).
  - apply (so_counter _ Hs).
  - intros l y. rewrite lookup_insert. destruct (decide (k = l)) as [<-|Hne].
    + intros [= <-]. split; cbn; try done; try lia. intros _ Hin. apply elem_of_union in Hin as [Hin%(so_flags _ Hs)|Hin]; [lia|].
      apply elem_of_singleton in Hin. lia.
    + intros Hy. destruct (so_good _ Hs l y Hy) as [H1 H2 H3 H4 H5 H6 H7 H8]. split; cbn; try done; try lia. intros Hwy Hin.
      apply elem_of_union in Hin as [Hin|Hin]; [by apply H8|]. apply elem_of_singleton in Hin. by eapply (other_flag r k l).
  - intros l m a b. rewrite !lookup_insert. destruct (decide (k = l)), (decide (k = m)); [congruence|..|by apply (so_unique _ Hs)].
    + intros [= <-] Hb. pose proof (go_flag _ _ _ (so_good _ Hs m b Hb)). cbn. lia.
    + intros Ha [= <-]. pose proof (go_flag _ _ _ (so_good _ Hs l a Ha)). cbn. lia.
  - intros f Hf. apply elem_of_union in Hf as [Hf%(so_flags _ Hs)|Hf]; [lia|]. apply elem_of_singleton in Hf. lia.
Qed.

Lemma lose_issued now k x r n t : n < counter r -> issued n r t -> issued n (lose now k x r) t.
Proof.
  intros Hn [In If Is]. split; cbn; [done|lia|]. intros y. rewrite lookup_insert.
  destruct (decide (k = id t)); [intros [= <-]; cbn; lia|by apply Is].
Qed.

Lemma fold_lost p now l r n : NoDup l.*1 -> (forall kv, kv ∈ l -> tasks r !! kv.1 = Some kv.2) -> sound r -> n < counter r ->
  let r' := fold_left (fun r kv => if bool_decide (peer (ticket kv.2) = p) && negb (waiting kv.2) then lose now kv.1 kv.2 r else r) l r in
  sound r' /\ counter r' = counter r /\ (forall t, issued n r t -> issued n r' t) /\
  (forall k, attempts <$> tasks r' !! k = attempts <$> tasks r !! k).
Proof.
  revert r. induction l as [|[k x] l IH]; intros r Hd Hl Hs Hn; [done|]. cbn [fold_left fst snd]. cbn in Hd. apply NoDup_cons in Hd as [Hk Hd].
  pose proof (Hl (k, x) ltac:(by left)) as Hx. cbn in Hx. match goal with |- context [fold_left _ l ?x] => set (r1 := x) end.
  assert (sound r1 /\ counter r1 = counter r /\ (forall t, issued n r t -> issued n r1 t) /\
    (forall l, attempts <$> tasks r1 !! l = attempts <$> tasks r !! l) /\ (forall l, l <> k -> tasks r1 !! l = tasks r !! l)) as (S1 & C1 & I1 & A1 & T1).
  { unfold r1. destruct (_ && _) eqn:Ew; [|done]. apply andb_true_iff in Ew as [_ Ew%negb_true_iff]. split; [by apply lose_sound|]. split; [done|].
    split; [intros; by apply lose_issued|]. split; intros m; cbn; rewrite lookup_insert; destruct (decide (k = m)) as [<-|]; try done. by rewrite Hx. }
  destruct (IH r1) as (S2 & C2 & I2 & A2); [done| |done|lia|].
  - intros [m y] Hin. cbn. rewrite T1; [by apply (Hl (m, y)); right|]. intros ->. apply Hk, list_elem_of_fmap. by exists (k, y).
  - split; [done|]. split; [congruence|]. split; [auto|]. intros m. by rewrite A2, A1.
Qed.

Lemma lost_fold p now r : sound r -> counter r < U64_MAX -> let r' := lost p now r in
  sound r' /\ counter r' = counter r + 1 /\ (forall t, issued (counter r) r t -> issued (counter r) r' t) /\
  (forall k, attempts <$> tasks r' !! k = attempts <$> tasks r !! k).
Proof.
  intros Hs Hc. pose proof (so_counter _ Hs). pose proof (evolves_counter r Hs Hc) as He. unfold lost. set (r1 := with_counter _ r) in *.
  assert (counter r1 = counter r + 1) as Ec by (apply succ_small; lia).
  destruct (fold_lost p now (map_to_list (tasks r)) r1 (counter r)) as (S2 & C2 & I2 & A2); [apply NoDup_fst_map_to_list| | |lia|].
  - intros [k x] Hin. by apply elem_of_map_to_list.
  - by eapply evolves_sound.
  - split; [exact S2|]. split; [rewrite <- Ec; exact C2|]. split; [|exact A2]. intros t Ht. apply I2.
    by apply (evolves_issued r).
Qed.

Lemma keeps_lost p now r : sound r -> counter r < U64_MAX -> keeps r (lost p now r).
Proof.
  intros Hs Hc. destruct (lost_fold p now r Hs Hc) as (S2 & C2 & I2 & _). split; [done|lia|]. intros t Ht.
  destruct (I2 t Ht) as [? ? ?]. split; [lia|done|done].
Qed.

Lemma step_due now ready busy r : step (Due now ready busy) r = ((due now ready busy r).1.2, (due now ready busy r).2).
Proof. cbn -[due]. by destruct (due now ready busy r) as [[ps js] r']. Qed.

Lemma step_keeps o r : sound r -> counter r + 2 <= U64_MAX -> keeps r (step o r).2.
Proof.
  intros Hs Hc. destruct o; rewrite ?step_due; cbn -[due].
  5: by apply keeps_enroll.
  5: apply keeps_lost; [done|lia].
  all: apply evolves_keeps; [done|].
  - by apply evolves_enable.
  - by apply evolves_clear.
  - by apply evolves_cancel.
  - by apply evolves_forget.
  - by apply evolves_stop.
  - by apply evolves_retain.
  - by apply evolves_retain.
  - by apply evolves_due.
  - by apply evolves_admitted.
  - by apply evolves_finished.
Qed.

(** ** The tickets given out *)

Abbreviation retained now r := (filter (fun kv => kept now kv.2 = true) (tasks r)).

(** The jobs of a tick are the tickets of the intents that are visited with [Job]. *)
Lemma fold_jobs now ready busy l acc :
  (fold_left (fun '(peers, jobs) kv => match visit now ready busy kv.2 with
    | Nothing => (peers, jobs)
    | Job => (peers, jobs ++ [ticket kv.2])
    | Lookup => (push_new (peer (ticket kv.2)) peers, jobs)
    end) l acc).2 = acc.2 ++ map (fun kv : TaskId * Intent => ticket kv.2) (List.filter (fun kv => match visit now ready busy kv.2 with Job => true | _ => false end) l).
Proof.
  revert acc. induction l as [|kv l IH]; intros [ps js]; cbn [fold_left List.filter]; [cbn; by rewrite app_nil_r|].
  rewrite IH. destruct (visit now ready busy kv.2); cbn; [done|by rewrite <- app_assoc|done].
Qed.

Definition job_tickets (now : Z) (ready : NodeId -> TaskDirection -> bool) (busy : NodeId -> bool) (r : Recovery) : list Ticket :=
  map (fun kv => ticket kv.2) (List.filter (fun kv => match visit now ready busy kv.2 with Job => true | _ => false end) (map_to_list (retained now r))).

Lemma due_jobs now ready busy r : (due now ready busy r).1.2 = job_tickets now ready busy r.
Proof. unfold due. cbn [fst snd]. by rewrite fold_jobs. Qed.

Lemma elem_of_jobs now ready busy r t : t ∈ job_tickets now ready busy r <->
  exists k i, tasks r !! k = Some i /\ kept now i = true /\ visit now ready busy i = Job /\ t = ticket i.
Proof.
  unfold job_tickets. rewrite list_elem_of_fmap. split.
  - intros ([k i] & -> & Hin). rewrite list_elem_of_In, filter_In, <- list_elem_of_In in Hin. destruct Hin as [Hin Hv].
    apply elem_of_map_to_list, map_lookup_filter_Some in Hin as [Hi Hk]. exists k, i. cbn in *. destruct (visit now ready busy i); done.
  - intros (k & i & Hi & Hk & Hv & ->). exists (k, i). split; [done|]. rewrite list_elem_of_In, filter_In, <- list_elem_of_In. cbn. rewrite Hv.
    split; [|done]. by apply elem_of_map_to_list, map_lookup_filter_Some.
Qed.

Definition count (k : TaskId) (l : list Ticket) : Z := Z.of_nat (length (List.filter (fun t => bool_decide (id t = k)) l)).

Lemma count_app k l l' : count k (l ++ l') = count k l + count k l'.
Proof. unfold count. rewrite List.filter_app, length_app. lia. Qed.

Lemma count_once now ready busy k l : NoDup l.*1 -> (forall kv, kv ∈ l -> id (ticket kv.2) = kv.1) ->
  count k (map (fun kv : TaskId * Intent => ticket kv.2) (List.filter (fun kv => match visit now ready busy kv.2 with Job => true | _ => false end) l)) <= 1 /\
  (0 < count k (map (fun kv => ticket kv.2) (List.filter (fun kv => match visit now ready busy kv.2 with Job => true | _ => false end) l)) ->
   exists i, (k, i) ∈ l /\ visit now ready busy i = Job).
Proof.
  induction l as [|[m i] l IH]; intros Hd Hl; [unfold count; cbn; lia|]. cbn in Hd. apply NoDup_cons in Hd as [Hm Hd].
  destruct IH as [IH1 IH2]; [done|intros; apply Hl; by right|]. cbn [List.filter snd].
  assert (id (ticket i) = m) as Ei by (apply (Hl (m, i)); by left).
  destruct (visit now ready busy i) eqn:Ev; cbn [map].
  - split; [exact IH1|]. intros Hp. destruct (IH2 Hp) as (j & ? & ?). exists j. split; [by right|done].
  - unfold count in *. cbn [List.filter snd]. case_bool_decide as Eid; cbn [length].
    + assert (m = k) as -> by congruence. split; [|intros _; exists i; split; [by left|done]].
      match goal with |- Z.of_nat (S ?n) <= 1 => destruct (decide (n = 0)%nat) as [->|Hn]; [done|] end.
      exfalso. destruct IH2 as (j & Hj & _); [lia|]. apply Hm, list_elem_of_fmap. by exists (k, j).
    + split; [exact IH1|]. intros Hp. destruct (IH2 Hp) as (j & ? & ?). exists j. split; [by right|done].
  - split; [exact IH1|]. intros Hp. destruct (IH2 Hp) as (j & ? & ?). exists j. split; [by right|done].
Qed.

(** ** How often a task is tried *)

Definition remaining (k : TaskId) (r : Recovery) : Z :=
  match tasks r !! k with Some i => MAX_ATTEMPTS - attempts i | None => 0 end.

Definition enrolls (k : TaskId) (o : op) : Z := match o with Enroll i _ _ _ => if bool_decide (i = k) then 1 else 0 | _ => 0 end.

Lemma remaining_pos k r : sound r -> 0 <= remaining k r.
Proof. intros Hs. unfold remaining. destruct (tasks r !! k) as [i|] eqn:E; [|lia]. pose proof (go_attempts _ _ _ (so_good _ Hs k i E)). lia. Qed.

Lemma evolves_remaining k r r' : sound r -> evolves r r' -> remaining k r' <= remaining k r.
Proof.
  intros Hs He. unfold remaining at 1. destruct (tasks r' !! k) as [i'|] eqn:E; [|by apply remaining_pos].
  destruct (ev_tasks _ _ He k i' E) as (i & Hi & C). unfold remaining. rewrite Hi. destruct (ca_attempts _ _ _ C). lia.
Qed.

Lemma due_remaining k now ready busy r : sound r ->
  count k (job_tickets now ready busy r) + remaining k (due now ready busy r).2 <= remaining k r.
Proof.
  intros Hs. pose proof (evolves_due now ready busy r Hs) as He. pose proof (evolves_remaining k _ _ Hs He) as Hr.
  destruct (count_once now ready busy k (map_to_list (retained now r))) as [H1 H2]; [apply NoDup_fst_map_to_list| |].
  - intros [m i] Hin. apply elem_of_map_to_list, map_lookup_filter_Some in Hin as [Hi _]. cbn. apply (go_id _ _ _ (so_good _ Hs m i Hi)).
  - fold (job_tickets now ready busy r) in H1, H2. destruct (Z.le_gt_cases (count k (job_tickets now ready busy r)) 0); [lia|].
    destruct (H2 ltac:(lia)) as (i & Hin & Hv). apply elem_of_map_to_list in Hin. assert (tasks r !! k = Some i) as Hi by by apply map_lookup_filter_Some in Hin as [? _].
    unfold remaining. rewrite Hi, due_tasks. cbn [tasks with_tasks]. rewrite lookup_fmap, Hin. cbn [fmap option_fmap option_map].
    rewrite Hv. cbn [act attempts]. lia.
Qed.

Lemma enroll_remaining k i p d now r : sound r -> counter r + 2 <= U64_MAX ->
  remaining k (enroll i p d now r) <= remaining k r + MAX_ATTEMPTS * (if bool_decide (i = k) then 1 else 0).
Proof.
  intros Hs Hc. unfold enroll. cbn [tasks with_counter]. pose proof (remaining_pos k r Hs) as Hpos.
  destruct (tasks r !! i) as [x|] eqn:E.
  - unfold remaining. cbn [tasks with_tasks]. rewrite lookup_insert. destruct (decide (i = k)) as [->|].
    + rewrite E. cbn. rewrite bool_decide_eq_true_2 by done. unfold MAX_ATTEMPTS. lia.
    + rewrite bool_decide_eq_false_2 by done. cbn. lia.
  - destruct (MAX_TASKS <=? _); [case_bool_decide; unfold MAX_ATTEMPTS, remaining; cbn; lia|].
    unfold remaining in *. cbn [tasks]. rewrite lookup_insert. destruct (decide (i = k)) as [->|].
    + rewrite bool_decide_eq_true_2 by done. cbn. rewrite E in *. unfold MAX_ATTEMPTS. lia.
    + rewrite bool_decide_eq_false_2 by done. lia.
Qed.

Lemma step_remaining k o r : sound r -> counter r + 2 <= U64_MAX ->
  count k (step o r).1 + remaining k (step o r).2 <= remaining k r + MAX_ATTEMPTS * enrolls k o.
Proof.
  intros Hs Hc. assert (forall r', evolves r r' -> count k [] + remaining k r' <= remaining k r + MAX_ATTEMPTS * 0) as He.
  { intros r' He. pose proof (evolves_remaining k _ _ Hs He). unfold count. cbn [List.filter length]. lia. }
  destruct o; rewrite ?step_due; cbn -[due MAX_ATTEMPTS].
  5: { pose proof (enroll_remaining k i p d now r Hs Hc). unfold count. cbn [List.filter length]. lia. }
  5: { destruct (lost_fold p now r Hs ltac:(lia)) as (_ & _ & _ & Ha). unfold count, remaining. cbn [List.filter length]. specialize (Ha k).
       destruct (tasks (lost p now r) !! k), (tasks r !! k); cbn in Ha; try discriminate; try (injection Ha as Ha); lia. }
  8: { rewrite due_jobs. pose proof (due_remaining k now ready busy r Hs). lia. }
  all: apply He.
  - by apply evolves_enable.
  - by apply evolves_clear.
  - by apply evolves_cancel.
  - by apply evolves_forget.
  - by apply evolves_stop.
  - by apply evolves_retain.
  - by apply evolves_retain.
  - by apply evolves_admitted.
  - by apply evolves_finished.
Qed.

(** ** Whole histories *)

Lemma jobs_issued now ready busy r t : sound r -> t ∈ job_tickets now ready busy r -> issued (counter r) (due now ready busy r).2 t.
Proof.
  intros Hs (k & i & Hi & Hk & Hv & ->)%elem_of_jobs. pose proof (so_good _ Hs k i Hi) as [G1 G2 G3 G4 G5 G6 G7 G8].
  split; [done|done|]. intros j. rewrite G1, due_tasks. cbn. rewrite lookup_fmap. intros (x & Hx & ->)%fmap_Some _.
  apply map_lookup_filter_Some in Hx as [Hx _]. assert (x = i) as -> by congruence. by destruct (visit now ready busy i).
Qed.

Lemma step_jobs o r t : sound r -> t ∈ (step o r).1 -> exists now ready busy, o = Due now ready busy /\ t ∈ job_tickets now ready busy r.
Proof.
  intros Hs. destruct o; rewrite ?step_due; cbn -[due]; try (intros Ht; by apply not_elem_of_nil in Ht). rewrite due_jobs. eauto 6.
Qed.

Definition enrolments (k : TaskId) (ops : list op) : Z := foldr (fun o n => enrolls k o + n) 0 ops.

Lemma run_all ops r : sound r -> counter r + 2 * Z.of_nat (length ops) <= U64_MAX -> let (jobs, r') := run ops r in
  sound r' /\ counter r <= counter r' /\ (forall t, issued (counter r) r t -> issued (counter r') r' t) /\
  (forall t, t ∈ jobs -> issued (counter r') r' t) /\
  forall k, count k jobs + remaining k r' <= remaining k r + MAX_ATTEMPTS * enrolments k ops.
Proof.
  revert r. induction ops as [|o ops IH]; intros r Hs Hc.
  { cbn. split; [done|]. split; [lia|]. split; [done|]. split; [intros t Ht; by apply not_elem_of_nil in Ht|]. intros k. unfold count. cbn. lia. }
  cbn [length] in Hc. destruct (step_keeps o r Hs ltac:(lia)) as [Ks Kc Ki]. pose proof (fun t => step_jobs o r t Hs) as Hj.
  pose proof (fun k => step_remaining k o r Hs ltac:(lia)) as Hrem. cbn [run]. destruct (step o r) as [jobs r1] eqn:E. cbn [fst snd] in *.
  specialize (IH r1 Ks ltac:(lia)). destruct (run ops r1) as [more r2]. destruct IH as (Is & Ic & Ii & Ij & Ir).
  split; [done|]. split; [lia|]. split; [auto|]. split.
  - intros t [Ht|Ht]%elem_of_app; [|by apply Ij]. apply Ii. destruct (Hj t Ht) as (now & ready & busy & -> & Hin).
    rewrite step_due in E. injection E as <- <-. apply (jobs_issued now ready busy r t Hs) in Hin as [? ? ?]. split; [lia|done|done].
  - intros k. rewrite count_app. specialize (Hrem k). specialize (Ir k). cbn [enrolments foldr]. unfold enrolments in Ir. lia.
Qed.

Lemma initial_sound : sound initial.
Proof. split; cbn; [rewrite map_size_empty; unfold MAX_TASKS; lia|lia|..]; intros; try (by rewrite lookup_empty in *). set_solver. Qed.

(** A valid ticket was not cancelled. *)
Lemma valid_alive t now r : sound r -> issued (counter r) r t -> valid t now r = true ->
  cancelled t r = false /\ enabled r = true /\ exists i e, tasks r !! id t = Some i /\ peer (ticket i) = peer t /\
    direction (ticket i) = direction t /\ expires i = Some e /\ now < e.
Proof.
  intros Hs Hi. unfold valid. destruct (tasks r !! id t) as [i|] eqn:E; [|done].
  intros [[En Ew]%andb_true_iff Eu]%andb_true_iff. apply Z.eqb_eq in En. pose proof (so_good _ Hs _ _ E) as [G1 G2 G3 G4 G5 G6 G7 G8].
  destruct (is_same _ _ _ Hi i E En) as (Hf & Hp & Hd). split; [|split; [auto|]].
  - unfold cancelled. apply bool_decide_eq_false. rewrite <- Hf. auto.
  - unfold unexpired in Eu. destruct (expires i) as [e|] eqn:Ee; [|done]. exists i, e. split; [done|]. do 3 (split; [done|]). by apply Z.ltb_lt.
Qed.

(** C31: Whatever happens in whatever order: at most 256 tasks are kept; a task is given to a
    worker at most five times for each time it was enrolled, and only when its peer is
    ready; a ticket that is still valid was not cancelled, its setting is on and its
    deadline is ahead; and while the setting is off nothing is looked up or given out. *)
Theorem recovery_bounded (ops : list op) : 2 * Z.of_nat (length ops) <= U64_MAX -> let (jobs, r) := run ops initial in
  Z.of_nat (size (tasks r)) <= MAX_TASKS /\
  (forall k, count k jobs <= MAX_ATTEMPTS * enrolments k ops) /\
  (forall t now, t ∈ jobs -> valid t now r = true -> cancelled t r = false /\ enabled r = true /\
     exists i e, tasks r !! id t = Some i /\ peer (ticket i) = peer t /\ direction (ticket i) = direction t /\ expires i = Some e /\ now < e) /\
  (forall now ready busy t, t ∈ (due now ready busy r).1.2 -> ready (peer t) (direction t) = true /\ valid t now (due now ready busy r).2 = true) /\
  (enabled r = false -> forall now ready busy, (due now ready busy r).1 = ([], []) /\ forall k, pending k now r = false).
Proof.
  intros Hlen. pose proof (run_all ops initial initial_sound Hlen) as Hr. destruct (run ops initial) as [jobs r].
  destruct Hr as (Hs & _ & _ & Hi & Hrem). split; [apply Hs|]. split.
  { intros k. specialize (Hrem k). pose proof (remaining_pos k r Hs). change (remaining k initial) with 0 in Hrem. lia. }
  split; [intros t now Ht; by apply valid_alive, Hi|]. split.
  - intros now ready busy t. rewrite due_jobs. intros (k & i & Hk & Hkept & Hv & ->)%elem_of_jobs.
    pose proof (so_good _ Hs k i Hk) as [G1 G2 G3 G4 G5 G6 G7 G8]. destruct (visit_waiting now ready busy i) as [Hw Hf]; [congruence|].
    split; [unfold visit in Hv; destruct (_ || _); [done|]; by destruct (ready _ _); [|destruct (negb _)]|].
    unfold valid. rewrite G1, due_tasks. cbn [tasks with_tasks]. rewrite lookup_fmap.
    rewrite (proj2 (map_lookup_filter_Some _ _ _ _) (conj Hk Hkept)). cbn. rewrite Hv. cbn. rewrite Z.eqb_refl, Hw. cbn.
    unfold unexpired. cbn. destruct (G4 Hw) as [[e He] _]. rewrite He. unfold kept in Hkept. rewrite He in Hkept. by apply andb_true_iff in Hkept as [? _].
  - intros He. assert (forall k i, tasks r !! k = Some i -> waiting i = false) as Hw.
    { intros k i Hk. pose proof (go_enabled _ _ _ (so_good _ Hs k i Hk)). destruct (waiting i); naive_solver. }
    intros now ready busy. split; [|intros k; unfold pending; destruct (tasks r !! k) as [i|] eqn:E; [by rewrite (Hw k i E)|done]].
    unfold due. cbn [fst]. assert (forall kv, kv ∈ map_to_list (retained now r) -> visit now ready busy kv.2 = Nothing) as Hn.
    { intros [k i] Hin. apply elem_of_map_to_list, map_lookup_filter_Some in Hin as [Hi' _]. cbn. unfold visit. by rewrite (Hw k i Hi'). }
    revert Hn. generalize (map_to_list (retained now r)). induction l as [|kv l IHl]; intros Hn; [done|]. cbn [fold_left].
    rewrite (Hn kv) by (by left). apply IHl. intros x Hx. apply Hn. by right.
Qed.

(** C32: Turning the setting off, pausing a task, removing a peer, losing a right and
    shutting down reach the worker: its ticket is cancelled and no longer valid. *)
Theorem revocation_reaches_workers (ops : list op) : 2 * Z.of_nat (length ops) <= U64_MAX -> let (jobs, r) := run ops initial in
  forall t i, t ∈ jobs -> tasks r !! id t = Some i -> nonce (ticket i) = nonce t ->
  forall r', r' = enable false r \/ r' = clear r \/ r' = (cancel (id t) r).2 \/ r' = (cancel_peer (peer t) r).2 \/
    (exists rights, permitted rights (direction t) = false /\ r' = cancel_denied (peer t) rights r) \/
    same_attempt t r = true /\ r' = stop_ticket t r ->
  cancelled t r' = true /\ forall now, valid t now r' = false.
Proof.
  intros Hlen. pose proof (run_all ops initial initial_sound Hlen) as Hr. destruct (run ops initial) as [jobs r].
  destruct Hr as (Hs & _ & _ & Hi & _). intros t i Ht E En r' Hr'. destruct (is_same _ _ _ (Hi t Ht) i E En) as (Hf & Hp & Hd).
  assert (forall m, m !! id t = Some i -> flag t ∈ set_flags r ∪ flags_of m) as Hin.
  { intros m Hm. apply elem_of_union. right. apply elem_of_flags. eauto. }
  assert (forall keep, keep i = false -> bool_decide (flag t ∈ set_flags (retain_cancel keep r)) = true /\
    tasks (retain_cancel keep r) !! id t = None) as Hretain.
  { intros keep Hk. split; [apply bool_decide_eq_true, Hin; by apply map_lookup_filter_Some|]. cbn.
    apply map_lookup_filter_None. right. intros x Hx. cbn. assert (x = i) as -> by congruence. congruence. }
  unfold cancelled, valid. destruct Hr' as [->|[->|[->|[->|[(rights & Hno & ->)|[Hsame ->]]]]]].
  - split; [by apply bool_decide_eq_true, Hin|]. intros now. cbn. rewrite lookup_fmap, E. cbn. by rewrite andb_false_r.
  - split; [by apply bool_decide_eq_true, Hin|]. intros now. cbn. by rewrite lookup_empty.
  - unfold cancel. rewrite E. split; [apply bool_decide_eq_true, Hin, lookup_singleton_eq|]. intros now. cbn. by rewrite lookup_delete_eq.
  - unfold cancel_peer. cbn [snd]. destruct (Hretain (fun i => negb (bool_decide (peer (ticket i) = peer t)))) as [-> ->]; [by rewrite bool_decide_eq_true_2|done].
  - unfold cancel_denied. destruct (Hretain (fun i => negb (bool_decide (peer (ticket i) = peer t)) || permitted rights (direction (ticket i)))) as [-> ->]; [|done].
    by rewrite bool_decide_eq_true_2, Hd, Hno.
  - unfold stop_ticket. rewrite Hsame, E. split; [apply bool_decide_eq_true, Hin, lookup_singleton_eq|]. intros now. cbn.
    rewrite lookup_insert_eq. cbn. by rewrite andb_false_r.
Qed.

(** A lost transfer is resumed once its connection is ready, and stopped by the setting. *)
Definition history : list op :=
  [Enable true; Enroll [7] [1] Send 0; Lost [1] 0; Due SECOND (fun _ _ => true) (fun _ => false)].

Lemma recovery_bounded_witness : let (jobs, r) := run history initial in
  length jobs = 1%nat /\ forall t, t ∈ jobs -> valid t (2 * SECOND) r = true -> cancelled t r = false.
Proof.
  pose proof (recovery_bounded history ltac:(cbn; unfold U64_MAX; lia)) as Hb. destruct (run history initial) as [jobs r] eqn:E.
  split; [vm_compute in E; injection E as <- _; reflexivity|]. intros t Ht Hv. by destruct (proj1 (proj2 (proj2 Hb)) t _ Ht Hv).
Defined.

Lemma revocation_reaches_workers_witness : let (jobs, r) := run history initial in
  exists t, t ∈ jobs /\ valid t (2 * SECOND) r = true /\ cancelled t (enable false r) = true.
Proof.
  pose proof (revocation_reaches_workers history ltac:(cbn; unfold U64_MAX; lia)) as Hb. destruct (run history initial) as [jobs r] eqn:E.
  vm_compute in E. injection E as <- <-. eexists. split; [by apply elem_of_cons; left|]. split; [vm_compute; reflexivity|].
  eapply Hb; [by apply elem_of_cons; left|vm_compute; reflexivity|reflexivity|by left].
Defined.
End AutoResume.
