(* ===== verification/TaskStore.v ===== *)
(** * The task store (src/node/core/task_store.rs, task_recovery.rs, task_events.rs)

    Versioned snapshots of all task records, replaced atomically on the disk of
    [FileSystem]; the events that mirror the changes; the interruption of
    unfinished tasks at startup.  [serde_json] is a parameter ([Json]).  The
    directory of the store is the directory of the file system; what [open] does
    before touching the snapshot (checks of the path, private directory, lock
    file) is an argument, and so is the check of the permission bits. *)
From Stdlib Require Import ZArith Lia.
From stdpp Require Import prelude gmap strings.
From S2P Require Import Prelude Manifest Message State FileSystem Identity TaskModel.

#[local] Open Scope Z_scope.

(** ** Events *)

Module TaskEvents.
Import TaskModel.

Definition MAX_PENDING_EVENTS : nat := 256.

Inductive TaskEventKind : Type :=
  | Created
  | StateChanged (from to : TaskState)
  | Removed
  | RecoveredAfterRestart
  | ProgressHintChanged.

#[global] Instance TaskEventKind_eq_dec : EqDecision TaskEventKind.
Proof. solve_decision. Defined.

Record TaskEvent : Type := mk_event {
  event_task : list Z;
  at_ms : Z;
  kind : TaskEventKind;
}.

Record TaskEventBuffer : Type := mk_buffer {
  events : list TaskEvent;
  resync_required : bool;
}.

Definition empty_buffer : TaskEventBuffer := mk_buffer [] false.

Definition is_progress (e : TaskEvent) : bool := bool_decide (kind e = ProgressHintChanged).

(** [iter_mut().find(..)] and the assignment through it. *)
Fixpoint replace_progress (e : TaskEvent) (l : list TaskEvent) : option (list TaskEvent) :=
  match l with
  | [] => None
  | old :: l' =>
      if bool_decide (event_task old = event_task e) && is_progress old then Some (e :: l')
      else match replace_progress e l' with
           | Some l'' => Some (old :: l'')
           | None => None
           end
  end.

(** [position(..)] and [remove(index)]. *)
Fixpoint remove_progress (l : list TaskEvent) : option (list TaskEvent) :=
  match l with
  | [] => None
  | old :: l' =>
      if is_progress old then Some l'
      else match remove_progress l' with
           | Some l'' => Some (old :: l'')
           | None => None
           end
  end.

(** The end of [push]: make room, then append. *)
Definition append (e : TaskEvent) (b : TaskEventBuffer) : TaskEventBuffer :=
  if (length (events b) =? MAX_PENDING_EVENTS)%nat then
    match remove_progress (events b) with
    | Some l => mk_buffer (l ++ [e]) (resync_required b)
    | None => mk_buffer (tail (events b) ++ [e]) true
    end
  else mk_buffer (events b ++ [e]) (resync_required b).

Definition push (e : TaskEvent) (b : TaskEventBuffer) : TaskEventBuffer :=
  if is_progress e then
    match replace_progress e (events b) with
    | Some l => mk_buffer l (resync_required b)
    | None =>
        if (length (events b) =? MAX_PENDING_EVENTS)%nat then b else append e b
    end
  else append e b.

Definition take_resync_required (b : TaskEventBuffer) : bool * TaskEventBuffer :=
  (resync_required b, mk_buffer (events b) false).

Definition drain (b : TaskEventBuffer) : list TaskEvent * TaskEventBuffer :=
  (events b, mk_buffer [] (resync_required b)).

Definition record (task : list Z) (at_ms : Z) (k : TaskEventKind) (b : TaskEventBuffer) : TaskEventBuffer :=
  push (mk_event task at_ms k) b.

End TaskEvents.

(** ** The store *)

Module TaskStore.
Import TaskModel TaskEvents.

Definition STORE_FORMAT_VERSION : Z := 1.
Definition MAX_STORE_BYTES : Z := 16 * 1024 * 1024.

Inductive TaskStoreError : Type :=
  | IoError (k : io_kind)
  | Corrupt
  | UnsupportedVersion (version : Z)
  | Model (e : TaskModelError)
  | TaskNotFound
  | NotCompleted
  | AlreadyRunning
  | CommitUncertain
  | GenerationExhausted.

Inductive SnapshotWriteError : Type :=
  | BeforeReplace (k : io_kind)
  | AfterReplace.

Record StoreSnapshot : Type := mk_snapshot {
  format_version : Z;
  snapshot_generation : Z;
  snapshot_tasks : list TaskRecord;
}.

(** [serde_json::to_vec] and [serde_json::from_slice] at snapshots. *)
Class Json : Type := {
  to_vec : StoreSnapshot -> option (list Z);
  from_slice : list Z -> option StoreSnapshot;
}.

(** Documented: what was serialized parses back. *)
Class JsonLaws `{Json} : Prop :=
  from_to_vec : forall s bs, to_vec s = Some bs -> from_slice bs = Some s.

Record TaskStore : Type := mk_store {
  path : name;
  tasks : list TaskRecord;
  generation : Z;
  buffer : TaskEventBuffer;
  poisoned : bool;
}.

(** A method of the store runs in the store and the world. *)
Record ctx : Type := mk_ctx { store : TaskStore; env : world }.
Abbreviation method := (st ctx TaskStoreError).

Definition self : method TaskStore := gets store.
Definition set_store (s : TaskStore) : method unit := modify (fun c => mk_ctx s (env c)).

(** A call into the operating system. *)
Definition on_env {E A : Type} (f : E -> TaskStoreError) (m : st world E A) : method A :=
  fun c => let (r, w) := m (env c) in (map_err f r, mk_ctx (store c) w).

Definition set_tasks (l : list TaskRecord) (generation : Z) (s : TaskStore) : TaskStore :=
  mk_store (path s) l generation (buffer s) (poisoned s).

Definition emit (task : list Z) (at_ms : Z) (k : TaskEventKind) : method unit :=
  let! s := self in
  set_store (mk_store (path s) (tasks s) (generation s) (record task at_ms k (buffer s)) (poisoned s)).

(** ** Snapshots *)

(** [sort_by] on ids: stable insertion sort in the byte order of strings. *)
Definition id_le (a b : TaskRecord) : bool := Message.bytes_le (utf8 (task_id a)) (utf8 (task_id b)).

Fixpoint insert_task (t : TaskRecord) (l : list TaskRecord) : list TaskRecord :=
  match l with
  | [] => [t]
  | u :: l' => if id_le t u then t :: u :: l' else u :: insert_task t l'
  end.

Definition sort_tasks (l : list TaskRecord) : list TaskRecord := foldr insert_task [] l.

Definition validate_unique_ids (l : list TaskRecord) : outcome TaskStoreError unit :=
  fail_if (negb (bool_decide (NoDup (map task_id l)))) Corrupt.

Section Store.
Context `{Blake3} `{Hex} `{HexDecode} `{Json}.

(** [for task in .. { task.validate()?; }]. *)
Definition validate_all (l : list TaskRecord) : outcome TaskStoreError unit :=
  fold_outcome (fun _ t => map_err Model (validate t)) tt l.

Definition validate_snapshot (s : StoreSnapshot) : outcome TaskStoreError unit :=
  let? _ := fail_if (negb (format_version s =? STORE_FORMAT_VERSION)) (UnsupportedVersion (format_version s)) in
  let? _ := validate_all (snapshot_tasks s) in
  validate_unique_ids (snapshot_tasks s).

(** The error of a call on the disk; every one is an [io::Error]. *)
Definition kind_of (e : error) : io_kind := match e with Io k => k | _ => OtherKind end.
Definition sys {E A : Type} (f : io_kind -> E) (m : st world error A) : st world E A :=
  fun w => let (r, w') := m w in (map_err (fun e => f (kind_of e)) r, w').
Abbreviation io := (sys BeforeReplace).

(** [symlink_metadata]: a regular file, and its length. *)
Definition fs_metadata (n : name) (d : fs) : outcome io_kind (bool * Z * fs) :=
  match dir d !! n with
  | Some i => Ok (regular (inode_of d i), Z.of_nat (length (content d i)), d)
  | None => Err NotFound
  end.

(** [read_to_end]. *)
Definition fs_read_all (i : Z) (d : fs) : outcome io_kind (list Z * fs) := Ok (content d i, d).

(** [process::id()] is an argument. *)
Definition temp_name (target : name) (pid random : Z) : name :=
  target ++ [46] ++ decimal pid ++ [46] ++ decimal random ++ lit ".tmp".

Fixpoint create_unique_temp (attempts : nat) (target : name) (pid : Z) :
    st world SnapshotWriteError (name * Z) :=
  match attempts with
  | O => throw (BeforeReplace AlreadyExists)
  | S attempts' =>
      let! random := io random_u128 in
      let candidate := temp_name target pid (random mod (U64_MAX + 1)) in
      let! opened := attempt (io (syscall (fs_create_new candidate))) in
      match opened with
      | Ok file => ret (candidate, file)
      | Err (BeforeReplace AlreadyExists) => create_unique_temp attempts' target pid
      | Err e => throw e
      | Panic => panic
      end
  end.

(** Run [m]; when it fails, drop [TempFileCleanup]. *)
Definition or_cleanup {A : Type} (temp : name) (m : st world SnapshotWriteError A) :
    st world SnapshotWriteError A :=
  let! r := attempt m in
  match r with
  | Ok a => ret a
  | Err e => let! _ := attempt (io (syscall (fs_remove temp))) in throw e
  | Panic => panic
  end.

Definition write_snapshot (target : name) (pid : Z) (s : StoreSnapshot) : st world SnapshotWriteError unit :=
  let! bytes := liftr (ok_or (to_vec s) (BeforeReplace InvalidData)) in
  let! _ := liftr (fail_if (MAX_STORE_BYTES <? Z.of_nat (length bytes)) (BeforeReplace InvalidData)) in
  let! (temp, file) := create_unique_temp 32 target pid in
  let! _ := or_cleanup temp
              (let! _ := io (sys_write file 0 bytes) in
               let! _ := io (syscall (fs_sync file)) in
               io (syscall (fs_rename temp target))) in
  let! synced := attempt (io (syscall fs_sync_dir)) in
  match synced with
  | Ok _ => ret tt
  | Err _ => throw AfterReplace
  | Panic => panic
  end.

(** [private]: the permission bits allow nothing to others. *)
Definition read_snapshot (target : name) (private : bool) : st world TaskStoreError (option StoreSnapshot) :=
  let! meta := attempt (sys IoError (syscall (fs_metadata target))) in
  match meta with
  | Err (IoError NotFound) => ret None
  | Err e => throw e
  | Panic => panic
  | Ok (regular, len) =>
      let! _ := liftr (fail_if (negb regular || (MAX_STORE_BYTES <? len)) Corrupt) in
      let! _ := liftr (fail_if (negb private) (IoError PermissionDenied)) in
      let! file := sys IoError (syscall (fs_open target)) in
      let! bytes := sys IoError (syscall (fs_read_all file)) in
      let! snapshot := liftr (ok_or (from_slice bytes) Corrupt) in
      let! _ := liftr (fail_if (negb (format_version snapshot =? STORE_FORMAT_VERSION))
                         (UnsupportedVersion (format_version snapshot))) in
      ret (Some snapshot)
  end.

(** ** Committing *)

Context (pid : Z).

Definition ensure_healthy : method unit :=
  let! s := self in
  liftr (fail_if (poisoned s) CommitUncertain).

Definition commit_tasks (candidate : list TaskRecord) : method unit :=
  let! _ := ensure_healthy in
  let candidate := sort_tasks candidate in
  let! _ := liftr (validate_all candidate) in
  let! _ := liftr (validate_unique_ids candidate) in
  let! s := self in
  let! generation := liftr (ok_or (checked_add U64_MAX (generation s) 1) GenerationExhausted) in
  let! result := attempt (on_env (fun e => match e with
                                           | BeforeReplace k => IoError k
                                           | AfterReplace => CommitUncertain
                                           end)
                            (write_snapshot (path s) pid (mk_snapshot STORE_FORMAT_VERSION generation candidate))) in
  match result with
  | Ok _ => set_store (set_tasks candidate generation s)
  | Err CommitUncertain =>
      let! _ := set_store (mk_store (path s) (tasks s) (TaskStore.generation s) (buffer s) true) in
      throw CommitUncertain
  | Err e => throw e
  | Panic => panic
  end.

Definition commit_current_tasks : method unit :=
  let! s := self in commit_tasks (tasks s).

(** ** Opening *)

(** [system_time_unix_ms]: the clock of the world, when it fits. *)
Definition I64_MAX : Z := 9223372036854775807.
Definition system_time : st world TaskModelError Z :=
  fun w =>
    let t := hd 0 (clock w) in
    let w' := mk_world (disk w) (faults w) (tail (clock w)) (rng w) in
    (if (t <? 0) || (I64_MAX <? t) then Err ClockOutOfRange else Ok t, w').

(** [recover_startup]: the records and the ids interrupted. *)
Fixpoint recover_loop (now : Z) (l : list TaskRecord) :
    outcome TaskModelError (list TaskRecord * list (list Z)) :=
  match l with
  | [] => Ok ([], [])
  | t :: l' =>
      if needs_startup_recovery (state t) then
        match transition_to Interrupted (Some (mk_diagnostic ApplicationRestarted false)) now t with
        | (Ok _, t') =>
            let? (rest, ids) := recover_loop now l' in
            Ok (t' :: rest, task_id t' :: ids)
        | (Err e, _) => Err e
        | (Panic, _) => Panic
        end
      else
        let? (rest, ids) := recover_loop now l' in
        Ok (t :: rest, ids)
  end.

Definition recover_startup (l : list TaskRecord) :
    st world TaskModelError (list TaskRecord * list (list Z)) :=
  let! now := system_time in
  liftr (recover_loop now l).

Definition find_task (id : list Z) (l : list TaskRecord) : option TaskRecord :=
  List.find (fun t => bool_decide (task_id t = id)) l.

Definition task (id : list Z) : method TaskRecord :=
  let! s := self in
  liftr (ok_or (find_task id (tasks s)) TaskNotFound).

(** [path.exists()]: any failure counts as absent. *)
Definition exists_ (n : name) : st world TaskStoreError bool :=
  let! r := attempt (sys IoError (syscall (fs_stat n))) in
  match r with Ok _ => ret true | Err _ => ret false | Panic => panic end.

(** The part of [open] before the store exists. *)
Definition load (setup : outcome TaskStoreError unit) (target : name) (private : bool) :
    st world TaskStoreError (list TaskRecord * Z * list (list Z)) :=
  let! _ := liftr setup in
  let! found := read_snapshot target private in
  let! (tasks, generation) :=
    match found with
    | Some snapshot =>
        let! _ := liftr (validate_snapshot snapshot) in
        ret (snapshot_tasks snapshot, snapshot_generation snapshot)
    | None => ret ([], 0)
    end in
  let! (tasks, interrupted) :=
    (fun w => let (r, w') := recover_startup tasks w in (map_err Model r, w')) in
  ret (tasks, generation, interrupted).

(** The events and the first commit of [open]. *)
Definition start (interrupted : list (list Z)) : method unit :=
  let! s := self in
  let! present := on_env id (exists_ (path s)) in
  let! _ :=
    if present then
      for_each (fun id => let! t := task id in emit id (updated_at t) RecoveredAfterRestart) interrupted
    else ret tt in
  let! present := on_env id (exists_ (path s)) in
  if negb present || negb (bool_decide (interrupted = [])) then commit_current_tasks else ret tt.

Definition open (setup : outcome TaskStoreError unit) (target : name) (private : bool) :
    st world TaskStoreError (TaskStore * list (list Z)) :=
  let! (tasks, generation, interrupted) := load setup target private in
  fun w =>
    let (r, c) := start interrupted (mk_ctx (mk_store target tasks generation empty_buffer false) w) in
    (let? _ := r in Ok (store c, interrupted), env c).

(** ** Operations *)

Definition list_tasks (s : TaskStore) : list TaskRecord := tasks s.

(** Find the record in a copy of the list and change it there: the record before
    and after, and the copy. *)
Fixpoint change (id : list Z) (m : st TaskRecord TaskModelError unit) (l : list TaskRecord) :
    outcome TaskStoreError (TaskRecord * TaskRecord * list TaskRecord) :=
  match l with
  | [] => Err TaskNotFound
  | t :: l' =>
      if bool_decide (task_id t = id) then
        match m t with
        | (Ok _, t') => Ok (t, t', t' :: l')
        | (Err e, _) => Err (Model e)
        | (Panic, _) => Panic
        end
      else
        let? (before, after, rest) := change id m l' in
        Ok (before, after, t :: rest)
  end.

Definition now : method Z := on_env Model system_time.

Definition remove_completed (id : list Z) : method unit :=
  let! _ := ensure_healthy in
  let! s := self in
  let! t := liftr (ok_or (find_task id (tasks s)) TaskNotFound) in
  let! _ := liftr (fail_if (negb (bool_decide (state t = Completed))) NotCompleted) in
  let! removed_at := now in
  let! _ := commit_tasks (List.filter (fun t => negb (bool_decide (task_id t = id))) (tasks s)) in
  emit id removed_at Removed.

(** The groups that keep a member, and the ids to remove ([BTreeSet] order). *)
Definition blocked_groups (requested : gset (list Z)) (l : list TaskRecord) : list (list Z) :=
  concat (map (fun t =>
    if negb (bool_decide (state t = Completed)) || negb (bool_decide (task_id t ∈ requested))
    then match group_id t with Some g => [g] | None => [] end
    else []) l).

Definition removable (requested : gset (list Z)) (blocked : list (list Z)) (t : TaskRecord) : bool :=
  bool_decide (state t = Completed) && bool_decide (task_id t ∈ requested) &&
  match group_id t with Some g => negb (bool_decide (g ∈ blocked)) | None => true end.

Definition remove_completed_batch (requested : gset (list Z)) : method (list (list Z)) :=
  let! _ := ensure_healthy in
  let! s := self in
  let blocked := blocked_groups requested (tasks s) in
  let removed := map task_id (sort_tasks (List.filter (removable requested blocked) (tasks s))) in
  if bool_decide (removed = []) then ret []
  else
    let candidate := List.filter (fun t => negb (bool_decide (task_id t ∈ removed))) (tasks s) in
    let! timestamp := now in
    let! _ := commit_tasks candidate in
    let! _ := for_each (fun id => emit id timestamp Removed) removed in
    ret removed.

Definition create (t : TaskRecord) : method (list Z) :=
  let! _ := ensure_healthy in
  let! _ := liftr (map_err Model (validate t)) in
  let! _ := liftr (fail_if (negb (bool_decide (state t = Scanning))) (Model NewTaskMustStartScanning)) in
  let! s := self in
  let! _ := liftr (fail_if (existsb (fun e => bool_decide (task_id e = task_id t)) (tasks s)) Corrupt) in
  let! _ := commit_tasks (sort_tasks (tasks s ++ [t])) in
  let! _ := emit (task_id t) (created_at t) Created in
  ret (task_id t).

(** The loop of [create_selection]: the candidate and the ids. *)
Fixpoint collect_selection (records candidate : list TaskRecord) (ids : list (list Z)) :
    outcome TaskStoreError (list TaskRecord * list (list Z)) :=
  match records with
  | [] => Ok (candidate, ids)
  | r :: rest =>
      let? _ := map_err Model (validate r) in
      let? _ := fail_if (negb (bool_decide (state r = Scanning)) ||
                         existsb (fun t => bool_decide (task_id t = task_id r)) candidate) Corrupt in
      collect_selection rest (candidate ++ [r]) (ids ++ [task_id r])
  end.

Definition create_selection (records : list TaskRecord) : method (list (list Z)) :=
  let! _ := ensure_healthy in
  let! s := self in
  let! (candidate, ids) := liftr (collect_selection records (tasks s) []) in
  let! _ := commit_tasks (sort_tasks candidate) in
  let! _ := for_each (fun id => let! t := task id in emit id (created_at t) Created) ids in
  ret ids.

Definition transition (id : list Z) (next : TaskState) (diag : option TaskDiagnostic) (now_ms : Z) : method unit :=
  let! _ := ensure_healthy in
  let! s := self in
  let! (before, after, candidate) := liftr (change id (transition_to next diag now_ms) (tasks s)) in
  let! current := liftr (ok_or (find_task id (tasks s)) TaskNotFound) in
  let! _ := liftr (map_err Model (validate_binding_unchanged after current)) in
  let! _ := commit_tasks candidate in
  emit id (updated_at after) (StateChanged (state before) next).

Definition user_cancelled (t : TaskRecord) : bool :=
  match diagnostic t with Some d => bool_decide (code d = UserCancelled) | None => false end.

Definition cancel (id : list Z) : method unit :=
  let! _ := ensure_healthy in
  let! s := self in
  let! t := liftr (ok_or (find_task id (tasks s)) TaskNotFound) in
  if user_cancelled t then ret tt
  else
    let! at_ := now in
    let! (before, after, candidate) := liftr (change id (TaskModel.cancel at_) (tasks s)) in
    let! _ := commit_tasks candidate in
    emit id (updated_at after) (StateChanged (state before) Failed).

(** Change the record and commit, with no event. *)
Definition commit_change (id : list Z) (m : st TaskRecord TaskModelError unit) : method unit :=
  let! _ := ensure_healthy in
  let! s := self in
  let! (_, _, candidate) := liftr (change id m (tasks s)) in
  commit_tasks candidate.

Definition prepare_publication (id : list Z) : method unit := commit_change id TaskModel.prepare_publication.
Definition enable_incremental (id : list Z) : method unit := commit_change id TaskModel.enable_incremental.

(** Change the record to Completed, commit, and say so. *)
Definition complete_with (id : list Z) (m : st TaskRecord TaskModelError unit) (now_ms : Z) : method unit :=
  let! _ := ensure_healthy in
  let! s := self in
  let! (before, _, candidate) := liftr (change id m (tasks s)) in
  let! _ := commit_tasks candidate in
  emit id now_ms (StateChanged (state before) Completed).

Definition commit_skipped (id : list Z) (now_ms : Z) : method unit :=
  complete_with id (TaskModel.commit_skipped now_ms) now_ms.
Definition commit_receipt (id : list Z) (now_ms : Z) : method unit :=
  complete_with id (TaskModel.commit_receipt now_ms) now_ms.

(** In memory only. *)
Definition set_progress_hint (id : list Z) (hint : ProgressHint) : method unit :=
  let! _ := ensure_healthy in
  let! s := self in
  let! (_, _, candidate) := liftr (change id (TaskModel.set_progress_hint hint) (tasks s)) in
  let! _ := set_store (set_tasks candidate (generation s) s) in
  emit id (sampled_at hint) ProgressHintChanged.

Definition with_buffer {A : Type} (f : TaskEventBuffer -> A * TaskEventBuffer) : method A :=
  let! s := self in
  let (a, b) := f (buffer s) in
  let! _ := set_store (mk_store (path s) (tasks s) (generation s) b (poisoned s)) in
  ret a.

Definition drain_events : method (list TaskEvent) := with_buffer drain.
Definition take_event_resync_required : method bool := with_buffer take_resync_required.

End Store.
End TaskStore.
