(* ===== verification/TaskStoreProof.v ===== *)
(** * The task store: the properties *)
From Stdlib Require Import ZArith Lia Sorting.Sorted.
From stdpp Require Import prelude gmap strings.
From S2P Require Import Prelude Manifest Message State FileSystem Durable Identity Hexadecimal TaskProtocol TaskModel TaskModelProof TaskStore.

#[local] Open Scope Z_scope.

Module TaskStoreProof.
Import Durable TaskModel TaskEvents TaskStore TaskModelProof.

Lemma temp_name_ne target pid r : temp_name target pid r <> target.
Proof.
  unfold temp_name. intros E. apply (f_equal length) in E. rewrite !length_app in E. cbn in E. lia.
Qed.

Lemma wp_sys {E A} (f : io_kind -> E) (m : st world error A) (Q : A -> world -> Prop) (R : E -> world -> Prop) w :
  wp m Q (fun e w' => R (f (kind_of e)) w') w -> wp (sys f m) Q R w.
Proof. unfold wp, sys. by destruct (m w) as [[a|e|] w']. Qed.

Lemma wp_create_temp attempts target pid w :
  sane (disk w) ->
  wp (create_unique_temp attempts target pid)
    (fun r w' => staged target r.1 r.2 (disk w) (disk w') /\ inode_of (disk w') r.2 = empty_inode)
    (fun e w' => (exists k, e = BeforeReplace k) /\ disk w' = disk w) w.
Proof.
  revert w. induction attempts as [|attempts IH]; intros w Hs; cbn [create_unique_temp].
  { apply wp_throw. by split; [eexists|]. }
  apply wp_bind, wp_sys, wp_random_u128. intros r w1 E1.
  set (temp := temp_name target pid _).
  assert (temp <> target) as Hne by apply temp_name_ne. clearbody temp.
  apply wp_bind, wp_attempt, wp_sys, wp_syscall.
  { intros k w2 Hk E2. assert (k <> AlreadyExists) as Hka by (by intros ->). cbn [kind_of].
    destruct k; try done; (apply wp_throw; split; [by eexists|congruence]). }
  unfold fs_create_new. destruct (dir (disk w1) !! temp) eqn:Hf.
  - intros w2 E2. cbn [kind_of]. eapply wp_conseq; [apply IH; by rewrite E2, E1|..]; cbn beta; by rewrite E2, E1.
  - intros w2 E2. apply wp_ret. cbn [fst snd FileSystem.new_file]. rewrite E2, <- E1. rewrite <- E1 in Hs. split.
    + by apply (keeps_create target temp (disk w1)).
    + unfold inode_of. cbn. by rewrite lookup_insert_eq.
Qed.

Section Writing.
Context `{Json}.

Definition write_failed (n : name) (o : option (list Z)) (s : StoreSnapshot) (e : SnapshotWriteError) (d : fs) : Prop :=
  sane d /\
  match e with
  | BeforeReplace _ => on_disk n o d
  | AfterReplace => exists bs, to_vec s = Some bs /\ Z.of_nat (length bs) <= MAX_STORE_BYTES /\ replaced n o bs d
  end.

(** Dropping [TempFileCleanup]. *)
Lemma wp_drop_temp {A} n temp o s k d w (Q : A -> world -> Prop) :
  sane d -> on_disk n o d -> keeps n d (disk w) -> temp <> n ->
  wp (let! _ := attempt (sys BeforeReplace (syscall (fs_remove temp))) in throw (BeforeReplace k)) Q
    (fun e w' => write_failed n o s e (disk w')) w.
Proof.
  intros Hs Ho Hk Hne.
  assert (forall d', keeps n d d' -> write_failed n o s (BeforeReplace k) d') as Hd.
  { intros d' Hk'. split; [by apply (keeps_sane n d)|]. by apply (keeps_on_disk n o d). }
  apply wp_bind, wp_attempt, wp_sys, wp_syscall.
  - intros k' w' _ E. apply wp_throw, Hd. by rewrite E.
  - unfold fs_remove. destruct (dir (disk w) !! temp); intros w' E; apply wp_throw, Hd; rewrite E; [|done].
    by apply keeps_remove.
Qed.

(** From the empty staged file to the renamed one. *)
Lemma wp_stage n temp i o s bs d w : sane d -> on_disk n o d ->
  staged n temp i d (disk w) -> inode_of (disk w) i = empty_inode ->
  wp (or_cleanup temp
        (let! _ := sys BeforeReplace (sys_write i 0 bs) in
         let! _ := sys BeforeReplace (syscall (fs_sync i)) in
         sys BeforeReplace (syscall (fs_rename temp n))))
    (fun _ w' => sane (disk w') /\ replaced n o bs (disk w'))
    (fun e w' => write_failed n o s e (disk w')) w.
Proof.
  intros Hs Ho (Hk & Hne & Ht & Hi) Ei. unfold or_cleanup.
  assert (forall nd, keeps n d (set_inode i nd (disk w))) as Hkeep
    by (intros nd; apply keeps_set_inode; [done|lia]).
  apply wp_bind, wp_attempt, wp_bind, wp_sys, wp_sys_write.
  { intros k m w1 _ E1. apply (wp_drop_temp n temp o s _ d); try done. rewrite E1. apply Hkeep. }
  intros w1 E1. apply wp_bind, wp_sys, wp_syscall.
  { intros k w2 _ E2. apply (wp_drop_temp n temp o s _ d); try done. rewrite E2, E1. apply Hkeep. }
  cbn [fs_sync]. intros w2 E2.
  assert (disk w2 = set_inode i (mk_inode bs bs true) (disk w)) as Ew.
  { rewrite E2, E1. unfold write_content, set_content, content, set_inode, inode_of in *. cbn.
    rewrite lookup_insert_eq. cbn. rewrite insert_insert_eq, Ei. cbn. unfold splice. cbn.
    by rewrite drop_nil, app_nil_r. }
  apply wp_sys, wp_syscall.
  { intros k w3 _ E3. apply (wp_drop_temp n temp o s _ d); try done. rewrite E3, Ew. apply Hkeep. }
  unfold fs_rename. rewrite Ew. cbn [dir set_inode]. rewrite Ht. intros w3 E3. apply wp_ret. rewrite E3.
  destruct (Hkeep (mk_inode bs bs true)) as [K1 K2 K3 K4 K5]. split; [|split].
  - intros m j [Hj|Hj]; cbn in *; [|by apply (K4 m); right].
    apply lookup_insert_Some in Hj as [[_ <-]|[_ Hj]]; [apply (K4 temp); by left|].
    apply lookup_delete_Some in Hj as [_ Hj]. apply (K4 m). by left.
  - exists i. cbn. rewrite lookup_insert_eq. split; [done|]. unfold inode_of. cbn. by rewrite lookup_insert_eq.
  - cbn. rewrite (keeps_syn n d _ Hk). destruct o as [old|]; cbn in Ho.
    + destruct Ho as (j & _ & E & Ej). exists j. split; [done|]. rewrite <- Ej. symmetry.
      rewrite <- (K3 j); [done|]. apply (Hs n). by right.
    + apply Ho.
Qed.

Lemma wp_write_snapshot n pid s w o : sane (disk w) -> on_disk n o (disk w) ->
  wp (write_snapshot n pid s)
    (fun _ w' => exists bs, to_vec s = Some bs /\ Z.of_nat (length bs) <= MAX_STORE_BYTES /\ sane (disk w') /\
       on_disk n (Some bs) (disk w'))
    (fun e w' => write_failed n o s e (disk w')) w.
Proof.
  intros Hs Ho. unfold write_snapshot. apply wp_bind, wp_liftr.
  destruct (to_vec s) as [bs|] eqn:Ev; cbn [ok_or]; [|by split].
  apply wp_bind, wp_liftr. destruct (Z.ltb_spec MAX_STORE_BYTES (Z.of_nat (length bs))); cbn [fail_if]; [by split|].
  apply wp_bind. eapply wp_conseq; [by apply wp_create_temp| |]; cbn beta.
  2: { intros e w' [[k ->] E]. split; rewrite E; done. }
  intros [temp i] w1 [Hst Ei]. cbn [fst snd] in *. apply wp_bind.
  eapply wp_conseq; [by apply (wp_stage n temp i o s bs (disk w))| |done]. cbn beta.
  intros _ w2 [Hs2 Hr]. apply wp_bind, wp_attempt, wp_sys, wp_syscall.
  - intros k w3 _ E3. apply wp_throw. unfold write_failed. rewrite E3. split; [done|]. by exists bs.
  - cbn [fs_sync_dir]. intros w3 E3. apply wp_ret. exists bs. split; [done|]. split; [done|]. rewrite E3. split.
    + intros m j Hj. cbn in *. apply (Hs2 m). naive_solver.
    + destruct Hr as [(j & E & Ej) _]. exists j. done.
Qed.

End Writing.

(** ** Sorting *)

Lemma id_le_total a b : id_le a b = false -> id_le b a = true.
Proof. apply Message.bytes_le_total. Qed.

Lemma insert_task_perm t l : insert_task t l ≡ₚ t :: l.
Proof.
  induction l as [|u l IH]; [done|]. cbn. destruct (id_le t u); [done|]. by rewrite IH, Permutation_swap.
Qed.

Lemma sort_tasks_perm l : sort_tasks l ≡ₚ l.
Proof. induction l as [|t l IH]; [done|]. cbn. by rewrite insert_task_perm, IH. Qed.

Definition sorted_ids (l : list TaskRecord) : Prop := Sorted (fun a b => id_le a b = true) l.

Lemma insert_task_sorted t l : sorted_ids l -> sorted_ids (insert_task t l).
Proof.
  unfold sorted_ids. induction 1 as [|u l Hl IH Hu]; [by repeat constructor|]. cbn.
  destruct (id_le t u) eqn:E; [by repeat constructor|]. constructor; [done|].
  apply id_le_total in E. destruct l as [|v l]; cbn; [by constructor|].
  destruct (id_le t v); constructor; [done|]. by inversion Hu.
Qed.

Lemma sort_tasks_sorted l : sorted_ids (sort_tasks l).
Proof. induction l as [|t l IH]; [constructor|]. cbn. by apply insert_task_sorted. Qed.

(** ** Committing *)

Lemma wp_on_env {E A} (f : E -> TaskStoreError) (m : st world E A) (Q : A -> ctx -> Prop)
    (R : TaskStoreError -> ctx -> Prop) c :
  wp m (fun a w => Q a (mk_ctx (store c) w)) (fun e w => R (f e) (mk_ctx (store c) w)) (env c) ->
  wp (on_env f m) Q R c.
Proof. unfold wp, on_env. by destruct (m (env c)) as [[a|e|] w]. Qed.

Section Committing.
Context `{Blake3} `{Hex} `{HexDecode} `{Json}.
Context (pid : Z).

Lemma validate_all_cases l :
  (validate_all l = Ok tt /\ Forall valid l) \/ exists e, validate_all l = Err (Model e).
Proof.
  unfold validate_all. generalize tt at 1 3. induction l as [|t l IH]; intros u; [by left; destruct u|]. cbn.
  pose proof (returns_validate t) as Hr. unfold valid at 1. unfold returns in Hr.
  destruct (validate t) as [[]|e|] eqn:Ev; cbn; [|right; by eexists|done].
  destruct (IH tt) as [[-> Hl]|[e ->]]; [left; split; [done|by constructor]|right; by eexists].
Qed.

Lemma unique_cases l :
  (validate_unique_ids l = Ok tt /\ NoDup (map task_id l)) \/ validate_unique_ids l = Err Corrupt.
Proof. unfold validate_unique_ids. case_bool_decide; cbn; auto. Qed.

(** A snapshot that the store can have written. *)
Definition snapshot_of (g : Z) (l : list TaskRecord) (bs : list Z) : Prop :=
  to_vec (mk_snapshot STORE_FORMAT_VERSION g l) = Some bs /\ Z.of_nat (length bs) <= MAX_STORE_BYTES /\
  Forall valid l /\ NoDup (map task_id l) /\ sorted_ids l.

Definition poison (s : TaskStore) : TaskStore := mk_store (path s) (tasks s) (generation s) (buffer s) true.

Lemma wp_commit_base candidate c o :
  sane (disk (env c)) -> on_disk (path (store c)) o (disk (env c)) -> poisoned (store c) = false ->
  let s := store c in
  let g := generation s + 1 in
  wp (commit_tasks pid candidate)
    (fun _ c' => exists bs, g <= U64_MAX /\ snapshot_of g (sort_tasks candidate) bs /\
       store c' = set_tasks (sort_tasks candidate) g s /\
       sane (disk (env c')) /\ on_disk (path s) (Some bs) (disk (env c')))
    (fun e c' => sane (disk (env c')) /\
       ((e <> CommitUncertain /\ store c' = s /\ on_disk (path s) o (disk (env c'))) \/
        (e = CommitUncertain /\ store c' = poison s /\
         exists bs, snapshot_of g (sort_tasks candidate) bs /\ replaced (path s) o bs (disk (env c'))))) c.
Proof.
  intros Hs Ho Hp s g. unfold commit_tasks, ensure_healthy, self.
  apply wp_bind, wp_bind, wp_gets, wp_liftr. rewrite Hp. cbn [fail_if].
  cbv zeta. apply wp_bind, wp_liftr.
  destruct (validate_all_cases (sort_tasks candidate)) as [[-> Hv]|[e ->]]; [|split; [done|by left]].
  apply wp_bind, wp_liftr.
  destruct (unique_cases (sort_tasks candidate)) as [[-> Hn]| ->]; [|split; [done|by left]].
  apply wp_bind, wp_gets, wp_bind, wp_liftr. fold s.
  destruct (checked_add U64_MAX (generation s) 1) as [g'|] eqn:Eg; cbn [ok_or]; [|split; [done|by left]].
  apply checked_add_Some in Eg as [-> Hg]. fold g.
  apply wp_bind, wp_attempt, wp_on_env. eapply wp_conseq; [by apply wp_write_snapshot| |]; cbn beta.
  - intros _ w (bs & Eb & Hl & Hs' & Ho'). apply wp_modify. exists bs. cbn. split; [lia|].
    split; [do 4 (split; [done|]); apply sort_tasks_sorted|done].
  - intros e w [Hs' He]. destruct e as [k|]; cbn.
    + apply wp_throw. split; [done|by left].
    + apply wp_bind, wp_modify, wp_throw. split; [done|]. right. split; [done|]. split; [done|].
      destruct He as (bs & Eb & Hl & Hr). exists bs. split; [|done].
      do 4 (split; [done|]). apply sort_tasks_sorted.
Qed.

(** ** The invariant of a store *)

Definition same_but_hint (t t' : TaskRecord) : Prop := exists h, t' = set_hint h t.

(** What one operation may do to the records: each stays as it is or evolves by
    one sound step, only completed ones disappear, only scanning ones appear. *)
Definition history_step (l l' : list TaskRecord) : Prop :=
  forall id,
  match find_task id l, find_task id l' with
  | Some t, Some t' => t' = t \/ op_result t t'
  | Some t, None => state t = Completed
  | None, Some t' => state t' = Scanning
  | None, None => True
  end.

(** The records in memory are those of the last snapshot, up to progress hints,
    and that snapshot is on the disk; once poisoned, the next one may be, which is one
    sound step further. *)
Definition backed (s : TaskStore) (d : fs) : Prop :=
  exists bs l, snapshot_of (generation s) l bs /\ Forall2 same_but_hint l (tasks s) /\
    (if poisoned s
     then exists bs' l', snapshot_of (generation s + 1) l' bs' /\ history_step (tasks s) l' /\ replaced (path s) (Some bs) bs' d
     else on_disk (path s) (Some bs) d).

Record store_inv (c : ctx) : Prop := {
  si_sane : sane (disk (env c));
  si_valid : Forall valid (tasks (store c));
  si_unique : NoDup (map task_id (tasks (store c)));
  si_sorted : sorted_ids (tasks (store c));
  si_backed : backed (store c) (disk (env c));
}.

Lemma same_but_hint_refl t : same_but_hint t t.
Proof. exists (progress_hint t). by destruct t. Qed.

Lemma same_but_hint_list l : Forall2 same_but_hint l l.
Proof. induction l; constructor; auto using same_but_hint_refl. Qed.

Lemma emit_inv c s : store_inv c -> path s = path (store c) -> tasks s = tasks (store c) ->
  generation s = generation (store c) -> poisoned s = poisoned (store c) -> store_inv (mk_ctx s (env c)).
Proof.
  intros [Hs Hv Hn Hsort Hb] E1 E2 E3 E4. split; cbn; rewrite ?E2; try done.
  unfold backed in *. by rewrite E1, E2, E3, E4.
Qed.

Lemma wp_emit id t k c (Q : unit -> ctx -> Prop) (R : TaskStoreError -> ctx -> Prop) :
  (forall c', (store_inv c -> store_inv c') -> env c' = env c -> tasks (store c') = tasks (store c) ->
     generation (store c') = generation (store c) -> poisoned (store c') = poisoned (store c) ->
     path (store c') = path (store c) -> Q tt c') ->
  wp (emit id t k) Q R c.
Proof.
  intros HQ. unfold emit, self, set_store. apply wp_bind, wp_gets, wp_modify. apply HQ; try done.
  intros Hi. by apply emit_inv.
Qed.

(** ** Changing one record *)

Lemma change_spec id (m : st TaskRecord TaskModelError unit) l :
  match change id m l with
  | Ok (before, after, l') => exists l1 l2, l = l1 ++ before :: l2 /\ l' = l1 ++ after :: l2 /\
      task_id before = id /\ (exists u, m before = (Ok u, after)) /\ find_task id l = Some before
  | Err (Model e) => True
  | Err e => e = TaskNotFound
  | Panic => exists t t', t ∈ l /\ m t = (Panic, t')
  end.
Proof.
  induction l as [|t l IH]; [done|]. cbn. case_bool_decide as Et.
  - destruct (m t) as [[u|e|] t'] eqn:Em; cbn; [|done|exists t, t'; split; [by left|done]].
    exists [], l. repeat split; eauto.
  - destruct (change id m l) as [[[b a] l']|e|]; cbn.
    + destruct IH as (l1 & l2 & -> & -> & Hb & Hm & Hf). exists (t :: l1), l2. repeat split; auto.
    + done.
    + destruct IH as (x & y & Hx & E). exists x, y. split; [by right|done].
Qed.

Lemma find_task_Some id l t : NoDup (map task_id l) ->
  find_task id l = Some t <-> t ∈ l /\ task_id t = id.
Proof.
  unfold find_task. induction l as [|u l IH]; cbn [map List.find].
  - intros _. split; [done|]. intros [Ht _]. by apply elem_of_nil in Ht.
  - intros [Hu Hn]%NoDup_cons. case_bool_decide as Eu.
    + split; [intros [= ->]; split; [by left|done]|]. intros [Ht Et].
      apply elem_of_cons in Ht as [->|Ht]; [done|]. exfalso. apply Hu. rewrite Eu, <- Et.
      apply list_elem_of_fmap. by exists t.
    + rewrite IH by done. split; [intros [? ?]; split; [by right|done]|].
      intros [Ht Et]. apply elem_of_cons in Ht as [->|Ht]; [by rewrite Et in Eu|done].
Qed.

Lemma find_task_perm id l l' : NoDup (map task_id l) -> l' ≡ₚ l -> find_task id l' = find_task id l.
Proof.
  intros Hn Hp. assert (NoDup (map task_id l')) as Hn' by (by rewrite Hp).
  destruct (find_task id l) as [t|] eqn:E.
  - apply find_task_Some in E as [Ht Et]; [|done]. apply find_task_Some; [done|]. by rewrite Hp.
  - destruct (find_task id l') as [t|] eqn:E'; [|done].
    apply find_task_Some in E' as [Ht Et]; [|done]. rewrite Hp in Ht.
    assert (find_task id l = Some t) as E2 by (by apply find_task_Some). congruence.
Qed.

Lemma history_refl l : history_step l l.
Proof. intros id. destruct (find_task id l); auto. Qed.

Lemma history_perm l l1 l2 : NoDup (map task_id l1) -> l2 ≡ₚ l1 -> history_step l l1 -> history_step l l2.
Proof. intros Hn Hp Hh id. rewrite (find_task_perm id l1 l2 Hn Hp). apply Hh. Qed.

(** A commit moves to the new records or leaves the old ones. *)
Definition committed (c c' : ctx) (candidate : list TaskRecord) : Prop :=
  store_inv c' /\ store c' = set_tasks (sort_tasks candidate) (generation (store c) + 1) (store c).
Definition not_committed (c c' : ctx) : Prop :=
  store_inv c' /\ (store c' = store c \/ store c' = poison (store c)).

Lemma wp_commit candidate c : store_inv c -> poisoned (store c) = false ->
  NoDup (map task_id candidate) -> history_step (tasks (store c)) candidate ->
  wp (commit_tasks pid candidate) (fun _ c' => committed c c' candidate) (fun _ c' => not_committed c c') c.
Proof.
  intros [Hs Hv Hn Hsort (bs & l & Hsn & Hl & Hd)] Hp Hnc Hh. rewrite Hp in Hd.
  eapply wp_conseq; [by apply (wp_commit_base candidate c (Some bs))|..]; cbn beta zeta.
  - intros _ c' (bs' & Hg & Hsn' & E & Hs' & Ho). split; [|done].
    pose proof Hsn' as (_ & _ & V & N & S). split; rewrite ?E; cbn; try done.
    exists bs', (sort_tasks candidate). cbn. rewrite Hp. split; [done|]. split; [apply same_but_hint_list|done].
  - intros e c' [Hs' [(_ & E & Ho)|(_ & E & bs' & Hsn' & Hr)]]; (split; [|by auto]);
      split; rewrite ?E; cbn; try done; exists bs, l; cbn; rewrite ?Hp; split; try done; split; try done.
    exists bs', (sort_tasks candidate). split; [done|]. split; [|done]. by apply (history_perm _ candidate); [|apply sort_tasks_perm|].
Qed.

Lemma history_replace l1 l2 b a : NoDup (map task_id (l1 ++ b :: l2)) -> op_result b a ->
  map task_id (l1 ++ a :: l2) = map task_id (l1 ++ b :: l2) /\
  history_step (l1 ++ b :: l2) (l1 ++ a :: l2).
Proof.
  intros Hn Ho. pose proof Ho as (_ & [Ei _ _ _ _ _] & _).
  assert (task_id a = task_id b) as Ea by (unfold identity_of in Ei; congruence).
  assert (map task_id (l1 ++ a :: l2) = map task_id (l1 ++ b :: l2)) as Em by (by rewrite !map_app; cbn; rewrite Ea).
  split; [done|]. intros id.
  destruct (find_task id (l1 ++ b :: l2)) as [t|] eqn:Et.
  - apply find_task_Some in Et as [Ht Eid]; [|done]. destruct (decide (id = task_id b)) as [->|Hne].
    + assert (t = b) as ->.
      { assert (find_task (task_id b) (l1 ++ b :: l2) = Some t) as E1 by (by apply find_task_Some).
        assert (find_task (task_id b) (l1 ++ b :: l2) = Some b) as E2
          by (apply find_task_Some; [done|]; split; [|done]; set_solver).
        congruence. }
      assert (find_task (task_id b) (l1 ++ a :: l2) = Some a) as ->; [|by right].
      apply find_task_Some; [by rewrite Em|]. split; [set_solver|done].
    + assert (find_task id (l1 ++ a :: l2) = Some t) as ->; [|by left].
      apply find_task_Some; [by rewrite Em|]. split; [|done].
      apply elem_of_app in Ht as [Ht|Ht]; [set_solver|]. apply elem_of_cons in Ht as [->|Ht]; [congruence|set_solver].
  - destruct (find_task id (l1 ++ a :: l2)) as [t'|] eqn:Et'; [|done].
    apply find_task_Some in Et' as [Ht' Eid]; [|by rewrite Em]. exfalso.
    assert (id ∈ map task_id (l1 ++ b :: l2)) as Hin.
    { rewrite <- Em, <- Eid. apply list_elem_of_fmap. by exists t'. }
    apply list_elem_of_fmap in Hin as (u & -> & Hu).
    assert (find_task (task_id u) (l1 ++ b :: l2) = Some u) by (by apply find_task_Some). congruence.
Qed.

Lemma history_filter (f : TaskRecord -> bool) l : NoDup (map task_id l) ->
  (forall t, t ∈ l -> f t = false -> state t = Completed) ->
  NoDup (map task_id (List.filter f l)) /\ history_step l (List.filter f l).
Proof.
  intros Hn Hf. assert (NoDup (map task_id (List.filter f l))) as Hn'.
  { clear Hf. induction l as [|t l IH]; [done|]. cbn in *. apply NoDup_cons in Hn as [Ht Hn].
    destruct (f t); cbn; [|by apply IH]. apply NoDup_cons. split; [|by apply IH].
    intros (u & Eu & Hu)%list_elem_of_fmap. apply Ht. rewrite Eu. apply list_elem_of_fmap. exists u.
    split; [done|]. apply list_elem_of_In in Hu. apply filter_In in Hu as [Hu _]. by apply list_elem_of_In. }
  split; [done|]. intros id.
  assert (forall t, find_task id (List.filter f l) = Some t -> find_task id l = Some t) as Hsub.
  { intros t Et. apply find_task_Some in Et as [Ht Eid]; [|done]. apply find_task_Some; [done|].
    apply list_elem_of_In, filter_In in Ht as [Ht _]. split; [by apply list_elem_of_In|done]. }
  destruct (find_task id (List.filter f l)) as [t'|] eqn:Et'; [rewrite (Hsub t' eq_refl); by left|].
  destruct (find_task id l) as [t|] eqn:Et; [|done]. apply find_task_Some in Et as [Ht Eid]; [|done].
  destruct (f t) eqn:Ef; [|by apply Hf]. exfalso.
  assert (find_task id (List.filter f l) = Some t); [|congruence].
  apply find_task_Some; [done|]. split; [|done]. apply list_elem_of_In, filter_In. split; [by apply list_elem_of_In|done].
Qed.

Lemma history_append l l2 : NoDup (map task_id (l ++ l2)) -> Forall (fun t => state t = Scanning) l2 ->
  history_step l (l ++ l2).
Proof.
  intros Hn Hs id. assert (NoDup (map task_id l)) as Hn1.
  { rewrite map_app in Hn. by apply NoDup_app in Hn as [? _]. }
  destruct (find_task id l) as [t|] eqn:Et.
  - apply find_task_Some in Et as [Ht Eid]; [|done].
    assert (find_task id (l ++ l2) = Some t) as ->; [|by left]. apply find_task_Some; [done|]. split; [set_solver|done].
  - destruct (find_task id (l ++ l2)) as [t'|] eqn:Et'; [|done].
    apply find_task_Some in Et' as [Ht' Eid]; [|done]. apply elem_of_app in Ht' as [Ht'|Ht'].
    + assert (find_task id l = Some t') by (by apply find_task_Some). congruence.
    + by eapply Forall_forall in Hs.
Qed.

(** ** Operations of the store *)

Definition store_ok (c c' : ctx) : Prop :=
  store_inv c' /\ path (store c') = path (store c) /\ history_step (tasks (store c)) (tasks (store c')).

Definition store_err (c c' : ctx) : Prop :=
  store_inv c' /\ path (store c') = path (store c) /\ tasks (store c') = tasks (store c) /\
  generation (store c') = generation (store c) /\ buffer (store c') = buffer (store c).

Lemma store_err_refl c : store_inv c -> store_err c c.
Proof. done. Qed.

Lemma not_committed_err c c' : not_committed c c' -> store_err c c'.
Proof. intros [Hi [E|E]]; (split; [done|]); by rewrite E. Qed.

(** A commit followed by [k], which only records events. *)
Lemma wp_commit_then {A} candidate c (k : method A) : store_inv c -> poisoned (store c) = false ->
  NoDup (map task_id candidate) -> history_step (tasks (store c)) candidate ->
  (forall c', store_inv c' -> tasks (store c') = sort_tasks candidate -> path (store c') = path (store c) ->
     wp k (fun _ c2 => store_inv c2 /\ path (store c2) = path (store c') /\ tasks (store c2) = tasks (store c'))
       (fun _ _ => False) c') ->
  wp (let! _ := commit_tasks pid candidate in k) (fun _ => store_ok c) (fun _ => store_err c) c.
Proof.
  intros Hi Hp Hn Hh Hk. apply wp_bind. eapply wp_conseq; [by apply wp_commit|..]; cbn beta.
  - intros _ c' [Hi' E]. eapply wp_conseq; [apply Hk; [done|by rewrite E..]|..]; cbn beta; [|done].
    intros _ c2 (Hi2 & Ep & Et). split; [done|]. split; [by rewrite Ep, E|].
    rewrite Et, E. cbn. apply (history_perm _ candidate); [done|apply sort_tasks_perm|done].
  - intros e c'. apply not_committed_err.
Qed.

Lemma wp_healthy {A} c (k : method A) (Q : A -> ctx -> Prop) : store_inv c ->
  (poisoned (store c) = false -> wp k Q (fun _ => store_err c) c) ->
  wp (let! _ := ensure_healthy in k) Q (fun _ => store_err c) c.
Proof.
  intros Hi Hk. unfold ensure_healthy, self. apply wp_bind, wp_bind, wp_gets, wp_liftr.
  destruct (poisoned (store c)) eqn:E; cbn [fail_if]; [by apply store_err_refl|by apply Hk].
Qed.

Lemma wp_emit_quiet id t k c : store_inv c ->
  wp (emit id t k) (fun _ c2 => store_inv c2 /\ path (store c2) = path (store c) /\ tasks (store c2) = tasks (store c))
    (fun _ _ => False) c.
Proof. intros Hi. apply wp_emit. auto. Qed.

Lemma wp_now {A} c (k : Z -> method A) (Q : A -> ctx -> Prop) : store_inv c ->
  (forall t c', store_inv c' -> store c' = store c -> wp (k t) Q (fun _ => store_err c) c') ->
  wp (let! t := now in k t) Q (fun _ => store_err c) c.
Proof.
  intros [Hs Hv Hn Hso Hb] Hk. unfold now. apply wp_bind, wp_on_env. unfold system_time, wp.
  destruct (_ || _); [by split|]. by apply Hk.
Qed.

(** Finding the record and running a record operation on it. *)
Lemma wp_changed {A} id o c (k : TaskRecord * TaskRecord * list TaskRecord -> method A) (Q : A -> ctx -> Prop) :
  store_inv c ->
  (forall l1 l2 b a, tasks (store c) = l1 ++ b :: l2 -> op_result b a ->
     NoDup (map task_id (l1 ++ a :: l2)) -> history_step (tasks (store c)) (l1 ++ a :: l2) ->
     wp (k (b, a, l1 ++ a :: l2)) Q (fun _ => store_err c) c) ->
  wp (let! r := liftr (change id (apply_op o) (tasks (store c))) in k r) Q (fun _ => store_err c) c.
Proof.
  intros Hi Hk. apply wp_bind, wp_liftr. pose proof (change_spec id (apply_op o) (tasks (store c))) as Hc.
  destruct (change id (apply_op o) (tasks (store c))) as [[[b a] l']|e|].
  - destruct Hc as (l1 & l2 & El & -> & _ & (u & Em) & _).
    pose proof (si_valid c Hi) as Hv. rewrite El in Hv. apply Forall_app in Hv as [_ [Hb _]%Forall_cons].
    pose proof (wp_op o b Hb) as Hw. unfold wp in Hw. rewrite Em in Hw.
    pose proof (si_unique c Hi) as Hn. rewrite El in Hn. destruct (history_replace l1 l2 b a Hn Hw) as [Em' Hh].
    apply (Hk l1 l2); try done; [by rewrite Em'|by rewrite El].
  - by apply store_err_refl.
  - destruct Hc as (t & t' & Ht & Em). pose proof (si_valid c Hi) as Hv. rewrite Forall_forall in Hv.
    pose proof (wp_op o t (Hv t Ht)) as Hw. unfold wp in Hw. by rewrite Em in Hw.
Qed.

Lemma wp_same_store {A} (m : method A) c c1 : store c1 = store c ->
  wp m (fun _ => store_ok c1) (fun _ => store_err c1) c1 -> wp m (fun _ => store_ok c) (fun _ => store_err c) c1.
Proof.
  intros E Hw. eapply wp_conseq; [exact Hw|..]; cbn beta; intros; unfold store_ok, store_err in *; by rewrite <- E.
Qed.

Lemma wp_for_emit (body : list Z -> method unit) (l : list (list Z)) c :
  store_inv c ->
  (forall id c', id ∈ l -> store_inv c' -> tasks (store c') = tasks (store c) ->
     wp (body id) (fun _ c2 => store_inv c2 /\ path (store c2) = path (store c') /\ tasks (store c2) = tasks (store c'))
       (fun _ _ => False) c') ->
  wp (for_each body l)
    (fun _ c2 => store_inv c2 /\ path (store c2) = path (store c) /\ tasks (store c2) = tasks (store c))
    (fun _ _ => False) c.
Proof.
  intros Hi Hb.
  apply (wp_for_each body l (fun c2 => store_inv c2 /\ path (store c2) = path (store c) /\
    tasks (store c2) = tasks (store c))); [done|].
  intros id c' Hid (Hi' & Ep & Et). eapply wp_conseq; [by apply Hb|..]; cbn beta; [|done].
  intros _ c2 (Hi2 & Ep2 & Et2). split; [done|]. by rewrite Ep2, Et2.
Qed.

Lemma wp_remove_completed id c : store_inv c ->
  wp (remove_completed pid id) (fun _ => store_ok c) (fun _ => store_err c) c.
Proof.
  intros Hi. apply wp_healthy; [done|]. intros Hp. unfold self. apply wp_bind, wp_gets, wp_bind, wp_liftr.
  destruct (find_task id (tasks (store c))) as [t|] eqn:Et; cbn [ok_or]; [|by apply store_err_refl].
  apply wp_bind, wp_liftr. case_bool_decide as Es; cbn [negb fail_if]; [|by apply store_err_refl].
  apply wp_now; [done|]. intros at_ c1 Hi1 E1. rewrite <- E1 in *.
  destruct (history_filter (fun t => negb (bool_decide (task_id t = id))) (tasks (store c1)) (si_unique c1 Hi1)) as [Hn Hh].
  { intros u Hu Eu. apply negb_false_iff, bool_decide_eq_true in Eu.
    assert (find_task id (tasks (store c1)) = Some u) by (apply find_task_Some; [apply (si_unique c1 Hi1)|done]).
    congruence. }
  apply (wp_same_store _ c c1); [done|]. apply wp_commit_then; try done. intros c2 Hi2 _ _. by apply wp_emit_quiet.
Qed.

Lemma wp_remove_batch requested c : store_inv c ->
  wp (remove_completed_batch pid requested) (fun _ => store_ok c) (fun _ => store_err c) c.
Proof.
  intros Hi. apply wp_healthy; [done|]. intros Hp. unfold self. apply wp_bind, wp_gets. cbv zeta.
  set (blocked := blocked_groups _ _). set (removed := map task_id (sort_tasks _)).
  case_bool_decide as Er; [apply wp_ret; split; [done|]; split; [done|apply history_refl]|].
  apply wp_now; [done|]. intros at_ c1 Hi1 E1. rewrite <- E1 in *.
  destruct (history_filter (fun t => negb (bool_decide (task_id t ∈ removed))) (tasks (store c1)) (si_unique c1 Hi1)) as [Hn Hh].
  { intros u Hu Eu. apply negb_false_iff, bool_decide_eq_true in Eu.
    apply list_elem_of_fmap in Eu as (v & Ev & Hv). rewrite sort_tasks_perm in Hv.
    apply list_elem_of_In, filter_In in Hv as [Hv Hrem]. apply list_elem_of_In in Hv. rewrite <- ?E1 in Hv.
    assert (find_task (task_id u) (tasks (store c1)) = Some u) by (apply find_task_Some; [apply (si_unique c1 Hi1)|done]).
    assert (find_task (task_id u) (tasks (store c1)) = Some v)
      by (apply find_task_Some; [apply (si_unique c1 Hi1)|split; [done|congruence]]).
    assert (u = v) as -> by congruence. unfold removable in Hrem. bool_hyps. done. }
  apply (wp_same_store _ c c1); [done|]. apply wp_commit_then; try done. intros c2 Hi2 _ _.
  apply wp_bind. eapply wp_conseq; [apply wp_for_emit; [done|]|..]; cbn beta; [|done|done].
  intros id c3 _ Hi3 _. by apply wp_emit_quiet.
Qed.

Lemma wp_create_task t c : store_inv c ->
  wp (create pid t) (fun _ => store_ok c) (fun _ => store_err c) c.
Proof.
  intros Hi. apply wp_healthy; [done|]. intros Hp. apply wp_bind, wp_liftr.
  destruct (validate t) as [[]|e|] eqn:Ev; cbn [map_err]; [|by apply store_err_refl|by destruct (returns_validate t Ev)].
  apply wp_bind, wp_liftr. case_bool_decide as Es; cbn [negb fail_if]; [|by apply store_err_refl].
  unfold self. apply wp_bind, wp_gets, wp_bind, wp_liftr.
  destruct (existsb _ (tasks (store c))) eqn:Ex; cbn [fail_if]; [by apply store_err_refl|].
  assert (NoDup (map task_id (tasks (store c) ++ [t]))) as Hn.
  { rewrite map_app. apply NoDup_app. split; [apply (si_unique c Hi)|]. split; [|apply NoDup_singleton].
    intros id (u & -> & Hu)%list_elem_of_fmap Hid. apply list_elem_of_singleton in Hid.
    apply not_true_iff_false in Ex. apply Ex, existsb_exists. exists u.
    split; [by apply list_elem_of_In|]. by apply bool_decide_eq_true. }
  apply wp_commit_then; try done.
  - by rewrite sort_tasks_perm.
  - apply (history_perm _ (tasks (store c) ++ [t])); [done|apply sort_tasks_perm|].
    apply history_append; [done|by constructor].
  - intros c1 Hi1 _ _. apply wp_bind. eapply wp_conseq; [by apply wp_emit_quiet|..]; done.
Qed.

Lemma collect_selection_spec records candidate ids :
  match collect_selection records candidate ids with
  | Ok (l, ids') => l = candidate ++ records /\ ids' = ids ++ map task_id records /\
      Forall (fun t => state t = Scanning) records /\
      (NoDup (map task_id candidate) -> NoDup (map task_id l))
  | Err _ => True
  | Panic => False
  end.
Proof.
  revert candidate ids. induction records as [|r rs IH]; intros candidate ids; cbn [collect_selection].
  - rewrite !app_nil_r. by split.
  - destruct (validate r) as [[]|e|] eqn:Ev; cbn [map_err obind]; [|done|by destruct (returns_validate r Ev)].
    case_bool_decide as Es; cbn [negb orb fail_if obind]; [|done].
    destruct (existsb _ candidate) eqn:Ex; cbn [fail_if obind]; [done|].
    specialize (IH (candidate ++ [r]) (ids ++ [task_id r])).
    destruct (collect_selection rs (candidate ++ [r]) (ids ++ [task_id r])) as [[l ids']|e|]; [|done|done].
    destruct IH as (-> & -> & Hs & Hn). rewrite <- !app_assoc. split; [done|]. split; [done|].
    split; [by constructor|]. intros Hc. rewrite <- app_assoc in Hn. apply Hn. rewrite map_app.
    apply NoDup_app. split; [done|]. split; [|apply NoDup_singleton].
    intros id (u & -> & Hu)%list_elem_of_fmap Hid. apply list_elem_of_singleton in Hid.
    apply not_true_iff_false in Ex. apply Ex, existsb_exists. exists u.
    split; [by apply list_elem_of_In|]. by apply bool_decide_eq_true.
Qed.

Lemma wp_create_selection records c : store_inv c ->
  wp (create_selection pid records) (fun _ => store_ok c) (fun _ => store_err c) c.
Proof.
  intros Hi. apply wp_healthy; [done|]. intros Hp. unfold self. apply wp_bind, wp_gets, wp_bind, wp_liftr.
  pose proof (collect_selection_spec records (tasks (store c)) []) as Hc.
  destruct (collect_selection records (tasks (store c)) []) as [[l ids]|e|]; [|by apply store_err_refl|done].
  destruct Hc as (-> & -> & Hs & Hn). specialize (Hn (si_unique c Hi)).
  apply wp_commit_then; try done.
  - by rewrite sort_tasks_perm.
  - apply (history_perm _ (tasks (store c) ++ records)); [done|apply sort_tasks_perm|]. by apply history_append.
  - intros c1 Hi1 Et _. apply wp_bind. eapply wp_conseq; [apply wp_for_emit; [done|]|..]; cbn beta; [|done|done].
    intros id c2 Hid Hi2 Et2. unfold task, self. apply wp_bind, wp_bind, wp_gets, wp_liftr.
    destruct (find_task id (tasks (store c2))) as [t|] eqn:Ef; cbn [ok_or]; [by apply wp_emit_quiet|].
    cbn [app] in Hid. apply list_elem_of_fmap in Hid as (u & -> & Hu).
    assert (find_task (task_id u) (tasks (store c2)) = Some u); [|congruence].
    apply find_task_Some; [apply (si_unique c2 Hi2)|]. split; [|done]. rewrite Et2, Et, !sort_tasks_perm. set_solver.
Qed.

Lemma wp_transition_task id next diag now_ms c : store_inv c ->
  wp (transition pid id next diag now_ms) (fun _ => store_ok c) (fun _ => store_err c) c.
Proof.
  intros Hi. apply wp_healthy; [done|]. intros Hp. unfold self. apply wp_bind, wp_gets.
  apply (wp_changed id (OTransition next diag now_ms)); [done|]. intros l1 l2 b a El Ho Hn Hh.
  apply wp_bind, wp_liftr. destruct (find_task id (tasks (store c))); cbn [ok_or]; [|by apply store_err_refl].
  apply wp_bind, wp_liftr. unfold validate_binding_unchanged.
  match goal with |- context [fail_if ?b _] => destruct b end; cbn [fail_if map_err]; [by apply store_err_refl|].
  apply wp_commit_then; try done. intros c2 Hi2 _ _. by apply wp_emit_quiet.
Qed.

Lemma wp_cancel_task id c : store_inv c ->
  wp (TaskStore.cancel pid id) (fun _ => store_ok c) (fun _ => store_err c) c.
Proof.
  intros Hi. apply wp_healthy; [done|]. intros Hp. unfold self. apply wp_bind, wp_gets, wp_bind, wp_liftr.
  destruct (find_task id (tasks (store c))) as [t|] eqn:Et; cbn [ok_or]; [|by apply store_err_refl].
  destruct (user_cancelled t); [apply wp_ret; split; [done|]; split; [done|apply history_refl]|].
  apply wp_now; [done|]. intros at_ c1 Hi1 E1. rewrite <- E1 in *.
  apply (wp_same_store _ c c1); [done|].
  apply (wp_changed id (OCancel at_)); [done|]. intros l1 l2 b a El Ho Hn Hh.
  apply wp_commit_then; try done. intros c2 Hi2 _ _. by apply wp_emit_quiet.
Qed.

Lemma wp_commit_change id o c : store_inv c ->
  wp (commit_change pid id (apply_op o)) (fun _ => store_ok c) (fun _ => store_err c) c.
Proof.
  intros Hi. apply wp_healthy; [done|]. intros Hp. unfold self. apply wp_bind, wp_gets.
  apply (wp_changed id o); [done|]. intros l1 l2 b a El Ho Hn Hh.
  eapply wp_conseq; [by apply wp_commit|..]; cbn beta.
  - intros _ c' [Hi' E]. split; [done|]. rewrite E. split; [done|]. cbn.
    by apply (history_perm _ (l1 ++ a :: l2)); [|apply sort_tasks_perm|].
  - intros e c'. apply not_committed_err.
Qed.

Lemma wp_complete_with id o now_ms c : store_inv c ->
  wp (complete_with pid id (apply_op o) now_ms) (fun _ => store_ok c) (fun _ => store_err c) c.
Proof.
  intros Hi. apply wp_healthy; [done|]. intros Hp. unfold self. apply wp_bind, wp_gets.
  apply (wp_changed id o); [done|]. intros l1 l2 b a El Ho Hn Hh.
  apply wp_commit_then; try done. intros c2 Hi2 _ _. by apply wp_emit_quiet.
Qed.

(** A hint changes a record in memory only, and only its hint. *)
Lemma change_hint id h l l' b a : change id (TaskModel.set_progress_hint h) l = Ok (b, a, l') ->
  Forall2 same_but_hint l l' /\ map task_id l' = map task_id l.
Proof.
  intros E. pose proof (change_spec id (TaskModel.set_progress_hint h) l) as Hc. rewrite E in Hc.
  destruct Hc as (l1 & l2 & -> & -> & _ & (u & Em) & _).
  assert (a = set_hint (Some h) b) as ->.
  { unfold TaskModel.set_progress_hint, sbind, get, liftr in Em. destruct (fail_if _ _); [|done|done].
    unfold put in Em. congruence. }
  split; [|by rewrite !map_app].
  apply Forall2_app; [apply same_but_hint_list|]. constructor; [by eexists|apply same_but_hint_list].
Qed.

Lemma same_but_hint_trans l1 l2 l3 : Forall2 same_but_hint l1 l2 -> Forall2 same_but_hint l2 l3 ->
  Forall2 same_but_hint l1 l3.
Proof.
  intros H12. revert l3. induction H12 as [|x y l1 l2 [h ->] _ IH]; intros l3 H23.
  - by inversion H23.
  - apply Forall2_cons_inv_l in H23 as (z & l3' & [h' ->] & H23 & ->). constructor; [|by apply IH].
    exists h'. done.
Qed.

Lemma sorted_ids_map l l' : map task_id l' = map task_id l -> sorted_ids l -> sorted_ids l'.
Proof.
  unfold sorted_ids. revert l'. induction l as [|t l IH]; intros [|t' l'] Em Hs; try done.
  injection Em as Et Em. apply Sorted_inv in Hs as [Hs Hh]. constructor; [by apply IH|].
  destruct l as [|u l], l' as [|u' l']; try done; constructor. injection Em as Eu _.
  apply HdRel_inv in Hh. unfold id_le in *. by rewrite Et, Eu.
Qed.

Lemma wp_progress_hint id h c : store_inv c ->
  wp (TaskStore.set_progress_hint id h) (fun _ => store_ok c) (fun _ => store_err c) c.
Proof.
  intros Hi. apply wp_healthy; [done|]. intros Hp. unfold self. apply wp_bind, wp_gets.
  apply wp_bind, wp_liftr. pose proof (change_spec id (TaskModel.set_progress_hint h) (tasks (store c))) as Hc.
  pose proof (change_hint id h (tasks (store c))) as Hch.
  destruct (change id (TaskModel.set_progress_hint h) (tasks (store c))) as [[[b a] l']|e|].
  - destruct (Hch l' b a eq_refl) as [Hsame Hm]. destruct Hc as (l1 & l2 & El & -> & _ & (u & Em) & _).
    destruct Hi as [Hs Hv Hn Hso Hb]. rewrite El in Hv, Hn.
    apply Forall_app in Hv as [Hv1 [Hvb Hv2]%Forall_cons].
    pose proof (wp_op (OHint h) b Hvb) as Hw. unfold wp in Hw. cbn [apply_op] in Hw. rewrite Em in Hw.
    destruct (history_replace l1 l2 b a Hn Hw) as [Em' Hh].
    unfold set_store. apply wp_bind, wp_modify, wp_emit. intros c' Hi' Eenv Et Eg Ep Epath.
    split; [apply Hi'|].
    + split; cbn; try done.
      * apply Forall_app. split; [done|]. constructor; [apply Hw|done].
      * by rewrite Em'.
      * by apply (sorted_ids_map (tasks (store c))).
      * destruct Hb as (bs & l & Hsn & Hl & Hd). exists bs, l. rewrite Hp in Hd. cbn. rewrite Hp. split; [done|].
        split; [|done]. by apply (same_but_hint_trans _ (tasks (store c))).
    + split; [by rewrite Epath|]. rewrite Et, El. exact Hh.
  - by apply store_err_refl.
  - destruct Hc as (t & t' & Ht & Em). pose proof (si_valid c Hi) as Hv. rewrite Forall_forall in Hv.
    pose proof (wp_op (OHint h) t (Hv t Ht)) as Hw. unfold wp in Hw. cbn [apply_op] in Hw. by rewrite Em in Hw.
Qed.

(** ** All operations *)

Inductive store_op : Type :=
  | SRemove (id : list Z)
  | SRemoveBatch (requested : gset (list Z))
  | SCreate (t : TaskRecord)
  | SCreateSelection (records : list TaskRecord)
  | STransition (id : list Z) (next : TaskState) (diag : option TaskDiagnostic) (now_ms : Z)
  | SCancel (id : list Z)
  | SPrepare (id : list Z)
  | SIncremental (id : list Z)
  | SSkip (id : list Z) (now_ms : Z)
  | SReceipt (id : list Z) (now_ms : Z)
  | SHint (id : list Z) (h : ProgressHint)
  | SDrain
  | STakeResync.

Definition discard {A} (m : method A) : method unit := let! _ := m in ret tt.

Definition run_op (o : store_op) : method unit :=
  match o with
  | SRemove id => remove_completed pid id
  | SRemoveBatch requested => discard (remove_completed_batch pid requested)
  | SCreate t => discard (create pid t)
  | SCreateSelection records => discard (create_selection pid records)
  | STransition id next diag now_ms => transition pid id next diag now_ms
  | SCancel id => TaskStore.cancel pid id
  | SPrepare id => TaskStore.prepare_publication pid id
  | SIncremental id => TaskStore.enable_incremental pid id
  | SSkip id now_ms => TaskStore.commit_skipped pid id now_ms
  | SReceipt id now_ms => TaskStore.commit_receipt pid id now_ms
  | SHint id h => TaskStore.set_progress_hint id h
  | SDrain => discard drain_events
  | STakeResync => discard take_event_resync_required
  end.

Lemma wp_discard_result {A} (m : method A) c : wp m (fun _ => store_ok c) (fun _ => store_err c) c ->
  wp (discard m) (fun _ => store_ok c) (fun _ => store_err c) c.
Proof. intros Hw. apply wp_bind. by eapply wp_conseq. Qed.

Lemma wp_with_buffer {A} (f : TaskEventBuffer -> A * TaskEventBuffer) c : store_inv c ->
  wp (with_buffer f) (fun _ => store_ok c) (fun _ => store_err c) c.
Proof.
  intros Hi. unfold with_buffer, self, set_store. apply wp_bind, wp_gets. destruct (f (buffer (store c))) as [x b].
  apply wp_bind, wp_modify, wp_ret. split; [by apply emit_inv|]. split; [done|]. apply history_refl.
Qed.

Lemma wp_run_op o c : store_inv c -> wp (run_op o) (fun _ => store_ok c) (fun _ => store_err c) c.
Proof.
  intros Hi. destruct o; cbn [run_op]; try apply wp_discard_result.
  - by apply wp_remove_completed.
  - by apply wp_remove_batch.
  - by apply wp_create_task.
  - by apply wp_create_selection.
  - by apply wp_transition_task.
  - by apply wp_cancel_task.
  - by apply (wp_commit_change id OPrepare).
  - by apply (wp_commit_change id OIncremental).
  - by apply (wp_complete_with id (OSkip now_ms)).
  - by apply (wp_complete_with id (OReceipt now_ms)).
  - by apply wp_progress_hint.
  - by apply wp_with_buffer.
  - by apply wp_with_buffer.
Qed.

End Committing.

End TaskStoreProof.
