(* ===== verification/TaskRestart.v ===== *)
(** * The task store: restarting, and the properties

    What [open] finds after a crash, and the theorems about the store and its
    event buffer. *)
From Stdlib Require Import ZArith Lia.
From stdpp Require Import prelude gmap strings sorting.
From S2P Require Import Prelude Manifest Message State FileSystem Identity Hexadecimal UnixPath TaskModel TaskModelProof TaskStore Durable TaskStoreProof.

#[local] Open Scope Z_scope.

Module TaskRestart.
Import Durable TaskModel TaskModelProof TaskEvents TaskStore TaskStoreProof.

Section Committing.
Context `{Blake3} `{Hex} `{HexDecode} `{Json}.
Context (pid : Z).

(** ** Restarting *)

Definition recovered (t t' : TaskRecord) : Prop :=
  if needs_startup_recovery (state t) then state t' = Interrupted /\ op_result t t' else t' = t.

Lemma interrupt_total t d now_ms : valid t -> needs_startup_recovery (state t) = true ->
  exists t', transition_to Interrupted (Some d) now_ms t = (Ok tt, t') /\ state t' = Interrupted /\ op_result t t'.
Proof.
  intros Hv Hneed. pose proof (wp_op (OTransition Interrupted (Some d) now_ms) t Hv) as Hw. unfold wp in Hw.
  cbn [apply_op] in Hw. unfold transition_to in *. unfold sbind, get, liftr in *.
  assert (allows (state t) Interrupted (match diagnostic t with Some d => retryable d | None => false end) = true) as Ha
    by (destruct (state t); done).
  rewrite Ha in *. cbn [negb fail_if] in *. rewrite (bool_decide_false (Interrupted = Failed)) in * by done.
  cbn [andb fail_if] in *. rewrite (bool_decide_false (Interrupted = Queued)) in * by done.
  set (u := set_progress _ _ _ _) in *.
  assert (valid u) as Hu.
  { apply valid_wf in Hv as [W1 W2 W3 W4 W5 W6 W7 W8 W9 W10 W11 W12 W13]. apply valid_wf.
    assert (state t <> Completed) as Hnc by (intros E; by rewrite E in Hneed).
    split; cbn; try done; try lia.
    - intros f Ef. destruct (W4 f Ef) as [F1 F2 F3 F4 F5]. split; try done.
      split; [intros Hc; by apply F1 in Hc|done].
    - intros f Ef. destruct (W7 f Ef) as [F1 F2 F3]. split; try done.
      split; [intros Hc; by apply F1 in Hc|done]. }
  unfold valid in Hu. rewrite Hu in *. exists u. done.
Qed.

Lemma recover_loop_spec now_ms l : Forall valid l ->
  exists l' ids, recover_loop now_ms l = Ok (l', ids) /\ Forall2 recovered l l' /\ Forall valid l' /\
    map task_id l' = map task_id l /\ (forall id, id ∈ ids -> id ∈ map task_id l) /\ (ids = [] -> l' = l).
Proof.
  induction 1 as [|t l Ht Hl (l' & ids & E & Hr & Hv & Hm & Hin & Hnil)].
  { exists [], []. by repeat split. }
  cbn [recover_loop]. destruct (needs_startup_recovery (state t)) eqn:En.
  - destruct (interrupt_total t (mk_diagnostic ApplicationRestarted false) now_ms Ht En) as (t' & -> & Es & Ho).
    rewrite E. cbn [obind]. exists (t' :: l'), (task_id t' :: ids).
    assert (task_id t' = task_id t) as Eid.
    { destruct Ho as (_ & [Ei _ _ _ _ _] & _). unfold identity_of in Ei. congruence. }
    split; [done|]. split; [constructor; [unfold recovered; by rewrite En|done]|].
    split; [constructor; [apply Ho|done]|]. split; [cbn; by rewrite Eid, Hm|]. split; [|done].
    intros id Hid. cbn. apply elem_of_cons in Hid as [->|Hid]; [rewrite Eid; by left|right; by apply Hin].
  - rewrite E. cbn [obind]. exists (t :: l'), ids.
    split; [done|]. split; [constructor; [unfold recovered; by rewrite En|done]|].
    split; [by constructor|]. split; [cbn; by rewrite Hm|].
    split; [intros id Hid; right; by apply Hin|]. intros Ei. by rewrite Hnil.
Qed.

Lemma sort_tasks_id l : sorted_ids l -> sort_tasks l = l.
Proof.
  induction 1 as [|t l Hl IH Hd]; [done|]. change (insert_task t (sort_tasks l) = t :: l). rewrite IH.
  destruct l as [|u l]; [done|]. cbn.
  apply HdRel_inv in Hd. by rewrite Hd.
Qed.

(** Reading what was durably written never reports damage. *)
Definition only_io (e : TaskStoreError) : Prop :=
  match e with
  | IoError _ | Model ClockOutOfRange | CommitUncertain | GenerationExhausted => True
  | _ => False
  end.

Context `{!JsonLaws}.

Lemma wp_read_snapshot n bs g l w : on_disk n (Some bs) (disk w) -> snapshot_of g l bs ->
  wp (read_snapshot n true)
    (fun r w' => r = Some (mk_snapshot STORE_FORMAT_VERSION g l) /\ disk w' = disk w)
    (fun e w' => only_io e /\ disk w' = disk w) w.
Proof.
  intros (i & E1 & _ & Ei) (Ev & Hlen & _). unfold read_snapshot. apply wp_bind, wp_attempt, wp_sys, wp_syscall.
  { intros k w1 Hk E. cbn [kind_of]. assert (k <> NotFound) by (by intros ->). by destruct k. }
  unfold fs_metadata. rewrite E1. unfold content. rewrite Ei. cbn [cur regular]. intros w1 D1.
  apply wp_bind, wp_liftr. rewrite (proj2 (Z.ltb_ge _ _) Hlen). cbn [negb orb fail_if].
  apply wp_bind, wp_liftr. cbn [negb fail_if]. apply wp_bind, wp_sys, wp_syscall; [intros; by split; [|congruence]|].
  unfold fs_open. rewrite D1, E1. intros w2 D2. apply wp_bind, wp_sys, wp_syscall; [intros; by split; [|congruence]|].
  cbn [fs_read_all]. unfold content. rewrite D2, Ei. cbn [cur]. intros w3 D3.
  apply wp_bind, wp_liftr. rewrite (from_to_vec _ _ Ev). cbn [ok_or].
  apply wp_bind, wp_liftr. cbn. split; [done|congruence].
Qed.

(** Where [start] stands: only events were added, the disk is as it was. *)
Definition starting (s : TaskStore) (d : fs) (c : ctx) : Prop :=
  path (store c) = path s /\ tasks (store c) = tasks s /\ generation (store c) = generation s /\
  poisoned (store c) = false /\ disk (env c) = d.

Lemma wp_exists n c (Q : bool -> ctx -> Prop) (R : TaskStoreError -> ctx -> Prop) :
  (forall b c', store c' = store c -> disk (env c') = disk (env c) -> Q b c') ->
  wp (on_env id (exists_ n)) Q R c.
Proof.
  intros HQ. apply wp_on_env. unfold exists_. apply wp_bind, wp_attempt, wp_sys, wp_syscall.
  - intros k w' _ E. apply wp_ret. by apply HQ.
  - unfold fs_stat. destruct (dir (disk (env c)) !! n); intros w' E; apply wp_ret; by apply HQ.
Qed.

Lemma wp_announce s d (ids : list (list Z)) c (Q : unit -> ctx -> Prop) :
  NoDup (map task_id (tasks s)) -> (forall id, id ∈ ids -> id ∈ map task_id (tasks s)) ->
  starting s d c -> (forall c', starting s d c' -> Q tt c') ->
  wp (for_each (fun id => let! t := task id in emit id (updated_at t) RecoveredAfterRestart) ids)
    Q (fun _ _ => False) c.
Proof.
  intros Hn Hin Hc HQ.
  eapply wp_conseq; [apply (wp_for_each _ _ (starting s d) (fun _ _ => False)); [done|]|..]; cbn beta;
    [|intros [] c' Hc'; by apply HQ|done].
  intros id c' Hid (E1 & E2 & E3 & E4 & E5). unfold task, self. apply wp_bind, wp_bind, wp_gets, wp_liftr.
  destruct (find_task id (tasks (store c'))) as [t|] eqn:Ef; cbn [ok_or].
  - apply wp_emit. intros c2 _ D T G P Pa. unfold starting. by rewrite Pa, T, G, P, D.
  - apply Hin, list_elem_of_fmap in Hid as (u & -> & Hu). rewrite <- E2 in Hu, Hn.
    assert (find_task (task_id u) (tasks (store c')) = Some u) by (by apply find_task_Some). congruence.
Qed.

(** A restart keeps the old snapshot durable until the new one is. *)
Definition not_lost (n : name) (bs : list Z) (g : Z) (l' : list TaskRecord) (d : fs) : Prop :=
  sane d /\ (on_disk n (Some bs) d \/ exists bs', snapshot_of (g + 1) l' bs' /\ replaced n (Some bs) bs' d).

(** The snapshot [bs] of the records [l] is durable until that of the recovered records is. *)
Definition unharmed (n : name) (bs : list Z) (g : Z) (l : list TaskRecord) (d : fs) : Prop :=
  sane d /\ (on_disk n (Some bs) d \/
    exists l' bs', Forall2 recovered l l' /\ snapshot_of (g + 1) l' bs' /\ replaced n (Some bs) bs' d).

Lemma validate_all_valid l : Forall valid l -> validate_all l = Ok tt.
Proof.
  intros Hv. unfold validate_all. generalize tt at 1. induction Hv as [|t l Ht _ IH]; intros []; [done|].
  cbn. unfold valid in Ht. rewrite Ht. apply IH.
Qed.

(** Committing sound records fails for reasons of the disk only. *)
Lemma wp_commit_io candidate c o : sane (disk (env c)) -> on_disk (path (store c)) o (disk (env c)) ->
  Forall valid candidate -> NoDup (map task_id candidate) ->
  wp (commit_tasks pid candidate) (fun _ _ => True) (fun e _ => only_io e) c.
Proof.
  intros Hs Ho Hv Hn. unfold commit_tasks, ensure_healthy, self.
  apply wp_bind, wp_bind, wp_gets, wp_liftr. destruct (poisoned (store c)); cbn [fail_if]; [done|].
  apply wp_bind, wp_liftr. rewrite validate_all_valid by (by rewrite sort_tasks_perm).
  apply wp_bind, wp_liftr. unfold validate_unique_ids. rewrite bool_decide_true by (by rewrite sort_tasks_perm).
  apply wp_bind, wp_gets, wp_bind, wp_liftr. destruct (checked_add _ _ _); cbn [ok_or]; [|done].
  apply wp_bind, wp_attempt, wp_on_env. eapply wp_conseq; [by apply wp_write_snapshot| |]; cbn beta.
  - intros _ w _. by apply wp_modify.
  - intros [k|] w _; [by apply wp_throw|]. by apply wp_bind, wp_modify, wp_throw.
Qed.

Lemma wp_start n bs g l l' ids c :
  sane (disk (env c)) -> on_disk n (Some bs) (disk (env c)) -> snapshot_of g l bs ->
  store c = mk_store n l' g empty_buffer false ->
  Forall valid l' -> map task_id l' = map task_id l ->
  (forall id, id ∈ ids -> id ∈ map task_id l) -> (ids = [] -> l' = l) ->
  wp (start pid ids)
    (fun _ c' => store_inv c' /\ path (store c') = n /\ poisoned (store c') = false /\
       g <= generation (store c') /\ tasks (store c') = l')
    (fun e c' => only_io e /\ not_lost n bs g l' (disk (env c'))) c.
Proof.
  intros Hs Ho Hsn Ec Hv Hm Hin Hnil. pose proof Hsn as (_ & _ & _ & Hn & Hso).
  assert (NoDup (map task_id l')) as Hn' by (by rewrite Hm).
  assert (sorted_ids l') as Hso' by (by apply (sorted_ids_map l)).
  set (s := mk_store n l' g empty_buffer false) in *. unfold start, self.
  apply wp_bind, wp_gets. rewrite Ec. cbn [path s].
  apply wp_bind, wp_exists. intros b c1 E1 D1. apply wp_bind.
  assert (starting s (disk (env c)) c1) as Hc1 by (unfold starting; by rewrite E1, Ec, D1).
  eapply (wp_conseq _ (fun _ => starting s (disk (env c))) _ (fun _ _ => False)); [|cbn beta|done].
  { destruct b; [|by apply wp_ret]. apply (wp_announce s (disk (env c))); try done. cbn. by rewrite ?Hm. }
  intros _ c2 (P2 & T2 & G2 & Po2 & D2). apply wp_bind, wp_exists. intros b' c3 E3 D3.
  rewrite <- E3 in P2, T2, G2, Po2. rewrite <- D3 in D2. cbn [path tasks generation s] in *.
  destruct (_ || _) eqn:Eb.
  - unfold commit_current_tasks, self. apply wp_bind, wp_gets.
    rewrite <- D2 in Hs, Ho. assert (on_disk (path (store c3)) (Some bs) (disk (env c3))) as Ho3 by (by rewrite P2).
    rewrite T2. eapply wp_conseq.
    + apply wp_and; [by apply (wp_commit_base pid l' c3 (Some bs))|by apply (wp_commit_io l' c3 (Some bs))].
    + cbn beta zeta. rewrite (sort_tasks_id l' Hso'). intros _ c4 [(bs' & Hg & Hsn' & E4 & Hs4 & Ho4) _].
      rewrite E4. cbn. split; [|repeat split; try done; lia].
      split; rewrite ?E4; cbn; try done. exists bs', l'. cbn. rewrite Po2. split; [done|].
      split; [apply same_but_hint_list|done].
    + cbn beta zeta. rewrite (sort_tasks_id l' Hso'), P2, G2.
      intros e c4 [[Hs4 [(_ & _ & Ho4)|(_ & _ & bs' & Hsn' & Hr)]] He]; (split; [done|]; split; [done|]);
        [by left|]. right. by exists bs'.
  - apply orb_false_iff in Eb as [_ Eb]. apply negb_false_iff, bool_decide_eq_true in Eb.
    rewrite (Hnil Eb) in *. apply wp_ret. split; [|repeat split; try done; lia].
    split; rewrite ?T2, ?D2; try done. exists bs, l. rewrite G2, T2, Po2, P2.
    split; [done|]. split; [apply same_but_hint_list|done].
Qed.

Lemma wp_open n bs g l w : sane (disk w) -> on_disk n (Some bs) (disk w) -> snapshot_of g l bs ->
  wp (open pid (Ok tt) n true)
    (fun r w' => store_inv (mk_ctx r.1 w') /\ path r.1 = n /\ poisoned r.1 = false /\ g <= generation r.1 /\
       Forall2 recovered l (tasks r.1))
    (fun e w' => only_io e /\ unharmed n bs g l (disk w')) w.
Proof.
  intros Hs Ho Hsn. pose proof Hsn as (_ & _ & Hv & Hn & Hso). unfold open, load. apply wp_bind, wp_bind, wp_liftr.
  apply wp_bind. eapply wp_conseq; [by apply (wp_read_snapshot n bs g l)|..]; cbn beta.
  2: { intros e w1 [He D]. split; [done|]. unfold unharmed. rewrite D. auto. }
  intros _ w1 [-> D1]. cbv iota beta. apply wp_bind, wp_bind, wp_liftr. unfold validate_snapshot.
  cbn [format_version snapshot_tasks snapshot_generation]. rewrite Z.eqb_refl. cbn [negb fail_if obind].
  rewrite (validate_all_valid l Hv). cbn [obind]. unfold validate_unique_ids. rewrite (bool_decide_true _ Hn).
  cbn [negb fail_if]. apply wp_ret, wp_bind.
  eapply (wp_conseq _ (fun r w' => disk w' = disk w /\ Forall2 recovered l r.1 /\ Forall valid r.1 /\
    map task_id r.1 = map task_id l /\ (forall id, id ∈ r.2 -> id ∈ map task_id l) /\ (r.2 = [] -> r.1 = l))
    _ (fun e w' => only_io e /\ disk w' = disk w)); cbn beta.
  { unfold wp, recover_startup, sbind, system_time. destruct (_ || _); cbn; [done|].
    destruct (recover_loop_spec (hd 0 (clock w1)) l Hv) as (l' & ids & -> & Hr & Hv' & Hm & Hin & Hnil). done. }
  2: { intros e w2 [He D]. split; [done|]. unfold unharmed. rewrite D. auto. }
  intros [l' ids] w2 (D2 & Hr & Hv' & Hm & Hin & Hnil). cbn [fst snd] in *. apply wp_ret.
  pose proof (wp_start n bs g l l' ids (mk_ctx (mk_store n l' g empty_buffer false) w2)) as Hw.
  unfold wp in Hw |- *. cbn [env store] in Hw. rewrite D2 in Hw.
  destruct (start _ _ _) as [[[]|e|] c]; cbn; specialize (Hw Hs Ho Hsn eq_refl Hv' Hm Hin Hnil).
  - destruct c as [s d]. cbn in *. destruct Hw as (Hi & Hp & Hpo & Hg & Et). by rewrite Et.
  - destruct Hw as [He [Hs' Hl]]. split; [done|]. split; [done|]. destruct Hl as [Hl|(bs' & Hsn' & Hl)]; [by left|right]. by exists l', bs'.
  - done.
Qed.

(** A disk that holds the last snapshot, before and after a crash. *)
Lemma backed_crash s d d' : backed s d -> crash d d' ->
  exists bs g l, snapshot_of g l bs /\ on_disk (path s) (Some bs) d' /\
    (g = generation s /\ Forall2 same_but_hint l (tasks s) \/
     poisoned s = true /\ g = generation s + 1 /\ history_step (tasks s) l).
Proof.
  intros (bs & l & Hsn & Hl & Hd) Hc. destruct (poisoned s).
  - destruct Hd as (bs' & l' & Hsn' & Hh & Hr). destruct (replaced_crash _ _ _ _ _ Hr Hc) as [Ho|Ho].
    + exists bs, (generation s), l. auto.
    + exists bs', (generation s + 1), l'. auto 6.
  - exists bs, (generation s), l. split; [done|]. split; [by apply (on_disk_crash _ _ d)|auto].
Qed.

End Committing.

(** ** The properties of the store *)

(** The operations that a poisoned store refuses. *)
Definition changing (o : store_op) : bool :=
  match o with SDrain | STakeResync => false | _ => true end.

Lemma poisoned_refuses `{Blake3} `{Hex} `{HexDecode} `{Json} pid o c :
  poisoned (store c) = true -> changing o = true -> run_op pid o c = (Err CommitUncertain, c).
Proof.
  intros Hp Hc. assert (forall A (k : method A), (let! _ := ensure_healthy in k) c = (Err CommitUncertain, c)) as Hh.
  { intros A k. unfold sbind, ensure_healthy, self, gets, liftr. cbn. by rewrite Hp. }
  destruct o; try done; cbn [run_op]; unfold discard; try apply Hh;
    unfold remove_completed_batch, create, create_selection; unfold sbind at 1; by rewrite Hh.
Qed.

(** The task store, whatever the environment does (faults of the disk, clock,
    random numbers): an operation on a sound store leaves a sound store, with the
    disk holding its last snapshot.  When it succeeds each record was kept or
    evolved by one sound step, only completed records disappeared and only
    scanning ones appeared; when it fails the records, the generation and the
    events are as before.  It does not panic, and once a commit is uncertain every
    further change is refused. *)
Theorem store_operation_sound `{Blake3} `{Hex} `{HexDecode} `{Json} (pid : Z) (o : store_op) (c c' : ctx)
    (r : outcome TaskStoreError unit) :
  store_inv c -> run_op pid o c = (r, c') ->
  match r with
  | Ok _ => store_ok c c'
  | Err _ => store_err c c'
  | Panic => False
  end /\
  (poisoned (store c) = true -> changing o = true -> r = Err CommitUncertain /\ c' = c).
Proof.
  intros Hi E. pose proof (wp_run_op pid o c Hi) as Hw. unfold wp in Hw. rewrite E in Hw.
  split; [by destruct r|]. intros Hp Hc. rewrite (poisoned_refuses pid o c Hp Hc) in E. by injection E as <- <-.
Qed.

(** C19: Crash at any time and open the store again: what is on the disk is never
    reported as damaged.  It is the snapshot [bs] of the records [l]: those of the
    last commit, up to progress hints, or, when a commit was uncertain, perhaps those
    it attempted, one sound step from the records in memory.  Opening marks every
    unfinished transfer of [l] as interrupted and leaves the others untouched; the
    store is sound again and not poisoned.  It fails only for reasons of the disk or
    the clock, and then too [bs] is durable until the snapshot of the recovered
    records is. *)
Theorem store_restart `{Blake3} `{Hex} `{HexDecode} `{JsonLaws} (pid : Z) (c : ctx) (w w' : world)
    (r : outcome TaskStoreError (TaskStore * list (list Z))) :
  store_inv c -> crash (disk (env c)) (disk w) -> open pid (Ok tt) (path (store c)) true w = (r, w') ->
  exists g l bs,
    snapshot_of g l bs /\ on_disk (path (store c)) (Some bs) (disk w) /\
    (g = generation (store c) /\ Forall2 same_but_hint l (tasks (store c)) \/
     poisoned (store c) = true /\ g = generation (store c) + 1 /\ history_step (tasks (store c)) l) /\
    match r with
    | Ok (s, _) => store_inv (mk_ctx s w') /\ path s = path (store c) /\ poisoned s = false /\
        g <= generation s /\ Forall2 recovered l (tasks s)
    | Err e => only_io e /\ unharmed (path (store c)) bs g l (disk w')
    | Panic => False
    end.
Proof.
  intros Hi Hc E. destruct (backed_crash _ _ _ (si_backed c Hi) Hc) as (bs & g & l & Hsn & Ho & Hg).
  exists g, l, bs. split; [done|]. split; [done|]. split; [done|].
  pose proof (wp_open pid (path (store c)) bs g l w (crash_sane _ _ (si_sane c Hi) Hc) Ho Hsn) as Hw.
  unfold wp in Hw. rewrite E in Hw. by destruct r as [[s ids]|e|].
Qed.

(** Which members of the history may be removed together. *)
Definition whole_group (requested : gset (list Z)) (l : list TaskRecord) (t : TaskRecord) : Prop :=
  state t = Completed /\ task_id t ∈ requested /\
  forall u, u ∈ l -> is_Some (group_id t) -> group_id u = group_id t -> state u = Completed /\ task_id u ∈ requested.

Lemma removable_spec requested l t :
  removable requested (blocked_groups requested l) t = true <-> whole_group requested l t.
Proof.
  unfold removable, whole_group. rewrite !andb_true_iff, !bool_decide_eq_true.
  assert (forall g, g ∈ blocked_groups requested l <->
    exists u, u ∈ l /\ group_id u = Some g /\ ~ (state u = Completed /\ task_id u ∈ requested)) as Hb.
  { intros g. unfold blocked_groups. rewrite list_elem_of_In, in_concat. setoid_rewrite in_map_iff. split.
    - intros (x & (u & <- & Hu) & Hg). exists u. split; [by apply list_elem_of_In|].
      destruct (negb _ || _) eqn:E; [|done]. destruct (group_id u) as [g'|]; [|done].
      destruct Hg as [->|[]]. split; [done|]. rewrite orb_true_iff, !negb_true_iff, !bool_decide_eq_false in E. tauto.
    - intros (u & Hu & Eg & Hn). exists [g]. split; [|by left]. exists u. split; [|by apply list_elem_of_In].
      rewrite Eg. destruct (negb _ || _) eqn:E; [done|].
      rewrite orb_false_iff, !negb_false_iff, !bool_decide_eq_true in E. done. }
  split.
  - intros [[Hs Hr] Hg]. split; [done|]. split; [done|]. intros u Hu [g Eg] Eu. rewrite Eg in *.
    apply negb_true_iff, bool_decide_eq_false in Hg.
    destruct (decide (state u = Completed /\ task_id u ∈ requested)) as [?|Hn]; [done|].
    exfalso. apply Hg, Hb. by exists u.
  - intros (Hs & Hr & Hall). split; [done|]. destruct (group_id t) as [g|] eqn:Eg; [|done].
    apply negb_true_iff, bool_decide_eq_false. rewrite Hb. intros (u & Hu & Eu & Hn). apply Hn, Hall; [done|by eexists|congruence].
Qed.

Definition removed_ids (requested : gset (list Z)) (l : list TaskRecord) : list (list Z) :=
  map task_id (sort_tasks (List.filter (removable requested (blocked_groups requested l)) l)).

Lemma removed_ids_spec requested l id :
  id ∈ removed_ids requested l <-> exists t, t ∈ l /\ task_id t = id /\ whole_group requested l t.
Proof.
  unfold removed_ids. split.
  - intros (t & -> & Ht)%list_elem_of_fmap. rewrite sort_tasks_perm in Ht.
    apply list_elem_of_In, filter_In in Ht as [Ht Hr]. exists t. split; [by apply list_elem_of_In|].
    split; [done|]. by apply removable_spec.
  - intros (t & Ht & <- & Hw). apply list_elem_of_fmap. exists t. split; [done|]. rewrite sort_tasks_perm.
    apply list_elem_of_In, filter_In. split; [by apply list_elem_of_In|]. by apply removable_spec.
Qed.

Lemma filter_ids_unique (f : TaskRecord -> bool) l : NoDup (map task_id l) -> NoDup (map task_id (List.filter f l)).
Proof.
  induction l as [|t l IH]; [done|]. cbn. intros [Ht Hn]%NoDup_cons. destruct (f t); [|by apply IH].
  cbn. apply NoDup_cons. split; [|by apply IH]. intros (u & Eu & Hu)%list_elem_of_fmap. apply Ht.
  apply list_elem_of_fmap. exists u. split; [done|]. apply list_elem_of_In, filter_In in Hu as [Hu _].
  by apply list_elem_of_In.
Qed.

(** Recording the same event for each of some tasks. *)
Lemma emit_each ids at_ k c :
  for_each (fun id => emit id at_ k) ids c =
  (Ok tt, mk_ctx (mk_store (path (store c)) (tasks (store c)) (generation (store c))
    (fold_left (fun b id => record id at_ k b) ids (buffer (store c))) (poisoned (store c))) (env c)).
Proof.
  revert c. induction ids as [|id ids IH]; intros [s w]; [by destruct s|]. cbn [for_each fold_left].
  unfold sbind at 1, emit, self, set_store, gets, modify, sbind. rewrite IH. done.
Qed.

Lemma wp_remove_batch_exact `{Blake3} `{Hex} `{HexDecode} `{Json} pid requested c : store_inv c ->
  wp (remove_completed_batch pid requested)
    (fun ids c' => ids = removed_ids requested (tasks (store c)) /\
       tasks (store c') ≡ₚ List.filter (fun t => negb (bool_decide (task_id t ∈ ids))) (tasks (store c)) /\
       exists at_, buffer (store c') = fold_left (fun b id => record id at_ Removed b) ids (buffer (store c)))
    (fun _ _ => True) c.
Proof.
  intros Hi. unfold remove_completed_batch, ensure_healthy, self. apply wp_bind, wp_bind, wp_gets, wp_liftr.
  destruct (poisoned (store c)) eqn:Hp; cbn [fail_if]; [done|]. apply wp_bind, wp_gets. cbv zeta.
  fold (removed_ids requested (tasks (store c))). set (ids := removed_ids _ _).
  case_bool_decide as Er.
  { apply wp_ret. rewrite Er. split; [done|]. split; [|by exists 0].
    clear. induction (tasks (store c)) as [|t l IH]; [done|]. cbn. by constructor. }
  unfold now. apply wp_bind, wp_on_env. unfold system_time, wp at 1. destruct (_ || _); [done|].
  set (c1 := mk_ctx (store c) _). set (at_ := hd 0 (clock (env c))).
  assert (store_inv c1) as Hi1 by (destruct Hi; by split).
  destruct (history_filter (fun t => negb (bool_decide (task_id t ∈ ids))) (tasks (store c)) (si_unique c Hi)) as [Hn Hh].
  { intros u Hu Eu. apply negb_false_iff, bool_decide_eq_true, removed_ids_spec in Eu as (t & Ht & Et & Hw).
    assert (find_task (task_id u) (tasks (store c)) = Some u) by (by apply find_task_Some; [apply (si_unique c Hi)|]).
    assert (find_task (task_id u) (tasks (store c)) = Some t) by (by apply find_task_Some; [apply (si_unique c Hi)|]).
    assert (u = t) as -> by congruence. destruct Hw as [Hw _]. exact Hw. }
  apply wp_bind. eapply wp_conseq; [by apply (wp_commit pid _ c1)| |done]. cbn beta.
  intros _ c2 [_ E2]. unfold wp, sbind. rewrite emit_each. cbn. rewrite E2. split; [done|].
  split; [apply sort_tasks_perm|]. by exists at_.
Qed.

(** Clearing the history removes whole groups or nothing of them: a completed
    record that was asked for is removed exactly when it belongs to no group or
    every member of its group is completed and asked for too.  All of them leave
    in one commit, which keeps everything else, and then one removal event each
    is recorded. *)
Theorem remove_batch_exact `{Blake3} `{Hex} `{HexDecode} `{Json} (pid : Z) (requested : gset (list Z))
    (c c' : ctx) (ids : list (list Z)) :
  store_inv c -> remove_completed_batch pid requested c = (Ok ids, c') ->
  (forall id, id ∈ ids <-> exists t, t ∈ tasks (store c) /\ task_id t = id /\ whole_group requested (tasks (store c)) t) /\
  NoDup ids /\
  tasks (store c') ≡ₚ List.filter (fun t => negb (bool_decide (task_id t ∈ ids))) (tasks (store c)) /\
  exists at_, buffer (store c') = fold_left (fun b id => record id at_ Removed b) ids (buffer (store c)).
Proof.
  intros Hi E. pose proof (wp_remove_batch_exact pid requested c Hi) as Hw. unfold wp in Hw. rewrite E in Hw.
  destruct Hw as (-> & Ht & Hb). split; [intros id; apply removed_ids_spec|]. split; [|done].
  unfold removed_ids. rewrite sort_tasks_perm. apply filter_ids_unique, (si_unique c Hi).
Qed.

(** ** The event buffer *)

Definition of_task (id : list Z) (e : TaskEvent) : bool := bool_decide (event_task e = id) && is_progress e.
Definition changes (l : list TaskEvent) : list TaskEvent := List.filter (fun e => negb (is_progress e)) l.
Definition hints (l : list TaskEvent) : list TaskEvent := List.filter is_progress l.

(** What the buffer keeps of the events [l] pushed since it was empty. *)
Record keeps_events (l : list TaskEvent) (b : TaskEventBuffer) : Prop := {
  ke_size : (length (events b) <= MAX_PENDING_EVENTS)%nat;
  ke_suffix : changes (events b) `suffix_of` changes l;
  ke_lossless : resync_required b = false -> changes (events b) = changes l;
  ke_once : NoDup (map event_task (hints (events b)));
  ke_latest : forall e, e ∈ hints (events b) -> last (List.filter (of_task (event_task e)) l) = Some e;
}.

Lemma replace_progress_spec e l :
  match replace_progress e l with
  | Some l' => exists l1 old l2, l = l1 ++ old :: l2 /\ l' = l1 ++ e :: l2 /\
      event_task old = event_task e /\ is_progress old = true
  | None => forall x, x ∈ hints l -> event_task x <> event_task e
  end.
Proof.
  induction l as [|x l IH]; [intros x Hx; by apply elem_of_nil in Hx|]. cbn.
  destruct (bool_decide (event_task x = event_task e) && is_progress x) eqn:E.
  - apply andb_true_iff in E as [E%bool_decide_eq_true Ep]. by exists [], x, l.
  - destruct (replace_progress e l) as [l'|].
    + destruct IH as (l1 & old & l2 & -> & -> & ?). by exists (x :: l1), old, l2.
    + destruct (is_progress x); [|done]. intros y [->|Hy]%elem_of_cons; [|by apply IH].
      rewrite andb_true_r in E. by apply bool_decide_eq_false in E.
Qed.

Lemma remove_progress_spec l :
  match remove_progress l with
  | Some l' => exists l1 old l2, l = l1 ++ old :: l2 /\ l' = l1 ++ l2 /\ is_progress old = true
  | None => hints l = []
  end.
Proof.
  induction l as [|x l IH]; [done|]. cbn. destruct (is_progress x) eqn:E.
  - by exists [], x, l.
  - destruct (remove_progress l) as [l'|]; [|done].
    destruct IH as (l1 & old & l2 & -> & -> & ?). by exists (x :: l1), old, l2.
Qed.

Lemma changes_app l1 l2 : changes (l1 ++ l2) = changes l1 ++ changes l2.
Proof. apply List.filter_app. Qed.
Lemma hints_app l1 l2 : hints (l1 ++ l2) = hints l1 ++ hints l2.
Proof. apply List.filter_app. Qed.

Lemma hints_progress e l : e ∈ hints l -> is_progress e = true.
Proof. intros He. apply list_elem_of_In, filter_In in He. by destruct He. Qed.

Lemma latest_other e x l : (is_progress e = true -> event_task e <> event_task x) ->
  last (List.filter (of_task (event_task x)) (l ++ [e])) = last (List.filter (of_task (event_task x)) l).
Proof.
  intros Hne. rewrite List.filter_app. cbn. assert (of_task (event_task x) e = false) as ->; [|by rewrite app_nil_r].
  unfold of_task. destruct (is_progress e); [|by rewrite andb_false_r].
  rewrite andb_true_r. by apply bool_decide_eq_false, Hne.
Qed.

Lemma latest_self e l : is_progress e = true -> last (List.filter (of_task (event_task e)) (l ++ [e])) = Some e.
Proof.
  intros Hp. rewrite List.filter_app. cbn. unfold of_task at 2. rewrite Hp, bool_decide_true by done. cbn. apply last_snoc.
Qed.

(** A progress hint takes the place of the older one, or the end when there is room. *)
Lemma push_hint l b e : is_progress e = true -> keeps_events l b -> keeps_events (l ++ [e]) (push e b).
Proof.
  intros Hp [K1 K2 K3 K4 K5]. assert (changes (l ++ [e]) = changes l) as Ec.
  { rewrite changes_app. cbn. by rewrite Hp, app_nil_r. }
  unfold push. rewrite Hp. pose proof (replace_progress_spec e (events b)) as Hr.
  destruct (replace_progress e (events b)) as [l'|].
  - destruct Hr as (l1 & old & l2 & E & -> & Et & Ho). rewrite E in *.
    assert (forall x, changes (l1 ++ x :: l2) = changes l1 ++ changes [x] ++ changes l2) as Hc
      by (intros x; rewrite changes_app; cbn; by destruct (is_progress x)).
    rewrite hints_app in K4, K5. cbn in K4, K5. rewrite Ho in K4, K5. rewrite map_app in K4. cbn in K4.
    split; cbn [events resync_required]; rewrite ?Ec; try done.
    + rewrite length_app in *. done.
    + revert K2. rewrite !Hc. cbn. by rewrite Hp, Ho.
    + revert K3. rewrite !Hc. cbn. by rewrite Hp, Ho.
    + rewrite hints_app, map_app. cbn. rewrite Hp. cbn. by rewrite <- Et.
    + intros x Hx. rewrite hints_app in Hx. cbn in Hx. rewrite Hp in Hx.
      apply elem_of_app in Hx. rewrite elem_of_cons in Hx.
      assert (x ∈ hints l1 \/ x ∈ hints l2 -> event_task e <> event_task x) as Hne.
      { intros Hin Eq. rewrite <- Et in Eq. apply NoDup_app in K4 as (_ & Hd & [Hn _]%NoDup_cons).
        destruct Hin as [Hin|Hin].
        - apply (Hd (event_task x)); [apply list_elem_of_fmap; by exists x|]. rewrite Eq. by left.
        - apply Hn. rewrite Eq. apply list_elem_of_fmap. by exists x. }
      destruct Hx as [Hx|[->|Hx]]; [|by apply latest_self|];
        (rewrite latest_other by (intros _; apply Hne; auto); apply K5; set_solver).
  - destruct (Nat.eqb_spec (length (events b)) MAX_PENDING_EVENTS) as [Hl|Hl].
    + split; rewrite ?Ec; try done. intros x Hx. rewrite latest_other; [by apply K5|].
      intros _ Eq. by apply (Hr x Hx).
    + unfold append. rewrite (proj2 (Nat.eqb_neq _ _) Hl).
      assert (changes (events b ++ [e]) = changes (events b)) as Eb by (rewrite changes_app; cbn; by rewrite Hp, app_nil_r).
      split; cbn [events resync_required]; rewrite ?Ec, ?Eb; try done.
      * rewrite length_app. cbn. lia.
      * rewrite hints_app, map_app. cbn. rewrite Hp. apply NoDup_app. split; [done|]. split; [|apply NoDup_singleton].
        intros id (x & -> & Hx)%list_elem_of_fmap Hid. apply list_elem_of_singleton in Hid. by apply (Hr x Hx).
      * intros x Hx. rewrite hints_app in Hx. cbn in Hx. rewrite Hp in Hx. apply elem_of_app in Hx as [Hx|Hx].
        -- rewrite latest_other; [by apply K5|]. intros _ Eq. by apply (Hr x Hx).
        -- apply list_elem_of_singleton in Hx as ->. by apply latest_self.
Qed.

Lemma no_hints l : hints l = [] -> changes l = l.
Proof.
  induction l as [|x l IH]; [done|]. cbn. destruct (is_progress x); [done|]. cbn. intros Hl. f_equal. by apply IH.
Qed.

(** A change always gets in: it evicts a hint, or the oldest change. *)
Lemma push_change l b e : is_progress e = false -> keeps_events l b -> keeps_events (l ++ [e]) (push e b).
Proof.
  intros Hp [K1 K2 K3 K4 K5].
  assert (forall k, changes (k ++ [e]) = changes k ++ [e]) as Ec by (intros k; rewrite changes_app; cbn; by rewrite Hp).
  assert (forall k, hints (k ++ [e]) = hints k) as Eh by (intros k; rewrite hints_app; cbn; by rewrite Hp, app_nil_r).
  assert (forall x k, x ∈ k -> k = hints (events b) -> last (List.filter (of_task (event_task x)) (l ++ [e])) = Some x) as Hl.
  { intros x k Hx ->. rewrite latest_other; [by apply K5|]. by rewrite Hp. }
  unfold push. rewrite Hp. unfold append.
  destruct (Nat.eqb_spec (length (events b)) MAX_PENDING_EVENTS) as [Hfull|Hroom].
  - pose proof (remove_progress_spec (events b)) as Hr. destruct (remove_progress (events b)) as [l'|].
    + destruct Hr as (l1 & old & l2 & E & -> & Ho).
      assert (changes (l1 ++ l2) = changes (events b)) as Ech.
      { rewrite E, !changes_app. cbn. by rewrite Ho. }
      assert (hints (events b) = hints l1 ++ old :: hints l2) as Ehh.
      { rewrite E, hints_app. cbn. by rewrite Ho. }
      split; cbn [events resync_required]; rewrite ?Ec, ?Ech, ?Eh.
      * rewrite E in K1. rewrite !length_app in *. cbn in *. lia.
      * by apply suffix_snoc.
      * intros Hres. by rewrite (K3 Hres).
      * rewrite hints_app, map_app. rewrite Ehh, map_app in K4. cbn in K4.
        apply NoDup_app in K4 as (H1 & H2 & [_ H3]%NoDup_cons). apply NoDup_app. split; [done|]. split; [|done].
        intros x Hx1 Hx2. apply (H2 x Hx1). by right.
      * intros x Hx. rewrite hints_app in Hx. apply (Hl x (hints (events b))); [rewrite Ehh; set_solver|done].
    + assert (hints (tail (events b)) = []) as Ht.
      { destruct (events b) as [|x k]; [done|]. cbn in *. by destruct (is_progress x). }
      split; cbn [events resync_required]; rewrite ?Ec, ?Eh; try done.
      * rewrite length_app. unfold MAX_PENDING_EVENTS in *. cbn. destruct (events b); cbn in *; lia.
      * apply suffix_snoc. etransitivity; [|exact K2]. rewrite !no_hints by done.
        destruct (events b) as [|x k]; [done|]. by exists [x].
      * rewrite Ht. constructor.
      * intros x Hx. rewrite Ht in Hx. by apply elem_of_nil in Hx.
  - split; cbn [events resync_required]; rewrite ?Ec, ?Eh; try done.
    + rewrite length_app. cbn. lia.
    + by apply suffix_snoc.
    + intros Hres. by rewrite (K3 Hres).
    + intros x Hx. by apply (Hl x (hints (events b))).
Qed.

(** The event buffer after any sequence of events since it was drained: it never
    holds more than 256; it holds at most one progress hint per task, the latest
    one; the other events are kept in order, the oldest given up only when the
    buffer is full of them, and then the buffer says that a resync is needed. *)
Theorem events_kept (l : list TaskEvent) :
  keeps_events l (fold_left (fun b e => push e b) l empty_buffer).
Proof.
  induction l as [|e l IH] using rev_ind.
  - split; cbn; try done; [lia|constructor|]. intros e He. by apply elem_of_nil in He.
  - rewrite fold_left_app. cbn. destruct (is_progress e) eqn:E; [by apply push_hint|by apply push_change].
Qed.

(** ** Witnesses *)

Import Hexadecimal.

#[local] Instance example_hash : Blake3 := fun bs => take 32 (bs ++ repeat 0 32).

#[local] Instance LocalTaskPath_eq_dec : EqDecision LocalTaskPath.
Proof. solve_decision. Defined.
#[local] Instance TaskRecord_eq_dec : EqDecision TaskRecord.
Proof. solve_decision. Defined.
#[local] Instance StoreSnapshot_eq_dec : EqDecision StoreSnapshot.
Proof. solve_decision. Defined.

(** A codec for the snapshots of a table. *)
Section Table.
Context (table : list StoreSnapshot).

Fixpoint position (s : StoreSnapshot) (l : list StoreSnapshot) : option nat :=
  match l with
  | [] => None
  | x :: l' => if bool_decide (x = s) then Some 0%nat else S <$> position s l'
  end.

Lemma position_lookup s l i : position s l = Some i -> l !! i = Some s.
Proof.
  revert i. induction l as [|x l IH]; intros i; [done|]. cbn. case_bool_decide as E.
  - intros [= <-]. by rewrite E.
  - destruct (position s l) as [j|]; [|done]. cbn. intros [= <-]. by apply IH.
Qed.

Definition table_json : Json := {|
  to_vec := fun s => (fun i => [Z.of_nat i]) <$> position s table;
  from_slice := fun bs => match bs with [i] => table !! Z.to_nat i | _ => None end;
|}.

Lemma table_laws : @JsonLaws table_json.
Proof.
  intros s bs. cbn. destruct (position s table) as [i|] eqn:E; [|done]. cbn. intros [= <-].
  rewrite Nat2Z.id. by apply position_lookup.
Qed.
End Table.

Definition scanning : TaskRecord := example_record.
Definition after (os : list op) : TaskRecord := replay scanning os.
Definition interrupted : TaskRecord :=
  after [OTransition Interrupted (Some (mk_diagnostic ApplicationRestarted false)) 9].
Definition completed : TaskRecord := after example_ops.

#[local] Instance example_json : Json :=
  table_json [mk_snapshot 1 1 [scanning]; mk_snapshot 1 2 [interrupted]; mk_snapshot 1 2 [after [OCancel 9]];
              mk_snapshot 1 1 [completed]; mk_snapshot 1 2 []].
#[local] Instance example_json_laws : JsonLaws := table_laws _.

Definition store_name : name := lit "tasks.json".
Definition example_disk (bs : list Z) : fs :=
  mk_fs {[0 := mk_inode bs bs true]} {[store_name := 0]} {[store_name := 0]} 1.
Definition example_ctx (t : TaskRecord) (bs : list Z) : ctx :=
  mk_ctx (mk_store store_name [t] 1 empty_buffer false) (mk_world (example_disk bs) [] [9; 10] [5]).

Lemma example_inv t bs : to_vec (mk_snapshot 1 1 [t]) = Some bs -> (length bs <= 1)%nat -> valid t ->
  store_inv (example_ctx t bs).
Proof.
  intros Ev Hl Hv.
  assert (snapshot_of 1 [t] bs) as Hsn.
  { split; [done|]. split; [unfold MAX_STORE_BYTES; lia|]. split; [by constructor|].
    split; [apply NoDup_singleton|repeat constructor]. }
  split; try apply Hsn.
  - intros n i [Hi|Hi]; cbn in Hi; apply lookup_singleton_Some in Hi as [_ <-]; cbn; lia.
  - exists bs, [t]. split; [done|]. split; [apply same_but_hint_list|]. exists 0. done.
Qed.

Lemma scanning_inv : store_inv (example_ctx scanning [0]).
Proof. apply example_inv; [vm_compute; reflexivity|cbn; lia|apply example_valid]. Qed.

Definition cancel_run : outcome TaskStoreError unit * ctx :=
  run_op 3 (SCancel (task_id scanning)) (example_ctx scanning [0]).

Lemma store_operation_sound_witness :
  store_inv cancel_run.2 /\ tasks (store cancel_run.2) = [after [OCancel 9]].
Proof.
  assert (cancel_run.1 = Ok tt) as E by (vm_compute; reflexivity).
  split; [|vm_compute; reflexivity].
  destruct (store_operation_sound 3 (SCancel (task_id scanning)) (example_ctx scanning [0]) cancel_run.2 (Ok tt)
    scanning_inv (eq_trans (surjective_pairing cancel_run) (f_equal (fun r => (r, cancel_run.2)) E))) as [[Hi _] _].
  exact Hi.
Defined.

Definition restarted : world := mk_world (orderly (example_disk [0])) [] [9] [6].
Definition restart_run : outcome TaskStoreError (TaskStore * list (list Z)) * world :=
  open 3 (Ok tt) store_name true restarted.

Lemma store_restart_witness :
  exists s ids, restart_run.1 = Ok (s, ids) /\ store_inv (mk_ctx s restart_run.2) /\ tasks s = [interrupted].
Proof.
  assert (exists s ids, restart_run.1 = Ok (s, ids) /\ tasks s = [interrupted]) as (s & ids & E & Et)
    by (do 2 eexists; split; vm_compute; reflexivity).
  exists s, ids. split; [exact E|]. split; [|exact Et].
  destruct (store_restart 3 (example_ctx scanning [0]) restarted restart_run.2 (Ok (s, ids)) scanning_inv (crash_orderly _)
    (eq_trans (surjective_pairing restart_run) (f_equal (fun r => (r, restart_run.2)) E)))
    as (g & l & bs & _ & _ & _ & Hi & _). exact Hi.
Defined.

Definition batch_run : outcome TaskStoreError (list (list Z)) * ctx :=
  remove_completed_batch 3 {[task_id completed]} (example_ctx completed [3]).

Lemma remove_batch_exact_witness : tasks (store batch_run.2) = [].
Proof.
  assert (valid completed) as Hv by (unfold valid; vm_compute; reflexivity).
  assert (batch_run.1 = Ok [task_id completed]) as E by (vm_compute; reflexivity).
  destruct (remove_batch_exact 3 {[task_id completed]} (example_ctx completed [3]) batch_run.2 [task_id completed]
    (example_inv completed [3] ltac:(vm_compute; reflexivity) ltac:(cbn; lia) Hv)
    (eq_trans (surjective_pairing batch_run) (f_equal (fun r => (r, batch_run.2)) E))) as (_ & _ & Hp & _).
  apply Permutation_nil. symmetry. exact Hp.
Defined.

End TaskRestart.
