(* ===== verification/Configuration.v ===== *)
(** * Configuring the node (src/node/host/configuration.rs)

    How new settings take effect: node.json (settings.rs), the coordinator of the
    agent (configuration.rs and the commands of host/agent.rs that change settings),
    and the actor of the session that writes the file and publishes the policy
    (CommitAgentPolicy in core/session.rs). A command holds the lock of the
    configuration throughout; what the network, the listeners and the disk do
    meanwhile is an argument of the command. *)
From Stdlib Require Import ZArith Lia.
From stdpp Require Import prelude gmap strings.
From S2P Require Import Prelude Manifest Message State FileSystem Durable AtomicFile Addr Identity RelativePath RemoteAuth Rights NodeWire Rules SpaceBudget NodeServices Settings Supervisor Forwarding AutoResume Queue TaskStore Hexadecimal.

#[local] Open Scope Z_scope.

Module Configuration.
Import Durable AtomicFile Settings.

(** serde_json on the records of node.json. *)
Class ConfigJson : Type := {
  to_vec_pretty : ConfigRecord -> option (list Z);
  from_slice : list Z -> option ConfigRecord;
}.
Class ConfigJsonLaws `{ConfigJson} : Prop :=
  parse_printed : forall r bytes, to_vec_pretty r = Some bytes -> from_slice (bytes ++ [10]) = Some r.

Definition node_json : name := lit "node.json".
Definition MAX_CONFIG : Z := 1024 * 1024.

(** ** node.json *)

Section Record.
Context `{ConfigJson} `{Hex} `{HexDecode}.

Definition request_id_ok (id : list Z) : bool :=
  negb (bool_decide (id = [])) && (str_len id <=? 64) &&
  forallb (fun b => RemoteAuth.is_ascii_alphanumeric b || (b =? 45) || (b =? 95)) (utf8 id).
Definition is_hex_digit (b : Z) : bool := is_ascii_digit b || ((65 <=? b) && (b <=? 70)) || ((97 <=? b) && (b <=? 102)).
Definition digest_ok (hash : list Z) : bool := (str_len hash =? 64) && forallb is_hex_digit (utf8 hash).

Definition validate_record (t : Tls) (r : ConfigRecord) : result unit :=
  let? _ :=
    (if negb (schema_version r =? 1) then Err (Protocol "schema or size of the node configuration")
     else let? bytes := ok_or (to_vec_pretty r) (Protocol "json") in
          fail_if (MAX_CONFIG <=? Z.of_nat (length bytes)) (Protocol "schema or size of the node configuration")) in
  let? _ := match last_request r with
            | Some (id, hash) => fail_if (negb (request_id_ok id) || negb (digest_ok hash)) (Protocol "last request")
            | None => Ok tt
            end in
  validate t (settings r).

Definition load (t : Tls) (path : name) : st world error ConfigRecord :=
  let! (regular, len) := syscall (TaskStore.fs_metadata path) in
  let! _ := liftr (fail_if (negb regular || (MAX_CONFIG <? len)) (Protocol "not a bounded regular file")) in
  let! file := syscall (fs_open path) in
  let! bytes := syscall (fs_read_limited file (MAX_CONFIG + 1)) in
  let! _ := liftr (fail_if (MAX_CONFIG <? Z.of_nat (length bytes)) (Protocol "more than 1 MiB")) in
  let! value := liftr (ok_or (from_slice bytes) (Protocol "damaged")) in
  let! _ := liftr (fail_if (negb (schema_version value =? 1)) (Protocol "schema not supported")) in
  let! _ := liftr (validate_record t value) in
  ret value.

Definition try_exists (path : name) : st world error bool :=
  let! r := attempt (syscall (fs_stat path)) in
  match r with
  | Ok _ => ret true
  | Err (Io NotFound) => ret false
  | Err e => throw e
  | Panic => panic
  end.

Definition initialize (t : Tls) (path : name) (root : list Z) : st world error ConfigRecord :=
  let! there := try_exists path in
  let! _ := liftr (fail_if there (Protocol "configuration exists")) in
  let record := mk_config 1 0 None (Settings.initial root) in
  let! _ := liftr (validate_record t record) in
  let! _ := write_json to_vec_pretty path record in
  ret record.
End Record.

(** ** The actor of the session *)

(** The file service of the session, as far as settings reach it. *)
Record TransferService : Type := mk_transfer {
  root : list Z;
  recovery : AutoResume.Recovery;
  queue : Queue.TaskQueue;
  limits : FileLimits;
  safety_mib : Z;
}.

(** What the actor keeps about devices besides connections. *)
Record Waiting : Type := mk_waiting {
  direct_dialing : gset NodeId;
  credentials : gset NodeId;
  credential_retries : gset NodeId;
  deferred_candidates : gset NodeId;
  peer_candidates : gset NodeId;
  reconnect_probes : gset NodeId;
  pending_inbound : gset (NodeId * Z);
  queued_lookups : list (NodeId * Z);
  short_queries : gset Z;
}.

(** [connections]: the number of the attempt and whether the connection is open.
    [direct_routes] in the order of its keys. *)
Record Core : Type := mk_core {
  running : bool;
  connections : gmap NodeId (Z * bool);
  authorizations : gmap NodeId (Z * Rights.Publisher);
  peer_attempts : gset NodeId;
  connection_updates : gmap NodeId (option Z);
  waiting : Waiting;
  trusted : list TrustedDevice;
  auth_context : gset NodeId;
  remote_verifier : option RemoteAuth.RemoteVerifier;
  resource_policy : NodeServices.ResourcePolicy;
  allowed_forward_targets : list Rules.AllowedForwardTarget;
  control_sources : gmap NodeId TrustSource;
  configured_routes : list (list Z * list Addr.SocketAddr);
  direct_routes : list (list Z * list Addr.SocketAddr);
  transfer : option TransferService;
}.

Record CommitOptions : Type := mk_options { verified : option (NodeId * Z); restart : bool }.

(** *** Fixed routes *)

Definition is_route (l : list (list Z * list Addr.SocketAddr)) (k : list Z) : bool := existsb (fun kv => bool_decide (kv.1 = k)) l.

Fixpoint insert_route (kv : list Z * list Addr.SocketAddr) (l : list (list Z * list Addr.SocketAddr)) :
    list (list Z * list Addr.SocketAddr) :=
  match l with
  | [] => [kv]
  | x :: rest =>
      if bool_decide (x.1 = kv.1) then kv :: rest
      else if Message.bytes_le (utf8 kv.1) (utf8 x.1) then kv :: l
      else x :: insert_route kv rest
  end.

(** [while] the hints are too many, the first of them goes; one turn per route is enough. *)
Fixpoint evict_hints (fuel : nat) (configured routes : list (list Z * list Addr.SocketAddr)) : list (list Z * list Addr.SocketAddr) :=
  match fuel with
  | O => routes
  | S fuel' =>
      let hints := List.filter (fun kv => negb (is_route configured kv.1)) routes in
      if 128 <? Z.of_nat (length hints) + Z.of_nat (length configured) then
        match hints with
        | [] => routes
        | (k, _) :: _ => evict_hints fuel' configured (List.filter (fun kv => negb (bool_decide (kv.1 = k))) routes)
        end
      else routes
  end.

#[global] Instance routes_eq_dec : EqDecision (list (list Z * list Addr.SocketAddr)) := _.

Definition new_routes (before routes : list (list Z * list Addr.SocketAddr)) (configured : list (list Z * list Addr.SocketAddr)) :
    list (list Z * list Addr.SocketAddr) :=
  if bool_decide (before = configured) then routes
  else
    let routes := List.filter (fun kv => negb (is_route before kv.1)) routes in
    foldl (fun l kv => insert_route kv l) (evict_hints (length routes) configured routes) configured.

Section Actor.
Context `{ConfigJson} `{Hex} `{HexDecode}.

(** *** Publishing *)

Definition password_changed (c : Core) (s : NodeSettings) : bool := negb (bool_decide (remote_verifier c = remote_auth s)).

(** The reasons to take rights back. *)
Definition revokes (c : Core) (s : NodeSettings) (o : CommitOptions) (peer : NodeId) : bool :=
  let old := NodeServices.for_peer (resource_policy c) peer in
  let next := NodeServices.for_peer (resources s) peer in
  password_changed c s || restart o || NodeServices.p_disabled next ||
  (NodeServices.p_files old && negb (NodeServices.p_files next)) ||
  (NodeServices.p_speed old && negb (NodeServices.p_speed next)) ||
  (trusts (trusted c) peer && negb (trusts (trusted_devices s) peer)).

Definition revoked (c : Core) (s : NodeSettings) (o : CommitOptions) : gset NodeId :=
  filter (fun peer => revokes c s o peer = true) (dom (connections c) ∪ peer_attempts c).

Definition forget_waiting (gone : gset NodeId) (changed : bool) (w : Waiting) : Waiting :=
  mk_waiting (direct_dialing w ∖ gone) (if changed then ∅ else credentials w ∖ gone) (if changed then ∅ else credential_retries w ∖ gone)
    (deferred_candidates w ∖ gone) (peer_candidates w ∖ gone) (reconnect_probes w ∖ gone)
    (filter (fun k => k.1 ∉ gone) (pending_inbound w)) (List.filter (fun k => negb (bool_decide (k.1 ∈ gone))) (queued_lookups w))
    (if changed then ∅ else short_queries w).

Definition to_publisher (x : Z * Rights.Publisher) : Z * Rights.Publisher := (x.1, Rights.send_replace (RemoteAuth.mk_rights (RemoteAuth.mk_grant false false) (RemoteAuth.mk_grant false false)) x.2).

(** [f] on the entries of these devices. *)
Definition on_peers {A : Type} (gone : gset NodeId) (f : A -> A) (m : gmap NodeId A) : gmap NodeId A :=
  map_imap (fun p x => Some (if bool_decide (p ∈ gone) then f x else x)) m.

Definition set_transfer (gone : gset NodeId) (s : NodeSettings) (t : TransferService) : TransferService :=
  let r := foldr (fun p r => (AutoResume.cancel_peer p r).2) (recovery t) (elements gone) in
  let r := if bool_decide (root t = receive_root s) then r else AutoResume.clear r in
  mk_transfer (receive_root s) (AutoResume.enable (auto_resume s) r) (Queue.set_limit (send_concurrency s) (queue t)).2
    (match validate_limits (file_limits s) with Ok _ => file_limits s | _ => limits t end)
    (SpaceBudget.set_safety_mib (receive_safety_mib s) (safety_mib t)).2.

Definition named_sources (s : NodeSettings) : gmap NodeId TrustSource :=
  foldr (fun kv m => match Identity.from_hex kv.1 with Ok id => <[id := kv.2]> m | _ => m end) ∅ (map_to_list (trust_sources s)).

Definition trusted_ids (l : list TrustedDevice) : gset NodeId :=
  list_to_set (concat (map (fun d => match Identity.from_hex (v_node d) with Ok id => [id] | _ => [] end) l)).

Definition publish (s : NodeSettings) (o : CommitOptions) (c : Core) : Core :=
  let gone := revoked c s o in
  mk_core (running c && negb (restart o))
    (on_peers gone (fun x => (x.1, false)) (connections c))
    (on_peers gone to_publisher (authorizations c))
    (peer_attempts c ∖ gone)
    (on_peers gone (fun _ => None) (connection_updates c))
    (forget_waiting gone (password_changed c s) (waiting c))
    (trusted_devices s) (trusted_ids (trusted_devices s)) (remote_auth s) (resources s) (services s) (named_sources s)
    (direct_peers (direct s)) (new_routes (configured_routes c) (direct_routes c) (direct_peers (direct s)))
    (set_transfer gone s <$> transfer c).

(** *** The command *)

Definition verified_now (c : Core) (peer : NodeId) (generation : Z) : bool :=
  bool_decide (connections c !! peer = Some (generation, true)) &&
  match authorizations c !! peer with
  | Some (g, p) => (g =? generation) && RemoteAuth.password (RemoteAuth.inbound (Rights.value p))
  | None => false
  end.

Definition root_changes (c : Core) (s : NodeSettings) : bool :=
  match transfer c with Some t => negb (bool_decide (root t = receive_root s)) | None => false end.

(** [root_error]: what [validate_receive_directory] finds wrong. *)
Definition commit_policy (t : Tls) (root_error : option error) (r : ConfigRecord) (o : CommitOptions) (c : Core) : st world error (WriteOutcome * Core) :=
  let! _ := liftr (validate_record t r) in
  let! _ := liftr (match verified o with
                   | Some (peer, generation) => fail_if (negb (verified_now c peer generation)) (Protocol "password proof no longer valid")
                   | None => Ok tt
                   end) in
  let! _ := liftr (match root_error with Some e => fail_if (root_changes c (settings r)) e | None => Ok tt end) in
  let! outcome := write_json to_vec_pretty node_json r in
  ret (outcome, publish (settings r) o c).
End Actor.

(** ** The coordinator of the agent *)

Inductive refusal : Type :=
  | RevisionConflict (current : Z)
  | RestartRequired
  | RecoveryRequired
  | NotAllowed (why : string)
  | Failed (e : error).

Inductive reply : Type :=
  | Committed (revision : Z) (warning : option error) (restart : bool)
  | AlreadyCommitted (revision : Z)
  | ForwardsChanged.

Record Agent : Type := mk_agent {
  config : ConfigRecord;
  restart_pending : bool;
  last_error : option error;
  manager : Forwarding.ForwardManager;
  core : Core;
  env : world;
}.

(** What the rest of the actor did to its tables, never to the policy. *)
Record Network : Type := mk_network {
  n_connections : gmap NodeId (Z * bool);
  n_authorizations : gmap NodeId (Z * Rights.Publisher);
  n_attempts : gset NodeId;
  n_updates : gmap NodeId (option Z);
  n_waiting : Waiting;
  n_routes : list (list Z * list Addr.SocketAddr);
  n_recovery : AutoResume.Recovery;
  n_queue : Queue.TaskQueue;
}.

(** What happens around a command: the answers of the disk to the checks, the turns of
    the listeners and of the actor before it takes the command, whether the actor ends
    before or after taking it, what the checks of the actor find, and whether the
    snapshot can be numbered. *)
Inductive fate : Type := Answered | LostBefore | LostAfter.
Record Moment : Type := mk_moment {
  m_tls : Tls;
  m_turns : list Forwarding.turn;
  m_network : Network;
  m_fate : fate;
  m_tls_actor : Tls;
  m_root : option error;
  m_snapshot : bool;
}.

Definition on_network (n : Network) (c : Core) : Core :=
  mk_core (running c) (n_connections n) (n_authorizations n) (n_attempts n) (n_updates n) (n_waiting n)
    (trusted c) (auth_context c) (remote_verifier c) (resource_policy c) (allowed_forward_targets c) (control_sources c)
    (configured_routes c) (n_routes n)
    ((fun t => mk_transfer (root t) (n_recovery n) (n_queue n) (limits t) (safety_mib t)) <$> transfer c).

Definition with_core (c : Core) (a : Agent) : Agent := mk_agent (config a) (restart_pending a) (last_error a) (manager a) c (env a).
Definition with_manager (f : Forwarding.ForwardManager) (a : Agent) : Agent :=
  mk_agent (config a) (restart_pending a) (last_error a) f (core a) (env a).
Definition with_env (w : world) (a : Agent) : Agent := mk_agent (config a) (restart_pending a) (last_error a) (manager a) (core a) w.
Definition with_config (r : ConfigRecord) (a : Agent) : Agent := mk_agent r (restart_pending a) (last_error a) (manager a) (core a) (env a).

(** [control.shutdown()]: no further command is taken. *)
Definition shut (c : Core) : Core :=
  mk_core false (connections c) (authorizations c) (peer_attempts c) (connection_updates c) (waiting c) (trusted c) (auth_context c)
    (remote_verifier c) (resource_policy c) (allowed_forward_targets c) (control_sources c) (configured_routes c) (direct_routes c) (transfer c).
Definition shutdown (a : Agent) : Agent := with_core (shut (core a)) a.

Definition forward_settings (s : NodeSettings) : Forwarding.NodeSettings := Forwarding.mk_settings (forwards s) (service_ids s).

(** The fields that an online update must not change. *)
Definition same_runtime (before after : NodeSettings) : bool :=
  bool_decide ((direct_enabled (direct before), lan_discovery (direct before), listen_port (direct before)) =
               (direct_enabled (direct after), lan_discovery (direct after), listen_port (direct after))) &&
  bool_decide ((signal_server before, signal_tls before, relay_server before) = (signal_server after, signal_tls after, relay_server after)) &&
  bool_decide ((enable_files before, enable_speed before, enable_tcp before) = (enable_files after, enable_speed after, enable_tcp after)).

(** The drafts of the management protocol: [Object] is an object, whether it names
    [remote_auth], and what serde reads of it, that field apart. *)
Inductive Value : Type := NotAnObject | Object (names_password : bool) (fields : option NodeSettings).

Definition with_password (v : option RemoteAuth.RemoteVerifier) (s : NodeSettings) : NodeSettings :=
  mk_settings (direct s) (signal_server s) (signal_tls s) (relay_server s) (receive_root s) v (trusted_devices s) (trust_sources s)
    (resources s) (services s) (forwards s) (service_ids s) (send_concurrency s) (auto_resume s) (receive_safety_mib s) (file_limits s)
    (enable_files s) (enable_speed s) (enable_tcp s).

Definition with_trusted (d : TrustedDevice) (s : NodeSettings) : NodeSettings :=
  mk_settings (direct s) (signal_server s) (signal_tls s) (relay_server s) (receive_root s) (remote_auth s) (trusted_devices s ++ [d])
    (<[v_node d := PasswordVerified]> (trust_sources s)) (resources s) (services s) (forwards s) (service_ids s) (send_concurrency s)
    (auto_resume s) (receive_safety_mib s) (file_limits s) (enable_files s) (enable_speed s) (enable_tcp s).

Section Coordinator.
Context `{ConfigJson} `{Hex} `{HexDecode} `{Supervisor.Tcp} `{Forwarding.Control}.

Abbreviation method A := (st Agent refusal A).

Definition check_source (current s : NodeSettings) (o : CommitOptions) (_ : unit) (d : TrustedDevice) : outcome refusal unit :=
  let? source := unwrap (trust_sources s !! v_node d) in
  fail_if (negb (bool_decide (trust_sources current !! v_node d = Some source)) && negb (bool_decide (source = Administrator)) &&
           negb (bool_decide (source = PasswordVerified) &&
                 match verified o with Some (peer, _) => bool_decide (Identity.id_to_hex peer = v_node d) | None => false end))
    (NotAllowed "source").

(** Sending the record to the actor. *)
Definition commit_agent_policy (r : ConfigRecord) (o : CommitOptions) (m : Moment) : method WriteOutcome := fun a =>
  if negb (running (core a)) then (Err (Failed (Protocol "session closed")), a)
  else
    match m_fate m with
    | LostBefore => (Err RecoveryRequired, shutdown a)
    | _ =>
        let (result, w) := commit_policy (m_tls_actor m) (m_root m) r o (core a) (env a) in
        let a := with_env w a in
        match result, m_fate m with
        | Panic, _ => (Panic, a)
        | Ok (outcome, c), Answered => (Ok outcome, with_core c a)
        | Ok (_, c), _ => (Err RecoveryRequired, shutdown (with_core c a))
        | Err e, Answered => (Err (Failed e), a)
        | Err _, _ => (Err RecoveryRequired, shutdown a)
        end
    end.

Definition lift_forward {A : Type} (f : st Forwarding.ForwardManager error A) : method A :=
  zoom manager with_manager (fun s => let (r, s') := f s in (map_err Failed r, s')).

(** The listeners that were told to stop are awaited at the end; when the snapshot fails
    their handles are dropped and they end by themselves. Here both is at once. *)
Definition commit_settings (expected : Z) (s : NodeSettings) (id digest : list Z) (o : CommitOptions) (m : Moment) : method reply :=
  let! a := get in
  let current := config a in
  let! _ := liftr (fail_if (negb (expected =? revision current)) (RevisionConflict (revision current))) in
  let! _ := liftr (map_err Failed (validate (m_tls m) s)) in
  let! _ := liftr (fail_if (negb (same_runtime (settings current) s) && negb (restart o)) RestartRequired) in
  let! _ := liftr (fold_outcome (check_source (settings current) s o) tt (trusted_devices s)) in
  let! prepared := lift_forward (Forwarding.prepare (forward_settings s) None) in
  let! next := liftr (ok_or (checked_add U64_MAX (revision current) 1) (NotAllowed "revision exhausted")) in
  let record := mk_config 1 next (Some (id, digest)) s in
  let! _ := modify (fun a => with_core (on_network (m_network m) (core a))
                               (with_manager (fold_left Forwarding.take_turn (m_turns m) (manager a)) a)) in
  let! outcome := commit_agent_policy record o m in
  let! retired :=
    (if restart o then
       let! _ := modify (fun a => mk_agent (config a) true (last_error a) (Forwarding.shutdown (manager a)) (core a) (env a)) in
       ret []
     else lift_forward (Forwarding.commit prepared)) in
  let! _ := modify (with_config record) in
  let! _ := modify (fun a => with_manager (fold_left (fun f k => Forwarding.await k f) retired (manager a)) a) in
  if negb (m_snapshot m) then (fun a => (Err RecoveryRequired, shutdown a))
  else
    let! _ := modify (fun a => mk_agent (config a) (restart_pending a) (durability_warning outcome) (manager a) (core a) (env a)) in
    ret (Committed next (durability_warning outcome) (restart o)).

Definition apply_settings (expected : Z) (value : Value) (id digest : list Z) (restart : bool) (m : Moment) : method reply :=
  let! a := get in
  let current := config a in
  if bool_decide (last_request current = Some (id, digest)) then ret (AlreadyCommitted (revision current))
  else
    let! _ := liftr (fail_if (negb (expected =? revision current)) (RevisionConflict (revision current))) in
    match value with
    | NotAnObject => throw (NotAllowed "not an object")
    | Object names_password fields =>
        let! _ := liftr (fail_if names_password (NotAllowed "passwords have their own command")) in
        let! s := liftr (ok_or (with_password (remote_auth (settings current)) <$> fields) (NotAllowed "not settings")) in
        commit_settings expected s id digest (mk_options None restart) m
    end.

(** The commands that change settings or listeners. *)
Inductive Command : Type :=
  | ApplyConfig (expected : Z) (value : Value)
  | ConfigureRestart (expected : Z) (value : Value)
  | TrustVerified (expected : Z) (peer : list Z) (generation : Z) (name : list Z) (now : Z)
  | SetPassword (expected : Z) (password : list Z) (drawn : option (list Z))
  | StartForward (rule : list Z)
  | StopForward (rule : list Z).

Definition execute `{RemoteAuth.Argon2} (c : Command) (id digest : list Z) (m : Moment) : method reply :=
  let! a := get in
  if restart_pending a then throw RestartRequired
  else
    match c with
    | ApplyConfig expected value => apply_settings expected value id digest false m
    | ConfigureRestart expected value => apply_settings expected value id digest true m
    | TrustVerified expected peer generation name now =>
        let! peer := liftr (map_err Failed (Identity.from_hex peer)) in
        let s := settings (config a) in
        let! _ := liftr (fail_if (trusts (trusted_devices s) peer) (NotAllowed "already trusted")) in
        commit_settings expected (with_trusted (mk_device (Identity.id_to_hex peer) name None now now) s) id digest
          (mk_options (Some (peer, generation)) false) m
    | SetPassword expected password drawn =>
        let! verifier := liftr (map_err Failed (let? p := RemoteAuth.new_password password in RemoteAuth.create p drawn)) in
        commit_settings expected (with_password (Some verifier) (settings (config a))) id digest (mk_options None false) m
    | StartForward rule =>
        let s := settings (config a) in
        let! _ := liftr (fail_if (negb (existsb (fun r => bool_decide (Rules.t_id r = rule) && Rules.t_enabled r) (forwards s))) (NotAllowed "no such rule")) in
        let! _ := lift_forward (Forwarding.step (Forwarding.Configure (forward_settings s) (Some rule) [])) in
        ret ForwardsChanged
    | StopForward rule =>
        let! _ := liftr (fail_if (negb (existsb (fun r => bool_decide (Rules.t_id r = rule)) (forwards (settings (config a))))) (NotAllowed "no such rule")) in
        let! _ := lift_forward (Forwarding.step (Forwarding.Stop rule)) in
        ret ForwardsChanged
    end.
End Coordinator.

(** ** The life of a node *)

Section Life.
Context `{ConfigJson} `{Hex} `{HexDecode} `{Supervisor.Tcp} `{Forwarding.Control} `{RemoteAuth.Argon2}.

(** The session that starts with these settings. *)
Definition new_core (s : NodeSettings) : Core :=
  mk_core true ∅ ∅ ∅ ∅ (mk_waiting ∅ ∅ ∅ ∅ ∅ ∅ ∅ [] ∅) (trusted_devices s) (trusted_ids (trusted_devices s)) (remote_auth s) (resources s)
    (services s) (named_sources s) (direct_peers (direct s)) (direct_peers (direct s))
    (Some (mk_transfer (receive_root s) (AutoResume.enable (auto_resume s) AutoResume.initial)
             (Queue.set_limit (send_concurrency s) Queue.default_queue).2
             (match validate_limits (file_limits s) with Ok _ => file_limits s | _ => mk_limits 0 0 end)
             (SpaceBudget.set_safety_mib (receive_safety_mib s) SpaceBudget.default_safety_mib).2)).

(** Starting the agent, up to its listeners. *)
Definition boot (t : Tls) : st world error Agent := fun w =>
  match load t node_json w with
  | (Ok r, w) =>
      let (started, f) := Forwarding.step (Forwarding.Configure (forward_settings (settings r)) None []) Forwarding.initial in
      match started with
      | Ok _ => (Ok (mk_agent r false None f (new_core (settings r)) w), w)
      | Err e => (Err e, w)
      | Panic => (Panic, w)
      end
  | (Err e, w) => (Err e, w)
  | (Panic, w) => (Panic, w)
  end.

(** The process runs or not. *)
Inductive state : Type := Down (w : world) | Up (a : Agent).

Definition world_of (s : state) : world := match s with Down w => w | Up a => env a end.

(** A power failure during a command is one after it with all later calls failing. *)
Inductive step : state -> state -> Prop :=
  | step_boot t w a w' : boot t w = (Ok a, w') -> step (Down w) (Up a)
  | step_command c id digest m a r a' : execute c id digest m a = (r, a') -> step (Up a) (Up a')
  | step_turns l a : step (Up a) (Up (with_manager (fold_left Forwarding.take_turn l (manager a)) a))
  | step_network n a : step (Up a) (Up (with_core (on_network n (core a)) a))
  | step_exit a : step (Up a) (Down (env a))
  | step_calls s fs ts rs : step s (match s with Down w => Down (mk_world (disk w) fs ts rs) | Up a => Up (with_env (mk_world (disk (env a)) fs ts rs) a) end)
  | step_crash s d : crash (disk (world_of s)) d -> step s (Down (mk_world d [] [] [])).

Definition steps : state -> state -> Prop := rtc step.
End Life.

(** ** Invariants *)

Section Invariants.
Context `{ConfigJsonLaws} `{Hex} `{HexDecode}.

(** A record that was checked, as it is printed. *)
Definition printed (r : ConfigRecord) (bs : list Z) : Prop :=
  exists bytes, to_vec_pretty r = Some bytes /\ bs = bytes ++ [10] /\ 0 <= revision r <= U64_MAX /\ exists t, validate_record t r = Ok tt.

(** node.json holds [now]; a power failure leaves [now] or [old]. *)
Definition stored (now old : ConfigRecord) (d : fs) : Prop :=
  sane d /\ revision old <= revision now /\
  exists bs bo, printed now bs /\ printed old bo /\ holds node_json (Some bs) (Some bo) d.

(** The policy that is in force. *)
Record published (c : Core) (s : NodeSettings) : Prop := mk_published {
  pu_trusted : trusted c = trusted_devices s;
  pu_context : auth_context c = trusted_ids (trusted_devices s);
  pu_verifier : remote_verifier c = remote_auth s;
  pu_policy : resource_policy c = resources s;
  pu_targets : allowed_forward_targets c = services s;
  pu_sources : control_sources c = named_sources s;
  pu_routes : configured_routes c = direct_peers (direct s);
}.

Record good (a : Agent) (now old : ConfigRecord) : Prop := mk_good {
  go_stored : stored now old (disk (env a));
  go_config : exists bs, printed (config a) bs;
  go_manager : Forwarding.mid [] (manager a);
  go_running : running (core a) = true -> now = config a;
  go_stopped : running (core a) = false -> now = config a \/ revision now = revision (config a) + 1;
  go_published : published (core a) (settings (config a)) \/ running (core a) = false;
  go_pending : restart_pending a = true -> running (core a) = false;
}.

(** ** Reading it back *)

Lemma validate_record_inv t r : validate_record t r = Ok tt -> schema_version r = 1 /\ validate t (settings r) = Ok tt /\
  exists bytes, to_vec_pretty r = Some bytes /\ Z.of_nat (length bytes) < MAX_CONFIG.
Proof.
  unfold validate_record. intros (u & E & Hr)%obind_Ok. apply obind_Ok in Hr as (_ & _ & Hs).
  destruct (Z.eqb_spec (schema_version r) 1); cbn in E; [|done]. apply obind_Ok in E as (bytes & Eb%ok_or_Ok & Hl%fail_if_Ok%Z.leb_gt). eauto.
Qed.

(** Only what the disk answers about the TLS files can change. *)
Lemma validate_record_again t t' r : validate_record t r = Ok tt -> validate_record t' r = validate t' (settings r).
Proof.
  unfold validate_record. intros (u & E & Hr)%obind_Ok. apply obind_Ok in Hr as (v & Ev & _). by rewrite E, Ev.
Qed.

Lemma printed_fits r bs : printed r bs -> Z.of_nat (length bs) <= MAX_CONFIG /\ from_slice bs = Some r.
Proof.
  intros (bytes & Eb & -> & _ & t & (_ & _ & b2 & Eb2 & Hl)%validate_record_inv). assert (b2 = bytes) as -> by congruence.
  rewrite length_app. cbn. split; [lia|by apply parse_printed].
Qed.

Lemma wp_load_config t now old w : stored now old (disk w) ->
  wp (load t node_json) (fun r w' => r = now /\ disk w' = disk w /\ validate t (settings now) = Ok tt) (fun _ w' => disk w' = disk w) w.
Proof.
  intros (Hs & _ & bs & bo & Hp & _ & (i & Hi & Ei) & _). destruct (printed_fits _ _ Hp) as [Hfit Hparse].
  unfold load. apply wp_bind, wp_syscall; [by intros k w1 _ ->|]. unfold TaskStore.fs_metadata. rewrite Hi, Ei. cbn [regular]. intros w1 E1.
  assert (content (disk w) i = bs) as Ec by (unfold content; by rewrite Ei). rewrite Ec.
  apply wp_bind, wp_liftr. cbn [negb orb]. rewrite (proj2 (Z.ltb_ge _ _)) by lia. cbn [fail_if].
  apply wp_bind, wp_syscall; [by intros k w2 _ ->|]. unfold fs_open. rewrite E1, Hi. intros w2 E2.
  apply wp_bind, wp_syscall; [intros k w3 _ E3; congruence|]. unfold fs_read_limited. intros w3 E3.
  rewrite E2, Ec, take_ge in * by lia. apply wp_bind, wp_liftr. rewrite (proj2 (Z.ltb_ge _ _)) by lia. cbn [fail_if].
  apply wp_bind, wp_liftr. rewrite Hparse. cbn [ok_or]. destruct Hp as (bytes & _ & _ & _ & t0 & Ht0). pose proof (validate_record_inv t0 now Ht0) as (Hv & _).
  apply wp_bind, wp_liftr. rewrite Hv. cbn [negb fail_if Z.eqb Pos.eqb]. apply wp_bind, wp_liftr. rewrite (validate_record_again t0 t now Ht0).
  destruct (validate t (settings now)) as [[]|e|] eqn:Ev; [|congruence|by apply validate_calm in Ev]. apply wp_ret. split; [done|]. split; [congruence|done].
Qed.

Lemma load_settled t now old d : stored now old d -> validate t (settings now) = Ok tt -> (load t node_json (mk_world d [] [] [])).1 = Ok now.
Proof.
  intros Hst Hv. destruct Hst as (_ & _ & bs & _ & Hp & _ & (i & Hi & Ei) & _). destruct (printed_fits _ _ Hp) as [Hfit Hparse].
  destruct Hp as (bytes & _ & _ & _ & t0 & Ht0). destruct (validate_record_inv t0 now Ht0) as (Hs & _).
  assert (content d i = bs) as Ec by (unfold content; by rewrite Ei).
  revert Hi. generalize node_json as n. intros n Hi.
  unfold load, TaskStore.fs_metadata, fs_open, fs_read_limited, sbind, syscall, next_fault. cbn. rewrite Hi. cbn. rewrite Ei, Ec. cbn.
  rewrite (proj2 (Z.ltb_ge _ _)) by lia. cbn. rewrite Hi. cbn. rewrite Ec, take_ge by lia. rewrite (proj2 (Z.ltb_ge _ _)) by lia. cbn.
  rewrite Hparse. cbn. rewrite Hs. cbn. by rewrite (validate_record_again t0 t now Ht0), Hv.
Qed.

(** What node.json says now. *)
Definition on_file (r : ConfigRecord) (d : fs) : Prop := exists bs, entry (dir d) node_json (Some bs) d /\ from_slice bs = Some r.

Lemma stored_on_file now old d : stored now old d -> on_file now d.
Proof. intros (_ & _ & bs & _ & Hp & _ & Hh & _). exists bs. split; [done|]. by apply printed_fits. Qed.

Lemma on_file_eq d r r' : on_file r d -> on_file r' d -> r = r'.
Proof. intros (bs & (i & Hi & Ei) & Hb) (bs' & (i' & Hi' & Ei') & Hb'). rewrite Hi in Hi'. injection Hi' as <-. rewrite Ei in Ei'. injection Ei' as <-. congruence. Qed.

Lemma stored_crash now old d d' : stored now old d -> crash d d' -> exists r, stored r r d' /\ (r = now \/ r = old).
Proof.
  intros (Hs & Hle & bs & bo & Hp & Ho & Hh) Hc. pose proof (crash_sane _ _ Hs Hc) as Hs'.
  destruct (holds_crash _ _ _ _ _ Hh Hc) as [Hh'|Hh']; [exists now|exists old]; (split; [|auto]); (split; [done|]); (split; [done|]); eauto.
Qed.

(** Writing a checked record. *)
Lemma wp_write_record t r now old w : validate_record t r = Ok tt -> 0 <= revision r <= U64_MAX -> revision old <= revision r -> stored now old (disk w) ->
  wp (write_json to_vec_pretty node_json r)
    (fun o w' => stored r (match durability_warning o with None => r | Some _ => old end) (disk w'))
    (fun _ w' => stored now old (disk w')) w.
Proof.
  intros Hv Hr Hle (Hs & Hle' & bs & bo & Hp & Ho & Hh). unfold write_json. destruct (validate_record_inv t r Hv) as (_ & _ & bytes & Eb & Hl).
  apply wp_bind, wp_liftr. rewrite Eb. cbn [ok_or]. eapply wp_conseq; [apply (wp_write_bytes node_json (bytes ++ [10]) _ _ w config_not_temporary Hs Hh)|..]; cbn beta.
  - intros o w' [Hs' Hw]. assert (printed r (bytes ++ [10])) as Hpr by (exists bytes; eauto). split; [done|].
    split; [destruct (durability_warning o); [done|lia]|]. exists (bytes ++ [10]), (match durability_warning o with None => bytes ++ [10] | Some _ => bo end).
    split; [done|]. by destruct (durability_warning o).
  - intros _ w' [Hs' Hw]. split; [done|]. split; [done|]. eauto 10.
Qed.

Lemma validate_record_calm t r : validate_record t r <> Panic.
Proof. unfold validate_record. pose proof (validate_calm t (settings r)) as Hv. calm. Qed.

(** A new node.json. *)
Lemma wp_try_exists path w (Q : bool -> world -> Prop) (R : error -> world -> Prop) :
  (forall b w', disk w' = disk w -> Q b w') -> (forall e w', disk w' = disk w -> R e w') -> wp (try_exists path) Q R w.
Proof.
  intros HQ HR. unfold try_exists. apply wp_bind, wp_attempt, wp_syscall.
  - intros k w' _ E. destruct k; try (by apply wp_throw, HR). by apply wp_ret, HQ.
  - unfold fs_stat. destruct (dir (disk w) !! path); intros w' E; by apply wp_ret, HQ.
Qed.

Lemma wp_initialize t root w : sane (disk w) -> holds node_json None None (disk w) ->
  wp (initialize t node_json root)
    (fun r w' => r = mk_config 1 0 None (Settings.initial root) /\ sane (disk w') /\
       exists bs, printed r bs /\ (holds node_json (Some bs) (Some bs) (disk w') \/ holds node_json (Some bs) None (disk w')))
    (fun _ w' => unwritten node_json None None (disk w')) w.
Proof.
  intros Hs Hh. assert (forall w' : world, disk w' = disk w -> unwritten node_json None None (disk w')) as Hu by (by intros w' ->).
  unfold initialize. apply wp_bind, wp_try_exists; [|by intros e w' E; apply Hu]. intros b w1 E1. rewrite <- E1 in Hs, Hh.
  apply wp_bind, wp_liftr. destruct b; cbn [fail_if]; [by apply Hu|]. cbv zeta. set (r := mk_config 1 0 None _).
  apply wp_bind, wp_liftr. destruct (validate_record t r) as [[]|e|] eqn:Ev; [|by apply Hu|by apply validate_record_calm in Ev].
  destruct (validate_record_inv t r Ev) as (_ & _ & bytes & Eb & _). unfold write_json. apply wp_bind, wp_bind, wp_liftr. rewrite Eb. cbn [ok_or].
  eapply wp_conseq; [apply (wp_write_bytes node_json (bytes ++ [10]) _ _ w1 config_not_temporary Hs Hh)|..]; cbn beta; [|done].
  intros o w' [Hs' Hw]. apply wp_ret. split; [done|]. split; [done|]. exists (bytes ++ [10]). split; [|by destruct (durability_warning o); [right|left]].
  exists bytes. split; [done|]. split; [done|]. split; [unfold U64_MAX; cbn; lia|]. by exists t.
Qed.

(** ** Committing *)

Definition proof_valid (c : Core) (o : CommitOptions) : Prop :=
  forall peer generation, verified o = Some (peer, generation) -> verified_now c peer generation = true.

Lemma wp_commit_policy t e r o c now old w : 0 <= revision r <= U64_MAX -> revision old <= revision r -> stored now old (disk w) ->
  wp (commit_policy t e r o c)
    (fun x w' => x.2 = publish (settings r) o c /\ stored r (match durability_warning x.1 with None => r | Some _ => old end) (disk w') /\
       proof_valid c o /\ validate_record t r = Ok tt)
    (fun _ w' => stored now old (disk w')) w.
Proof.
  intros Hr Hle Hs. unfold commit_policy. apply wp_bind, wp_liftr.
  destruct (validate_record t r) as [[]|x|] eqn:Ev; [|done|by apply validate_record_calm in Ev]. apply wp_bind, wp_liftr.
  destruct (match verified o with Some (peer, g) => fail_if (negb (verified_now c peer g)) (Protocol "password proof no longer valid") | None => Ok tt end) as [[]|x|] eqn:Ep;
    [|done|destruct (verified o) as [[peer g]|]; [by destruct (verified_now c peer g)|done]].
  assert (proof_valid c o) as Hp.
  { intros peer g Eo. rewrite Eo in Ep. by apply fail_if_Ok, negb_false_iff in Ep. }
  apply wp_bind, wp_liftr. destruct (match e with Some e => fail_if (root_changes c (settings r)) e | None => Ok tt end) as [[]|x|] eqn:Ee;
    [|done|destruct e; [by destruct (root_changes _ _)|done]].
  apply wp_bind. eapply wp_conseq; [by apply (wp_write_record t r now old)|..]; [|done].
  intros out w' Hst. apply wp_ret. done.
Qed.

Lemma commit_agent_cases r o m a now old : 0 <= revision r <= U64_MAX -> revision old <= revision r -> stored now old (disk (env a)) ->
  let (res, a') := commit_agent_policy r o m a in
  config a' = config a /\ manager a' = manager a /\ restart_pending a' = restart_pending a /\
  match res with
  | Ok out => running (core a) = true /\ core a' = publish (settings r) o (core a) /\ proof_valid (core a) o /\
      stored r (match durability_warning out with None => r | Some _ => old end) (disk (env a')) /\ exists t, validate_record t r = Ok tt
  | Err RecoveryRequired => running (core a) = true /\ running (core a') = false /\
      (stored now old (disk (env a')) \/ exists old', (old' = old \/ old' = r) /\ stored r old' (disk (env a')))
  | Err _ => core a' = core a /\ stored now old (disk (env a'))
  | Panic => False
  end.
Proof.
  intros Hr Hle Hs. unfold commit_agent_policy. destruct (running (core a)) eqn:Er; cbn [negb]; [|done].
  pose proof (wp_commit_policy (m_tls_actor m) (m_root m) r o (core a) now old (env a) Hr Hle Hs) as Hw. unfold wp in Hw.
  destruct (m_fate m) eqn:Ef; [| by repeat split; auto|]; destruct (commit_policy _ _ _ _ _ _) as [[[out c]|e|] w']; cbn in Hw; try done; cbn; (split; [done|]); (split; [done|]); (split; [done|]).
  - destruct Hw as (-> & ? & ? & ?). eauto 10.
  - destruct Hw as (-> & Hst & _). split; [done|]. split; [done|]. right. eexists. split; [|exact Hst]. destruct (durability_warning out); auto.
  - split; [done|]. split; [done|]. by left.
Qed.

Lemma check_sources_calm current s o : consistent s -> fold_outcome (check_source current s o) tt (trusted_devices s) <> Panic.
Proof.
  intros Hc. apply calm_fold. intros u d Hd. unfold check_source. assert (is_Some (trust_sources s !! v_node d)) as [src ->].
  { apply elem_of_dom. rewrite (cs_sources s Hc). apply elem_of_list_to_set, list_elem_of_fmap. by exists d. }
  cbn. apply calm_fail_if.
Qed.

Lemma check_sources_Err current s o u l e : fold_outcome (check_source current s o) u l = Err e -> e = NotAllowed "source".
Proof.
  revert u. induction l as [|d l IH]; intros u; [done|]. cbn. intros [E|(u1 & _ & E)]%obind_Err; [|by apply (IH u1)].
  unfold check_source in E. destruct (trust_sources s !! v_node d); [|done]. cbn in E. destruct (_ && _); [by injection E|done].
Qed.

Lemma check_sources_Ok current s o u : fold_outcome (check_source current s o) tt (trusted_devices s) = Ok u ->
  forall d src, d ∈ trusted_devices s -> trust_sources s !! v_node d = Some src ->
    trust_sources current !! v_node d = Some src \/ src = Administrator \/
    (src = PasswordVerified /\ exists peer g, verified o = Some (peer, g) /\ Identity.id_to_hex peer = v_node d).
Proof.
  intros Hf d src Hd Hs. revert Hf. generalize tt at 1. induction (trusted_devices s) as [|d' l IH]; intros v; [by apply not_elem_of_nil in Hd|].
  cbn. intros (u1 & E & Hl)%obind_Ok. apply elem_of_cons in Hd as [->|Hd]; [|by apply (IH Hd u1)].
  unfold check_source in E. rewrite Hs in E. cbn in E. apply fail_if_Ok in E. rewrite !andb_false_iff, !negb_false_iff, andb_true_iff, !bool_decide_eq_true in E.
  destruct E as [[E|E]|[E1 E2]]; [by left|right; by left|]. right. right. split; [done|]. destruct (verified o) as [[peer g]|]; [|done].
  apply bool_decide_eq_true in E2. eauto.
Qed.

(** ** The rights that a change takes away *)

Definition loses_rights (old new : NodeSettings) (o : CommitOptions) (peer : NodeId) : Prop :=
  remote_auth old <> remote_auth new \/ restart o = true \/ NodeServices.p_disabled (NodeServices.for_peer (resources new) peer) = true \/
  (NodeServices.p_files (NodeServices.for_peer (resources old) peer) = true /\ NodeServices.p_files (NodeServices.for_peer (resources new) peer) = false) \/
  (NodeServices.p_speed (NodeServices.for_peer (resources old) peer) = true /\ NodeServices.p_speed (NodeServices.for_peer (resources new) peer) = false) \/
  (trusts (trusted_devices old) peer = true /\ trusts (trusted_devices new) peer = false).

Lemma revokes_spec c old new o peer : published c old -> revokes c new o peer = true <-> loses_rights old new o peer.
Proof.
  intros [P1 P2 P3 P4 P5 P6 P7]. unfold revokes, loses_rights, password_changed. rewrite P1, P3, P4.
  rewrite !orb_true_iff, !andb_true_iff, !negb_true_iff, bool_decide_eq_false. tauto.
Qed.

Lemma lookup_on_peers {A : Type} (gone : gset NodeId) (f : A -> A) (m : gmap NodeId A) (p : NodeId) :
  on_peers gone f m !! p = (fun x => if bool_decide (p ∈ gone) then f x else x) <$> m !! p.
Proof. unfold on_peers. rewrite map_lookup_imap. by destruct (m !! p). Qed.

(** What the change does to one device, between two states of the actor. *)
Definition enforced (c c' : Core) (old new : NodeSettings) (o : CommitOptions) : Prop :=
  (forall peer, loses_rights old new o peer ->
     peer ∉ peer_attempts c' /\
     forall g alive, connections c' !! peer = Some (g, alive) -> alive = false /\
       (forall g p, authorizations c' !! peer = Some (g, p) -> RemoteAuth.authorized (RemoteAuth.inbound (Rights.value p)) = false /\
          RemoteAuth.authorized (RemoteAuth.outbound (Rights.value p)) = false) /\
       (forall x, connection_updates c' !! peer = Some x -> x = None)) /\
  (forall peer, ~ loses_rights old new o peer ->
     connections c' !! peer = connections c !! peer /\ authorizations c' !! peer = authorizations c !! peer /\
     connection_updates c' !! peer = connection_updates c !! peer /\ (peer ∈ peer_attempts c' <-> peer ∈ peer_attempts c)).

Lemma publish_enforced c old new o : published c old -> enforced c (publish new o c) old new o.
Proof.
  intros Hp. split; intros peer; rewrite <- (revokes_spec c old new o peer Hp); intros Hr.
  - assert (forall x, connections c !! peer = Some x -> peer ∈ revoked c new o) as Hin.
    { intros x Hx. apply elem_of_filter. split; [done|]. apply elem_of_union_l, elem_of_dom. by exists x. }
    split.
    { cbn. intros [Ha Hn]%elem_of_difference. apply Hn, elem_of_filter. split; [done|]. by apply elem_of_union_r. }
    intros g alive. cbn. rewrite lookup_on_peers. destruct (connections c !! peer) as [x|] eqn:Ex; [|done]. specialize (Hin x eq_refl).
    cbn. rewrite bool_decide_eq_true_2 by done. intros [= <- <-]. split; [done|]. split.
    + intros g p. rewrite lookup_on_peers. destruct (authorizations c !! peer) as [[g' p']|]; [|done]. cbn. rewrite bool_decide_eq_true_2 by done.
      by intros [= <- <-].
    + intros y. rewrite lookup_on_peers. destruct (connection_updates c !! peer); [|done]. cbn. rewrite bool_decide_eq_true_2 by done. by intros [= <-].
  - assert (peer ∉ revoked c new o) as Hn by (intros [? _]%elem_of_filter; done).
    cbn. rewrite !lookup_on_peers. split; [|split; [|split]].
    + destruct (connections c !! peer); [|done]. cbn. by rewrite bool_decide_eq_false_2.
    + destruct (authorizations c !! peer); [|done]. cbn. by rewrite bool_decide_eq_false_2.
    + destruct (connection_updates c !! peer); [|done]. cbn. by rewrite bool_decide_eq_false_2.
    + rewrite elem_of_difference. tauto.
Qed.

Lemma publish_published c s o : published (publish s o c) s.
Proof. done. Qed.

(** A new receive root is one of the changes that are accepted online. *)
Lemma root_changes_online s root :
  same_runtime s (mk_settings (direct s) (signal_server s) (signal_tls s) (relay_server s) root (remote_auth s) (trusted_devices s) (trust_sources s)
    (resources s) (services s) (forwards s) (service_ids s) (send_concurrency s) (auto_resume s) (receive_safety_mib s) (file_limits s)
    (enable_files s) (enable_speed s) (enable_tcp s)) = true.
Proof. unfold same_runtime. cbn. by rewrite !bool_decide_eq_true_2. Qed.

Lemma published_network n c s : published c s -> published (on_network n c) s.
Proof. intros [P1 P2 P3 P4 P5 P6 P7]. by split. Qed.
End Invariants.

(** ** Commands *)

Section Commands.
Context `{ConfigJsonLaws} `{Hex} `{HexDecode} `{Supervisor.Tcp} `{Forwarding.Control}.

Definition policy_of (c : Core) :=
  (trusted c, auth_context c, remote_verifier c, resource_policy c, allowed_forward_targets c, control_sources c, configured_routes c).

(** The record [r], or one of a later revision. *)
Definition after (r x : ConfigRecord) : Prop := x = r \/ revision r < revision x.

(** Nothing goes back. *)
Definition onwards (a : Agent) (now old : ConfigRecord) (a' : Agent) (now' old' : ConfigRecord) : Prop :=
  forall r, after r now -> after r old -> after r (config a) -> after r now' /\ after r old' /\ after r (config a').

Lemma after_next r x y : after r x -> revision x < revision y -> after r y.
Proof. unfold after. intros [->|?] ?; right; lia. Qed.

(** A refused command changed nothing that is configured. *)
Definition unconfigured (now old : ConfigRecord) (a a' : Agent) : Prop :=
  config a' = config a /\ restart_pending a' = restart_pending a /\ policy_of (core a') = policy_of (core a) /\ running (core a') = running (core a) /\
  stored now old (disk (env a')) /\ Forwarding.mid [] (manager a') /\ Forwarding.active (manager a') = Forwarding.active (manager a) /\
  Forwarding.suppressed (manager a') = Forwarding.suppressed (manager a).

(** Why a device that is trusted now may be: nothing changed, an administrator said so,
    or it holds a connection whose password was verified. *)
Definition rightly_trusted (n : Network) (before after : NodeSettings) (o : CommitOptions) : Prop :=
  forall d src, d ∈ trusted_devices after -> trust_sources after !! v_node d = Some src ->
    trust_sources before !! v_node d = Some src \/ src = Administrator \/
    (src = PasswordVerified /\ exists peer g p, Identity.id_to_hex peer = v_node d /\ verified o = Some (peer, g) /\
       n_connections n !! peer = Some (g, true) /\ n_authorizations n !! peer = Some (g, p) /\
       RemoteAuth.password (RemoteAuth.inbound (Rights.value p)) = true).

Record committed (a a' : Agent) (m : Moment) (s : NodeSettings) (id digest : list Z) (o : CommitOptions) (w : option error) (old : ConfigRecord) : Prop := mk_committed {
  cm_config : config a' = mk_config 1 (revision (config a) + 1) (Some (id, digest)) s;
  cm_consistent : consistent s;
  cm_stored : stored (config a') (match w with None => config a' | Some _ => old end) (disk (env a'));
  cm_published : published (core a') s;
  cm_trust : rightly_trusted (m_network m) (settings (config a)) s o;
  cm_enforced : enforced (on_network (m_network m) (core a)) (core a') (settings (config a)) s o;
  cm_forwards : restart o = false -> Forwarding.configured (forward_settings s) None (manager a) (manager a');
  cm_restart : restart_pending a' = restart o /\ running (core a') = negb (restart o);
  cm_online : restart o = false -> same_runtime (settings (config a)) s = true;
  cm_manager : Forwarding.mid [] (manager a');
}.

Definition refusal_post (now old : ConfigRecord) (a : Agent) (e : refusal) (a' : Agent) : Prop :=
  match e with
  | RecoveryRequired => running (core a') = false /\ exists now' old', good a' now' old' /\ onwards a now old a' now' old'
  | _ => unconfigured now old a a'
  end.

Lemma unconfigured_refl a now old : good a now old -> unconfigured now old a a.
Proof. intros [G1 G2 G3 G4 G5 G6 G7]. unfold unconfigured. do 4 (split; [done|]). by split. Qed.

Lemma unconfigured_good now old a a' : good a now old -> unconfigured now old a a' -> good a' now old.
Proof.
  intros [G1 G2 G3 G4 G5 G6 G7] (U1 & U2 & U3 & U4 & U5 & U6 & _). split; rewrite ?U1, ?U2, ?U4; try done.
  destruct G6 as [[P1 P2 P3 P4 P5 P6 P7]|Hr]; [left|by right]. unfold policy_of in U3. by split; simplify_eq; congruence.
Qed.

Lemma printed_bounds r bs : printed r bs -> 0 <= revision r <= U64_MAX.
Proof. by intros (? & _ & _ & ? & _). Qed.

(** The listeners of the agent do exactly what [Forwarding.Configure] does. *)
Lemma forwards_configured c l f p f1 retired f3 : Forwarding.mid [] f ->
  Forwarding.prepare c None f = (Ok p, f1) -> Forwarding.commit p (fold_left Forwarding.take_turn l f1) = (Ok retired, f3) ->
  let f4 := fold_left (fun f k => Forwarding.await k f) retired f3 in Forwarding.mid [] f4 /\ Forwarding.configured c None f f4.
Proof.
  intros Hf Ep Ec f4. pose proof (Forwarding.wp_configure c None l f Hf) as Hw. unfold wp in Hw. cbn [Forwarding.step] in Hw.
  unfold sbind, modify in Hw. by rewrite Ep, Ec in Hw.
Qed.

Lemma forward_commit_calm c l f p f1 : Forwarding.mid [] f -> Forwarding.prepare c None f = (Ok p, f1) ->
  exists retired f3, Forwarding.commit p (fold_left Forwarding.take_turn l f1) = (Ok retired, f3).
Proof.
  intros Hf Ep. pose proof (Forwarding.wp_plan c None f) as Hw. unfold wp in Hw. rewrite Ep in Hw. destruct Hw as [Hu Hp].
  pose proof (Forwarding.mid_unchanged _ _ _ Hf Hu) as Hf1. destruct (Forwarding.turns_turn l [] f1 Hf1) as [[T1 _ _ _] Hf2].
  pose proof (Forwarding.manager_wp_commit p _ Hf2) as Hc. unfold wp in Hc.
  destruct (Forwarding.commit p _) as [[retired|e|] f3]; [eauto|..]; destruct Hc; intros i x Hx Hi;
    destruct (Forwarding.pl_kept _ _ _ _ _ Hp i x Hx Hi) as (old & Ho & _); rewrite T1; destruct Hu as (_ & -> & _); by eexists.
Qed.

(** After the plan, before the actor is asked. *)
Lemma meanwhile_unconfigured now old a f1 m : good a now old -> Forwarding.unchanged (manager a) f1 ->
  unconfigured now old a (with_core (on_network (m_network m) (core a)) (with_manager (fold_left Forwarding.take_turn (m_turns m) f1) (with_manager f1 a))).
Proof.
  intros [G1 G2 G3 G4 G5 G6 G7] Hu. pose proof (Forwarding.mid_unchanged _ _ _ G3 Hu) as Hf1.
  destruct (Forwarding.turns_turn (m_turns m) [] f1 Hf1) as [[T1 T2 _ _] Hf2]. destruct Hu as (U1 & U2 & _). unfold unconfigured. cbn.
  do 4 (split; [done|]). split; [done|]. split; [done|]. by rewrite T1, T2.
Qed.

Lemma prepared_unconfigured now old a f1 : good a now old -> Forwarding.unchanged (manager a) f1 -> unconfigured now old a (with_manager f1 a).
Proof.
  intros [G1 G2 G3 G4 G5 G6 G7] Hu. pose proof (Forwarding.mid_unchanged _ _ _ G3 Hu) as Hf1. destruct Hu as (U1 & U2 & _). unfold unconfigured. cbn.
  do 4 (split; [done|]). by split.
Qed.

(** The checks of the coordinator and of the actor together. *)
Lemma proof_trusts current s o c n u : fold_outcome (check_source current s o) tt (trusted_devices s) = Ok u ->
  connections c = n_connections n -> authorizations c = n_authorizations n -> proof_valid c o -> rightly_trusted n current s o.
Proof.
  intros Hf Ec Ea Hp d src Hd Hs. destruct (check_sources_Ok _ _ _ _ Hf d src Hd Hs) as [?|[?|(-> & peer & g & Eo & Ei)]]; [by left|by right; left|].
  right. right. split; [done|]. specialize (Hp peer g Eo). unfold verified_now in Hp. rewrite Ec, Ea in Hp.
  apply andb_true_iff in Hp as [Hcn%bool_decide_eq_true Hau]. destruct (n_authorizations n !! peer) as [[g' q]|] eqn:Eq; [|done].
  apply andb_true_iff in Hau as [->%Z.eqb_eq Hpw]. eauto 10.
Qed.

(** The actor ended, with or without having written the record. *)
Lemma outcome_unknown a a2 now old record : good a now old -> config a2 = config a -> running (core a2) = false -> running (core a) = true ->
  Forwarding.mid [] (manager a2) -> revision record = revision (config a) + 1 ->
  (stored now old (disk (env a2)) \/ exists old', (old' = old \/ old' = record) /\ stored record old' (disk (env a2))) ->
  exists now' old', good a2 now' old' /\ onwards a now old a2 now' old'.
Proof.
  intros [G1 G2 G3 G4 G5 G6 G7] Ec Hr2 Hr Hm Hn Hs. destruct Hs as [Hs|(old' & Hle & Hs)]; [exists now, old|exists record, old']; split.
  - split; rewrite ?Ec; try done; [by rewrite Hr2|left; by apply G4|by right].
  - intros r. by rewrite Ec.
  - split; rewrite ?Ec; try done; [by rewrite Hr2|by right|by right].
  - intros r H1' H2' H3'. rewrite Ec. assert (after r record) by (apply (after_next r (config a)); [done|lia]). by destruct Hle as [->| ->].
Qed.

(** The agent after the actor committed, whatever becomes of its snapshot. *)
Lemma commit_finished a a2 m s id digest o w now old f pend err :
  let record := mk_config 1 (revision (config a) + 1) (Some (id, digest)) s in
  let c := on_network (m_network m) (core a) in
  consistent s -> stored record (match w with None => record | Some _ => old end) (disk (env a2)) ->
  published c (settings (config a)) -> rightly_trusted (m_network m) (settings (config a)) s o -> core a2 = publish s o c -> running c = true ->
  (restart o = false -> same_runtime (settings (config a)) s = true) ->
  Forwarding.mid [] f -> (restart o = false -> Forwarding.configured (forward_settings s) None (manager a) f) ->
  let a' := mk_agent record pend err f (core a2) (env a2) in
  (pend = restart o -> committed a a' m s id digest o w old) /\
  exists now' old', good (shutdown a') now' old' /\ onwards a now old (shutdown a') now' old'.
Proof.
  intros record c Hcons Hst Hpub Htrust Ecore Hrun Honline Hf Hconf a'.
  assert (exists bs, printed record bs) as Hpr by (destruct Hst as (_ & _ & bs & _ & Hp & _); by exists bs). split.
  - intros ->. split; cbn; try done.
    + by rewrite Ecore.
    + rewrite Ecore. by apply publish_enforced.
    + rewrite Ecore. cbn. split; [done|]. cbn in Hrun. by rewrite Hrun.
  - exists record, (match w with None => record | Some _ => old end). split.
    { split; cbn; try done; [by left|by right]. }
    intros r H1' H2' H3'. cbn. assert (after r record) by (apply (after_next r (config a)); [done|cbn; lia]). by destruct w.
Qed.

Lemma wp_commit_settings expected s id digest o m a now old : good a now old -> restart_pending a = false ->
  wp (commit_settings expected s id digest o m)
    (fun r a' => expected = revision (config a) /\ exists w, r = Committed (revision (config a) + 1) w (restart o) /\ committed a a' m s id digest o w old)
    (fun e a' => refusal_post now old a e a') a.
Proof.
  intros Hg Hpend. pose proof (unconfigured_refl a now old Hg) as Hrefl. pose proof Hg as [G1 (bc & Hpr) G3 G4 G5 G6 G7]. pose proof (printed_bounds _ _ Hpr) as Hb.
  unfold commit_settings. apply wp_bind, wp_get. cbv zeta.
  apply wp_bind, wp_liftr. destruct (Z.eqb_spec expected (revision (config a))) as [He|]; cbn [negb fail_if]; [|done].
  apply wp_bind, wp_liftr. destruct (validate (m_tls m) s) as [[]|e|] eqn:Ev; cbn [map_err]; [|done|by apply validate_calm in Ev].
  pose proof (validate_consistent _ _ Ev) as Hcons.
  apply wp_bind, wp_liftr. destruct (negb (same_runtime (settings (config a)) s) && negb (restart o)) eqn:Esame; cbn [fail_if]; [done|].
  apply wp_bind, wp_liftr. destruct (fold_outcome (check_source (settings (config a)) s o) tt (trusted_devices s)) as [[]|e|] eqn:Esrc;
    [| |by apply check_sources_calm in Esrc].
  2: { apply check_sources_Err in Esrc. by subst e. }
  apply wp_bind. unfold lift_forward at 1. apply wp_zoom. unfold wp.
  pose proof (Forwarding.wp_plan (forward_settings s) None (manager a)) as Hplan. unfold wp in Hplan.
  destruct (Forwarding.prepare (forward_settings s) None (manager a)) as [[p|e|] f1] eqn:Ep; cbn [map_err]; [|by apply (prepared_unconfigured now old)|done].
  destruct Hplan as [Hu _]. pose proof (meanwhile_unconfigured now old a f1 m Hg Hu) as Hmean. pose proof (prepared_unconfigured now old a f1 Hg Hu) as Hprep.
  apply wp_bind, wp_liftr. destruct (checked_add U64_MAX (revision (config a)) 1) as [next|] eqn:En; cbn [ok_or]; [|done].
  apply checked_add_Some in En as [-> Hmax]. set (record := mk_config 1 _ _ s).
  apply wp_bind, wp_modify. change (manager (with_manager f1 a)) with f1. change (core (with_manager f1 a)) with (core a).
  set (a1 := with_core _ _) in *. pose proof (unconfigured_good _ _ _ _ Hg Hmean) as Hg1.
  apply wp_bind. unfold wp at 1. pose proof Hmean as (U1 & U2 & U3 & U4 & U5 & U6 & U7 & U8).
  assert (stored now old (disk (env a1))) as Hst1 by done.
  assert (revision old <= revision record) as Hold.
  { destruct Hst1 as (_ & Hle & _). cbn. destruct (running (core a)) eqn:Er; [rewrite G4 in Hle by done; lia|]. destruct (G5 eq_refl) as [->|Hn]; lia. }
  pose proof (commit_agent_cases record o m a1 now old ltac:(cbn; lia) Hold Hst1) as Hcases.
  destruct (commit_agent_policy record o m a1) as [res a2]. destruct Hcases as (C1 & C2 & C3 & Hcases).
  destruct res as [out|e|]; [|destruct e; [..|]|done].
  2-6: try (destruct Hcases as [Ec Hs2]; unfold refusal_post, unconfigured; rewrite C1, C2, C3, Ec; by do 5 (split; [done|])).
  2: { destruct Hcases as (Hrun & Hrun2 & Hs2). split; [done|]. rewrite U1 in C1. apply (outcome_unknown a a2 now old record); try done. by rewrite C2. }
  destruct Hcases as (Hrun & Ecore & Hproof & Hst & tv & Hvalid).
  assert (published (core a1) (settings (config a))) as Hpub by (apply published_network; destruct G6 as [?|?]; [done|]; cbn in Hrun; congruence).
  pose proof (proof_trusts _ _ _ (on_network (m_network m) (core a)) (m_network m) _ Esrc eq_refl eq_refl Hproof) as Htrust.
  assert (restart o = false -> same_runtime (settings (config a)) s = true) as Honline.
  { intros Er. rewrite Er, andb_true_r in Esame. by apply negb_false_iff in Esame. }
  pose proof (fun f pend err => commit_finished a a2 m s id digest o (durability_warning out) now old f pend err Hcons Hst Hpub Htrust Ecore Hrun Honline) as Hfinish.
  destruct (restart o) eqn:Er.
  - apply wp_bind, wp_bind, wp_modify, wp_ret, wp_bind, wp_modify, wp_bind, wp_modify.
    destruct (Hfinish (Forwarding.shutdown (manager a2)) true (last_error a2)) as [_ Hshut]; [apply Forwarding.mid_shutdown; by rewrite C2|done|].
    destruct (m_snapshot m); cbn [negb]; [|by split].
    apply wp_bind, wp_modify, wp_ret. split; [done|]. eexists. split; [done|].
    destruct (Hfinish (Forwarding.shutdown (manager a2)) true (durability_warning out)) as [Hcm _]; [apply Forwarding.mid_shutdown; by rewrite C2|done|].
    by apply Hcm.
  - destruct (forward_commit_calm _ (m_turns m) _ _ _ G3 Ep) as (retired & f3 & Ec). destruct (forwards_configured _ _ _ _ _ _ _ G3 Ep Ec) as [Hm4 Hc4].
    assert (manager a2 = fold_left Forwarding.take_turn (m_turns m) f1) as Em by (by rewrite C2).
    apply wp_bind. unfold lift_forward. apply wp_zoom. unfold wp. rewrite Em, Ec. cbn [map_err].
    apply wp_bind, wp_modify, wp_bind, wp_modify. destruct (m_snapshot m); cbn [negb].
    + apply wp_bind, wp_modify, wp_ret. split; [done|]. eexists. split; [done|].
      destruct (Hfinish _ (restart_pending a2) (durability_warning out) Hm4 (fun _ => Hc4)) as [Hcm _]. apply Hcm. by rewrite C3, U2.
    + destruct (Hfinish _ (restart_pending a2) (last_error a2) Hm4 (fun _ => Hc4)) as [_ Hshut]. by split.
Qed.

(** What a command asks to be committed: the revision it expects, the settings and the
    options. *)
Definition asks `{RemoteAuth.Argon2} (c : Command) (current : NodeSettings) (expected : Z) (s : NodeSettings) (o : CommitOptions) : Prop :=
  match c with
  | ApplyConfig e (Object false (Some fields)) => e = expected /\ s = with_password (remote_auth current) fields /\ o = mk_options None false
  | ConfigureRestart e (Object false (Some fields)) => e = expected /\ s = with_password (remote_auth current) fields /\ o = mk_options None true
  | TrustVerified e peer g name now => e = expected /\ exists id, Identity.from_hex peer = Ok id /\ o = mk_options (Some (id, g)) false /\
      s = with_trusted (mk_device (Identity.id_to_hex id) name None now now) current
  | SetPassword e password drawn => e = expected /\ exists p v, RemoteAuth.new_password password = Ok p /\ RemoteAuth.create p drawn = Ok v /\
      o = mk_options None false /\ s = with_password (Some v) current
  | _ => False
  end.

Definition reply_post `{RemoteAuth.Argon2} (c : Command) (m : Moment) (id digest : list Z) (now old : ConfigRecord) (a : Agent) (r : reply) (a' : Agent) : Prop :=
  match r with
  | Committed n w b => exists expected s o, asks c (settings (config a)) expected s o /\ expected = revision (config a) /\ n = expected + 1 /\
      b = restart o /\ committed a a' m s id digest o w old
  | AlreadyCommitted n => a' = a /\ n = revision (config a) /\ last_request (config a) = Some (id, digest)
  | ForwardsChanged => config a' = config a /\ core a' = core a /\ restart_pending a' = restart_pending a /\ env a' = env a /\ Forwarding.mid [] (manager a')
  end.

Lemma wp_apply_settings `{RemoteAuth.Argon2} expected value id digest b m a now old : good a now old -> restart_pending a = false ->
  wp (apply_settings expected value id digest b m)
    (reply_post (if b then ConfigureRestart expected value else ApplyConfig expected value) m id digest now old a)
    (fun e a' => refusal_post now old a e a') a.
Proof.
  intros Hg Hp. pose proof (unconfigured_refl a now old Hg) as Hrefl. unfold apply_settings. apply wp_bind, wp_get. cbv zeta.
  case_bool_decide as Hl; [by apply wp_ret|]. apply wp_bind, wp_liftr. destruct (expected =? revision (config a)); cbn [negb fail_if]; [|done].
  destruct value as [|names fields]; [by apply wp_throw|]. apply wp_bind, wp_liftr. destruct names; cbn [fail_if]; [done|].
  apply wp_bind, wp_liftr. destruct fields as [fields|]; cbn [fmap option_fmap option_map ok_or]; [|done].
  eapply wp_conseq; [by apply (wp_commit_settings _ _ _ _ _ _ _ now old)|..]; cbn beta; [|done].
  intros r a' (-> & w & -> & Hc). cbn. eexists _, _, _. destruct b; split; try (by split); eauto.
Qed.

Lemma wp_lift_forward {A : Type} (f : st Forwarding.ForwardManager error A) (Q : A -> Agent -> Prop) (R : refusal -> Agent -> Prop) a :
  wp f (fun x s => Q x (with_manager s a)) (fun e s => R (Failed e) (with_manager s a)) (manager a) -> wp (lift_forward f) Q R a.
Proof. unfold lift_forward, wp, zoom. destruct (f (manager a)) as [[x|e|] s']; done. Qed.

(** The commands on one listener. *)
Lemma wp_forwards_change c s start m id digest now old a `{RemoteAuth.Argon2} : good a now old ->
  wp (let! _ := lift_forward (Forwarding.step (Forwarding.Configure s start [])) in ret ForwardsChanged) (reply_post c m id digest now old a)
    (fun e a' => refusal_post now old a e a') a.
Proof.
  intros Hg. pose proof (unconfigured_refl a now old Hg) as (_ & _ & _ & _ & U5 & U6 & _). apply wp_bind, wp_lift_forward.
  eapply wp_conseq; [by apply (Forwarding.wp_configure s start [])|..]; cbn beta.
  - intros _ f [Hf _]. by apply wp_ret.
  - intros e f (Hf & Ea & Es). unfold refusal_post, unconfigured. by do 5 (split; [done|]).
Qed.

Lemma wp_forwards_stop c i m id digest now old a `{RemoteAuth.Argon2} : good a now old ->
  wp (let! _ := lift_forward (Forwarding.step (Forwarding.Stop i)) in ret ForwardsChanged) (reply_post c m id digest now old a)
    (fun e a' => refusal_post now old a e a') a.
Proof.
  intros Hg. pose proof (unconfigured_refl a now old Hg) as (_ & _ & _ & _ & U5 & U6 & _). apply wp_bind, wp_lift_forward, wp_modify, wp_ret.
  split; [done|]. split; [done|]. split; [done|]. split; [done|]. by apply Forwarding.mid_stop.
Qed.

Lemma wp_execute `{RemoteAuth.Argon2} c id digest m a now old : good a now old ->
  wp (execute c id digest m) (reply_post c m id digest now old a) (fun e a' => refusal_post now old a e a') a.
Proof.
  intros Hg. pose proof (unconfigured_refl a now old Hg) as Hrefl. unfold execute. apply wp_bind, wp_get. destruct (restart_pending a) eqn:Hp; [by apply wp_throw|].
  destruct c as [expected value|expected value|expected peer g name at_|expected password drawn|rule|rule].
  - by apply (wp_apply_settings expected value id digest false).
  - by apply (wp_apply_settings expected value id digest true).
  - apply wp_bind, wp_liftr. destruct (Identity.from_hex peer) as [p|e|] eqn:Eh; cbn [map_err]; [|done|by apply from_hex_calm in Eh].
    apply wp_bind, wp_liftr. destruct (trusts _ p); cbn [fail_if]; [done|].
    eapply wp_conseq; [by apply (wp_commit_settings _ _ _ _ _ _ _ now old)|..]; cbn beta; [|done].
    intros r a' (-> & w & -> & Hc). cbn. eexists _, _, _. split; [split; [done|]; by exists p|]. eauto.
  - apply wp_bind, wp_liftr. destruct (RemoteAuth.new_password password) as [p|e|] eqn:En; cbn [obind map_err]; [|done|].
    2: { unfold RemoteAuth.new_password in En. by destruct (_ || _). }
    destruct (RemoteAuth.create p drawn) as [v|e|] eqn:Ecr; cbn [map_err]; [|done|]. 
    2: { unfold RemoteAuth.create, RemoteAuth.random, RemoteAuth.derive in Ecr. destruct drawn; cbn in Ecr; [|done]. by destruct (RemoteAuth.argon2id _ _ _ _ _ _). }
    eapply wp_conseq; [by apply (wp_commit_settings _ _ _ _ _ _ _ now old)|..]; cbn beta; [|done].
    intros r a' (-> & w & -> & Hc). cbn. eexists _, _, _. split; [split; [done|]; by exists p, v|]. eauto.
  - apply wp_bind, wp_liftr. destruct (existsb _ _); cbn [negb fail_if]; [|done].
    by apply wp_forwards_change.
  - apply wp_bind, wp_liftr. destruct (existsb _ _); cbn [negb fail_if]; [|done].
    by apply wp_forwards_stop.
Qed.
End Commands.

(** ** Histories *)

Section Histories.
Context `{ConfigJsonLaws} `{Hex} `{HexDecode} `{Supervisor.Tcp} `{Forwarding.Control} `{RemoteAuth.Argon2}.

(** No record before [r] is held or will be found. *)
Definition holds_from (r : ConfigRecord) (s : state) : Prop :=
  match s with
  | Down w => exists now old, stored now old (disk w) /\ after r now /\ after r old
  | Up a => exists now old, good a now old /\ after r now /\ after r old /\ after r (config a)
  end.

Lemma committed_good a a' m s id digest o w old : committed a a' m s id digest o w old ->
  good a' (config a') (match w with None => config a' | Some _ => old end).
Proof.
  intros [C1 C2 C3 C4 C5 C6 C7 [C8 C8'] C9 C10]. split; try done.
  - destruct C3 as (_ & _ & bs & _ & Hp & _). by exists bs.
  - by left.
  - left. by rewrite C1.
  - rewrite C8, C8'. by intros ->.
Qed.

Lemma reply_good c m id digest now old a r a' : good a now old -> reply_post c m id digest now old a r a' ->
  exists now' old', good a' now' old' /\ onwards a now old a' now' old'.
Proof.
  intros Hg. destruct r as [n w b|n|]; cbn.
  - intros (expected & s & o & _ & _ & _ & _ & Hc). pose proof (committed_good _ _ _ _ _ _ _ _ _ Hc) as Hg'. eexists _, _. split; [exact Hg'|].
    intros r H1' H2' H3'. assert (after r (config a')) by (rewrite (cm_config _ _ _ _ _ _ _ _ _ Hc); apply (after_next r (config a)); [done|cbn; lia]).
    by destruct w.
  - intros (-> & _). by exists now, old.
  - intros (E1 & E2 & E3 & E4 & Hm). exists now, old. split; [|intros r; by rewrite E1].
    destruct Hg as [G1 G2 G3 G4 G5 G6 G7]. split; by rewrite ?E1, ?E2, ?E3, ?E4.
Qed.

Lemma refusal_good now old a e a' : good a now old -> refusal_post now old a e a' -> exists now' old', good a' now' old' /\ onwards a now old a' now' old'.
Proof.
  intros Hg He. assert (unconfigured now old a a' -> exists now' old', good a' now' old' /\ onwards a now old a' now' old') as Hu.
  { intros Hu. exists now, old. split; [by apply (unconfigured_good now old a)|]. intros r. destruct Hu as (-> & _). done. }
  destruct e; auto. destruct He as (_ & now' & old' & ? & ?). eauto.
Qed.

Lemma boot_good t r w a w' : holds_from r (Down w) -> boot t w = (Ok a, w') -> holds_from r (Up a).
Proof.
  intros (now & old & Hst & Hn & Ho). unfold boot. pose proof (wp_load_config t now old w Hst) as Hw. unfold wp in Hw.
  destruct (load t node_json w) as [[x|e|] w1]; [|done..]. destruct Hw as (-> & Ed & Hv).
  pose proof (Forwarding.wp_configure (forward_settings (settings now)) None [] Forwarding.initial Forwarding.sound_initial) as Hf. unfold wp in Hf.
  destruct (Forwarding.step _ Forwarding.initial) as [[[]|e|] f]; [|done..]. intros [= <- <-]. exists now, old. split; [|done]. split; cbn; try done.
  - by rewrite Ed.
  - destruct Hst as (_ & _ & bs & _ & Hp & _). by exists bs.
  - apply Hf.
  - by left.
Qed.

Lemma life_step_keeps r s s' : holds_from r s -> step s s' -> holds_from r s'.
Proof.
  intros Hh Hs. destruct Hs as [t w a w' Hb|c id digest m a x a' Hx|l a|n a|a|s fs ts rs|s d Hd].
  - by apply (boot_good t r w a w').
  - destruct Hh as (now & old & Hg & Hn & Ho & Hc). pose proof (wp_execute c id digest m a now old Hg) as Hw. unfold wp in Hw. rewrite Hx in Hw.
    assert (exists now' old', good a' now' old' /\ onwards a now old a' now' old') as (now' & old' & Hg' & Hon).
    { destruct x as [x|e|]; [by apply (reply_good c m id digest now old a x)|by apply (refusal_good now old a e)|done]. }
    exists now', old'. split; [done|]. by apply Hon.
  - destruct Hh as (now & old & [G1 G2 G3 G4 G5 G6 G7] & Ha). exists now, old. split; [|done]. split; cbn; try done. by apply Forwarding.turns_turn.
  - destruct Hh as (now & old & [G1 G2 G3 G4 G5 G6 G7] & Ha). exists now, old. split; [|done]. split; cbn; try done.
    destruct G6 as [G6|?]; [left; by apply published_network|by right].
  - destruct Hh as (now & old & [G1 G2 G3 G4 G5 G6 G7] & Hn & Ho & _). by exists now, old.
  - destruct s as [w|a]; [done|]. destruct Hh as (now & old & [G1 G2 G3 G4 G5 G6 G7] & Ha). exists now, old. split; [|done]. by split.
  - assert (exists now old, stored now old (disk (world_of s)) /\ after r now /\ after r old) as (now & old & Hst & Hn & Ho).
    { destruct s as [w|a]; [done|]. destruct Hh as (now & old & [G1 G2 G3 G4 G5 G6 G7] & Hn & Ho & _). by exists now, old. }
    destruct (stored_crash _ _ _ _ Hst Hd) as (x & Hx & Hor). exists x, x. split; [done|]. by destruct Hor as [-> | ->].
Qed.

Lemma steps_keep r s s' : steps s s' -> holds_from r s -> holds_from r s'.
Proof. induction 1 as [|s1 s2 s3 Hs _ IH]; [done|]. intros Hh. by apply IH, (life_step_keeps r s1). Qed.

Lemma installed_holds r w : stored r r (disk w) -> holds_from r (Down w).
Proof. intros Hs. exists r, r. split; [done|]. by split; left. Qed.
End Histories.

(** ** The properties *)

(** C12: A change of the configuration takes effect as a whole or not at all. After any
    history of commands, restarts and power failures, with the network and the listeners
    at work meanwhile, a command never panics, and the file, the configuration of the
    agent and the policy in force agree while the session runs. A command that is
    accepted committed what it asked for, on the revision it named, as the next one: the
    settings are consistent, written, in force, and the listeners follow them; a device
    is trusted only if it was, if an administrator says so, or if it is the one whose
    password proof is valid at that moment on that connection; a device with less
    rights than before loses its connection and its rights at once, the others keep
    theirs; what needs a restart is refused online. A command that is refused changed
    none of this, unless it says that the outcome is unknown: then the session stops. *)
Theorem configuration_commits `{ConfigJsonLaws} `{Hex} `{HexDecode} `{Supervisor.Tcp} `{Forwarding.Control} `{RemoteAuth.Argon2}
    (r0 : ConfigRecord) (w0 : world) (a : Agent) (c : Command) (id digest : list Z) (m : Moment) :
  stored r0 r0 (disk w0) -> steps (Down w0) (Up a) ->
  exists now old, stored now old (disk (env a)) /\ (running (core a) = true -> now = config a /\ published (core a) (settings (config a))) /\
    let (r, a') := execute c id digest m a in
    match r with
    | Ok (Committed n w b) => exists expected s o, asks c (settings (config a)) expected s o /\ expected = revision (config a) /\ n = expected + 1 /\
        b = restart o /\ committed a a' m s id digest o w old
    | Ok (AlreadyCommitted n) => a' = a /\ n = revision (config a) /\ last_request (config a) = Some (id, digest)
    | Ok ForwardsChanged => config a' = config a /\ core a' = core a /\ env a' = env a
    | Err RecoveryRequired => running (core a') = false
    | Err _ => unconfigured now old a a'
    | Panic => False
    end.
Proof.
  intros Hst Hs. destruct (steps_keep r0 _ _ Hs (installed_holds r0 w0 Hst)) as (now & old & Hg & _). exists now, old.
  pose proof Hg as [G1 G2 G3 G4 G5 G6 G7]. split; [done|]. split.
  { intros Hr. split; [by apply G4|]. destruct G6 as [?|?]; [done|congruence]. }
  pose proof (wp_execute c id digest m a now old Hg) as Hw. unfold wp in Hw. destruct (execute c id digest m a) as [[[n w b|n|]|[]|] a']; try done.
  - destruct Hw as (? & ? & _ & ? & _). done.
  - by destruct Hw as (? & _).
Qed.

(** C13: An acknowledged configuration is never lost and never committed twice. Once a
    commit was acknowledged without a warning, whatever happens afterwards, a power
    failure at any moment included, node.json on the disk then is that record, with the
    request that made it, or one of a later revision (that record when nothing happened
    since), and the next start loads the record that is there, as long as what its
    settings name outside node.json is still there; and the same command, sent again
    later, is not committed a second time. *)
Theorem acknowledged_configurations_survive `{ConfigJsonLaws} `{Hex} `{HexDecode} `{Supervisor.Tcp} `{Forwarding.Control} `{RemoteAuth.Argon2}
    (r0 : ConfigRecord) (w0 : world) (a a' : Agent) (c : Command) (id digest : list Z) (m : Moment) (n : Z) (b : bool) (s : state) :
  stored r0 r0 (disk w0) -> steps (Down w0) (Up a) -> execute c id digest m a = (Ok (Committed n None b), a') -> steps (Up a') s ->
  (forall d, crash (disk (world_of s)) d -> exists r, on_file r d /\
     (r = config a' /\ revision r = n /\ last_request r = Some (id, digest) \/ n < revision r) /\ (s = Up a' -> r = config a') /\
     forall t, validate t (settings r) = Ok tt -> (load t node_json (mk_world d [] [] [])).1 = Ok r) /\
  (forall a2 m2 n2 w2 b2, s = Up a2 -> (execute c id digest m2 a2).1 <> Ok (Committed n2 w2 b2)).
Proof.
  intros Hst Hs Hx Hs2. destruct (steps_keep r0 _ _ Hs (installed_holds r0 w0 Hst)) as (now & old & Hg & _).
  pose proof (wp_execute c id digest m a now old Hg) as Hw. unfold wp in Hw. rewrite Hx in Hw. destruct Hw as (expected & st & o & Ha & He & Hn & _ & Hc).
  pose proof (committed_good _ _ _ _ _ _ _ _ _ Hc) as Hg'. cbn in Hg'.
  assert (holds_from (config a') (Up a')) as Hh by (exists (config a'), (config a'); split; [done|]; by split; [left|split; left]).
  apply (steps_keep _ _ _ Hs2) in Hh. pose proof (cm_config _ _ _ _ _ _ _ _ _ Hc) as Hcfg. split.
  - intros d Hd. destruct (life_step_keeps _ _ _ Hh (step_crash s d Hd)) as (now' & old' & Hst' & Hn' & _).
    exists now'. split; [by apply (stored_on_file now' old')|]. split.
    { destruct Hn' as [->|Hn']; rewrite Hcfg in *; cbn in *; [left|right; lia]. split; [done|]. split; [lia|done]. }
    split; [|intros t; by apply (load_settled t now' old')]. intros ->. destruct (stored_crash _ _ _ _ (cm_stored _ _ _ _ _ _ _ _ _ Hc) Hd) as (r & Hr & Er).
    assert (r = config a') as -> by (by destruct Er). by apply (on_file_eq d); [apply (stored_on_file _ old')|apply (stored_on_file _ (config a'))].
  - intros a2 m2 n2 w2 b2 ->. destruct Hh as (now2 & old2 & Hg2 & _ & _ & Hc2). pose proof (wp_execute c id digest m2 a2 now2 old2 Hg2) as Hw2. unfold wp in Hw2.
    destruct (execute c id digest m2 a2) as [x2 a3]. cbn. intros ->. destruct Hw2 as (expected2 & st2 & o2 & Ha2 & He2 & _).
    assert (expected2 = expected) as ->.
    { unfold asks in Ha, Ha2. destruct c as [e [|[] [f|]]|e [|[] [f|]]| | | |]; try done; destruct Ha, Ha2; congruence. }
    destruct Hc2 as [Hc2|Hc2]; rewrite Hcfg in Hc2; [rewrite Hc2 in He2|]; cbn in *; lia.
Qed.

(** ** A node that learns to trust a device *)

#[local] Instance FileLimits_eq_dec : EqDecision FileLimits.
Proof. solve_decision. Defined.
#[local] Instance DirectSettings_eq_dec : EqDecision DirectSettings.
Proof. solve_decision. Defined.
#[local] Instance TrustedDevice_eq_dec : EqDecision TrustedDevice.
Proof. solve_decision. Defined.
#[local] Instance AllowedForwardTarget_eq_dec : EqDecision Rules.AllowedForwardTarget.
Proof. solve_decision. Defined.
#[local] Instance TunnelRule_eq_dec : EqDecision Rules.TunnelRule.
Proof. solve_decision. Defined.
#[local] Instance PeerResources_eq_dec : EqDecision NodeServices.PeerResources.
Proof. solve_decision. Defined.
#[local] Instance NodeSettings_eq_dec : EqDecision NodeSettings.
Proof. solve_decision. Defined.
#[local] Instance ConfigRecord_eq_dec : EqDecision ConfigRecord.
Proof. solve_decision. Defined.

#[local] Instance example_hex : Hex := Hexadecimal.hex.
#[local] Instance example_hex_decode : HexDecode := Hexadecimal.hex_decoder.
#[local] Instance example_tcp : Supervisor.Tcp := fun _ a => Some a.
#[local] Instance example_control : Forwarding.Control := fun _ _ => true.
#[local] Instance example_argon2 : RemoteAuth.Argon2 := fun _ _ _ _ _ _ => Some (repeat 7 32).

Definition guest : NodeId := repeat 1 16.
Definition request : list Z := lit "request-1".
Definition digest : list Z := repeat 97 64.
Definition installed : ConfigRecord := mk_config 1 0 None (Settings.initial (lit "/srv/received")).
Definition trusting : ConfigRecord :=
  mk_config 1 1 (Some (request, digest)) (with_trusted (mk_device (Identity.id_to_hex guest) (lit "Guest") None 5 5) (settings installed)).

(** A codec for these two records. *)
#[local] Instance example_json : ConfigJson := {|
  to_vec_pretty := fun r => if bool_decide (r = installed) then Some [48] else if bool_decide (r = trusting) then Some [49] else None;
  from_slice := fun bs => match bs with [48; 10] => Some installed | [49; 10] => Some trusting | _ => None end;
|}.
#[local] Instance example_json_laws : ConfigJsonLaws.
Proof.
  intros r bytes. cbn. case_bool_decide as E; [by intros [= <-]; subst|]. clear E. case_bool_decide as E; [|done]. by intros [= <-]; subst.
Qed.

Definition no_tls : Tls := mk_answers (fun _ => None) (fun _ => None) (fun _ => None) (fun _ => false) (fun _ => false).
Definition example_world : world :=
  mk_world (mk_fs {[0 := mk_inode [48; 10] [48; 10] true]} {[node_json := 0]} {[node_json := 0]} 1) [] [] [3].
Definition idle : Waiting := mk_waiting ∅ ∅ ∅ ∅ ∅ ∅ ∅ [] ∅.

(** The guest is connected and has proved the password. *)
Definition visiting : Network :=
  mk_network {[guest := (4, true)]} {[guest := (4, Rights.new_publisher (RemoteAuth.mk_rights (RemoteAuth.mk_grant true false) (RemoteAuth.mk_grant true false)))]}
    ∅ ∅ idle [] AutoResume.initial Queue.default_queue.
Definition visit : Moment := mk_moment no_tls [] visiting Answered no_tls None true.
Definition trust_guest : Command := TrustVerified 0 (Identity.id_to_hex guest) 4 (lit "Guest") 5.

Definition started : Agent :=
  match (boot no_tls example_world).1 with Ok a => a | _ => mk_agent installed false None Forwarding.initial (new_core (settings installed)) example_world end.
Definition trusted_run : outcome refusal reply * Agent := execute trust_guest request digest visit started.

Lemma installed_stored : stored installed installed (disk example_world).
Proof.
  split; [|split; [cbn; lia|]].
  - intros n i [Hi|Hi]; cbn in Hi; apply lookup_singleton_Some in Hi as [_ <-]; cbn; lia.
  - assert (printed installed [48; 10]) as Hp.
    { exists [48]. split; [vm_compute; reflexivity|]. split; [done|]. split; [unfold U64_MAX; cbn; lia|]. exists no_tls. vm_compute. reflexivity. }
    exists [48; 10], [48; 10]. split; [done|]. split; [done|]. split; exists 0; by split.
Qed.

Lemma started_steps : steps (Down example_world) (Up started).
Proof. apply rtc_once, (step_boot no_tls _ _ (boot no_tls example_world).2). vm_compute. reflexivity. Qed.

Lemma trusted_run_is : execute trust_guest request digest visit started = (Ok (Committed 1 None false), trusted_run.2).
Proof.
  assert (trusted_run.1 = Ok (Committed 1 None false)) as E by (vm_compute; reflexivity).
  exact (eq_trans (surjective_pairing trusted_run) (f_equal (fun r => (r, trusted_run.2)) E)).
Qed.

Lemma configuration_commits_witness : trusts (trusted (core trusted_run.2)) guest = true /\ published (core trusted_run.2) (settings trusting).
Proof.
  destruct (configuration_commits installed example_world started trust_guest request digest visit installed_stored started_steps)
    as (now & old & _ & _ & Hx). rewrite trusted_run_is in Hx. destruct Hx as (expected & s & o & (_ & peer & Hp & _ & Es) & _ & _ & _ & Hc).
  assert (peer = guest) as -> by (vm_compute in Hp; by injection Hp). assert (config started = installed) as E by (vm_compute; reflexivity).
  rewrite E in Es. subst s. split; [vm_compute; reflexivity|]. exact (cm_published _ _ _ _ _ _ _ _ _ Hc).
Defined.

Lemma acknowledged_configurations_survive_witness :
  (forall d, crash (disk (env trusted_run.2)) d -> on_file trusting d /\ (load no_tls node_json (mk_world d [] [] [])).1 = Ok trusting) /\
  (execute trust_guest request digest visit trusted_run.2).1 <> Ok (Committed 1 None false).
Proof.
  destruct (acknowledged_configurations_survive installed example_world started trusted_run.2 trust_guest request digest visit 1 false (Up trusted_run.2)
    installed_stored started_steps trusted_run_is (rtc_refl _ _)) as [Hd Ha]. split; [|by apply (Ha _ visit)].
  intros d Hc. destruct (Hd d Hc) as (r & Hf & _ & Er & Hload).
  assert (config trusted_run.2 = trusting) as E by (vm_compute; reflexivity). rewrite E in Er. rewrite (Er eq_refl) in *.
  split; [done|]. apply Hload. vm_compute. reflexivity.
Defined.
End Configuration.
