(* ===== verification/Publish.v ===== *)
(** * Publishing a received file (src/node/core/publish.rs)

    The staged file takes the place of what stands under its name; an older file
    keeps its content under a backup name.  A journal in the staging directory makes
    the publication recoverable: the caller runs it again after any failure or
    crash.  Files are reached through handles of two directories, the one of the
    target and the staging directory, on one volume.  The boundary hooks of the tests
    are left out. *)
From Stdlib Require Import ZArith Lia.
From stdpp Require Import prelude gmap strings.
From S2P Require Import Prelude Io Manifest Message State FileSystem RelativePath Chunker Storage TaskModel.

#[local] Open Scope Z_scope.

(** What the publication asks of the task store. *)
Class PublicationStore (S : Type) : Type := {
  prepare_publication : list Z -> st S error unit;
  commit_receipt : list Z -> Z -> st S error unit;
}.

(** [name_key]: the Unicode normalization is a third-party crate. *)
Class NameKey : Type := name_key : list Z -> list Z.

Module Publish.

(** ** Two directories *)

(** The entries, and those the directory had since its last sync: a power failure
    leaves one of them. *)
Record directory : Type := mk_dir { entries : gmap name Z; past : list (gmap name Z) }.

Record disk : Type := mk_disk {
  inodes : gmap Z inode;
  target : directory;
  stage : directory;
  target_ino : Z;
  next_ino : Z;
}.

Inductive place : Type := Target | Stage.

Definition at_place (p : place) (d : disk) : directory := match p with Target => target d | Stage => stage d end.
Definition set_place (p : place) (x : directory) (d : disk) : disk :=
  match p with
  | Target => mk_disk (inodes d) x (stage d) (target_ino d) (next_ino d)
  | Stage => mk_disk (inodes d) (target d) x (target_ino d) (next_ino d)
  end.
Definition set_entries (p : place) (m : gmap name Z) (d : disk) : disk :=
  set_place p (mk_dir m (entries (at_place p d) :: past (at_place p d))) d.
Definition lookup_entry (p : place) (n : name) (d : disk) : option Z := entries (at_place p d) !! n.
Definition inode_at (d : disk) (i : Z) : inode := default empty_inode (inodes d !! i).
Definition set_inode (i : Z) (nd : inode) (d : disk) : disk :=
  mk_disk (<[i := nd]> (inodes d)) (target d) (stage d) (target_ino d) (next_ino d).

Record ctx (S : Type) : Type := mk_ctx {
  disk_of : disk;
  faults : list (option fault);
  clock : list Z;
  rng : list Z;
  store : S;
  requested : bool;
}.
#[global] Arguments mk_ctx {S} _ _ _ _ _ _.
#[global] Arguments disk_of {S} c.
#[global] Arguments faults {S} c.
#[global] Arguments clock {S} c.
#[global] Arguments rng {S} c.
#[global] Arguments store {S} c.
#[global] Arguments requested {S} c.

Section Calls.
Context {S : Type}.
Abbreviation method := (st (ctx S) error).

Definition set_disk (d : disk) (c : ctx S) : ctx S :=
  mk_ctx d (tail (faults c)) (clock c) (rng c) (store c) (requested c).

(** A call fails without effect or acts on the disk. *)
Definition syscall {A : Type} (f : disk -> outcome io_kind (A * disk)) : method A :=
  fun c =>
    match faults c with
    | Some ft :: _ => (Err (Io (failure ft)), set_disk (disk_of c) c)
    | _ =>
        match f (disk_of c) with
        | Ok (a, d) => (Ok a, set_disk d c)
        | Err k => (Err (Io k), set_disk (disk_of c) c)
        | Panic => (Panic, set_disk (disk_of c) c)
        end
    end.

(** A call that only reports: metadata, a cloned handle, a resolved directory. *)
Definition touch : method unit := syscall (fun d => Ok (tt, d)).

(** [system_time_unix_ms]. *)
Definition system_time_unix_ms : method Z :=
  fun c =>
    let t := hd 0 (clock c) in
    ((if (t <? 0) || (9223372036854775807 <? t) then Err (Protocol "clock out of range") else Ok t),
     mk_ctx (disk_of c) (faults c) (tail (clock c)) (rng c) (store c) (requested c)).

Definition random_u128 : method Z :=
  fun c => (Ok (hd 0 (rng c)), mk_ctx (disk_of c) (faults c) (clock c) (tail (rng c)) (store c) (requested c)).

(** ** src/storage/secure_fs.rs *)

Definition open_entry (p : place) (n : name) : method Z :=
  let! i := syscall (fun d => match lookup_entry p n d with Some i => Ok (i, d) | None => Err NotFound end) in
  let! _ := touch in
  let! d := gets disk_of in
  let! _ := liftr (fail_if (negb (regular (inode_at d i))) (Protocol "not a regular file")) in
  ret i.

(** [identity]: volume and index of the inode. *)
Definition identity (i : Z) : method Z := let! _ := touch in ret i.

Definition sync (p : place) : method unit :=
  syscall (fun d => Ok (tt, set_place p (mk_dir (entries (at_place p d)) []) d)).

Definition sync_file (i : Z) : method unit :=
  syscall (fun d => let nd := inode_at d i in Ok (tt, set_inode i (mk_inode (cur nd) (cur nd) (regular nd)) d)).

Definition rename_no_replace (p : place) (from to : name) : method unit :=
  syscall (fun d =>
    match lookup_entry p from d with
    | None => Err NotFound
    | Some i =>
        match lookup_entry p to d with
        | Some _ => Err AlreadyExists
        | None => Ok (tt, set_entries p (<[to := i]> (delete from (entries (at_place p d)))) d)
        end
    end).

(** [reject_alias]: another entry with the same key. *)
Definition reject_alias `{NameKey} (p : place) (n : name) : method unit :=
  let! _ := touch in
  let! d := gets disk_of in
  let names := (map_to_list (entries (at_place p d))).*1 in
  let! _ := liftr (fail_if (65536 <? Z.of_nat (length names)) (Protocol "too many entries")) in
  liftr (fail_if (existsb (fun e => negb (bool_decide (e = n)) && bool_decide (name_key e = name_key n)) names)
           (Protocol "alias")).

(** [root] and [parent]: the directories on the way are there. *)
Definition parent `{NameKey} (relative : list Z) : method name :=
  let! _ := touch in
  let! _ := liftr (RelativePath.validate_relative_path relative) in
  let! _ := touch in
  let name := default [] (last (split RelativePath.is_slash relative)) in
  let! _ := reject_alias Target name in
  ret name.

(** The new inode under [n]. *)
Definition create_entry (p : place) (n : name) (d : disk) : disk :=
  let d := set_entries p (<[n := next_ino d]> (entries (at_place p d))) d in
  mk_disk (<[next_ino d := empty_inode]> (inodes d)) (target d) (stage d) (target_ino d) (next_ino d + 1).

Definition create_new (p : place) (n : name) : method Z :=
  syscall (fun d => match lookup_entry p n d with
                    | Some _ => Err AlreadyExists
                    | None => Ok (next_ino d, create_entry p n d)
                    end).

(** [write_all] to a new file; a failure may leave a prefix. *)
Definition write_all (i : Z) (bytes : list Z) : method unit :=
  fun c =>
    let put bs := let nd := inode_at (disk_of c) i in
                  set_disk (set_inode i (mk_inode (cur nd ++ bs) (syn nd) (regular nd)) (disk_of c)) c in
    match faults c with
    | Some ft :: _ => (Err (Io (failure ft)), put (take (fault_partial ft) bytes))
    | _ => (Ok tt, put bytes)
    end.

Definition rename (p : place) (from to : name) : method unit :=
  syscall (fun d => match lookup_entry p from d with
                    | None => Err NotFound
                    | Some i => Ok (tt, set_entries p (<[to := i]> (delete from (entries (at_place p d)))) d)
                    end).

Definition hex_digit (n : Z) : Z := if n <? 10 then 48 + n else 87 + n.
(** [{:032x}]. *)
Fixpoint hex_digits (n : nat) (z : Z) : list Z :=
  match n with
  | O => []
  | Datatypes.S n' => hex_digits n' (z / 16) ++ [hex_digit (z mod 16)]
  end.
Definition journal_temp (random : Z) : name := lit "journal-" ++ hex_digits 32 random ++ lit ".tmp".

Definition atomic_json (p : place) (n : name) (bytes : list Z) : method unit :=
  let! _ := liftr (fail_if (64 * 1024 <? Z.of_nat (length bytes)) (Protocol "journal over the limit")) in
  let! random := random_u128 in
  let temp := journal_temp random in
  let! file := create_new p temp in
  let! _ := write_all file bytes in
  let! _ := sync_file file in
  let! _ := rename p temp n in
  sync p.

End Calls.

(** ** Timestamps and backup names *)

(** [{:0w}] of a number that is not negative. *)
Definition padded (w : nat) (n : Z) : list Z :=
  let digits := decimal n in repeat 48 (w - length digits) ++ digits.

(** The days since 1970-01-01 as year, month and day. *)
Definition civil (days : Z) : Z * Z * Z :=
  let z := days + 719468 in
  let era := z / 146097 in
  let doe := z - era * 146097 in
  let yoe := (doe - doe / 1460 + doe / 36524 - doe / 146096) / 365 in
  let year := yoe + era * 400 in
  let doy := doe - (365 * yoe + yoe / 4 - yoe / 100) in
  let mp := (5 * doy + 2) / 153 in
  let day := doy - (153 * mp + 2) / 5 + 1 in
  let month := mp + (if mp <? 10 then 3 else -9) in
  (year + (if month <=? 2 then 1 else 0), month, day).

(** [ms] is not negative: [system_time_unix_ms] says so. *)
Definition timestamp (ms : Z) : list Z :=
  let secs := ms / 1000 in
  let '(year, month, day) := civil (secs / 86400) in
  let time := secs mod 86400 in
  padded 4 year ++ padded 2 month ++ padded 2 day ++ lit "T" ++
  padded 2 (time / 3600) ++ padded 2 ((time / 60) mod 60) ++ padded 2 (time mod 60) ++ padded 3 (ms mod 1000) ++ lit "Z".

(** [rsplit_once('.')] with a stem that is not empty. *)
Definition stem_ext (n : name) : name * option name :=
  match Storage.rsplit_dot n with
  | Some (stem, ext) => if bool_decide (stem = []) then (n, None) else (stem, Some ext)
  | None => (n, None)
  end.

Definition backup_name (n stamp : name) (suffix : Z) : result name :=
  let (stem, ext) := stem_ext n in
  let counter := if suffix =? 0 then [] else lit "-" ++ decimal suffix in
  let backup := stem ++ lit "+" ++ stamp ++ counter ++ match ext with Some e => lit "." ++ e | None => [] end in
  let? _ := RelativePath.validate_relative_path backup in
  Ok backup.

(** ** The journal *)

Inductive Phase : Type := Prepared | OldBackedUp | NewPublished | ReceiptCommitted.

#[global] Instance Phase_eq_dec : EqDecision Phase.
Proof. solve_decision. Defined.

Record Journal : Type := mk_journal {
  version : Z;
  task : list Z;
  peer : list Z;
  relative : list Z;
  root_hash : list Z;
  parent_id : Z;
  staged : Z;
  old : option Z;
  backup : option name;
  stamp : list Z;
  suffix : Z;
  phase : Phase;
}.

Definition with_phase (p : Phase) (j : Journal) : Journal :=
  mk_journal (version j) (task j) (peer j) (relative j) (root_hash j) (parent_id j) (staged j) (old j) (backup j)
    (stamp j) (suffix j) p.
Definition with_backup (b : name) (n : Z) (j : Journal) : Journal :=
  mk_journal (version j) (task j) (peer j) (relative j) (root_hash j) (parent_id j) (staged j) (old j) (Some b)
    (stamp j) n (phase j).

(** [serde_json] on journals. *)
Class JournalCodec : Type := {
  journal_to_vec : Journal -> option (list Z);
  journal_from_slice : list Z -> option Journal;
}.
Class JournalLaws `{JournalCodec} : Prop :=
  journal_roundtrip : forall j bs, journal_to_vec j = Some bs -> journal_from_slice bs = Some j.

Definition JOURNAL : name := lit "publish.json".

Section Publication.
Context {S : Type} `{PublicationStore S} `{Blake3} `{Hex} `{NameKey} `{JournalCodec}.
Abbreviation method := (st (ctx S) error).

Definition named_identity (p : place) (n : name) : method (option Z) :=
  let! opened := attempt (open_entry p n) in
  match opened with
  | Ok i => let! id := identity i in ret (Some id)
  | Err (Io NotFound) => ret None
  | Err e => throw e
  | Panic => panic
  end.

Definition read_limited (i limit : Z) : method (list Z) :=
  syscall (fun d => Ok (take (Z.to_nat limit) (cur (inode_at d i)), d)).

Definition read_journal : method (option Journal) :=
  let! opened := attempt (open_entry Stage JOURNAL) in
  match opened with
  | Ok i =>
      let! bytes := read_limited i 65537 in
      let! _ := liftr (fail_if (65536 <? Z.of_nat (length bytes)) (Protocol "journal over the limit")) in
      let! j := liftr (ok_or (journal_from_slice bytes) (Protocol "journal damaged")) in
      ret (Some j)
  | Err (Io NotFound) => ret None
  | Err e => throw e
  | Panic => panic
  end.

Definition write_journal (j : Journal) : method unit :=
  let! bytes := liftr (ok_or (journal_to_vec j) (Protocol "journal encoding")) in
  atomic_json Stage JOURNAL bytes.

Definition verify (n : name) (m : Manifest.FileManifest) : method unit :=
  let! i := open_entry Target n in
  let! len := syscall (fun d => Ok (Z.of_nat (length (cur (inode_at d i))), d)) in
  let! _ := liftr (fail_if (negb (len =? Manifest.total_len m)) (Protocol "content check failed")) in
  let! bytes := read_limited i (saturating_add U64_MAX (Manifest.total_len m) 1) in
  let! current := liftr (fst (Chunker.manifest_from_reader (Manifest.file_name m) (Manifest.chunk_size m) [Data bytes])) in
  liftr (fail_if (negb (bool_decide (current = m))) (Protocol "content check failed")).

(** What a journal found in the staging directory must say. *)
Definition journal_matches (r : TaskModel.TaskRecord) (d : TaskModel.FileTaskDetails) (staged_id parent : Z) (j : Journal) : bool :=
  let bytes := utf8 (stamp j) in
  (version j =? 1) && bool_decide (task j = TaskModel.task_id r) && bool_decide (peer j = TaskModel.peer_id r) &&
  bool_decide (relative j = TaskModel.f_relative_path d) &&
  bool_decide (root_hash j = Manifest.to_hex (Manifest.root_hash (TaskModel.manifest d))) &&
  (staged j =? staged_id) && (parent_id j =? parent) &&
  bool_decide (is_Some (old j) <-> is_Some (backup j)) && (suffix j <=? 10000) &&
  bool_decide (length bytes = 19%nat) && bool_decide (bytes !! 8%nat = Some 84) && bool_decide (bytes !! 18%nat = Some 90) &&
  forallb (fun ic => bool_decide (ic.1 = 8%nat) || bool_decide (ic.1 = 18%nat) || is_ascii_digit ic.2) (imap pair bytes).

Definition backup_matches (name : name) (j : Journal) : result unit :=
  match backup j with
  | None => Ok tt
  | Some b =>
      let? _ := RelativePath.validate_relative_path b in
      let? expected := if existsb RelativePath.is_slash b then Err (Protocol "illegal backup name")
                       else backup_name name (stamp j) (suffix j) in
      fail_if (negb (bool_decide (b = expected))) (Protocol "illegal backup name")
  end.

Definition new_journal (r : TaskModel.TaskRecord) (d : TaskModel.FileTaskDetails) (staged_id parent : Z) (name : name) :
    method Journal :=
  let! current := named_identity Target name in
  let old := match current with Some id => if id =? staged_id then None else Some id | None => None end in
  let! now := system_time_unix_ms in
  let stamp := timestamp now in
  let! backup := match old with
                 | Some _ => let! b := liftr (backup_name name stamp 0) in ret (Some b)
                 | None => ret None
                 end in
  let j := mk_journal 1 (TaskModel.task_id r) (TaskModel.peer_id r) (TaskModel.f_relative_path d)
             (Manifest.to_hex (Manifest.root_hash (TaskModel.manifest d))) parent staged_id old backup stamp 0 Prepared in
  let! _ := write_journal j in
  ret j.

Definition open_journal (r : TaskModel.TaskRecord) (d : TaskModel.FileTaskDetails) (staged_id parent : Z) (name : name) :
    method Journal :=
  let! found := read_journal in
  match found with
  | Some j =>
      let! _ := liftr (fail_if (negb (journal_matches r d staged_id parent j)) (Protocol "journal of something else")) in
      let! _ := liftr (backup_matches name j) in
      ret j
  | None => new_journal r d staged_id parent name
  end.

(** The loop that moves the old file aside; [fuel] is more than the numbers left. *)
Fixpoint back_up (fuel : nat) (name : name) (old_id : Z) (j : Journal) : method Journal :=
  match fuel with
  | O => panic
  | Datatypes.S fuel =>
      match backup j with
      | None => panic
      | Some b =>
          let! held := named_identity Target b in
          if bool_decide (held = Some old_id) then ret j
          else
            let! current := named_identity Target name in
            if negb (bool_decide (current = Some old_id)) then throw (Protocol "old target changed")
            else
              let! moved := attempt (rename_no_replace Target name b) in
              match moved with
              | Ok _ =>
                  let! _ := sync Target in
                  let! held := named_identity Target b in
                  if negb (bool_decide (held = Some old_id)) then throw (Protocol "backup changed") else ret j
              | Err (Io AlreadyExists) =>
                  if 10000 <? suffix j + 1 then throw (Protocol "too many backups")
                  else
                    let! b := liftr (backup_name name (stamp j) (suffix j + 1)) in
                    let j := with_backup b (suffix j + 1) j in
                    let! _ := write_journal j in
                    back_up fuel name old_id j
              | Err e => throw e
              | Panic => panic
              end
      end
  end.

Definition phase_prepared (name : name) (j : Journal) : method Journal :=
  if bool_decide (phase j = Prepared) then
    let! j := match old j with
              | Some old_id => back_up (Z.to_nat (10002 - suffix j)) name old_id j
              | None => ret j
              end in
    let j := with_phase OldBackedUp j in
    let! _ := write_journal j in
    ret j
  else ret j.

Definition check_backup (j : Journal) : method unit :=
  match old j with
  | None => ret tt
  | Some old_id =>
      match backup j with
      | None => panic
      | Some b =>
          let! held := named_identity Target b in
          liftr (fail_if (negb (bool_decide (held = Some old_id))) (Protocol "backup lost"))
      end
  end.

(** [stage.hard_link(staged_name, &parent, &name)]. *)
Definition hard_link (staged_name name : name) : method unit :=
  syscall (fun d =>
    match lookup_entry Stage staged_name d with
    | None => Err NotFound
    | Some i =>
        match lookup_entry Target name d with
        | Some _ => Err AlreadyExists
        | None => Ok (tt, set_entries Target (<[name := i]> (entries (target d))) d)
        end
    end).

Definition phase_backed_up (staged_name name : name) (staged_id : Z) (j : Journal) : method Journal :=
  if bool_decide (phase j = OldBackedUp) then
    let! linked := attempt (hard_link staged_name name) in
    let! _ := match linked with
              | Ok _ => ret tt
              | Err (Io AlreadyExists) =>
                  let! current := named_identity Target name in
                  liftr (fail_if (negb (bool_decide (current = Some staged_id))) (Protocol "target taken"))
              | Err e => throw e
              | Panic => panic
              end in
    let! _ := sync Target in
    let j := with_phase NewPublished j in
    let! _ := write_journal j in
    ret j
  else ret j.

Definition call_store {A : Type} (m : st S error A) : method A :=
  zoom store (fun s c => mk_ctx (disk_of c) (faults c) (clock c) (rng c) s (requested c)) m.

Definition request : method unit :=
  modify (fun c => mk_ctx (disk_of c) (faults c) (clock c) (rng c) (store c) true).

(** [cleanup_directory]: the names are those of the manifest, old and new. *)
Fixpoint remove_all (names : list name) : method unit :=
  match names with
  | [] => ret tt
  | n :: rest =>
      if 255 <? str_len n then remove_all rest
      else
        let! removed := attempt (syscall (fun d =>
          match lookup_entry Stage n d with
          | Some _ => Ok (tt, set_entries Stage (delete n (entries (stage d))) d)
          | None => Err NotFound
          end)) in
        match removed with
        | Ok _ | Err (Io NotFound) => remove_all rest
        | Err e => throw e
        | Panic => panic
        end
  end.

Definition staging_names (m : Manifest.FileManifest) : list name :=
  [Storage.temp_path_for m; Storage.state_path_for m; JOURNAL; lit "data.part"; lit "data.bitmap"].

Definition cleanup_staging (r : TaskModel.TaskRecord) : method unit :=
  let! _ := touch in
  match TaskModel.file_details r with
  | None => throw (Protocol "no file")
  | Some d => let! _ := remove_all (staging_names (TaskModel.manifest d)) in sync Stage
  end.

(** [file], from the result of [prepare_desktop_publication] (see Storage.v) on. *)
Definition file (r : TaskModel.TaskRecord) (staged_name : name) : method name :=
  match TaskModel.file_details r with
  | None => throw (Protocol "no file")
  | Some d =>
      let! name := parent (TaskModel.f_relative_path d) in
      let! i := open_entry Stage staged_name in
      let! staged_id := identity i in
      let! parent := (let! _ := touch in gets (fun c => target_ino (disk_of c))) in
      let! j := open_journal r d staged_id parent name in
      let! _ := call_store (prepare_publication (TaskModel.task_id r)) in
      let! j := phase_prepared name j in
      let! _ := check_backup j in
      let! j := phase_backed_up staged_name name staged_id j in
      let! current := named_identity Target name in
      let! _ := liftr (fail_if (negb (bool_decide (current = Some staged_id))) (Protocol "wrong file published")) in
      let! published := open_entry Target name in
      let! _ := sync_file published in
      let! _ := verify name (TaskModel.manifest d) in
      let! current := named_identity Target name in
      let! _ := liftr (fail_if (negb (bool_decide (current = Some staged_id))) (Protocol "replaced before the receipt")) in
      let! now := system_time_unix_ms in
      let! _ := request in
      let! _ := call_store (commit_receipt (TaskModel.task_id r) now) in
      let! _ := attempt (write_journal (with_phase ReceiptCommitted j)) in
      let! _ := attempt (cleanup_staging r) in
      ret name
  end.

End Publication.

(** ** Power failure *)

Record crash (d d' : disk) : Prop := {
  crash_target : entries (target d') ∈ entries (target d) :: past (target d);
  crash_target_past : past (target d') = [];
  crash_stage : entries (stage d') ∈ entries (stage d) :: past (stage d);
  crash_stage_past : past (stage d') = [];
  crash_content : forall i, torn (cur (inode_at d i)) (syn (inode_at d i)) (cur (inode_at d' i));
  crash_settled : forall i, syn (inode_at d' i) = cur (inode_at d' i);
  crash_regular : forall i, regular (inode_at d' i) = regular (inode_at d i);
  crash_target_ino : target_ino d' = target_ino d;
  crash_next : next_ino d' = next_ino d;
}.

End Publish.
