(* ===== verification/PublishProof.v ===== *)
(** * Publishing a received file: nothing is lost

    Whatever fails, and wherever the power goes, the target directory is always one
    of three states of the publication, and the receipt is only asked for when the
    last one is on the disk. *)
From Stdlib Require Import ZArith Lia.
From stdpp Require Import prelude gmap strings.
From S2P Require Import Prelude Io Manifest Message State FileSystem RelativePath Chunker Storage TaskModel Publish.

#[local] Open Scope Z_scope.

Module PublishProof.
Import Publish.

(** ** Calls *)

Section Rules.
Context {S : Type}.
Abbreviation method := (st (ctx S) error).

(** Same disk, same history. *)
Definition same (c c' : ctx S) : Prop := disk_of c' = disk_of c /\ requested c' = requested c.

Lemma same_refl c : same c c.
Proof. done. Qed.
Lemma same_trans c1 c2 c3 : same c1 c2 -> same c2 c3 -> same c1 c3.
Proof. intros [] []. split; congruence. Qed.

(** [c'] is [c] after a change of the disk. *)
Definition moved (d : disk) (c c' : ctx S) : Prop := disk_of c' = d /\ requested c' = requested c.

Lemma wp_disk {A} (f : disk -> outcome io_kind (A * disk)) (Q : A -> ctx S -> Prop) (R : error -> ctx S -> Prop) c :
  (forall k c', genuine k = true -> same c c' -> R (Io k) c') ->
  match f (disk_of c) with
  | Ok (a, d) => forall c', moved d c c' -> Q a c'
  | Err k => forall c', same c c' -> R (Io k) c'
  | Panic => False
  end ->
  wp (syscall f) Q R c.
Proof.
  intros HR HQ. unfold wp, syscall.
  assert (forall o, (match o with Ok (a, d) => forall c', moved d c c' -> Q a c' | Err k => forall c', same c c' -> R (Io k) c' | Panic => False end) ->
    match (match o with
           | Ok (a, d) => (Ok a, set_disk d c)
           | Err k => (Err (Io k), set_disk (disk_of c) c)
           | Panic => (Panic, set_disk (disk_of c) c)
           end) with (Ok a, s') => Q a s' | (Err e, s') => R e s' | (Panic, _) => False end) as Ho.
  { intros [[a d]|k|] Hm; [by apply Hm|by apply Hm|done]. }
  destruct (faults c) as [|[ft|] fs]; try (by apply Ho). apply HR; [apply failure_genuine|done].
Qed.

(** A method that only looks: its answer satisfies [P] on the disk it saw. *)
Definition looks {A} (m : method A) (c : ctx S) (P : A -> Prop) : Prop :=
  wp m (fun a c' => same c c' /\ P a) (fun _ c' => same c c') c.

Lemma looks_touch (c : ctx S) : looks touch c (fun _ => True).
Proof. apply wp_disk; [by intros k c' _ Hs|]. intros c' [Hd Hq]. done. Qed.

Lemma looks_bind {A B} (m : method A) (f : A -> method B) c P P' : looks m c P ->
  (forall a c', same c c' -> P a -> looks (f a) c' P') -> looks (sbind m f) c P'.
Proof.
  intros Hm Hf. apply wp_bind. eapply wp_conseq; [exact Hm|..].
  - intros a c' [Hs Ha]. eapply wp_conseq; [exact (Hf a c' Hs Ha)|..].
    + intros b c'' [Hs' Hb]. split; [by eapply same_trans|done].
    + intros e c'' Hs'. by eapply same_trans.
  - done.
Qed.

Lemma looks_ret {A} (a : A) c (P : A -> Prop) : P a -> looks (ret a) c P.
Proof. by intros Ha. Qed.
Lemma looks_liftr {A} (o : result A) c (P : A -> Prop) : o <> Panic -> (forall a, o = Ok a -> P a) -> looks (liftr o) c P.
Proof. intros Hn Ho. unfold looks, wp, liftr. destruct o; [split; [done|by apply Ho]|done|done]. Qed.

Lemma looks_open p n (c : ctx S) : looks (open_entry p n) c (fun i => lookup_entry p n (disk_of c) = Some i /\ regular (inode_at (disk_of c) i) = true).
Proof.
  eapply (looks_bind _ _ _ (fun i => lookup_entry p n (disk_of c) = Some i)).
  - apply wp_disk; [by intros k c' _ Hs|]. destruct (lookup_entry p n (disk_of c)); [|done]. intros c' [Hd Hq]. done.
  - intros i c1 Hs1 Hi. eapply looks_bind; [apply looks_touch|]. intros _ c2 Hs2 _.
    eapply (looks_bind _ _ _ (fun d => d = disk_of c)).
    { unfold looks. apply wp_gets. split; [done|]. destruct Hs1, Hs2. congruence. }
    intros d c3 _ ->. apply (looks_bind _ _ _ (fun _ => regular (inode_at (disk_of c) i) = true)).
    { apply looks_liftr; [by destruct (negb _)|]. intros [] E%fail_if_Ok. by apply negb_false_iff in E. }
    intros [] c4 _ E. by apply looks_ret.
Qed.

(** An entry that cannot be opened because it is missing. *)
Lemma open_missing p n (c : ctx S) : wp (open_entry p n) (fun _ _ => True) (fun e _ => e = Io NotFound -> lookup_entry p n (disk_of c) = None) c.
Proof.
  apply wp_bind. apply wp_disk.
  - intros k c' Hk _ [= ->]. done.
  - destruct (lookup_entry p n (disk_of c)) as [i|] eqn:E; [|done]. intros c' _. apply wp_bind.
    apply wp_disk; [by intros k c'' Hk _ [= ->]|]. intros c'' _. apply wp_bind, wp_gets, wp_bind, wp_liftr.
    destruct (negb _); cbn; [done|]. by apply wp_ret.
Qed.

Lemma looks_attempt_open p n (c : ctx S) : looks (attempt (open_entry p n)) c (fun o => match o with
    | Ok i => lookup_entry p n (disk_of c) = Some i /\ regular (inode_at (disk_of c) i) = true
    | Err e => e = Io NotFound -> lookup_entry p n (disk_of c) = None
    | Panic => False
    end).
Proof.
  unfold looks. apply wp_attempt. eapply wp_conseq; [apply (wp_and _ _ _ _ _ _ (looks_open p n c) (open_missing p n c))|..]; cbn; naive_solver.
Qed.

Lemma looks_conseq {A} (m : st (ctx S) error A) c (P P' : A -> Prop) : looks m c P -> (forall a, P a -> P' a) -> looks m c P'.
Proof. intros Hm Hp. eapply wp_conseq; [exact Hm|..]; cbn; naive_solver. Qed.

Lemma looks_throw {A} e c (P : A -> Prop) : looks (throw e) c P.
Proof. done. Qed.

Lemma looks_identity i (c : ctx S) : looks (identity i) c (fun a => a = i).
Proof. eapply looks_bind; [apply looks_touch|]. intros _ c' _ _. by apply looks_ret. Qed.

Lemma looks_named p n (c : ctx S) : looks (named_identity p n) c (fun o => o = lookup_entry p n (disk_of c)).
Proof.
  eapply looks_bind; [apply looks_attempt_open|]. cbn. intros [i|e|] c1 Hs Ho; [|..].
  - destruct Ho as [Ho _]. eapply looks_bind; [apply looks_identity|]. intros a c2 _ ->. by apply looks_ret.
  - destruct e; try apply looks_throw. destruct kind; try apply looks_throw. apply looks_ret. symmetry. by apply Ho.
  - done.
Qed.

Lemma looks_read i limit (c : ctx S) : looks (read_limited i limit) c (fun bs => bs = take (Z.to_nat limit) (cur (inode_at (disk_of c) i))).
Proof. apply wp_disk; [by intros k c' _ Hs|]. by intros c' Hm. Qed.

Lemma looks_same {A} (m : st (ctx S) error A) c c' P : same c c' -> looks m c' P -> wp m (fun a c'' => same c c'' /\ P a) (fun _ c'' => same c c'') c'.
Proof.
  intros Hs Hm. eapply wp_conseq; [exact Hm|..].
  - intros a c'' [Hs' Ha]. split; [by eapply same_trans|done].
  - intros e c'' Hs'. by eapply same_trans.
Qed.

End Rules.

(** ** What the target directory may look like *)

Definition is_backup (n b : name) : Prop := exists stamp k, backup_name n stamp k = Ok b.

Section States.
Variables (n : name) (s : Z) (t0 : gmap name Z).

(** Before; the old file moved aside; the new file published. *)
Inductive fits : gmap name Z -> Prop :=
  | fits_before : fits t0
  | fits_backed_up old b : t0 !! n = Some old -> old <> s -> is_backup n b -> t0 !! b = None ->
      fits (<[b := old]> (delete n t0))
  | fits_replaced old b : t0 !! n = Some old -> old <> s -> is_backup n b -> t0 !! b = None ->
      fits (<[n := s]> (<[b := old]> t0))
  | fits_added : t0 !! n = None -> fits (<[n := s]> t0).

Lemma fits_name t x : fits t -> t !! n = Some x -> x <> s -> t = t0.
Proof.
  intros [|old b Ho Hs Hb Hn|old b Ho Hs Hb Hn|Hn] Hx Hne; [done|..].
  - rewrite lookup_insert_ne, lookup_delete_eq in Hx; [done|]. intros ->. congruence.
  - rewrite lookup_insert_eq in Hx. congruence.
  - rewrite lookup_insert_eq in Hx. congruence.
Qed.

Lemma fits_rename t x b : fits t -> t !! n = Some x -> x <> s -> is_backup n b -> t !! b = None ->
  fits (<[b := x]> (delete n t)).
Proof. intros Ht Hx Hs Hb Hn. pose proof (fits_name _ _ Ht Hx Hs) as ->. by apply fits_backed_up. Qed.

Lemma fits_link t : fits t -> t !! n = None -> fits (<[n := s]> t).
Proof.
  intros [|old b Ho Hs Hb Hn|old b Ho Hs Hb Hn|Hn] Hx.
  - by apply fits_added.
  - assert (<[n := s]> (<[b := old]> (delete n t0)) = <[n := s]> (<[b := old]> t0)) as ->; [|by apply (fits_replaced old b)].
    apply map_eq. intros m. rewrite !lookup_insert. destruct (decide (n = m)) as [|]; [done|].
    destruct (decide (b = m)); [done|]. by rewrite lookup_delete_ne.
  - by rewrite lookup_insert_eq in Hx.
  - by rewrite lookup_insert_eq in Hx.
Qed.

(** In each of them every file that was there is still there. *)
Lemma fits_keeps t m x : fits t -> t0 !! m = Some x -> x <> s -> t !! m = Some x \/ m = n /\ exists b, is_backup n b /\ t0 !! b = None /\ t !! b = Some x.
Proof.
  intros [|old b Ho Hs Hb Hn|old b Ho Hs Hb Hn|Hn] Hm Hx; [by left|..].
  - destruct (decide (m = n)) as [->|Hne].
    + right. split; [done|]. exists b. rewrite lookup_insert_eq. split; [done|]. split; [done|]. congruence.
    + left. rewrite lookup_insert_ne by congruence. by rewrite lookup_delete_ne.
  - destruct (decide (m = n)) as [->|Hne].
    + right. split; [done|]. exists b. rewrite lookup_insert_ne by congruence. rewrite lookup_insert_eq.
      split; [done|]. split; [done|]. congruence.
    + left. rewrite lookup_insert_ne by done. by rewrite lookup_insert_ne by congruence.
  - left. rewrite lookup_insert_ne; [done|]. congruence.
Qed.

End States.

Section Safety.
Context {S : Type} `{PublicationStore S} `{Blake3} `{Hex} `{NameKey} `{JournalCodec} {laws : JournalLaws}.
Context (prepare_no_panic : forall id (s : S), (prepare_publication id s).1 <> Panic).
Context (receipt_no_panic : forall id now (s : S), (commit_receipt id now s).1 <> Panic).

(** The task, its staged file [s] under [staged_name], and the disk before. *)
Context (r : TaskModel.TaskRecord) (d : TaskModel.FileTaskDetails) (staged_name : name) (s : Z) (d0 : disk).
Abbreviation relative_name := (default [] (last (split RelativePath.is_slash (TaskModel.f_relative_path d)))).
Abbreviation t0 := (entries (target d0)).
Abbreviation fits_now := (fits relative_name s t0).

(** Is the file on the disk, synced? *)
Definition published (dk : disk) : Prop :=
  Forall (fun t => t !! relative_name = Some s) (entries (target dk) :: past (target dk)).

Definition late (j : Journal) : Prop := phase j = NewPublished \/ phase j = ReceiptCommitted.

(** The content is that of the manifest. *)
Definition verified (bytes : list Z) : Prop :=
  fst (Chunker.manifest_from_reader (Manifest.file_name (TaskModel.manifest d)) (Manifest.chunk_size (TaskModel.manifest d)) [Data bytes]) =
    Ok (TaskModel.manifest d).

Definition settled (nd : inode) : Prop := syn nd = cur nd.

(** What a journal on the disk says. *)
Definition journal_ok (dk : disk) (j : Journal) : Prop := old j <> Some s /\ (late j -> published dk).

Record stage_ok (dk : disk) (asked : bool) (g : gmap name Z) : Prop := {
  so_staged : g !! staged_name = Some s \/ asked = true /\ g !! staged_name = None;
  so_journal : forall i, g !! JOURNAL = Some i -> i < next_ino dk /\ settled (inode_at dk i) /\
    forall j, journal_from_slice (take (Z.to_nat 65537) (cur (inode_at dk i))) = Some j -> journal_ok dk j;
}.

Record inv (dk : disk) (asked : bool) : Prop := {
  i_target : Forall fits_now (entries (target dk) :: past (target dk));
  i_stage : Forall (stage_ok dk asked) (entries (stage dk) :: past (stage dk));
  i_next : next_ino d0 <= next_ino dk;
  i_content : forall i, i < next_ino d0 -> settled (inode_at d0 i) -> inode_at dk i = inode_at d0 i;
  i_asked : asked = true -> published dk /\ verified (cur (inode_at d0 s));
}.

Context (staged_old : s < next_ino d0) (staged_settled : settled (inode_at d0 s)).
Context (staged_not_journal : staged_name <> JOURNAL) (staged_not_temp : forall x, staged_name <> journal_temp x).

(** ** Changes of the disk *)

Lemma inv_target dk q m : inv dk q -> fits_now m -> (published dk -> m !! relative_name = Some s) ->
  inv (set_entries Target m dk) q.
Proof.
  intros [T G N C A] Hm Hp. assert (published dk -> published (set_entries Target m dk)) as Hpub.
  { intros Hd. unfold published. cbn. constructor; [by apply Hp|done]. }
  split; try done.
  - by constructor.
  - eapply Forall_impl; [exact G|]. intros g [Hs Hj]. split; [done|]. intros i Hi. destruct (Hj i Hi) as (Hlt & Hse & Hk).
    split; [done|]. split; [done|]. intros j Ej. destruct (Hk j Ej) as [Ho Hl]. split; [done|]. intros Hlate. by apply Hpub, Hl.
  - intros Hq. destruct (A Hq) as [Ha Hv]. split; [by apply Hpub|done].
Qed.

Lemma inv_sync p dk q : inv dk q -> inv (set_place p (mk_dir (entries (at_place p dk)) []) dk) q.
Proof.
  intros [T G N C A]. destruct p.
  - assert (published dk -> published (set_place Target (mk_dir (entries (target dk)) []) dk)) as Hpub.
    { intros Hd. inversion Hd as [|? ? Hh]. by repeat constructor. }
    split; try done.
    + inversion T. by repeat constructor.
    + eapply Forall_impl; [exact G|]. intros g [Hs Hj]. split; [done|]. intros i Hi. destruct (Hj i Hi) as (Hlt & Hse & Hk).
      split; [done|]. split; [done|]. intros j Ej. destruct (Hk j Ej) as [Ho Hl]. split; [done|]. intros Hlate. by apply Hpub, Hl.
    + intros Hq. destruct (A Hq). auto.
  - split; try done. inversion G as [|? ? Hg]. constructor; [|constructor]. destruct Hg as [Hs Hj]. by split.
Qed.

Lemma inv_stage dk q m : inv dk q -> stage_ok dk q m -> inv (set_entries Stage m dk) q.
Proof.
  intros [T G N C A] [Hs Hj]. split; try done. constructor; [by split|].
  eapply Forall_impl; [exact G|]. intros g [Hs' Hj']. by split.
Qed.

(** A new inode, under a temporary name. *)
Lemma inode_at_set dk i nd j : inode_at (set_inode i nd dk) j = if decide (i = j) then nd else inode_at dk j.
Proof. unfold inode_at, set_inode. cbn. rewrite lookup_insert. by destruct (decide (i = j)). Qed.

(** An inode that no journal entry has may change. *)
Lemma inv_inode dk q i nd : inv dk q -> (next_ino d0 <= i \/ nd = inode_at dk i) ->
  (forall g, g ∈ entries (stage dk) :: past (stage dk) -> g !! JOURNAL = Some i -> nd = inode_at dk i) ->
  inv (set_inode i nd dk) q.
Proof.
  intros [T G N C A] Hi Hj. split; try done.
  - apply Forall_forall. intros g Hg. pose proof (proj1 (Forall_forall _ _) G g Hg) as [Hs Hk]. split; [done|].
    intros k Ek. destruct (Hk k Ek) as (Hlt & Hse & Hdec). rewrite inode_at_set. destruct (decide (i = k)) as [<-|]; [|by auto].
    rewrite (Hj g Hg Ek). by auto.
  - intros k Hk Hs. rewrite inode_at_set. destruct (decide (i = k)) as [<-|]; [|by apply C].
    destruct Hi as [Hi| ->]; [lia|by apply C].
Qed.

Lemma inv_create dk q n : inv dk q -> n <> JOURNAL -> n <> staged_name -> entries (stage dk) !! n = None ->
  inv (create_entry Stage n dk) q.
Proof.
  intros [T G N C A] Hn Hs Hnone. assert (forall i, i < next_ino dk -> inode_at (create_entry Stage n dk) i = inode_at dk i) as Hold.
  { intros i Hi. unfold inode_at, create_entry. cbn. by rewrite lookup_insert_ne by lia. }
  assert (forall g, stage_ok dk q g -> stage_ok (create_entry Stage n dk) q g) as Hg.
  { intros g [Hs' Hj]. split; [done|]. intros i Hi. destruct (Hj i Hi) as (Hlt & Hse & Hk).
    rewrite (Hold i Hlt). split; [cbn; lia|]. by split. }
  split; try done.
  - constructor; [|eapply Forall_impl; [exact G|exact Hg]]. inversion G as [|? ? Hg0 _]. apply Hg.
    destruct Hg0 as [Hs0 Hj0]. split; cbn; [by rewrite lookup_insert_ne|]. intros i. rewrite lookup_insert_ne by done. apply Hj0.
  - cbn. lia.
  - intros i Hi Hse. rewrite Hold by lia. by apply C.
Qed.

(** ** Writing the journal *)

Abbreviation Inv c := (inv (disk_of c) (requested c)).

(** The invariant again, the target directory and the history as they were. *)
Definition kept (c c' : ctx S) : Prop := Inv c' /\ target (disk_of c') = target (disk_of c) /\ requested c' = requested c.

Lemma kept_refl c : Inv c -> kept c c.
Proof. done. Qed.
Lemma kept_trans c1 c2 c3 : kept c1 c2 -> kept c2 c3 -> kept c1 c3.
Proof. intros (_ & ? & ?) (? & ? & ?). split; [done|]. split; congruence. Qed.
Lemma kept_same c c' : Inv c -> same c c' -> kept c c'.
Proof. intros Hi [Ed Eq]. unfold kept. by rewrite Ed, Eq. Qed.

Lemma published_target dk dk' : target dk' = target dk -> published dk -> published dk'.
Proof. unfold published. by intros ->. Qed.
Lemma journal_ok_target dk dk' j : target dk' = target dk -> journal_ok dk j -> journal_ok dk' j.
Proof. intros E [Ho Hl]. split; [done|]. intros Hlate. by apply (published_target dk), Hl. Qed.

(** While the new journal is written: its inode is not yet anybody's journal. *)
Record writing (id : Z) (temp : name) (c c' : ctx S) : Prop := {
  w_kept : kept c c';
  w_new : next_ino d0 <= id < next_ino (disk_of c');
  w_entry : entries (stage (disk_of c')) !! temp = Some id;
  w_fresh : forall g, g ∈ entries (stage (disk_of c')) :: past (stage (disk_of c')) -> g !! JOURNAL <> Some id;
}.

Lemma writing_inode id temp nd c c1 c2 : writing id temp c c1 -> moved (set_inode id nd (disk_of c1)) c1 c2 -> writing id temp c c2.
Proof.
  intros [(Hi & Et & Eq) Hn He Hf] [Ed Er]. split; [|rewrite Ed..]; try done.
  split; [|rewrite Ed, Er; done]. rewrite Ed, Er. apply inv_inode; [done|by left; lia|]. intros g Hg Hj. by destruct (Hf g Hg).
Qed.

Lemma temp_not_journal x : journal_temp x <> JOURNAL.
Proof. unfold journal_temp, JOURNAL. cbn. discriminate. Qed.

Lemma wp_create_journal x c : Inv c -> wp (create_new Stage (journal_temp x))
  (fun id c' => writing id (journal_temp x) c c' /\ inode_at (disk_of c') id = empty_inode) (fun _ c' => kept c c') c.
Proof.
  intros Hi. apply wp_disk; [intros k c' _ Hs; by apply kept_same|]. unfold lookup_entry. cbn [at_place].
  destruct (entries (stage (disk_of c)) !! journal_temp x) as [y|] eqn:E; [intros c' Hs; by apply kept_same|].
  intros c' [Ed Eq].
  assert (inv (disk_of c') (requested c')) as Hi'.
  { rewrite Ed, Eq. apply inv_create; [done|apply temp_not_journal| |done]. intros En. by apply (staged_not_temp x). }
  split; [split; [split; [done|]; rewrite Ed, Eq; done|..]; rewrite Ed; cbn|].
  - pose proof (i_next _ _ Hi). lia.
  - apply lookup_insert_eq.
  - intros g Hg Hj. pose proof (i_stage _ _ Hi) as G. apply elem_of_cons in Hg as [->|Hg].
    + rewrite lookup_insert_ne in Hj by apply temp_not_journal. inversion G as [|? ? Hg0 _].
      apply (so_journal _ _ _ Hg0) in Hj as [Hj _]. lia.
    + pose proof (proj1 (Forall_forall _ _) G g Hg) as Hg0. apply (so_journal _ _ _ Hg0) in Hj as [Hj _]. lia.
  - rewrite Ed. unfold inode_at, create_entry. cbn. by rewrite lookup_insert_eq.
Qed.

Lemma inode_set_same i nd dk : inode_at (set_inode i nd dk) i = nd.
Proof. rewrite inode_at_set. by destruct (decide (i = i)). Qed.

Lemma wp_write_all i bytes c (Q : unit -> ctx S -> Prop) (R : error -> ctx S -> Prop) :
  (forall bs e c', moved (set_inode i (mk_inode (cur (inode_at (disk_of c) i) ++ bs) (syn (inode_at (disk_of c) i))
      (regular (inode_at (disk_of c) i))) (disk_of c)) c c' -> R e c') ->
  (forall c', moved (set_inode i (mk_inode (cur (inode_at (disk_of c) i) ++ bytes) (syn (inode_at (disk_of c) i))
      (regular (inode_at (disk_of c) i))) (disk_of c)) c c' -> Q tt c') ->
  wp (write_all i bytes) Q R c.
Proof. intros HR HQ. unfold wp, write_all. destruct (faults c) as [|[ft|] fs]; try (by apply HQ). by eapply HR. Qed.

Lemma wp_atomic_json bytes j c : Inv c -> journal_from_slice bytes = Some j -> journal_ok (disk_of c) j ->
  wp (atomic_json Stage JOURNAL bytes) (fun _ c' => kept c c') (fun _ c' => kept c c') c.
Proof.
  intros Hi Hdec Hj. unfold atomic_json. apply wp_bind, wp_liftr. destruct (Z.ltb_spec (64 * 1024) (Z.of_nat (length bytes))) as [|Hlen]; cbn [fail_if]; [by apply kept_refl|].
  apply wp_bind. unfold wp at 1, random_u128. cbn [fst snd]. set (c1 := mk_ctx _ _ _ _ _ _). set (x := hd 0 (rng c)).
  assert (Inv c1) as Hi1 by done. apply wp_bind.
  eapply wp_conseq; [by apply wp_create_journal|..]; [|by intros e c' Hk]. cbn beta. intros id c2 [Hw Hin].
  apply wp_bind. apply wp_write_all; [intros bs e c' Hm; by apply (writing_inode _ _ _ _ _ _ Hw Hm)|]. intros c3 Hm3.
  pose proof (writing_inode _ _ _ _ _ _ Hw Hm3) as Hw3. rewrite Hin in Hm3. cbn [cur syn regular empty_inode app] in Hm3.
  assert (inode_at (disk_of c3) id = mk_inode bytes [] true) as Hin3 by (destruct Hm3 as [-> _]; apply inode_set_same).
  apply wp_bind. apply wp_disk; [intros k c' _ Hs; eapply kept_trans; [apply Hw3|]; apply kept_same; [apply Hw3|done]|].
  rewrite Hin3. cbn [cur regular]. intros c4 Hm4. pose proof (writing_inode _ _ _ _ _ _ Hw3 Hm4) as Hw4.
  assert (inode_at (disk_of c4) id = mk_inode bytes bytes true) as Hin4 by (destruct Hm4 as [-> _]; apply inode_set_same).
  destruct Hw4 as [Hk4 Hn4 He4 Hf4]. apply wp_bind.
  apply wp_disk; [intros k c' _ Hs; eapply kept_trans; [exact Hk4|]; apply kept_same; [apply Hk4|done]|].
  unfold lookup_entry. cbn [at_place]. rewrite He4. intros c5 [Ed5 Eq5].
  assert (kept c c5) as Hk5.
  { eapply kept_trans; [exact Hk4|]. destruct Hk4 as (Hi4 & Et4 & Eq4). split; [|rewrite Ed5, Eq5; done]. rewrite Ed5, Eq5.
    apply inv_stage; [done|]. destruct Hi4 as [_ G _ _ _]. inversion G as [|? ? [Hs0 _] _]. split.
    - rewrite lookup_insert_ne by done. rewrite lookup_delete_ne by (intros E; by apply (staged_not_temp x)). done.
    - intros i. rewrite lookup_insert_eq. intros [= <-]. rewrite Hin4. split; [lia|]. split; [done|]. cbn [cur].
      intros j'. rewrite take_ge by lia. rewrite Hdec. intros [= <-]. apply (journal_ok_target (disk_of c)); [|done]. by rewrite Et4. }
  apply wp_disk; [intros k c' _ Hs; eapply kept_trans; [exact Hk5|]; apply kept_same; [apply Hk5|done]|].
  intros c6 [Ed6 Eq6]. eapply kept_trans; [exact Hk5|]. split; [rewrite Ed6, Eq6; by apply inv_sync, Hk5|]. by rewrite Ed6, Eq6.
Qed.

Lemma wp_write_journal j c : Inv c -> journal_ok (disk_of c) j ->
  wp (write_journal j) (fun _ c' => kept c c') (fun _ c' => kept c c') c.
Proof.
  intros Hi Hj. unfold write_journal. apply wp_bind, wp_liftr. destruct (journal_to_vec j) as [bytes|] eqn:E; cbn; [|by apply kept_refl].
  apply (wp_atomic_json _ j); [done|by apply journal_roundtrip|done].
Qed.

(** ** The parts of [file] *)

(** The invariant again, with the same history. *)
Definition goes (c c' : ctx S) : Prop := Inv c' /\ requested c' = requested c.

Lemma kept_goes c c' : kept c c' -> goes c c'.
Proof. by intros (? & _ & ?). Qed.
Lemma goes_trans c1 c2 c3 : goes c1 c2 -> goes c2 c3 -> goes c1 c3.
Proof. intros [_ ?] [? ?]. split; [done|congruence]. Qed.

(** After looking, with what was seen. *)
Lemma wp_looks {A B} (m : st (ctx S) error A) (f : A -> st (ctx S) error B) P (Q : B -> ctx S -> Prop) (R : error -> ctx S -> Prop) c :
  Inv c -> looks m c P -> (forall e c', kept c c' -> R e c') ->
  (forall a c', kept c c' -> disk_of c' = disk_of c -> P a -> wp (f a) Q R c') -> wp (sbind m f) Q R c.
Proof.
  intros Hi Hm HR HQ. apply wp_bind. eapply wp_conseq; [exact Hm|..].
  - intros a c' [Hs Ha]. apply HQ; [by apply kept_same|by destruct Hs|done].
  - intros e c' Hs. by apply HR, kept_same.
Qed.

Lemma looks_read_journal (c : ctx S) : looks read_journal c (fun o => match o with
    | Some j => exists i, lookup_entry Stage JOURNAL (disk_of c) = Some i /\
        journal_from_slice (take (Z.to_nat 65537) (cur (inode_at (disk_of c) i))) = Some j
    | None => lookup_entry Stage JOURNAL (disk_of c) = None
    end).
Proof.
  unfold read_journal. eapply looks_bind; [apply looks_attempt_open|]. cbn beta. intros [i|e|] c1 Hs1 Ho; [|..|done].
  - destruct Ho as [Ho _]. eapply looks_bind; [apply looks_read|]. cbn beta. intros bytes c2 Hs2 ->.
    apply (looks_bind _ _ _ (fun _ => True)); [apply looks_liftr; [by destruct (_ <? _)|done]|]. intros [] c3 Hs3 _.
    destruct Hs1 as [Ed1 _]. rewrite Ed1.
    eapply (looks_bind _ _ _ (fun j => journal_from_slice (take (Z.to_nat 65537) (cur (inode_at (disk_of c) i))) = Some j)).
    + apply looks_liftr; [by destruct (journal_from_slice _)|]. intros j. apply ok_or_Ok.
    + intros j c4 _ Ej. apply looks_ret. by exists i.
  - destruct e; try apply looks_throw. destruct kind; try apply looks_throw. apply looks_ret. by apply Ho.
Qed.

(** A journal the code goes on with. *)
Record journal_sane (dk : disk) (j : Journal) : Prop := {
  js_ok : journal_ok dk j;
  js_pair : is_Some (old j) <-> is_Some (backup j);
  js_backup : forall b, backup j = Some b -> is_backup relative_name b;
  js_suffix : suffix j <= 10000;
}.

Lemma backup_matches_is b j u : backup_matches relative_name j = Ok u -> backup j = Some b -> is_backup relative_name b.
Proof.
  intros E Eb. unfold backup_matches in E. rewrite Eb in E. apply obind_Ok in E as (u1 & _ & E).
  apply obind_Ok in E as (expected & Ee & E%fail_if_Ok). apply negb_false_iff, bool_decide_eq_true in E. subst expected.
  destruct (existsb _ b); [done|]. by exists (stamp j), (suffix j).
Qed.

Lemma validate_no_panic path : RelativePath.validate_relative_path path <> Panic.
Proof.
  unfold RelativePath.validate_relative_path. intros E. apply obind_Panic in E as [E|(u & _ & E)]; [by destruct (_ || _)|].
  revert u E. generalize (split RelativePath.is_slash path). intros l. generalize tt.
  induction l as [|x l IH]; intros v u E; [done|]. cbn [fold_outcome] in E.
  apply obind_Panic in E as [E|([] & _ & E)]; [|by apply (IH tt u)].
  unfold RelativePath.check_component in E. destruct (RelativePath.illegal_component x); [done|]. cbn in E.
  by destruct (RelativePath.is_device _).
Qed.

Lemma backup_name_no_panic n stmp k : backup_name n stmp k <> Panic.
Proof.
  unfold backup_name. destruct (stem_ext n) as [stem ext]. intros E. apply obind_Panic in E as [E|(u & _ & E)]; [|done].
  by apply validate_no_panic in E.
Qed.

Lemma wp_new_journal parent c : Inv c -> wp (new_journal r d s parent relative_name)
  (fun j c' => kept c c' /\ journal_sane (disk_of c') j) (fun _ c' => kept c c') c.
Proof.
  intros Hi. unfold new_journal. eapply wp_looks; [done|apply looks_named|done|]. cbn beta. intros current c1 Hk1 _ ->.
  set (old_id := match lookup_entry Target relative_name (disk_of c) with Some id => if id =? s then None else Some id | None => None end).
  assert (old_id <> Some s) as Hold.
  { unfold old_id. destruct (lookup_entry _ _ _) as [x|]; [|done]. destruct (Z.eqb_spec x s); [done|]. by intros [= ->]. }
  apply wp_bind. unfold wp at 1, system_time_unix_ms. cbn [fst snd].
  set (c2 := mk_ctx _ _ _ _ _ _). assert (kept c c2) as Hk2 by exact Hk1.
  destruct (_ || _); [exact Hk2|]. set (stmp := timestamp _).
  assert (forall b, (match old_id with Some _ => exists x, b = Some x /\ is_backup relative_name x | None => b = None end) ->
    wp (let j := mk_journal 1 (TaskModel.task_id r) (TaskModel.peer_id r) (TaskModel.f_relative_path d)
             (Manifest.to_hex (Manifest.root_hash (TaskModel.manifest d))) parent s old_id b stmp 0 Prepared in
        let! _ := write_journal j in ret j)
      (fun j c' => kept c c' /\ journal_sane (disk_of c') j) (fun _ c' => kept c c') c2) as Hw.
  { intros b Hb. cbv zeta. set (j := mk_journal _ _ _ _ _ _ _ _ _ _ _ _).
    assert (forall dk, journal_ok dk j) as Hj by (intros dk; split; [done|]; by intros [|]).
    apply wp_bind. eapply wp_conseq; [apply wp_write_journal; [apply Hk2|apply Hj]|..]; cbn beta.
    - intros [] c3 Hk3. split; [by eapply kept_trans|]. split; [apply Hj|..]; cbn; [| |lia].
      + destruct old_id; [destruct Hb as (y & -> & _)|subst b]; [by split; eauto|by split; intros [? ?]].
      + intros y ->. destruct old_id; [destruct Hb as (? & [= <-] & ?)|]; done.
    - intros e c3 Hk3. by eapply kept_trans. }
  apply wp_bind. destruct old_id as [x|]; [|by apply wp_ret, Hw]. apply wp_bind, wp_liftr.
  destruct (backup_name relative_name stmp 0) as [b|e|] eqn:Eb; [|exact Hk2|by apply backup_name_no_panic in Eb].
  apply wp_ret, Hw. exists b. split; [done|]. by exists stmp, 0.
Qed.

Lemma wp_open_journal parent c : Inv c -> wp (open_journal r d s parent relative_name)
  (fun j c' => kept c c' /\ journal_sane (disk_of c') j) (fun _ c' => kept c c') c.
Proof.
  intros Hi. unfold open_journal. eapply wp_looks; [done|apply looks_read_journal|done|]. cbn beta.
  intros [j|] c1 Hk1 Ed Hj; [|].
  - destruct Hj as (i & Hl & Hdec). apply wp_bind, wp_liftr. destruct (journal_matches r d s parent j) eqn:Em; cbn [negb fail_if]; [|exact Hk1].
    apply wp_bind, wp_liftr. destruct (backup_matches relative_name j) as [[]|e|] eqn:Eb; [|exact Hk1|].
    + apply wp_ret. split; [exact Hk1|]. rewrite Ed. pose proof (i_stage _ _ Hi) as G. inversion G as [|? ? [_ Hg] _].
      destruct (Hg i Hl) as (_ & _ & Hdj). unfold journal_matches in Em. rewrite !andb_true_iff in Em.
      destruct Em as [[[[[[Em Ep] Esf] _] _] _] _]. apply bool_decide_eq_true in Ep.
      split; [by apply Hdj|exact Ep| |lia]. intros b Hb. by eapply backup_matches_is.
    + exfalso. unfold backup_matches in Eb. destruct (backup j) as [b|]; [|done].
      apply obind_Panic in Eb as [Eb|(u & _ & Eb)]; [by apply validate_no_panic in Eb|].
      apply obind_Panic in Eb as [Eb|(x & _ & Eb)]; [|by destruct (negb _)].
      destruct (existsb _ b); [done|]. by apply backup_name_no_panic in Eb.
  - eapply wp_conseq; [apply wp_new_journal, Hk1|..]; cbn beta.
    + intros j c2 [Hk2 Hj2]. split; [by eapply kept_trans|done].
    + intros e c2 Hk2. by eapply kept_trans.
Qed.

Lemma kept_sane c c' j : kept c c' -> journal_sane (disk_of c) j -> journal_sane (disk_of c') j.
Proof. intros (_ & Et & _) [? ? ? ?]. split; try done. by apply (journal_ok_target (disk_of c)). Qed.

(** An early journal is fine on any disk. *)
Lemma early_ok dk j : old j <> Some s -> phase j = Prepared \/ phase j = OldBackedUp -> journal_ok dk j.
Proof. intros Ho Hp. split; [done|]. intros [E|E]; destruct Hp; congruence. Qed.

Lemma wp_sync_target c : Inv c -> wp (sync Target)
  (fun _ c' => goes c c' /\ target (disk_of c') = mk_dir (entries (target (disk_of c))) []) (fun _ c' => goes c c') c.
Proof.
  intros Hi. apply wp_disk; [intros k c' _ Hs; by apply kept_goes, kept_same|]. intros c' [Ed Eq].
  split; [|by rewrite Ed]. split; [|done]. rewrite Ed, Eq. by apply inv_sync.
Qed.

(** Moving the old file aside. *)
Lemma wp_rename_old b x c : Inv c -> lookup_entry Target relative_name (disk_of c) = Some x -> x <> s -> is_backup relative_name b ->
  wp (rename_no_replace Target relative_name b) (fun _ c' => goes c c') (fun _ c' => kept c c') c.
Proof.
  intros Hi Hx Hne Hb. apply wp_disk; [intros k c' _ Hs; by apply kept_same|]. rewrite Hx.
  destruct (lookup_entry Target b (disk_of c)) eqn:E; [intros c' Hs; by apply kept_same|].
  intros c' [Ed Eq]. split; [|done]. rewrite Ed, Eq. unfold lookup_entry in *. cbn [at_place] in *.
  pose proof (i_target _ _ Hi) as T. inversion T as [|? ? Hf _]. apply inv_target; [done|by apply fits_rename|].
  intros Hp. inversion Hp as [|? ? Hh _]. congruence.
Qed.

Lemma wp_back_up fuel old_id j c : Inv c -> journal_sane (disk_of c) j -> old j = Some old_id -> phase j = Prepared ->
  10001 - suffix j < Z.of_nat fuel ->
  wp (back_up fuel relative_name old_id j)
    (fun j' c' => goes c c' /\ journal_sane (disk_of c') j' /\ old j' = Some old_id /\ phase j' = Prepared) (fun _ c' => goes c c') c.
Proof.
  revert j c. induction fuel as [|fuel IH]; intros j c Hi Hj Ho Hph Hf; [pose proof (js_suffix _ _ Hj); lia|]. cbn [back_up].
  destruct Hj as [Hok Hpair Hbk Hsuf]. assert (old_id <> s) as Hne by (intros ->; by apply (proj1 Hok)).
  destruct (backup j) as [b|] eqn:Eb; [|by rewrite Ho in Hpair; destruct (proj1 Hpair (mk_is_Some _ _ eq_refl))].
  assert (forall c', goes c c' -> journal_sane (disk_of c') j) as Hsane.
  { intros c' _. split; [|by rewrite Eb| |done]; [|intros y E; apply Hbk; congruence]. apply early_ok; [apply (proj1 Hok)|by left]. }
  eapply wp_looks; [done|apply looks_named|intros e c' Hk; by apply kept_goes|]. cbn beta. intros held c1 Hk1 Ed1 ->.
  case_bool_decide as Eheld.
  { apply wp_ret. split; [by apply kept_goes|]. split; [by apply Hsane, kept_goes|done]. }
  eapply wp_looks; [apply Hk1|apply looks_named|intros e c' Hk; apply kept_goes; by eapply kept_trans|]. cbn beta.
  intros current c2 Hk2 Ed2 ->. case_bool_decide as Ecur; cbn [negb]; [|apply wp_throw, kept_goes; by eapply kept_trans].
  pose proof (kept_trans _ _ _ Hk1 Hk2) as Hk12. apply wp_bind, wp_attempt.
  eapply wp_conseq; [apply (wp_rename_old b old_id c2); [apply Hk12| |done|by apply Hbk]|..]; cbn beta.
  - rewrite Ed2. exact Ecur.
  - intros [] c3 Hg3. assert (goes c c3) as Hg by (eapply goes_trans; [apply kept_goes, Hk12|done]).
    apply wp_bind. eapply wp_conseq; [apply wp_sync_target, Hg|..]; cbn beta; [|intros e c4 Hg4; by eapply goes_trans].
    intros [] c4 [Hg4 _]. assert (goes c c4) as Hg' by by eapply goes_trans.
    eapply wp_looks; [apply Hg'|apply looks_named|intros e c' Hk; eapply goes_trans; [exact Hg'|by apply kept_goes]|]. cbn beta.
    intros held c5 Hk5 _ _. assert (goes c c5) as Hg5 by (eapply goes_trans; [exact Hg'|by apply kept_goes]).
    case_bool_decide; cbn [negb]; [|by apply wp_throw]. apply wp_ret. split; [done|]. split; [by apply Hsane|done].
  - intros e c3 Hk3. pose proof (kept_trans _ _ _ Hk12 Hk3) as Hk. destruct e as [kd| | | | | | |]; try (apply wp_throw; by apply kept_goes).
    destruct kd; try (apply wp_throw; by apply kept_goes). destruct (Z.ltb_spec 10000 (suffix j + 1)); [apply wp_throw; by apply kept_goes|].
    apply wp_bind, wp_liftr. destruct (backup_name relative_name (stamp j) (suffix j + 1)) as [b'|e|] eqn:Eb';
      [|by apply kept_goes|by apply backup_name_no_panic in Eb'].
    set (j' := with_backup b' (suffix j + 1) j). assert (forall dk, journal_sane dk j') as Hj'.
    { intros dk. split; [apply early_ok; [apply (proj1 Hok)|by left]|..]; cbn.
      - rewrite Ho. by split; eauto.
      - intros y [= <-]. by exists (stamp j), (suffix j + 1).
      - lia. }
    apply wp_bind. eapply wp_conseq; [apply (wp_write_journal j'); [apply Hk|apply Hj']|..]; cbn beta.
    + intros [] c4 Hk4. pose proof (kept_trans _ _ _ Hk Hk4) as Hk'.
      eapply wp_conseq; [apply (IH j' c4); [apply Hk'|apply Hj'|done|done|cbn; lia]|..]; cbn beta.
      * intros j'' c5 (Hg5 & ? & ? & ?). split; [|done]. eapply goes_trans; [by apply kept_goes|done].
      * intros e c5 Hg5. eapply goes_trans; [by apply kept_goes|done].
    + intros e c4 Hk4. apply kept_goes. by eapply kept_trans.
Qed.

Lemma wp_phase_prepared j c : Inv c -> journal_sane (disk_of c) j -> wp (phase_prepared relative_name j)
  (fun j' c' => goes c c' /\ journal_sane (disk_of c') j' /\ phase j' <> Prepared) (fun _ c' => goes c c') c.
Proof.
  intros Hi Hj. unfold phase_prepared. case_bool_decide as Eph; [|apply wp_ret; split; [done|]; by split].
  assert (forall j1 c1, goes c c1 -> journal_sane (disk_of c1) j1 -> wp (let j := with_phase OldBackedUp j1 in let! _ := write_journal j in ret j)
    (fun j' c' => goes c c' /\ journal_sane (disk_of c') j' /\ phase j' <> Prepared) (fun _ c' => goes c c') c1) as Hw.
  { intros j1 c1 Hg1 Hj1. cbv zeta. assert (forall dk, journal_sane dk (with_phase OldBackedUp j1)) as Hj2.
    { intros dk. destruct Hj1 as [Hok ? ? ?]. split; [apply early_ok; [apply (proj1 Hok)|by right]|done..]. }
    apply wp_bind. eapply wp_conseq; [apply wp_write_journal; [apply Hg1|apply Hj2]|..]; cbn beta.
    - intros [] c2 Hk2. apply wp_ret. split; [eapply goes_trans; [done|by apply kept_goes]|]. split; [apply Hj2|done].
    - intros e c2 Hk2. eapply goes_trans; [done|by apply kept_goes]. }
  apply wp_bind. destruct (old j) as [old_id|] eqn:Eo; [|by apply wp_ret, Hw].
  eapply wp_conseq; [apply (wp_back_up _ old_id j c); try done; lia|..]; cbn beta; [|done].
  intros j' c' (Hg & Hj' & _). by apply Hw.
Qed.

Lemma wp_check_backup j c : Inv c -> journal_sane (disk_of c) j ->
  wp (check_backup j) (fun _ c' => kept c c') (fun _ c' => kept c c') c.
Proof.
  intros Hi Hj. unfold check_backup. destruct (old j) as [x|] eqn:Eo; [|by apply wp_ret, kept_refl].
  destruct (backup j) as [b|] eqn:Eb.
  - eapply wp_looks; [done|apply looks_named|done|]. cbn beta. intros held c1 Hk1 _ _. apply wp_liftr. by destruct (negb _).
  - destruct Hj as [_ Hp _ _]. rewrite Eo, Eb in Hp. by destruct (proj1 Hp (mk_is_Some _ _ eq_refl)).
Qed.

Lemma staged_is_s (c : ctx S) i : Inv c -> lookup_entry Stage staged_name (disk_of c) = Some i -> i = s.
Proof.
  intros Hi Hl. pose proof (i_stage _ _ Hi) as G. inversion G as [|? ? [Hs _] _]. unfold lookup_entry in Hl. cbn in Hl.
  destruct Hs as [Hs|[_ Hs]]; congruence.
Qed.

(** The link, or the file is there already. *)
Lemma wp_hard_link c : Inv c -> wp (hard_link staged_name relative_name)
  (fun _ c' => goes c c' /\ lookup_entry Target relative_name (disk_of c') = Some s) (fun _ c' => kept c c') c.
Proof.
  intros Hi. apply wp_disk; [intros k c' _ Hs; by apply kept_same|].
  destruct (lookup_entry Stage staged_name (disk_of c)) as [i|] eqn:Ei; [|intros c' Hs; by apply kept_same].
  pose proof (staged_is_s _ _ Hi Ei) as ->. destruct (lookup_entry Target relative_name (disk_of c)) eqn:Et; [intros c' Hs; by apply kept_same|].
  intros c' [Ed Eq]. unfold lookup_entry in *. cbn [at_place] in *. split; [|rewrite Ed; cbn; apply lookup_insert_eq].
  split; [|done]. rewrite Ed, Eq. pose proof (i_target _ _ Hi) as T. inversion T as [|? ? Hf _].
  apply inv_target; [done|by apply fits_link|]. intros _. apply lookup_insert_eq.
Qed.

Lemma wp_phase_backed_up j c : Inv c -> journal_sane (disk_of c) j -> phase j <> Prepared ->
  wp (phase_backed_up staged_name relative_name s j)
    (fun j' c' => goes c c' /\ journal_sane (disk_of c') j' /\ published (disk_of c')) (fun _ c' => goes c c') c.
Proof.
  intros Hi Hj Hph. unfold phase_backed_up. case_bool_decide as Eph.
  2: { apply wp_ret. split; [done|]. split; [done|]. apply Hj. unfold late. destruct (phase j); naive_solver. }
  apply wp_bind, wp_attempt.
  assert (forall c1, goes c c1 -> lookup_entry Target relative_name (disk_of c1) = Some s ->
    wp (let! _ := sync Target in let j := with_phase NewPublished j in let! _ := write_journal j in ret j)
      (fun j' c' => goes c c' /\ journal_sane (disk_of c') j' /\ published (disk_of c')) (fun _ c' => goes c c') c1) as Hw.
  { intros c1 Hg1 Hl. apply wp_bind. eapply wp_conseq; [apply wp_sync_target, Hg1|..]; cbn beta; [|intros e c2 Hg2; by eapply goes_trans].
    intros [] c2 [Hg2 Et]. assert (published (disk_of c2)) as Hp by (unfold published; rewrite Et; by repeat constructor).
    assert (journal_sane (disk_of c2) (with_phase NewPublished j)) as Hj2.
    { destruct Hj as [[Ho _] ? ? ?]. split; [by split|done..]. }
    apply wp_bind. eapply wp_conseq; [apply wp_write_journal; [apply Hg2|apply Hj2]|..]; cbn beta.
    - intros [] c3 Hk3. apply wp_ret. split; [eapply goes_trans; [exact Hg1|]; eapply goes_trans; [exact Hg2|by apply kept_goes]|].
      split; [by eapply kept_sane|]. by apply (published_target (disk_of c2)); [apply Hk3|].
    - intros e c3 Hk3. eapply goes_trans; [exact Hg1|]. eapply goes_trans; [exact Hg2|by apply kept_goes]. }
  eapply wp_conseq; [by apply wp_hard_link|..]; cbn beta.
  - intros [] c1 [Hg1 Hl]. by apply wp_bind, wp_ret, Hw.
  - intros e c1 Hk1. apply wp_bind. destruct e as [kd| | | | | | |]; try (apply wp_throw; by apply kept_goes).
    destruct kd; try (apply wp_throw; by apply kept_goes).
    eapply wp_looks; [apply Hk1|apply looks_named|intros e c' Hk; apply kept_goes; by eapply kept_trans|]. cbn beta.
    intros current c2 Hk2 Ed2 ->. pose proof (kept_trans _ _ _ Hk1 Hk2) as Hk. apply wp_liftr.
    case_bool_decide as Ec; cbn [negb fail_if]; [|by apply kept_goes]. apply Hw; [by apply kept_goes|]. by rewrite Ed2.
Qed.

(** The bytes that are compared are all the bytes of the file. *)
Lemma looks_verify (c : ctx S) : looks (verify relative_name (TaskModel.manifest d)) c (fun _ => exists i,
  lookup_entry Target relative_name (disk_of c) = Some i /\
  verified (take (Z.to_nat (saturating_add U64_MAX (Manifest.total_len (TaskModel.manifest d)) 1)) (cur (inode_at (disk_of c) i))) /\
  Z.of_nat (length (cur (inode_at (disk_of c) i))) = Manifest.total_len (TaskModel.manifest d)).
Proof.
  unfold verify. eapply looks_bind; [apply looks_open|]. cbn beta. intros i c1 [Ed1 _] [Hl _].
  eapply (looks_bind _ _ _ (fun n => n = Z.of_nat (length (cur (inode_at (disk_of c) i))))).
  { apply wp_disk; [by intros k c' _ Hs|]. intros c' Hm. rewrite Ed1. done. }
  intros n c2 [Ed2 _] ->. eapply (looks_bind _ _ _ (fun _ => Z.of_nat (length (cur (inode_at (disk_of c) i))) = Manifest.total_len (TaskModel.manifest d))).
  { apply looks_liftr; [by destruct (negb _)|]. intros u E%fail_if_Ok. apply negb_false_iff in E. by apply Z.eqb_eq in E. }
  intros u c3 [Ed3 _] Hlen. eapply looks_bind; [apply looks_read|]. cbn beta. intros bytes c4 _ ->. rewrite Ed3, Ed2, Ed1.
  set (bytes := take _ _).
  eapply (looks_bind _ _ _ (fun m => fst (Chunker.manifest_from_reader (Manifest.file_name (TaskModel.manifest d))
    (Manifest.chunk_size (TaskModel.manifest d)) [Data bytes]) = Ok m)).
  { apply looks_liftr; [|done]. pose proof (Chunker.manifest_from_reader_total_aux (Manifest.file_name (TaskModel.manifest d))
      (Manifest.chunk_size (TaskModel.manifest d)) [Data bytes]) as Ht. by destruct (Chunker.manifest_from_reader _ _ _) as [[| |] ?]. }
  intros m c5 _ Em. apply looks_liftr; [by destruct (negb _)|]. intros u' E%fail_if_Ok. apply negb_false_iff, bool_decide_eq_true in E.
  subst m. exists i. done.
Qed.

Lemma wp_call_store {A} (m : st S error A) c (Q : A -> ctx S -> Prop) (R : error -> ctx S -> Prop) :
  (forall x, (m x).1 <> Panic) -> (forall a c', same c c' -> Q a c') -> (forall e c', same c c' -> R e c') -> wp (call_store m) Q R c.
Proof.
  intros Hn HQ HR. apply wp_zoom. unfold wp. specialize (Hn (store c)). destruct (m (store c)) as [[a|e|] x]; [by apply HQ|by apply HR|done].
Qed.

(** Removing staging files, once the receipt was asked for. *)
Lemma wp_remove_all names c : Inv c -> requested c = true ->
  wp (remove_all names) (fun _ c' => goes c c') (fun _ c' => goes c c') c.
Proof.
  revert c. induction names as [|n names IH]; intros c Hi Hq; cbn [remove_all]; [by apply wp_ret|].
  destruct (255 <? str_len n); [by apply IH|]. apply wp_bind, wp_attempt. apply wp_disk.
  - intros k c' Hk Hs. pose proof (kept_same _ _ Hi Hs) as Hk'. destruct k; try (apply wp_throw; by apply kept_goes). done.
  - unfold lookup_entry. cbn [at_place]. destruct (entries (stage (disk_of c)) !! n) as [i|].
    + intros c' [Ed Eq]. assert (goes c c') as Hg.
      { split; [|done]. rewrite Ed, Eq. apply inv_stage; [done|]. pose proof (i_stage _ _ Hi) as G. inversion G as [|? ? [Hs Hj] _]. split.
        - destruct (decide (n = staged_name)) as [->|Hne]; [right; by rewrite lookup_delete_eq|]. by rewrite lookup_delete_ne.
        - intros k. destruct (decide (n = JOURNAL)) as [->|Hne]; [by rewrite lookup_delete_eq|]. rewrite lookup_delete_ne by done. apply Hj. }
      eapply wp_conseq; [apply IH; [apply Hg|by rewrite Eq]|..]; cbn beta; intros; by eapply goes_trans.
    + intros c' Hs. pose proof (kept_goes _ _ (kept_same _ _ Hi Hs)) as Hg.
      eapply wp_conseq; [apply IH; [apply Hg|destruct Hs as [_ ->]; done]|..]; cbn beta; intros; by eapply goes_trans.
Qed.

Lemma wp_cleanup_staging c : Inv c -> requested c = true ->
  wp (cleanup_staging r) (fun _ c' => goes c c') (fun _ c' => goes c c') c.
Proof.
  intros Hi Hq. unfold cleanup_staging. eapply wp_looks; [done|apply looks_touch|intros e c' Hk; by apply kept_goes|]. cbn beta.
  intros [] c1 Hk1 _ _. destruct (TaskModel.file_details r); [|apply wp_throw; by apply kept_goes].
  apply wp_bind. eapply wp_conseq; [apply wp_remove_all; [apply Hk1|destruct Hk1 as (_ & _ & ->); done]|..]; cbn beta.
  - intros [] c2 Hg2. apply wp_disk.
    + intros k c' _ Hs. eapply goes_trans; [by apply kept_goes|]. eapply goes_trans; [exact Hg2|]. apply kept_goes, kept_same; [apply Hg2|done].
    + intros c' [Ed Eq]. eapply goes_trans; [by apply kept_goes|]. eapply goes_trans; [exact Hg2|]. split; [|done].
      rewrite Ed, Eq. by apply inv_sync, Hg2.
  - intros e c2 Hg2. eapply goes_trans; [by apply kept_goes|done].
Qed.

Lemma looks_parent (c : ctx S) : looks (parent (TaskModel.f_relative_path d)) c (fun n => n = relative_name).
Proof.
  unfold parent. eapply looks_bind; [apply looks_touch|]. intros _ c1 _ _.
  apply (looks_bind _ _ _ (fun _ => True)); [apply looks_liftr; [apply validate_no_panic|done]|]. intros _ c2 _ _.
  eapply looks_bind; [apply looks_touch|]. intros _ c3 _ _. apply (looks_bind _ _ _ (fun _ => True)); [|intros _ c4 _ _; by apply looks_ret].
  unfold reject_alias. eapply looks_bind; [apply looks_touch|]. intros _ c4 _ _.
  apply (looks_bind _ _ _ (fun _ => True)); [by apply wp_gets|]. intros dk c5 _ _. cbv zeta.
  apply (looks_bind _ _ _ (fun _ => True)); [apply looks_liftr; [by destruct (_ <? _)|done]|]. intros _ c6 _ _.
  apply looks_liftr; [by destruct (existsb _ _)|done].
Qed.

(** Asking for the receipt: what it needs, what stays. *)
Lemma goes_request (c : ctx S) : Inv c -> published (disk_of c) -> verified (cur (inode_at d0 s)) ->
  inv (disk_of c) true.
Proof.
  intros [T G N C A] Hp Hv. split; try done. eapply Forall_impl; [exact G|]. intros g [Hs Hj]. split; [|done].
  destruct Hs as [Hs|[_ Hs]]; [by left|by right].
Qed.

Context (details : TaskModel.file_details r = Some d).
Context (total_range : Manifest.total_len (TaskModel.manifest d) <= U64_MAX).

(** The last steps, from the moment the receipt is asked for. *)
Lemma wp_receipt j now_ c : Inv c -> journal_sane (disk_of c) j -> published (disk_of c) -> verified (cur (inode_at d0 s)) ->
  wp (let! _ := request in
      let! _ := call_store (commit_receipt (TaskModel.task_id r) now_) in
      let! _ := attempt (write_journal (with_phase ReceiptCommitted j)) in
      let! _ := attempt (cleanup_staging r) in
      ret relative_name) (fun _ c' => Inv c' /\ requested c' = true) (fun _ c' => Inv c') c.
Proof.
  intros Hi Hj Hp Hv. apply wp_bind, wp_modify. set (c1 := mk_ctx _ _ _ _ _ _).
  assert (Inv c1) as Hi1 by by apply (goes_request c). apply wp_bind. apply wp_call_store; [intros x; apply receipt_no_panic| |].
  2: { intros e c' [Ed Eq]. by rewrite Ed, Eq. }
  intros [] c2 Hs2. pose proof (kept_same _ _ Hi1 Hs2) as Hk2. destruct Hs2 as [Ed2 Eq2].
  assert (forall c3, kept c1 c3 -> wp (let! _ := attempt (cleanup_staging r) in ret relative_name)
    (fun _ c' => Inv c' /\ requested c' = true) (fun _ c' => Inv c') c3) as Hcl.
  { intros c3 (Hi3 & _ & Hq3). apply wp_bind, wp_attempt. eapply wp_conseq; [by apply wp_cleanup_staging|..]; cbn beta.
    - intros [] c4 [Hi4 Hq4]. apply wp_ret. split; [done|]. by rewrite Hq4, Hq3.
    - intros e c4 [Hi4 Hq4]. apply wp_ret. split; [done|]. by rewrite Hq4, Hq3. }
  apply wp_bind, wp_attempt. eapply wp_conseq; [apply wp_write_journal; [apply Hk2|]|..]; cbn beta.
  - destruct Hj as [[Ho _] _ _ _]. split; [done|]. intros _. by rewrite Ed2.
  - intros [] c3 Hk3. apply Hcl. by eapply kept_trans.
  - intros e c3 Hk3. apply Hcl. by eapply kept_trans.
Qed.

Lemma settled_sync nd : settled nd -> mk_inode (cur nd) (cur nd) (regular nd) = nd.
Proof. unfold settled. destruct nd. cbn. by intros ->. Qed.

(** One attempt keeps the invariant; when it succeeds the receipt was asked for. *)
Lemma wp_file c : Inv c -> wp (file r staged_name) (fun _ c' => Inv c' /\ requested c' = true) (fun _ c' => Inv c') c.
Proof.
  intros Hi. unfold file. rewrite details.
  eapply wp_looks; [done|apply looks_parent|by intros e c' [? _]|]. cbn beta. intros n c1 Hk1 _ ->.
  eapply wp_looks; [apply Hk1|apply looks_open|by intros e c' [? _]|]. cbn beta. intros i c2 Hk2 Ed2 [Hl _].
  apply staged_is_s in Hl as ->; [|apply Hk1].
  eapply wp_looks; [apply Hk2|apply looks_identity|by intros e c' [? _]|]. cbn beta. intros i c3 Hk3 _ ->.
  apply (wp_looks _ _ (fun _ => True)); [apply Hk3| |by intros e c' [? _]|].
  { eapply looks_bind; [apply looks_touch|]. intros _ c' _ _. by apply wp_gets. }
  intros parent_ c4 Hk4 _ _. apply wp_bind. eapply wp_conseq; [apply wp_open_journal, Hk4|..]; cbn beta; [|by intros e c' [? _]].
  intros j c5 [Hk5 Hj5]. apply wp_bind. apply wp_call_store; [intros x; apply prepare_no_panic| |].
  2: { intros e c' [Ed Eq]. rewrite Ed, Eq. apply Hk5. }
  intros [] c6 Hs6. pose proof (kept_same _ _ (proj1 Hk5) Hs6) as Hk6. apply wp_bind.
  eapply wp_conseq; [apply wp_phase_prepared; [apply Hk6|by eapply kept_sane]|..]; cbn beta; [|by intros e c' [? _]].
  intros j7 c7 (Hg7 & Hj7 & Hph). apply wp_bind.
  eapply wp_conseq; [apply wp_check_backup; [apply Hg7|done]|..]; cbn beta; [|by intros e c' [? _]].
  intros [] c8 Hk8. apply wp_bind.
  eapply wp_conseq; [apply (wp_phase_backed_up j7); [apply Hk8|by eapply kept_sane|done]|..]; cbn beta; [|by intros e c' [? _]].
  intros j9 c9 (Hg9 & Hj9 & Hp9).
  eapply wp_looks; [apply Hg9|apply looks_named|by intros e c' [? _]|]. cbn beta. intros current c10 Hk10 Ed10 ->.
  apply wp_bind, wp_liftr. case_bool_decide as Ecur; cbn [negb fail_if]; [|apply Hk10].
  eapply wp_looks; [apply Hk10|apply looks_open|by intros e c' [? _]|]. cbn beta. rewrite Ed10. intros i c11 Hk11 Ed11 [Hl _].
  assert (i = s) as -> by congruence. apply wp_bind. apply wp_disk; [intros k c' _ Hs; by apply (kept_same c11 c'); [apply Hk11|]|].
  intros c12 [Ed12 Eq12]. assert (inode_at (disk_of c11) s = inode_at d0 s) as Es by (apply (i_content _ _ (proj1 Hk11)); done).
  rewrite Es in Ed12.
  assert (kept c11 c12) as Hk12.
  { split; [|by rewrite Ed12, Eq12]. rewrite Ed12, Eq12, (settled_sync _ staged_settled).
    apply inv_inode; [apply Hk11|by right|by intros _ _ _]. }
  eapply wp_looks; [apply Hk12|apply looks_verify|by intros e c' [? _]|]. cbn beta. intros [] c13 Hk13 _ (i & Hi13 & Hv & Hlen).
  assert (target (disk_of c12) = target (disk_of c9)) as Et12.
  { destruct Hk12 as (_ & E12 & _). by rewrite E12, Ed11. }
  assert (i = s) as -> by (unfold lookup_entry in Hi13, Ecur; cbn in Hi13, Ecur; congruence).
  assert (inode_at (disk_of c12) s = inode_at d0 s) as Es12 by (apply (i_content _ _ (proj1 Hk12)); done). rewrite Es12 in Hv, Hlen.
  rewrite take_ge in Hv by (unfold saturating_add; lia).
  eapply wp_looks; [apply Hk13|apply looks_named|by intros e c' [? _]|]. cbn beta. intros current c14 Hk14 _ _.
  apply wp_bind, wp_liftr. destruct (negb _); cbn [fail_if]; [apply Hk14|].
  apply wp_bind. unfold wp at 1, system_time_unix_ms. cbn [fst snd]. set (c15 := mk_ctx _ _ _ _ _ _).
  destruct (_ || _); [apply Hk14|].
  pose proof (kept_trans _ _ _ Hk13 Hk14) as Hk.
  assert (kept c9 c14) as Hk9.
  { split; [apply Hk14|]. split; [destruct Hk as (_ & -> & _); done|].
    destruct Hk as (_ & _ & ->), Hk12 as (_ & _ & ->), Hk11 as (_ & _ & ->), Hk10 as (_ & _ & ->). done. }
  apply wp_receipt; [exact (proj1 Hk14)|exact (kept_sane c9 c14 _ Hk9 Hj9)|exact (published_target _ _ (proj1 (proj2 Hk9)) Hp9)|done].
Qed.

(** ** Attempts, restarts and power failures *)

Lemma torn_settled x y : torn x x y -> y = x.
Proof. intros Ht. apply list_eq. intros p. by destruct (Ht p). Qed.

Lemma inv_crash dk dk' q : inv dk q -> crash dk dk' -> inv dk' q.
Proof.
  intros [T G N C A] [Kt Ktp Ks Ksp Kc Kse Kr Kti Kn].
  assert (forall i, settled (inode_at dk i) -> inode_at dk' i = inode_at dk i) as Hold.
  { intros i Hs. pose proof (Kc i) as Ht. unfold settled in Hs. rewrite Hs in Ht. apply torn_settled in Ht.
    pose proof (Kse i) as Hse. pose proof (Kr i) as Hre. destruct (inode_at dk' i), (inode_at dk i). cbn in *. congruence. }
  assert (published dk -> published dk') as Hpub.
  { unfold published. rewrite Ktp. intros Hp. constructor; [|constructor]. by apply (proj1 (Forall_forall _ _) Hp). }
  split.
  - rewrite Ktp. constructor; [|constructor]. by apply (proj1 (Forall_forall _ _) T).
  - rewrite Ksp. constructor; [|constructor]. destruct (proj1 (Forall_forall _ _) G _ Ks) as [Hs Hj]. split; [done|].
    intros i Hi. destruct (Hj i Hi) as (Hlt & Hse & Hd). rewrite (Hold i Hse), Kn. split; [done|]. split; [done|].
    intros j Ej. destruct (Hd j Ej) as [Ho Hl]. split; [done|]. auto.
  - by rewrite Kn.
  - intros i Hi Hs. rewrite <- (C i Hi Hs). apply Hold. by rewrite (C i Hi Hs).
  - intros Hq. destruct (A Hq). auto.
Qed.

(** The life of a publication: attempts under any failures, and restarts with or
    without a loss of power, after which the store may be in any state. *)
Inductive life (c0 : ctx S) : ctx S -> Prop :=
  | life_start : life c0 c0
  | life_attempt c : life c0 c -> life c0 (file r staged_name c).2
  | life_restart c dk fs ck rg st_ : life c0 c -> dk = disk_of c \/ crash (disk_of c) dk ->
      life c0 (mk_ctx dk fs ck rg st_ (requested c)).

Lemma life_inv c0 c : Inv c0 -> life c0 c -> Inv c.
Proof.
  intros Hi. induction 1 as [|c Hl IH|c dk fs ck rg st_ Hl IH Hd]; [done|..].
  - pose proof (wp_file c IH) as Hw. unfold wp in Hw. destruct (file r staged_name c) as [[n|e|] c']; [by destruct Hw|done|done].
  - cbn. destruct Hd as [->|Hc]; [done|by eapply inv_crash].
Qed.

End Safety.

(** The disk when the publication begins. *)
Record begins (staged_name : name) (s : Z) (dk : disk) : Prop := {
  bg_staged : entries (stage dk) !! staged_name = Some s;
  bg_settled : settled (inode_at dk s);
  bg_synced : past (stage dk) = [] /\ past (target dk) = [];
  bg_old : s < next_ino dk;
  bg_no_journal : entries (stage dk) !! JOURNAL = None;
  bg_name : staged_name <> JOURNAL /\ forall x, staged_name <> journal_temp x;
}.

Lemma begins_inv `{JournalCodec} `{Blake3} d staged_name s d0 : begins staged_name s d0 -> inv d staged_name s d0 d0 false.
Proof.
  intros [Hs Hse [Hps Hpt] Ho Hj Hn]. split; try done.
  - rewrite Hpt. repeat constructor.
  - rewrite Hps. constructor; [|constructor]. split; [by left|]. intros i. by rewrite Hj.
Qed.

(** C4: Wherever an attempt fails, the process ends or the power goes, and however
    often the publication is tried again: every file that stood in the target
    directory is still there with its content, under its name or, for the one that
    is replaced, under a backup name that was free; the name holds the old file,
    nothing, or the complete new one; no attempt panics.  When the receipt is asked
    for, and whenever an attempt succeeds, the new file is on the disk for good with
    the content of the manifest. *)
Theorem publication_safe {S : Type} `{PublicationStore S} `{Blake3} `{Hex} `{NameKey} `{JournalLaws}
    (r : TaskModel.TaskRecord) (d : TaskModel.FileTaskDetails) (staged_name : name) (s : Z) (c0 c : ctx S) :
  (forall id (x : S), (prepare_publication id x).1 <> Panic) ->
  (forall id now (x : S), (commit_receipt id now x).1 <> Panic) ->
  TaskModel.file_details r = Some d -> Manifest.total_len (TaskModel.manifest d) <= U64_MAX ->
  begins staged_name s (disk_of c0) -> requested c0 = false -> life r staged_name c0 c ->
  let n := default [] (last (split RelativePath.is_slash (TaskModel.f_relative_path d))) in
  let t0 := entries (target (disk_of c0)) in
  let t := entries (target (disk_of c)) in
  (forall m i, t0 !! m = Some i -> i <> s ->
     t !! m = Some i \/ m = n /\ exists b, is_backup n b /\ t0 !! b = None /\ t !! b = Some i) /\
  (forall i, i < next_ino (disk_of c0) -> settled (inode_at (disk_of c0) i) -> inode_at (disk_of c) i = inode_at (disk_of c0) i) /\
  (t !! n = t0 !! n \/ t !! n = None \/ t !! n = Some s) /\
  (requested c = true -> Forall (fun g => g !! n = Some s) (t :: past (target (disk_of c))) /\
     verified d (cur (inode_at (disk_of c0) s))) /\
  match file r staged_name c with
  | (Ok _, c') => requested c' = true
  | (Err _, _) => True
  | (Panic, _) => False
  end.
Proof.
  intros Hp Hr Hd Ht Hb Hq Hl. cbv zeta.
  assert (inv d staged_name s (disk_of c0) (disk_of c) (requested c)) as Hi.
  { apply (life_inv Hp Hr r d staged_name s (disk_of c0)) with (c0 := c0); try apply Hb; try done. rewrite Hq. by apply begins_inv. }
  assert (fits (default [] (last (split RelativePath.is_slash (TaskModel.f_relative_path d)))) s (entries (target (disk_of c0)))
    (entries (target (disk_of c)))) as Hf by (pose proof (i_target _ _ _ _ _ _ Hi) as T; by inversion T).
  split; [|split; [|split; [|split]]].
  - intros m i Hm Hne. by apply (fits_keeps _ s _ _ m i Hf).
  - apply (i_content _ _ _ _ _ _ Hi).
  - destruct Hf as [|old b Ho Hs Hk Hn|old b Ho Hs Hk Hn|Hn]; [by left|right; left|right; right; by rewrite lookup_insert_eq..].
    rewrite lookup_insert_ne by congruence. apply lookup_delete_eq.
  - intros Hreq. destruct (i_asked _ _ _ _ _ _ Hi Hreq). done.
  - pose proof (wp_file Hp Hr r d staged_name s (disk_of c0) (bg_old _ _ _ Hb) (bg_settled _ _ _ Hb)
      (proj1 (bg_name _ _ _ Hb)) (proj2 (bg_name _ _ _ Hb)) Hd Ht c Hi) as Hw. unfold wp in Hw.
    destruct (file r staged_name c) as [[a|e|] c']; by try destruct Hw.
Qed.
End PublishProof.
