(* ===== verification/Calendar.v ===== *)
(** * The dates of backup names (src/node/core/publish.rs, [timestamp])

    The day arithmetic gives the Gregorian date, and a timestamp has the form that a
    journal is checked for. *)
From Stdlib Require Import ZArith Lia.
From stdpp Require Import prelude gmap strings.
From S2P Require Import Prelude Publish.

#[local] Open Scope Z_scope.

Module Calendar.
Import Publish.

(** ** The reference: counting days *)

Definition is_leap (y : Z) : bool := (y mod 4 =? 0) && (negb (y mod 100 =? 0) || (y mod 400 =? 0)).
Definition days_in (y m : Z) : Z :=
  if m =? 2 then (if is_leap y then 29 else 28)
  else if (m =? 4) || (m =? 6) || (m =? 9) || (m =? 11) then 30 else 31.
Definition next_day (date : Z * Z * Z) : Z * Z * Z :=
  let '(y, m, d) := date in
  if d <? days_in y m then (y, m, d + 1)
  else if m <? 12 then (y, m + 1, 1)
  else (y + 1, 1, 1).

Definition shift (k : Z) (date : Z * Z * Z) : Z * Z * Z := let '(y, m, d) := date in (y + 400 * k, m, d).

Lemma leap_shift y k : is_leap (y + 400 * k) = is_leap y.
Proof.
  unfold is_leap. replace (y + 400 * k) with (y + 100 * k * 4) at 1 by lia. rewrite Z_mod_plus_full.
  replace (y + 400 * k) with (y + 4 * k * 100) at 1 by lia. rewrite Z_mod_plus_full.
  replace (y + 400 * k) with (y + k * 400) by lia. by rewrite Z_mod_plus_full.
Qed.

Lemma next_shift k date : next_day (shift k date) = shift k (next_day date).
Proof.
  destruct date as [[y m] d]. unfold next_day, shift, days_in. rewrite leap_shift.
  destruct (d <? _); [done|]. destruct (m <? 12); [done|]. f_equal. f_equal. lia.
Qed.

(** ** One era of 400 years *)

(** The date of day [doe] of the era that starts on 0000-03-01. *)
Definition era_date (doe : Z) : Z * Z * Z := civil (doe - 719468).

(** Its parts: the year, counted from March, and the month and day of a day of it. *)
Definition year_of_era (doe : Z) : Z := (doe - doe / 1460 + doe / 36524 - doe / 146096) / 365.
Definition month_day (doy : Z) : Z * Z :=
  let mp := (5 * doy + 2) / 153 in
  (mp + (if mp <? 10 then 3 else -9), doy - (153 * mp + 2) / 5 + 1).
Definition date_at (y doy : Z) : Z * Z * Z :=
  let (m, d) := month_day doy in (y + (if m <=? 2 then 1 else 0), m, d).

Lemma civil_era n : civil n = shift ((n + 719468) / 146097) (era_date ((n + 719468) mod 146097)).
Proof.
  unfold era_date, civil, shift. replace ((n + 719468) mod 146097 - 719468 + 719468) with ((n + 719468) mod 146097) by lia.
  set (z := n + 719468). pose proof (Z.mod_pos_bound z 146097 eq_refl) as Hb.
  rewrite (Z.div_small (z mod 146097) 146097) by lia. rewrite Z.mul_0_l, Z.sub_0_r.
  replace (z - z / 146097 * 146097) with (z mod 146097) by (pose proof (Z.div_mod z 146097 ltac:(lia)); lia).
  set (doe := z mod 146097). f_equal. f_equal. lia.
Qed.

Fixpoint check_from (p : Z -> bool) (n : nat) (z : Z) : bool :=
  match n with
  | O => true
  | S n' => if p z then check_from p n' (z + 1) else false
  end.

Lemma check_from_ok p n z : check_from p n z = true -> forall x, z <= x < z + Z.of_nat n -> p x = true.
Proof.
  revert z. induction n as [|n IH]; intros z Hc x Hx; [lia|]. cbn [check_from] in Hc. destruct (p z) eqn:E; [|done].
  destruct (Z.eq_dec x z) as [->|]; [done|]. apply (IH (z + 1) Hc). lia.
Qed.

(** The first day of a year of the era, and its length: February belongs to the
    year before. *)
Definition start (y : Z) : Z := 365 * y + y / 4 - y / 100.
Definition len (y : Z) : Z := if is_leap (y + 1) then 366 else 365.

Lemma year_mono a b : a <= b -> b < 146096 -> 0 <= a -> year_of_era a <= year_of_era b.
Proof.
  intros Hab Hb Ha. unfold year_of_era. apply Z.div_le_mono; [lia|]. rewrite (Z.div_small a 146096), (Z.div_small b 146096) by lia.
  pose proof (Z.div_le_mono a b 36524 ltac:(lia) Hab). enough (b / 1460 - a / 1460 <= b - a) by lia.
  pose proof (Z.div_mod a 1460 ltac:(lia)). pose proof (Z.div_mod b 1460 ltac:(lia)).
  pose proof (Z.mod_pos_bound a 1460 eq_refl). pose proof (Z.mod_pos_bound b 1460 eq_refl). lia.
Qed.

(** The first and the last day of each year belong to it, and the years follow each other. *)
Definition year_ok (y : Z) : bool :=
  (year_of_era (start y) =? y) && (year_of_era (Z.min (start y + len y - 1) 146095) =? y) &&
  (start y + len y =? (if y =? 399 then 146097 else start (y + 1))) && (0 <=? start y).

Lemma year_checked y : 0 <= y < 400 -> year_ok y = true.
Proof. intros Hy. assert (check_from year_ok 400 0 = true) as Hc by (vm_compute; reflexivity). apply (check_from_ok _ _ _ Hc). lia. Qed.

Lemma year_unique y doy : 0 <= y < 400 -> 0 <= doy < len y -> year_of_era (start y + doy) = y /\ 0 <= start y /\
  start y + len y = (if y =? 399 then 146097 else start (y + 1)).
Proof.
  intros Hy Hd. pose proof (year_checked y Hy) as Hc. unfold year_ok in Hc. rewrite !andb_true_iff, !Z.eqb_eq in Hc.
  destruct Hc as [[[H1 H2] H3] H4%Z.leb_le]. split; [|done].
  destruct (Z.eq_dec (start y + doy) 146096) as [E|E]; [rewrite E|].
  - destruct (Z.eqb_spec y 399) as [->|]; [reflexivity|]. exfalso.
    assert (start (y + 1) <= 146096) by (unfold start; pose proof (Z.div_le_upper_bound (y + 1) 4 100 ltac:(lia) ltac:(lia));
      pose proof (Z.div_pos (y + 1) 100 ltac:(lia) ltac:(lia)); lia). lia.
  - assert (start y + len y <= 146097) as Hle.
    { rewrite H3. destruct (y =? 399) eqn:Ey; [lia|]. apply Z.eqb_neq in Ey. unfold start.
      pose proof (Z.div_le_upper_bound (y + 1) 4 100 ltac:(lia) ltac:(lia)). pose proof (Z.div_pos (y + 1) 100 ltac:(lia) ltac:(lia)). lia. }
    pose proof (year_mono (start y) (start y + doy) ltac:(lia) ltac:(lia) ltac:(lia)).
    pose proof (year_mono (start y + doy) (Z.min (start y + len y - 1) 146095) ltac:(lia) ltac:(lia) ltac:(lia)). lia.
Qed.

Lemma era_date_at y doy : 0 <= y < 400 -> 0 <= doy < len y -> 0 <= start y + doy < 146097 ->
  era_date (start y + doy) = date_at y doy.
Proof.
  intros Hy Hd Hr. destruct (year_unique y doy Hy Hd) as (Eu & _). unfold era_date, civil, date_at, month_day.
  replace (start y + doy - 719468 + 719468) with (start y + doy) by lia.
  rewrite (Z.div_small (start y + doy) 146097) by lia. rewrite Z.mul_0_l, Z.sub_0_r. fold (year_of_era (start y + doy)).
  rewrite Eu. fold (start y). replace (start y + doy - start y) with doy by lia. rewrite Z.add_0_r. done.
Qed.

(** Each day of the era is a day of a year of it. *)
Lemma day_of_era doe : 0 <= doe < 146097 -> exists y doy, 0 <= y < 400 /\ 0 <= doy < len y /\ doe = start y + doy.
Proof.
  intros [H0 Hlt]. revert Hlt. pattern doe. apply natlike_ind; [| |done]; clear doe H0.
  - intros _. exists 0, 0. split; [lia|]. split; [|reflexivity]. vm_compute. split; [discriminate|reflexivity].
  - intros doe H0 IH Hlt. destruct IH as (y & doy & Hy & Hd & E); [lia|].
    destruct (year_unique y doy Hy Hd) as (_ & _ & En). destruct (Z.eq_dec (doy + 1) (len y)) as [El|El].
    + destruct (Z.eqb_spec y 399) as [->|]; [lia|]. exists (y + 1), 0. split; [lia|].
      split; [unfold len; destruct (is_leap _); lia|]. lia.
    + exists y, (doy + 1). split; [lia|]. split; [lia|]. lia.
Qed.

(** Within a year the dates follow each other, by computation for both lengths. *)
Definition next_md (leap : bool) (md : Z * Z) : Z * Z :=
  let (m, d) := md in
  let last := if m =? 2 then (if leap then 29 else 28) else if (m =? 4) || (m =? 6) || (m =? 9) || (m =? 11) then 30 else 31 in
  if d <? last then (m, d + 1) else if m <? 12 then (m + 1, 1) else (1, 1).
Definition pair_eqb (a b : Z * Z) : bool := (a.1 =? b.1) && (a.2 =? b.2).
Definition doy_ok (doy : Z) : bool :=
  let (m, d) := month_day doy in
  (1 <=? m) && (m <=? 12) && (1 <=? d) && (d <=? 31) && (doy - 306 <? 0) && (3 <=? m) ||
  (1 <=? m) && (m <=? 2) && (1 <=? d) && (d <=? 31) && (306 <=? doy).
Definition step_ok (doy : Z) : bool :=
  doy_ok doy &&
  ((365 <=? doy) || pair_eqb (next_md true (month_day doy)) (month_day (doy + 1))) &&
  ((364 <=? doy) || pair_eqb (next_md false (month_day doy)) (month_day (doy + 1))).

Lemma step_checked doy : 0 <= doy < 366 -> step_ok doy = true.
Proof. intros Hd. assert (check_from step_ok 366 0 = true) as Hc by (vm_compute; reflexivity). apply (check_from_ok _ _ _ Hc). lia. Qed.

Lemma month_day_range doy : 0 <= doy < 366 -> let (m, d) := month_day doy in
  1 <= m <= 12 /\ 1 <= d <= 31 /\ (m <= 2 <-> 306 <= doy).
Proof.
  intros Hd. pose proof (step_checked doy Hd) as Hc. unfold step_ok, doy_ok in Hc. destruct (month_day doy) as [m d].
  rewrite !andb_true_iff, !orb_true_iff, !andb_true_iff in Hc. lia.
Qed.

Lemma next_day_md y m d : next_day (y, m, d) =
  let (m', d') := next_md (is_leap y) (m, d) in (y + (if (m' =? 1) && (d' =? 1) && (12 <=? m) then 1 else 0), m', d').
Proof.
  unfold next_day, next_md, days_in. set (last := if m =? 2 then _ else _). destruct (Z.ltb_spec d last).
  - destruct (Z.eqb_spec m 1); cbn [andb]; [subst|rewrite Z.add_0_r; done].
    destruct (Z.eqb_spec (d + 1) 1); cbn [andb]; rewrite ?Z.add_0_r; try done.
  - destruct (Z.ltb_spec m 12).
    + destruct (Z.eqb_spec (m + 1) 1); cbn [andb Z.eqb]; rewrite ?Z.add_0_r; [|done].
      destruct (Z.leb_spec 12 m); [lia|]. cbn. by rewrite Z.add_0_r.
    + cbn. destruct (Z.leb_spec 12 m); [done|lia].
Qed.

(** The day after day [doy] of year [y]. *)
Lemma next_in_year y doy : 0 <= doy -> doy + 1 < len y -> next_day (date_at y doy) = date_at y (doy + 1).
Proof.
  intros Hd Hl. assert (doy + 1 < 366) as Hl' by (unfold len in Hl; destruct (is_leap _); lia).
  pose proof (step_checked doy ltac:(lia)) as Hc. pose proof (month_day_range doy ltac:(lia)) as Hr.
  pose proof (month_day_range (doy + 1) ltac:(lia)) as Hr'. unfold date_at.
  destruct (month_day doy) as [m d] eqn:Em. destruct (month_day (doy + 1)) as [m' d'] eqn:Em'.
  unfold step_ok in Hc. rewrite Em, Em', !andb_true_iff, !orb_true_iff in Hc. destruct Hc as [[_ Ht] Hf].
  assert (next_md (is_leap (y + (if m <=? 2 then 1 else 0))) (m, d) = (m', d')) as En.
  { unfold len in Hl. destruct (Z.leb_spec m 2).
    - destruct (is_leap (y + 1)).
      + destruct Ht as [Ht|Ht]; [lia|]. unfold pair_eqb in Ht. rewrite andb_true_iff, !Z.eqb_eq in Ht. destruct (next_md true (m, d)). cbn in Ht. by destruct Ht as [-> ->].
      + destruct Hf as [Hf|Hf]; [lia|]. unfold pair_eqb in Hf. rewrite andb_true_iff, !Z.eqb_eq in Hf. destruct (next_md false (m, d)). cbn in Hf. by destruct Hf as [-> ->].
    - assert (next_md (is_leap (y + 0)) (m, d) = next_md true (m, d)) as ->.
      { unfold next_md. destruct (Z.eqb_spec m 2); [lia|done]. }
      destruct Ht as [Ht|Ht]; [lia|]. unfold pair_eqb in Ht. rewrite andb_true_iff, !Z.eqb_eq in Ht. destruct (next_md true (m, d)). cbn in Ht. by destruct Ht as [-> ->]. }
  rewrite next_day_md, En. f_equal. f_equal.
  destruct (Z.eq_dec doy 305) as [->|Hne].
  { vm_compute in Em, Em'. injection Em as <- <-. injection Em' as <- <-. cbn. lia. }
  destruct (Z.leb_spec m 2), (Z.leb_spec m' 2), (Z.eqb_spec m' 1), (Z.eqb_spec d' 1), (Z.leb_spec 12 m); cbn [andb]; lia.
Qed.

Lemma next_year y doy : 0 <= y < 400 -> doy + 1 = len y -> next_day (date_at y doy) = date_at (y + 1) 0.
Proof.
  intros Hy Hd. unfold len in Hd. destruct (is_leap (y + 1)) eqn:El.
  - assert (doy = 365) as -> by lia. change (date_at y 365) with (y + 1, 2, 29). change (date_at (y + 1) 0) with (y + 1 + 0, 3, 1). rewrite Z.add_0_r.
    unfold next_day, days_in. cbn -[is_leap]. by rewrite El.
  - assert (doy = 364) as -> by lia. change (date_at y 364) with (y + 1, 2, 28). change (date_at (y + 1) 0) with (y + 1 + 0, 3, 1). rewrite Z.add_0_r.
    unfold next_day, days_in. cbn -[is_leap]. by rewrite El.
Qed.

(** ** All days *)

Lemma civil_next n : civil (n + 1) = next_day (civil n).
Proof.
  rewrite (civil_era n), next_shift, (civil_era (n + 1)). set (z := n + 719468).
  replace (n + 1 + 719468) with (z + 1) by lia. pose proof (Z.mod_pos_bound z 146097 eq_refl) as Hb.
  pose proof (Z.div_mod z 146097 ltac:(lia)) as Hz. destruct (day_of_era _ Hb) as (y & doy & Hy & Hd & E).
  destruct (year_unique y doy Hy Hd) as (_ & Hs & En). rewrite E, era_date_at by (done || lia).
  destruct (Z.eq_dec (z mod 146097) 146096) as [El|El].
  - assert ((z + 1) / 146097 = z / 146097 + 1) as -> by (symmetry; apply (Z.div_unique_pos _ _ _ 0); lia).
    assert ((z + 1) mod 146097 = 0) as -> by (symmetry; apply (Z.mod_unique_pos _ _ (z / 146097 + 1)); lia).
    assert (y = 399 /\ doy + 1 = len y) as [-> Ed].
    { destruct (Z.eqb_spec y 399); [lia|]. exfalso. unfold start in *.
      pose proof (Z.div_le_upper_bound (y + 1) 4 100 ltac:(lia) ltac:(lia)). pose proof (Z.div_pos (y + 1) 100 ltac:(lia) ltac:(lia)). lia. }
    rewrite (next_year 399) by done. change (era_date 0) with (date_at 0 0). unfold shift, date_at. cbn. f_equal. f_equal. lia.
  - assert ((z + 1) / 146097 = z / 146097) as -> by (symmetry; apply (Z.div_unique_pos _ _ _ (z mod 146097 + 1)); lia).
    assert ((z + 1) mod 146097 = z mod 146097 + 1) as -> by (symmetry; apply (Z.mod_unique_pos _ _ (z / 146097)); lia).
    f_equal. rewrite E. destruct (Z.eq_dec (doy + 1) (len y)) as [Ed|Ed].
    + destruct (Z.eqb_spec y 399) as [->|]; [lia|]. rewrite next_year by done.
      replace (start y + doy + 1) with (start (y + 1) + 0) by lia. apply era_date_at; [lia| |lia].
      unfold len. destruct (is_leap _); lia.
    + rewrite next_in_year by lia. replace (start y + doy + 1) with (start y + (doy + 1)) by lia. apply era_date_at; lia.
Qed.

(** The date of a day is the one found by counting the days one by one from the
    first of January 1970 in the Gregorian calendar. *)
Theorem civil_is_gregorian (n : nat) : civil (Z.of_nat n) = Nat.iter n next_day (1970, 1, 1).
Proof.
  induction n as [|n IH]; [reflexivity|]. change (Nat.iter (S n) next_day (1970, 1, 1)) with (next_day (Nat.iter n next_day (1970, 1, 1))).
  rewrite <- IH, <- civil_next. f_equal. lia.
Qed.

(** ** The form of a timestamp *)

(** Before the year 10000. *)
Definition in_era (ms : Z) : Prop := 0 <= ms < 253402300800000.

Lemma civil_range days : 0 <= days < 2932897 -> let '(y, m, d) := civil days in 0 <= y <= 9999 /\ 1 <= m <= 12 /\ 1 <= d <= 31.
Proof.
  intros Hdays. rewrite civil_era. set (z := days + 719468). pose proof (Z.mod_pos_bound z 146097 eq_refl) as Hb.
  pose proof (Z.div_mod z 146097 ltac:(lia)) as Hz. destruct (day_of_era _ Hb) as (y & doy & Hy & Hd & E).
  destruct (year_unique y doy Hy Hd) as (_ & Hs & En). rewrite E, era_date_at by (done || lia).
  assert (0 <= z / 146097 <= 24) as He by (split; [apply Z.div_pos; lia|apply Z.lt_succ_r, Z.div_lt_upper_bound; lia]).
  assert (len y <= 366) as Hl by (unfold len; destruct (is_leap _); lia).
  pose proof (month_day_range doy ltac:(lia)) as Hr. unfold date_at, shift. destruct (month_day doy) as [m d].
  destruct (Z.leb_spec m 2); [|lia]. split; [|lia].
  destruct (Z.eq_dec y 399) as [->|]; [|lia]. assert (start 399 = 145731) as Es by reflexivity. lia.
Qed.

Lemma decimal_digits_are fuel n : 0 <= n -> Forall (fun c => is_ascii_digit c = true) (decimal_digits fuel n).
Proof.
  revert n. induction fuel as [|fuel IH]; intros n Hn; cbn [decimal_digits]; [constructor|]. destruct (Z.ltb_spec n 10).
  - repeat constructor. unfold is_ascii_digit. lia.
  - apply Forall_app. split; [apply IH, Z.div_pos; lia|]. repeat constructor. unfold is_ascii_digit.
    pose proof (Z.mod_pos_bound n 10 eq_refl). lia.
Qed.

Lemma decimal_digits_bound fuel n (w : nat) : 0 <= n < 10 ^ Z.of_nat w -> (0 < w)%nat -> (length (decimal_digits fuel n) <= w)%nat.
Proof.
  revert n w. induction fuel as [|fuel IH]; intros n w Hn Hw; cbn [decimal_digits]; [cbn; lia|].
  destruct (Z.ltb_spec n 10); [cbn; lia|]. rewrite length_app. cbn.
  destruct w as [|[|w]]; [lia|cbn in Hn; lia|]. assert (length (decimal_digits fuel (n / 10)) <= S w)%nat; [|lia].
  apply IH; [|lia]. split; [apply Z.div_pos; lia|]. apply Z.div_lt_upper_bound; [lia|].
  replace (10 * 10 ^ Z.of_nat (S w)) with (10 ^ Z.of_nat (S (S w))); [lia|]. rewrite (Nat2Z.inj_succ (S w)), Z.pow_succ_r; lia.
Qed.

Lemma padded_form (w : nat) n : 0 <= n < 10 ^ Z.of_nat w -> (0 < w)%nat ->
  length (padded w n) = w /\ Forall (fun c => is_ascii_digit c = true) (padded w n).
Proof.
  intros Hn Hw. unfold padded. pose proof (decimal_digits_bound (S (Z.to_nat (Z.log2 n))) n w Hn Hw). fold (decimal n) in H.
  rewrite length_app, repeat_length. split; [lia|]. apply Forall_app. split.
  - apply Forall_forall. intros x Hx. apply list_elem_of_In, repeat_spec in Hx as ->. done.
  - apply decimal_digits_are. lia.
Qed.

Abbreviation digit := (fun c => is_ascii_digit c = true).

Lemma timestamp_form ms : in_era ms -> exists a b, timestamp ms = a ++ [84] ++ b ++ [90] /\
  length a = 8%nat /\ length b = 9%nat /\ Forall digit a /\ Forall digit b.
Proof.
  intros Hms. unfold in_era in Hms. unfold timestamp. set (secs := ms / 1000).
  assert (0 <= secs < 253402300800) as Hs by (split; [apply Z.div_pos; lia|apply Z.div_lt_upper_bound; lia]).
  assert (0 <= secs / 86400 < 2932897) as Hd by (split; [apply Z.div_pos; lia|apply Z.div_lt_upper_bound; lia]).
  pose proof (civil_range _ Hd) as Hr. destruct (civil (secs / 86400)) as [[y m] d]. destruct Hr as (Hy & Hm & Hday).
  pose proof (Z.mod_pos_bound secs 86400 eq_refl) as Ht. set (time := secs mod 86400) in *.
  assert (0 <= time / 3600 < 24) by (split; [apply Z.div_pos; lia|apply Z.div_lt_upper_bound; lia]).
  pose proof (Z.mod_pos_bound (time / 60) 60 eq_refl). pose proof (Z.mod_pos_bound time 60 eq_refl).
  pose proof (Z.mod_pos_bound ms 1000 eq_refl).
  destruct (padded_form 4 y ltac:(cbn; lia) ltac:(lia)) as [L1 F1]. destruct (padded_form 2 m ltac:(cbn; lia) ltac:(lia)) as [L2 F2].
  destruct (padded_form 2 d ltac:(cbn; lia) ltac:(lia)) as [L3 F3].
  destruct (padded_form 2 (time / 3600) ltac:(cbn; lia) ltac:(lia)) as [L4 F4].
  destruct (padded_form 2 ((time / 60) mod 60) ltac:(cbn; lia) ltac:(lia)) as [L5 F5].
  destruct (padded_form 2 (time mod 60) ltac:(cbn; lia) ltac:(lia)) as [L6 F6].
  destruct (padded_form 3 (ms mod 1000) ltac:(cbn; lia) ltac:(lia)) as [L7 F7].
  exists (padded 4 y ++ padded 2 m ++ padded 2 d),
    (padded 2 (time / 3600) ++ padded 2 ((time / 60) mod 60) ++ padded 2 (time mod 60) ++ padded 3 (ms mod 1000)).
  split; [by rewrite <- !app_assoc|]. rewrite !length_app, !Forall_app, L1, L2, L3, L4, L5, L6, L7. done.
Qed.

Lemma digit_ascii l : Forall digit l -> Forall (fun c => c < 128) l.
Proof. intros Hf. eapply Forall_impl; [exact Hf|]. intros c. cbn. unfold is_ascii_digit. lia. Qed.

(** A timestamp passes the checks of the journal. *)
Lemma timestamp_bytes ms : in_era ms -> let bytes := utf8 (timestamp ms) in
  length bytes = 19%nat /\ bytes !! 8%nat = Some 84 /\ bytes !! 18%nat = Some 90 /\
  forallb (fun ic => bool_decide (ic.1 = 8%nat) || bool_decide (ic.1 = 18%nat) || is_ascii_digit ic.2) (imap pair bytes) = true.
Proof.
  intros Hms. destruct (timestamp_form ms Hms) as (a & b & -> & La & Lb & Fa & Fb). cbv zeta.
  rewrite utf8_ascii by (rewrite !Forall_app; split; [by apply digit_ascii|split; [repeat constructor; lia|split; [by apply digit_ascii|repeat constructor; lia]]]).
  do 9 (destruct a as [|? a]; try discriminate La). do 10 (destruct b as [|? b]; try discriminate Lb).
  split; [done|]. split; [done|]. split; [done|].
  cbn [app imap forallb fst snd]. unfold compose. cbn [fst snd].
  repeat match goal with Hf : Forall _ (_ :: _) |- _ => apply Forall_cons in Hf as [? ?] end. cbn beta in *.
  repeat match goal with Hf : is_ascii_digit _ = true |- _ => rewrite Hf; clear Hf end. rewrite ?orb_true_r. reflexivity.
Qed.

Lemma timestamp_no_slash ms : in_era ms -> Forall (fun c => c <> 47) (timestamp ms).
Proof.
  intros Hms. destruct (timestamp_form ms Hms) as (a & b & -> & _ & _ & Fa & Fb).
  assert (forall l, Forall digit l -> Forall (fun c => c <> 47) l) as Hd.
  { intros l Hf. eapply Forall_impl; [exact Hf|]. intros c. cbn. unfold is_ascii_digit. lia. }
  rewrite !Forall_app. split; [by apply Hd|]. split; [repeat constructor; lia|]. split; [by apply Hd|repeat constructor; lia].
Qed.

End Calendar.
