(* ===== verification/PublishResume.v ===== *)
(** * Publishing a received file: it can be finished

    After any number of failed attempts, whatever stopped them, an attempt that
    meets no failure succeeds: the journal always says how far the target directory
    is.  (Without a loss of power; what is safe then is in PublishProof.v.) *)
From Stdlib Require Import ZArith Lia.
From stdpp Require Import prelude gmap strings.
From S2P Require Import Prelude Io Manifest Message State FileSystem RelativePath Chunker Storage TaskModel Publish PublishProof Calendar.

#[local] Open Scope Z_scope.

Module PublishResume.
Import Publish PublishProof Calendar.

Section Resume.
Context {S : Type} `{PublicationStore S} `{Blake3} `{Hex} `{NameKey} `{JournalLaws}.
Context (r : TaskModel.TaskRecord) (d : TaskModel.FileTaskDetails) (staged_name : name) (s : Z) (d0 : disk).
Abbreviation n := (default [] (last (split RelativePath.is_slash (TaskModel.f_relative_path d)))).
Abbreviation t0 := (entries (target d0)).

(** The file to move aside. *)
Definition old0 : option Z := match t0 !! n with Some i => if i =? s then None else Some i | None => None end.

(** A journal of this publication. *)
Record ours (j : Journal) : Prop := {
  ou_fixed : version j = 1 /\ task j = TaskModel.task_id r /\ peer j = TaskModel.peer_id r /\
    relative j = TaskModel.f_relative_path d /\
    root_hash j = Manifest.to_hex (Manifest.root_hash (TaskModel.manifest d)) /\ parent_id j = target_ino d0 /\ staged j = s;
  ou_old : old j = old0;
  ou_stamp : exists ms, in_era ms /\ stamp j = timestamp ms;
  ou_backup : match old0 with
              | Some _ => exists b, backup j = Some b /\ backup_name n (stamp j) (suffix j) = Ok b
              | None => backup j = None
              end;
  ou_suffix : 0 <= suffix j <= 10000;
  ou_taken : forall k b, 0 <= k < suffix j -> backup_name n (stamp j) k = Ok b -> is_Some (t0 !! b);
}.

(** The target directory with the old file moved aside, and with the new one. *)
Definition moved_dir (j : Journal) : gmap name Z :=
  match old0, backup j with Some o, Some b => <[b := o]> (delete n t0) | _, _ => t0 end.
Definition placed_dir (j : Journal) : gmap name Z := <[n := s]> (moved_dir j).
Definition free_backup (j : Journal) : Prop := forall o b, old0 = Some o -> backup j = Some b -> t0 !! b = None.

Definition at_phase (j : Journal) (t : gmap name Z) : Prop :=
  match phase j with
  | Prepared => t = t0 \/ free_backup j /\ t = moved_dir j
  | OldBackedUp => free_backup j /\ (t = moved_dir j \/ t = placed_dir j)
  | NewPublished | ReceiptCommitted => free_backup j /\ t = placed_dir j
  end.

(** What holds between two calls; [oj] is the journal on the disk, [t] the target. *)
Record base (c : ctx S) (oj : option Journal) (t : gmap name Z) : Prop := {
  ba_clock : Forall in_era (clock c);
  ba_target : entries (target (disk_of c)) = t;
  ba_ino : target_ino (disk_of c) = target_ino d0;
  ba_staged : entries (stage (disk_of c)) !! staged_name = Some s;
  ba_next : next_ino d0 <= next_ino (disk_of c);
  ba_inodes : forall i, i < next_ino d0 -> inode_at (disk_of c) i = inode_at d0 i;
  ba_journal : match oj with
    | None => entries (stage (disk_of c)) !! JOURNAL = None
    | Some j => exists i, entries (stage (disk_of c)) !! JOURNAL = Some i /\ next_ino d0 <= i < next_ino (disk_of c) /\
        regular (inode_at (disk_of c) i) = true /\ Z.of_nat (length (cur (inode_at (disk_of c) i))) <= 65536 /\
        journal_from_slice (cur (inode_at (disk_of c) i)) = Some j
    end;
}.

Definition consistent (oj : option Journal) (t : gmap name Z) : Prop :=
  match oj with None => t = t0 | Some j => ours j /\ at_phase j t end.

Definition con (c : ctx S) : Prop := exists oj t, base c oj t /\ consistent oj t.

(** No call fails, and the temporary names that will be drawn are free. *)
Definition clean (c : ctx S) : Prop :=
  faults c = [] /\ forall x, x ∈ 0 :: rng c -> entries (stage (disk_of c)) !! journal_temp x = None.

(** [m] fails only when something failed below it, and leaves a resumable disk then. *)
Definition runs {A} (m : st (ctx S) error A) (c : ctx S) (Q : A -> ctx S -> Prop) : Prop :=
  wp m (fun a c' => (clean c -> clean c') /\ Q a c') (fun _ c' => con c' /\ ~ clean c) c.

Lemma runs_bind {A B} (m : st (ctx S) error A) (f : A -> st (ctx S) error B) c Q Q' : runs m c Q ->
  (forall a c', Q a c' -> runs (f a) c' Q') -> runs (sbind m f) c Q'.
Proof.
  intros Hm Hf. apply wp_bind. eapply wp_conseq; [exact Hm|..]; cbn beta; [|done].
  intros a c' [Hc Ha]. eapply wp_conseq; [exact (Hf a c' Ha)|..]; cbn beta; naive_solver.
Qed.

Lemma runs_ret {A} (a : A) c (Q : A -> ctx S -> Prop) : Q a c -> runs (ret a) c Q.
Proof. by intros. Qed.
Lemma runs_liftr {A} (o : result A) a c (Q : A -> ctx S -> Prop) : o = Ok a -> Q a c -> runs (liftr o) c Q.
Proof. by intros ->. Qed.
Lemma runs_conseq {A} (m : st (ctx S) error A) c (Q Q' : A -> ctx S -> Prop) : runs m c Q -> (forall a c', Q a c' -> Q' a c') -> runs m c Q'.
Proof. intros Hm HQ. eapply wp_conseq; [exact Hm|..]; cbn beta; naive_solver. Qed.

(** After a call that changed nothing. *)
Definition unmoved (c c' : ctx S) : Prop := disk_of c' = disk_of c /\ (Forall in_era (clock c) -> Forall in_era (clock c')).

Lemma base_unmoved c c' oj t : unmoved c c' -> base c oj t -> base c' oj t.
Proof. intros [Ed Ec] []. split; rewrite ?Ed; auto. Qed.
Lemma con_unmoved c c' : unmoved c c' -> con c -> con c'.
Proof. intros Hu (oj & t & Hb & Hc). exists oj, t. split; [by eapply base_unmoved|done]. Qed.
Lemma unmoved_trans c1 c2 c3 : unmoved c1 c2 -> unmoved c2 c3 -> unmoved c1 c3.
Proof. intros [E1 C1] [E2 C2]. split; [congruence|auto]. Qed.

(** A call: it fails by a fault, or acts. *)
Lemma wp_call {A} (f : disk -> outcome io_kind (A * disk)) (Q : A -> ctx S -> Prop) (R : error -> ctx S -> Prop) c :
  (forall k c', genuine k = true -> unmoved c c' -> ~ clean c -> R (Io k) c') ->
  match f (disk_of c) with
  | Ok (a, dk) => Q a (set_disk dk c)
  | Err k => R (Io k) (set_disk (disk_of c) c)
  | Panic => False
  end -> wp (syscall f) Q R c.
Proof.
  intros HR HQ. unfold wp, syscall. destruct (faults c) as [|[ft|] fs] eqn:E.
  - by destruct (f (disk_of c)) as [[a dk]|k|].
  - apply HR; [apply failure_genuine|done|]. intros [Ef _]. congruence.
  - by destruct (f (disk_of c)) as [[a dk]|k|].
Qed.

Lemma clean_set dk c : (forall x, x ∈ 0 :: rng c -> entries (stage (disk_of c)) !! journal_temp x = None ->
  entries (stage dk) !! journal_temp x = None) -> clean c -> clean (set_disk dk c).
Proof. intros Hs [Hf Ht]. split; [cbn; by rewrite Hf|]. intros x Hx. by apply Hs, Ht. Qed.

Lemma unmoved_set c : unmoved c (set_disk (disk_of c) c).
Proof. done. Qed.

Lemma runs_query {A} (f : disk -> outcome io_kind (A * disk)) a c : con c -> f (disk_of c) = Ok (a, disk_of c) ->
  runs (syscall f) c (fun a' c' => unmoved c c' /\ a' = a).
Proof.
  intros Hc E. apply wp_call; [intros k c' _ Hu Hn; split; [by eapply con_unmoved|done]|]. rewrite E.
  split; [|split; [apply unmoved_set|done]]. by apply clean_set.
Qed.

Lemma runs_touch c : con c -> runs touch c (fun _ c' => unmoved c c').
Proof. intros Hc. eapply runs_conseq; [by apply (runs_query _ tt)|]. by intros a c' [? _]. Qed.

(** Opening an entry; [regular_at] says that what is there is a regular file. *)
Definition regular_at (p : place) (m : name) (dk : disk) : Prop := forall i, lookup_entry p m dk = Some i -> regular (inode_at dk i) = true.

Lemma wp_open_regular p m c : con c -> regular_at p m (disk_of c) -> wp (open_entry p m)
  (fun i c' => unmoved c c' /\ (clean c -> clean c') /\ lookup_entry p m (disk_of c) = Some i)
  (fun e c' => unmoved c c' /\ (clean c -> clean c' /\ e = Io NotFound) /\ (e = Io NotFound -> lookup_entry p m (disk_of c) = None)) c.
Proof.
  intros Hc Hr. apply wp_bind. apply wp_call.
  - intros k c' Hk Hu Hn. split; [done|]. split; [done|]. intros [= ->]. done.
  - destruct (lookup_entry p m (disk_of c)) as [i|] eqn:E.
    2: { split; [apply unmoved_set|]. split; [|done]. intros Hcl. split; [by apply clean_set|done]. }
    set (c1 := set_disk (disk_of c) c). assert (clean c -> clean c1) as Hcl by by apply clean_set.
    apply wp_bind. apply wp_call.
    + intros k c' Hk Hu Hn. split; [by eapply unmoved_trans; [apply unmoved_set|]|]. split; [naive_solver|]. intros [= ->]. done.
    + set (c2 := set_disk (disk_of c1) c1). assert (clean c -> clean c2) as Hcl2 by (intros Hx; apply clean_set; [done|by apply Hcl]).
      apply wp_bind, wp_gets, wp_bind, wp_liftr. cbn. rewrite (Hr i E). cbn. apply wp_ret. done.
Qed.

Lemma runs_open p m i c : con c -> regular_at p m (disk_of c) -> lookup_entry p m (disk_of c) = Some i ->
  runs (open_entry p m) c (fun i' c' => unmoved c c' /\ i' = i).
Proof.
  intros Hc Hr E. eapply wp_conseq; [by apply wp_open_regular|..]; cbn beta.
  - intros i' c' (Hu & Hcl & E'). split; [done|]. split; [done|congruence].
  - intros e c' (Hu & Hcl & En). split; [by eapply con_unmoved|]. intros Hx. destruct (Hcl Hx) as [_ Ee]. rewrite (En Ee) in E. done.
Qed.

Lemma runs_identity i c : con c -> runs (identity i) c (fun i' c' => unmoved c c' /\ i' = i).
Proof. intros Hc. eapply runs_bind; [by apply runs_touch|]. cbn beta. intros [] c' Hu. by apply runs_ret. Qed.

Lemma runs_named p m c : con c -> regular_at p m (disk_of c) ->
  runs (named_identity p m) c (fun o c' => unmoved c c' /\ o = lookup_entry p m (disk_of c)).
Proof.
  intros Hc Hr. apply wp_bind, wp_attempt. eapply wp_conseq; [by apply wp_open_regular|..]; cbn beta.
  - intros i c1 (Hu & Hcl & E). eapply wp_conseq; [eapply (runs_bind _ _ _ _ (fun o c' => unmoved c1 c' /\ o = Some i)); [apply runs_identity; by eapply con_unmoved|]|..]; cbn beta.
    + intros a c2 [Hu2 ->]. by apply runs_ret.
    + intros a c2 (Hcl2 & Hu2 & ->). split; [auto|]. split; [by eapply unmoved_trans|done].
    + intros e c2 [Hx Hn]. split; [done|auto].
  - intros e c1 (Hu & Hcl & En).
    assert (e <> Io NotFound -> con c1 /\ ~ clean c) as Hbad by (intros Hne; split; [by eapply con_unmoved|intros Hx; by destruct (Hcl Hx)]).
    destruct e as [k| | | | | | |]; try (apply wp_throw, Hbad; done). destruct k; try (apply wp_throw, Hbad; done).
    apply wp_ret. split; [intros Hx; by destruct (Hcl Hx)|]. split; [done|]. symmetry. by apply En.
Qed.

(** ** What a resumable publication assumes *)

Record resumable : Prop := {
  re_details : TaskModel.file_details r = Some d;
  re_total : Manifest.total_len (TaskModel.manifest d) <= U64_MAX;
  re_verified : verified d (cur (inode_at d0 s));
  re_length : Z.of_nat (length (cur (inode_at d0 s))) = Manifest.total_len (TaskModel.manifest d);
  re_begins : begins staged_name s d0;
  re_path : RelativePath.validate_relative_path (TaskModel.f_relative_path d) = Ok tt;
  re_staged : regular (inode_at d0 s) = true;
  re_regular : forall m i, t0 !! m = Some i -> i < next_ino d0 /\ regular (inode_at d0 i) = true;
  re_single : forall m o, old0 = Some o -> t0 !! m = Some o -> m = n;
  re_size : Z.of_nat (size t0) <= 65534;
  re_alias : forall m, m <> n -> is_Some (t0 !! m) \/ is_backup n m -> name_key m <> name_key n;
  re_names : forall ms k, old0 <> None -> in_era ms -> 0 <= k <= 10000 -> exists b, backup_name n (timestamp ms) k = Ok b;
  re_free : forall ms, old0 <> None -> in_era ms -> exists k b, 0 <= k <= 10000 /\ backup_name n (timestamp ms) k = Ok b /\ t0 !! b = None;
  re_codec : forall j, ours j -> exists bs, journal_to_vec j = Some bs /\ Z.of_nat (length bs) <= 65536;
  re_prepare : forall id (x : S), (prepare_publication id x).1 = Ok tt;
  re_receipt : forall id now (x : S), (commit_receipt id now x).1 = Ok tt;
}.

Context (hyp : resumable).

Lemma old0_name o : old0 = Some o -> t0 !! n = Some o /\ o <> s.
Proof. unfold old0. destruct (t0 !! n) as [i|]; [|done]. destruct (Z.eqb_spec i s); [done|]. by intros [= <-]. Qed.

Lemma staged_bound : s < next_ino d0.
Proof. apply (bg_old _ _ _ (re_begins hyp)). Qed.

(** Every entry of the target is known. *)
Lemma moved_entry j m i : moved_dir j !! m = Some i ->
  t0 !! m = Some i \/ exists o, old0 = Some o /\ i = o /\ backup j = Some m.
Proof.
  unfold moved_dir. destruct old0 as [o|]; [|by left]. destruct (backup j) as [b|]; [|by left].
  rewrite lookup_insert. destruct (decide (b = m)) as [->|Hne]; [intros [= <-]; right; eauto|].
  intros Hm. left. by apply lookup_delete_Some in Hm as [_ Hm].
Qed.

Lemma ours_backup j b : ours j -> backup j = Some b -> is_backup n b /\ backup_name n (stamp j) (suffix j) = Ok b.
Proof.
  intros Hj Eb. pose proof (ou_backup _ Hj) as Hb. destruct old0; [|congruence]. destruct Hb as (b' & E & Hn).
  assert (b' = b) as -> by congruence. split; [|done]. by exists (stamp j), (suffix j).
Qed.

Lemma entry_known oj t m i : consistent oj t -> t !! m = Some i ->
  i < next_ino d0 /\ regular (inode_at d0 i) = true /\ (m = n \/ is_Some (t0 !! m) \/ is_backup n m).
Proof.
  intros Hc Hm. assert (forall j, ours j -> moved_dir j !! m = Some i ->
    i < next_ino d0 /\ regular (inode_at d0 i) = true /\ (m = n \/ is_Some (t0 !! m) \/ is_backup n m)) as Hmoved.
  { intros j Hj [Ht|(o & Eo & -> & Eb)]%moved_entry.
    - destruct (re_regular hyp m i Ht). split; [done|]. split; [done|]. right. left. eauto.
    - destruct (old0_name o Eo) as [Hn _]. destruct (re_regular hyp n o Hn). split; [done|]. split; [done|]. right. right.
      by apply (ours_backup j). }
  assert (forall j, ours j -> placed_dir j !! m = Some i ->
    i < next_ino d0 /\ regular (inode_at d0 i) = true /\ (m = n \/ is_Some (t0 !! m) \/ is_backup n m)) as Hplaced.
  { intros j Hj. unfold placed_dir. rewrite lookup_insert. destruct (decide (n = m)) as [<-|]; [|by apply Hmoved].
    intros [= <-]. split; [apply staged_bound|]. split; [apply (re_staged hyp)|by left]. }
  assert (t = t0 -> i < next_ino d0 /\ regular (inode_at d0 i) = true /\ (m = n \/ is_Some (t0 !! m) \/ is_backup n m)) as H00.
  { intros ->. destruct (re_regular hyp m i Hm). split; [done|]. split; [done|]. right. left. eauto. }
  destruct oj as [j|]; [|by apply H00]. destruct Hc as [Hj Hp]. unfold at_phase in Hp.
  destruct (phase j).
  - destruct Hp as [->|[_ ->]]; [by apply H00|by apply (Hmoved j)].
  - destruct Hp as [_ [->| ->]]; [by apply (Hmoved j)|by apply (Hplaced j)].
  - destruct Hp as [_ ->]. by apply (Hplaced j).
  - destruct Hp as [_ ->]. by apply (Hplaced j).
Qed.

Lemma moved_size j : (size (moved_dir j) <= size t0 + 1)%nat.
Proof.
  unfold moved_dir. destruct old0; [|lia]. destruct (backup j) as [b|]; [|lia].
  rewrite map_size_insert. pose proof (map_subseteq_size _ _ (delete_subseteq t0 n)). destruct (delete n t0 !! b); cbn; lia.
Qed.

Lemma size_known oj t : consistent oj t -> (size t <= size t0 + 2)%nat.
Proof.
  assert (forall j, (size (placed_dir j) <= size t0 + 2)%nat) as Hp.
  { intros j. unfold placed_dir. rewrite map_size_insert. pose proof (moved_size j). destruct (moved_dir j !! n); cbn; lia. }
  intros Hc. destruct oj as [j|]; [|rewrite Hc; lia]. destruct Hc as [_ Hc]. unfold at_phase in Hc.
  pose proof (Hp j). pose proof (moved_size j). destruct (phase j); destruct_and?; destruct_or?; subst; destruct_and?; subst; try lia.
Qed.

Lemma regular_target c oj t m : base c oj t -> consistent oj t -> regular_at Target m (disk_of c).
Proof.
  intros Hb Hc i Hl. unfold lookup_entry in Hl. cbn in Hl. rewrite (ba_target _ _ _ Hb) in Hl.
  destruct (entry_known _ _ _ _ Hc Hl) as (Hlt & Hreg & _). by rewrite (ba_inodes _ _ _ Hb).
Qed.

Lemma base_con c oj t : base c oj t -> consistent oj t -> con c.
Proof. intros. by exists oj, t. Qed.

(** ** The parts of [file] *)

Lemma runs_parent c oj t : base c oj t -> consistent oj t -> runs (parent (TaskModel.f_relative_path d)) c (fun m c' => unmoved c c' /\ m = n).
Proof.
  intros Hb Hcon. pose proof (base_con _ _ _ Hb Hcon) as Hc. unfold parent.
  eapply runs_bind; [by apply runs_touch|]. cbn beta. intros [] c1 Hu1. pose proof (con_unmoved _ _ Hu1 Hc) as Hc1.
  apply (runs_bind _ _ _ (fun _ c' => c' = c1)); [by eapply runs_liftr; [apply (re_path hyp)|]|]. intros _ ? ->.
  eapply runs_bind; [by apply runs_touch|]. cbn beta. intros [] c2 Hu2. pose proof (con_unmoved _ _ Hu2 Hc1) as Hc2.
  pose proof (unmoved_trans _ _ _ Hu1 Hu2) as Hu. cbv zeta.
  apply (runs_bind _ _ _ (fun _ c' => unmoved c c')); [|intros _ c3 Hu3; by apply runs_ret]. unfold reject_alias.
  eapply runs_bind; [by apply runs_touch|]. cbn beta. intros [] c3 Hu3. pose proof (unmoved_trans _ _ _ Hu Hu3) as Hu'.
  apply (runs_bind _ _ _ (fun dk c' => c' = c3 /\ dk = disk_of c)); [apply wp_gets; split; [done|]; split; [done|]; apply Hu'|].
  intros dk ? [-> ->]. cbv zeta. cbn [at_place]. rewrite (ba_target _ _ _ Hb).
  apply (runs_bind _ _ _ (fun _ c' => c' = c3)).
  - apply (runs_liftr _ tt); [|done]. apply fail_if_Ok, Z.ltb_ge. rewrite length_fmap, length_map_to_list.
    pose proof (size_known _ _ Hcon). pose proof (re_size hyp). lia.
  - intros _ ? ->. apply (runs_liftr _ tt); [|done]. apply fail_if_Ok. apply RelativePath.existsb_false, Forall_forall.
    intros m ([m' i] & -> & Hin)%list_elem_of_fmap. cbn. apply elem_of_map_to_list in Hin.
    destruct (entry_known _ _ _ _ Hcon Hin) as (_ & _ & Hk). case_bool_decide as Em; [done|]. cbn.
    apply bool_decide_eq_false. apply (re_alias hyp); [done|]. naive_solver.
Qed.

(** ** Backup names *)

Lemma rsplit_dot_spec (l a b : list Z) : Storage.rsplit_dot l = Some (a, b) -> l = a ++ 46 :: b.
Proof.
  revert a b. induction l as [|c l IH]; intros a b; cbn; [done|]. destruct (Storage.rsplit_dot l) as [[x y]|].
  - intros [= <- <-]. cbn. f_equal. by apply IH.
  - destruct (Z.eqb_spec c 46) as [->|]; [|done]. by intros [= <- <-].
Qed.

Lemma stem_ext_spec m : match stem_ext m with (stem, Some e) => m = stem ++ 46 :: e | (stem, None) => m = stem end.
Proof.
  unfold stem_ext. destruct (Storage.rsplit_dot m) as [[a b]|] eqn:E; [|done]. case_bool_decide; [done|]. by apply rsplit_dot_spec.
Qed.

Lemma backup_name_no_slash m stmp k b : backup_name m stmp k = Ok b -> 0 <= k -> Forall (fun c => c <> 47) m -> Forall (fun c => c <> 47) stmp ->
  RelativePath.validate_relative_path b = Ok tt /\ existsb RelativePath.is_slash b = false /\ b <> m.
Proof.
  unfold backup_name. pose proof (stem_ext_spec m) as Hm. destruct (stem_ext m) as [stem ext]. intros E Hk Hns Hst.
  apply obind_Ok in E as ([] & Ev & [= <-]). split; [exact Ev|]. split.
  - apply RelativePath.existsb_false. apply Forall_impl with (P := fun c => c <> 47); [|intros c Hc; unfold RelativePath.is_slash; lia].
    assert (Forall (fun c => c <> 47) stem /\ match ext with Some e => Forall (fun c => c <> 47) e | None => True end) as [Hs He].
    { destruct ext as [e|]; rewrite Hm in Hns; [|done]. apply Forall_app in Hns as [? He]. split; [done|]. by inversion He. }
    apply Forall_app_2; [done|]. constructor; [lia|]. apply Forall_app_2; [done|]. apply Forall_app_2.
    + destruct (k =? 0); [constructor|]. constructor; [lia|].
      eapply Forall_impl; [apply decimal_digits_are; lia|]. intros c. unfold is_ascii_digit. lia.
    + destruct ext; constructor; [lia|done].
  - intros Heq. apply (f_equal length) in Heq. destruct ext; rewrite Hm in Heq; rewrite !length_app in Heq; cbn in Heq; rewrite !length_app in Heq; cbn in Heq; lia.
Qed.

Lemma name_no_slash : Forall (fun c => c <> 47) n.
Proof.
  pose proof (Manifest.split_pieces RelativePath.is_slash (TaskModel.f_relative_path d)) as Hp.
  destruct (last (split RelativePath.is_slash (TaskModel.f_relative_path d))) as [x|] eqn:E; [|constructor].
  apply last_Some_elem_of in E. rewrite Forall_forall in Hp. eapply Forall_impl; [exact (Hp x E)|]. unfold RelativePath.is_slash. cbn. lia.
Qed.

Lemma ours_backup_facts j b : ours j -> backup j = Some b ->
  RelativePath.validate_relative_path b = Ok tt /\ existsb RelativePath.is_slash b = false /\ b <> n.
Proof.
  intros Hj Eb. destruct (ours_backup j b Hj Eb) as [_ Hn]. destruct (ou_stamp _ Hj) as (ms & Hms & Es).
  apply (backup_name_no_slash _ _ _ _ Hn); [apply (ou_suffix _ Hj)|apply name_no_slash|]. rewrite Es. by apply timestamp_no_slash.
Qed.

(** The code accepts the journals of this publication. *)
Lemma ours_matches j : ours j -> journal_matches r d s (target_ino d0) j = true.
Proof.
  intros Hj. unfold journal_matches. destruct (ou_fixed _ Hj) as (-> & -> & -> & -> & -> & -> & ->).
  destruct (ou_stamp _ Hj) as (ms & Hms & ->). destruct (timestamp_bytes ms Hms) as (L & B8 & B18 & F). cbv zeta in L, B8, B18, F.
  rewrite !Z.eqb_refl. rewrite !bool_decide_eq_true_2; try done.
  - cbn [andb]. pose proof (ou_suffix _ Hj). rewrite F. destruct (Z.leb_spec (suffix j) 10000); [done|lia].
  - rewrite (ou_old _ Hj). pose proof (ou_backup _ Hj) as Hb. destruct old0; [destruct Hb as (b & -> & _)|rewrite Hb]; split; intros [? ?]; eauto; done.
Qed.

Lemma ours_backup_matches j : ours j -> backup_matches n j = Ok tt.
Proof.
  intros Hj. unfold backup_matches. destruct (backup j) as [b|] eqn:Eb; [|done].
  destruct (ours_backup_facts j b Hj Eb) as (-> & -> & _). cbn [obind]. destruct (ours_backup j b Hj Eb) as [_ ->]. cbn [obind].
  by rewrite bool_decide_eq_true_2.
Qed.

(** ** Reading the journal *)

Lemma regular_journal c oj t : base c oj t -> regular_at Stage JOURNAL (disk_of c).
Proof.
  intros Hb i Hl. unfold lookup_entry, at_place in Hl. pose proof (ba_journal _ _ _ Hb) as Hj. destruct oj as [j|]; [|congruence].
  destruct Hj as (k & Hl2 & _ & Hr & _). assert (i = k) as -> by (apply (inj Some); by rewrite <- Hl, <- Hl2). done.
Qed.

Lemma runs_attempt_open {B} p m c (f : Z -> st (ctx S) error B) (g : st (ctx S) error B) Q : con c -> regular_at p m (disk_of c) ->
  match lookup_entry p m (disk_of c) with
  | Some i => forall c', unmoved c c' -> runs (f i) c' Q
  | None => forall c', unmoved c c' -> runs g c' Q
  end ->
  runs (let! opened := attempt (open_entry p m) in
        match opened with Ok i => f i | Err (Io NotFound) => g | Err e => throw e | Panic => panic end) c Q.
Proof.
  intros Hc Hr HQ. apply wp_bind, wp_attempt. eapply wp_conseq; [by apply wp_open_regular|..]; cbn beta.
  - intros i c1 (Hu & Hcl & E). rewrite E in HQ. eapply wp_conseq; [by apply (HQ c1)|..]; cbn beta; naive_solver.
  - intros e c1 (Hu & Hcl & En).
    assert (e <> Io NotFound -> con c1 /\ ~ clean c) as Hbad by (intros Hne; split; [by eapply con_unmoved|intros Hx; by destruct (Hcl Hx)]).
    destruct e as [k| | | | | | |]; try (apply wp_throw, Hbad; done). destruct k; try (apply wp_throw, Hbad; done).
    rewrite (En eq_refl) in HQ. eapply wp_conseq; [by apply (HQ c1)|..]; cbn beta.
    + intros a c2 [Hx Ha]. split; [|done]. intros Hy. by apply Hx, Hcl.
    + intros e c2 [Hx Hn]. split; [done|]. intros Hy. by apply Hn, Hcl.
Qed.

Lemma runs_read_journal c oj t : base c oj t -> consistent oj t -> runs read_journal c (fun o c' => unmoved c c' /\ o = oj).
Proof.
  intros Hb Hcon. pose proof (base_con _ _ _ Hb Hcon) as Hc. apply runs_attempt_open; [done|by eapply regular_journal|].
  unfold lookup_entry. cbn [at_place]. pose proof (ba_journal _ _ _ Hb) as Hj. destruct oj as [j|].
  - destruct Hj as (i & -> & _ & _ & Hlen & Hdec). intros c1 Hu1. pose proof (con_unmoved _ _ Hu1 Hc) as Hc1.
    eapply runs_bind; [by apply (runs_query _ (take (Z.to_nat 65537) (cur (inode_at (disk_of c1) i))))|]. cbn beta.
    intros bytes c2 [Hu2 ->]. pose proof (unmoved_trans _ _ _ Hu1 Hu2) as Hu. rewrite (proj1 Hu1), take_ge by lia.
    apply (runs_bind _ _ _ (fun _ c' => c' = c2)); [apply (runs_liftr _ tt); [|done]; apply fail_if_Ok; lia|]. intros [] ? ->.
    apply (runs_bind _ _ _ (fun x c' => c' = c2 /\ x = j)); [apply (runs_liftr _ j); [by rewrite Hdec|done]|]. intros x ? [-> ->].
    by apply runs_ret.
  - rewrite Hj. intros c1 Hu1. by apply runs_ret.
Qed.

(** ** Writing the journal *)

Lemma runs_step {A} (f : disk -> outcome io_kind (A * disk)) a dk c (Q : A -> ctx S -> Prop) : con c ->
  f (disk_of c) = Ok (a, dk) -> (forall x, x ∈ 0 :: rng c -> entries (stage (disk_of c)) !! journal_temp x = None ->
    entries (stage dk) !! journal_temp x = None) ->
  Q a (set_disk dk c) -> runs (syscall f) c Q.
Proof.
  intros Hc E Hx HQ. apply wp_call; [intros k c' _ Hu Hn; split; [by eapply con_unmoved|done]|]. rewrite E.
  split; [by apply clean_set|done].
Qed.

(** What one knows of the disk while the new journal is written to inode [id]. *)
Record staged_in (c : ctx S) (oj : option Journal) (t : gmap name Z) (temp : name) (id : Z) (c' : ctx S) : Prop := {
  si_base : base c' oj t;
  si_faults : faults c = [] -> faults c' = [];
  si_rng : rng c' = tail (rng c);
  si_entries : entries (stage (disk_of c')) = <[temp := id]> (entries (stage (disk_of c)));
  si_id : next_ino d0 <= id < next_ino (disk_of c');
  si_other : entries (stage (disk_of c)) !! JOURNAL <> Some id;
}.

Lemma journal_other c oj t : base c oj t -> entries (stage (disk_of c)) !! JOURNAL <> Some (next_ino (disk_of c)).
Proof.
  intros Hb E. pose proof (ba_journal _ _ _ Hb) as Hj. destruct oj; [|congruence]. destruct Hj as (i & E' & ? & _).
  rewrite E in E'. injection E' as <-. lia.
Qed.

Lemma staged_create c oj t x : base c oj t -> staged_in c oj t (journal_temp x) (next_ino (disk_of c))
  (set_disk (create_entry Stage (journal_temp x) (disk_of c)) (mk_ctx (disk_of c) (faults c) (clock c) (tail (rng c)) (store c) (requested c))).
Proof.
  intros Hb. pose proof (journal_other _ _ _ Hb) as Ho. destruct Hb as [Bc Bt Bi Bs Bn Bo Bj].
  assert (forall i, i < next_ino (disk_of c) -> inode_at (create_entry Stage (journal_temp x) (disk_of c)) i = inode_at (disk_of c) i) as Hold.
  { intros i Hi. unfold inode_at, create_entry. cbn. by rewrite lookup_insert_ne by lia. }
  split; [split|..]; cbn; try done.
  - rewrite lookup_insert_ne; [done|]. intros E. by apply (proj2 (bg_name _ _ _ (re_begins hyp)) x).
  - lia.
  - intros i Hi. rewrite Hold by lia. by apply Bo.
  - rewrite lookup_insert_ne by apply temp_not_journal. destruct oj as [j|]; [|done]. destruct Bj as (i & ? & ? & ?). exists i.
    rewrite Hold by lia. split; [done|]. split; [lia|done].
  - by intros ->.
  - lia.
Qed.

Lemma staged_write c oj t temp id c1 nd : staged_in c oj t temp id c1 -> temp <> JOURNAL ->
  staged_in c oj t temp id (set_disk (set_inode id nd (disk_of c1)) c1).
Proof.
  intros [[Bc Bt Bi Bs Bn Bo Bj] F Rg E I O] Ht. split; [split|..]; cbn; try done.
  - intros i Hi. rewrite inode_at_set. destruct (decide (id = i)) as [->|]; [lia|by apply Bo].
  - destruct oj as [j|]; [|done]. destruct Bj as (i & Ei & ? & ?). exists i. rewrite inode_at_set.
    destruct (decide (id = i)) as [->|]; [|done]. rewrite E, lookup_insert_ne in Ei by done. done.
  - intros Hf. by rewrite (F Hf).
Qed.

Lemma staged_rename c oj t x id c1 j : staged_in c oj t (journal_temp x) id c1 -> regular (inode_at (disk_of c1) id) = true ->
  Z.of_nat (length (cur (inode_at (disk_of c1) id))) <= 65536 -> journal_from_slice (cur (inode_at (disk_of c1) id)) = Some j ->
  base (set_disk (set_entries Stage (<[JOURNAL := id]> (delete (journal_temp x) (entries (stage (disk_of c1))))) (disk_of c1)) c1) (Some j) t.
Proof.
  intros [[Bc Bt Bi Bs Bn Bo Bj] F Rg E I O] Hr Hl Hd. destruct (bg_name _ _ _ (re_begins hyp)) as [Hn Hx]. split; cbn; try done.
  - rewrite lookup_insert_ne by done. rewrite lookup_delete_ne; [done|]. intros Et. by apply (Hx x).
  - exists id. rewrite lookup_insert_eq. done.
Qed.

Lemma base_sync c p oj t : base c oj t -> base (set_disk (set_place p (mk_dir (entries (at_place p (disk_of c))) []) (disk_of c)) c) oj t.
Proof. intros [Bc Bt Bi Bs Bn Bo Bj]. destruct p; by split. Qed.

Lemma wp_raw {A} (f : disk -> outcome io_kind (A * disk)) (Q : A -> ctx S -> Prop) (R : error -> ctx S -> Prop) c :
  (forall k c', unmoved c c' -> faults c <> [] -> R (Io k) c') ->
  match f (disk_of c) with
  | Ok (a, dk) => Q a (set_disk dk c)
  | Err k => R (Io k) (set_disk (disk_of c) c)
  | Panic => False
  end -> wp (syscall f) Q R c.
Proof.
  intros HR HQ. unfold wp, syscall. destruct (faults c) as [|[ft|] fs] eqn:E.
  - by destruct (f (disk_of c)) as [[a dk]|k|].
  - by apply HR.
  - by destruct (f (disk_of c)) as [[a dk]|k|].
Qed.

Lemma hd_drawn (l : list Z) : hd 0 l ∈ 0 :: l.
Proof. destruct l; cbn; [by apply elem_of_cons; left|]. apply elem_of_cons. right. by apply elem_of_cons; left. Qed.
Lemma tail_drawn (l : list Z) x : x ∈ 0 :: tail l -> x ∈ 0 :: l.
Proof. destruct l; [done|]. cbn. rewrite !elem_of_cons. naive_solver. Qed.

Lemma runs_atomic_json bytes j c oj t : base c oj t -> consistent oj t -> consistent (Some j) t ->
  journal_from_slice bytes = Some j -> Z.of_nat (length bytes) <= 65536 ->
  runs (atomic_json Stage JOURNAL bytes) c (fun _ c' => base c' (Some j) t).
Proof.
  intros Hb Hcon Hconj Hdec Hlen. unfold atomic_json.
  apply (runs_bind _ _ _ (fun _ c' => c' = c)); [apply (runs_liftr _ tt); [apply fail_if_Ok; lia|done]|]. intros [] ? ->.
  apply wp_bind. unfold wp at 1, random_u128. cbn [fst snd]. set (x := hd 0 (rng c)).
  set (c1 := mk_ctx (disk_of c) (faults c) (clock c) (tail (rng c)) (store c) (requested c)).
  pose proof (staged_create c oj t x Hb) as S2. fold c1 in S2.
  assert (forall c', base c' oj t -> forall (P : Prop), (clean c -> P) -> ~ P -> con c' /\ ~ clean c) as Hbad.
  { intros c' Hb' P Hp Hn. split; [by eapply base_con|]. intros Hx. by apply Hn, Hp. }
  assert (clean c -> faults c = []) as Hf by (by intros [? _]). apply wp_bind, wp_raw.
  { intros k c' Hu Hn. apply (Hbad c') with (P := faults c = []); [|done..]. eapply base_unmoved; [exact Hu|]. by destruct Hb. }
  unfold lookup_entry. cbn [at_place c1 disk_of]. destruct (entries (stage (disk_of c)) !! journal_temp x) as [y|] eqn:Etemp.
  { apply Hbad with (P := entries (stage (disk_of c)) !! journal_temp x = None); [by destruct Hb| |congruence].
    intros [_ Hc]. apply Hc, hd_drawn. }
  set (c2 := set_disk _ c1) in *. set (id := next_ino (disk_of c)) in *.
  assert (inode_at (disk_of c2) id = empty_inode) as I2 by (unfold inode_at, c2, create_entry; cbn; by rewrite lookup_insert_eq).
  assert (forall c', staged_in c oj t (journal_temp x) id c' -> forall c'', unmoved c' c'' -> faults c' <> [] -> con c'' /\ ~ clean c) as Hfail.
  { intros c' Hs c'' Hu Hn. apply (Hbad c'') with (P := faults c' = []); [by eapply base_unmoved; [|apply Hs]| |done]. intros Hc. by apply Hs, Hf. }
  apply wp_bind. unfold wp at 1, write_all. rewrite I2. cbn [cur syn regular empty_inode app].
  pose proof (temp_not_journal x) as Htj.
  set (c3 := set_disk (set_inode id (mk_inode bytes [] true) (disk_of c2)) c2).
  assert (staged_in c oj t (journal_temp x) id c3) as S3 by by apply staged_write.
  cut (wp (let! _ := sync_file id in let! _ := rename Stage (journal_temp x) JOURNAL in sync Stage)
    (fun a c' => (clean c -> clean c') /\ base c' (Some j) t) (fun _ c' => con c' /\ ~ clean c) c3).
  { intros Hw. destruct (faults c2) as [|[ft|] fs] eqn:E2; try exact Hw.
    apply (Hbad _ (si_base _ _ _ _ _ _ (staged_write _ _ _ _ _ _ (mk_inode (take (fault_partial ft) bytes) [] true) S2 Htj)) (faults c2 = [])); [|congruence].
    intros Hc. by apply S2, Hf. }
  assert (inode_at (disk_of c3) id = mk_inode bytes [] true) as I3 by apply inode_set_same.
  apply wp_bind, wp_raw; [intros k c' Hu Hn; by eapply Hfail|]. rewrite I3. cbn [cur regular].
  set (c4 := set_disk _ c3). assert (staged_in c oj t (journal_temp x) id c4) as S4 by by apply staged_write.
  assert (inode_at (disk_of c4) id = mk_inode bytes bytes true) as I4 by apply inode_set_same.
  apply wp_bind, wp_raw; [intros k c' Hu Hn; by eapply Hfail|]. unfold lookup_entry. cbn [at_place].
  rewrite (si_entries _ _ _ _ _ _ S4), lookup_insert_eq. rewrite <- (si_entries _ _ _ _ _ _ S4).
  pose proof (staged_rename _ _ _ _ _ c4 j S4 ltac:(by rewrite I4) ltac:(by rewrite I4) ltac:(by rewrite I4)) as B5.
  set (c5 := set_disk _ c4) in *. apply wp_raw.
  - intros k c' Hu Hn. split; [apply (base_con c' (Some j) t); [by eapply base_unmoved|done]|]. intros Hc. apply Hn.
    change (faults c5) with (tail (faults c4)). by rewrite (si_faults _ _ _ _ _ _ S4 (Hf Hc)).
  - split; [|by apply base_sync]. intros Hc. split.
    + change (tail (tail (faults c4)) = []). by rewrite (si_faults _ _ _ _ _ _ S4 (Hf Hc)).
    + intros y Hy. cbn [set_disk disk_of rng at_place set_place stage entries c5 set_entries] in *.
      rewrite (si_entries _ _ _ _ _ _ S4), (si_rng _ _ _ _ _ _ S4) in *.
      rewrite lookup_insert_ne by (intros E; by apply (temp_not_journal y)). rewrite delete_insert_id by done.
      by apply Hc, tail_drawn.
Qed.

Lemma runs_write_journal j c oj t : base c oj t -> consistent oj t -> ours j -> consistent (Some j) t ->
  runs (write_journal j) c (fun _ c' => base c' (Some j) t).
Proof.
  intros Hb Hcon Hj Hconj. destruct (re_codec hyp j Hj) as (bs & Hbs & Hlen). unfold write_journal.
  apply (runs_bind _ _ _ (fun x c' => c' = c /\ x = bs)); [apply (runs_liftr _ bs); [by rewrite Hbs|done]|].
  intros x ? [-> ->]. apply (runs_atomic_json _ j _ oj); try done. by apply journal_roundtrip.
Qed.

(** ** Opening the journal *)

Lemma runs_time c oj t : base c oj t -> runs system_time_unix_ms c (fun ms c' => in_era ms /\ unmoved c c').
Proof.
  intros Hb. pose proof (ba_clock _ _ _ Hb) as Hc. unfold runs, wp, system_time_unix_ms. set (ms := hd 0 (clock c)).
  assert (in_era ms) as Hms by (unfold ms; destruct (clock c); cbn; [unfold in_era; lia|by inversion Hc]).
  assert ((ms <? 0) || (9223372036854775807 <? ms) = false) as -> by (unfold in_era in Hms; lia).
  split; [by intros []|]. split; [done|]. split; [done|]. cbn. destruct (clock c); [done|]. by inversion 1.
Qed.

Lemma runs_call_store {A} (m : st S error A) a c : (forall x, (m x).1 = Ok a) -> runs (call_store m) c (fun a' c' => unmoved c c' /\ a' = a).
Proof. intros Hm. apply wp_zoom. unfold wp. specialize (Hm (store c)). destruct (m (store c)) as [o x]. cbn in Hm. subst o. by split. Qed.

(** The journal on the disk, what it says, and the target. *)
Record holds (c : ctx S) (j : Journal) (t : gmap name Z) : Prop := {
  ho_base : base c (Some j) t;
  ho_ours : ours j;
  ho_phase : at_phase j t;
}.

Lemma holds_con c j t : holds c j t -> con c.
Proof. intros [Hb Ho Hp]. by exists (Some j), t. Qed.
Lemma holds_unmoved c c' j t : unmoved c c' -> holds c j t -> holds c' j t.
Proof. intros Hu [Hb Ho Hp]. split; [by eapply base_unmoved|done|done]. Qed.

Lemma runs_new_journal c : base c None t0 -> runs (new_journal r d s (target_ino d0) n) c (fun j c' => holds c' j t0).
Proof.
  intros Hb. pose proof (base_con _ None t0 Hb eq_refl) as Hc. unfold new_journal.
  eapply runs_bind; [apply runs_named; [done|by eapply (regular_target _ None)]|]. cbn beta. intros current c1 [Hu1 ->].
  unfold lookup_entry. cbn [at_place]. rewrite (ba_target _ _ _ Hb). fold old0.
  pose proof (base_unmoved _ _ _ _ Hu1 Hb) as Hb1. eapply runs_bind; [by eapply runs_time|]. cbn beta. intros ms c2 [Hms Hu2].
  pose proof (base_unmoved _ _ _ _ Hu2 Hb1) as Hb2.
  apply (runs_bind _ _ _ (fun b c' => c' = c2 /\ match old0 with
    | Some _ => exists x, b = Some x /\ backup_name n (timestamp ms) 0 = Ok x | None => b = None end)).
  { destruct old0 as [o|] eqn:Eo; [|by apply runs_ret]. destruct (re_names hyp ms 0) as [b Hn]; [congruence|done|lia|].
    apply (runs_bind _ _ _ (fun x c' => c' = c2 /\ x = b)); [by apply (runs_liftr _ b)|]. intros x ? [-> ->]. apply runs_ret. eauto. }
  intros b ? [-> Hbk]. set (j := mk_journal _ _ _ _ _ _ _ _ _ _ _ _). assert (ours j) as Hj.
  { split; unfold j; cbn [version task peer relative root_hash parent_id staged old backup stamp suffix].
    - repeat split.
    - reflexivity.
    - exists ms. split; [exact Hms|reflexivity].
    - exact Hbk.
    - lia.
    - intros; lia. }
  assert (at_phase j t0) as Hp by by left.
  eapply runs_bind; [by apply (runs_write_journal j c2 None t0)|]. cbn beta. intros [] c3 Hb3. by apply runs_ret.
Qed.

Lemma runs_open_journal c oj t : base c oj t -> consistent oj t ->
  runs (open_journal r d s (target_ino d0) n) c (fun j c' => holds c' j t).
Proof.
  intros Hb Hcon. unfold open_journal. eapply runs_bind; [by eapply runs_read_journal|]. cbn beta. intros o c1 [Hu1 ->].
  pose proof (base_unmoved _ _ _ _ Hu1 Hb) as Hb1. destruct oj as [j|]; [|rewrite Hcon in *; by apply runs_new_journal].
  destruct Hcon as [Hj Hp]. rewrite (ours_matches j Hj), (ours_backup_matches j Hj).
  apply (runs_bind _ _ _ (fun _ c' => c' = c1)); [by apply (runs_liftr _ tt)|]. intros _ ? ->.
  apply (runs_bind _ _ _ (fun _ c' => c' = c1)); [by apply (runs_liftr _ tt)|]. intros _ ? ->. by apply runs_ret.
Qed.

(** ** Moving the old file aside *)

Lemma runs_named_holds m c j t : holds c j t ->
  runs (named_identity Target m) c (fun o c' => holds c' j t /\ o = t !! m).
Proof.
  intros Hh. pose proof (ho_base _ _ _ Hh) as Hb. eapply runs_conseq; [apply runs_named; [by eapply holds_con|]|].
  - eapply (regular_target _ (Some j) t); [done|by destruct Hh].
  - cbn beta. intros o c' [Hu ->]. split; [by eapply holds_unmoved|]. unfold lookup_entry. cbn. by rewrite (ba_target _ _ _ Hb).
Qed.

Lemma runs_sync p c j t : holds c j t -> runs (sync p) c (fun _ c' => holds c' j t).
Proof.
  intros Hh. eapply runs_step; [by eapply holds_con|done| |].
  - intros x _. by destruct p.
  - destruct Hh as [Hb Ho Hp]. split; [by apply base_sync|done|done].
Qed.

Lemma runs_save j' c j t : holds c j t -> ours j' -> at_phase j' t -> runs (write_journal j') c (fun _ c' => holds c' j' t).
Proof.
  intros [Hb Ho Hp] Ho' Hp'. eapply runs_conseq; [by eapply (runs_write_journal j' c (Some j) t)|]. cbn beta. intros _ c' Hb'. by split.
Qed.

Lemma base_target_set c oj t t' : base c oj t -> base (set_disk (set_entries Target t' (disk_of c)) c) oj t'.
Proof. intros [Bc Bt Bi Bs Bn Bo Bj]. by split. Qed.

Lemma moved_lookup j o b : ours j -> old0 = Some o -> backup j = Some b -> moved_dir j !! b = Some o /\ moved_dir j !! n = None.
Proof.
  intros Hj Eo Eb. unfold moved_dir. rewrite Eo, Eb. split; [apply lookup_insert_eq|].
  rewrite lookup_insert_ne by (by destruct (ours_backup_facts j b Hj Eb) as (_ & _ & ?)). apply lookup_delete_eq.
Qed.

(** The next number, when the name is taken. *)
Lemma next_backup j o b y : ours j -> phase j = Prepared -> old0 = Some o -> backup j = Some b -> t0 !! b = Some y ->
  suffix j + 1 <= 10000 /\ exists b', backup_name n (stamp j) (suffix j + 1) = Ok b' /\
    ours (with_backup b' (suffix j + 1) j).
Proof.
  intros Hj Hph Eo Eb Ey. destruct (ou_stamp _ Hj) as (ms & Hms & Es). destruct (ours_backup j b Hj Eb) as [_ Hn].
  destruct (re_free hyp ms) as (k & bk & Hk & Hbk & Hfree); [congruence|done|].
  pose proof (ou_suffix _ Hj) as Hs. assert (suffix j < k) as Hlt.
  { destruct (Z.lt_trichotomy k (suffix j)) as [Hlt|[->|]]; [|rewrite <- Es, Hn in Hbk; by simplify_eq|done].
    rewrite <- Es in Hbk. destruct (ou_taken _ Hj k bk ltac:(lia) Hbk). congruence. }
  split; [lia|]. destruct (re_names hyp ms (suffix j + 1)) as [b' Hb']; [congruence|done|lia|]. rewrite <- Es in Hb'.
  exists b'. split; [done|]. destruct Hj as [F1 F2 F3 F4 F5 F6]. split; cbn [version task peer relative root_hash parent_id staged old backup stamp suffix with_backup].
  - exact F1.
  - exact F2.
  - exact F3.
  - rewrite Eo. exists b'. by split.
  - lia.
  - intros i bi Hi Hbi. destruct (decide (i = suffix j)) as [->|]; [|by apply (F6 i); [lia|]].
    rewrite Hn in Hbi. simplify_eq. eauto.
Qed.

(** The attempt to move the old file aside: it is moved, or the name is taken. *)
Lemma runs_move_aside j o b c (f g : st (ctx S) error Journal) Q :
  holds c j t0 -> phase j = Prepared -> old0 = Some o -> backup j = Some b ->
  (t0 !! b = None -> forall c', holds c' j (moved_dir j) -> runs f c' Q) ->
  (is_Some (t0 !! b) -> forall c', holds c' j t0 -> runs g c' Q) ->
  runs (let! moved := attempt (rename_no_replace Target n b) in
        match moved with Ok _ => f | Err (Io AlreadyExists) => g | Err e => throw e | Panic => panic end) c Q.
Proof.
  intros Hh Hph Eo Eb Hf Hg. pose proof (ho_base _ _ _ Hh) as Hb. destruct (old0_name o Eo) as [Hn _].
  apply wp_bind, wp_attempt, wp_call.
  - intros k c' Hk Hu Hx. assert (con c' /\ ~ clean c) as Hbad by (split; [eapply con_unmoved; [exact Hu|]; by eapply holds_con|done]).
    destruct k; try (apply wp_throw, Hbad). done.
  - unfold lookup_entry. cbn [at_place]. rewrite (ba_target _ _ _ Hb), Hn. destruct (t0 !! b) as [y|] eqn:Ey.
    + set (c1 := set_disk _ _). assert (clean c -> clean c1) as Hcl by by apply clean_set.
      eapply wp_conseq; [apply (Hg (mk_is_Some _ _ eq_refl) c1); by apply (holds_unmoved c)|..]; cbn beta; naive_solver.
    + set (c1 := set_disk _ _). assert (clean c -> clean c1) as Hcl by by apply clean_set.
      eapply wp_conseq; [apply (Hf eq_refl c1)|..]; cbn beta; [|naive_solver..].
      assert (<[b := o]> (delete n t0) = moved_dir j) as Em by (unfold moved_dir; by rewrite Eo, Eb).
      split; [rewrite <- Em; by eapply base_target_set|by apply Hh|]. unfold at_phase. rewrite Hph. right.
      split; [|done]. intros o' b' Eo' Eb'. congruence.
Qed.

(** A journal whose old file is aside. *)
Record aside (c : ctx S) (j : Journal) : Prop := {
  as_holds : holds c j (moved_dir j);
  as_free : free_backup j;
  as_phase : phase j = Prepared;
}.

Lemma runs_moved_check j o b c (Q : Journal -> ctx S -> Prop) : aside c j -> old0 = Some o -> backup j = Some b ->
  (forall c', aside c' j -> Q j c') ->
  runs (let! held := named_identity Target b in
        if negb (bool_decide (held = Some o)) then throw (Protocol "backup changed") else ret j) c Q.
Proof.
  intros [Hh Hf Hp] Eo Eb HQ. eapply runs_bind; [by eapply runs_named_holds|]. cbn beta. intros held c1 [Hh1 ->].
  rewrite (proj1 (moved_lookup j o b (ho_ours _ _ _ Hh) Eo Eb)), bool_decide_eq_true_2 by done. apply runs_ret, HQ. by split.
Qed.

Lemma runs_back_up fuel o j c t : holds c j t -> phase j = Prepared -> old0 = Some o -> 10001 - suffix j < Z.of_nat fuel ->
  runs (back_up fuel n o j) c (fun j' c' => aside c' j').
Proof.
  revert j c t. induction fuel as [|fuel IH]; intros j c t Hh Hph Eo Hf;
    pose proof (ho_ours _ _ _ Hh) as Hj; pose proof (ou_suffix _ Hj) as Hsuf; [lia|]. cbn [back_up].
  pose proof (ou_backup _ Hj) as Hb. rewrite Eo in Hb. destruct Hb as (b & Eb & Hname). rewrite Eb.
  destruct (old0_name o Eo) as [Hn Hos]. destruct (ours_backup_facts j b Hj Eb) as (_ & _ & Hbn).
  eapply runs_bind; [by eapply runs_named_holds|]. cbn beta. intros held c1 [Hh1 ->].
  pose proof (ho_phase _ _ _ Hh1) as Hp. unfold at_phase in Hp. rewrite Hph in Hp. destruct Hp as [->|[Hfree ->]].
  2: { rewrite (proj1 (moved_lookup j o b Hj Eo Eb)), bool_decide_eq_true_2 by done. apply runs_ret. by split. }
  rewrite bool_decide_eq_false_2 by (intros Eq; by apply Hbn, (re_single hyp b o)).
  eapply runs_bind; [by eapply runs_named_holds|]. cbn beta. intros current c2 [Hh2 ->]. rewrite Hn, bool_decide_eq_true_2 by done.
  cbn [negb]. eapply runs_move_aside; [done..| |].
  - intros Hfree c3 Hh3. eapply runs_bind; [by eapply runs_sync|]. cbn beta. intros [] c4 Hh4.
    eapply runs_moved_check; [|done..|done]. split; [done| |done]. intros o' b' Eo' Eb'. congruence.
  - intros [y Ey] c3 Hh3. destruct (next_backup j o b y Hj Hph Eo Eb Ey) as (Hle & b' & Hb' & Hours).
    destruct (Z.ltb_spec 10000 (suffix j + 1)); [lia|].
    apply (runs_bind _ _ _ (fun x c' => c' = c3 /\ x = b')); [by apply (runs_liftr _ b')|]. intros x ? [-> ->].
    eapply runs_bind; [eapply (runs_save (with_backup b' (suffix j + 1) j)); [done|done|]|].
    + unfold at_phase. cbn [phase with_backup]. rewrite Hph. by left.
    + cbn beta. intros [] c4 Hh4. eapply IH; [done|done|done|]. cbn [suffix with_backup]. lia.
Qed.

(** ** The phases *)

Lemma ours_phase p j : ours j -> ours (with_phase p j).
Proof.
  intros [F1 F2 F3 F4 F5 F6]. by split.
Qed.
Lemma moved_phase p j : moved_dir (with_phase p j) = moved_dir j.
Proof. done. Qed.

(** After the first phase. *)
Definition backed (c : ctx S) (j : Journal) : Prop := phase j <> Prepared /\ free_backup j /\ exists t, holds c j t.

Lemma runs_phase_prepared c j t : holds c j t -> runs (phase_prepared n j) c (fun j' c' => backed c' j').
Proof.
  intros Hh. pose proof (ho_ours _ _ _ Hh) as Hj. unfold phase_prepared. case_bool_decide as Hph.
  2: { apply runs_ret. split; [done|]. split; [|by exists t]. pose proof (ho_phase _ _ _ Hh) as Hp. unfold at_phase in Hp.
       destruct (phase j); naive_solver. }
  apply (runs_bind _ _ _ (fun j' c' => aside c' j')).
  - rewrite (ou_old _ Hj). pose proof (ou_suffix _ Hj). destruct old0 as [o|] eqn:Eo; [eapply runs_back_up; [done|done|done|lia]|].
    apply runs_ret. assert (t = t0 /\ moved_dir j = t0) as [-> Em].
    { pose proof (ho_phase _ _ _ Hh) as Hp. unfold at_phase in Hp. rewrite Hph in Hp. unfold moved_dir in *. rewrite Eo in *. naive_solver. }
    split; [by rewrite Em|intros o b Eo'; congruence|done].
  - intros j' c' [Hh' Hf Hp]. eapply runs_bind; [eapply (runs_save (with_phase OldBackedUp j')); [done|by apply ours_phase, Hh'|]|].
    + split; [done|]. left. by rewrite moved_phase.
    + cbn beta. intros [] c2 Hh2. apply runs_ret. split; [done|]. split; [done|]. by exists (moved_dir j').
Qed.

Lemma backed_lookup c j t o b : phase j <> Prepared -> holds c j t -> old0 = Some o -> backup j = Some b -> t !! b = Some o.
Proof.
  intros Hph Hh Eo Eb. pose proof (ho_ours _ _ _ Hh) as Hj. destruct (moved_lookup j o b Hj Eo Eb) as [Hm _].
  destruct (ours_backup_facts j b Hj Eb) as (_ & _ & Hbn). pose proof (ho_phase _ _ _ Hh) as Hp. unfold at_phase, placed_dir in Hp.
  destruct (phase j); [done|..]; destruct_and?; destruct_or?; subst t; rewrite ?lookup_insert_ne by done; done.
Qed.

Lemma runs_check_backup c j : backed c j -> runs (check_backup j) c (fun _ c' => backed c' j).
Proof.
  intros (Hph & Hf & t & Hh). pose proof (ho_ours _ _ _ Hh) as Hj. unfold check_backup. rewrite (ou_old _ Hj).
  pose proof (ou_backup _ Hj) as Hb. destruct old0 as [o|] eqn:Eo; [|apply runs_ret; split; [done|]; eauto].
  destruct Hb as (b & Eb & _). rewrite Eb. eapply runs_bind; [by eapply runs_named_holds|]. cbn beta. intros held c1 [Hh1 ->].
  apply (runs_liftr _ tt); [|split; [done|]; eauto].
  apply fail_if_Ok. rewrite bool_decide_eq_true_2; [done|]. by eapply backed_lookup.
Qed.

(** The new file is in place. *)
Definition placed (c : ctx S) (j : Journal) : Prop := holds c j (placed_dir j) /\ free_backup j.

Lemma placed_name j : placed_dir j !! n = Some s.
Proof. apply lookup_insert_eq. Qed.

(** Before the link the name is free, or the file was in place from the start. *)
Lemma moved_free j : ours j -> moved_dir j !! n = None \/ moved_dir j = placed_dir j.
Proof.
  intros Hj. pose proof (ou_backup _ Hj) as Hb. destruct old0 as [o|] eqn:Eo.
  - destruct Hb as (b & Eb & _). left. by apply (moved_lookup j o b).
  - unfold placed_dir, moved_dir. rewrite Eo. unfold old0 in Eo. destruct (t0 !! n) as [i|] eqn:Ei; [|by left].
    destruct (Z.eqb_spec i s) as [->|]; [|done]. right. symmetry. by apply insert_id.
Qed.

Lemma runs_publish c j : placed c j -> phase j = OldBackedUp ->
  runs (let! _ := sync Target in let j := with_phase NewPublished j in let! _ := write_journal j in ret j) c (fun j' c' => placed c' j').
Proof.
  intros [Hh Hf] Hph. eapply runs_bind; [by eapply runs_sync|]. cbn beta. intros [] c1 Hh1. cbv zeta.
  eapply runs_bind; [eapply (runs_save (with_phase NewPublished j)); [done|by apply ours_phase, Hh|by split]|].
  cbn beta. intros [] c2 Hh2. by apply runs_ret.
Qed.

Lemma runs_phase_backed_up c j : backed c j -> runs (phase_backed_up staged_name n s j) c (fun j' c' => placed c' j').
Proof.
  intros (Hph & Hf & t & Hh). pose proof (ho_ours _ _ _ Hh) as Hj. pose proof (ho_base _ _ _ Hh) as Hb.
  pose proof (ho_phase _ _ _ Hh) as Hp. unfold phase_backed_up. unfold at_phase in Hp. case_bool_decide as Ep.
  2: { apply runs_ret. destruct (phase j); try done; destruct Hp as [_ ->]; by split. }
  rewrite Ep in Hp. destruct Hp as [_ Hp]. assert (forall c1, placed c1 j -> runs (let! _ := sync Target in let j := with_phase NewPublished j in
    let! _ := write_journal j in ret j) c1 (fun j' c' => placed c' j')) as Hpub by (intros; by apply runs_publish).
  assert (t !! n = None /\ t = moved_dir j \/ t = placed_dir j) as Ht.
  { destruct Hp as [->| ->]; [|by right]. destruct (moved_free j Hj) as [Hm|Hm]; [by left|by right]. }
  apply wp_bind, wp_attempt, wp_call.
  - intros k c' Hk Hu Hx. assert (con c' /\ ~ clean c) as Hbad by (split; [eapply con_unmoved; [exact Hu|]; by eapply holds_con|done]).
    apply wp_bind. destruct k; try (apply wp_throw, Hbad). done.
  - unfold lookup_entry. cbn [at_place]. rewrite (ba_staged _ _ _ Hb), (ba_target _ _ _ Hb). destruct Ht as [[Hnone ->]| ->].
    + rewrite Hnone. set (c1 := set_disk _ _). assert (clean c -> clean c1) as Hcl by by apply clean_set.
      apply wp_bind, wp_ret. eapply wp_conseq; [apply (Hpub c1)|..]; cbn beta; [|naive_solver..].
      split; [|done]. split; [|done|].
      * by eapply base_target_set.
      * unfold at_phase. rewrite Ep. by split; [|right].
    + rewrite placed_name. set (c1 := set_disk _ _). assert (clean c -> clean c1) as Hcl by by apply clean_set.
      assert (holds c1 j (placed_dir j)) as Hh1 by by apply (holds_unmoved c).
      eapply wp_conseq; [eapply (runs_bind _ _ _ (fun _ c' => placed c' j)); [|by intros _ c2 Hh2; apply Hpub]|..]; cbn beta; [|naive_solver..].
      eapply runs_bind; [by eapply runs_named_holds|]. cbn beta. intros o c2 [Hh2 ->]. rewrite placed_name.
      apply (runs_liftr _ tt); [|by split]. by rewrite bool_decide_eq_true_2.
Qed.

(** ** The last steps *)

Lemma runs_open_holds m i c j t : holds c j t -> t !! m = Some i -> runs (open_entry Target m) c (fun i' c' => holds c' j t /\ i' = i).
Proof.
  intros Hh Hm. pose proof (ho_base _ _ _ Hh) as Hb. eapply runs_conseq; [apply (runs_open Target m i); [by eapply holds_con|..]|].
  - eapply (regular_target _ (Some j) t); [done|by destruct Hh].
  - unfold lookup_entry. cbn. by rewrite (ba_target _ _ _ Hb).
  - cbn beta. intros i' c' [Hu ->]. split; [by eapply holds_unmoved|done].
Qed.

Lemma staged_inode c j t : holds c j t -> inode_at (disk_of c) s = inode_at d0 s.
Proof. intros Hh. apply (ba_inodes _ _ _ (ho_base _ _ _ Hh)), staged_bound. Qed.

Lemma runs_sync_staged c j t : holds c j t -> runs (sync_file s) c (fun _ c' => holds c' j t).
Proof.
  intros Hh. eapply runs_step; [by eapply holds_con|done|done|]. rewrite (staged_inode _ _ _ Hh), (settled_sync _ (bg_settled _ _ _ (re_begins hyp))).
  pose proof staged_bound as Hs. destruct Hh as [[Bc Bt Bi Bs Bn Bo Bj] Ho Hp]. split; [split|done|done]; cbn; try done.
  - intros i Hi. rewrite inode_at_set. destruct (decide (s = i)) as [->|]; [done|by apply Bo].
  - destruct Bj as (i & Ei & Hi & ?). exists i. rewrite inode_at_set. destruct (decide (s = i)); [lia|done].
Qed.

Lemma runs_query_holds {A} (f : disk -> outcome io_kind (A * disk)) a c j t : holds c j t -> f (disk_of c) = Ok (a, disk_of c) ->
  runs (syscall f) c (fun a' c' => holds c' j t /\ a' = a).
Proof.
  intros Hh E. eapply runs_conseq; [apply (runs_query f a); [by eapply holds_con|done]|]. cbn beta. intros a' c' [Hu ->].
  split; [by eapply holds_unmoved|done].
Qed.

Lemma runs_verify c j : placed c j -> runs (verify n (TaskModel.manifest d)) c (fun _ c' => placed c' j).
Proof.
  intros [Hh Hf]. unfold verify. eapply runs_bind; [eapply runs_open_holds; [done|apply placed_name]|]. cbn beta. intros i c1 [Hh1 ->].
  eapply runs_bind; [by eapply (runs_query_holds _ _ c1)|]. cbn beta. intros len c2 [Hh2 ->].
  rewrite (staged_inode _ _ _ Hh1), (re_length hyp), Z.eqb_refl.
  apply (runs_bind _ _ _ (fun _ c' => c' = c2)); [by apply (runs_liftr _ tt)|]. intros _ ? ->.
  eapply runs_bind; [by eapply (runs_query_holds _ _ c2)|]. cbn beta. intros bytes c3 [Hh3 ->].
  rewrite (staged_inode _ _ _ Hh2), take_ge.
  2: { pose proof (re_length hyp). pose proof (re_total hyp). unfold saturating_add. lia. }
  apply (runs_bind _ _ _ (fun m c' => c' = c3 /\ m = TaskModel.manifest d)); [apply (runs_liftr _ (TaskModel.manifest d)); [apply (re_verified hyp)|done]|].
  intros m ? [-> ->]. apply (runs_liftr _ tt); [by rewrite bool_decide_eq_true_2|by split].
Qed.

(** Neither panics. *)
Definition calm {A} (m : st (ctx S) error A) : Prop := forall c, wp m (fun _ _ => True) (fun _ _ => True) c.

Lemma calm_sbind {A B} (m : st (ctx S) error A) (f : A -> st (ctx S) error B) : calm m -> (forall a, calm (f a)) -> calm (sbind m f).
Proof. intros Hm Hf c. apply wp_bind. eapply wp_conseq; [apply Hm|..]; cbn; [|done]. intros a c' _. apply Hf. Qed.
Lemma calm_syscall {A} (f : disk -> outcome io_kind (A * disk)) : (forall dk, f dk <> Panic) -> calm (syscall f).
Proof. intros Hf c. apply wp_raw; [done|]. specialize (Hf (disk_of c)). by destruct (f (disk_of c)) as [[a dk]|k|]. Qed.
Lemma calm_liftr {A} (o : result A) : o <> Panic -> calm (liftr o).
Proof. intros Ho c. apply wp_liftr. by destruct o. Qed.
Lemma calm_ret {A} (a : A) : calm (ret a).
Proof. done. Qed.
Lemma calm_attempt {A} (m : st (ctx S) error A) : calm m -> forall c (Q : outcome error A -> ctx S -> Prop) R, (forall o c', o <> Panic -> Q o c') -> wp (attempt m) Q R c.
Proof. intros Hm c Q R HQ. apply wp_attempt. eapply wp_conseq; [apply Hm|..]; cbn; intros; by apply HQ. Qed.

Lemma calm_write_journal j : calm (write_journal j).
Proof.
  apply calm_sbind; [apply calm_liftr; by destruct (journal_to_vec j)|]. intros bs.
  apply calm_sbind; [apply calm_liftr; by destruct (_ <? _)|]. intros _.
  apply calm_sbind; [by intros c|]. intros x. apply calm_sbind; [apply calm_syscall; intros dk; by destruct (lookup_entry _ _ _)|]. intros i.
  apply calm_sbind; [intros c; unfold wp, write_all; by destruct (faults c) as [|[ft|] fs]|]. intros _.
  apply calm_sbind; [by apply calm_syscall|]. intros _.
  apply calm_sbind; [apply calm_syscall; intros dk; by destruct (lookup_entry _ _ _)|]. intros _. by apply calm_syscall.
Qed.

Lemma calm_remove_all names : calm (remove_all names).
Proof.
  induction names as [|m names IH]; cbn [remove_all]; [done|]. destruct (255 <? str_len m); [done|]. intros c. apply wp_bind.
  apply calm_attempt; [apply calm_syscall; intros dk; by destruct (lookup_entry _ _ _)|]. intros [u|e|] c' Ho; [apply IH| |done].
  destruct e; try by apply wp_throw. destruct kind; try by apply wp_throw. apply IH.
Qed.

Lemma calm_cleanup : calm (cleanup_staging r).
Proof.
  apply calm_sbind; [by apply calm_syscall|]. intros _. destruct (TaskModel.file_details r); [|done].
  apply calm_sbind; [apply calm_remove_all|]. intros _. by apply calm_syscall.
Qed.

(** From the moment the receipt is asked for nothing can fail any more. *)
Lemma runs_receipt j now_ c : wp (let! _ := request in
      let! _ := call_store (commit_receipt (TaskModel.task_id r) now_) in
      let! _ := attempt (write_journal (with_phase ReceiptCommitted j)) in
      let! _ := attempt (cleanup_staging r) in
      ret n) (fun m _ => m = n) (fun _ _ => False) c.
Proof.
  apply wp_bind, wp_modify. set (c1 := mk_ctx _ _ _ _ _ _). apply wp_bind, wp_zoom. unfold wp at 1.
  pose proof (re_receipt hyp (TaskModel.task_id r) now_ (store c1)) as Hr. destruct (commit_receipt _ _ _) as [o x]. cbn in Hr. subst o.
  apply wp_bind. apply calm_attempt; [apply calm_write_journal|]. intros o c2 _.
  apply wp_bind. apply calm_attempt; [apply calm_cleanup|]. by intros.
Qed.

(** A step that can fail before steps that end the attempt. *)
Lemma wp_then {A B} (m : st (ctx S) error A) (f : A -> st (ctx S) error B) c (P : A -> ctx S -> Prop) (Q : B -> ctx S -> Prop) :
  runs m c P -> (forall a c', P a c' -> wp (f a) Q (fun _ c'' => con c'' /\ ~ clean c') c') ->
  wp (sbind m f) Q (fun _ c' => con c' /\ ~ clean c) c.
Proof.
  intros Hm Hf. apply wp_bind. eapply wp_conseq; [exact Hm|..]; cbn beta; [|done].
  intros a c' [Hc Ha]. eapply wp_conseq; [exact (Hf a c' Ha)|..]; cbn beta; naive_solver.
Qed.

Lemma wp_last c j : placed c j -> wp (
      let! current := named_identity Target n in
      let! _ := liftr (fail_if (negb (bool_decide (current = Some s))) (Protocol "wrong file published")) in
      let! published := open_entry Target n in
      let! _ := sync_file published in
      let! _ := verify n (TaskModel.manifest d) in
      let! current := named_identity Target n in
      let! _ := liftr (fail_if (negb (bool_decide (current = Some s))) (Protocol "replaced before the receipt")) in
      let! now := system_time_unix_ms in
      let! _ := request in
      let! _ := call_store (commit_receipt (TaskModel.task_id r) now) in
      let! _ := attempt (write_journal (with_phase ReceiptCommitted j)) in
      let! _ := attempt (cleanup_staging r) in
      ret n) (fun m _ => m = n) (fun _ c' => con c' /\ ~ clean c) c.
Proof.
  intros Hp. assert (forall c1, placed c1 j -> runs (named_identity Target n) c1 (fun o c' => placed c' j /\ o = Some s)) as Hnamed.
  { intros c1 [Hh Hf]. eapply runs_conseq; [by eapply runs_named_holds|]. cbn beta. intros o c' [Hh' ->]. rewrite placed_name. by split. }
  assert (forall c1 e, runs (liftr (fail_if (negb (bool_decide (Some s = Some s))) e)) c1 (fun _ c' => c' = c1)) as Hcheck.
  { intros c1 e. apply (runs_liftr _ tt); [|done]. by rewrite bool_decide_eq_true_2. }
  (* the steps that can fail, then the receipt *)
  eapply wp_then; [by apply Hnamed|]. cbn beta. intros o c1 [Hp1 ->].
  eapply wp_then; [apply Hcheck|]. cbn beta. intros _ ? ->.
  eapply wp_then; [eapply runs_open_holds; [apply Hp1|apply placed_name]|]. cbn beta. intros i c2 [Hh2 ->].
  eapply wp_then; [by eapply runs_sync_staged|]. cbn beta. intros [] c3 Hh3.
  assert (placed c3 j) as Hp3 by (split; [done|apply Hp1]).
  eapply wp_then; [by apply runs_verify|]. cbn beta. intros [] c4 Hp4.
  eapply wp_then; [by apply Hnamed|]. cbn beta. intros o c5 [Hp5 ->].
  eapply wp_then; [apply Hcheck|]. cbn beta. intros _ ? ->.
  eapply wp_then; [eapply runs_time, Hp5|]. cbn beta. intros ms c6 _.
  eapply wp_conseq; [apply runs_receipt|..]; cbn beta; [done|by intros].
Qed.

(** One attempt. *)
Lemma wp_attempt_file c : con c -> wp (file r staged_name) (fun m _ => m = n) (fun _ c' => con c' /\ ~ clean c) c.
Proof.
  intros (oj & t & Hb & Hcon). pose proof (base_con _ _ _ Hb Hcon) as Hc. unfold file. rewrite (re_details hyp).
  eapply wp_then; [by eapply runs_parent|]. cbn beta. intros m c1 [Hu1 ->]. pose proof (con_unmoved _ _ Hu1 Hc) as Hc1.
  pose proof (base_unmoved _ _ _ _ Hu1 Hb) as Hb1.
  eapply wp_then; [apply (runs_open Stage staged_name s); [done|..]|].
  - intros i Hi. unfold lookup_entry, at_place in Hi. rewrite (ba_staged _ _ _ Hb1) in Hi. injection Hi as <-.
    rewrite (ba_inodes _ _ _ Hb1) by apply staged_bound. apply (re_staged hyp).
  - apply (ba_staged _ _ _ Hb1).
  - cbn beta. intros i c2 [Hu2 ->]. pose proof (con_unmoved _ _ Hu2 Hc1) as Hc2. pose proof (base_unmoved _ _ _ _ Hu2 Hb1) as Hb2.
    eapply wp_then; [by apply runs_identity|]. cbn beta. intros i c3 [Hu3 ->].
    pose proof (con_unmoved _ _ Hu3 Hc2) as Hc3. pose proof (base_unmoved _ _ _ _ Hu3 Hb2) as Hb3.
    apply (wp_then _ _ _ (fun p c' => base c' oj t /\ p = target_ino d0)).
    { eapply runs_bind; [by apply runs_touch|]. cbn beta. intros [] c4 Hu4. pose proof (base_unmoved _ _ _ _ Hu4 Hb3) as Hb4.
      apply wp_gets. split; [done|]. split; [done|apply Hb4]. }
    intros p c4 [Hb4 ->]. eapply wp_then; [by eapply runs_open_journal|]. cbn beta. intros j c5 Hh5.
    eapply wp_then; [apply (runs_call_store _ tt); intros x; apply (re_prepare hyp)|]. cbn beta. intros [] c6 [Hu6 _].
    pose proof (holds_unmoved _ _ _ _ Hu6 Hh5) as Hh6.
    eapply wp_then; [by eapply runs_phase_prepared|]. cbn beta. intros j7 c7 Hb7.
    eapply wp_then; [by apply runs_check_backup|]. cbn beta. intros [] c8 Hb8.
    eapply wp_then; [by apply runs_phase_backed_up|]. cbn beta. intros j9 c9 Hp9.
    by apply wp_last.
Qed.

End Resume.

(** Failed attempts and restarts, without a loss of power. *)
Inductive tries {S : Type} `{PublicationStore S} `{Blake3} `{Hex} `{NameKey} `{JournalCodec}
    (r : TaskModel.TaskRecord) (staged_name : name) (c0 : ctx S) : ctx S -> Prop :=
  | tries_start : tries r staged_name c0 c0
  | tries_failed c e c' : tries r staged_name c0 c -> file r staged_name c = (Err e, c') -> tries r staged_name c0 c'
  | tries_restart c fs ck rg st_ : tries r staged_name c0 c -> Forall in_era ck ->
      tries r staged_name c0 (mk_ctx (disk_of c) fs ck rg st_ (requested c)).

Lemma tries_con {S : Type} `{PublicationStore S} `{Blake3} `{Hex} `{NameKey} `{JournalLaws} r d staged_name s (c0 c : ctx S) :
  resumable r d staged_name s (disk_of c0) -> Forall in_era (clock c0) -> tries r staged_name c0 c ->
  con r d staged_name s (disk_of c0) c.
Proof.
  intros Hr Hclock. induction 1 as [|c e c' Ht IH E|c fs ck rg st_ Ht (oj & t & Hb & Hcon) Hck].
  - exists None, (entries (target (disk_of c0))). split; [|done]. pose proof (re_begins _ _ _ _ _ Hr) as Hb. split; try done; apply Hb.
  - pose proof (wp_attempt_file r d staged_name s (disk_of c0) Hr c IH) as Hw. unfold wp in Hw. rewrite E in Hw. apply Hw.
  - exists oj, t. split; [|done]. destruct Hb. by split.
Qed.

(** C5: However often the publication was tried and failed, and whatever stopped it: an
    attempt that meets no failure, and draws temporary names that are free,
    succeeds, and publishes under the name of the task. *)
Theorem publication_resumes {S : Type} `{PublicationStore S} `{Blake3} `{Hex} `{NameKey} `{JournalLaws}
    (r : TaskModel.TaskRecord) (d : TaskModel.FileTaskDetails) (staged_name : name) (s : Z) (c0 c : ctx S) :
  resumable r d staged_name s (disk_of c0) -> Forall in_era (clock c0) -> tries r staged_name c0 c ->
  faults c = [] -> (forall x, x ∈ 0 :: rng c -> entries (stage (disk_of c)) !! journal_temp x = None) ->
  exists c', file r staged_name c =
    (Ok (default [] (last (split RelativePath.is_slash (TaskModel.f_relative_path d)))), c').
Proof.
  intros Hr Hclock Ht Hf Hx. pose proof (tries_con r d staged_name s c0 c Hr Hclock Ht) as Hc.
  pose proof (wp_attempt_file r d staged_name s (disk_of c0) Hr c Hc) as Hw. unfold wp in Hw.
  destruct (file r staged_name c) as [[m|e|] c']; [subst m; by exists c'|destruct Hw as [_ Hw]; by destruct Hw|done].
Qed.

End PublishResume.
