(* ===== verification/PublishExample.v ===== *)
(** * Publishing a received file: an example

    A publication that replaces [doc.txt] and is stopped, once by a failing sync and
    once by a loss of power, instantiates the two theorems about publications. *)
From Stdlib Require Import ZArith Lia.
From stdpp Require Import prelude gmap strings.
From S2P Require Import Prelude Io Manifest Message State FileSystem RelativePath Chunker Storage TaskModel Publish PublishProof Calendar PublishResume.

#[local] Open Scope Z_scope.

Module PublishExample.
Import Publish PublishProof Calendar PublishResume.

(** ** Backup names of [doc.txt] *)

Lemma split_plain p l : Forall (fun c => p c = false) l -> split p l = [l].
Proof. induction 1 as [|c l Hc _ IH]; [done|]. cbn. by rewrite Hc, IH. Qed.

Lemma hd_split p c l : p c = false -> hd [] (split p (c :: l)) = c :: hd [] (split p l).
Proof. intros Hc. cbn. rewrite Hc. pose proof (RelativePath.split_nonempty p l). by destruct (split p l). Qed.

Definition tail_char (c : Z) : Prop := 43 <= c <= 122 /\ c <> 47 /\ c <> 58 /\ c <> 60 /\ c <> 62 /\ c <> 63 /\ c <> 92.

#[local] Ltac chars :=
  match goal with |- Forall _ ?l => let l' := eval vm_compute in l in change l with l' end;
  repeat (apply Forall_cons; split; [unfold tail_char; lia|]); try apply Forall_nil_2.

(** A short name from [doc+] on, of letters, digits and dashes, is a valid path. *)
Lemma doc_valid x : Forall tail_char x -> (length x <= 30)%nat ->
  RelativePath.validate_relative_path (lit "doc+" ++ x ++ lit ".txt") = Ok tt.
Proof.
  intros Hx Hlen. set (b := lit "doc+" ++ x ++ lit ".txt").
  assert (Forall tail_char b) as Hb.
  { unfold b. apply Forall_app_2; [chars|]. apply Forall_app_2; [done|chars]. }
  assert (length b <= 38)%nat as Hl by (unfold b; rewrite !length_app; cbn; lia).
  assert (str_len b = Z.of_nat (length b)) as Hs.
  { unfold str_len. rewrite utf8_ascii; [done|]. eapply Forall_impl; [exact Hb|]. unfold tail_char. intros c ?. lia. }
  assert (split RelativePath.is_slash b = [b]) as Hsp.
  { apply split_plain. eapply Forall_impl; [exact Hb|]. unfold tail_char, RelativePath.is_slash. intros c ?. lia. }
  apply RelativePath.validate_relative_path_Ok. rewrite Hsp. split; [done|]. split; [lia|]. split; [cbn; lia|].
  constructor; [|constructor]. apply RelativePath.check_component_Ok. split.
  - apply RelativePath.illegal_component_false. split; [|split; [done|split; [done|split; [done|split; [lia|split]]]]].
    + unfold eq_ignore_ascii_case. apply bool_decide_eq_false_2. unfold b. rewrite map_app. cbn. intros [=].
    + unfold RelativePath.ends_badly, b. rewrite app_assoc, last_app. reflexivity.
    + apply RelativePath.existsb_false. eapply Forall_impl; [exact Hb|]. unfold tail_char, RelativePath.bad_char, is_control, RelativePath.forbidden_chars.
      intros c ?. rewrite bool_decide_eq_false_2; [lia|]. rewrite !not_elem_of_cons. repeat split; try lia. apply not_elem_of_nil.
  - unfold RelativePath.device_stem. change b with (100 :: 111 :: 99 :: 43 :: x ++ lit ".txt"). rewrite hd_split by done. cbn [map].
    generalize (map to_ascii_upper (hd [] (split RelativePath.is_dot (111 :: 99 :: 43 :: x ++ lit ".txt")))). intros y.
    change (to_ascii_upper 100) with 68. unfold RelativePath.is_device. rewrite bool_decide_eq_false_2; [reflexivity|].
    rewrite !not_elem_of_cons. repeat split; try (by intros [=]). apply not_elem_of_nil.
Qed.

Lemma tail_digits l : Forall (fun c => is_ascii_digit c = true) l -> Forall tail_char l.
Proof. intros Hl. eapply Forall_impl; [exact Hl|]. unfold tail_char, is_ascii_digit. intros c ?. lia. Qed.

Lemma doc_backup ms k : in_era ms -> 0 <= k <= 10000 ->
  exists b, backup_name (lit "doc.txt") (timestamp ms) k = Ok b /\ (length b <= 40)%nat.
Proof.
  intros Hms Hk. destruct (timestamp_form ms Hms) as (u & v & E & Lu & Lv & Fu & Fv). unfold backup_name.
  change (stem_ext (lit "doc.txt")) with (lit "doc", Some (lit "txt")). cbv zeta.
  set (counter := if k =? 0 then [] else lit "-" ++ decimal k). set (x := timestamp ms ++ counter).
  assert (Forall tail_char x /\ (length x <= 30)%nat) as [Hx Hlen].
  { assert (Forall tail_char counter /\ (length counter <= 6)%nat) as [Hc Hcl].
    { unfold counter. destruct (k =? 0); [split; [constructor|cbn; lia]|]. split.
      - apply Forall_app_2; [chars|]. apply tail_digits, decimal_digits_are. lia.
      - assert (length (decimal k) <= 5)%nat by (apply decimal_digits_bound; cbn; lia).
        change (Datatypes.S (length (decimal k)) <= 6)%nat. lia. }
    unfold x. rewrite E, !Forall_app, !length_app, Lu, Lv. split; [|cbn; lia].
    split; [|done]. split; [by apply tail_digits|]. split; [chars|]. split; [by apply tail_digits|chars]. }
  pose proof (doc_valid x Hx Hlen) as Hv.
  assert (forall u v, lit "doc" ++ lit "+" ++ u ++ v ++ lit "." ++ lit "txt" = lit "doc+" ++ (u ++ v) ++ lit ".txt") as Happ
    by (intros; rewrite <- !app_assoc; reflexivity).
  rewrite Happ. fold x.
  rewrite Hv. cbn [obind]. eexists. split; [reflexivity|]. rewrite !length_app.
  change (length (lit "doc+")) with 4%nat. change (length (lit ".txt")) with 4%nat. lia.
Qed.

(** ** A codec *)

Definition put (l rest : list Z) : list Z := Z.of_nat (length l) :: l ++ rest.
Definition get (l : list Z) : option (list Z * list Z) :=
  match l with [] => None | k :: l => Some (take (Z.to_nat k) l, drop (Z.to_nat k) l) end.

Lemma get_put l rest : get (put l rest) = Some (l, rest).
Proof. unfold get, put. rewrite Nat2Z.id, take_app_length, drop_app_length. done. Qed.

Definition phase_code (p : Phase) : Z := match p with Prepared => 0 | OldBackedUp => 1 | NewPublished => 2 | ReceiptCommitted => 3 end.
Definition code_phase (c : Z) : Phase := if c =? 0 then Prepared else if c =? 1 then OldBackedUp else if c =? 2 then NewPublished else ReceiptCommitted.

Definition old_code (j : Journal) : list Z := match old j with Some o => [o] | None => [] end.
Definition backup_code (j : Journal) : list Z := match backup j with Some b => 1 :: b | None => [] end.
Definition to_vec (j : Journal) : list Z :=
  version j :: parent_id j :: staged j :: suffix j :: phase_code (phase j) ::
  put (task j) (put (peer j) (put (relative j) (put (root_hash j) (put (stamp j)
    (put (old_code j) (backup_code j)))))).

Definition from_slice (l : list Z) : option Journal :=
  match l with
  | v :: pa :: sg :: su :: ph :: l =>
      '(ta, l) ← get l; '(pe, l) ← get l; '(re, l) ← get l; '(ro, l) ← get l; '(st, l) ← get l; '(ol, l) ← get l;
      Some (mk_journal v ta pe re ro pa sg (head ol) (match l with [] => None | _ :: b => Some b end) st su (code_phase ph))
  | _ => None
  end.

#[local] Instance codec : JournalCodec := {| journal_to_vec := fun j => Some (to_vec j); journal_from_slice := from_slice |}.
#[local] Instance codec_laws : JournalLaws.
Proof.
  intros j bs [= <-]. cbn [journal_from_slice codec]. unfold from_slice, to_vec. do 6 (rewrite get_put; cbn [mbind option_bind]).
  destruct j as [v ta pe re ro pa sg ol ba st su ph]. cbn. f_equal. f_equal; [by destruct ol|by destruct ba|by destruct ph].
Qed.
Lemma to_vec_length j : length (to_vec j) = (11 + length (task j) + length (peer j) + length (relative j) + length (root_hash j) +
  length (stamp j) + length (old_code j) + length (backup_code j))%nat.
Proof. unfold to_vec, put. repeat (rewrite length_app || cbn [length]). lia. Qed.

(** ** A publication that replaces a file *)

#[local] Instance hash : Blake3 := fun bs => take 2 bs.
#[local] Instance hex : Hex := fun bs => bs.
#[local] Instance key : NameKey := fun n => n.
#[local] Instance no_store : PublicationStore unit := {| prepare_publication _ := ret tt; commit_receipt _ _ := ret tt |}.

Definition data : list Z := [1; 2; 3].
Definition m : Manifest.FileManifest :=
  Eval vm_compute in match fst (Chunker.manifest_from_reader (lit "doc.txt") 16384 [Data data]) with
                     | Ok m => m | _ => Manifest.mk_manifest [] 0 0 [] [] end.
Definition d : TaskModel.FileTaskDetails := TaskModel.mk_file (lit "doc.txt") m false false None false false.
Definition r : TaskModel.TaskRecord :=
  TaskModel.mk_record 1 (lit "task") (lit "peer") TaskModel.Receive (TaskModel.Source []) (TaskModel.mk_identity [] 0 0 0) TaskModel.Failed 0 0
    None None (Some d) None None.

Definition old_file : inode := mk_inode [9] [9] true.
Definition d0 : disk := mk_disk {[1 := old_file; 2 := mk_inode data data true]} (mk_dir {[lit "doc.txt" := 1]} [])
  (mk_dir {[lit "data.part" := 2]} []) 7 3.

Lemma temp_not_data x : lit "data.part" <> journal_temp x.
Proof. unfold journal_temp. discriminate. Qed.

Lemma begins0 : begins (lit "data.part") 2 d0.
Proof.
  split; [reflexivity|reflexivity|done|cbn; lia|reflexivity|]. split; [discriminate|apply temp_not_data].
Qed.

Lemma verified0 : verified d (cur (inode_at d0 2)).
Proof. vm_compute. reflexivity. Qed.

Lemma target0 n i : entries (target d0) !! n = Some i -> n = lit "doc.txt" /\ i = 1.
Proof. cbn [target entries d0]. intros [? ?]%lookup_singleton_Some. done. Qed.

Lemma name0 : default [] (last (split RelativePath.is_slash (TaskModel.f_relative_path d))) = lit "doc.txt".
Proof. reflexivity. Qed.

Lemma stamp_length ms : in_era ms -> length (timestamp ms) = 19%nat.
Proof. intros Hms. destruct (timestamp_form ms Hms) as (u & v & -> & Lu & Lv & _). rewrite !length_app, Lu, Lv. reflexivity. Qed.

(** The journals of this publication are short. *)
Lemma journal_short j : ours r d 2 d0 j -> Z.of_nat (length (to_vec j)) <= 65536.
Proof.
  intros [(_ & Et & Ep & Er & Eh & _) F2 (ms & Hms & Es) F4 F5 _]. rewrite to_vec_length, Et, Ep, Er, Eh, Es, stamp_length by done.
  assert (length (old_code j) <= 1)%nat by (unfold old_code; destruct (old j); cbn; lia).
  assert (length (backup_code j) <= 41)%nat as Hb.
  { unfold backup_code. destruct (old0 d 2 d0); [|rewrite F4; cbn; lia]. destruct F4 as (b & -> & Hb). rewrite Es in Hb.
    destruct (doc_backup ms (suffix j) Hms F5) as (b' & Hb' & Hl). rewrite name0, Hb' in Hb. injection Hb as <-. cbn [length]. lia. }
  change (length (TaskModel.task_id r)) with 4%nat. change (length (TaskModel.peer_id r)) with 4%nat.
  change (length (TaskModel.f_relative_path d)) with 7%nat.
  assert (length (Manifest.to_hex (Manifest.root_hash (TaskModel.manifest d))) = 2%nat) as -> by (vm_compute; reflexivity). lia.
Qed.

Lemma resumable0 : resumable r d (lit "data.part") 2 d0.
Proof.
  constructor.
  - reflexivity.
  - vm_compute. discriminate.
  - exact verified0.
  - reflexivity.
  - exact begins0.
  - vm_compute. reflexivity.
  - reflexivity.
  - intros n i [-> ->]%target0. split; [cbn; lia|reflexivity].
  - intros n o _ [-> _]%target0. reflexivity.
  - change (entries (target d0)) with ({[lit "doc.txt" := 1]} : gmap name Z). rewrite map_size_singleton. lia.
  - intros n Hn _. exact Hn.
  - intros ms k _ Hms Hk. rewrite name0. destruct (doc_backup ms k Hms Hk) as (b & Hb & _). by exists b.
  - intros ms _ Hms. rewrite name0. destruct (doc_backup ms 0 Hms ltac:(lia)) as (b & Hb & _). exists 0, b. split; [lia|]. split; [done|].
    change (entries (target d0)) with ({[lit "doc.txt" := 1]} : gmap name Z). apply lookup_singleton_ne. intros <-.
    destruct (backup_name_no_slash _ _ _ _ Hb) as (_ & _ & Hne); [lia|rewrite <- name0; apply name_no_slash|by apply timestamp_no_slash|done].
  - intros j Hj. exists (to_vec j). split; [reflexivity|by apply journal_short].
  - intros. reflexivity.
  - intros. reflexivity.
Qed.

(** The sync after the link fails. *)
Definition c0 : ctx unit := mk_ctx d0 (repeat None 34 ++ [Some (mk_fault OtherKind 0)]) [1700000000000] [5; 5] tt false.
Definition c1 : ctx unit := (file r (lit "data.part") c0).2.
(** The process starts again. *)
Definition c2 : ctx unit := mk_ctx (disk_of c1) [] [1700000009000] [6; 7] tt (requested c1).
(** The power goes, and the link with it. *)
Definition lose (dk : disk) : disk := mk_disk (inodes dk) (mk_dir (hd ∅ (past (target dk))) [])
  (mk_dir (entries (stage dk)) []) (target_ino dk) (next_ino dk).
Definition c3 : ctx unit := mk_ctx (lose (disk_of c1)) [] [1700000009000] [6; 7] tt (requested c1).

Lemma first_fails : file r (lit "data.part") c0 = (Err (Io OtherKind), c1).
Proof. vm_compute. reflexivity. Qed.

Lemma hd_past (x y : gmap name Z) l : l <> [] -> hd x l ∈ y :: l.
Proof. intros Hl. apply elem_of_cons. right. destruct l; [done|]. by apply elem_of_cons; left. Qed.

Lemma lose_crash dk : length (past (target dk)) = 1%nat -> map_Forall (fun _ nd => syn nd = cur nd) (inodes dk) -> crash dk (lose dk).
Proof.
  intros Hp Hs. assert (forall i, syn (inode_at dk i) = cur (inode_at dk i)) as Hse.
  { intros i. unfold inode_at. destruct (inodes dk !! i) as [nd|] eqn:E; [exact (Hs i nd E)|reflexivity]. }
  constructor; try reflexivity.
  - apply hd_past. intros E. by rewrite E in Hp.
  - by apply elem_of_cons; left.
  - intros i p. by left.
  - exact Hse.
Qed.

Lemma crash1 : crash (disk_of c1) (lose (disk_of c1)).
Proof. apply lose_crash; [vm_compute; reflexivity|apply (bool_decide_eq_true_1 _); vm_compute; reflexivity]. Qed.
End PublishExample.

Import PublishExample Publish PublishProof PublishResume.
#[local] Existing Instances codec codec_laws hash hex key no_store.

Lemma publication_safe_witness : entries (target (disk_of c3)) !! lit "doc.txt" = None /\
  (exists b, is_backup (lit "doc.txt") b /\ entries (target (disk_of c3)) !! b = Some 1).
Proof.
  split; [vm_compute; reflexivity|].
  destruct (publication_safe r d (lit "data.part") 2 c0 c3) as (Hk & _); try reflexivity; try discriminate.
  - exact begins0.
  - apply (life_restart _ _ _ c1); [apply (life_attempt _ _ _ c0), life_start|right; exact crash1].
  - destruct (Hk (lit "doc.txt") 1 eq_refl) as [Hn|(_ & b & Hb & _ & Hb')]; [discriminate|vm_compute in Hn; discriminate|]. exists b. split; [exact Hb|exact Hb'].
Defined.

Lemma publication_resumes_witness : entries (target (disk_of c2)) !! lit "doc.txt" = Some 2 /\
  exists c', file r (lit "data.part") c2 = (Ok (lit "doc.txt"), c').
Proof.
  split; [vm_compute; reflexivity|]. apply (publication_resumes r d (lit "data.part") 2 c0 c2).
  - exact resumable0.
  - constructor; [|constructor]. unfold Calendar.in_era. lia.
  - apply tries_restart; [apply (tries_failed _ _ _ c0 _ _ (tries_start _ _ _) first_fails)|].
    constructor; [|constructor]. unfold Calendar.in_era. lia.
  - reflexivity.
  - intros x _. assert (entries (stage (disk_of c2)) = {[lit "data.part" := 2; JOURNAL := 4]}) as -> by (vm_compute; reflexivity).
    rewrite lookup_insert_ne by apply temp_not_data. apply lookup_singleton_ne. intros E. by apply (temp_not_journal x).
Defined.
