(* ===== verification/FrameBudget.v ===== *)
(** * Frame memory budget (src/node/core/frame_budget.rs)

    The three semaphores a frame reservation takes, in order: the task's, the
    data budget (only for frames of at least 64 KiB), the global one.  [reserve]
    is a sequence of awaits, so a reservation is modelled by the stage it has
    reached; [advance] is one successful acquire, [release] what dropping the
    future or the lease gives back.  Permits are counted in units of 64 KiB. *)
From Stdlib Require Import ZArith Lia.
From stdpp Require Import prelude gmap strings.
From S2P Require Import Prelude Io.

#[local] Open Scope Z_scope.

Module FrameBudget.

Definition MAX_FRAME_BYTES : Z := 4 * 1024 * 1024.
Definition UNIT : Z := 64 * 1024.
Definition GLOBAL_BYTES : Z := 64 * 1024 * 1024.
Definition DATA_BYTES : Z := 56 * 1024 * 1024.
Definition TASK_BYTES : Z := 8 * 1024 * 1024.

(** [Arc<Semaphore>]s by their free permits; tasks by a number. *)
Record FrameBudget : Type := mk_budget {
  all : Z;
  data : Z;
  tasks : gmap Z Z;
}.

Definition default_budget : FrameBudget := mk_budget (GLOBAL_BYTES / UNIT) (DATA_BYTES / UNIT) ∅.

(** [task_limit]: a task starts with all its permits. *)
Definition task_limit : Z := TASK_BYTES / UNIT.
Definition task_permits (b : FrameBudget) (t : Z) : Z := default task_limit (tasks b !! t).
Definition set_task (t n : Z) (b : FrameBudget) : FrameBudget :=
  mk_budget (all b) (data b) (<[t := n]> (tasks b)).

Inductive stage : Type := NeedTask | NeedData | NeedAll | Leased.
#[global] Instance stage_eq_dec : EqDecision stage.
Proof. solve_decision. Defined.

Record request : Type := mk_request {
  length : Z;
  task : option Z;
  at_stage : stage;
}.

(** [(length * 2).div_ceil(UNIT) as u32]. *)
Definition units_of (len : Z) : Z := div_ceil (len * 2) UNIT mod (U32_MAX + 1).
Definition units (r : request) : Z := units_of (length r).

Definition is_data (r : request) : bool := UNIT <=? length r.

(** The stage after the task's permits. *)
Definition after_task (length : Z) : stage := if UNIT <=? length then NeedData else NeedAll.

(** The start of [reserve]: the length check comes first. *)
Definition reserve (len : Z) (t : option Z) : result request :=
  let? _ := fail_if ((len =? 0) || (MAX_FRAME_BYTES <? len)) (Protocol "frame length over the limit") in
  Ok (mk_request len t (match t with Some _ => NeedTask | None => after_task len end)).

(** One acquire, when enough permits are free. *)
Definition advance (r : request) (b : FrameBudget) : option (request * FrameBudget) :=
  let n := units r in
  match at_stage r with
  | NeedTask =>
      match task r with
      | Some t =>
          if n <=? task_permits b t
          then Some (mk_request (length r) (task r) (after_task (length r)), set_task t (task_permits b t - n) b)
          else None
      | None => None
      end
  | NeedData =>
      if n <=? data b
      then Some (mk_request (length r) (task r) NeedAll, mk_budget (all b) (data b - n) (tasks b))
      else None
  | NeedAll =>
      if n <=? all b
      then Some (mk_request (length r) (task r) Leased, mk_budget (all b - n) (data b) (tasks b))
      else None
  | Leased => None
  end.

(** What a request holds. *)
Definition holds_task (t : Z) (r : request) : bool :=
  bool_decide (task r = Some t) && match at_stage r with NeedTask => false | _ => true end.
Definition holds_data (r : request) : bool :=
  is_data r && match at_stage r with NeedAll | Leased => true | _ => false end.
Definition holds_all (r : request) : bool :=
  match at_stage r with Leased => true | _ => false end.

(** Dropping the future (cancellation) or the [FrameLease]. *)
Definition release (r : request) (b : FrameBudget) : FrameBudget :=
  let n := units r in
  let b := match task r with
           | Some t => if holds_task t r then set_task t (task_permits b t + n) b else b
           | None => b
           end in
  mk_budget (if holds_all r then all b + n else all b)
    (if holds_data r then data b + n else data b) (tasks b).

(** [FrameBudget::read], once the reservation is granted; the decoder of the
    frame is a parameter, like the memory the lease stands for. *)
Definition read_length (r : reader) : result Z * reader :=
  let (header, r) := read_exact_async 4 r in
  (match header with
   | Ok bytes => Ok (le_val bytes)
   | Err k => Err (Io k)
   | Panic => Panic
   end, r).

Definition read_body {F : Type} (decode : list Z -> result F) (len : Z) (r : reader) : result F * reader :=
  let (body, r) := read_exact_async (Z.to_nat len) r in
  (match body with
   | Ok bytes => decode bytes
   | Err k => Err (Io k)
   | Panic => Panic
   end, r).

(** ** Runs *)

Record system : Type := mk_system { budget : FrameBudget; requests : list request }.

Inductive step : system -> system -> Prop :=
  | Arrive len t r b rs : 0 <= len -> reserve len t = Ok r -> step (mk_system b rs) (mk_system b (r :: rs))
  | Advance b r r' b' l1 l2 : advance r b = Some (r', b') ->
      step (mk_system b (l1 ++ r :: l2)) (mk_system b' (l1 ++ r' :: l2))
  | Release b r l1 l2 : step (mk_system b (l1 ++ r :: l2)) (mk_system (release r b) (l1 ++ l2)).

Inductive reachable : system -> Prop :=
  | Start : reachable (mk_system default_budget [])
  | Next x y : reachable x -> step x y -> reachable y.

(** ** Facts *)

Definition held (p : request -> bool) (rs : list request) : Z :=
  fold_right (fun r acc => (if p r then units r else 0) + acc) 0 rs.

Lemma held_app p l1 l2 : held p (l1 ++ l2) = held p l1 + held p l2.
Proof. unfold held. induction l1 as [|r l1 IH]; cbn in *; lia. Qed.

Lemma held_cons p r l : held p (r :: l) = (if p r then units r else 0) + held p l.
Proof. done. Qed.

Definition legal (r : request) : Prop :=
  1 <= length r <= MAX_FRAME_BYTES /\
  (at_stage r = NeedTask -> is_Some (task r)) /\ (at_stage r = NeedData -> is_data r = true).

Lemma units_bounds r : legal r ->
  units r = div_ceil (length r * 2) UNIT /\ 1 <= units r <= task_limit.
Proof.
  intros [Hl _]. unfold units, units_of, task_limit, TASK_BYTES, MAX_FRAME_BYTES, UNIT, U32_MAX in *.
  pose proof (div_ceil_spec (length r * 2) (64 * 1024) ltac:(lia) ltac:(lia)) as Hd.
  assert (1 <= div_ceil (length r * 2) (64 * 1024) <= 128) as Hb by lia.
  rewrite Z.mod_small by lia. split; [done|]. change (8 * 1024 * 1024 / (64 * 1024)) with 128. lia.
Qed.

Lemma held_nonneg p rs : Forall legal rs -> 0 <= held p rs.
Proof.
  intros Hl. unfold held. induction Hl as [|r rs Hr Hl IH]; cbn; [lia|].
  pose proof (units_bounds r Hr). destruct (p r); lia.
Qed.

Lemma held_le p q rs : Forall legal rs -> (forall r, legal r -> p r = true -> q r = true) ->
  held p rs <= held q rs.
Proof.
  intros Hl Hpq. unfold held. induction Hl as [|r rs Hr Hl IH]; cbn; [lia|].
  pose proof (units_bounds r Hr). specialize (Hpq r Hr).
  destruct (p r), (q r); lia.
Qed.

Record Inv (x : system) : Prop := {
  inv_legal : Forall legal (requests x);
  inv_all : all (budget x) + held holds_all (requests x) = GLOBAL_BYTES / UNIT;
  inv_data : data (budget x) + held holds_data (requests x) = DATA_BYTES / UNIT;
  inv_task : forall t, task_permits (budget x) t + held (holds_task t) (requests x) = task_limit;
  inv_free : 0 <= all (budget x) /\ 0 <= data (budget x) /\ forall t, 0 <= task_permits (budget x) t;
}.

Lemma task_permits_set t u n b : task_permits (set_task t n b) u = if decide (t = u) then n else task_permits b u.
Proof.
  unfold task_permits, set_task. cbn. case_decide as E.
  - by rewrite E, lookup_insert_eq.
  - by rewrite lookup_insert_ne.
Qed.

Lemma reserve_legal len t r : 0 <= len -> reserve len t = Ok r ->
  legal r /\ holds_all r = false /\ holds_data r = false /\ forall u, holds_task u r = false.
Proof.
  intros Hl. unfold reserve, fail_if. destruct (_ || _) eqn:E; [done|]. cbn. intros [= <-].
  apply orb_false_iff in E as [E1 E2]. bool_hyps.
  unfold legal, holds_all, holds_data, holds_task, is_data, after_task. cbn.
  destruct (Z.leb_spec UNIT len), t as [t|]; cbn; (split; [split; [lia|by split]|]); repeat split;
    intros; rewrite ?andb_false_r; done.
Qed.

(** The projections of a request in constructor form. *)
Lemma holds_all_mk len t st :
  holds_all (mk_request len t st) = match st with Leased => true | _ => false end.
Proof. done. Qed.
Lemma holds_data_mk len t st :
  holds_data (mk_request len t st) =
  (UNIT <=? len) && match st with NeedAll | Leased => true | _ => false end.
Proof. done. Qed.
Lemma holds_task_mk u len t st :
  holds_task u (mk_request len t st) =
  bool_decide (t = Some u) && match st with NeedTask => false | _ => true end.
Proof. done. Qed.
Lemma units_mk len t st : units (mk_request len t st) = units_of len.
Proof. done. Qed.

Ltac reduce_request :=
  repeat first
    [ rewrite holds_all_mk in * | rewrite holds_data_mk in * | rewrite holds_task_mk in *
    | rewrite units_mk in * | rewrite andb_false_r in * | rewrite andb_true_r in * ];
  cbv iota in *; cbn [length andb all data set_task at_stage task] in *.

Lemma advance_inv b r r' b' l1 l2 : Inv (mk_system b (l1 ++ r :: l2)) ->
  advance r b = Some (r', b') -> Inv (mk_system b' (l1 ++ r' :: l2)).
Proof.
  intros [Hl Ha Hd Ht (Fa & Fd & Ft)] E. cbn [budget requests] in *.
  apply Forall_app in Hl as [Hl1 [Hr Hl2]%Forall_cons].
  rewrite held_app, held_cons in Ha, Hd. setoid_rewrite held_app in Ht. setoid_rewrite held_cons in Ht.
  destruct Hr as (Hlen & Hst & Hdt). destruct r as [len t st].
  unfold advance, after_task in E. reduce_request.
  set (n := units_of len) in *.
  destruct st; [destruct t as [t|]; [|done]| | |done].
  - reduce_request. destruct (Z.leb_spec n (task_permits b t)); [|done]. injection E as <- <-.
    split; cbn [budget requests]; rewrite ?held_app, ?held_cons.
    + apply Forall_app. split; [done|]. apply Forall_cons. split; [|done]. split; [done|]. unfold is_data.
      cbn. split; [done|]. by destruct (Z.leb_spec UNIT len).
    + destruct (UNIT <=? len) eqn:El; reduce_request; rewrite ?El; lia.
    + destruct (UNIT <=? len) eqn:El; reduce_request; rewrite ?El; lia.
    + intros u. rewrite held_app, held_cons, task_permits_set. specialize (Ht u).
      destruct (UNIT <=? len) eqn:El; reduce_request; fold n; (case_decide as Eu;
        [subst u; rewrite bool_decide_true by done|rewrite bool_decide_false by congruence]); lia.
    + cbn. split; [done|]. split; [done|]. intros u. rewrite task_permits_set. case_decide; [lia|done].
  - reduce_request. destruct (Z.leb_spec n (data b)); [|done]. injection E as <- <-. specialize (Hdt eq_refl). unfold is_data in Hdt.
    split; cbn [budget requests all data tasks]; rewrite ?held_app, ?held_cons.
    + apply Forall_app. split; [done|]. apply Forall_cons. by split.
    + reduce_request. lia.
    + reduce_request. rewrite Hdt in *. fold n. lia.
    + intros u. rewrite held_app, held_cons. apply (Ht u).
    + split; [done|]. split; [lia|done].
  - reduce_request. destruct (Z.leb_spec n (all b)); [|done]. injection E as <- <-.
    split; cbn [budget requests all data tasks]; rewrite ?held_app, ?held_cons.
    + apply Forall_app. split; [done|]. apply Forall_cons. by split.
    + reduce_request. fold n. lia.
    + reduce_request. fold n. lia.
    + intros u. rewrite held_app, held_cons. apply (Ht u).
    + split; [lia|done].
Qed.

Lemma release_inv b r l1 l2 : Inv (mk_system b (l1 ++ r :: l2)) -> Inv (mk_system (release r b) (l1 ++ l2)).
Proof.
  intros [Hl Ha Hd Ht (Fa & Fd & Ft)]. cbn [budget requests] in *.
  apply Forall_app in Hl as [Hl1 [Hr Hl2]%Forall_cons]. pose proof (units_bounds r Hr) as [_ Hu].
  rewrite held_app, held_cons in Ha, Hd. setoid_rewrite held_app in Ht. setoid_rewrite held_cons in Ht.
  assert (forall u, task_permits (release r b) u =
            task_permits b u + (if holds_task u r then units r else 0)) as Hrel.
  { intros u. unfold release, task_permits at 1. cbn [tasks].
    change (task_permits (match task r with
                          | Some t => if holds_task t r then set_task t (task_permits b t + units r) b else b
                          | None => b
                          end) u = task_permits b u + (if holds_task u r then units r else 0)).
    destruct (task r) as [t|] eqn:Et.
    - destruct (holds_task t r) eqn:Eh.
      + rewrite task_permits_set. case_decide as E; [subst u; by rewrite Eh|].
        unfold holds_task. rewrite Et, bool_decide_false by congruence. cbn. lia.
      + unfold holds_task in *. rewrite Et in *. rewrite bool_decide_true in Eh by done. cbn in Eh.
        rewrite Eh, andb_false_r. lia.
    - unfold holds_task. rewrite Et, bool_decide_false by done. cbn. lia. }
  split; cbn [budget requests]; rewrite ?held_app.
  - apply Forall_app. by split.
  - cbn. destruct (task r) as [t|]; [destruct (holds_task t r)|]; cbn; destruct (holds_all r); lia.
  - cbn. destruct (task r) as [t|]; [destruct (holds_task t r)|]; cbn; destruct (holds_data r); lia.
  - intros u. rewrite held_app, Hrel. specialize (Ht u). lia.
  - cbn. split; [|split].
    + destruct (task r) as [t|]; [destruct (holds_task t r)|]; cbn; destruct (holds_all r); lia.
    + destruct (task r) as [t|]; [destruct (holds_task t r)|]; cbn; destruct (holds_data r); lia.
    + intros u. rewrite Hrel. specialize (Ft u). destruct (holds_task u r); lia.
Qed.

Lemma frames_reachable_inv x : reachable x -> Inv x.
Proof.
  induction 1 as [|x y _ IH Hst].
  - by split; cbn.
  - destruct Hst as [len t r b rs Hlen E|b r r' b' l1 l2 E|b r l1 l2].
    + destruct (reserve_legal len t r Hlen E) as (Hr & E1 & E2 & E3).
      destruct IH as [Hl Ha Hd Ht Hf]. cbn [budget requests] in *.
      split; cbn [budget requests]; rewrite ?held_cons, ?E1, ?E2; try lia; [by constructor| |done].
      intros u. rewrite held_cons, E3. apply Ht.
    + by eapply advance_inv.
    + by apply release_inv.
Qed.

Lemma held_none p rs : Forall (fun r => p r = false) rs -> held p rs = 0.
Proof. unfold held. induction 1 as [|r rs E Hp IH]; cbn; [done|]. rewrite E. lia. Qed.

(** With the permits of its stage free, a legal request advances. *)
Lemma advance_free r b : legal r ->
  match at_stage r with
  | NeedTask => forall t, task_limit <= task_permits b t
  | NeedData => task_limit <= data b
  | NeedAll => task_limit <= all b
  | Leased => False
  end -> is_Some (advance r b).
Proof.
  intros Hr Hf. pose proof (units_bounds r Hr) as [_ Hu]. destruct Hr as (_ & Hst & _).
  unfold advance. destruct (at_stage r).
  - destruct (Hst eq_refl) as [t ->]. specialize (Hf t).
    destruct (Z.leb_spec (units r) (task_permits b t)); [by eexists|lia].
  - destruct (Z.leb_spec (units r) (data b)); [by eexists|lia].
  - destruct (Z.leb_spec (units r) (all b)); [by eexists|lia].
  - done.
Qed.

(** ** Properties *)

(** C35: Frame memory is bounded and always makes progress. The permits out never
    exceed 64 MiB in total, 56 MiB for frames of 64 KiB and more, and 8 MiB per
    task, so at least 8 MiB stay for control frames; every frame of a legal length
    fits; and reservations cannot deadlock: when some are waiting and none is
    granted, one of the waiting ones can take its next permit. Cancelling one at
    any stage gives back exactly what it holds. *)
Theorem frame_budget_progress (x : system) : reachable x ->
  held holds_all (requests x) <= GLOBAL_BYTES / UNIT /\
  held holds_data (requests x) <= DATA_BYTES / UNIT /\
  (forall t, held (holds_task t) (requests x) <= TASK_BYTES / UNIT) /\
  held (fun r => holds_all r && is_data r) (requests x) <= DATA_BYTES / UNIT /\
  (requests x <> [] -> Forall (fun r => holds_all r = false) (requests x) ->
   exists r, r ∈ requests x /\ is_Some (advance r (budget x))).
Proof.
  intros Hr%frames_reachable_inv. destruct Hr as [Hl Ha Hd Ht (Fa & Fd & Ft)].
  split; [lia|]. split; [lia|]. split; [intros t; specialize (Ht t); specialize (Ft t); change (TASK_BYTES / UNIT) with task_limit; lia|].
  split.
  { transitivity (held holds_data (requests x)); [|lia]. apply held_le; [done|].
    intros r _ [H1 H2]%andb_true_iff. unfold holds_all, holds_data in *. rewrite H2. by destruct (at_stage r). }
  intros Hne Hnone.
  destruct (Exists_dec (fun r => at_stage r = NeedAll) (requests x)) as [He|He].
  { apply Exists_exists in He as (r & Hin & Hs). exists r. split; [done|].
    rewrite held_none in Ha by done. apply (advance_free r); [by eapply Forall_forall|].
    rewrite Hs. change (GLOBAL_BYTES / UNIT) with 1024 in Ha. change task_limit with 128. lia. }
  apply not_Exists_Forall in He; [|intros; apply _].
  destruct (Exists_dec (fun r => at_stage r = NeedData) (requests x)) as [He'|He'].
  { apply Exists_exists in He' as (r & Hin & Hs). exists r. split; [done|].
    rewrite held_none in Hd.
    - apply (advance_free r); [by eapply Forall_forall|].
      rewrite Hs. change (DATA_BYTES / UNIT) with 896 in Hd. change task_limit with 128. lia.
    - apply Forall_forall. intros r' Hin'. pose proof (proj1 (Forall_forall _ _) He r' Hin') as H1.
      pose proof (proj1 (Forall_forall _ _) Hnone r' Hin') as H2. cbn in *. unfold holds_data, holds_all in *.
      destruct (at_stage r'); rewrite ?andb_false_r; done. }
  apply not_Exists_Forall in He'; [|intros; apply _].
  destruct (requests x) as [|r rs] eqn:E; [done|]. exists r. split; [by left|].
  assert (Forall (fun r => at_stage r = NeedTask) (r :: rs)) as Hall.
  { apply Forall_forall. intros r' Hin'. pose proof (proj1 (Forall_forall _ _) He r' Hin') as H1.
    pose proof (proj1 (Forall_forall _ _) He' r' Hin') as H2.
    pose proof (proj1 (Forall_forall _ _) Hnone r' Hin') as H3. cbn in *. unfold holds_all in *.
    by destruct (at_stage r'). }
  apply Forall_cons in Hl as [Hl _]. apply (advance_free r); [done|].
  apply Forall_cons in Hall as [Hs Hall]. rewrite Hs. intros t. specialize (Ht t).
  rewrite held_none in Ht; [lia|]. apply Forall_cons. unfold holds_task. rewrite Hs, andb_false_r.
  split; [done|]. eapply Forall_impl; [exact Hall|]. cbn. intros r' ->. by rewrite andb_false_r.
Qed.

Lemma frame_budget_progress_witness :
  let r := mk_request MAX_FRAME_BYTES (Some 1) NeedTask in
  reachable (mk_system default_budget [r]) /\
  exists r', r' ∈ [r] /\ is_Some (advance r' default_budget).
Proof.
  intros r. assert (reachable (mk_system default_budget [r])) as Hr.
  { eapply Next; [apply Start|]. apply (Arrive MAX_FRAME_BYTES (Some 1)); [by vm_compute|reflexivity]. }
  split; [exact Hr|].
  apply (proj2 (proj2 (proj2 (proj2 (frame_budget_progress _ Hr))))); [discriminate|].
  apply Forall_cons. split; [reflexivity|apply Forall_nil; exact I].
Defined.

End FrameBudget.
