(* ===== verification/Transfer.v ===== *)
(** * Sending and receiving a file (src/transfer/sender.rs, src/transfer/receiver.rs)

    The two loops of the pull protocol after the handshake, over the streams of
    Link.v.  Opening the streams, [finish] and [tracing]
    are not visible at this level. *)
From Stdlib Require Import ZArith Lia.
From stdpp Require Import prelude gmap strings.
From S2P Require Import Prelude Bitmap Io Manifest Postcard Message Chunker State FileSystem Storage Link.

#[local] Open Scope Z_scope.

Module Transfer.
Import Manifest Message.
Export Link.
Import Storage (PartialDownload).

Section WithHash.
Context `{Blake3} {hexc : Hex}.

(** ** Sender *)

Record SendReport : Type := mk_send_report {
  sr_peer_node_id : NodeId;
  sr_file_name : list Z;
  sr_total_len : Z;
  sr_chunk_count : Z;
  sr_chunks_sent : Z;
  sr_chunks_skipped : Z;
}.

(** The request loop. Each round reads one event. *)
Fixpoint send_loop (fuel : nat) (m : FileManifest) (file : list Z) (peer_bitmap : ChunkBitmap.t)
    (chunks_sent : Z) : st link error Z :=
  match fuel with
  | O => panic
  | S fuel' =>
      let! message := recv_msg "timeout waiting for RequestChunk or Complete"
                        "closed before the end" in
      match message with
      | RequestChunk index =>
          let! range := liftr (ok_or (chunk_range m index) (Protocol "no such chunk")) in
          let! have := liftr (ChunkBitmap.is_set peer_bitmap index) in
          if have then send_loop fuel' m file peer_bitmap chunks_sent
          else
            let! data := liftr (Chunker.read_chunk file range.1 range.2) in
            let! _ := send_msg (Chunk index data) in
            send_loop fuel' m file peer_bitmap (wrapping_add U32_MAX chunks_sent 1)
      | Complete root_hash =>
          if bool_decide (root_hash = Manifest.root_hash m) then ret chunks_sent
          else throw (Protocol "root hash mismatch")
      | KeepAlive => send_loop fuel' m file peer_bitmap chunks_sent
      | AbortMsg _ => throw (Protocol "peer aborted")
      | Bye => throw (Protocol "peer left before Complete")
      | _ => throw (Protocol "unexpected message")
      end
  end.

(** [send_file_after_handshake]: [open] is the file as the manifest sees it,
    [file] as the second [File::open] finds it. *)
Definition send_file_after_handshake (name : option (list Z)) (open : outcome io_kind reader)
    (file : outcome io_kind (list Z)) (chunk_size : Z) (peer_node_id : NodeId) :
    st link error SendReport :=
  let! m := liftr (Chunker.manifest_from_path name open chunk_size) in
  let! _ := send_msg (ManifestMsg m) in
  let! resume := recv_msg "timeout waiting for Resume" "closed without Resume" in
  let! peer_bitmap :=
    match resume with
    | Resume have => liftr (ChunkBitmap.from_bytes (chunk_count m) have)
    | AbortMsg _ => throw (Protocol "peer refused")
    | _ => throw (Protocol "expected Resume")
    end in
  let chunks_skipped := ChunkBitmap.count_set peer_bitmap in
  let! data := liftr (map_err Io file) in
  let! n := gets (fun l => length (inbox l)) in
  let! chunks_sent := send_loop (S n) m data peer_bitmap 0 in
  ret (mk_send_report peer_node_id (file_name m) (total_len m) (chunk_count m) chunks_sent
         chunks_skipped).

(** ** Receiver *)

Definition DEFAULT_WINDOW : Z := 16.

(** [OutstandingChunks]. *)
Abbreviation OutstandingChunks := (gset Z).
Definition oc_request (o : OutstandingChunks) (index : Z) : OutstandingChunks := {[index]} ∪ o.
Definition oc_contains (o : OutstandingChunks) (index : Z) : bool := bool_decide (index ∈ o).
Definition oc_complete (o : OutstandingChunks) (index : Z) : bool * OutstandingChunks :=
  (bool_decide (index ∈ o), o ∖ {[index]}).
Definition oc_len (o : OutstandingChunks) : Z := Z.of_nat (size o).
Definition oc_is_empty (o : OutstandingChunks) : bool := bool_decide (o = ∅).

Record ReceiveReport : Type := mk_receive_report {
  rr_peer_node_id : NodeId;
  rr_file_name : list Z;
  rr_total_len : Z;
  rr_chunk_count : Z;
  rr_chunks_received : Z;
  rr_output_path : list Z;
}.

(** The download with its disk, and the stream. *)
Abbreviation rstate := ((PartialDownload * world) * link)%type.
Definition on_download {A : Type} (c : st (PartialDownload * world) error A) : st rstate error A :=
  zoom fst (fun x s => (x, s.2)) c.
Definition on_link {A : Type} (c : st link error A) : st rstate error A :=
  zoom snd (fun l s => (s.1, l)) c.

(** [while outstanding.len() < DEFAULT_WINDOW]: request the next missing chunks. *)
Fixpoint request_more (pending : list Z) (outstanding : OutstandingChunks) :
    st link error (list Z * OutstandingChunks) :=
  if oc_len outstanding <? DEFAULT_WINDOW then
    match pending with
    | [] => ret ([], outstanding)
    | index :: rest =>
        let! _ := send_msg (RequestChunk index) in
        request_more rest (oc_request outstanding index)
    end
  else ret (pending, outstanding).

(** One [Chunk] message. *)
Definition accept_chunk (outstanding : OutstandingChunks) (index : Z) (data : list Z) :
    st (PartialDownload * world) error OutstandingChunks :=
  if negb (oc_contains outstanding index) then
    let! _ := Storage.discard in
    throw (Protocol "chunk not requested or duplicate")
  else
    let! _ := Storage.write_chunk index data in
    ret (snd (oc_complete outstanding index)).

(** The receive loop. Each round reads one event. *)
Fixpoint receive_loop (fuel : nat) (pending : list Z) (outstanding : OutstandingChunks)
    (chunks_received : Z) : st rstate error Z :=
  match fuel with
  | O => panic
  | S fuel' =>
      let! win := on_link (request_more pending outstanding) in
      let '(pending, outstanding) := win in
      if oc_is_empty outstanding then ret chunks_received
      else
        let! message := on_link (recv_msg "timeout waiting for Chunk" "closed before all chunks") in
        match message with
        | Chunk index data =>
            let! outstanding := on_download (accept_chunk outstanding index data) in
            receive_loop fuel' pending outstanding (wrapping_add U32_MAX chunks_received 1)
        | KeepAlive => receive_loop fuel' pending outstanding chunks_received
        | AbortMsg _ =>
            let! _ := on_download Storage.discard in
            throw (Protocol "peer aborted")
        | _ =>
            let! _ := on_download Storage.discard in
            throw (Protocol "unexpected message")
        end
  end.

(** From the end of the loop to the report: finalize first, then [Complete]. *)
Definition conclude (m : FileManifest) (peer_node_id : NodeId) (chunks_received : Z) :
    st rstate error ReceiveReport :=
  let! d := gets (fun s => s.1.1) in
  let! _ :=
    if negb (Storage.is_complete d) then
      let! _ := liftr (Storage.missing d) in
      let! _ := on_download Storage.discard in
      throw (Protocol "chunks missing at the end")
    else ret tt in
  let! r := attempt (on_download Storage.finalize) in
  match r with
  | Ok output_path =>
      let! _ := on_link (send_msg (Complete (Manifest.root_hash m))) in
      ret (mk_receive_report peer_node_id (file_name m) (total_len m) (chunk_count m)
             chunks_received output_path)
  | Err e =>
      let! _ := attempt (on_link (send_msg (AbortMsg (lit "finalize failed")))) in
      throw e
  | Panic => panic
  end.

(** What [receive_file_on_stream] does with the open download. *)
Definition receive_download (m : FileManifest) (peer_node_id : NodeId) :
    st rstate error ReceiveReport :=
  let! d := gets (fun s => s.1.1) in
  let! _ := on_link (send_msg (Resume (ChunkBitmap.to_bytes (Storage.written_bitmap d)))) in
  let! missing := liftr (Storage.missing d) in
  let! n := gets (fun s => length (inbox s.2)) in
  let! chunks_received := receive_loop (S n) missing ∅ 0 in
  conclude m peer_node_id chunks_received.

Definition receive_file_on_stream (m : FileManifest) (peer_node_id : NodeId) :
    st (world * link) error ReceiveReport :=
  let! _ := liftr (validate m) in
  let! d := zoom fst (fun w s => (w, s.2)) (Storage.create m) in
  fun s =>
    let '(r, s') := receive_download m peer_node_id ((d, s.1), s.2) in
    (r, (s'.1.2, s'.2)).

(** The part of [receive_file] between the handshake and the transfer: the
    first frame has to be a manifest. *)
Definition receive_file (peer_node_id : NodeId) : st (world * link) error ReceiveReport :=
  let! first := zoom snd (fun l s => (s.1, l))
                  (recv_msg "timeout waiting for the first frame" "closed without a manifest") in
  match first with
  | ManifestMsg m =>
      let! _ := liftr (validate m) in
      receive_file_on_stream m peer_node_id
  | _ => throw (Protocol "expected Manifest")
  end.

End WithHash.
End Transfer.
