(* ===== verification/TransferProof.v ===== *)
(** * The transfer protocol: theorems (src/transfer/sender.rs, src/transfer/receiver.rs)

    What each side guarantees against any peer, and that the two sides together
    move the file. *)
From Stdlib Require Import ZArith Lia.
From stdpp Require Import prelude gmap strings.
From S2P Require Import Prelude Bitmap Io Manifest Postcard Message Chunker State FileSystem Storage.
From S2P Require Import StorageProof StorageCalm Transfer.

#[local] Open Scope Z_scope.
#[local] Arguments lit : simpl never.

Module TransferProof.
Import Manifest Message Transfer.
Import ChunkBitmap (view, wf).

Abbreviation rstate := ((Storage.PartialDownload * world) * link)%type.

(** Field widths of the messages a decoder produces. *)
Definition well_typed (m : ControlMessage) : Prop :=
  match m with
  | RequestChunk i => is_u32 i
  | Chunk i data => is_u32 i
  | Resume have => are_bytes have
  | ManifestMsg mf => is_u64 (total_len mf)
  | _ => True
  end.
Definition typed_event (ev : incoming) : Prop :=
  match ev with
  | Got m => well_typed m
  | _ => True
  end.

(** ** Links *)

Section WithHash.
Context `{Blake3} {hexc : Hex}.

(** ** Sender *)

(** A chunk the sender may send: a range of the manifest, the bytes of the file
    in that range, and not one the peer has. *)
Definition good_chunk (m : FileManifest) (file : list Z) (bm : ChunkBitmap.t) (msg : ControlMessage) : Prop :=
  exists i range, msg = Chunk i (slice file range) /\ chunk_range m i = Some range /\
    Z.of_nat (length (slice file range)) = range.2 /\ 0 <= i /\ view bm i = false.

Lemma read_chunk_Ok file o n data : Chunker.read_chunk file o n = Ok data ->
  data = slice file (o, n) /\ n <= Z.of_nat (length data).
Proof.
  unfold Chunker.read_chunk, fail_if. destruct (_ <? n); [done|]. cbn.
  destruct (Z.ltb_spec (Z.of_nat (length (slice file (o, n)))) n); [done|]. by intros [= <-].
Qed.

Lemma read_chunk_no_panic file o n : Chunker.read_chunk file o n <> Panic.
Proof. unfold Chunker.read_chunk, fail_if. destruct (_ <? n); [done|]. cbn. by destruct (_ <? n). Qed.

Lemma slice_le file o n : 0 <= n -> n <= Z.of_nat (length (slice file (o, n))) ->
  Z.of_nat (length (slice file (o, n))) = n.
Proof. unfold slice. cbn. rewrite length_take. lia. Qed.

Lemma chunk_len_nonneg m i range : validate m = Ok tt -> is_u64 (total_len m) -> 0 <= i ->
  chunk_range m i = Some range -> 0 <= range.2.
Proof.
  intros Hv%validate_Ok Ht Hi Hr. rewrite chunk_range_spec in Hr by done.
  destruct (Z.ltb_spec i (Z.of_nat (length (chunks m)))) as [Hlt|]; [|done]. injection Hr as <-.
  destruct (StorageProof.chunk_length_range m i Hv Ht ltac:(lia)) as [E ?]. cbn. lia.
Qed.

Lemma wp_send_loop m file bm fuel c l : validate m = Ok tt -> is_u64 (total_len m) -> wf bm ->
  (length (inbox l) < fuel)%nat -> Forall typed_event (inbox l) -> is_u32 c ->
  wp (send_loop fuel m file bm c)
    (fun n l' => exists msgs before, sent l' = sent l ++ msgs /\ Forall (good_chunk m file bm) msgs /\
       n = (c + Z.of_nat (length msgs)) mod (U32_MAX + 1) /\
       inbox l = before ++ Got (Complete (root_hash m)) :: inbox l')
    (fun e l' => exists msgs, sent l' = sent l ++ msgs /\ Forall (good_chunk m file bm) msgs) l.
Proof.
  intros Hv Ht Hw. revert c l. induction fuel as [|fuel IH]; intros c l Hf Hty Hc; [lia|].
  cbn [send_loop]. apply wp_bind, wp_recv.
  { intros e rest _. exists []. cbn. by rewrite app_nil_r. }
  intros msg rest E. rewrite E in Hf, Hty. apply Forall_cons in Hty as [Hmsg Hty]. cbn in Hf, Hmsg.
  assert (exists msgs, sent l = sent l ++ msgs /\ Forall (good_chunk m file bm) msgs) as Hnone
    by (exists []; by rewrite app_nil_r).
  (* going on without sending *)
  assert (wp (send_loop fuel m file bm c)
    (fun n l' => exists msgs before, sent l' = sent l ++ msgs /\ Forall (good_chunk m file bm) msgs /\
       n = (c + Z.of_nat (length msgs)) mod (U32_MAX + 1) /\
       Got msg :: rest = before ++ Got (Complete (root_hash m)) :: inbox l')
    (fun e l' => exists msgs, sent l' = sent l ++ msgs /\ Forall (good_chunk m file bm) msgs)
    (mk_link rest (fates l) (sent l))) as Hskip.
  { eapply wp_conseq; [apply IH; cbn; done || lia|cbn|done]. intros n l' (msgs & before & H1 & H2 & H3 & H4).
    exists msgs, (Got msg :: before). cbn. by rewrite H4. }
  rewrite E.
  destruct msg; try (apply wp_throw; exact Hnone).
  - (* RequestChunk *)
    apply wp_bind, wp_liftr. destruct (chunk_range m index) as [range|] eqn:Er; cbn [ok_or]; [|exact Hnone].
    rewrite ChunkBitmap.is_set_spec by (done || apply Hmsg). apply wp_bind, wp_liftr.
    destruct (view bm index) eqn:Ev; [exact Hskip|].
    apply wp_bind, wp_liftr.
    pose proof (read_chunk_no_panic file range.1 range.2).
    destruct (Chunker.read_chunk file range.1 range.2) as [data|e|] eqn:Ed; [|exact Hnone|done].
    apply read_chunk_Ok in Ed as [-> Hlen]. rewrite <- (surjective_pairing range) in *.
    assert (good_chunk m file bm (Chunk index (slice file range))) as Hgood.
    { exists index, range. split; [done|]. split; [done|]. split; [|split; [apply Hmsg|done]].
      destruct range as [o n]. apply slice_le; [|done].
      by apply (chunk_len_nonneg m index (o, n) Hv Ht (proj1 Hmsg)). }
    apply wp_bind, wp_send; [intros e fs; exact Hnone|]. intros fs. cbn [inbox sent fates].
    eapply wp_conseq; [apply IH; cbn; try done; try lia|cbn..].
    + unfold in_range, wrapping_add, U32_MAX in *. pose proof (Z.mod_pos_bound (c + 1) (4294967295 + 1)). lia.
    + intros n l' (msgs & before & H1 & H2 & H3 & H4).
      exists (Chunk index (slice file range) :: msgs), (Got (RequestChunk index) :: before).
      split; [by rewrite H1, <- app_assoc|]. split; [by constructor|]. split.
      * rewrite H3. unfold wrapping_add. rewrite Z.add_mod_idemp_l by done. f_equal. cbn [length]. lia.
      * cbn. by rewrite H4.
    + intros e l' (msgs & H1 & H2). exists (Chunk index (slice file range) :: msgs).
      split; [by rewrite H1, <- app_assoc|by constructor].
  - (* Complete *)
    case_bool_decide as Hroot; [|exact Hnone]. subst. apply wp_ret. exists [], []. cbn.
    rewrite app_nil_r, Z.add_0_r. split; [done|]. split; [done|]. split; [|done].
    unfold in_range in Hc. rewrite Z.mod_small; [done|lia].
  - exact Hskip.
Qed.

Lemma manifest_from_path_Ok name open size m : Chunker.manifest_from_path name open size = Ok m ->
  validate m = Ok tt.
Proof.
  unfold Chunker.manifest_from_path. intros (r & _ & E)%obind_Ok.
  pose proof (Chunker.manifest_from_reader_total_aux (default (lit "download.bin") name) size r) as Ht.
  destruct (Chunker.manifest_from_reader (default (lit "download.bin") name) size r) as [o r'].
  cbn in E. subst. apply Ht.
Qed.

(** ** Receiver: the request window *)

(** The numbers still wanted: queued or in flight, each once. *)
Record wanted (n : Z) (bm : ChunkBitmap.t) (pending : list Z) (out : gset Z) : Prop := {
  wanted_nodup : NoDup pending;
  wanted_disjoint : forall i, i ∈ pending -> i ∉ out;
  wanted_missing : forall i, i ∈ pending \/ i ∈ out <-> 0 <= i < n /\ view bm i = false;
}.

Lemma wanted_request n bm i pending out :
  wanted n bm (i :: pending) out -> wanted n bm pending (oc_request out i).
Proof.
  intros [[Hi Hnd]%NoDup_cons Hdis Hmiss]. unfold oc_request. split; [done| |].
  - intros j Hj [->%elem_of_singleton|Hj']%elem_of_union; [done|]. by apply (Hdis j); [right|].
  - intros j. rewrite <- Hmiss, elem_of_cons, elem_of_union, elem_of_singleton. tauto.
Qed.

(** The window after [request_more]: full, or everything is in flight. *)
Lemma wp_request_more n bm pending out l : wanted n bm pending out -> oc_len out <= DEFAULT_WINDOW ->
  wp (request_more pending out)
    (fun r l' => exists reqs, pending = reqs ++ r.1 /\ r.2 = list_to_set reqs ∪ out /\
       sent l' = sent l ++ map RequestChunk reqs /\ inbox l' = inbox l /\
       oc_len r.2 <= DEFAULT_WINDOW /\ (r.1 = [] \/ oc_len r.2 = DEFAULT_WINDOW))
    (fun e l' => inbox l' = inbox l /\ exists reqs rest, pending = reqs ++ rest /\
       sent l' = sent l ++ map RequestChunk reqs /\
       Z.of_nat (length reqs) + oc_len out <= DEFAULT_WINDOW) l.
Proof.
  revert out l. induction pending as [|i pending IH]; intros out l Hw Hlen; cbn [request_more].
  { destruct (_ <? _); apply wp_ret; exists []; cbn; rewrite app_nil_r, union_empty_l_L;
      do 5 (split; [done|]); by left. }
  destruct (Z.ltb_spec (oc_len out) DEFAULT_WINDOW) as [Hlt|Hge].
  2: { apply wp_ret. exists []. cbn. rewrite app_nil_r, union_empty_l_L. split; [done|].
       do 4 (split; [done|]). right. lia. }
  assert (i ∉ out) as Hio by (apply (wanted_disjoint _ _ _ _ Hw); by left).
  assert (oc_len (oc_request out i) = oc_len out + 1) as Hsize.
  { unfold oc_len, oc_request. rewrite size_union by (clear -Hio; set_solver). rewrite size_singleton. lia. }
  apply wp_bind, wp_send.
  { intros e fs. split; [done|]. exists [], (i :: pending). cbn. rewrite app_nil_r. split; [done|]. split; [done|]. lia. }
  intros fs. cbn [inbox sent].
  eapply wp_conseq; [apply IH|cbn..].
  - by apply wanted_request.
  - lia.
  - intros [p o] l' (reqs & H1 & H2 & H3 & H4 & H5). cbn in *. exists (i :: reqs). subst pending.
    split; [done|]. split; [rewrite H2; unfold oc_request; cbn; by rewrite (assoc_L (∪)), (comm_L (∪) (list_to_set reqs))|].
    split; [by rewrite H3, <- app_assoc|]. done.
  - intros e l' (H0 & reqs & rest & H1 & H2 & H3). split; [done|]. exists (i :: reqs), rest. subst pending.
    split; [done|]. split; [by rewrite H2, <- app_assoc|]. cbn [length]. lia.
Qed.

Lemma wp_on_download {A} (c : st (Storage.PartialDownload * world) error A)
    (Q : A -> rstate -> Prop) (R : error -> rstate -> Prop) s :
  wp c (fun a x => Q a (x, s.2)) (fun e x => R e (x, s.2)) s.1 -> wp (on_download c) Q R s.
Proof. intros Hc. unfold on_download. by apply wp_zoom. Qed.

Lemma wp_on_link {A} (c : st link error A) (Q : A -> rstate -> Prop) (R : error -> rstate -> Prop) s :
  wp c (fun a l => Q a (s.1, l)) (fun e l => R e (s.1, l)) s.2 -> wp (on_link c) Q R s.
Proof. intros Hc. unfold on_link. by apply wp_zoom. Qed.

(** [discard] never fails; it closes the file. *)
Lemma wp_discard (Q : unit -> Storage.PartialDownload * world -> Prop)
    (R : error -> Storage.PartialDownload * world -> Prop) s :
  (forall w', Q tt (Storage.set_file None s.1, w')) -> wp Storage.discard Q R s.
Proof.
  intros HQ. unfold Storage.discard. apply wp_bind, wp_modify, wp_bind, wp_gets. cbn [fst].
  assert (forall n (Q' : outcome error unit -> Storage.PartialDownload * world -> Prop)
            (R' : error -> Storage.PartialDownload * world -> Prop) x,
    (forall r w', Q' r (x.1, w')) ->
    wp (attempt (Storage.on_world (syscall (fs_remove n)))) Q' R' x) as Hrm.
  { intros n Q' R' x HQ'. apply wp_attempt, StorageProof.wp_on_world, wp_syscall; [by eauto|].
    unfold fs_remove. by destruct (dir (disk x.2) !! n). }
  apply wp_bind, Hrm. intros r1 w1. apply wp_bind, Hrm. intros r2 w2. by apply wp_ret.
Qed.

(** The download while chunks come in. *)
Record receiving (m : FileManifest) (f : Z) (x : Storage.PartialDownload * world) : Prop := {
  receiving_inv : StorageProof.inv x;
  receiving_file : Storage.file x.1 = Some f;
  receiving_manifest : Storage.manifest x.1 = m;
}.

Lemma receiving_progress m f x y : receiving m f x -> StorageProof.progress f x y -> receiving m f y.
Proof.
  intros [H1 H2 H3] [P1 [E1 _ _ _ _ E6] _ _ _ _]. split; [done|congruence|congruence].
Qed.

Lemma wanted_accept n bm bm' pending out i : wanted n bm pending out -> i ∈ out ->
  (forall j, 0 <= j -> view bm' j = (j =? i) || view bm j) ->
  wanted n bm' pending (snd (oc_complete out i)).
Proof.
  intros [Hnd Hdis Hmiss] Hi Hview. cbn. split; [done| |].
  - intros j Hj [? _]%elem_of_difference. by apply (Hdis j).
  - intros j. rewrite elem_of_difference, elem_of_singleton. pose proof (Hmiss j) as Hj. split.
    + intros Hin. assert (j <> i) as Hne.
      { intros ->. destruct Hin as [Hp|[_ ?]]; [by apply (Hdis i)|done]. }
      assert (0 <= j < n /\ view bm j = false) as [? Hb] by tauto. split; [done|].
      rewrite Hview by lia. rewrite Hb, (proj2 (Z.eqb_neq j i)); done.
    + intros [Hr Hb]. rewrite Hview in Hb by lia. apply orb_false_iff in Hb as [Hne Hb].
      apply Z.eqb_neq in Hne. tauto.
Qed.

(** One chunk: only a requested one is written, and it is written verified. *)
Lemma wp_accept_chunk m f out i data x : receiving m f x -> StorageProof.second_preimage_free m ->
  0 <= i ->
  wp (accept_chunk out i data)
    (fun out' y => i ∈ out /\ out' = snd (oc_complete out i) /\ verify_chunk m i data = Ok true /\
       StorageProof.progress f x y /\
       (forall j, 0 <= j -> view (Storage.written_bitmap y.1) j =
          (j =? i) || view (Storage.written_bitmap x.1) j))
    (fun _ y => StorageProof.progress f x y \/ Storage.file y.1 = None) x.
Proof.
  intros [Hinv Hf Hm] Hspf Hi. unfold accept_chunk, oc_contains. subst m.
  case_bool_decide as Hin; cbn [negb].
  - apply wp_bind. eapply wp_conseq; [by apply (StorageProof.wp_write_chunk f x i data)|..].
    + intros [] y (Hver & Hp & Hview & _). by apply wp_ret.
    + intros e y [Hp _]. by left.
  - apply wp_bind, wp_discard. intros w'. apply wp_throw. by right.
Qed.

Lemma wp_receive_loop m f missing base : StorageProof.second_preimage_free m ->
  (forall i, i ∈ missing -> is_u32 i) -> forall fuel pending out received s,
  (length (inbox s.2) < fuel)%nat -> Forall typed_event (inbox s.2) -> receiving m f s.1 ->
  wanted (chunk_count m) (Storage.written_bitmap s.1.1) pending out -> oc_len out <= DEFAULT_WINDOW ->
  (exists reqs, missing = reqs ++ pending /\ sent s.2 = base ++ map RequestChunk reqs /\
     received + oc_len out = Z.of_nat (length reqs)) ->
  0 <= received -> Z.of_nat (length missing) <= U32_MAX ->
  wp (receive_loop fuel pending out received)
    (fun n s' => StorageProof.progress f s.1 s'.1 /\ Storage.is_complete s'.1.1 = true /\
       sent s'.2 = base ++ map RequestChunk missing /\ n = Z.of_nat (length missing) /\
       n + Z.of_nat (length (inbox s'.2)) <= received + DEFAULT_WINDOW + Z.of_nat (length (inbox s.2)))
    (fun e s' => (StorageProof.progress f s.1 s'.1 \/ Storage.file s'.1.1 = None) /\
       exists reqs rest, missing = reqs ++ rest /\ sent s'.2 = base ++ map RequestChunk reqs /\
         Z.of_nat (length reqs) + Z.of_nat (length (inbox s'.2)) <=
           received + DEFAULT_WINDOW + Z.of_nat (length (inbox s.2))) s.
Proof.
  intros Hspf Hu32. induction fuel as [|fuel IH]; intros pending out received s Hfuel Hty Hrec Hw Hlen
    (reqs & Hsplit & Hsent & Hcount) Hr0 Hmax; [lia|].
  cbn [receive_loop]. apply wp_bind, wp_on_link.
  eapply wp_conseq; [by apply (wp_request_more _ _ _ _ _ Hw)|cbn [fst snd]..].
  2: { intros e l' (Hin & reqs' & rest & E1 & E2 & E3). split; [left; by apply StorageProof.progress_refl, Hrec|].
       exists (reqs ++ reqs'), rest. subst pending. rewrite <- app_assoc. split; [done|].
       rewrite map_app, E2, Hsent, <- app_assoc. split; [done|]. rewrite length_app, Hin. lia. }
  intros [pending' out'] l' (reqs' & E1 & E2 & E3 & E4 & E5 & E6). cbn [fst snd] in *.
  assert (wanted (chunk_count m) (Storage.written_bitmap s.1.1) pending' out') as Hw'.
  { destruct Hw as [Hnd Hdis Hmiss]. subst pending out'. apply NoDup_app in Hnd as (Hn1 & Hn2 & Hn3). split.
    - done.
    - intros j Hj. rewrite elem_of_union, elem_of_list_to_set. intros [Hj'|Hj'].
      + by apply (Hn2 j).
      + apply (Hdis j); [|done]. apply elem_of_app. by right.
    - intros j. rewrite <- Hmiss, elem_of_app, elem_of_union, elem_of_list_to_set. tauto. }
  assert (received + oc_len out' = Z.of_nat (length (reqs ++ reqs'))) as Hcount'.
  { subst pending out'. destruct Hw as [Hnd Hdis _]. apply NoDup_app in Hnd as (Hn1 & _ & _).
    rewrite length_app. unfold oc_len in *. rewrite size_union.
    - rewrite size_list_to_set by done. lia.
    - intros j. rewrite elem_of_list_to_set. intros Hj. apply Hdis, elem_of_app. by left. }
  assert (missing = (reqs ++ reqs') ++ pending') as Hsplit' by (subst pending; by rewrite Hsplit, app_assoc).
  assert (sent l' = base ++ map RequestChunk (reqs ++ reqs')) as Hsent'
    by (by rewrite E3, Hsent, map_app, app_assoc).
  clear E1 E2 E3 Hcount Hsplit Hsent Hw.
  unfold oc_is_empty. case_bool_decide as Hempty.
  - (* everything has arrived *)
    apply wp_ret. cbn [fst snd]. subst out'.
    assert (pending' = []) as -> by (destruct E6 as [?|Hx]; [done|unfold oc_len in Hx; rewrite size_empty in Hx; done]).
    rewrite app_nil_r in Hsplit'. subst missing. split; [by apply StorageProof.progress_refl, Hrec|].
    destruct Hrec as [[_ _ [Hwf Hcnt] _ _ _] _ Hm]. split; [|split; [done|]].
    + unfold Storage.is_complete. apply ChunkBitmap.is_complete_spec; [done|]. intros i Hi.
      destruct (view (Storage.written_bitmap s.1.1) i) eqn:Ev; [done|]. exfalso.
      assert (i ∈ @nil Z \/ i ∈ (∅ : gset Z)) as [Hx|Hx].
      { apply (wanted_missing _ _ _ _ Hw'). rewrite Hcnt, Hm in Hi. done. }
      * by apply not_elem_of_nil in Hx.
      * by apply not_elem_of_empty in Hx.
    + unfold oc_len in Hcount'. rewrite size_empty in Hcount'. rewrite E4. unfold DEFAULT_WINDOW. lia.
  - apply wp_bind, wp_on_link, wp_recv; cbn [fst snd].
    { intros e rest Hrest. split; [left; by apply StorageProof.progress_refl, Hrec|].
      exists (reqs ++ reqs'), pending'. split; [done|]. split; [done|]. cbn [inbox].
      rewrite E4 in Hrest. destruct Hrest as [[-> ->]|(ev & -> & _)]; cbn [length]; lia. }
    intros msg rest Einbox. rewrite E4 in Einbox. rewrite Einbox in Hfuel, Hty. cbn [length] in Hfuel.
    apply Forall_cons in Hty as [Hmsg Hty]. cbn in Hmsg.
    set (s1 := (s.1, mk_link rest (fates l') (sent l')) : rstate).
    (* a fatal message: the download is thrown away *)
    assert (forall e, wp (let! _ := on_download Storage.discard in throw e)
      (fun n s' => StorageProof.progress f s.1 s'.1 /\ Storage.is_complete s'.1.1 = true /\
         sent s'.2 = base ++ map RequestChunk missing /\ n = Z.of_nat (length missing) /\
         n + Z.of_nat (length (inbox s'.2)) <= received + DEFAULT_WINDOW + Z.of_nat (length (inbox s.2)))
      (fun e s' => (StorageProof.progress f s.1 s'.1 \/ Storage.file s'.1.1 = None) /\
         exists reqs rest, missing = reqs ++ rest /\ sent s'.2 = base ++ map RequestChunk reqs /\
           Z.of_nat (length reqs) + Z.of_nat (length (inbox s'.2)) <=
             received + DEFAULT_WINDOW + Z.of_nat (length (inbox s.2))) s1) as Hfatal.
    { intros e. apply wp_bind, wp_on_download, wp_discard. intros w'. apply wp_throw.
      split; [by right|]. exists (reqs ++ reqs'), pending'. split; [done|]. split; [done|].
      cbn [inbox s1 snd]. rewrite Einbox. cbn [length]. lia. }
    destruct msg; try (apply Hfatal).
    + (* Chunk *)
      apply wp_bind, wp_on_download.
      eapply wp_conseq; [apply (wp_accept_chunk m f); [done|done|apply Hmsg]|cbn [fst snd]..].
      2: { intros e y Hy. split; [done|]. exists (reqs ++ reqs'), pending'. split; [done|].
           split; [done|]. cbn [inbox s1 snd]. rewrite Einbox. cbn [length]. lia. }
      intros out2 y (Hin & -> & _ & Hp & Hview).
      assert (oc_len (oc_complete out' index).2 + 1 = oc_len out') as Hsize.
      { unfold oc_len. cbn. rewrite size_difference by (clear -Hin; set_solver). rewrite size_singleton.
        pose proof (subseteq_size {[index]} out' ltac:(clear -Hin; set_solver)) as Hs.
        rewrite size_singleton in Hs. lia. }
      assert (wrapping_add U32_MAX received 1 = received + 1) as ->.
      { unfold wrapping_add. apply Z.mod_small. rewrite Hsplit', length_app in Hmax.
        unfold oc_len in *. lia. }
      eapply wp_conseq; [apply (IH pending' _ (received + 1) (y, s1.2))|cbn [fst snd]..]; cbn [fst snd s1 inbox sent].
      * lia.
      * done.
      * by eapply receiving_progress.
      * by eapply wanted_accept.
      * lia.
      * exists (reqs ++ reqs'). split; [done|]. split; [done|]. lia.
      * lia.
      * done.
      * intros n s' (H1 & H2 & H3 & H4 & H5). split; [by eapply StorageProof.progress_trans|].
        do 3 (split; [done|]). rewrite Einbox. cbn [length]. lia.
      * intros e s' (H1 & reqs2 & rest2 & H2 & H3 & H4). split.
        { destruct H1; [left; by eapply StorageProof.progress_trans|by right]. }
        exists reqs2, rest2. split; [done|]. split; [done|]. rewrite Einbox. cbn [length]. lia.
    + (* KeepAlive *)
      eapply wp_conseq; [apply (IH pending' out' received s1)|cbn [fst snd]..]; cbn [fst snd s1 inbox sent]; try done.
      * lia.
      * exists (reqs ++ reqs'). done.
      * intros n s' (H1 & H2 & H3 & H4 & H5). do 4 (split; [done|]). rewrite Einbox. cbn [length]. lia.
      * intros e s' (H1 & reqs2 & rest2 & H2 & H3 & H4). split; [done|].
        exists reqs2, rest2. split; [done|]. split; [done|]. rewrite Einbox. cbn [length]. lia.
Qed.

(** The chunks missing from a bitmap, in ascending order. *)
Definition missing_of (bm : ChunkBitmap.t) : list Z :=
  List.filter (fun i => negb (view bm i)) (seqZ 0 (ChunkBitmap.chunk_count bm)).

Lemma missing_of_spec bm : wf bm ->
  NoDup (missing_of bm) /\ Z.of_nat (length (missing_of bm)) <= U32_MAX /\
  (forall i, i ∈ missing_of bm <-> 0 <= i < ChunkBitmap.chunk_count bm /\ view bm i = false).
Proof.
  intros Hw. pose proof (ChunkBitmap.wf_count _ Hw) as Hc. unfold in_range in Hc. split; [|split].
  - apply NoDup_list_filter, NoDup_seqZ.
  - pose proof (filter_length_le (fun i => negb (view bm i)) (seqZ 0 (ChunkBitmap.chunk_count bm))) as Hl.
    rewrite length_seqZ in Hl. unfold missing_of. lia.
  - intros i. unfold missing_of. rewrite list_elem_of_In, filter_In, <- list_elem_of_In, elem_of_seqZ.
    rewrite negb_true_iff. split; intros [? ?]; (split; [lia|done]).
Qed.

Lemma wanted_initial bm : wf bm ->
  wanted (ChunkBitmap.chunk_count bm) bm (missing_of bm) ∅.
Proof.
  intros Hw. destruct (missing_of_spec bm Hw) as (Hn & _ & Hm). split; [done| |].
  - intros i _ Hi. by apply not_elem_of_empty in Hi.
  - intros i. rewrite <- Hm. split; [|by left].
    intros [?|Hi]; [done|]. by apply not_elem_of_empty in Hi.
Qed.

(** The messages of a receiver that has not confirmed anything. *)
Definition unconfirmed (consumed : Z) (msgs : list ControlMessage) : Prop :=
  msgs = [] \/ exists bits reqs tl, msgs = Resume bits :: map RequestChunk reqs ++ tl /\
    (tl = [] \/ exists reason, tl = [AbortMsg reason]) /\
    NoDup reqs /\ Z.of_nat (length reqs) <= DEFAULT_WINDOW + consumed.

(** The published file. *)
Definition saved_as (m : FileManifest) (k : fs) (path : name) : Prop :=
  exists f, dir k !! path = Some f /\ Z.of_nat (length (content k f)) = total_len m /\
    forall i, 0 <= i < chunk_count m -> StorageProof.chunk_ok m (content k f) i = true.

Lemma wp_conclude m peer n f s : receiving m f s.1 -> Storage.is_complete s.1.1 = true ->
  wp (conclude m peer n)
    (fun rep s' => saved_as m (disk s'.1.2) (rr_output_path rep) /\ rr_chunks_received rep = n /\
       sent s'.2 = sent s.2 ++ [Complete (root_hash m)] /\ inbox s'.2 = inbox s.2)
    (fun e s' => inbox s'.2 = inbox s.2 /\ exists tl, sent s'.2 = sent s.2 ++ tl /\
       (tl = [] \/ exists reason, tl = [AbortMsg reason])) s.
Proof.
  intros [Hinv Hf Hm] Hcomp. unfold conclude. apply wp_bind, wp_gets. rewrite Hcomp. cbn [negb].
  apply wp_bind, wp_ret, wp_bind, wp_attempt, wp_on_download.
  pose proof Hinv as [Hv Hu [Hwf Hcnt] _ _ (f' & Ef & _ & [Hlen Hok])].
  rewrite Hf in Ef. injection Ef as <-. rewrite Hm in *.
  eapply wp_conseq; [by apply (StorageProof.wp_finalize f)|cbn [fst snd]..].
  - intros target x (_ & _ & Ec & Et & _). apply wp_bind, wp_on_link, wp_send; cbn [fst snd].
    + intros e fs. split; [done|]. exists []. rewrite app_nil_r. auto.
    + intros fs. apply wp_ret. cbn. split; [|done]. exists f. rewrite Ec. split; [done|]. split; [done|].
      intros i Hi. apply Hok; [lia|]. unfold Storage.is_complete in Hcomp.
      apply (proj1 (ChunkBitmap.is_complete_spec _ Hwf) Hcomp). lia.
  - intros e x _. apply wp_bind, wp_attempt, wp_on_link, wp_send; cbn [fst snd].
    + intros e' fs. apply wp_throw. cbn. split; [done|]. exists []. rewrite app_nil_r. auto.
    + intros fs. apply wp_throw. cbn. split; [done|]. eexists. split; [done|]. right. eauto.
Qed.

Lemma wp_receive_download m peer f s : receiving m f s.1 -> StorageProof.second_preimage_free m ->
  Forall typed_event (inbox s.2) ->
  let bm := Storage.written_bitmap s.1.1 in
  wp (receive_download m peer)
    (fun rep s' => saved_as m (disk s'.1.2) (rr_output_path rep) /\
       rr_chunks_received rep = Z.of_nat (length (missing_of bm)) /\
       sent s'.2 = sent s.2 ++ Resume (ChunkBitmap.bits bm) ::
                     map RequestChunk (missing_of bm) ++ [Complete (root_hash m)])
    (fun e s' => exists msgs, sent s'.2 = sent s.2 ++ msgs /\
       unconfirmed (Z.of_nat (length (inbox s.2)) - Z.of_nat (length (inbox s'.2))) msgs) s.
Proof.
  intros Hrec Hspf Hty bm. pose proof Hrec as [[_ _ [Hwf Hcnt] _ _ _] _ Hm]. fold bm in Hwf, Hcnt.
  destruct (missing_of_spec bm Hwf) as (Hnd & Hmax & Hmiss).
  assert (forall consumed reqs rest tl, missing_of bm = reqs ++ rest ->
    (tl = [] \/ exists reason, tl = [AbortMsg reason]) ->
    Z.of_nat (length reqs) <= DEFAULT_WINDOW + consumed ->
    unconfirmed consumed (Resume (ChunkBitmap.bits bm) :: map RequestChunk reqs ++ tl)) as Hunc.
  { intros consumed reqs rest tl E Htl Hl. right. do 3 eexists. split; [done|]. split; [done|].
    split; [|done]. rewrite E in Hnd. by apply NoDup_app in Hnd as [? _]. }
  unfold receive_download. apply wp_bind, wp_gets. fold bm. apply wp_bind, wp_on_link, wp_send; cbn [fst snd].
  { intros e fs. exists []. cbn [sent inbox]. rewrite app_nil_r. split; [done|]. by left. }
  intros fs. unfold Storage.missing. fold bm. rewrite ChunkBitmap.missing_spec by done. fold (missing_of bm).
  apply wp_bind, wp_liftr, wp_bind, wp_gets, wp_bind. cbn [snd inbox].
  eapply wp_conseq; [apply (wp_receive_loop m f (missing_of bm) (sent s.2 ++ [Resume (ChunkBitmap.bits bm)]));
    try done|cbn [fst snd inbox]..].
  - intros i [Hi _]%Hmiss. pose proof (ChunkBitmap.wf_count _ Hwf). unfold in_range in *. lia.
  - cbn [snd inbox]. lia.
  - cbn [fst]. fold bm. rewrite <- Hm, <- Hcnt. by apply wanted_initial.
  - exists []. cbn. by rewrite app_nil_r.
  - intros n s1 (Hp & Hcomp & Hs1 & Hn & Hbound).
    eapply wp_conseq; [apply (wp_conclude m peer n f); [by eapply receiving_progress|done]|cbn..].
    + intros rep s2 (H1 & H2 & H3 & _). split; [done|]. split; [congruence|].
      by rewrite H3, Hs1, <- !app_assoc.
    + intros e s2 (Hin & tl & H1 & H2). exists (Resume (ChunkBitmap.bits bm) :: map RequestChunk (missing_of bm) ++ tl).
      split; [by rewrite H1, Hs1, <- !app_assoc|]. eapply Hunc; [by rewrite app_nil_r|done|]. rewrite Hin. lia.
  - intros e s1 (_ & reqs & rest & E & Hs1 & Hbound).
    exists (Resume (ChunkBitmap.bits bm) :: map RequestChunk reqs ++ []).
    rewrite app_nil_r. split; [by rewrite Hs1, <- !app_assoc|]. rewrite <- (app_nil_r (map RequestChunk reqs)).
    eapply Hunc; [done|by left|lia].
Qed.

(** ** Both sides together *)

(** The message that answers a request. *)
Definition answer (m : FileManifest) (data : list Z) (i : Z) : ControlMessage :=
  Chunk i (chunk_data m data i).

Lemma wp_send_calm msg (Q : unit -> link -> Prop) l : fates l = [] ->
  Q tt (mk_link (inbox l) [] (sent l ++ [msg])) -> wp (send_msg msg) Q StorageCalm.never l.
Proof. intros E HQ. unfold wp, send_msg. by rewrite E. Qed.

Lemma wp_recv_calm t c msg rest (Q : ControlMessage -> link -> Prop) l : inbox l = Got msg :: rest ->
  Q msg (mk_link rest (fates l) (sent l)) -> wp (recv_msg t c) Q StorageCalm.never l.
Proof. intros E HQ. unfold wp, recv_msg. by rewrite E. Qed.

Lemma wp_request_more_calm pending out l : fates l = [] ->
  wp (request_more pending out) (fun _ l' => fates l' = []) StorageCalm.never l.
Proof.
  revert out l. induction pending as [|i pending IH]; intros out l Hf; cbn [request_more].
  - by destruct (_ <? _).
  - destruct (_ <? _); [|done]. apply wp_bind, wp_send_calm; [done|]. by apply IH.
Qed.

Lemma verify_answer m data i : valid m -> is_u64 (total_len m) -> 0 <= i < chunk_count m ->
  StorageProof.chunk_ok m data i = true -> verify_chunk m i (chunk_data m data i) = Ok true.
Proof.
  intros Hv Hu [Hi Hlt] Hok.
  destruct (StorageProof.chunk_ok_range m data i Hv Hu Hi Hok) as (range & Er & _).
  assert (chunk_data m data i = slice data range) as -> by (unfold chunk_data; by rewrite Er).
  rewrite (StorageProof.verify_chunk_slice m i data range Hv Hu Hi Er). by rewrite Hok.
Qed.

Lemma wp_receive_loop_calm m f data : StorageProof.second_preimage_free m ->
  (forall i, 0 <= i < chunk_count m -> StorageProof.chunk_ok m data i = true) ->
  forall fuel pending outs received s,
  (length (inbox s.2) < fuel)%nat -> fates s.2 = [] -> StorageCalm.calm s.1.2 ->
  receiving m f s.1 -> Storage.capability s.1.1 = false ->
  wanted (chunk_count m) (Storage.written_bitmap s.1.1) pending (list_to_set outs) -> NoDup outs ->
  oc_len (list_to_set outs) <= DEFAULT_WINDOW ->
  inbox s.2 = map (fun i => Got (answer m data i)) (outs ++ pending) ->
  wp (receive_loop fuel pending (list_to_set outs) received)
    (fun _ s' => inbox s'.2 = [] /\ fates s'.2 = [] /\ StorageCalm.calm s'.1.2 /\
       Storage.capability s'.1.1 = false) StorageCalm.never s.
Proof.
  intros Hspf Hdata. induction fuel as [|fuel IH];
    intros pending outs received s Hfuel Hfates Hcalm Hrec Hcap Hw Hnd Hlen Hin; [lia|].
  cbn [receive_loop]. apply wp_bind, wp_on_link.
  eapply wp_conseq; [apply (wp_and _ _ _ _ _ _ (wp_request_more _ _ _ _ s.2 Hw Hlen)
    (wp_request_more_calm pending (list_to_set outs) s.2 Hfates))|cbn [fst snd]|by intros e l' [_ Hx]].
  intros [pending' out'] l' [(reqs & -> & E2 & E3 & E4 & E5 & E6) Hf']. cbn [fst snd] in *.
  destruct Hw as [Hnd2 Hdis Hmiss]. apply NoDup_app in Hnd2 as (Hn1 & Hn2 & Hn3).
  assert (NoDup (outs ++ reqs)) as Hnd'.
  { apply NoDup_app. split; [done|]. split; [|done]. intros i Hi Hr. apply (Hdis i).
    - apply elem_of_app. by left.
    - by apply elem_of_list_to_set. }
  assert (out' = list_to_set (outs ++ reqs)) as -> by (by rewrite E2, list_to_set_app_L, (comm_L (∪))).
  assert (wanted (chunk_count m) (Storage.written_bitmap s.1.1) pending' (list_to_set (outs ++ reqs))) as Hw'.
  { split; [done| |].
    - intros j Hj. rewrite elem_of_list_to_set, elem_of_app. intros [Hj'|Hj'].
      + apply (Hdis j); [apply elem_of_app; by right|by apply elem_of_list_to_set].
      + by apply (Hn2 j).
    - intros j. rewrite <- Hmiss, !elem_of_list_to_set, !elem_of_app. tauto. }
  rewrite app_assoc in Hin. rewrite <- E4 in Hin. clear Hn1 Hn2 Hn3 Hdis Hmiss E2.
  unfold oc_is_empty. destruct (outs ++ reqs) as [|i outs'].
  { rewrite bool_decide_true by done. apply wp_ret. cbn.
    assert (pending' = []) as -> by (destruct E6 as [?|Hx]; [done|by unfold oc_len in Hx; rewrite list_to_set_nil, size_empty in Hx]).
    by rewrite Hin. }
  rewrite bool_decide_false.
  2: { intros E. assert (i ∈ (∅ : gset Z)) as Hx; [|by apply not_elem_of_empty in Hx].
       rewrite <- E. apply elem_of_list_to_set. by left. }
  cbn [map app] in Hin. apply wp_bind, wp_on_link. eapply wp_recv_calm; [exact Hin|]. cbn [fst snd].
  apply wp_bind, wp_on_download. cbn [fst snd].
  assert (i ∈ (list_to_set (i :: outs') : gset Z)) as Hi by (apply elem_of_list_to_set; by left).
  assert (0 <= i < chunk_count m) as Hrange by (apply (wanted_missing _ _ _ _ Hw'); by right).
  pose proof Hrec as [Hinv Hf Hm]. pose proof Hinv as [Hv Hu _ _ _ _].
  apply NoDup_cons in Hnd' as [Hi' Hnd'].
  assert (wp (accept_chunk (list_to_set (i :: outs')) i (chunk_data m data i))
    (fun _ y => StorageCalm.calm y.2) StorageCalm.never s.1) as Hacc.
  { unfold accept_chunk, oc_contains. rewrite bool_decide_true by done. cbn [negb].
    apply wp_bind. eapply wp_conseq; [apply (StorageCalm.wp_write_chunk_calm s.1 f i); try done; try lia|cbn|done].
    + rewrite Hm in *. apply verify_answer; try done. by apply Hdata.
    + intros _ y Hy. apply wp_ret. exact Hy. }
  eapply wp_conseq; [apply (wp_and _ _ _ _ _ _ (wp_accept_chunk m f (list_to_set (i :: outs')) i
    (chunk_data m data i) s.1 Hrec Hspf (proj1 Hrange)) Hacc)|cbn [fst snd]|by intros e y [_ Hx]].
  intros out2 y [(_ & -> & _ & Hp & Hview) Hcy].
    pose proof (StorageProof.same_capability _ _ (StorageProof.progress_same _ _ _ Hp)) as same_cap.
    assert (snd (oc_complete (list_to_set (i :: outs')) i) = list_to_set outs') as Eout.
    { cbn. apply set_eq. intros j. rewrite elem_of_difference, elem_of_union, !elem_of_singleton, elem_of_list_to_set.
      split; [tauto|]. intros Hj. split; [by right|]. intros ->. done. }
    rewrite Eout.
    assert (length (inbox s.2) = S (length (map (fun j => Got (answer m data j)) (outs' ++ pending')))) as Hlen2
      by (rewrite <- E4, Hin; done).
    apply (IH pending' outs' _ (y, mk_link _ (fates l') (sent l'))); cbn [fst snd inbox fates]; try done.
    + lia.
    + by eapply receiving_progress.
    + by rewrite same_cap.
    + rewrite <- Eout. by eapply wanted_accept.
    + assert (oc_len (list_to_set outs') <= oc_len (list_to_set (i :: outs'))) as Hle; [|lia].
      unfold oc_len. apply inj_le, subseteq_size. cbn. apply union_subseteq_r.
Qed.

(** The sender answers the requests of the missing chunks in order. *)
Lemma send_loop_answers m data bm l c s fuel : validate m = Ok tt -> is_u64 (total_len m) -> wf bm ->
  (forall i, 0 <= i < chunk_count m -> StorageProof.chunk_ok m data i = true) ->
  (forall i, i ∈ l -> 0 <= i < chunk_count m /\ view bm i = false) ->
  (length l < fuel)%nat -> 0 <= c -> c + Z.of_nat (length l) <= U32_MAX ->
  send_loop fuel m data bm c
    (mk_link (map Got (map RequestChunk l ++ [Complete (root_hash m)])) [] s)
  = (Ok (c + Z.of_nat (length l)), mk_link [] [] (s ++ map (answer m data) l)).
Proof.
  intros Hv Hu Hw Hdata. apply validate_Ok in Hv as Hvalid. revert c s fuel.
  induction l as [|i l IH]; intros c s fuel Hl Hf Hc Hmax; (destruct fuel as [|fuel]; [lia|]).
  { cbn. unfold sbind, recv_msg. cbn. rewrite bool_decide_true by done. unfold ret.
    by rewrite Z.add_0_r, app_nil_r. }
  destruct (Hl i) as [Hi Hb]; [by left|].
  destruct (StorageProof.chunk_ok_range m data i Hvalid Hu (proj1 Hi) (Hdata i Hi))
    as (range & Er & _ & Hr1 & Hr2 & Hr3 & Hr4 & Hlen & _).
  cbn [send_loop map app]. unfold sbind at 1, recv_msg at 1. cbn [inbox fates sent map].
  unfold liftr at 1, sbind at 1. rewrite Er. cbn [ok_or].
  unfold sbind at 1, liftr at 1. rewrite ChunkBitmap.is_set_spec by (done || lia). rewrite Hb.
  unfold sbind at 1, liftr at 1.
  assert (Chunker.read_chunk data range.1 range.2 = Ok (chunk_data m data i)) as ->.
  { unfold Chunker.read_chunk. pose proof (valid_size m Hvalid).
    rewrite (proj2 (Z.ltb_ge MAX_CHUNK_SIZE range.2)) by lia. cbn [fail_if obind].
    rewrite <- surjective_pairing. rewrite (proj2 (Z.ltb_ge _ _)) by lia.
    unfold chunk_data. by rewrite Er. }
  unfold sbind at 1, send_msg at 1. cbn [fates inbox sent tail].
  assert (wrapping_add U32_MAX c 1 = c + 1) as ->.
  { unfold wrapping_add. cbn [length] in Hmax. apply Z.mod_small. lia. }
  cbn [length] in *. rewrite (IH (c + 1)); [|intros j Hj; apply Hl; by right|lia..].
  f_equal; [f_equal; lia|]. f_equal. by rewrite <- app_assoc.
Qed.

Lemma content_determined m a b : valid m -> is_u64 (total_len m) ->
  StorageProof.second_preimage_free m ->
  Z.of_nat (length a) = total_len m -> Z.of_nat (length b) = total_len m ->
  (forall i, 0 <= i < chunk_count m -> StorageProof.chunk_ok m a i = true) ->
  (forall i, 0 <= i < chunk_count m -> StorageProof.chunk_ok m b i = true) -> a = b.
Proof.
  intros Hv Hu Hspf Ha Hb Hoka Hokb.
  rewrite <- (chunk_data_concat m a Hv Hu Ha), <- (chunk_data_concat m b Hv Hu Hb).
  f_equal. apply map_ext_in.
  intros i Hi%list_elem_of_In%elem_of_seqZ.
  destruct (StorageProof.chunk_ok_range m a i) as (ra & Era & _ & _ & _ & _ & _ & Hla & Hha); try done; try lia.
  { apply Hoka. lia. }
  destruct (StorageProof.chunk_ok_range m b i) as (rb & Erb & _ & _ & _ & _ & _ & Hlb & Hhb); try done; try lia.
  { apply Hokb. lia. }
  rewrite Era in Erb. injection Erb as <-. unfold chunk_data. rewrite Era. cbn.
  apply Hspf; [by eapply list_elem_of_lookup_2|congruence|lia].
Qed.

(** The two outcomes of the sender. *)
Definition send_success (open : outcome io_kind reader) name (file : outcome io_kind (list Z)) size
    (l : link) (rep : SendReport) (l' : link) : Prop :=
  exists m data bm msgs before,
    Chunker.manifest_from_path name open size = Ok m /\ file = Ok data /\
    sent l' = sent l ++ ManifestMsg m :: msgs /\ Forall (good_chunk m data bm) msgs /\
    sr_chunks_sent rep = Z.of_nat (length msgs) mod (U32_MAX + 1) /\
    sr_chunks_skipped rep = ChunkBitmap.count_set bm /\ sr_chunk_count rep = chunk_count m /\
    inbox l = Got (Resume (ChunkBitmap.bits bm)) :: before ++
              Got (Complete (root_hash m)) :: inbox l'.
Definition send_failure (open : outcome io_kind reader) name (file : outcome io_kind (list Z)) size
    (l l' : link) : Prop :=
  sent l' = sent l \/ exists m msgs,
    Chunker.manifest_from_path name open size = Ok m /\ sent l' = sent l ++ ManifestMsg m :: msgs /\
    (msgs = [] \/ exists data bm, file = Ok data /\ Forall (good_chunk m data bm) msgs).

Lemma manifest_from_path_no_panic name open size : open <> Panic ->
  Chunker.manifest_from_path name open size <> Panic.
Proof.
  unfold Chunker.manifest_from_path. destruct open as [r|k|]; [|done..]. intros _. cbn.
  pose proof (Chunker.manifest_from_reader_total_aux (default (lit "download.bin") name) size r) as Ht.
  by destruct (Chunker.manifest_from_reader (default (lit "download.bin") name) size r) as [[| |] r'].
Qed.

Lemma wp_send_file name open file size peer l :
  Forall typed_event (inbox l) -> file <> Panic -> open <> Panic ->
  (forall m, Chunker.manifest_from_path name open size = Ok m -> is_u64 (total_len m)) ->
  wp (send_file_after_handshake name open file size peer)
    (send_success open name file size l) (fun _ => send_failure open name file size l) l.
Proof.
  intros Hty Hfile Hopen Hu. unfold send_file_after_handshake. apply wp_bind, wp_liftr.
  pose proof (manifest_from_path_no_panic name open size Hopen) as Hnp. unfold send_failure.
  destruct (Chunker.manifest_from_path name open size) as [m|e|] eqn:Em; [|by left|done].
  apply manifest_from_path_Ok in Em as Hv. specialize (Hu m eq_refl).
  apply wp_bind, wp_send; [intros e fs; by left|]. intros fs.
  apply wp_bind, wp_recv; cbn [inbox fates sent].
  { intros e rest _. right. exists m, []. auto. }
  intros msg rest Einbox. rewrite Einbox in Hty. apply Forall_cons in Hty as [Hmsg Hty]. cbn in Hmsg.
  assert (exists m' msgs, Ok m = Ok m' :> result FileManifest /\
    sent l ++ [ManifestMsg m] = sent l ++ ManifestMsg m' :: msgs /\
    (msgs = [] \/ exists data bm, file = Ok data /\ Forall (good_chunk m' data bm) msgs)) as Hnone
    by (exists m, []; auto).
  destruct msg; try (apply wp_bind, wp_throw; right; exact Hnone).
  apply wp_bind, wp_liftr.
  pose proof (StorageProof.from_bytes_no_panic (chunk_count m) have).
  destruct (ChunkBitmap.from_bytes (chunk_count m) have) as [bm|e|] eqn:Ebm; [|right; exact Hnone|done].
  apply ChunkBitmap.from_bytes_spec in Ebm as [-> Hwf]; [|apply StorageProof.chunk_count_u32|done].
  apply wp_bind, wp_liftr. destruct file as [data|k|]; [|right; exact Hnone|done]. cbn [map_err].
  apply wp_bind, wp_gets, wp_bind. cbn [inbox].
  eapply wp_conseq; [apply (wp_send_loop m data _ _ 0); try done; cbn [inbox]; lia|cbn [inbox sent]..].
  - intros n l' (msgs & before & H1 & H2 & H3 & H4). apply wp_ret.
    exists m, data, (ChunkBitmap.mk (chunk_count m) have), msgs, before.
    split; [done|]. split; [done|]. split; [by rewrite H1, <- app_assoc|]. split; [done|]. cbn.
    split; [done|]. split; [done|]. split; [done|]. by rewrite Einbox, H4.
  - intros e l' (msgs & H1 & H2). right. exists m, msgs. split; [done|].
    split; [by rewrite H1, <- app_assoc|]. right. eauto.
Qed.

(** A manifest built from a reader describes the reader's bytes. *)
Lemma manifest_from_path_data name r size m : Chunker.manifest_from_path name (Ok r) size = Ok m ->
  data_only r -> is_u64 (Z.of_nat (length (bytes_of r))) ->
  valid m /\ is_u64 (total_len m) /\ Z.of_nat (length (bytes_of r)) = total_len m /\
  forall i, 0 <= i < chunk_count m -> StorageProof.chunk_ok m (bytes_of r) i = true.
Proof.
  intros E Hr Hu. unfold Chunker.manifest_from_path in E. cbn in E.
  set (nm := default (lit "download.bin") name) in E.
  pose proof (Chunker.manifest_from_reader_total_aux nm size r) as Ht.
  destruct (Chunker.manifest_from_reader nm size r) as [o r'] eqn:Er. cbn in E. subst o.
  destruct Ht as (Hv%validate_Ok & Hsize & _). pose proof (valid_size m Hv) as Hs. rewrite Hsize in Hs.
  pose proof (Chunker.manifest_from_reader_blocks nm size r Hs Hr) as Eb. rewrite Er in Eb. cbn in Eb.
  symmetry in Eb. apply new_Ok in Eb as (_ & _ & Htl & _).
  destruct (Chunker.manifest_from_reader_data nm size r Hs Hr Hu) as (m' & Em & _ & _ & _ & _ & Hi).
  { rewrite <- Htl, <- Hsize, <- (valid_count m Hv). apply (valid_u32 m Hv). }
  rewrite Er in Em. injection Em as <-. rewrite Htl. split; [done|]. split; [done|]. split; [done|].
  intros i Hlt. destruct (Hi i Hlt) as (range & Hrange & Hver).
  rewrite (StorageProof.verify_chunk_slice m i _ range) in Hver; [by injection Hver|done|by rewrite Htl|lia|done].
Qed.

(** The receiver's side of an undisturbed transfer. *)
Lemma receive_download_calm m f data x peer : receiving m f x -> StorageCalm.calm x.2 ->
  Storage.capability x.1 = false -> StorageProof.second_preimage_free m ->
  Z.of_nat (length data) = total_len m ->
  (forall i, 0 <= i < chunk_count m -> StorageProof.chunk_ok m data i = true) ->
  (exists c, c ∈ Storage.candidate_paths (Storage.target_path x.1) Storage.MAX_FINALIZE_SUFFIX /\
     StorageProof.foreign x.1 c /\ dir (disk x.2) !! c = None) ->
  wp (receive_download m peer) (fun _ s' => inbox s'.2 = [] /\ fates s'.2 = []) StorageCalm.never
    (x, mk_link (map Got (map (answer m data) (missing_of (Storage.written_bitmap x.1)))) [] []).
Proof.
  intros Hrec Hcalm Hcap Hspf Hlen Hdata Hfree. set (bm := Storage.written_bitmap x.1).
  pose proof Hrec as [[Hv Hu [Hwf Hcnt] _ _ _] Hf Hm]. fold bm in Hwf, Hcnt.
  unfold receive_download. apply wp_bind, wp_gets. cbn [fst snd]. fold bm.
  apply wp_bind, wp_on_link, wp_send_calm; [done|]. cbn [fst snd inbox sent].
  unfold Storage.missing. fold bm. rewrite ChunkBitmap.missing_spec by done. fold (missing_of bm).
  apply wp_bind, wp_liftr, wp_bind, wp_gets, wp_bind. cbn [snd inbox].
  destruct (missing_of_spec bm Hwf) as (Hnd & Hmax & Hmiss).
  set (s0 := (x, _) : rstate).
  assert (wanted (chunk_count m) (Storage.written_bitmap s0.1.1) (missing_of bm) ∅) as Hw.
  { cbn. fold bm. rewrite <- Hm, <- Hcnt. by apply wanted_initial. }
  set (fuel := S _).
  assert (wp (receive_loop fuel (missing_of bm) ∅ 0)
    (fun n s' => StorageProof.progress f x s'.1 /\ Storage.is_complete s'.1.1 = true) (fun _ _ => True) s0) as H1.
  { eapply wp_conseq; [apply (wp_receive_loop m f (missing_of bm) [Resume (ChunkBitmap.bits bm)]
      Hspf)|cbn [fst snd]; by intros n s' (? & ? & _)|done]; try done.
    - intros i [Hi _]%Hmiss. pose proof (ChunkBitmap.wf_count _ Hwf). unfold in_range in *. lia.
    - cbn [snd inbox s0]. unfold fuel. lia.
    - cbn. apply Forall_forall. intros ev Hev.
      apply list_elem_of_fmap in Hev as (msg & -> & Hmsg). apply list_elem_of_fmap in Hmsg as (i & -> & Hi).
      apply Hmiss in Hi as [Hi _]. pose proof (ChunkBitmap.wf_count _ Hwf). cbn. unfold in_range in *. lia.
    - exists []. done. }
  assert (wp (receive_loop fuel (missing_of bm) ∅ 0)
    (fun _ s' => inbox s'.2 = [] /\ fates s'.2 = [] /\ StorageCalm.calm s'.1.2 /\
       Storage.capability s'.1.1 = false) StorageCalm.never s0) as H2.
  { apply (wp_receive_loop_calm m f data Hspf Hdata fuel (missing_of bm) [] 0 s0); try done.
    - cbn [snd inbox s0]. unfold fuel. lia.
    - apply NoDup_nil_2.
    - cbn [snd inbox s0 app]. by rewrite map_map. }
  eapply wp_conseq; [apply (wp_and _ _ _ _ _ _ H1 H2)|cbn [fst snd]|by intros e s' [_ Hx]].
  intros n s1 [(Hp & Hcomp) (Hin & Hfates & Hc1 & Hcap1)].
  destruct Hfree as (c & Hc & Hforeign & Hnone).
  pose proof (receiving_progress m f x s1.1 Hrec Hp) as [Hinv1 Hf1 _].
  pose proof (StorageProof.progress_same _ _ _ Hp) as [_ _ Et Es Etg _].
  unfold conclude. apply wp_bind, wp_gets. rewrite Hcomp. cbn [negb].
  apply wp_bind, wp_ret, wp_bind, wp_attempt, wp_on_download.
  eapply wp_conseq; [apply (StorageCalm.wp_finalize_calm s1.1 f); try done|cbn [fst snd]|done].
  - exists c. rewrite Etg. split; [done|]. unfold StorageProof.foreign in *. rewrite Et, Es.
    split; [done|]. by rewrite (StorageProof.progress_dir _ _ _ Hp).
  - intros target y _. by apply wp_bind, wp_on_link, wp_send_calm.
Qed.

Lemma wp_receive_stream m peer w l : is_u64 (total_len m) ->
  StorageProof.usable false m (disk w) -> StorageProof.second_preimage_free m ->
  Forall typed_event (inbox l) ->
  wp (receive_file_on_stream m peer)
    (fun rep s' => exists bm, wf bm /\ saved_as m (disk s'.1) (rr_output_path rep) /\
       rr_chunks_received rep = Z.of_nat (length (missing_of bm)) /\
       sent s'.2 = sent l ++ Resume (ChunkBitmap.bits bm) ::
                     map RequestChunk (missing_of bm) ++ [Complete (root_hash m)])
    (fun e s' => exists msgs, sent s'.2 = sent l ++ msgs /\
       unconfirmed (Z.of_nat (length (inbox l)) - Z.of_nat (length (inbox s'.2))) msgs) (w, l).
Proof.
  intros Hu Hus Hspf Hty. assert (exists msgs, sent l = sent l ++ msgs /\
    unconfirmed (Z.of_nat (length (inbox l)) - Z.of_nat (length (inbox l))) msgs) as Hnone.
  { exists []. rewrite app_nil_r. split; [done|]. by left. }
  unfold receive_file_on_stream. apply wp_bind, wp_liftr.
  destruct (validate_total m) as [E|[tag E]]; rewrite E; [|exact Hnone].
  apply wp_bind, wp_zoom. cbn [fst snd]. eapply wp_conseq; [by apply (StorageProof.wp_create_top m w)|..].
  2: { intros e w' _. exact Hnone. }
  intros d w1 [Hinv (Hm & _) _ _ _ _]. cbn [fst snd].
  pose proof Hinv as [_ _ [Hwf _] _ _ (f & Hf & _)].
  pose proof (wp_receive_download m peer f ((d, w1), l)) as Hw. cbv zeta in Hw. cbn [fst snd] in Hw.
  specialize (Hw ltac:(done) Hspf Hty). unfold wp in *. cbn [fst snd].
  destruct (receive_download m peer ((d, w1), l)) as [[rep|e|] s']; [|done..].
  exists (Storage.written_bitmap d). done.
Qed.

End WithHash.

(** ** Theorems *)

(** Whatever a receiver sends, the sender only ever writes its manifest and
    then chunks that were asked for, that exist, that the receiver did not claim
    to have, and that are exactly the bytes of the file in the chunk's range.
    It reports success only after reading a [Complete] with its own root hash,
    and then reports the number of chunks it sent (modulo [2^32]). It never
    panics. *)
Theorem sender_answers_only_requests `{Blake3} {hexc : Hex} name open file size peer l :
  Forall typed_event (inbox l) -> file <> Panic -> open <> Panic ->
  (forall m, Chunker.manifest_from_path name open size = Ok m -> is_u64 (total_len m)) ->
  match send_file_after_handshake name open file size peer l with
  | (Ok rep, l') => exists m data bm msgs before,
      Chunker.manifest_from_path name open size = Ok m /\ file = Ok data /\
      sent l' = sent l ++ ManifestMsg m :: msgs /\ Forall (good_chunk m data bm) msgs /\
      sr_chunks_sent rep = Z.of_nat (length msgs) mod (U32_MAX + 1) /\
      sr_chunks_skipped rep = ChunkBitmap.count_set bm /\ sr_chunk_count rep = chunk_count m /\
      inbox l = Got (Resume (ChunkBitmap.bits bm)) :: before ++
                Got (Complete (root_hash m)) :: inbox l'
  | (Err _, l') => sent l' = sent l \/ exists m msgs,
      Chunker.manifest_from_path name open size = Ok m /\ sent l' = sent l ++ ManifestMsg m :: msgs /\
      (msgs = [] \/ exists data bm, file = Ok data /\ Forall (good_chunk m data bm) msgs)
  | (Panic, _) => False
  end.
Proof.
  intros Hty Hf Ho Hu. pose proof (wp_send_file name open file size peer l Hty Hf Ho Hu) as Hw.
  unfold wp in Hw. by destruct (send_file_after_handshake name open file size peer l) as [[rep|e|] l'].
Qed.

(** C9: The receiver survives any sender and any disk failure, and never
    confirms a file it has not saved: it does not panic; it writes [Complete]
    only as its last message, after the file was published under its output path
    with every chunk verified; it asks for each missing chunk exactly once, in
    order; and at any point it has asked for at most sixteen chunks more than
    the messages it has read, so the memory a sender can fill is bounded. *)
Theorem receiver_confirms_only_saved `{Blake3} {hexc : Hex} m peer w l : is_u64 (total_len m) ->
  StorageProof.usable false m (disk w) -> StorageProof.second_preimage_free m ->
  Forall typed_event (inbox l) ->
  match receive_file_on_stream m peer (w, l) with
  | (Ok rep, (w', l')) => exists bm, wf bm /\ saved_as m (disk w') (rr_output_path rep) /\
      rr_chunks_received rep = Z.of_nat (length (missing_of bm)) /\
      sent l' = sent l ++ Resume (ChunkBitmap.bits bm) ::
                  map RequestChunk (missing_of bm) ++ [Complete (root_hash m)]
  | (Err _, (w', l')) => exists msgs, sent l' = sent l ++ msgs /\
      unconfirmed (Z.of_nat (length (inbox l)) - Z.of_nat (length (inbox l'))) msgs
  | (Panic, _) => False
  end.
Proof.
  intros Hu Hus Hspf Hty. pose proof (wp_receive_stream m peer w l Hu Hus Hspf Hty) as Hw.
  unfold wp in Hw. by destruct (receive_file_on_stream m peer (w, l)) as [[rep|e|] [w' l']].
Qed.
(** C8: On streams that deliver and a disk that does not fail, the two sides
    complete the transfer, from any point of a resumed download: reading exactly
    what the other side writes, the receiver publishes a file whose content is
    the sender's file byte for byte, both return success, everything written is
    read (nothing is left in either stream), and the sender's chunks sent and
    skipped add up to all chunks. *)
Theorem transfer_completes `{Blake3} {hexc : Hex} name r size m f x peer peer' :
  Chunker.manifest_from_path name (Ok r) size = Ok m -> data_only r ->
  is_u64 (Z.of_nat (length (bytes_of r))) -> StorageProof.second_preimage_free m ->
  receiving m f x -> StorageCalm.calm x.2 -> Storage.capability x.1 = false ->
  (exists c, c ∈ Storage.candidate_paths (Storage.target_path x.1) Storage.MAX_FINALIZE_SUFFIX /\
     StorageProof.foreign x.1 c /\ dir (disk x.2) !! c = None) ->
  let data := bytes_of r in
  let bm := Storage.written_bitmap x.1 in
  let to_receiver := map (answer m data) (missing_of bm) in
  let to_sender := Resume (ChunkBitmap.bits bm) ::
                   map RequestChunk (missing_of bm) ++ [Complete (root_hash m)] in
  (exists rep x' g, receive_download m peer (x, mk_link (map Got to_receiver) [] []) =
       (Ok rep, (x', mk_link [] [] to_sender)) /\
     dir (disk x'.2) !! rr_output_path rep = Some g /\ content (disk x'.2) g = data) /\
  (exists rep', send_file_after_handshake name (Ok r) (Ok data) size peer'
       (mk_link (map Got to_sender) [] []) =
       (Ok rep', mk_link [] [] (ManifestMsg m :: to_receiver)) /\
     sr_chunks_sent rep' + sr_chunks_skipped rep' = sr_chunk_count rep').
Proof.
  intros Em Hr Hlen64 Hspf Hrec Hcalm Hcap Hfree data bm to_receiver to_sender.
  destruct (manifest_from_path_data name r size m Em Hr Hlen64) as (Hv & Hu & Hlen & Hdata).
  fold data in Hlen, Hdata. pose proof Hrec as [[_ _ [Hwf Hcnt] _ _ _] Hf Hm]. fold bm in Hwf, Hcnt.
  rewrite Hm in Hcnt. destruct (missing_of_spec bm Hwf) as (Hnd & Hmax & Hmiss).
  assert (forall i, i ∈ missing_of bm -> 0 <= i < chunk_count m /\ view bm i = false) as Hmiss'
    by (intros i Hi; rewrite <- Hcnt; by apply Hmiss).
  split.
  - pose proof (receive_download_calm m f data x peer Hrec Hcalm Hcap Hspf Hlen Hdata Hfree) as H1.
    fold bm to_receiver in H1. set (s := (x, mk_link (map Got to_receiver) [] []) : rstate) in *.
    assert (Forall typed_event (inbox s.2)) as Hty.
    { apply Forall_forall. cbn. intros ev Hev. apply list_elem_of_fmap in Hev as (msg & -> & Hmsg).
      apply list_elem_of_fmap in Hmsg as (i & -> & Hi). apply Hmiss in Hi as [Hi _].
      pose proof (ChunkBitmap.wf_count _ Hwf). cbn. unfold in_range in *. lia. }
    pose proof (wp_receive_download m peer f s Hrec Hspf Hty) as H2. cbv zeta in H2.
    unfold wp in H1, H2. destruct (receive_download m peer s) as [[rep|e|] [x' l']]; [|done..].
    destruct H1 as [Hin Hfates], H2 as ((g & Hg & Hgl & Hgc) & _ & Hsent). cbn in Hin, Hfates, Hsent.
    exists rep, x', g. split; [|split; [done|]].
    + do 2 f_equal. destruct l'. cbn in *. by subst.
    + by apply (content_determined m).
  - apply validate_Ok in Hv as Hval. unfold send_file_after_handshake, sbind, liftr. rewrite Em.
    unfold send_msg at 1. cbn [fates inbox sent tail]. unfold to_sender. cbn [map].
    unfold recv_msg at 1. cbn [inbox fates sent].
    assert (ChunkBitmap.from_bytes (chunk_count m) (ChunkBitmap.bits bm) = Ok bm) as ->.
    { apply ChunkBitmap.from_bytes_spec; [apply StorageProof.chunk_count_u32|by destruct Hwf|].
      split; [|done]. rewrite <- Hcnt. by destruct bm. }
    unfold gets. cbn [map_err inbox].
    rewrite (send_loop_answers m data bm (missing_of bm) 0 ([] ++ [ManifestMsg m])); try done; try lia.
    2: { rewrite !length_map, length_app, length_map. cbn. lia. }
    eexists. split; [done|]. cbn. rewrite ChunkBitmap.count_set_spec by done.
    rewrite <- Hcnt. unfold missing_of. pose proof (ChunkBitmap.wf_count _ Hwf) as Hc. unfold in_range in Hc.
    clear -Hc. pose proof (length_filter_split (view bm) (seqZ 0 (ChunkBitmap.chunk_count bm))) as Hs.
    rewrite length_seqZ in Hs. lia.
Qed.

(** ** Instances: the three-byte file of [StorageProof.Demo] *)

Module Demo.
Import StorageProof.Demo.
#[local] Existing Instances hash hex.

Definition source : reader := [Data [1; 2; 3]].
Definition sender_link : link :=
  mk_link [Got (Resume [0]); Got (RequestChunk 0); Got KeepAlive; Got (Complete (root_hash m))] [] [].
Definition receiver_link : link := mk_link [Got (Chunk 0 [1; 2; 3])] [] [].

Lemma source_manifest : @Chunker.manifest_from_path hash (Some (lit "a")) (Ok source) 16384 = Ok m.
Proof. vm_compute. reflexivity. Qed.

Lemma sender_typed : Forall typed_event (inbox sender_link).
Proof.
  apply Forall_cons. split; [apply Forall_cons; split; [by vm_compute|by apply Forall_nil]|].
  apply Forall_cons. split; [by vm_compute|].
  apply Forall_cons. split; [done|].
  apply Forall_cons. split; [done|by apply Forall_nil].
Qed.

Lemma receiver_typed : Forall typed_event (inbox receiver_link).
Proof. apply Forall_cons. split; [by vm_compute|by apply Forall_nil]. Qed.

Lemma state1_receiving : @receiving hash m 0 state1.
Proof. split; [exact state1_inv|exact state1_file|vm_compute; reflexivity]. Qed.

Lemma state1_free :
  exists c, c ∈ Storage.candidate_paths (Storage.target_path state1.1) Storage.MAX_FINALIZE_SUFFIX /\
    StorageProof.foreign state1.1 c /\ dir (disk state1.2) !! c = None.
Proof.
  exists (lit "a").
  assert (Storage.target_path state1.1 = lit "a") as E by (vm_compute; reflexivity).
  split; [rewrite E; by left|]. split; [|vm_compute; reflexivity].
  split; [by vm_compute|]. split; [by vm_compute|].
  intros [p Hp]. apply (f_equal length) in Hp. rewrite length_app in Hp.
  change (length (lit ".tmp")) with 4%nat in Hp. change (length (lit "a")) with 1%nat in Hp. lia.
Qed.
End Demo.

Lemma sender_answers_only_requests_witness :
  let hash := StorageProof.Demo.hash in let hex := StorageProof.Demo.hex in let m := StorageProof.Demo.m in
  exists rep l', send_file_after_handshake (Some (lit "a")) (Ok Demo.source) (Ok [1; 2; 3]) 16384 []
      Demo.sender_link = (Ok rep, l') /\
    sent l' = [ManifestMsg m; Chunk 0 [1; 2; 3]] /\ sr_chunks_sent rep = 1 /\
    exists m' data bm msgs before, sent l' = sent Demo.sender_link ++ ManifestMsg m' :: msgs /\
      Forall (good_chunk m' data bm) msgs /\
      inbox Demo.sender_link = Got (Resume (ChunkBitmap.bits bm)) :: before ++
                Got (Complete (root_hash m')) :: inbox l'.
Proof.
  intros hash hex m.
  pose proof (sender_answers_only_requests (Some (lit "a")) (Ok Demo.source) (Ok [1; 2; 3]) 16384 []
    Demo.sender_link Demo.sender_typed ltac:(discriminate) ltac:(discriminate)) as H.
  assert (forall m', Chunker.manifest_from_path (Some (lit "a")) (Ok Demo.source) 16384 = Ok m' ->
            is_u64 (total_len m')) as Hm.
  { intros m' E. unfold hash in E. rewrite Demo.source_manifest in E. injection E as <-. vm_compute. done. }
  specialize (H Hm). assert (exists rep l', send_file_after_handshake (Some (lit "a")) (Ok Demo.source)
    (Ok [1; 2; 3]) 16384 [] Demo.sender_link = (Ok rep, l') /\ sent l' = [ManifestMsg m; Chunk 0 [1; 2; 3]] /\
    sr_chunks_sent rep = 1) as (rep & l' & E & Es & En).
  { do 2 eexists. split; [vm_compute; reflexivity|]. split; vm_compute; reflexivity. }
  rewrite E in H. exists rep, l'. split; [exact E|]. split; [exact Es|]. split; [exact En|].
  destruct H as (m' & data & bm & msgs & before & _ & _ & H3 & H4 & _ & _ & _ & H8).
  exists m', data, bm, msgs, before. exact (conj H3 (conj H4 H8)).
Defined.

Lemma receiver_confirms_only_saved_witness :
  let hash := StorageProof.Demo.hash in let hex := StorageProof.Demo.hex in let m := StorageProof.Demo.m in
  exists rep w' l', receive_file_on_stream m [] (StorageProof.Demo.world0, Demo.receiver_link) =
      (Ok rep, (w', l')) /\
    rr_output_path rep = lit "a" /\ saved_as m (disk w') (lit "a") /\
    sent l' = [Resume [0]; RequestChunk 0; Complete (root_hash m)].
Proof.
  intros hash hex m.
  pose proof (receiver_confirms_only_saved m [] StorageProof.Demo.world0 Demo.receiver_link
    ltac:(done) StorageProof.Demo.usable0 StorageProof.Demo.m_second_preimage_free Demo.receiver_typed) as H.
  assert (exists rep w' l', receive_file_on_stream m [] (StorageProof.Demo.world0, Demo.receiver_link) =
      (Ok rep, (w', l')) /\ rr_output_path rep = lit "a" /\
      sent l' = [Resume [0]; RequestChunk 0; Complete (root_hash m)]) as (rep & w' & l' & E & Ep & Es).
  { do 3 eexists. split; [vm_compute; reflexivity|]. split; vm_compute; reflexivity. }
  rewrite E in H. destruct H as (bm & _ & Hs & _). rewrite Ep in Hs.
  exists rep, w', l'. exact (conj E (conj Ep (conj Hs Es))).
Defined.

Lemma transfer_completes_witness :
  let hash := StorageProof.Demo.hash in let hex := StorageProof.Demo.hex in
  let x := StorageProof.Demo.state1 in
  let bm := Storage.written_bitmap x.1 in
  let to_sender := Resume (ChunkBitmap.bits bm) ::
                   map RequestChunk (missing_of bm) ++ [Complete (root_hash StorageProof.Demo.m)] in
  exists rep', send_file_after_handshake (Some (lit "a")) (Ok Demo.source) (Ok (bytes_of Demo.source))
       16384 [] (mk_link (map Got to_sender) [] []) =
       (Ok rep', mk_link [] [] (ManifestMsg StorageProof.Demo.m ::
          map (answer StorageProof.Demo.m (bytes_of Demo.source)) (missing_of bm))) /\
     sr_chunks_sent rep' + sr_chunks_skipped rep' = sr_chunk_count rep'.
Proof.
  intros hash hex x bm to_sender.
  refine (proj2 (transfer_completes (Some (lit "a")) Demo.source 16384 StorageProof.Demo.m 0 x [] []
    Demo.source_manifest _ _ StorageProof.Demo.m_second_preimage_free Demo.state1_receiving _ _
    Demo.state1_free)).
  - apply Forall_cons. split; [reflexivity|apply Forall_nil; exact I].
  - split; vm_compute; discriminate.
  - vm_compute. reflexivity.
  - vm_compute. reflexivity.
Defined.

End TransferProof.
