(* ===== verification/TaskTransfer.v ===== *)
(** * The two loops of a task (src/node/core/transfer.rs)

    The stream of one task behind its protocol gate ([TaskIo]), the sender's and the
    receiver's loop.  The network, the local pause switch and the fate of every call to
    the store, the disk and the stream are what a loop finds, in any order; what it does
    is written down.  The download is an interface that Storage.v implements. *)
From Stdlib Require Import ZArith Lia.
From stdpp Require Import prelude gmap strings.
From S2P Require Import Prelude Bitmap Manifest Message State TaskProtocol TaskModel Chunker.

#[local] Open Scope Z_scope.

Module TaskTransfer.
Import TaskProtocol.
Abbreviation TaskId := (list Z).

Definition WINDOW : nat := 4.
Definition MAX_RECEIVE_FILES : nat := 3.
(** Milliseconds. *)
Definition IDLE_TIMEOUT : Z := 30000.
Definition PAUSE_TIMEOUT : Z := 5000.
Definition PROGRESS_INTERVAL : Z := 250.

Definition failure (message : string) : error := Protocol message.

(** What a loop can meet: the local pause switch, seen by the latch or only later; a
    frame of the reader task, which a throttled write may take early; or the end: a
    deadline, a closed channel, a reader's error. *)
Inductive input : Type :=
  | Pressed (latched : bool)
  | Arrived (early : bool) (f : Frame)
  | Lost (e : error).

(** What a loop does to the outside, in order.  [Heard] is a frame it got to handle. *)
Inductive effect : Type :=
  | Heard (f : Frame)
  | Said (m : Message)
  | TaskSet (s : TaskModel.TaskState)
  | Progressed (bytes : Z)
  | RateReset (bytes : Z)
  | RecoveryCancelled
  | RecoveryForgotten
  | ReceiptStored
  | SkipStored
  | Wrote (index : Z) (data : list Z)
  | Checkpointed
  | Published
  | Closed.
#[global] Instance effect_eq_dec : EqDecision effect.
Proof. solve_decision. Defined.

(** Limits on the file rate, and whether the peer can keep a limited stream alive. *)
Record flow : Type := mk_flow { limited : bool; supported : bool }.

(** The stream of a task.  [fates] are the failures of coming calls, [ticks] whether a
    progress interval is over, [beats] the heartbeats of coming throttled reads, [looks]
    what reopening the source finds: the verified file with some content, or not. *)
Record TaskIo : Type := mk_io {
  io_peer : NodeId;
  io_id : TaskId;
  gate : TaskProtocol;
  pending : list Frame;
  inputs : list input;
  fates : list (option error);
  ticks : list bool;
  beats : list nat;
  looks : list (option (list Z));
  io_flow : flow;
  trace : list effect;
}.

Definition with_gate (g : TaskProtocol) (x : TaskIo) : TaskIo :=
  mk_io (io_peer x) (io_id x) g (pending x) (inputs x) (fates x) (ticks x) (beats x) (looks x) (io_flow x) (trace x).
Definition with_pending (p : list Frame) (x : TaskIo) : TaskIo :=
  mk_io (io_peer x) (io_id x) (gate x) p (inputs x) (fates x) (ticks x) (beats x) (looks x) (io_flow x) (trace x).
Definition with_inputs (i : list input) (x : TaskIo) : TaskIo :=
  mk_io (io_peer x) (io_id x) (gate x) (pending x) i (fates x) (ticks x) (beats x) (looks x) (io_flow x) (trace x).
Definition with_fates (fs : list (option error)) (x : TaskIo) : TaskIo :=
  mk_io (io_peer x) (io_id x) (gate x) (pending x) (inputs x) fs (ticks x) (beats x) (looks x) (io_flow x) (trace x).
Definition with_ticks (t : list bool) (x : TaskIo) : TaskIo :=
  mk_io (io_peer x) (io_id x) (gate x) (pending x) (inputs x) (fates x) t (beats x) (looks x) (io_flow x) (trace x).
Definition with_beats (b : list nat) (x : TaskIo) : TaskIo :=
  mk_io (io_peer x) (io_id x) (gate x) (pending x) (inputs x) (fates x) (ticks x) b (looks x) (io_flow x) (trace x).
Definition with_looks (l : list (option (list Z))) (x : TaskIo) : TaskIo :=
  mk_io (io_peer x) (io_id x) (gate x) (pending x) (inputs x) (fates x) (ticks x) (beats x) l (io_flow x) (trace x).
Definition log (e : effect) (x : TaskIo) : TaskIo :=
  mk_io (io_peer x) (io_id x) (gate x) (pending x) (inputs x) (fates x) (ticks x) (beats x) (looks x) (io_flow x) (trace x ++ [e]).

Abbreviation io A := (st TaskIo error A).

Definition note (e : effect) : io unit := modify (log e).

(** A call that its fate lets fail. *)
Definition perform (e : effect) : io unit :=
  fun x => match fates x with
           | Some err :: rest => (Err err, with_fates rest x)
           | fs => (Ok tt, log e (with_fates (tail fs) x))
           end.

Section Loops.
Context `{Blake3}.

(** ** TaskIo *)

Definition observe_io (actor : Actor) (f : Frame) : io unit :=
  fun x => let '(r, g) := observe (io_peer x) actor f (gate x) in (r, with_gate g x).

Definition send (m : Message) : io unit :=
  let! x := get in
  let! n := liftr (next_request_id (gate x) (io_id x) Local) in
  let! _ := observe_io Local (mk_frame n m) in
  perform (Said m).

Definition is_pause (m : Message) : bool := match m with Pause _ => true | _ => false end.
Definition is_flow_wait (m : Message) : bool := match m with FlowWait _ => true | _ => false end.

(** Frames a throttled write takes early; after a pause it does not wait any more. *)
Fixpoint soak (events : list input) : io unit :=
  match events with
  | Arrived true f :: rest =>
      let! _ := modify (with_inputs rest) in
      let! _ := observe_io Remote f in
      let! _ := if is_flow_wait (message f) then ret tt
                else
                  let! x := get in
                  let! _ := liftr (fail_if (WINDOW * 2 + 4 <=? length (pending x))%nat (failure "control backlog")) in
                  put (with_pending (pending x ++ [f]) x) in
      if is_pause (message f) then ret tt else soak rest
  | _ => ret tt
  end.

Definition send_chunk (m : Message) : io unit :=
  let! x := get in
  let! n := liftr (next_request_id (gate x) (io_id x) Local) in
  let! _ := observe_io Local (mk_frame n m) in
  match m with
  | Chunk _ _ data =>
      let! _ := if bool_decide (data = []) then ret tt
                else liftr (fail_if (limited (io_flow x) && negb (supported (io_flow x))) (failure "no keepalive")) in
      let! y := get in
      let! _ := if bool_decide (data = []) then ret tt else soak (inputs y) in
      perform (Said m)
  | _ => throw (failure "not a chunk")
  end.

Fixpoint heartbeat (n : nat) : io unit :=
  match n with
  | O => ret tt
  | S n =>
      let! x := get in
      let! _ := send (FlowWait (io_id x)) in
      heartbeat n
  end.

Definition wait_download (len : nat) : io unit :=
  let! x := get in
  if negb (limited (io_flow x)) || (len =? 0)%nat then ret tt
  else
    let! _ := modify (with_beats (tail (beats x))) in
    heartbeat (hd 0%nat (beats x)).

Definition check_flow_support : io unit :=
  let! x := get in
  liftr (fail_if (limited (io_flow x) && negb (supported (io_flow x))) (failure "peer does not support limits")).

Definition finish : io unit := note Closed.

Inductive arrival : Type := InputPause | InputFrame (f : Frame).

(** [next_input]: the latch first, then what a throttled write took early, then the
    channels. *)
Definition next_input (pausing : bool) : io arrival :=
  let! x := get in
  match inputs x, pending x with
  | Pressed true :: rest, p =>
      match pausing, p with
      | true, f :: p => let! _ := put (with_pending p x) in let! _ := note (Heard f) in ret (InputFrame f)
      | _, _ => let! _ := put (with_inputs rest x) in ret InputPause
      end
  | _, f :: p => let! _ := put (with_pending p x) in let! _ := note (Heard f) in ret (InputFrame f)
  | [], [] => throw (failure "timeout")
  | Pressed false :: rest, [] => let! _ := put (with_inputs rest x) in ret InputPause
  | Arrived _ f :: rest, [] =>
      let! _ := put (with_inputs rest x) in
      let! _ := observe_io Remote f in
      let! _ := note (Heard f) in
      ret (InputFrame f)
  | Lost e :: rest, [] => let! _ := put (with_inputs rest x) in throw e
  end.

(** ** The service around the loops *)

Definition ends_recovery (s : TaskModel.TaskState) : bool :=
  match s with TaskModel.Pausing | TaskModel.Paused | TaskModel.Completed | TaskModel.Failed => true | _ => false end.

Definition set_state (s : TaskModel.TaskState) : io unit :=
  let! _ := if ends_recovery s then note RecoveryCancelled else ret tt in
  perform (TaskSet s).

Definition progress (bytes : Z) : io unit := perform (Progressed bytes).
Definition reset_rate (bytes : Z) : io unit := note (RateReset bytes).

(** [sampled.elapsed() >= PROGRESS_INTERVAL]. *)
Definition sample (bytes : Z) : io unit :=
  let! x := get in
  let! _ := put (with_ticks (tail (ticks x)) x) in
  if hd false (ticks x) then progress bytes else ret tt.

Definition receipt : io unit :=
  let! _ := note RecoveryForgotten in
  let! _ := set_state TaskModel.Finalizing in
  perform ReceiptStored.

Definition remote_error (code : ErrorCode) : error :=
  failure match code with
          | SourceChanged => "source changed"
          | SourceMissing => "source unavailable"
          | StorageCode => "peer storage"
          | Busy => "peer busy"
          | UnsupportedCapability => "peer does not support limits"
          | _ => "peer interrupted"
          end.

Definition bytes_for (m : Manifest.FileManifest) (indices : gset Z) : Z :=
  foldr (fun i sum => sum + match Manifest.chunk_range m i with Some (_, len) => len | None => 0 end) 0 (elements indices).

(** ** Sender *)

(** [disk::source_chunk]: the file must still be the one that was verified. *)
Definition source_chunk (m : Manifest.FileManifest) (index : Z) : io (list Z) :=
  let! x := get in
  let! _ := put (with_looks (tail (looks x)) x) in
  liftr
    (let? content := ok_or (hd None (looks x)) (failure "source unavailable or changed") in
     let? _ := fail_if (negb (Z.of_nat (length content) =? Manifest.total_len m)) (failure "source changed") in
     let? range := ok_or (Manifest.chunk_range m index) (failure "chunk index") in
     let? bytes := match Chunker.read_chunk content range.1 range.2 with
                   | Ok bytes => Ok bytes
                   | Err _ => Err (failure "source unavailable or changed")
                   | Panic => Panic
                   end in
     let? good := Manifest.verify_chunk m index bytes in
     let? _ := fail_if (negb good) (failure "source changed") in
     Ok bytes).

Record sending : Type := mk_sending {
  resumed : bool;
  pending_pause : bool;
  acknowledged : gset Z;
  in_flight : gset Z;
  s_bytes : Z;
  s_pausing : bool;
}.

Definition fresh_sending : sending := mk_sending false false ∅ ∅ 0 false.

(** One frame; [None] when the loop is over. *)
Definition sender_handle (m : Manifest.FileManifest) (f : Frame) (v : sending) : io (option sending) :=
  let! x := get in
  let id := io_id x in
  match message f with
  | Resume _ _ have =>
      let! bitmap := liftr (ChunkBitmap.from_bytes (Manifest.chunk_count m) have) in
      let! present := liftr (ChunkBitmap.present bitmap) in
      let acknowledged := acknowledged v ∪ list_to_set present in
      let bytes := bytes_for m acknowledged in
      let! _ := reset_rate bytes in
      let! _ := progress bytes in
      let! _ := if pending_pause v then send (Pause id) else ret tt in
      ret (Some (mk_sending true false acknowledged (in_flight v) bytes (s_pausing v)))
  | RequestChunk _ index =>
      if negb (resumed v) || (WINDOW <=? size (in_flight v))%nat || bool_decide (index ∈ acknowledged v) ||
         bool_decide (index ∈ in_flight v)
      then throw (failure "repeated or unauthorized request")
      else
        let! data := source_chunk m index in
        let! _ := check_flow_support in
        let! _ := send_chunk (Chunk id index data) in
        ret (Some (mk_sending (resumed v) (pending_pause v) (acknowledged v) ({[index]} ∪ in_flight v) (s_bytes v) (s_pausing v)))
  | FlowWait _ => ret (Some v)
  | ChunkAck _ index =>
      if negb (bool_decide (index ∈ in_flight v)) || bool_decide (index ∈ acknowledged v)
      then throw (failure "repeated or unknown confirmation")
      else
        let! range := liftr (unwrap (Manifest.chunk_range m index)) in
        let bytes := s_bytes v + range.2 in
        let! _ := sample bytes in
        ret (Some (mk_sending (resumed v) (pending_pause v) ({[index]} ∪ acknowledged v) (in_flight v ∖ {[index]}) bytes (s_pausing v)))
  | Pause _ =>
      let! _ := if s_pausing v then ret tt
                else let! _ := set_state TaskModel.Pausing in send (Pause id) in
      let! _ := send (Paused id (request_id f)) in
      ret (Some (mk_sending (resumed v) (pending_pause v) (acknowledged v) (in_flight v) (s_bytes v) true))
  | Paused _ _ => ret (Some v)
  | Completed _ _ receipt_version =>
      let! _ :=
        if receipt_version =? 2 then
          let! _ := note RecoveryForgotten in
          let! _ := set_state TaskModel.Finalizing in
          perform SkipStored
        else receipt in
      let! _ := progress (Manifest.total_len m) in
      let! _ := finish in
      ret None
  | Error _ code => throw (remote_error code)
  | _ => throw (failure "illegal message for the sender")
  end.

(** Each round takes one event; [fuel] over their number is enough. *)
Fixpoint sender_loop (fuel : nat) (m : Manifest.FileManifest) (v : sending) : io unit :=
  match fuel with
  | O => panic
  | S fuel =>
      let! x := get in
      if bool_decide (state_of (gate x) (io_id x) = Some PausedState) then
        let! _ := set_state TaskModel.Paused in
        finish
      else
        let! incoming := next_input (s_pausing v) in
        match incoming with
        | InputPause =>
            let! _ := if s_pausing v then ret tt else set_state TaskModel.Pausing in
            let! _ := if resumed v then send (Pause (io_id x)) else ret tt in
            sender_loop fuel m
              (mk_sending (resumed v) (pending_pause v || negb (resumed v)) (acknowledged v) (in_flight v) (s_bytes v) true)
        | InputFrame f =>
            let! next := sender_handle m f v in
            match next with
            | Some v => sender_loop fuel m v
            | None => ret tt
            end
        end
  end.

End Loops.

(** ** The download *)

(** What the receiver needs of the file it fills. *)
Class Download (D : Type) : Type := {
  dl_bitmap : D -> ChunkBitmap.t;
  dl_write : Z -> list Z -> st D error unit;
  dl_checkpoint : st D error unit;
}.

(** ** Receiver *)

Section Receive.
Context `{Blake3} {D : Type} `{Download D}.

Abbreviation rio A := (st (TaskIo * D) error A).

Definition on_io {A : Type} (c : io A) : rio A := zoom fst (fun x s => (x, s.2)) c.
Definition on_file {A : Type} (c : st D error A) : rio A := zoom snd (fun d s => (s.1, d)) c.

Record receiving : Type := mk_receiving {
  missing : list Z;
  outstanding : gset Z;
  r_bytes : Z;
  r_pausing : bool;
  remote_pause : option Z;
  checkpointed : bool;
}.

(** [while outstanding.len() < WINDOW]. *)
Fixpoint request_chunks (id : TaskId) (queue : list Z) (out : gset Z) : io (list Z * gset Z) :=
  if (size out <? WINDOW)%nat then
    match queue with
    | [] => ret ([], out)
    | index :: rest =>
        let! _ := send (RequestChunk id index) in
        request_chunks id rest ({[index]} ∪ out)
    end
  else ret (queue, out).

Definition publish_download (m : Manifest.FileManifest) (id : TaskId) : rio unit :=
  let! _ := on_io (set_state TaskModel.Finalizing) in
  let! _ := on_io (perform Published) in
  let! _ := on_io (progress (Manifest.total_len m)) in
  let! _ := on_io (send (Completed id (Manifest.root_hash m) 1)) in
  on_io finish.

(** With nothing in flight, a pause is confirmed once the file is safe; [true] when the
    loop is over. *)
Definition settle_pause (id : TaskId) (v : receiving) : rio (option receiving) :=
  let! _ := if checkpointed v then ret tt
            else let! _ := on_file dl_checkpoint in on_io (note Checkpointed) in
  let! _ := match remote_pause v with
            | Some request_id => on_io (send (Paused id request_id))
            | None => ret tt
            end in
  let! x := on_io get in
  if bool_decide (state_of (gate x) id = Some PausedState) then
    let! _ := on_io (progress (r_bytes v)) in
    let! _ := on_io (set_state TaskModel.Paused) in
    let! _ := on_io finish in
    ret None
  else ret (Some (mk_receiving (missing v) (outstanding v) (r_bytes v) (r_pausing v) None true)).

(** Before the next event: ask for chunks, or settle a pause. *)
Definition prepare (id : TaskId) (v : receiving) : rio (option receiving) :=
  if negb (r_pausing v) then
    let! w := on_io (request_chunks id (missing v) (outstanding v)) in
    ret (Some (mk_receiving w.1 w.2 (r_bytes v) (r_pausing v) (remote_pause v) (checkpointed v)))
  else if bool_decide (outstanding v = ∅) then settle_pause id v
  else ret (Some v).

Definition receiver_handle (id : TaskId) (f : Frame) (v : receiving) : rio receiving :=
  match message f with
  | Chunk _ index data =>
      if negb (bool_decide (index ∈ outstanding v)) then throw (failure "chunk not requested or repeated")
      else
        let! _ := on_io check_flow_support in
        let! _ := on_io (wait_download (length data)) in
        let! _ := on_file (dl_write index data) in
        let! _ := on_io (note (Wrote index data)) in
        let bytes := r_bytes v + Z.of_nat (length data) in
        let! _ := on_io (send (ChunkAck id index)) in
        let! _ := on_io (sample bytes) in
        ret (mk_receiving (missing v) (outstanding v ∖ {[index]}) bytes (r_pausing v) (remote_pause v) (checkpointed v))
  | Pause _ =>
      let! _ := if r_pausing v then ret tt else on_io (set_state TaskModel.Pausing) in
      ret (mk_receiving (missing v) (outstanding v) (r_bytes v) true (Some (request_id f)) (checkpointed v))
  | Paused _ _ => ret v
  | Error _ code => throw (remote_error code)
  | _ => throw (failure "illegal message for the receiver")
  end.

Fixpoint receive_rounds (fuel : nat) (m : Manifest.FileManifest) (id : TaskId) (v : receiving) : rio unit :=
  match fuel with
  | O => panic
  | S fuel =>
      if r_bytes v =? Manifest.total_len m then publish_download m id
      else
        let! next := prepare id v in
        match next with
        | None => ret tt
        | Some v =>
            let! incoming := on_io (next_input (r_pausing v)) in
            match incoming with
            | InputPause =>
                let! _ := if r_pausing v then ret tt else on_io (set_state TaskModel.Pausing) in
                let! _ := on_io (send (Pause id)) in
                receive_rounds fuel m id (mk_receiving (missing v) (outstanding v) (r_bytes v) true (remote_pause v) (checkpointed v))
            | InputFrame f =>
                let! v := receiver_handle id f v in
                receive_rounds fuel m id v
            end
        end
  end.

Definition receiver_loop (fuel : nat) (m : Manifest.FileManifest) : rio unit :=
  let! d := on_file get in
  let! x := on_io get in
  let have := ChunkBitmap.to_bytes (dl_bitmap d) in
  let! missing := liftr (ChunkBitmap.missing (dl_bitmap d)) in
  let! present := liftr (ChunkBitmap.present (dl_bitmap d)) in
  let bytes := bytes_for m (list_to_set present) in
  let! _ := on_io (send (Resume (io_id x) (Manifest.root_hash m) have)) in
  let! _ := on_io (reset_rate bytes) in
  let! _ := on_io (progress bytes) in
  receive_rounds fuel m (io_id x) (mk_receiving missing ∅ bytes false None false).

End Receive.
End TaskTransfer.
