(* ===== verification/TaskMachine.v ===== *)
(** * The two loops of a task: their runs (src/node/core/transfer.rs)

    What the loops share: the frames the protocol gate lets through, and runs whose
    effects an automaton accepts.  TaskSender.v and TaskReceiver.v give the automata. *)
From Stdlib Require Import ZArith Lia.
From stdpp Require Import prelude gmap strings.
From S2P Require Import Prelude Bitmap Manifest Message State TaskProtocol TaskProtocolProof TaskModel TaskTransfer.

#[local] Open Scope Z_scope.

Module TaskMachine.
Import TaskProtocol TaskProtocolProof TaskTransfer.
Import ChunkBitmap (view, wf).

(** ** Frames that the gate lets through *)

Section Gate.
Context `{Blake3}.
Context (id : TaskId) (root0 : list Z) (role : Actor).

Definition is_offer (f : Frame) : bool :=
  match message (TaskProtocolProof.core f) with Offer _ _ _ _ => true | _ => false end.

(** The gate knows one task, and knows it right. *)
Definition only (g : TaskProtocol) : Prop :=
  exists b, tasks g = {[id := b]} /\ root b = root0 /\ sender b = role.

(** A frame about this task; a receipt names its content and comes from the receiver. *)
Definition own (f : Frame) : Prop :=
  is_offer f = false /\ message_task_id (message f) = Some id /\
  match message f with
  | Completed _ root _ => root = root0 /\ role = Local
  | Chunk _ _ _ => role = Remote
  | RequestChunk _ _ | ChunkAck _ _ | Resume _ _ _ => role = Local
  | _ => True
  end.

Lemma wire_step_same a f b b' : wire_step a f b b' -> root b' = root b /\ sender b' = sender b.
Proof. by destruct 1. Qed.

Lemma accepted_only a f g g' q : only g -> accepted q a f g g' -> is_offer f = false -> only g'.
Proof.
  intros (b & Et & Er & Es) Ha Ho. destruct Ha as [task group path entry Hq Hv Em|task b1 b' Hq Hv Em Eb Hid Hmax Hst].
  - unfold is_offer in Ho. by rewrite Em in Ho.
  - rewrite Et in Eb. apply lookup_singleton_Some in Eb as [<- <-]. destruct (wire_step_same _ _ _ _ Hst) as [E1 E2].
    exists (stamped f a b'). cbn. rewrite Et. split; [by rewrite insert_singleton_eq|]. cbn. by rewrite E1, E2.
Qed.

Lemma accepted_own f g g' q : only g -> accepted q Remote f g g' -> is_offer f = false -> own f.
Proof.
  intros (b & Et & Er & Es) Ha Ho. split; [done|]. destruct Ha as [task group path entry Hq Hv Em|task b1 b' Hq Hv Em Eb Hid Hmax Hst].
  - unfold is_offer in Ho. by rewrite Em in Ho.
  - rewrite Et in Eb. apply lookup_singleton_Some in Eb as [<- <-]. split; [done|].
    destruct f as [n msg]. cbn [message] in *. unfold TaskProtocolProof.core in Hst. cbn in Hst.
    rewrite <- Er, <- Es. destruct msg; try done; cbn in Hst; inversion Hst; simplify_eq/=; try split; try done; match goal with |- sender ?b = _ => destruct (sender b); congruence end.
Qed.

(** What a loop says. *)
Definition sayable (m : Message) : bool :=
  match m with Offer _ _ _ _ | AutomaticOffer _ _ _ _ | IncrementalOffer _ _ _ _ _ => false | _ => true end.

Lemma sayable_no_offer n m : sayable m = true -> is_offer (mk_frame n m) = false.
Proof. by destruct m. Qed.

(** Frames taken early: all about this task, up to an offer of another. *)
Definition queue_ok (g : TaskProtocol) (l : list Frame) : Prop :=
  Forall own l /\ only g \/ exists l1 f l2, l = l1 ++ f :: l2 /\ Forall own l1 /\ is_offer f = true.

Lemma queue_say a n m g g' q l : queue_ok g l -> sayable m = true -> accepted q a (mk_frame n m) g g' -> queue_ok g' l.
Proof. intros [[Hl Ho]|Hl] Hm Ha; [left|by right]. split; [done|]. eapply accepted_only; [done|done|by apply sayable_no_offer]. Qed.

Lemma queue_hear f g g' q l : queue_ok g l -> accepted q Remote f g g' -> queue_ok g' (l ++ [f]).
Proof.
  intros [[Hl Ho]|(l1 & f0 & l2 & -> & Hl & Hf)] Ha.
  - destruct (is_offer f) eqn:Ef; [right; by exists l, f, []|left]. split; [|by eapply accepted_only].
    apply Forall_app. split; [done|]. constructor; [by eapply accepted_own|constructor].
  - right. exists l1, f0, (l2 ++ [f]). by rewrite <- app_assoc.
Qed.

Lemma queue_drop f g g' q l : queue_ok g l -> accepted q Remote f g g' -> is_offer f = false -> queue_ok g' l.
Proof. intros [[Hl Ho]|Hl] Ha Hf; [left|by right]. split; [done|]. by eapply accepted_only. Qed.

Lemma queue_pop f g l : queue_ok g (f :: l) -> is_offer f = true \/ own f /\ queue_ok g l.
Proof.
  intros [[Hl Ho]|([|f1 l1] & f0 & l2 & E & Hl & Hf)].
  - apply Forall_cons in Hl as [Hf Hl]. right. split; [done|by left].
  - injection E as <- <-. by left.
  - injection E as -> ->. apply Forall_cons in Hl as [Hf1 Hl]. right. split; [done|]. right. by exists l1, f0, l2.
Qed.
End Gate.

(** ** Runs against an automaton *)

(** Field widths of what a decoder gives. *)
Definition typed_frame (f : Frame) : Prop :=
  match message f with
  | RequestChunk _ i | ChunkAck _ i | Chunk _ i _ => is_u32 i
  | Resume _ _ have => are_bytes have
  | _ => True
  end.
Definition typed_input (e : input) : Prop := match e with Arrived _ f => typed_frame f | _ => True end.

Section Machine.
Context `{Blake3} {S : Type} (chk : S -> effect -> option S) (first : S) (base : list effect).
Context (root0 : list Z) (role : Actor).

Fixpoint follow (s : S) (l : list effect) : option S :=
  match l with
  | [] => Some s
  | e :: l => s' ← chk s e; follow s' l
  end.

Lemma follow_app s l e : follow s (l ++ [e]) = s' ← follow s l; chk s' e.
Proof. revert s. induction l as [|x l IH]; intros s; cbn; [by destruct (chk s e)|]. destruct (chk s x); [apply IH|done]. Qed.

(** What the loop did since it started is a run of the automaton to [s]. *)
Definition seen (s : S) (x : TaskIo) : Prop := exists l, trace x = base ++ l /\ follow first l = Some s.

Record at_ (s : S) (x : TaskIo) : Prop := mk_at {
  at_seen : seen s x;
  at_queue : queue_ok (io_id x) root0 role (gate x) (pending x);
  at_typed : Forall typed_input (inputs x) /\ Forall typed_frame (pending x);
}.

Definition size_of (x : TaskIo) : nat := length (inputs x) + length (pending x).

Definition same (x x' : TaskIo) : Prop := io_id x' = io_id x /\ (size_of x' <= size_of x)%nat.

Lemma io_same_refl x : same x x.
Proof. done. Qed.
Lemma io_same_trans x y z : same x y -> same y z -> same x z.
Proof. unfold same. intros [-> ?] [-> ?]. split; [done|lia]. Qed.

Lemma seen_log s s' e x : seen s x -> chk s e = Some s' -> seen s' (log e x).
Proof. intros (l & E & Hl) He. exists (l ++ [e]). split; [cbn; by rewrite E, app_assoc|]. by rewrite follow_app, Hl. Qed.

Lemma wp_note (Q : unit -> TaskIo -> Prop) (R : error -> TaskIo -> Prop) s s' e x : at_ s x -> chk s e = Some s' ->
  (forall x', at_ s' x' -> same x x' -> Q tt x') -> wp (note e) Q R x.
Proof. intros [H1 H2 H3] He HQ. apply wp_modify, HQ; [|done]. split; [by eapply seen_log|done|done]. Qed.

Lemma wp_perform (Q : unit -> TaskIo -> Prop) (R : error -> TaskIo -> Prop) s s' e x : at_ s x -> chk s e = Some s' ->
  (forall x', at_ s' x' -> same x x' -> Q tt x') -> (forall err x', at_ s x' -> same x x' -> R err x') -> wp (perform e) Q R x.
Proof.
  intros [H1 H2 H3] He HQ HR. unfold wp, perform. destruct (fates x) as [|[err|] fs].
  - apply HQ; [|done]. split; [|done|done]. eapply seen_log; [|done]. by destruct x.
  - apply HR; [|done]. by split.
  - apply HQ; [|done]. split; [|done|done]. eapply seen_log; [|done]. by destruct x.
Qed.

Lemma wp_observe_say (Q : unit -> TaskIo -> Prop) (R : error -> TaskIo -> Prop) s n m x : at_ s x -> sayable m = true ->
  (forall x', at_ s x' -> same x x' -> looks x' = looks x -> Q tt x') -> (forall err, R err x) -> wp (observe_io Local (mk_frame n m)) Q R x.
Proof.
  intros [H1 H2 H3] Hm HQ HR. unfold wp, observe_io.
  destruct (observe_cases (io_peer x) Local (mk_frame n m) (gate x)) as [[tag E]|(g & E & Ha)]; rewrite E.
  - replace (with_gate (gate x) x) with x by (by destruct x). apply HR.
  - apply HQ; [|done|done]. split; [done| |done]. cbn. by eapply queue_say.
Qed.

Lemma wp_say (Q : unit -> TaskIo -> Prop) (R : error -> TaskIo -> Prop) s s' m x : at_ s x -> sayable m = true ->
  chk s (Said m) = Some s' -> (forall x', at_ s' x' -> same x x' -> Q tt x') -> (forall err x', at_ s x' -> same x x' -> R err x') -> wp (send m) Q R x.
Proof.
  intros Hat Hm He HQ HR. unfold send. apply wp_bind, wp_get, wp_bind, wp_liftr.
  unfold next_request_id. destruct (match _ with Some b => _ | None => _ end) as [n|]; cbn [ok_or]; [|by apply HR].
  apply wp_bind. eapply wp_observe_say; [done|done| |by intros; apply HR]. intros x1 H1 Hs1 _. eapply wp_perform; [done|done|..].
  - intros x2 H2 Hs2. apply HQ; [done|]. by eapply io_same_trans.
  - intros err x2 H2 Hs2. apply HR; [done|]. by eapply io_same_trans.
Qed.

(** Frames are heard when they are handled. *)
Context (hear : S -> Frame -> S) (alive : S -> bool).
Context (chk_heard : forall s f, alive s = true -> chk s (Heard f) = Some (hear s f)).

(** A frame to handle: about this task, or an offer that ends the loop. *)
Definition got (s : S) (f : Frame) (x : TaskIo) : Prop :=
  typed_frame f /\ seen (hear s f) x /\ (is_offer f = true \/ own (io_id x) root0 role f /\ at_ (hear s f) x).

Lemma got_pop s f p x : at_ s x -> alive s = true -> pending x = f :: p -> got s f (log (Heard f) (with_pending p x)).
Proof.
  intros [H1 H2 [H3 H4]] Ha E. rewrite E in *. apply Forall_cons in H4 as [Hf H4].
  assert (seen (hear s f) (log (Heard f) (with_pending p x))) as Hs by (eapply seen_log; [exact H1|by apply chk_heard]).
  split; [done|]. split; [done|]. destruct (queue_pop _ _ _ _ _ _ H2) as [Ho|[Ho Hq]]; [by left|right]. split; [done|]. by split.
Qed.

Lemma wp_next_input (Q : arrival -> TaskIo -> Prop) (R : error -> TaskIo -> Prop) s pausing x : at_ s x -> alive s = true ->
  (forall x', at_ s x' -> io_id x' = io_id x -> (size_of x' < size_of x)%nat -> Q InputPause x') ->
  (forall f x', got s f x' -> io_id x' = io_id x -> (size_of x' < size_of x)%nat -> Q (InputFrame f) x') ->
  (forall err x', at_ s x' -> R err x') -> wp (next_input pausing) Q R x.
Proof.
  intros Hat Ha HQp HQf HR. unfold next_input. apply wp_bind, wp_get. pose proof Hat as [H1 H2 [H3 H4]].
  assert (forall f p, pending x = f :: p -> wp (let! _ := put (with_pending p x) in let! _ := note (Heard f) in ret (InputFrame f)) Q R x) as Hpop.
  { intros f p E. apply wp_bind. unfold put. apply wp_bind, wp_modify, wp_ret, HQf; [by apply got_pop|done|].
    unfold size_of. cbn. rewrite E. cbn. lia. }
  assert (forall i rest, inputs x = i :: rest -> at_ s (with_inputs rest x) /\ (size_of (with_inputs rest x) < size_of x)%nat) as Hin.
  { intros i rest E. rewrite E in H3. apply Forall_cons in H3 as [_ H3]. split; [by split|]. unfold size_of. cbn. rewrite E. cbn. lia. }
  destruct (inputs x) as [|[[|]|early f|e] rest] eqn:Ei.
  - destruct (pending x) as [|f p] eqn:Ep; [by apply wp_throw, HR|by apply Hpop].
  - destruct (Hin _ _ eq_refl) as [Hi1 Hi2]. destruct pausing; [|by apply wp_bind, wp_ret, HQp].
    destruct (pending x) as [|f p] eqn:Ep; [by apply wp_bind, wp_ret, HQp|by apply Hpop].
  - destruct (Hin _ _ eq_refl) as [Hi1 Hi2]. destruct (pending x) as [|f p] eqn:Ep; [by apply wp_bind, wp_ret, HQp|by apply Hpop].
  - destruct (Hin _ _ eq_refl) as [[Hi1 Hi2 [Hi3 Hi4]] Hlt]. destruct (pending x) as [|f' p] eqn:Ep; [|by apply Hpop].
    apply wp_bind. unfold put, wp. cbn [with_inputs]. apply Forall_cons in H3 as [Hf H3]. cbn in Hf.
    unfold sbind, observe_io. cbn [io_peer with_inputs gate].
    destruct (observe_cases (io_peer x) Remote f (gate x)) as [[tag E]|(g & E & Hacc)]; rewrite E.
    + apply HR. by split.
    + cbn. apply HQf; [|done|unfold size_of; cbn; rewrite Ei, Ep; cbn; lia].
      assert (seen (hear s f) (log (Heard f) (with_gate g (with_inputs rest x)))) as Hs by (eapply seen_log; [exact H1|by apply chk_heard]).
      split; [done|]. split; [done|]. destruct (is_offer f) eqn:Ef; [by left|right].
      destruct (queue_hear _ _ _ _ _ _ _ _ H2 Hacc) as [[Ho1 Ho2]|(l1 & f0 & l2 & E1 & _ & Ef0)].
      * apply Forall_cons in Ho1 as [Ho1 _]. split; [exact Ho1|]. split; [done| |split; [done|cbn; by rewrite Ep]].
        cbn. rewrite Ep. left. split; [constructor|done].
      * destruct l1 as [|y l1]; [injection E1 as <- _; congruence|]. injection E1 as _ E1. by destruct l1.
  - destruct (Hin _ _ eq_refl) as [Hi1 Hi2]. destruct (pending x) as [|f p] eqn:Ep; [|by apply Hpop]. by apply wp_bind, wp_throw, HR.
Qed.

(** What the service does around the loops. *)
Lemma wp_set_state (Q : unit -> TaskIo -> Prop) (R : error -> TaskIo -> Prop) s s' t x : at_ s x ->
  chk s RecoveryCancelled = Some s -> chk s (TaskSet t) = Some s' ->
  (forall x', at_ s' x' -> same x x' -> Q tt x') -> (forall err x', at_ s x' -> R err x') -> wp (set_state t) Q R x.
Proof.
  intros Hat Hc He HQ HR. unfold set_state. apply wp_bind. destruct (ends_recovery t).
  - eapply wp_note; [done|done|]. intros x1 H1 Hs1. eapply wp_perform; [done|done| |by intros; apply HR].
    intros x2 H2 Hs2. apply HQ; [done|]. by eapply io_same_trans.
  - apply wp_ret. eapply wp_perform; [done|done| |by intros; apply HR]. intros x2 H2 Hs2. by apply HQ.
Qed.

Lemma wp_sample (Q : unit -> TaskIo -> Prop) (R : error -> TaskIo -> Prop) s bytes x : at_ s x ->
  chk s (Progressed bytes) = Some s ->
  (forall x', at_ s x' -> same x x' -> Q tt x') -> (forall err x', at_ s x' -> R err x') -> wp (sample bytes) Q R x.
Proof.
  intros Hat Hc HQ HR. unfold sample. apply wp_bind, wp_get, wp_bind. unfold put, wp. cbn beta iota.
  assert (at_ s (with_ticks (tail (ticks x)) x)) as H1 by (destruct Hat; by split).
  destruct (hd false (ticks x)).
  - change (wp (progress bytes) Q R (with_ticks (tail (ticks x)) x)). eapply wp_perform; [done|done| |by intros; apply HR].
    intros x2 H2 Hs2. by apply HQ.
  - by apply HQ.
Qed.
End Machine.
End TaskMachine.
