(* ===== verification/TaskSender.v ===== *)
(** * The sender's loop: what it promises (src/node/core/transfer.rs)

    An automaton of what a sender may do, with the set of chunks the peer has and those
    on their way, and the theorem that the loop keeps to it whatever it meets. *)
From Stdlib Require Import ZArith Lia.
From stdpp Require Import prelude gmap strings.
From S2P Require Import Prelude Bitmap Manifest Message State TaskProtocol TaskProtocolProof TaskModel Chunker StorageProof TransferProof TaskTransfer TaskMachine.

#[local] Open Scope Z_scope.

Module TaskSender.
Import Manifest (FileManifest).
Import TaskProtocol TaskProtocolProof TaskTransfer TaskMachine.
Import ChunkBitmap (view, wf).

Section Sender.
Context `{Blake3}.

(** ** Bytes of a set of chunks *)

Definition chunk_bytes (m : FileManifest) (i : Z) : Z := match Manifest.chunk_range m i with Some (_, len) => len | None => 0 end.

Lemma bytes_for_empty m : bytes_for m ∅ = 0.
Proof. done. Qed.

Lemma bytes_for_insert m i s : i ∉ s -> bytes_for m ({[i]} ∪ s) = bytes_for m s + chunk_bytes m i.
Proof.
  intros Hi. unfold bytes_for.
  set (f := fun i sum => sum + match Manifest.chunk_range m i with Some (_, len) => len | None => 0 end).
  assert (Proper ((≡ₚ) ==> (=)) (foldr f 0)) as Hp.
  { intros l1 l2 E. apply (foldr_permutation (=) f 0); [|done]. intros j1 a1 j2 a2 b Hne E1 E2. unfold f. lia. }
  rewrite (elements_union_singleton _ _ Hi). cbn. done.
Qed.

(** ** The automaton *)

(** [q_have] are the chunks the peer confirmed, [q_flight] those sent and not
    confirmed, [q_owed] the request to answer, [q_ask] the pause to confirm, [q_receipt]
    the version of the receipt; a dead run may only end. *)
Record sspec : Type := mk_sspec {
  q_resumed : bool;
  q_have : gset Z;
  q_flight : gset Z;
  q_owed : option Z;
  q_ask : option Z;
  q_receipt : option Z;
  q_stored : bool;
  q_paused : bool;
  q_dead : bool;
  q_over : bool;
}.

Definition sspec0 : sspec := mk_sspec false ∅ ∅ None None None false false false false.

Definition dead (s : sspec) : sspec :=
  mk_sspec (q_resumed s) (q_have s) (q_flight s) (q_owed s) (q_ask s) (q_receipt s) (q_stored s) (q_paused s) true (q_over s).

Definition s_hear (m : FileManifest) (s : sspec) (f : Frame) : sspec :=
  match message f with
  | Resume _ _ have =>
      match obind (ChunkBitmap.from_bytes (Manifest.chunk_count m) have) ChunkBitmap.present with
      | Ok l => mk_sspec true (q_have s ∪ list_to_set l) (q_flight s) None (q_ask s) None (q_stored s) (q_paused s) false false
      | _ => dead s
      end
  | RequestChunk _ i =>
      if q_resumed s && (size (q_flight s) <? 4)%nat && negb (bool_decide (i ∈ q_have s)) && negb (bool_decide (i ∈ q_flight s))
      then mk_sspec (q_resumed s) (q_have s) (q_flight s) (Some i) (q_ask s) None (q_stored s) (q_paused s) false false
      else dead s
  | ChunkAck _ i =>
      if bool_decide (i ∈ q_flight s) && negb (bool_decide (i ∈ q_have s))
      then mk_sspec (q_resumed s) ({[i]} ∪ q_have s) (q_flight s ∖ {[i]}) None (q_ask s) None (q_stored s) (q_paused s) false false
      else dead s
  | Pause _ => mk_sspec (q_resumed s) (q_have s) (q_flight s) None (Some (request_id f)) None (q_stored s) (q_paused s) false false
  | Completed _ root v =>
      if bool_decide (root = Manifest.root_hash m)
      then mk_sspec (q_resumed s) (q_have s) (q_flight s) None (q_ask s) (Some v) (q_stored s) (q_paused s) false false
      else dead s
  | FlowWait _ | Paused _ _ => s
  | _ => dead s
  end.

Definition s_alive (s : sspec) : bool :=
  negb (q_dead s) && negb (q_over s) && bool_decide (q_owed s = None) && bool_decide (q_receipt s = None).

Definition verified (m : FileManifest) (i : Z) (data : list Z) : bool :=
  match Manifest.verify_chunk m i data with Ok b => b | _ => false end.

Definition s_check (m : FileManifest) (s : sspec) (e : effect) : option sspec :=
  match e with
  | Heard f => if s_alive s then Some (s_hear m s f) else None
  | _ =>
      if q_dead s || q_over s then None
      else match e with
      | Said (Chunk _ i data) =>
          if bool_decide (q_owed s = Some i) && verified m i data
          then Some (mk_sspec (q_resumed s) (q_have s) ({[i]} ∪ q_flight s) None (q_ask s) (q_receipt s) (q_stored s) (q_paused s) false false)
          else None
      | Said (Pause _) => Some s
      | Said (Paused _ n) =>
          if bool_decide (q_ask s = Some n)
          then Some (mk_sspec (q_resumed s) (q_have s) (q_flight s) (q_owed s) None (q_receipt s) (q_stored s) (q_paused s) false false)
          else None
      | TaskSet TaskModel.Pausing => Some s
      | TaskSet TaskModel.Paused =>
          Some (mk_sspec (q_resumed s) (q_have s) (q_flight s) (q_owed s) (q_ask s) (q_receipt s) (q_stored s) true false false)
      | TaskSet TaskModel.Finalizing => if bool_decide (is_Some (q_receipt s)) then Some s else None
      | RecoveryForgotten => if bool_decide (is_Some (q_receipt s)) then Some s else None
      | RecoveryCancelled => Some s
      | ReceiptStored =>
          match q_receipt s with
          | Some v => if v =? 2 then None
                      else Some (mk_sspec (q_resumed s) (q_have s) (q_flight s) (q_owed s) (q_ask s) (q_receipt s) true (q_paused s) false false)
          | None => None
          end
      | SkipStored =>
          match q_receipt s with
          | Some v => if v =? 2
                      then Some (mk_sspec (q_resumed s) (q_have s) (q_flight s) (q_owed s) (q_ask s) (q_receipt s) true (q_paused s) false false)
                      else None
          | None => None
          end
      | Progressed b => if (b =? bytes_for m (q_have s)) || (q_stored s && (b =? Manifest.total_len m)) then Some s else None
      | RateReset b => if b =? bytes_for m (q_have s) then Some s else None
      | Closed =>
          if q_stored s || q_paused s
          then Some (mk_sspec (q_resumed s) (q_have s) (q_flight s) (q_owed s) (q_ask s) (q_receipt s) (q_stored s) (q_paused s) false true)
          else None
      | _ => None
      end
  end.

(** ** The loop keeps to it *)

Context (m : FileManifest) (base : list effect).
Context (Hvalid : Manifest.valid m) (Hlen : is_u64 (Manifest.total_len m)).

Abbreviation sat := (at_ (s_check m) sspec0 base (Manifest.root_hash m) Local).
Abbreviation sseen := (seen (s_check m) sspec0 base).

(** The loop's variables and the automaton's state. *)
Record follows (v : sending) (s : sspec) : Prop := mk_follows {
  fo_resumed : q_resumed s = resumed v;
  fo_have : q_have s = acknowledged v;
  fo_flight : q_flight s = in_flight v;
  fo_bytes : s_bytes v = bytes_for m (acknowledged v);
  fo_ranges : forall i, i ∈ in_flight v -> is_Some (Manifest.chunk_range m i);
  fo_alive : s_alive s = true;
  fo_open : q_stored s = false;
}.

Lemma s_heard s f : s_alive s = true -> s_check m s (Heard f) = Some (s_hear m s f).
Proof. cbn. by intros ->. Qed.

Lemma alive_inv s : s_alive s = true -> q_dead s = false /\ q_over s = false /\ q_owed s = None /\ q_receipt s = None.
Proof.
  unfold s_alive. rewrite !andb_true_iff, !negb_true_iff, !bool_decide_eq_true. tauto.
Qed.

Lemma wp_soak (Q : unit -> TaskIo -> Prop) (R : error -> TaskIo -> Prop) s events x0 x : sat s x -> same x0 x -> inputs x = events ->
  (forall x', sat s x' -> same x0 x' -> Q tt x') -> (forall err x', sseen s x' -> R err x') -> wp (soak events) Q R x.
Proof.
  intros Hat Hsame E HQ HR. revert x Hat Hsame E.
  induction events as [|i events IH]; intros x Hat Hsame E; cbn [soak]; [by apply wp_ret, HQ|].
  destruct i as [l|[|] f|err]; try by apply wp_ret, HQ.
  apply wp_bind, wp_modify, wp_bind. pose proof Hat as [H1 H2 [H3 H4]]. rewrite E in H3. apply Forall_cons in H3 as [Hf H3]. cbn in Hf.
  assert (sat s (with_inputs events x)) as Hx by (split; [exact H1|exact H2|split; [exact H3|exact H4]]).
  unfold wp at 1, observe_io. cbn [io_peer gate with_inputs].
  destruct (observe_cases (io_peer x) Remote f (gate x)) as [[tag Eo]|(g & Eo & Ha)]; rewrite Eo; [by apply HR|].
  assert (size_of (with_inputs events x) + 1 = size_of x)%nat as Hsz by (unfold size_of; cbn; rewrite E; cbn; lia).
  destruct Hsame as [Hid Hle]. apply wp_bind. destruct (is_flow_wait (message f)) eqn:Ew.
  - assert (sat s (with_gate g (with_inputs events x))) as Hx1.
    { split; [exact H1| |split; [exact H3|exact H4]]. apply (queue_drop _ _ _ f (gate x) g (io_peer x)); [done|done|].
      destruct f as [n msg]; by destruct msg. }
    apply wp_ret. assert (same x0 (with_gate g (with_inputs events x))) as Hs by (split; [done|]; unfold size_of in *; cbn in *; lia).
    destruct (is_pause (message f)); [by apply wp_ret, HQ|by apply IH].
  - apply wp_bind, wp_get, wp_bind, wp_liftr. cbn [pending with_gate with_inputs].
    assert (queue_ok (io_id x) (Manifest.root_hash m) Local g (pending x ++ [f])) as Hq by by eapply queue_hear.
    assert (sat s (with_pending (pending x ++ [f]) (with_gate g (with_inputs events x)))) as Hx1.
    { split; [exact H1|exact Hq|split; [exact H3|]]. cbn. apply Forall_app. split; [done|by constructor]. }
    destruct (_ <=? _)%nat; cbn [fail_if].
    + apply HR. exact H1.
    + unfold put, wp at 1. assert (same x0 (with_pending (pending x ++ [f]) (with_gate g (with_inputs events x)))) as Hs.
      { split; [done|]. unfold size_of in *. cbn in *. rewrite length_app. cbn. lia. }
      destruct (is_pause (message f)); [by apply wp_ret, HQ|by apply IH].
Qed.

Lemma wp_send_chunk (Q : unit -> TaskIo -> Prop) (R : error -> TaskIo -> Prop) s s' id i data x : sat s x ->
  s_check m s (Said (Chunk id i data)) = Some s' ->
  (forall x', sat s' x' -> same x x' -> Q tt x') -> (forall err x', sseen s x' -> R err x') -> wp (send_chunk (Chunk id i data)) Q R x.
Proof.
  intros Hat He HQ HR. unfold send_chunk. apply wp_bind, wp_get, wp_bind, wp_liftr.
  unfold next_request_id. destruct (match _ with Some b => _ | None => _ end) as [n|]; cbn [ok_or]; [|by apply HR, Hat].
  apply wp_bind. eapply wp_observe_say; [done|done| |by intros; apply HR, Hat]. intros x1 H1 Hs1 _.
  assert (forall x2, sat s x2 -> same x x2 -> wp (perform (Said (Chunk id i data))) Q R x2) as Hend.
  { intros x2 H2 Hs2. eapply wp_perform; [done|done|..].
    - intros x3 H3 Hs3. apply HQ; [done|]. by eapply io_same_trans.
    - intros err x3 H3 _. by apply HR, H3. }
  apply wp_bind. case_bool_decide.
  - apply wp_ret, wp_bind, wp_get, wp_bind, wp_ret. by apply Hend.
  - apply wp_liftr. destruct (fail_if _ _) as [u|e|] eqn:Ef; [|by apply HR, H1|by destruct (_ && _)].
    apply wp_bind, wp_get, wp_bind. eapply (wp_soak _ _ s _ x); [done|done|done| |by intros; apply HR].
    intros x2 H2 Hs2. by apply Hend.
Qed.

Lemma wp_source_chunk (Q : list Z -> TaskIo -> Prop) (R : error -> TaskIo -> Prop) s i x : sat s x -> 0 <= i ->
  (forall data x', verified m i data = true -> is_Some (Manifest.chunk_range m i) -> sat s x' -> same x x' -> Q data x') ->
  (forall err x', sseen s x' -> R err x') -> wp (source_chunk m i) Q R x.
Proof.
  intros Hat Hi HQ HR. unfold source_chunk. apply wp_bind, wp_get, wp_bind. unfold put, wp at 1. cbn beta iota.
  assert (sat s (with_looks (tail (looks x)) x)) as H1 by (destruct Hat; by split). apply wp_liftr.
  destruct (hd None (looks x)) as [content|]; cbn [ok_or obind]; [|by apply HR, H1].
  destruct (negb (_ =? _)); cbn [fail_if obind]; [by apply HR, H1|].
  destruct (Manifest.chunk_range m i) as [range|] eqn:Er; cbn [ok_or obind]; [|by apply HR, H1].
  pose proof (TransferProof.read_chunk_no_panic content range.1 range.2) as Hn.
  destruct (Chunker.read_chunk content range.1 range.2) as [bytes|e|]; cbn [obind]; [|by apply HR, H1|done].
  destruct (Manifest.verify_chunk_spec m i bytes Hvalid Hlen Hi) as (good & Eg & _). rewrite Eg. cbn [obind].
  destruct good eqn:Egood; cbn [negb fail_if obind]; [|by apply HR, H1]. apply HQ; [|by eexists|done|done]. unfold verified. by rewrite Eg.
Qed.

Lemma live_check s e : s_alive s = true -> (forall f, e <> Heard f) -> q_dead s || q_over s = false.
Proof. intros (-> & -> & _)%alive_inv _. done. Qed.

(** A frame is handled, and the loop's variables follow, or the loop is over. *)
Lemma wp_handle v s f x : follows v s -> typed_frame f -> own (io_id x) (Manifest.root_hash m) Local f ->
  sat (s_hear m s f) x ->
  wp (sender_handle m f v)
    (fun next x' => io_id x' = io_id x /\ (size_of x' <= size_of x)%nat /\
       match next with
       | Some v' => exists s', follows v' s' /\ sat s' x'
       | None => exists s', sseen s' x' /\ q_over s' = true /\ q_stored s' = true
       end)
    (fun _ x' => exists s', sseen s' x') x.
Proof.
  intros Hf Hty (Hoff & Hid & Hown) Hat. pose proof Hf as [F1 F2 F3 F4 F5 F6 F7]. pose proof (alive_inv s F6) as (A1 & A2 & A3 & A4).
  unfold sender_handle. apply wp_bind, wp_get.
  assert (forall s' x', sseen s' x' -> exists s', sseen s' x') as Hdone by eauto.
  unfold s_hear in Hat. unfold typed_frame in Hty.
  destruct (message f) as [|t r have|t|t n|t|t r ver|t code|c|t i|t i data|t i|t|t|t|t|t|] eqn:Em; try (apply wp_throw; eapply Hdone, Hat).
  - (* Resume *)
    apply wp_bind, wp_liftr. destruct (ChunkBitmap.from_bytes (Manifest.chunk_count m) have) as [bm|e|] eqn:Eb; cbn [obind] in Hat.
    + apply wp_bind, wp_liftr. apply ChunkBitmap.from_bytes_spec in Eb as [-> Hwf]; [|apply StorageProof.chunk_count_u32|done].
      rewrite (ChunkBitmap.present_spec _ Hwf) in *. set (l := List.filter _ _) in *.
      set (acked := acknowledged v ∪ list_to_set l) in *.
      set (s1 := mk_sspec true (q_have s ∪ list_to_set l) (q_flight s) None (q_ask s) None (q_stored s) (q_paused s) false false) in *.
      assert (s_alive s1 = true) as Ha1 by done.
      assert (forall y, sat s1 y -> same x y -> wp (ret (Some (mk_sending true false acked (in_flight v) (bytes_for m acked) (s_pausing v))))
        (fun next x' => io_id x' = io_id x /\ (size_of x' <= size_of x)%nat /\
         match next with
         | Some v' => exists s', follows v' s' /\ sat s' x'
         | None => exists s', sseen s' x' /\ q_over s' = true /\ q_stored s' = true
         end)
        (fun (_ : error) x' => exists s', sseen s' x') y) as Hend.
      { intros y Hy [Hs1 Hs2]. apply wp_ret. split; [done|]. split; [done|]. exists s1. split; [|done].
        split; cbn; try done. by rewrite F2. }
      assert (bytes_for m acked = bytes_for m (q_have s1)) as Ebytes by (cbn; by rewrite F2).
      apply wp_bind. eapply wp_note; [exact Hat|cbn; by rewrite Ebytes, Z.eqb_refl|]. intros x1 H1 Hs1.
      apply wp_bind. eapply wp_perform; [exact H1|cbn; by rewrite Ebytes, Z.eqb_refl| |intros err x2 H2 _; eapply Hdone, H2].
      intros x2 H2 Hs2. apply wp_bind. destruct (pending_pause v).
      * eapply wp_say; [exact H2|done|done| |intros err x3 H3 _; eapply Hdone, H3]. intros x3 H3 Hs3. apply Hend; [done|].
        eapply io_same_trans; [done|]. by eapply io_same_trans.
      * apply wp_ret, Hend; [done|]. by eapply io_same_trans.
    + eapply Hdone, Hat.
    + by apply StorageProof.from_bytes_no_panic in Eb.
  - (* Pause *)
    set (s1 := mk_sspec _ _ _ _ _ _ _ _ _ _) in Hat. assert (s_alive s1 = true) as Ha1 by done.
    assert (forall y, sat s1 y -> same x y -> wp (let! _ := send (Paused (io_id x) (request_id f)) in
        ret (Some (mk_sending (resumed v) (pending_pause v) (acknowledged v) (in_flight v) (s_bytes v) true)))
      (fun next x' => io_id x' = io_id x /\ (size_of x' <= size_of x)%nat /\
       match next with
       | Some v' => exists s', follows v' s' /\ sat s' x'
       | None => exists s', sseen s' x' /\ q_over s' = true /\ q_stored s' = true
       end)
      (fun (_ : error) x' => exists s', sseen s' x') y) as Hend.
    { intros y Hy Hs. apply wp_bind. eapply wp_say; [exact Hy|done|cbn; by rewrite bool_decide_true| |intros err x2 H2 _; eapply Hdone, H2].
      intros x2 H2 Hs2. apply wp_ret. destruct (io_same_trans _ _ _ Hs Hs2) as [? ?]. split; [done|]. split; [done|].
      eexists. split; [|exact H2]. by split. }
    apply wp_bind. destruct (s_pausing v); [by apply wp_ret, Hend|].
    apply wp_bind. eapply wp_set_state; [exact Hat|done|done| |intros err x1 H1; eapply Hdone, H1].
    intros x1 H1 Hs1. eapply wp_say; [exact H1|done|done| |intros err x2 H2 _; eapply Hdone, H2].
    intros x2 H2 Hs2. apply Hend; [done|]. by eapply io_same_trans.
  - (* Paused *)
    apply wp_ret. split; [done|]. split; [done|]. by exists s.
  - (* Completed *)
    destruct Hown as [-> _]. rewrite bool_decide_true in Hat by done. set (s1 := mk_sspec _ _ _ _ _ _ _ _ _ _) in Hat.
    set (s2 := mk_sspec (q_resumed s) (q_have s) (q_flight s) None (q_ask s) (Some ver) true (q_paused s) false false).
    assert (forall y, sat s2 y -> same x y -> wp (let! _ := progress (Manifest.total_len m) in let! _ := finish in ret None)
      (fun (next : option sending) x' => io_id x' = io_id x /\ (size_of x' <= size_of x)%nat /\
       match next with
       | Some v' => exists s', follows v' s' /\ sat s' x'
       | None => exists s', sseen s' x' /\ q_over s' = true /\ q_stored s' = true
       end)
      (fun (_ : error) x' => exists s', sseen s' x') y) as Hend.
    { intros y Hy Hs. apply wp_bind. eapply wp_perform; [exact Hy|cbn; rewrite Z.eqb_refl, orb_true_r; done| |intros err x2 H2 _; eapply Hdone, H2].
      intros x2 H2 Hs2. apply wp_bind. eapply wp_note; [exact H2|done|]. intros x3 H3 Hs3. apply wp_ret.
      destruct (io_same_trans _ _ _ Hs (io_same_trans _ _ _ Hs2 Hs3)) as [? ?]. split; [done|]. split; [done|]. eexists. split; [apply H3|done]. }
    apply wp_bind. destruct (Z.eqb_spec ver 2) as [->|Hv].
    + apply wp_bind. eapply wp_note; [exact Hat|done|]. intros x1 H1 Hs1. apply wp_bind.
      eapply wp_set_state; [exact H1|done|done| |intros err x2 H2; eapply Hdone, H2]. intros x2 H2 Hs2.
      eapply (wp_perform _ _ _ _ _ _ _ _ s2); [exact H2|done| |intros err x3 H3 _; eapply Hdone, H3].
      intros x3 H3 Hs3. apply Hend; [done|]. eapply io_same_trans; [done|]. by eapply io_same_trans.
    + unfold receipt. apply wp_bind. eapply wp_note; [exact Hat|done|]. intros x1 H1 Hs1. apply wp_bind.
      eapply wp_set_state; [exact H1|done|done| |intros err x2 H2; eapply Hdone, H2]. intros x2 H2 Hs2.
      eapply (wp_perform _ _ _ _ _ _ _ _ s2); [exact H2|cbn; by rewrite (proj2 (Z.eqb_neq _ _) Hv)| |intros err x3 H3 _; eapply Hdone, H3].
      intros x3 H3 Hs3. apply Hend; [done|]. eapply io_same_trans; [done|]. by eapply io_same_trans.
  - (* RequestChunk *)
    rewrite <- F1, <- F2, <- F3. change WINDOW with 4%nat.
    destruct (q_resumed s); cbn [negb orb andb] in *; [|apply wp_throw; eapply Hdone, Hat].
    destruct (Nat.leb_spec 4 (size (q_flight s))) as [Hw|Hw]; cbn [orb].
    { apply wp_throw. rewrite (proj2 (Nat.ltb_ge _ _) Hw) in Hat. eapply Hdone, Hat. }
    rewrite (proj2 (Nat.ltb_lt _ _) Hw) in Hat. cbn [andb] in Hat.
    case_bool_decide as Hh; cbn [orb negb andb] in *; [apply wp_throw; eapply Hdone, Hat|].
    case_bool_decide as Hfl; cbn [orb negb andb] in *; [apply wp_throw; eapply Hdone, Hat|].
    set (s1 := mk_sspec _ _ _ _ _ _ _ _ _ _) in Hat.
    apply wp_bind. eapply wp_source_chunk; [exact Hat|apply Hty| |intros err x1 H1; by eapply Hdone].
    intros data x1 Hver Hrange H1 Hs1. apply wp_bind. unfold check_flow_support. apply wp_bind, wp_get, wp_liftr.
    destruct (fail_if _ _) as [u|e|] eqn:Ef; [|eapply Hdone, H1|by destruct (_ && _)].
    apply wp_bind. eapply (wp_send_chunk _ _ s1); [exact H1|cbn; rewrite bool_decide_true, Hver by done; done| |intros err x2 H2; by eapply Hdone].
    intros x2 H2 Hs2. apply wp_ret. destruct (io_same_trans _ _ _ Hs1 Hs2) as [? ?]. split; [done|]. split; [done|].
    eexists. split; [|exact H2]. split; cbn; try done; [by rewrite F2|].
    intros j [->%elem_of_singleton|Hj]%elem_of_union; [done|]. apply F5. by rewrite <- F3.
  - (* ChunkAck *)
    rewrite <- F2, <- F3. case_bool_decide as Hfl; cbn [orb negb andb] in *; [|apply wp_throw; eapply Hdone, Hat].
    case_bool_decide as Hh; cbn [orb negb andb] in *; [apply wp_throw; eapply Hdone, Hat|].
    destruct (F5 i) as [range Er]; [by rewrite <- F3|]. rewrite Er. apply wp_bind, wp_liftr. cbn [unwrap].
    assert (s_bytes v + range.2 = bytes_for m ({[i]} ∪ q_have s)) as Eb.
    { rewrite bytes_for_insert by done. rewrite F4, F2. unfold chunk_bytes. rewrite Er. by destruct range. }
    rewrite Eb. apply wp_bind. eapply wp_sample; [exact Hat|cbn; by rewrite Z.eqb_refl| |intros err x1 H1; eapply Hdone, H1].
    intros x1 H1 [? ?]. apply wp_ret. split; [done|]. split; [done|]. eexists. split; [|exact H1]. split; cbn; try done.
    intros j [Hj _]%elem_of_difference. apply F5. by rewrite <- F3.
  - (* FlowWait *)
    apply wp_ret. split; [done|]. split; [done|]. by exists s.
Qed.

Lemma wp_sender_loop fuel v s x : follows v s -> sat s x -> (size_of x < fuel)%nat ->
  wp (sender_loop fuel m v) (fun _ x' => exists s', sseen s' x' /\ q_over s' = true /\ (q_stored s' = true \/ q_paused s' = true))
    (fun _ x' => exists s', sseen s' x') x.
Proof.
  revert v s x. induction fuel as [|fuel IH]; intros v s x Hf Hat Hlt; [lia|]. cbn [sender_loop].
  pose proof Hf as [F1 F2 F3 F4 F5 F6 F7]. pose proof (alive_inv s F6) as (A1 & A2 & A3 & A4).
  apply wp_bind, wp_get. case_bool_decide as Hp.
  - apply wp_bind. eapply wp_set_state; [exact Hat|cbn; by rewrite A1, A2|cbn; by rewrite A1, A2| |intros err x1 H1; eexists; apply H1].
    intros x1 H1 Hs1. eapply wp_note; [exact H1|cbn; by rewrite orb_true_r|]. intros x2 H2 Hs2. eexists. split; [apply H2|]. split; [done|by right].
  - apply wp_bind. eapply wp_next_input; [apply s_heard|exact Hat|done|..].
    + intros x1 H1 Hid1 Hsz. apply wp_bind.
      assert (forall y, sat s y -> io_id y = io_id x -> (size_of y < size_of x)%nat -> wp
        (let! _ := if resumed v then send (Pause (io_id x)) else ret tt in
         sender_loop fuel m (mk_sending (resumed v) (pending_pause v || negb (resumed v)) (acknowledged v) (in_flight v) (s_bytes v) true))
        (fun _ x' => exists s', sseen s' x' /\ q_over s' = true /\ (q_stored s' = true \/ q_paused s' = true))
        (fun _ x' => exists s', sseen s' x') y) as Hrest.
      { intros y Hy Hidy Hszy. apply wp_bind. assert (forall z, sat s z -> (size_of z < fuel)%nat ->
          wp (sender_loop fuel m (mk_sending (resumed v) (pending_pause v || negb (resumed v)) (acknowledged v) (in_flight v) (s_bytes v) true))
          (fun _ x' => exists s', sseen s' x' /\ q_over s' = true /\ (q_stored s' = true \/ q_paused s' = true))
          (fun _ x' => exists s', sseen s' x') z) as Hgo by (intros z Hz Hlz; by apply (IH _ s)).
        destruct (resumed v).
        - eapply wp_say; [exact Hy|done|cbn; by rewrite A1, A2| |intros err z Hz _; eexists; apply Hz].
          intros z Hz [_ Hsz']. apply Hgo; [done|lia].
        - apply wp_ret, Hgo; [done|lia]. }
      destruct (s_pausing v); [by apply wp_ret, Hrest|].
      eapply wp_set_state; [exact H1|cbn; by rewrite A1, A2|cbn; by rewrite A1, A2| |intros err x2 H2; eexists; apply H2].
      intros x2 H2 [? ?]. apply Hrest; [done|congruence|lia].
    + intros f x1 (Hty & Hseen & Hcase) Hid1 Hsz. apply wp_bind. destruct Hcase as [Ho|[Hown Hat1]].
      * assert (forall (e : error), wp (throw e) (fun (next : option sending) x' => wp (match next with Some v => sender_loop fuel m v | None => ret tt end)
          (fun _ x' => exists s', sseen s' x' /\ q_over s' = true /\ (q_stored s' = true \/ q_paused s' = true))
          (fun _ x' => exists s', sseen s' x') x') (fun _ x' => exists s', sseen s' x') x1) as Hthrow by (intros e; apply wp_throw; by eexists).
        unfold sender_handle. apply wp_bind, wp_get. unfold is_offer in Ho. destruct f as [n msg]. by destruct msg; try apply Hthrow.
      * eapply wp_conseq; [by apply (wp_handle v s)|..].
        -- intros [v'|] x2 (Hid2 & Hsz2 & s' & Hs'); cbn.
           ++ destruct Hs' as [Hf' Hat']. apply (IH v' s'); [done|done|lia].
           ++ destruct Hs' as (Hs' & Ho' & Hst). apply wp_ret. exists s'. split; [done|]. split; [done|by left].
        -- done.
    + intros err x1 H1. eexists. apply H1.
Qed.
End Sender.

(** C7: A sender never misbehaves, whatever the peer sends, whichever call fails and
    whenever the user pauses. Of a task whose offer it made, the loop ends without a
    panic, and what it did is a run of the automaton: it sends a chunk only as the
    answer to a request it has not answered, of a chunk the peer neither confirmed nor
    has on its way, at most four at a time, and only bytes that match the manifest; it
    shows as progress exactly the bytes of the chunks the peer has; it confirms a pause
    only when asked to; it stores a receipt only for the receiver's confirmation of
    this content; and it returns only with the receipt stored or the task paused. *)
Theorem sender_keeps_to_protocol `{Blake3} (m : FileManifest) (x : TaskIo) : Manifest.valid m -> is_u64 (Manifest.total_len m) ->
  only (io_id x) (Manifest.root_hash m) Local (gate x) -> pending x = [] -> Forall typed_input (inputs x) ->
  let '(r, x') := sender_loop (S (length (inputs x))) m fresh_sending x in
  r <> Panic /\ exists new s, trace x' = trace x ++ new /\ follow (s_check m) sspec0 new = Some s /\
    (r = Ok tt -> q_over s = true /\ (q_stored s = true \/ q_paused s = true)).
Proof.
  intros Hv Hl Ho Hp Ht. assert (at_ (s_check m) sspec0 (trace x) (Manifest.root_hash m) Local sspec0 x) as Hat.
  { split; [exists []; by rewrite app_nil_r|rewrite Hp; by left|by rewrite Hp]. }
  assert (follows m fresh_sending sspec0) as Hf by (split; try done; intros i Hi; by apply not_elem_of_empty in Hi).
  pose proof (wp_sender_loop m (trace x) Hv Hl (S (length (inputs x))) fresh_sending sspec0 x Hf Hat) as Hw.
  unfold size_of, wp in Hw. rewrite Hp in Hw. cbn [length] in Hw. specialize (Hw ltac:(lia)).
  destruct (sender_loop _ _ _ x) as [[[]|e|] x']; [| |done].
  - destruct Hw as (s & (new & E & Hs) & Ho1 & Ho2). split; [done|]. by exists new, s.
  - destruct Hw as (s & new & E & Hs). split; [done|]. by exists new, s.
Qed.

(** ** A transfer of three bytes *)

Definition demo_task : TaskId := [49].
Definition demo_gate : TaskProtocol :=
  mk_protocol [7] {[demo_task := mk_binding false Local (Manifest.root_hash StorageProof.Demo.m) 1 Offered (1, 0) (None, None)]}.
Definition demo_inputs : list input :=
  [Arrived false (mk_frame 1 (Resume demo_task (Manifest.root_hash StorageProof.Demo.m) [0]));
   Arrived false (mk_frame 2 (RequestChunk demo_task 0)); Arrived true (mk_frame 3 (FlowWait demo_task));
   Arrived true (mk_frame 4 (ChunkAck demo_task 0));
   Arrived false (mk_frame 5 (Completed demo_task (Manifest.root_hash StorageProof.Demo.m) 1))].
Definition demo_io : TaskIo :=
  mk_io [7] demo_task demo_gate [] demo_inputs [] [true] [] [Some [1; 2; 3]] (mk_flow true true) [].

Lemma sender_keeps_to_protocol_witness :
  let '(r, x') := @sender_loop StorageProof.Demo.hash 6 StorageProof.Demo.m fresh_sending demo_io in
  r = Ok tt /\ Said (Chunk demo_task 0 [1; 2; 3]) ∈ trace x' /\
  exists s, follow (@s_check StorageProof.Demo.hash StorageProof.Demo.m) sspec0 (trace x') = Some s /\ q_over s = true.
Proof.
  assert (@Manifest.valid StorageProof.Demo.hash StorageProof.Demo.m) as Hv by exact (proj1 (@Manifest.validate_Ok StorageProof.Demo.hash StorageProof.Demo.m) StorageProof.Demo.m_valid).
  assert (only demo_task (Manifest.root_hash StorageProof.Demo.m) Local demo_gate) as Ho by (eexists; split; [reflexivity|done]).
  assert (Forall typed_input demo_inputs) as Ht by (repeat constructor; cbn; unfold U8_MAX, U32_MAX; lia).
  pose proof (@sender_keeps_to_protocol StorageProof.Demo.hash StorageProof.Demo.m demo_io Hv ltac:(cbn; unfold in_range, U64_MAX; lia) Ho eq_refl Ht) as Hs.
  change (S (length (inputs demo_io))) with 6%nat in Hs.
  assert (exists x', @sender_loop StorageProof.Demo.hash 6 StorageProof.Demo.m fresh_sending demo_io = (Ok tt, x') /\
    bool_decide (Said (Chunk demo_task 0 [1; 2; 3]) ∈ trace x') = true) as (x' & E & Hin).
  { eexists. split; vm_compute; reflexivity. }
  rewrite E in Hs |- *. destruct Hs as (_ & new & s & En & Hf & Hov). split; [done|]. split; [by apply bool_decide_eq_true in Hin|].
  exists s. cbn in En. subst new. split; [exact Hf|by apply Hov].
Defined.
End TaskSender.
