(* ===== verification/TaskReceiver.v ===== *)
(** * The receiver's loop: what it promises (src/node/core/transfer.rs)

    An automaton of what a receiver may do, with the chunks it has, those it asked for
    and whether the file is safe, and the theorem that the loop keeps to it over any
    download that obeys the laws of the interface.  The downloads of Storage.v do. *)
From Stdlib Require Import ZArith Lia.
From stdpp Require Import prelude gmap strings.
From S2P Require Import Prelude Bitmap Manifest Message State TaskProtocol TaskProtocolProof TaskModel FileSystem Storage StorageProof TransferProof TaskTransfer TaskMachine TaskSender.

#[local] Open Scope Z_scope.

Module TaskReceiver.
Import Manifest (FileManifest).
Import TaskProtocol TaskProtocolProof TaskTransfer TaskMachine TaskSender.
Import ChunkBitmap (view, wf).

(** What the loop relies on: a written chunk was verified and is marked, and a
    checkpoint makes what is marked durable. *)
Class DownloadLaws (D : Type) `{Blake3} `{Download D} (m : FileManifest) : Type := {
  dl_good : D -> Prop;
  dl_durable : D -> ChunkBitmap.t;
  law_bitmap : forall d, dl_good d -> wf (dl_bitmap d) /\ ChunkBitmap.chunk_count (dl_bitmap d) = Manifest.chunk_count m;
  law_write : forall d i data, dl_good d -> 0 <= i ->
    wp (dl_write i data)
      (fun _ d' => dl_good d' /\ verified m i data = true /\
         forall j, 0 <= j -> view (dl_bitmap d') j = (j =? i) || view (dl_bitmap d) j)
      (fun _ d' => dl_good d') d;
  law_checkpoint : forall d, dl_good d ->
    wp dl_checkpoint
      (fun _ d' => dl_good d' /\ dl_bitmap d' = dl_bitmap d /\ dl_durable d' = dl_bitmap d)
      (fun _ d' => dl_good d') d;
}.

(** ** The downloads of Storage.v *)

Section OfStorage.
Context `{Blake3} {hexc : Hex}.

#[export] Instance storage_download : Download (Storage.PartialDownload * world) := {
  dl_bitmap := fun d => Storage.written_bitmap d.1;
  dl_write := Storage.write_chunk;
  dl_checkpoint := Storage.checkpoint;
}.

#[export] Instance storage_laws (m : FileManifest) (f : Z) (Hspf : StorageProof.second_preimage_free m) :
  DownloadLaws (Storage.PartialDownload * world) m.
Proof.
  refine {| dl_good := TransferProof.receiving m f; dl_durable := fun d => Storage.durable_bitmap d.1 |}.
  - intros d [Hinv _ <-]. destruct Hinv. done.
  - intros d i data Hd Hi. pose proof Hd as [Hinv Hf Hm]. subst m.
    eapply wp_conseq; [exact (StorageProof.wp_write_chunk f d i data Hinv Hf Hspf Hi)|..].
    + intros _ d' (Hv & Hp & Hview & _). split; [by eapply TransferProof.receiving_progress|]. split; [|exact Hview].
      unfold verified. by rewrite Hv.
    + intros e d' [Hp _]. by eapply TransferProof.receiving_progress.
  - intros d Hd. pose proof Hd as [Hinv Hf Hm].
    eapply wp_conseq; [exact (StorageProof.wp_checkpoint_progress f d Hinv Hf)|..].
    + intros _ d' (Hp & Hw & Hdur & _). split; [by eapply TransferProof.receiving_progress|]. by split.
    + intros e d' (Hp & _). by eapply TransferProof.receiving_progress.
Defined.
End OfStorage.

(** ** All bytes are all chunks *)

Section Bytes.
Context `{Blake3} (m : FileManifest) (Hv : Manifest.valid m) (Hl : is_u64 (Manifest.total_len m)).

Lemma chunk_bytes_length i : chunk_bytes m i = StorageProof.chunk_length m i.
Proof. unfold chunk_bytes, StorageProof.chunk_length. by destruct (Manifest.chunk_range m i) as [[]|]. Qed.

Lemma chunk_bytes_pos i : 0 <= i < Manifest.chunk_count m -> 0 < chunk_bytes m i.
Proof.
  intros Hi. rewrite Manifest.valid_chunk_count in Hi by done. rewrite chunk_bytes_length.
  destruct (StorageProof.chunk_length_range m i Hv Hl Hi) as [-> _]. pose proof (Manifest.valid_size_pos m Hv). pose proof (Manifest.valid_count m Hv) as Hc.
  destruct (Manifest.count_of_spec (Manifest.total_len m) (Manifest.chunk_size m)) as [Hb|[? ?]]; [apply Hl|done|nia|lia].
Qed.

Lemma bytes_for_union s t : s ## t -> bytes_for m (s ∪ t) = bytes_for m s + bytes_for m t.
Proof.
  intros Hd. revert t Hd. induction s as [|i s Hi IH] using set_ind_L; intros t Hd.
  { by rewrite union_empty_l_L. }
  rewrite <- (assoc_L (∪)), bytes_for_insert by set_solver. rewrite IH by set_solver. rewrite bytes_for_insert by done. lia.
Qed.

Definition all_chunks : gset Z := list_to_set (seqZ 0 (Manifest.chunk_count m)).

Lemma bytes_for_all : bytes_for m all_chunks = Manifest.total_len m.
Proof.
  assert (forall l, NoDup l -> bytes_for m (list_to_set l) = StorageProof.sum_lengths m l) as Hs.
  { induction l as [|i l IH]; intros Hn; [done|]. apply NoDup_cons in Hn as [Hi Hn]. cbn [list_to_set].
    rewrite bytes_for_insert by (by rewrite elem_of_list_to_set). rewrite IH, chunk_bytes_length by done.
    change (StorageProof.sum_lengths m (i :: l)) with (StorageProof.chunk_length m i + StorageProof.sum_lengths m l). lia. }
  unfold all_chunks. rewrite Hs by apply NoDup_seqZ. rewrite Manifest.valid_chunk_count by done.
  rewrite StorageProof.sum_lengths_all by (done || lia). pose proof (Manifest.valid_size_pos m Hv). pose proof (Manifest.valid_count m Hv) as Hc.
  destruct (Manifest.count_of_spec (Manifest.total_len m) (Manifest.chunk_size m)) as [Hb|[Ht Hz]]; [apply Hl|done|nia|].
  rewrite Hc, Hz, Ht. done.
Qed.

Lemma bytes_nonneg (t : gset Z) : (forall i, i ∈ t -> 0 < chunk_bytes m i) -> 0 <= bytes_for m t.
Proof.
  induction t as [|j t Hj IH] using set_ind_L; intros Ht; [done|]. rewrite bytes_for_insert by done.
  pose proof (Ht j ltac:(set_solver)). assert (0 <= bytes_for m t) by (apply IH; intros i Hi; apply Ht; set_solver). lia.
Qed.

Lemma bytes_exact (a s : gset Z) : (forall i, i ∈ a -> 0 < chunk_bytes m i) -> s ⊆ a -> bytes_for m s = bytes_for m a -> s = a.
Proof.
  intros Ha Hsub E. assert (a = s ∪ a ∖ s) as Ea by (by apply union_difference_L). rewrite Ea, bytes_for_union in E by set_solver.
  destruct (decide (a ∖ s = ∅)) as [Ed|Hne]; [rewrite Ea, Ed; set_solver|]. exfalso.
  apply set_choose_L in Hne as [i Hi]. assert (a ∖ s = {[i]} ∪ (a ∖ s) ∖ {[i]}) as Ei by (apply union_difference_L; set_solver).
  rewrite Ei, bytes_for_insert in E by set_solver. pose proof (Ha i ltac:(set_solver)).
  pose proof (bytes_nonneg ((a ∖ s) ∖ {[i]}) ltac:(intros; apply Ha; set_solver)). lia.
Qed.

Lemma in_all_chunks i : i ∈ all_chunks <-> 0 <= i < Manifest.chunk_count m.
Proof. unfold all_chunks. rewrite elem_of_list_to_set, elem_of_seqZ. lia. Qed.

Lemma all_bytes (s : gset Z) : (forall i, i ∈ s -> 0 <= i < Manifest.chunk_count m) -> bytes_for m s = Manifest.total_len m ->
  s = all_chunks.
Proof.
  intros Hs E. apply bytes_exact; [by intros i Hi%in_all_chunks; apply chunk_bytes_pos|by intros i Hi%Hs%in_all_chunks|by rewrite bytes_for_all].
Qed.
End Bytes.

(** ** The automaton *)

(** [p_have] are the chunks of the file, [p_out] those asked for, [p_heard] a chunk to
    write, [p_unacked] one to confirm, [p_ask] a pause to confirm; the file is safe
    since the last checkpoint until the next write. *)
Record rspec : Type := mk_rspec {
  p_have : gset Z;
  p_out : gset Z;
  p_heard : option (Z * list Z);
  p_unacked : option Z;
  p_ask : option Z;
  p_safe : bool;
  p_published : bool;
  p_dead : bool;
  p_over : bool;
}.

Definition rspec0 (have : gset Z) : rspec := mk_rspec have ∅ None None None false false false false.

Section Automaton.
Context `{Blake3} (m : FileManifest).

Definition r_hear (s : rspec) (f : Frame) : rspec :=
  match message f with
  | Chunk _ i data =>
      if bool_decide (i ∈ p_out s)
      then mk_rspec (p_have s) (p_out s) (Some (i, data)) None (p_ask s) (p_safe s) false false false
      else mk_rspec (p_have s) (p_out s) None None (p_ask s) (p_safe s) false true false
  | Pause _ => mk_rspec (p_have s) (p_out s) None None (Some (request_id f)) (p_safe s) false false false
  | Paused _ _ => s
  | _ => mk_rspec (p_have s) (p_out s) None None (p_ask s) (p_safe s) false true false
  end.

Definition r_alive (s : rspec) : bool :=
  negb (p_dead s) && negb (p_over s) && negb (p_published s) && bool_decide (p_heard s = None) && bool_decide (p_unacked s = None).

Definition r_idle (s : rspec) : bool := p_safe s && bool_decide (p_out s = ∅).

Definition r_check (s : rspec) (e : effect) : option rspec :=
  match e with
  | Heard f => if r_alive s then Some (r_hear s f) else None
  | _ =>
      if p_dead s || p_over s then None
      else match e with
      | Said (Resume _ root _) => if bool_decide (root = Manifest.root_hash m) then Some s else None
      | Said (RequestChunk _ i) =>
          if r_alive s && (0 <=? i) && (i <? Manifest.chunk_count m) && negb (bool_decide (i ∈ p_have s)) &&
             negb (bool_decide (i ∈ p_out s)) && (size (p_out s) <? 4)%nat
          then Some (mk_rspec (p_have s) ({[i]} ∪ p_out s) None None (p_ask s) (p_safe s) false false false)
          else None
      | Wrote i data =>
          if bool_decide (p_heard s = Some (i, data)) && verified m i data
          then Some (mk_rspec ({[i]} ∪ p_have s) (p_out s ∖ {[i]}) None (Some i) (p_ask s) false false false false)
          else None
      | Said (ChunkAck _ i) =>
          if bool_decide (p_unacked s = Some i)
          then Some (mk_rspec (p_have s) (p_out s) None None (p_ask s) (p_safe s) false false false)
          else None
      | Said (Pause _) | Said (FlowWait _) => Some s
      | Said (Paused _ n) =>
          if bool_decide (p_ask s = Some n) && r_idle s
          then Some (mk_rspec (p_have s) (p_out s) (p_heard s) (p_unacked s) None (p_safe s) false false false)
          else None
      | Checkpointed =>
          if bool_decide (p_out s = ∅)
          then Some (mk_rspec (p_have s) (p_out s) (p_heard s) (p_unacked s) (p_ask s) true (p_published s) false false)
          else None
      | Published =>
          if r_alive s && bool_decide (p_have s = all_chunks m)
          then Some (mk_rspec (p_have s) (p_out s) None None (p_ask s) (p_safe s) true false false)
          else None
      | Said (Completed _ root v) =>
          if p_published s && bool_decide (root = Manifest.root_hash m) && (v =? 1) then Some s else None
      | TaskSet TaskModel.Pausing => Some s
      | TaskSet TaskModel.Paused => if r_idle s then Some s else None
      | TaskSet TaskModel.Finalizing => if bool_decide (p_have s = all_chunks m) then Some s else None
      | Progressed b => if b =? bytes_for m (p_have s) then Some s else None
      | RateReset b => if b =? bytes_for m (p_have s) then Some s else None
      | RecoveryCancelled => Some s
      | Closed =>
          if p_published s || r_idle s
          then Some (mk_rspec (p_have s) (p_out s) (p_heard s) (p_unacked s) (p_ask s) (p_safe s) (p_published s) false true)
          else None
      | _ => None
      end
  end.
End Automaton.

(** ** The loop keeps to it *)

Section Receiver.
Context `{Blake3} {D : Type} `{Download D} (m : FileManifest) `{!DownloadLaws D m}.
Context (base : list effect) (have0 : gset Z).
Context (Hvalid : Manifest.valid m) (Hlen : is_u64 (Manifest.total_len m)).

Abbreviation rat := (at_ (r_check m) (rspec0 have0) base (Manifest.root_hash m) Remote).
Abbreviation rseen := (seen (r_check m) (rspec0 have0) base).

(** The automaton's set is that of the download, safe when durable. *)
Record filed (s : rspec) (d : D) : Prop := mk_filed {
  fi_good : dl_good d;
  fi_have : forall i, i ∈ p_have s <-> 0 <= i /\ view (dl_bitmap d) i = true;
  fi_safe : p_safe s = true -> dl_durable d = dl_bitmap d;
}.

Record tracks (v : receiving) (s : rspec) : Prop := mk_tracks {
  tr_out : p_out s = outstanding v;
  tr_bytes : r_bytes v = bytes_for m (p_have s);
  tr_missing : NoDup (missing v) /\ forall i, i ∈ missing v -> 0 <= i < Manifest.chunk_count m /\ i ∉ p_have s /\ i ∉ p_out s;
  tr_range : forall i, i ∈ p_have s -> 0 <= i < Manifest.chunk_count m;
  tr_disjoint : forall i, i ∈ p_out s -> i ∉ p_have s;
  tr_checkpointed : checkpointed v = true -> r_pausing v = true /\ p_safe s = true /\ p_out s = ∅;
  tr_ask : p_ask s = remote_pause v;
  tr_alive : r_alive s = true;
}.

Lemma r_heard s f : r_alive s = true -> r_check m s (Heard f) = Some (r_hear s f).
Proof. cbn. by intros ->. Qed.

Lemma r_alive_inv s : r_alive s = true ->
  p_dead s = false /\ p_over s = false /\ p_published s = false /\ p_heard s = None /\ p_unacked s = None.
Proof. unfold r_alive. rewrite !andb_true_iff, !negb_true_iff, !bool_decide_eq_true. tauto. Qed.

Lemma wp_on_io {A} (c : st TaskIo error A) (Q : A -> TaskIo * D -> Prop) (R : error -> TaskIo * D -> Prop) s :
  wp c (fun a x => Q a (x, s.2)) (fun e x => R e (x, s.2)) s.1 -> wp (on_io c) Q R s.
Proof. intros Hc. unfold on_io. by apply wp_zoom. Qed.

Lemma wp_on_file {A} (c : st D error A) (Q : A -> TaskIo * D -> Prop) (R : error -> TaskIo * D -> Prop) s :
  wp c (fun a d => Q a (s.1, d)) (fun e d => R e (s.1, d)) s.2 -> wp (on_file c) Q R s.
Proof. intros Hc. unfold on_file. by apply wp_zoom. Qed.

(** What is left when the loop fails. *)
Definition left_ (x : TaskIo * D) : Prop := dl_good x.2 /\ exists s, rseen s x.1.

(** An automaton that waits for the next event. *)
Definition asking (have : gset Z) (ask : option Z) (safe : bool) (out : gset Z) : rspec :=
  mk_rspec have out None None ask safe false false false.

Lemma alive_asking s : r_alive s = true -> s = asking (p_have s) (p_ask s) (p_safe s) (p_out s).
Proof. intros (A1 & A2 & A3 & A4 & A5)%r_alive_inv. destruct s; cbn in *. by subst. Qed.

Lemma check_request have ask safe out id i : 0 <= i < Manifest.chunk_count m -> i ∉ have -> i ∉ out -> (size out < 4)%nat ->
  r_check m (asking have ask safe out) (Said (RequestChunk id i)) = Some (asking have ask safe ({[i]} ∪ out)).
Proof.
  intros [H1%Z.leb_le H2%Z.ltb_lt] H3 H4 H5%Nat.ltb_lt. unfold r_check, asking. cbn -[Nat.ltb size].
  by rewrite H1, H2, !bool_decide_false, H5 by done.
Qed.

Lemma wp_request_chunks (Q : list Z * gset Z -> TaskIo -> Prop) (R : error -> TaskIo -> Prop) id have ask safe queue out x :
  rat (asking have ask safe out) x -> NoDup queue ->
  (forall i, i ∈ queue -> 0 <= i < Manifest.chunk_count m /\ i ∉ have /\ i ∉ out) -> (forall i, i ∈ out -> i ∉ have) ->
  (forall queue' out' x', rat (asking have ask safe out') x' -> same x x' -> NoDup queue' -> (forall i, i ∈ out' -> i ∉ have) ->
     (forall i, i ∈ queue' -> 0 <= i < Manifest.chunk_count m /\ i ∉ have /\ i ∉ out') -> Q (queue', out') x') ->
  (forall err x' s', rseen s' x' -> R err x') -> wp (request_chunks id queue out) Q R x.
Proof.
  revert out x. induction queue as [|i queue IH]; intros out x Hat Hn Hq Hd HQ HR; cbn [request_chunks].
  { destruct (_ <? _)%nat; apply wp_ret; by apply HQ. }
  destruct (Nat.ltb_spec (size out) WINDOW) as [Hw|Hw]; [|apply wp_ret; by apply HQ].
  apply NoDup_cons in Hn as [Hi Hn]. destruct (Hq i ltac:(by left)) as ([H1 H2] & H3 & H4). apply wp_bind.
  eapply (wp_say _ _ _ _ _ _ _ _ (asking have ask safe ({[i]} ∪ out))); [exact Hat|done| | |intros err x1 H1' _; eapply HR, H1'].
  - by apply check_request.
  - intros x1 Hx1 Hs1. apply (IH ({[i]} ∪ out)); [done|done| |set_solver| |done].
    + intros j Hj. destruct (Hq j ltac:(by right)) as (? & ? & ?). split; [done|]. split; [done|]. assert (j <> i) by congruence. set_solver.
    + intros queue' out' x' Hx' Hs' Hn' Hd' Hq'. apply HQ; [done| |done|done|done]. by eapply io_same_trans.
Qed.

Lemma wp_heartbeat (Q : unit -> TaskIo -> Prop) (R : error -> TaskIo -> Prop) s n x : rat s x -> r_check m s (Said (FlowWait (io_id x))) = Some s ->
  (forall x', rat s x' -> same x x' -> Q tt x') -> (forall err x', rseen s x' -> R err x') -> wp (heartbeat n) Q R x.
Proof.
  intros Hat Hc HQ HR. assert (forall x1, rat s x1 -> same x x1 -> wp (heartbeat n) Q R x1) as Hgen; [|by apply Hgen].
  induction n as [|n IH]; intros x1 H1 Hs1; cbn [heartbeat]; [by apply wp_ret, HQ|].
  apply wp_bind, wp_get, wp_bind. eapply wp_say; [exact H1|done|destruct Hs1 as [-> _]; exact Hc| |intros err x2 H2 _; apply HR, H2].
  intros x2 H2 Hs2. apply IH; [done|]. by eapply io_same_trans.
Qed.

Lemma wp_wait_download (Q : unit -> TaskIo -> Prop) (R : error -> TaskIo -> Prop) s len x : rat s x -> r_check m s (Said (FlowWait (io_id x))) = Some s ->
  (forall x', rat s x' -> same x x' -> Q tt x') -> (forall err x', rseen s x' -> R err x') -> wp (wait_download len) Q R x.
Proof.
  intros Hat Hc HQ HR. unfold wait_download. apply wp_bind, wp_get. destruct (_ || _); [by apply wp_ret, HQ|].
  apply wp_bind, wp_modify. eapply wp_heartbeat; [|exact Hc| |done]; [destruct Hat; by split|]. intros x1 H1 Hs1. by apply HQ.
Qed.

Lemma filed_io s s' d : filed s d -> p_have s' = p_have s -> p_safe s' = p_safe s -> filed s' d.
Proof. intros [H1 H2 H3] E1 E2. split; [done|by rewrite E1|by rewrite E2]. Qed.

(** What is true when the loop returns. *)
Definition ended (x : TaskIo * D) : Prop :=
  exists s, rseen s x.1 /\ filed s x.2 /\ p_over s = true /\ (p_published s = true /\ p_have s = all_chunks m \/ p_safe s = true).

(** The file is published and the receipt sent. *)
Lemma wp_publish_download v s x : tracks v s -> rat s x.1 -> filed s x.2 -> p_have s = all_chunks m ->
  wp (publish_download m (io_id x.1)) (fun _ x' => ended x') (fun _ x' => left_ x') x.
Proof.
  intros Hv Hat Hf Hall. pose proof (tr_alive _ _ Hv) as Ha. pose proof (r_alive_inv s Ha) as (A1 & A2 & A3 & A4 & A5).
  assert (forall s' (x' : TaskIo * D), rseen s' x'.1 -> x'.2 = x.2 -> left_ x') as Hleft.
  { intros s' x' Hs' E. split; [rewrite E; apply Hf|by exists s']. }
  unfold publish_download. apply wp_bind, wp_on_io.
  eapply wp_set_state; [exact Hat|cbn; by rewrite A1, A2|cbn; rewrite A1, A2, bool_decide_true by done; done| |intros err x1 H1; eapply Hleft; [apply H1|done]].
  intros x1 H1 Hs1. apply wp_bind, wp_on_io. cbn [fst snd].
  eapply wp_perform; [exact H1|cbn; rewrite A1, A2, Ha, bool_decide_true by done; done| |intros err x2 H2 _; eapply Hleft; [apply H2|done]].
  intros x2 H2 Hs2. apply wp_bind, wp_on_io. cbn [fst snd].
  eapply wp_perform; [exact H2|cbn; by rewrite Hall, (bytes_for_all m Hvalid Hlen), Z.eqb_refl| |intros err x3 H3 _; eapply Hleft; [apply H3|done]].
  intros x3 H3 Hs3. apply wp_bind, wp_on_io. cbn [fst snd].
  eapply wp_say; [exact H3|done|cbn; by rewrite bool_decide_true| |intros err x4 H4 _; eapply Hleft; [apply H4|done]].
  intros x4 H4 Hs4. apply wp_on_io. cbn [fst snd]. eapply wp_note; [exact H4|cbn; done|]. intros x5 H5 Hs5. cbn [fst snd].
  eexists. split; [apply H5|]. split; [by eapply filed_io|]. split; [done|]. by left.
Qed.

(** Between two events. *)
Lemma wp_receiver_prepare v s x : tracks v s -> rat s x.1 -> filed s x.2 ->
  wp (prepare (io_id x.1) v)
    (fun next x' => same x.1 x'.1 /\
       match next with
       | Some v' => exists s', tracks v' s' /\ rat s' x'.1 /\ filed s' x'.2
       | None => exists s', rseen s' x'.1 /\ filed s' x'.2 /\ p_over s' = true /\ p_safe s' = true
       end)
    (fun _ x' => left_ x') x.
Proof.
  intros Hv Hat Hf. pose proof Hv as [T1 T2 [T3 T3'] T4 T8 T5 T6 T7]. pose proof (r_alive_inv s T7) as (A1 & A2 & A3 & A4 & A5).
  unfold prepare. destruct (r_pausing v) eqn:Ep; cbn [negb].
  2: { rewrite (alive_asking s T7) in Hat. apply wp_bind, wp_on_io. rewrite <- T1.
    eapply wp_request_chunks; [exact Hat|done|exact T3'|exact T8| |intros err x1 s1 H1; split; [apply Hf|by exists s1]].
    intros queue' out' x1 H1 Hs1 Hn1 Hd1 Hq1. apply wp_ret. cbn [fst snd]. split; [done|]. eexists. split; [|split; [exact H1|by eapply filed_io]].
    split; cbn; try done. intros Hc. by destruct (T5 Hc) as [? _]. }
  case_bool_decide as Ho; [|apply wp_ret; split; [done|]; by exists s].
  unfold settle_pause. apply wp_bind.
  set (s1 := asking (p_have s) (p_ask s) true (p_out s)).
  assert (forall (y : TaskIo * D), same x.1 y.1 -> rat s1 y.1 -> filed s1 y.2 ->
    wp (let! _ := match remote_pause v with Some request_id => on_io (send (Paused (io_id x.1) request_id)) | None => ret tt end in
        let! x0 := on_io get in
        if bool_decide (state_of (gate x0) (io_id x.1) = Some PausedState) then
          let! _ := on_io (progress (r_bytes v)) in
          let! _ := on_io (set_state TaskModel.Paused) in
          let! _ := on_io finish in ret None
        else ret (Some (mk_receiving (missing v) (outstanding v) (r_bytes v) (r_pausing v) None true)))
    (fun next x' => same x.1 x'.1 /\
       match next with
       | Some v' => exists s', tracks v' s' /\ rat s' x'.1 /\ filed s' x'.2
       | None => exists s', rseen s' x'.1 /\ filed s' x'.2 /\ p_over s' = true /\ p_safe s' = true
       end)
    (fun _ x' => left_ x') y) as Hrest.
  { intros y Hsy Hy Hfy. set (s2 := asking (p_have s) None true (p_out s)).
    assert (forall (z : TaskIo * D), same x.1 z.1 -> rat s2 z.1 -> filed s2 z.2 ->
      wp (let! x0 := on_io get in
        if bool_decide (state_of (gate x0) (io_id x.1) = Some PausedState) then
          let! _ := on_io (progress (r_bytes v)) in
          let! _ := on_io (set_state TaskModel.Paused) in
          let! _ := on_io finish in ret None
        else ret (Some (mk_receiving (missing v) (outstanding v) (r_bytes v) (r_pausing v) None true)))
      (fun next x' => same x.1 x'.1 /\
         match next with
         | Some v' => exists s', tracks v' s' /\ rat s' x'.1 /\ filed s' x'.2
         | None => exists s', rseen s' x'.1 /\ filed s' x'.2 /\ p_over s' = true /\ p_safe s' = true
         end)
      (fun _ x' => left_ x') z) as Hend.
    { intros z Hsz Hz Hfz. assert (forall (x' : TaskIo) (s' : rspec), rseen s' x' -> left_ (x', z.2)) as Hleft by (intros x' s' Hs'; split; [apply Hfz|by exists s']).
      apply wp_bind, wp_on_io, wp_get. cbn [fst snd]. case_bool_decide as Hst.
      2: { apply wp_ret. split; [done|]. exists s2. split; [|done].
        split; cbn; [done|done|by split|done|done|intros _; by rewrite T1|done|done]. }
      assert (r_idle s2 = true) as Hidle by (unfold r_idle; cbn; by rewrite T1, bool_decide_true).
      apply wp_bind, wp_on_io. eapply wp_perform; [exact Hz|cbn; by rewrite T2, Z.eqb_refl| |intros err x1 H1 _; eapply Hleft, H1].
      intros x1 H1 Hs1. apply wp_bind, wp_on_io. cbn [fst snd].
      eapply wp_set_state; [exact H1|done|cbn -[r_idle]; by rewrite Hidle| |intros err x2 H2; eapply Hleft, H2].
      intros x2 H2 Hs2. apply wp_bind, wp_on_io. cbn [fst snd].
      eapply wp_note; [exact H2|cbn -[r_idle]; by rewrite Hidle|]. intros x3 H3 Hs3. apply wp_ret. cbn [fst snd].
      split; [eapply io_same_trans; [exact Hsz|]; eapply io_same_trans; [exact Hs1|]; by eapply io_same_trans|].
      eexists. split; [apply H3|]. split; [|done]. by eapply filed_io. }
    apply wp_bind. rewrite <- T6. destruct (p_ask s) as [n|] eqn:Eask.
    - apply wp_on_io. eapply (wp_say _ _ _ _ _ _ _ _ s2); [exact Hy|done| | |intros err y1 H1 _; split; [apply Hfy|eexists; apply H1]].
      + cbn. rewrite ?Eask, bool_decide_true by done. by rewrite (bool_decide_true (p_out s = ∅)) by (by rewrite T1).
      + intros y1 H1 Hs1. apply Hend; cbn [fst snd]; [by eapply io_same_trans|done|by eapply filed_io].
    - apply wp_ret, Hend; [done| |by eapply filed_io]. unfold s1 in Hy. by rewrite ?Eask in Hy. }
  destruct (checkpointed v) eqn:Ec.
  - destruct (T5 eq_refl) as (_ & Hsafe & _). rewrite (alive_asking s T7), Hsafe in Hat. apply wp_ret, Hrest; [done|done|].
    eapply filed_io; [exact Hf|done|by rewrite Hsafe].
  - apply wp_bind, wp_on_file. eapply wp_conseq; [exact (law_checkpoint x.2 (fi_good _ _ Hf))|..]; cbn [fst snd].
    + intros _ d (Hg & Eb & Ed). apply wp_on_io. cbn [fst snd].
      eapply wp_note; [exact Hat|cbn; rewrite A1, A2; cbn; rewrite bool_decide_true by (by rewrite T1); done|].
      intros x1 H1 Hs1. rewrite A3, A4, A5 in H1. apply Hrest; [done|exact H1|]. cbn [snd]. split; [done| |by rewrite Eb].
      intros i. rewrite Eb. apply Hf.
    + intros e d Hg. split; [done|]. eexists. apply Hat.
Qed.

Lemma wp_check_flow (Q : unit -> TaskIo -> Prop) (R : error -> TaskIo -> Prop) x : Q tt x -> (forall err, R err x) -> wp check_flow_support Q R x.
Proof. intros HQ HR. unfold check_flow_support. apply wp_bind, wp_get, wp_liftr. destruct (_ && _); cbn; [apply HR|apply HQ]. Qed.

(** One frame. *)
Lemma wp_receive v s f x : tracks v s -> typed_frame f -> rat (r_hear s f) x.1 -> filed s x.2 ->
  wp (receiver_handle (io_id x.1) f v)
    (fun v' x' => same x.1 x'.1 /\ exists s', tracks v' s' /\ rat s' x'.1 /\ filed s' x'.2) (fun _ x' => left_ x') x.
Proof.
  intros Hv Hty Hat Hf. pose proof Hv as [T1 T2 [T3 T3'] T4 T8 T5 T6 T7]. pose proof (r_alive_inv s T7) as (A1 & A2 & A3 & A4 & A5).
  assert (forall s' (y : TaskIo * D), rseen s' y.1 -> dl_good y.2 -> left_ y) as Hleft by (intros s' y Hs' Hg; split; [done|by exists s']).
  unfold receiver_handle, r_hear in *. unfold typed_frame in Hty.
  destruct (message f) as [|t r have|t|t n|t|t r ver|t code|c|t i|t i data|t i|t|t|t|t|t|] eqn:Em;
    try (apply wp_throw; eapply Hleft; [apply Hat|apply Hf]).
  - (* Pause *)
    apply wp_bind. set (s1 := mk_rspec _ _ _ _ _ _ _ _ _) in Hat.
    assert (forall y, same x.1 y -> rat s1 y -> wp (ret (mk_receiving (missing v) (outstanding v) (r_bytes v) true (Some (request_id f)) (checkpointed v)))
      (fun v' x' => same x.1 x'.1 /\ exists s', tracks v' s' /\ rat s' x'.1 /\ filed s' x'.2) (fun (_ : error) x' => left_ x') (y, x.2)) as Hend.
    { intros y Hsy Hy. apply wp_ret. split; [done|]. exists s1. split; [|split; [done|by eapply filed_io]].
      split; cbn; [done|done|by split|done|done| |done|done]. intros Hc. by destruct (T5 Hc) as (_ & ? & ?). }
    destruct (r_pausing v).
    + apply wp_ret. destruct x as [x d]. by apply Hend.
    + apply wp_on_io. eapply wp_set_state; [exact Hat|done|done| |intros err x1 H1'; eapply Hleft; [apply H1'|apply Hf]].
      intros x1 H1' Hs1. by apply Hend.
  - (* Paused *)
    apply wp_ret. split; [done|]. by exists s.
  - (* Chunk *)
    rewrite <- T1. case_bool_decide as Hi; cbn [negb]; [|apply wp_throw; eapply Hleft; [apply Hat|apply Hf]].
    set (s1 := mk_rspec _ _ _ _ _ _ _ _ _) in Hat.
    apply wp_bind, wp_on_io, wp_check_flow; [|intros err; eapply Hleft; [apply Hat|apply Hf]].
    apply wp_bind, wp_on_io. cbn [fst snd]. eapply wp_wait_download; [exact Hat|done| |intros err x1 H1'; eapply Hleft; [apply H1'|apply Hf]].
    intros x1 H1' Hs1. apply wp_bind, wp_on_file. cbn [fst snd].
    eapply wp_conseq; [exact (law_write x.2 i data (fi_good _ _ Hf) (proj1 Hty))|..]; cbn [fst snd].
    2: { intros e d Hg. eapply Hleft; [apply H1'|done]. }
    intros _ d (Hg & Hver & Hview). apply wp_bind, wp_on_io. cbn [fst snd].
    set (s2 := mk_rspec ({[i]} ∪ p_have s) (p_out s ∖ {[i]}) None (Some i) (p_ask s) false false false false).
    eapply (wp_note _ _ _ _ _ _ _ _ s2); [exact H1'|cbn; by rewrite bool_decide_true, Hver by done|].
    intros x2 H2 Hs2. apply wp_bind, wp_on_io. cbn [fst snd].
    set (s3 := asking ({[i]} ∪ p_have s) (p_ask s) false (p_out s ∖ {[i]})).
    eapply (wp_say _ _ _ _ _ _ _ _ s3); [exact H2|done|cbn; by rewrite bool_decide_true by done| |intros err x3 H3 _; by eapply Hleft; [apply H3|]].
    intros x3 H3 Hs3. apply wp_bind, wp_on_io. cbn [fst snd].
    assert (0 <= i < Manifest.chunk_count m) as Hir.
    { split; [apply Hty|]. destruct (law_bitmap d Hg) as [Hwf Hc]. rewrite <- Hc. destruct (Z.lt_ge_cases i (ChunkBitmap.chunk_count (dl_bitmap d))) as [|Hge]; [done|].
      pose proof (Hview i (proj1 Hty)) as Hvi. rewrite Z.eqb_refl in Hvi. cbn in Hvi. rewrite ChunkBitmap.wf_padding in Hvi by (done || apply Hty). done. }
    assert (verified m i data = true -> chunk_bytes m i = Z.of_nat (length data)) as Hlb.
    { intros _. destruct (Manifest.verify_chunk_spec m i data Hvalid Hlen (proj1 Hty)) as (b & Eb & Hb). unfold verified in Hver. rewrite Eb in Hver. subst b.
      destruct (proj1 Hb eq_refl) as (range & Er & El & _). unfold chunk_bytes. rewrite Er. by destruct range. }
    assert (i ∉ p_have s) as Hnew by (by apply T8).
    assert (r_bytes v + Z.of_nat (length data) = bytes_for m ({[i]} ∪ p_have s)) as Eb
      by (rewrite bytes_for_insert, T2, <- (Hlb Hver) by done; done).
    rewrite Eb. eapply wp_sample; [exact H3|cbn; by rewrite Z.eqb_refl| |intros err x4 H4; by eapply Hleft; [apply H4|]].
    intros x4 H4 Hs4. apply wp_ret. cbn [fst snd]. split; [eapply io_same_trans; [exact Hs1|]; eapply io_same_trans; [exact Hs2|]; by eapply io_same_trans|].
    exists s3. split; [|split; [exact H4|]].
    + split; cbn; [done|done| | | | |done|done].
      * split; [done|]. intros j Hj. destruct (T3' j Hj) as (? & ? & ?). split; [done|]. assert (j <> i) by congruence. set_solver.
      * intros j [->%elem_of_singleton|Hj]%elem_of_union; [done|by apply T4].
      * intros j [Hj Hji]%elem_of_difference. pose proof (T8 j Hj). set_solver.
      * intros Hc. destruct (T5 Hc) as (_ & _ & E). rewrite E in Hi. by apply not_elem_of_empty in Hi.
    + split; [done| |done]. cbn. intros j. rewrite elem_of_union, elem_of_singleton, (fi_have _ _ Hf j). split.
      * intros [->|[H5 H6]]; [split; [apply Hty|]; rewrite Hview by apply Hty; by rewrite Z.eqb_refl|].
        split; [done|]. rewrite Hview by done. by rewrite H6, orb_true_r.
      * intros [H5 H6]. rewrite Hview in H6 by done. apply orb_true_iff in H6 as [E%Z.eqb_eq|E]; [by left|by right].
Qed.

(** Offers end the loop. *)
Lemma wp_handle_offer {B} id f v (k : receiving -> st (TaskIo * D) error B) (Q : B -> TaskIo * D -> Prop) (R : error -> TaskIo * D -> Prop) x :
  is_offer f = true -> (forall e, R e x) -> wp (let! v := receiver_handle id f v in k v) Q R x.
Proof. intros Ho HR. unfold is_offer in Ho. destruct f as [n msg]. apply wp_bind. by destruct msg; try apply wp_throw, HR. Qed.

Lemma wp_receive_rounds fuel v s x : tracks v s -> rat s x.1 -> filed s x.2 -> (size_of x.1 < fuel)%nat ->
  wp (receive_rounds fuel m (io_id x.1) v) (fun _ x' => ended x') (fun _ x' => left_ x') x.
Proof.
  revert v s x. induction fuel as [|fuel IH]; intros v s x Hv Hat Hf Hlt; [lia|]. cbn [receive_rounds].
  destruct (Z.eqb_spec (r_bytes v) (Manifest.total_len m)) as [Eb|Eb].
  { eapply wp_publish_download; [exact Hv|exact Hat|exact Hf|]. apply all_bytes; [done|done|apply (tr_range _ _ Hv)|]. by rewrite <- (tr_bytes _ _ Hv). }
  assert (forall v' s' y, tracks v' s' -> rat s' y.1 -> filed s' y.2 -> io_id y.1 = io_id x.1 -> (size_of y.1 < size_of x.1)%nat ->
    wp (receive_rounds fuel m (io_id x.1) v') (fun _ x' => ended x') (fun _ x' => left_ x') y) as Hnext.
  { intros v' s' y Hv' Hy Hfy Hid Hsz. rewrite <- Hid. apply (IH _ s'); [done|done|done|lia]. }
  apply wp_bind. eapply wp_conseq; [by eapply wp_receiver_prepare|..]; [|done].
  intros [v1|] x1 [[Hid1 Hsz1] Hx1]; [|destruct Hx1 as (s' & H1 & H2 & H3 & H4); apply wp_ret; exists s'; auto].
  destruct Hx1 as (s1 & Hv1 & Hat1 & Hf1). pose proof (tr_alive _ _ Hv1) as Ha1.
  apply wp_bind, wp_on_io. eapply wp_next_input; [apply r_heard|exact Hat1|done|..].
  - intros y Hy Hidy Hszy. apply wp_bind. cbn [fst snd].
    set (v2 := mk_receiving (missing v1) (outstanding v1) (r_bytes v1) true (remote_pause v1) (checkpointed v1)).
    assert (tracks v2 s1) as Hv2. { destruct Hv1 as [? ? ? ? ? Hc ? ?]. split; try done. cbn. intros Hcc. by destruct (Hc Hcc). }
    assert (forall z, rat s1 z -> same y z -> wp (let! _ := on_io (send (Pause (io_id x.1))) in receive_rounds fuel m (io_id x.1) v2)
      (fun _ x' => ended x') (fun _ x' => left_ x') (z, x1.2)) as Hrest.
    { intros z Hz [Hidz Hszz]. pose proof (r_alive_inv s1 Ha1) as (A1 & A2 & _). apply wp_bind, wp_on_io.
      eapply wp_say; [exact Hz|done|cbn; by rewrite A1, A2| |intros e w Hw _; split; [apply Hf1|eexists; apply Hw]].
      intros w Hw [Hidw Hszw]. apply (Hnext _ s1); cbn [fst snd] in *; [done|done|done|congruence|lia]. }
    destruct (r_pausing v1); [by apply wp_ret, Hrest|].
    pose proof (r_alive_inv s1 Ha1) as (A1 & A2 & _). apply wp_on_io.
    eapply wp_set_state; [exact Hy|cbn; by rewrite A1, A2|cbn; by rewrite A1, A2| |intros e w Hw; split; [apply Hf1|eexists; apply Hw]].
    intros z Hz Hsz. by apply Hrest.
  - intros f y (Hty & Hseen & Hcase) Hidy Hszy. cbn [fst snd].
    destruct Hcase as [Ho|[Hown Hy]]; [apply wp_handle_offer; [done|]; intros e; split; [apply Hf1|by eexists]|].
    apply wp_bind. replace (io_id x.1) with (io_id (y, x1.2).1) by (cbn; congruence).
    eapply wp_conseq; [eapply (wp_receive v1 s1 f (y, x1.2)); [done|done|done|]|..]; cbn [fst snd]; [exact Hf1| |done].
    intros v2 x2 ([Hid2 Hsz2] & s2 & Hv2 & Hat2 & Hf2). rewrite Hidy, Hid1. apply (Hnext _ s2); [done|done|done|congruence|lia].
  - intros e y Hy. split; [apply Hf1|eexists; apply Hy].
Qed.
End Receiver.

(** The chunks a download starts with. *)
Definition marked (bm : ChunkBitmap.t) : gset Z := list_to_set (List.filter (view bm) (seqZ 0 (ChunkBitmap.chunk_count bm))).

Lemma in_marked bm i : wf bm -> i ∈ marked bm <-> 0 <= i /\ view bm i = true.
Proof.
  intros Hwf. unfold marked. rewrite elem_of_list_to_set, list_elem_of_In, filter_In, <- list_elem_of_In, elem_of_seqZ. split; [naive_solver lia|].
  intros [H1 H2]. split; [|done]. split; [done|]. destruct (Z.lt_ge_cases i (0 + ChunkBitmap.chunk_count bm)); [done|].
  rewrite ChunkBitmap.wf_padding in H2; [done|done|lia].
Qed.

Section Whole.
Context `{Blake3} {D : Type} `{Download D} (m : FileManifest) `{!DownloadLaws D m}.
Context (Hvalid : Manifest.valid m) (Hlen : is_u64 (Manifest.total_len m)).

Lemma wp_receiver_loop fuel (x : TaskIo) (d : D) : dl_good d ->
  at_ (r_check m) (rspec0 (marked (dl_bitmap d))) (trace x) (Manifest.root_hash m) Remote (rspec0 (marked (dl_bitmap d))) x ->
  (size_of x < fuel)%nat ->
  wp (receiver_loop fuel m) (fun _ x' => ended m (trace x) (marked (dl_bitmap d)) x')
    (fun _ x' => left_ m (trace x) (marked (dl_bitmap d)) x') (x, d).
Proof.
  intros Hg Hat Hlt. destruct (law_bitmap d Hg) as [Hwf Hc]. set (s0 := rspec0 _) in *.
  unfold receiver_loop. apply wp_bind, wp_on_file, wp_get. cbn [fst snd]. apply wp_bind, wp_on_io, wp_get. cbn [fst snd].
  apply wp_bind, wp_liftr. rewrite ChunkBitmap.missing_spec by done. apply wp_bind, wp_liftr. rewrite ChunkBitmap.present_spec by done.
  change (list_to_set _) with (marked (dl_bitmap d)). apply wp_bind, wp_on_io. cbn [fst snd].
  assert (forall y : TaskIo, seen (r_check m) s0 (trace x) s0 y -> left_ m (trace x) (marked (dl_bitmap d)) (y, d)) as Hleft
    by (intros y Hy; split; [done|by exists s0]).
  eapply wp_say; [exact Hat|done|cbn; by rewrite bool_decide_true| |intros e y Hy _; apply Hleft, Hy].
  intros x1 H1 [Hid1 Hs1]. apply wp_bind, wp_on_io. cbn [fst snd].
  eapply wp_note; [exact H1|cbn; by rewrite Z.eqb_refl|]. intros x2 H2 [Hid2 Hs2]. apply wp_bind, wp_on_io. cbn [fst snd].
  eapply wp_perform; [exact H2|cbn; by rewrite Z.eqb_refl| |intros e y Hy _; apply Hleft, Hy]. intros x3 H3 [Hid3 Hs3]. cbn [fst snd].
  replace (io_id x) with (io_id (x3, d).1) by (cbn; congruence).
  apply (wp_receive_rounds m (trace x) _ Hvalid Hlen fuel _ s0 (x3, d)); [|exact H3| |cbn; lia].
  - assert (forall i, i ∈ marked (dl_bitmap d) -> 0 <= i < Manifest.chunk_count m) as Hr.
    { intros i Hi. rewrite <- Hc. apply elem_of_list_to_set, list_elem_of_In, filter_In in Hi as [Hi _]. apply list_elem_of_In, elem_of_seqZ in Hi. lia. }
    split; cbn; [done|done| |exact Hr|done|done|done|done]. split; [apply NoDup_ListNoDup, List.NoDup_filter, NoDup_ListNoDup, NoDup_seqZ|].
    intros i Hi. apply list_elem_of_In, filter_In in Hi as [Hi Hn]. apply list_elem_of_In, elem_of_seqZ in Hi. split; [lia|].
    split; [|set_solver]. rewrite in_marked by done. intros [_ E]. by rewrite E in Hn.
  - split; [done| |done]. cbn. intros i. by apply in_marked.
Qed.
End Whole.

(** C6: A receiver never misbehaves either, over any download that obeys the laws (those
    of Storage.v do). Of a task whose offer it accepted, the loop ends without a panic
    whatever the peer sends, whichever call fails and whenever the user pauses, and what
    it did is a run of the automaton: it asks only for chunks that the file lacks and
    that are not on their way, at most four at a time; it writes only a chunk it asked
    for whose bytes the manifest confirms, and acknowledges only a chunk it has just
    written; it shows exactly the bytes of the chunks in the file; it confirms a pause
    only when nothing is on its way and the file is safe since the last checkpoint; it
    publishes only with every chunk present and sends the receipt only after that. It
    returns only published, or paused with every marked chunk durable. *)
Theorem receiver_keeps_to_protocol `{Blake3} {D : Type} `{Download D} (m : FileManifest) `{!DownloadLaws D m} (x : TaskIo) (d : D) :
  Manifest.valid m -> is_u64 (Manifest.total_len m) -> only (io_id x) (Manifest.root_hash m) Remote (gate x) -> pending x = [] ->
  Forall typed_input (inputs x) -> dl_good d ->
  let '(r, (x', d')) := receiver_loop (S (length (inputs x))) m (x, d) in
  r <> Panic /\ dl_good d' /\
  exists new s, trace x' = trace x ++ new /\ follow (r_check m) (rspec0 (marked (dl_bitmap d))) new = Some s /\
    (r = Ok tt -> p_over s = true /\ p_have s = marked (dl_bitmap d') /\
       (p_published s = true /\ p_have s = all_chunks m \/ dl_durable d' = dl_bitmap d')).
Proof.
  intros Hv Hl Ho Hp Ht Hg. set (s0 := rspec0 (marked (dl_bitmap d))).
  assert (at_ (r_check m) s0 (trace x) (Manifest.root_hash m) Remote s0 x) as Hat.
  { split; [exists []; by rewrite app_nil_r|rewrite Hp; by left|by rewrite Hp]. }
  pose proof (wp_receiver_loop m Hv Hl (S (length (inputs x))) x d Hg Hat) as Hw.
  unfold size_of, wp in Hw. rewrite Hp in Hw. cbn [length] in Hw. specialize (Hw ltac:(lia)).
  destruct (receiver_loop _ _ (x, d)) as [[[]|e|] [x' d']]; [| |done].
  - destruct Hw as (s & (new & E & Hs) & Hf & Ho1 & Ho2). split; [done|]. split; [apply Hf|]. exists new, s.
    split; [done|]. split; [done|]. intros _. split; [done|]. split.
    + apply set_eq. intros i. rewrite in_marked by apply (law_bitmap d' (fi_good _ _ _ Hf)). apply (fi_have _ _ _ Hf).
    + destruct Ho2 as [?|Hsafe]; [by left|right]. by apply (fi_safe _ _ _ Hf).
  - destruct Hw as [Hg' (s & new & E & Hs)]. split; [done|]. split; [done|]. exists new, s. split; [done|]. by split.
Qed.

(** ** A transfer of three bytes *)

Definition demo_gate : TaskProtocol :=
  mk_protocol [7] {[demo_task := mk_binding false Remote (Manifest.root_hash StorageProof.Demo.m) 1 Offered (0, 1) (None, None)]}.
Definition demo_inputs : list input := [Arrived false (mk_frame 2 (Chunk demo_task 0 [1; 2; 3]))].
Definition demo_io : TaskIo :=
  mk_io [7] demo_task demo_gate [] demo_inputs [] [true] [] [] (mk_flow false true) [].

Lemma receiver_keeps_to_protocol_witness :
  let root := Manifest.root_hash StorageProof.Demo.m in
  exists x' d', @receiver_loop StorageProof.Demo.hash _ (@storage_download StorageProof.Demo.hash StorageProof.Demo.hex) 2 StorageProof.Demo.m
      (demo_io, StorageProof.Demo.state1) = (Ok tt, (x', d')) /\
    trace x' = [Said (Resume demo_task root [0]); RateReset 0; Progressed 0; Said (RequestChunk demo_task 0);
                Heard (mk_frame 2 (Chunk demo_task 0 [1; 2; 3])); Wrote 0 [1; 2; 3]; Said (ChunkAck demo_task 0); Progressed 3;
                TaskSet TaskModel.Finalizing; Published; Progressed 3; Said (Completed demo_task root 1); Closed] /\
    exists s, follow (@r_check StorageProof.Demo.hash StorageProof.Demo.m)
        (rspec0 (marked (Storage.written_bitmap StorageProof.Demo.state1.1))) (trace x') = Some s /\ p_over s = true.
Proof.
  intros root. set (h := StorageProof.Demo.hash). set (m := StorageProof.Demo.m).
  assert (@Manifest.valid h m) as Hv by exact (proj1 (@Manifest.validate_Ok h m) StorageProof.Demo.m_valid).
  assert (only demo_task root Remote demo_gate) as Ho by (eexists; split; [reflexivity|done]).
  assert (Forall typed_input demo_inputs) as Ht by (repeat constructor; cbn; unfold U32_MAX; lia).
  pose proof (@receiver_keeps_to_protocol h _ (@storage_download h StorageProof.Demo.hex) m
    (@storage_laws h StorageProof.Demo.hex m 0 StorageProof.Demo.m_second_preimage_free) demo_io StorageProof.Demo.state1
    Hv ltac:(cbn; unfold in_range, U64_MAX; lia) Ho eq_refl Ht TransferProof.Demo.state1_receiving) as Hs.
  change (S (length (inputs demo_io))) with 2%nat in Hs.
  set (run := @receiver_loop h _ (@storage_download h StorageProof.Demo.hex) 2 m (demo_io, StorageProof.Demo.state1)) in *.
  assert (run.1 = Ok tt) as E1 by (vm_compute; reflexivity).
  assert (trace run.2.1 = [Said (Resume demo_task root [0]); RateReset 0; Progressed 0; Said (RequestChunk demo_task 0);
                Heard (mk_frame 2 (Chunk demo_task 0 [1; 2; 3])); Wrote 0 [1; 2; 3]; Said (ChunkAck demo_task 0); Progressed 3;
                TaskSet TaskModel.Finalizing; Published; Progressed 3; Said (Completed demo_task root 1); Closed]) as E2
    by (vm_compute; reflexivity).
  destruct run as [r [x' d']]. cbn [fst snd] in E1, E2. subst r. exists x', d'. split; [done|]. split; [done|].
  destruct Hs as (_ & _ & new & s & En & Hf & Hov). exists s. cbn in En. subst new. split; [exact Hf|by apply Hov].
Defined.
End TaskReceiver.
